(* ===== verification/_CoqProject ===== *)
-Q . S2P
Prelude.v
Base64.v
Values.v
Contracts.v
Application.v
Forum.v
Institutional.v
Json.v
WireBundle.v
Canonical.v
WireReader.v
Database.v
Cas.v
TicketStore.v
DecisionStore.v
Lifecycle.v
BufferStatus.v
Scheduler.v
ProcessStore.v
Packet.v
ProcessReads.v
PacketAdmission.v
Effects.v
CampaignDriver.v
ProviderEffects.v
SessionRuntime.v
AssignmentRuntime.v
Harness.v
HarnessStore.v
TerminalEvidence.v
ForumStore.v
PublicationStore.v
PacketBuild.v
Custody.v
PacketProofs.v
PacketCanonical.v
HarnessProofs.v
ForumProofs.v
ForumPages.v
PacketSeal.v
PacketReader.v
Storage.v
Admission.v
ApplicationContract.v
Refinement.v
Kernel.v
ProcessRefinement.v
Frames.v
Receipts.v
Restore.v
Bootstrap.v
DriverRuns.v
LaunchRuns.v
History.v
Scenario.v
Invariants.v
Authority.v
Idempotency.v
Installation.v
Fingerprints.v
Guards.v
Scheduling.v
Accounting.v
ProcessScenario.v
InstallationScenario.v
PacketScenario.v
DriverScenario.v
Economy.v
Ledger.v
ProcessIdempotency.v
DriverCommands.v
ForumSearch.v
ForumTexts.v
PublicationProofs.v
ForumScenario.v
PublicationScenario.v
Recovery.v
Sessions.v
Driving.v
RestartRecovery.v
