(* ===== verification/Prelude.v ===== *)
(** * Factory V3: the authority of the kernel

    Factory V3 turns a reproducible product defect into a reviewed, locally
    delivered commit.  The kernel ([crates/factory-kernel]) owns the durable
    state in PostgreSQL and admits every change through typed, idempotent and
    optimistically fenced commands; actors and operators only propose.  This
    library models the part that decides what may happen and what may be spent:
    the contracts of [crates/factory-protocol] the commands carry, the three
    stores that execute them (tickets, decisions, processes), the schema
    constraints they run under, the scheduler that selects the next action, the
    daemon's driver and the runtimes that carry the selected action out, the
    content-addressed store and the admission of builds, artifacts and
    applications the rest starts from, the assignment packets and their harness,
    the Forum and the publications its actors write, the recovery of a session
    whose daemon died, and the base64 codecs the session messages pass through.

    ** Files

    - [Prelude]: fallible computations ([result], stdpp's bind notation),
      inversion of [?] chains ([ok_inv]), machine integers and bytes, tables as
      finite maps, sorted reads, sums over the rows of a table.
    - [Base64]: the four decoders and three encoders of the crates and their
      theorems.
    - [Values]: money, digests, identifiers, revisions and the four path types
      ([value.rs], [error.rs], [identifier.rs], [revision.rs], [path.rs],
      [state.rs]), with their exact parsing theorems.
    - [Contracts]: validation of ticket, candidate and decision documents
      ([ticket.rs], [candidate.rs], [decision.rs]).
    - [Database]: rows, inserts and updates under the constraints of
      [schema/migrations/0001_initial_authority.sql], and the lifecycle codes.
    - [Application]: validation of an application bundle, the template language
      and its renderer, the compiler of declared sources ([application.rs]).
    - [Json], [WireBundle]: the JSON writers, frames and routing, and the
      application bundle on the wire with its canonical text and its way into
      the domain ([wire.rs]); [Canonical]: what those texts promise, against the
      interface of a JSON reader ([LawfulReader]) that [WireReader] implements.
    - [Packet]: the assignment packet in the domain and on the wire, its checks,
      its canonical bytes, its seal and its verification ([protocol process.rs],
      [wire.rs]); [PacketAdmission]: the process store's comparison of the two
      forms, admission from the packet's bytes and the loading of a packet at a
      restart ([process.rs]); [Harness]: reads, evidence, target text, prompts
      and the inspectable specification of an assignment ([harness.rs],
      [assignment_runtime.rs]); [PacketBuild]: the packet the runtime seals;
      [HarnessStore]: the compilation recorded with a compiled assignment
      ([harness_store.rs]).
    - [PacketProofs], [PacketCanonical], [PacketSeal]: the theorems on packets,
      against the interface of the packet's codec ([LawfulPacketCodec]) that
      [PacketReader] implements; [PacketScenario]: one packet from its material
      to its recovery; [HarnessProofs]: the theorems on reads,
      evidence, specifications and recorded compilations.
    - [Forum]: the contracts of the Forum and its search cursor ([forum.rs]);
      [ForumStore]: its tables, commands, reads and search ([forum_store.rs]),
      and the dispatch of the actor socket ([forum_rpc.rs]).
      [ForumProofs], [ForumPages], [ForumSearch], [ForumTexts]: the theorems on
      its records, its pages, its search and the identity of its commands;
      [ForumScenario]: a topic with its threads and posts.
    - [Institutional]: the institutional records, their checks and the closed
      references between them ([institutional.rs]); [PublicationStore]: the
      anchored publications of actors and operators ([publication_store.rs],
      [publication_rpc.rs], [operator_publication_rpc.rs], [wire.rs]);
      [PublicationProofs], [PublicationScenario]: their theorems and a question
      with its answer.
    - [Cas]: the object store on a disk that other processes change, on which
      every call can fail or be the last ([cas.rs]).
    - [Storage]: installation of a kernel build, registration of repositories
      and artifacts, and the restore gate of the daemon ([storage.rs]).
    - [Admission]: sealing of a bundle with its templates and policies,
      admission and activation of the revision ([application_admission.rs],
      [application_activation.rs]).
    - [TicketStore]: the eight state-changing operations of [ticket_store.rs]:
      proposal, sponsorship, claim, failure, the two retries, release and
      campaign completion.
    - [DecisionStore]: the eight of [decision_store.rs]: candidate submission,
      validation, commit attachment, Quality review, the Architect's
      sponsorship, release and verdict, and the delivery record.
    - [Lifecycle]: all sixteen operations as one [Command] type with
      [execute], the steps of the surrounding kernel, the abstract transition
      relation of the ticket lifecycle, and reachability.
    - [BufferStatus], [Scheduler]: the status read of [ticket_store.rs] with the
      reads of failed attempts worth retrying, and the decision of
      [scheduler.rs].
    - [ProcessReads]: what the driver and the operator read: campaign, session
      and product status, the spend report and the sessions a restarted daemon
      recovers ([process.rs]).
    - [Effects]: computations that act on the database through calls, with the
      rest of the kernel acting before each of them.
    - [CampaignDriver]: one pass of the resident daemon ([campaign_driver.rs]),
      its command identities and failure reasons, and the loop of [factoryd].
    - [SessionRuntime], [AssignmentRuntime]: how an assignment is materialized
      and its session launched, stopped, reconciled and settled
      ([session_runtime.rs], [assignment_runtime.rs]).
    - [ProcessStore]: campaigns, assignments, paid sessions, cancellation and
      the settlement of a session's cost into its campaign ([process.rs]).
    - [TerminalEvidence]: the exact reads of a session, the assertion the daemon
      makes of them and the verification of the evidence a session ends with
      ([workspace_read.rs], [process.rs]); [RestartRecovery]: what a daemon does
      at its start with the sessions of its predecessor, from the process group
      to the terminal transition, with its theorems and a daemon that died
      ([restart_recovery.rs]).
    - [ProviderEffects]: the start and settlement of provider requests, the
      ledger they add up to ([process.rs]) and the reconciliation of a terminal
      report with it ([session_runtime.rs]).
    - [Kernel]: the process commands as [ProcessCommand] with
      [execute_process]; [kernel_step] interleaves them with the ticket
      commands and the ambient steps below, [kernel_reachable] are the states
      such runs lead to.
    - [Refinement], [ProcessRefinement]: every committed command is a sequence
      of transitions; a process command is a step the ticket lifecycle
      tolerates from its environment.
    - [Frames]: what the ticket commands leave alone.
    - [Receipts], [Restore], [Bootstrap]: each command leaves one creation
      receipt for each row it creates and only receipts of rows that exist.
    - [DriverRuns], [LaunchRuns]: the contracts of the services the driver and
      the runtimes call, as classes; passes and launches as kernel runs.
    - [History], [Invariants]: what transitions preserve.
    - [Accounting]: the invariant of the books, preserved by every kernel step.
    - [Authority], [Idempotency], [Fingerprints], [Guards], [Scheduling]:
      the theorems on tickets, decisions and the scheduler.
    - [Economy], [Ledger], [ProcessIdempotency]: the theorems on sessions and
      money, and orders of process commands the guards admit.
    - [DriverCommands], [Recovery], [Driving]: the theorems on the driver;
      [Sessions]: those on settled sessions and the report.
    - [Custody]: the theorems on the object store; [ApplicationContract]: those
      on templates and compilation; [Installation]: installations grown from
      nothing and the restore gate.
    - [InstallationScenario]: such an installation, from the build to a failed
      attempt.
    - [Scenario], [ProcessScenario], [DriverScenario]: a small installation, one
      ticket from proposal to delivery, one campaign with its sessions and a
      daemon that drives it, on which the theorems are applied to concrete
      databases.

    ** What is shown

    - Invariants of every reachable database ([Authority]): rows are well
      formed, at most one ticket of an application revision is in flight, an
      in-flight ticket has exactly one unreleased attempt, a verdict rests on a
      review and two passed validations, a delivery rests on all of its
      evidence and happens once per ticket revision.
    - The books of every reachable kernel state ([Economy]): at most one
      campaign and one paid session run, a campaign's measured cost is the sum
      of what its ended sessions cost and stays within the budget while it is
      known, a delivery records exactly that sum, and a running session can
      always be brought to its end.
    - The provider ledger ([Ledger]): what is settled never changes, a report
      is reconciled exactly or refused, the cost of an ended session is for ever
      the sum of its settled effects.
    - Refinement and history: commands refine the abstract lifecycle; runs only
      extend history (no ticket, attempt, candidate, validation, review, decision
      or delivery disappears, their identity columns and terminal states stay,
      their revisions grow, and a campaign keeps its application revision and its
      build); tickets follow the lifecycle edges.
    - Idempotency: an identity commits at most one change, a different command
      under a recorded identity is refused ([Idempotency] for tickets and
      decisions, [ProcessIdempotency] for processes), and the hashed bytes of a
      command determine it ([Fingerprints]); a collision of the hash itself is
      outside the model.
    - Guards: what a claim demands and leaves, how claims fence each other, the
      two-run requalification rule of both stores, single retries.
    - Scheduling: the selected action is exactly the one whose own condition
      holds; selected claims and completions commit on the snapshot they were
      selected on; heads are the oldest work.
    - The daemon ([Driving], [Recovery], [DriverCommands]): over any number of
      passes, with anything else acting between any two of their calls, at most
      two retries of a campaign's Product work are scheduled, and at three
      assignments the campaign is closed; a waiting pass repeats unchanged; when
      nothing else acts, the recovery work the driver reads commits, and it is
      never read again; its command identities are valid and never shared.
    - Restart ([RestartRecovery]): recovery signals only the process group that
      was recorded, and only after its leader was seen in it; its waits end;
      wherever it fails or dies it is a run of the kernel, and when it returns
      every session that ran is ended at an unknown cost and observed to be gone;
      a file that a write cut short left under the name of its assertion stops it
      for ever.
    - Paid sessions ([Sessions]): a session the runtime reports
      over cost what its effects cost, a contradicting report settles nothing,
      and the spend report adds up to the books.
    - The object store ([Custody]): whatever fails and wherever the process dies,
      only whole objects appear, they never change, and an adopted seal can be
      read back for ever.
    - Installations ([Installation], [Bootstrap]): from an empty database and an
      empty store, any run of the commands of the storage, admission, activation,
      ticket, decision and process stores leads to a state the daemon's restore
      gate accepts, but for one receipt kind it does not know; the gate accepts a
      state exactly when every fact has its receipts (one, or for an artifact at
      least one), every receipt its row and every artifact its object.
    - Applications ([ApplicationContract]): an admitted template renders under
      every assignment of its placeholders, a NUL byte or the byte limit aside; the source digest determines the
      compiled files.
    - Packets ([PacketSeal], [PacketProofs], [PacketCanonical]): what the runtime
      seals passes every check of the store, an admitted packet is the one a
      restart loads, and the digest of a packet identifies it.
    - Harness compilations ([HarnessProofs]): the reads and the evidence of an
      assignment are exactly those its context and target demand, what the
      compiler produces satisfies its contract, and the first compilation
      recorded for an assignment is the one every later read returns.
    - The Forum ([ForumProofs], [ForumPages], [ForumSearch], [ForumTexts]): every
      record has one receipt and the receipts number the revisions without a gap,
      records only grow and a retried command is answered as before, a client that
      follows the cursors reads every post of a thread once, a continued search
      loses and repeats no hit, and the hashed bytes of a command determine it
      with its actor.
    - Publications ([PublicationProofs]): every publication is
      anchored in its own application revision, immutable and receipted once; the
      wire and the store accept the same requests; the hashed bytes of a command
      determine it.
    - The canonical bundle text ([Canonical]) determines the bundle, is a JSON
      text with its keys in order and is read back.
    - Base64: the encoders agree, three decoders accept exactly the canonical
      encodings, the fourth also accepts aliases of them.

    ** Modelling conventions

    Identifiers, revisions and lifecycle codes are [Z] with the bounds of their
    Rust type or SQL column checked where the source checks them
    ([i64_max], [u64_max], [u32_from_sql]).  Strings are byte strings (UTF-8).
    A transaction is a function from a [Database] to an error or a receipt and
    the next [Database]: an error rolls back, and the row locks and advisory
    locks of the source serialize the transactions, which therefore run one at
    a time in the model.  [CURRENT_TIMESTAMP] is [now]; [to_timestamp] of a
    reported second is the argument [ts], PostgreSQL's own function.  An
    identity column's next value is [fresh_id].  A constraint of the schema is
    checked by the insert or update that can violate it; a foreign key or CHECK
    that the command types or the reads before it already imply is not repeated.
    BLAKE3 is third-party code and an argument [blake3] of the operations that
    use it; of it the packet theorem alone assumes that a digest has 32 bytes, and
    theorems on digests name the collision they would need.  The JSON library
    (miniserde) is a class ([BundleReader], [WireBundle.Json]) whose laws the theorems
    on canonical texts take, as is the source directory of an admission.  The disk of the
    object store is a value; [meanwhile] lets other processes change it before
    each call and [outcome] decides whether the call proceeds, fails or is the
    last one of the process ([Machine]); a loop over temporary names takes the
    number of [turns] it may take, and enough of them are one more than the
    temporary files there are.

    [create_assignment] receives its packet as the wire layer hands it over:
    canonical bytes, digest and CAS object verified, prompts still encoded;
    [create_prepared_assignment] puts those checks before it.
    [terminal_session] receives the evidence capability that
    [verify_terminal_evidence_with_packet_bytes] mints.  For the theorems on
    tickets alone, the rest of the kernel takes [environment] steps between two
    commands: start and end sessions, accrue cost, close campaigns, register
    artifacts, write other audit rows and let time pass.  The theorems on the
    whole kernel replace the first three by the process commands themselves and
    keep the rest as [ambient] steps.  The loops of the
    source run over lists, but for these: the template scan and the renderer
    take the length of their text as fuel ([ApplicationContract.names_render]
    shows it is enough), the restore gate one page more than there are artifacts
    ([Installation.verify_pages_Ok]), the object store its [turns], and of the
    daemon's own endless loop [run_passes] makes any given number of passes.

    The Forum and the publications keep their tables beside the kernel's database
    and share its receipts and artifacts; between two of their commands the rest
    of the installation takes [elsewhere] steps, which write no record and no
    receipt of theirs.  What PostgreSQL computes for a search (matching, ranks,
    headlines, timestamps) is the class [PostgresFunctions]; ranks are non-negative
    floats, ordered as the integers of their bits.  The institutional tables the
    kernel only reads are a list of references with their application revision.

    Restart recovery runs over the object store's machine, its own files, the
    database and a [Host]: the operating system is the class [Platform], each
    call of which gives a next state, and the calls that inspect or signal a
    process are recorded as events.  [recovery_call] lets other processes act on
    the disk before each call and lets the call fail or be the last one, after a
    part of its effect: a transaction whole or not at all, a file with any part
    of its bytes.  The waits for a process group take the number of polls they
    may take; 26 are enough for the grace of 250 ms and the interval of 10 ms
    ([RestartRecovery.group_termination_ends], from [LawfulClock]).

    A driver pass is a computation over a [World]: before each call it makes to
    a store or a service, [between] lets the rest of the kernel act.  What the
    driver and the runtimes call outside the modelled code is a class of
    operations ([DriverServices], [SessionServices], [AssignmentServices], whose [supervise]
    is what happens between the creation of an assignment and the start of its
    session); the
    theorems assume of them that they act through the kernel
    ([LawfulResolver], [LawfulSession], [LawfulAssignment]), that minted
    evidence carries the usage it was minted for and that a sequence never
    returns an identity in use.  [LaunchRuns] discharges the contract the driver
    has with its launch service ([LawfulLaunch]) from the runtime modelled here,
    and [DriverScenario] instantiates every class with concrete functions.

    ** What is not modelled

    The RPC handlers of a live session with its streams, transcript and files
    ([SessionServices.live] is any run of the kernel), the loading of the
    application's templates from the store, the resolver with the candidate and
    product runtimes behind it,
    the supervision of live processes, git, the transports and
    operator projections, the operator's route to the Forum, the
    verification of installed binaries, the Tea host but for its base64 decoder, and the command-line
    programs but for the driver loop.  They reach this state only through the
    commands and the steps above.  Of [ticket_store.rs] the proposal admission
    context is left out; of [process.rs] the navigation listings, of
    [workspace_read.rs] the decoding of a frame and the sealing of the assertion
    by a live session, whose evidence the launch takes as minted.  The status read runs several statements in the source
    and one snapshot here.

    ** What the modelling showed

    The code departs from its documents in
    [Installation.engineering_retry_prevents_restart] (the daemon does not start
    again after an Engineering retry),
    [RestartRecovery.partial_assertion_blocks_restart] (nor after a crash while it
    wrote its recovery evidence),
    [Bootstrap.canonical_bundle_with_newline_refused],
    [Guards.rejected_review_forbids_rework], [Guards.released_attempt_revived],
    [Guards.architect_responsors_attempted_ticket],
    [Guards.architect_ignores_ready_maximum],
    [Economy.stale_allowance_runs],
    [Economy.cancelled_known_cost_admits_session],
    [HarnessProofs.retry_reports_other_context] (the receipt of a retried
    compilation can list context that is not stored),
    [PublicationProofs.operator_retry_ignores_office] (a publication for a second
    office is answered as a retry of the first),
    [PublicationScenario.line_break_refused],
    [Base64.prompt_encodings_alias], [DriverCommands.failure_reason_exact]
    (the driver panics on some failure texts) and
    [Sessions.contradicted_session_keeps_running] (a launch can return with its
    session still running, which blocks the daemon until it restarts). *)
From Stdlib Require Export ZArith Lia Bool Sorted.
From stdpp Require Export base tactics option list strings gmap.

#[global] Open Scope Z_scope.

Create HintDb table.

(** * Fallible computations

    [result E A] is Rust's [Result<A, E>].  It is a monad for stdpp's
    [x ← m; k] notation, so a translated function reads like the [?] chain it
    models. *)

Inductive result (E A : Type) : Type :=
  | Ok (a : A)
  | Err (e : E).
Arguments Ok {E A} a.
Arguments Err {E A} e.

#[global] Instance result_ret {E} : MRet (result E) := fun A => @Ok E A.
#[global] Instance result_bind {E} : MBind (result E) := fun A B f m =>
  match m with Ok a => f a | Err e => Err e end.
#[global] Instance result_fmap {E} : FMap (result E) := fun A B f m =>
  match m with Ok a => Ok (f a) | Err e => Err e end.

#[global] Instance result_eq_dec {E A} `{EqDecision E, EqDecision A} :
  EqDecision (result E A).
Proof. solve_decision. Defined.

(** [if !b { return Err(e) }] *)
Definition require {E} (b : bool) (e : E) : result E unit :=
  if b then Ok tt else Err e.

(** [o.ok_or(e)] *)
Definition ok_or {E A} (o : option A) (e : E) : result E A :=
  match o with Some a => Ok a | None => Err e end.

(** [r.map_err(f)], the implicit [From] conversion of [?]. *)
Definition map_err {E F A} (f : E -> F) (r : result E A) : result F A :=
  match r with Ok a => Ok a | Err e => Err (f e) end.

Definition is_ok {E A} (r : result E A) : bool :=
  match r with Ok _ => true | Err _ => false end.

(** [o.map(f).transpose()] *)
Definition transpose_map {E A B} (f : A -> result E B) (o : option A)
  : result E (option B) :=
  match o with None => Ok None | Some a => Some <$> f a end.

(** A loop that runs a fallible check on every element, in order. *)
Fixpoint for_each {E A} (f : A -> result E unit) (l : list A) : result E unit :=
  match l with
  | [] => Ok tt
  | a :: l => f a ;; for_each f l
  end.

(** A loop that checks every element around its insertion into a set of keys:
    [before(a)?; if !seen.insert(key(a)) { return Err(duplicate) } after(a)?]. *)
Fixpoint for_each_seen {E A K} `{EqDecision K} (key : A -> K) (duplicate : E)
    (before after : A -> result E unit) (seen : list K) (l : list A) : result E unit :=
  match l with
  | [] => Ok tt
  | a :: l =>
      before a ;;
      (if bool_decide (key a ∈ seen) then Err duplicate else Ok tt) ;;
      after a ;;
      for_each_seen key duplicate before after (key a :: seen) l
  end.

(** [iter.map(f).collect::<Result<Vec<_>, _>>()] *)
Fixpoint map_ok {E A B} (f : A -> result E B) (l : list A) : result E (list B) :=
  match l with
  | [] => Ok []
  | a :: l => b ← f a; bs ← map_ok f l; Ok (b :: bs)
  end.

Section result_lemmas.
  Context {E : Type}.

Lemma bind_Ok {A B} (m : result E A) (f : A -> result E B) b :
    m ≫= f = Ok b <-> exists a, m = Ok a /\ f a = Ok b.
  Proof.
    destruct m as [a|e]; simpl; split.
    - intros H. exists a. auto.
    - intros (a' & [= <-] & H). exact H.
    - discriminate.
    - intros (a' & [=] & _).
  Qed.

Lemma bind_Err {A B} (m : result E A) (f : A -> result E B) e :
    m ≫= f = Err e <-> m = Err e \/ exists a, m = Ok a /\ f a = Err e.
  Proof.
    destruct m as [a|e']; simpl; split.
    - intros H. right. exists a. auto.
    - intros [[=]|(a' & [= <-] & H)]. exact H.
    - intros [= <-]. auto.
    - intros [[= <-]|(a' & [=] & _)]. reflexivity.
  Qed.

Lemma fmap_Ok {A B} (f : A -> B) (m : result E A) b :
    f <$> m = Ok b <-> exists a, m = Ok a /\ b = f a.
  Proof.
    destruct m as [a|e]; simpl; split.
    - intros [= <-]. eauto.
    - intros (a' & [= <-] & ->). reflexivity.
    - discriminate.
    - intros (a' & [=] & _).
  Qed.

Lemma require_Ok (b : bool) (e : E) u : require b e = Ok u <-> b = true.
  Proof. destruct b, u; simpl; split; congruence. Qed.

Lemma require_run (b : bool) (e : E) : b = true -> require b e = Ok tt.
Proof. by intros ->. Qed.

Lemma require_Err (b : bool) (e e' : E) :
    require b e = Err e' <-> b = false /\ e' = e.
  Proof. destruct b; simpl; split; intuition congruence. Qed.

Lemma ok_or_Ok {A} (o : option A) (e : E) a : ok_or o e = Ok a <-> o = Some a.
  Proof. destruct o; simpl; split; congruence. Qed.

Lemma map_err_Ok {A F} (f : E -> F) (r : result E A) a :
    map_err f r = Ok a <-> r = Ok a.
  Proof. destruct r; simpl; split; congruence. Qed.

Lemma transpose_map_Ok {A B} (f : A -> result E B) (o : option A) r :
    transpose_map f o = Ok r <->
    (o = None /\ r = None) \/
    (exists a b, o = Some a /\ f a = Ok b /\ r = Some b).
  Proof.
    destruct o as [a|]; unfold transpose_map.
    - rewrite fmap_Ok. split.
      + intros (b & Hb & ->). right. eauto.
      + intros [[[=] _]|(a' & b & [= <-] & Hb & ->)]. eauto.
    - split; [intros [= <-]; auto|].
      intros [[_ ->]|(a & b & [=] & _)]. reflexivity.
  Qed.

Lemma for_each_Ok {A} (f : A -> result E unit) l u :
    for_each f l = Ok u <-> Forall (fun a => f a = Ok tt) l.
  Proof.
    destruct u. induction l as [|a l IH]; simpl; [split; auto|].
    rewrite Forall_cons, <- IH. destruct (f a) as [[]|e]; simpl.
    - tauto.
    - split; [discriminate|]. intros [[=] _].
  Qed.
Lemma for_each_seen_Ok {A K} `{EqDecision K} (key : A -> K) (duplicate : E) before after seen l u :
    for_each_seen key duplicate before after seen l = Ok u <->
    Forall (fun a => before a = Ok tt /\ after a = Ok tt /\ key a ∉ seen) l /\ NoDup (key <$> l).
  Proof.
    destruct u. revert seen. induction l as [|a l IH]; intros seen; cbn [for_each_seen fmap list_fmap].
    { split; [intros _|done]. split; constructor. }
    rewrite Forall_cons, NoDup_cons. destruct (before a) as [[]|eb]; [|by split; [|intros [[(? & _ & _) _] _]]].
    cbn [mbind result_bind]. case_bool_decide as Hin.
    { split; [done|]. by intros [[(_ & _ & Hn) _] _]. }
    destruct (after a) as [[]|ea]; [|by split; [|intros [[(_ & ? & _) _] _]]].
    cbn [mbind result_bind]. rewrite IH, !Forall_forall. split.
    - intros [Hl Hnd]. split_and!; try done.
      + intros x Hx. destruct (Hl x Hx) as (? & ? & Hk%not_elem_of_cons). tauto.
      + intros (x & Ex & Hx)%list_elem_of_fmap. destruct (Hl x Hx) as (_ & _ & Hk).
        apply Hk. rewrite Ex. by left.
    - intros [[_ Hl] [Hk Hnd]]. split; [|done]. intros x Hx.
      destruct (Hl x Hx) as (? & ? & ?). split_and!; [done..|]. apply not_elem_of_cons. split; [|done].
      intros E'. apply Hk. rewrite <- E'. by apply list_elem_of_fmap_2.
  Qed.
End result_lemmas.

Lemma map_ok_Forall2 {E A B} (f : A -> result E B) l bs :
  map_ok f l = Ok bs -> Forall2 (fun a b => f a = Ok b) l bs.
Proof.
  revert bs. induction l as [|a l IH]; simpl; intros bs H.
  - injection H as <-. constructor.
  - apply bind_Ok in H as (b & Hb & H). apply bind_Ok in H as (bs' & Hbs & H). injection H as <-.
    constructor; auto.
Qed.

Lemma is_ok_true {E A} (r : result E A) : is_ok r = true <-> exists a, r = Ok a.
Proof. destruct r; simpl; split; eauto; [discriminate|]. intros [? [=]]. Qed.


(** * Inverting a successful run

    [ok_inv H] takes a hypothesis [H : m = Ok a] about a [?] chain apart into
    one hypothesis per step that had to succeed. *)

Ltac ok_step H :=
  lazymatch type of H with
  | mbind ?f ?m = Ok _ =>
      let Hm := fresh "H" in let x := fresh "x" in
      apply bind_Ok in H as (x & Hm & H); try ok_step Hm; try ok_step H
  | fmap _ _ = Ok _ =>
      let Hm := fresh "H" in let x := fresh "x" in
      apply fmap_Ok in H as (x & Hm & H); try ok_step Hm
  | require _ _ = Ok _ => apply require_Ok in H
  | ok_or _ _ = Ok _ => apply ok_or_Ok in H
  | map_err _ _ = Ok _ => apply map_err_Ok in H; try ok_step H
  | for_each _ _ = Ok _ => apply for_each_Ok in H
  | mret _ = Ok _ => apply (f_equal id) in H; cbv [id mret result_ret] in H; try ok_step H
  | Ok _ = Ok _ => injection H as H
  | Err _ = Ok _ => discriminate H
  | (let '(_, _) := ?p in _) = Ok _ => destruct p eqn:?; try ok_step H
  | (if ?b then _ else _) = Ok _ => destruct b eqn:?; try ok_step H
  | (match ?o with _ => _ end) = Ok _ => destruct o eqn:?; try ok_step H
  end.

Ltac ok_inv H := cbv zeta in H; ok_step H; subst.

(** Boolean checks as propositions. *)
Ltac bool_prop :=
  repeat match goal with
  | H : andb _ _ = true |- _ => apply andb_true_iff in H as [? ?]
  | H : negb _ = true |- _ => apply negb_true_iff in H
  | H : negb _ = false |- _ => apply negb_false_iff in H
  | H : orb _ _ = false |- _ => apply orb_false_iff in H as [? ?]
  | H : Z.eqb _ _ = true |- _ => apply Z.eqb_eq in H
  | H : Z.eqb _ _ = false |- _ => apply Z.eqb_neq in H
  | H : Z.ltb _ _ = true |- _ => apply Z.ltb_lt in H
  | H : Z.ltb _ _ = false |- _ => apply Z.ltb_ge in H
  | H : Z.leb _ _ = true |- _ => apply Z.leb_le in H
  | H : Z.leb _ _ = false |- _ => apply Z.leb_gt in H
  | H : bool_decide _ = true |- _ => apply bool_decide_eq_true in H
  | H : bool_decide _ = false |- _ => apply bool_decide_eq_false in H
  | H : Is_true _ |- _ => apply Is_true_true in H
  end.

(** * Machine integers and bytes *)

Definition u64_max : Z := 2 ^ 64 - 1.
Definition i64_max : Z := 2 ^ 63 - 1.

Definition u64 (z : Z) : Prop := 0 <= z <= u64_max.
Definition u8 (z : Z) : Prop := 0 <= z < 256.

(** [a.checked_add(b)] and [a.checked_mul(b)] on [u64]. *)
Definition checked_add_u64 (a b : Z) : option Z :=
  if a + b <=? u64_max then Some (a + b) else None.
Definition checked_mul_u64 (a b : Z) : option Z :=
  if a * b <=? u64_max then Some (a * b) else None.

(** The UTF-8 bytes of a [str]; Rocq's [string] is the byte string. *)
Definition byte_of (c : Ascii.ascii) : Z := Z.of_nat (Ascii.nat_of_ascii c).
Definition string_bytes (s : string) : list Z :=
  byte_of <$> String.list_ascii_of_string s.
Definition string_len (s : string) : Z := Z.of_nat (String.length s).

Lemma byte_of_inj a b : byte_of a = byte_of b -> a = b.
Proof.
  unfold byte_of. intros E%Nat2Z.inj. rewrite <- (Ascii.ascii_nat_embedding a), E.
  apply Ascii.ascii_nat_embedding.
Qed.

Lemma string_bytes_inj s s' : string_bytes s = string_bytes s' -> s = s'.
Proof.
  unfold string_bytes. intros E.
  rewrite <- (String.string_of_list_ascii_of_string s),
    <- (String.string_of_list_ascii_of_string s'). f_equal.
  by apply (list_fmap_eq_inj byte_of byte_of_inj).
Qed.

Lemma string_bytes_length (s : string) : length (string_bytes s) = String.length s.
Proof. unfold string_bytes. rewrite length_fmap. induction s; simpl; auto. Qed.

Lemma append_cons c s s' : String c s +:+ s' = String c (s +:+ s').
Proof. reflexivity. Qed.

Lemma string_bytes_app s s' : string_bytes (s +:+ s') = string_bytes s ++ string_bytes s'.
Proof.
  induction s as [|c s IH]; [done|]. exact (f_equal (cons (byte_of c)) IH).
Qed.

Lemma append_nil s : s +:+ "" = s.
Proof. induction s as [|c s IH]; [done|]. rewrite append_cons. by f_equal. Qed.

Lemma append_assoc s1 s2 s3 : (s1 +:+ s2) +:+ s3 = s1 +:+ (s2 +:+ s3).
Proof. induction s1 as [|c s1 IH]; [done|]. rewrite !append_cons. by f_equal. Qed.

Lemma string_bytes_u8 (s : string) : Forall u8 (string_bytes s).
Proof.
  unfold string_bytes. apply Forall_fmap, Forall_true. intros c. unfold compose, u8, byte_of.
  pose proof (Ascii.nat_ascii_bounded c). lia.
Qed.

(** The text of given bytes. *)
Definition text_of (bytes : list Z) : string :=
  String.string_of_list_ascii ((fun b => Ascii.ascii_of_nat (Z.to_nat b)) <$> bytes).

Lemma text_of_bytes bytes : Forall u8 bytes -> string_bytes (text_of bytes) = bytes.
Proof.
  intros H. unfold string_bytes, text_of. rewrite String.list_ascii_of_string_of_list_ascii.
  induction H as [|b bytes [? ?] _ IH]; [done|]. rewrite !fmap_cons, IH. f_equal.
  unfold byte_of. rewrite Ascii.nat_ascii_embedding; lia.
Qed.

Lemma text_of_string (s : string) : text_of (string_bytes s) = s.
Proof. apply string_bytes_inj, text_of_bytes, string_bytes_u8. Qed.

Definition contains_byte (b : Z) (s : string) : bool :=
  existsb (Z.eqb b) (string_bytes s).
Definition starts_with_byte (b : Z) (s : string) : bool :=
  match string_bytes s with c :: _ => c =? b | [] => false end.

(** [str::split(c)] on bytes: [n] separators give [n + 1] segments. *)
Fixpoint split_bytes (b : Z) (l : list Z) : list (list Z) :=
  match l with
  | [] => [[]]
  | c :: l =>
      if c =? b then [] :: split_bytes b l
      else match split_bytes b l with
           | seg :: segs => (c :: seg) :: segs
           | [] => [[c]]
           end
  end.

Definition is_ascii_digit (b : Z) : bool := (48 <=? b) && (b <=? 57).

(** The number a list of ASCII digits denotes, most significant first. *)
Definition decimal_value (l : list Z) : Z :=
  fold_left (fun acc d => acc * 10 + (d - 48)) l 0.

(** Big-endian bytes of a [u64] or of an [i64] in two's complement. *)
Definition be_bytes (n : nat) (z : Z) : list Z :=
  (fun i => (z / 2 ^ (8 * Z.of_nat i)) mod 256) <$> rev (seq 0 n).

(** * Tables

    A table is a finite map from primary keys to rows.  [rows_where] is a
    [SELECT ... WHERE]; [EXISTS] and [count( * )] are its emptiness and length. *)

Definition rows_where {V} (p : Z -> V -> bool) (m : gmap Z V) : list (Z * V) :=
  List.filter (fun kv => p kv.1 kv.2) (map_to_list m).

Definition exists_where {V} (p : Z -> V -> bool) (m : gmap Z V) : bool :=
  match rows_where p m with [] => false | _ => true end.

Definition count_where {V} (p : Z -> V -> bool) (m : gmap Z V) : Z :=
  Z.of_nat (length (rows_where p m)).

(** A key no row has: an identity column's next value, up to the gaps a
    sequence may leave. *)
Definition fresh_id {V} (m : gmap Z V) : Z :=
  1 + foldr Z.max 0 (map_to_list m).*1.

Definition sum_where {V} (f : V -> Z) (p : Z -> V -> bool) (m : gmap Z V) : Z :=
  foldr (fun kv acc => f kv.2 + acc) 0 (rows_where p m).

Section tables.
  Context {V : Type}.
  Implicit Types (m : gmap Z V) (p : Z -> V -> bool).

Lemma rows_where_elem p m k v :
    (k, v) ∈ rows_where p m <-> m !! k = Some v /\ p k v = true.
  Proof.
    unfold rows_where. rewrite list_elem_of_In, filter_In, <- list_elem_of_In.
    rewrite elem_of_map_to_list. reflexivity.
  Qed.

Lemma NoDup_rows_where p m : NoDup (rows_where p m).
  Proof. apply NoDup_ListNoDup, List.NoDup_filter, NoDup_ListNoDup, NoDup_map_to_list. Qed.

Lemma exists_where_true p m :
    exists_where p m = true <-> exists k v, m !! k = Some v /\ p k v = true.
  Proof.
    unfold exists_where. split.
    - destruct (rows_where p m) as [|[k v] l] eqn:E; [discriminate|]. intros _.
      exists k, v. apply rows_where_elem. rewrite E. apply list_elem_of_here.
    - intros (k & v & H). apply rows_where_elem in H.
      destruct (rows_where p m); [|reflexivity]. by apply not_elem_of_nil in H.
  Qed.

Lemma exists_where_false p m :
    exists_where p m = false <-> forall k v, m !! k = Some v -> p k v = false.
  Proof.
    split.
    - intros E k v Hk. apply not_true_iff_false. intros Hp.
      rewrite <- not_true_iff_false, exists_where_true in E. eauto.
    - intros H. apply not_true_iff_false. rewrite exists_where_true.
      intros (k & v & Hk & Hp). rewrite (H k v Hk) in Hp. discriminate.
  Qed.

Lemma count_where_zero p m :
    count_where p m <= 0 <-> forall k v, m !! k = Some v -> p k v = false.
  Proof.
    rewrite <- exists_where_false. unfold count_where, exists_where.
    destruct (rows_where p m); simpl; split; intros; lia || discriminate || done.
  Qed.

Lemma filter_length_perm {A} (f : A -> bool) (l l' : list A) :
    l ≡ₚ l' -> length (List.filter f l) = length (List.filter f l').
  Proof.
    induction 1 as [|x l l' _ IH|x y l|l1 l2 l3 _ IH1 _ IH2]; simpl.
    - reflexivity.
    - destruct (f x); simpl; congruence.
    - destruct (f x), (f y); reflexivity.
    - congruence.
  Qed.

Lemma count_where_insert p m k v :
    count_where p (<[k := v]> m)
    = count_where p (delete k m) + (if p k v then 1 else 0).
  Proof.
    unfold count_where, rows_where.
    rewrite (filter_length_perm _ _ ((k, v) :: map_to_list (delete k m))).
    - simpl. destruct (p k v); simpl length; lia.
    - rewrite <- insert_delete_eq. apply map_to_list_insert, lookup_delete_eq.
  Qed.

(** A row that starts to satisfy the condition is counted once more. *)
Lemma count_where_insert_new p m k v v' :
    m !! k = Some v -> p k v = false -> p k v' = true ->
    count_where p (<[k := v']> m) = count_where p m + 1.
  Proof.
    intros Hk Hv Hv'. rewrite count_where_insert, Hv'.
    rewrite <- (insert_id m k v Hk) at 2. rewrite count_where_insert, Hv. lia.
  Qed.

Lemma sum_filter_perm (f : Z * V -> Z) (g : Z * V -> bool) (l l' : list (Z * V)) :
    l ≡ₚ l' ->
    foldr (fun kv acc => f kv + acc) 0 (List.filter g l)
    = foldr (fun kv acc => f kv + acc) 0 (List.filter g l').
  Proof.
    induction 1 as [|x l l' _ IH|x y l|l1 l2 l3 _ IH1 _ IH2]; simpl.
    - reflexivity.
    - destruct (g x); simpl; lia.
    - destruct (g x), (g y); simpl; lia.
    - lia.
  Qed.

Lemma sum_where_insert (f : V -> Z) p m k v :
    sum_where f p (<[k := v]> m) = sum_where f p (delete k m) + (if p k v then f v else 0).
  Proof.
    unfold sum_where, rows_where.
    etransitivity.
    - apply (sum_filter_perm (fun kv => f kv.2) _ _ ((k, v) :: map_to_list (delete k m))).
      rewrite <- insert_delete_eq. apply map_to_list_insert, lookup_delete_eq.
    - simpl. destruct (p k v); simpl; lia.
  Qed.

Lemma sum_where_fresh (f : V -> Z) p m k v :
    m !! k = None -> sum_where f p (<[k := v]> m) = sum_where f p m + (if p k v then f v else 0).
  Proof. intros Hk. by rewrite sum_where_insert, delete_id. Qed.

Lemma sum_where_update (f : V -> Z) p m k v v' :
    m !! k = Some v ->
    sum_where f p (<[k := v']> m)
    = sum_where f p m - (if p k v then f v else 0) + (if p k v' then f v' else 0).
  Proof.
    intros Hk. rewrite sum_where_insert. rewrite <- (insert_id m k v Hk) at 2.
    rewrite sum_where_insert. lia.
  Qed.

Lemma sum_where_ext (f g : V -> Z) p q m :
    (forall k v, m !! k = Some v -> p k v = q k v /\ (p k v = true -> f v = g v)) ->
    sum_where f p m = sum_where g q m.
  Proof.
    intros H. unfold sum_where, rows_where.
    assert (Hin : forall kv, kv ∈ map_to_list m -> m !! kv.1 = Some kv.2).
    { intros [k v] Hkv. by apply elem_of_map_to_list. }
    induction (map_to_list m) as [|[k v] l IH]; [done|]. simpl.
    destruct (H k v (Hin (k, v) (list_elem_of_here _ _))) as [E Hf]. rewrite <- E.
    assert (IH' := IH (fun kv Hkv => Hin kv (list_elem_of_further _ _ _ Hkv))).
    destruct (p k v); simpl; [rewrite Hf by done; f_equal|]; exact IH'.
  Qed.

Lemma sum_where_none (f : V -> Z) p m :
    (forall k v, m !! k = Some v -> p k v = false) -> sum_where f p m = 0.
  Proof.
    intros H. unfold sum_where. destruct (rows_where p m) as [|[k v] l] eqn:E; [done|].
    exfalso. assert (Hin : (k, v) ∈ rows_where p m) by (rewrite E; apply list_elem_of_here).
    apply rows_where_elem in Hin as [Hk Hp]. by rewrite (H k v Hk) in Hp.
  Qed.

Lemma sum_where_nonneg (f : V -> Z) p m :
    (forall k v, m !! k = Some v -> 0 <= f v) -> 0 <= sum_where f p m.
  Proof.
    intros H. unfold sum_where.
    assert (Hin : forall kv, kv ∈ rows_where p m -> 0 <= f kv.2).
    { intros [k v] Hkv. apply rows_where_elem in Hkv as [Hk _]. by eapply H. }
    induction (rows_where p m) as [|kv l IH]; [done|]. simpl.
    pose proof (Hin kv (list_elem_of_here _ _)).
    assert (0 <= foldr (fun kv acc => f kv.2 + acc) 0 l); [|lia].
    apply IH. intros kv' Hkv'. apply Hin. by right.
  Qed.

Lemma count_where_nonneg p m : 0 <= count_where p m.
  Proof. unfold count_where. lia. Qed.

Lemma fresh_id_gt m k v : m !! k = Some v -> k < fresh_id m.
  Proof.
    intros H. apply elem_of_map_to_list in H.
    apply (list_elem_of_fmap_2 fst) in H. simpl in H. unfold fresh_id.
    induction (map_to_list m).*1 as [|x l IH]; [by apply not_elem_of_nil in H|].
    cbn [foldr]. apply elem_of_cons in H as [->|H%IH]; lia.
  Qed.

Lemma fresh_id_pos m : 0 < fresh_id m.
  Proof. unfold fresh_id. induction (map_to_list m).*1; cbn [foldr]; lia. Qed.

Lemma fresh_id_lookup m : m !! fresh_id m = None.
  Proof.
    destruct (m !! fresh_id m) as [v|] eqn:E; [|reflexivity].
    apply fresh_id_gt in E. lia.
  Qed.
End tables.

#[export] Hint Resolve fresh_id_pos fresh_id_lookup : table.

(** Every row of the first table is still there, changed along [R] at most. *)
Definition table_extends {V} (R : V -> V -> Prop) (m m' : gmap Z V) : Prop :=
  forall k v, m !! k = Some v -> exists v', m' !! k = Some v' /\ R v v'.

(** At most one row for every value of a candidate key. *)
Definition table_unique {V K} (key : V -> option K) (m : gmap Z V) : Prop :=
  forall i j v w x, m !! i = Some v -> m !! j = Some w ->
    key v = Some x -> key w = Some x -> i = j.

Section table_relations.
  Context {V : Type} (R : V -> V -> Prop).
  Implicit Types (m : gmap Z V).

#[global] Instance table_extends_refl `{!Reflexive R} : Reflexive (table_extends R).
  Proof. intros m k v H. eauto. Qed.

#[global] Instance table_extends_trans `{!Transitive R} : Transitive (table_extends R).
  Proof.
    intros m1 m2 m3 H12 H23 k v Hk. destruct (H12 k v Hk) as (v' & Hk' & HR).
    destruct (H23 k v' Hk') as (v'' & Hk'' & HR'). exists v''. split; [done|]. by etransitivity.
  Qed.

Lemma table_extends_fresh `{!Reflexive R} m v :
    table_extends R m (<[fresh_id m := v]> m).
  Proof.
    intros k w Hk. exists w. split; [|done].
    apply lookup_insert_Some. right. split; [|done]. intros <-.
    by rewrite fresh_id_lookup in Hk.
  Qed.

Lemma table_extends_update `{!Reflexive R} m k v v' :
    m !! k = Some v -> R v v' -> table_extends R m (<[k := v']> m).
  Proof.
    intros Hk HR j w Hj. destruct (decide (k = j)) as [<-|Hne].
    - rewrite lookup_insert_eq. assert (w = v) as -> by congruence. eauto.
    - rewrite lookup_insert_ne by done. eauto.
  Qed.

Lemma table_subseteq_extends `{!Reflexive R} m m' : m ⊆ m' -> table_extends R m m'.
  Proof. intros H k v Hk. exists v. split; [|done]. by eapply lookup_weaken. Qed.

Lemma table_subseteq_fresh m v : m ⊆ <[fresh_id m := v]> m.
  Proof. apply insert_subseteq, fresh_id_lookup. Qed.
End table_relations.

Lemma rows_where_keys {V} (p : Z -> V -> bool) (m : gmap Z V) k :
  k ∈ (rows_where p m).*1 <-> exists v, m !! k = Some v /\ p k v = true.
Proof.
  rewrite list_elem_of_fmap. split.
  - intros ([k' v] & -> & H%rows_where_elem). eauto.
  - intros (v & H). exists (k, v). split; [done|]. by apply rows_where_elem.
Qed.

Lemma NoDup_rows_where_keys {V} (p : Z -> V -> bool) (m : gmap Z V) : NoDup (rows_where p m).*1.
Proof.
  unfold rows_where. pose proof (NoDup_fst_map_to_list m) as H.
  induction (map_to_list m) as [|[k v] l IH]; simpl; [constructor|].
  apply NoDup_cons in H as [Hk H]. destruct (p k v); simpl; [|auto].
  constructor; [|auto]. intros Hin. apply Hk. apply list_elem_of_fmap in Hin as ([k' v'] & -> & Hin).
  apply list_elem_of_In, filter_In in Hin as [Hin _]. apply list_elem_of_fmap.
  exists (k', v'). split; [done|]. by apply list_elem_of_In.
Qed.

(** A table that only grows counts no fewer rows, and more with a new one. *)
Lemma count_where_extends {V} (R : V -> V -> Prop) (p : Z -> V -> bool) (m m' : gmap Z V) :
  (forall k v v', R v v' -> p k v = true -> p k v' = true) -> table_extends R m m' ->
  count_where p m <= count_where p m'.
Proof.
  intros Hp Hm. unfold count_where. rewrite <- !(length_fmap fst). apply Nat2Z.inj_le.
  apply submseteq_length, NoDup_submseteq; [apply NoDup_rows_where_keys|].
  intros k (v & Hk & Hv)%rows_where_keys. apply rows_where_keys.
  destruct (Hm k v Hk) as (v' & Hk' & HR). eauto.
Qed.

Lemma count_where_extends_new {V} (R : V -> V -> Prop) (p : Z -> V -> bool) (m m' : gmap Z V) k v :
  (forall k v v', R v v' -> p k v = true -> p k v' = true) -> table_extends R m m' ->
  m !! k = None -> m' !! k = Some v -> p k v = true ->
  count_where p m < count_where p m'.
Proof.
  intros Hp Hm Hk Hk' Hv. unfold count_where. rewrite <- !(length_fmap fst).
  enough (length (k :: (rows_where p m).*1) <= length (rows_where p m').*1)%nat by (simpl in *; lia).
  apply submseteq_length, NoDup_submseteq.
  - constructor; [|apply NoDup_rows_where_keys]. intros (w & Hw & _)%rows_where_keys. congruence.
  - intros j [->|(w & Hj & Hw)%rows_where_keys]%elem_of_cons; apply rows_where_keys; [eauto|].
    destruct (Hm j w Hj) as (w' & Hj' & HR). eauto.
Qed.

Lemma table_unique_insert {V K} (key : V -> option K) (m : gmap Z V) k v :
  table_unique key m ->
  (forall j w x, j <> k -> m !! j = Some w -> key v = Some x -> key w <> Some x) ->
  table_unique key (<[k := v]> m).
Proof.
  intros Hu Hv i j v1 w1 x [[<- <-]|[? Hi]]%lookup_insert_Some
    [[<- <-]|[? Hj]]%lookup_insert_Some Kv Kw; [done| | |by eapply Hu]; exfalso.
  - by eapply (Hv j).
  - by eapply (Hv i).
Qed.

(** An update that keeps the key, or leaves a row without one. *)
Lemma table_unique_update {V K} (key : V -> option K) (m : gmap Z V) k v v' :
  table_unique key m -> m !! k = Some v -> (key v' = key v \/ key v' = None) ->
  table_unique key (<[k := v']> m).
Proof.
  intros Hu Hk Hkey. apply table_unique_insert; [done|]. intros j w x Hne Hj Hx Hw.
  destruct Hkey as [E|E]; rewrite E in *; [|done]. apply Hne. by eapply Hu.
Qed.

Lemma table_unique_fresh {V K} (key : V -> option K) (m : gmap Z V) v :
  table_unique key m ->
  (forall j w x, m !! j = Some w -> key v = Some x -> key w <> Some x) ->
  table_unique key (<[fresh_id m := v]> m).
Proof. intros Hu Hv. apply table_unique_insert; [done|]. eauto. Qed.

Lemma table_unique_empty {V K} (key : V -> option K) : table_unique key ∅.
Proof. intros i j v w x H. by rewrite lookup_empty in H. Qed.

#[export] Hint Extern 0 (Reflexive _) => apply _ : core table.
#[export] Hint Resolve table_extends_fresh table_extends_update table_subseteq_fresh : table.

(** * Sorted reads

    [ORDER BY k1, k2, ... LIMIT 1] compares the rows' keys lexicographically;
    a descending column is negated, and a nullable one that sorts last is the
    pair of its nullness and its value. *)

Fixpoint lex_lt (a b : list Z) : bool :=
  match a, b with
  | _, [] => false
  | [], _ :: _ => true
  | x :: a, y :: b => (x <? y) || ((x =? y) && lex_lt a b)
  end.

Definition first_by {A} (key : A -> list Z) (l : list A) : option A :=
  foldr (fun x best => match best with
    | Some y => if lex_lt (key y) (key x) then Some y else Some x
    | None => Some x
    end) None l.

(** [ORDER BY] without a limit: insertion in key order. *)
Fixpoint insert_by {A} (key : A -> list Z) (x : A) (l : list A) : list A :=
  match l with
  | [] => [x]
  | y :: l' => if lex_lt (key y) (key x) then y :: insert_by key x l' else x :: l
  end.

Definition order_by {A} (key : A -> list Z) (l : list A) : list A :=
  foldr (insert_by key) [] l.

Definition nulls_last (k : option Z) : list Z :=
  match k with Some z => [0; z] | None => [1; 0] end.

Lemma lex_lt_irrefl a : lex_lt a a = false.
Proof. induction a as [|x a IH]; simpl; [done|]. by rewrite Z.ltb_irrefl, IH, andb_false_r. Qed.

Lemma lex_lt_asym a b : lex_lt a b = true -> lex_lt b a = false.
Proof.
  revert b. induction a as [|x a IH]; intros [|y b]; simpl; try done.
  rewrite orb_true_iff, orb_false_iff, andb_true_iff, andb_false_iff, Z.ltb_lt, Z.eqb_eq,
    Z.ltb_ge, Z.eqb_neq.
  intros [?|[? ?%IH]]; lia || (split; [lia|by right]).
Qed.

(** "Not after" is transitive. *)
Lemma lex_lt_negtrans a b c :
  lex_lt b a = false -> lex_lt c b = false -> lex_lt c a = false.
Proof.
  revert b c. induction a as [|x a IH]; intros [|y b] [|z c]; simpl; try done.
  rewrite !orb_false_iff, !andb_false_iff, !Z.ltb_ge, !Z.eqb_neq.
  intros [? [?|H1]] [? [?|H2]]; split; try lia; try (left; lia).
  destruct (decide (z = x)) as [->|]; [|by left]. right. by eapply IH.
Qed.

Section order_by.
  Context {A : Type} (key : A -> list Z).

Lemma insert_by_perm x l : insert_by key x l ≡ₚ x :: l.
  Proof.
    induction l as [|y l IH]; simpl; [done|]. case_match; [|done].
    rewrite IH. apply Permutation_swap.
  Qed.

Lemma order_by_perm l : order_by key l ≡ₚ l.
  Proof. induction l as [|x l IH]; simpl; [done|]. by rewrite insert_by_perm, IH. Qed.

Lemma insert_by_sorted x l :
    StronglySorted (fun a b => lex_lt (key b) (key a) = false) l ->
    StronglySorted (fun a b => lex_lt (key b) (key a) = false) (insert_by key x l).
  Proof.
    induction 1 as [|y l Hl IH Hy]; simpl; [by repeat constructor|].
    destruct (lex_lt (key y) (key x)) eqn:E.
    - constructor; [done|]. rewrite insert_by_perm. constructor; [by apply lex_lt_asym|done].
    - constructor; [by constructor|]. constructor; [done|].
      eapply Forall_impl; [exact Hy|]. intros z Hz. by eapply lex_lt_negtrans.
  Qed.

Lemma order_by_sorted l :
    StronglySorted (fun a b => lex_lt (key b) (key a) = false) (order_by key l).
  Proof. induction l; simpl; [constructor|]. by apply insert_by_sorted. Qed.
End order_by.

Section first_by.
  Context {A : Type} (key : A -> list Z).

Lemma first_by_None (l : list A) : first_by key l = None <-> l = [].
  Proof. destruct l; simpl; [done|]. split; [|done]. repeat case_match; done. Qed.

Lemma first_by_Some (l : list A) x :
    first_by key l = Some x -> x ∈ l /\ forall y, y ∈ l -> lex_lt (key y) (key x) = false.
  Proof.
    revert x. induction l as [|a l IH]; simpl; intros x H; [done|].
    destruct (first_by key l) as [b|] eqn:E.
    - destruct (IH b eq_refl) as [Hin Hle].
      destruct (lex_lt (key b) (key a)) eqn:Hlt; injection H as <-.
      + split; [by right|]. intros y [->|Hy]%elem_of_cons; [by apply lex_lt_asym|auto].
      + split; [by left|]. intros y [->|Hy]%elem_of_cons; [apply lex_lt_irrefl|].
        eapply lex_lt_negtrans; eauto.
    - injection H as <-. apply first_by_None in E as ->. split; [by left|].
      intros y [->|Hy]%elem_of_cons; [apply lex_lt_irrefl|by apply not_elem_of_nil in Hy].
  Qed.
End first_by.

Lemma count_where_rows {V} (p : Z -> V -> bool) (m : gmap Z V) :
  count_where p m = Z.of_nat (length (rows_where p m)).
Proof. reflexivity. Qed.
