(* ===== verification/Base64.v ===== *)
(** The base64 codecs of the program. Four crates each have a decoder of their
    own and three an encoder: the wire protocol's ([wire_decode_base64]), the
    session runtime's ([session_decode_base64]), the Tea host admission's
    ([admission_decode_base64]) and the process store's prompt decoder
    ([decode_base64]). The theorems show that the encoders agree, that the first
    three decoders accept exactly the canonical encodings, and how the fourth
    differs. *)
From S2P Require Import Prelude.

(** * The alphabet *)

Definition base64_value (value : Z) : option Z :=
  if (65 <=? value) && (value <=? 90) then Some (value - 65)
  else if (97 <=? value) && (value <=? 122) then Some (value - 97 + 26)
  else if is_ascii_digit value then Some (value - 48 + 52)
  else if value =? 43 then Some 62
  else if value =? 47 then Some 63
  else None.

(** [=] stands for zero bits in the last two places. *)
Definition base64_padded (value : Z) : option Z :=
  if value =? 61 then Some 0 else base64_value value.

(** A shift of a [u8] drops the bits above. *)
Definition u8_shl (value bits : Z) : Z := Z.land (Z.shiftl value bits) 255.

Definition TABLE : list Z :=
  string_bytes "ABCDEFGHIJKLMNOPQRSTUVWXYZabcdefghijklmnopqrstuvwxyz0123456789+/".

(** [TABLE[i]]; the index is always below 64. *)
Definition table (i : Z) : Z := nth (Z.to_nat i) TABLE 0.

(** * Encoders *)

(** [bytes.chunks(3)] *)
Fixpoint chunks3 (bytes : list Z) : list (list Z) :=
  match bytes with
  | a :: b :: c :: rest => [a; b; c] :: chunks3 rest
  | [] => []
  | short => [short]
  end.

(** One chunk, from its bytes. *)
Definition encode_chunk (chunk : list Z) : list Z :=
  let first := nth 0 chunk 0 in
  let second := nth 1 chunk 0 in
  let third := nth 2 chunk 0 in
  [table (Z.shiftr first 2);
   table (Z.lor (u8_shl (Z.land first 3) 4) (Z.shiftr second 4));
   if 1 <? Z.of_nat (length chunk)
   then table (Z.lor (u8_shl (Z.land second 15) 2) (Z.shiftr third 6)) else 61;
   if 2 <? Z.of_nat (length chunk) then table (Z.land third 63) else 61].

Definition base64_encode (bytes : list Z) : string :=
  text_of (concat (encode_chunk <$> chunks3 bytes)).

(** One chunk, from the [u32] that holds its bytes. *)
Definition encode_word (chunk : list Z) : list Z :=
  let value := Z.lor (Z.lor (Z.shiftl (nth 0 chunk 0) 16) (Z.shiftl (nth 1 chunk 0) 8))
                 (nth 2 chunk 0) in
  [table (Z.land (Z.shiftr value 18) 63);
   table (Z.land (Z.shiftr value 12) 63);
   if 1 <? Z.of_nat (length chunk) then table (Z.land (Z.shiftr value 6) 63) else 61;
   if 2 <? Z.of_nat (length chunk) then table (Z.land value 63) else 61].

Definition base64 (bytes : list Z) : string :=
  text_of (concat (encode_word <$> chunks3 bytes)).

(** * The process store's prompt decoder *)

Fixpoint decode_chunks (l : list Z) : option (list Z) :=
  match l with
  | x :: y :: z :: w :: l =>
      a ← base64_value x;
      b ← base64_value y;
      c ← base64_padded z;
      d ← base64_padded w;
      rest ← decode_chunks l;
      Some (Z.lor (u8_shl a 2) (Z.shiftr b 4)
            :: (if z =? 61 then [] else [Z.lor (u8_shl b 4) (Z.shiftr c 2)])
            ++ (if w =? 61 then [] else [Z.lor (u8_shl c 6) d]) ++ rest)
  | _ => Some []
  end.

Definition decode_base64 (value : string) : option (list Z) :=
  if string_len value mod 4 =? 0 then decode_chunks (string_bytes value) else None.

(** [bytes.iter().rev().take_while(|byte| **byte == b'=').count()] *)
Fixpoint leading_padding (reversed : list Z) : nat :=
  match reversed with
  | b :: reversed => if b =? 61 then S (leading_padding reversed) else 0
  | [] => 0
  end.
Definition padding_of (bytes : list Z) : nat := leading_padding (rev bytes).

(** [&bytes[..bytes.len() - padding]] *)
Definition body_of (bytes : list Z) : list Z := take (length bytes - padding_of bytes) bytes.

Definition is_ascii_alphanumeric (b : Z) : bool :=
  ((65 <=? b) && (b <=? 90)) || ((97 <=? b) && (b <=? 122)) || is_ascii_digit b.

(** * The wire protocol *)
(** The detail of the [FrameError]. *)
Definition validate_base64 (value : string) : result string unit :=
  let bytes := string_bytes value in
  let body := body_of bytes in
  require (negb ((string_len value =? 0) || negb (string_len value mod 4 =? 0)))
    "must be nonempty canonical base64"%string ;;
  require (negb ((2 <? Z.of_nat (padding_of bytes)) || existsb (Z.eqb 61) body))
    "must be canonical base64"%string ;;
  require (forallb (fun byte => is_ascii_alphanumeric byte || (byte =? 43) || (byte =? 47)) body)
    "must be canonical base64"%string.

Definition invalid_base64 : string := "invalid canonical base64".

Fixpoint decode_quartets (bytes : list Z) : result string (list Z) :=
  match bytes with
  | x :: y :: z :: w :: bytes =>
      first ← ok_or (base64_value x) invalid_base64;
      second ← ok_or (base64_value y) invalid_base64;
      tail ← (if z =? 61 then Ok []
              else third ← ok_or (base64_value z) invalid_base64;
                   last ← (if w =? 61 then Ok []
                           else fourth ← ok_or (base64_value w) invalid_base64;
                                Ok [Z.lor (u8_shl third 6) fourth]);
                   Ok (Z.lor (u8_shl second 4) (Z.shiftr third 2) :: last));
      rest ← decode_quartets bytes;
      Ok ((Z.lor (u8_shl first 2) (Z.shiftr second 4) :: tail) ++ rest)
  | _ => Ok []
  end.

(** The unused bits of the last character of the body. *)
Definition trailing_bits (body : list Z) (mask : Z) : result string unit :=
  value ← ok_or (base64_value (List.last body 0)) invalid_base64;
  require (Z.land value mask =? 0) invalid_base64.

Definition check_trailing (body : list Z) : result string unit :=
  let remainder := Z.of_nat (length body) mod 4 in
  if remainder =? 2 then trailing_bits body 15
  else if remainder =? 3 then trailing_bits body 3
  else Ok tt.

Definition wire_decode_base64 (value : string) : result string (list Z) :=
  validate_base64 value ;;
  let bytes := string_bytes value in
  let body := body_of bytes in
  output ← decode_quartets bytes;
  check_trailing body ;;
  Ok output.

(** * The session runtime *)
Definition alphabet : string := "base64 alphabet is invalid".

(** The loop over the chunks; [count] of them in all. *)
Fixpoint session_decode_from (count index : Z) (bytes : list Z) : result string (list Z) :=
  match bytes with
  | x :: y :: z :: w :: bytes =>
      let chunk := [x; y; z; w] in
      let final_chunk := index + 1 =? count in
      let padding := padding_of chunk in
      require (negb ((2 <? Z.of_nat padding) || (negb final_chunk && negb (Nat.eqb padding 0))
                     || existsb (Z.eqb 61) (take (4 - padding) chunk)))
        "base64 padding is invalid"%string ;;
      a ← ok_or (base64_value x) alphabet;
      b ← ok_or (base64_value y) alphabet;
      c ← (if z =? 61 then Ok 0 else ok_or (base64_value z) alphabet);
      d ← (if w =? 61 then Ok 0 else ok_or (base64_value w) alphabet);
      require (negb ((Nat.eqb padding 2 && negb (Z.land b 15 =? 0))
                     || (Nat.eqb padding 1 && negb (Z.land c 3 =? 0))))
        "base64 has non-canonical trailing bits"%string ;;
      rest ← session_decode_from count (index + 1) bytes;
      Ok (Z.lor (u8_shl a 2) (Z.shiftr b 4)
          :: (if Nat.ltb padding 2 then [Z.lor (u8_shl b 4) (Z.shiftr c 2)] else [])
          ++ (if Nat.eqb padding 0 then [Z.lor (u8_shl c 6) d] else []) ++ rest)
  | _ => Ok []
  end.

Definition session_decode_base64 (value : string) : result string (list Z) :=
  require (negb ((string_len value =? 0) || negb (string_len value mod 4 =? 0)))
    "base64 value is empty or has invalid length"%string ;;
  session_decode_from (string_len value / 4) 0 (string_bytes value).

(** * The Tea host's admission *)
Fixpoint admission_decode_from (count index : Z) (bytes : list Z) : option (list Z) :=
  match bytes with
  | x :: y :: z :: w :: bytes =>
      let last := index + 1 =? count in
      a ← base64_value x;
      b ← base64_value y;
      c ← base64_padded z;
      d ← base64_padded w;
      if (negb last && ((z =? 61) || (w =? 61))) || ((z =? 61) && negb (w =? 61)) then None
      else if ((z =? 61) && negb (Z.land b 15 =? 0)) || ((w =? 61) && negb (Z.land c 3 =? 0))
      then None
      else
        rest ← admission_decode_from count (index + 1) bytes;
        Some (Z.lor (u8_shl a 2) (Z.shiftr b 4)
              :: (if z =? 61 then [] else [Z.lor (u8_shl b 4) (Z.shiftr c 2)])
              ++ (if w =? 61 then [] else [Z.lor (u8_shl c 6) d]) ++ rest)
  | _ => Some []
  end.

Definition admission_decode_base64 (value : string) : option (list Z) :=
  let bytes := string_bytes value in
  if (string_len value =? 0) || negb (string_len value mod 4 =? 0) then None
  else if (2 <? Z.of_nat (padding_of bytes)) || existsb (Z.eqb 61) (body_of bytes) then None
  else admission_decode_from (Z.of_nat (length bytes) / 4) 0 bytes.

(** ** Examples *)
Example encode_abc : base64_encode [97; 98; 99; 100] = "YWJjZA=="%string.
Proof. reflexivity. Qed.
Example decode_abc :
  wire_decode_base64 "YWJjZA==" = Ok [97; 98; 99; 100] /\
  session_decode_base64 "YWJjZA==" = Ok [97; 98; 99; 100] /\
  admission_decode_base64 "YWJjZA==" = Some [97; 98; 99; 100].
Proof. repeat split; reflexivity. Qed.
Example decode_loose :
  decode_base64 "YR==" = Some [97] /\ wire_decode_base64 "YR==" = Err invalid_base64 /\
  decode_base64 "Y=E=" = None /\ decode_base64 "YQ=A" = Some [97; 0].
Proof. repeat split; reflexivity. Qed.

(** * Arithmetic of the shifts *)

Definition is_byte (b : Z) : Prop := 0 <= b < 256.
Definition is_sextet (v : Z) : Prop := 0 <= v < 64.

(** [lia] with division by constants. *)
#[local] Ltac Zify.zify_post_hook ::= Z.div_mod_to_equations.

(** Bits above [n] and bits below it add up. *)
Lemma lor_add p q n : 0 <= n -> 0 <= q < 2 ^ n -> Z.lor (p * 2 ^ n) q = p * 2 ^ n + q.
Proof.
  intros Hn Hq. assert (Hl : Z.land (p * 2 ^ n) q = 0).
  { destruct (decide (q = 0)) as [->|]; [by rewrite Z.land_0_r|].
    apply Z.bits_inj'. intros i Hi. rewrite Z.land_spec, Z.bits_0.
    destruct (Z.lt_ge_cases i n) as [Hlt|Hge].
    - by rewrite Z.mul_pow2_bits_low.
    - rewrite (Z.bits_above_log2 q), andb_false_r; [done|lia|].
      apply Z.log2_lt_pow2; [lia|]. apply Z.lt_le_trans with (2 ^ n); [lia|].
      apply Z.pow_le_mono_r; lia. }
  rewrite <- Z.lxor_lor by done. symmetry. by apply Z.add_nocarry_lxor.
Qed.

Lemma u8_shl_arith v n : 0 <= n -> u8_shl v n = (v * 2 ^ n) mod 256.
Proof.
  intros. unfold u8_shl. rewrite Z.shiftl_mul_pow2 by done. by apply (Z.land_ones _ 8).
Qed.

Lemma land_3 v : Z.land v 3 = v mod 4.
Proof. by apply (Z.land_ones _ 2). Qed.
Lemma land_15 v : Z.land v 15 = v mod 16.
Proof. by apply (Z.land_ones _ 4). Qed.
Lemma land_63 v : Z.land v 63 = v mod 64.
Proof. by apply (Z.land_ones _ 6). Qed.

(** The bytes a quartet's sextets make up. *)
Lemma first_byte a b :
  is_sextet a -> is_sextet b -> Z.lor (u8_shl a 2) (Z.shiftr b 4) = a * 4 + b / 16.
Proof.
  intros. rewrite u8_shl_arith, Z.shiftr_div_pow2 by done. change (2 ^ 2) with 4. change (2 ^ 4) with 16.
  rewrite Z.mod_small by (unfold is_sextet in *; lia). apply (lor_add a (b / 16) 2); [done|].
  unfold is_sextet in *. change (2 ^ 2) with 4. lia.
Qed.

Lemma second_byte b c :
  is_sextet b -> is_sextet c -> Z.lor (u8_shl b 4) (Z.shiftr c 2) = b mod 16 * 16 + c / 4.
Proof.
  intros. rewrite u8_shl_arith, Z.shiftr_div_pow2 by done. change (2 ^ 2) with 4. change (2 ^ 4) with 16.
  change 256 with (16 * 16); rewrite Z.mul_mod_distr_r by lia.
  apply (lor_add _ (c / 4) 4); [done|]. unfold is_sextet in *. change (2 ^ 4) with 16. lia.
Qed.

Lemma third_byte c d :
  is_sextet c -> is_sextet d -> Z.lor (u8_shl c 6) d = c mod 4 * 64 + d.
Proof.
  intros. rewrite u8_shl_arith by done. change (2 ^ 6) with 64.
  change 256 with (4 * 64); rewrite Z.mul_mod_distr_r by lia.
  by apply (lor_add _ d 6).
Qed.

(** The sextets of a chunk's bytes, in arithmetic. *)
Definition sextets (first second third : Z) : list Z :=
  [first / 4; first mod 4 * 16 + second / 16; second mod 16 * 4 + third / 64; third mod 64].

Lemma sextets_bytes first second third :
  is_byte first -> is_byte second -> is_byte third ->
  [Z.shiftr first 2; Z.lor (u8_shl (Z.land first 3) 4) (Z.shiftr second 4);
   Z.lor (u8_shl (Z.land second 15) 2) (Z.shiftr third 6); Z.land third 63]
  = sextets first second third.
Proof.
  unfold is_byte. intros. unfold sextets. rewrite land_3, land_15, land_63.
  rewrite !u8_shl_arith, !Z.shiftr_div_pow2 by done.
  change (2 ^ 2) with 4. change (2 ^ 4) with 16. change (2 ^ 6) with 64.
  rewrite (Z.mod_small (first mod 4 * 16)) by lia. rewrite (Z.mod_small (second mod 16 * 4)) by lia.
  rewrite (lor_add _ (second / 16) 4) by (change (2 ^ 4) with 16; lia).
  by rewrite (lor_add _ (third / 64) 2) by (change (2 ^ 2) with 4; lia).
Qed.

Lemma sextets_word first second third :
  is_byte first -> is_byte second -> is_byte third ->
  let value := Z.lor (Z.lor (Z.shiftl first 16) (Z.shiftl second 8)) third in
  [Z.land (Z.shiftr value 18) 63; Z.land (Z.shiftr value 12) 63; Z.land (Z.shiftr value 6) 63;
   Z.land value 63] = sextets first second third.
Proof.
  intros Hf Hs Ht value. unfold is_byte in *. assert (E : value = first * 65536 + second * 256 + third).
  { unfold value. rewrite !Z.shiftl_mul_pow2 by done.
    rewrite (lor_add first (second * 2 ^ 8) 16) by (change (2 ^ 16) with 65536; change (2 ^ 8) with 256; lia).
    change (2 ^ 16) with (256 * 2 ^ 8). rewrite Z.mul_assoc, <- Z.mul_add_distr_r.
    rewrite (lor_add _ third 8) by (change (2 ^ 8) with 256; lia). change (2 ^ 8) with 256. lia. }
  rewrite E, !land_63, !Z.shiftr_div_pow2 by done. unfold sextets.
  change (2 ^ 18) with 262144. change (2 ^ 12) with 4096. change (2 ^ 6) with 64.
  repeat (apply (f_equal2 cons); [lia|]). done.
Qed.

(** * Alphabet *)

Lemma sextet_cases (P : Z -> Prop) :
  Forall P (Z.of_nat <$> seq 0 64) -> forall v, is_sextet v -> P v.
Proof.
  intros H v [? ?]. rewrite Forall_forall in H. apply H, list_elem_of_fmap.
  exists (Z.to_nat v). split; [lia|]. apply elem_of_seq. lia.
Qed.

Lemma base64_value_table v : is_sextet v -> base64_value (table v) = Some v.
Proof. revert v. apply sextet_cases. repeat constructor. Qed.

Lemma table_padding v : is_sextet v -> (table v =? 61) = false.
Proof. revert v. apply sextet_cases. repeat constructor. Qed.

Lemma table_byte v : is_sextet v -> is_byte (table v).
Proof. revert v. apply sextet_cases. repeat constructor; vm_compute; done. Qed.

Lemma base64_value_Some c v : base64_value c = Some v <-> is_sextet v /\ c = table v.
Proof.
  split; [|intros [? ->]; by apply base64_value_table].
  intros H. assert (Hv : is_sextet v /\ exists d, table v = d /\ (d - c) = 0).
  { unfold base64_value, is_ascii_digit in H. repeat case_match; simplify_eq; bool_prop;
      (split; [unfold is_sextet; lia|]); eexists; (split; [reflexivity|]).
    - assert (E : forall i, is_sextet i -> i < 26 -> table i = i + 65)
        by (apply (sextet_cases (fun i => i < 26 -> table i = i + 65)); repeat constructor; lia).
      rewrite E; unfold is_sextet; lia.
    - assert (E : forall i, is_sextet i -> 26 <= i < 52 -> table i = i + 71)
        by (apply (sextet_cases (fun i => 26 <= i < 52 -> table i = i + 71)); repeat constructor; lia).
      rewrite E; unfold is_sextet; lia.
    - assert (E : forall i, is_sextet i -> 52 <= i < 62 -> table i = i - 4)
        by (apply (sextet_cases (fun i => 52 <= i < 62 -> table i = i - 4)); repeat constructor; lia).
      rewrite E; unfold is_sextet; lia.
    - change (table 62) with 43. lia.
    - change (table 63) with 47. lia. }
  destruct Hv as (? & ? & <- & ?). split; [done|lia].
Qed.

Lemma base64_value_padding : base64_value 61 = None.
Proof. reflexivity. Qed.

(** The characters [validate_base64] admits are the alphabet. *)
Lemma alphabet_value b :
  is_ascii_alphanumeric b || (b =? 43) || (b =? 47) = bool_decide (is_Some (base64_value b)).
Proof.
  unfold is_ascii_alphanumeric, base64_value.
  destruct ((65 <=? b) && (b <=? 90)), ((97 <=? b) && (b <=? 122)), (is_ascii_digit b),
    (b =? 43), (b =? 47); by rewrite ?bool_decide_eq_true_2, ?bool_decide_eq_false_2 by (by eauto).
Qed.

(** * The canonical encoding *)

(** The characters of a byte list's chunk. *)
Definition characters (values : list Z) (kept : nat) : list Z :=
  (table <$> take kept values) ++ replicate (4 - kept) 61.

(** The encoding in arithmetic. *)
Fixpoint encoding (bytes : list Z) : list Z :=
  match bytes with
  | a :: b :: c :: rest => characters (sextets a b c) 4 ++ encoding rest
  | [] => []
  | [a] => characters (sextets a 0 0) 2
  | [a; b] => characters (sextets a b 0) 3
  end.

(** Induction on a byte list's chunks. *)
Lemma chunk3_ind (P : list Z -> Prop) :
  P [] -> (forall a, P [a]) -> (forall a b, P [a; b]) ->
  (forall a b c l, P l -> P (a :: b :: c :: l)) -> forall l, P l.
Proof.
  intros H0 H1 H2 H3 l. enough (H : P l /\ (forall a, P (a :: l)) /\ forall a b, P (a :: b :: l)) by apply H.
  induction l as [|x l (IH0 & IH1 & IH2)]; split_and!; auto.
Qed.

Lemma encoding_chunks (encode : list Z -> list Z) bytes :
  (forall a b c, is_byte a -> is_byte b -> is_byte c ->
     encode [a; b; c] = characters (sextets a b c) 4) ->
  (forall a b, is_byte a -> is_byte b -> encode [a; b] = characters (sextets a b 0) 3) ->
  (forall a, is_byte a -> encode [a] = characters (sextets a 0 0) 2) ->
  Forall is_byte bytes -> concat (encode <$> chunks3 bytes) = encoding bytes.
Proof.
  intros E3 E2 E1. induction bytes as [|a|a b|a b c l IH] using chunk3_ind; intros Hb.
  - done.
  - apply Forall_cons in Hb as [? _]. simpl chunks3. cbn [fmap list_fmap concat]. by rewrite E1, app_nil_r.
  - apply Forall_cons in Hb as [? [? _]%Forall_cons]. simpl chunks3. cbn [fmap list_fmap concat].
    by rewrite E2, app_nil_r.
  - repeat (apply Forall_cons in Hb as [? Hb]). simpl chunks3. cbn [fmap list_fmap concat].
    by rewrite E3, IH.
Qed.

Lemma is_byte_0 : is_byte 0.
Proof. done. Qed.

Lemma encode_chunk_encoding bytes :
  Forall is_byte bytes -> concat (encode_chunk <$> chunks3 bytes) = encoding bytes.
Proof.
  apply encoding_chunks.
  - intros a b c Ha Hb Hc. unfold characters. by rewrite <- (sextets_bytes a b c).
  - intros a b Ha Hb. unfold characters. by rewrite <- (sextets_bytes a b 0).
  - intros a Ha. unfold characters. by rewrite <- (sextets_bytes a 0 0).
Qed.

Lemma encode_word_encoding bytes :
  Forall is_byte bytes -> concat (encode_word <$> chunks3 bytes) = encoding bytes.
Proof.
  apply encoding_chunks.
  - intros a b c Ha Hb Hc. unfold characters. by rewrite <- (sextets_word a b c).
  - intros a b Ha Hb. unfold characters. by rewrite <- (sextets_word a b 0).
  - intros a Ha. unfold characters. by rewrite <- (sextets_word a 0 0).
Qed.

(** ** The decoder of the canonical encoding *)

(** The bytes of four sextets. *)
Definition octets (a b c d : Z) : list Z := [a * 4 + b / 16; b mod 16 * 16 + c / 4; c mod 4 * 64 + d].

Definition full_quartet (x y z w : Z) : option (list Z) :=
  a ← base64_value x; b ← base64_value y; c ← base64_value z; d ← base64_value w;
  Some (octets a b c d).

(** The last quartet may be padded, over zero bits. *)
Definition last_quartet (x y z w : Z) : option (list Z) :=
  a ← base64_value x;
  b ← base64_value y;
  if z =? 61 then if (w =? 61) && (b mod 16 =? 0) then Some (take 1 (octets a b 0 0)) else None
  else c ← base64_value z;
       if w =? 61 then if c mod 4 =? 0 then Some (take 2 (octets a b c 0)) else None
       else d ← base64_value w; Some (octets a b c d).

Fixpoint canonical (l : list Z) : option (list Z) :=
  match l with
  | x :: y :: z :: w :: l =>
      match l with
      | [] => last_quartet x y z w
      | _ => head ← full_quartet x y z w; rest ← canonical l; Some (head ++ rest)
      end
  | _ => None
  end.

(** Induction on a text's quartets. *)
Lemma quartet_ind (P : list Z -> Prop) :
  (forall l, (length l < 4)%nat -> P l) -> (forall x y z w l, P l -> P (x :: y :: z :: w :: l)) ->
  forall l, P l.
Proof.
  intros Hs Hq l.
  enough (H : P l /\ (forall x, P (x :: l)) /\ (forall x y, P (x :: y :: l))
              /\ forall x y z, P (x :: y :: z :: l)) by apply H.
  induction l as [|w l (IH0 & IH1 & IH2 & IH3)]; split_and!; auto;
    intros; apply Hs; simpl; lia.
Qed.

Lemma octets_bytes a b c d :
  is_sextet a -> is_sextet b -> is_sextet c -> is_sextet d -> Forall is_byte (octets a b c d).
Proof. unfold is_sextet, octets. intros. repeat constructor; unfold is_byte; lia. Qed.

Lemma octets_sextets a b c d :
  is_sextet a -> is_sextet b -> is_sextet c -> is_sextet d ->
  sextets (a * 4 + b / 16) (b mod 16 * 16 + c / 4) (c mod 4 * 64 + d) = [a; b; c; d].
Proof.
  unfold is_sextet, sextets. intros. repeat (apply (f_equal2 cons); [lia|]). done.
Qed.

Lemma sextets_octets a b c :
  is_byte a -> is_byte b -> is_byte c ->
  Forall is_sextet (sextets a b c) /\
  octets (a / 4) (a mod 4 * 16 + b / 16) (b mod 16 * 4 + c / 64) (c mod 64) = [a; b; c].
Proof.
  unfold is_byte, octets, sextets. intros. split; [repeat constructor; unfold is_sextet; lia|].
  repeat (apply (f_equal2 cons); [lia|]). done.
Qed.

(** The sextets of three bytes, and the bytes they make up. *)
Lemma chunk_sextets a b c :
  is_byte a -> is_byte b -> is_byte c ->
  is_sextet (a / 4) /\ is_sextet (a mod 4 * 16 + b / 16) /\ is_sextet (b mod 16 * 4 + c / 64) /\
  is_sextet (c mod 64) /\
  octets (a / 4) (a mod 4 * 16 + b / 16) (b mod 16 * 4 + c / 64) (c mod 64) = [a; b; c].
Proof.
  intros Ha Hb Hc. destruct (sextets_octets a b c Ha Hb Hc) as [Hs Ho].
  unfold sextets in Hs. rewrite !Forall_cons in Hs. by destruct Hs as (? & ? & ? & ? & _).
Qed.

Ltac read_characters E :=
  cbv [characters sextets encoding take replicate app fmap list_fmap Nat.sub] in E;
  injection E as -> -> -> ->.

Lemma full_quartet_exact x y z w out :
  full_quartet x y z w = Some out <->
  exists a b c, out = [a; b; c] /\ Forall is_byte out /\
    [x; y; z; w] = characters (sextets a b c) 4.
Proof.
  unfold full_quartet. split.
  - intros H. do 4 (apply bind_Some in H as (? & Hv & H); apply base64_value_Some in Hv as [Hs ->];
      revert Hs). intros. injection H as <-. eexists _, _, _. split_and!; [done|by apply octets_bytes|].
    by rewrite octets_sextets.
  - intros (a & b & c & -> & Hb & E). rewrite !Forall_cons in Hb. destruct Hb as (? & ? & ? & _).
    destruct (chunk_sextets a b c) as (? & ? & ? & ? & Ho); [done..|].
    read_characters E. rewrite !base64_value_table by done. simpl. by rewrite Ho.
Qed.

Lemma last_quartet_sound x y z w out :
  last_quartet x y z w = Some out ->
  out <> [] /\ (length out <= 3)%nat /\ Forall is_byte out /\ [x; y; z; w] = encoding out.
Proof.
  assert (is_sextet 0) as S0 by done. unfold last_quartet.
  intros (a & [Ha ->]%base64_value_Some & (b & [Hb ->]%base64_value_Some & H)%bind_Some)%bind_Some.
  destruct (Z.eqb_spec z 61) as [->|Hz]; [|apply bind_Some in H as (c & [Hc ->]%base64_value_Some & H);
    destruct (Z.eqb_spec w 61) as [->|Hw]; [|apply bind_Some in H as (d & [Hd ->]%base64_value_Some & H)]].
  - destruct (Z.eqb_spec w 61) as [->|]; [|done]. destruct (Z.eqb_spec (b mod 16) 0); [|done].
    apply (inj Some) in H as <-. split_and!; [done|simpl; lia|by apply Forall_take, octets_bytes|].
    unfold octets. cbn [take encoding]. replace (sextets _ 0 0) with [a; b; 0; 0]; [done|].
    rewrite <- (octets_sextets a b 0 0) by done. f_equal; lia.
  - destruct (Z.eqb_spec (c mod 4) 0); [|done].
    apply (inj Some) in H as <-. split_and!; [done|simpl; lia|by apply Forall_take, octets_bytes|].
    unfold octets. cbn [take encoding]. replace (sextets _ _ 0) with [a; b; c; 0]; [done|].
    rewrite <- (octets_sextets a b c 0) by done. f_equal; lia.
  - apply (inj Some) in H as <-. split_and!; [done|simpl; lia|by apply octets_bytes|].
    unfold octets. cbn [take encoding]. by rewrite octets_sextets, app_nil_r.
Qed.

Lemma last_quartet_complete x y z w out :
  out <> [] -> (length out <= 3)%nat -> Forall is_byte out -> [x; y; z; w] = encoding out ->
  last_quartet x y z w = Some out.
Proof.
  intros Hne Hlen Hb E. unfold last_quartet.
  destruct out as [|a [|b [|c [|]]]]; [done| | | |simpl in Hlen; lia];
    rewrite !Forall_cons in Hb.
  - destruct Hb as [Ha _]. destruct (chunk_sextets a 0 0) as (? & ? & _ & _ & Ho); [done..|].
    read_characters E. rewrite !base64_value_table by done. simpl.
    injection Ho as Ho1 Ho2. rewrite Ho1. rewrite (proj2 (Z.eqb_eq _ _)); [done|]. lia.
  - destruct Hb as (Ha & Hb & _). destruct (chunk_sextets a b 0) as (? & ? & ? & _ & Ho); [done..|].
    read_characters E. rewrite table_padding by done. rewrite !base64_value_table by done. simpl.
    injection Ho as Ho1 Ho2 _. rewrite Ho1, Ho2. rewrite (proj2 (Z.eqb_eq _ _)); [done|]. lia.
  - destruct Hb as (Ha & Hb & Hc & _). destruct (chunk_sextets a b c) as (? & ? & ? & ? & Ho); [done..|].
    read_characters E. rewrite !table_padding by done. rewrite !base64_value_table by done. simpl.
    by rewrite Ho.
Qed.

Lemma encoding_nil bytes : encoding bytes = [] <-> bytes = [].
Proof. by destruct bytes as [|? [|? [|? ?]]]. Qed.

Lemma encoding_step a b c bytes :
  encoding (a :: b :: c :: bytes) = characters (sextets a b c) 4 ++ encoding bytes.
Proof. done. Qed.

Lemma canonical_step x y z w l :
  l <> [] -> canonical (x :: y :: z :: w :: l)
             = (head ← full_quartet x y z w; rest ← canonical l; Some (head ++ rest)).
Proof. by destruct l. Qed.

Lemma canonical_sound l out :
  canonical l = Some out -> out <> [] /\ Forall is_byte out /\ l = encoding out.
Proof.
  revert out. induction l as [l Hl|x y z w l IH] using quartet_ind; intros out H.
  - destruct l as [|? [|? [|? [|]]]]; try done. simpl in Hl. lia.
  - destruct (decide (l = [])) as [->|Hne]; [by apply last_quartet_sound in H as (? & _ & ? & ?)|].
    rewrite canonical_step in H by done.
    apply bind_Some in H as (head & Hh & (rest & Hr & [= <-])%bind_Some).
    apply full_quartet_exact in Hh as (a & b & c & -> & Hb & E).
    apply IH in Hr as (_ & Hrb & ->). split_and!; [done|by apply Forall_app|].
    change (encoding ([a; b; c] ++ rest)) with (characters (sextets a b c) 4 ++ encoding rest).
    by rewrite <- E.
Qed.

Lemma canonical_complete out : out <> [] -> Forall is_byte out -> canonical (encoding out) = Some out.
Proof.
  induction out as [|a|a b|a b c out IH] using chunk3_ind; intros Hne Hb; [done| | |].
  1,2: by apply last_quartet_complete; [|simpl; lia| |].
  destruct (decide (out = [])) as [->|Hout]; [by apply last_quartet_complete; [|simpl; lia| |]|].
  rewrite encoding_step. change (characters (sextets a b c) 4 ++ encoding out) with
    (table (a / 4) :: table (a mod 4 * 16 + b / 16) :: table (b mod 16 * 4 + c / 64)
     :: table (c mod 64) :: encoding out).
  rewrite canonical_step by (by rewrite encoding_nil).
  apply (Forall_app _ [a; b; c]) in Hb as [Hb Hb']. rewrite IH by done.
  rewrite (proj2 (full_quartet_exact _ _ _ _ [a; b; c])); [done|]. by exists a, b, c.
Qed.

Lemma encoding_bytes bytes : Forall is_byte bytes -> Forall is_byte (encoding bytes).
Proof.
  assert (Ht : forall vs, Forall is_sextet vs -> Forall is_byte (table <$> vs)).
  { intros vs H. apply Forall_fmap. eapply Forall_impl; [exact H|]. apply table_byte. }
  assert (Hc : forall a b c kept, is_byte a -> is_byte b -> is_byte c ->
    Forall is_byte (characters (sextets a b c) kept)).
  { intros a b c kept Ha Hb Hc. apply Forall_app. split.
    - apply Ht, Forall_take. by apply sextets_octets.
    - by apply Forall_replicate. }
  induction bytes as [|a|a b|a b c l IH] using chunk3_ind; intros Hb; rewrite ?Forall_cons in Hb.
  - done.
  - destruct Hb as (? & _). by apply Hc.
  - destruct Hb as (? & ? & _). by apply Hc.
  - destruct Hb as (? & ? & ? & ?). apply Forall_app. split; [by apply Hc|auto].
Qed.

(** A text is the encoding of its bytes. *)
Lemma encode_eq value bytes :
  Forall is_byte bytes -> value = base64_encode bytes <-> string_bytes value = encoding bytes.
Proof.
  intros Hb. unfold base64_encode. rewrite encode_chunk_encoding by done. split.
  - intros ->. by apply text_of_bytes, encoding_bytes.
  - intros E. apply string_bytes_inj. by rewrite E, text_of_bytes by (by apply encoding_bytes).
Qed.

(** The texts the canonical decoder accepts. *)
Lemma canonical_exact value out :
  canonical (string_bytes value) = Some out <->
  out <> [] /\ Forall is_byte out /\ value = base64_encode out.
Proof.
  split.
  - intros (? & ? & ?)%canonical_sound. split_and!; [done..|]. by apply encode_eq.
  - intros (? & ? & E). apply encode_eq in E as ->; [|done]. by apply canonical_complete.
Qed.

(** * The strict decoders *)

(** [Result::ok] *)
Definition accepted {E A} (r : result E A) : option A :=
  match r with Ok a => Some a | Err _ => None end.

Lemma accepted_Ok {E A} (r : result E A) a : accepted r = Some a <-> r = Ok a.
Proof. destruct r; simpl; split; congruence. Qed.

Lemma accepted_bind {E A B} (r : result E A) (f : A -> result E B) :
  accepted (r ≫= f) = accepted r ≫= (fun a => accepted (f a)).
Proof. by destruct r. Qed.

Lemma accepted_ok_or {E A} (o : option A) (e : E) : accepted (ok_or o e) = o.
Proof. by destruct o. Qed.

(** Reads the sextets of a quartet's characters. *)
Ltac read_sextets := repeat match goal with
  | |- context [base64_value ?c] =>
      let v := fresh "v" in let E := fresh "E" in let S := fresh "S" in
      destruct (base64_value c) as [v|] eqn:E; simpl; [|reflexivity];
      pose proof (proj1 (proj1 (base64_value_Some c v) E)) as S
  end.

Lemma sextet_0 : is_sextet 0.
Proof. done. Qed.
#[local] Hint Resolve sextet_0 : core.

Ltac read_octets := unfold octets; rewrite ?land_3, ?land_15, ?first_byte, ?second_byte, ?third_byte by done.

#[local] Arguments Z.eqb : simpl never.
#[local] Arguments base64_value : simpl never.

(** Splits on which characters of a quartet are padding. *)
Ltac padding_cases c :=
  let E := fresh "E" in
  destruct (c =? 61) eqn:E; [apply Z.eqb_eq in E as ->|
    let E' := fresh "E" in pose proof (eq_trans (Z.eqb_sym 61 c) E) as E'].
Ltac read_padding :=
  simpl; repeat (first [ progress rewrite ?Z.eqb_refl, ?base64_value_padding
    | match goal with
      | H : (?c =? 61) = false |- context [?c =? 61] => rewrite H
      | H : (61 =? ?c) = false |- context [61 =? ?c] => rewrite H
      end ]; simpl).

Lemma padding_quartet x y z w :
  padding_of [x; y; z; w]
  = (if (w =? 61)%Z then if (z =? 61)%Z then if (y =? 61)%Z then if (x =? 61)%Z then 4 else 3 else 2
     else 1 else 0)%nat.
Proof. unfold padding_of. simpl. by repeat case_match. Qed.

(** Settles the comparison of a quartet with its specification. *)
Ltac read_quartet :=
  read_padding; try reflexivity; read_sextets; try reflexivity; read_octets; simpl;
  rewrite ?orb_false_r; repeat case_match; try reflexivity; try discriminate.

Lemma session_last count index x y z w :
  index + 1 = count ->
  accepted (session_decode_from count index [x; y; z; w]) = last_quartet x y z w.
Proof.
  intros <-. unfold last_quartet. cbn [session_decode_from]. rewrite padding_quartet.
  padding_cases w; padding_cases z; padding_cases y; padding_cases x; read_quartet.
Qed.

Lemma session_step count index x y z w l :
  index + 1 <> count ->
  accepted (session_decode_from count index (x :: y :: z :: w :: l))
  = (head ← full_quartet x y z w;
     rest ← accepted (session_decode_from count (index + 1) l); Some (head ++ rest)).
Proof.
  intros Hne%Z.eqb_neq. unfold full_quartet. cbn [session_decode_from].
  rewrite padding_quartet, Hne.
  destruct (session_decode_from count (index + 1) l);
    padding_cases w; padding_cases z; padding_cases y; padding_cases x; read_quartet.
Qed.

Lemma admission_last count index x y z w :
  index + 1 = count -> admission_decode_from count index [x; y; z; w] = last_quartet x y z w.
Proof.
  intros <-. unfold last_quartet. cbn [admission_decode_from]. unfold base64_padded.
  padding_cases w; padding_cases z; read_quartet.
Qed.

Lemma admission_step count index x y z w l :
  index + 1 <> count ->
  admission_decode_from count index (x :: y :: z :: w :: l)
  = (head ← full_quartet x y z w;
     rest ← admission_decode_from count (index + 1) l; Some (head ++ rest)).
Proof.
  intros Hne%Z.eqb_neq. unfold full_quartet. cbn [admission_decode_from]. unfold base64_padded.
  rewrite Hne.
  destruct (admission_decode_from count (index + 1) l);
    padding_cases w; padding_cases z; read_quartet.
Qed.

(** ** The loops *)

Section loops.
  Context (decode : Z -> Z -> list Z -> option (list Z)).
  Context (decode_last : forall count index x y z w,
    index + 1 = count -> decode count index [x; y; z; w] = last_quartet x y z w).
  Context (decode_step : forall count index x y z w l,
    index + 1 <> count ->
    decode count index (x :: y :: z :: w :: l)
    = (head ← full_quartet x y z w; rest ← decode count (index + 1) l; Some (head ++ rest))).

  (** A loop over all quartets of a nonempty text. *)
Lemma loop_canonical count index l :
    l <> [] -> Z.of_nat (length l) = 4 * (count - index) -> decode count index l = canonical l.
Proof.
  revert index. induction l as [l Hl|x y z w l IH] using quartet_ind; intros index Hne Hlen.
  - destruct l; [done|]. simpl in *. lia.
  - simpl in Hlen. destruct (decide (l = [])) as [->|Hl].
    + apply decode_last. simpl in Hlen. lia.
    + assert (length l <> 0%nat) by (by destruct l).
      rewrite canonical_step, decode_step by (done || lia). by rewrite IH by (done || lia).
Qed.
End loops.

Lemma canonical_length l out :
  canonical l = Some out -> l <> [] /\ Z.of_nat (length l) mod 4 = 0.
Proof.
  revert out. induction l as [l Hl|x y z w l IH] using quartet_ind; intros out H.
  - destruct l as [|? [|? [|? [|]]]]; try done. simpl in Hl. lia.
  - split; [done|]. destruct (decide (l = [])) as [->|Hne]; [done|].
    rewrite canonical_step in H by done. apply bind_Some in H as (? & _ & (? & [_ Hl]%IH & _)%bind_Some).
    simpl length. lia.
Qed.

Lemma quartets_length value :
  string_bytes value <> [] -> string_len value mod 4 = 0 ->
  Z.of_nat (length (string_bytes value)) = 4 * (string_len value / 4 - 0).
Proof. intros Hne Hm. rewrite string_bytes_length. unfold string_len in *. lia. Qed.

Lemma string_len_bytes value : string_len value = Z.of_nat (length (string_bytes value)).
Proof. by rewrite string_bytes_length. Qed.

(** A text the canonical decoder may accept: whole quartets, at least one. *)
Lemma canonical_whole value :
  ((string_len value =? 0) || negb (string_len value mod 4 =? 0)) = true ->
  canonical (string_bytes value) = None.
Proof.
  intros H. destruct (canonical (string_bytes value)) as [out|] eqn:E; [|done].
  apply canonical_length in E as [Hne Hm]. rewrite <- string_len_bytes in Hm.
  rewrite Hm in H. simpl in H. rewrite orb_false_r in H. apply Z.eqb_eq in H.
  destruct (string_bytes value) eqn:E'; [done|].
  rewrite string_len_bytes, E' in H. simpl in H. lia.
Qed.

Lemma whole_nonempty value :
  ((string_len value =? 0) || negb (string_len value mod 4 =? 0)) = false ->
  string_bytes value <> [] /\ string_len value mod 4 = 0.
Proof.
  intros [H1%Z.eqb_neq H2%negb_false_iff%Z.eqb_eq]%orb_false_iff. split; [|done].
  intros E. apply H1. by rewrite string_len_bytes, E.
Qed.

Lemma session_runtime_canonical value :
  accepted (session_decode_base64 value) = canonical (string_bytes value).
Proof.
  unfold session_decode_base64.
  destruct ((string_len value =? 0) || negb (string_len value mod 4 =? 0)) eqn:H; simpl.
  - symmetry. by apply canonical_whole.
  - apply whole_nonempty in H as [Hne Hm].
    apply (loop_canonical (fun count index l => accepted (session_decode_from count index l))).
    + intros. by apply session_last.
    + intros. by apply session_step.
    + done.
    + by apply quartets_length.
Qed.

(** ** Padding *)

Definition in_alphabet (b : Z) : Prop := is_Some (base64_value b).

Lemma table_in_alphabet v : is_sextet v -> in_alphabet (table v).
Proof. intros H. eexists. by apply base64_value_table. Qed.

Lemma in_alphabet_not_padding body : Forall in_alphabet body -> existsb (Z.eqb 61) body = false.
Proof.
  induction 1 as [|b body [v Hb] _ IH]; simpl; [done|]. rewrite IH, orb_false_r.
  apply Z.eqb_neq. by intros <-.
Qed.

Lemma leading_padding_replicate k l :
  (forall b, head l = Some b -> b <> 61) -> leading_padding (replicate k 61 ++ l) = k.
Proof.
  intros Hl. induction k as [|k IH]; simpl; [|by rewrite IH].
  destruct l as [|b l]; simpl; [done|]. by rewrite (proj2 (Z.eqb_neq _ _)) by (by apply Hl).
Qed.

Lemma rev_replicate {A} k (a : A) : rev (replicate k a) = replicate k a.
Proof.
  induction k as [|k IH]; simpl; [done|]. rewrite IH. clear IH.
  induction k as [|k IH]; simpl; [done|]. by rewrite IH.
Qed.

(** A text in the alphabet but for its padding. *)
Lemma padded_text body k :
  Forall in_alphabet body ->
  padding_of (body ++ replicate k 61) = k /\ body_of (body ++ replicate k 61) = body.
Proof.
  intros Hb. assert (E : padding_of (body ++ replicate k 61) = k).
  { unfold padding_of. rewrite rev_app_distr, rev_replicate. apply leading_padding_replicate.
    intros b Hh. destruct (rev body) as [|c l] eqn:Er; [done|]. simpl in Hh. injection Hh as ->.
    assert (Hin : In b body) by (apply in_rev; rewrite Er; by left).
    rewrite List.Forall_forall in Hb. apply Hb in Hin as [v Hv]. by intros ->. }
  split; [done|]. unfold body_of. rewrite E, length_app, length_replicate, Nat.add_sub.
  by rewrite take_app_length.
Qed.

(** Every text is a body and its padding. *)
Lemma split_padding l : l = body_of l ++ replicate (padding_of l) 61.
Proof.
  assert (E : forall r, r = replicate (leading_padding r) 61 ++ drop (leading_padding r) r
    /\ (leading_padding r <= length r)%nat).
  { induction r as [|b r [IH Hr]]; simpl; [split; [done|lia]|].
    destruct (Z.eqb_spec b 61) as [->|]; simpl; [|split; [done|lia]].
    split; [by rewrite <- IH|lia]. }
  destruct (E (rev l)) as [E1 E2]. fold (padding_of l) in E1, E2.
  set (d := rev (drop (padding_of l) (rev l))).
  assert (El : l = d ++ replicate (padding_of l) 61).
  { apply (f_equal (@rev Z)) in E1. by rewrite rev_involutive, rev_app_distr, rev_replicate in E1. }
  assert (Hd : (length l - padding_of l)%nat = length d)
    by (unfold d; by rewrite length_rev, length_drop, length_rev).
  unfold body_of. rewrite Hd. generalize dependent (padding_of l). intros p _ _ d El _.
  clearbody d. subst l. by rewrite take_app_length.
Qed.

(** The body of an encoding is in the alphabet, and at most two padding
    characters follow it. *)
Lemma encoding_shape bytes :
  Forall is_byte bytes ->
  exists body k, encoding bytes = body ++ replicate k 61 /\ Forall in_alphabet body /\ (k <= 2)%nat.
Proof.
  assert (Hc : forall a b c kept, is_byte a -> is_byte b -> is_byte c ->
    Forall in_alphabet (table <$> take kept (sextets a b c))).
  { intros a b c kept Ha Hb Hc. apply Forall_fmap.
    eapply Forall_impl; [apply Forall_take, sextets_octets; done|]. apply table_in_alphabet. }
  induction bytes as [|a|a b|a b c l IH] using chunk3_ind; intros Hb; rewrite ?Forall_cons in Hb.
  - exists [], 0%nat. split_and!; [done|by constructor|lia].
  - destruct Hb as (? & _). exists (table <$> take 2 (sextets a 0 0)), 2%nat.
    split_and!; [done|by apply Hc|lia].
  - destruct Hb as (? & ? & _). exists (table <$> take 3 (sextets a b 0)), 1%nat.
    split_and!; [done|by apply Hc|lia].
  - destruct Hb as (? & ? & ? & Hb). destruct (IH Hb) as (body & k & E & Hl & Hk).
    exists ((table <$> take 4 (sextets a b c)) ++ body), k. rewrite encoding_step, E.
    split_and!; [done| |done]. apply Forall_app. split; [by apply Hc|done].
Qed.

(** What every strict decoder requires of the padding. *)
Lemma canonical_padding l out :
  canonical l = Some out ->
  (padding_of l <= 2)%nat /\ Forall in_alphabet (body_of l).
Proof.
  intros (_ & Hb & ->)%canonical_sound.
  destruct (encoding_shape out Hb) as (body & k & -> & Hbody & Hk).
  by destruct (padded_text body k Hbody) as [-> ->].
Qed.

Lemma admission_canonical value :
  admission_decode_base64 value = canonical (string_bytes value).
Proof.
  unfold admission_decode_base64.
  destruct ((string_len value =? 0) || negb (string_len value mod 4 =? 0)) eqn:H.
  { symmetry. by apply canonical_whole. }
  apply whole_nonempty in H as [Hne Hm].
  destruct ((2 <? Z.of_nat (padding_of (string_bytes value)))
            || existsb (Z.eqb 61) (body_of (string_bytes value))) eqn:Hp.
  - destruct (canonical (string_bytes value)) as [out|] eqn:E; [|done].
    apply canonical_padding in E as [Hk Hbody]. rewrite in_alphabet_not_padding in Hp by done.
    rewrite orb_false_r in Hp. apply Z.ltb_lt in Hp. lia.
  - apply loop_canonical; [apply admission_last|apply admission_step|done|].
    rewrite <- string_len_bytes. lia.
Qed.

(** ** The wire decoder *)

Lemma wire_trailing_cons x y z w body :
  (2 <= length body)%nat ->
  check_trailing (x :: y :: z :: w :: body) = check_trailing body.
Proof.
  intros H. unfold check_trailing, trailing_bits.
  replace (Z.of_nat (length (x :: y :: z :: w :: body)) mod 4) with (Z.of_nat (length body) mod 4)
    by (simpl length; lia).
  by destruct body.
Qed.

Lemma wire_step x y z w l :
  in_alphabet x -> in_alphabet y -> in_alphabet z -> in_alphabet w ->
  accepted (decode_quartets (x :: y :: z :: w :: l))
  = (head ← full_quartet x y z w; rest ← accepted (decode_quartets l); Some (head ++ rest)).
Proof.
  intros [a Ha] [b Hb] [c Hc] [d Hd]. unfold full_quartet. simpl. rewrite Ha, Hb, Hc, Hd. simpl.
  apply base64_value_Some in Ha as [? ->], Hb as [? ->], Hc as [? ->], Hd as [? ->].
  rewrite !table_padding by done. simpl. read_octets. by destruct (decode_quartets l).
Qed.

(** The last quartet, with its padding and the check of its unused bits. *)
Lemma wire_last body k x y z w :
  [x; y; z; w] = body ++ replicate k 61 -> Forall in_alphabet body -> (k <= 2)%nat ->
  accepted (decode_quartets [x; y; z; w]) ≫= (fun out =>
    accepted (check_trailing body) ≫= (fun _ => Some out)) = last_quartet x y z w.
Proof.
  intros E Hb Hk. unfold last_quartet.
  destruct k as [|[|[|k]]]; [| | |lia].
  - rewrite app_nil_r in E. subst body. rewrite !Forall_cons in Hb.
    destruct Hb as ([a Ha] & [b Hb] & [c Hc] & [d Hd] & _). simpl. rewrite Ha, Hb, Hc, Hd. simpl.
    apply base64_value_Some in Ha as [? ->], Hb as [? ->], Hc as [? ->], Hd as [? ->].
    rewrite !table_padding by done. simpl. by read_octets.
  - destruct body as [|x' [|y' [|z' [|? body]]]]; try discriminate; [|by destruct body].
    injection E as -> -> -> ->. rewrite !Forall_cons in Hb.
    destruct Hb as ([a Ha] & [b Hb] & [c Hc] & _). simpl. rewrite Ha, Hb, Hc. simpl.
    unfold check_trailing, trailing_bits. simpl. rewrite Hc.
    apply base64_value_Some in Ha as [? ->], Hb as [? ->], Hc as [? ->].
    rewrite !table_padding by done. simpl. read_octets. by case_match.
  - destruct body as [|x' [|y' [|? [|? body]]]]; try discriminate; [|by destruct body].
    injection E as -> -> -> ->. rewrite !Forall_cons in Hb.
    destruct Hb as ([a Ha] & [b Hb] & _). simpl. rewrite Ha, Hb. simpl.
    unfold check_trailing, trailing_bits. simpl. rewrite Hb.
    apply base64_value_Some in Ha as [? ->], Hb as [? ->].
    simpl. read_octets. by case_match.
Qed.

Lemma wire_quartets l body k :
  l = body ++ replicate k 61 -> Forall in_alphabet body -> (k <= 2)%nat ->
  Z.of_nat (length l) mod 4 = 0 -> l <> [] ->
  accepted (decode_quartets l) ≫= (fun out =>
    accepted (check_trailing body) ≫= (fun _ => Some out)) = canonical l.
Proof.
  revert body. induction l as [l Hl|x y z w l IH] using quartet_ind; intros body E Hb Hk Hm Hne.
  { destruct l; [done|]. simpl in *. lia. }
  destruct (decide (l = [])) as [->|Hnl]; [by eapply wire_last|].
  assert (Hlen : (4 <= length l)%nat).
  { destruct l; [done|]. simpl in *. lia. }
  pose proof (f_equal length E) as El. rewrite length_app, length_replicate in El. simpl in El.
  destruct body as [|x' [|y' [|z' [|w' body]]]]; simpl in El; try lia.
  injection E as -> -> -> -> E. rewrite !Forall_cons in Hb. destruct Hb as (? & ? & ? & ? & Hb).
  rewrite wire_step, canonical_step by done. rewrite wire_trailing_cons by lia.
  rewrite <- (IH body) by (done || (simpl length in Hm; lia)).
  destruct (full_quartet x' y' z' w'); simpl; [|done].
  destruct (accepted (decode_quartets l)); simpl; [|done].
  by destruct (accepted (check_trailing body)).
Qed.

Lemma alphabet_forallb body :
  forallb (fun b => is_ascii_alphanumeric b || (b =? 43) || (b =? 47)) body = true
  <-> Forall in_alphabet body.
Proof.
  rewrite forallb_forall, List.Forall_forall. split; intros H b Hin; specialize (H b Hin).
  - rewrite alphabet_value in H. by apply bool_decide_eq_true in H.
  - rewrite alphabet_value. by apply bool_decide_eq_true.
Qed.

Lemma wire_canonical value :
  accepted (wire_decode_base64 value) = canonical (string_bytes value).
Proof.
  unfold wire_decode_base64, validate_base64.
  destruct ((string_len value =? 0) || negb (string_len value mod 4 =? 0)) eqn:H; simpl.
  { symmetry. by apply canonical_whole. }
  apply whole_nonempty in H as [Hne Hm]. rewrite string_len_bytes in Hm.
  set (l := string_bytes value) in *.
  destruct (decide ((padding_of l <= 2)%nat /\ Forall in_alphabet (body_of l))) as [[Hk Hb]|Hno].
  - rewrite in_alphabet_not_padding, orb_false_r by done.
    rewrite (proj2 (Z.ltb_ge _ _)) by lia. simpl. rewrite (proj2 (alphabet_forallb _)) by done. simpl.
    rewrite accepted_bind.
    rewrite <- (wire_quartets l (body_of l) (padding_of l)) by (done || apply split_padding).
    destruct (decode_quartets l); simpl; [|done]. by destruct (check_trailing _).
  - destruct (canonical l) as [out|] eqn:E; [by apply canonical_padding in E|].
    destruct (Z.ltb_spec 2 (Z.of_nat (padding_of l))); simpl; [done|].
    destruct (existsb (Z.eqb 61) (body_of l)); simpl; [done|].
    destruct (forallb _ (body_of l)) eqn:Ha; simpl; [|done].
    apply alphabet_forallb in Ha. destruct Hno. split; [lia|done].
Qed.

(** ** The prompt decoder *)

Lemma decode_chunks_full x y z w head l :
  full_quartet x y z w = Some head ->
  decode_chunks (x :: y :: z :: w :: l) = rest ← decode_chunks l; Some (head ++ rest).
Proof.
  unfold full_quartet.
  intros (a & Ha & (b & Hb & (c & Hc & (d & Hd & H)%bind_Some)%bind_Some)%bind_Some)%bind_Some.
  injection H as <-. simpl. unfold base64_padded. rewrite Ha, Hb, Hc, Hd.
  apply base64_value_Some in Ha as [? ->], Hb as [? ->], Hc as [? ->], Hd as [? ->].
  rewrite !table_padding by done. simpl. read_octets. by destruct (decode_chunks l).
Qed.

Lemma decode_chunks_last x y z w out :
  last_quartet x y z w = Some out -> decode_chunks [x; y; z; w] = Some out.
Proof.
  unfold last_quartet.
  intros (a & Ha & (b & Hb & H)%bind_Some)%bind_Some. simpl. unfold base64_padded. rewrite Ha, Hb. simpl.
  apply base64_value_Some in Ha as [? ->], Hb as [? ->].
  destruct (z =? 61) eqn:Ez.
  - destruct (w =? 61); [|done]. simpl in *. read_octets. case_match; [|done].
    apply (inj Some) in H as <-. done.
  - apply bind_Some in H as (c & Hc & H). rewrite Hc. apply base64_value_Some in Hc as [? ->].
    destruct (w =? 61); simpl in *.
    + read_octets. case_match; [|done]. by apply (inj Some) in H as <-.
    + apply bind_Some in H as (d & Hd & H). rewrite Hd. apply base64_value_Some in Hd as [? ->].
      apply (inj Some) in H as <-. simpl. by read_octets.
Qed.

(** Where the canonical decoder succeeds, the prompt decoder agrees. *)
Lemma prompt_canonical value out :
  canonical (string_bytes value) = Some out -> decode_base64 value = Some out.
Proof.
  intros H. pose proof (proj2 (canonical_length _ _ H)) as Hm. rewrite <- string_len_bytes in Hm.
  unfold decode_base64. rewrite (proj2 (Z.eqb_eq _ _) Hm). clear Hm. revert out H.
  induction (string_bytes value) as [l Hl|x y z w l IH] using quartet_ind; intros out H.
  - destruct l as [|? [|? [|? [|]]]]; try done. simpl in Hl. lia.
  - destruct (decide (l = [])) as [->|Hne]; [by apply decode_chunks_last|].
    rewrite canonical_step in H by done.
    apply bind_Some in H as (head & Hh & (rest & Hr & [= <-])%bind_Some).
    rewrite (decode_chunks_full _ _ _ _ head) by done. by rewrite (IH rest).
Qed.

(** * Theorems *)

(** The encoders agree: the encoder that splits bytes and the encoder that
    shifts a 24-bit word write the same text. *)
Theorem encoders_agree bytes : Forall is_byte bytes -> base64 bytes = base64_encode bytes.
Proof.
  intros H. unfold base64, base64_encode. by rewrite encode_word_encoding, encode_chunk_encoding.
Qed.

Lemma encoders_agree_witness : base64 [0; 255; 16; 7] = base64_encode [0; 255; 16; 7].
Proof. apply encoders_agree. repeat constructor; vm_compute; discriminate. Defined.

(** C40: The strict decoders are exact: the wire protocol's, the session runtime's and
    the Tea host's decoder each accept a text precisely when it is the encoding
    of a nonempty byte sequence, and then return that sequence; so an encoded
    sequence round-trips and a decoded text re-encodes to itself. *)
Theorem strict_decoders_exact value bytes :
  (wire_decode_base64 value = Ok bytes <->
     bytes <> [] /\ Forall is_byte bytes /\ value = base64_encode bytes) /\
  (session_decode_base64 value = Ok bytes <->
     bytes <> [] /\ Forall is_byte bytes /\ value = base64_encode bytes) /\
  (admission_decode_base64 value = Some bytes <->
     bytes <> [] /\ Forall is_byte bytes /\ value = base64_encode bytes).
Proof.
  rewrite <- !accepted_Ok, wire_canonical, session_runtime_canonical, admission_canonical.
  split_and!; apply canonical_exact.
Qed.

(** The prompt decoder reads back what any encoder wrote, the empty sequence
    included. *)
Lemma prompt_roundtrip bytes :
  Forall is_byte bytes -> decode_base64 (base64_encode bytes) = Some bytes.
Proof.
  intros H. destruct (decide (bytes = [])) as [->|Hne]; [reflexivity|].
  by apply prompt_canonical, canonical_exact.
Qed.

(** The check of a packet's prompts admits texts that are not canonical: two
    different texts pass [validate_base64] and decode to the same prompt, and the
    Tea host refuses one of them. *)
Theorem prompt_encodings_alias :
  exists value alias bytes, value <> alias /\
    validate_base64 value = Ok tt /\ validate_base64 alias = Ok tt /\
    decode_base64 value = Some bytes /\ decode_base64 alias = Some bytes /\
    admission_decode_base64 value = Some bytes /\ admission_decode_base64 alias = None.
Proof. exists "YQ=="%string, "YR=="%string, [97]. split_and!; done. Qed.
