(* ===== verification/Values.v ===== *)
(** Protocol values: identifiers, aggregate revisions, money, content digests
    and paths ([crates/factory-protocol/src/{identifier,revision,error,value,
    path,state}.rs]), with the text boundaries proved exact. *)
From S2P Require Import Prelude.

(** * Errors ([error.rs]) *)

Inductive ContractError : Type :=
  | NonPositiveIdentifier (kind : string)
  | InvalidValue (field reason : string)
  | ByteLimitExceeded (field : string) (maximum : Z)
  | UnsafeRelativePath (field reason : string)
  | RevisionOverflow
  | BundleInvariant (invariant evidence : string).

#[global] Instance ContractError_eq_dec : EqDecision ContractError.
Proof. solve_decision. Defined.

(** * Identifiers and revisions *)

(** Every [numeric_identifier!] type is an [i64] admitted by this constructor. *)
Definition identifier_new (kind : string) (value : Z) : result ContractError Z :=
  if value <=? 0 then Err (NonPositiveIdentifier kind) else Ok value.

(** [AggregateRevision(u64)] *)
Definition revision_initial : Z := 0.
Definition revision_next (r : Z) : result ContractError Z :=
  ok_or (checked_add_u64 r 1) RevisionOverflow.

(** * Closed states ([state.rs]) *)

Inductive AssignmentRole := ProductResearch | Engineering | Quality.
Inductive ReviewVerdict := Accept | Reject.

#[global] Instance AssignmentRole_eq_dec : EqDecision AssignmentRole.
Proof. solve_decision. Defined.
#[global] Instance ReviewVerdict_eq_dec : EqDecision ReviewVerdict.
Proof. solve_decision. Defined.

(** * Money ([value.rs], [MicroUsd]) *)

Definition micro_usd_checked_add (a b : Z) : result ContractError Z :=
  ok_or (checked_add_u64 a b) (InvalidValue "micro_usd" "sum exceeds u64").

Definition usd_too_large : ContractError :=
  InvalidValue "USD decimal" "exceeds u64 micro-USD".
Definition usd_malformed : ContractError :=
  InvalidValue "USD decimal"
    "must be an unsigned decimal with an optional fractional part".

(** [str::split_once(c)] on bytes. *)
Fixpoint split_once (b : Z) (l : list Z) : option (list Z * list Z) :=
  match l with
  | [] => None
  | c :: l =>
      if c =? b then Some ([], l)
      else '(w, f) ← split_once b l; Some (c :: w, f)
  end.

(** [str::parse::<u64>] of a nonempty run of ASCII digits. *)
Definition parse_u64 (digits : list Z) : option Z :=
  let v := decimal_value digits in if v <=? u64_max then Some v else None.

Definition is_empty {A} (l : list A) : bool :=
  match l with [] => true | _ => false end.

(** The two [for] loops: six digits are read, missing ones count as zeros. *)
Definition fractional_micro_usd (fraction : list Z) : Z :=
  Nat.iter (6 - length fraction) (fun v => v * 10)
    (decimal_value (take 6 fraction)).

Definition rounds_up (fraction : list Z) : bool :=
  existsb (fun digit => negb (digit =? 48)) (drop 6 fraction).

Definition parse_decimal_usd (value : string) : result ContractError Z :=
  let bytes := string_bytes value in
  let '(whole, fraction) :=
    match split_once 46 bytes with
    | Some (w, f) => (w, Some f)
    | None => (bytes, None)
    end in
  if is_empty whole || negb (forallb is_ascii_digit whole)
     || match fraction with
        | Some f => is_empty f || negb (forallb is_ascii_digit f)
        | None => false
        end
  then Err usd_malformed
  else
    whole ← ok_or (parse_u64 whole) usd_too_large;
    let fraction := default [] fraction in
    ok_or
      (v ← checked_mul_u64 whole 1000000;
       v ← checked_add_u64 v (fractional_micro_usd fraction);
       checked_add_u64 v (if rounds_up fraction then 1 else 0))
      usd_too_large.

(** * Content digests ([value.rs], [ContentDigest]) *)

Definition ContentDigest : Type := list Z.

Definition hex_nibble (byte : Z) : option Z :=
  if (48 <=? byte) && (byte <=? 57) then Some (byte - 48)
  else if (97 <=? byte) && (byte <=? 102) then Some (byte - 97 + 10)
  else None.

Fixpoint hex_pairs (l : list Z) : result ContractError (list Z) :=
  match l with
  | a :: b :: l =>
      let bad := InvalidValue "blake3 digest" "must use lower-case hexadecimal characters" in
      high ← ok_or (hex_nibble a) bad;
      low ← ok_or (hex_nibble b) bad;
      rest ← hex_pairs l;
      Ok (Z.lor (Z.shiftl high 4) low :: rest)
  | _ => Ok []
  end.

Definition content_digest_from_str (value : string) : result ContractError ContentDigest :=
  if negb (string_len value =? 64)
  then Err (InvalidValue "blake3 digest" "must contain exactly 64 hexadecimal characters")
  else hex_pairs (string_bytes value).

Definition hex_digit (n : Z) : Z := if n <? 10 then 48 + n else 87 + n.

(** Lower-case hexadecimal, high nibble first. *)
Fixpoint hex_text (d : list Z) : list Z :=
  match d with
  | [] => []
  | b :: d => hex_digit (b / 16) :: hex_digit (b mod 16) :: hex_text d
  end.

(** [ContentDigest::to_hex] *)
Definition to_hex (d : ContentDigest) : string := text_of (hex_text d).

(** The seal of an object in the content-addressed store ([cas.rs]). *)
Record CasArtifact := { cas_digest : ContentDigest; cas_byte_length : Z }.

#[global] Instance CasArtifact_eq_dec : EqDecision CasArtifact.
Proof. solve_decision. Defined.

(** * Text

    What the contracts use of Rust's [str]. *)

Fixpoint has_prefix (prefix l : list Z) : bool :=
  match prefix, l with
  | [], _ => true
  | p :: prefix, c :: l => (p =? c) && has_prefix prefix l
  | _ :: _, [] => false
  end.

Definition has_suffix (suffix l : list Z) : bool := has_prefix (rev suffix) (rev l).

(** [str::starts_with], [str::ends_with] and [str::contains] of a text. *)
Definition text_starts_with (prefix value : string) : bool :=
  has_prefix (string_bytes prefix) (string_bytes value).
Definition text_ends_with (suffix value : string) : bool :=
  has_suffix (string_bytes suffix) (string_bytes value).
Fixpoint has_infix (infix l : list Z) : bool :=
  has_prefix infix l || match l with [] => false | _ :: l => has_infix infix l end.
Definition text_contains (infix value : string) : bool :=
  has_infix (string_bytes infix) (string_bytes value).

(** The UTF-8 encodings of the characters [char::is_whitespace] accepts. *)
Definition whitespace_encodings : list (list Z) :=
  [[9]; [10]; [11]; [12]; [13]; [32]; [194; 133]; [194; 160]; [225; 154; 128]; [226; 128; 128];
   [226; 128; 129]; [226; 128; 130]; [226; 128; 131]; [226; 128; 132]; [226; 128; 133];
   [226; 128; 134]; [226; 128; 135]; [226; 128; 136]; [226; 128; 137]; [226; 128; 138];
   [226; 128; 168]; [226; 128; 169]; [226; 128; 175]; [226; 129; 159]; [227; 128; 128]].

(** [value.contains(char::is_whitespace)] of a UTF-8 text. *)
Definition contains_whitespace (value : string) : bool :=
  existsb (fun w => has_infix w (string_bytes value)) whitespace_encodings.

Definition continuation (b : Z) : bool := (128 <=? b) && (b <=? 191).
Definition byte_in (low high b : Z) : bool := (low <=? b) && (b <=? high).

(** [std::str::from_utf8(bytes).is_ok()]: well-formed sequences only, so no
    overlong form, no surrogate and nothing above U+10FFFF. *)
Fixpoint utf8_valid (l : list Z) : bool :=
  match l with
  | [] => true
  | a :: l =>
      if byte_in 0 127 a then utf8_valid l
      else match l with
      | b :: l =>
          if byte_in 194 223 a then continuation b && utf8_valid l
          else match l with
          | c :: l =>
              if byte_in 224 239 a then
                (if a =? 224 then byte_in 160 191 b
                 else if a =? 237 then byte_in 128 159 b else continuation b)
                && continuation c && utf8_valid l
              else match l with
              | d :: l =>
                  byte_in 240 244 a
                  && (if a =? 240 then byte_in 144 191 b
                      else if a =? 244 then byte_in 128 143 b else continuation b)
                  && continuation c && continuation d && utf8_valid l
              | [] => false
              end
          | [] => false
          end
      | [] => false
      end
  end.

(** * Paths ([path.rs]) *)

Definition validate_safe_relative (field value : string) (allow_root : bool)
  : result ContractError string :=
  let bad reason := UnsafeRelativePath field reason in
  if is_empty (string_bytes value) then Err (bad "path is empty")
  else if contains_byte 0 value then Err (bad "path contains NUL")
  else if starts_with_byte 47 value then Err (bad "path is absolute")
  else if contains_byte 92 value
    then Err (bad "backslash is not a canonical separator")
  else if existsb is_empty (split_bytes 47 (string_bytes value))
    then Err (bad "path contains an empty segment")
  else if String.eqb value "." && allow_root then Ok value
  else if existsb (fun seg => bool_decide (seg = string_bytes ".")
                              || bool_decide (seg = string_bytes ".."))
            (split_bytes 47 (string_bytes value))
    then Err (bad "path contains traversal")
  else Ok value.

Definition runtime_relative_path_parse (value : string) : result ContractError string :=
  validate_safe_relative "runtime-relative path" value false.
Definition repository_relative_path_parse (value : string) : result ContractError string :=
  validate_safe_relative "repository-relative path" value true.
Definition application_relative_path_parse (value : string) : result ContractError string :=
  validate_safe_relative "application-relative path" value false.

Definition absolute_host_path_parse (value : string) : result ContractError string :=
  if is_empty (string_bytes value) || contains_byte 0 value
  then Err (InvalidValue "absolute host path" "must be non-empty UTF-8 without NUL")
  else if negb (starts_with_byte 47 value)
  then Err (InvalidValue "absolute host path" "must start with a slash")
  else Ok value.

(** * Specifications

    [usd_text s w f] says that [s] is written with whole digits [w] and
    fractional digits [f]. *)

Definition usd_text (s : string) (w f : list Z) : Prop :=
  w <> [] /\ forallb is_ascii_digit w = true /\ forallb is_ascii_digit f = true /\
  ((f = [] /\ string_bytes s = w) \/ (f <> [] /\ string_bytes s = w ++ 46 :: f)).

(** The least number of micro-USD that is not below the written amount. *)
Definition ceiling_micro_usd (w f : list Z) : Z :=
  let scale := 10 ^ Z.of_nat (length f) in
  (decimal_value (w ++ f) * 1000000 + scale - 1) / scale.

Definition digest_wf (d : ContentDigest) : Prop := length d = 32%nat /\ Forall u8 d.

(** One segment a canonical relative path may have. *)
Definition safe_segment (seg : list Z) : Prop :=
  seg <> [] /\ seg <> string_bytes "." /\ seg <> string_bytes ".." /\
  (0 ∉ seg) /\ (47 ∉ seg) /\ (92 ∉ seg).

(** The text of a segment list, with a slash between segments. *)
Fixpoint join_segments (segs : list (list Z)) : list Z :=
  match segs with
  | [] => []
  | [seg] => seg
  | seg :: segs => seg ++ 47 :: join_segments segs
  end.

(** Tests of [value.rs]. *)
Example usd_1 : parse_decimal_usd "0.0000011" = Ok 2. Proof. reflexivity. Qed.
Example usd_2 : parse_decimal_usd "18446744073709.551615" = Ok u64_max.
Proof. vm_compute. reflexivity. Qed.
Example usd_3 : parse_decimal_usd "18446744073709.5516151" = Err usd_too_large.
Proof. vm_compute. reflexivity. Qed.
Example usd_4 : parse_decimal_usd "1.2.3" = Err usd_malformed. Proof. reflexivity. Qed.

(** * Decimal money is rounded up, exactly *)

Section decimal.
Lemma decimal_fold (l : list Z) (acc : Z) :
    fold_left (fun acc d => acc * 10 + (d - 48)) l acc
    = acc * 10 ^ Z.of_nat (length l) + decimal_value l.
  Proof.
    unfold decimal_value. revert acc. induction l as [|d l IH]; intros acc.
    - simpl. lia.
    - cbn [fold_left length]. rewrite IH, (IH (0 * 10 + (d - 48))).
      rewrite Nat2Z.inj_succ, Z.pow_succ_r by lia. lia.
  Qed.

Lemma decimal_value_app (a b : list Z) :
    decimal_value (a ++ b) = decimal_value a * 10 ^ Z.of_nat (length b) + decimal_value b.
  Proof. unfold decimal_value. rewrite fold_left_app, decimal_fold. reflexivity. Qed.

Lemma decimal_value_cons (d : Z) (l : list Z) :
    decimal_value (d :: l) = (d - 48) * 10 ^ Z.of_nat (length l) + decimal_value l.
  Proof. unfold decimal_value at 1. cbn [fold_left]. rewrite decimal_fold. lia. Qed.

Lemma is_ascii_digit_range (d : Z) : is_ascii_digit d = true -> 48 <= d <= 57.
  Proof. unfold is_ascii_digit. lia. Qed.

Lemma decimal_value_bound (l : list Z) :
    forallb is_ascii_digit l = true ->
    0 <= decimal_value l < 10 ^ Z.of_nat (length l).
  Proof.
    induction l as [|d l IH]; cbn [forallb length]; intros H; [split; reflexivity|].
    apply andb_true_iff in H as [Hd%is_ascii_digit_range Hl%IH].
    rewrite decimal_value_cons, Nat2Z.inj_succ, Z.pow_succ_r by lia. nia.
  Qed.

Lemma decimal_value_zero (l : list Z) :
    forallb is_ascii_digit l = true ->
    decimal_value l = 0 <-> existsb (fun d => negb (d =? 48)) l = false.
  Proof.
    induction l as [|d l IH]; simpl; intros H; [easy|].
    apply andb_true_iff in H as [Hd%is_ascii_digit_range Hl].
    pose proof (decimal_value_bound l Hl). rewrite decimal_value_cons, orb_false_iff, <- IH by done.
    assert (0 < 10 ^ Z.of_nat (length l)) by (apply Z.pow_pos_nonneg; lia).
    rewrite negb_false_iff, Z.eqb_eq. split; [|intros [-> ->]; lia].
    intros E. assert (d = 48) as -> by nia. lia.
  Qed.

Lemma fractional_micro_usd_short (f : list Z) :
    (length f <= 6)%nat ->
    fractional_micro_usd f = decimal_value f * 10 ^ (6 - Z.of_nat (length f)).
  Proof.
    intros Hl. unfold fractional_micro_usd. rewrite take_ge by lia.
    replace (6 - Z.of_nat (length f)) with (Z.of_nat (6 - length f)) by lia.
    generalize (decimal_value f) as v. induction (6 - length f)%nat as [|n IH]; intros v.
    - simpl. lia.
    - rewrite Nat.iter_succ, IH, Nat2Z.inj_succ, Z.pow_succ_r by lia. lia.
  Qed.

Lemma forallb_app_inv (f g : list Z) :
    forallb is_ascii_digit (f ++ g) = true ->
    forallb is_ascii_digit f = true /\ forallb is_ascii_digit g = true.
  Proof. rewrite forallb_app. apply andb_true_iff. Qed.

  (** Dividing up when the remainder is below the scale. *)
Lemma ceil_split (q r p : Z) :
    0 <= r < p -> (q * p + r + p - 1) / p = q + (if r =? 0 then 0 else 1).
  Proof.
    intros H. destruct (Z.eqb_spec r 0) as [->|Hr].
    - symmetry. apply Z.div_unique with (p - 1); lia.
    - symmetry. apply Z.div_unique with (r - 1); lia.
  Qed.

Lemma ceiling_long (w a b : list Z) :
    length a = 6%nat -> forallb is_ascii_digit b = true ->
    ceiling_micro_usd w (a ++ b) =
    decimal_value w * 1000000 + decimal_value a + (if decimal_value b =? 0 then 0 else 1).
  Proof.
    intros Ha Hb. unfold ceiling_micro_usd.
    pose proof (decimal_value_bound b Hb) as Hr.
    set (p := 10 ^ Z.of_nat (length b)) in *.
    rewrite length_app, Ha, Nat2Z.inj_add, Z.pow_add_r by lia.
    change (10 ^ Z.of_nat 6) with 1000000. fold p.
    rewrite !decimal_value_app, length_app, Ha, Nat2Z.inj_add, Z.pow_add_r by lia.
    change (10 ^ Z.of_nat 6) with 1000000. fold p.
    rewrite <- (ceil_split (decimal_value w * 1000000 + decimal_value a) _ p Hr).
    set (x := decimal_value w * 1000000 + decimal_value a).
    replace ((decimal_value w * (1000000 * p) + (decimal_value a * p + decimal_value b)) * 1000000
             + 1000000 * p - 1) with (1000000 * (x * p + decimal_value b + p) - 1) by (unfold x; lia).
    replace (1000000 * (x * p + decimal_value b + p) - 1)
      with (999999 + (x * p + decimal_value b + p - 1) * 1000000) by lia.
    rewrite <- Z.div_div, Z.div_add by lia. f_equal.
  Qed.

Lemma ceiling_eq (w f : list Z) :
    forallb is_ascii_digit f = true ->
    ceiling_micro_usd w f =
    decimal_value w * 1000000 + fractional_micro_usd f + (if rounds_up f then 1 else 0).
  Proof.
    intros Hf. destruct (decide (length f <= 6)%nat) as [Hs|Hl].
    - rewrite fractional_micro_usd_short by done.
      unfold rounds_up. rewrite drop_ge by lia. simpl. unfold ceiling_micro_usd.
      rewrite decimal_value_app. set (n := Z.of_nat (length f)).
      assert (0 < 10 ^ n) by (apply Z.pow_pos_nonneg; lia).
      assert (1000000 = 10 ^ (6 - n) * 10 ^ n) as E.
      { rewrite <- Z.pow_add_r by lia. replace (6 - n + n) with 6 by lia. reflexivity. }
      apply (f_equal (Z.mul (decimal_value f))) in E.
      replace ((decimal_value w * 10 ^ n + decimal_value f) * 1000000 + 10 ^ n - 1)
        with ((decimal_value w * 1000000 + decimal_value f * 10 ^ (6 - n)) * 10 ^ n + 0 + 10 ^ n - 1)
        by lia.
      rewrite ceil_split by lia. simpl. lia.
    - rewrite <- (take_drop 6 f) in Hf |- * at 1.
      apply forallb_app_inv in Hf as [_ Hb].
      rewrite ceiling_long by (rewrite ?length_take; done || lia).
      unfold fractional_micro_usd, rounds_up.
      replace (6 - length f)%nat with 0%nat by lia. simpl Nat.iter.
      f_equal. pose proof (decimal_value_zero _ Hb) as Hz.
      destruct (Z.eqb_spec (decimal_value (drop 6 f)) 0) as [E|E].
      + rewrite (proj1 Hz E). reflexivity.
      + destruct (existsb _ _); [reflexivity|]. destruct E. apply Hz. reflexivity.
  Qed.
End decimal.

Lemma split_once_Some (b : Z) (l w f : list Z) :
  split_once b l = Some (w, f) <-> (b ∉ w) /\ l = w ++ b :: f.
Proof.
  revert w. induction l as [|c l IH]; intros w; cbn [split_once].
  - split; [discriminate|]. intros [_ H]. by destruct w.
  - destruct (Z.eqb_spec c b) as [->|Hc].
    + split.
      * intros [= <- <-]. split; [apply not_elem_of_nil|done].
      * intros [Hn H]. destruct w as [|x w]; simplify_eq/=; [done|].
        apply not_elem_of_cons in Hn as [? _]. done.
    + split.
      * intros ([w' f'] & H & [= <- <-])%bind_Some. apply IH in H as [Hn ->].
        rewrite not_elem_of_cons. auto.
      * intros [Hn H]. destruct w as [|x w]; simplify_eq/=.
        apply not_elem_of_cons in Hn as [_ Hn].
        rewrite (proj2 (IH w) (conj Hn eq_refl)). reflexivity.
Qed.

Lemma split_once_None (b : Z) (l : list Z) : b ∉ l -> split_once b l = None.
Proof.
  induction l as [|c l IH]; intros Hn; [done|]. apply not_elem_of_cons in Hn as [Hc Hn].
  cbn [split_once]. rewrite (proj2 (Z.eqb_neq c b)), IH by done. reflexivity.
Qed.

Lemma digits_no_dot (w : list Z) : forallb is_ascii_digit w = true -> 46 ∉ w.
Proof.
  rewrite forallb_forall. intros H Hin. apply list_elem_of_In, H, is_ascii_digit_range in Hin. lia.
Qed.

(** The last step of the parser on an already split decimal. *)
Lemma parse_sum_Ok (w f : list Z) (v : Z) :
  forallb is_ascii_digit w = true -> forallb is_ascii_digit f = true ->
  ((whole ← ok_or (parse_u64 w) usd_too_large;
    ok_or
      (v ← checked_mul_u64 whole 1000000;
       v ← checked_add_u64 v (fractional_micro_usd f);
       checked_add_u64 v (if rounds_up f then 1 else 0)) usd_too_large) = Ok v)
  <-> v = ceiling_micro_usd w f /\ v <= u64_max.
Proof.
  intros Hw Hf. rewrite (ceiling_eq w f Hf).
  assert (0 <= fractional_micro_usd f) as H0.
  { unfold fractional_micro_usd. apply Nat.iter_invariant; [intros; lia|].
    apply decimal_value_bound. rewrite forallb_forall in Hf |- *.
    intros x Hx. apply Hf. rewrite <- (take_drop 6 f). apply in_or_app. auto. }
  pose proof (decimal_value_bound w Hw) as [Hw0 _].
  unfold parse_u64, checked_mul_u64, checked_add_u64.
  set (W := decimal_value w) in *. set (F := fractional_micro_usd f) in *.
  set (r := if rounds_up f then 1 else 0). assert (0 <= r) by (unfold r; case_match; lia).
  destruct (Z.leb_spec W u64_max); cbn; [|split; [discriminate|lia]].
  destruct (Z.leb_spec (W * 1000000) u64_max); cbn; [|split; [discriminate|lia]].
  destruct (Z.leb_spec (W * 1000000 + F) u64_max); cbn; [|split; [discriminate|lia]].
  destruct (Z.leb_spec (W * 1000000 + F + r) u64_max); cbn; [|split; [discriminate|lia]].
  split; [intros [= <-]; lia|intros [-> _]; reflexivity].
Qed.

(** [MicroUsd::parse_decimal_usd] accepts exactly the written decimals
    (whole digits, optionally a dot and fractional digits) whose amount rounded
    up to a whole micro-USD fits a [u64], and returns that rounded amount: a
    provider charge is never understated and never overstated by a micro-USD. *)
Theorem parse_decimal_usd_exact (s : string) (v : Z) :
  parse_decimal_usd s = Ok v <->
  exists w f, usd_text s w f /\ v = ceiling_micro_usd w f /\ v <= u64_max.
Proof.
  unfold parse_decimal_usd, usd_text. split.
  - destruct (split_once 46 (string_bytes s)) as [[w f]|] eqn:E.
    + destruct (_ || _) eqn:B; [discriminate|]. intros H. bool_prop.
      cbn [default] in H. apply parse_sum_Ok in H; [|done..].
      apply split_once_Some in E as [_ E]. exists w, f.
      repeat split; try done; try apply H; [by destruct w|].
      right. split; [by destruct f|done].
    + destruct (_ || _) eqn:B; [discriminate|]. intros H. bool_prop.
      cbn [default] in H. apply parse_sum_Ok in H; [|done..].
      exists (string_bytes s), [].
      repeat split; try done; try apply H; [by destruct (string_bytes s)|by left].
  - intros (w & f & (Hw0 & Hw & Hf & Hs) & Hv).
    destruct Hs as [[-> ->]|[Hf0 ->]].
    + rewrite split_once_None by (by apply digits_no_dot). rewrite Hw.
      destruct w as [|d w]; [done|]. cbn [is_empty negb orb default].
      by apply parse_sum_Ok.
    + rewrite (proj2 (split_once_Some 46 _ w f)) by (split; [by apply digits_no_dot|done]).
      rewrite Hw, Hf. destruct w as [|d w]; [done|]. destruct f as [|e f]; [done|].
      cbn [is_empty negb orb default]. by apply parse_sum_Ok.
Qed.

(** * Digests are read from exactly one text *)

Section hex.
Lemma hex_nibble_Some (b n : Z) :
    hex_nibble b = Some n <-> 0 <= n < 16 /\ b = hex_digit n.
  Proof.
    unfold hex_nibble, hex_digit. split.
    - repeat case_match; intros [= <-]; bool_prop; lia.
    - intros [Hn ->].
      destruct (Z.ltb_spec n 10);
        repeat case_match; bool_prop; try (f_equal; lia);
        repeat match goal with H : (_ && _) = false |- _ => apply andb_false_iff in H as [?|?] end;
        bool_prop; lia.
  Qed.

Lemma nibbles_byte (h l : Z) :
    0 <= h < 16 -> 0 <= l < 16 -> Z.lor (Z.shiftl h 4) l = h * 16 + l.
  Proof.
    intros Hh Hl.
    assert (Forall (fun h => Forall (fun l => Z.lor (Z.shiftl h 4) l = h * 16 + l)
      (seqZ 0 16)) (seqZ 0 16)) as H by (vm_compute; repeat constructor).
    rewrite Forall_forall in H. specialize (H h). rewrite Forall_forall in H.
    apply H; apply elem_of_seqZ; lia.
  Qed.

Lemma list_pair_ind (P : list Z -> Prop) :
    P [] -> (forall a, P [a]) -> (forall a b l, P l -> P (a :: b :: l)) -> forall l, P l.
  Proof.
    intros H0 H1 H2. fix IH 1. intros [|a [|b l]]; [exact H0|apply H1|apply H2, IH].
  Qed.

Lemma hex_pairs_Ok (l d : list Z) :
    Z.even (Z.of_nat (length l)) = true ->
    hex_pairs l = Ok d <-> Forall u8 d /\ l = hex_text d.
  Proof.
    revert d. induction l as [|a|a b l IH] using list_pair_ind; intros d Hl.
    - split; [intros [= <-]; auto|]. intros [_ E]. by destruct d.
    - discriminate.
    - assert (Z.even (Z.of_nat (length l)) = true) as Hl'.
      { rewrite <- Hl. cbn [length]. rewrite !Nat2Z.inj_succ, !Z.even_succ, Z.odd_succ. done. }
      cbn [hex_pairs]. split.
      + intros H. ok_inv H. apply hex_nibble_Some in H0 as [? ->], H1 as [? ->].
        apply (IH _ Hl') in H2 as [Hu ->]. rewrite nibbles_byte by done.
        split; [constructor; [unfold u8; lia|done]|].
        cbn [hex_text]. f_equal; [|f_equal]; f_equal.
        * apply Z.div_unique with x0; lia.
        * apply Z.mod_unique with x; lia.
      + intros [Hu H]. destruct d as [|z d]; [done|]. injection H as -> -> ->.
        apply Forall_cons in Hu as [Hz Hd]. unfold u8 in Hz.
        pose proof (Z.mod_pos_bound z 16 eq_refl).
        assert (0 <= z / 16 < 16) by (split; [apply Z.div_pos; lia|apply Z.div_lt_upper_bound; lia]).
        rewrite !(proj2 (hex_nibble_Some _ _)) by (split; [|reflexivity]; lia).
        simpl. rewrite (proj2 (IH d Hl')), nibbles_byte by done. simpl.
        do 2 f_equal. pose proof (Z.div_mod z 16). lia.
  Qed.

Lemma hex_text_length (d : list Z) : length (hex_text d) = (2 * length d)%nat.
  Proof. induction d as [|b d IH]; simpl; lia. Qed.
End hex.

(** A textual content digest parses to [d] exactly when it is the 64
    character lower-case hexadecimal rendering of the 32 bytes [d]: parsing is
    injective, rejects every other text, and loses nothing. *)
Theorem content_digest_from_str_exact (s : string) (d : ContentDigest) :
  content_digest_from_str s = Ok d <-> digest_wf d /\ string_bytes s = hex_text d.
Proof.
  unfold content_digest_from_str, digest_wf, string_len. rewrite <- string_bytes_length.
  destruct (Z.eqb_spec (Z.of_nat (length (string_bytes s))) 64) as [E|E]; simpl.
  - rewrite hex_pairs_Ok by (rewrite E; reflexivity).
    split; [intros [? H]|intros [[_ ?] ?]; auto]. repeat split; [|done..].
    rewrite H, hex_text_length in E. lia.
  - split; [discriminate|]. intros [[Hl _] H]. rewrite H, hex_text_length, Hl in E. lia.
Qed.

Lemma hex_text_u8 d : Forall u8 d -> Forall u8 (hex_text d).
Proof.
  induction 1 as [|b d Hb _ IH]; [constructor|]. cbn [hex_text]. unfold u8 in *.
  assert (0 <= b / 16 < 16) by (split; [apply Z.div_pos; lia|apply Z.div_lt_upper_bound; lia]).
  pose proof (Z.mod_pos_bound b 16 eq_refl).
  repeat constructor; [..|done]; unfold hex_digit; case_match; lia.
Qed.

Lemma digest_back (d : ContentDigest) : digest_wf d -> content_digest_from_str (to_hex d) = Ok d.
Proof.
  intros Hd. apply content_digest_from_str_exact. split; [done|]. apply text_of_bytes, hex_text_u8, Hd.
Qed.

(** * Safe relative paths *)

Section paths.
Lemma split_bytes_nonempty (b : Z) (l : list Z) : split_bytes b l <> [].
  Proof. destruct l as [|c l]; simpl; [done|]. repeat case_match; done. Qed.

Lemma split_bytes_join (l : list Z) : join_segments (split_bytes 47 l) = l.
  Proof.
    induction l as [|c l IH]; [reflexivity|]. cbn [split_bytes].
    pose proof (split_bytes_nonempty 47 l) as Hn.
    destruct (Z.eqb_spec c 47) as [->|Hc].
    - destruct (split_bytes 47 l) as [|s ss] eqn:E; [done|]. simpl in *. by rewrite IH.
    - destruct (split_bytes 47 l) as [|s [|s' ss]] eqn:E; [done|..]; simpl in *; by rewrite IH.
  Qed.

Lemma split_bytes_no_sep (l : list Z) :
    Forall (fun seg => 47 ∉ seg) (split_bytes 47 l).
  Proof.
    induction l as [|c l IH]; cbn [split_bytes].
    - repeat constructor. apply not_elem_of_nil.
    - destruct (Z.eqb_spec c 47) as [->|Hc].
      + constructor; [apply not_elem_of_nil|done].
      + destruct (split_bytes 47 l) as [|s ss].
        * repeat constructor. rewrite not_elem_of_cons. split; [done|apply not_elem_of_nil].
        * apply Forall_cons in IH as [? ?]. constructor; [|done].
          rewrite not_elem_of_cons. done.
  Qed.

Lemma split_bytes_app (s l : list Z) :
    47 ∉ s -> split_bytes 47 (s ++ 47 :: l) = s :: split_bytes 47 l.
  Proof.
    induction s as [|c s IH]; intros Hs; [reflexivity|].
    apply not_elem_of_cons in Hs as [Hc Hs]. cbn [split_bytes app].
    rewrite (proj2 (Z.eqb_neq c 47)), (IH Hs) by done. reflexivity.
  Qed.

Lemma split_bytes_single (s : list Z) : 47 ∉ s -> split_bytes 47 s = [s].
  Proof.
    induction s as [|c s IH]; intros Hs; [reflexivity|].
    apply not_elem_of_cons in Hs as [Hc Hs]. cbn [split_bytes].
    rewrite (proj2 (Z.eqb_neq c 47)), (IH Hs) by done. reflexivity.
  Qed.

Lemma join_split (segs : list (list Z)) :
    segs <> [] -> Forall (fun seg => 47 ∉ seg) segs ->
    split_bytes 47 (join_segments segs) = segs.
  Proof.
    induction segs as [|s segs IH]; intros Hn H; [done|].
    apply Forall_cons in H as [Hs H]. destruct segs as [|s' segs].
    - by apply split_bytes_single.
    - change (join_segments (s :: s' :: segs)) with (s ++ 47 :: join_segments (s' :: segs)).
      rewrite split_bytes_app, IH by done. reflexivity.
  Qed.

Lemma elem_of_join (b : Z) (segs : list (list Z)) :
    b <> 47 -> b ∈ join_segments segs <-> Exists (fun seg => b ∈ seg) segs.
  Proof.
    intros Hb. induction segs as [|s [|s' segs] IH].
    - rewrite Exists_nil. simpl. split; [apply not_elem_of_nil|done].
    - rewrite Exists_cons, Exists_nil. simpl. tauto.
    - change (join_segments (s :: s' :: segs)) with (s ++ 47 :: join_segments (s' :: segs)).
      rewrite elem_of_app, elem_of_cons, Exists_cons, IH. tauto.
  Qed.

Lemma existsb_false {A} (f : A -> bool) l :
    existsb f l = false <-> Forall (fun x => f x = false) l.
  Proof.
    induction l as [|a l IH]; simpl; [split; auto|].
    rewrite orb_false_iff, Forall_cons, IH. done.
  Qed.

Lemma contains_byte_false (b : Z) (s : string) :
    contains_byte b s = false <-> b ∉ string_bytes s.
  Proof.
    unfold contains_byte. rewrite existsb_false, Forall_forall. split.
    - intros H Hin. specialize (H _ Hin). bool_prop. done.
    - intros H x Hin. apply Z.eqb_neq. by intros ->.
  Qed.
End paths.

(** A text of safe segments passes every byte test of the validator. *)
Lemma join_safe (segs : list (list Z)) (b : Z) :
  Forall safe_segment segs -> b <> 47 -> (b = 0 \/ b = 92) -> b ∉ join_segments segs.
Proof.
  intros H Hb Hcase. rewrite elem_of_join, Exists_exists by done.
  intros (seg & Hin & Hseg). rewrite Forall_forall in H.
  destruct (H seg Hin) as (_ & _ & _ & ? & _ & ?). by destruct Hcase as [->| ->].
Qed.

Lemma safe_segments_iff (l : list Z) :
  (0 ∉ l) -> (92 ∉ l) ->
  Forall (fun seg => is_empty seg = false) (split_bytes 47 l) ->
  Forall (fun seg => bool_decide (seg = string_bytes ".")
                     || bool_decide (seg = string_bytes "..") = false) (split_bytes 47 l) ->
  Forall safe_segment (split_bytes 47 l).
Proof.
  intros H0 H92 He Hd. pose proof (split_bytes_no_sep l) as Hs.
  rewrite Forall_forall in He, Hd, Hs |- *. intros seg Hin.
  assert (forall b, b <> 47 -> b ∉ l -> b ∉ seg) as Hb.
  { intros b Hb Hl Hseg. apply Hl. rewrite <- (split_bytes_join l).
    apply elem_of_join; [done|]. apply Exists_exists. eauto. }
  specialize (Hd seg Hin). specialize (He seg Hin). bool_prop.
  unfold safe_segment. repeat split; auto; [by intros ->|apply Hb; [lia|done]..].
Qed.

(** A relative path is accepted exactly when it is written as one or more
    non-empty segments joined by single slashes, none of them [.] or [..] and
    none holding NUL or a backslash (or is the root [.] where that is allowed);
    the accepted text is the one that was given. *)
Theorem validate_safe_relative_exact (field value v : string) (allow_root : bool) :
  validate_safe_relative field value allow_root = Ok v <->
  v = value /\
  ((allow_root = true /\ value = "."%string) \/
   exists segs, segs <> [] /\ Forall safe_segment segs /\
                string_bytes value = join_segments segs).
Proof.
  unfold validate_safe_relative. split.
  - destruct (is_empty _) eqn:?; [discriminate|].
    destruct (contains_byte 0 _) eqn:?; [discriminate|].
    destruct (starts_with_byte 47 _) eqn:?; [discriminate|].
    destruct (contains_byte 92 _) eqn:?; [discriminate|].
    destruct (existsb is_empty _) eqn:?; [discriminate|].
    destruct (String.eqb value "." && _) eqn:Hdot.
    { apply andb_true_iff in Hdot as [->%String.eqb_eq ->]. intros Hv. injection Hv as <-. auto. }
    intros Hv. case_match; [discriminate|]. injection Hv as <-.
    split; [done|]. right. exists (split_bytes 47 (string_bytes value)).
    rewrite split_bytes_join. split; [apply split_bytes_nonempty|]. split; [|done].
    apply safe_segments_iff; by (apply contains_byte_false || apply existsb_false).
  - intros [-> [[-> ->]|(segs & Hne & Hs & Hv)]]; [reflexivity|].
    rewrite (proj2 (contains_byte_false 0 value)) by (rewrite Hv; apply join_safe; auto).
    rewrite (proj2 (contains_byte_false 92 value)) by (rewrite Hv; apply join_safe; auto).
    unfold starts_with_byte. rewrite Hv, join_split.
    2: done.
    2: eapply Forall_impl; [exact Hs|]; intros seg Hseg; apply Hseg.
    assert (exists c l, join_segments segs = c :: l /\ c <> 47) as (c & l & -> & Hc).
    { destruct segs as [|[|c s] segs]; [done|by apply Forall_cons in Hs as [[? _] _]|].
      apply Forall_cons in Hs as [(_ & _ & _ & _ & H47 & _) _].
      apply not_elem_of_cons in H47 as [? _]. destruct segs; simpl; eauto. }
    rewrite (proj2 (Z.eqb_neq c 47)) by done. cbn [is_empty].
    rewrite (proj2 (existsb_false is_empty segs))
      by (eapply Forall_impl; [exact Hs|]; by intros [|? ?] [? _]).
    destruct (_ && allow_root); [reflexivity|].
    rewrite (proj2 (existsb_false _ segs)); [reflexivity|].
    eapply Forall_impl; [exact Hs|]. intros seg (_ & H1 & H2 & _).
    apply orb_false_iff. split; by apply bool_decide_eq_false.
Qed.
