(* ===== verification/Contracts.v ===== *)
(** Closed Product, candidate, review and Architect contracts: the bounded
    payloads the kernel admits before it opens a transaction
    ([crates/factory-protocol/src/{ticket,candidate,decision}.rs]). *)
From S2P Require Import Prelude Values.

(** * Limits *)

Definition EXACT_OBSERVATION_COMPARISON_V2 : Z := 2.
Definition PRODUCT_TICKET_TITLE_BYTE_LIMIT : Z := 240.
Definition PRODUCT_TICKET_MISSION_VALUE_BYTE_LIMIT : Z := 4096.
Definition PRODUCT_TICKET_SCOPE_BYTE_LIMIT : Z := 4096.
Definition PRODUCT_TICKET_CONTRACT_OWNER_BYTE_LIMIT : Z := 240.
Definition PRODUCT_TICKET_RISK_BYTE_LIMIT : Z := 4096.
Definition PRODUCT_TICKET_ACCEPTANCE_ITEM_BYTE_LIMIT : Z := 4096.
Definition PRODUCT_TICKET_CONTRACT_READ_REASON_BYTE_LIMIT : Z := 240.
Definition PRODUCT_TICKET_EVIDENCE_BYTE_LIMIT : Z := 64 * 1024.
Definition PRODUCT_REPRODUCER_COMMAND_BYTE_LIMIT : Z := 64 * 1024.
Definition PRODUCT_REPRODUCER_STDIN_BYTE_LIMIT : Z := 256 * 1024.
Definition PRODUCT_REPRODUCER_STREAM_BYTE_LIMIT : Z := 4 * 1024 * 1024.
Definition PRODUCT_REPRODUCER_PROFILE_BYTE_LIMIT : Z := 160.
Definition PRODUCT_DUPLICATE_SEARCH_QUERY_BYTE_LIMIT : Z := 4096.
Definition PRODUCT_DUPLICATE_SEARCH_LIMIT_MAXIMUM : Z := 20.

Definition CANDIDATE_COMMIT_SUBJECT_BYTE_LIMIT : Z := 120.
Definition CANDIDATE_COMMIT_BODY_BYTE_LIMIT : Z := 8 * 1024.
Definition CANDIDATE_REGRESSION_IDENTITY_BYTE_LIMIT : Z := 4 * 1024.
Definition QUALITY_RATIONALE_BYTE_LIMIT : Z := 128 * 1024.
Definition QUALITY_RISKS_BYTE_LIMIT : Z := 64 * 1024.
Definition QUALITY_PROBES_BYTE_LIMIT : Z := 128 * 1024.

Definition ARCHITECT_PRINCIPAL_BYTE_LIMIT : Z := 240.
Definition ARCHITECT_RATIONALE_BYTE_LIMIT : Z := 128 * 1024.

(** * Sealed artifacts and observations ([ticket.rs]) *)

Record SealedArtifactReferenceV2 := {
  artifact_id : Z;
  digest : ContentDigest;
  byte_length : Z;
}.

#[global] Instance SealedArtifactReferenceV2_eq_dec : EqDecision SealedArtifactReferenceV2.
Proof. solve_decision. Defined.

Definition artifact_validate (reference : SealedArtifactReferenceV2)
    (field : string) (maximum : Z) (allow_empty : bool) : result ContractError unit :=
  if maximum <? byte_length reference then Err (ByteLimitExceeded field maximum)
  else if negb allow_empty && (byte_length reference =? 0)
  then Err (InvalidValue field "must not be empty")
  else Ok tt.

Record CommandObservationV2 := {
  exit_status : Z;
  stdout : SealedArtifactReferenceV2;
  stderr : SealedArtifactReferenceV2;
}.

Definition observation_validate (o : CommandObservationV2) (field : string)
  : result ContractError unit :=
  artifact_validate (stdout o) field PRODUCT_REPRODUCER_STREAM_BYTE_LIMIT true ;;
  artifact_validate (stderr o) field PRODUCT_REPRODUCER_STREAM_BYTE_LIMIT true.

Definition same_outcome_as (a b : CommandObservationV2) : bool :=
  (exit_status a =? exit_status b)
  && bool_decide (digest (stdout a) = digest (stdout b))
  && (byte_length (stdout a) =? byte_length (stdout b))
  && bool_decide (digest (stderr a) = digest (stderr b))
  && (byte_length (stderr a) =? byte_length (stderr b)).

Record TwoRunReproducerV2 := {
  comparison_rule_version : Z;
  command : SealedArtifactReferenceV2;
  stdin : option SealedArtifactReferenceV2;
  expected_observation : CommandObservationV2;
  first_observation : CommandObservationV2;
  second_observation : CommandObservationV2;
}.

Definition reproducer_validate (r : TwoRunReproducerV2) : result ContractError unit :=
  require (comparison_rule_version r =? EXACT_OBSERVATION_COMPARISON_V2)
    (InvalidValue "reproducer comparison rule version" "is not the exact-observation V2 rule") ;;
  artifact_validate (command r) "reproducer command" PRODUCT_REPRODUCER_COMMAND_BYTE_LIMIT false ;;
  match stdin r with
  | Some i => artifact_validate i "reproducer stdin" PRODUCT_REPRODUCER_STDIN_BYTE_LIMIT false
  | None => Ok tt
  end ;;
  observation_validate (expected_observation r) "expected reproducer observation" ;;
  observation_validate (first_observation r) "first reproducer observation" ;;
  observation_validate (second_observation r) "second reproducer observation" ;;
  require (same_outcome_as (first_observation r) (second_observation r))
    (InvalidValue "reproducer observations" "the two discovery runs do not match") ;;
  require (negb (same_outcome_as (first_observation r) (expected_observation r)))
    (InvalidValue "reproducer observations"
       "the observed failure already matches the expected behavior").

(** * Product proposals ([ticket.rs]) *)

Definition ticket_validate_text (field value : string) (maximum : Z) : result ContractError unit :=
  if is_empty (string_bytes value) || (maximum <? string_len value) || contains_byte 0 value
  then Err (InvalidValue field "must be nonempty, bounded UTF-8 without NUL") else Ok tt.

Record DuplicateSearchInputV2 := { query : string; limit : Z }.

Definition duplicate_search_validate (d : DuplicateSearchInputV2) : result ContractError unit :=
  ticket_validate_text "duplicate search query" (query d)
    PRODUCT_DUPLICATE_SEARCH_QUERY_BYTE_LIMIT ;;
  if (limit d =? 0) || (PRODUCT_DUPLICATE_SEARCH_LIMIT_MAXIMUM <? limit d)
  then Err (InvalidValue "duplicate search limit" "must be between 1 and 20") else Ok tt.

Record TicketContractReadV2 := { read_path : string; read_reason : string }.

Definition contract_read_validate (r : TicketContractReadV2) : result ContractError unit :=
  ticket_validate_text "ticket contract read reason" (read_reason r)
    PRODUCT_TICKET_CONTRACT_READ_REASON_BYTE_LIMIT.

Record TicketBoundsV2 := {
  narrative_byte_limit : Z;
  acceptance_criteria_limit : Z;
  contract_read_limit : Z;
}.

Record ProductTicketProposalV2 := {
  title : string;
  mission_value : string;
  scope : string;
  contract_owner : string;
  risk : string;
  narrative : SealedArtifactReferenceV2;
  evidence : SealedArtifactReferenceV2;
  acceptance_criteria : list string;
  contract_reads : list TicketContractReadV2;
  duplicate_search : DuplicateSearchInputV2;
  reproducer_profile : string;
  reproducer : TwoRunReproducerV2;
}.

(** The loop over the reads, with its [BTreeSet] of paths already seen. *)
Fixpoint contract_reads_validate (paths : gset string) (reads : list TicketContractReadV2)
  : result ContractError unit :=
  match reads with
  | [] => Ok tt
  | read :: reads =>
      contract_read_validate read ;;
      require (negb (bool_decide (read_path read ∈ paths)))
        (InvalidValue "ticket contract reads" "paths must be unique") ;;
      contract_reads_validate ({[read_path read]} ∪ paths) reads
  end.

Definition length_in_bound {A} (l : list A) (maximum : Z) : bool :=
  negb (is_empty l) && (Z.of_nat (length l) <=? maximum).

Definition proposal_validate (p : ProductTicketProposalV2) (bounds : TicketBoundsV2)
  : result ContractError unit :=
  ticket_validate_text "ticket title" (title p) PRODUCT_TICKET_TITLE_BYTE_LIMIT ;;
  ticket_validate_text "ticket mission value" (mission_value p)
    PRODUCT_TICKET_MISSION_VALUE_BYTE_LIMIT ;;
  ticket_validate_text "ticket scope" (scope p) PRODUCT_TICKET_SCOPE_BYTE_LIMIT ;;
  ticket_validate_text "ticket contract owner" (contract_owner p)
    PRODUCT_TICKET_CONTRACT_OWNER_BYTE_LIMIT ;;
  ticket_validate_text "ticket risk" (risk p) PRODUCT_TICKET_RISK_BYTE_LIMIT ;;
  artifact_validate (narrative p) "ticket narrative" (narrative_byte_limit bounds) false ;;
  artifact_validate (evidence p) "ticket evidence" PRODUCT_TICKET_EVIDENCE_BYTE_LIMIT false ;;
  require (length_in_bound (acceptance_criteria p) (acceptance_criteria_limit bounds))
    (InvalidValue "ticket acceptance criteria" "count is outside the application bound") ;;
  for_each (fun criterion =>
    ticket_validate_text "ticket acceptance criterion" criterion
      PRODUCT_TICKET_ACCEPTANCE_ITEM_BYTE_LIMIT) (acceptance_criteria p) ;;
  require (length_in_bound (contract_reads p) (contract_read_limit bounds))
    (InvalidValue "ticket contract reads" "count is outside the application bound") ;;
  contract_reads_validate ∅ (contract_reads p) ;;
  duplicate_search_validate (duplicate_search p) ;;
  ticket_validate_text "reproducer profile" (reproducer_profile p)
    PRODUCT_REPRODUCER_PROFILE_BYTE_LIMIT ;;
  reproducer_validate (reproducer p).

(** * Candidates and reviews ([candidate.rs]) *)

Definition is_lower_hex (b : Z) : bool :=
  is_ascii_digit b || ((97 <=? b) && (b <=? 102)).

Definition repository_object_id_parse (value : string) : result ContractError string :=
  if negb ((string_len value =? 40) || (string_len value =? 64))
     || negb (forallb is_lower_hex (string_bytes value))
  then Err (InvalidValue "repository object identity"
              "must be a lower-case 40- or 64-hex object ID")
  else Ok value.

Definition candidate_validate_text (field value : string) (maximum : Z) (allow_empty : bool)
  : result ContractError unit :=
  if (negb allow_empty && is_empty (string_bytes value)) || (maximum <? string_len value)
     || contains_byte 0 value
  then Err (InvalidValue field "must be bounded UTF-8 without NUL") else Ok tt.

Record CandidateSubmissionV2 := {
  commit_subject : string;
  commit_body : string;
  regression_test_identity : string;
}.

Definition candidate_submission_validate (s : CandidateSubmissionV2) : result ContractError unit :=
  candidate_validate_text "candidate commit subject" (commit_subject s)
    CANDIDATE_COMMIT_SUBJECT_BYTE_LIMIT false ;;
  require (negb (contains_byte 13 (commit_subject s) || contains_byte 10 (commit_subject s)))
    (InvalidValue "candidate commit subject" "must be exactly one line") ;;
  candidate_validate_text "candidate commit body" (commit_body s)
    CANDIDATE_COMMIT_BODY_BYTE_LIMIT true ;;
  candidate_validate_text "candidate regression test identity" (regression_test_identity s)
    CANDIDATE_REGRESSION_IDENTITY_BYTE_LIMIT false.

Record QualityReviewSubmissionV2 := {
  full_suite_validation_id : Z;
  verdict : ReviewVerdict;
  review_rationale : SealedArtifactReferenceV2;
  risks : SealedArtifactReferenceV2;
  additional_probes : SealedArtifactReferenceV2;
}.

Definition quality_review_submission_validate (s : QualityReviewSubmissionV2)
  : result ContractError unit :=
  artifact_validate (review_rationale s) "Quality rationale" QUALITY_RATIONALE_BYTE_LIMIT false ;;
  artifact_validate (risks s) "Quality risks" QUALITY_RISKS_BYTE_LIMIT false ;;
  artifact_validate (additional_probes s) "Quality additional probes"
    QUALITY_PROBES_BYTE_LIMIT false.

(** * Architect decisions ([decision.rs]) *)

Inductive ArchitectDecisionKindV2 := KindSponsor | KindRelease | KindDeliver | KindRework | KindReject.
Inductive CandidateDecisionV2 := Deliver | Rework | RejectCandidate.

#[global] Instance CandidateDecisionV2_eq_dec : EqDecision CandidateDecisionV2.
Proof. solve_decision. Defined.

Definition decision_kind (d : CandidateDecisionV2) : ArchitectDecisionKindV2 :=
  match d with
  | Deliver => KindDeliver
  | Rework => KindRework
  | RejectCandidate => KindReject
  end.

Definition architect_principal_parse (value : string) : result ContractError string :=
  if is_empty (string_bytes value) || (ARCHITECT_PRINCIPAL_BYTE_LIMIT <? string_len value)
     || contains_byte 0 value
  then Err (InvalidValue "Architect principal" "must be nonempty, bounded UTF-8 without NUL")
  else Ok value.

Record SponsorshipDecisionV2 := {
  sponsored_ticket_revision_id : Z;
  sponsorship_rationale : SealedArtifactReferenceV2;
  sponsorship_principal : string;
}.

Definition sponsorship_validate (d : SponsorshipDecisionV2) : result ContractError unit :=
  artifact_validate (sponsorship_rationale d) "Architect sponsorship rationale"
    ARCHITECT_RATIONALE_BYTE_LIMIT false.

Record ReleaseDecisionV2 := {
  released_ticket_attempt_id : Z;
  release_rationale : SealedArtifactReferenceV2;
  release_principal : string;
}.

Definition release_validate (d : ReleaseDecisionV2) : result ContractError unit :=
  artifact_validate (release_rationale d) "Architect release rationale"
    ARCHITECT_RATIONALE_BYTE_LIMIT false.

Record CandidateDecisionRequestV2 := {
  request_candidate_id : Z;
  request_review_id : Z;
  request_decision : CandidateDecisionV2;
  request_rationale : SealedArtifactReferenceV2;
  quality_rejection_override : option Z;
  request_principal : string;
}.

Definition candidate_decision_request_validate (r : CandidateDecisionRequestV2)
  : result ContractError unit :=
  artifact_validate (request_rationale r) "Architect candidate-decision rationale"
    ARCHITECT_RATIONALE_BYTE_LIMIT false ;;
  if bool_decide (is_Some (quality_rejection_override r))
     && negb (bool_decide (request_decision r = Deliver))
  then Err (InvalidValue "Quality rejection override" "is only valid for a deliver decision")
  else Ok tt.
