(* ===== verification/Application.v ===== *)
(** The closed application contract: the bundle an application declares, its
    validation, the one-pass template language and the pure compiler
    ([crates/factory-protocol/src/application.rs]). *)
From S2P Require Import Prelude Values Contracts.

Definition APPLICATION_BUNDLE_V2_FORMAT : Z := 2.
Definition MAX_APPLICATION_ARTIFACT_BYTES : Z := 8 * 1024 * 1024.
Definition MAX_POLICY_ARTIFACT_BYTES : Z := 1024 * 1024.
Definition MAX_SESSION_OUTPUT_BYTES : Z := 16 * 1024 * 1024.
Definition MAX_APPLICATION_SOURCE_PATH_BYTES : Z := 240.

Definition bundle_error (invariant evidence : string) : ContractError :=
  BundleInvariant invariant evidence.

Definition validate_nonempty_bounded (field value : string) (maximum : Z)
  : result ContractError unit :=
  if is_empty (string_bytes value) then Err (InvalidValue field "must not be empty")
  else if maximum <? string_len value then Err (ByteLimitExceeded field maximum)
  else if contains_byte 0 value then Err (InvalidValue field "must not contain NUL")
  else Ok tt.

Definition validate_application_source_path (path field : string) (policy : bool)
  : result ContractError unit :=
  if MAX_APPLICATION_SOURCE_PATH_BYTES <? string_len path
  then Err (ByteLimitExceeded field MAX_APPLICATION_SOURCE_PATH_BYTES)
  else if starts_with_byte 47 path || contains_byte 92 path || contains_byte 0 path
  then Err (UnsafeRelativePath field "source path is not canonical")
  else if policy && (negb (text_starts_with "policies/" path) || negb (text_ends_with ".luau" path))
  then Err (UnsafeRelativePath field "policy path must be a .luau file beneath policies/")
  else Ok tt.

Definition is_ascii_upper (b : Z) : bool := (65 <=? b) && (b <=? 90).
Definition is_ascii_lower (b : Z) : bool := (97 <=? b) && (b <=? 122).

(** Upper-case letters, digits and underscores. *)
Definition upper_name_byte (b : Z) : bool := is_ascii_upper b || is_ascii_digit b || (b =? 95).

(** * Declarations *)

Definition application_key_parse (value : string) : result ContractError string :=
  if is_empty (string_bytes value) || (80 <? string_len value)
  then Err (InvalidValue "application key" "must contain 1 through 80 bytes")
  else if negb (forallb (fun b => is_ascii_lower b || is_ascii_digit b || (b =? 45))
                  (string_bytes value))
  then Err (InvalidValue "application key"
              "must use lower-case ASCII letters, digits, or hyphens")
  else Ok value.

Inductive DeliveryModeV2 : Set := LocalFastForwardOnly.

#[global] Instance DeliveryModeV2_eq_dec : EqDecision DeliveryModeV2.
Proof. solve_decision. Defined.

Record RepositoryBindingV2 := {
  rb_repository_key : string;
  rb_canonical_local_path : string;
  rb_default_branch : string;
  rb_delivery_mode : DeliveryModeV2;
}.

(** The branch names [RepositoryBindingV2] and [RegisterRepository] refuse. *)
Definition unsafe_branch (branch : string) : bool :=
  contains_whitespace branch || text_contains ".." branch || text_ends_with "/" branch.

Definition repository_binding_validate (r : RepositoryBindingV2) : result ContractError unit :=
  validate_nonempty_bounded "repository_key" (rb_repository_key r) 160 ;;
  validate_nonempty_bounded "default_branch" (rb_default_branch r) 240 ;;
  require (negb (unsafe_branch (rb_default_branch r)))
    (bundle_error "repository binding" "default branch is not a safe Git reference name") ;;
  require (bool_decide (rb_delivery_mode r = LocalFastForwardOnly))
    (bundle_error "repository binding" "only guarded local fast-forward delivery is admitted").

Definition template_placeholder_parse (value : string) : result ContractError string :=
  if is_empty (string_bytes value) || (64 <? string_len value)
     || negb (forallb upper_name_byte (string_bytes value))
  then Err (InvalidValue "template placeholder"
              "must use 1 through 64 upper-case ASCII letters, digits, or underscores")
  else Ok value.

Record TemplateArtifactV2 := {
  ta_source_path : string;
  ta_digest : ContentDigest;
  ta_placeholders : list string;
  ta_rendered_byte_limit : Z;
}.

Definition template_validate (t : TemplateArtifactV2) (field : string) : result ContractError unit :=
  validate_application_source_path (ta_source_path t) field false ;;
  require (negb (text_starts_with "policies/" (ta_source_path t)))
    (bundle_error field "template source must not share the policy source namespace") ;;
  require (negb ((ta_rendered_byte_limit t =? 0)
                 || (MAX_APPLICATION_ARTIFACT_BYTES <? ta_rendered_byte_limit t)))
    (bundle_error field
       "rendered byte limit must be positive and within the application ceiling") ;;
  for_each_seen (fun p => p) (bundle_error field "template placeholder is duplicated")
    (fun p => template_placeholder_parse p ;; Ok tt) (fun _ => Ok tt) [] (ta_placeholders t).

Inductive PolicyEntrypointV2 : Set := FactoryPolicy.

#[global] Instance PolicyEntrypointV2_eq_dec : EqDecision PolicyEntrypointV2.
Proof. solve_decision. Defined.

Definition policy_entrypoint_parse (value : string) : result ContractError PolicyEntrypointV2 :=
  if bool_decide (value = "factory_policy"%string) then Ok FactoryPolicy
  else Err (InvalidValue "policy entrypoint" "only factory_policy is admitted").

Record ActorPolicyArtifactV2 := {
  ap_source_path : string;
  ap_digest : ContentDigest;
  ap_byte_limit : Z;
  ap_entrypoint : PolicyEntrypointV2;
}.

Definition policy_validate (p : ActorPolicyArtifactV2) : result ContractError unit :=
  validate_application_source_path (ap_source_path p) "actor policy" true ;;
  require (negb (negb (text_starts_with "policies/" (ap_source_path p))
                 || negb (text_ends_with ".luau" (ap_source_path p))))
    (bundle_error "actor policy" "policy source must be a .luau file below policies/") ;;
  require (negb ((ap_byte_limit p =? 0) || (MAX_POLICY_ARTIFACT_BYTES <? ap_byte_limit p)))
    (bundle_error "actor policy" "byte limit must be positive and within the policy ceiling").

(** ** Tools *)

Inductive ActorToolV2 :=
  | WorkspaceRead | WorkspaceWrite | WorkspaceEdit | WorkspaceSearch | WorkspaceList | Shell
  | ForumSearch | ForumListTopics | ForumListThreads | ForumReadThread | PublicationCreate
  | ArtifactSeal | ArtifactRead | ProductSubmitTicket | CandidateCheckpointRegression
  | ToolCandidateSubmit | QualityRunFullSuite | ToolQualitySubmitReview | ToolWorkComplete.

#[global] Instance ActorToolV2_eq_dec : EqDecision ActorToolV2.
Proof. solve_decision. Defined.

Definition all_tools : list ActorToolV2 :=
  [WorkspaceRead; WorkspaceWrite; WorkspaceEdit; WorkspaceSearch; WorkspaceList; Shell;
   ForumSearch; ForumListTopics; ForumListThreads; ForumReadThread; PublicationCreate;
   ArtifactSeal; ArtifactRead; ProductSubmitTicket; CandidateCheckpointRegression;
   ToolCandidateSubmit; QualityRunFullSuite; ToolQualitySubmitReview; ToolWorkComplete].

Definition tool_name (tool : ActorToolV2) : string :=
  match tool with
  | WorkspaceRead => "workspace_read" | WorkspaceWrite => "workspace_write"
  | WorkspaceEdit => "workspace_edit" | WorkspaceSearch => "workspace_search"
  | WorkspaceList => "workspace_list" | Shell => "shell" | ForumSearch => "forum_search"
  | ForumListTopics => "forum_list_topics" | ForumListThreads => "forum_list_threads"
  | ForumReadThread => "forum_read_thread" | PublicationCreate => "publication_create"
  | ArtifactSeal => "artifact_seal" | ArtifactRead => "artifact_read"
  | ProductSubmitTicket => "product_submit_ticket"
  | CandidateCheckpointRegression => "candidate_checkpoint_regression"
  | ToolCandidateSubmit => "candidate_submit" | QualityRunFullSuite => "quality_run_full_suite"
  | ToolQualitySubmitReview => "quality_submit_review" | ToolWorkComplete => "work_complete"
  end.

(** The match of [parse] has one arm per spelling of [as_str]. *)
Definition tool_parse (value : string) : option ActorToolV2 :=
  List.find (fun tool => bool_decide (tool_name tool = value)) all_tools.

Definition is_allowed_for (tool : ActorToolV2) (role : AssignmentRole) : bool :=
  match tool with
  | ProductSubmitTicket => bool_decide (role = ProductResearch)
  | CandidateCheckpointRegression | ToolCandidateSubmit => bool_decide (role = Engineering)
  | QualityRunFullSuite | ToolQualitySubmitReview => bool_decide (role = Quality)
  | _ => true
  end.

Definition is_terminal (tool : ActorToolV2) : bool :=
  match tool with
  | ToolCandidateSubmit | ToolQualitySubmitReview | ToolWorkComplete => true
  | _ => false
  end.

Definition is_mutating (tool : ActorToolV2) : bool :=
  match tool with
  | ArtifactSeal | PublicationCreate | ProductSubmitTicket | CandidateCheckpointRegression
  | ToolCandidateSubmit | QualityRunFullSuite | ToolQualitySubmitReview => true
  | _ => false
  end.

(** ** Models, limits and policies *)

Inductive ModelCapabilityV2 : Set := Reasoning.

#[global] Instance ModelCapabilityV2_eq_dec : EqDecision ModelCapabilityV2.
Proof. solve_decision. Defined.

Inductive ThinkingLevelV2 := ThinkingNone | ThinkingLow | ThinkingMedium | ThinkingHigh | ThinkingXHigh.

Record ModelProfileV2 := {
  mp_provider : string;
  mp_model_id : string;
  mp_thinking_level : ThinkingLevelV2;
  mp_context_token_limit : Z;
  mp_output_token_limit : Z;
  mp_price_input : Z;
  mp_price_output : Z;
  mp_price_cache_read : Z;
  mp_price_cache_write : Z;
  mp_capability_flags : list ModelCapabilityV2;
}.

Definition model_validate (m : ModelProfileV2) : result ContractError unit :=
  validate_nonempty_bounded "model provider" (mp_provider m) 160 ;;
  validate_nonempty_bounded "model ID" (mp_model_id m) 240 ;;
  require (negb ((mp_context_token_limit m =? 0) || (mp_output_token_limit m =? 0)))
    (bundle_error "model profile" "token limits must be positive") ;;
  for_each_seen (fun flag => flag) (bundle_error "model profile" "capability flags must be unique")
    (fun _ => Ok tt) (fun _ => Ok tt) [] (mp_capability_flags m).

Record SessionLimitsV2 := { sl_wall_limit : Z; sl_output_byte_limit : Z }.

(** The condition [SessionLimitsV2] and [AssignmentPacketV2] both refuse. *)
Definition bad_session_limits (l : SessionLimitsV2) : bool :=
  (sl_wall_limit l =? 0) || (sl_output_byte_limit l =? 0)
  || (MAX_SESSION_OUTPUT_BYTES <? sl_output_byte_limit l).

Definition session_limits_validate (l : SessionLimitsV2) : result ContractError unit :=
  require (negb (bad_session_limits l))
    (bundle_error "session limits" "limits must be positive and output must fit one CAS object").

Record AssignmentRoleProfileV2 := {
  rp_assignment_role : AssignmentRole;
  rp_system_template : TemplateArtifactV2;
  rp_assignment_template : TemplateArtifactV2;
  rp_policy : ActorPolicyArtifactV2;
  rp_tools : list ActorToolV2;
  rp_model : ModelProfileV2;
  rp_limits : SessionLimitsV2;
}.

Definition role_profile_validate (p : AssignmentRoleProfileV2) : result ContractError unit :=
  template_validate (rp_system_template p) "assignment-role system template" ;;
  template_validate (rp_assignment_template p) "assignment-role assignment template" ;;
  policy_validate (rp_policy p) ;;
  model_validate (rp_model p) ;;
  session_limits_validate (rp_limits p) ;;
  require (negb (is_empty (rp_tools p)))
    (bundle_error "assignment-role tools" "at least one tool is required") ;;
  for_each_seen (fun tool => tool) (bundle_error "assignment-role tools" "tool is duplicated")
    (fun _ => Ok tt)
    (fun tool => require (is_allowed_for tool (rp_assignment_role p))
       (bundle_error "assignment-role tools" "tool exceeds this assignment role's fixed authority"))
    [] (rp_tools p).

Record TicketPolicyV2 := {
  tp_low_water : Z;
  tp_target : Z;
  tp_maximum : option Z;
  tp_proposal_maximum : Z;
  tp_ticket_bounds : TicketBoundsV2;
}.

Definition ticket_bounds_validate (b : TicketBoundsV2) : result ContractError unit :=
  require (negb ((narrative_byte_limit b =? 0) || (acceptance_criteria_limit b =? 0)
                 || (contract_read_limit b =? 0)))
    (bundle_error "ticket bounds" "all bounds must be positive").

Definition ticket_policy_validate (p : TicketPolicyV2) : result ContractError unit :=
  require (negb ((tp_low_water p =? 0) || (tp_target p <? tp_low_water p)
                 || match tp_maximum p with Some m => m <? tp_target p | None => false end))
    (bundle_error "ticket buffer"
       "expected 0 < low_water <= target <= maximum when maximum is bounded") ;;
  require (negb (tp_proposal_maximum p =? 0))
    (bundle_error "ticket buffer" "proposal maximum must be positive") ;;
  ticket_bounds_validate (tp_ticket_bounds p).

Record RequiredReadV2 := { req_path : string; req_reason : string }.

Definition validate_required_reads (reads : list RequiredReadV2) : result ContractError unit :=
  require (negb (is_empty reads))
    (bundle_error "required reads" "at least one read is required") ;;
  for_each_seen req_path (bundle_error "required reads" "path is duplicated")
    (fun read => validate_nonempty_bounded "required read reason" (req_reason read) 240)
    (fun _ => Ok tt) [] reads.

(** ** Commands *)

Inductive ApprovedToolV2 := Cargo | Git.
Inductive ExecutableV2 := ApprovedTool (tool : ApprovedToolV2) | RepositoryPath (path : string).

Record EnvironmentAdditionV2 := { env_name : string; env_value : string }.

#[global] Instance ApprovedToolV2_eq_dec : EqDecision ApprovedToolV2.
Proof. solve_decision. Defined.
#[global] Instance ExecutableV2_eq_dec : EqDecision ExecutableV2.
Proof. solve_decision. Defined.
#[global] Instance EnvironmentAdditionV2_eq_dec : EqDecision EnvironmentAdditionV2.
Proof. solve_decision. Defined.

Record CommandProfileV2 := {
  cp_name : string;
  cp_executable : ExecutableV2;
  cp_argv : list string;
  cp_working_directory : string;
  cp_environment : list EnvironmentAdditionV2;
  cp_timeout : Z;
  cp_stdout_byte_limit : Z;
  cp_stderr_byte_limit : Z;
  cp_expected_exit_status : Z;
}.

#[global] Instance CommandProfileV2_eq_dec : EqDecision CommandProfileV2.
Proof. solve_decision. Defined.

Definition validate_environment_addition (a : EnvironmentAdditionV2) : result ContractError unit :=
  require (negb (is_empty (string_bytes (env_name a)) || (160 <? string_len (env_name a))
                 || negb (forallb upper_name_byte (string_bytes (env_name a)))))
    (InvalidValue "environment name"
       "must use up to 160 upper-case ASCII letters, digits, or underscores") ;;
  require (negb (contains_byte 0 (env_value a)))
    (InvalidValue "environment value" "must not contain NUL").

Definition validate_command_profile (field : string) (c : CommandProfileV2)
  : result ContractError unit :=
  require (negb ((cp_timeout c =? 0) || (cp_stdout_byte_limit c =? 0)
                 || (cp_stderr_byte_limit c =? 0)))
    (bundle_error field "command limits must be positive") ;;
  require (negb (existsb (contains_byte 0) (cp_argv c))) (bundle_error field "argv contains NUL") ;;
  for_each_seen env_name (bundle_error field "environment name is duplicated")
    validate_environment_addition (fun _ => Ok tt) [] (cp_environment c).

Definition validate_commands (field : string) (commands : list CommandProfileV2) (nonempty : bool)
  : result ContractError unit :=
  require (negb (nonempty && is_empty commands))
    (bundle_error field "at least one command is required") ;;
  for_each_seen cp_name (bundle_error field "command name is duplicated")
    (fun c => validate_nonempty_bounded "command name" (cp_name c) 160)
    (validate_command_profile field) [] commands.

Record ValidationProfilesV2 := { vp_focused : list CommandProfileV2; vp_full : list CommandProfileV2 }.

Definition validation_profiles_validate (p : ValidationProfilesV2) : result ContractError unit :=
  validate_commands "focused validation" (vp_focused p) true ;;
  validate_commands "full validation" (vp_full p) true.

Record GitPolicyV2 := {
  gp_forbidden_paths : list string;
  gp_delivery_mode : DeliveryModeV2;
  gp_provenance_trailers_required : bool;
}.

Definition git_policy_validate (p : GitPolicyV2) : result ContractError unit :=
  for_each_seen (fun path => path) (bundle_error "Git policy" "forbidden path is duplicated")
    (fun _ => Ok tt) (fun _ => Ok tt) [] (gp_forbidden_paths p) ;;
  require (bool_decide (gp_delivery_mode p = LocalFastForwardOnly))
    (bundle_error "Git policy" "remote delivery is not admitted") ;;
  require (gp_provenance_trailers_required p)
    (bundle_error "Git policy" "provenance trailers are mandatory").

Record CommitMessagePolicyV2 := { cm_subject_byte_limit : Z; cm_body_byte_limit : Z }.

Definition commit_message_policy_validate (p : CommitMessagePolicyV2) : result ContractError unit :=
  require (negb ((cm_subject_byte_limit p =? 0) || (cm_body_byte_limit p =? 0)))
    (bundle_error "commit message policy" "limits must be positive").

(** * The bundle *)

Record ApplicationBundleV2 := {
  ab_format_version : Z;
  ab_application_key : string;
  ab_predecessor_bundle : option ContentDigest;
  ab_repository : RepositoryBindingV2;
  ab_mission_template : TemplateArtifactV2;
  ab_assignment_role_profiles : list AssignmentRoleProfileV2;
  ab_ticket_policy : TicketPolicyV2;
  ab_required_reads : list RequiredReadV2;
  ab_reproducer_profiles : list CommandProfileV2;
  ab_validation_profiles : ValidationProfilesV2;
  ab_git_policy : GitPolicyV2;
  ab_commit_message_policy : CommitMessagePolicyV2;
}.

Definition all_roles : list AssignmentRole := [ProductResearch; Engineering; Quality].

Definition bundle_validate (b : ApplicationBundleV2) : result ContractError unit :=
  require (ab_format_version b =? APPLICATION_BUNDLE_V2_FORMAT)
    (bundle_error "bundle format" "format_version is not the V2 format") ;;
  application_key_parse (ab_application_key b) ;;
  repository_binding_validate (ab_repository b) ;;
  template_validate (ab_mission_template b) "mission_template" ;;
  require (Nat.eqb (length (ab_assignment_role_profiles b)) (length all_roles))
    (bundle_error "fixed assignment roles"
       "exactly one profile is required for each fixed assignment role") ;;
  for_each_seen rp_assignment_role
    (bundle_error "fixed assignment roles" "assignment-role profile is duplicated")
    role_profile_validate (fun _ => Ok tt) [] (ab_assignment_role_profiles b) ;;
  require (forallb (fun role =>
      bool_decide (role ∈ rp_assignment_role <$> ab_assignment_role_profiles b)) all_roles)
    (bundle_error "fixed assignment roles" "an assignment-role profile is missing") ;;
  ticket_policy_validate (ab_ticket_policy b) ;;
  validate_required_reads (ab_required_reads b) ;;
  validate_commands "reproducer_profiles" (ab_reproducer_profiles b) false ;;
  validation_profiles_validate (ab_validation_profiles b) ;;
  git_policy_validate (ab_git_policy b) ;;
  commit_message_policy_validate (ab_commit_message_policy b).

(** * Templates

    The texts are lists of UTF-8 bytes; ["${"] and ["}"] are ASCII. *)

(** [source.find("${")]: what comes before the marker and after it. *)
Fixpoint split_marker (l : list Z) : option (list Z * list Z) :=
  match l with
  | [] => None
  | c :: l' =>
      match l' with
      | d :: rest =>
          if (c =? 36) && (d =? 123) then Some ([], rest)
          else (fun '(before, after) => (c :: before, after)) <$> split_marker l'
      | [] => None
      end
  end.

Definition valid_placeholder_name (name : list Z) : bool :=
  negb (is_empty name) && (Z.of_nat (length name) <=? 64) && forallb upper_name_byte name.

(** A [BTreeMap<String, String>]: its entries in key order. *)
Definition TemplateValues := list (string * string).

Definition value_of (values : TemplateValues) (name : list Z) : option (list Z) :=
  (fun entry => string_bytes entry.2)
  <$> List.find (fun entry => bool_decide (string_bytes entry.1 = name)) values.

(** The [while] loop from a cursor on: the text rendered from there and the
    placeholders found there.  Every turn consumes a marker, so the length of
    the rest is fuel enough. *)
Fixpoint render_from (fuel : nat) (declared : list (list Z)) (values : TemplateValues) (l : list Z)
  : result ContractError (list Z * list (list Z)) :=
  match fuel with
  | O => Ok ([], [])
  | S fuel =>
      match split_marker l with
      | None => Ok (l, [])
      | Some (before, rest) =>
          '(name, rest) ← ok_or (split_once 125 rest)
            (InvalidValue "template" "placeholder is unterminated");
          require (valid_placeholder_name name && bool_decide (name ∈ declared))
            (InvalidValue "template placeholder" "placeholder is malformed or undeclared") ;;
          value ← ok_or (value_of values name)
            (InvalidValue "template value" "declared placeholder has no value");
          '(text, found) ← render_from fuel declared values rest;
          Ok (before ++ value ++ text, name :: found)
      end
  end.

Definition declared_names (t : TemplateArtifactV2) : list (list Z) :=
  string_bytes <$> ta_placeholders t.

Definition render_template_v2 (t : TemplateArtifactV2) (source : list Z) (values : TemplateValues)
  : result ContractError (list Z) :=
  template_validate t "template" ;;
  for_each (fun entry =>
    require (bool_decide (string_bytes entry.1 ∈ declared_names t))
      (InvalidValue "template value" "value supplied for an undeclared placeholder") ;;
    require (negb (contains_byte 0 entry.2))
      (InvalidValue "template value" "value must not contain NUL")) values ;;
  '(rendered, found) ← render_from (length source) (declared_names t) values source;
  require (forallb (fun name => bool_decide (name ∈ found)) (declared_names t))
    (InvalidValue "template placeholder" "declared placeholder is absent from source") ;;
  require (Z.of_nat (length rendered) <=? ta_rendered_byte_limit t)
    (ByteLimitExceeded "rendered template" (ta_rendered_byte_limit t)) ;;
  Ok rendered.

(** * Sealing and compilation *)

Section compiler.
Variable blake3 : list Z -> ContentDigest.

Definition has_nul (bytes : list Z) : bool := existsb (Z.eqb 0) bytes.

(** The sealed copy is the source itself. *)
Definition seal_application_artifact_v2 (path : string) (expected_digest : ContentDigest)
    (byte_limit : Z) (source : list Z) : result ContractError (list Z) :=
  validate_application_source_path path "application source" false ;;
  require (negb ((byte_limit =? 0) || (MAX_APPLICATION_ARTIFACT_BYTES <? byte_limit)))
    (InvalidValue "application source byte limit"
       "must be positive and within the application ceiling") ;;
  require (Z.of_nat (length source) <=? byte_limit)
    (ByteLimitExceeded "application source" byte_limit) ;;
  require (negb (has_nul source)) (InvalidValue "application source" "must not contain NUL") ;;
  require (bool_decide (blake3 source = expected_digest))
    (InvalidValue "application source digest" "source bytes do not match declared BLAKE3 digest") ;;
  Ok source.

Definition seal_policy_artifact_v2 (p : ActorPolicyArtifactV2) (source : list Z)
  : result ContractError (list Z) :=
  policy_validate p ;;
  require (Z.of_nat (length source) <=? ap_byte_limit p)
    (ByteLimitExceeded "actor policy source" (ap_byte_limit p)) ;;
  source ← seal_application_artifact_v2 (ap_source_path p) (ap_digest p) (ap_byte_limit p) source;
  require (utf8_valid source)
    (InvalidValue "actor policy source" "Luau policy source must be valid UTF-8") ;;
  Ok source.

Record ApplicationSourceFileV2 := { sf_path : string; sf_bytes : list Z }.

Definition source_file_new (path : string) (bytes : list Z)
  : result ContractError ApplicationSourceFileV2 :=
  validate_application_source_path path "application source" false ;;
  require (Z.of_nat (length bytes) <=? MAX_APPLICATION_ARTIFACT_BYTES)
    (ByteLimitExceeded "application source" MAX_APPLICATION_ARTIFACT_BYTES) ;;
  require (negb (has_nul bytes)) (InvalidValue "application source" "must not contain NUL") ;;
  Ok {| sf_path := path; sf_bytes := bytes |}.

(** The declared artifacts in the order the compiler visits them. *)
Definition declared_artifacts (b : ApplicationBundleV2) : list (string * ContentDigest) :=
  (ta_source_path (ab_mission_template b), ta_digest (ab_mission_template b))
  :: p ← ab_assignment_role_profiles b;
     [(ta_source_path (rp_system_template p), ta_digest (rp_system_template p));
      (ta_source_path (rp_assignment_template p), ta_digest (rp_assignment_template p));
      (ap_source_path (rp_policy p), ap_digest (rp_policy p))].

Definition declared_digest (b : ApplicationBundleV2) (path : string) : option ContentDigest :=
  snd <$> List.find (fun d => bool_decide (d.1 = path)) (declared_artifacts b).

(** The closure [add] over the declarations so far. *)
Fixpoint add_declarations (declarations : gmap string ContentDigest)
    (l : list (string * ContentDigest)) : result ContractError unit :=
  match l with
  | [] => Ok tt
  | (path, digest) :: l =>
      require (match declarations !! path with
               | Some previous => bool_decide (previous = digest)
               | None => true
               end)
        (bundle_error "application artifacts" "one source path has conflicting digests") ;;
      add_declarations (<[path := digest]> declarations) l
  end.

Definition validate_declared_artifact_identities (b : ApplicationBundleV2)
  : result ContractError unit := add_declarations ∅ (declared_artifacts b).

(** A [BTreeSet<ApplicationRelativePath>] of the declared paths, in byte order. *)
Definition required_paths (b : ApplicationBundleV2) : list string :=
  order_by string_bytes (remove_dups (declared_artifacts b).*1).

Definition policy_at (b : ApplicationBundleV2) (path : string) : option ActorPolicyArtifactV2 :=
  List.find (fun p => bool_decide (ap_source_path p = path))
    (rp_policy <$> ab_assignment_role_profiles b).

Definition source_at (sources : list ApplicationSourceFileV2) (path : string)
  : option ApplicationSourceFileV2 :=
  List.find (fun s => bool_decide (sf_path s = path)) sources.

(** One turn of the loop over the required paths. *)
Definition compile_file (b : ApplicationBundleV2) (sources : list ApplicationSourceFileV2)
    (path : string) : result ContractError ApplicationSourceFileV2 :=
  source ← ok_or (source_at sources path)
    (InvalidValue "application source" "declared artifact has no source bytes");
  expected_digest ← ok_or (declared_digest b path)
    (InvalidValue "application source" "source path is not a declared artifact");
  match policy_at b path with
  | Some policy => seal_policy_artifact_v2 policy (sf_bytes source) ;; Ok source
  | None =>
      seal_application_artifact_v2 (sf_path source) expected_digest
        MAX_APPLICATION_ARTIFACT_BYTES (sf_bytes source) ;;
      require (utf8_valid (sf_bytes source))
        (InvalidValue "template source" "template source must be valid UTF-8") ;;
      Ok source
  end.

(** The hashed stream of [path\0bytes\0] records. *)
Definition source_identity (files : list ApplicationSourceFileV2) : list Z :=
  f ← files; string_bytes (sf_path f) ++ 0 :: sf_bytes f ++ [0].

Record CompiledApplicationV2 := {
  ca_bundle : ApplicationBundleV2;
  ca_files : list ApplicationSourceFileV2;
  ca_source_digest : ContentDigest;
}.

Definition compile (b : ApplicationBundleV2) (sources : list ApplicationSourceFileV2)
  : result ContractError CompiledApplicationV2 :=
  bundle_validate b ;;
  for_each_seen sf_path (bundle_error "application source" "source path is duplicated")
    (fun _ => Ok tt) (fun _ => Ok tt) [] sources ;;
  validate_declared_artifact_identities b ;;
  files ← map_ok (compile_file b sources) (required_paths b);
  require (forallb (fun s => bool_decide (sf_path s ∈ required_paths b)) sources)
    (InvalidValue "application source" "source bundle contains an undeclared file") ;;
  Ok {| ca_bundle := b; ca_files := files; ca_source_digest := blake3 (source_identity files) |}.
End compiler.
