(* ===== verification/Forum.v ===== *)
(** The contracts of the Forum: bounded texts, filters, pages and the search
    cursor ([crates/factory-protocol/src/forum.rs]). *)
From stdpp Require Import pretty.
From S2P Require Import Prelude Values.

#[local] Open Scope string_scope.
#[local] Open Scope list_scope.
#[local] Open Scope Z_scope.

(** * Limits *)

Definition FORUM_TOPIC_NAME_MAX_BYTES : Z := 160.
Definition FORUM_TOPIC_DESCRIPTION_MAX_BYTES : Z := 4 * 1024.
Definition FORUM_THREAD_TITLE_MAX_BYTES : Z := 240.
Definition FORUM_POST_BODY_MAX_BYTES : Z := 16 * 1024.
Definition FORUM_ATTACHMENT_LABEL_MAX_BYTES : Z := 160.
Definition FORUM_SEARCH_QUERY_MAX_BYTES : Z := 4 * 1024.
Definition FORUM_SEARCH_CURSOR_MAX_BYTES : Z := 512.
Definition FORUM_SNIPPET_MAX_BYTES : Z := 1024.
Definition FORUM_PAGE_MAX : Z := 20.
Definition FORUM_MAX_ATTACHMENTS_PER_POST : Z := 8.
Definition FORUM_COMMAND_ID_MAX_BYTES : Z := 160.

(** * Texts

    The newtypes of the source hold their string; a constructor returns it. *)

Definition validate_text (value field : string) (maximum : Z) (non_empty : bool) : result ContractError unit :=
  require (negb (non_empty && (string_len value =? 0))) (InvalidValue field "must not be empty") ;;
  require (negb (contains_byte 0 value)) (InvalidValue field "NUL is not allowed") ;;
  require (string_len value <=? maximum) (ByteLimitExceeded field maximum).

Definition bounded_text (field : string) (maximum : Z) (non_empty : bool) (value : string)
  : result ContractError string :=
  validate_text value field maximum non_empty ;; Ok value.

Definition forum_topic_name := bounded_text "forum topic name" FORUM_TOPIC_NAME_MAX_BYTES true.
Definition forum_topic_description :=
  bounded_text "forum topic description" FORUM_TOPIC_DESCRIPTION_MAX_BYTES false.
Definition forum_thread_title := bounded_text "forum thread title" FORUM_THREAD_TITLE_MAX_BYTES true.
Definition forum_post_body := bounded_text "forum post body" FORUM_POST_BODY_MAX_BYTES false.
Definition forum_attachment_label :=
  bounded_text "forum attachment label" FORUM_ATTACHMENT_LABEL_MAX_BYTES false.
Definition forum_snippet := bounded_text "forum snippet" FORUM_SNIPPET_MAX_BYTES false.

Definition forum_search_query (value : string) : result ContractError string :=
  validate_text value "forum search query" FORUM_SEARCH_QUERY_MAX_BYTES true ;;
  require (Nat.even (length (List.filter (Z.eqb 34) (string_bytes value))))
    (InvalidValue "forum search query" "quoted phrases must be closed") ;;
  Ok value.

Definition forum_page_limit (value : Z) : result ContractError Z :=
  require ((1 <=? value) && (value <=? FORUM_PAGE_MAX))
    (InvalidValue "forum page limit" "must be between 1 and 20") ;;
  Ok value.

(** * Commands *)

Record ForumMutationIdentity := { client_command_id : string; expected_revision : Z }.

Definition forum_mutation_identity (command_id : string) (revision : Z) : result ContractError ForumMutationIdentity :=
  validate_text command_id "forum client command ID" FORUM_COMMAND_ID_MAX_BYTES true ;;
  Ok {| client_command_id := command_id; expected_revision := revision |}.

Record ForumCreateTopicCommand := {
  fct_identity : ForumMutationIdentity;
  fct_name : string;
  fct_description : string;
}.

Record ForumCreateThreadCommand := {
  fch_identity : ForumMutationIdentity;
  fch_topic_id : Z;
  fch_title : string;
}.

Inductive ForumPostKind := Note | Question | Finding | Proposal | Challenge | Correction | DecisionLink.

#[global] Instance ForumPostKind_eq_dec : EqDecision ForumPostKind.
Proof. solve_decision. Defined.

Inductive ForumAuthor :=
  | ForumActor (session_id : Z) (assignment_role : AssignmentRole)
  | GrandArchitect.

Record ForumAttachmentInput := { fai_artifact_id : Z; fai_label : string }.

Record ForumPostInput := {
  fpi_kind : ForumPostKind;
  fpi_body : string;
  fpi_reply_to : option Z;
  fpi_supersedes : option Z;
  fpi_attachments : list ForumAttachmentInput;
}.

Record ForumPostCommand := {
  fpc_identity : ForumMutationIdentity;
  fpc_thread_id : Z;
  fpc_input : ForumPostInput;
}.

Definition post_input_validate (input : ForumPostInput) : result ContractError unit :=
  require (Z.of_nat (length (fpi_attachments input)) <=? FORUM_MAX_ATTACHMENTS_PER_POST)
    (InvalidValue "forum post attachments" "post exceeds the attachment count quota") ;;
  for_each_seen fai_artifact_id
    (InvalidValue "forum post attachments" "an artifact may appear only once on a post")
    (fun _ => Ok tt) (fun _ => Ok tt) [] (fpi_attachments input) ;;
  match fpi_reply_to input, fpi_supersedes input with
  | None, None => Ok tt
  | reply_to, supersedes =>
      require (negb (bool_decide (reply_to = supersedes)))
        (InvalidValue "forum post relations" "reply and supersession must identify distinct targets")
  end.

(** * The search cursor *)

Record ForumSearchCursor := { rank_bits : Z; cursor_post_id : Z }.

(** [format!("{:08x}.{}", rank_bits, post_id)] *)
Definition cursor_encode (c : ForumSearchCursor) : string :=
  to_hex (be_bytes 4 (rank_bits c)) +:+ "." +:+ pretty (cursor_post_id c).

(** [str::split_once('.')] *)
Fixpoint split_once_dot (s : string) : option (string * string) :=
  match s with
  | EmptyString => None
  | String c rest =>
      if byte_of c =? 46 then Some (EmptyString, rest)
      else '(before, after) ← split_once_dot rest; Some (String c before, after)
  end.

(** [char::to_digit(16)] *)
Definition hex_any_digit (byte : Z) : option Z :=
  if (48 <=? byte) && (byte <=? 57) then Some (byte - 48)
  else if (97 <=? byte) && (byte <=? 102) then Some (byte - 97 + 10)
  else if (65 <=? byte) && (byte <=? 70) then Some (byte - 65 + 10)
  else None.

(** [u32::from_str_radix(rank, 16)] on eight hexadecimal digits. *)
Definition hex_number (bytes : list Z) : option Z :=
  fold_left (fun acc byte => value ← acc; digit ← hex_any_digit byte; Some (value * 16 + digit)) bytes (Some 0).

(** [str::parse::<i64>]: an optional sign and at least one digit. *)
Definition parse_i64 (s : string) : option Z :=
  let unsigned := fun bytes =>
    match bytes with
    | [] => None
    | _ => if forallb is_ascii_digit bytes then Some (decimal_value bytes) else None
    end in
  value ← match string_bytes s with
          | 43 :: bytes => unsigned bytes
          | 45 :: bytes => Z.opp <$> unsigned bytes
          | bytes => unsigned bytes
          end;
  if (- 2 ^ 63 <=? value) && (value <=? i64_max) then Some value else None.

(** [f32::from_bits]: an exponent of all ones is no finite number. *)
Definition f32_is_finite (bits : Z) : bool := negb (Z.land (Z.shiftr bits 23) 255 =? 255).
Definition f32_is_sign_negative (bits : Z) : bool := Z.testbit bits 31.

Definition cursor_decode (value : string) : result ContractError ForumSearchCursor :=
  let invalid := InvalidValue "forum search cursor" in
  require (negb ((string_len value =? 0) || (FORUM_SEARCH_CURSOR_MAX_BYTES <? string_len value)))
    (invalid "must be non-empty and bounded") ;;
  '(rank, post) ← ok_or (split_once_dot value) (invalid "must contain rank and post ID");
  require ((string_len rank =? 8) && forallb (fun b => bool_decide (is_Some (hex_any_digit b))) (string_bytes rank))
    (invalid "rank must be eight hexadecimal digits") ;;
  bits ← ok_or (hex_number (string_bytes rank)) (invalid "rank is out of range");
  require (f32_is_finite bits && negb (f32_is_sign_negative bits))
    (invalid "rank must be a finite nonnegative value") ;;
  post ← ok_or (parse_i64 post) (invalid "post ID is invalid");
  id ← identifier_new "forum post ID" post;
  Ok {| rank_bits := bits; cursor_post_id := id |}.

(** * Reads *)

Record ForumSearchInput := {
  fsi_query : string;
  fsi_topic_id : option Z;
  fsi_thread_id : option Z;
  fsi_author_office : option AssignmentRole;
  fsi_post_kind : option ForumPostKind;
  fsi_created_after_micros : option Z;
  fsi_created_before_micros : option Z;
  fsi_limit : Z;
  fsi_cursor : option ForumSearchCursor;
}.

Definition search_input (query : string) : ForumSearchInput := {|
  fsi_query := query; fsi_topic_id := None; fsi_thread_id := None; fsi_author_office := None;
  fsi_post_kind := None; fsi_created_after_micros := None; fsi_created_before_micros := None;
  fsi_limit := FORUM_PAGE_MAX; fsi_cursor := None |}.

Definition search_input_validate (input : ForumSearchInput) : result ContractError unit :=
  match fsi_created_after_micros input, fsi_created_before_micros input with
  | Some after, Some before =>
      require (after <=? before) (InvalidValue "forum search time range"
        "created_after must not be later than created_before")
  | _, _ => Ok tt
  end ;;
  forum_page_limit (fsi_limit input) ;; Ok tt.

Record ForumThreadPage := { ftp_thread_id : Z; ftp_after_post_id : option Z; ftp_limit : Z }.
