(* ===== verification/Institutional.v ===== *)
(** The institutional records: projects, RFCs, experiments, claims, decisions and
    publications with their local checks, and the closed references between them
    ([crates/factory-protocol/src/institutional.rs]). *)
From S2P Require Import Prelude Values Contracts.

#[local] Open Scope string_scope.
#[local] Open Scope list_scope.
#[local] Open Scope Z_scope.

Definition INSTITUTIONAL_TITLE_MAX_BYTES : Z := 240.
Definition INSTITUTIONAL_SUMMARY_MAX_BYTES : Z := 4 * 1024.
Definition INSTITUTIONAL_PROPOSITION_MAX_BYTES : Z := 4 * 1024.
Definition INSTITUTIONAL_BODY_MAX_BYTES : Z := 1024 * 1024.
Definition INSTITUTIONAL_EVALUATION_PLAN_MAX_BYTES : Z := 256 * 1024.
Definition INSTITUTIONAL_INVOCATION_MAX_BYTES : Z := 256 * 1024.
Definition INSTITUTIONAL_RECEIPT_MAX_BYTES : Z := 256 * 1024.
Definition PUBLICATION_ATTACHMENT_LABEL_MAX_BYTES : Z := 160.
Definition PUBLICATION_MAX_ATTACHMENTS : Z := 8.

Definition validate_text (field value : string) (maximum : Z) (allow_empty : bool) : result ContractError unit :=
  require (negb ((negb allow_empty && (string_len value =? 0)) || (maximum <? string_len value)
                 || contains_byte 0 value))
    (InvalidValue field "must be nonempty, bounded UTF-8 without NUL").

Definition validate_body (artifact : SealedArtifactReferenceV2) (field : string) : result ContractError unit :=
  artifact_validate artifact field INSTITUTIONAL_BODY_MAX_BYTES false.

(** * References *)

Inductive InstitutionalReference :=
  | IrProject (id : Z) | IrRfc (id : Z) | IrRfcRevision (id : Z) | IrTicket (id : Z) | IrTicketRevision (id : Z)
  | IrExperiment (id : Z) | IrExperimentRun (id : Z) | IrClaim (id : Z) | IrDecision (id : Z) | IrOffice (id : Z)
  | IrPublication (id : Z).

#[global] Instance InstitutionalReference_eq_dec : EqDecision InstitutionalReference.
Proof. solve_decision. Defined.

Inductive InstitutionalObjectKind :=
  | KindProject | KindRfc | KindRfcRevision | KindTicket | KindTicketRevision | KindExperiment
  | KindExperimentRun | KindClaim | KindDecision | KindOffice | KindPublication.

Definition object_kind_text (kind : InstitutionalObjectKind) : string :=
  match kind with
  | KindProject => "project" | KindRfc => "rfc" | KindRfcRevision => "rfc_revision" | KindTicket => "ticket"
  | KindTicketRevision => "ticket_revision" | KindExperiment => "experiment"
  | KindExperimentRun => "experiment_run" | KindClaim => "claim" | KindDecision => "decision"
  | KindOffice => "office" | KindPublication => "publication"
  end.

Definition object_kind_parse (value : string) : result ContractError InstitutionalObjectKind :=
  if bool_decide (value = "project") then Ok KindProject
  else if bool_decide (value = "rfc") then Ok KindRfc
  else if bool_decide (value = "rfc_revision") then Ok KindRfcRevision
  else if bool_decide (value = "ticket") then Ok KindTicket
  else if bool_decide (value = "ticket_revision") then Ok KindTicketRevision
  else if bool_decide (value = "experiment") then Ok KindExperiment
  else if bool_decide (value = "experiment_run") then Ok KindExperimentRun
  else if bool_decide (value = "claim") then Ok KindClaim
  else if bool_decide (value = "decision") then Ok KindDecision
  else if bool_decide (value = "office") then Ok KindOffice
  else if bool_decide (value = "publication") then Ok KindPublication
  else Err (InvalidValue "institutional object kind" "is not a closed institutional object kind").

Definition reference_kind (reference : InstitutionalReference) : InstitutionalObjectKind :=
  match reference with
  | IrProject _ => KindProject | IrRfc _ => KindRfc | IrRfcRevision _ => KindRfcRevision
  | IrTicket _ => KindTicket | IrTicketRevision _ => KindTicketRevision | IrExperiment _ => KindExperiment
  | IrExperimentRun _ => KindExperimentRun | IrClaim _ => KindClaim | IrDecision _ => KindDecision
  | IrOffice _ => KindOffice | IrPublication _ => KindPublication
  end.

Definition reference_id (reference : InstitutionalReference) : Z :=
  match reference with
  | IrProject id | IrRfc id | IrRfcRevision id | IrTicket id | IrTicketRevision id | IrExperiment id
  | IrExperimentRun id | IrClaim id | IrDecision id | IrOffice id | IrPublication id => id
  end.

Definition from_kind_and_id (kind : InstitutionalObjectKind) (id : Z) : result ContractError InstitutionalReference :=
  match kind with
  | KindProject => IrProject <$> identifier_new "project ID" id
  | KindRfc => IrRfc <$> identifier_new "RFC ID" id
  | KindRfcRevision => IrRfcRevision <$> identifier_new "RFC revision ID" id
  | KindTicket => IrTicket <$> identifier_new "ticket ID" id
  | KindTicketRevision => IrTicketRevision <$> identifier_new "ticket revision ID" id
  | KindExperiment => IrExperiment <$> identifier_new "experiment ID" id
  | KindExperimentRun => IrExperimentRun <$> identifier_new "experiment run ID" id
  | KindClaim => IrClaim <$> identifier_new "claim ID" id
  | KindDecision => IrDecision <$> identifier_new "decision ID" id
  | KindOffice => IrOffice <$> identifier_new "office ID" id
  | KindPublication => IrPublication <$> identifier_new "publication ID" id
  end.

Definition can_anchor_publication (reference : InstitutionalReference) : bool :=
  match reference with IrExperimentRun _ | IrPublication _ => false | _ => true end.

(** * Objects *)

Inductive ProjectState := ProjectProposed | ProjectActive | ProjectPaused | ProjectCompleted | ProjectArchived.
Inductive RfcState := RfcDraft | RfcProposed | RfcAccepted | RfcRejected | RfcSuperseded | RfcArchived.
Inductive ExperimentState :=
  | ExperimentProposed | ExperimentReady | ExperimentRunning | ExperimentCompleted | ExperimentFailed
  | ExperimentCancelled | ExperimentArchived.
Inductive ExperimentRunState := RunPrepared | RunRunning | RunSucceeded | RunFailed | RunCancelled.
Inductive ClaimState := ClaimProposed | ClaimSupported | ClaimChallenged | ClaimRetracted.
Inductive DecisionKind := DecisionApprove | DecisionReject | DecisionDefer | DecisionSupersede.
Inductive DecisionState := DecisionProposed | DecisionFinal | DecisionSuperseded.

Record Project := {
  pj_id : Z;
  pj_application_revision_id : Z;
  pj_owner_office_id : Z;
  pj_title : string;
  pj_summary : string;
  pj_body : SealedArtifactReferenceV2;
  pj_state : ProjectState;
  pj_aggregate_revision : Z;
}.

Definition project_validate (p : Project) : result ContractError unit :=
  validate_text "project title" (pj_title p) INSTITUTIONAL_TITLE_MAX_BYTES false ;;
  validate_text "project summary" (pj_summary p) INSTITUTIONAL_SUMMARY_MAX_BYTES false ;;
  validate_body (pj_body p) "project body".

Record Rfc := {
  rf_id : Z;
  rf_application_revision_id : Z;
  rf_owner_office_id : Z;
  rf_project_id : option Z;
  rf_title : string;
  rf_summary : string;
  rf_state : RfcState;
  rf_current_revision_id : option Z;
  rf_aggregate_revision : Z;
}.

Definition rfc_validate (r : Rfc) : result ContractError unit :=
  validate_text "RFC title" (rf_title r) INSTITUTIONAL_TITLE_MAX_BYTES false ;;
  validate_text "RFC summary" (rf_summary r) INSTITUTIONAL_SUMMARY_MAX_BYTES false.

Record RfcRevision := {
  rr_id : Z;
  rr_rfc_id : Z;
  rr_application_revision_id : Z;
  rr_author_office_id : Z;
  rr_revision_number : Z;
  rr_summary : string;
  rr_body : SealedArtifactReferenceV2;
}.

Definition rfc_revision_validate (r : RfcRevision) : result ContractError unit :=
  require (negb (rr_revision_number r =? 0)) (InvalidValue "RFC revision number" "must be greater than zero") ;;
  validate_text "RFC revision summary" (rr_summary r) INSTITUTIONAL_SUMMARY_MAX_BYTES false ;;
  validate_body (rr_body r) "RFC revision body".

Record Experiment := {
  ex_id : Z;
  ex_application_revision_id : Z;
  ex_owner_office_id : Z;
  ex_project_id : option Z;
  ex_question : string;
  ex_summary : string;
  ex_intended_base : option string;
  ex_intended_target : InstitutionalReference;
  ex_evaluation_plan : SealedArtifactReferenceV2;
  ex_budget_micro_usd : Z;
  ex_state : ExperimentState;
  ex_aggregate_revision : Z;
}.

Definition experiment_validate (e : Experiment) : result ContractError unit :=
  validate_text "experiment question" (ex_question e) INSTITUTIONAL_PROPOSITION_MAX_BYTES false ;;
  validate_text "experiment summary" (ex_summary e) INSTITUTIONAL_SUMMARY_MAX_BYTES false ;;
  require (match ex_intended_target e with IrClaim _ | IrRfcRevision _ => true | _ => false end)
    (InvalidValue "experiment target" "must be one claim or RFC revision") ;;
  require (negb (ex_budget_micro_usd e =? 0)) (InvalidValue "experiment budget" "must be greater than zero") ;;
  artifact_validate (ex_evaluation_plan e) "experiment evaluation plan"
    INSTITUTIONAL_EVALUATION_PLAN_MAX_BYTES false.

Record ExperimentRun := {
  er_id : Z;
  er_experiment_id : Z;
  er_application_revision_id : Z;
  er_owner_office_id : Z;
  er_base_commit : string;
  er_base_tree : string;
  er_invocation : SealedArtifactReferenceV2;
  er_candidate_id : option Z;
  er_result_artifact : option SealedArtifactReferenceV2;
  er_evaluator_receipt : option SealedArtifactReferenceV2;
  er_state : ExperimentRunState;
  er_aggregate_revision : Z;
}.

Definition experiment_run_validate (r : ExperimentRun) : result ContractError unit :=
  artifact_validate (er_invocation r) "experiment run invocation" INSTITUTIONAL_INVOCATION_MAX_BYTES false ;;
  match er_result_artifact r with
  | Some result => artifact_validate result "experiment run result" INSTITUTIONAL_BODY_MAX_BYTES true
  | None => Ok tt
  end ;;
  match er_evaluator_receipt r with
  | Some receipt => artifact_validate receipt "experiment evaluator receipt" INSTITUTIONAL_RECEIPT_MAX_BYTES false
  | None => Ok tt
  end.

Record Claim := {
  cl_id : Z;
  cl_application_revision_id : Z;
  cl_owner_office_id : Z;
  cl_proposition : string;
  cl_body : SealedArtifactReferenceV2;
  cl_state : ClaimState;
  cl_aggregate_revision : Z;
}.

Definition claim_validate (c : Claim) : result ContractError unit :=
  validate_text "claim proposition" (cl_proposition c) INSTITUTIONAL_PROPOSITION_MAX_BYTES false ;;
  validate_body (cl_body c) "claim body".

Record Decision := {
  dn_id : Z;
  dn_application_revision_id : Z;
  dn_deciding_office_id : Z;
  dn_title : string;
  dn_summary : string;
  dn_target : InstitutionalReference;
  dn_kind : DecisionKind;
  dn_state : DecisionState;
  dn_rationale : SealedArtifactReferenceV2;
  dn_aggregate_revision : Z;
}.

Definition decision_validate (d : Decision) : result ContractError unit :=
  validate_text "decision title" (dn_title d) INSTITUTIONAL_TITLE_MAX_BYTES false ;;
  validate_text "decision summary" (dn_summary d) INSTITUTIONAL_SUMMARY_MAX_BYTES false ;;
  require (match dn_target d with IrRfcRevision _ | IrTicketRevision _ | IrExperiment _ => true | _ => false end)
    (InvalidValue "decision target" "must be an RFC revision, ticket revision, or experiment") ;;
  validate_body (dn_rationale d) "decision rationale".

(** * Publications *)

Inductive PublicationKind :=
  | PubFinding | PubQuestion | PubChallenge | PubCorrection | PubDecisionLink | PubNote.

Definition publication_kind_text (kind : PublicationKind) : string :=
  match kind with
  | PubFinding => "finding" | PubQuestion => "question" | PubChallenge => "challenge"
  | PubCorrection => "correction" | PubDecisionLink => "decision_link" | PubNote => "note"
  end.

Definition publication_kind_parse (value : string) : result ContractError PublicationKind :=
  if bool_decide (value = "finding") then Ok PubFinding
  else if bool_decide (value = "question") then Ok PubQuestion
  else if bool_decide (value = "challenge") then Ok PubChallenge
  else if bool_decide (value = "correction") then Ok PubCorrection
  else if bool_decide (value = "decision_link") then Ok PubDecisionLink
  else if bool_decide (value = "note") then Ok PubNote
  else Err (InvalidValue "publication kind" "is not a closed publication kind").

Record PublicationAttachment := { pa_artifact : SealedArtifactReferenceV2; pa_label : string }.

Definition publication_attachment_validate (a : PublicationAttachment) : result ContractError unit :=
  validate_text "publication attachment label" (pa_label a) PUBLICATION_ATTACHMENT_LABEL_MAX_BYTES false ;;
  artifact_validate (pa_artifact a) "publication attachment" INSTITUTIONAL_BODY_MAX_BYTES true.

Record Publication := {
  pu_id : Z;
  pu_application_revision_id : Z;
  pu_authoring_office_id : Z;
  pu_originating_session_id : option Z;
  pu_anchor : InstitutionalReference;
  pu_kind : PublicationKind;
  pu_summary : string;
  pu_body : SealedArtifactReferenceV2;
  pu_attachments : list PublicationAttachment;
  pu_reply_to : option Z;
  pu_supersedes : option Z;
  pu_aggregate_revision : Z;
}.

Definition publication_validate (p : Publication) : result ContractError unit :=
  require (can_anchor_publication (pu_anchor p))
    (InvalidValue "publication anchor" "must be an institutional object, not a publication or run") ;;
  validate_text "publication summary" (pu_summary p) INSTITUTIONAL_SUMMARY_MAX_BYTES false ;;
  validate_body (pu_body p) "publication body" ;;
  require (Z.of_nat (length (pu_attachments p)) <=? PUBLICATION_MAX_ATTACHMENTS)
    (InvalidValue "publication attachments" "exceeds the closed attachment limit") ;;
  for_each_seen (fun a => artifact_id (pa_artifact a)) (InvalidValue "publication attachments" "repeats an artifact")
    publication_attachment_validate (fun _ => Ok tt) [artifact_id (pu_body p)] (pu_attachments p).

(** * Closed vocabularies *)

(** A reference is read back from its kind and identifier. *)
Lemma reference_round_trip reference :
  0 < reference_id reference ->
  object_kind_parse (object_kind_text (reference_kind reference)) = Ok (reference_kind reference) /\
  from_kind_and_id (reference_kind reference) (reference_id reference) = Ok reference.
Proof.
  intros Hid. split; [by destruct reference|].
  destruct reference; simpl in *; unfold identifier_new; by replace (id <=? 0) with false by lia.
Qed.

Lemma publication_kind_round_trip kind : publication_kind_parse (publication_kind_text kind) = Ok kind.
Proof. by destruct kind. Qed.

Lemma publication_kind_text_inj kind kind' : publication_kind_text kind = publication_kind_text kind' -> kind = kind'.
Proof. by destruct kind, kind'. Qed.

Lemma reference_inj r r' :
  object_kind_text (reference_kind r) = object_kind_text (reference_kind r') -> reference_id r = reference_id r' -> r = r'.
Proof. destruct r, r'; try done; simpl; congruence. Qed.
