(* ===== verification/Json.v ===== *)
(** JSON texts: the writers the canonical encodings of [wire.rs] are made of, and
    a reference reading of the texts they write. *)
From stdpp Require Import pretty.
From S2P Require Import Prelude Values.

(** * Writers

    The source appends to a [String]; the texts here are its bytes.  Every byte
    [json_quote] escapes is ASCII, so that its walk over characters is one over
    bytes. *)

Definition hex_escape (b : Z) : list Z := [92; 117; 48; 48; hex_digit (b / 16); hex_digit (b mod 16)].

Definition escape_byte (b : Z) : list Z :=
  if b =? 34 then [92; 34]
  else if b =? 92 then [92; 92]
  else if b =? 8 then [92; 98]
  else if b =? 12 then [92; 102]
  else if b =? 10 then [92; 110]
  else if b =? 13 then [92; 114]
  else if b =? 9 then [92; 116]
  else if b <? 32 then hex_escape b
  else [b].

Definition json_quote (value : string) : list Z :=
  34 :: (string_bytes value ≫= escape_byte) ++ [34].

(** [{value}] of an integer. *)
Definition json_number (z : Z) : list Z := string_bytes (pretty z).

(** [.join(",")] *)
Fixpoint json_join (l : list (list Z)) : list Z :=
  match l with
  | [] => []
  | [x] => x
  | x :: l => x ++ 44 :: json_join l
  end.

Definition json_array (l : list (list Z)) : list Z := 91 :: json_join l ++ [93].

(** The format strings of the source write the fields of an object as this. *)
Definition json_field (field : string * list Z) : list Z := json_quote field.1 ++ 58 :: field.2.
Definition json_object (fields : list (string * list Z)) : list Z :=
  123 :: json_join (json_field <$> fields) ++ [125].

Definition json_null : list Z := string_bytes "null".
Definition json_bool (b : bool) : list Z := string_bytes (if b then "true" else "false").

(** * The reference: values and their texts *)

#[local] Set Warnings "-register-all".

Inductive json :=
  | JNull
  | JBool (b : bool)
  | JNumber (z : Z)
  | JString (s : string)
  | JArray (l : list json)
  | JObject (l : list (string * json)).

Fixpoint json_text (v : json) : list Z :=
  match v with
  | JNull => json_null
  | JBool b => json_bool b
  | JNumber z => json_number z
  | JString s => json_quote s
  | JArray l => json_array (json_text <$> l)
  | JObject l => json_object ((fun field => (field.1, json_text field.2)) <$> l)
  end.

(** ** Reading

    A reader of JSON texts with integers as the only numbers and escapes below
    U+0080; spaces may stand between the tokens.  Every call takes one unit of
    fuel. *)

Definition json_space (b : Z) : bool := (b =? 32) || (b =? 10) || (b =? 13) || (b =? 9).

Fixpoint skip_space (l : list Z) : list Z :=
  match l with
  | b :: rest => if json_space b then skip_space rest else l
  | [] => []
  end.

Fixpoint expect (prefix l : list Z) : option (list Z) :=
  match prefix, l with
  | [], _ => Some l
  | p :: prefix, b :: l => if b =? p then expect prefix l else None
  | _ :: _, [] => None
  end.

Definition unescape (b : Z) : option Z :=
  if b =? 34 then Some 34
  else if b =? 92 then Some 92
  else if b =? 47 then Some 47
  else if b =? 98 then Some 8
  else if b =? 102 then Some 12
  else if b =? 110 then Some 10
  else if b =? 114 then Some 13
  else if b =? 116 then Some 9
  else None.

(** The bytes of a string after its opening quote, and what follows it. *)
Fixpoint read_string (fuel : nat) (l : list Z) : option (list Z * list Z) :=
  match fuel with
  | O => None
  | S fuel =>
      match l with
      | [] => None
      | b :: l =>
          if b =? 34 then Some ([], l)
          else if b =? 92 then
            match l with
            | e :: l =>
                if e =? 117 then
                  match l with
                  | z1 :: z2 :: h1 :: h2 :: l =>
                      if (z1 =? 48) && (z2 =? 48) then
                        h ← hex_nibble h1;
                        low ← hex_nibble h2;
                        if h <? 8 then
                          '(s, rest) ← read_string fuel l; Some (16 * h + low :: s, rest)
                        else None
                      else None
                  | _ => None
                  end
                else c ← unescape e; '(s, rest) ← read_string fuel l; Some (c :: s, rest)
            | [] => None
            end
          else if b <? 32 then None
          else '(s, rest) ← read_string fuel l; Some (b :: s, rest)
      end
  end.

Fixpoint digits (l : list Z) : list Z * list Z :=
  match l with
  | b :: rest =>
      if is_ascii_digit b then let '(d, rest) := digits rest in (b :: d, rest) else ([], l)
  | [] => ([], [])
  end.

Definition read_number (l : list Z) : option (Z * list Z) :=
  match l with
  | b :: rest =>
      if b =? 45 then
        match digits rest with
        | ([], _) => None
        | (d, rest) => Some (- decimal_value d, rest)
        end
      else
        match digits l with
        | ([], _) => None
        | (d, rest) => Some (decimal_value d, rest)
        end
  | [] => None
  end.

Fixpoint read_value (fuel : nat) (l : list Z) : option (json * list Z) :=
  match fuel with
  | O => None
  | S fuel =>
      match skip_space l with
      | [] => None
      | b :: rest =>
          if b =? 34 then '(s, rest) ← read_string fuel rest; Some (JString (text_of s), rest)
          else if b =? 91 then
            match expect [93] (skip_space rest) with
            | Some rest => Some (JArray [], rest)
            | None => '(vs, rest) ← read_items fuel rest; Some (JArray vs, rest)
            end
          else if b =? 123 then
            match expect [125] (skip_space rest) with
            | Some rest => Some (JObject [], rest)
            | None => '(fs, rest) ← read_fields fuel rest; Some (JObject fs, rest)
            end
          else if b =? 110 then rest ← expect (string_bytes "ull") rest; Some (JNull, rest)
          else if b =? 116 then rest ← expect (string_bytes "rue") rest; Some (JBool true, rest)
          else if b =? 102 then rest ← expect (string_bytes "alse") rest; Some (JBool false, rest)
          else '(z, rest) ← read_number (b :: rest); Some (JNumber z, rest)
      end
  end
with read_items (fuel : nat) (l : list Z) : option (list json * list Z) :=
  match fuel with
  | O => None
  | S fuel =>
      '(v, rest) ← read_value fuel l;
      match skip_space rest with
      | b :: rest =>
          if b =? 44 then '(vs, rest) ← read_items fuel rest; Some (v :: vs, rest)
          else if b =? 93 then Some ([v], rest)
          else None
      | [] => None
      end
  end
with read_fields (fuel : nat) (l : list Z) : option (list (string * json) * list Z) :=
  match fuel with
  | O => None
  | S fuel =>
      rest ← expect [34] (skip_space l);
      '(name, rest) ← read_string fuel rest;
      rest ← expect [58] (skip_space rest);
      '(v, rest) ← read_value fuel rest;
      match skip_space rest with
      | b :: rest =>
          if b =? 44 then
            '(fs, rest) ← read_fields fuel rest; Some ((text_of name, v) :: fs, rest)
          else if b =? 125 then Some ([(text_of name, v)], rest)
          else None
      | [] => None
      end
  end.

(** A text with nothing but spaces behind its value. *)
Definition read_json (l : list Z) : option json :=
  '(v, rest) ← read_value (S (length l)) l;
  if is_empty (skip_space rest) then Some v else None.

(** * The texts read back *)

Lemma json_nested_ind (P : json -> Prop) :
  P JNull -> (forall b, P (JBool b)) -> (forall z, P (JNumber z)) -> (forall s, P (JString s)) ->
  (forall l, Forall P l -> P (JArray l)) ->
  (forall l, Forall (fun field => P field.2) l -> P (JObject l)) ->
  forall v, P v.
Proof.
  intros Hnull Hbool Hnum Hstr Harr Hobj. fix IH 1. intros [|b|z|s|l|l]; [done|auto..| |].
  - apply Harr. induction l as [|v l IHl]; constructor; [apply IH|exact IHl].
  - apply Hobj. induction l as [|[name v] l IHl]; constructor; [apply IH|exact IHl].
Qed.

Lemma hex_nibble_digit n : 0 <= n < 16 -> hex_nibble (hex_digit n) = Some n.
Proof.
  intros Hn. assert (n ∈ seqZ 0 16) as Hin by (apply elem_of_seqZ; lia).
  change (seqZ 0 16) with [0;1;2;3;4;5;6;7;8;9;10;11;12;13;14;15] in Hin.
  by repeat (apply elem_of_cons in Hin as [->|Hin]; [reflexivity|]); apply elem_of_nil in Hin.
Qed.

Lemma read_escape fuel b l : u8 b ->
  read_string (S fuel) (escape_byte b ++ l) = '(s, rest) ← read_string fuel l; Some (b :: s, rest).
Proof.
  intros [Hb Hb']. unfold escape_byte.
  repeat match goal with |- context [if b =? ?c then _ else _] => destruct (Z.eqb_spec b c) as [->|]; [done|] end.
  destruct (Z.ltb_spec b 32) as [Hlow|Hlow].
  - unfold hex_escape. cbn [app read_string].
    assert (0 <= b / 16 < 2) by (split; [apply Z.div_pos|apply Z.div_lt_upper_bound]; lia).
    assert (0 <= b mod 16 < 16) by (apply Z.mod_pos_bound; lia).
    rewrite !hex_nibble_digit by lia. cbn -[Z.mul].
    destruct (Z.ltb_spec (b / 16) 8); [|lia].
    rewrite <- (Z.div_mod b 16) by lia. done.
  - cbn [app read_string]. destruct (Z.eqb_spec b 34), (Z.eqb_spec b 92); try lia.
    destruct (Z.ltb_spec b 32); [lia|done].
Qed.

Lemma read_escapes bytes rest fuel :
  Forall u8 bytes -> (length bytes < fuel)%nat ->
  read_string fuel ((bytes ≫= escape_byte) ++ 34 :: rest) = Some (bytes, rest).
Proof.
  intros H. revert fuel. induction H as [|b bytes Hb _ IH]; intros fuel Hf;
    (destruct fuel as [|fuel]; [simpl in Hf; lia|]); [done|].
  rewrite bind_cons, <- (assoc_L (++)), read_escape by done.
  rewrite IH by (simpl in Hf; lia). done.
Qed.

Lemma read_quote s rest fuel :
  (String.length s < fuel)%nat ->
  exists tail, json_quote s ++ rest = 34 :: tail /\
    read_string fuel tail = Some (string_bytes s, rest).
Proof.
  intros Hf. eexists. split; [unfold json_quote; rewrite <- app_comm_cons, <- (assoc_L (++)); reflexivity|].
  apply read_escapes; [apply string_bytes_u8|by rewrite string_bytes_length].
Qed.

(** ** Numbers *)

Definition stops (rest : list Z) : Prop :=
  match rest with b :: _ => is_ascii_digit b = false | [] => True end.

Lemma digits_app d rest :
  forallb is_ascii_digit d = true -> stops rest -> digits (d ++ rest) = (d, rest).
Proof.
  intros Hd Hs. induction d as [|b d IH]; cbn.
  - destruct rest as [|b rest]; [done|]. simpl in *. by rewrite Hs.
  - simpl in Hd. apply andb_true_iff in Hd as [-> Hd]. by rewrite (IH Hd).
Qed.

Lemma pretty_char x : (x < 10)%N ->
  byte_of (pretty_N_char x) = 48 + Z.of_N x.
Proof.
  intros Hx. assert (x = 0 \/ x = 1 \/ x = 2 \/ x = 3 \/ x = 4 \/ x = 5 \/ x = 6 \/ x = 7 \/ x = 8 \/ x = 9)%N as Hc by lia.
  by repeat destruct Hc as [->|Hc]; [..|subst].
Qed.

Lemma pretty_N_go_digits x : forall s, exists d,
  string_bytes (pretty_N_go x s) = d ++ string_bytes s /\
  forallb is_ascii_digit d = true /\ decimal_value d = Z.of_N x /\ (x <> 0%N -> d <> []).
Proof.
  induction (N.lt_wf_0 x) as [x _ IH]. intros s.
  destruct (decide (x = 0%N)) as [->|Hx]; [by exists []|].
  rewrite pretty_N_go_step by lia. set (c := pretty_N_char _).
  destruct (IH (x / 10)%N (N.div_lt x 10 ltac:(lia) ltac:(lia)) (String c s)) as (d & -> & Hd & Hv & _).
  assert (Hmod : (x mod 10 < 10)%N) by (by apply N.mod_lt).
  pose proof (pretty_char _ Hmod) as Hc. fold c in Hc.
  exists (d ++ [byte_of c]). split_and!.
  - by rewrite <- (assoc_L (++)).
  - rewrite forallb_app, Hd, Hc. unfold is_ascii_digit. cbn. rewrite andb_true_r.
    clear -Hmod. revert Hmod. generalize (x `mod` 10)%N. intros m Hm.
    apply andb_true_iff. rewrite !Z.leb_le. lia.
  - rewrite decimal_value_app, Hv, Hc. unfold decimal_value at 1. cbn.
    rewrite N2Z.inj_div, N2Z.inj_mod. pose proof (Z.div_mod (Z.of_N x) 10 ltac:(lia)). lia.
  - by destruct d.
Qed.

Lemma number_text z : exists d, d <> [] /\ forallb is_ascii_digit d = true /\
  ((0 <= z /\ json_number z = d /\ decimal_value d = z) \/
   (z < 0 /\ json_number z = 45 :: d /\ decimal_value d = - z)).
Proof.
  assert (Hpos : forall p, exists d, string_bytes (pretty (Npos p)) = d /\ d <> [] /\
    forallb is_ascii_digit d = true /\ decimal_value d = Zpos p).
  { intros p. destruct (pretty_N_go_digits (Npos p) "") as (d & E & Hd & Hv & Hn).
    exists d. unfold pretty, pretty_N. rewrite decide_False by done.
    rewrite E, app_nil_r. split_and!; auto. }
  destruct z as [|p|p].
  - exists [48]. split_and!; [done|done|left; split_and!; reflexivity || lia].
  - destruct (Hpos p) as (d & E & ? & ? & ?). exists d. split_and!; [done|done|left; by split_and!].
  - destruct (Hpos p) as (d & E & ? & ? & ?). exists d. split_and!; [done|done|right].
    split_and!; [lia| |done]. unfold json_number. change (pretty (Zneg p)) with ("-" +:+ pretty (Npos p)).
    by rewrite string_bytes_app, E.
Qed.

Lemma read_number_text z rest : stops rest ->
  read_number (json_number z ++ rest) = Some (z, rest).
Proof.
  intros Hs. destruct (number_text z) as (d & Hne & Hd & [(_ & -> & Hv)|(_ & -> & Hv)]).
  - destruct d as [|b d]; [done|]. cbn [app read_number].
    assert ((b =? 45) = false) as ->.
    { simpl in Hd. apply andb_true_iff in Hd as [Hb%is_ascii_digit_range _]. apply Z.eqb_neq. lia. }
    change (b :: d ++ rest) with ((b :: d) ++ rest). rewrite digits_app by done. by rewrite Hv.
  - cbn [app read_number]. rewrite digits_app by done. destruct d; [done|]. cbn [Z.eqb].
    by rewrite Hv, Z.opp_involutive.
Qed.

(** ** Values *)

Definition names_fuel (s : string) : nat := S (String.length s).

(** The calls the reader spends on a value. *)
Fixpoint calls (v : json) : nat :=
  match v with
  | JString s => S (names_fuel s)
  | JArray l => S (list_sum ((fun v => S (calls v)) <$> l))
  | JObject l => S (list_sum ((fun field => S (names_fuel field.1 + calls field.2)) <$> l))
  | _ => 1
  end.

Lemma quote_length s : (String.length s + 2 <= length (json_quote s))%nat.
Proof.
  unfold json_quote. cbn [length]. rewrite length_app. cbn [length]. rewrite <- string_bytes_length.
  enough (length (string_bytes s) <= length (string_bytes s ≫= escape_byte))%nat by lia.
  induction (string_bytes s) as [|b l IH]; [done|]. rewrite bind_cons, length_app. cbn [length].
  enough (1 <= length (escape_byte b))%nat by lia.
  unfold escape_byte. repeat case_match; simpl; lia.
Qed.

Lemma json_join_cons x y l : json_join (x :: y :: l) = x ++ 44 :: json_join (y :: l).
Proof. reflexivity. Qed.

Lemma json_join_more x l : l <> [] -> json_join (x :: l) = x ++ 44 :: json_join l.
Proof. by destruct l. Qed.

Lemma join_length l :
  l <> [] -> S (length (json_join l)) = list_sum ((fun x => S (length x)) <$> l).
Proof.
  induction l as [|x [|y l] IH]; [done| |].
  - intros _. simpl. lia.
  - intros _. specialize (IH ltac:(done)).
    rewrite json_join_cons, length_app, fmap_cons. cbn [length list_sum foldr]. rewrite IH. unfold list_sum. lia.
Qed.

Lemma sum_le {A} (f g : A -> nat) l :
  Forall (fun a => f a <= g a)%nat l -> (list_sum (f <$> l) <= list_sum (g <$> l))%nat.
Proof. unfold list_sum. induction 1; cbn in *; lia. Qed.

Lemma calls_length v : (calls v <= length (json_text v))%nat.
Proof.
  induction v as [| |z|s|l IH|l IH] using json_nested_ind; cbn [calls json_text].
  - simpl; lia.
  - destruct b; simpl; lia.
  - destruct (number_text z) as (d & Hne & _ & [(_ & -> & _)|(_ & -> & _)]); destruct d; simpl; try done; lia.
  - unfold names_fuel. pose proof (quote_length s). lia.
  - unfold json_array. cbn [length]. rewrite length_app. cbn [length].
    destruct l as [|v l]; [simpl; lia|].
    assert (Hj : json_text <$> (v :: l) <> []) by done. apply join_length in Hj.
    rewrite <- list_fmap_compose in Hj.
    assert (Hs : (list_sum ((fun v => S (calls v)) <$> (v :: l)) <=
        list_sum ((fun x => S (length x)) ∘ json_text <$> (v :: l)))%nat).
    { apply sum_le. eapply Forall_impl; [exact IH|]. simpl. lia. }
    lia.
  - unfold json_object. cbn [length]. rewrite length_app. cbn [length].
    destruct l as [|v l]; [simpl; lia|].
    rewrite <- list_fmap_compose.
    assert (Hj : json_field ∘ (fun field : string * json => (field.1, json_text field.2)) <$> (v :: l) <> []) by done.
    apply join_length in Hj. rewrite <- list_fmap_compose in Hj.
    assert (Hs : (list_sum ((fun field => S (names_fuel field.1 + calls field.2)) <$> (v :: l)) <=
        list_sum ((fun x => S (length x)) ∘ (json_field ∘ (fun field : string * json => (field.1, json_text field.2))) <$> (v :: l)))%nat).
    { apply sum_le. eapply Forall_impl; [exact IH|]. intros [name x] Hx.
      unfold compose, json_field. cbn [fst snd] in *. rewrite length_app. cbn [length].
      pose proof (quote_length name). unfold names_fuel. lia. }
    lia.
Qed.

Lemma text_head v : exists b tail, json_text v = b :: tail /\ json_space b = false /\ b <> 93.
Proof.
  destruct v as [|b|z|s|l|l]; try (by eexists _, _).
  - destruct b; by eexists _, _.
  - cbn [json_text]. destruct (number_text z) as (d & Hne & Hd & [(_ & -> & _)|(_ & -> & _)]); [|by eexists _, _].
    destruct d as [|b d]; [done|]. exists b, d. simpl in Hd.
    apply andb_true_iff in Hd as [Hb%is_ascii_digit_range _]. split_and!; [done| |lia].
    unfold json_space. repeat (apply orb_false_iff; split); apply Z.eqb_neq; lia.
Qed.

Lemma skip_text v rest : skip_space (json_text v ++ rest) = json_text v ++ rest.
Proof. destruct (text_head v) as (b & tail & -> & Hb & _). cbn. by rewrite Hb. Qed.

Definition reads (v : json) : Prop := forall fuel rest,
  (calls v <= fuel)%nat -> stops rest -> read_value fuel (json_text v ++ rest) = Some (v, rest).

Lemma read_items_text v l : reads v -> Forall reads l -> forall fuel rest,
  (list_sum ((fun v => S (calls v)) <$> (v :: l)) <= fuel)%nat ->
  read_items fuel (json_join (json_text <$> (v :: l)) ++ 93 :: rest) = Some (v :: l, rest).
Proof.
  intros Hv Hl. revert v Hv. induction Hl as [|w l Hw Hl IH]; intros v Hv fuel rest Hf;
    (destruct fuel as [|fuel]; [cbn in Hf; lia|]); cbn [read_items].
  - cbn [fmap list_fmap json_join]. rewrite Hv by (done || (cbn in Hf; lia)). done.
  - rewrite fmap_cons, json_join_more, <- (assoc_L (++)), <- app_comm_cons by done.
    rewrite Hv by (done || (cbn in Hf; lia)). cbn [mbind option_bind skip_space].
    change (json_space 44) with false. cbn [Z.eqb Pos.eqb].
    rewrite (IH w Hw fuel rest) by (cbn in Hf |- *; lia). done.
Qed.

Definition field_text (field : string * json) : list Z := json_field (field.1, json_text field.2).

Lemma read_field_text f fuel b rest :
  reads f.2 -> (names_fuel f.1 + calls f.2 <= fuel)%nat -> b = 44 \/ b = 125 ->
  read_fields (S fuel) (field_text f ++ b :: rest) =
    if b =? 44 then '(fs, rest) ← read_fields fuel rest; Some (f :: fs, rest) else Some ([f], rest).
Proof.
  destruct f as [name v]. unfold field_text, json_field. cbn [fst snd]. intros Hv Hf Hb.
  rewrite <- (assoc_L (++)), <- app_comm_cons. cbn [read_fields].
  destruct (read_quote name (58 :: json_text v ++ b :: rest) fuel) as (tail & -> & Hr);
    [unfold names_fuel in Hf; lia|].
  cbn [skip_space]. change (json_space 34) with false. cbn [expect Z.eqb Pos.eqb mbind option_bind].
  rewrite Hr. cbn [mbind option_bind skip_space]. change (json_space 58) with false.
  cbn [expect Z.eqb Pos.eqb mbind option_bind].
  rewrite Hv; [|lia|by destruct Hb as [->| ->]]. cbn [mbind option_bind skip_space].
  rewrite text_of_string. by destruct Hb as [->| ->].
Qed.

Lemma read_fields_text f l : reads f.2 -> Forall (fun field => reads field.2) l -> forall fuel rest,
  (list_sum ((fun field => S (names_fuel field.1 + calls field.2)) <$> (f :: l)) <= fuel)%nat ->
  read_fields fuel (json_join (field_text <$> (f :: l)) ++ 125 :: rest) = Some (f :: l, rest).
Proof.
  intros Hf Hl. revert f Hf. induction Hl as [|g l Hg Hl IH]; intros f Hf fuel rest Hfuel;
    (destruct fuel as [|fuel]; [cbn in Hfuel; lia|]).
  - cbn [fmap list_fmap json_join]. rewrite read_field_text; [done|done|cbn in Hfuel |- *; lia|by right].
  - rewrite fmap_cons, json_join_more, <- (assoc_L (++)), <- app_comm_cons by done.
    rewrite read_field_text; [|done|cbn in Hfuel |- *; lia|by left]. cbn [Z.eqb Pos.eqb].
    rewrite (IH g Hg fuel rest) by (cbn in Hfuel |- *; lia). done.
Qed.

Lemma read_value_text v : reads v.
Proof.
  induction v as [| |z|s|l IH|l IH] using json_nested_ind; intros fuel rest Hf Hs;
    (destruct fuel as [|fuel]; [cbn in Hf; lia|]).
  - reflexivity.
  - by destruct b.
  - pose proof (skip_text (JNumber z) rest) as Hskip. cbn [json_text] in *.
    pose proof (read_number_text z rest Hs) as Hr.
    destruct (number_text z) as (d & Hne & Hd & Hz).
    assert (exists b tail, json_number z ++ rest = b :: tail /\ (b = 45 \/ is_ascii_digit b = true)) as (b & tail & E & Hb).
    { destruct Hz as [(_ & -> & _)|(_ & -> & _)]; [|by eexists _, _; split; [done|left]].
      destruct d as [|b d]; [done|]. eexists _, _. split; [done|right]. simpl in Hd. by apply andb_true_iff in Hd as [? _]. }
    cbn [read_value]. rewrite Hskip, E in *.
    assert (b = 45 \/ 48 <= b <= 57) by (destruct Hb; [by left|right; by apply is_ascii_digit_range]).
    repeat match goal with |- context [if b =? ?c then _ else _] => destruct (Z.eqb_spec b c); [lia|] end.
    by rewrite Hr.
  - cbn [calls] in Hf. cbn [json_text read_value].
    destruct (read_quote s rest fuel) as (tail & -> & Hr); [unfold names_fuel in Hf; lia|].
    cbn [skip_space]. change (json_space 34) with false. cbn [Z.eqb Pos.eqb]. rewrite Hr. cbn.
    by rewrite text_of_string.
  - cbn [json_text read_value]. unfold json_array. rewrite <- app_comm_cons, <- (assoc_L (++)). cbn [app skip_space].
    change (json_space 91) with false. cbn [Z.eqb Pos.eqb].
    destruct IH as [|v l Hv Hl]; [done|].
    rewrite read_items_text by (done || (cbn in Hf |- *; lia)).
    destruct (text_head v) as (b & tail & E & Hb & Hne).
    assert (exists t, json_join (json_text <$> v :: l) ++ 93 :: rest = b :: t) as (t & ->).
    { rewrite fmap_cons, E. destruct (json_text <$> l); eexists; reflexivity. }
    cbn [skip_space]. rewrite Hb. cbn [expect]. destruct (Z.eqb_spec b 93); [done|]. done.
  - cbn [json_text read_value]. unfold json_object. rewrite <- app_comm_cons, <- (assoc_L (++)). cbn [app skip_space].
    change (json_space 123) with false. cbn [Z.eqb Pos.eqb].
    destruct IH as [|f l Hv Hl]; [done|].
    replace (json_field <$> ((fun field : string * json => (field.1, json_text field.2)) <$> f :: l))
      with (field_text <$> (f :: l)) by (by rewrite <- list_fmap_compose).
    rewrite read_fields_text by (done || (cbn in Hf |- *; lia)).
    assert (exists t, json_join (field_text <$> f :: l) ++ 125 :: rest = 34 :: t) as (t & ->).
    { rewrite fmap_cons. unfold field_text at 1, json_field, json_quote.
      destruct (field_text <$> l); eexists; reflexivity. }
    done.
Qed.

(** Every text reads back as its value, whatever follows it. *)
Theorem read_json_text v : read_json (json_text v) = Some v.
Proof.
  unfold read_json. pose proof (read_value_text v (S (length (json_text v))) []) as H.
  rewrite app_nil_r in H. rewrite H; [done| |done]. pose proof (calls_length v). lia.
Qed.

#[export] Instance json_text_inj : Inj (=) (=) json_text.
Proof. intros v w E. apply (inj Some). rewrite <- !read_json_text. by f_equal. Qed.
