(* ===== verification/WireBundle.v ===== *)
(** Frames, routing and the application bundle on the wire: its DTO, the
    handwritten canonical JSON and the way into the domain
    ([ApplicationBundleWireV2] of [crates/factory-protocol/src/wire.rs]). *)
From S2P Require Import Prelude Values Contracts Application Json.

(** * Frames *)

Definition PROTOCOL_VERSION_V2 : Z := 2.
Definition REQUEST_FRAME_MAX_BYTES : Z := 2 ^ 20.
Definition RESPONSE_FRAME_MAX_BYTES : Z := 4 * 2 ^ 20.
Definition FRAME_PREFIX_BYTES : Z := 4.

(** The explanation an error carries, by how it is put together. *)
Inductive Detail :=
  | Because (text : string)
  | Field (field text : string)
  | Contract (e : ContractError)
  | FieldContract (field : string) (e : ContractError)
  | Unsupported (kind value : string)
  | Unreadable.

Inductive FrameError :=
  | Truncated (expected received : Z)
  | TrailingBytes (expected received : Z)
  | Oversized (actual maximum : Z)
  | MissingLength
  | InvalidUtf8
  | InvalidJson (operation : string) (detail : Detail)
  | WrongOperation (expected actual : string)
  | UnknownOperation (operation : string)
  | UnsupportedProtocol (version : Z).

Definition u32_max : Z := 2 ^ 32 - 1.

Definition encode_frame (payload : list Z) (maximum : Z) : result FrameError (list Z) :=
  let length := Z.of_nat (length payload) in
  require (length <=? maximum) (Oversized length maximum) ;;
  require (length <=? u32_max) (Oversized length maximum) ;;
  Ok (be_bytes 4 length ++ payload).

(** [u32::from_be_bytes] *)
Definition be_u32 (b0 b1 b2 b3 : Z) : Z := ((b0 * 256 + b1) * 256 + b2) * 256 + b3.

Definition decode_frame (frame : list Z) (maximum : Z) : result FrameError (list Z) :=
  match frame with
  | b0 :: b1 :: b2 :: b3 :: payload =>
      let payload_length := be_u32 b0 b1 b2 b3 in
      require (payload_length <=? maximum) (Oversized payload_length maximum) ;;
      let expected := FRAME_PREFIX_BYTES + payload_length in
      let received := Z.of_nat (length frame) in
      require (expected <=? received) (Truncated expected received) ;;
      require (received <=? expected) (TrailingBytes expected received) ;;
      Ok payload
  | _ => Err MissingLength
  end.

(** ** Operations *)

Definition known_operations : list string := [
  "workspace.read"; "artifact.seal_workspace_file"; "artifact.read"; "product.submit_ticket";
  "candidate.checkpoint_regression"; "candidate.submit"; "quality.run_full_suite";
  "quality.submit_review"; "work.complete"; "architect.sponsor_ticket_revision";
  "architect.release_ticket_attempt"; "architect.decide_candidate"; "factoryd.status";
  "factoryd.shutdown"; "operator.campaign.start"; "operator.campaign.status";
  "operator.campaign.cancel"; "operator.application.show"; "operator.application.register";
  "operator.application.activate"; "operator.artifact.seal"; "operator.factory.status";
  "operator.cycle.export_transcripts"; "operator.ticket.list"; "operator.ticket.show";
  "operator.candidate.show"; "operator.audit.show"; "operator.institutional.search";
  "operator.institutional.show"; "operator.publication.create"; "publication.create";
  "session.verify_packet"; "session.seal_artifact"; "session.provider_request_start";
  "session.provider_request_settle"; "session.submit_terminal"; "forum.list_topics";
  "forum.list_threads"; "forum.search"; "forum.read_thread"; "forum.create_topic";
  "forum.create_thread"; "forum.post"]%string.

Definition is_known_operation (operation : string) : bool :=
  bool_decide (operation ∈ known_operations).

Record RoutingEnvelope := {
  re_protocol_version : Z;
  re_request_id : string;
  re_operation : string;
}.

Definition require_operation (envelope : RoutingEnvelope) (expected : string) : result FrameError unit :=
  require (bool_decide (re_operation envelope = expected))
    (WrongOperation expected (re_operation envelope)).

(** miniserde, the JSON library: reading a value of a type, and writing it. *)
Class Json (A : Type) := {
  from_str : list Z -> option A;
  to_string : A -> list Z;
}.

(** [decode_closed_json], and [decode_json_frame] after its frame. *)
Definition decode_closed_json {A} `{Json A} (payload : list Z) (operation : string)
  : result FrameError A :=
  require (utf8_valid payload) InvalidUtf8 ;;
  ok_or (from_str payload) (InvalidJson operation Unreadable).

Definition encode_json_frame {A} `{Json A} (value : A) (maximum : Z) : result FrameError (list Z) :=
  encode_frame (to_string value) maximum.

Definition decode_json_frame {A} `{Json A} (frame : list Z) (maximum : Z) (operation : string)
  : result FrameError A :=
  payload ← decode_frame frame maximum;
  decode_closed_json payload operation.

Section requests.
Context `{Json RoutingEnvelope}.

Definition decode_routing_envelope (frame : list Z) (maximum : Z) : result FrameError RoutingEnvelope :=
  envelope ← decode_json_frame frame maximum "routing envelope";
  require (re_protocol_version envelope =? PROTOCOL_VERSION_V2)
    (UnsupportedProtocol (re_protocol_version envelope)) ;;
  require (is_known_operation (re_operation envelope)) (UnknownOperation (re_operation envelope)) ;;
  Ok envelope.

(** A request must be exactly what its value is written as. *)
Definition decode_operation_request {A} `{Json A} (frame : list Z) (maximum : Z) (expected : string)
  : result FrameError A :=
  envelope ← decode_routing_envelope frame maximum;
  require_operation envelope expected ;;
  payload ← decode_frame frame maximum;
  request ← decode_json_frame frame maximum expected;
  require (bool_decide (to_string request = payload))
    (InvalidJson expected (Because "request bytes are not canonical V2 JSON or contain unknown fields")) ;;
  Ok request.
End requests.

(** * The bundle *)

(** * The DTO *)

Record RepositoryWireV2 := {
  rw_repository_key : string;
  rw_canonical_local_path : string;
  rw_default_branch : string;
  rw_delivery_mode : string;
}.

Record TemplateWireV2 := {
  tw_source_path : string;
  tw_digest : string;
  tw_placeholders : list string;
  tw_rendered_byte_limit : Z;
}.

Record PolicyWireV2 := {
  pw_source_path : string;
  pw_digest : string;
  pw_byte_limit : Z;
  pw_entrypoint : string;
}.

Record ModelWireV2 := {
  mw_provider : string;
  mw_model_id : string;
  mw_thinking_level : string;
  mw_context_token_limit : Z;
  mw_output_token_limit : Z;
  mw_price_input : Z;
  mw_price_output : Z;
  mw_price_cache_read : Z;
  mw_price_cache_write : Z;
  mw_capability_flags : list string;
}.

Record LimitsWireV2 := { lw_wall_limit_millis : Z; lw_output_byte_limit : Z }.

Record AssignmentRoleWireV2 := {
  aw_assignment_role : string;
  aw_system_template : TemplateWireV2;
  aw_assignment_template : TemplateWireV2;
  aw_policy : PolicyWireV2;
  aw_tools : list string;
  aw_model : ModelWireV2;
  aw_limits : LimitsWireV2;
}.

Record TicketBoundsWireV2 := {
  bw_narrative_byte_limit : Z;
  bw_acceptance_criteria_limit : Z;
  bw_contract_read_limit : Z;
}.

Record TicketPolicyWireV2 := {
  tpw_low_water : Z;
  tpw_target : Z;
  tpw_maximum : option Z;
  tpw_proposal_maximum : Z;
  tpw_ticket_bounds : TicketBoundsWireV2;
}.

Record RequiredReadWireV2 := { rrw_path : string; rrw_reason : string }.

Record ExecutableWireV2 := { ew_approved_tool : option string; ew_repository_path : option string }.

Record EnvironmentWireV2 := { evw_name : string; evw_value : string }.

Record CommandWireV2 := {
  cw_name : string;
  cw_executable : ExecutableWireV2;
  cw_argv : list string;
  cw_working_directory : string;
  cw_environment : list EnvironmentWireV2;
  cw_timeout_millis : Z;
  cw_stdout_byte_limit : Z;
  cw_stderr_byte_limit : Z;
  cw_expected_exit_status : Z;
}.

Record ValidationWireV2 := { vw_focused : list CommandWireV2; vw_full : list CommandWireV2 }.

Record GitWireV2 := {
  gw_forbidden_paths : list string;
  gw_delivery_mode : string;
  gw_provenance_trailers_required : bool;
}.

Record CommitMessageWireV2 := { cmw_subject_byte_limit : Z; cmw_body_byte_limit : Z }.

Record ApplicationBundleWireV2 := {
  abw_format_version : Z;
  abw_application_key : string;
  abw_predecessor_bundle : option string;
  abw_repository : RepositoryWireV2;
  abw_mission_template : TemplateWireV2;
  abw_assignment_role_profiles : list AssignmentRoleWireV2;
  abw_ticket_policy : TicketPolicyWireV2;
  abw_required_reads : list RequiredReadWireV2;
  abw_reproducer_profiles : list CommandWireV2;
  abw_validation_profiles : ValidationWireV2;
  abw_git_policy : GitWireV2;
  abw_commit_message_policy : CommitMessageWireV2;
}.

(** * Canonical JSON *)

Definition packet_error (field detail : string) : FrameError :=
  InvalidJson "assignment packet" (Field field detail).

Definition validate_unique_strings (field : string) (values : list string) : result FrameError unit :=
  for_each_seen (fun value => value) (packet_error field "values must be nonempty and unique")
    (fun value => require (negb (is_empty (string_bytes value)))
       (packet_error field "values must be nonempty and unique"))
    (fun _ => Ok tt) [] values.

Definition quotes (l : list string) : list Z := json_array (json_quote <$> l).

Definition or_null {A} (f : A -> list Z) (o : option A) : list Z :=
  match o with Some a => f a | None => json_null end.

#[local] Open Scope string_scope.

Definition canonical_template (t : TemplateWireV2) : list Z := json_object [
  ("digest", json_quote (tw_digest t)); ("placeholders", quotes (tw_placeholders t));
  ("rendered_byte_limit", json_number (tw_rendered_byte_limit t));
  ("source_path", json_quote (tw_source_path t))].

Definition canonical_repository (r : RepositoryWireV2) : list Z := json_object [
  ("canonical_local_path", json_quote (rw_canonical_local_path r));
  ("default_branch", json_quote (rw_default_branch r));
  ("delivery_mode", json_quote (rw_delivery_mode r));
  ("repository_key", json_quote (rw_repository_key r))].

Definition canonical_model (m : ModelWireV2) : list Z := json_object [
  ("capability_flags", quotes (mw_capability_flags m));
  ("context_token_limit", json_number (mw_context_token_limit m));
  ("model_id", json_quote (mw_model_id m));
  ("output_token_limit", json_number (mw_output_token_limit m));
  ("price_cache_read_micro_usd_per_million_tokens", json_number (mw_price_cache_read m));
  ("price_cache_write_micro_usd_per_million_tokens", json_number (mw_price_cache_write m));
  ("price_input_micro_usd_per_million_tokens", json_number (mw_price_input m));
  ("price_output_micro_usd_per_million_tokens", json_number (mw_price_output m));
  ("provider", json_quote (mw_provider m)); ("thinking_level", json_quote (mw_thinking_level m))].

Definition canonical_limits (l : LimitsWireV2) : list Z := json_object [
  ("output_byte_limit", json_number (lw_output_byte_limit l));
  ("wall_limit_millis", json_number (lw_wall_limit_millis l))].

Definition canonical_policy (p : PolicyWireV2) : list Z := json_object [
  ("byte_limit", json_number (pw_byte_limit p)); ("digest", json_quote (pw_digest p));
  ("entrypoint", json_quote (pw_entrypoint p)); ("source_path", json_quote (pw_source_path p))].

Definition canonical_assignment_role_profile (p : AssignmentRoleWireV2) : list Z := json_object [
  ("assignment_role", json_quote (aw_assignment_role p));
  ("assignment_template", canonical_template (aw_assignment_template p));
  ("limits", canonical_limits (aw_limits p)); ("model", canonical_model (aw_model p));
  ("policy", canonical_policy (aw_policy p));
  ("system_template", canonical_template (aw_system_template p));
  ("tools", quotes (aw_tools p))].

Definition canonical_assignment_role_profiles (l : list AssignmentRoleWireV2) : list Z :=
  json_array (canonical_assignment_role_profile <$> l).

Definition canonical_ticket_policy (p : TicketPolicyWireV2) : list Z := json_object [
  ("low_water", json_number (tpw_low_water p)); ("maximum", or_null json_number (tpw_maximum p));
  ("proposal_maximum", json_number (tpw_proposal_maximum p)); ("target", json_number (tpw_target p));
  ("ticket_bounds", json_object [
     ("acceptance_criteria_limit", json_number (bw_acceptance_criteria_limit (tpw_ticket_bounds p)));
     ("contract_read_limit", json_number (bw_contract_read_limit (tpw_ticket_bounds p)));
     ("narrative_byte_limit", json_number (bw_narrative_byte_limit (tpw_ticket_bounds p)))])].

Definition canonical_required_reads (l : list RequiredReadWireV2) : list Z :=
  json_array ((fun r => json_object [("path", json_quote (rrw_path r)); ("reason", json_quote (rrw_reason r))]) <$> l).

Definition bundle_fault (text : string) : FrameError := InvalidJson "application bundle" (Because text).

Definition canonical_executable (e : ExecutableWireV2) : result FrameError (list Z) :=
  match ew_approved_tool e, ew_repository_path e with
  | Some tool, None => Ok (json_object [("approved_tool", json_quote tool)])
  | None, Some path => Ok (json_object [("repository_path", json_quote path)])
  | _, _ => Err (bundle_fault "executable must contain exactly one closed variant")
  end.

Definition canonical_environment (e : EnvironmentWireV2) : list Z :=
  json_object [("name", json_quote (evw_name e)); ("value", json_quote (evw_value e))].

Definition canonical_command (c : CommandWireV2) : result FrameError (list Z) :=
  executable ← canonical_executable (cw_executable c);
  Ok (json_object [
    ("argv", quotes (cw_argv c)); ("environment", json_array (canonical_environment <$> cw_environment c));
    ("executable", executable); ("expected_exit_status", json_number (cw_expected_exit_status c));
    ("name", json_quote (cw_name c)); ("stderr_byte_limit", json_number (cw_stderr_byte_limit c));
    ("stdout_byte_limit", json_number (cw_stdout_byte_limit c));
    ("timeout_millis", json_number (cw_timeout_millis c));
    ("working_directory", json_quote (cw_working_directory c))]).

Definition canonical_commands (l : list CommandWireV2) : result FrameError (list Z) :=
  json_array <$> map_ok canonical_command l.

Definition canonical_validation (v : ValidationWireV2) : result FrameError (list Z) :=
  focused ← canonical_commands (vw_focused v);
  full ← canonical_commands (vw_full v);
  Ok (json_object [("focused", focused); ("full", full)]).

Definition canonical_git_policy (g : GitWireV2) : list Z := json_object [
  ("delivery_mode", json_quote (gw_delivery_mode g)); ("forbidden_paths", quotes (gw_forbidden_paths g));
  ("provenance_trailers_required", json_bool (gw_provenance_trailers_required g))].

Definition canonical_commit_message_policy (c : CommitMessageWireV2) : list Z := json_object [
  ("body_byte_limit", json_number (cmw_body_byte_limit c));
  ("subject_byte_limit", json_number (cmw_subject_byte_limit c))].

Definition validate_capability_flags (p : AssignmentRoleWireV2) : result FrameError unit :=
  validate_unique_strings "model.capability_flags" (mw_capability_flags (aw_model p)) ;;
  require (forallb (fun flag => bool_decide (flag = "reasoning")) (mw_capability_flags (aw_model p)))
    (bundle_fault "model.capability_flags: unknown model capability").

Definition canonical_application_bundle_json_v2 (b : ApplicationBundleWireV2)
  : result FrameError (list Z) :=
  for_each validate_capability_flags (abw_assignment_role_profiles b) ;;
  reproducers ← canonical_commands (abw_reproducer_profiles b);
  validation ← canonical_validation (abw_validation_profiles b);
  Ok (json_object [
    ("application_key", json_quote (abw_application_key b));
    ("assignment_role_profiles", canonical_assignment_role_profiles (abw_assignment_role_profiles b));
    ("commit_message_policy", canonical_commit_message_policy (abw_commit_message_policy b));
    ("format_version", json_number (abw_format_version b));
    ("git_policy", canonical_git_policy (abw_git_policy b));
    ("mission_template", canonical_template (abw_mission_template b));
    ("predecessor_bundle", or_null json_quote (abw_predecessor_bundle b));
    ("repository", canonical_repository (abw_repository b));
    ("reproducer_profiles", reproducers);
    ("required_reads", canonical_required_reads (abw_required_reads b));
    ("ticket_policy", canonical_ticket_policy (abw_ticket_policy b));
    ("validation_profiles", validation)]).

(** The bytes Product seals for a command of the domain. *)
Definition canonical_command_profile_json_from_domain_v2 (c : CommandProfileV2) : list Z :=
  let executable := match cp_executable c with
    | ApprovedTool Cargo => json_object [("approved_tool", json_quote "cargo")]
    | ApprovedTool Git => json_object [("approved_tool", json_quote "git")]
    | RepositoryPath path => json_object [("repository_path", json_quote path)]
    end in
  json_object [
    ("argv", quotes (cp_argv c));
    ("environment", json_array ((fun e => json_object [("name", json_quote (env_name e));
                                                       ("value", json_quote (env_value e))])
                                <$> cp_environment c));
    ("executable", executable); ("expected_exit_status", json_number (cp_expected_exit_status c));
    ("name", json_quote (cp_name c)); ("stderr_byte_limit", json_number (cp_stderr_byte_limit c));
    ("stdout_byte_limit", json_number (cp_stdout_byte_limit c));
    ("timeout_millis", json_number (cp_timeout c));
    ("working_directory", json_quote (cp_working_directory c))].

(** * Into the domain *)

Definition contract {A} (r : result ContractError A) : result Detail A := map_err Contract r.

Definition parse_delivery_mode (value : string) : result Detail DeliveryModeV2 :=
  if bool_decide (value = "local_fast_forward_only") then Ok LocalFastForwardOnly
  else Err (Unsupported "delivery mode" value).

Definition parse_assignment_role (value : string) : result Detail AssignmentRole :=
  if bool_decide (value = "product_research") then Ok ProductResearch
  else if bool_decide (value = "engineering") then Ok Engineering
  else if bool_decide (value = "quality") then Ok Quality
  else Err (Unsupported "office" value).

Definition parse_thinking_level (value : string) : result Detail ThinkingLevelV2 :=
  if bool_decide (value = "none") then Ok ThinkingNone
  else if bool_decide (value = "low") then Ok ThinkingLow
  else if bool_decide (value = "medium") then Ok ThinkingMedium
  else if bool_decide (value = "high") then Ok ThinkingHigh
  else if bool_decide (value = "xhigh") then Ok ThinkingXHigh
  else Err (Unsupported "thinking level" value).

Definition parse_model_capability (value : string) : result Detail ModelCapabilityV2 :=
  if bool_decide (value = "reasoning") then Ok Reasoning
  else Err (Unsupported "model capability" value).

Definition parse_approved_tool (value : string) : result Detail ApprovedToolV2 :=
  if bool_decide (value = "cargo") then Ok Cargo
  else if bool_decide (value = "git") then Ok Git
  else Err (Unsupported "approved tool" value).

Definition parse_tool (value : string) : result Detail ActorToolV2 :=
  ok_or (tool_parse value) (Unsupported "actor tool" value).

Definition repository_into_domain (r : RepositoryWireV2) : result Detail RepositoryBindingV2 :=
  path ← contract (absolute_host_path_parse (rw_canonical_local_path r));
  mode ← parse_delivery_mode (rw_delivery_mode r);
  Ok {| rb_repository_key := rw_repository_key r; rb_canonical_local_path := path;
        rb_default_branch := rw_default_branch r; rb_delivery_mode := mode |}.

Definition template_into_domain (t : TemplateWireV2) : result Detail TemplateArtifactV2 :=
  path ← contract (application_relative_path_parse (tw_source_path t));
  digest ← contract (content_digest_from_str (tw_digest t));
  placeholders ← map_ok (fun p => contract (template_placeholder_parse p)) (tw_placeholders t);
  Ok {| ta_source_path := path; ta_digest := digest; ta_placeholders := placeholders;
        ta_rendered_byte_limit := tw_rendered_byte_limit t |}.

Definition policy_into_domain (p : PolicyWireV2) : result Detail ActorPolicyArtifactV2 :=
  path ← contract (application_relative_path_parse (pw_source_path p));
  digest ← contract (content_digest_from_str (pw_digest p));
  entrypoint ← contract (policy_entrypoint_parse (pw_entrypoint p));
  Ok {| ap_source_path := path; ap_digest := digest; ap_byte_limit := pw_byte_limit p;
        ap_entrypoint := entrypoint |}.

Definition model_into_domain (m : ModelWireV2) : result Detail ModelProfileV2 :=
  level ← parse_thinking_level (mw_thinking_level m);
  flags ← map_ok parse_model_capability (mw_capability_flags m);
  Ok {| mp_provider := mw_provider m; mp_model_id := mw_model_id m; mp_thinking_level := level;
        mp_context_token_limit := mw_context_token_limit m;
        mp_output_token_limit := mw_output_token_limit m; mp_price_input := mw_price_input m;
        mp_price_output := mw_price_output m; mp_price_cache_read := mw_price_cache_read m;
        mp_price_cache_write := mw_price_cache_write m; mp_capability_flags := flags |}.

Definition limits_into_domain (l : LimitsWireV2) : SessionLimitsV2 := {|
  sl_wall_limit := lw_wall_limit_millis l; sl_output_byte_limit := lw_output_byte_limit l |}.

Definition role_into_domain (p : AssignmentRoleWireV2) : result Detail AssignmentRoleProfileV2 :=
  role ← parse_assignment_role (aw_assignment_role p);
  system ← template_into_domain (aw_system_template p);
  assignment ← template_into_domain (aw_assignment_template p);
  policy ← policy_into_domain (aw_policy p);
  tools ← map_ok parse_tool (aw_tools p);
  model ← model_into_domain (aw_model p);
  Ok {| rp_assignment_role := role; rp_system_template := system;
        rp_assignment_template := assignment; rp_policy := policy; rp_tools := tools;
        rp_model := model; rp_limits := limits_into_domain (aw_limits p) |}.

Definition bounds_into_domain (b : TicketBoundsWireV2) : TicketBoundsV2 := {|
  narrative_byte_limit := bw_narrative_byte_limit b;
  acceptance_criteria_limit := bw_acceptance_criteria_limit b;
  contract_read_limit := bw_contract_read_limit b |}.

Definition ticket_policy_into_domain (p : TicketPolicyWireV2) : TicketPolicyV2 := {|
  tp_low_water := tpw_low_water p; tp_target := tpw_target p; tp_maximum := tpw_maximum p;
  tp_proposal_maximum := tpw_proposal_maximum p;
  tp_ticket_bounds := bounds_into_domain (tpw_ticket_bounds p) |}.

Definition read_into_domain (r : RequiredReadWireV2) : result Detail RequiredReadV2 :=
  path ← contract (repository_relative_path_parse (rrw_path r));
  Ok {| req_path := path; req_reason := rrw_reason r |}.

Definition executable_into_domain (e : ExecutableWireV2) : result Detail ExecutableV2 :=
  match ew_approved_tool e, ew_repository_path e with
  | Some tool, None => tool ← parse_approved_tool tool; Ok (ApprovedTool tool)
  | None, Some path => path ← contract (repository_relative_path_parse path); Ok (RepositoryPath path)
  | _, _ => Err (Because "executable must contain exactly one closed variant")
  end.

Definition environment_into_domain (e : EnvironmentWireV2) : EnvironmentAdditionV2 := {|
  env_name := evw_name e; env_value := evw_value e |}.

Definition command_into_domain (c : CommandWireV2) : result Detail CommandProfileV2 :=
  executable ← executable_into_domain (cw_executable c);
  directory ← contract (repository_relative_path_parse (cw_working_directory c));
  Ok {| cp_name := cw_name c; cp_executable := executable; cp_argv := cw_argv c;
        cp_working_directory := directory;
        cp_environment := environment_into_domain <$> cw_environment c;
        cp_timeout := cw_timeout_millis c; cp_stdout_byte_limit := cw_stdout_byte_limit c;
        cp_stderr_byte_limit := cw_stderr_byte_limit c;
        cp_expected_exit_status := cw_expected_exit_status c |}.

Definition validation_into_domain (v : ValidationWireV2) : result Detail ValidationProfilesV2 :=
  focused ← map_ok command_into_domain (vw_focused v);
  full ← map_ok command_into_domain (vw_full v);
  Ok {| vp_focused := focused; vp_full := full |}.

Definition git_into_domain (g : GitWireV2) : result Detail GitPolicyV2 :=
  paths ← map_ok (fun p => contract (repository_relative_path_parse p)) (gw_forbidden_paths g);
  mode ← parse_delivery_mode (gw_delivery_mode g);
  Ok {| gp_forbidden_paths := paths; gp_delivery_mode := mode;
        gp_provenance_trailers_required := gw_provenance_trailers_required g |}.

Definition commit_message_into_domain (c : CommitMessageWireV2) : CommitMessagePolicyV2 := {|
  cm_subject_byte_limit := cmw_subject_byte_limit c; cm_body_byte_limit := cmw_body_byte_limit c |}.

Definition bundle_into_domain (b : ApplicationBundleWireV2) : result Detail ApplicationBundleV2 :=
  key ← contract (application_key_parse (abw_application_key b));
  predecessor ← transpose_map (fun d => contract (content_digest_from_str d)) (abw_predecessor_bundle b);
  repository ← repository_into_domain (abw_repository b);
  mission ← template_into_domain (abw_mission_template b);
  profiles ← map_ok role_into_domain (abw_assignment_role_profiles b);
  reads ← map_ok read_into_domain (abw_required_reads b);
  reproducers ← map_ok command_into_domain (abw_reproducer_profiles b);
  validation ← validation_into_domain (abw_validation_profiles b);
  git ← git_into_domain (abw_git_policy b);
  Ok {| ab_format_version := abw_format_version b; ab_application_key := key;
        ab_predecessor_bundle := predecessor; ab_repository := repository;
        ab_mission_template := mission; ab_assignment_role_profiles := profiles;
        ab_ticket_policy := ticket_policy_into_domain (abw_ticket_policy b);
        ab_required_reads := reads; ab_reproducer_profiles := reproducers;
        ab_validation_profiles := validation; ab_git_policy := git;
        ab_commit_message_policy := commit_message_into_domain (abw_commit_message_policy b) |}.

(** * Admission *)

(** What miniserde makes of a text: the DTOs, and any text written again. *)
Class BundleReader := {
  read_bundle : list Z -> option ApplicationBundleWireV2;
  read_command : list Z -> option CommandWireV2;
  rewrite_value : list Z -> option (list Z);
}.

Section admission.
Context `{BundleReader} (blake3 : list Z -> ContentDigest).

Definition bundle_json {A} (o : option A) : result FrameError A :=
  ok_or o (InvalidJson "application bundle" Unreadable).

Definition parse_application_bundle_v2 (payload : list Z) : result FrameError ApplicationBundleV2 :=
  require (utf8_valid payload) InvalidUtf8 ;;
  wire ← bundle_json (read_bundle payload);
  canonical ← canonical_application_bundle_json_v2 wire;
  require (bool_decide (canonical = payload))
    (bundle_fault "bundle bytes are not canonical V2 JSON or contain unknown fields") ;;
  bundle ← map_err (InvalidJson "application bundle") (bundle_into_domain wire);
  map_err (fun e => InvalidJson "application bundle" (Contract e)) (bundle_validate bundle) ;;
  Ok bundle.

Definition admit_application_bundle_v2 (payload : list Z)
  : result FrameError (ApplicationBundleV2 * ContentDigest) :=
  bundle ← parse_application_bundle_v2 payload;
  Ok (bundle, blake3 payload).

Definition admit_application_bundle_source_v2 (payload : list Z)
  : result FrameError (ApplicationBundleV2 * ContentDigest * list Z) :=
  require (utf8_valid payload) InvalidUtf8 ;;
  wire ← bundle_json (read_bundle payload);
  canonical ← canonical_application_bundle_json_v2 wire;
  source ← bundle_json (rewrite_value payload);
  require (bool_decide (source = canonical))
    (bundle_fault "bundle source must preserve canonical V2 fields and order") ;;
  bundle ← parse_application_bundle_v2 canonical;
  Ok (bundle, blake3 canonical, canonical).

Definition decode_application_bundle_v2 (frame : list Z) (maximum : Z)
  : result FrameError ApplicationBundleV2 :=
  payload ← decode_frame frame maximum;
  parse_application_bundle_v2 payload.

(** [payload.strip_suffix('\n').unwrap_or(payload)] *)
Definition strip_line_feed (payload : list Z) : list Z :=
  if bool_decide (last payload = Some 10) then removelast payload else payload.

Definition parse_command_profile_v2 (payload : list Z) : result FrameError CommandProfileV2 :=
  require (utf8_valid payload) InvalidUtf8 ;;
  let payload := strip_line_feed payload in
  wire ← ok_or (read_command payload)
    (InvalidJson "command profile" (Because "command bytes are not canonical V2 JSON"));
  canonical ← canonical_command wire;
  require (bool_decide (canonical = payload))
    (InvalidJson "command profile"
       (Because "command bytes are not canonical V2 JSON or contain unknown fields")) ;;
  map_err (InvalidJson "command profile") (command_into_domain wire).
End admission.
