(* ===== verification/Canonical.v ===== *)
(** What the canonical JSON of [WireBundle] promises: it is a JSON text with its
    keys in order, it determines the bundle, and a bundle of the domain has one
    text and one digest. *)
From S2P Require Import Prelude Values Contracts Application Json WireBundle.

#[local] Open Scope string_scope.

(** * Trees *)

Definition strings_tree (l : list string) : json := JArray (JString <$> l).
Definition option_tree {A} (f : A -> json) (o : option A) : json :=
  match o with Some a => f a | None => JNull end.

Definition template_tree (t : TemplateWireV2) : json := JObject [
  ("digest", JString (tw_digest t)); ("placeholders", strings_tree (tw_placeholders t));
  ("rendered_byte_limit", JNumber (tw_rendered_byte_limit t));
  ("source_path", JString (tw_source_path t))].

Definition repository_tree (r : RepositoryWireV2) : json := JObject [
  ("canonical_local_path", JString (rw_canonical_local_path r));
  ("default_branch", JString (rw_default_branch r)); ("delivery_mode", JString (rw_delivery_mode r));
  ("repository_key", JString (rw_repository_key r))].

Definition model_tree (m : ModelWireV2) : json := JObject [
  ("capability_flags", strings_tree (mw_capability_flags m));
  ("context_token_limit", JNumber (mw_context_token_limit m)); ("model_id", JString (mw_model_id m));
  ("output_token_limit", JNumber (mw_output_token_limit m));
  ("price_cache_read_micro_usd_per_million_tokens", JNumber (mw_price_cache_read m));
  ("price_cache_write_micro_usd_per_million_tokens", JNumber (mw_price_cache_write m));
  ("price_input_micro_usd_per_million_tokens", JNumber (mw_price_input m));
  ("price_output_micro_usd_per_million_tokens", JNumber (mw_price_output m));
  ("provider", JString (mw_provider m)); ("thinking_level", JString (mw_thinking_level m))].

Definition limits_tree (l : LimitsWireV2) : json := JObject [
  ("output_byte_limit", JNumber (lw_output_byte_limit l));
  ("wall_limit_millis", JNumber (lw_wall_limit_millis l))].

Definition policy_tree (p : PolicyWireV2) : json := JObject [
  ("byte_limit", JNumber (pw_byte_limit p)); ("digest", JString (pw_digest p));
  ("entrypoint", JString (pw_entrypoint p)); ("source_path", JString (pw_source_path p))].

Definition role_tree (p : AssignmentRoleWireV2) : json := JObject [
  ("assignment_role", JString (aw_assignment_role p));
  ("assignment_template", template_tree (aw_assignment_template p));
  ("limits", limits_tree (aw_limits p)); ("model", model_tree (aw_model p));
  ("policy", policy_tree (aw_policy p)); ("system_template", template_tree (aw_system_template p));
  ("tools", strings_tree (aw_tools p))].

Definition bounds_tree (b : TicketBoundsWireV2) : json := JObject [
  ("acceptance_criteria_limit", JNumber (bw_acceptance_criteria_limit b));
  ("contract_read_limit", JNumber (bw_contract_read_limit b));
  ("narrative_byte_limit", JNumber (bw_narrative_byte_limit b))].

Definition ticket_policy_tree (p : TicketPolicyWireV2) : json := JObject [
  ("low_water", JNumber (tpw_low_water p)); ("maximum", option_tree JNumber (tpw_maximum p));
  ("proposal_maximum", JNumber (tpw_proposal_maximum p)); ("target", JNumber (tpw_target p));
  ("ticket_bounds", bounds_tree (tpw_ticket_bounds p))].

Definition read_tree (r : RequiredReadWireV2) : json := JObject [
  ("path", JString (rrw_path r)); ("reason", JString (rrw_reason r))].

Definition executable_tree (e : ExecutableWireV2) : json := JObject (
  match ew_approved_tool e with Some tool => [("approved_tool", JString tool)] | None => [] end
  ++ match ew_repository_path e with Some path => [("repository_path", JString path)] | None => [] end).

Definition environment_tree (e : EnvironmentWireV2) : json := JObject [
  ("name", JString (evw_name e)); ("value", JString (evw_value e))].

Definition command_tree (c : CommandWireV2) : json := JObject [
  ("argv", strings_tree (cw_argv c)); ("environment", JArray (environment_tree <$> cw_environment c));
  ("executable", executable_tree (cw_executable c));
  ("expected_exit_status", JNumber (cw_expected_exit_status c)); ("name", JString (cw_name c));
  ("stderr_byte_limit", JNumber (cw_stderr_byte_limit c));
  ("stdout_byte_limit", JNumber (cw_stdout_byte_limit c));
  ("timeout_millis", JNumber (cw_timeout_millis c));
  ("working_directory", JString (cw_working_directory c))].

Definition commands_tree (l : list CommandWireV2) : json := JArray (command_tree <$> l).

Definition validation_tree (v : ValidationWireV2) : json := JObject [
  ("focused", commands_tree (vw_focused v)); ("full", commands_tree (vw_full v))].

Definition git_tree (g : GitWireV2) : json := JObject [
  ("delivery_mode", JString (gw_delivery_mode g));
  ("forbidden_paths", strings_tree (gw_forbidden_paths g));
  ("provenance_trailers_required", JBool (gw_provenance_trailers_required g))].

Definition commit_message_tree (c : CommitMessageWireV2) : json := JObject [
  ("body_byte_limit", JNumber (cmw_body_byte_limit c));
  ("subject_byte_limit", JNumber (cmw_subject_byte_limit c))].

Definition bundle_tree (b : ApplicationBundleWireV2) : json := JObject [
  ("application_key", JString (abw_application_key b));
  ("assignment_role_profiles", JArray (role_tree <$> abw_assignment_role_profiles b));
  ("commit_message_policy", commit_message_tree (abw_commit_message_policy b));
  ("format_version", JNumber (abw_format_version b)); ("git_policy", git_tree (abw_git_policy b));
  ("mission_template", template_tree (abw_mission_template b));
  ("predecessor_bundle", option_tree JString (abw_predecessor_bundle b));
  ("repository", repository_tree (abw_repository b));
  ("reproducer_profiles", commands_tree (abw_reproducer_profiles b));
  ("required_reads", JArray (read_tree <$> abw_required_reads b));
  ("ticket_policy", ticket_policy_tree (abw_ticket_policy b));
  ("validation_profiles", validation_tree (abw_validation_profiles b))].

(** * The canonical text is the text of the tree *)

Lemma array_text {A} (canonical : A -> list Z) (tree : A -> json) l :
  (forall a, canonical a = json_text (tree a)) ->
  json_array (canonical <$> l) = json_text (JArray (tree <$> l)).
Proof. intros H. cbn [json_text]. f_equal. rewrite <- list_fmap_compose. by apply list_fmap_ext. Qed.

Lemma quotes_text l : quotes l = json_text (strings_tree l).
Proof. by apply array_text. Qed.

Ltac tree_text := rewrite ?quotes_text; reflexivity.

Lemma template_text t : canonical_template t = json_text (template_tree t).
Proof. unfold canonical_template. tree_text. Qed.
Lemma model_text m : canonical_model m = json_text (model_tree m).
Proof. unfold canonical_model. tree_text. Qed.
Lemma role_text p : canonical_assignment_role_profile p = json_text (role_tree p).
Proof. unfold canonical_assignment_role_profile. rewrite !template_text, model_text. tree_text. Qed.
Lemma ticket_policy_text p : canonical_ticket_policy p = json_text (ticket_policy_tree p).
Proof. unfold canonical_ticket_policy. by destruct p as [? ? []]. Qed.
Lemma git_text g : canonical_git_policy g = json_text (git_tree g).
Proof. unfold canonical_git_policy. tree_text. Qed.

Lemma command_text c t : canonical_command c = Ok t -> t = json_text (command_tree c).
Proof.
  unfold canonical_command, canonical_executable. intros H. ok_inv H; unfold command_tree, executable_tree;
    repeat match goal with E : _ (cw_executable c) = _ |- _ => rewrite E; clear E end;
    rewrite quotes_text, (array_text _ environment_tree) by done; reflexivity.
Qed.

Lemma commands_text l t : canonical_commands l = Ok t -> t = json_text (commands_tree l).
Proof.
  unfold canonical_commands. intros (texts & H & ->)%fmap_Ok. apply map_ok_Forall2 in H.
  cbn [json_text commands_tree]. f_equal.
  induction H as [|c u l us Hc _ IH]; [done|]. apply command_text in Hc as ->. cbn. by rewrite IH.
Qed.

Lemma validation_text v t : canonical_validation v = Ok t -> t = json_text (validation_tree v).
Proof.
  unfold canonical_validation. intros H. ok_inv H.
  repeat match goal with E : canonical_commands _ = Ok _ |- _ => apply commands_text in E as -> end.
  reflexivity.
Qed.

(** The canonical text of a bundle is the JSON text of its tree, with the keys of
    every object in order: reading it back gives the tree. *)
Lemma bundle_text b t :
  canonical_application_bundle_json_v2 b = Ok t -> t = json_text (bundle_tree b).
Proof.
  unfold canonical_application_bundle_json_v2. intros H. ok_inv H.
  repeat match goal with E : canonical_commands _ = Ok _ |- _ => apply commands_text in E as -> end.
  repeat match goal with E : canonical_validation _ = Ok _ |- _ => apply validation_text in E as -> end.
  unfold canonical_assignment_role_profiles, canonical_required_reads.
  rewrite (array_text _ role_tree) by apply role_text.
  rewrite (array_text _ read_tree) by done.
  rewrite git_text, template_text, ticket_policy_text.
  by destruct b as [? ? [] [] ? ? ? ? ? ? ? []].
Qed.

(** ** Key order *)

Fixpoint ascending (names : list string) : bool :=
  match names with
  | a :: ((b :: _) as names) => lex_lt (string_bytes a) (string_bytes b) && ascending names
  | _ => true
  end.

Fixpoint keys_ascend (v : json) : bool :=
  match v with
  | JArray l => forallb keys_ascend l
  | JObject l => ascending l.*1 && forallb (fun field => keys_ascend field.2) l
  | _ => true
  end.

Lemma array_ascends {A} (tree : A -> json) l :
  (forall a, keys_ascend (tree a) = true) -> keys_ascend (JArray (tree <$> l)) = true.
Proof.
  intros H. cbn [keys_ascend]. apply forallb_forall. intros v Hv%list_elem_of_In.
  apply list_elem_of_fmap in Hv as (a & -> & _). apply H.
Qed.

Lemma strings_ascend l : keys_ascend (strings_tree l) = true.
Proof. by apply array_ascends. Qed.

Lemma object_ascends l :
  ascending l.*1 = true -> Forall (fun field => keys_ascend field.2 = true) l ->
  keys_ascend (JObject l) = true.
Proof.
  intros Ha Hl. cbn [keys_ascend]. rewrite Ha. apply forallb_forall.
  intros f Hf%list_elem_of_In. rewrite Forall_forall in Hl. auto.
Qed.

Create HintDb ascends.
#[local] Hint Resolve strings_ascend array_ascends : ascends.

(** The keys of an object are literals; its values are known to ascend. *)
Ltac ascends := intros; apply object_ascends; [reflexivity|];
  repeat first [apply Forall_nil; exact I | apply Forall_cons; split; [cbn [snd]|]]; auto with ascends.

Lemma template_ascends t : keys_ascend (template_tree t) = true. Proof. ascends. Qed.
Lemma repository_ascends r : keys_ascend (repository_tree r) = true. Proof. ascends. Qed.
Lemma model_ascends m : keys_ascend (model_tree m) = true. Proof. ascends. Qed.
Lemma limits_ascends l : keys_ascend (limits_tree l) = true. Proof. ascends. Qed.
Lemma policy_ascends p : keys_ascend (policy_tree p) = true. Proof. ascends. Qed.
Lemma bounds_ascends b : keys_ascend (bounds_tree b) = true. Proof. ascends. Qed.
Lemma read_ascends r : keys_ascend (read_tree r) = true. Proof. ascends. Qed.
Lemma environment_ascends e : keys_ascend (environment_tree e) = true. Proof. ascends. Qed.
Lemma executable_ascends e : keys_ascend (executable_tree e) = true.
Proof. by destruct e as [[] []]. Qed.
Lemma option_ascends {A} (f : A -> json) o :
  (forall a, keys_ascend (f a) = true) -> keys_ascend (option_tree f o) = true.
Proof. by destruct o; simpl; auto. Qed.
#[local] Hint Resolve template_ascends repository_ascends model_ascends limits_ascends policy_ascends
  bounds_ascends read_ascends environment_ascends executable_ascends option_ascends : ascends.

Lemma role_ascends p : keys_ascend (role_tree p) = true. Proof. ascends. Qed.
Lemma ticket_policy_ascends p : keys_ascend (ticket_policy_tree p) = true. Proof. ascends. Qed.
Lemma command_ascends c : keys_ascend (command_tree c) = true. Proof. ascends. Qed.
#[local] Hint Resolve role_ascends ticket_policy_ascends command_ascends : ascends.
Lemma commands_ascend l : keys_ascend (commands_tree l) = true.
Proof. apply array_ascends, command_ascends. Qed.
#[local] Hint Resolve commands_ascend : ascends.
Lemma validation_ascends v : keys_ascend (validation_tree v) = true. Proof. ascends. Qed.
Lemma git_ascends g : keys_ascend (git_tree g) = true. Proof. ascends. Qed.
Lemma commit_message_ascends c : keys_ascend (commit_message_tree c) = true. Proof. ascends. Qed.
#[local] Hint Resolve validation_ascends git_ascends commit_message_ascends : ascends.
Lemma bundle_ascends b : keys_ascend (bundle_tree b) = true. Proof. ascends. Qed.

(** ** Injectivity *)

Lemma fmap_tree_inj {A} (tree : A -> json) `{!Inj (=) (=) tree} (l l' : list A) :
  tree <$> l = tree <$> l' -> l = l'.
Proof. apply (inj (fmap tree)). Qed.

#[export] Instance JString_inj : Inj (=) (=) JString.
Proof. by intros ? ? [=]. Qed.
#[export] Instance JNumber_inj : Inj (=) (=) JNumber.
Proof. by intros ? ? [=]. Qed.
#[export] Instance JBool_inj : Inj (=) (=) JBool.
Proof. by intros ? ? [=]. Qed.

#[export] Instance option_tree_inj {A} (f : A -> json) :
  Inj (=) (=) f -> (forall a, f a <> JNull) -> Inj (=) (=) (option_tree f).
Proof.
  intros Hf Hn [a|] [a'|] E; simpl in E; [by apply (inj f) in E as ->|by apply Hn in E|by symmetry in E; apply Hn in E|done].
Qed.

Lemma object_values l l' : JObject l = JObject l' -> l.*2 = l'.*2.
Proof. by intros [= ->]. Qed.
Lemma array_values l l' : JArray l = JArray l' -> l = l'.
Proof. by intros [= ->]. Qed.
Lemma cons_values {A} (a b : A) l l' : a :: l = b :: l' -> a = b /\ l = l'.
Proof. by intros [= -> ->]. Qed.

#[export] Instance strings_tree_inj : Inj (=) (=) strings_tree.
Proof. intros l l' H%array_values. by apply fmap_tree_inj in H; [|typeclasses eauto]. Qed.

(** Equal objects with the same names have equal values, and trees of values
    determine them. *)
Ltac tree_inj :=
  intros x y H; destruct x, y; apply object_values in H; cbn [fmap list_fmap snd] in H; simpl in H;
  repeat match goal with E : _ :: _ = _ :: _ |- _ =>
    let E' := fresh in apply cons_values in E as [E' E] end;
  repeat match goal with
    | E : JArray _ = JArray _ |- _ => apply array_values in E
    | E : _ <$> _ = _ <$> _ |- _ => apply fmap_tree_inj in E; [|typeclasses eauto]
    | E : option_tree ?f _ = option_tree ?f _ |- _ =>
        apply (option_tree_inj f _ ltac:(done)) in E
    | E : ?f ?a = ?f ?b |- _ => apply (inj f) in E
    end; congruence.

#[export] Instance template_tree_inj : Inj (=) (=) template_tree. Proof. tree_inj. Qed.
#[export] Instance repository_tree_inj : Inj (=) (=) repository_tree. Proof. tree_inj. Qed.
#[export] Instance model_tree_inj : Inj (=) (=) model_tree. Proof. tree_inj. Qed.
#[export] Instance limits_tree_inj : Inj (=) (=) limits_tree. Proof. tree_inj. Qed.
#[export] Instance policy_tree_inj : Inj (=) (=) policy_tree. Proof. tree_inj. Qed.
#[export] Instance bounds_tree_inj : Inj (=) (=) bounds_tree. Proof. tree_inj. Qed.
#[export] Instance read_tree_inj : Inj (=) (=) read_tree. Proof. tree_inj. Qed.
#[export] Instance environment_tree_inj : Inj (=) (=) environment_tree. Proof. tree_inj. Qed.
#[export] Instance executable_tree_inj : Inj (=) (=) executable_tree.
Proof. intros [[] []] [[] []] H; unfold executable_tree in H; simpl in H; by simplify_eq. Qed.
#[export] Instance role_tree_inj : Inj (=) (=) role_tree. Proof. tree_inj. Qed.
#[export] Instance ticket_policy_tree_inj : Inj (=) (=) ticket_policy_tree. Proof. tree_inj. Qed.
#[export] Instance command_tree_inj : Inj (=) (=) command_tree. Proof. tree_inj. Qed.
#[export] Instance commands_tree_inj : Inj (=) (=) commands_tree.
Proof. intros l l' H%array_values. by apply fmap_tree_inj in H; [|typeclasses eauto]. Qed.
#[export] Instance validation_tree_inj : Inj (=) (=) validation_tree. Proof. tree_inj. Qed.
#[export] Instance git_tree_inj : Inj (=) (=) git_tree. Proof. tree_inj. Qed.
#[export] Instance commit_message_tree_inj : Inj (=) (=) commit_message_tree. Proof. tree_inj. Qed.
#[export] Instance bundle_tree_inj : Inj (=) (=) bundle_tree. Proof. tree_inj. Qed.

(** * One bundle, one text *)

(** A parser whose value determines what was parsed. *)
Class Determines {E A B} (f : A -> result E B) : Prop :=
  determined : forall a a' b, f a = Ok b -> f a' = Ok b -> a = a'.

Lemma determined_by {E A B} (f : A -> result E B) (back : B -> A) :
  (forall a b, f a = Ok b -> a = back b) -> Determines f.
Proof. intros H a a' b Ha Ha'. by rewrite (H _ _ Ha), (H _ _ Ha'). Qed.

(** Parsers that return their argument. *)
Lemma safe_relative_same field value root v :
  validate_safe_relative field value root = Ok v -> value = v.
Proof. by intros [-> _]%validate_safe_relative_exact. Qed.

#[export] Instance contract_determines {A B} (f : A -> result ContractError B) :
  Determines f -> Determines (fun a => contract (f a)).
Proof. intros Hf a a' b Ha%map_err_Ok Ha'%map_err_Ok. by eapply Hf. Qed.

#[export] Instance map_ok_determines {E A B} (f : A -> result E B) :
  Determines f -> Determines (map_ok f).
Proof.
  intros Hf l l' bs Hl%map_ok_Forall2 Hl'%map_ok_Forall2. revert l' Hl'.
  induction Hl as [|a b l bs Ha _ IH]; intros l' Hl'; inversion Hl' as [|a' ? l0 ? Ha' Hl0]; subst; [done|].
  f_equal; [by eapply Hf|by apply IH].
Qed.

#[export] Instance transpose_determines {E A B} (f : A -> result E B) :
  Determines f -> Determines (transpose_map f).
Proof.
  intros Hf [a|] [a'|] b Ha Ha'; simpl in *; [|by apply fmap_Ok in Ha as (? & _ & ->)|by apply fmap_Ok in Ha' as (? & _ & ->)|done].
  apply fmap_Ok in Ha as (x & Ha & ->). apply fmap_Ok in Ha' as (x' & Ha' & [= <-]).
  f_equal. by eapply Hf.
Qed.

#[export] Instance application_relative_determines : Determines application_relative_path_parse.
Proof. apply (determined_by _ id). intros a b. apply safe_relative_same. Qed.
#[export] Instance repository_relative_determines : Determines repository_relative_path_parse.
Proof. apply (determined_by _ id). intros a b. apply safe_relative_same. Qed.
#[export] Instance absolute_host_determines : Determines absolute_host_path_parse.
Proof. apply (determined_by _ id). unfold absolute_host_path_parse. intros a b H. by ok_inv H. Qed.
#[export] Instance application_key_determines : Determines application_key_parse.
Proof. apply (determined_by _ id). unfold application_key_parse. intros a b H. by ok_inv H. Qed.
#[export] Instance placeholder_determines : Determines template_placeholder_parse.
Proof. apply (determined_by _ id). unfold template_placeholder_parse. intros a b H. by ok_inv H. Qed.
#[export] Instance digest_determines : Determines content_digest_from_str.
Proof.
  intros s s' d [_ H]%content_digest_from_str_exact [_ H']%content_digest_from_str_exact.
  apply string_bytes_inj. congruence.
Qed.

(** Names of enumerations. *)
#[export] Instance delivery_mode_determines : Determines parse_delivery_mode.
Proof. intros s s' m H H'. unfold parse_delivery_mode in *. ok_inv H. ok_inv H'. bool_prop. congruence. Qed.
#[export] Instance assignment_role_determines : Determines parse_assignment_role.
Proof. intros s s' r H H'. unfold parse_assignment_role in *. ok_inv H; ok_inv H'; bool_prop; congruence. Qed.
#[export] Instance thinking_level_determines : Determines parse_thinking_level.
Proof. intros s s' r H H'. unfold parse_thinking_level in *. ok_inv H; ok_inv H'; bool_prop; congruence. Qed.
#[export] Instance model_capability_determines : Determines parse_model_capability.
Proof. intros s s' r H H'. unfold parse_model_capability in *. ok_inv H. ok_inv H'. bool_prop. congruence. Qed.
#[export] Instance approved_tool_determines : Determines parse_approved_tool.
Proof. intros s s' r H H'. unfold parse_approved_tool in *. ok_inv H; ok_inv H'; bool_prop; congruence. Qed.
#[export] Instance entrypoint_determines : Determines policy_entrypoint_parse.
Proof. intros s s' r H H'. unfold policy_entrypoint_parse in *. ok_inv H. ok_inv H'. bool_prop. congruence. Qed.
#[export] Instance tool_determines : Determines parse_tool.
Proof.
  apply (determined_by _ tool_name). unfold parse_tool, tool_parse. intros s t H%ok_or_Ok.
  apply List.find_some in H as [_ H%bool_decide_eq_true]. done.
Qed.

(** A record whose fields are parsed one by one. *)
Ltac determine into :=
  intros x y b Hx Hy;
  enough (forall b', into y = Ok b' -> b' = b -> x = y) by eauto;
  clear Hy; intros b' Hy E; destruct x, y;
  repeat match goal with
    | l : LimitsWireV2 |- _ => destruct l
    | p : TicketPolicyWireV2 |- _ => destruct p
    | w : TicketBoundsWireV2 |- _ => destruct w
    | m : CommitMessageWireV2 |- _ => destruct m
    end; unfold into in Hx, Hy; simpl in Hx, Hy;
  cbv zeta in Hx, Hy; ok_step Hx; ok_step Hy; subst; injection E; clear E; intros; subst;
  repeat match goal with
    | E : contract (?g ?a) = Ok ?c, E' : contract (?g ?a') = Ok ?c |- _ =>
        pose proof (contract_determines g _ a a' c E E'); clear E'
    | E : ?g ?a = Ok ?c, E' : ?g ?a' = Ok ?c |- _ =>
        pose proof (determined (f := g) a a' c E E'); clear E'
    | E : ?g <$> _ = ?g <$> _ |- _ => apply (inj (fmap g)) in E
    end; subst; try congruence.

#[export] Instance repository_determines : Determines repository_into_domain.
Proof. determine repository_into_domain. Qed.
#[export] Instance template_determines : Determines template_into_domain.
Proof. determine template_into_domain. Qed.
#[export] Instance policy_determines : Determines policy_into_domain.
Proof. determine policy_into_domain. Qed.
#[export] Instance model_determines : Determines model_into_domain.
Proof. determine model_into_domain. Qed.

#[export] Instance environment_into_domain_inj : Inj (=) (=) environment_into_domain.
Proof. intros [] [] [=]. by subst. Qed.
#[export] Instance role_determines : Determines role_into_domain.
Proof. determine role_into_domain. Qed.
#[export] Instance read_determines : Determines read_into_domain.
Proof. determine read_into_domain. Qed.
#[export] Instance executable_determines : Determines executable_into_domain.
Proof.
  intros [t p] [t' p'] b Hx Hy. destruct t, p, t', p'; unfold executable_into_domain in *; simpl in *;
    ok_inv Hx; ok_inv Hy; simplify_eq.
  - f_equal. f_equal. by eapply approved_tool_determines.
  - f_equal. f_equal. by eapply contract_determines; [apply repository_relative_determines|..].
Qed.
#[export] Instance command_determines : Determines command_into_domain.
Proof. determine command_into_domain. Qed.
#[export] Instance validation_determines : Determines validation_into_domain.
Proof. determine validation_into_domain. Qed.
#[export] Instance git_determines : Determines git_into_domain.
Proof. determine git_into_domain. Qed.
#[export] Instance bundle_determines : Determines bundle_into_domain.
Proof. determine bundle_into_domain. Qed.

#[local] Close Scope string_scope.

(** * The text is UTF-8 *)

(** A valid text starts with an ASCII byte or with bytes above it whose validity
    does not depend on what follows. *)
Lemma utf8_cases l : utf8_valid l = true ->
  l = [] \/ exists h l', l = h ++ l' /\ h <> [] /\ utf8_valid l' = true /\
    (forall r, utf8_valid (h ++ r) = utf8_valid r) /\
    ((exists a, h = [a] /\ 0 <= a <= 127) \/ Forall (fun b => 127 < b) h).
Proof.
  assert (Hin : forall low high b, byte_in low high b = true -> low <= b <= high).
  { unfold byte_in. intros. bool_prop. lia. }
  assert (Hc : forall b, continuation b = true -> 127 < b) by (unfold continuation; intros; bool_prop; lia).
  destruct l as [|a l]; [by left|]. cbn [utf8_valid]. intros H. right.
  destruct (byte_in 0 127 a) eqn:Ha.
  { exists [a], l. split_and!; [done..| |]; [|left; eauto]. intros r. simpl. by rewrite Ha. }
  destruct l as [|b l]; [done|]. destruct (byte_in 194 223 a) eqn:Ha2.
  { bool_prop. exists [a; b], l. split_and!; [done..| |]; [intros r; simpl; by rewrite Ha, Ha2, H|right].
    apply Hin in Ha2. repeat constructor; [lia|auto]. }
  destruct l as [|c l]; [done|]. destruct (byte_in 224 239 a) eqn:Ha3.
  { bool_prop. exists [a; b; c], l. split_and!; [done..| |].
    - intros r. simpl. rewrite Ha, Ha2, Ha3. by repeat match goal with E : _ = true |- _ => rewrite E; clear E end.
    - right. apply Hin in Ha3. repeat constructor; [lia| |auto].
      repeat case_match; [apply Hin in H; lia..|auto]. }
  destruct l as [|d l]; [done|]. bool_prop. exists [a; b; c; d], l. split_and!; [done..| |].
  - intros r. simpl. rewrite Ha, Ha2, Ha3. by repeat match goal with E : _ = true |- _ => rewrite E; clear E end.
  - right. repeat match goal with E : byte_in _ _ a = true |- _ => apply Hin in E end.
    repeat constructor; [lia| |auto|auto]. repeat case_match; repeat match goal with E : byte_in _ _ b = true |- _ => apply Hin in E end; [lia..|auto].
Qed.

Lemma utf8_app l l' : utf8_valid l = true -> utf8_valid l' = true -> utf8_valid (l ++ l') = true.
Proof.
  intros Hl Hl'. induction l as [l IH] using (induction_ltof1 _ (@length Z)). unfold ltof in IH.
  destruct (utf8_cases l Hl) as [->|(h & t & -> & Hne & Ht & Hh & _)]; [done|].
  rewrite <- (assoc_L (++)), Hh. apply IH; [|done]. rewrite length_app. destruct h; [done|simpl; lia].
Qed.

Lemma utf8_ascii l : Forall (fun b => 0 <= b <= 127) l -> utf8_valid l = true.
Proof.
  induction 1 as [|b l Hb _ IH]; [done|]. cbn [utf8_valid]. unfold byte_in at 1.
  assert (((0 <=? b) && (b <=? 127)) = true) as -> by (apply andb_true_iff; lia). done.
Qed.

Lemma escape_ascii a : 0 <= a <= 127 -> Forall (fun b => 0 <= b <= 127) (escape_byte a).
Proof.
  intros Ha. unfold escape_byte, hex_escape. repeat case_match; repeat constructor; bool_prop; try lia;
    unfold hex_digit; pose proof (Z.mod_pos_bound a 16); pose proof (Z.div_pos a 16);
    pose proof (Z.div_lt_upper_bound a 16 2); repeat case_match; lia.
Qed.

Lemma quote_utf8 s : utf8_valid (string_bytes s) = true -> utf8_valid (json_quote s) = true.
Proof.
  intros Hs. unfold json_quote. change (34 :: ?l) with ([34] ++ l). apply utf8_app; [done|]. apply utf8_app; [|done].
  induction (string_bytes s) as [l IH] using (induction_ltof1 _ (@length Z)). unfold ltof in IH.
  destruct (utf8_cases l Hs) as [->|(h & t & -> & Hne & Ht & Hh & Hcase)]; [done|].
  rewrite bind_app. destruct Hcase as [(a & -> & Ha)|Hhigh].
  - apply utf8_app; [|apply IH; [simpl; lia|done]].
    rewrite bind_cons, app_nil_r. by apply utf8_ascii, escape_ascii.
  - assert (h ≫= escape_byte = h) as ->.
    { clear - Hhigh. induction Hhigh as [|b h Hb _ IH]; [done|]. rewrite bind_cons, IH. unfold escape_byte.
      repeat match goal with |- context [if b =? ?c then _ else _] => destruct (Z.eqb_spec b c); [lia|] end.
      destruct (Z.ltb_spec b 32); [lia|done]. }
    rewrite Hh. apply IH; [|done]. rewrite length_app. destruct h; [done|simpl; lia].
Qed.

(** The strings of a tree. *)
Fixpoint strings_valid (v : json) : bool :=
  match v with
  | JString s => utf8_valid (string_bytes s)
  | JArray l => forallb strings_valid l
  | JObject l => forallb (fun field => utf8_valid (string_bytes field.1) && strings_valid field.2) l
  | _ => true
  end.

Lemma join_utf8 l : Forall (fun t => utf8_valid t = true) l -> utf8_valid (json_join l) = true.
Proof.
  induction 1 as [|t l Ht Hl IH]; [done|]. destruct l; [done|]. rewrite json_join_cons.
  apply utf8_app; [done|]. change (44 :: ?l) with ([44] ++ l). by apply utf8_app.
Qed.

Lemma text_utf8 v : strings_valid v = true -> utf8_valid (json_text v) = true.
Proof.
  induction v as [| |z|s|l IH|l IH] using json_nested_ind; intros Hv; cbn [json_text].
  - done.
  - by destruct b.
  - destruct (number_text z) as (d & _ & Hd & Hz). apply utf8_ascii.
    assert (Forall (fun b => 0 <= b <= 127) d).
    { apply Forall_forall. intros b Hb%list_elem_of_In. rewrite forallb_forall in Hd.
      apply Hd, is_ascii_digit_range in Hb. lia. }
    destruct Hz as [(_ & -> & _)|(_ & -> & _)]; [done|constructor; [lia|done]].
  - by apply quote_utf8.
  - unfold json_array. change (91 :: ?l) with ([91] ++ l). apply utf8_app; [done|]. apply utf8_app; [|done].
    apply join_utf8. cbn in Hv. rewrite forallb_forall in Hv. apply Forall_fmap, Forall_forall.
    intros v Hin. rewrite Forall_forall in IH. apply IH; [done|]. by apply Hv, list_elem_of_In.
  - unfold json_object. change (123 :: ?l) with ([123] ++ l). apply utf8_app; [done|]. apply utf8_app; [|done].
    apply join_utf8. cbn in Hv. rewrite forallb_forall in Hv. rewrite <- list_fmap_compose.
    apply Forall_fmap, Forall_forall. intros [name v] Hin. rewrite Forall_forall in IH.
    specialize (Hv (name, v) ltac:(by apply list_elem_of_In)). simpl in Hv. bool_prop.
    unfold compose, json_field. cbn [fst snd]. apply utf8_app; [by apply quote_utf8|].
    change (58 :: ?l) with ([58] ++ l). apply utf8_app; [done|]. by apply (IH (name, v)).
Qed.

(** * The canonical JSON *)

(** The canonical text of a bundle is valid UTF-8 JSON with the keys of every
    object in order: reading it gives back the bundle's tree. *)
Theorem canonical_text_reads b t :
  canonical_application_bundle_json_v2 b = Ok t ->
  read_json t = Some (bundle_tree b) /\ keys_ascend (bundle_tree b) = true /\
  (strings_valid (bundle_tree b) = true -> utf8_valid t = true).
Proof.
  intros ->%bundle_text. split_and!; [apply read_json_text|apply bundle_ascends|apply text_utf8].
Qed.

(** The canonical text determines the bundle. *)
Theorem canonical_json_injective b b' t :
  canonical_application_bundle_json_v2 b = Ok t -> canonical_application_bundle_json_v2 b' = Ok t -> b = b'.
Proof. intros ->%bundle_text H%bundle_text. by apply (inj json_text), (inj bundle_tree) in H. Qed.

Section admission.
Context {R : BundleReader} (blake3 : list Z -> ContentDigest).

Lemma parse_bundle_Ok payload b :
  parse_application_bundle_v2 payload = Ok b ->
  exists wire, read_bundle payload = Some wire /\ canonical_application_bundle_json_v2 wire = Ok payload /\
    bundle_into_domain wire = Ok b /\ bundle_validate b = Ok tt.
Proof.
  unfold parse_application_bundle_v2, bundle_json. intros H. ok_inv H. bool_prop. subst.
  match goal with u : () |- _ => destruct u end. eauto 6.
Qed.

(** An admitted bundle of the domain has one text and one digest, and the digest
    identifies the bundle unless the hash collides. *)
Theorem bundle_digest_identifies payload payload' b b' d d' :
  admit_application_bundle_v2 blake3 payload = Ok (b, d) ->
  admit_application_bundle_v2 blake3 payload' = Ok (b', d') ->
  (b = b' <-> payload = payload') /\ (b = b' -> d = d') /\
  (d = d' -> b = b' \/ payload <> payload' /\ blake3 payload = blake3 payload').
Proof.
  unfold admit_application_bundle_v2. intros H H'. ok_inv H. ok_inv H'.
  repeat match goal with E : _ = (_, _) |- _ => injection E as ? ?; subst end.
  assert (Hiff : b = b' <-> payload = payload').
  { split; [|intros ->; congruence]. intros ->.
    repeat match goal with E : parse_application_bundle_v2 _ = Ok _ |- _ =>
      apply parse_bundle_Ok in E as (? & _ & ? & ? & _) end.
    match goal with E : bundle_into_domain ?w = Ok _, E' : bundle_into_domain ?w' = Ok _ |- _ =>
      pose proof (bundle_determines w w' b' E E') as -> end. congruence. }
  split_and!; [done|by intros ->%Hiff|].
  intros E. destruct (decide (payload = payload')); [left; tauto|by right].
Qed.
End admission.

(** ** Commands *)

(** The integers of a DTO fit their types. *)
Definition fits (high z : Z) : bool := (0 <=? z) && (z <=? high).
Definition u16_max : Z := 2 ^ 16 - 1.

Definition sized_command (c : CommandWireV2) : bool :=
  fits u64_max (cw_timeout_millis c) && fits u32_max (cw_stdout_byte_limit c)
  && fits u32_max (cw_stderr_byte_limit c)
  && ((- 2 ^ 31 <=? cw_expected_exit_status c) && (cw_expected_exit_status c <=? 2 ^ 31 - 1)).

Definition sized_template (t : TemplateWireV2) : bool := fits u32_max (tw_rendered_byte_limit t).

Definition sized_model (m : ModelWireV2) : bool :=
  fits u32_max (mw_context_token_limit m) && fits u32_max (mw_output_token_limit m)
  && fits u64_max (mw_price_input m) && fits u64_max (mw_price_output m)
  && fits u64_max (mw_price_cache_read m) && fits u64_max (mw_price_cache_write m).

Definition sized_role (p : AssignmentRoleWireV2) : bool :=
  sized_template (aw_system_template p) && sized_template (aw_assignment_template p)
  && fits u32_max (pw_byte_limit (aw_policy p)) && sized_model (aw_model p)
  && fits u64_max (lw_wall_limit_millis (aw_limits p)) && fits u32_max (lw_output_byte_limit (aw_limits p)).

Definition sized_ticket_policy (p : TicketPolicyWireV2) : bool :=
  fits u16_max (tpw_low_water p) && fits u16_max (tpw_target p)
  && match tpw_maximum p with Some m => fits u16_max m | None => true end
  && fits u16_max (tpw_proposal_maximum p) && fits u32_max (bw_narrative_byte_limit (tpw_ticket_bounds p))
  && fits u16_max (bw_acceptance_criteria_limit (tpw_ticket_bounds p))
  && fits u16_max (bw_contract_read_limit (tpw_ticket_bounds p)).

Definition sized_bundle (b : ApplicationBundleWireV2) : bool :=
  fits u16_max (abw_format_version b) && sized_template (abw_mission_template b)
  && forallb sized_role (abw_assignment_role_profiles b) && sized_ticket_policy (abw_ticket_policy b)
  && forallb sized_command (abw_reproducer_profiles b)
  && forallb sized_command (vw_focused (abw_validation_profiles b))
  && forallb sized_command (vw_full (abw_validation_profiles b))
  && fits u16_max (cmw_subject_byte_limit (abw_commit_message_policy b))
  && fits u16_max (cmw_body_byte_limit (abw_commit_message_policy b)).

(** What the wire layer relies on of miniserde: a canonical text reads back as
    what it was written from, and a value whose keys are in order is written
    back as it was. *)
Class LawfulReader (R : BundleReader) : Prop := {
  reads_bundle : forall b t, sized_bundle b = true -> canonical_application_bundle_json_v2 b = Ok t ->
    read_bundle t = Some b;
  reads_command : forall c t, sized_command c = true -> canonical_command c = Ok t -> read_command t = Some c;
  rewrites_ordered : forall v, keys_ascend v = true -> rewrite_value (json_text v) = Some (json_text v);
}.

Definition command_wire (p : CommandProfileV2) : CommandWireV2 := {|
  cw_name := cp_name p;
  cw_executable := match cp_executable p with
    | ApprovedTool Cargo => {| ew_approved_tool := Some "cargo"%string; ew_repository_path := None |}
    | ApprovedTool Git => {| ew_approved_tool := Some "git"%string; ew_repository_path := None |}
    | RepositoryPath path => {| ew_approved_tool := None; ew_repository_path := Some path |}
    end;
  cw_argv := cp_argv p; cw_working_directory := cp_working_directory p;
  cw_environment := (fun e => {| evw_name := env_name e; evw_value := env_value e |}) <$> cp_environment p;
  cw_timeout_millis := cp_timeout p; cw_stdout_byte_limit := cp_stdout_byte_limit p;
  cw_stderr_byte_limit := cp_stderr_byte_limit p; cw_expected_exit_status := cp_expected_exit_status p |}.

Definition repository_path (path : string) : Prop := repository_relative_path_parse path = Ok path.

(** The paths of a command are repository paths, its texts UTF-8 and its integers
    within their types, as its Rust types demand. *)
Definition command_typed (p : CommandProfileV2) : Prop :=
  repository_path (cp_working_directory p) /\
  match cp_executable p with RepositoryPath path => repository_path path | _ => True end /\
  strings_valid (command_tree (command_wire p)) = true /\ sized_command (command_wire p) = true.

Lemma command_wire_text p :
  canonical_command (command_wire p) = Ok (canonical_command_profile_json_from_domain_v2 p).
Proof.
  unfold canonical_command, canonical_command_profile_json_from_domain_v2, canonical_executable. cbn.
  rewrite <- list_fmap_compose. by destruct (cp_executable p) as [[]|].
Qed.

Lemma command_wire_domain p :
  repository_path (cp_working_directory p) ->
  match cp_executable p with RepositoryPath path => repository_path path | _ => True end ->
  command_into_domain (command_wire p) = Ok p.
Proof.
  unfold repository_path. intros Hdir Hexe. destruct p as [name exe argv dir env t o e x]. simpl in *.
  unfold command_into_domain. cbn [cw_executable command_wire cp_executable].
  assert (executable_into_domain (cw_executable (command_wire {| cp_name := name; cp_executable := exe;
    cp_argv := argv; cp_working_directory := dir; cp_environment := env; cp_timeout := t;
    cp_stdout_byte_limit := o; cp_stderr_byte_limit := e; cp_expected_exit_status := x |})) = Ok exe) as Hx.
  { destruct exe as [[]|path]; cbn; [done..|]. unfold contract. by rewrite Hexe. }
  cbn in Hx. rewrite Hx. cbn. unfold contract. rewrite Hdir. cbn. rewrite <- list_fmap_compose. do 2 f_equal.
  induction env as [|[] env IH]; [done|]. rewrite fmap_cons, IH. done.
Qed.

(** ** Bundles *)

Definition mode_name (m : DeliveryModeV2) : string := "local_fast_forward_only".
Definition role_name (r : AssignmentRole) : string :=
  match r with ProductResearch => "product_research" | Engineering => "engineering" | Quality => "quality" end.
Definition level_name (l : ThinkingLevelV2) : string :=
  match l with
  | ThinkingNone => "none" | ThinkingLow => "low" | ThinkingMedium => "medium"
  | ThinkingHigh => "high" | ThinkingXHigh => "xhigh"
  end.

Definition template_wire (t : TemplateArtifactV2) : TemplateWireV2 := {|
  tw_source_path := ta_source_path t; tw_digest := to_hex (ta_digest t);
  tw_placeholders := ta_placeholders t; tw_rendered_byte_limit := ta_rendered_byte_limit t |}.

Definition role_wire (p : AssignmentRoleProfileV2) : AssignmentRoleWireV2 := {|
  aw_assignment_role := role_name (rp_assignment_role p);
  aw_system_template := template_wire (rp_system_template p);
  aw_assignment_template := template_wire (rp_assignment_template p);
  aw_policy := {| pw_source_path := ap_source_path (rp_policy p);
    pw_digest := to_hex (ap_digest (rp_policy p)); pw_byte_limit := ap_byte_limit (rp_policy p);
    pw_entrypoint := "factory_policy" |};
  aw_tools := tool_name <$> rp_tools p;
  aw_model := let m := rp_model p in {|
    mw_provider := mp_provider m; mw_model_id := mp_model_id m;
    mw_thinking_level := level_name (mp_thinking_level m);
    mw_context_token_limit := mp_context_token_limit m; mw_output_token_limit := mp_output_token_limit m;
    mw_price_input := mp_price_input m; mw_price_output := mp_price_output m;
    mw_price_cache_read := mp_price_cache_read m; mw_price_cache_write := mp_price_cache_write m;
    mw_capability_flags := (fun _ => "reasoning"%string) <$> mp_capability_flags m |};
  aw_limits := {| lw_wall_limit_millis := sl_wall_limit (rp_limits p);
                  lw_output_byte_limit := sl_output_byte_limit (rp_limits p) |} |}.

Definition bundle_wire (b : ApplicationBundleV2) : ApplicationBundleWireV2 := {|
  abw_format_version := ab_format_version b; abw_application_key := ab_application_key b;
  abw_predecessor_bundle := to_hex <$> ab_predecessor_bundle b;
  abw_repository := let r := ab_repository b in {|
    rw_repository_key := rb_repository_key r; rw_canonical_local_path := rb_canonical_local_path r;
    rw_default_branch := rb_default_branch r; rw_delivery_mode := mode_name (rb_delivery_mode r) |};
  abw_mission_template := template_wire (ab_mission_template b);
  abw_assignment_role_profiles := role_wire <$> ab_assignment_role_profiles b;
  abw_ticket_policy := let p := ab_ticket_policy b in {|
    tpw_low_water := tp_low_water p; tpw_target := tp_target p; tpw_maximum := tp_maximum p;
    tpw_proposal_maximum := tp_proposal_maximum p;
    tpw_ticket_bounds := {|
      bw_narrative_byte_limit := narrative_byte_limit (tp_ticket_bounds p);
      bw_acceptance_criteria_limit := acceptance_criteria_limit (tp_ticket_bounds p);
      bw_contract_read_limit := contract_read_limit (tp_ticket_bounds p) |} |};
  abw_required_reads := (fun r => {| rrw_path := req_path r; rrw_reason := req_reason r |}) <$> ab_required_reads b;
  abw_reproducer_profiles := command_wire <$> ab_reproducer_profiles b;
  abw_validation_profiles := {| vw_focused := command_wire <$> vp_focused (ab_validation_profiles b);
                                vw_full := command_wire <$> vp_full (ab_validation_profiles b) |};
  abw_git_policy := let g := ab_git_policy b in {|
    gw_forbidden_paths := gp_forbidden_paths g; gw_delivery_mode := mode_name (gp_delivery_mode g);
    gw_provenance_trailers_required := gp_provenance_trailers_required g |};
  abw_commit_message_policy := {|
    cmw_subject_byte_limit := cm_subject_byte_limit (ab_commit_message_policy b);
    cmw_body_byte_limit := cm_body_byte_limit (ab_commit_message_policy b) |} |}.

(** What the Rust types of a bundle guarantee. *)
Definition template_typed (t : TemplateArtifactV2) : Prop :=
  application_relative_path_parse (ta_source_path t) = Ok (ta_source_path t) /\ digest_wf (ta_digest t) /\
  Forall (fun p => template_placeholder_parse p = Ok p) (ta_placeholders t).

Definition role_typed (p : AssignmentRoleProfileV2) : Prop :=
  template_typed (rp_system_template p) /\ template_typed (rp_assignment_template p) /\
  application_relative_path_parse (ap_source_path (rp_policy p)) = Ok (ap_source_path (rp_policy p)) /\
  digest_wf (ap_digest (rp_policy p)).

Definition command_paths (c : CommandProfileV2) : Prop :=
  repository_path (cp_working_directory c) /\
  match cp_executable c with RepositoryPath path => repository_path path | _ => True end.

Record bundle_typed (b : ApplicationBundleV2) : Prop := {
  typed_key : application_key_parse (ab_application_key b) = Ok (ab_application_key b);
  typed_predecessor : match ab_predecessor_bundle b with Some d => digest_wf d | None => True end;
  typed_repository : absolute_host_path_parse (rb_canonical_local_path (ab_repository b))
    = Ok (rb_canonical_local_path (ab_repository b));
  typed_mission : template_typed (ab_mission_template b);
  typed_roles : Forall role_typed (ab_assignment_role_profiles b);
  typed_reads : Forall (fun r => repository_path (req_path r)) (ab_required_reads b);
  typed_reproducers : Forall command_paths (ab_reproducer_profiles b);
  typed_focused : Forall command_paths (vp_focused (ab_validation_profiles b));
  typed_full : Forall command_paths (vp_full (ab_validation_profiles b));
  typed_forbidden : Forall repository_path (gp_forbidden_paths (ab_git_policy b));
  typed_sizes : sized_bundle (bundle_wire b) = true;
  typed_strings : strings_valid (bundle_tree (bundle_wire b)) = true;
}.

Lemma map_ok_back {E A B} (f : A -> result E B) (back : B -> A) l :
  Forall (fun b => f (back b) = Ok b) l -> map_ok f (back <$> l) = Ok l.
Proof. induction 1 as [|b l Hb _ IH]; [done|]. rewrite fmap_cons. cbn [map_ok]. by rewrite Hb, IH. Qed.

Lemma map_ok_self {E A} (f : A -> result E A) l : Forall (fun a => f a = Ok a) l -> map_ok f l = Ok l.
Proof. intros H. rewrite <- (list_fmap_id l) at 1. by apply map_ok_back. Qed.

#[local] Arguments content_digest_from_str : simpl never.
#[local] Arguments to_hex : simpl never.
#[local] Arguments application_relative_path_parse : simpl never.
#[local] Arguments repository_relative_path_parse : simpl never.
#[local] Arguments absolute_host_path_parse : simpl never.
#[local] Arguments template_placeholder_parse : simpl never.

Lemma template_back t : template_typed t -> template_into_domain (template_wire t) = Ok t.
Proof.
  intros (Hp & Hd & Hl). destruct t as [path d l n]. unfold template_into_domain. cbn in *.
  unfold contract. rewrite Hp. cbn. rewrite digest_back by done. cbn.
  rewrite map_ok_self; [done|]. eapply Forall_impl; [exact Hl|]. by intros p ->.
Qed.

Lemma tool_back t : parse_tool (tool_name t) = Ok t.
Proof. by destruct t. Qed.

Lemma role_back p : role_typed p -> role_into_domain (role_wire p) = Ok p.
Proof.
  intros (Hs & Ha & Hpath & Hd). destruct p as [role s a [path d n []] tools m [w o]]. cbn in Hs, Ha, Hpath, Hd.
  unfold role_into_domain. cbn [role_wire aw_assignment_role aw_system_template aw_assignment_template
    aw_policy aw_tools aw_model aw_limits rp_assignment_role rp_system_template rp_assignment_template
    rp_policy rp_tools rp_model rp_limits].
  assert (parse_assignment_role (role_name role) = Ok role) as -> by by destruct role.
  cbn [mbind result_bind]. rewrite !template_back by done. cbn [mbind result_bind].
  unfold policy_into_domain, contract. cbn. rewrite Hpath. cbn. rewrite digest_back by done. cbn.
  rewrite (map_ok_back parse_tool) by (apply Forall_true, tool_back). cbn.
  unfold model_into_domain. cbn. destruct m as [? ? level ? ? ? ? ? ? flags]. cbn.
  assert (parse_thinking_level (level_name level) = Ok level) as -> by by destruct level.
  cbn. rewrite (map_ok_back parse_model_capability) by (apply Forall_true; by intros []). done.
Qed.

Lemma contract_Ok {A} (r : result ContractError A) a : r = Ok a -> contract r = Ok a.
Proof. by intros ->. Qed.

Lemma command_back c : command_paths c -> command_into_domain (command_wire c) = Ok c.
Proof. intros [Hd Hx]. by apply command_wire_domain. Qed.

Lemma bundle_back b : bundle_typed b -> bundle_into_domain (bundle_wire b) = Ok b.
Proof.
  intros []. unfold bundle_into_domain. cbn [bundle_wire abw_application_key abw_predecessor_bundle abw_repository
    abw_mission_template abw_assignment_role_profiles abw_required_reads abw_reproducer_profiles
    abw_validation_profiles abw_git_policy abw_format_version abw_ticket_policy abw_commit_message_policy].
  rewrite (contract_Ok _ _ typed_key0). cbn [mbind result_bind].
  assert (transpose_map (fun d => contract (content_digest_from_str d)) (to_hex <$> ab_predecessor_bundle b)
    = Ok (ab_predecessor_bundle b)) as ->.
  { destruct (ab_predecessor_bundle b); [|done]. cbn. by rewrite digest_back. }
  cbn [mbind result_bind]. unfold repository_into_domain. cbn [rw_canonical_local_path].
  rewrite (contract_Ok _ _ typed_repository0). cbn.
  assert (Hc : forall l, Forall command_paths l -> map_ok command_into_domain (command_wire <$> l) = Ok l).
  { intros l Hl. apply map_ok_back. eapply Forall_impl; [exact Hl|]. intros c Hp. by apply command_back. }
  rewrite template_back by done. cbn [mbind result_bind].
  assert (Hroles : map_ok role_into_domain (role_wire <$> ab_assignment_role_profiles b)
    = Ok (ab_assignment_role_profiles b)).
  { apply map_ok_back. eapply Forall_impl; [exact typed_roles0|]. intros p Hp. by apply role_back. }
  rewrite Hroles. clear Hroles.
  cbn [mbind result_bind]. rewrite (map_ok_back read_into_domain).
  2: { eapply Forall_impl; [exact typed_reads0|]. intros [path reason] Hr. clear - Hr. unfold read_into_domain. cbn in *.
       by rewrite (contract_Ok _ _ Hr). }
  cbn [mbind result_bind]. rewrite (Hc _ typed_reproducers0).
  unfold validation_into_domain. cbn [mbind result_bind vw_focused vw_full].
  rewrite (Hc _ typed_focused0). cbn [mbind result_bind]. rewrite (Hc _ typed_full0).
  cbn [mbind result_bind]. unfold git_into_domain. cbn [gw_forbidden_paths gw_delivery_mode].
  rewrite map_ok_self.
  2: { eapply Forall_impl; [exact typed_forbidden0|]. intros path Hr. by apply contract_Ok. }
  clear. cbn. destruct b as [? ? ? [? ? ? []] ? ? [? ? ? ? []] ? ? [] [? [] ?] []]. done.
Qed.

Lemma text_last fields : last (json_object fields) = Some 125.
Proof. unfold json_object. by rewrite app_comm_cons, last_snoc. Qed.

Section commands.
Context {R : BundleReader} {L : LawfulReader R}.

(** The bytes Product seals for a command, with or without a line feed behind
    them, are read back as the command. *)
Theorem command_profile_round_trip p :
  command_typed p ->
  let bytes := canonical_command_profile_json_from_domain_v2 p in
  parse_command_profile_v2 bytes = Ok p /\ parse_command_profile_v2 (bytes ++ [10]) = Ok p.
Proof.
  intros (Hdir & Hexe & Hs & Hsized) bytes.
  pose proof (command_wire_text p) as Ht. fold bytes in Ht.
  assert (Hu : utf8_valid bytes = true) by (rewrite (command_text _ _ Ht); by apply text_utf8).
  assert (H : forall payload, utf8_valid payload = true -> strip_line_feed payload = bytes ->
    parse_command_profile_v2 payload = Ok p).
  { intros payload Hp Hstrip. unfold parse_command_profile_v2. rewrite Hp, Hstrip.
    cbn [require mbind result_bind]. rewrite (reads_command _ _ Hsized Ht).
    cbn [ok_or mbind result_bind]. rewrite Ht. cbn [mbind result_bind]. rewrite bool_decide_true by done.
    cbn. by rewrite command_wire_domain. }
  split; apply H.
  - done.
  - unfold strip_line_feed. rewrite bool_decide_false; [done|].
    assert (last bytes = Some 125) as -> by apply text_last. done.
  - by apply utf8_app.
  - unfold strip_line_feed. by rewrite last_snoc, bool_decide_true, removelast_last.
Qed.

Lemma commands_wire l : exists t, canonical_commands (command_wire <$> l) = Ok t.
Proof.
  unfold canonical_commands. enough (exists ts, map_ok canonical_command (command_wire <$> l) = Ok ts) as [ts ->] by (by eexists).
  induction l as [|c l [ts IH]]; [by exists []|]. rewrite fmap_cons. cbn [map_ok].
  rewrite command_wire_text, IH. by eexists.
Qed.

Lemma flags_wire p seen :
  role_profile_validate p = Ok seen -> validate_capability_flags (role_wire p) = Ok tt.
Proof.
  unfold role_profile_validate. intros H. ok_inv H.
  match goal with E : model_validate _ = Ok _ |- _ => unfold model_validate in E; ok_inv E end.
  match goal with E : for_each_seen _ _ _ _ [] (mp_capability_flags _) = Ok _ |- _ => rename E into Hf end.
  unfold validate_capability_flags. cbn [role_wire aw_model mw_capability_flags].
  destruct (mp_capability_flags (rp_model p)) as [|[] [|[] l]]; [done|done|].
  cbn in Hf. discriminate Hf.
Qed.

Lemma bundle_wire_text b :
  bundle_validate b = Ok tt -> exists t, canonical_application_bundle_json_v2 (bundle_wire b) = Ok t.
Proof.
  intros Hb. unfold canonical_application_bundle_json_v2, canonical_validation.
  cbn [bundle_wire abw_assignment_role_profiles abw_reproducer_profiles abw_validation_profiles vw_focused vw_full].
  destruct (commands_wire (ab_reproducer_profiles b)) as [r Hr].
  destruct (commands_wire (vp_focused (ab_validation_profiles b))) as [f Hf].
  destruct (commands_wire (vp_full (ab_validation_profiles b))) as [g Hg].
  assert (Hflags : for_each validate_capability_flags (role_wire <$> ab_assignment_role_profiles b) = Ok tt).
  { apply for_each_Ok, Forall_fmap. unfold bundle_validate in Hb. ok_inv Hb.
    match goal with E : for_each_seen rp_assignment_role _ _ _ _ _ = Ok _ |- _ =>
      apply for_each_seen_Ok in E as [E _]; eapply Forall_impl; [exact E|] end.
    intros p [Hp _]. by eapply flags_wire. }
  rewrite Hflags. cbn [mbind result_bind]. rewrite Hr. cbn [mbind result_bind]. rewrite Hf. cbn [mbind result_bind].
  rewrite Hg. by eexists.
Qed.

(** Every valid bundle of the domain has a text that is admitted as that bundle. *)
Theorem every_bundle_has_a_text blake3 b :
  bundle_typed b -> bundle_validate b = Ok tt ->
  exists text, canonical_application_bundle_json_v2 (bundle_wire b) = Ok text /\
    admit_application_bundle_v2 blake3 text = Ok (b, blake3 text).
Proof.
  intros Ht Hb. destruct (bundle_wire_text b Hb) as [text Hc]. exists text. split; [done|].
  pose proof (bundle_back b Ht) as Hd. destruct Ht as [_ _ _ _ _ _ _ _ _ _ Hsize Hs].
  assert (Hu : utf8_valid text = true) by (rewrite (bundle_text _ _ Hc); by apply text_utf8).
  unfold admit_application_bundle_v2, parse_application_bundle_v2. rewrite Hu. cbn [require mbind result_bind].
  rewrite (reads_bundle _ _ Hsize Hc). unfold bundle_json. cbn [ok_or mbind result_bind]. rewrite Hc.
  cbn [mbind result_bind]. rewrite bool_decide_true by done. cbn [require mbind result_bind].
  rewrite Hd. cbn [map_err mbind result_bind]. by rewrite Hb.
Qed.

(** Admitting the canonical text of an admitted source changes nothing. *)
Theorem source_admission_idempotent blake3 payload b d canonical :
  admit_application_bundle_source_v2 blake3 payload = Ok (b, d, canonical) ->
  admit_application_bundle_source_v2 blake3 canonical = Ok (b, d, canonical) /\
  admit_application_bundle_v2 blake3 canonical = Ok (b, d).
Proof.
  unfold admit_application_bundle_source_v2. intros H. ok_inv H.
  match goal with E : parse_application_bundle_v2 _ = Ok _ |- _ => rename E into Hp end.
  pose proof Hp as (wire & Hr & Hc & _)%parse_bundle_Ok. pose proof Hc as Htext%bundle_text.
  assert (Hu : utf8_valid canonical = true).
  { clear - Hp. unfold parse_application_bundle_v2 in Hp. by ok_inv Hp. }
  assert (Hw : rewrite_value canonical = Some canonical).
  { rewrite Htext. apply rewrites_ordered, bundle_ascends. }
  unfold admit_application_bundle_v2. rewrite Hp. split; [|done].
  rewrite Hu, Hr. unfold bundle_json. cbn [require ok_or mbind result_bind]. rewrite Hc.
  cbn [mbind result_bind]. rewrite Hw. cbn [ok_or mbind result_bind].
  rewrite bool_decide_true by done. cbn [require mbind result_bind]. by rewrite Hp.
Qed.
End commands.
