(* ===== verification/WireReader.v ===== *)
(** A reader of the bundle's JSON to run the wire layer with, in the place of
    miniserde: fields are found by name, unknown ones are ignored, an absent
    optional field is [None], integers must fit their type. *)
From S2P Require Import Prelude Values Contracts Application Json WireBundle Canonical.

(** * Fields *)

Definition member (name : string) (v : json) : option json :=
  match v with
  | JObject l => snd <$> List.find (fun field : string * json => String.eqb field.1 name) (rev l)
  | _ => None
  end.

Definition field {A} (name : string) (read : json -> option A) (v : json) : option A :=
  member name v ≫= read.

Definition optional {A} (name : string) (read : json -> option A) (v : json) : option (option A) :=
  match member name v with
  | None | Some JNull => Some None
  | Some v => Some <$> read v
  end.

Definition as_text (v : json) : option string := match v with JString s => Some s | _ => None end.
Definition as_bool (v : json) : option bool := match v with JBool b => Some b | _ => None end.
Definition as_integer (low high : Z) (v : json) : option Z :=
  match v with
  | JNumber z => if (low <=? z) && (z <=? high) then Some z else None
  | _ => None
  end.
Definition as_u16 := as_integer 0 u16_max.
Definition as_u32 := as_integer 0 u32_max.
Definition as_u64 := as_integer 0 u64_max.
Definition as_i32 := as_integer (- 2 ^ 31) (2 ^ 31 - 1).
Definition as_list {A} (read : json -> option A) (v : json) : option (list A) :=
  match v with JArray l => mapM read l | _ => None end.
Definition as_texts := as_list as_text.

(** * The DTOs *)

#[local] Open Scope string_scope.

Definition as_repository (v : json) : option RepositoryWireV2 :=
  key ← field "repository_key" as_text v; path ← field "canonical_local_path" as_text v;
  branch ← field "default_branch" as_text v; mode ← field "delivery_mode" as_text v;
  Some {| rw_repository_key := key; rw_canonical_local_path := path; rw_default_branch := branch;
          rw_delivery_mode := mode |}.

Definition as_template (v : json) : option TemplateWireV2 :=
  path ← field "source_path" as_text v; digest ← field "digest" as_text v;
  placeholders ← field "placeholders" as_texts v; limit ← field "rendered_byte_limit" as_u32 v;
  Some {| tw_source_path := path; tw_digest := digest; tw_placeholders := placeholders;
          tw_rendered_byte_limit := limit |}.

Definition as_policy (v : json) : option PolicyWireV2 :=
  path ← field "source_path" as_text v; digest ← field "digest" as_text v;
  limit ← field "byte_limit" as_u32 v; entrypoint ← field "entrypoint" as_text v;
  Some {| pw_source_path := path; pw_digest := digest; pw_byte_limit := limit; pw_entrypoint := entrypoint |}.

Definition as_model (v : json) : option ModelWireV2 :=
  provider ← field "provider" as_text v; id ← field "model_id" as_text v;
  level ← field "thinking_level" as_text v; context ← field "context_token_limit" as_u32 v;
  output ← field "output_token_limit" as_u32 v;
  input ← field "price_input_micro_usd_per_million_tokens" as_u64 v;
  out ← field "price_output_micro_usd_per_million_tokens" as_u64 v;
  cache_read ← field "price_cache_read_micro_usd_per_million_tokens" as_u64 v;
  cache_write ← field "price_cache_write_micro_usd_per_million_tokens" as_u64 v;
  flags ← field "capability_flags" as_texts v;
  Some {| mw_provider := provider; mw_model_id := id; mw_thinking_level := level;
          mw_context_token_limit := context; mw_output_token_limit := output;
          mw_price_input := input; mw_price_output := out; mw_price_cache_read := cache_read;
          mw_price_cache_write := cache_write; mw_capability_flags := flags |}.

Definition as_limits (v : json) : option LimitsWireV2 :=
  wall ← field "wall_limit_millis" as_u64 v; output ← field "output_byte_limit" as_u32 v;
  Some {| lw_wall_limit_millis := wall; lw_output_byte_limit := output |}.

Definition as_role (v : json) : option AssignmentRoleWireV2 :=
  role ← field "assignment_role" as_text v; system ← field "system_template" as_template v;
  assignment ← field "assignment_template" as_template v; policy ← field "policy" as_policy v;
  tools ← field "tools" as_texts v; model ← field "model" as_model v; limits ← field "limits" as_limits v;
  Some {| aw_assignment_role := role; aw_system_template := system; aw_assignment_template := assignment;
          aw_policy := policy; aw_tools := tools; aw_model := model; aw_limits := limits |}.

Definition as_bounds (v : json) : option TicketBoundsWireV2 :=
  narrative ← field "narrative_byte_limit" as_u32 v;
  criteria ← field "acceptance_criteria_limit" as_u16 v; reads ← field "contract_read_limit" as_u16 v;
  Some {| bw_narrative_byte_limit := narrative; bw_acceptance_criteria_limit := criteria;
          bw_contract_read_limit := reads |}.

Definition as_ticket_policy (v : json) : option TicketPolicyWireV2 :=
  low ← field "low_water" as_u16 v; target ← field "target" as_u16 v;
  maximum ← optional "maximum" as_u16 v; proposals ← field "proposal_maximum" as_u16 v;
  bounds ← field "ticket_bounds" as_bounds v;
  Some {| tpw_low_water := low; tpw_target := target; tpw_maximum := maximum;
          tpw_proposal_maximum := proposals; tpw_ticket_bounds := bounds |}.

Definition as_read (v : json) : option RequiredReadWireV2 :=
  path ← field "path" as_text v; reason ← field "reason" as_text v;
  Some {| rrw_path := path; rrw_reason := reason |}.

Definition as_executable (v : json) : option ExecutableWireV2 :=
  tool ← optional "approved_tool" as_text v; path ← optional "repository_path" as_text v;
  Some {| ew_approved_tool := tool; ew_repository_path := path |}.

Definition as_environment (v : json) : option EnvironmentWireV2 :=
  name ← field "name" as_text v; value ← field "value" as_text v;
  Some {| evw_name := name; evw_value := value |}.

Definition as_command (v : json) : option CommandWireV2 :=
  name ← field "name" as_text v; executable ← field "executable" as_executable v;
  argv ← field "argv" as_texts v; directory ← field "working_directory" as_text v;
  environment ← field "environment" (as_list as_environment) v;
  timeout ← field "timeout_millis" as_u64 v; out ← field "stdout_byte_limit" as_u32 v;
  err ← field "stderr_byte_limit" as_u32 v; status ← field "expected_exit_status" as_i32 v;
  Some {| cw_name := name; cw_executable := executable; cw_argv := argv;
          cw_working_directory := directory; cw_environment := environment;
          cw_timeout_millis := timeout; cw_stdout_byte_limit := out; cw_stderr_byte_limit := err;
          cw_expected_exit_status := status |}.

Definition as_commands := as_list as_command.

Definition as_validation (v : json) : option ValidationWireV2 :=
  focused ← field "focused" as_commands v; full ← field "full" as_commands v;
  Some {| vw_focused := focused; vw_full := full |}.

Definition as_git (v : json) : option GitWireV2 :=
  paths ← field "forbidden_paths" as_texts v; mode ← field "delivery_mode" as_text v;
  trailers ← field "provenance_trailers_required" as_bool v;
  Some {| gw_forbidden_paths := paths; gw_delivery_mode := mode;
          gw_provenance_trailers_required := trailers |}.

Definition as_commit_message (v : json) : option CommitMessageWireV2 :=
  subject ← field "subject_byte_limit" as_u16 v; body ← field "body_byte_limit" as_u16 v;
  Some {| cmw_subject_byte_limit := subject; cmw_body_byte_limit := body |}.

Definition as_bundle (v : json) : option ApplicationBundleWireV2 :=
  version ← field "format_version" as_u16 v; key ← field "application_key" as_text v;
  predecessor ← optional "predecessor_bundle" as_text v;
  repository ← field "repository" as_repository v; mission ← field "mission_template" as_template v;
  profiles ← field "assignment_role_profiles" (as_list as_role) v;
  policy ← field "ticket_policy" as_ticket_policy v; reads ← field "required_reads" (as_list as_read) v;
  reproducers ← field "reproducer_profiles" as_commands v;
  validation ← field "validation_profiles" as_validation v; git ← field "git_policy" as_git v;
  message ← field "commit_message_policy" as_commit_message v;
  Some {| abw_format_version := version; abw_application_key := key;
          abw_predecessor_bundle := predecessor; abw_repository := repository;
          abw_mission_template := mission; abw_assignment_role_profiles := profiles;
          abw_ticket_policy := policy; abw_required_reads := reads;
          abw_reproducer_profiles := reproducers; abw_validation_profiles := validation;
          abw_git_policy := git; abw_commit_message_policy := message |}.

#[local] Close Scope string_scope.

(** * Values in key order *)

Fixpoint put (f : string * json) (l : list (string * json)) : list (string * json) :=
  match l with
  | [] => [f]
  | g :: l =>
      if lex_lt (string_bytes g.1) (string_bytes f.1) then g :: put f l
      else if bool_decide (g.1 = f.1) then f :: l
      else f :: g :: l
  end.

Fixpoint in_order (v : json) : json :=
  match v with
  | JArray l => JArray (in_order <$> l)
  | JObject l =>
      JObject (foldl (fun m f => put f m) [] ((fun f : string * json => (f.1, in_order f.2)) <$> l))
  | v => v
  end.

#[export] Instance reference_reader : BundleReader := {|
  read_bundle text := read_json text ≫= as_bundle;
  read_command text := read_json text ≫= as_command;
  rewrite_value text := json_text ∘ in_order <$> read_json text;
|}.

(** * It is a lawful reader *)

Lemma mapM_trees {A} (tree : A -> json) (read : json -> option A) l :
  (forall a, read (tree a) = Some a) -> as_list read (JArray (tree <$> l)) = Some l.
Proof.
  intros H. cbn. induction l as [|a l IH]; [done|]. rewrite fmap_cons. cbn [mapM]. rewrite H. cbn.
  by rewrite IH.
Qed.

Lemma texts_read l : as_texts (strings_tree l) = Some l.
Proof. by apply (mapM_trees JString as_text). Qed.

Lemma integer_read high z : fits high z = true -> as_integer 0 high (JNumber z) = Some z.
Proof. unfold fits. intros Hz. cbn. by rewrite Hz. Qed.

Lemma list_read {A} (tree : A -> json) (read : json -> option A) (sized : A -> bool) l :
  (forall a, sized a = true -> read (tree a) = Some a) -> forallb sized l = true ->
  as_list read (JArray (tree <$> l)) = Some l.
Proof.
  intros H Hl. cbn. induction l as [|a l IH]; [done|]. cbn [forallb] in Hl. apply andb_true_iff in Hl as [Ha Hl].
  rewrite fmap_cons. cbn [mapM]. rewrite (H a Ha). cbn. by rewrite IH.
Qed.

(** The fields of an object whose names are literals, read one by one. *)
Ltac read_fields := unfold field, optional, member; cbn -[as_text as_texts as_bool as_list as_u16 as_u32 as_u64 as_i32
  strings_tree template_tree policy_tree model_tree limits_tree bounds_tree executable_tree repository_tree
  git_tree commit_message_tree ticket_policy_tree validation_tree commands_tree
  as_template as_policy as_model as_limits as_bounds as_executable as_repository as_git as_commit_message
  as_ticket_policy as_validation as_commands as_role as_read as_environment
  role_tree read_tree environment_tree command_tree]; rewrite ?texts_read.

Ltac sized H := repeat match type of H with _ && _ = true => let H' := fresh H in apply andb_true_iff in H as [H H'] end.

Lemma command_read c : sized_command c = true -> as_command (command_tree c) = Some c.
Proof.
  unfold sized_command. intros H. sized H. unfold as_command, command_tree. read_fields.
  rewrite (mapM_trees environment_tree) by (by intros []).
  unfold as_u64, as_u32, as_i32. rewrite !integer_read by done. cbn [as_integer].
  match goal with E : ((_ <=? cw_expected_exit_status c) && _) = true |- _ => rewrite E end.
  by destruct c as [? [[] []] ? ? ? ? ? ? ?].
Qed.

Lemma commands_read l : forallb sized_command l = true -> as_commands (commands_tree l) = Some l.
Proof. apply list_read, command_read. Qed.

Lemma template_read t : sized_template t = true -> as_template (template_tree t) = Some t.
Proof.
  unfold sized_template. intros H. unfold as_template, template_tree. read_fields.
  unfold as_u32. rewrite integer_read by done. by destruct t.
Qed.

Lemma model_read m : sized_model m = true -> as_model (model_tree m) = Some m.
Proof.
  unfold sized_model. intros H. sized H. unfold as_model, model_tree. read_fields.
  unfold as_u32, as_u64. rewrite !integer_read by done. by destruct m.
Qed.

Lemma role_read p : sized_role p = true -> as_role (role_tree p) = Some p.
Proof.
  unfold sized_role. intros H. sized H. unfold as_role, role_tree. read_fields.
  rewrite !template_read, model_read by done.
  assert (as_policy (policy_tree (aw_policy p)) = Some (aw_policy p)) as ->.
  { unfold as_policy, policy_tree. read_fields. unfold as_u32. rewrite integer_read by done. by destruct (aw_policy p). }
  assert (as_limits (limits_tree (aw_limits p)) = Some (aw_limits p)) as ->.
  { unfold as_limits, limits_tree. read_fields. unfold as_u64, as_u32. rewrite !integer_read by done. by destruct (aw_limits p). }
  by destruct p.
Qed.

Lemma ticket_policy_read p : sized_ticket_policy p = true -> as_ticket_policy (ticket_policy_tree p) = Some p.
Proof.
  unfold sized_ticket_policy. intros H. sized H. unfold as_ticket_policy, ticket_policy_tree. read_fields.
  assert (as_bounds (bounds_tree (tpw_ticket_bounds p)) = Some (tpw_ticket_bounds p)) as ->.
  { unfold as_bounds, bounds_tree. read_fields. unfold as_u32, as_u16. rewrite !integer_read by done.
    by destruct (tpw_ticket_bounds p). }
  unfold as_u16. rewrite !integer_read by done. destruct p as [? ? [m|] ? ?]; [|done]. cbn [option_tree tpw_maximum] in *.
  by rewrite integer_read.
Qed.

Lemma bundle_read b : sized_bundle b = true -> as_bundle (bundle_tree b) = Some b.
Proof.
  unfold sized_bundle. intros H. sized H. unfold as_bundle, bundle_tree. read_fields.
  rewrite template_read, ticket_policy_read, commands_read by done.
  rewrite (list_read role_tree as_role sized_role _ role_read) by done.
  rewrite (mapM_trees read_tree) by (by intros []).
  assert (as_repository (repository_tree (abw_repository b)) = Some (abw_repository b)) as ->.
  { by destruct (abw_repository b). }
  assert (as_validation (validation_tree (abw_validation_profiles b)) = Some (abw_validation_profiles b)) as ->.
  { unfold as_validation, validation_tree. read_fields. rewrite !commands_read by done.
    by destruct (abw_validation_profiles b). }
  assert (as_git (git_tree (abw_git_policy b)) = Some (abw_git_policy b)) as ->.
  { unfold as_git, git_tree. read_fields. by destruct (abw_git_policy b). }
  assert (as_commit_message (commit_message_tree (abw_commit_message_policy b)) = Some (abw_commit_message_policy b)) as ->.
  { unfold as_commit_message, commit_message_tree. read_fields. unfold as_u16. rewrite !integer_read by done.
    by destruct (abw_commit_message_policy b). }
  unfold as_u16. rewrite integer_read by done. by destruct b as [? ? [] ? ? ? ? ? ? ? ? ?].
Qed.

Lemma lex_lt_trans a b c : lex_lt a b = true -> lex_lt b c = true -> lex_lt a c = true.
Proof.
  revert b c. induction a as [|x a IH]; intros [|y b] [|z c]; simpl; try done.
  rewrite !orb_true_iff, !andb_true_iff, !Z.ltb_lt, !Z.eqb_eq.
  intros [?|[-> H1]] [?|[-> H2]]; [left; lia..|right; eauto].
Qed.

Lemma ascending_last a names b :
  ascending (a :: names ++ [b]) = true ->
  lex_lt (string_bytes a) (string_bytes b) = true /\ ascending (names ++ [b]) = true.
Proof.
  revert a. induction names as [|c names IH]; intros a H; cbn -[string_bytes] in H.
  - by rewrite andb_true_r in H.
  - apply andb_true_iff in H as [Ha H]. split; [|exact H].
    eapply lex_lt_trans; [exact Ha|]. by apply IH.
Qed.

Lemma put_last f l : ascending (l.*1 ++ [f.1]) = true -> put f l = l ++ [f].
Proof.
  induction l as [|g l IH]; [done|]. intros H. cbn [put].
  destruct (ascending_last g.1 l.*1 f.1 H) as [-> Hl]. by rewrite IH.
Qed.

Lemma put_all l : forall m, ascending ((m ++ l).*1) = true -> foldl (fun m f => put f m) m l = m ++ l.
Proof.
  induction l as [|f l IH]; intros m H; [by rewrite app_nil_r|]. cbn [foldl].
  rewrite put_last.
  - rewrite IH; by rewrite <- (assoc_L (++)).
  - revert H. change (f :: l) with ([f] ++ l). rewrite (assoc_L (++)), fmap_app, fmap_app. cbn.
    generalize (m.*1 ++ [f.1]). intros p. induction p as [|a p IHp]; [done|]. cbn.
    destruct p as [|b p]; [done|]. cbn. intros [Ha Hp]%andb_true_iff. rewrite Ha. by apply IHp.
Qed.

Lemma ordered v : keys_ascend v = true -> in_order v = v.
Proof.
  induction v as [| | | |l IH|l IH] using json_nested_ind; intros H; [done..| |]; cbn [in_order keys_ascend] in *.
  - f_equal. change (in_order <$> l = l). induction IH as [|v l Hv _ IHl]; [done|].
    cbn [forallb] in H. bool_prop. rewrite fmap_cons, Hv, IHl; done.
  - apply andb_true_iff in H as [H Hl].
    assert ((fun f : string * json => (f.1, in_order f.2)) <$> l = l) as ->.
    { clear H. induction IH as [|[name v] l Hv _ IHl]; [done|]. cbn [forallb snd] in Hl. bool_prop.
      rewrite fmap_cons. cbn [fst snd] in *. rewrite Hv, IHl; done. }
    by rewrite put_all.
Qed.

#[export] Instance reference_reader_lawful : LawfulReader reference_reader.
Proof.
  split.
  - intros b t Hs ->%bundle_text. cbn [read_bundle reference_reader]. rewrite read_json_text. by apply bundle_read.
  - intros c t Hs ->%command_text. cbn [read_command reference_reader]. rewrite read_json_text. by apply command_read.
  - intros v Hv. cbn [rewrite_value reference_reader]. rewrite read_json_text. cbn. by rewrite ordered.
Qed.
