(* ===== verification/Database.v ===== *)
(** The authority tables both stores share: rows, the SQL statements that
    change them, and the constraints of
    [schema/migrations/0001_initial_authority.sql] those statements can hit.

    A transaction of the stores is a function from a [Database] to an error or
    a receipt and the next [Database]: an error rolls everything back, and the
    row and advisory locks of the source make the function atomic.  Lifecycle
    columns keep the [SMALLINT] codes of the source. *)
From S2P Require Import Prelude Values.

(** * Closed codes *)

Definition TICKET_PROPOSED : Z := 0.
Definition TICKET_SPONSORED : Z := 1.
Definition TICKET_IN_FLIGHT : Z := 2.
Definition TICKET_DELIVERED : Z := 3.
Definition TICKET_BLOCKED : Z := 4.
Definition TICKET_RESOLVED : Z := 5.
Definition TICKET_SUPERSEDED : Z := 6.
Definition TICKET_REJECTED : Z := 7.

Definition ATTEMPT_ENGINEERING : Z := 0.
Definition ATTEMPT_HARD_VALIDATION : Z := 1.
Definition ATTEMPT_QUALITY : Z := 2.
Definition ATTEMPT_AWAITING_ARCHITECT : Z := 3.
Definition ATTEMPT_REWORK_ENGINEERING : Z := 4.
Definition ATTEMPT_REWORK_VALIDATION : Z := 5.
Definition ATTEMPT_REWORK_QUALITY : Z := 6.
Definition ATTEMPT_DELIVERED : Z := 7.
Definition ATTEMPT_FAILED : Z := 8.
Definition ATTEMPT_CANCELLED : Z := 9.

Definition CANDIDATE_SUBMITTED : Z := 0.
Definition CANDIDATE_VALIDATED : Z := 1.
Definition CANDIDATE_REJECTED : Z := 2.
Definition CANDIDATE_ACCEPTED : Z := 3.
Definition CANDIDATE_DELIVERED : Z := 4.

Definition VALIDATION_PASSED : Z := 1.
Definition VALIDATION_FAILED : Z := 2.
Definition VALIDATION_INTERRUPTED : Z := 3.

Definition REVIEW_ACCEPT : Z := 0.
Definition REVIEW_REJECT : Z := 1.

Definition DECISION_SPONSOR : Z := 0.
Definition DECISION_RELEASE : Z := 1.
Definition DECISION_DELIVER : Z := 2.
Definition DECISION_REWORK : Z := 3.
Definition DECISION_REJECT : Z := 4.

Definition REQUALIFICATION_REPRODUCED : Z := 0.
Definition REQUALIFICATION_RESOLVED : Z := 1.
Definition REQUALIFICATION_DIVERGED : Z := 2.

Definition SESSION_RUNNING : Z := 1.
Definition SESSION_SUCCEEDED : Z := 2.
Definition OFFICE_ENGINEERING : Z := 1.
Definition OFFICE_QUALITY : Z := 2.
Definition CAMPAIGN_RUNNING : Z := 0.
Definition CAMPAIGN_COMPLETED : Z := 1.
Definition CAMPAIGN_FAILED : Z := 2.
Definition CAMPAIGN_CANCELLED : Z := 3.
Definition SESSION_PREPARED : Z := 0.
Definition COST_KNOWN : Z := 0.
Definition COST_UNKNOWN : Z := 1.
Definition COST_EXCEEDED : Z := 2.

Inductive TicketState :=
  | Proposed | Sponsored | InFlight | Delivered | Blocked | Resolved | Superseded | Rejected.

#[global] Instance TicketState_eq_dec : EqDecision TicketState.
Proof. solve_decision. Defined.

(** * Rows *)

(** The artifact columns of an application revision. *)
Record ApplicationArtifacts := {
  aa_bundle : Z;
  aa_mission : Z;
  aa_product_research_system_template : Z;
  aa_product_research_assignment_template : Z;
  aa_engineering_system_template : Z;
  aa_engineering_assignment_template : Z;
  aa_quality_system_template : Z;
  aa_quality_assignment_template : Z;
}.

Record ApplicationRevisionRow := {
  application_key : string;
  app_aggregate_revision : Z;
  app_predecessor : option Z;
  app_artifacts : ApplicationArtifacts;
  ticket_low_water : Z;
  ticket_target : Z;
  ticket_maximum : option Z;
  proposal_maximum : Z;
  ticket_narrative_byte_limit : Z;
  ticket_acceptance_criteria_limit : Z;
  ticket_contract_read_limit : Z;
  app_repository_id : Z;
  app_is_active : bool;
}.

(** The columns of [kernel_builds] that are read back; the rest describe the
    installed binary. *)
Record KernelBuildRow := {
  kb_build_digest : ContentDigest;
  kb_qualification_receipt_artifact_id : Z;
  kb_is_current : bool;
  kb_revision : Z;
}.

Record RepositoryRow := {
  repo_key : string;
  repo_canonical_local_path : string;
  repo_default_branch : string;
  repo_revision : Z;
}.

Record OfficeRow := {
  of_application_revision_id : Z;
  of_assignment_role : option Z;
  of_charter_artifact_id : Z;
  of_authority_mask : Z;
}.

Record ArtifactRow := {
  art_digest : ContentDigest;
  art_byte_length : Z;
  art_cas_relative_path : string;
  art_creating_kernel_build_id : Z;
}.

Record CampaignRow := {
  cmp_kernel_build_id : Z;
  cmp_application_revision_id : Z;
  cmp_repository_id : Z;
  cmp_lifecycle : Z;
  cmp_aggregate_budget_micro_usd : Z;
  cmp_deadline : Z;
  cmp_delivery_target : Z;
  cmp_revision : Z;
  cmp_measured_cost_micro_usd : Z;
  cmp_cost_state : Z;
  cmp_failure_reason : option string;
}.

(** The model columns assignments and sessions share. *)
Record ModelColumns := {
  model_provider : string;
  model_id : string;
  thinking_level : Z;
  input_price : Z;
  output_price : Z;
  cache_read_price : Z;
  cache_write_price : Z;
}.

(** The columns [assignments_identity_immutable] protects. *)
Record AssignmentIdentity := {
  ai_campaign_id : Z;
  ai_kernel_build_id : Z;
  ai_application_revision_id : Z;
  ai_office_id : Z;
  ai_assignment_role : Z;
  ai_target : string;
  ai_ticket_attempt_id : option Z;
  ai_candidate_id : option Z;
  ai_packet_artifact_id : Z;
  ai_packet_digest : ContentDigest;
  ai_system_prompt_artifact_id : Z;
  ai_assignment_prompt_artifact_id : Z;
  ai_required_read_manifest_artifact_id : Z;
  ai_model : ModelColumns;
  ai_context_token_limit : Z;
  ai_output_token_limit : Z;
  ai_wall_limit_millis : Z;
  ai_output_byte_limit : Z;
  ai_terminal_operations_mask : Z;
  ai_remaining_campaign_allowance_micro_usd : Z;
  ai_attempt_ordinal : Z;
}.

Record AssignmentRow := {
  as_identity : AssignmentIdentity;
  as_lifecycle : Z;
  as_revision : Z;
}.

(** The columns [sessions_identity_immutable] protects. *)
Record SessionIdentity := {
  si_assignment_id : Z;
  si_campaign_id : Z;
  si_kernel_build_id : Z;
  si_application_revision_id : Z;
  si_office_id : Z;
  si_assignment_role : Z;
  si_model : ModelColumns;
  si_pid : Z;
  si_pgid : Z;
  si_process_started_at_unix_millis : Z;
}.

(** Token counters and the reported cost, each nullable. *)
Record UsageColumns := {
  u_input_tokens : option Z;
  u_output_tokens : option Z;
  u_cache_read_tokens : option Z;
  u_cache_write_tokens : option Z;
  u_reasoning_tokens : option Z;
  u_reported_cost_micro_usd : option Z;
}.

(** The terminal columns, all set by the one terminal update. *)
Record SessionTerminal := {
  st_transcript_artifact_id : Z;
  st_execution_summary_artifact_id : option Z;
  st_stdout_artifact_id : Z;
  st_stderr_artifact_id : Z;
  st_partial_transcript_artifact_id : option Z;
  st_required_read_assertion_artifact_id : Z;
  st_required_read_expected_count : Z;
  st_required_read_satisfied_count : Z;
  st_usage : UsageColumns;
  st_cost_state : Z;
  st_cost_micro_usd : option Z;
  st_stop_reason : Z;
  st_terminal_operation : option Z;
  st_failure_class : option Z;
  st_terminal_at : Z;
}.

Record SessionRow := {
  ses_identity : SessionIdentity;
  ses_lifecycle : Z;
  ses_terminal : option SessionTerminal;
  ses_revision : Z;
}.

Definition ses_campaign_id (row : SessionRow) : Z := si_campaign_id (ses_identity row).
Definition ses_assignment_role (row : SessionRow) : Z := si_assignment_role (ses_identity row).

(** One provider request: its attribution and, once settled, its outcome. *)
Record ProviderEffectIntent := {
  pi_session_id : Z;
  pi_assignment_id : Z;
  pi_core_run_id : string;
  pi_effect_id : Z;
  pi_harness_snapshot_id : string;
  pi_harness_revision_id : string;
  pi_model_harness_profile_id : string;
  pi_provider_surface_digest : ContentDigest;
  pi_provider : string;
  pi_model : string;
  pi_request_fingerprint : ContentDigest;
}.

Record ProviderEffectSettlement := {
  ps_stop_reason : string;
  ps_context_overflow : bool;
  ps_usage : UsageColumns;
  ps_failure_class : option string;
}.

Record ProviderEffectRow := {
  pe_intent : ProviderEffectIntent;
  pe_state : Z;
  pe_settlement : option ProviderEffectSettlement;
}.

Record TicketRow := {
  t_application_revision_id : Z;
  t_lifecycle : Z;
  t_current_ticket_revision_id : Z;
  t_revision : Z;
}.

(** The columns [ticket_revisions_contract_immutable] protects. *)
Record TicketContract := {
  tr_ticket_id : Z;
  tr_application_revision_id : Z;
  tr_revision_ordinal : Z;
  tr_proposal_artifact_id : Z;
  tr_reproducer_artifact_id : Z;
  tr_expected_observation_artifact_id : Z;
  tr_discovery_observation_artifact_id : Z;
  tr_discovery_commit : string;
  tr_discovery_tree : string;
  tr_created_at : Z;
}.

(** The six [last_requalification_*] columns, set together. *)
Record Requalified := {
  requalification_outcome : Z;
  requalification_commit : string;
  requalification_tree : string;
  requalification_first : Z;
  requalification_second : Z;
  requalified_at : Z;
}.

Record TicketRevisionRow := {
  tr_contract : TicketContract;
  tr_lifecycle : Z;
  tr_sponsored_at : option Z;
  tr_sponsorship_reason : option string;
  tr_last_requalification : option Requalified;
  tr_blocked_reason : option string;
  tr_revision : Z;
}.

(** The columns [ticket_attempts_identity_immutable] protects. *)
Record AttemptClaim := {
  ta_ticket_revision_id : Z;
  ta_campaign_id : Z;
  ta_claimed_commit : string;
  ta_claimed_tree : string;
  ta_created_at : Z;
}.

Record TicketAttemptRow := {
  ta_claim : AttemptClaim;
  ta_stage : Z;
  ta_candidate_ordinal : Z;
  ta_rework_ordinal : Z;
  ta_failed_at : option Z;
  ta_failure_reason : option string;
  ta_released_at : option Z;
  ta_release_reason : option string;
  ta_revision : Z;
}.

(** The columns [candidates_identity_immutable] protects. *)
Record CandidateEvidence := {
  c_ticket_attempt_id : Z;
  c_application_revision_id : Z;
  c_base_commit : string;
  c_base_tree : string;
  c_regression_tree : string;
  c_candidate_tree : string;
  c_changed_paths_artifact_id : Z;
  c_regression_patch_artifact_id : Z;
  c_regression_command_set_artifact_id : Z;
  c_regression_log_artifact_id : Z;
  c_patch_artifact_id : Z;
  c_engineering_session_id : Z;
  c_engineering_report_artifact_id : Z;
  c_commit_subject : string;
  c_commit_body : string;
  c_regression_test_identity : string;
  c_risks_artifact_id : Z;
  c_created_at : Z;
}.

Record CandidateRow := {
  c_evidence : CandidateEvidence;
  c_candidate_commit : option string;
  c_candidate_ref : option string;
  c_lifecycle : Z;
  c_revision : Z;
}.

Record ValidationRow := {
  v_candidate_id : Z;
  v_kernel_build_id : Z;
  v_performed_by_session_id : Z;
  v_validation_scope : Z;
  v_validation_profile : string;
  v_pristine_tree : string;
  v_command_set_artifact_id : Z;
  v_lifecycle : Z;
  v_duration_millis : Z;
  v_log_artifact_id : Z;
  v_created_at : Z;
}.

Record ReviewRow := {
  r_candidate_id : Z;
  r_quality_session_id : Z;
  r_full_suite_validation_id : Z;
  r_verdict : Z;
  r_rationale_artifact_id : Z;
  r_risks_artifact_id : Z;
  r_additional_probes_artifact_id : Z;
  r_revision : Z;
  r_created_at : Z;
}.

Record ArchitectDecisionRow := {
  d_decision_kind : Z;
  d_ticket_revision_id : option Z;
  d_ticket_attempt_id : option Z;
  d_candidate_id : option Z;
  d_review_id : option Z;
  d_rationale_artifact_id : Z;
  d_principal : string;
  d_overrides_quality_rejection : bool;
  d_created_at : Z;
}.

Record DeliveryRow := {
  dl_candidate_id : Z;
  dl_candidate_commit : string;
  dl_expected_old_commit : string;
  dl_resulting_commit : string;
  dl_resulting_tree : string;
  dl_factory_cost_micro_usd : Z;
  dl_receipt_artifact_id : Z;
  dl_created_at : Z;
}.

Record AuditRow := {
  al_id : Z;
  al_operation : string;
  al_command_fingerprint : ContentDigest;
  al_subject_kind : Z;
  al_subject_id : Z;
  al_resulting_revision : Z;
}.

(** * The database

    The audit log is keyed by its [UNIQUE (principal, command_id)]. *)

Record Database := {
  application_revisions : gmap Z ApplicationRevisionRow;
  artifacts : gmap Z ArtifactRow;
  kernel_builds : gmap Z KernelBuildRow;
  repositories : gmap Z RepositoryRow;
  offices : gmap Z OfficeRow;
  campaigns : gmap Z CampaignRow;
  assignments : gmap Z AssignmentRow;
  sessions : gmap Z SessionRow;
  provider_effects : gmap Z ProviderEffectRow;
  tickets : gmap Z TicketRow;
  ticket_revisions : gmap Z TicketRevisionRow;
  ticket_attempts : gmap Z TicketAttemptRow;
  candidates : gmap Z CandidateRow;
  validations : gmap Z ValidationRow;
  reviews : gmap Z ReviewRow;
  architect_decisions : gmap Z ArchitectDecisionRow;
  deliveries : gmap Z DeliveryRow;
  audit_log : gmap (string * string) AuditRow;
  now : Z;
}.

Definition set_campaigns (m : gmap Z CampaignRow) (db : Database) : Database :=
  {| application_revisions := application_revisions db;
     artifacts := artifacts db;
     kernel_builds := kernel_builds db;
     repositories := repositories db;
     offices := offices db;
     campaigns := m;
     assignments := assignments db;
     sessions := sessions db;
     provider_effects := provider_effects db;
     tickets := tickets db;
     ticket_revisions := ticket_revisions db;
     ticket_attempts := ticket_attempts db;
     candidates := candidates db;
     validations := validations db;
     reviews := reviews db;
     architect_decisions := architect_decisions db;
     deliveries := deliveries db;
     audit_log := audit_log db;
     now := now db |}.

Definition set_assignments (m : gmap Z AssignmentRow) (db : Database) : Database :=
  {| application_revisions := application_revisions db;
     artifacts := artifacts db;
     kernel_builds := kernel_builds db;
     repositories := repositories db;
     offices := offices db;
     campaigns := campaigns db;
     assignments := m;
     sessions := sessions db;
     provider_effects := provider_effects db;
     tickets := tickets db;
     ticket_revisions := ticket_revisions db;
     ticket_attempts := ticket_attempts db;
     candidates := candidates db;
     validations := validations db;
     reviews := reviews db;
     architect_decisions := architect_decisions db;
     deliveries := deliveries db;
     audit_log := audit_log db;
     now := now db |}.

Definition set_sessions (m : gmap Z SessionRow) (db : Database) : Database :=
  {| application_revisions := application_revisions db;
     artifacts := artifacts db;
     kernel_builds := kernel_builds db;
     repositories := repositories db;
     offices := offices db;
     campaigns := campaigns db;
     assignments := assignments db;
     sessions := m;
     provider_effects := provider_effects db;
     tickets := tickets db;
     ticket_revisions := ticket_revisions db;
     ticket_attempts := ticket_attempts db;
     candidates := candidates db;
     validations := validations db;
     reviews := reviews db;
     architect_decisions := architect_decisions db;
     deliveries := deliveries db;
     audit_log := audit_log db;
     now := now db |}.

Definition set_provider_effects (m : gmap Z ProviderEffectRow) (db : Database) : Database :=
  {| application_revisions := application_revisions db;
     artifacts := artifacts db;
     kernel_builds := kernel_builds db;
     repositories := repositories db;
     offices := offices db;
     campaigns := campaigns db;
     assignments := assignments db;
     sessions := sessions db;
     provider_effects := m;
     tickets := tickets db;
     ticket_revisions := ticket_revisions db;
     ticket_attempts := ticket_attempts db;
     candidates := candidates db;
     validations := validations db;
     reviews := reviews db;
     architect_decisions := architect_decisions db;
     deliveries := deliveries db;
     audit_log := audit_log db;
     now := now db |}.

Definition set_tickets (m : gmap Z TicketRow) (db : Database) : Database :=
  {| application_revisions := application_revisions db;
     artifacts := artifacts db;
     kernel_builds := kernel_builds db;
     repositories := repositories db;
     offices := offices db;
     campaigns := campaigns db;
     assignments := assignments db;
     sessions := sessions db;
     provider_effects := provider_effects db;
     tickets := m;
     ticket_revisions := ticket_revisions db;
     ticket_attempts := ticket_attempts db;
     candidates := candidates db;
     validations := validations db;
     reviews := reviews db;
     architect_decisions := architect_decisions db;
     deliveries := deliveries db;
     audit_log := audit_log db;
     now := now db |}.

Definition set_ticket_revisions (m : gmap Z TicketRevisionRow) (db : Database) : Database :=
  {| application_revisions := application_revisions db;
     artifacts := artifacts db;
     kernel_builds := kernel_builds db;
     repositories := repositories db;
     offices := offices db;
     campaigns := campaigns db;
     assignments := assignments db;
     sessions := sessions db;
     provider_effects := provider_effects db;
     tickets := tickets db;
     ticket_revisions := m;
     ticket_attempts := ticket_attempts db;
     candidates := candidates db;
     validations := validations db;
     reviews := reviews db;
     architect_decisions := architect_decisions db;
     deliveries := deliveries db;
     audit_log := audit_log db;
     now := now db |}.

Definition set_ticket_attempts (m : gmap Z TicketAttemptRow) (db : Database) : Database :=
  {| application_revisions := application_revisions db;
     artifacts := artifacts db;
     kernel_builds := kernel_builds db;
     repositories := repositories db;
     offices := offices db;
     campaigns := campaigns db;
     assignments := assignments db;
     sessions := sessions db;
     provider_effects := provider_effects db;
     tickets := tickets db;
     ticket_revisions := ticket_revisions db;
     ticket_attempts := m;
     candidates := candidates db;
     validations := validations db;
     reviews := reviews db;
     architect_decisions := architect_decisions db;
     deliveries := deliveries db;
     audit_log := audit_log db;
     now := now db |}.

Definition set_candidates (m : gmap Z CandidateRow) (db : Database) : Database :=
  {| application_revisions := application_revisions db;
     artifacts := artifacts db;
     kernel_builds := kernel_builds db;
     repositories := repositories db;
     offices := offices db;
     campaigns := campaigns db;
     assignments := assignments db;
     sessions := sessions db;
     provider_effects := provider_effects db;
     tickets := tickets db;
     ticket_revisions := ticket_revisions db;
     ticket_attempts := ticket_attempts db;
     candidates := m;
     validations := validations db;
     reviews := reviews db;
     architect_decisions := architect_decisions db;
     deliveries := deliveries db;
     audit_log := audit_log db;
     now := now db |}.

Definition set_validations (m : gmap Z ValidationRow) (db : Database) : Database :=
  {| application_revisions := application_revisions db;
     artifacts := artifacts db;
     kernel_builds := kernel_builds db;
     repositories := repositories db;
     offices := offices db;
     campaigns := campaigns db;
     assignments := assignments db;
     sessions := sessions db;
     provider_effects := provider_effects db;
     tickets := tickets db;
     ticket_revisions := ticket_revisions db;
     ticket_attempts := ticket_attempts db;
     candidates := candidates db;
     validations := m;
     reviews := reviews db;
     architect_decisions := architect_decisions db;
     deliveries := deliveries db;
     audit_log := audit_log db;
     now := now db |}.

Definition set_reviews (m : gmap Z ReviewRow) (db : Database) : Database :=
  {| application_revisions := application_revisions db;
     artifacts := artifacts db;
     kernel_builds := kernel_builds db;
     repositories := repositories db;
     offices := offices db;
     campaigns := campaigns db;
     assignments := assignments db;
     sessions := sessions db;
     provider_effects := provider_effects db;
     tickets := tickets db;
     ticket_revisions := ticket_revisions db;
     ticket_attempts := ticket_attempts db;
     candidates := candidates db;
     validations := validations db;
     reviews := m;
     architect_decisions := architect_decisions db;
     deliveries := deliveries db;
     audit_log := audit_log db;
     now := now db |}.

Definition set_architect_decisions (m : gmap Z ArchitectDecisionRow) (db : Database) : Database :=
  {| application_revisions := application_revisions db;
     artifacts := artifacts db;
     kernel_builds := kernel_builds db;
     repositories := repositories db;
     offices := offices db;
     campaigns := campaigns db;
     assignments := assignments db;
     sessions := sessions db;
     provider_effects := provider_effects db;
     tickets := tickets db;
     ticket_revisions := ticket_revisions db;
     ticket_attempts := ticket_attempts db;
     candidates := candidates db;
     validations := validations db;
     reviews := reviews db;
     architect_decisions := m;
     deliveries := deliveries db;
     audit_log := audit_log db;
     now := now db |}.

Definition set_deliveries (m : gmap Z DeliveryRow) (db : Database) : Database :=
  {| application_revisions := application_revisions db;
     artifacts := artifacts db;
     kernel_builds := kernel_builds db;
     repositories := repositories db;
     offices := offices db;
     campaigns := campaigns db;
     assignments := assignments db;
     sessions := sessions db;
     provider_effects := provider_effects db;
     tickets := tickets db;
     ticket_revisions := ticket_revisions db;
     ticket_attempts := ticket_attempts db;
     candidates := candidates db;
     validations := validations db;
     reviews := reviews db;
     architect_decisions := architect_decisions db;
     deliveries := m;
     audit_log := audit_log db;
     now := now db |}.

Definition set_audit_log (m : gmap (string * string) AuditRow) (db : Database) : Database :=
  {| application_revisions := application_revisions db;
     artifacts := artifacts db;
     kernel_builds := kernel_builds db;
     repositories := repositories db;
     offices := offices db;
     campaigns := campaigns db;
     assignments := assignments db;
     sessions := sessions db;
     provider_effects := provider_effects db;
     tickets := tickets db;
     ticket_revisions := ticket_revisions db;
     ticket_attempts := ticket_attempts db;
     candidates := candidates db;
     validations := validations db;
     reviews := reviews db;
     architect_decisions := architect_decisions db;
     deliveries := deliveries db;
     audit_log := m;
     now := now db |}.

Definition set_artifacts (m : gmap Z ArtifactRow) (db : Database) : Database :=
  {| application_revisions := application_revisions db;
     artifacts := m;
     kernel_builds := kernel_builds db;
     repositories := repositories db;
     offices := offices db;
     campaigns := campaigns db;
     assignments := assignments db;
     sessions := sessions db;
     provider_effects := provider_effects db;
     tickets := tickets db;
     ticket_revisions := ticket_revisions db;
     ticket_attempts := ticket_attempts db;
     candidates := candidates db;
     validations := validations db;
     reviews := reviews db;
     architect_decisions := architect_decisions db;
     deliveries := deliveries db;
     audit_log := audit_log db;
     now := now db |}.

Definition set_kernel_builds (m : gmap Z KernelBuildRow) (db : Database) : Database :=
  {| application_revisions := application_revisions db;
     artifacts := artifacts db;
     kernel_builds := m;
     repositories := repositories db;
     offices := offices db;
     campaigns := campaigns db;
     assignments := assignments db;
     sessions := sessions db;
     provider_effects := provider_effects db;
     tickets := tickets db;
     ticket_revisions := ticket_revisions db;
     ticket_attempts := ticket_attempts db;
     candidates := candidates db;
     validations := validations db;
     reviews := reviews db;
     architect_decisions := architect_decisions db;
     deliveries := deliveries db;
     audit_log := audit_log db;
     now := now db |}.

Definition set_repositories (m : gmap Z RepositoryRow) (db : Database) : Database :=
  {| application_revisions := application_revisions db;
     artifacts := artifacts db;
     kernel_builds := kernel_builds db;
     repositories := m;
     offices := offices db;
     campaigns := campaigns db;
     assignments := assignments db;
     sessions := sessions db;
     provider_effects := provider_effects db;
     tickets := tickets db;
     ticket_revisions := ticket_revisions db;
     ticket_attempts := ticket_attempts db;
     candidates := candidates db;
     validations := validations db;
     reviews := reviews db;
     architect_decisions := architect_decisions db;
     deliveries := deliveries db;
     audit_log := audit_log db;
     now := now db |}.

Definition set_application_revisions (m : gmap Z ApplicationRevisionRow) (db : Database) : Database :=
  {| application_revisions := m;
     artifacts := artifacts db;
     kernel_builds := kernel_builds db;
     repositories := repositories db;
     offices := offices db;
     campaigns := campaigns db;
     assignments := assignments db;
     sessions := sessions db;
     provider_effects := provider_effects db;
     tickets := tickets db;
     ticket_revisions := ticket_revisions db;
     ticket_attempts := ticket_attempts db;
     candidates := candidates db;
     validations := validations db;
     reviews := reviews db;
     architect_decisions := architect_decisions db;
     deliveries := deliveries db;
     audit_log := audit_log db;
     now := now db |}.

Definition set_offices (m : gmap Z OfficeRow) (db : Database) : Database :=
  {| application_revisions := application_revisions db;
     artifacts := artifacts db;
     kernel_builds := kernel_builds db;
     repositories := repositories db;
     offices := m;
     campaigns := campaigns db;
     assignments := assignments db;
     sessions := sessions db;
     provider_effects := provider_effects db;
     tickets := tickets db;
     ticket_revisions := ticket_revisions db;
     ticket_attempts := ticket_attempts db;
     candidates := candidates db;
     validations := validations db;
     reviews := reviews db;
     architect_decisions := architect_decisions db;
     deliveries := deliveries db;
     audit_log := audit_log db;
     now := now db |}.


(** * Inserts and updates under the schema's constraints

    The result is the name of the violated constraint or the next database. *)

Definition ticket_attempts_one_unreleased_revision (row : TicketAttemptRow) (db : Database) : bool :=
  negb (exists_where (fun _ other =>
    bool_decide (ta_released_at other = None)
    && (ta_ticket_revision_id (ta_claim other) =? ta_ticket_revision_id (ta_claim row)))
    (ticket_attempts db)).

Definition insert_ticket_attempt (row : TicketAttemptRow) (db : Database)
  : result string (Z * Database) :=
  let id := fresh_id (ticket_attempts db) in
  require (ticket_attempts_one_unreleased_revision row db)
    "ticket_attempts_one_unreleased_revision"%string ;;
  Ok (id, set_ticket_attempts (<[id := row]> (ticket_attempts db)) db).

(** Ticket attempts are only ever updated away from being unreleased, so their
    partial unique index cannot be hit by an update. *)
Definition update_ticket_attempt (id : Z) (f : TicketAttemptRow -> TicketAttemptRow)
    (db : Database) : Database :=
  set_ticket_attempts (alter f id (ticket_attempts db)) db.

Definition ticket_revisions_live_reproducer_identity (id : Z) (row : TicketRevisionRow)
    (db : Database) : bool :=
  (tr_lifecycle row =? TICKET_BLOCKED)
  || negb (exists_where (fun other_id other =>
       negb (other_id =? id) && negb (tr_lifecycle other =? TICKET_BLOCKED)
       && (tr_application_revision_id (tr_contract other)
           =? tr_application_revision_id (tr_contract row))
       && (tr_reproducer_artifact_id (tr_contract other)
           =? tr_reproducer_artifact_id (tr_contract row)))
       (ticket_revisions db)).

Definition put_ticket_revision (id : Z) (row : TicketRevisionRow) (db : Database)
  : result string Database :=
  require (ticket_revisions_live_reproducer_identity id row db)
    "ticket_revisions_live_reproducer_identity"%string ;;
  Ok (set_ticket_revisions (<[id := row]> (ticket_revisions db)) db).

Definition update_ticket_revision (id : Z) (f : TicketRevisionRow -> TicketRevisionRow)
    (db : Database) : result string Database :=
  match ticket_revisions db !! id with
  | Some row => put_ticket_revision id (f row) db
  | None => Ok db
  end.

(** [UPDATE factory.tickets SET lifecycle = $1, revision = $2 WHERE id = $3] *)
Definition update_ticket (id lifecycle revision : Z) (db : Database) : Database :=
  set_tickets (alter (fun row => {|
    t_application_revision_id := t_application_revision_id row;
    t_lifecycle := lifecycle;
    t_current_ticket_revision_id := t_current_ticket_revision_id row;
    t_revision := revision |}) id (tickets db)) db.

Definition insert_ticket (id : Z) (row : TicketRow) (db : Database) : Database :=
  set_tickets (<[id := row]> (tickets db)) db.

(** [CHECK (base_tree <> candidate_tree AND regression_tree <> candidate_tree)] *)
Definition candidate_trees_differ (e : CandidateEvidence) : bool :=
  negb (bool_decide (c_base_tree e = c_candidate_tree e))
  && negb (bool_decide (c_regression_tree e = c_candidate_tree e)).

Definition insert_candidate (row : CandidateRow) (db : Database) : result string (Z * Database) :=
  let id := fresh_id (candidates db) in
  let e := c_evidence row in
  require (negb (exists_where (fun _ other =>
    c_engineering_session_id (c_evidence other) =? c_engineering_session_id e)
    (candidates db))) "candidates_engineering_session_id_key"%string ;;
  require (negb (exists_where (fun _ other =>
    (c_ticket_attempt_id (c_evidence other) =? c_ticket_attempt_id e)
    && bool_decide (c_candidate_tree (c_evidence other) = c_candidate_tree e))
    (candidates db))) "candidates_ticket_attempt_id_candidate_tree_key"%string ;;
  require (candidate_trees_differ e) "candidates_check"%string ;;
  Ok (id, set_candidates (<[id := row]> (candidates db)) db).

Definition update_candidate (id : Z) (f : CandidateRow -> CandidateRow) (db : Database)
  : Database :=
  set_candidates (alter f id (candidates db)) db.

Definition insert_validation (row : ValidationRow) (db : Database) : result string (Z * Database) :=
  let id := fresh_id (validations db) in
  require (negb (exists_where (fun _ other =>
    (v_candidate_id other =? v_candidate_id row)
    && (v_validation_scope other =? v_validation_scope row)) (validations db)))
    "validations_candidate_id_validation_scope_key"%string ;;
  Ok (id, set_validations (<[id := row]> (validations db)) db).

Definition insert_review (row : ReviewRow) (db : Database) : result string (Z * Database) :=
  let id := fresh_id (reviews db) in
  require (negb (exists_where (fun _ other =>
    r_candidate_id other =? r_candidate_id row) (reviews db)))
    "reviews_candidate_id_key"%string ;;
  require (negb (exists_where (fun _ other =>
    r_quality_session_id other =? r_quality_session_id row) (reviews db)))
    "reviews_quality_session_id_key"%string ;;
  require (negb (exists_where (fun _ other =>
    r_full_suite_validation_id other =? r_full_suite_validation_id row) (reviews db)))
    "reviews_full_suite_validation_id_key"%string ;;
  Ok (id, set_reviews (<[id := row]> (reviews db)) db).

(** The two row CHECKs of [architect_decisions]. *)
Definition decision_target_shape (row : ArchitectDecisionRow) : bool :=
  match d_ticket_revision_id row, d_ticket_attempt_id row, d_candidate_id row, d_review_id row with
  | Some _, None, None, None => d_decision_kind row =? DECISION_SPONSOR
  | None, Some _, None, None => d_decision_kind row =? DECISION_RELEASE
  | None, None, Some _, Some _ => (2 <=? d_decision_kind row) && (d_decision_kind row <=? 4)
  | _, _, _, _ => false
  end.

Definition decision_override_shape (row : ArchitectDecisionRow) : bool :=
  negb (d_overrides_quality_rejection row) || (d_decision_kind row =? DECISION_DELIVER).

Definition insert_architect_decision (row : ArchitectDecisionRow) (db : Database)
  : result string (Z * Database) :=
  let id := fresh_id (architect_decisions db) in
  require (decision_target_shape row) "architect_decisions_check"%string ;;
  require (decision_override_shape row) "architect_decisions_check1"%string ;;
  Ok (id, set_architect_decisions (<[id := row]> (architect_decisions db)) db).

Definition insert_delivery (row : DeliveryRow) (db : Database) : result string (Z * Database) :=
  let id := fresh_id (deliveries db) in
  require (negb (exists_where (fun _ other =>
    dl_candidate_id other =? dl_candidate_id row) (deliveries db)))
    "deliveries_candidate_id_key"%string ;;
  Ok (id, set_deliveries (<[id := row]> (deliveries db)) db).

Definition next_audit_id (db : Database) : Z :=
  1 + foldr Z.max 0 ((fun kv => al_id kv.2) <$> map_to_list (audit_log db)).

(** [UNIQUE (principal, command_id)] and [CHECK (subject_id > 0)] *)
Definition insert_audit_row (principal command_id : string) (row : Z -> AuditRow)
    (db : Database) : result string (Z * Database) :=
  let id := next_audit_id db in
  require (bool_decide (audit_log db !! (principal, command_id) = None))
    "audit_log_principal_command_id_key"%string ;;
  require (0 <? al_subject_id (row id)) "audit_log_subject_id_check"%string ;;
  Ok (id, set_audit_log (<[(principal, command_id) := row id]> (audit_log db)) db).

(** [UPDATE factory.campaigns SET lifecycle = $1, revision = $2 WHERE id = $3] *)
Definition set_campaign_lifecycle (lifecycle revision : Z) (row : CampaignRow) : CampaignRow := {|
  cmp_kernel_build_id := cmp_kernel_build_id row;
  cmp_application_revision_id := cmp_application_revision_id row;
  cmp_repository_id := cmp_repository_id row;
  cmp_lifecycle := lifecycle;
  cmp_aggregate_budget_micro_usd := cmp_aggregate_budget_micro_usd row;
  cmp_deadline := cmp_deadline row;
  cmp_delivery_target := cmp_delivery_target row;
  cmp_revision := revision;
  cmp_measured_cost_micro_usd := cmp_measured_cost_micro_usd row;
  cmp_cost_state := cmp_cost_state row;
  cmp_failure_reason := cmp_failure_reason row |}.

Definition update_campaign_lifecycle (id lifecycle revision : Z) (db : Database) : Database :=
  set_campaigns (alter (set_campaign_lifecycle lifecycle revision) id (campaigns db)) db.

(** [SELECT EXISTS (SELECT 1 FROM factory.sessions WHERE lifecycle = 1)] *)
Definition paid_session_active (db : Database) : bool :=
  exists_where (fun _ row => ses_lifecycle row =? SESSION_RUNNING) (sessions db).

(** [SELECT count( * ) FROM factory.ticket_attempts WHERE campaign_id = $1 AND stage = 7] *)
Definition delivered_attempt_count (campaign_id : Z) (db : Database) : Z :=
  count_where (fun _ row =>
    (ta_campaign_id (ta_claim row) =? campaign_id) && (ta_stage row =? ATTEMPT_DELIVERED))
    (ticket_attempts db).

(** Current ticket revisions of one lifecycle whose application revision
    satisfies [in_application]. *)
Definition current_ticket_revision_count (in_application : Z -> bool) (state : Z) (db : Database)
  : Z :=
  count_where (fun id row =>
    in_application (tr_application_revision_id (tr_contract row))
    && match tickets db !! tr_ticket_id (tr_contract row) with
       | Some t => t_current_ticket_revision_id t =? id
       | None => false
       end
    && (tr_lifecycle row =? state)) (ticket_revisions db).


(** ** Campaigns, assignments, sessions and provider effects *)

(** [campaigns_one_running] *)
Definition campaigns_one_running (db : Database) : bool :=
  negb (exists_where (fun _ row => cmp_lifecycle row =? CAMPAIGN_RUNNING) (campaigns db)).

Definition insert_campaign (row : CampaignRow) (db : Database) : result string (Z * Database) :=
  let id := fresh_id (campaigns db) in
  require (0 <=? cmp_aggregate_budget_micro_usd row)
    "campaigns_aggregate_budget_micro_usd_check"%string ;;
  require (negb (cmp_lifecycle row =? CAMPAIGN_RUNNING) || campaigns_one_running db)
    "campaigns_one_running"%string ;;
  Ok (id, set_campaigns (<[id := row]> (campaigns db)) db).

(** [campaigns_failure_reason_matches_lifecycle] *)
Definition failure_reason_matches_lifecycle (row : CampaignRow) : bool :=
  if cmp_lifecycle row =? CAMPAIGN_FAILED then bool_decide (is_Some (cmp_failure_reason row))
  else bool_decide (cmp_failure_reason row = None).

Definition update_campaign (id : Z) (f : CampaignRow -> CampaignRow) (db : Database)
  : result string Database :=
  match campaigns db !! id with
  | None => Ok db
  | Some row =>
      require (failure_reason_matches_lifecycle (f row))
        "campaigns_failure_reason_matches_lifecycle"%string ;;
      Ok (set_campaigns (<[id := f row]> (campaigns db)) db)
  end.

(** The row CHECKs of [assignments]. *)
Definition assignment_checks (a : AssignmentIdentity) : bool :=
  let m := ai_model a in
  (1 <=? string_len (ai_target a)) && (string_len (ai_target a) <=? 4096)
  && (1 <=? string_len (model_provider m)) && (string_len (model_provider m) <=? 160)
  && (1 <=? string_len (model_id m)) && (string_len (model_id m) <=? 240)
  && (0 <? ai_context_token_limit a) && (0 <? ai_output_token_limit a)
  && (0 <? ai_wall_limit_millis a) && (0 <? ai_output_byte_limit a)
  && (0 <? ai_terminal_operations_mask a)
  && (0 <=? ai_remaining_campaign_allowance_micro_usd a) && (0 <? ai_attempt_ordinal a).

Definition insert_assignment (id : Z) (row : AssignmentRow) (db : Database)
  : result string Database :=
  require (assignment_checks (as_identity row)) "assignments_check"%string ;;
  require (bool_decide (assignments db !! id = None)) "assignments_pkey"%string ;;
  require (negb (exists_where (fun _ other =>
    (ai_campaign_id (as_identity other) =? ai_campaign_id (as_identity row))
    && (ai_attempt_ordinal (as_identity other) =? ai_attempt_ordinal (as_identity row)))
    (assignments db))) "assignments_campaign_id_attempt_ordinal_key"%string ;;
  Ok (set_assignments (<[id := row]> (assignments db)) db).

Definition update_assignment (id : Z) (f : AssignmentRow -> AssignmentRow) (db : Database)
  : Database := set_assignments (alter f id (assignments db)) db.

(** [sessions_one_running_paid] *)
Definition insert_session (row : SessionRow) (db : Database) : result string (Z * Database) :=
  let id := fresh_id (sessions db) in
  require (negb (exists_where (fun _ other =>
    si_assignment_id (ses_identity other) =? si_assignment_id (ses_identity row)) (sessions db)))
    "sessions_assignment_id_key"%string ;;
  require (negb ((ses_lifecycle row =? SESSION_RUNNING) && paid_session_active db))
    "sessions_one_running_paid"%string ;;
  Ok (id, set_sessions (<[id := row]> (sessions db)) db).

(** The CHECKs on the terminal columns. *)
Definition session_terminal_checks (lifecycle : Z) (t : SessionTerminal) : bool :=
  (negb (lifecycle =? SESSION_SUCCEEDED)
   || bool_decide (is_Some (st_execution_summary_artifact_id t)))
  && (negb (st_cost_state t =? COST_KNOWN) || bool_decide (is_Some (st_cost_micro_usd t)))
  && (negb (st_cost_state t =? COST_UNKNOWN) || bool_decide (st_cost_micro_usd t = None))
  && match st_cost_micro_usd t with Some cost => 0 <=? cost | None => true end
  && (st_required_read_satisfied_count t <=? st_required_read_expected_count t).

(** [UPDATE factory.sessions SET ... WHERE id = $22 AND lifecycle = 1] *)
Definition update_session_terminal (id lifecycle revision : Z) (t : SessionTerminal)
    (db : Database) : result string Database :=
  match sessions db !! id with
  | Some row =>
      if ses_lifecycle row =? SESSION_RUNNING
      then require (session_terminal_checks lifecycle t) "sessions_check"%string ;;
           Ok (set_sessions (<[id := {| ses_identity := ses_identity row;
                                        ses_lifecycle := lifecycle;
                                        ses_terminal := Some t;
                                        ses_revision := revision |}]> (sessions db)) db)
      else Ok db
  | None => Ok db
  end.

Definition same_effect (a b : ProviderEffectIntent) : bool :=
  (pi_session_id a =? pi_session_id b) && bool_decide (pi_core_run_id a = pi_core_run_id b)
  && (pi_effect_id a =? pi_effect_id b).

Definition insert_provider_effect (row : ProviderEffectRow) (db : Database)
  : result string (Z * Database) :=
  let id := fresh_id (provider_effects db) in
  require (negb (exists_where (fun _ other => same_effect (pe_intent other) (pe_intent row))
    (provider_effects db))) "provider_effects_session_id_core_run_id_effect_id_key"%string ;;
  Ok (id, set_provider_effects (<[id := row]> (provider_effects db)) db).
