(* ===== verification/Cas.v ===== *)
(** The content-addressed store ([crates/factory-kernel/src/cas.rs]): adoption
    of staged files and of kernel bytes, and verified reads.

    A [Disk] is what the store's directory holds.  An operation is a sequence of
    system calls on it; before each call other processes act ([meanwhile]), and
    each call may succeed, fail or be the last one before a crash ([outcome]).
    Durability across a loss of power is not modelled: the directory and file
    syncs are calls that can fail and change nothing. *)
From S2P Require Import Prelude Values.

Inductive CasError :=
  | InvalidDirectory (path reason : string)
  | UnsafeSourcePath (path reason : string)
  | SourcePathEscape (path : string)
  | SourceSymlink (path : string)
  | SourceNotRegularFile (path : string)
  | MissingObject (digest : ContentDigest)
  | ObjectNotRegularFile (digest : ContentDigest)
  | SizeLimitExceeded (path : string) (maximum observed : Z)
  | SourceChanged (path : string)
  | CorruptObject (digest : ContentDigest) (expected_length actual_length : Z)
      (actual_digest : option ContentDigest) (reason : string)
  | Io (operation path : string).

(** * The disk *)

(** An object name holds a regular file or something else. *)
Inductive Entry := Regular (bytes : list Z) | NotRegular.

(** [objects] by prefix directory and name; [directories] tells the real
    prefix directories from links to directories; [temporaries] by their random
    suffix. *)
Record Disk := {
  objects : gmap (string * string) Entry;
  directories : gmap string bool;
  temporaries : gmap Z (list Z);
}.

Definition set_objects (m : gmap (string * string) Entry) (d : Disk) : Disk :=
  {| objects := m; directories := directories d; temporaries := temporaries d |}.
Definition set_directories (m : gmap string bool) (d : Disk) : Disk :=
  {| objects := objects d; directories := m; temporaries := temporaries d |}.
Definition set_temporaries (m : gmap Z (list Z)) (d : Disk) : Disk :=
  {| objects := objects d; directories := directories d; temporaries := m |}.

(** The prefix directory and the name of an object. *)
Definition object_path (digest : ContentDigest) : string * string :=
  (text_of (take 2 (hex_text digest)), text_of (drop 2 (hex_text digest))).

#[global] Arguments object_path : simpl never.

Definition object_relative_path (digest : ContentDigest) : result CasError string :=
  let '(prefix, name) := object_path digest in
  map_err (fun _ => InvalidDirectory (prefix +:+ "/" +:+ name)
                      "CAS digest path is not a safe runtime-relative path")
    (runtime_relative_path_parse ("objects/blake3/" +:+ prefix +:+ "/" +:+ name)).

(** * System calls *)

(** A call that fails or is cut short may have had a part of its effect. *)
Inductive Outcome := Proceeds | Fails (partial : nat) | Crashes (partial : nat).

Class Machine := {
  meanwhile : nat -> Disk -> Disk;
  outcome : nat -> Outcome;
  (* the numbers the seeded generator of temporary names draws *)
  suffixes : nat -> Z;
}.

Record Run := { disk : Disk; calls : nat; draws : nat }.

(** How an operation ends early: with an error, with the process, or in the
    loop of [create_temporary] beyond the turns given to it. *)
Inductive Stop (E : Type) := Failed (e : E) | Crashed | OutOfTurns.
Arguments Failed {E} e.
Arguments Crashed {E}.
Arguments OutOfTurns {E}.

Definition IO (E A : Type) : Type := Run -> Run * result (Stop E) A.

Abbreviation Cas := (IO CasError).

#[global] Instance io_ret {E} : MRet (IO E) := fun A a w => (w, Ok a).
#[global] Instance io_bind {E} : MBind (IO E) := fun A B f m w =>
  match m w with
  | (w', Ok a) => f a w'
  | (w', Err e) => (w', Err e)
  end.

Definition fail {E A} (e : E) : IO E A := fun w => (w, Err (Failed e)).
Definition lift {E A} (r : result E A) : IO E A := fun w => (w, map_err Failed r).

(** The implicit conversion of [?]. *)
Definition convert {E F A} (f : E -> F) (m : IO E A) : IO F A := fun w =>
  match m w with
  | (w', Ok a) => (w', Ok a)
  | (w', Err (Failed e)) => (w', Err (Failed (f e)))
  | (w', Err Crashed) => (w', Err Crashed)
  | (w', Err OutOfTurns) => (w', Err OutOfTurns)
  end.

(** [match m { Ok(a) => .., Err(e) => .. }]: a crash is not caught. *)
Definition attempt {E A} (m : IO E A) : IO E (result E A) := fun w =>
  match m w with
  | (w', Ok a) => (w', Ok (Ok a))
  | (w', Err (Failed e)) => (w', Ok (Err e))
  | (w', Err stop) => (w', Err stop)
  end.

Section store.
Context (blake3 : list Z -> ContentDigest) (maximum_object_bytes : Z) `{Machine}.

(** One call: its whole effect and result, or a part of its effect. *)
Definition call {A} (operation path : string) (partial : nat -> Disk -> Disk)
    (effect : Disk -> Disk * result CasError A) : Cas A := fun w =>
  let d := meanwhile (calls w) (disk w) in
  let after d' := {| disk := d'; calls := S (calls w); draws := draws w |} in
  match outcome (calls w) with
  | Proceeds => let '(d', r) := effect d in (after d', map_err Failed r)
  | Fails n => (after (partial n d), Err (Failed (Io operation path)))
  | Crashes n => (after (partial n d), Err Crashed)
  end.

Definition untouched : nat -> Disk -> Disk := fun _ d => d.

(** A call that only looks. *)
Definition look {A} (operation path : string) (f : Disk -> result CasError A) : Cas A :=
  call operation path untouched (fun d => (d, f d)).

Definition sync (operation path : string) : Cas unit := look operation path (fun _ => Ok tt).

(** ** Temporary files *)

(** The path an error names. *)
Definition temporary_path : string := "objects/blake3/.tmp".

Definition new_temporary_path : Cas Z := fun w =>
  ({| disk := disk w; calls := calls w; draws := S (draws w) |}, Ok (suffixes (draws w))).

(** [create_new]: [false] when the name exists already. *)
Definition create_new (suffix : Z) : Cas bool :=
  call "create CAS temporary object" temporary_path untouched (fun d =>
    match temporaries d !! suffix with
    | Some _ => (d, Ok false)
    | None => (set_temporaries (<[suffix := []]> (temporaries d)) d, Ok true)
    end).

Fixpoint create_temporary (turns : nat) : Cas Z :=
  match turns with
  | O => fun w => (w, Err OutOfTurns)
  | S turns =>
      suffix ← new_temporary_path;
      created ← create_new suffix;
      if created : bool then mret suffix else create_temporary turns
  end.

(** [write_all]: a failed or interrupted write leaves a prefix behind. *)
Definition write_all (operation path : string) (temporary : Z) (bytes : list Z) : Cas unit :=
  let append n d := set_temporaries (alter (.++ take n bytes) temporary (temporaries d)) d in
  call operation path append (fun d => (append (length bytes) d, Ok tt)).

Definition remove_file (temporary : Z) : Cas unit :=
  call "remove CAS temporary object" temporary_path untouched
    (fun d => (set_temporaries (delete temporary (temporaries d)) d, Ok tt)).

(** [let _ = fs::remove_file(..)] on the way out with an error. *)
Definition discard {A} (temporary : Z) (e : CasError) : Cas A :=
  attempt (remove_file temporary) ;; fail e.

(** [m?], discarding the temporary file when it fails. *)
Definition or_discard {A} (temporary : Z) (m : Cas A) : Cas A :=
  r ← attempt m;
  match r with Ok a => mret a | Err e => discard temporary e end.

(** ** Verified reads *)

Definition verify_bytes (digest : ContentDigest) (expected_length : Z) (bytes : list Z)
  : result CasError unit :=
  let actual_length := Z.of_nat (length bytes) in
  let actual_digest := blake3 bytes in
  if negb (actual_length =? expected_length) || negb (bool_decide (actual_digest = digest))
  then Err (CorruptObject digest expected_length actual_length (Some actual_digest)
              (if negb (actual_length =? expected_length)
               then "length does not match the adopted object"
               else "digest does not match the object path"))
  else Ok tt.

(** [checked_object_path(digest, false)] *)
Definition checked_object_path (digest : ContentDigest) (d : Disk)
  : result CasError (string * string) :=
  let path := object_path digest in
  match directories d !! path.1 with
  | None => Err (MissingObject digest)
  | Some real => if real : bool then Ok path else Err (SourcePathEscape path.1)
  end.

Definition open_regular_file (digest : ContentDigest) (path : string * string) (d : Disk)
  : result CasError (list Z) :=
  match objects d !! path with
  | None => Err (MissingObject digest)
  | Some NotRegular => Err (ObjectNotRegularFile digest)
  | Some (Regular bytes) => Ok bytes
  end.

(** The whole of [read_verified] on one state of the disk: an installed object
    is never written again, so the size read before and after is the same. *)
Definition read_object (digest : ContentDigest) (d : Disk) : result CasError (list Z) :=
  path ← checked_object_path digest d;
  bytes ← open_regular_file digest path d;
  let declared_length := Z.of_nat (length bytes) in
  require (declared_length <=? maximum_object_bytes)
    (CorruptObject digest maximum_object_bytes declared_length None
       "object exceeds configured size limit") ;;
  verify_bytes digest declared_length bytes ;;
  Ok bytes.

Definition verify_seal (digest : ContentDigest) (d : Disk) : result CasError CasArtifact :=
  bytes ← read_object digest d;
  Ok {| cas_digest := digest; cas_byte_length := Z.of_nat (length bytes) |}.

Definition read_verified (digest : ContentDigest) : Cas (list Z) :=
  look "read CAS object" (object_path digest).2 (read_object digest).

Definition verify (digest : ContentDigest) : Cas CasArtifact :=
  look "read CAS object" (object_path digest).2 (verify_seal digest).

Definition verify_object (digest : ContentDigest) (expected_length : Z) : Cas unit :=
  declared ← look "stat CAS object" (object_path digest).2 (fun d =>
    path ← checked_object_path digest d; open_regular_file digest path d);
  lift (require (Z.of_nat (length declared) <=? maximum_object_bytes)
    (CorruptObject digest expected_length (Z.of_nat (length declared)) None
       "object exceeds configured size limit")) ;;
  bytes ← read_verified digest;
  lift (require (Z.of_nat (length bytes) =? expected_length)
    (CorruptObject digest expected_length (Z.of_nat (length bytes)) (Some (blake3 bytes))
       "length does not match the adopted object")).

(** ** Publication *)

(** [create_dir_all] follows a link to a directory and refuses a file; the
    checks after it accept a real directory only. *)
Definition prepare_object_parent (digest : ContentDigest) : Cas unit :=
  let prefix := (object_path digest).1 in
  call "create CAS object directory" prefix untouched (fun d =>
    match directories d !! prefix with
    | None => (set_directories (<[prefix := true]> (directories d)) d, Ok tt)
    | Some _ => (d, Ok tt)
    end) ;;
  look "inspect CAS object directory" prefix (fun d =>
    match directories d !! prefix with
    | Some true => Ok tt
    | _ => Err (SourcePathEscape prefix)
    end).

(** [hard_link]: the name appears with the whole content, [false] when it
    exists already. *)
Definition hard_link (temporary : Z) (digest : ContentDigest) : Cas bool :=
  call "atomically install CAS object" (object_path digest).2 untouched (fun d =>
    match objects d !! object_path digest, temporaries d !! temporary with
    | Some _, _ => (d, Ok false)
    | None, Some bytes =>
        (set_objects (<[object_path digest := Regular bytes]> (objects d)) d, Ok true)
    | None, None => (d, Err (Io "atomically install CAS object" (object_path digest).2))
    end).

Definition publish_temporary (temporary : Z) (digest : ContentDigest) (byte_length : Z)
  : Cas CasArtifact :=
  or_discard temporary (sync "fsync CAS temporary object" temporary_path) ;;
  or_discard temporary (prepare_object_parent digest) ;;
  linked ← or_discard temporary (hard_link temporary digest);
  (if linked : bool then
     or_discard temporary (sync "fsync CAS directory" (object_path digest).1) ;;
     or_discard temporary (sync "fsync CAS directory" "objects/blake3") ;;
     remove_file temporary
   else
     attempt (remove_file temporary) ;;
     verify_object digest byte_length) ;;
  mret {| cas_digest := digest; cas_byte_length := byte_length |}.

Definition adopt_kernel_bytes (turns : nat) (bytes : list Z) : Cas CasArtifact :=
  let byte_length := Z.of_nat (length bytes) in
  lift (require (byte_length <=? maximum_object_bytes)
    (SizeLimitExceeded "kernel-generated-bytes" maximum_object_bytes byte_length)) ;;
  temporary ← create_temporary turns;
  or_discard temporary
    (write_all "write kernel-generated CAS temporary object" temporary_path
       temporary bytes) ;;
  publish_temporary temporary (blake3 bytes) byte_length.

(** ** Staged files *)

(** [Path::components] of a relative path: repeated separators and [.] after
    the first component disappear. *)
Definition path_components (path : string) : list (list Z) :=
  match List.filter (fun seg => negb (is_empty seg)) (split_bytes 47 (string_bytes path)) with
  | [] => []
  | first :: rest =>
      first :: List.filter (fun seg => negb (bool_decide (seg = string_bytes "."))) rest
  end.

Definition validate_relative_source (path : string) : result CasError unit :=
  require (negb (is_empty (string_bytes path))) (UnsafeSourcePath path "path is empty") ;;
  require (negb (starts_with_byte 47 path)) (UnsafeSourcePath path "path is absolute") ;;
  for_each (fun component =>
    require (negb (bool_decide (component = string_bytes ".")))
      (UnsafeSourcePath path "path contains '.'") ;;
    require (negb (bool_decide (component = string_bytes "..")))
      (UnsafeSourcePath path "path contains '..'")) (path_components path).

(** What one opened file gave: its size and modification time before and after
    and what each [read] returned in between. *)
Record Reading := {
  initial_length : Z;
  initial_modified : option Z;
  chunks : list (list Z);
  final_length : Z;
  final_modified : option Z;
}.

(** What a path below the staging root is. *)
Inductive Staged := StagedFile (r : Reading) | StagedDirectory | StagedSymlink.

(** A staging root and what its relative paths hold, [[]] being the root. *)
Definition Staging : Type := list (list Z) -> option Staged.

(** The loop that inspects a path component by component, from the root on. *)
Fixpoint inspect_components (staging : Staging) (path : string) (done rest : list (list Z))
  : result CasError unit :=
  match rest with
  | [] => Ok tt
  | component :: rest =>
      let here := done ++ [component] in
      match staging here with
      | None => Err (Io "inspect staged path" path)
      | Some StagedSymlink => Err (SourceSymlink path)
      | Some _ => inspect_components staging path here rest
      end
  end.

(** Without links below it a path cannot leave its root, so the comparison of
    canonical paths that follows in the source cannot fail. *)
Definition open_staged_file (staging : Staging) (path : string) : result CasError Reading :=
  validate_relative_source path ;;
  match staging [] with
  | None => Err (Io "inspect staging root" path)
  | Some StagedSymlink => Err (SourceSymlink path)
  | Some (StagedFile _) => Err (InvalidDirectory path "must be a real directory")
  | Some StagedDirectory =>
      inspect_components staging path [] (path_components path) ;;
      match staging (path_components path) with
      | Some (StagedFile r) => Ok r
      | Some _ => Err (SourceNotRegularFile path)
      | None => Err (Io "inspect staged file" path)
      end
  end.

(** The copy loop: a read of no bytes ends it. *)
Fixpoint copy_chunks (path : string) (temporary : Z) (copied : list Z) (reads : list (list Z))
  : Cas (list Z) :=
  match reads with
  | [] | [] :: _ => mret copied
  | chunk :: reads =>
      let next := copied ++ chunk in
      lift (require (Z.of_nat (length next) <=? maximum_object_bytes)
        (SizeLimitExceeded path maximum_object_bytes (Z.of_nat (length next)))) ;;
      write_all "write CAS temporary object" path temporary chunk ;;
      copy_chunks path temporary next reads
  end.

Definition stream_to_temp (path : string) (temporary : Z) (r : Reading)
  : Cas (ContentDigest * Z) :=
  copied ← copy_chunks path temporary [] (chunks r);
  let byte_length := Z.of_nat (length copied) in
  lift (require ((final_length r =? initial_length r) && (final_length r =? byte_length)
                 && bool_decide (initial_modified r = final_modified r))
    (SourceChanged path)) ;;
  mret (blake3 copied, byte_length).

Definition adopt_open_file (turns : nat) (path : string) (r : Reading) : Cas CasArtifact :=
  lift (require (initial_length r <=? maximum_object_bytes)
    (SizeLimitExceeded path maximum_object_bytes (initial_length r))) ;;
  temporary ← create_temporary turns;
  '(digest, byte_length) ← or_discard temporary (stream_to_temp path temporary r);
  publish_temporary temporary digest byte_length.

Definition adopt (turns : nat) (staging : Staging) (path : string) : Cas CasArtifact :=
  r ← lift (open_staged_file staging path);
  adopt_open_file turns path r.
End store.
