(* ===== verification/TicketStore.v ===== *)
(** The ticket-buffer authority: proposal, sponsorship, claim, failure, the two
    single retries, release, campaign completion and the buffer status read
    ([crates/factory-kernel/src/ticket_store.rs], [TicketStore]). *)
From S2P Require Import Prelude Values Database.

(** * Audit subjects and operations *)

Definition PROPOSAL_SUBJECT : Z := 30.
Definition SPONSORSHIP_SUBJECT : Z := 31.
Definition CLAIMED_ATTEMPT_SUBJECT : Z := 32.
Definition CLAIM_RESOLVED_SUBJECT : Z := 33.
Definition CLAIM_BLOCKED_SUBJECT : Z := 34.
Definition FAILED_ATTEMPT_SUBJECT : Z := 35.
Definition RELEASED_ATTEMPT_SUBJECT : Z := 36.
Definition RELEASE_RESOLVED_SUBJECT : Z := 37.
Definition RELEASE_BLOCKED_SUBJECT : Z := 38.
Definition CAMPAIGN_COMPLETED_SUBJECT : Z := 39.
Definition QUALITY_RETRY_SUBJECT : Z := 45.
Definition ENGINEERING_RETRY_SUBJECT : Z := 46.

Definition PROPOSE_OPERATION : string := "ticket.propose".
Definition SPONSOR_OPERATION : string := "ticket.sponsor".
Definition CLAIM_OPERATION : string := "ticket.claim".
Definition FAIL_OPERATION : string := "ticket_attempt.fail".
Definition RELEASE_OPERATION : string := "ticket_attempt.release".
Definition QUALITY_RETRY_OPERATION : string := "ticket_attempt.retry_quality".
Definition ENGINEERING_RETRY_OPERATION : string := "ticket_attempt.retry_engineering".
Definition COMPLETE_CAMPAIGN_OPERATION : string := "campaign.complete_delivery_target".

(** * Errors ([storage.rs], the variants this store returns) *)

Inductive StoreError :=
  | Contract (e : ContractError)
  | DatabaseError (constraint : string)
  | UnknownApplicationRevision (application_revision_id : Z)
  | UnknownTicketRevision (ticket_revision_id : Z)
  | UnknownTicketAttempt (ticket_attempt_id : Z)
  | UnknownCampaign (campaign_id : Z)
  | UnknownArtifact (artifact_id : Z)
  | RevisionConflict (expected current : Z)
  | RevisionOutOfRange
  | IdempotencyConflict (principal command_id : string)
  | AuditSubjectKindMismatch
  | InvalidCommandComponent (field : string)
  | InvalidTicketField (field : string)
  | CorruptTicketState
  | CorruptLifecycleColumn
  | CorruptDigestColumn
  | ProposalNotReproducible
  | ProposalDoesNotFail
  | ProposalBufferFull
  | ReadyTicketBufferFull
  | DuplicateTicketReproducer (reproducer_artifact_id : Z)
  | TicketStateConflict (required observed : TicketState)
  | TicketAttemptNotReleasable
  | TicketAttemptAlreadyReleased
  | CampaignClosed (campaign_id : Z)
  | CampaignDeadlineElapsed
  | CampaignCostFrozen (campaign_id : Z)
  | CampaignApplicationMismatch
  | CampaignDeliveryTargetNotReached
  | EngineeringTicketAlreadyInFlight
  | PaidSessionAlreadyRunning.

(** * Commands and receipts *)

Record SubmitTicketProposal := {
  stp_principal : string;
  stp_command_id : string;
  stp_expected_application_revision : Z;
  stp_application_revision_id : Z;
  stp_proposal_artifact_id : Z;
  stp_reproducer_artifact_id : Z;
  stp_expected_observation_artifact_id : Z;
  stp_first_actual_observation_artifact_id : Z;
  stp_second_actual_observation_artifact_id : Z;
  stp_discovery_commit : string;
  stp_discovery_tree : string;
}.

Record TicketProposalReceipt := {
  tpr_ticket_id : Z;
  tpr_ticket_revision_id : Z;
  tpr_resulting_revision : Z;
  tpr_audit_log_id : Z;
  tpr_was_idempotent_retry : bool;
}.

Record SponsorTicketRevision := {
  str_principal : string;
  str_command_id : string;
  str_ticket_revision_id : Z;
  str_expected_ticket_revision : Z;
  str_reason : string;
}.

Record TicketRevisionReceipt := {
  trr_ticket_id : Z;
  trr_ticket_revision_id : Z;
  trr_state : TicketState;
  trr_resulting_revision : Z;
  trr_audit_log_id : Z;
  trr_was_idempotent_retry : bool;
}.

Record CurrentHeadRequalification := {
  current_head_commit : string;
  current_head_tree : string;
  first_actual_observation_artifact_id : Z;
  second_actual_observation_artifact_id : Z;
}.

Record ClaimSponsoredTicket := {
  cst_principal : string;
  cst_command_id : string;
  cst_campaign_id : Z;
  cst_expected_campaign_revision : Z;
  cst_ticket_revision_id : Z;
  cst_expected_ticket_revision : Z;
  cst_requalification : CurrentHeadRequalification;
}.

Inductive ClaimOutcome :=
  | Claimed (ticket_attempt_id : Z) | ClaimResolved | ClaimBlocked.

Record ClaimTicketReceipt := {
  ctr_ticket_id : Z;
  ctr_ticket_revision_id : Z;
  ctr_outcome : ClaimOutcome;
  ctr_resulting_ticket_revision : Z;
  ctr_audit_log_id : Z;
  ctr_was_idempotent_retry : bool;
}.

(** [FailTicketAttempt] and [RetryEngineeringAttempt] have the same fields. *)
Record FailTicketAttempt := {
  fta_principal : string;
  fta_command_id : string;
  fta_ticket_attempt_id : Z;
  fta_expected_attempt_revision : Z;
  fta_expected_ticket_revision : Z;
  fta_reason : string;
}.

Definition RetryEngineeringAttempt := FailTicketAttempt.

Record RetryQualityAttempt := {
  rqa_principal : string;
  rqa_command_id : string;
  rqa_ticket_attempt_id : Z;
  rqa_candidate_id : Z;
  rqa_expected_attempt_revision : Z;
  rqa_expected_ticket_revision : Z;
  rqa_reason : string;
}.

Record TicketAttemptReceipt := {
  tar_ticket_attempt_id : Z;
  tar_resulting_attempt_revision : Z;
  tar_audit_log_id : Z;
  tar_was_idempotent_retry : bool;
}.

Record ReleaseTicketAttempt := {
  rta_principal : string;
  rta_command_id : string;
  rta_ticket_attempt_id : Z;
  rta_expected_attempt_revision : Z;
  rta_expected_ticket_revision : Z;
  rta_reason : string;
  rta_requalification : CurrentHeadRequalification;
}.

Inductive ReleaseOutcome := Released | ReleaseResolved | ReleaseBlocked.

Record ReleaseTicketReceipt := {
  rtr_ticket_id : Z;
  rtr_ticket_revision_id : Z;
  rtr_ticket_attempt_id : Z;
  rtr_outcome : ReleaseOutcome;
  rtr_resulting_ticket_revision : Z;
  rtr_resulting_attempt_revision : Z;
  rtr_audit_log_id : Z;
  rtr_was_idempotent_retry : bool;
}.

Record CompleteCampaignAtDeliveryTarget := {
  ccd_principal : string;
  ccd_command_id : string;
  ccd_campaign_id : Z;
  ccd_expected_campaign_revision : Z;
}.

Inductive RequalificationOutcome := Reproduced | RequalificationResolved | Diverged.

#[global] Instance RequalificationOutcome_eq_dec : EqDecision RequalificationOutcome.
Proof. solve_decision. Defined.

(** * Shared checks *)

(** [X_Id::new(value)?] with the error conversion of this store. *)
Definition new_id (kind : string) (value : Z) : result StoreError Z :=
  map_err Contract (identifier_new kind value).

Definition next_revision (r : Z) : result StoreError Z := map_err Contract (revision_next r).

Definition db_result {A} (r : result string A) : result StoreError A := map_err DatabaseError r.

Definition is_command_byte (b : Z) : bool :=
  is_ascii_digit b || ((65 <=? b) && (b <=? 90)) || ((97 <=? b) && (b <=? 122))
  || (b =? 46) || (b =? 58) || (b =? 95) || (b =? 45).

Definition command_component (value : string) : bool :=
  negb (is_empty (string_bytes value)) && (string_len value <=? 160)
  && forallb is_command_byte (string_bytes value).

Definition validate_command (principal command_id : string) : result StoreError unit :=
  for_each (fun '(field, value) =>
    require (command_component value) (InvalidCommandComponent field))
    [("principal", principal); ("command ID", command_id)]%string.

Definition bounded_text (value : string) (maximum : Z) : bool :=
  negb (is_empty (string_bytes value)) && (string_len value <=? maximum)
  && negb (contains_byte 0 value).

Definition validate_snapshot (value field : string) : result StoreError unit :=
  require (bounded_text value 240) (InvalidTicketField field).

Definition validate_reason (value field : string) : result StoreError unit :=
  require (bounded_text value 4096) (InvalidTicketField field).

Definition validate_requalification (value : CurrentHeadRequalification) : result StoreError unit :=
  validate_snapshot (current_head_commit value) "current-head commit" ;;
  validate_snapshot (current_head_tree value) "current-head tree".

Definition revision_from_sql (value : Z) : result StoreError Z :=
  if value <? 0 then Err RevisionOutOfRange else Ok value.

Definition revision_to_sql (value : Z) : result StoreError Z :=
  if i64_max <? value then Err RevisionOutOfRange else Ok value.

Definition u32_from_sql (value : Z) (field : string) : result StoreError Z :=
  if (0 <=? value) && (value <? 2 ^ 32) then Ok value else Err (InvalidTicketField field).

Definition ticket_state_from_sql (value : Z) : result StoreError TicketState :=
  if value =? TICKET_PROPOSED then Ok Proposed
  else if value =? TICKET_SPONSORED then Ok Sponsored
  else if value =? TICKET_IN_FLIGHT then Ok InFlight
  else if value =? TICKET_DELIVERED then Ok Delivered
  else if value =? TICKET_BLOCKED then Ok Blocked
  else if value =? TICKET_RESOLVED then Ok Resolved
  else if value =? TICKET_SUPERSEDED then Ok Superseded
  else if value =? TICKET_REJECTED then Ok Rejected
  else Err CorruptTicketState.

Definition require_ticket_state (required observed : TicketState) : result StoreError unit :=
  require (bool_decide (required = observed)) (TicketStateConflict required observed).

Definition require_expected (expected current : Z) : result StoreError unit :=
  require (expected =? current) (RevisionConflict expected current).

(** * Audit receipts *)

Record TicketAuditReceipt := {
  receipt_audit_log_id : Z;
  receipt_subject_kind : Z;
  receipt_subject_id : Z;
  receipt_resulting_revision : Z;
}.

Definition find_ticket_audit (db : Database) (principal command_id expected_operation : string)
    (fingerprint : ContentDigest) : result StoreError (option TicketAuditReceipt) :=
  match audit_log db !! (principal, command_id) with
  | None => Ok None
  | Some row =>
      require (bool_decide (al_operation row = expected_operation)
               && bool_decide (al_command_fingerprint row = fingerprint))
        (IdempotencyConflict principal command_id) ;;
      resulting_revision ← revision_from_sql (al_resulting_revision row);
      Ok (Some {|
        receipt_audit_log_id := al_id row;
        receipt_subject_kind := al_subject_kind row;
        receipt_subject_id := al_subject_id row;
        receipt_resulting_revision := resulting_revision |})
  end.

Definition insert_ticket_audit (db : Database) (principal command_id operation : string)
    (fingerprint : ContentDigest) (subject_kind subject_id resulting_revision : Z)
  : result StoreError (Z * Database) :=
  sql ← revision_to_sql resulting_revision;
  db_result (insert_audit_row principal command_id (fun id => {|
    al_id := id;
    al_operation := operation;
    al_command_fingerprint := fingerprint;
    al_subject_kind := subject_kind;
    al_subject_id := subject_id;
    al_resulting_revision := sql |}) db).

Definition require_ticket_subject (receipt : TicketAuditReceipt) (subject : Z)
  : result StoreError unit :=
  require (receipt_subject_kind receipt =? subject) AuditSubjectKindMismatch.

Definition claim_outcome_from_receipt (receipt : TicketAuditReceipt)
  : result StoreError ClaimOutcome :=
  let kind := receipt_subject_kind receipt in
  if kind =? CLAIMED_ATTEMPT_SUBJECT
  then id ← new_id "ticket attempt ID" (receipt_subject_id receipt); Ok (Claimed id)
  else if kind =? CLAIM_RESOLVED_SUBJECT then Ok ClaimResolved
  else if kind =? CLAIM_BLOCKED_SUBJECT then Ok ClaimBlocked
  else Err AuditSubjectKindMismatch.

Definition release_outcome_from_receipt (receipt : TicketAuditReceipt)
  : result StoreError ReleaseOutcome :=
  let kind := receipt_subject_kind receipt in
  if kind =? RELEASED_ATTEMPT_SUBJECT then Ok Released
  else if kind =? RELEASE_RESOLVED_SUBJECT then Ok ReleaseResolved
  else if kind =? RELEASE_BLOCKED_SUBJECT then Ok ReleaseBlocked
  else Err AuditSubjectKindMismatch.

(** * Locked rows *)

Record TicketRevisionLocked := {
  tl_ticket_id : Z;
  tl_ticket_revision_id : Z;
  tl_application_revision_id : Z;
  tl_state : TicketState;
  tl_revision : Z;
  tl_expected_observation_artifact_id : Z;
  tl_discovery_observation_artifact_id : Z;
}.

Record TicketAttemptLocked := {
  al_ticket_id : Z;
  al_ticket_revision_id : Z;
  al_stage : Z;
  al_released : bool;
  al_revision : Z;
  al_ticket_revision : Z;
  al_ticket_state : TicketState;
  al_ticket : TicketRevisionLocked;
}.

(** [ticket_revisions JOIN tickets] on one revision id. *)
Definition ticket_revision_join (db : Database) (ticket_revision_id : Z)
  : option (TicketRevisionRow * TicketRow) :=
  tr ← ticket_revisions db !! ticket_revision_id;
  t ← tickets db !! tr_ticket_id (tr_contract tr);
  Some (tr, t).

Definition lock_ticket_revision (db : Database) (ticket_revision_id : Z)
  : result StoreError TicketRevisionLocked :=
  row ← ok_or (ticket_revision_join db ticket_revision_id)
          (UnknownTicketRevision ticket_revision_id);
  let '(tr, t) := row in
  require (t_current_ticket_revision_id t =? ticket_revision_id) CorruptTicketState ;;
  state ← ticket_state_from_sql (tr_lifecycle tr);
  ticket_state ← ticket_state_from_sql (t_lifecycle t);
  require (bool_decide (state = ticket_state)) CorruptTicketState ;;
  require (tr_revision tr =? t_revision t) CorruptTicketState ;;
  ticket_id ← new_id "ticket ID" (tr_ticket_id (tr_contract tr));
  application ← new_id "application revision ID" (tr_application_revision_id (tr_contract tr));
  revision ← revision_from_sql (tr_revision tr);
  expected ← new_id "artifact ID" (tr_expected_observation_artifact_id (tr_contract tr));
  discovery ← new_id "artifact ID" (tr_discovery_observation_artifact_id (tr_contract tr));
  Ok {| tl_ticket_id := ticket_id;
        tl_ticket_revision_id := ticket_revision_id;
        tl_application_revision_id := application;
        tl_state := state;
        tl_revision := revision;
        tl_expected_observation_artifact_id := expected;
        tl_discovery_observation_artifact_id := discovery |}.

(** The same reads and checks with the attempt's row joined in front. *)
Definition lock_ticket_attempt (db : Database) (ticket_attempt_id : Z)
  : result StoreError TicketAttemptLocked :=
  row ← ok_or
    (ta ← ticket_attempts db !! ticket_attempt_id;
     '(tr, t) ← ticket_revision_join db (ta_ticket_revision_id (ta_claim ta));
     Some (ta, tr, t)) (UnknownTicketAttempt ticket_attempt_id);
  let '(ta, tr, t) := row in
  ticket_revision_id ← new_id "ticket revision ID" (ta_ticket_revision_id (ta_claim ta));
  require (t_current_ticket_revision_id t =? ticket_revision_id) CorruptTicketState ;;
  state ← ticket_state_from_sql (tr_lifecycle tr);
  ticket_state ← ticket_state_from_sql (t_lifecycle t);
  require (bool_decide (state = ticket_state)) CorruptTicketState ;;
  require (tr_revision tr =? t_revision t) CorruptTicketState ;;
  ticket_id ← new_id "ticket ID" (tr_ticket_id (tr_contract tr));
  application ← new_id "application revision ID" (tr_application_revision_id (tr_contract tr));
  ticket_revision ← revision_from_sql (tr_revision tr);
  expected ← new_id "artifact ID" (tr_expected_observation_artifact_id (tr_contract tr));
  discovery ← new_id "artifact ID" (tr_discovery_observation_artifact_id (tr_contract tr));
  revision ← revision_from_sql (ta_revision ta);
  Ok {| al_ticket_id := ticket_id;
        al_ticket_revision_id := ticket_revision_id;
        al_stage := ta_stage ta;
        al_released := bool_decide (is_Some (ta_released_at ta));
        al_revision := revision;
        al_ticket_revision := ticket_revision;
        al_ticket_state := state;
        al_ticket := {|
          tl_ticket_id := ticket_id;
          tl_ticket_revision_id := ticket_revision_id;
          tl_application_revision_id := application;
          tl_state := state;
          tl_revision := ticket_revision;
          tl_expected_observation_artifact_id := expected;
          tl_discovery_observation_artifact_id := discovery |} |}.

Definition ticket_revision_for_attempt (db : Database) (ticket_attempt_id : Z)
  : result StoreError Z :=
  row ← ok_or (ticket_attempts db !! ticket_attempt_id) (UnknownTicketAttempt ticket_attempt_id);
  new_id "ticket revision ID" (ta_ticket_revision_id (ta_claim row)).

(** * Ticket updates *)

Definition option_or {A} (a b : option A) : option A :=
  match a with Some _ => a | None => b end.

Definition update_ticket_states (db : Database) (ticket : TicketRevisionLocked) (state next : Z)
    (sponsorship_reason blocked_reason : option string) : result StoreError Database :=
  sql ← revision_to_sql next;
  db ← db_result (update_ticket_revision (tl_ticket_revision_id ticket) (fun row => {|
    tr_contract := tr_contract row;
    tr_lifecycle := state;
    tr_sponsored_at := match sponsorship_reason with
                       | None => tr_sponsored_at row | Some _ => Some (now db) end;
    tr_sponsorship_reason := option_or sponsorship_reason (tr_sponsorship_reason row);
    tr_last_requalification := tr_last_requalification row;
    tr_blocked_reason := option_or blocked_reason (tr_blocked_reason row);
    tr_revision := sql |}) db);
  Ok (update_ticket (tl_ticket_id ticket) state sql db).

Definition update_requalification_and_ticket_state (db : Database)
    (ticket : TicketRevisionLocked) (state next outcome : Z)
    (requalification : CurrentHeadRequalification) (blocked_reason : option string)
  : result StoreError Database :=
  sql ← revision_to_sql next;
  db ← db_result (update_ticket_revision (tl_ticket_revision_id ticket) (fun row => {|
    tr_contract := tr_contract row;
    tr_lifecycle := state;
    tr_sponsored_at := tr_sponsored_at row;
    tr_sponsorship_reason := tr_sponsorship_reason row;
    tr_last_requalification := Some {|
      requalification_outcome := outcome;
      requalification_commit := current_head_commit requalification;
      requalification_tree := current_head_tree requalification;
      requalification_first := first_actual_observation_artifact_id requalification;
      requalification_second := second_actual_observation_artifact_id requalification;
      requalified_at := now db |};
    tr_blocked_reason := blocked_reason;
    tr_revision := sql |}) db);
  Ok (update_ticket (tl_ticket_id ticket) state sql db).

Definition artifact_digest (db : Database) (artifact_id : Z) : result StoreError ContentDigest :=
  row ← ok_or (artifacts db !! artifact_id) (UnknownArtifact artifact_id);
  if Nat.eqb (length (art_digest row)) 32 then Ok (art_digest row) else Err CorruptDigestColumn.

Definition classify_requalification (db : Database) (ticket : TicketRevisionLocked)
    (requalification : CurrentHeadRequalification) : result StoreError RequalificationOutcome :=
  expected ← artifact_digest db (tl_expected_observation_artifact_id ticket);
  discovery ← artifact_digest db (tl_discovery_observation_artifact_id ticket);
  first ← artifact_digest db (first_actual_observation_artifact_id requalification);
  second ← artifact_digest db (second_actual_observation_artifact_id requalification);
  if negb (bool_decide (first = second)) then Ok Diverged
  else if bool_decide (first = expected) then Ok RequalificationResolved
  else if bool_decide (first = discovery) then Ok Reproduced
  else Ok Diverged.

(** * Counts *)

Definition application_revision_ticket_count (db : Database) (application_revision_id state : Z)
  : Z := current_ticket_revision_count (Z.eqb application_revision_id) state db.

(** All application revisions of one application key together. *)
Definition application_ticket_count_in_transaction (db : Database) (key : string) (state : Z)
  : Z :=
  current_ticket_revision_count (fun id =>
    match application_revisions db !! id with
    | Some row => String.eqb (application_key row) key
    | None => false
    end) state db.

Definition lookup_application_revision (db : Database) (id : Z)
  : result StoreError ApplicationRevisionRow :=
  ok_or (application_revisions db !! id) (UnknownApplicationRevision id).

Definition validate_claim_campaign (db : Database) (command : ClaimSponsoredTicket)
    (ticket : TicketRevisionLocked) : result StoreError unit :=
  row ← ok_or
    (campaign ← campaigns db !! cst_campaign_id command;
     _ ← application_revisions db !! cmp_application_revision_id campaign;
     _ ← application_revisions db !! tl_application_revision_id ticket;
     Some campaign) (UnknownCampaign (cst_campaign_id command));
  revision ← revision_from_sql (cmp_revision row);
  require_expected (cst_expected_campaign_revision command) revision ;;
  require (cmp_lifecycle row =? CAMPAIGN_RUNNING) (CampaignClosed (cst_campaign_id command)) ;;
  require (now db <? cmp_deadline row) CampaignDeadlineElapsed ;;
  require (cmp_cost_state row =? COST_KNOWN) (CampaignCostFrozen (cst_campaign_id command)) ;;
  require (cmp_application_revision_id row =? tl_application_revision_id ticket)
    CampaignApplicationMismatch ;;
  require (application_revision_ticket_count db (tl_application_revision_id ticket)
             TICKET_IN_FLIGHT <=? 0) EngineeringTicketAlreadyInFlight ;;
  require (negb (paid_session_active db)) PaidSessionAlreadyRunning.

(** [UPDATE factory.ticket_attempts SET stage, failed_at, failure_reason, revision]:
    [Some reason] stamps the clock, [None] writes two NULLs. *)
Definition set_attempt_stage (stage : Z) (failed : option (Z * string)) (revision : Z)
    (row : TicketAttemptRow) : TicketAttemptRow := {|
  ta_claim := ta_claim row;
  ta_stage := stage;
  ta_candidate_ordinal := ta_candidate_ordinal row;
  ta_rework_ordinal := ta_rework_ordinal row;
  ta_failed_at := fst <$> failed;
  ta_failure_reason := snd <$> failed;
  ta_released_at := ta_released_at row;
  ta_release_reason := ta_release_reason row;
  ta_revision := revision |}.

Definition set_attempt_released (at_time : Z) (reason : string) (revision : Z)
    (row : TicketAttemptRow) : TicketAttemptRow := {|
  ta_claim := ta_claim row;
  ta_stage := ta_stage row;
  ta_candidate_ordinal := ta_candidate_ordinal row;
  ta_rework_ordinal := ta_rework_ordinal row;
  ta_failed_at := ta_failed_at row;
  ta_failure_reason := ta_failure_reason row;
  ta_released_at := Some at_time;
  ta_release_reason := Some reason;
  ta_revision := revision |}.

(** [SELECT EXISTS (SELECT 1 FROM factory.audit_log WHERE operation = $1 AND
    subject_kind = $2 AND subject_id = $3)] *)
Definition audit_subject_exists (db : Database) (operation : string) (kind id : Z) : bool :=
  existsb (fun kv => bool_decide (al_operation kv.2 = operation)
                     && (al_subject_kind kv.2 =? kind) && (al_subject_id kv.2 =? id))
    (map_to_list (audit_log db)).

Definition failable_stage (stage : Z) : bool :=
  existsb (Z.eqb stage)
    [ATTEMPT_ENGINEERING; ATTEMPT_HARD_VALIDATION; ATTEMPT_QUALITY; ATTEMPT_AWAITING_ARCHITECT;
     ATTEMPT_REWORK_ENGINEERING; ATTEMPT_REWORK_VALIDATION; ATTEMPT_REWORK_QUALITY].

Definition can_retry_quality_attempt (attempt_stage candidate_lifecycle : Z)
    (candidate_commit_present prior_quality_retry_exists : bool) : bool :=
  ((attempt_stage =? ATTEMPT_QUALITY) || (attempt_stage =? ATTEMPT_FAILED))
  && (candidate_lifecycle =? CANDIDATE_VALIDATED)
  && candidate_commit_present && negb prior_quality_retry_exists.

Definition can_retry_engineering_attempt (attempt_stage : Z)
    (candidate_exists prior_engineering_retry_exists : bool) : bool :=
  (attempt_stage =? ATTEMPT_FAILED) && negb candidate_exists
  && negb prior_engineering_retry_exists.

(** * Command fingerprints

    A hasher is the list of bytes it has absorbed; [blake3] is the hash of the
    [blake3] crate, whose [update] calls hash the concatenation. *)

Definition hash_string (value : string) : list Z :=
  be_bytes 8 (string_len value) ++ string_bytes value.
Definition hash_revision (value : Z) : list Z := be_bytes 8 value.
Definition hash_artifact (value : Z) : list Z := be_bytes 8 value.
Definition hash_id (value : Z) : list Z := be_bytes 8 value.

Definition ticket_fingerprint_prefix (operation principal command_id : string) : list Z :=
  string_bytes operation ++ hash_string principal ++ hash_string command_id.

Definition hash_requalification (value : CurrentHeadRequalification) : list Z :=
  hash_string (current_head_commit value) ++ hash_string (current_head_tree value)
  ++ hash_artifact (first_actual_observation_artifact_id value)
  ++ hash_artifact (second_actual_observation_artifact_id value).

Definition proposal_preimage (c : SubmitTicketProposal) : list Z :=
  ticket_fingerprint_prefix PROPOSE_OPERATION (stp_principal c) (stp_command_id c)
  ++ hash_revision (stp_expected_application_revision c)
  ++ hash_id (stp_application_revision_id c)
  ++ hash_artifact (stp_proposal_artifact_id c)
  ++ hash_artifact (stp_reproducer_artifact_id c)
  ++ hash_artifact (stp_expected_observation_artifact_id c)
  ++ hash_artifact (stp_first_actual_observation_artifact_id c)
  ++ hash_artifact (stp_second_actual_observation_artifact_id c)
  ++ hash_string (stp_discovery_commit c) ++ hash_string (stp_discovery_tree c).

Definition sponsor_preimage (c : SponsorTicketRevision) : list Z :=
  ticket_fingerprint_prefix SPONSOR_OPERATION (str_principal c) (str_command_id c)
  ++ hash_id (str_ticket_revision_id c)
  ++ hash_revision (str_expected_ticket_revision c) ++ hash_string (str_reason c).

Definition claim_preimage (c : ClaimSponsoredTicket) : list Z :=
  ticket_fingerprint_prefix CLAIM_OPERATION (cst_principal c) (cst_command_id c)
  ++ hash_id (cst_campaign_id c) ++ hash_revision (cst_expected_campaign_revision c)
  ++ hash_id (cst_ticket_revision_id c) ++ hash_revision (cst_expected_ticket_revision c)
  ++ hash_requalification (cst_requalification c).

Definition failure_preimage (operation : string) (c : FailTicketAttempt) : list Z :=
  ticket_fingerprint_prefix operation (fta_principal c) (fta_command_id c)
  ++ hash_id (fta_ticket_attempt_id c) ++ hash_revision (fta_expected_attempt_revision c)
  ++ hash_revision (fta_expected_ticket_revision c) ++ hash_string (fta_reason c).

Definition quality_retry_preimage (c : RetryQualityAttempt) : list Z :=
  ticket_fingerprint_prefix QUALITY_RETRY_OPERATION (rqa_principal c) (rqa_command_id c)
  ++ hash_id (rqa_ticket_attempt_id c) ++ hash_id (rqa_candidate_id c)
  ++ hash_revision (rqa_expected_attempt_revision c)
  ++ hash_revision (rqa_expected_ticket_revision c) ++ hash_string (rqa_reason c).

Definition release_preimage (c : ReleaseTicketAttempt) : list Z :=
  ticket_fingerprint_prefix RELEASE_OPERATION (rta_principal c) (rta_command_id c)
  ++ hash_id (rta_ticket_attempt_id c) ++ hash_revision (rta_expected_attempt_revision c)
  ++ hash_revision (rta_expected_ticket_revision c) ++ hash_string (rta_reason c)
  ++ hash_requalification (rta_requalification c).

Definition completion_preimage (c : CompleteCampaignAtDeliveryTarget) : list Z :=
  ticket_fingerprint_prefix COMPLETE_CAMPAIGN_OPERATION (ccd_principal c) (ccd_command_id c)
  ++ hash_id (ccd_campaign_id c) ++ hash_revision (ccd_expected_campaign_revision c).

Section Operations.
Variable blake3 : list Z -> ContentDigest.

(** * Proposal *)

Definition submit_ticket_proposal (db : Database) (command : SubmitTicketProposal)
  : result StoreError (TicketProposalReceipt * Database) :=
  validate_command (stp_principal command) (stp_command_id command) ;;
  validate_snapshot (stp_discovery_commit command) "discovery commit" ;;
  validate_snapshot (stp_discovery_tree command) "discovery tree" ;;
  let fingerprint := blake3 (proposal_preimage command) in
  application ← lookup_application_revision db (stp_application_revision_id command);
  receipt ← find_ticket_audit db (stp_principal command) (stp_command_id command)
              PROPOSE_OPERATION fingerprint;
  match receipt with
  | Some receipt =>
      require_ticket_subject receipt PROPOSAL_SUBJECT ;;
      ticket_revision_id ← new_id "ticket revision ID" (receipt_subject_id receipt);
      row ← ok_or (ticket_revisions db !! ticket_revision_id)
              (UnknownTicketRevision ticket_revision_id);
      ticket_id ← new_id "ticket ID" (tr_ticket_id (tr_contract row));
      Ok ({| tpr_ticket_id := ticket_id;
             tpr_ticket_revision_id := ticket_revision_id;
             tpr_resulting_revision := receipt_resulting_revision receipt;
             tpr_audit_log_id := receipt_audit_log_id receipt;
             tpr_was_idempotent_retry := true |}, db)
  | None =>
      application_revision ← revision_from_sql (app_aggregate_revision application);
      require_expected (stp_expected_application_revision command) application_revision ;;
      expected ← artifact_digest db (stp_expected_observation_artifact_id command);
      first ← artifact_digest db (stp_first_actual_observation_artifact_id command);
      second ← artifact_digest db (stp_second_actual_observation_artifact_id command);
      _ ← artifact_digest db (stp_proposal_artifact_id command);
      _ ← artifact_digest db (stp_reproducer_artifact_id command);
      require (bool_decide (first = second)) ProposalNotReproducible ;;
      require (negb (bool_decide (first = expected))) ProposalDoesNotFail ;;
      require (application_ticket_count_in_transaction db (application_key application)
                 TICKET_PROPOSED <? proposal_maximum application) ProposalBufferFull ;;
      require (negb (exists_where (fun _ row =>
          (tr_application_revision_id (tr_contract row) =? stp_application_revision_id command)
          && (tr_reproducer_artifact_id (tr_contract row) =? stp_reproducer_artifact_id command)
          && negb (tr_lifecycle row =? 4)) (ticket_revisions db)))
        (DuplicateTicketReproducer (stp_reproducer_artifact_id command)) ;;
      let ticket_id := fresh_id (tickets db) in
      let ticket_revision_id := fresh_id (ticket_revisions db) in
      let db1 := insert_ticket ticket_id {|
        t_application_revision_id := stp_application_revision_id command;
        t_lifecycle := TICKET_PROPOSED;
        t_current_ticket_revision_id := ticket_revision_id;
        t_revision := 0 |} db in
      db2 ← db_result (put_ticket_revision ticket_revision_id {|
        tr_contract := {|
          tr_ticket_id := ticket_id;
          tr_application_revision_id := stp_application_revision_id command;
          tr_revision_ordinal := 1;
          tr_proposal_artifact_id := stp_proposal_artifact_id command;
          tr_reproducer_artifact_id := stp_reproducer_artifact_id command;
          tr_expected_observation_artifact_id := stp_expected_observation_artifact_id command;
          tr_discovery_observation_artifact_id :=
            stp_first_actual_observation_artifact_id command;
          tr_discovery_commit := stp_discovery_commit command;
          tr_discovery_tree := stp_discovery_tree command;
          tr_created_at := now db |};
        tr_lifecycle := TICKET_PROPOSED;
        tr_sponsored_at := None;
        tr_sponsorship_reason := None;
        tr_last_requalification := None;
        tr_blocked_reason := None;
        tr_revision := 0 |} db1);
      audit ← insert_ticket_audit db2 (stp_principal command) (stp_command_id command)
        PROPOSE_OPERATION fingerprint PROPOSAL_SUBJECT ticket_revision_id revision_initial;
      let '(audit_log_id, db3) := audit in
      ticket_id ← new_id "ticket ID" ticket_id;
      ticket_revision_id ← new_id "ticket revision ID" ticket_revision_id;
      Ok ({| tpr_ticket_id := ticket_id;
             tpr_ticket_revision_id := ticket_revision_id;
             tpr_resulting_revision := revision_initial;
             tpr_audit_log_id := audit_log_id;
             tpr_was_idempotent_retry := false |}, db3)
  end.

(** * Sponsorship *)

(** The ready-buffer test both sponsorship and release make. *)
Definition ready_buffer_full (db : Database) (application : ApplicationRevisionRow) : bool :=
  match ticket_maximum application with
  | Some maximum =>
      maximum <=? application_ticket_count_in_transaction db (application_key application)
                    TICKET_SPONSORED
  | None => false
  end.

Definition sponsor_ticket_revision (db : Database) (command : SponsorTicketRevision)
  : result StoreError (TicketRevisionReceipt * Database) :=
  validate_command (str_principal command) (str_command_id command) ;;
  validate_reason (str_reason command) "sponsorship reason" ;;
  let fingerprint := blake3 (sponsor_preimage command) in
  receipt ← find_ticket_audit db (str_principal command) (str_command_id command)
              SPONSOR_OPERATION fingerprint;
  match receipt with
  | Some receipt =>
      require_ticket_subject receipt SPONSORSHIP_SUBJECT ;;
      status ← lock_ticket_revision db (str_ticket_revision_id command);
      Ok ({| trr_ticket_id := tl_ticket_id status;
             trr_ticket_revision_id := str_ticket_revision_id command;
             trr_state := tl_state status;
             trr_resulting_revision := receipt_resulting_revision receipt;
             trr_audit_log_id := receipt_audit_log_id receipt;
             trr_was_idempotent_retry := true |}, db)
  | None =>
      status ← lock_ticket_revision db (str_ticket_revision_id command);
      require_expected (str_expected_ticket_revision command) (tl_revision status) ;;
      require_ticket_state Proposed (tl_state status) ;;
      application ← lookup_application_revision db (tl_application_revision_id status);
      require (negb (ready_buffer_full db application)) ReadyTicketBufferFull ;;
      next ← next_revision (tl_revision status);
      db1 ← update_ticket_states db status TICKET_SPONSORED next (Some (str_reason command)) None;
      audit ← insert_ticket_audit db1 (str_principal command) (str_command_id command)
        SPONSOR_OPERATION fingerprint SPONSORSHIP_SUBJECT (str_ticket_revision_id command) next;
      let '(audit_log_id, db2) := audit in
      Ok ({| trr_ticket_id := tl_ticket_id status;
             trr_ticket_revision_id := str_ticket_revision_id command;
             trr_state := Sponsored;
             trr_resulting_revision := next;
             trr_audit_log_id := audit_log_id;
             trr_was_idempotent_retry := false |}, db2)
  end.

(** * Claim *)

Definition diverged_reason : string :=
  "current-head reproducer differs from the sponsored failure".

(** The [match outcome] of the claim: the effects and the audit subject. *)
Definition claim_effect (db : Database) (command : ClaimSponsoredTicket)
    (status : TicketRevisionLocked) (next : Z) (outcome : RequalificationOutcome)
  : result StoreError (ClaimOutcome * Z * Z * Database) :=
  let requalify db state code reason :=
    update_requalification_and_ticket_state db status state next code
      (cst_requalification command) reason in
  match outcome with
  | Reproduced =>
      inserted ← db_result (insert_ticket_attempt {|
        ta_claim := {|
          ta_ticket_revision_id := cst_ticket_revision_id command;
          ta_campaign_id := cst_campaign_id command;
          ta_claimed_commit := current_head_commit (cst_requalification command);
          ta_claimed_tree := current_head_tree (cst_requalification command);
          ta_created_at := now db |};
        ta_stage := ATTEMPT_ENGINEERING;
        ta_candidate_ordinal := 0;
        ta_rework_ordinal := 0;
        ta_failed_at := None;
        ta_failure_reason := None;
        ta_released_at := None;
        ta_release_reason := None;
        ta_revision := 0 |} db);
      let '(attempt_id, db1) := inserted in
      db2 ← requalify db1 TICKET_IN_FLIGHT REQUALIFICATION_REPRODUCED None;
      attempt ← new_id "ticket attempt ID" attempt_id;
      Ok (Claimed attempt, CLAIMED_ATTEMPT_SUBJECT, attempt_id, db2)
  | RequalificationResolved =>
      db1 ← requalify db TICKET_RESOLVED REQUALIFICATION_RESOLVED None;
      Ok (ClaimResolved, CLAIM_RESOLVED_SUBJECT, cst_ticket_revision_id command, db1)
  | Diverged =>
      db1 ← requalify db TICKET_BLOCKED REQUALIFICATION_DIVERGED (Some diverged_reason);
      Ok (ClaimBlocked, CLAIM_BLOCKED_SUBJECT, cst_ticket_revision_id command, db1)
  end.

Definition claim_sponsored_ticket (db : Database) (command : ClaimSponsoredTicket)
  : result StoreError (ClaimTicketReceipt * Database) :=
  validate_command (cst_principal command) (cst_command_id command) ;;
  validate_requalification (cst_requalification command) ;;
  let fingerprint := blake3 (claim_preimage command) in
  receipt ← find_ticket_audit db (cst_principal command) (cst_command_id command)
              CLAIM_OPERATION fingerprint;
  match receipt with
  | Some receipt =>
      outcome ← claim_outcome_from_receipt receipt;
      ticket_revision_id ←
        match outcome with
        | Claimed _ =>
            attempt_id ← new_id "ticket attempt ID" (receipt_subject_id receipt);
            ticket_revision_for_attempt db attempt_id
        | ClaimResolved | ClaimBlocked => Ok (cst_ticket_revision_id command)
        end;
      status ← lock_ticket_revision db ticket_revision_id;
      Ok ({| ctr_ticket_id := tl_ticket_id status;
             ctr_ticket_revision_id := ticket_revision_id;
             ctr_outcome := outcome;
             ctr_resulting_ticket_revision := receipt_resulting_revision receipt;
             ctr_audit_log_id := receipt_audit_log_id receipt;
             ctr_was_idempotent_retry := true |}, db)
  | None =>
      status ← lock_ticket_revision db (cst_ticket_revision_id command);
      require_expected (cst_expected_ticket_revision command) (tl_revision status) ;;
      require_ticket_state Sponsored (tl_state status) ;;
      validate_claim_campaign db command status ;;
      outcome ← classify_requalification db status (cst_requalification command);
      next ← next_revision (tl_revision status);
      effect ← claim_effect db command status next outcome;
      let '(outcome, subject_kind, subject_id, db1) := effect in
      audit ← insert_ticket_audit db1 (cst_principal command) (cst_command_id command)
        CLAIM_OPERATION fingerprint subject_kind subject_id next;
      let '(audit_log_id, db2) := audit in
      Ok ({| ctr_ticket_id := tl_ticket_id status;
             ctr_ticket_revision_id := cst_ticket_revision_id command;
             ctr_outcome := outcome;
             ctr_resulting_ticket_revision := next;
             ctr_audit_log_id := audit_log_id;
             ctr_was_idempotent_retry := false |}, db2)
  end.

(** * Failure and the two single retries *)

Definition replayed_attempt (attempt_id : Z) (receipt : TicketAuditReceipt)
  : TicketAttemptReceipt := {|
  tar_ticket_attempt_id := attempt_id;
  tar_resulting_attempt_revision := receipt_resulting_revision receipt;
  tar_audit_log_id := receipt_audit_log_id receipt;
  tar_was_idempotent_retry := true |}.

Definition fail_ticket_attempt (db : Database) (command : FailTicketAttempt)
  : result StoreError (TicketAttemptReceipt * Database) :=
  validate_command (fta_principal command) (fta_command_id command) ;;
  validate_reason (fta_reason command) "failure reason" ;;
  let fingerprint := blake3 (failure_preimage FAIL_OPERATION command) in
  receipt ← find_ticket_audit db (fta_principal command) (fta_command_id command)
              FAIL_OPERATION fingerprint;
  match receipt with
  | Some receipt =>
      require_ticket_subject receipt FAILED_ATTEMPT_SUBJECT ;;
      Ok (replayed_attempt (fta_ticket_attempt_id command) receipt, db)
  | None =>
      attempt ← lock_ticket_attempt db (fta_ticket_attempt_id command);
      require_expected (fta_expected_attempt_revision command) (al_revision attempt) ;;
      require_expected (fta_expected_ticket_revision command) (al_ticket_revision attempt) ;;
      require_ticket_state InFlight (al_ticket_state attempt) ;;
      require (failable_stage (al_stage attempt)) TicketAttemptNotReleasable ;;
      next ← next_revision (al_revision attempt);
      sql ← revision_to_sql next;
      let db1 := update_ticket_attempt (fta_ticket_attempt_id command)
        (set_attempt_stage ATTEMPT_FAILED (Some (now db, fta_reason command)) sql) db in
      audit ← insert_ticket_audit db1 (fta_principal command) (fta_command_id command)
        FAIL_OPERATION fingerprint FAILED_ATTEMPT_SUBJECT (fta_ticket_attempt_id command) next;
      let '(audit_log_id, db2) := audit in
      Ok ({| tar_ticket_attempt_id := fta_ticket_attempt_id command;
             tar_resulting_attempt_revision := next;
             tar_audit_log_id := audit_log_id;
             tar_was_idempotent_retry := false |}, db2)
  end.

Definition retry_quality_attempt (db : Database) (command : RetryQualityAttempt)
  : result StoreError (TicketAttemptReceipt * Database) :=
  validate_command (rqa_principal command) (rqa_command_id command) ;;
  validate_reason (rqa_reason command) "Quality retry reason" ;;
  let fingerprint := blake3 (quality_retry_preimage command) in
  receipt ← find_ticket_audit db (rqa_principal command) (rqa_command_id command)
              QUALITY_RETRY_OPERATION fingerprint;
  match receipt with
  | Some receipt =>
      require_ticket_subject receipt QUALITY_RETRY_SUBJECT ;;
      Ok (replayed_attempt (rqa_ticket_attempt_id command) receipt, db)
  | None =>
      attempt ← lock_ticket_attempt db (rqa_ticket_attempt_id command);
      require_expected (rqa_expected_attempt_revision command) (al_revision attempt) ;;
      require_expected (rqa_expected_ticket_revision command) (al_ticket_revision attempt) ;;
      require_ticket_state InFlight (al_ticket_state attempt) ;;
      candidate ← ok_or
        (c ← candidates db !! rqa_candidate_id command;
         if c_ticket_attempt_id (c_evidence c) =? rqa_ticket_attempt_id command
         then Some c else None) TicketAttemptNotReleasable;
      let prior_quality_retry_exists := audit_subject_exists db QUALITY_RETRY_OPERATION
        QUALITY_RETRY_SUBJECT (rqa_ticket_attempt_id command) in
      require (can_retry_quality_attempt (al_stage attempt) (c_lifecycle candidate)
                 (bool_decide (is_Some (c_candidate_commit candidate)))
                 prior_quality_retry_exists) TicketAttemptNotReleasable ;;
      next ← next_revision (al_revision attempt);
      sql ← revision_to_sql next;
      let db1 := update_ticket_attempt (rqa_ticket_attempt_id command)
        (set_attempt_stage ATTEMPT_REWORK_QUALITY (Some (now db, rqa_reason command)) sql) db in
      audit ← insert_ticket_audit db1 (rqa_principal command) (rqa_command_id command)
        QUALITY_RETRY_OPERATION fingerprint QUALITY_RETRY_SUBJECT
        (rqa_ticket_attempt_id command) next;
      let '(audit_log_id, db2) := audit in
      Ok ({| tar_ticket_attempt_id := rqa_ticket_attempt_id command;
             tar_resulting_attempt_revision := next;
             tar_audit_log_id := audit_log_id;
             tar_was_idempotent_retry := false |}, db2)
  end.

Definition retry_engineering_attempt (db : Database) (command : RetryEngineeringAttempt)
  : result StoreError (TicketAttemptReceipt * Database) :=
  validate_command (fta_principal command) (fta_command_id command) ;;
  validate_reason (fta_reason command) "Engineering retry reason" ;;
  let fingerprint := blake3 (failure_preimage ENGINEERING_RETRY_OPERATION command) in
  receipt ← find_ticket_audit db (fta_principal command) (fta_command_id command)
              ENGINEERING_RETRY_OPERATION fingerprint;
  match receipt with
  | Some receipt =>
      require_ticket_subject receipt ENGINEERING_RETRY_SUBJECT ;;
      Ok (replayed_attempt (fta_ticket_attempt_id command) receipt, db)
  | None =>
      attempt ← lock_ticket_attempt db (fta_ticket_attempt_id command);
      require_expected (fta_expected_attempt_revision command) (al_revision attempt) ;;
      require_expected (fta_expected_ticket_revision command) (al_ticket_revision attempt) ;;
      require_ticket_state InFlight (al_ticket_state attempt) ;;
      require (negb (al_released attempt) && (al_stage attempt =? ATTEMPT_FAILED))
        TicketAttemptNotReleasable ;;
      campaign ← ok_or
        (ta ← ticket_attempts db !! fta_ticket_attempt_id command;
         campaigns db !! ta_campaign_id (ta_claim ta)) TicketAttemptNotReleasable;
      require ((cmp_lifecycle campaign =? CAMPAIGN_RUNNING)
               && (cmp_cost_state campaign =? COST_KNOWN)) TicketAttemptNotReleasable ;;
      let candidate_exists := exists_where (fun _ c =>
        c_ticket_attempt_id (c_evidence c) =? fta_ticket_attempt_id command) (candidates db) in
      let prior_retry_exists := audit_subject_exists db ENGINEERING_RETRY_OPERATION
        ENGINEERING_RETRY_SUBJECT (fta_ticket_attempt_id command) in
      require (can_retry_engineering_attempt (al_stage attempt) candidate_exists
                 prior_retry_exists) TicketAttemptNotReleasable ;;
      next ← next_revision (al_revision attempt);
      sql ← revision_to_sql next;
      let db1 := update_ticket_attempt (fta_ticket_attempt_id command)
        (set_attempt_stage ATTEMPT_ENGINEERING None sql) db in
      audit ← insert_ticket_audit db1 (fta_principal command) (fta_command_id command)
        ENGINEERING_RETRY_OPERATION fingerprint ENGINEERING_RETRY_SUBJECT
        (fta_ticket_attempt_id command) next;
      let '(audit_log_id, db2) := audit in
      Ok ({| tar_ticket_attempt_id := fta_ticket_attempt_id command;
             tar_resulting_attempt_revision := next;
             tar_audit_log_id := audit_log_id;
             tar_was_idempotent_retry := false |}, db2)
  end.

(** * Release *)

Definition release_plan (outcome : RequalificationOutcome)
  : ReleaseOutcome * Z * Z * option string * Z :=
  match outcome with
  | Reproduced => (Released, TICKET_SPONSORED, REQUALIFICATION_REPRODUCED, None,
                   RELEASED_ATTEMPT_SUBJECT)
  | RequalificationResolved => (ReleaseResolved, TICKET_RESOLVED, REQUALIFICATION_RESOLVED, None,
                                RELEASE_RESOLVED_SUBJECT)
  | Diverged => (ReleaseBlocked, TICKET_BLOCKED, REQUALIFICATION_DIVERGED, Some diverged_reason,
                 RELEASE_BLOCKED_SUBJECT)
  end.

Definition release_ticket_attempt (db : Database) (command : ReleaseTicketAttempt)
  : result StoreError (ReleaseTicketReceipt * Database) :=
  validate_command (rta_principal command) (rta_command_id command) ;;
  validate_reason (rta_reason command) "release reason" ;;
  validate_requalification (rta_requalification command) ;;
  let fingerprint := blake3 (release_preimage command) in
  receipt ← find_ticket_audit db (rta_principal command) (rta_command_id command)
              RELEASE_OPERATION fingerprint;
  match receipt with
  | Some receipt =>
      outcome ← release_outcome_from_receipt receipt;
      attempt ← lock_ticket_attempt db (rta_ticket_attempt_id command);
      Ok ({| rtr_ticket_id := al_ticket_id attempt;
             rtr_ticket_revision_id := al_ticket_revision_id attempt;
             rtr_ticket_attempt_id := rta_ticket_attempt_id command;
             rtr_outcome := outcome;
             rtr_resulting_ticket_revision := tl_revision (al_ticket attempt);
             rtr_resulting_attempt_revision := receipt_resulting_revision receipt;
             rtr_audit_log_id := receipt_audit_log_id receipt;
             rtr_was_idempotent_retry := true |}, db)
  | None =>
      attempt ← lock_ticket_attempt db (rta_ticket_attempt_id command);
      require_expected (rta_expected_attempt_revision command) (al_revision attempt) ;;
      require_expected (rta_expected_ticket_revision command) (al_ticket_revision attempt) ;;
      require_ticket_state InFlight (al_ticket_state attempt) ;;
      require (negb (al_released attempt)) TicketAttemptAlreadyReleased ;;
      require ((al_stage attempt =? ATTEMPT_FAILED) || (al_stage attempt =? ATTEMPT_CANCELLED))
        TicketAttemptNotReleasable ;;
      classified ← classify_requalification db (al_ticket attempt) (rta_requalification command);
      next_ticket ← next_revision (al_ticket_revision attempt);
      next_attempt ← next_revision (al_revision attempt);
      let '(outcome, ticket_state, outcome_code, blocked_reason, subject_kind) :=
        release_plan classified in
      (if ticket_state =? TICKET_SPONSORED
       then application ← lookup_application_revision db
              (tl_application_revision_id (al_ticket attempt));
            require (negb (ready_buffer_full db application)) ReadyTicketBufferFull
       else Ok tt) ;;
      sql ← revision_to_sql next_attempt;
      let db1 := update_ticket_attempt (rta_ticket_attempt_id command)
        (set_attempt_released (now db) (rta_reason command) sql) db in
      db2 ← update_requalification_and_ticket_state db1 (al_ticket attempt) ticket_state
              next_ticket outcome_code (rta_requalification command) blocked_reason;
      audit ← insert_ticket_audit db2 (rta_principal command) (rta_command_id command)
        RELEASE_OPERATION fingerprint subject_kind (rta_ticket_attempt_id command) next_attempt;
      let '(audit_log_id, db3) := audit in
      Ok ({| rtr_ticket_id := al_ticket_id attempt;
             rtr_ticket_revision_id := al_ticket_revision_id attempt;
             rtr_ticket_attempt_id := rta_ticket_attempt_id command;
             rtr_outcome := outcome;
             rtr_resulting_ticket_revision := next_ticket;
             rtr_resulting_attempt_revision := next_attempt;
             rtr_audit_log_id := audit_log_id;
             rtr_was_idempotent_retry := false |}, db3)
  end.

(** * Campaign completion *)

Definition complete_campaign_at_delivery_target (db : Database)
    (command : CompleteCampaignAtDeliveryTarget) : result StoreError (Z * Database) :=
  validate_command (ccd_principal command) (ccd_command_id command) ;;
  let fingerprint := blake3 (completion_preimage command) in
  receipt ← find_ticket_audit db (ccd_principal command) (ccd_command_id command)
              COMPLETE_CAMPAIGN_OPERATION fingerprint;
  match receipt with
  | Some receipt =>
      require_ticket_subject receipt CAMPAIGN_COMPLETED_SUBJECT ;;
      Ok (receipt_resulting_revision receipt, db)
  | None =>
      campaign ← ok_or (campaigns db !! ccd_campaign_id command)
                   (UnknownCampaign (ccd_campaign_id command));
      revision ← revision_from_sql (cmp_revision campaign);
      require_expected (ccd_expected_campaign_revision command) revision ;;
      require (cmp_lifecycle campaign =? CAMPAIGN_RUNNING)
        (CampaignClosed (ccd_campaign_id command)) ;;
      require (cmp_delivery_target campaign
               <=? delivered_attempt_count (ccd_campaign_id command) db)
        CampaignDeliveryTargetNotReached ;;
      next ← next_revision revision;
      sql ← revision_to_sql next;
      let db1 := update_campaign_lifecycle (ccd_campaign_id command) CAMPAIGN_COMPLETED sql db in
      audit ← insert_ticket_audit db1 (ccd_principal command) (ccd_command_id command)
        COMPLETE_CAMPAIGN_OPERATION fingerprint CAMPAIGN_COMPLETED_SUBJECT
        (ccd_campaign_id command) next;
      let '(_, db2) := audit in
      Ok (next, db2)
  end.

End Operations.
