(* ===== verification/DecisionStore.v ===== *)
(** The Quality/Architect tail of a ticket attempt: candidate submission, hard
    and full-suite validations, commit attachment, review, the external
    Architect decisions and delivery
    ([crates/factory-kernel/src/decision_store.rs], [DecisionStore]). *)
From stdpp Require Import pretty.
From S2P Require Import Prelude Values Contracts Database TicketStore.

(** * Operations and subjects *)

Definition CANDIDATE_SUBMIT_OPERATION : string := "candidate.submit".
Definition VALIDATION_RECORD_OPERATION : string := "validation.record".
Definition CANDIDATE_COMMIT_ATTACH_OPERATION : string := "candidate.commit.attach".
Definition REVIEW_SUBMIT_OPERATION : string := "quality.review.submit".
Definition SPONSOR_OPERATION : string := "architect.ticket.sponsor".
Definition RELEASE_OPERATION : string := "architect.ticket.release".
Definition CANDIDATE_DECIDE_OPERATION : string := "architect.candidate.decide".
Definition DELIVERY_RECORD_OPERATION : string := "delivery.record".

Definition CANDIDATE_SUBJECT : Z := 40.
Definition VALIDATION_SUBJECT : Z := 41.
Definition REVIEW_SUBJECT : Z := 42.
Definition DECISION_SUBJECT : Z := 43.
Definition DELIVERY_SUBJECT : Z := 44.

Inductive ValidationScope := HardCandidate | QualityFullSuite.
Inductive ValidationResult := Passed | Failed | Interrupted.
Inductive CandidateState :=
  | CandidateSubmitted | CandidateValidated | CandidateRejected | CandidateAccepted
  | CandidateDelivered.

#[global] Instance CandidateState_eq_dec : EqDecision CandidateState.
Proof. solve_decision. Defined.
#[global] Instance ValidationScope_eq_dec : EqDecision ValidationScope.
Proof. solve_decision. Defined.
#[global] Instance ValidationResult_eq_dec : EqDecision ValidationResult.
Proof. solve_decision. Defined.

Definition scope_code (s : ValidationScope) : Z :=
  match s with HardCandidate => 0 | QualityFullSuite => 1 end.
Definition expected_office (s : ValidationScope) : Z :=
  match s with HardCandidate => OFFICE_ENGINEERING | QualityFullSuite => OFFICE_QUALITY end.
Definition result_code (r : ValidationResult) : Z :=
  match r with
  | Passed => VALIDATION_PASSED | Failed => VALIDATION_FAILED
  | Interrupted => VALIDATION_INTERRUPTED
  end.

(** * Errors *)

Inductive DecisionStoreError :=
  | DatabaseError (constraint : string)
  | Contract (e : ContractError)
  | InvalidCommandIdentity
  | RevisionConflict (expected current : Z)
  | IdempotencyConflict (principal command_id : string)
  | UnknownCandidate (candidate_id : Z)
  | UnknownTicketAttempt (ticket_attempt_id : Z)
  | UnknownValidation (validation_id : Z)
  | UnknownReview (review_id : Z)
  | CandidateStateConflict (required observed : CandidateState)
  | TicketStateConflict (required observed : TicketState)
  | AttemptStageConflict (required : string) (observed : Z)
  | CandidateBaseChanged
  | ValidationTreeChanged
  | ValidationAlreadyRecorded (candidate_id : Z) (scope : ValidationScope)
  | ReviewAlreadySubmitted (candidate_id : Z)
  | CandidateCommitMissing
  | CandidateCommitAlreadyAttached
  | HardValidationMissing
  | QualityValidationNotPassed
  | ReviewCandidateMismatch
  | QualityRejectionOverrideRequired
  | QualityRejectionOverrideForbidden
  | ReworkLimitReached
  | AttemptNotReleasable
  | ArtifactReferenceMismatch
  | ValidationBuildMismatch
  | SessionJurisdictionMismatch
  | InvalidCandidateRef
  | DeliveryReceiptMismatch
  | ArchitectDeliveryDecisionMissing
  | CampaignNotRunning
  | CampaignCostNotKnown
  | DeliveryFactoryCostMismatch
  | PaidSessionStillRunning
  | CorruptState
  | CorruptDecision
  | IntegerOutOfRange.

(** * Commands *)

Record SubmitCandidate := {
  sc_principal : string;
  sc_command_id : string;
  sc_ticket_attempt_id : Z;
  sc_expected_attempt_revision : Z;
  sc_expected_ticket_revision : Z;
  sc_engineering_session_id : Z;
  sc_base_commit : string;
  sc_base_tree : string;
  sc_regression_tree : string;
  sc_candidate_tree : string;
  sc_changed_paths : SealedArtifactReferenceV2;
  sc_regression_patch : SealedArtifactReferenceV2;
  sc_regression_command_set : SealedArtifactReferenceV2;
  sc_regression_log : SealedArtifactReferenceV2;
  sc_candidate_patch : SealedArtifactReferenceV2;
  sc_engineering_report : SealedArtifactReferenceV2;
  sc_engineering_risks : SealedArtifactReferenceV2;
  sc_submission : CandidateSubmissionV2;
}.

Record RecordValidation := {
  rv_principal : string;
  rv_command_id : string;
  rv_candidate_id : Z;
  rv_expected_candidate_revision : Z;
  rv_expected_attempt_revision : Z;
  rv_scope : ValidationScope;
  rv_kernel_build_id : ContentDigest;
  rv_performed_by_session_id : Z;
  rv_validation_profile : string;
  rv_pristine_tree : string;
  rv_command_set : SealedArtifactReferenceV2;
  rv_result : ValidationResult;
  rv_duration_millis : Z;
  rv_log : SealedArtifactReferenceV2;
}.

Record AttachCandidateCommit := {
  acc_principal : string;
  acc_command_id : string;
  acc_candidate_id : Z;
  acc_expected_candidate_revision : Z;
  acc_candidate_commit : string;
  acc_candidate_ref : string;
}.

Record SubmitQualityReview := {
  sqr_principal : string;
  sqr_command_id : string;
  sqr_candidate_id : Z;
  sqr_expected_candidate_revision : Z;
  sqr_expected_attempt_revision : Z;
  sqr_quality_session_id : Z;
  sqr_submission : QualityReviewSubmissionV2;
}.

Record SponsorTicket := {
  st_command_id : string;
  st_expected_ticket_revision : Z;
  st_decision : SponsorshipDecisionV2;
}.

Record ReleaseTicketAttempt := {
  rl_command_id : string;
  rl_expected_attempt_revision : Z;
  rl_expected_ticket_revision : Z;
  rl_decision : ReleaseDecisionV2;
  rl_requalification : CurrentHeadRequalification;
}.

Record DecideCandidate := {
  dc_command_id : string;
  dc_expected_candidate_revision : Z;
  dc_expected_attempt_revision : Z;
  dc_expected_ticket_revision : Z;
  dc_request : CandidateDecisionRequestV2;
}.

Record RecordDelivery := {
  rd_principal : string;
  rd_command_id : string;
  rd_candidate_id : Z;
  rd_expected_candidate_revision : Z;
  rd_expected_attempt_revision : Z;
  rd_expected_ticket_revision : Z;
  rd_expected_campaign_revision : Z;
  rd_expected_old_commit : string;
  rd_candidate_commit : string;
  rd_resulting_commit : string;
  rd_resulting_tree : string;
  rd_factory_cost_micro_usd : Z;
  rd_receipt : SealedArtifactReferenceV2;
}.

(** * Receipts *)

Record CandidateReceipt := {
  cr_candidate_id : Z;
  cr_state : CandidateState;
  cr_resulting_revision : Z;
  cr_audit_log_id : Z;
  cr_was_idempotent_retry : bool;
}.

Record ValidationReceipt := {
  vr_validation_id : Z;
  vr_candidate_id : Z;
  vr_state : ValidationResult;
  vr_candidate_state : CandidateState;
  vr_resulting_candidate_revision : Z;
  vr_resulting_attempt_revision : Z;
  vr_audit_log_id : Z;
  vr_was_idempotent_retry : bool;
}.

Record ReviewReceipt := {
  rr_review_id : Z;
  rr_candidate_id : Z;
  rr_verdict : ReviewVerdict;
  rr_resulting_candidate_revision : Z;
  rr_resulting_attempt_revision : Z;
  rr_audit_log_id : Z;
  rr_was_idempotent_retry : bool;
}.

Record ArchitectDecisionReceiptV2 := {
  ad_architect_decision_id : Z;
  ad_kind : ArchitectDecisionKindV2;
}.

Record SponsorshipReceipt := {
  sr_decision : ArchitectDecisionReceiptV2;
  sr_ticket_revision_id : Z;
  sr_resulting_ticket_revision : Z;
  sr_audit_log_id : Z;
  sr_was_idempotent_retry : bool;
}.

Record ReleaseReceipt := {
  rlr_decision : ArchitectDecisionReceiptV2;
  rlr_ticket_attempt_id : Z;
  rlr_outcome : ReleaseOutcome;
  rlr_resulting_attempt_revision : Z;
  rlr_resulting_ticket_revision : Z;
  rlr_audit_log_id : Z;
  rlr_was_idempotent_retry : bool;
}.

Record CandidateDecisionReceipt := {
  cdr_decision : ArchitectDecisionReceiptV2;
  cdr_candidate_id : Z;
  cdr_candidate_state : CandidateState;
  cdr_resulting_candidate_revision : Z;
  cdr_resulting_attempt_revision : Z;
  cdr_resulting_ticket_revision : Z;
  cdr_audit_log_id : Z;
  cdr_was_idempotent_retry : bool;
}.

Record DeliveryReceipt := {
  dr_delivery_id : Z;
  dr_candidate_id : Z;
  dr_factory_cost_micro_usd : Z;
  dr_resulting_candidate_revision : Z;
  dr_resulting_attempt_revision : Z;
  dr_resulting_ticket_revision : Z;
  dr_resulting_campaign_revision : Z;
  dr_campaign_completed : bool;
  dr_audit_log_id : Z;
  dr_was_idempotent_retry : bool;
}.

(** * Shared checks *)

Definition new_id (kind : string) (value : Z) : result DecisionStoreError Z :=
  map_err Contract (identifier_new kind value).

Definition next_revision (r : Z) : result DecisionStoreError Z :=
  map_err Contract (revision_next r).

Definition db_result {A} (r : result string A) : result DecisionStoreError A :=
  map_err DatabaseError r.

Definition contract {A} (r : result ContractError A) : result DecisionStoreError A :=
  map_err Contract r.

Definition validate_command (principal command_id : string) : result DecisionStoreError unit :=
  for_each (fun value => require (command_component value) InvalidCommandIdentity)
    [principal; command_id].

Definition validate_architect_command (principal command_id : string)
  : result DecisionStoreError unit :=
  require (negb (is_empty (string_bytes principal)) && (string_len principal <=? 160)
           && negb (contains_byte 0 principal)) InvalidCommandIdentity ;;
  validate_command "architect" command_id.

Definition validate_validation_command (command : RecordValidation)
  : result DecisionStoreError unit :=
  require (negb (is_empty (string_bytes (rv_validation_profile command)))
           && (string_len (rv_validation_profile command) <=? 160)
           && negb (contains_byte 0 (rv_validation_profile command))
           && (rv_duration_millis command <=? i64_max)) CorruptState ;;
  contract (artifact_validate (rv_command_set command) "validation command set" (256 * 1024) false) ;;
  contract (artifact_validate (rv_log command) "validation log" (16 * 1024 * 1024) true).

(** [value.strip_prefix(prefix)] on bytes. *)
Fixpoint strip_prefix (prefix l : list Z) : option (list Z) :=
  match prefix, l with
  | [], _ => Some l
  | p :: prefix, c :: l => if p =? c then strip_prefix prefix l else None
  | _ :: _, [] => None
  end.

(** A positive decimal field without a leading zero. *)
Definition ref_number (field : list Z) : bool :=
  negb (is_empty field)
  && negb (match field with c :: _ => c =? 48 | [] => false end)
  && forallb is_ascii_digit field.

Definition is_ascii_hexdigit (b : Z) : bool :=
  is_ascii_digit b || ((65 <=? b) && (b <=? 70)) || ((97 <=? b) && (b <=? 102)).

Definition ref_digest (field : list Z) : bool :=
  Nat.eqb (length field) 64 && forallb is_ascii_hexdigit field.

Definition candidate_ref_valid (value : list Z) : bool :=
  match strip_prefix (string_bytes "refs/heads/factory/") value with
  | Some suffix =>
      match split_bytes 47 suffix with
      | [a; b] => ref_number a && ref_number b
      | [a; b; d] => ref_number a && ref_number b && ref_digest d
      | _ => false
      end
  | None =>
      match strip_prefix (string_bytes "refs/heads/factory-scoped/") value with
      | Some suffix =>
          match split_bytes 47 suffix with
          | [d; a; b] => ref_digest d && ref_number a && ref_number b
          | _ => false
          end
      | None => false
      end
  end.

Definition validate_candidate_ref (value : string) : result DecisionStoreError unit :=
  require ((string_len value <=? 512) && candidate_ref_valid (string_bytes value))
    InvalidCandidateRef.

Definition validate_requalification (value : CurrentHeadRequalification)
  : result DecisionStoreError unit :=
  for_each (fun field =>
    require (((string_len field =? 40) || (string_len field =? 64))
             && forallb is_lower_hex (string_bytes field)) CorruptState)
    [current_head_commit value; current_head_tree value].

Definition require_revision (expected current : Z) : result DecisionStoreError unit :=
  require (expected =? current) (RevisionConflict expected current).

Definition require_candidate_state (required observed : CandidateState)
  : result DecisionStoreError unit :=
  require (bool_decide (required = observed)) (CandidateStateConflict required observed).

Definition require_ticket_state (required observed : TicketState)
  : result DecisionStoreError unit :=
  require (bool_decide (required = observed)) (TicketStateConflict required observed).

Definition require_sponsorable_ticket_state (observed : TicketState)
  : result DecisionStoreError unit :=
  require (bool_decide (observed = Proposed) || bool_decide (observed = Blocked))
    (TicketStateConflict Proposed observed).

Definition revision_from_sql (value : Z) : result DecisionStoreError Z :=
  if value <? 0 then Err IntegerOutOfRange else Ok value.

(** [i64::try_from(value)] of a [u64] *)
Definition revision_sql (value : Z) : result DecisionStoreError Z :=
  if i64_max <? value then Err IntegerOutOfRange else Ok value.

Definition candidate_state (value : Z) : result DecisionStoreError CandidateState :=
  if value =? CANDIDATE_SUBMITTED then Ok CandidateSubmitted
  else if value =? CANDIDATE_VALIDATED then Ok CandidateValidated
  else if value =? CANDIDATE_REJECTED then Ok CandidateRejected
  else if value =? CANDIDATE_ACCEPTED then Ok CandidateAccepted
  else if value =? CANDIDATE_DELIVERED then Ok CandidateDelivered
  else Err CorruptState.

Definition validation_state (value : Z) : result DecisionStoreError ValidationResult :=
  if value =? VALIDATION_PASSED then Ok Passed
  else if value =? VALIDATION_FAILED then Ok Failed
  else if value =? VALIDATION_INTERRUPTED then Ok Interrupted
  else Err CorruptState.

Definition review_verdict (value : Z) : result DecisionStoreError ReviewVerdict :=
  if value =? REVIEW_ACCEPT then Ok Accept
  else if value =? REVIEW_REJECT then Ok Reject
  else Err CorruptState.

Definition review_verdict_code (value : ReviewVerdict) : Z :=
  match value with Accept => REVIEW_ACCEPT | Reject => REVIEW_REJECT end.

(** [Superseded] is not a state this store reads. *)
Definition ticket_state (value : Z) : result DecisionStoreError TicketState :=
  if value =? TICKET_PROPOSED then Ok Proposed
  else if value =? TICKET_SPONSORED then Ok Sponsored
  else if value =? TICKET_IN_FLIGHT then Ok InFlight
  else if value =? TICKET_DELIVERED then Ok Delivered
  else if value =? TICKET_BLOCKED then Ok Blocked
  else if value =? TICKET_RESOLVED then Ok Resolved
  else if value =? TICKET_REJECTED then Ok Rejected
  else Err CorruptState.

Definition release_outcome (state : TicketState) : result DecisionStoreError ReleaseOutcome :=
  match state with
  | Sponsored => Ok Released
  | Resolved => Ok ReleaseResolved
  | Blocked => Ok ReleaseBlocked
  | _ => Err CorruptState
  end.

Definition decision_code (value : CandidateDecisionV2) : Z :=
  match value with
  | Deliver => DECISION_DELIVER | Rework => DECISION_REWORK | RejectCandidate => DECISION_REJECT
  end.

Definition architect_receipt (decision_id : Z) (kind : ArchitectDecisionKindV2)
  : result DecisionStoreError ArchitectDecisionReceiptV2 :=
  id ← new_id "architect decision ID" decision_id;
  Ok {| ad_architect_decision_id := id; ad_kind := kind |}.

(** * Audit receipts *)

Definition find_audit (db : Database) (principal command_id operation : string)
    (fingerprint : ContentDigest) : result DecisionStoreError (option TicketAuditReceipt) :=
  match audit_log db !! (principal, command_id) with
  | None => Ok None
  | Some row =>
      require (bool_decide (al_operation row = operation)
               && bool_decide (al_command_fingerprint row = fingerprint))
        (IdempotencyConflict principal command_id) ;;
      resulting_revision ← revision_from_sql (al_resulting_revision row);
      Ok (Some {|
        receipt_audit_log_id := al_id row;
        receipt_subject_kind := al_subject_kind row;
        receipt_subject_id := al_subject_id row;
        receipt_resulting_revision := resulting_revision |})
  end.

Definition insert_audit (db : Database) (principal command_id operation : string)
    (fingerprint : ContentDigest) (subject_kind subject_id resulting_revision : Z)
  : result DecisionStoreError (Z * Database) :=
  sql ← revision_sql resulting_revision;
  db_result (insert_audit_row principal command_id (fun id => {|
    al_id := id;
    al_operation := operation;
    al_command_fingerprint := fingerprint;
    al_subject_kind := subject_kind;
    al_subject_id := subject_id;
    al_resulting_revision := sql |}) db).

Definition require_subject (receipt : TicketAuditReceipt) (subject_kind : Z)
  : result DecisionStoreError unit :=
  require (receipt_subject_kind receipt =? subject_kind) CorruptState.

(** * Loaded rows *)

Record CandidateLoaded := {
  cl_id : Z;
  cl_ticket_attempt_id : Z;
  cl_base_commit : string;
  cl_candidate_tree : string;
  cl_lifecycle : Z;
  cl_revision : Z;
  cl_candidate_commit : option string;
}.

Record AttemptLoaded := {
  at_id : Z;
  at_campaign_id : Z;
  at_application_revision_id : Z;
  at_kernel_build_database_id : Z;
  at_ticket_id : Z;
  at_ticket_revision_id : Z;
  at_ticket_state : TicketState;
  at_ticket_revision : Z;
  at_attempt_revision : Z;
  at_stage : Z;
  at_candidate_ordinal : Z;
  at_rework_ordinal : Z;
  at_released : bool;
  at_claimed_commit : string;
  at_claimed_tree : string;
  at_expected_observation_artifact_id : Z;
  at_discovery_observation_artifact_id : Z;
}.

Definition lock_candidate (db : Database) (candidate_id : Z) : result DecisionStoreError unit :=
  _ ← ok_or (candidates db !! candidate_id) (UnknownCandidate candidate_id); Ok tt.

Definition lock_attempt (db : Database) (attempt_id : Z) : result DecisionStoreError unit :=
  _ ← ok_or (ticket_attempts db !! attempt_id) (UnknownTicketAttempt attempt_id); Ok tt.

Definition lock_ticket_revision (db : Database) (id : Z) : result DecisionStoreError unit :=
  _ ← ok_or (ticket_revisions db !! id) CorruptState; Ok tt.

(** [load_candidate] and [load_candidate_for_update] *)
Definition load_candidate (db : Database) (candidate_id : Z)
  : result DecisionStoreError CandidateLoaded :=
  row ← ok_or (candidates db !! candidate_id) (UnknownCandidate candidate_id);
  id ← new_id "candidate ID" candidate_id;
  attempt ← new_id "ticket attempt ID" (c_ticket_attempt_id (c_evidence row));
  revision ← revision_from_sql (c_revision row);
  Ok {| cl_id := id;
        cl_ticket_attempt_id := attempt;
        cl_base_commit := c_base_commit (c_evidence row);
        cl_candidate_tree := c_candidate_tree (c_evidence row);
        cl_lifecycle := c_lifecycle row;
        cl_revision := revision;
        cl_candidate_commit := c_candidate_commit row |}.

Definition lock_candidate_attempt (db : Database) (attempt_id : Z)
  : result DecisionStoreError AttemptLoaded :=
  row ← ok_or
    (ta ← ticket_attempts db !! attempt_id;
     c ← campaigns db !! ta_campaign_id (ta_claim ta);
     '(tr, t) ← ticket_revision_join db (ta_ticket_revision_id (ta_claim ta));
     Some (ta, c, tr, t)) (UnknownTicketAttempt attempt_id);
  let '(ta, c, tr, t) := row in
  ticket_revision_id ← new_id "ticket revision ID" (ta_ticket_revision_id (ta_claim ta));
  observed ← ticket_state (tr_lifecycle tr);
  ticket_observed ← ticket_state (t_lifecycle t);
  require ((t_current_ticket_revision_id t =? ticket_revision_id)
           && bool_decide (observed = ticket_observed)
           && (tr_revision tr =? t_revision t)) CorruptState ;;
  id ← new_id "ticket attempt ID" attempt_id;
  campaign ← new_id "campaign ID" (ta_campaign_id (ta_claim ta));
  application ← new_id "application revision ID" (cmp_application_revision_id c);
  ticket_revision ← revision_from_sql (tr_revision tr);
  attempt_revision ← revision_from_sql (ta_revision ta);
  Ok {| at_id := id;
        at_campaign_id := campaign;
        at_application_revision_id := application;
        at_kernel_build_database_id := cmp_kernel_build_id c;
        at_ticket_id := tr_ticket_id (tr_contract tr);
        at_ticket_revision_id := ticket_revision_id;
        at_ticket_state := observed;
        at_ticket_revision := ticket_revision;
        at_attempt_revision := attempt_revision;
        at_stage := ta_stage ta;
        at_candidate_ordinal := ta_candidate_ordinal ta;
        at_rework_ordinal := ta_rework_ordinal ta;
        at_released := bool_decide (is_Some (ta_released_at ta));
        at_claimed_commit := ta_claimed_commit (ta_claim ta);
        at_claimed_tree := ta_claimed_tree (ta_claim ta);
        at_expected_observation_artifact_id :=
          tr_expected_observation_artifact_id (tr_contract tr);
        at_discovery_observation_artifact_id :=
          tr_discovery_observation_artifact_id (tr_contract tr) |}.

Record TicketLoaded := {
  tk_ticket_id : Z;
  tk_ticket_revision_id : Z;
  tk_ticket_state : TicketState;
  tk_ticket_revision : Z;
}.

Definition lock_ticket_revision_state (db : Database) (ticket_revision_id : Z)
  : result DecisionStoreError TicketLoaded :=
  row ← ok_or (ticket_revision_join db ticket_revision_id) CorruptState;
  let '(tr, t) := row in
  state ← ticket_state (tr_lifecycle tr);
  ticket_observed ← ticket_state (t_lifecycle t);
  require ((t_current_ticket_revision_id t =? ticket_revision_id)
           && bool_decide (state = ticket_observed)
           && (tr_revision tr =? t_revision t)) CorruptState ;;
  revision ← revision_from_sql (tr_revision tr);
  Ok {| tk_ticket_id := tr_ticket_id (tr_contract tr);
        tk_ticket_revision_id := ticket_revision_id;
        tk_ticket_state := state;
        tk_ticket_revision := revision |}.

Definition load_validation (db : Database) (validation_id : Z)
  : result DecisionStoreError ValidationRow :=
  row ← ok_or (validations db !! validation_id) (UnknownValidation validation_id);
  _ ← new_id "candidate ID" (v_candidate_id row);
  Ok row.

Definition load_quality_validation (db : Database) (validation_id candidate_id : Z)
  : result DecisionStoreError ValidationRow :=
  row ← ok_or
    (row ← validations db !! validation_id;
     if (v_candidate_id row =? candidate_id)
        && (v_validation_scope row =? scope_code QualityFullSuite)
     then Some row else None) (UnknownValidation validation_id);
  _ ← new_id "candidate ID" (v_candidate_id row);
  Ok row.

Definition load_review (db : Database) (review_id : Z) : result DecisionStoreError ReviewRow :=
  row ← ok_or (reviews db !! review_id) (UnknownReview review_id);
  _ ← new_id "review ID" review_id;
  _ ← new_id "candidate ID" (r_candidate_id row);
  Ok row.

Definition load_decision (db : Database) (decision_id : Z)
  : result DecisionStoreError ArchitectDecisionRow :=
  ok_or (architect_decisions db !! decision_id) CorruptDecision.

Definition load_delivery (db : Database) (delivery_id : Z)
  : result DecisionStoreError DeliveryRow :=
  row ← ok_or (deliveries db !! delivery_id) CorruptState;
  _ ← new_id "candidate ID" (dl_candidate_id row);
  require (0 <=? dl_factory_cost_micro_usd row) IntegerOutOfRange ;;
  Ok row.

(** [lock_campaign], [load_campaign] and [campaign_from_fields] *)
Definition load_campaign (db : Database) (campaign_id : Z)
  : result DecisionStoreError CampaignRow :=
  row ← ok_or (campaigns db !! campaign_id) CampaignNotRunning;
  require (existsb (Z.eqb (cmp_cost_state row)) [COST_KNOWN; COST_UNKNOWN; COST_EXCEEDED])
    CorruptState ;;
  _ ← revision_from_sql (cmp_revision row);
  require (0 <=? cmp_measured_cost_micro_usd row) IntegerOutOfRange ;;
  Ok row.

(** * Existence queries *)

Definition validation_exists (db : Database) (candidate_id : Z) (scope : ValidationScope) : bool :=
  exists_where (fun _ v => (v_candidate_id v =? candidate_id)
                           && (v_validation_scope v =? scope_code scope)) (validations db).

Definition validation_passed (db : Database) (candidate_id : Z) (scope : ValidationScope) : bool :=
  exists_where (fun _ v => (v_candidate_id v =? candidate_id)
                           && (v_validation_scope v =? scope_code scope)
                           && (v_lifecycle v =? VALIDATION_PASSED)) (validations db).

Definition review_exists (db : Database) (candidate_id : Z) : bool :=
  exists_where (fun _ r => r_candidate_id r =? candidate_id) (reviews db).

Definition deliver_decision_exists (db : Database) (candidate_id : Z) : bool :=
  exists_where (fun _ d => bool_decide (d_candidate_id d = Some candidate_id)
                           && (d_decision_kind d =? DECISION_DELIVER)) (architect_decisions db).

(** * Jurisdiction *)

(** [require_artifact] and [require_artifact_unbound] *)
Definition require_artifact (db : Database) (reference : SealedArtifactReferenceV2)
  : result DecisionStoreError unit :=
  row ← ok_or (artifacts db !! artifact_id reference) ArtifactReferenceMismatch;
  require (bool_decide (art_digest row = digest reference)) ArtifactReferenceMismatch ;;
  require (0 <=? art_byte_length row) CorruptState ;;
  require (art_byte_length row =? byte_length reference) ArtifactReferenceMismatch.

Definition artifact_digest (db : Database) (id : Z) : result DecisionStoreError ContentDigest :=
  row ← ok_or (artifacts db !! id) ArtifactReferenceMismatch;
  require (Nat.eqb (length (art_digest row)) 32) CorruptState ;;
  Ok (art_digest row).

Definition require_kernel_build (db : Database) (build : ContentDigest) (expected_id : Z)
  : result DecisionStoreError Z :=
  match rows_where (fun _ row => bool_decide (kb_build_digest row = build)) (kernel_builds db) with
  | [] => Err ValidationBuildMismatch
  | (id, _) :: _ => require (id =? expected_id) ValidationBuildMismatch ;; Ok id
  end.

Definition require_session_jurisdiction (db : Database) (session_id campaign_id office : Z)
  : result DecisionStoreError unit :=
  row ← ok_or (sessions db !! session_id) SessionJurisdictionMismatch;
  require ((ses_campaign_id row =? campaign_id) && (ses_assignment_role row =? office))
    SessionJurisdictionMismatch.

Definition require_session (db : Database) (session_id campaign_id office : Z)
  : result DecisionStoreError unit :=
  row ← ok_or (sessions db !! session_id) SessionJurisdictionMismatch;
  require ((ses_campaign_id row =? campaign_id) && (ses_assignment_role row =? office)
           && ((ses_lifecycle row =? SESSION_RUNNING) || (ses_lifecycle row =? SESSION_SUCCEEDED)))
    SessionJurisdictionMismatch.

Definition require_hard_and_quality_validation (db : Database) (candidate_id : Z)
  : result DecisionStoreError unit :=
  require (validation_passed db candidate_id HardCandidate) HardValidationMissing ;;
  require (validation_passed db candidate_id QualityFullSuite) QualityValidationNotPassed.

(** * Writes *)

Definition insert_decision (db : Database) (kind : Z)
    (ticket_revision_id ticket_attempt_id candidate_id review_id : option Z)
    (rationale_artifact_id : Z) (principal : string) (overrides_quality_rejection : bool)
  : result DecisionStoreError (Z * Database) :=
  db_result (insert_architect_decision {|
    d_decision_kind := kind;
    d_ticket_revision_id := ticket_revision_id;
    d_ticket_attempt_id := ticket_attempt_id;
    d_candidate_id := candidate_id;
    d_review_id := review_id;
    d_rationale_artifact_id := rationale_artifact_id;
    d_principal := principal;
    d_overrides_quality_rejection := overrides_quality_rejection;
    d_created_at := now db |} db).

(** A sponsored ticket loses its blocked reason. *)
Definition update_ticket_state_parts (db : Database) (ticket_id ticket_revision_id state next : Z)
    (sponsorship_reason blocked_reason : option string) : result DecisionStoreError Database :=
  sql ← revision_sql next;
  db ← db_result (update_ticket_revision ticket_revision_id (fun row => {|
    tr_contract := tr_contract row;
    tr_lifecycle := state;
    tr_sponsored_at := match sponsorship_reason with
                       | None => tr_sponsored_at row | Some _ => Some (now db) end;
    tr_sponsorship_reason := option_or sponsorship_reason (tr_sponsorship_reason row);
    tr_last_requalification := tr_last_requalification row;
    tr_blocked_reason := if state =? 1 then None
                         else option_or blocked_reason (tr_blocked_reason row);
    tr_revision := sql |}) db);
  Ok (update_ticket ticket_id state sql db).

Definition update_ticket_state (db : Database) (attempt : AttemptLoaded) (state next : Z)
    (sponsorship_reason blocked_reason : option string) : result DecisionStoreError Database :=
  update_ticket_state_parts db (at_ticket_id attempt) (at_ticket_revision_id attempt)
    state next sponsorship_reason blocked_reason.

Definition update_ticket_requalification (db : Database) (attempt : AttemptLoaded)
    (state next outcome : Z) (requalification : CurrentHeadRequalification)
    (blocked_reason : option string) : result DecisionStoreError Database :=
  sql ← revision_sql next;
  db ← db_result (update_ticket_revision (at_ticket_revision_id attempt) (fun row => {|
    tr_contract := tr_contract row;
    tr_lifecycle := state;
    tr_sponsored_at := tr_sponsored_at row;
    tr_sponsorship_reason := tr_sponsorship_reason row;
    tr_last_requalification := Some {|
      requalification_outcome := outcome;
      requalification_commit := current_head_commit requalification;
      requalification_tree := current_head_tree requalification;
      requalification_first := first_actual_observation_artifact_id requalification;
      requalification_second := second_actual_observation_artifact_id requalification;
      requalified_at := now db |};
    tr_blocked_reason := blocked_reason;
    tr_revision := sql |}) db);
  Ok (update_ticket (at_ticket_id attempt) state sql db).

Definition classify_requalification (db : Database) (attempt : AttemptLoaded)
    (value : CurrentHeadRequalification) : result DecisionStoreError RequalificationOutcome :=
  expected ← artifact_digest db (at_expected_observation_artifact_id attempt);
  discovery ← artifact_digest db (at_discovery_observation_artifact_id attempt);
  first ← artifact_digest db (first_actual_observation_artifact_id value);
  second ← artifact_digest db (second_actual_observation_artifact_id value);
  if negb (bool_decide (first = second)) then Ok Diverged
  else if bool_decide (first = expected) then Ok RequalificationResolved
  else if bool_decide (first = discovery) then Ok Reproduced
  else Ok Diverged.

(** [UPDATE factory.candidates SET lifecycle, revision] *)
Definition set_candidate_lifecycle (lifecycle revision : Z) (row : CandidateRow) : CandidateRow := {|
  c_evidence := c_evidence row;
  c_candidate_commit := c_candidate_commit row;
  c_candidate_ref := c_candidate_ref row;
  c_lifecycle := lifecycle;
  c_revision := revision |}.

Definition set_candidate_commit (commit ref : string) (revision : Z) (row : CandidateRow)
  : CandidateRow := {|
  c_evidence := c_evidence row;
  c_candidate_commit := Some commit;
  c_candidate_ref := Some ref;
  c_lifecycle := c_lifecycle row;
  c_revision := revision |}.

(** [UPDATE factory.ticket_attempts SET candidate_ordinal, stage, revision] *)
Definition submit_attempt (candidate_ordinal stage revision : Z) (row : TicketAttemptRow)
  : TicketAttemptRow := {|
  ta_claim := ta_claim row;
  ta_stage := stage;
  ta_candidate_ordinal := candidate_ordinal;
  ta_rework_ordinal := ta_rework_ordinal row;
  ta_failed_at := ta_failed_at row;
  ta_failure_reason := ta_failure_reason row;
  ta_released_at := ta_released_at row;
  ta_release_reason := ta_release_reason row;
  ta_revision := revision |}.

(** [SET stage, rework_ordinal = rework_ordinal + $2, failed_at = CASE ...,
    failure_reason = CASE ..., revision]: the failure pair is stamped only when
    the stage becomes [Failed]. *)
Definition advance_attempt (stage rework_increment revision at_time : Z)
    (failure_reason : string) (row : TicketAttemptRow) : TicketAttemptRow := {|
  ta_claim := ta_claim row;
  ta_stage := stage;
  ta_candidate_ordinal := ta_candidate_ordinal row;
  ta_rework_ordinal := ta_rework_ordinal row + rework_increment;
  ta_failed_at := if stage =? ATTEMPT_FAILED then Some at_time else ta_failed_at row;
  ta_failure_reason := if stage =? ATTEMPT_FAILED then Some failure_reason
                       else ta_failure_reason row;
  ta_released_at := ta_released_at row;
  ta_release_reason := ta_release_reason row;
  ta_revision := revision |}.

(** * Command fingerprints *)

Definition hash_i64 (value : Z) : list Z := be_bytes 8 value.
Definition hash_u64 (value : Z) : list Z := be_bytes 8 value.
Definition hash_sealed (value : SealedArtifactReferenceV2) : list Z :=
  hash_i64 (artifact_id value) ++ digest value ++ hash_u64 (byte_length value).

Definition fingerprint_prefix (operation principal command_id : string) : list Z :=
  hash_string operation ++ hash_string principal ++ hash_string command_id.

Definition submit_candidate_preimage (c : SubmitCandidate) : list Z :=
  fingerprint_prefix CANDIDATE_SUBMIT_OPERATION (sc_principal c) (sc_command_id c)
  ++ hash_i64 (sc_ticket_attempt_id c) ++ hash_u64 (sc_expected_attempt_revision c)
  ++ hash_u64 (sc_expected_ticket_revision c) ++ hash_i64 (sc_engineering_session_id c)
  ++ hash_string (sc_base_commit c) ++ hash_string (sc_base_tree c)
  ++ hash_string (sc_regression_tree c) ++ hash_string (sc_candidate_tree c)
  ++ hash_sealed (sc_changed_paths c) ++ hash_sealed (sc_regression_patch c)
  ++ hash_sealed (sc_regression_command_set c) ++ hash_sealed (sc_regression_log c)
  ++ hash_sealed (sc_candidate_patch c) ++ hash_sealed (sc_engineering_report c)
  ++ hash_string (commit_subject (sc_submission c)) ++ hash_string (commit_body (sc_submission c))
  ++ hash_string (regression_test_identity (sc_submission c))
  ++ hash_sealed (sc_engineering_risks c).

Definition validation_preimage (c : RecordValidation) : list Z :=
  fingerprint_prefix VALIDATION_RECORD_OPERATION (rv_principal c) (rv_command_id c)
  ++ hash_i64 (rv_candidate_id c) ++ hash_u64 (rv_expected_candidate_revision c)
  ++ hash_u64 (rv_expected_attempt_revision c)
  ++ [scope_code (rv_scope c); result_code (rv_result c)]
  ++ rv_kernel_build_id c ++ hash_i64 (rv_performed_by_session_id c)
  ++ hash_string (rv_validation_profile c) ++ hash_string (rv_pristine_tree c)
  ++ hash_sealed (rv_command_set c) ++ hash_u64 (rv_duration_millis c) ++ hash_sealed (rv_log c).

Definition commit_preimage (c : AttachCandidateCommit) : list Z :=
  fingerprint_prefix CANDIDATE_COMMIT_ATTACH_OPERATION (acc_principal c) (acc_command_id c)
  ++ hash_i64 (acc_candidate_id c) ++ hash_u64 (acc_expected_candidate_revision c)
  ++ hash_string (acc_candidate_commit c) ++ hash_string (acc_candidate_ref c).

Definition review_preimage (c : SubmitQualityReview) : list Z :=
  fingerprint_prefix REVIEW_SUBMIT_OPERATION (sqr_principal c) (sqr_command_id c)
  ++ hash_i64 (sqr_candidate_id c) ++ hash_u64 (sqr_expected_candidate_revision c)
  ++ hash_u64 (sqr_expected_attempt_revision c) ++ hash_i64 (sqr_quality_session_id c)
  ++ hash_i64 (full_suite_validation_id (sqr_submission c))
  ++ [review_verdict_code (verdict (sqr_submission c))]
  ++ hash_sealed (review_rationale (sqr_submission c)) ++ hash_sealed (risks (sqr_submission c))
  ++ hash_sealed (additional_probes (sqr_submission c)).

Definition sponsorship_preimage (c : SponsorTicket) : list Z :=
  fingerprint_prefix SPONSOR_OPERATION (sponsorship_principal (st_decision c)) (st_command_id c)
  ++ hash_i64 (sponsored_ticket_revision_id (st_decision c))
  ++ hash_u64 (st_expected_ticket_revision c)
  ++ hash_sealed (sponsorship_rationale (st_decision c)).

Definition release_preimage (c : ReleaseTicketAttempt) : list Z :=
  fingerprint_prefix RELEASE_OPERATION (release_principal (rl_decision c)) (rl_command_id c)
  ++ hash_i64 (released_ticket_attempt_id (rl_decision c))
  ++ hash_u64 (rl_expected_attempt_revision c) ++ hash_u64 (rl_expected_ticket_revision c)
  ++ hash_sealed (release_rationale (rl_decision c))
  ++ hash_string (current_head_commit (rl_requalification c))
  ++ hash_string (current_head_tree (rl_requalification c))
  ++ hash_i64 (first_actual_observation_artifact_id (rl_requalification c))
  ++ hash_i64 (second_actual_observation_artifact_id (rl_requalification c)).

Definition candidate_decision_preimage (c : DecideCandidate) : list Z :=
  let r := dc_request c in
  fingerprint_prefix CANDIDATE_DECIDE_OPERATION (request_principal r) (dc_command_id c)
  ++ hash_u64 (dc_expected_candidate_revision c) ++ hash_u64 (dc_expected_attempt_revision c)
  ++ hash_u64 (dc_expected_ticket_revision c) ++ hash_i64 (request_candidate_id r)
  ++ hash_i64 (request_review_id r) ++ [decision_code (request_decision r)]
  ++ hash_sealed (request_rationale r)
  ++ match quality_rejection_override r with
     | Some value => [1] ++ hash_i64 value
     | None => [0]
     end.

Definition delivery_preimage (c : RecordDelivery) : list Z :=
  fingerprint_prefix DELIVERY_RECORD_OPERATION (rd_principal c) (rd_command_id c)
  ++ hash_i64 (rd_candidate_id c) ++ hash_u64 (rd_expected_candidate_revision c)
  ++ hash_u64 (rd_expected_attempt_revision c) ++ hash_u64 (rd_expected_ticket_revision c)
  ++ hash_u64 (rd_expected_campaign_revision c) ++ hash_string (rd_expected_old_commit c)
  ++ hash_string (rd_candidate_commit c) ++ hash_string (rd_resulting_commit c)
  ++ hash_string (rd_resulting_tree c)
  ++ rev (be_bytes 8 (rd_factory_cost_micro_usd c)) ++ hash_sealed (rd_receipt c).

Section Operations.
Variable blake3 : list Z -> ContentDigest.

(** * Candidate submission *)

Definition submit_candidate_contract (command : SubmitCandidate)
  : result DecisionStoreError unit :=
  validate_command (sc_principal command) (sc_command_id command) ;;
  contract (candidate_submission_validate (sc_submission command)) ;;
  contract (artifact_validate (sc_changed_paths command)
              "candidate changed paths" (256 * 1024) false) ;;
  contract (artifact_validate (sc_regression_patch command)
              "regression binary patch" (16 * 1024 * 1024) true) ;;
  contract (artifact_validate (sc_regression_command_set command)
              "regression checkpoint command set" (256 * 1024) false) ;;
  contract (artifact_validate (sc_regression_log command)
              "regression checkpoint log" (16 * 1024 * 1024) true) ;;
  contract (artifact_validate (sc_candidate_patch command)
              "candidate binary patch" (16 * 1024 * 1024) false) ;;
  contract (artifact_validate (sc_engineering_report command)
              "kernel Engineering report" (128 * 1024) false) ;;
  contract (artifact_validate (sc_engineering_risks command)
              "kernel Engineering risks" (64 * 1024) false).

Definition submitted_evidence (db : Database) (application_revision_id : Z)
    (command : SubmitCandidate) : CandidateEvidence := {|
  c_ticket_attempt_id := sc_ticket_attempt_id command;
  c_application_revision_id := application_revision_id;
  c_base_commit := sc_base_commit command;
  c_base_tree := sc_base_tree command;
  c_regression_tree := sc_regression_tree command;
  c_candidate_tree := sc_candidate_tree command;
  c_changed_paths_artifact_id := artifact_id (sc_changed_paths command);
  c_regression_patch_artifact_id := artifact_id (sc_regression_patch command);
  c_regression_command_set_artifact_id := artifact_id (sc_regression_command_set command);
  c_regression_log_artifact_id := artifact_id (sc_regression_log command);
  c_patch_artifact_id := artifact_id (sc_candidate_patch command);
  c_engineering_session_id := sc_engineering_session_id command;
  c_engineering_report_artifact_id := artifact_id (sc_engineering_report command);
  c_commit_subject := commit_subject (sc_submission command);
  c_commit_body := commit_body (sc_submission command);
  c_regression_test_identity := regression_test_identity (sc_submission command);
  c_risks_artifact_id := artifact_id (sc_engineering_risks command);
  c_created_at := now db |}.

Definition submit_candidate (db : Database) (command : SubmitCandidate)
  : result DecisionStoreError (CandidateReceipt * Database) :=
  submit_candidate_contract command ;;
  let fingerprint := blake3 (submit_candidate_preimage command) in
  lock_attempt db (sc_ticket_attempt_id command) ;;
  receipt ← find_audit db (sc_principal command) (sc_command_id command)
              CANDIDATE_SUBMIT_OPERATION fingerprint;
  match receipt with
  | Some receipt =>
      require_subject receipt CANDIDATE_SUBJECT ;;
      id ← new_id "candidate ID" (receipt_subject_id receipt);
      candidate ← load_candidate db id;
      state ← candidate_state (cl_lifecycle candidate);
      Ok ({| cr_candidate_id := cl_id candidate;
             cr_state := state;
             cr_resulting_revision := receipt_resulting_revision receipt;
             cr_audit_log_id := receipt_audit_log_id receipt;
             cr_was_idempotent_retry := true |}, db)
  | None =>
      attempt ← lock_candidate_attempt db (sc_ticket_attempt_id command);
      require_revision (sc_expected_attempt_revision command) (at_attempt_revision attempt) ;;
      require_revision (sc_expected_ticket_revision command) (at_ticket_revision attempt) ;;
      require_ticket_state InFlight (at_ticket_state attempt) ;;
      require ((at_stage attempt =? ATTEMPT_ENGINEERING)
               || (at_stage attempt =? ATTEMPT_REWORK_ENGINEERING))
        (AttemptStageConflict "Engineering or ReworkEngineering" (at_stage attempt)) ;;
      require (bool_decide (sc_base_commit command = at_claimed_commit attempt)
               && bool_decide (sc_base_tree command = at_claimed_tree attempt))
        CandidateBaseChanged ;;
      for_each (require_artifact db)
        [sc_changed_paths command; sc_regression_patch command;
         sc_regression_command_set command; sc_regression_log command;
         sc_candidate_patch command; sc_engineering_report command;
         sc_engineering_risks command] ;;
      require_session db (sc_engineering_session_id command) (at_campaign_id attempt)
        OFFICE_ENGINEERING ;;
      require (at_candidate_ordinal attempt + 1 <? 2 ^ 31) IntegerOutOfRange ;;
      next_attempt ← next_revision (at_attempt_revision attempt);
      inserted ← db_result (insert_candidate {|
        c_evidence := submitted_evidence db (at_application_revision_id attempt) command;
        c_candidate_commit := None;
        c_candidate_ref := None;
        c_lifecycle := CANDIDATE_SUBMITTED;
        c_revision := 0 |} db);
      let '(row_id, db1) := inserted in
      candidate_id ← new_id "candidate ID" row_id;
      let validation_stage :=
        if at_stage attempt =? ATTEMPT_ENGINEERING
        then ATTEMPT_HARD_VALIDATION else ATTEMPT_REWORK_VALIDATION in
      sql ← revision_sql next_attempt;
      let db2 := update_ticket_attempt (sc_ticket_attempt_id command)
        (submit_attempt (at_candidate_ordinal attempt + 1) validation_stage sql) db1 in
      audit ← insert_audit db2 (sc_principal command) (sc_command_id command)
        CANDIDATE_SUBMIT_OPERATION fingerprint CANDIDATE_SUBJECT candidate_id revision_initial;
      let '(audit_log_id, db3) := audit in
      Ok ({| cr_candidate_id := candidate_id;
             cr_state := CandidateSubmitted;
             cr_resulting_revision := revision_initial;
             cr_audit_log_id := audit_log_id;
             cr_was_idempotent_retry := false |}, db3)
  end.

(** * Validation *)

Definition required_validation_stage (scope : ValidationScope) (stage : Z) : Z :=
  match scope with
  | HardCandidate =>
      if stage =? ATTEMPT_HARD_VALIDATION then ATTEMPT_HARD_VALIDATION
      else ATTEMPT_REWORK_VALIDATION
  | QualityFullSuite =>
      if stage =? ATTEMPT_QUALITY then ATTEMPT_QUALITY else ATTEMPT_REWORK_QUALITY
  end.

(** The next candidate lifecycle and attempt stage. *)
Definition validation_outcome (scope : ValidationScope) (outcome : ValidationResult) (stage : Z)
  : Z * Z :=
  if bool_decide (outcome = Passed)
  then match scope with
       | HardCandidate =>
           (CANDIDATE_VALIDATED,
            if stage =? ATTEMPT_HARD_VALIDATION then ATTEMPT_QUALITY else ATTEMPT_REWORK_QUALITY)
       | QualityFullSuite => (CANDIDATE_VALIDATED, ATTEMPT_AWAITING_ARCHITECT)
       end
  else (CANDIDATE_REJECTED, ATTEMPT_FAILED).

Definition record_validation (db : Database) (command : RecordValidation)
  : result DecisionStoreError (ValidationReceipt * Database) :=
  validate_command (rv_principal command) (rv_command_id command) ;;
  validate_validation_command command ;;
  let fingerprint := blake3 (validation_preimage command) in
  lock_candidate db (rv_candidate_id command) ;;
  receipt ← find_audit db (rv_principal command) (rv_command_id command)
              VALIDATION_RECORD_OPERATION fingerprint;
  match receipt with
  | Some receipt =>
      require_subject receipt VALIDATION_SUBJECT ;;
      validation_id ← new_id "validation ID" (receipt_subject_id receipt);
      validation ← load_validation db validation_id;
      candidate ← load_candidate db (v_candidate_id validation);
      attempt ← lock_candidate_attempt db (cl_ticket_attempt_id candidate);
      state ← validation_state (v_lifecycle validation);
      candidate_state ← candidate_state (cl_lifecycle candidate);
      Ok ({| vr_validation_id := validation_id;
             vr_candidate_id := cl_id candidate;
             vr_state := state;
             vr_candidate_state := candidate_state;
             vr_resulting_candidate_revision := cl_revision candidate;
             vr_resulting_attempt_revision := at_attempt_revision attempt;
             vr_audit_log_id := receipt_audit_log_id receipt;
             vr_was_idempotent_retry := true |}, db)
  | None =>
      candidate ← load_candidate db (rv_candidate_id command);
      require_revision (rv_expected_candidate_revision command) (cl_revision candidate) ;;
      attempt ← lock_candidate_attempt db (cl_ticket_attempt_id candidate);
      require_revision (rv_expected_attempt_revision command) (at_attempt_revision attempt) ;;
      require_ticket_state InFlight (at_ticket_state attempt) ;;
      let required_candidate_state :=
        match rv_scope command with
        | HardCandidate => CandidateSubmitted | QualityFullSuite => CandidateValidated
        end in
      observed ← candidate_state (cl_lifecycle candidate);
      require_candidate_state required_candidate_state observed ;;
      require (at_stage attempt =? required_validation_stage (rv_scope command) (at_stage attempt))
        (AttemptStageConflict
           match rv_scope command with
           | HardCandidate => "HardValidation or ReworkValidation"
           | QualityFullSuite => "Quality or ReworkQuality"
           end (at_stage attempt)) ;;
      require (bool_decide (rv_pristine_tree command = cl_candidate_tree candidate))
        ValidationTreeChanged ;;
      build_database_id ← require_kernel_build db (rv_kernel_build_id command)
        (at_kernel_build_database_id attempt);
      require_session db (rv_performed_by_session_id command) (at_campaign_id attempt)
        (expected_office (rv_scope command)) ;;
      require_artifact db (rv_command_set command) ;;
      require_artifact db (rv_log command) ;;
      require (negb (validation_exists db (rv_candidate_id command) (rv_scope command)))
        (ValidationAlreadyRecorded (rv_candidate_id command) (rv_scope command)) ;;
      duration ← revision_sql (rv_duration_millis command);
      inserted ← db_result (insert_validation {|
        v_candidate_id := rv_candidate_id command;
        v_kernel_build_id := build_database_id;
        v_performed_by_session_id := rv_performed_by_session_id command;
        v_validation_scope := scope_code (rv_scope command);
        v_validation_profile := rv_validation_profile command;
        v_pristine_tree := rv_pristine_tree command;
        v_command_set_artifact_id := artifact_id (rv_command_set command);
        v_lifecycle := result_code (rv_result command);
        v_duration_millis := duration;
        v_log_artifact_id := artifact_id (rv_log command);
        v_created_at := now db |} db);
      let '(row_id, db1) := inserted in
      validation_id ← new_id "validation ID" row_id;
      let '(next_candidate_state, next_attempt_stage) :=
        validation_outcome (rv_scope command) (rv_result command) (at_stage attempt) in
      next_candidate ← next_revision (cl_revision candidate);
      next_attempt ← next_revision (at_attempt_revision attempt);
      candidate_sql ← revision_sql next_candidate;
      attempt_sql ← revision_sql next_attempt;
      let db2 := update_candidate (rv_candidate_id command)
        (set_candidate_lifecycle next_candidate_state candidate_sql) db1 in
      let db3 := update_ticket_attempt (at_id attempt)
        (advance_attempt next_attempt_stage 0 attempt_sql (now db)
           "hard validation did not pass") db2 in
      audit ← insert_audit db3 (rv_principal command) (rv_command_id command)
        VALIDATION_RECORD_OPERATION fingerprint VALIDATION_SUBJECT validation_id next_candidate;
      let '(audit_log_id, db4) := audit in
      candidate_state ← candidate_state next_candidate_state;
      Ok ({| vr_validation_id := validation_id;
             vr_candidate_id := rv_candidate_id command;
             vr_state := rv_result command;
             vr_candidate_state := candidate_state;
             vr_resulting_candidate_revision := next_candidate;
             vr_resulting_attempt_revision := next_attempt;
             vr_audit_log_id := audit_log_id;
             vr_was_idempotent_retry := false |}, db4)
  end.

(** * Commit attachment *)

Definition legacy_ref (ticket_id candidate_id : Z) : string :=
  "refs/heads/factory/" +:+ pretty ticket_id +:+ "/" +:+ pretty candidate_id.

Definition scoped_suffix (ticket_id candidate_id : Z) : string :=
  "/" +:+ pretty ticket_id +:+ "/" +:+ pretty candidate_id.

(** [starts_with] and [ends_with] on bytes. *)
Definition starts_with (prefix l : list Z) : bool :=
  bool_decide (is_Some (strip_prefix prefix l)).
Definition ends_with (suffix l : list Z) : bool := starts_with (rev suffix) (rev l).

Definition candidate_ref_names (ref : string) (ticket_id candidate_id : Z) : bool :=
  String.eqb ref (legacy_ref ticket_id candidate_id)
  || (starts_with (string_bytes "refs/heads/factory-scoped/") (string_bytes ref)
      && ends_with (string_bytes (scoped_suffix ticket_id candidate_id)) (string_bytes ref)).

Definition attach_candidate_commit (db : Database) (command : AttachCandidateCommit)
  : result DecisionStoreError (CandidateReceipt * Database) :=
  validate_command (acc_principal command) (acc_command_id command) ;;
  validate_candidate_ref (acc_candidate_ref command) ;;
  let fingerprint := blake3 (commit_preimage command) in
  lock_candidate db (acc_candidate_id command) ;;
  receipt ← find_audit db (acc_principal command) (acc_command_id command)
              CANDIDATE_COMMIT_ATTACH_OPERATION fingerprint;
  match receipt with
  | Some receipt =>
      require_subject receipt CANDIDATE_SUBJECT ;;
      id ← new_id "candidate ID" (receipt_subject_id receipt);
      candidate ← load_candidate db id;
      state ← candidate_state (cl_lifecycle candidate);
      Ok ({| cr_candidate_id := cl_id candidate;
             cr_state := state;
             cr_resulting_revision := cl_revision candidate;
             cr_audit_log_id := receipt_audit_log_id receipt;
             cr_was_idempotent_retry := true |}, db)
  | None =>
      candidate ← load_candidate db (acc_candidate_id command);
      require_revision (acc_expected_candidate_revision command) (cl_revision candidate) ;;
      observed ← candidate_state (cl_lifecycle candidate);
      require_candidate_state CandidateValidated observed ;;
      require (bool_decide (cl_candidate_commit candidate = None))
        CandidateCommitAlreadyAttached ;;
      require (validation_passed db (acc_candidate_id command) HardCandidate)
        HardValidationMissing ;;
      attempt ← lock_candidate_attempt db (cl_ticket_attempt_id candidate);
      require (candidate_ref_names (acc_candidate_ref command) (at_ticket_id attempt)
                 (acc_candidate_id command)) InvalidCandidateRef ;;
      next ← next_revision (cl_revision candidate);
      sql ← revision_sql next;
      let db1 := update_candidate (acc_candidate_id command)
        (set_candidate_commit (acc_candidate_commit command) (acc_candidate_ref command) sql) db in
      audit ← insert_audit db1 (acc_principal command) (acc_command_id command)
        CANDIDATE_COMMIT_ATTACH_OPERATION fingerprint CANDIDATE_SUBJECT
        (acc_candidate_id command) next;
      let '(audit_log_id, db2) := audit in
      Ok ({| cr_candidate_id := acc_candidate_id command;
             cr_state := CandidateValidated;
             cr_resulting_revision := next;
             cr_audit_log_id := audit_log_id;
             cr_was_idempotent_retry := false |}, db2)
  end.

(** * Quality review *)

Definition submit_quality_review (db : Database) (command : SubmitQualityReview)
  : result DecisionStoreError (ReviewReceipt * Database) :=
  validate_command (sqr_principal command) (sqr_command_id command) ;;
  contract (quality_review_submission_validate (sqr_submission command)) ;;
  let fingerprint := blake3 (review_preimage command) in
  let submission := sqr_submission command in
  lock_candidate db (sqr_candidate_id command) ;;
  receipt ← find_audit db (sqr_principal command) (sqr_command_id command)
              REVIEW_SUBMIT_OPERATION fingerprint;
  match receipt with
  | Some receipt =>
      require_subject receipt REVIEW_SUBJECT ;;
      review_id ← new_id "review ID" (receipt_subject_id receipt);
      review ← load_review db review_id;
      candidate ← load_candidate db (r_candidate_id review);
      attempt ← lock_candidate_attempt db (cl_ticket_attempt_id candidate);
      verdict ← review_verdict (r_verdict review);
      Ok ({| rr_review_id := review_id;
             rr_candidate_id := cl_id candidate;
             rr_verdict := verdict;
             rr_resulting_candidate_revision := cl_revision candidate;
             rr_resulting_attempt_revision := at_attempt_revision attempt;
             rr_audit_log_id := receipt_audit_log_id receipt;
             rr_was_idempotent_retry := true |}, db)
  | None =>
      candidate ← load_candidate db (sqr_candidate_id command);
      require_revision (sqr_expected_candidate_revision command) (cl_revision candidate) ;;
      observed ← candidate_state (cl_lifecycle candidate);
      require_candidate_state CandidateValidated observed ;;
      require (bool_decide (is_Some (cl_candidate_commit candidate))) CandidateCommitMissing ;;
      attempt ← lock_candidate_attempt db (cl_ticket_attempt_id candidate);
      require_revision (sqr_expected_attempt_revision command) (at_attempt_revision attempt) ;;
      require (at_stage attempt =? ATTEMPT_AWAITING_ARCHITECT)
        (AttemptStageConflict "AwaitingArchitect after passed Quality full suite"
           (at_stage attempt)) ;;
      quality_validation ← load_quality_validation db (full_suite_validation_id submission)
        (sqr_candidate_id command);
      require (v_lifecycle quality_validation =? VALIDATION_PASSED) QualityValidationNotPassed ;;
      require (bool_decide (v_pristine_tree quality_validation = cl_candidate_tree candidate))
        ValidationTreeChanged ;;
      require (v_kernel_build_id quality_validation =? at_kernel_build_database_id attempt)
        ValidationBuildMismatch ;;
      performer ← new_id "session ID" (v_performed_by_session_id quality_validation);
      require_session_jurisdiction db performer (at_campaign_id attempt) OFFICE_QUALITY ;;
      require_session db (sqr_quality_session_id command) (at_campaign_id attempt)
        OFFICE_QUALITY ;;
      for_each (require_artifact db)
        [review_rationale submission; risks submission; additional_probes submission] ;;
      require (negb (review_exists db (sqr_candidate_id command)))
        (ReviewAlreadySubmitted (sqr_candidate_id command)) ;;
      inserted ← db_result (insert_review {|
        r_candidate_id := sqr_candidate_id command;
        r_quality_session_id := sqr_quality_session_id command;
        r_full_suite_validation_id := full_suite_validation_id submission;
        r_verdict := review_verdict_code (verdict submission);
        r_rationale_artifact_id := artifact_id (review_rationale submission);
        r_risks_artifact_id := artifact_id (risks submission);
        r_additional_probes_artifact_id := artifact_id (additional_probes submission);
        r_revision := 0;
        r_created_at := now db |} db);
      let '(row_id, db1) := inserted in
      review_id ← new_id "review ID" row_id;
      next_candidate ← next_revision (cl_revision candidate);
      next_attempt ← next_revision (at_attempt_revision attempt);
      candidate_sql ← revision_sql next_candidate;
      attempt_sql ← revision_sql next_attempt;
      let db2 := update_candidate (sqr_candidate_id command)
        (fun row => set_candidate_lifecycle (c_lifecycle row) candidate_sql row) db1 in
      let db3 := update_ticket_attempt (at_id attempt)
        (advance_attempt ATTEMPT_AWAITING_ARCHITECT 0 attempt_sql (now db) "") db2 in
      audit ← insert_audit db3 (sqr_principal command) (sqr_command_id command)
        REVIEW_SUBMIT_OPERATION fingerprint REVIEW_SUBJECT review_id next_candidate;
      let '(audit_log_id, db4) := audit in
      Ok ({| rr_review_id := review_id;
             rr_candidate_id := sqr_candidate_id command;
             rr_verdict := verdict submission;
             rr_resulting_candidate_revision := next_candidate;
             rr_resulting_attempt_revision := next_attempt;
             rr_audit_log_id := audit_log_id;
             rr_was_idempotent_retry := false |}, db4)
  end.

(** * Architect sponsorship and release *)

Definition decision_reason (decision_id : Z) : string :=
  "architect decision " +:+ pretty decision_id.

Definition sponsor_ticket (db : Database) (command : SponsorTicket)
  : result DecisionStoreError (SponsorshipReceipt * Database) :=
  let decision := st_decision command in
  let principal := sponsorship_principal decision in
  contract (sponsorship_validate decision) ;;
  validate_architect_command principal (st_command_id command) ;;
  let fingerprint := blake3 (sponsorship_preimage command) in
  lock_ticket_revision db (sponsored_ticket_revision_id decision) ;;
  receipt ← find_audit db principal (st_command_id command) SPONSOR_OPERATION fingerprint;
  match receipt with
  | Some receipt =>
      require_subject receipt DECISION_SUBJECT ;;
      row ← load_decision db (receipt_subject_id receipt);
      target ← ok_or (d_ticket_revision_id row) CorruptDecision;
      ticket_revision_id ← new_id "ticket revision ID" target;
      ticket ← lock_ticket_revision_state db ticket_revision_id;
      architect ← architect_receipt (receipt_subject_id receipt) KindSponsor;
      Ok ({| sr_decision := architect;
             sr_ticket_revision_id := ticket_revision_id;
             sr_resulting_ticket_revision := tk_ticket_revision ticket;
             sr_audit_log_id := receipt_audit_log_id receipt;
             sr_was_idempotent_retry := true |}, db)
  | None =>
      ticket ← lock_ticket_revision_state db (sponsored_ticket_revision_id decision);
      require_revision (st_expected_ticket_revision command) (tk_ticket_revision ticket) ;;
      require_sponsorable_ticket_state (tk_ticket_state ticket) ;;
      require_artifact db (sponsorship_rationale decision) ;;
      inserted ← insert_decision db DECISION_SPONSOR
        (Some (sponsored_ticket_revision_id decision)) None None None
        (artifact_id (sponsorship_rationale decision)) principal false;
      let '(decision_id, db1) := inserted in
      next ← next_revision (tk_ticket_revision ticket);
      db2 ← update_ticket_state_parts db1 (tk_ticket_id ticket) (tk_ticket_revision_id ticket)
              TICKET_SPONSORED next (Some (decision_reason decision_id)) None;
      audit ← insert_audit db2 principal (st_command_id command) SPONSOR_OPERATION fingerprint
        DECISION_SUBJECT decision_id next;
      let '(audit_log_id, db3) := audit in
      architect ← architect_receipt decision_id KindSponsor;
      Ok ({| sr_decision := architect;
             sr_ticket_revision_id := sponsored_ticket_revision_id decision;
             sr_resulting_ticket_revision := next;
             sr_audit_log_id := audit_log_id;
             sr_was_idempotent_retry := false |}, db3)
  end.

Definition release_plan (outcome : RequalificationOutcome)
  : ReleaseOutcome * Z * Z * option string :=
  match outcome with
  | Reproduced => (Released, TICKET_SPONSORED, REQUALIFICATION_REPRODUCED, None)
  | RequalificationResolved => (ReleaseResolved, TICKET_RESOLVED, REQUALIFICATION_RESOLVED, None)
  | Diverged => (ReleaseBlocked, TICKET_BLOCKED, REQUALIFICATION_DIVERGED, Some diverged_reason)
  end.

Definition release_ticket_attempt (db : Database) (command : ReleaseTicketAttempt)
  : result DecisionStoreError (ReleaseReceipt * Database) :=
  let decision := rl_decision command in
  let principal := release_principal decision in
  contract (release_validate decision) ;;
  validate_architect_command principal (rl_command_id command) ;;
  validate_requalification (rl_requalification command) ;;
  let fingerprint := blake3 (release_preimage command) in
  lock_attempt db (released_ticket_attempt_id decision) ;;
  receipt ← find_audit db principal (rl_command_id command) RELEASE_OPERATION fingerprint;
  match receipt with
  | Some receipt =>
      require_subject receipt DECISION_SUBJECT ;;
      row ← load_decision db (receipt_subject_id receipt);
      target ← ok_or (d_ticket_attempt_id row) CorruptDecision;
      attempt_id ← new_id "ticket attempt ID" target;
      attempt ← lock_candidate_attempt db attempt_id;
      architect ← architect_receipt (receipt_subject_id receipt) KindRelease;
      outcome ← release_outcome (at_ticket_state attempt);
      Ok ({| rlr_decision := architect;
             rlr_ticket_attempt_id := attempt_id;
             rlr_outcome := outcome;
             rlr_resulting_attempt_revision := at_attempt_revision attempt;
             rlr_resulting_ticket_revision := at_ticket_revision attempt;
             rlr_audit_log_id := receipt_audit_log_id receipt;
             rlr_was_idempotent_retry := true |}, db)
  | None =>
      attempt ← lock_candidate_attempt db (released_ticket_attempt_id decision);
      require_revision (rl_expected_attempt_revision command) (at_attempt_revision attempt) ;;
      require_revision (rl_expected_ticket_revision command) (at_ticket_revision attempt) ;;
      require_ticket_state InFlight (at_ticket_state attempt) ;;
      require (negb (at_released attempt)
               && ((at_stage attempt =? ATTEMPT_FAILED)
                   || (at_stage attempt =? ATTEMPT_CANCELLED))) AttemptNotReleasable ;;
      require_artifact db (release_rationale decision) ;;
      classification ← classify_requalification db attempt (rl_requalification command);
      let '(outcome, ticket_state, code, blocked_reason) := release_plan classification in
      inserted ← insert_decision db DECISION_RELEASE None (Some (at_id attempt)) None None
        (artifact_id (release_rationale decision)) principal false;
      let '(decision_id, db1) := inserted in
      next_attempt ← next_revision (at_attempt_revision attempt);
      next_ticket ← next_revision (at_ticket_revision attempt);
      sql ← revision_sql next_attempt;
      let db2 := update_ticket_attempt (at_id attempt)
        (set_attempt_released (now db) (decision_reason decision_id) sql) db1 in
      db3 ← update_ticket_requalification db2 attempt ticket_state next_ticket code
              (rl_requalification command) blocked_reason;
      audit ← insert_audit db3 principal (rl_command_id command) RELEASE_OPERATION fingerprint
        DECISION_SUBJECT decision_id next_attempt;
      let '(audit_log_id, db4) := audit in
      architect ← architect_receipt decision_id KindRelease;
      Ok ({| rlr_decision := architect;
             rlr_ticket_attempt_id := at_id attempt;
             rlr_outcome := outcome;
             rlr_resulting_attempt_revision := next_attempt;
             rlr_resulting_ticket_revision := next_ticket;
             rlr_audit_log_id := audit_log_id;
             rlr_was_idempotent_retry := false |}, db4)
  end.

(** * Candidate decision *)

(** The candidate lifecycle and attempt stage each decision leads to. *)
Definition decision_effect (decision : CandidateDecisionV2) : Z * Z :=
  match decision with
  | Deliver => (CANDIDATE_ACCEPTED, ATTEMPT_AWAITING_ARCHITECT)
  | Rework => (CANDIDATE_REJECTED, ATTEMPT_REWORK_ENGINEERING)
  | RejectCandidate => (CANDIDATE_REJECTED, ATTEMPT_FAILED)
  end.

Definition decide_candidate (db : Database) (command : DecideCandidate)
  : result DecisionStoreError (CandidateDecisionReceipt * Database) :=
  let request := dc_request command in
  let principal := request_principal request in
  let candidate_id := request_candidate_id request in
  contract (candidate_decision_request_validate request) ;;
  validate_architect_command principal (dc_command_id command) ;;
  let fingerprint := blake3 (candidate_decision_preimage command) in
  lock_candidate db candidate_id ;;
  receipt ← find_audit db principal (dc_command_id command)
              CANDIDATE_DECIDE_OPERATION fingerprint;
  match receipt with
  | Some receipt =>
      require_subject receipt DECISION_SUBJECT ;;
      row ← load_decision db (receipt_subject_id receipt);
      target ← ok_or (d_candidate_id row) CorruptDecision;
      candidate_id ← new_id "candidate ID" target;
      candidate ← load_candidate db candidate_id;
      attempt ← lock_candidate_attempt db (cl_ticket_attempt_id candidate);
      architect ← architect_receipt (receipt_subject_id receipt)
        (decision_kind (request_decision request));
      state ← candidate_state (cl_lifecycle candidate);
      Ok ({| cdr_decision := architect;
             cdr_candidate_id := candidate_id;
             cdr_candidate_state := state;
             cdr_resulting_candidate_revision := cl_revision candidate;
             cdr_resulting_attempt_revision := at_attempt_revision attempt;
             cdr_resulting_ticket_revision := at_ticket_revision attempt;
             cdr_audit_log_id := receipt_audit_log_id receipt;
             cdr_was_idempotent_retry := true |}, db)
  | None =>
      candidate ← load_candidate db candidate_id;
      require_revision (dc_expected_candidate_revision command) (cl_revision candidate) ;;
      observed ← candidate_state (cl_lifecycle candidate);
      require_candidate_state CandidateValidated observed ;;
      require (bool_decide (is_Some (cl_candidate_commit candidate))) CandidateCommitMissing ;;
      attempt ← lock_candidate_attempt db (cl_ticket_attempt_id candidate);
      require_revision (dc_expected_attempt_revision command) (at_attempt_revision attempt) ;;
      require_revision (dc_expected_ticket_revision command) (at_ticket_revision attempt) ;;
      require_ticket_state InFlight (at_ticket_state attempt) ;;
      require (at_stage attempt =? ATTEMPT_AWAITING_ARCHITECT)
        (AttemptStageConflict "AwaitingArchitect" (at_stage attempt)) ;;
      require_hard_and_quality_validation db candidate_id ;;
      review ← load_review db (request_review_id request);
      require (r_candidate_id review =? candidate_id) ReviewCandidateMismatch ;;
      require_artifact db (request_rationale request) ;;
      let rejected_review := r_verdict review =? REVIEW_REJECT in
      let override_is_exact :=
        bool_decide (quality_rejection_override request = Some (request_review_id request)) in
      (if bool_decide (request_decision request = Deliver)
       then require (eqb rejected_review override_is_exact) QualityRejectionOverrideRequired
       else require (bool_decide (quality_rejection_override request = None))
              QualityRejectionOverrideForbidden) ;;
      require (negb (bool_decide (request_decision request = Rework)
                     && negb (at_rework_ordinal attempt =? 0))) ReworkLimitReached ;;
      inserted ← insert_decision db (decision_code (request_decision request)) None None
        (Some candidate_id) (Some (request_review_id request))
        (artifact_id (request_rationale request)) principal rejected_review;
      let '(decision_id, db1) := inserted in
      next_candidate ← next_revision (cl_revision candidate);
      next_attempt ← next_revision (at_attempt_revision attempt);
      next_ticket ← (if bool_decide (request_decision request = RejectCandidate)
                     then next_revision (at_ticket_revision attempt)
                     else Ok (at_ticket_revision attempt));
      let '(candidate_lifecycle, attempt_stage) := decision_effect (request_decision request) in
      candidate_sql ← revision_sql next_candidate;
      let db2 := update_candidate candidate_id
        (set_candidate_lifecycle candidate_lifecycle candidate_sql) db1 in
      attempt_sql ← revision_sql next_attempt;
      let db3 := update_ticket_attempt (at_id attempt)
        (advance_attempt attempt_stage
           (if bool_decide (request_decision request = Rework) then 1 else 0)
           attempt_sql (now db) "architect rejected reviewed candidate") db2 in
      db4 ← (if bool_decide (request_decision request = RejectCandidate)
             then update_ticket_state db3 attempt TICKET_REJECTED next_ticket None None
             else Ok db3);
      audit ← insert_audit db4 principal (dc_command_id command) CANDIDATE_DECIDE_OPERATION
        fingerprint DECISION_SUBJECT decision_id next_candidate;
      let '(audit_log_id, db5) := audit in
      architect ← architect_receipt decision_id (decision_kind (request_decision request));
      state ← candidate_state candidate_lifecycle;
      Ok ({| cdr_decision := architect;
             cdr_candidate_id := candidate_id;
             cdr_candidate_state := state;
             cdr_resulting_candidate_revision := next_candidate;
             cdr_resulting_attempt_revision := next_attempt;
             cdr_resulting_ticket_revision := next_ticket;
             cdr_audit_log_id := audit_log_id;
             cdr_was_idempotent_retry := false |}, db5)
  end.

(** * Delivery *)

Definition record_delivery (db : Database) (command : RecordDelivery)
  : result DecisionStoreError (DeliveryReceipt * Database) :=
  let candidate_id := rd_candidate_id command in
  validate_command (rd_principal command) (rd_command_id command) ;;
  contract (artifact_validate (rd_receipt command) "delivery receipt" (16 * 1024 * 1024) false) ;;
  let fingerprint := blake3 (delivery_preimage command) in
  lock_candidate db candidate_id ;;
  receipt ← find_audit db (rd_principal command) (rd_command_id command)
              DELIVERY_RECORD_OPERATION fingerprint;
  match receipt with
  | Some receipt =>
      require_subject receipt DELIVERY_SUBJECT ;;
      delivery ← load_delivery db (receipt_subject_id receipt);
      candidate ← load_candidate db (dl_candidate_id delivery);
      attempt ← lock_candidate_attempt db (cl_ticket_attempt_id candidate);
      campaign ← load_campaign db (at_campaign_id attempt);
      delivery_id ← new_id "delivery ID" (receipt_subject_id receipt);
      Ok ({| dr_delivery_id := delivery_id;
             dr_candidate_id := cl_id candidate;
             dr_factory_cost_micro_usd := dl_factory_cost_micro_usd delivery;
             dr_resulting_candidate_revision := cl_revision candidate;
             dr_resulting_attempt_revision := at_attempt_revision attempt;
             dr_resulting_ticket_revision := at_ticket_revision attempt;
             dr_resulting_campaign_revision := cmp_revision campaign;
             dr_campaign_completed := cmp_lifecycle campaign =? CAMPAIGN_COMPLETED;
             dr_audit_log_id := receipt_audit_log_id receipt;
             dr_was_idempotent_retry := true |}, db)
  | None =>
      candidate ← load_candidate db candidate_id;
      require_revision (rd_expected_candidate_revision command) (cl_revision candidate) ;;
      observed ← candidate_state (cl_lifecycle candidate);
      require_candidate_state CandidateAccepted observed ;;
      candidate_commit ← ok_or (cl_candidate_commit candidate) CandidateCommitMissing;
      require (bool_decide (candidate_commit = rd_candidate_commit command)
               && bool_decide (cl_base_commit candidate = rd_expected_old_commit command)
               && bool_decide (cl_candidate_tree candidate = rd_resulting_tree command))
        DeliveryReceiptMismatch ;;
      attempt ← lock_candidate_attempt db (cl_ticket_attempt_id candidate);
      require_revision (rd_expected_attempt_revision command) (at_attempt_revision attempt) ;;
      require_revision (rd_expected_ticket_revision command) (at_ticket_revision attempt) ;;
      require_ticket_state InFlight (at_ticket_state attempt) ;;
      require (at_stage attempt =? ATTEMPT_AWAITING_ARCHITECT)
        (AttemptStageConflict "AwaitingArchitect" (at_stage attempt)) ;;
      require (deliver_decision_exists db candidate_id) ArchitectDeliveryDecisionMissing ;;
      require_artifact db (rd_receipt command) ;;
      campaign ← load_campaign db (at_campaign_id attempt);
      require_revision (rd_expected_campaign_revision command) (cmp_revision campaign) ;;
      require (cmp_lifecycle campaign =? CAMPAIGN_RUNNING) CampaignNotRunning ;;
      require (cmp_cost_state campaign =? COST_KNOWN) CampaignCostNotKnown ;;
      require (rd_factory_cost_micro_usd command =? cmp_measured_cost_micro_usd campaign)
        DeliveryFactoryCostMismatch ;;
      require (negb (paid_session_active db)) PaidSessionStillRunning ;;
      let before_delivered := delivered_attempt_count (at_campaign_id attempt) db in
      require (before_delivered + 1 <=? i64_max) IntegerOutOfRange ;;
      let completed := cmp_delivery_target campaign <=? before_delivered + 1 in
      next_candidate ← next_revision (cl_revision candidate);
      next_attempt ← next_revision (at_attempt_revision attempt);
      next_ticket ← next_revision (at_ticket_revision attempt);
      next_campaign ← (if completed then next_revision (cmp_revision campaign)
                       else Ok (cmp_revision campaign));
      cost_sql ← revision_sql (rd_factory_cost_micro_usd command);
      inserted ← db_result (insert_delivery {|
        dl_candidate_id := candidate_id;
        dl_candidate_commit := rd_candidate_commit command;
        dl_expected_old_commit := rd_expected_old_commit command;
        dl_resulting_commit := rd_resulting_commit command;
        dl_resulting_tree := rd_resulting_tree command;
        dl_factory_cost_micro_usd := cost_sql;
        dl_receipt_artifact_id := artifact_id (rd_receipt command);
        dl_created_at := now db |} db);
      let '(row_id, db1) := inserted in
      delivery_id ← new_id "delivery ID" row_id;
      candidate_sql ← revision_sql next_candidate;
      let db2 := update_candidate candidate_id
        (set_candidate_lifecycle CANDIDATE_DELIVERED candidate_sql) db1 in
      attempt_sql ← revision_sql next_attempt;
      let db3 := update_ticket_attempt (at_id attempt)
        (advance_attempt ATTEMPT_DELIVERED 0 attempt_sql (now db) "") db2 in
      db4 ← update_ticket_state db3 attempt TICKET_DELIVERED next_ticket None None;
      db5 ← (if completed
             then campaign_sql ← revision_sql next_campaign;
                  Ok (update_campaign_lifecycle (at_campaign_id attempt) CAMPAIGN_COMPLETED
                        campaign_sql db4)
             else Ok db4);
      audit ← insert_audit db5 (rd_principal command) (rd_command_id command)
        DELIVERY_RECORD_OPERATION fingerprint DELIVERY_SUBJECT delivery_id next_candidate;
      let '(audit_log_id, db6) := audit in
      Ok ({| dr_delivery_id := delivery_id;
             dr_candidate_id := candidate_id;
             dr_factory_cost_micro_usd := rd_factory_cost_micro_usd command;
             dr_resulting_candidate_revision := next_candidate;
             dr_resulting_attempt_revision := next_attempt;
             dr_resulting_ticket_revision := next_ticket;
             dr_resulting_campaign_revision := next_campaign;
             dr_campaign_completed := completed;
             dr_audit_log_id := audit_log_id;
             dr_was_idempotent_retry := false |}, db6)
  end.

End Operations.
