(* ===== verification/Lifecycle.v ===== *)
(** The ticket lifecycle both stores implement together: the commands, the
    steps the rest of the kernel may take between them, and the abstract
    transitions a committed command is a sequence of. *)
From S2P Require Import Prelude Values Contracts Database.
From S2P Require TicketStore DecisionStore.

(** * Commands *)

Inductive Command :=
  | ProposeTicket (c : TicketStore.SubmitTicketProposal)
  | SponsorRevision (c : TicketStore.SponsorTicketRevision)
  | ClaimTicket (c : TicketStore.ClaimSponsoredTicket)
  | FailAttempt (c : TicketStore.FailTicketAttempt)
  | RetryQuality (c : TicketStore.RetryQualityAttempt)
  | RetryEngineering (c : TicketStore.RetryEngineeringAttempt)
  | ReleaseAttempt (c : TicketStore.ReleaseTicketAttempt)
  | CompleteCampaign (c : TicketStore.CompleteCampaignAtDeliveryTarget)
  | SubmitCandidate (c : DecisionStore.SubmitCandidate)
  | RecordValidation (c : DecisionStore.RecordValidation)
  | AttachCommit (c : DecisionStore.AttachCandidateCommit)
  | SubmitReview (c : DecisionStore.SubmitQualityReview)
  | ArchitectSponsor (c : DecisionStore.SponsorTicket)
  | ArchitectRelease (c : DecisionStore.ReleaseTicketAttempt)
  | DecideCandidate (c : DecisionStore.DecideCandidate)
  | RecordDelivery (c : DecisionStore.RecordDelivery).

(** The committed database of a run, [None] when the transaction rolled back. *)
Definition committed {E R} (r : result E (R * Database)) : option Database :=
  match r with Ok (_, db) => Some db | Err _ => None end.

Definition execute (blake3 : list Z -> ContentDigest) (db : Database) (command : Command)
  : option Database :=
  match command with
  | ProposeTicket c => committed (TicketStore.submit_ticket_proposal blake3 db c)
  | SponsorRevision c => committed (TicketStore.sponsor_ticket_revision blake3 db c)
  | ClaimTicket c => committed (TicketStore.claim_sponsored_ticket blake3 db c)
  | FailAttempt c => committed (TicketStore.fail_ticket_attempt blake3 db c)
  | RetryQuality c => committed (TicketStore.retry_quality_attempt blake3 db c)
  | RetryEngineering c => committed (TicketStore.retry_engineering_attempt blake3 db c)
  | ReleaseAttempt c => committed (TicketStore.release_ticket_attempt blake3 db c)
  | CompleteCampaign c => committed (TicketStore.complete_campaign_at_delivery_target blake3 db c)
  | SubmitCandidate c => committed (DecisionStore.submit_candidate blake3 db c)
  | RecordValidation c => committed (DecisionStore.record_validation blake3 db c)
  | AttachCommit c => committed (DecisionStore.attach_candidate_commit blake3 db c)
  | SubmitReview c => committed (DecisionStore.submit_quality_review blake3 db c)
  | ArchitectSponsor c => committed (DecisionStore.sponsor_ticket blake3 db c)
  | ArchitectRelease c => committed (DecisionStore.release_ticket_attempt blake3 db c)
  | DecideCandidate c => committed (DecisionStore.decide_candidate blake3 db c)
  | RecordDelivery c => committed (DecisionStore.record_delivery blake3 db c)
  end.

(** * What the rest of the kernel may do between two commands

    Sessions start and end, campaigns accrue cost and close, artifacts and
    builds are registered, other operations are audited and time passes.  The
    ticket, candidate, review, decision and delivery tables belong to the two
    stores, and the schema's triggers keep identity columns. *)

Record environment (db db' : Database) : Prop := {
  env_tickets : tickets db' = tickets db;
  env_ticket_revisions : ticket_revisions db' = ticket_revisions db;
  env_ticket_attempts : ticket_attempts db' = ticket_attempts db;
  env_candidates : candidates db' = candidates db;
  env_validations : validations db' = validations db;
  env_reviews : reviews db' = reviews db;
  env_decisions : architect_decisions db' = architect_decisions db;
  env_deliveries : deliveries db' = deliveries db;
  env_artifacts : artifacts db ⊆ artifacts db';
  env_audit : audit_log db ⊆ audit_log db';
  env_campaigns : forall id c, campaigns db !! id = Some c -> exists c',
    campaigns db' !! id = Some c' /\
    cmp_application_revision_id c' = cmp_application_revision_id c /\
    cmp_kernel_build_id c' = cmp_kernel_build_id c;
}.

(** * Abstract transitions *)

(** A ticket and its current revision, in agreement and in one state. *)
Record ticket_at (db : Database) (revision_id : Z) (state : Z)
    (tr : TicketRevisionRow) (t : TicketRow) : Prop := {
  at_revision : ticket_revisions db !! revision_id = Some tr;
  at_ticket : tickets db !! tr_ticket_id (tr_contract tr) = Some t;
  at_current : t_current_ticket_revision_id t = revision_id;
  at_revision_state : tr_lifecycle tr = state;
  at_ticket_state : t_lifecycle t = state;
  at_same_revision : tr_revision tr = t_revision t;
  at_nonnegative : 0 <= tr_revision tr;
}.

(** The ticket and its current revision take a new state and revision. *)
Definition moved (db : Database) (revision_id : Z) (tr' : TicketRevisionRow) (t : TicketRow)
  : Database :=
  set_tickets (<[tr_ticket_id (tr_contract tr') := {|
      t_application_revision_id := t_application_revision_id t;
      t_lifecycle := tr_lifecycle tr';
      t_current_ticket_revision_id := t_current_ticket_revision_id t;
      t_revision := tr_revision tr' |}]> (tickets db))
    (set_ticket_revisions (<[revision_id := tr']> (ticket_revisions db)) db).

(** [tr'] is [tr] after a transition of the ticket to [state]. *)
Definition next_state (tr tr' : TicketRevisionRow) (state : Z) : Prop :=
  tr_contract tr' = tr_contract tr /\ tr_lifecycle tr' = state /\
  tr_revision tr' = tr_revision tr + 1.

(** The attempt keeps its claim and its custody of the revision. *)
Definition attempt_keeps (a a' : TicketAttemptRow) : Prop :=
  ta_claim a' = ta_claim a /\ ta_released_at a' = ta_released_at a /\
  ta_revision a' = ta_revision a + 1.

Definition put_attempt (db : Database) (id : Z) (a : TicketAttemptRow) : Database :=
  set_ticket_attempts (<[id := a]> (ticket_attempts db)) db.

Definition put_candidate (db : Database) (id : Z) (c : CandidateRow) : Database :=
  set_candidates (<[id := c]> (candidates db)) db.

(** A passed validation row of one scope for a candidate. *)
Definition has_passed (db : Database) (candidate_id scope : Z) : Prop :=
  exists id v, validations db !! id = Some v /\ v_candidate_id v = candidate_id /\
    v_validation_scope v = scope /\ v_lifecycle v = VALIDATION_PASSED.

(** An in-flight ticket, its attempt and the campaign that paid for it. *)
Record attempt_at (db : Database) (attempt_id : Z) (a : TicketAttemptRow)
    (tr : TicketRevisionRow) (t : TicketRow) (state : Z) : Prop := {
  aa_attempt : ticket_attempts db !! attempt_id = Some a;
  aa_ticket : ticket_at db (ta_ticket_revision_id (ta_claim a)) state tr t;
}.

Inductive transition (db : Database) : Database -> Prop :=
  | t_environment db' : environment db db' -> transition db db'
  | t_audit key row :
      audit_log db !! key = None ->
      transition db (set_audit_log (<[key := row]> (audit_log db)) db)
  | t_office_decision d :
      d_candidate_id d = None -> d_decision_kind d < 2 ->
      transition db (set_architect_decisions
        (<[fresh_id (architect_decisions db) := d]> (architect_decisions db)) db)
  | t_propose tr t :
      let ticket_id := fresh_id (tickets db) in
      let revision_id := fresh_id (ticket_revisions db) in
      tr_ticket_id (tr_contract tr) = ticket_id ->
      t_current_ticket_revision_id t = revision_id ->
      t_application_revision_id t = tr_application_revision_id (tr_contract tr) ->
      tr_lifecycle tr = TICKET_PROPOSED -> t_lifecycle t = TICKET_PROPOSED ->
      tr_revision tr = 0 -> t_revision t = 0 ->
      ticket_revisions_live_reproducer_identity revision_id tr db = true ->
      transition db (set_ticket_revisions (<[revision_id := tr]> (ticket_revisions db))
        (set_tickets (<[ticket_id := t]> (tickets db)) db))
  | t_move revision_id tr t tr' state state' :
      ticket_at db revision_id state tr t -> next_state tr tr' state' ->
      (state, state') ∈ [(TICKET_PROPOSED, TICKET_SPONSORED); (TICKET_BLOCKED, TICKET_SPONSORED);
                         (TICKET_SPONSORED, TICKET_RESOLVED); (TICKET_SPONSORED, TICKET_BLOCKED)] ->
      ticket_revisions_live_reproducer_identity revision_id tr' db = true ->
      transition db (moved db revision_id tr' t)
  | t_claim revision_id tr t tr' a campaign :
      let attempt_id := fresh_id (ticket_attempts db) in
      ticket_at db revision_id TICKET_SPONSORED tr t -> next_state tr tr' TICKET_IN_FLIGHT ->
      ticket_revisions_live_reproducer_identity revision_id tr' db = true ->
      ta_ticket_revision_id (ta_claim a) = revision_id ->
      ta_stage a = ATTEMPT_ENGINEERING -> ta_released_at a = None ->
      ta_rework_ordinal a = 0 -> ta_revision a = 0 ->
      ticket_attempts_one_unreleased_revision a db = true ->
      campaigns db !! ta_campaign_id (ta_claim a) = Some campaign ->
      cmp_application_revision_id campaign = tr_application_revision_id (tr_contract tr) ->
      current_ticket_revision_count
        (Z.eqb (tr_application_revision_id (tr_contract tr))) TICKET_IN_FLIGHT db <= 0 ->
      transition db (moved (put_attempt db attempt_id a) revision_id tr' t)
  | t_stage attempt_id a a' tr t :
      attempt_at db attempt_id a tr t TICKET_IN_FLIGHT -> attempt_keeps a a' ->
      ta_rework_ordinal a' = ta_rework_ordinal a -> ta_stage a' <> ATTEMPT_DELIVERED ->
      transition db (put_attempt db attempt_id a')
  | t_release attempt_id a a' tr t tr' state' :
      attempt_at db attempt_id a tr t TICKET_IN_FLIGHT ->
      ta_released_at a = None -> ta_stage a ∈ [ATTEMPT_FAILED; ATTEMPT_CANCELLED] ->
      ta_claim a' = ta_claim a -> ta_stage a' = ta_stage a -> is_Some (ta_released_at a') ->
      ta_rework_ordinal a' = ta_rework_ordinal a -> ta_revision a' = ta_revision a + 1 ->
      next_state tr tr' state' ->
      state' ∈ [TICKET_SPONSORED; TICKET_RESOLVED; TICKET_BLOCKED] ->
      ticket_revisions_live_reproducer_identity (ta_ticket_revision_id (ta_claim a)) tr' db = true ->
      transition db (moved (put_attempt db attempt_id a') (ta_ticket_revision_id (ta_claim a)) tr' t)
  | t_submit attempt_id a a' tr t c :
      let candidate_id := fresh_id (candidates db) in
      attempt_at db attempt_id a tr t TICKET_IN_FLIGHT ->
      ta_stage a ∈ [ATTEMPT_ENGINEERING; ATTEMPT_REWORK_ENGINEERING] ->
      attempt_keeps a a' -> ta_rework_ordinal a' = ta_rework_ordinal a ->
      ta_stage a' ∈ [ATTEMPT_HARD_VALIDATION; ATTEMPT_REWORK_VALIDATION] ->
      c_ticket_attempt_id (c_evidence c) = attempt_id ->
      c_base_commit (c_evidence c) = ta_claimed_commit (ta_claim a) ->
      c_base_tree (c_evidence c) = ta_claimed_tree (ta_claim a) ->
      candidate_trees_differ (c_evidence c) = true ->
      c_lifecycle c = CANDIDATE_SUBMITTED -> c_candidate_commit c = None -> c_revision c = 0 ->
      transition db (put_attempt (put_candidate db candidate_id c) attempt_id a')
  | t_validate candidate_id c c' a a' tr t v campaign :
      let validation_id := fresh_id (validations db) in
      candidates db !! candidate_id = Some c ->
      attempt_at db (c_ticket_attempt_id (c_evidence c)) a tr t TICKET_IN_FLIGHT ->
      campaigns db !! ta_campaign_id (ta_claim a) = Some campaign ->
      v_candidate_id v = candidate_id -> v_pristine_tree v = c_candidate_tree (c_evidence c) ->
      v_kernel_build_id v = cmp_kernel_build_id campaign ->
      (v_validation_scope v, c_lifecycle c) ∈ [(0, CANDIDATE_SUBMITTED); (1, CANDIDATE_VALIDATED)] ->
      (forall id other, validations db !! id = Some other ->
         v_candidate_id other = candidate_id ->
         v_validation_scope other <> v_validation_scope v) ->
      c_evidence c' = c_evidence c -> c_candidate_commit c' = c_candidate_commit c ->
      c_candidate_ref c' = c_candidate_ref c ->
      c_revision c' = c_revision c + 1 ->
      c_lifecycle c' = (if v_lifecycle v =? VALIDATION_PASSED
                        then CANDIDATE_VALIDATED else CANDIDATE_REJECTED) ->
      attempt_keeps a a' -> ta_rework_ordinal a' = ta_rework_ordinal a ->
      ta_stage a' <> ATTEMPT_DELIVERED ->
      transition db (put_attempt
        (put_candidate (set_validations (<[validation_id := v]> (validations db)) db) candidate_id c')
        (c_ticket_attempt_id (c_evidence c)) a')
  | t_attach candidate_id c c' :
      candidates db !! candidate_id = Some c -> c_candidate_commit c = None ->
      c_evidence c' = c_evidence c -> c_lifecycle c' = c_lifecycle c ->
      c_lifecycle c = CANDIDATE_VALIDATED -> is_Some (c_candidate_commit c') ->
      c_revision c' = c_revision c + 1 ->
      transition db (put_candidate db candidate_id c')
  | t_review candidate_id c c' a a' v r :
      let review_id := fresh_id (reviews db) in
      candidates db !! candidate_id = Some c ->
      ticket_attempts db !! c_ticket_attempt_id (c_evidence c) = Some a ->
      ta_stage a = ATTEMPT_AWAITING_ARCHITECT -> ta_stage a' = ta_stage a ->
      attempt_keeps a a' -> ta_rework_ordinal a' = ta_rework_ordinal a ->
      validations db !! r_full_suite_validation_id r = Some v ->
      v_candidate_id v = candidate_id -> v_validation_scope v = 1 ->
      v_lifecycle v = VALIDATION_PASSED ->
      r_candidate_id r = candidate_id ->
      (forall id other, reviews db !! id = Some other -> r_candidate_id other <> candidate_id) ->
      c_evidence c' = c_evidence c -> c_lifecycle c' = c_lifecycle c ->
      c_candidate_commit c' = c_candidate_commit c -> c_candidate_ref c' = c_candidate_ref c ->
      c_revision c' = c_revision c + 1 ->
      transition db (put_attempt
        (put_candidate (set_reviews (<[review_id := r]> (reviews db)) db) candidate_id c')
        (c_ticket_attempt_id (c_evidence c)) a')
  | t_decide candidate_id c c' a a' tr t r d db' :
      let decision_id := fresh_id (architect_decisions db) in
      candidates db !! candidate_id = Some c -> c_lifecycle c = CANDIDATE_VALIDATED ->
      attempt_at db (c_ticket_attempt_id (c_evidence c)) a tr t TICKET_IN_FLIGHT ->
      ta_stage a = ATTEMPT_AWAITING_ARCHITECT ->
      has_passed db candidate_id 0 -> has_passed db candidate_id 1 ->
      is_Some (c_candidate_commit c) ->
      (exists review_id, d_review_id d = Some review_id /\ reviews db !! review_id = Some r) ->
      r_candidate_id r = candidate_id -> d_candidate_id d = Some candidate_id ->
      d_overrides_quality_rejection d = (r_verdict r =? REVIEW_REJECT) ->
      decision_override_shape d = true ->
      c_evidence c' = c_evidence c -> c_candidate_commit c' = c_candidate_commit c ->
      c_candidate_ref c' = c_candidate_ref c -> c_revision c' = c_revision c + 1 ->
      attempt_keeps a a' ->
      ((d_decision_kind d = DECISION_DELIVER /\ c_lifecycle c' = CANDIDATE_ACCEPTED /\
        ta_stage a' = ATTEMPT_AWAITING_ARCHITECT /\ ta_rework_ordinal a' = ta_rework_ordinal a /\
        db' = db) \/
       (d_decision_kind d = DECISION_REWORK /\ c_lifecycle c' = CANDIDATE_REJECTED /\
        ta_stage a' = ATTEMPT_REWORK_ENGINEERING /\ ta_rework_ordinal a = 0 /\
        ta_rework_ordinal a' = 1 /\ db' = db) \/
       (d_decision_kind d = DECISION_REJECT /\ c_lifecycle c' = CANDIDATE_REJECTED /\
        ta_stage a' = ATTEMPT_FAILED /\ ta_rework_ordinal a' = ta_rework_ordinal a /\
        exists tr', next_state tr tr' TICKET_REJECTED /\
          ticket_revisions_live_reproducer_identity (ta_ticket_revision_id (ta_claim a)) tr' db
            = true /\
          db' = moved db (ta_ticket_revision_id (ta_claim a)) tr' t)) ->
      transition db (put_attempt
        (put_candidate (set_architect_decisions (<[decision_id := d]> (architect_decisions db)) db')
           candidate_id c') (c_ticket_attempt_id (c_evidence c)) a')
  | t_deliver candidate_id c c' a a' tr t tr' d :
      let delivery_id := fresh_id (deliveries db) in
      candidates db !! candidate_id = Some c -> c_lifecycle c = CANDIDATE_ACCEPTED ->
      attempt_at db (c_ticket_attempt_id (c_evidence c)) a tr t TICKET_IN_FLIGHT ->
      ta_stage a = ATTEMPT_AWAITING_ARCHITECT ->
      dl_candidate_id d = candidate_id -> c_candidate_commit c = Some (dl_candidate_commit d) ->
      c_base_commit (c_evidence c) = dl_expected_old_commit d ->
      c_candidate_tree (c_evidence c) = dl_resulting_tree d ->
      (forall id other, deliveries db !! id = Some other -> dl_candidate_id other <> candidate_id) ->
      c_evidence c' = c_evidence c -> c_candidate_commit c' = c_candidate_commit c ->
      c_candidate_ref c' = c_candidate_ref c -> c_revision c' = c_revision c + 1 ->
      c_lifecycle c' = CANDIDATE_DELIVERED ->
      attempt_keeps a a' -> ta_stage a' = ATTEMPT_DELIVERED ->
      ta_rework_ordinal a' = ta_rework_ordinal a ->
      next_state tr tr' TICKET_DELIVERED ->
      ticket_revisions_live_reproducer_identity (ta_ticket_revision_id (ta_claim a)) tr' db = true ->
      transition db (moved (put_attempt
        (put_candidate (set_deliveries (<[delivery_id := d]> (deliveries db)) db) candidate_id c')
        (c_ticket_attempt_id (c_evidence c)) a') (ta_ticket_revision_id (ta_claim a)) tr' t)
  | t_complete campaign_id c c' :
      campaigns db !! campaign_id = Some c -> cmp_lifecycle c = CAMPAIGN_RUNNING ->
      cmp_application_revision_id c' = cmp_application_revision_id c ->
      cmp_kernel_build_id c' = cmp_kernel_build_id c ->
      cmp_delivery_target c' = cmp_delivery_target c -> cmp_lifecycle c' = CAMPAIGN_COMPLETED ->
      cmp_delivery_target c <= delivered_attempt_count campaign_id db ->
      transition db (set_campaigns (<[campaign_id := c']> (campaigns db)) db).

(** * Runs *)

Inductive step (blake3 : list Z -> ContentDigest) (db : Database) : Database -> Prop :=
  | step_command command db' : execute blake3 db command = Some db' -> step blake3 db db'
  | step_environment db' : environment db db' -> step blake3 db db'.

(** An installation before any ticket was proposed. *)
Record initial (db : Database) : Prop := {
  initial_tickets : tickets db = ∅;
  initial_ticket_revisions : ticket_revisions db = ∅;
  initial_ticket_attempts : ticket_attempts db = ∅;
  initial_candidates : candidates db = ∅;
  initial_validations : validations db = ∅;
  initial_reviews : reviews db = ∅;
  initial_decisions : architect_decisions db = ∅;
  initial_deliveries : deliveries db = ∅;
}.

Definition reachable (blake3 : list Z -> ContentDigest) (db : Database) : Prop :=
  exists db0, initial db0 /\ rtc (step blake3) db0 db.
