(* ===== verification/BufferStatus.v ===== *)
(** The read-only ticket-buffer status: the counts, the downstream FIFO head
    with its evidence and the oldest sponsored ticket that the scheduler
    decides on ([TicketStore::ticket_buffer_status] of
    [crates/factory-kernel/src/ticket_store.rs]).

    The source reads with several statements; the model reads one snapshot. *)
From S2P Require Import Prelude Values Database TicketStore.



(** * Downstream work *)

Inductive DownstreamActionStage :=
  | HardValidation | Quality | CandidateCommitAttachRequired | QualityReviewRequired
  | AwaitingArchitect | DeliverAccepted | ReworkEngineering | ReworkValidation | ReworkQuality.

#[global] Instance DownstreamActionStage_eq_dec : EqDecision DownstreamActionStage.
Proof. solve_decision. Defined.

Definition from_attempt_and_candidate (attempt_stage candidate_lifecycle : Z)
    (candidate_commit_present quality_review_present : bool) : option DownstreamActionStage :=
  if (attempt_stage =? ATTEMPT_HARD_VALIDATION) && (candidate_lifecycle =? CANDIDATE_SUBMITTED)
  then Some HardValidation
  else if (attempt_stage =? ATTEMPT_QUALITY) && (candidate_lifecycle =? CANDIDATE_VALIDATED)
  then Some (if candidate_commit_present then Quality else CandidateCommitAttachRequired)
  else if (attempt_stage =? ATTEMPT_AWAITING_ARCHITECT)
          && (candidate_lifecycle =? CANDIDATE_VALIDATED)
  then Some (if quality_review_present then AwaitingArchitect else QualityReviewRequired)
  else if (attempt_stage =? ATTEMPT_AWAITING_ARCHITECT)
          && (candidate_lifecycle =? CANDIDATE_ACCEPTED)
  then Some DeliverAccepted
  else if (attempt_stage =? ATTEMPT_REWORK_ENGINEERING)
          && (candidate_lifecycle =? CANDIDATE_REJECTED)
  then Some ReworkEngineering
  else if (attempt_stage =? ATTEMPT_REWORK_VALIDATION)
          && (candidate_lifecycle =? CANDIDATE_SUBMITTED)
  then Some ReworkValidation
  else if (attempt_stage =? ATTEMPT_REWORK_QUALITY) && (candidate_lifecycle =? CANDIDATE_VALIDATED)
  then Some (if candidate_commit_present then ReworkQuality else CandidateCommitAttachRequired)
  else None.

Record DownstreamActionContext := {
  da_stage : DownstreamActionStage;
  da_ticket_attempt_id : Z;
  da_ticket_attempt_revision : Z;
  da_ticket_revision : Z;
  da_candidate_id : Z;
  da_candidate_revision : Z;
}.

Inductive DownstreamValidationState := ValidationPassed | ValidationFailed | ValidationInterrupted.
Inductive DownstreamReviewVerdict := VerdictAccept | VerdictReject.
Inductive DownstreamArchitectDecisionKind := DecidedDeliver | DecidedRework | DecidedReject.

Definition validation_state_from_sql (value : Z) : result StoreError DownstreamValidationState :=
  if value =? 1 then Ok ValidationPassed
  else if value =? 2 then Ok ValidationFailed
  else if value =? 3 then Ok ValidationInterrupted
  else Err CorruptLifecycleColumn.

Definition review_verdict_from_sql (value : Z) : result StoreError DownstreamReviewVerdict :=
  if value =? 0 then Ok VerdictAccept
  else if value =? 1 then Ok VerdictReject
  else Err CorruptLifecycleColumn.

Definition decision_kind_from_sql (value : Z) : result StoreError DownstreamArchitectDecisionKind :=
  if value =? 2 then Ok DecidedDeliver
  else if value =? 3 then Ok DecidedRework
  else if value =? 4 then Ok DecidedReject
  else Err CorruptLifecycleColumn.

Record DownstreamValidationEvidence := {
  dv_validation_id : Z;
  dv_state : DownstreamValidationState;
  dv_log_artifact_id : Z;
}.

Record DownstreamReviewEvidence := {
  dr_review_id : Z;
  dr_revision : Z;
  dr_verdict : DownstreamReviewVerdict;
  dr_rationale_artifact_id : Z;
}.

Record DownstreamArchitectDecisionEvidence := {
  dd_architect_decision_id : Z;
  dd_kind : DownstreamArchitectDecisionKind;
  dd_rationale_artifact_id : Z;
}.

Record DownstreamEvidenceContext := {
  de_candidate_commit : option string;
  de_latest_validation : option DownstreamValidationEvidence;
  de_review : option DownstreamReviewEvidence;
  de_architect_decision : option DownstreamArchitectDecisionEvidence;
}.

Definition downstream_validation_evidence (validation_id lifecycle log_artifact_id : option Z)
  : result StoreError (option DownstreamValidationEvidence) :=
  match validation_id, lifecycle, log_artifact_id with
  | None, None, None => Ok None
  | Some validation_id, Some lifecycle, Some log_artifact_id =>
      id ← new_id "validation ID" validation_id;
      state ← validation_state_from_sql lifecycle;
      log ← new_id "artifact ID" log_artifact_id;
      Ok (Some {| dv_validation_id := id; dv_state := state; dv_log_artifact_id := log |})
  | _, _, _ => Err CorruptLifecycleColumn
  end.

Definition downstream_review_evidence (review_id revision verdict rationale_artifact_id : option Z)
  : result StoreError (option DownstreamReviewEvidence) :=
  match review_id, revision, verdict, rationale_artifact_id with
  | None, None, None, None => Ok None
  | Some review_id, Some revision, Some verdict, Some rationale_artifact_id =>
      id ← new_id "review ID" review_id;
      revision ← revision_from_sql revision;
      verdict ← review_verdict_from_sql verdict;
      rationale ← new_id "artifact ID" rationale_artifact_id;
      Ok (Some {| dr_review_id := id; dr_revision := revision; dr_verdict := verdict;
                  dr_rationale_artifact_id := rationale |})
  | _, _, _, _ => Err CorruptLifecycleColumn
  end.

Definition downstream_architect_decision_evidence
    (architect_decision_id kind rationale_artifact_id : option Z)
  : result StoreError (option DownstreamArchitectDecisionEvidence) :=
  match architect_decision_id, kind, rationale_artifact_id with
  | None, None, None => Ok None
  | Some architect_decision_id, Some kind, Some rationale_artifact_id =>
      id ← new_id "architect decision ID" architect_decision_id;
      kind ← decision_kind_from_sql kind;
      rationale ← new_id "artifact ID" rationale_artifact_id;
      Ok (Some {| dd_architect_decision_id := id; dd_kind := kind;
                  dd_rationale_artifact_id := rationale |})
  | _, _, _ => Err CorruptLifecycleColumn
  end.

(** The [WITH downstream AS ...] statement and its lateral joins. *)
Record DownstreamRow := {
  dn_count : Z;
  dn_attempt : option (Z * TicketAttemptRow);
  dn_ticket_revision : option Z;
  dn_candidate : option (Z * CandidateRow);
  dn_validation : option (Z * ValidationRow);
  dn_review : option (Z * ReviewRow);
  dn_decision : option (Z * ArchitectDecisionRow);
}.

Definition downstream_attempts (db : Database) (application_revision_id : Z)
  : list (Z * TicketAttemptRow) :=
  rows_where (fun _ ta =>
    match ticket_revisions db !! ta_ticket_revision_id (ta_claim ta) with
    | Some tr => tr_application_revision_id (tr_contract tr) =? application_revision_id
    | None => false
    end && (ATTEMPT_HARD_VALIDATION <=? ta_stage ta) && (ta_stage ta <=? ATTEMPT_REWORK_QUALITY))
    (ticket_attempts db).

(** [ORDER BY created_at DESC, id DESC LIMIT 1] *)
Definition newest {V} (created_at : V -> Z) (rows : list (Z * V)) : option (Z * V) :=
  first_by (fun row => [- created_at row.2; - row.1]) rows.

Definition downstream_read (db : Database) (application_revision_id : Z) : DownstreamRow :=
  let rows := downstream_attempts db application_revision_id in
  let head := first_by (fun row => [ta_created_at (ta_claim row.2); row.1]) rows in
  let candidate := '(attempt_id, _) ← head;
    newest (fun c => c_created_at (c_evidence c))
      (rows_where (fun _ c => c_ticket_attempt_id (c_evidence c) =? attempt_id) (candidates db)) in
  {| dn_count := Z.of_nat (length rows);
     dn_attempt := head;
     dn_ticket_revision :=
       '(_, ta) ← head; tr ← ticket_revisions db !! ta_ticket_revision_id (ta_claim ta);
       Some (tr_revision tr);
     dn_candidate := candidate;
     dn_validation := '(candidate_id, _) ← candidate;
       newest v_created_at
         (rows_where (fun _ v => v_candidate_id v =? candidate_id) (validations db));
     dn_review := '(candidate_id, _) ← candidate;
       first_by (fun row => [row.1])
         (rows_where (fun _ r => r_candidate_id r =? candidate_id) (reviews db));
     dn_decision := '(candidate_id, _) ← candidate;
       newest d_created_at
         (rows_where (fun _ d => bool_decide (d_candidate_id d = Some candidate_id))
            (architect_decisions db)) |}.

Definition downstream_evidence_of (row : DownstreamRow)
  : result StoreError (option DownstreamEvidenceContext) :=
  match dn_candidate row with
  | Some (_, candidate) =>
      validation ← downstream_validation_evidence (fst <$> dn_validation row)
        ((fun v => v_lifecycle v.2) <$> dn_validation row)
        ((fun v => v_log_artifact_id v.2) <$> dn_validation row);
      review ← downstream_review_evidence (fst <$> dn_review row)
        ((fun r => r_revision r.2) <$> dn_review row) ((fun r => r_verdict r.2) <$> dn_review row)
        ((fun r => r_rationale_artifact_id r.2) <$> dn_review row);
      decision ← downstream_architect_decision_evidence (fst <$> dn_decision row)
        ((fun d => d_decision_kind d.2) <$> dn_decision row)
        ((fun d => d_rationale_artifact_id d.2) <$> dn_decision row);
      Ok (Some {| de_candidate_commit := c_candidate_commit candidate;
                  de_latest_validation := validation;
                  de_review := review;
                  de_architect_decision := decision |})
  | None =>
      require (bool_decide (dn_validation row = None) && bool_decide (dn_review row = None)
               && bool_decide (dn_decision row = None)) CorruptLifecycleColumn ;;
      Ok None
  end.

Definition downstream_action_of (row : DownstreamRow)
  : result StoreError (option DownstreamActionContext) :=
  match dn_attempt row, dn_ticket_revision row, dn_candidate row with
  | Some (attempt_id, ta), Some ticket_revision, Some (candidate_id, c) =>
      transpose_map (fun stage =>
        attempt_id ← new_id "ticket attempt ID" attempt_id;
        attempt_revision ← revision_from_sql (ta_revision ta);
        ticket_revision ← revision_from_sql ticket_revision;
        candidate_id ← new_id "candidate ID" candidate_id;
        candidate_revision ← revision_from_sql (c_revision c);
        Ok {| da_stage := stage;
              da_ticket_attempt_id := attempt_id;
              da_ticket_attempt_revision := attempt_revision;
              da_ticket_revision := ticket_revision;
              da_candidate_id := candidate_id;
              da_candidate_revision := candidate_revision |})
        (from_attempt_and_candidate (ta_stage ta) (c_lifecycle c)
           (bool_decide (is_Some (c_candidate_commit c)))
           (bool_decide (is_Some (dn_review row))))
  | _, _, _ => Ok None
  end.

(** * Ready work *)

Record SponsoredTicketClaimContext := {
  sc_ticket_revision_id : Z;
  sc_revision : Z;
}.

Definition sponsored_revisions (db : Database) (application_revision_id : Z)
  : list (Z * TicketRevisionRow) :=
  rows_where (fun id tr =>
    (application_revision_id =? tr_application_revision_id (tr_contract tr))
    && match tickets db !! tr_ticket_id (tr_contract tr) with
       | Some t => t_current_ticket_revision_id t =? id
       | None => false
       end
    && (tr_lifecycle tr =? TICKET_SPONSORED)) (ticket_revisions db).

(** [ORDER BY tr.sponsored_at ASC, tr.id ASC] *)
Definition sponsorship_order (row : Z * TicketRevisionRow) : list Z :=
  nulls_last (tr_sponsored_at row.2) ++ [row.1].

Definition oldest_sponsored (db : Database) (application_revision_id : Z)
  : result StoreError (option SponsoredTicketClaimContext) :=
  transpose_map (fun row =>
    id ← new_id "ticket revision ID" row.1;
    revision ← revision_from_sql (tr_revision row.2);
    Ok {| sc_ticket_revision_id := id; sc_revision := revision |})
    (first_by sponsorship_order (sponsored_revisions db application_revision_id)).

(** * The status *)

Record TicketBufferStatus := {
  bs_campaign_id : Z;
  bs_campaign_revision : Z;
  bs_campaign_is_running : bool;
  bs_campaign_deadline_open : bool;
  bs_campaign_cost_known : bool;
  bs_delivery_target : Z;
  bs_delivered_attempt_count : Z;
  bs_ready_count : Z;
  bs_proposed_count : Z;
  bs_in_flight_count : Z;
  bs_downstream_attempt_count : Z;
  bs_downstream_action : option DownstreamActionContext;
  bs_downstream_evidence : option DownstreamEvidenceContext;
  bs_paid_session_active : bool;
  bs_low_water : Z;
  bs_target : Z;
  bs_maximum : option Z;
  bs_proposal_maximum : Z;
  bs_oldest_sponsored_ticket : option SponsoredTicketClaimContext;
}.

Definition ticket_buffer_status (db : Database) (campaign_id : Z)
  : result StoreError TicketBufferStatus :=
  row ← ok_or
    (campaign ← campaigns db !! campaign_id;
     application ← application_revisions db !! cmp_application_revision_id campaign;
     Some (campaign, application)) (UnknownCampaign campaign_id);
  let '(campaign, application) := row in
  application_revision_id ← new_id "application revision ID" (cmp_application_revision_id campaign);
  let ready := application_revision_ticket_count db application_revision_id TICKET_SPONSORED in
  let proposed := application_revision_ticket_count db application_revision_id TICKET_PROPOSED in
  let in_flight := application_revision_ticket_count db application_revision_id TICKET_IN_FLIGHT in
  let downstream := downstream_read db application_revision_id in
  evidence ← downstream_evidence_of downstream;
  campaign_revision ← revision_from_sql (cmp_revision campaign);
  delivery_target ← u32_from_sql (cmp_delivery_target campaign) "delivery target";
  delivered ← u32_from_sql (delivered_attempt_count campaign_id db) "delivered attempt count";
  ready ← u32_from_sql ready "ready ticket count";
  proposed ← u32_from_sql proposed "proposed ticket count";
  in_flight ← u32_from_sql in_flight "in-flight ticket count";
  downstream_count ← u32_from_sql (dn_count downstream) "downstream attempt count";
  action ← downstream_action_of downstream;
  low_water ← u32_from_sql (ticket_low_water application) "low water";
  target ← u32_from_sql (ticket_target application) "ticket target";
  maximum ← transpose_map (fun m => u32_from_sql m "ticket maximum") (ticket_maximum application);
  proposal_maximum ← u32_from_sql (proposal_maximum application) "proposal maximum";
  oldest ← oldest_sponsored db application_revision_id;
  Ok {| bs_campaign_id := campaign_id;
        bs_campaign_revision := campaign_revision;
        bs_campaign_is_running := cmp_lifecycle campaign =? CAMPAIGN_RUNNING;
        bs_campaign_deadline_open := now db <? cmp_deadline campaign;
        bs_campaign_cost_known := cmp_cost_state campaign =? COST_KNOWN;
        bs_delivery_target := delivery_target;
        bs_delivered_attempt_count := delivered;
        bs_ready_count := ready;
        bs_proposed_count := proposed;
        bs_in_flight_count := in_flight;
        bs_downstream_attempt_count := downstream_count;
        bs_downstream_action := action;
        bs_downstream_evidence := evidence;
        bs_paid_session_active := paid_session_active db;
        bs_low_water := low_water;
        bs_target := target;
        bs_maximum := maximum;
        bs_proposal_maximum := proposal_maximum;
        bs_oldest_sponsored_ticket := oldest |}.

(** * Recovery reads

    The reads the campaign driver selects recovery work with: the failed
    Engineering and Quality attempts that may be retried once, and the revisions
    a failure command must expect ([TicketStore::recoverable_engineering_failure],
    [recoverable_quality_failure] and [failure_context] of
    [crates/factory-kernel/src/ticket_store.rs]). *)

Record EngineeringFailureContext := {
  ef_ticket_attempt_id : Z;
  ef_attempt_revision : Z;
  ef_ticket_revision : Z;
}.

Record TicketAttemptFailureContext := {
  tf_attempt_revision : Z;
  tf_ticket_revision : Z;
}.

(** The joins of both queries: the attempt's ticket revision, current and, like
    its ticket, in flight. *)
Definition in_flight_revision (db : Database) (ta : TicketAttemptRow)
  : option TicketRevisionRow :=
  '(tr, t) ← ticket_revision_join db (ta_ticket_revision_id (ta_claim ta));
  if (t_current_ticket_revision_id t =? ta_ticket_revision_id (ta_claim ta))
     && (t_lifecycle t =? TICKET_IN_FLIGHT) && (tr_lifecycle tr =? TICKET_IN_FLIGHT)
  then Some tr else None.

(** [ORDER BY ta.failed_at ASC NULLS LAST, ta.id ASC] *)
Definition failure_order (row : Z * TicketAttemptRow) : list Z :=
  nulls_last (ta_failed_at row.2) ++ [row.1].

Definition recoverable_engineering (db : Database) (campaign_id id : Z) (ta : TicketAttemptRow)
  : bool :=
  (ta_campaign_id (ta_claim ta) =? campaign_id) && (ta_stage ta =? ATTEMPT_FAILED)
  && bool_decide (ta_released_at ta = None) && bool_decide (is_Some (in_flight_revision db ta))
  && match campaigns db !! ta_campaign_id (ta_claim ta) with
     | Some c => (cmp_lifecycle c =? CAMPAIGN_RUNNING) && (cmp_cost_state c =? COST_KNOWN)
     | None => false
     end
  && negb (exists_where (fun _ c => c_ticket_attempt_id (c_evidence c) =? id) (candidates db))
  && negb (audit_subject_exists db ENGINEERING_RETRY_OPERATION ENGINEERING_RETRY_SUBJECT id).

Definition recoverable_engineering_failure (db : Database) (campaign_id : Z)
  : result StoreError (option EngineeringFailureContext) :=
  transpose_map (fun '(id, ta, tr) =>
    attempt ← new_id "ticket attempt ID" id;
    attempt_revision ← revision_from_sql (ta_revision ta);
    ticket_revision ← revision_from_sql (tr_revision tr);
    Ok {| ef_ticket_attempt_id := attempt;
          ef_attempt_revision := attempt_revision;
          ef_ticket_revision := ticket_revision |})
    ('(id, ta) ← first_by failure_order
       (rows_where (recoverable_engineering db campaign_id) (ticket_attempts db));
     tr ← in_flight_revision db ta;
     Some (id, ta, tr)).

(** A validated, committed and unreviewed candidate of the attempt that no newer
    candidate of the same ticket revision supersedes. *)
Definition recoverable_candidate (db : Database) (attempt_id : Z) (ta : TicketAttemptRow)
    (id : Z) (c : CandidateRow) : bool :=
  (c_ticket_attempt_id (c_evidence c) =? attempt_id) && (c_lifecycle c =? CANDIDATE_VALIDATED)
  && bool_decide (is_Some (c_candidate_commit c))
  && negb (exists_where (fun _ r => r_candidate_id r =? id) (reviews db))
  && negb (exists_where (fun newer_id newer =>
       match ticket_attempts db !! c_ticket_attempt_id (c_evidence newer) with
       | Some newer_attempt => ta_ticket_revision_id (ta_claim newer_attempt)
                               =? ta_ticket_revision_id (ta_claim ta)
       | None => false
       end && (id <? newer_id)) (candidates db)).

Definition recoverable_quality (db : Database) (campaign_id id : Z) (ta : TicketAttemptRow) : bool :=
  (ta_campaign_id (ta_claim ta) =? campaign_id) && (ta_stage ta =? ATTEMPT_FAILED)
  && bool_decide (is_Some (in_flight_revision db ta))
  && exists_where (recoverable_candidate db id ta) (candidates db)
  && negb (audit_subject_exists db QUALITY_RETRY_OPERATION QUALITY_RETRY_SUBJECT id).

(** The last sort key, [c.id DESC], orders the candidates of one attempt. *)
Definition recoverable_quality_failure (db : Database) (campaign_id : Z)
  : result StoreError (option DownstreamActionContext) :=
  transpose_map (fun '(id, ta, tr, (candidate_id, c)) =>
    attempt ← new_id "ticket attempt ID" id;
    attempt_revision ← revision_from_sql (ta_revision ta);
    ticket_revision ← revision_from_sql (tr_revision tr);
    candidate ← new_id "candidate ID" candidate_id;
    candidate_revision ← revision_from_sql (c_revision c);
    Ok {| da_stage := ReworkQuality;
          da_ticket_attempt_id := attempt;
          da_ticket_attempt_revision := attempt_revision;
          da_ticket_revision := ticket_revision;
          da_candidate_id := candidate;
          da_candidate_revision := candidate_revision |})
    ('(id, ta) ← first_by failure_order
       (rows_where (recoverable_quality db campaign_id) (ticket_attempts db));
     tr ← in_flight_revision db ta;
     candidate ← first_by (fun row => [- row.1])
       (rows_where (recoverable_candidate db id ta) (candidates db));
     Some (id, ta, tr, candidate)).

Definition failure_context (db : Database) (ticket_attempt_id : Z)
  : result StoreError TicketAttemptFailureContext :=
  attempt ← lock_ticket_attempt db ticket_attempt_id;
  Ok {| tf_attempt_revision := al_revision attempt;
        tf_ticket_revision := al_ticket_revision attempt |}.
