(* ===== verification/Scheduler.v ===== *)
(** The deterministic scheduler: the one next action of a buffer status and the
    commands the daemon issues for it
    ([crates/factory-kernel/src/scheduler.rs], [TicketScheduler]). *)
From S2P Require Import Prelude Values Database Lifecycle.
From S2P Require Import TicketStore BufferStatus.

Definition IN_FLIGHT_TICKET_MAXIMUM : Z := 1.

(** * Actions *)

Record CompleteCampaignAction := {
  cca_campaign_id : Z;
  cca_expected_campaign_revision : Z;
}.

Record ClaimReadyTicketAction := {
  cra_campaign_id : Z;
  cra_expected_campaign_revision : Z;
  cra_ticket : SponsoredTicketClaimContext;
}.

Inductive SchedulerConstraint :=
  | CampaignTerminal | AggregateCostFrozen | DeadlineElapsed | PaidSessionActive
  | InFlightTicketLimitReached (in_flight_count maximum : Z)
  | ReadyBufferMaximumExceeded (ready_count maximum : Z)
  | ProposalBufferMaximumExceeded (proposed_count maximum : Z)
  | DownstreamActionHeadMissing | DownstreamActionHeadUnexpected
  | ReadyBufferHeadMissing | ReadyBufferHeadUnexpected.

Inductive SchedulerNextAction :=
  | NextCompleteCampaign (action : CompleteCampaignAction)
  | ReplenishProduct (campaign_id expected_campaign_revision : Z)
  | ClaimReadyTicket (action : ClaimReadyTicketAction)
  | ContinueDownstream (action : DownstreamActionContext)
  | AwaitArchitectDecision (campaign_id proposed_count : Z)
  | BlockedBy (constraint : SchedulerConstraint)
  | Idle (campaign_id : Z).

(** * Decision

    [decide] runs its checks in the source's order; each returns early with an
    action or falls through to the next. *)

(** The end of [decide]: claim ready work, then refill, then wait. *)
Definition decide_ready (s : TicketBufferStatus) : SchedulerNextAction :=
  match bs_oldest_sponsored_ticket s with
  | Some ticket => ClaimReadyTicket {|
      cra_campaign_id := bs_campaign_id s;
      cra_expected_campaign_revision := bs_campaign_revision s;
      cra_ticket := ticket |}
  | None =>
      if (bs_ready_count s <? bs_low_water s) && (bs_proposed_count s =? 0)
      then ReplenishProduct (bs_campaign_id s) (bs_campaign_revision s)
      else if 0 <? bs_proposed_count s
      then AwaitArchitectDecision (bs_campaign_id s) (bs_proposed_count s)
      else if bs_ready_count s <? bs_target s
      then ReplenishProduct (bs_campaign_id s) (bs_campaign_revision s)
      else Idle (bs_campaign_id s)
  end.

(** The buffer limits and the agreement of the ready head with its count. *)
Definition buffer_constraint (s : TicketBufferStatus) : option SchedulerConstraint :=
  if IN_FLIGHT_TICKET_MAXIMUM <=? bs_in_flight_count s
  then Some (InFlightTicketLimitReached (bs_in_flight_count s) IN_FLIGHT_TICKET_MAXIMUM)
  else option_or
    (maximum ← bs_maximum s;
     if maximum <? bs_ready_count s
     then Some (ReadyBufferMaximumExceeded (bs_ready_count s) maximum) else None)
    (if bs_proposal_maximum s <? bs_proposed_count s
     then Some (ProposalBufferMaximumExceeded (bs_proposed_count s) (bs_proposal_maximum s))
     else match bs_ready_count s =? 0, bs_oldest_sponsored_ticket s with
          | true, Some _ => Some ReadyBufferHeadUnexpected
          | false, None => Some ReadyBufferHeadMissing
          | _, _ => None
          end).

(** The campaign gates, up to the deadline. *)
Definition campaign_gate (s : TicketBufferStatus) : option SchedulerNextAction :=
  if negb (bs_campaign_is_running s) then Some (BlockedBy CampaignTerminal)
  else if bs_delivery_target s <=? bs_delivered_attempt_count s
  then Some (NextCompleteCampaign {|
    cca_campaign_id := bs_campaign_id s;
    cca_expected_campaign_revision := bs_campaign_revision s |})
  else if negb (bs_campaign_cost_known s) then Some (BlockedBy AggregateCostFrozen)
  else if bs_paid_session_active s then Some (BlockedBy PaidSessionActive)
  else if negb (bs_campaign_deadline_open s)
  then Some (match bs_downstream_action s with
    | Some action =>
        if (0 <? bs_downstream_attempt_count s)
           && bool_decide (da_stage action = DeliverAccepted)
        then ContinueDownstream action else BlockedBy DeadlineElapsed
    | None => BlockedBy DeadlineElapsed
    end)
  else None.

(** Downstream work goes first. *)
Definition downstream_gate (s : TicketBufferStatus) : option SchedulerNextAction :=
  match bs_downstream_attempt_count s =? 0, bs_downstream_action s with
  | true, Some _ => Some (BlockedBy DownstreamActionHeadUnexpected)
  | false, None => Some (BlockedBy DownstreamActionHeadMissing)
  | false, Some action => Some (ContinueDownstream action)
  | true, None => None
  end.

Definition decide (s : TicketBufferStatus) : SchedulerNextAction :=
  match campaign_gate s with
  | Some action => action
  | None =>
      match downstream_gate s with
      | Some action => action
      | None =>
          match buffer_constraint s with
          | Some constraint => BlockedBy constraint
          | None => decide_ready s
          end
      end
  end.

Definition next_action (db : Database) (campaign_id : Z)
  : result StoreError SchedulerNextAction :=
  status ← ticket_buffer_status db campaign_id;
  Ok (decide status).

(** * Applying an action *)

Definition claim_command (principal command_id : string) (action : ClaimReadyTicketAction)
    (requalification : CurrentHeadRequalification) : ClaimSponsoredTicket := {|
  cst_principal := principal;
  cst_command_id := command_id;
  cst_campaign_id := cra_campaign_id action;
  cst_expected_campaign_revision := cra_expected_campaign_revision action;
  cst_ticket_revision_id := sc_ticket_revision_id (cra_ticket action);
  cst_expected_ticket_revision := sc_revision (cra_ticket action);
  cst_requalification := requalification |}.

Definition completion_command (principal command_id : string) (action : CompleteCampaignAction)
  : CompleteCampaignAtDeliveryTarget := {|
  ccd_principal := principal;
  ccd_command_id := command_id;
  ccd_campaign_id := cca_campaign_id action;
  ccd_expected_campaign_revision := cca_expected_campaign_revision action |}.

Definition claim_ready_ticket (blake3 : list Z -> ContentDigest) (db : Database)
    (principal command_id : string) (action : ClaimReadyTicketAction)
    (requalification : CurrentHeadRequalification)
  : result StoreError (ClaimTicketReceipt * Database) :=
  claim_sponsored_ticket blake3 db (claim_command principal command_id action requalification).

Definition complete_campaign (blake3 : list Z -> ContentDigest) (db : Database)
    (principal command_id : string) (action : CompleteCampaignAction)
  : result StoreError (Z * Database) :=
  complete_campaign_at_delivery_target blake3 db (completion_command principal command_id action).
