(* ===== verification/ProcessStore.v ===== *)
(** The process authority: campaigns, assignments, paid sessions and the
    campaign cost their terminal transition settles
    ([crates/factory-kernel/src/process.rs], [ProcessStore]).

    Two boundaries are arguments.  [create_assignment] takes a packet whose
    canonical bytes, digest and CAS object are verified ([PacketAdmission] does
    so before it), and its wire prompts; [terminal_session] takes the evidence capability
    [verify_terminal_evidence_with_packet_bytes] mints. *)
From S2P Require Import Prelude Values Database.
From S2P Require TicketStore Base64 Cas.

Definition CAMPAIGN_SUBJECT : Z := 4.
Definition ASSIGNMENT_SUBJECT : Z := 5.
Definition SESSION_SUBJECT : Z := 6.
Definition CAMPAIGN_START : string := "campaign.start".
Definition CAMPAIGN_CANCEL : string := "campaign.cancel".
Definition CAMPAIGN_FAIL : string := "campaign.fail".
Definition ASSIGNMENT_CREATE : string := "assignment.create".
Definition SESSION_START : string := "session.start".
Definition SESSION_TERMINAL : string := "session.terminal".
Definition UNKNOWN_TERMINAL_COST_FAILURE_REASON : string := "terminal session cost is unknown".
Definition EXCEEDED_TERMINAL_COST_FAILURE_REASON : string :=
  "terminal session exceeded the campaign cost limit".

(** * Errors (the variants of [StoreError] this store returns) *)

Inductive ProcessError :=
  | Contract (e : ContractError)
  | DatabaseError (constraint : string)
  | InvalidProcessCommand (field : string)
  | RevisionConflict (expected current : Z)
  | RevisionOutOfRange
  | IdempotencyConflict (principal command_id : string)
  | AuditSubjectKindMismatch
  | NoCurrentKernelBuild
  | CorruptDigestColumn
  | CorruptCostColumn
  | CorruptLifecycleColumn
  | UnknownApplicationRevision (id : Z)
  | ApplicationRevisionInactive (id : Z)
  | UnknownCampaign (id : Z)
  | UnknownAssignment (id : Z)
  | UnknownSession (id : Z)
  | UnknownArtifact (id : Z)
  | CampaignAlreadyRunning
  | CampaignClosed (id : Z)
  | CampaignDeadlineElapsed
  | CampaignCostFrozen (id : Z)
  | CampaignHasRunningSession (id : Z)
  | PacketIdentityMismatch
  | PacketArtifactDigestMismatch
  | InvalidPacketDigest
  | RequiredReadManifestMismatch
  | RequiredReadIncomplete
  | RemainingAllowanceMismatch
  | UnregisteredTerminalArtifact
  | AssignmentStateConflict (id : Z)
  | PaidSessionAlreadyRunning
  | SessionAlreadyTerminal (id : Z)
  | TerminalOperationNotAllowed
  | TerminalCostMismatch
  | ProviderEffectConflict
  | ProviderEffectNotStarted
  | RunningCampaignCardinality (observed_running : Z)
  | CasFailed (e : Cas.CasError)
  | ArtifactLengthOutOfRange.

(** * Protocol values ([factory-protocol], [process.rs] and [state.rs]) *)

Inductive TerminalOperationV2 := WorkComplete | CandidateSubmit | QualitySubmitReview.

Inductive StopReasonV2 :=
  | Completed | Cancelled | Deadline | DaemonDisconnected | NonZeroExit | OutputLimit
  | ProtocolError | UnknownCost | CostLimit.

#[global] Instance StopReasonV2_eq_dec : EqDecision StopReasonV2.
Proof. solve_decision. Defined.

Inductive SessionState :=
  | SessionPrepared | SessionRunning | SessionSucceeded | SessionFailed | SessionCancelled
  | SessionInterrupted.

#[global] Instance SessionState_eq_dec : EqDecision SessionState.
Proof. solve_decision. Defined.

(** [UsageTotalsV2] and its database columns have the same shape. *)
Definition UsageTotalsV2 := UsageColumns.

#[global] Instance UsageColumns_eq_dec : EqDecision UsageColumns.
Proof. solve_decision. Defined.

Inductive TerminalCostV2 := Known (value : Z) | Unknown | Exceeded (value : Z).

(** The fields of [AssignmentPacketV2] the store reads. *)
Record AssignmentPacketV2 := {
  pk_campaign_id : Z;
  pk_assignment_id : Z;
  pk_kernel_build_id : ContentDigest;
  pk_application_revision_id : Z;
  pk_assignment_role : AssignmentRole;
  pk_target : string;
  pk_ticket_attempt_id : option Z;
  pk_candidate_id : option Z;
  pk_system_prompt_artifact_id : Z;
  pk_assignment_prompt_artifact_id : Z;
  pk_required_read_manifest_artifact_id : Z;
  pk_model : ModelColumns;
  pk_context_token_limit : Z;
  pk_output_token_limit : Z;
  pk_wall_limit : Z;
  pk_output_byte_limit : Z;
  pk_terminal_operations : list TerminalOperationV2;
  pk_remaining_campaign_allowance : Z;
  pk_packet_digest : ContentDigest;
}.

(** The prompt fields of [AssignmentPacketWireV2]. *)
Record WirePrompts := {
  wire_system_prompt_artifact_id : Z;
  wire_assignment_prompt_artifact_id : Z;
  wire_system_prompt_digest : string;
  wire_assignment_prompt_digest : string;
  wire_system_prompt_bytes_b64 : string;
  wire_assignment_prompt_bytes_b64 : string;
}.

Record ProcessCustodyV2 := { pid : Z; pgid : Z; started_at_unix_millis : Z }.

Record TerminalReportV2 := {
  report_packet_digest : ContentDigest;
  report_expected_session_revision : Z;
  report_operation : option TerminalOperationV2;
  report_stop_reason : StopReasonV2;
  report_digest : ContentDigest;
}.

(** * Commands and receipts *)

Record StartCampaign := {
  scm_principal : string;
  scm_command_id : string;
  scm_expected_application_revision : Z;
  scm_application_revision_id : Z;
  scm_aggregate_budget : Z;
  scm_deadline_unix_millis : Z;
  scm_delivery_target : Z;
}.

Record CampaignReceipt := {
  cr_campaign_id : Z;
  cr_resulting_revision : Z;
  cr_kernel_build_id : ContentDigest;
  cr_application_revision_id : Z;
  cr_repository_id : Z;
  cr_audit_log_id : Z;
  cr_was_idempotent_retry : bool;
}.

Record CancelCampaign := {
  ccm_principal : string;
  ccm_command_id : string;
  ccm_expected_revision : Z;
  ccm_campaign_id : Z;
}.

Inductive CampaignCancellationAdmission :=
  | CancellationCompleted (receipt : CampaignReceipt)
  | ActiveSession (session_id : Z).

Record ReconciledSessionCancellation := {
  rsc_campaign_id : Z;
  rsc_session_id : Z;
  rsc_campaign_revision : Z;
}.

Record FailCampaign := {
  fcm_principal : string;
  fcm_command_id : string;
  fcm_expected_revision : Z;
  fcm_campaign_id : Z;
  fcm_reason : string;
}.

Record CreateAssignment := {
  cas_principal : string;
  cas_command_id : string;
  cas_expected_campaign_revision : Z;
  cas_assignment_id : Z;
  cas_packet : AssignmentPacketV2;
  cas_packet_byte_length : Z;
  cas_packet_artifact : CasArtifact;
  cas_required_read_manifest_artifact_id : Z;
  cas_attempt_ordinal : Z;
}.

Record AssignmentReceipt := {
  ar_assignment_id : Z;
  ar_resulting_revision : Z;
  ar_resulting_campaign_revision : Z;
  ar_audit_log_id : Z;
  ar_was_idempotent_retry : bool;
}.

Record StartSession := {
  ss_principal : string;
  ss_command_id : string;
  ss_expected_assignment_revision : Z;
  ss_assignment_id : Z;
  ss_packet_digest : ContentDigest;
  ss_custody : ProcessCustodyV2;
}.

Record SessionReceipt := {
  sr_session_id : Z;
  sr_resulting_revision : Z;
  sr_assignment_revision : Z;
  sr_audit_log_id : Z;
  sr_was_idempotent_retry : bool;
}.

(** The evidence capability of a terminal transition. *)
Record VerifiedTerminalEvidence := {
  ve_transcript_artifact_id : Z;
  ve_execution_summary_artifact_id : option Z;
  ve_stdout_artifact_id : Z;
  ve_stderr_artifact_id : Z;
  ve_partial_transcript_artifact_id : option Z;
  ve_required_read_assertion_artifact_id : Z;
  ve_required_read_expected_count : Z;
  ve_required_read_satisfied_count : Z;
  ve_usage : option UsageTotalsV2;
}.

Record TerminalReceipt := {
  tr_session_id : Z;
  tr_session_state : SessionState;
  tr_cost : TerminalCostV2;
  tr_session_revision : Z;
  tr_campaign_revision : Z;
  tr_audit_log_id : Z;
  tr_was_idempotent_retry : bool;
}.

(** * Shared checks *)

Definition i32_max : Z := 2 ^ 31 - 1.
Definition u32_max : Z := 2 ^ 32 - 1.

Definition new_id (kind : string) (value : Z) : result ProcessError Z :=
  map_err Contract (identifier_new kind value).

Definition next_revision (r : Z) : result ProcessError Z := map_err Contract (revision_next r).

Definition db_result {A} (r : result string A) : result ProcessError A := map_err DatabaseError r.

(** [i64::try_from(value)] and [i32::try_from(value)] of an unsigned value. *)
Definition to_i64 (value : Z) (e : ProcessError) : result ProcessError Z :=
  if value <=? i64_max then Ok value else Err e.
Definition to_i32 (value : Z) (e : ProcessError) : result ProcessError Z :=
  if value <=? i32_max then Ok value else Err e.

(** [u64::try_from(value)] of a cost column. *)
Definition cost_column (value : Z) : result ProcessError Z :=
  if value <? 0 then Err CorruptCostColumn else Ok value.

Definition revision_from_sql (value : Z) : result ProcessError Z :=
  if value <? 0 then Err RevisionOutOfRange else Ok value.

Definition revision_to_sql (value : Z) : result ProcessError Z := to_i64 value RevisionOutOfRange.

Definition require_expected (expected current : Z) : result ProcessError unit :=
  require (expected =? current) (RevisionConflict expected current).

(** The same bytes and bound as the ticket store's command components. *)
Definition validate_command (principal command_id : string) : result ProcessError unit :=
  for_each (fun '(field, value) =>
    require (TicketStore.command_component value) (InvalidProcessCommand field))
    [("principal", principal); ("command ID", command_id)]%string.

Definition validate_failure_reason (reason : string) : result ProcessError unit :=
  require (TicketStore.bounded_text reason 240) (InvalidProcessCommand "campaign failure reason").

(** * Audit receipts *)

Record Audit := {
  au_audit_log_id : Z;
  au_subject_kind : Z;
  au_subject_id : Z;
  au_resulting_revision : Z;
}.

Definition find_audit_by_key (db : Database) (principal command_id operation : string)
    (fingerprint : ContentDigest) : result ProcessError (option Audit) :=
  match audit_log db !! (principal, command_id) with
  | None => Ok None
  | Some row =>
      require (bool_decide (al_operation row = operation)
               && bool_decide (al_command_fingerprint row = fingerprint))
        (IdempotencyConflict principal command_id) ;;
      revision ← revision_from_sql (al_resulting_revision row);
      Ok (Some {|
        au_audit_log_id := al_id row;
        au_subject_kind := al_subject_kind row;
        au_subject_id := al_subject_id row;
        au_resulting_revision := revision |})
  end.

Definition insert_audit (db : Database) (principal command_id operation : string)
    (fingerprint : ContentDigest) (subject_kind subject_id revision : Z)
  : result ProcessError (Z * Database) :=
  sql ← revision_to_sql revision;
  db_result (insert_audit_row principal command_id (fun id => {|
    al_id := id;
    al_operation := operation;
    al_command_fingerprint := fingerprint;
    al_subject_kind := subject_kind;
    al_subject_id := subject_id;
    al_resulting_revision := sql |}) db).

Definition require_subject (audit : Audit) (expected : Z) : result ProcessError unit :=
  require (au_subject_kind audit =? expected) AuditSubjectKindMismatch.

(** * Command fingerprints *)

Definition hash_str (value : string) : list Z := be_bytes 8 (string_len value) ++ string_bytes value.
Definition hash_i64 (value : Z) : list Z := be_bytes 8 value.
Definition hash_u32 (value : Z) : list Z := be_bytes 4 value.
Definition hash_u64 (value : Z) : list Z := be_bytes 8 value.
Definition hash_digest (value : ContentDigest) : list Z := value.
Definition hash_optional_u64 (value : option Z) : list Z :=
  match value with Some v => hash_u32 1 ++ hash_u64 v | None => hash_u32 0 end.
Definition hash_optional_artifact_id (value : option Z) : list Z :=
  match value with Some v => hash_u32 1 ++ hash_i64 v | None => hash_u32 0 end.

Definition campaign_preimage (c : StartCampaign) : list Z :=
  hash_str CAMPAIGN_START ++ hash_str (scm_principal c) ++ hash_str (scm_command_id c)
  ++ hash_u64 (scm_expected_application_revision c) ++ hash_i64 (scm_application_revision_id c)
  ++ hash_u64 (scm_aggregate_budget c) ++ hash_u64 (scm_deadline_unix_millis c)
  ++ hash_u32 (scm_delivery_target c).

Definition cancel_campaign_preimage (c : CancelCampaign) : list Z :=
  hash_str CAMPAIGN_CANCEL ++ hash_str (ccm_principal c) ++ hash_str (ccm_command_id c)
  ++ hash_u64 (ccm_expected_revision c) ++ hash_i64 (ccm_campaign_id c).

Definition fail_campaign_preimage (c : FailCampaign) : list Z :=
  hash_str CAMPAIGN_FAIL ++ hash_str (fcm_principal c) ++ hash_str (fcm_command_id c)
  ++ hash_u64 (fcm_expected_revision c) ++ hash_i64 (fcm_campaign_id c) ++ hash_str (fcm_reason c).

Definition assignment_preimage (c : CreateAssignment) : list Z :=
  hash_str ASSIGNMENT_CREATE ++ hash_str (cas_principal c) ++ hash_str (cas_command_id c)
  ++ hash_u64 (cas_expected_campaign_revision c) ++ hash_digest (pk_packet_digest (cas_packet c))
  ++ hash_digest (cas_digest (cas_packet_artifact c))
  ++ hash_i64 (cas_required_read_manifest_artifact_id c) ++ hash_u32 (cas_attempt_ordinal c).

Definition session_start_preimage (c : StartSession) : list Z :=
  hash_str SESSION_START ++ hash_str (ss_principal c) ++ hash_str (ss_command_id c)
  ++ hash_u64 (ss_expected_assignment_revision c) ++ hash_i64 (ss_assignment_id c)
  ++ hash_digest (ss_packet_digest c) ++ hash_u32 (pid (ss_custody c))
  ++ hash_u32 (pgid (ss_custody c)) ++ hash_u64 (started_at_unix_millis (ss_custody c)).

(** * Codes *)

Definition assignment_role_code (role : AssignmentRole) : Z :=
  match role with ProductResearch => 0 | Engineering => 1 | Quality => 2 end.

Definition stop_reason_code (value : StopReasonV2) : Z :=
  match value with
  | Completed => 0 | Cancelled => 1 | Deadline => 2 | DaemonDisconnected => 3 | NonZeroExit => 4
  | OutputLimit => 5 | ProtocolError => 6 | UnknownCost => 7 | CostLimit => 8
  end.

Definition terminal_operation_code (value : TerminalOperationV2) : Z :=
  match value with WorkComplete => 0 | CandidateSubmit => 1 | QualitySubmitReview => 2 end.

Definition operation_mask_one (operation : option TerminalOperationV2) : Z :=
  match operation with
  | None => 0
  | Some op => Z.shiftl 1 (terminal_operation_code op)
  end.

Definition operation_mask (ops : list TerminalOperationV2) : Z :=
  fold_left (fun mask op => Z.lor mask (operation_mask_one (Some op))) ops 0.

Definition session_state (reason : StopReasonV2) : SessionState :=
  match reason with
  | Completed => SessionSucceeded
  | Cancelled => SessionCancelled
  | CostLimit => SessionFailed
  | DaemonDisconnected | Deadline => SessionInterrupted
  | _ => SessionFailed
  end.

Definition assignment_state_code (state : SessionState) : Z :=
  match state with
  | SessionSucceeded => 2 | SessionCancelled => 4 | SessionInterrupted => 5 | _ => 3
  end.

Definition session_state_code (state : SessionState) : Z :=
  match state with
  | SessionPrepared => 0 | SessionRunning => 1 | SessionSucceeded => 2 | SessionFailed => 3
  | SessionCancelled => 4 | SessionInterrupted => 5
  end.

Definition session_state_from_code (value : Z) : result ProcessError SessionState :=
  if value =? 0 then Ok SessionPrepared
  else if value =? 1 then Ok SessionRunning
  else if value =? 2 then Ok SessionSucceeded
  else if value =? 3 then Ok SessionFailed
  else if value =? 4 then Ok SessionCancelled
  else if value =? 5 then Ok SessionInterrupted
  else Err CorruptLifecycleColumn.

Definition failure_code (value : StopReasonV2) : option Z :=
  if bool_decide (value = Completed) then None else Some (stop_reason_code value).

Definition db_cost (state value : option Z) : result ProcessError (option TerminalCostV2) :=
  match state, value with
  | None, None => Ok None
  | Some state, Some v =>
      if state =? COST_KNOWN then (fun v => Some (Known v)) <$> cost_column v
      else if state =? COST_EXCEEDED then (fun v => Some (Exceeded v)) <$> cost_column v
      else Err CorruptCostColumn
  | Some state, None => if state =? COST_UNKNOWN then Ok (Some Unknown) else Err CorruptCostColumn
  | None, Some _ => Err CorruptCostColumn
  end.

(** Every counter of a usage record converted by [f], in the fields' order. *)
Definition convert_usage (f : Z -> result ProcessError Z) (value : UsageTotalsV2)
  : result ProcessError UsageColumns :=
  input ← transpose_map f (u_input_tokens value);
  output ← transpose_map f (u_output_tokens value);
  cache_read ← transpose_map f (u_cache_read_tokens value);
  cache_write ← transpose_map f (u_cache_write_tokens value);
  reasoning ← transpose_map f (u_reasoning_tokens value);
  cost ← transpose_map f (u_reported_cost_micro_usd value);
  Ok {| u_input_tokens := input; u_output_tokens := output; u_cache_read_tokens := cache_read;
        u_cache_write_tokens := cache_write; u_reasoning_tokens := reasoning;
        u_reported_cost_micro_usd := cost |}.

Definition usage_sql (value : UsageTotalsV2) : result ProcessError UsageColumns :=
  convert_usage (fun v => to_i64 v (InvalidProcessCommand "usage total")) value.

Definition fingerprint_usage (usage : option UsageTotalsV2) : list Z :=
  match usage with
  | Some u =>
      hash_optional_u64 (u_input_tokens u) ++ hash_optional_u64 (u_output_tokens u)
      ++ hash_optional_u64 (u_cache_read_tokens u) ++ hash_optional_u64 (u_cache_write_tokens u)
      ++ hash_optional_u64 (u_reasoning_tokens u) ++ hash_optional_u64 (u_reported_cost_micro_usd u)
  | None => hash_u64 u64_max
  end.

Definition terminal_preimage (id : Z) (r : TerminalReportV2) (evidence : VerifiedTerminalEvidence)
  : list Z :=
  hash_str SESSION_TERMINAL ++ hash_i64 id ++ hash_digest (report_packet_digest r)
  ++ hash_u64 (report_expected_session_revision r) ++ hash_i64 (ve_transcript_artifact_id evidence)
  ++ hash_optional_artifact_id (ve_execution_summary_artifact_id evidence)
  ++ hash_i64 (ve_required_read_assertion_artifact_id evidence)
  ++ hash_u32 (ve_required_read_expected_count evidence)
  ++ hash_u32 (ve_required_read_satisfied_count evidence)
  ++ hash_u32 (stop_reason_code (report_stop_reason r))
  ++ hash_u32 (match report_operation r with
               | Some op => terminal_operation_code op | None => u32_max end)
  ++ fingerprint_usage (ve_usage evidence) ++ hash_digest (report_digest r).

(** * Campaigns *)

Record CampaignPinning := {
  pin_kernel_build_id : ContentDigest;
  pin_application_revision_id : Z;
  pin_repository_id : Z;
}.

(** A digest column read into 32 bytes. *)
Definition digest_column (digest : ContentDigest) : result ProcessError ContentDigest :=
  if Nat.eqb (length digest) 32 then Ok digest else Err CorruptDigestColumn.

(** [campaigns JOIN kernel_builds] on one campaign id. *)
Definition campaign_join (db : Database) (campaign_id : Z) : option (CampaignRow * KernelBuildRow) :=
  c ← campaigns db !! campaign_id;
  kb ← kernel_builds db !! cmp_kernel_build_id c;
  Some (c, kb).

Definition campaign_pinning (db : Database) (campaign_id : Z) : result ProcessError CampaignPinning :=
  row ← ok_or (campaign_join db campaign_id) (UnknownCampaign campaign_id);
  let '(c, kb) := row in
  digest ← digest_column (kb_build_digest kb);
  application ← new_id "application revision ID" (cmp_application_revision_id c);
  repository ← new_id "repository ID" (cmp_repository_id c);
  Ok {| pin_kernel_build_id := digest;
        pin_application_revision_id := application;
        pin_repository_id := repository |}.

Definition campaign_receipt (campaign_id revision : Z) (pins : CampaignPinning)
    (audit_log_id : Z) (retry : bool) : CampaignReceipt := {|
  cr_campaign_id := campaign_id;
  cr_resulting_revision := revision;
  cr_kernel_build_id := pin_kernel_build_id pins;
  cr_application_revision_id := pin_application_revision_id pins;
  cr_repository_id := pin_repository_id pins;
  cr_audit_log_id := audit_log_id;
  cr_was_idempotent_retry := retry |}.

(** The receipt a repeated campaign command gets. *)
Definition campaign_retry (db : Database) (audit : Audit) : result ProcessError CampaignReceipt :=
  require_subject audit CAMPAIGN_SUBJECT ;;
  campaign_id ← new_id "campaign ID" (au_subject_id audit);
  pins ← campaign_pinning db campaign_id;
  Ok (campaign_receipt campaign_id (au_resulting_revision audit) pins (au_audit_log_id audit) true).

Definition current_campaign_revision (db : Database) (id : Z) : result ProcessError Z :=
  row ← ok_or (campaigns db !! id) (DatabaseError "no row");
  revision_from_sql (cmp_revision row).

Definition current_assignment_revision (db : Database) (id : Z) : result ProcessError Z :=
  row ← ok_or (assignments db !! id) (DatabaseError "no row");
  revision_from_sql (as_revision row).

Definition campaign_running (row : CampaignRow) : bool := cmp_lifecycle row =? CAMPAIGN_RUNNING.

(** [SELECT id FROM factory.sessions WHERE campaign_id = $1 AND lifecycle = $2 LIMIT 1] *)
Definition running_session_of (campaign_id : Z) (db : Database) : option Z :=
  match rows_where (fun _ s => (ses_campaign_id s =? campaign_id)
                               && (ses_lifecycle s =? SESSION_RUNNING)) (sessions db) with
  | (id, _) :: _ => Some id
  | [] => None
  end.

(** [to_timestamp] is PostgreSQL's, on Unix milliseconds; it fails out of range. *)
Definition start_campaign (blake3 : list Z -> ContentDigest) (to_timestamp : Z -> result string Z)
    (db : Database) (command : StartCampaign) : result ProcessError (CampaignReceipt * Database) :=
  let principal := scm_principal command in
  let command_id := scm_command_id command in
  validate_command principal command_id ;;
  require (negb ((scm_delivery_target command =? 0) || (scm_deadline_unix_millis command =? 0)))
    (InvalidProcessCommand "campaign bounds") ;;
  let fingerprint := blake3 (campaign_preimage command) in
  prior ← find_audit_by_key db principal command_id CAMPAIGN_START fingerprint;
  match prior with
  | Some audit => receipt ← campaign_retry db audit; Ok (receipt, db)
  | None =>
      require (campaigns_one_running db) CampaignAlreadyRunning ;;
      build ← match rows_where (fun _ row => kb_is_current row) (kernel_builds db) with
              | [] => Err NoCurrentKernelBuild
              | row :: _ => Ok row
              end;
      digest ← digest_column (kb_build_digest build.2);
      let application_id := scm_application_revision_id command in
      application ← ok_or (application_revisions db !! application_id)
        (UnknownApplicationRevision application_id);
      revision ← revision_from_sql (app_aggregate_revision application);
      require_expected (scm_expected_application_revision command) revision ;;
      require (app_is_active application) (ApplicationRevisionInactive application_id) ;;
      repository ← new_id "repository ID" (app_repository_id application);
      budget ← to_i64 (scm_aggregate_budget command) (InvalidProcessCommand "aggregate budget");
      deadline ← to_i64 (scm_deadline_unix_millis command) (InvalidProcessCommand "deadline");
      target ← to_i32 (scm_delivery_target command) (InvalidProcessCommand "delivery target");
      deadline ← db_result (to_timestamp deadline);
      require (now db <? deadline) CampaignDeadlineElapsed ;;
      inserted ← db_result (insert_campaign {|
        cmp_kernel_build_id := build.1;
        cmp_application_revision_id := application_id;
        cmp_repository_id := repository;
        cmp_lifecycle := CAMPAIGN_RUNNING;
        cmp_aggregate_budget_micro_usd := budget;
        cmp_deadline := deadline;
        cmp_delivery_target := target;
        cmp_revision := 0;
        cmp_measured_cost_micro_usd := 0;
        cmp_cost_state := COST_KNOWN;
        cmp_failure_reason := None |} db);
      let '(id, db) := inserted in
      audited ← insert_audit db principal command_id CAMPAIGN_START fingerprint
        CAMPAIGN_SUBJECT id revision_initial;
      let '(audit_log_id, db) := audited in
      campaign_id ← new_id "campaign ID" id;
      Ok ({| cr_campaign_id := campaign_id;
             cr_resulting_revision := revision_initial;
             cr_kernel_build_id := digest;
             cr_application_revision_id := application_id;
             cr_repository_id := repository;
             cr_audit_log_id := audit_log_id;
             cr_was_idempotent_retry := false |}, db)
  end.

(** The lifecycle columns of a campaign update; the failure reason is kept. *)
Definition close_campaign (lifecycle revision : Z) (reason : option string) (row : CampaignRow)
  : CampaignRow := {|
  cmp_kernel_build_id := cmp_kernel_build_id row;
  cmp_application_revision_id := cmp_application_revision_id row;
  cmp_repository_id := cmp_repository_id row;
  cmp_lifecycle := lifecycle;
  cmp_aggregate_budget_micro_usd := cmp_aggregate_budget_micro_usd row;
  cmp_deadline := cmp_deadline row;
  cmp_delivery_target := cmp_delivery_target row;
  cmp_revision := revision;
  cmp_measured_cost_micro_usd := cmp_measured_cost_micro_usd row;
  cmp_cost_state := cmp_cost_state row;
  cmp_failure_reason := match reason with Some _ => reason | None => cmp_failure_reason row end |}.

Definition cancel_campaign_in_transaction (db : Database) (command : CancelCampaign)
    (current_revision : Z) (fingerprint : ContentDigest)
  : result ProcessError (CampaignReceipt * Database) :=
  let id := ccm_campaign_id command in
  resulting ← next_revision current_revision;
  sql ← revision_to_sql resulting;
  db ← db_result (update_campaign id (close_campaign CAMPAIGN_CANCELLED sql None) db);
  audited ← insert_audit db (ccm_principal command) (ccm_command_id command) CAMPAIGN_CANCEL
    fingerprint CAMPAIGN_SUBJECT id resulting;
  let '(audit_log_id, db) := audited in
  pins ← campaign_pinning db id;
  Ok (campaign_receipt id resulting pins audit_log_id false, db).

Definition admit_campaign_cancellation (blake3 : list Z -> ContentDigest) (db : Database)
    (command : CancelCampaign) : result ProcessError (CampaignCancellationAdmission * Database) :=
  let id := ccm_campaign_id command in
  validate_command (ccm_principal command) (ccm_command_id command) ;;
  let fingerprint := blake3 (cancel_campaign_preimage command) in
  prior ← find_audit_by_key db (ccm_principal command) (ccm_command_id command) CAMPAIGN_CANCEL
    fingerprint;
  match prior with
  | Some audit =>
      receipt ← campaign_retry db audit; Ok (CancellationCompleted receipt, db)
  | None =>
      campaign ← ok_or (campaigns db !! id) (UnknownCampaign id);
      current ← revision_from_sql (cmp_revision campaign);
      require_expected (ccm_expected_revision command) current ;;
      require (campaign_running campaign) (CampaignClosed id) ;;
      match running_session_of id db with
      | Some session => session_id ← new_id "session ID" session; Ok (ActiveSession session_id, db)
      | None =>
          closed ← cancel_campaign_in_transaction db command current fingerprint;
          let '(receipt, db) := closed in
          Ok (CancellationCompleted receipt, db)
      end
  end.

Definition finish_campaign_cancellation (blake3 : list Z -> ContentDigest) (db : Database)
    (command : CancelCampaign) (reconciled : ReconciledSessionCancellation)
  : result ProcessError (CampaignReceipt * Database) :=
  let id := ccm_campaign_id command in
  let bad := InvalidProcessCommand "reconciled cancellation session" in
  validate_command (ccm_principal command) (ccm_command_id command) ;;
  require (rsc_campaign_id reconciled =? id) bad ;;
  following ← next_revision (ccm_expected_revision command);
  require (rsc_campaign_revision reconciled =? following) bad ;;
  let fingerprint := blake3 (cancel_campaign_preimage command) in
  prior ← find_audit_by_key db (ccm_principal command) (ccm_command_id command) CAMPAIGN_CANCEL
    fingerprint;
  match prior with
  | Some audit =>
      require_subject audit CAMPAIGN_SUBJECT ;;
      pins ← campaign_pinning db id;
      Ok (campaign_receipt id (au_resulting_revision audit) pins (au_audit_log_id audit) true, db)
  | None =>
      campaign ← ok_or (campaigns db !! id) (UnknownCampaign id);
      current ← revision_from_sql (cmp_revision campaign);
      require (campaign_running campaign) (CampaignClosed id) ;;
      require (current =? rsc_campaign_revision reconciled)
        (RevisionConflict (rsc_campaign_revision reconciled) current) ;;
      cancel_campaign_in_transaction db command current fingerprint
  end.

Definition cancel_campaign (blake3 : list Z -> ContentDigest) (db : Database)
    (command : CancelCampaign) : result ProcessError (CampaignReceipt * Database) :=
  admitted ← admit_campaign_cancellation blake3 db command;
  match admitted with
  | (CancellationCompleted receipt, db) => Ok (receipt, db)
  | (ActiveSession _, _) => Err (CampaignHasRunningSession (ccm_campaign_id command))
  end.

Definition fail_campaign (blake3 : list Z -> ContentDigest) (db : Database)
    (command : FailCampaign) : result ProcessError (CampaignReceipt * Database) :=
  let principal := fcm_principal command in
  let command_id := fcm_command_id command in
  let id := fcm_campaign_id command in
  validate_command principal command_id ;;
  validate_failure_reason (fcm_reason command) ;;
  let fingerprint := blake3 (fail_campaign_preimage command) in
  prior ← find_audit_by_key db principal command_id CAMPAIGN_FAIL fingerprint;
  match prior with
  | Some audit => receipt ← campaign_retry db audit; Ok (receipt, db)
  | None =>
      campaign ← ok_or (campaigns db !! id) (UnknownCampaign id);
      current ← revision_from_sql (cmp_revision campaign);
      require_expected (fcm_expected_revision command) current ;;
      require (campaign_running campaign) (CampaignClosed id) ;;
      require (bool_decide (running_session_of id db = None)) (CampaignHasRunningSession id) ;;
      resulting ← next_revision current;
      sql ← revision_to_sql resulting;
      db ← db_result (update_campaign id
        (close_campaign CAMPAIGN_FAILED sql (Some (fcm_reason command))) db);
      audited ← insert_audit db principal command_id CAMPAIGN_FAIL fingerprint
        CAMPAIGN_SUBJECT id resulting;
      let '(audit_log_id, db) := audited in
      pins ← campaign_pinning db id;
      Ok (campaign_receipt id resulting pins audit_log_id false, db)
  end.

(** * Assignments *)

(** The [WHERE] conditions on the attempt and its ticket revision that both
    target queries share. *)
Definition attempt_targets (db : Database) (attempt_id campaign_id application_id : Z)
    (stage_ok : Z -> bool) : bool :=
  match ticket_attempts db !! attempt_id with
  | Some ta =>
      match ticket_revisions db !! ta_ticket_revision_id (ta_claim ta) with
      | Some tr =>
          (ta_campaign_id (ta_claim ta) =? campaign_id)
          && (tr_application_revision_id (tr_contract tr) =? application_id)
          && stage_ok (ta_stage ta)
      | None => false
      end
  | None => false
  end.

(** [EXISTS] a validation of full-suite scope that passed, or a review. *)
Definition full_suite_passed (db : Database) (candidate_id : Z) : bool :=
  exists_where (fun _ v => (v_candidate_id v =? candidate_id) && (v_validation_scope v =? 1)
                           && (v_lifecycle v =? VALIDATION_PASSED)) (validations db).
Definition candidate_reviewed (db : Database) (candidate_id : Z) : bool :=
  exists_where (fun _ r => r_candidate_id r =? candidate_id) (reviews db).

Definition assignment_target_exists (db : Database) (packet : AssignmentPacketV2) : bool :=
  let targets attempt_id := attempt_targets db attempt_id (pk_campaign_id packet)
                              (pk_application_revision_id packet) in
  match pk_assignment_role packet, pk_ticket_attempt_id packet, pk_candidate_id packet with
  | ProductResearch, None, None => true
  | Engineering, Some attempt_id, None =>
      targets attempt_id (fun stage =>
        (stage =? ATTEMPT_ENGINEERING) || (stage =? ATTEMPT_REWORK_ENGINEERING))
  | Quality, Some attempt_id, Some candidate_id =>
      match candidates db !! candidate_id with
      | Some c =>
          (c_ticket_attempt_id (c_evidence c) =? attempt_id)
          && (c_lifecycle c =? CANDIDATE_VALIDATED)
          && bool_decide (is_Some (c_candidate_commit c))
          && targets attempt_id (fun stage =>
               (stage =? ATTEMPT_QUALITY) || (stage =? ATTEMPT_REWORK_QUALITY)
               || ((stage =? ATTEMPT_AWAITING_ARCHITECT) && full_suite_passed db candidate_id
                   && negb (candidate_reviewed db candidate_id)))
      | None => false
      end
  | _, _, _ => false
  end.

Definition validate_assignment_target_in_transaction (db : Database) (packet : AssignmentPacketV2)
  : result ProcessError unit := require (assignment_target_exists db packet) PacketIdentityMismatch.

Definition require_artifact (db : Database) (id : Z) (digest : option ContentDigest)
  : result ProcessError unit :=
  row ← ok_or (artifacts db !! id) (UnknownArtifact id);
  match digest with
  | Some expected => require (bool_decide (art_digest row = expected)) PacketArtifactDigestMismatch
  | None => Ok tt
  end.

Definition require_artifact_seal (db : Database) (seal : CasArtifact) (expected_length : Z)
  : result ProcessError Z :=
  match rows_where (fun _ row => bool_decide (art_digest row = cas_digest seal)
                                 && (art_byte_length row =? expected_length)) (artifacts db) with
  | [] => Err UnregisteredTerminalArtifact
  | (id, row) :: _ =>
      require (art_byte_length row =? cas_byte_length seal) PacketArtifactDigestMismatch ;;
      new_id "artifact ID" id
  end.

(** One prompt: its artifact row has the verified digest and length. *)
Definition require_prompt_artifact (db : Database)
    (prompt : Z * ContentDigest * list Z) : result ProcessError unit :=
  let '(artifact_id, digest, bytes) := prompt in
  match artifacts db !! artifact_id with
  | None => id ← new_id "artifact ID" artifact_id; Err (UnknownArtifact id)
  | Some row =>
      require (bool_decide (art_digest row = digest)
               && (art_byte_length row =? Z.of_nat (length bytes))) PacketArtifactDigestMismatch
  end.

Definition verify_prompt_artifacts (blake3 : list Z -> ContentDigest) (db : Database)
    (wire : WirePrompts) : result ProcessError unit :=
  system ← ok_or (Base64.decode_base64 (wire_system_prompt_bytes_b64 wire)) InvalidPacketDigest;
  assignment ← ok_or (Base64.decode_base64 (wire_assignment_prompt_bytes_b64 wire)) InvalidPacketDigest;
  system_digest ← map_err (fun _ => InvalidPacketDigest)
    (content_digest_from_str (wire_system_prompt_digest wire));
  assignment_digest ← map_err (fun _ => InvalidPacketDigest)
    (content_digest_from_str (wire_assignment_prompt_digest wire));
  require (bool_decide (blake3 system = system_digest)
           && bool_decide (blake3 assignment = assignment_digest)) InvalidPacketDigest ;;
  for_each (require_prompt_artifact db)
    [(wire_system_prompt_artifact_id wire, system_digest, system);
     (wire_assignment_prompt_artifact_id wire, assignment_digest, assignment)].

(** A scalar subquery in an insert: one row at most, and a [NOT NULL] column. *)
Definition scalar_subquery {V} (column : string) (rows : list (Z * V)) : result ProcessError Z :=
  match rows with
  | [(id, _)] => Ok id
  | [] => Err (DatabaseError column)
  | _ => Err (DatabaseError "cardinality_violation")
  end.

Definition checked_model (m : ModelColumns) : result ProcessError ModelColumns :=
  to_i64 (input_price m) (InvalidProcessCommand "input price") ;;
  to_i64 (output_price m) (InvalidProcessCommand "output price") ;;
  to_i64 (cache_read_price m) (InvalidProcessCommand "cache read price") ;;
  to_i64 (cache_write_price m) (InvalidProcessCommand "cache write price") ;;
  Ok m.

(** The row of the assignments insert, its conversions in the bound order. *)
Definition assignment_row (db : Database) (command : CreateAssignment)
    (packet_artifact_id remaining : Z) : result ProcessError AssignmentRow :=
  let packet := cas_packet command in
  let role := assignment_role_code (pk_assignment_role packet) in
  context ← to_i32 (pk_context_token_limit packet) (InvalidProcessCommand "context token limit");
  output ← to_i32 (pk_output_token_limit packet) (InvalidProcessCommand "output token limit");
  model ← checked_model (pk_model packet);
  wall ← to_i64 (pk_wall_limit packet) (InvalidProcessCommand "wall limit");
  output_bytes ← to_i32 (pk_output_byte_limit packet) (InvalidProcessCommand "output limit");
  allowance ← to_i64 remaining CorruptCostColumn;
  ordinal ← to_i32 (cas_attempt_ordinal command) (InvalidProcessCommand "attempt ordinal");
  build ← scalar_subquery "kernel_build_id" (rows_where (fun _ row =>
    bool_decide (kb_build_digest row = pk_kernel_build_id packet)) (kernel_builds db));
  office ← scalar_subquery "office_id" (rows_where (fun _ row =>
    (of_application_revision_id row =? pk_application_revision_id packet)
    && bool_decide (of_assignment_role row = Some role)) (offices db));
  Ok {| as_identity := {|
          ai_campaign_id := pk_campaign_id packet;
          ai_kernel_build_id := build;
          ai_application_revision_id := pk_application_revision_id packet;
          ai_office_id := office;
          ai_assignment_role := role;
          ai_target := pk_target packet;
          ai_ticket_attempt_id := pk_ticket_attempt_id packet;
          ai_candidate_id := pk_candidate_id packet;
          ai_packet_artifact_id := packet_artifact_id;
          ai_packet_digest := pk_packet_digest packet;
          ai_system_prompt_artifact_id := pk_system_prompt_artifact_id packet;
          ai_assignment_prompt_artifact_id := pk_assignment_prompt_artifact_id packet;
          ai_required_read_manifest_artifact_id := cas_required_read_manifest_artifact_id command;
          ai_model := model;
          ai_context_token_limit := context;
          ai_output_token_limit := output;
          ai_wall_limit_millis := wall;
          ai_output_byte_limit := output_bytes;
          ai_terminal_operations_mask := operation_mask (pk_terminal_operations packet);
          ai_remaining_campaign_allowance_micro_usd := allowance;
          ai_attempt_ordinal := ordinal |};
        as_lifecycle := SESSION_PREPARED;
        as_revision := 0 |}.

(** [UPDATE factory.campaigns SET revision = $1 WHERE id = $2] *)
Definition bump_campaign (revision : Z) (row : CampaignRow) : CampaignRow :=
  set_campaign_lifecycle (cmp_lifecycle row) revision row.

(** The unspent part of a campaign's budget. *)
Definition remaining_allowance (row : CampaignRow) : result ProcessError Z :=
  budget ← cost_column (cmp_aggregate_budget_micro_usd row);
  measured ← cost_column (cmp_measured_cost_micro_usd row);
  require (measured <=? budget) CorruptCostColumn ;;
  Ok (budget - measured).

(** The guards on the campaign of a new assignment. *)
Definition assignment_campaign (db : Database) (command : CreateAssignment)
  : result ProcessError (CampaignRow * Z) :=
  let packet := cas_packet command in
  let id := pk_campaign_id packet in
  row ← ok_or (campaign_join db id) (UnknownCampaign id);
  let '(campaign, build) := row in
  revision ← revision_from_sql (cmp_revision campaign);
  require_expected (cas_expected_campaign_revision command) revision ;;
  require (campaign_running campaign) (CampaignClosed id) ;;
  require (now db <? cmp_deadline campaign) CampaignDeadlineElapsed ;;
  require (cmp_cost_state campaign =? COST_KNOWN) (CampaignCostFrozen id) ;;
  require ((cmp_application_revision_id campaign =? pk_application_revision_id packet)
           && bool_decide (kb_build_digest build = pk_kernel_build_id packet))
    PacketIdentityMismatch ;;
  Ok (campaign, revision).

(** [wire] is the verified wire form of the packet, and the command carries no
    harness compilation. *)
Definition create_assignment (blake3 : list Z -> ContentDigest) (db : Database)
    (wire : WirePrompts) (command : CreateAssignment)
  : result ProcessError (AssignmentReceipt * Database) :=
  let principal := cas_principal command in
  let command_id := cas_command_id command in
  let packet := cas_packet command in
  let campaign_id := pk_campaign_id packet in
  validate_command principal command_id ;;
  require (pk_assignment_id packet =? cas_assignment_id command) PacketIdentityMismatch ;;
  require (negb ((campaign_id <=? 0) || (cas_attempt_ordinal command =? 0)))
    (InvalidProcessCommand "assignment identity") ;;
  require (cas_required_read_manifest_artifact_id command
           =? pk_required_read_manifest_artifact_id packet) RequiredReadManifestMismatch ;;
  let fingerprint := blake3 (assignment_preimage command) in
  prior ← find_audit_by_key db principal command_id ASSIGNMENT_CREATE fingerprint;
  match prior with
  | Some audit =>
      require_subject audit ASSIGNMENT_SUBJECT ;;
      assignment_id ← new_id "assignment ID" (au_subject_id audit);
      campaign_revision ← current_campaign_revision db campaign_id;
      Ok ({| ar_assignment_id := assignment_id;
             ar_resulting_revision := au_resulting_revision audit;
             ar_resulting_campaign_revision := campaign_revision;
             ar_audit_log_id := au_audit_log_id audit;
             ar_was_idempotent_retry := true |}, db)
  | None =>
      admitted ← assignment_campaign db command;
      let '(campaign, campaign_revision) := admitted in
      validate_assignment_target_in_transaction db packet ;;
      remaining ← remaining_allowance campaign;
      require (pk_remaining_campaign_allowance packet =? remaining) RemainingAllowanceMismatch ;;
      packet_artifact_id ← require_artifact_seal db (cas_packet_artifact command)
        (cas_packet_byte_length command);
      require_artifact db (pk_system_prompt_artifact_id packet) None ;;
      require_artifact db (pk_assignment_prompt_artifact_id packet) None ;;
      require_artifact db (cas_required_read_manifest_artifact_id command) None ;;
      verify_prompt_artifacts blake3 db wire ;;
      row ← assignment_row db command packet_artifact_id remaining;
      let id := cas_assignment_id command in
      db ← db_result (insert_assignment id row db);
      next ← next_revision campaign_revision;
      sql ← revision_to_sql next;
      db ← db_result (update_campaign campaign_id (bump_campaign sql) db);
      audited ← insert_audit db principal command_id ASSIGNMENT_CREATE fingerprint
        ASSIGNMENT_SUBJECT id revision_initial;
      let '(audit_log_id, db) := audited in
      assignment_id ← new_id "assignment ID" id;
      Ok ({| ar_assignment_id := assignment_id;
             ar_resulting_revision := revision_initial;
             ar_resulting_campaign_revision := next;
             ar_audit_log_id := audit_log_id;
             ar_was_idempotent_retry := false |}, db)
  end.

(** * Sessions *)

(** The guards on the assignment and campaign of a new session. *)
Definition startable_assignment (db : Database) (command : StartSession)
  : result ProcessError (AssignmentRow * Z) :=
  let id := ss_assignment_id command in
  row ← ok_or (a ← assignments db !! id;
               c ← campaigns db !! ai_campaign_id (as_identity a);
               Some (a, c)) (UnknownAssignment id);
  let '(a, c) := row in
  revision ← revision_from_sql (as_revision a);
  require_expected (ss_expected_assignment_revision command) revision ;;
  require (as_lifecycle a =? SESSION_PREPARED) (AssignmentStateConflict id) ;;
  (if campaign_running c && (cmp_cost_state c =? COST_KNOWN) then Ok tt
   else campaign_id ← new_id "campaign ID" (ai_campaign_id (as_identity a));
        Err (CampaignCostFrozen campaign_id)) ;;
  require (now db <? cmp_deadline c) CampaignDeadlineElapsed ;;
  require (bool_decide (ai_packet_digest (as_identity a) = ss_packet_digest command))
    PacketIdentityMismatch ;;
  require (negb (paid_session_active db)) PaidSessionAlreadyRunning ;;
  Ok (a, revision).

(** [INSERT INTO factory.sessions ... SELECT ... FROM factory.assignments] *)
Definition session_row (assignment_id : Z) (a : AssignmentIdentity) (pid pgid started : Z)
  : SessionRow := {|
  ses_identity := {|
    si_assignment_id := assignment_id;
    si_campaign_id := ai_campaign_id a;
    si_kernel_build_id := ai_kernel_build_id a;
    si_application_revision_id := ai_application_revision_id a;
    si_office_id := ai_office_id a;
    si_assignment_role := ai_assignment_role a;
    si_model := ai_model a;
    si_pid := pid;
    si_pgid := pgid;
    si_process_started_at_unix_millis := started |};
  ses_lifecycle := SESSION_RUNNING;
  ses_terminal := None;
  ses_revision := 0 |}.

Definition set_assignment_lifecycle (lifecycle revision : Z) (row : AssignmentRow)
  : AssignmentRow :=
  {| as_identity := as_identity row; as_lifecycle := lifecycle; as_revision := revision |}.

Definition start_session (blake3 : list Z -> ContentDigest) (db : Database)
    (command : StartSession) : result ProcessError (SessionReceipt * Database) :=
  let principal := ss_principal command in
  let command_id := ss_command_id command in
  let custody := ss_custody command in
  validate_command principal command_id ;;
  require (negb ((pid custody =? 0) || (pgid custody =? 0) || (started_at_unix_millis custody =? 0)))
    (InvalidProcessCommand "process custody") ;;
  let fingerprint := blake3 (session_start_preimage command) in
  prior ← find_audit_by_key db principal command_id SESSION_START fingerprint;
  match prior with
  | Some audit =>
      require_subject audit SESSION_SUBJECT ;;
      assignment_revision ← current_assignment_revision db (ss_assignment_id command);
      session_id ← new_id "session ID" (au_subject_id audit);
      Ok ({| sr_session_id := session_id;
             sr_resulting_revision := au_resulting_revision audit;
             sr_assignment_revision := assignment_revision;
             sr_audit_log_id := au_audit_log_id audit;
             sr_was_idempotent_retry := true |}, db)
  | None =>
      startable ← startable_assignment db command;
      let '(a, assignment_revision) := startable in
      pid ← to_i32 (pid custody) (InvalidProcessCommand "PID");
      pgid ← to_i32 (pgid custody) (InvalidProcessCommand "PGID");
      started ← to_i64 (started_at_unix_millis custody)
        (InvalidProcessCommand "process start time");
      inserted ← db_result (insert_session
        (session_row (ss_assignment_id command) (as_identity a) pid pgid started) db);
      let '(id, db) := inserted in
      next ← next_revision assignment_revision;
      sql ← revision_to_sql next;
      let db := update_assignment (ss_assignment_id command)
        (set_assignment_lifecycle SESSION_RUNNING sql) db in
      audited ← insert_audit db principal command_id SESSION_START fingerprint
        SESSION_SUBJECT id revision_initial;
      let '(audit_log_id, db) := audited in
      session_id ← new_id "session ID" id;
      Ok ({| sr_session_id := session_id;
             sr_resulting_revision := revision_initial;
             sr_assignment_revision := next;
             sr_audit_log_id := audit_log_id;
             sr_was_idempotent_retry := false |}, db)
  end.

(** ** The terminal transition *)

(** [UsageTotalsV2::provider_cost] as the optional total it reads. *)
Definition terminal_cost (usage : option UsageTotalsV2) : TerminalCostV2 :=
  match usage with
  | Some usage =>
      match u_reported_cost_micro_usd usage with Some cost => Known cost | None => Unknown end
  | None => Unknown
  end.

(** What the transition writes to the session and its campaign. *)
Record TerminalOutcome := {
  next_cost_state : Z;
  cost_value : option Z;
  next_measured : Z;
  next_campaign_lifecycle : Z;
}.

Definition add_cost (measured value : Z) : result ProcessError Z :=
  ok_or (checked_add_u64 measured value) CorruptCostColumn.

Definition terminal_outcome (cost : TerminalCostV2) (reason : StopReasonV2) (c : CampaignRow)
    (budget measured : Z) : result ProcessError TerminalOutcome :=
  let outcome state value measured lifecycle := {|
    next_cost_state := state; cost_value := value; next_measured := measured;
    next_campaign_lifecycle := lifecycle |} in
  match cost with
  | Known value =>
      if bool_decide (reason = CostLimit)
      then total ← add_cost measured value;
           Ok (outcome COST_EXCEEDED (Some value) total CAMPAIGN_FAILED)
      else if cmp_cost_state c =? COST_KNOWN
      then total ← add_cost measured value;
           Ok (if budget <? total
               then outcome COST_EXCEEDED (Some value) total CAMPAIGN_FAILED
               else outcome COST_KNOWN (Some value) total (cmp_lifecycle c))
      else Ok (outcome (cmp_cost_state c) (Some value) measured (cmp_lifecycle c))
  | Exceeded value =>
      Ok (outcome COST_EXCEEDED (Some value) (Z.min u64_max (measured + value)) CAMPAIGN_FAILED)
  | Unknown =>
      Ok (outcome COST_UNKNOWN None measured
            (if bool_decide (reason = Cancelled) then cmp_lifecycle c else CAMPAIGN_FAILED))
  end.

Definition receipt_cost (outcome : TerminalOutcome) (cost : TerminalCostV2) : TerminalCostV2 :=
  match next_cost_state outcome =? COST_EXCEEDED, cost_value outcome with
  | true, Some value => Exceeded value
  | _, _ => cost
  end.

Definition campaign_failure_reason (outcome : TerminalOutcome) : option string :=
  if next_campaign_lifecycle outcome =? CAMPAIGN_FAILED
  then if next_cost_state outcome =? COST_UNKNOWN then Some UNKNOWN_TERMINAL_COST_FAILURE_REASON
       else if next_cost_state outcome =? COST_EXCEEDED
       then Some EXCEEDED_TERMINAL_COST_FAILURE_REASON else None
  else None.

(** The campaign columns of the terminal update. *)
Definition settle_campaign (outcome : TerminalOutcome) (measured revision : Z) (row : CampaignRow)
  : CampaignRow := {|
  cmp_kernel_build_id := cmp_kernel_build_id row;
  cmp_application_revision_id := cmp_application_revision_id row;
  cmp_repository_id := cmp_repository_id row;
  cmp_lifecycle := next_campaign_lifecycle outcome;
  cmp_aggregate_budget_micro_usd := cmp_aggregate_budget_micro_usd row;
  cmp_deadline := cmp_deadline row;
  cmp_delivery_target := cmp_delivery_target row;
  cmp_revision := revision;
  cmp_measured_cost_micro_usd := measured;
  cmp_cost_state := Z.max (next_cost_state outcome) (cmp_cost_state row);
  cmp_failure_reason := campaign_failure_reason outcome |}.

(** The operation and evidence the stop reason asks for. *)
Definition terminal_report_allowed (report : TerminalReportV2) (evidence : VerifiedTerminalEvidence)
    (operations_mask : Z) : result ProcessError unit :=
  match report_stop_reason report with
  | Completed =>
      require (match report_operation report with
               | None => false
               | Some _ => negb (Z.land (operation_mask_one (report_operation report))
                                   operations_mask =? 0)
               end) TerminalOperationNotAllowed ;;
      require (ve_required_read_satisfied_count evidence =? ve_required_read_expected_count evidence)
        RequiredReadIncomplete ;;
      require (match ve_usage evidence with Some _ => true | None => false end) TerminalCostMismatch
  | UnknownCost =>
      require (match report_operation report with Some _ => false | None => true end)
        TerminalCostMismatch
  | _ =>
      require (match report_operation report with Some _ => false | None => true end)
        TerminalOperationNotAllowed
  end.

(** The [sessions JOIN assignments JOIN campaigns] row of one session. *)
Definition session_join (db : Database) (session_id : Z)
  : option (SessionRow * AssignmentRow * CampaignRow) :=
  s ← sessions db !! session_id;
  a ← assignments db !! si_assignment_id (ses_identity s);
  c ← campaigns db !! ses_campaign_id s;
  Some (s, a, c).

(** The guards of the transition, in the source's order. *)
Definition terminable_session (db : Database) (session_id : Z) (report : TerminalReportV2)
    (evidence : VerifiedTerminalEvidence)
  : result ProcessError (SessionRow * AssignmentRow * CampaignRow * Z) :=
  row ← ok_or (session_join db session_id) (UnknownSession session_id);
  let '(s, a, c) := row in
  current ← revision_from_sql (ses_revision s);
  require_expected (report_expected_session_revision report) current ;;
  require (ses_lifecycle s =? SESSION_RUNNING) (SessionAlreadyTerminal session_id) ;;
  require (bool_decide (ai_packet_digest (as_identity a) = report_packet_digest report))
    PacketIdentityMismatch ;;
  terminal_report_allowed report evidence (ai_terminal_operations_mask (as_identity a)) ;;
  require (negb (ve_required_read_assertion_artifact_id evidence
                 =? ai_required_read_manifest_artifact_id (as_identity a)))
    RequiredReadManifestMismatch ;;
  Ok (s, a, c, current).

(** [NULL] in every usage column. *)
Definition no_usage : UsageColumns :=
  {| u_input_tokens := None; u_output_tokens := None; u_cache_read_tokens := None;
     u_cache_write_tokens := None; u_reasoning_tokens := None; u_reported_cost_micro_usd := None |}.

(** The columns of the terminal update. *)
Definition session_terminal (db : Database) (report : TerminalReportV2)
    (evidence : VerifiedTerminalEvidence) (outcome : TerminalOutcome) (usage : option UsageColumns)
    (expected satisfied : Z) : SessionTerminal := {|
  st_transcript_artifact_id := ve_transcript_artifact_id evidence;
  st_execution_summary_artifact_id := ve_execution_summary_artifact_id evidence;
  st_stdout_artifact_id := ve_stdout_artifact_id evidence;
  st_stderr_artifact_id := ve_stderr_artifact_id evidence;
  st_partial_transcript_artifact_id := ve_partial_transcript_artifact_id evidence;
  st_required_read_assertion_artifact_id := ve_required_read_assertion_artifact_id evidence;
  st_required_read_expected_count := expected;
  st_required_read_satisfied_count := satisfied;
  st_usage := default no_usage usage;
  st_cost_state := next_cost_state outcome;
  st_cost_micro_usd := v ← cost_value outcome; if v <=? i64_max then Some v else None;
  st_stop_reason := stop_reason_code (report_stop_reason report);
  st_terminal_operation := terminal_operation_code <$> report_operation report;
  st_failure_class := failure_code (report_stop_reason report);
  st_terminal_at := now db |}.

(** [UPDATE factory.assignments SET lifecycle = $1, revision = revision + 1
    WHERE id = $2 AND lifecycle = $3] *)
Definition finish_assignment (id lifecycle : Z) (db : Database) : result string Database :=
  match assignments db !! id with
  | Some a =>
      if as_lifecycle a =? SESSION_RUNNING
      then require (as_revision a <? i64_max) "numeric_value_out_of_range"%string ;;
           Ok (update_assignment id (set_assignment_lifecycle lifecycle (as_revision a + 1)) db)
      else Ok db
  | None => Ok db
  end.

(** The receipt a repeated terminal command gets. *)
Definition terminal_retry (db : Database) (session_id : Z) (audit : Audit)
  : result ProcessError TerminalReceipt :=
  require_subject audit SESSION_SUBJECT ;;
  s ← ok_or (sessions db !! session_id) (DatabaseError "no row");
  campaign_id ← new_id "campaign ID" (ses_campaign_id s);
  campaign_revision ← current_campaign_revision db campaign_id;
  state ← session_state_from_code (ses_lifecycle s);
  cost ← db_cost (st_cost_state <$> ses_terminal s) (t ← ses_terminal s; st_cost_micro_usd t);
  cost ← ok_or cost CorruptCostColumn;
  Ok {| tr_session_id := session_id; tr_session_state := state; tr_cost := cost;
        tr_session_revision := au_resulting_revision audit; tr_campaign_revision := campaign_revision;
        tr_audit_log_id := au_audit_log_id audit; tr_was_idempotent_retry := true |}.

Definition terminal_session (blake3 : list Z -> ContentDigest) (db : Database)
    (principal command_id : string) (session_id : Z) (report : TerminalReportV2)
    (evidence : VerifiedTerminalEvidence) : result ProcessError (TerminalReceipt * Database) :=
  validate_command principal command_id ;;
  let fingerprint := blake3 (terminal_preimage session_id report evidence) in
  prior ← find_audit_by_key db principal command_id SESSION_TERMINAL fingerprint;
  match prior with
  | Some audit => receipt ← terminal_retry db session_id audit; Ok (receipt, db)
  | None =>
      row ← terminable_session db session_id report evidence;
      let '(s, a, c, current) := row in
      let cost := terminal_cost (ve_usage evidence) in
      budget ← cost_column (cmp_aggregate_budget_micro_usd c);
      measured ← cost_column (cmp_measured_cost_micro_usd c);
      outcome ← terminal_outcome cost (report_stop_reason report) c budget measured;
      let state := session_state (report_stop_reason report) in
      next ← next_revision current;
      require (negb (bool_decide (state = SessionSucceeded))
               || bool_decide (is_Some (ve_execution_summary_artifact_id evidence)))
        (InvalidProcessCommand "execution summary evidence") ;;
      usage ← transpose_map usage_sql (ve_usage evidence);
      expected ← to_i32 (ve_required_read_expected_count evidence)
        (InvalidProcessCommand "required read count");
      satisfied ← to_i32 (ve_required_read_satisfied_count evidence)
        (InvalidProcessCommand "required read count");
      sql ← revision_to_sql next;
      db ← db_result (update_session_terminal session_id (session_state_code state) sql
        (session_terminal db report evidence outcome usage expected satisfied) db);
      db ← db_result (finish_assignment (si_assignment_id (ses_identity s))
        (assignment_state_code state) db);
      campaign_revision ← revision_from_sql (cmp_revision c);
      campaign_revision ← next_revision campaign_revision;
      measured ← to_i64 (next_measured outcome) RevisionOutOfRange;
      campaign_sql ← revision_to_sql campaign_revision;
      db ← db_result (update_campaign (ses_campaign_id s)
        (settle_campaign outcome measured campaign_sql) db);
      audited ← insert_audit db principal command_id SESSION_TERMINAL fingerprint
        SESSION_SUBJECT session_id next;
      let '(audit_log_id, db) := audited in
      Ok ({| tr_session_id := session_id; tr_session_state := state;
             tr_cost := receipt_cost outcome cost; tr_session_revision := next;
             tr_campaign_revision := campaign_revision; tr_audit_log_id := audit_log_id;
             tr_was_idempotent_retry := false |}, db)
  end.
