(* ===== verification/Packet.v ===== *)
(** The assignment packet: the closed input of one paid session, in the domain
    ([crates/factory-protocol/src/process.rs]) and on the wire, with the checks,
    the seal and the verification of [crates/factory-protocol/src/wire.rs]. *)
From S2P Require Import Prelude Values Base64 Contracts Application Json WireBundle ProcessStore.

Definition ASSIGNMENT_PACKET_V2_FORMAT : Z := 2.

(** * The domain *)

Inductive AssignmentEvidenceRoleV2 :=
  | TicketProposal | TicketNarrative | TicketEvidence | ReproducerCommand | ReproducerStdin
  | ReproducerExpectedStdout | ReproducerExpectedStderr
  | ReproducerFirstActualStdout | ReproducerFirstActualStderr
  | ReproducerSecondActualStdout | ReproducerSecondActualStderr
  | RegressionPatch | RegressionCommandSet | RegressionLog | ChangedPaths | CandidatePatch
  | EngineeringReport | EngineeringRisks | HardValidationCommandSet | HardValidationLog
  | QualityAdditionalProbes | QualityRationale | QualityRisks | ExternalDecisionRationale.

#[global] Instance AssignmentEvidenceRoleV2_eq_dec : EqDecision AssignmentEvidenceRoleV2.
Proof. solve_decision. Defined.

(** In the order of the derived [Ord]. *)
Definition all_evidence_roles : list AssignmentEvidenceRoleV2 :=
  [TicketProposal; TicketNarrative; TicketEvidence; ReproducerCommand; ReproducerStdin;
   ReproducerExpectedStdout; ReproducerExpectedStderr; ReproducerFirstActualStdout;
   ReproducerFirstActualStderr; ReproducerSecondActualStdout; ReproducerSecondActualStderr;
   RegressionPatch; RegressionCommandSet; RegressionLog; ChangedPaths; CandidatePatch;
   EngineeringReport; EngineeringRisks; HardValidationCommandSet; HardValidationLog;
   QualityAdditionalProbes; QualityRationale; QualityRisks; ExternalDecisionRationale].

Definition wire_name (role : AssignmentEvidenceRoleV2) : string :=
  match role with
  | TicketProposal => "ticket_proposal"
  | TicketNarrative => "ticket_narrative"
  | TicketEvidence => "ticket_evidence"
  | ReproducerCommand => "reproducer_command"
  | ReproducerStdin => "reproducer_stdin"
  | ReproducerExpectedStdout => "reproducer_expected_stdout"
  | ReproducerExpectedStderr => "reproducer_expected_stderr"
  | ReproducerFirstActualStdout => "reproducer_first_actual_stdout"
  | ReproducerFirstActualStderr => "reproducer_first_actual_stderr"
  | ReproducerSecondActualStdout => "reproducer_second_actual_stdout"
  | ReproducerSecondActualStderr => "reproducer_second_actual_stderr"
  | RegressionPatch => "regression_patch"
  | RegressionCommandSet => "regression_command_set"
  | RegressionLog => "regression_log"
  | ChangedPaths => "changed_paths"
  | CandidatePatch => "candidate_patch"
  | EngineeringReport => "engineering_report"
  | EngineeringRisks => "engineering_risks"
  | HardValidationCommandSet => "hard_validation_command_set"
  | HardValidationLog => "hard_validation_log"
  | QualityAdditionalProbes => "quality_additional_probes"
  | QualityRationale => "quality_rationale"
  | QualityRisks => "quality_risks"
  | ExternalDecisionRationale => "external_decision_rationale"
  end.

(** The match of the source has one arm per spelling of [wire_name]. *)
Definition parse_wire_name (value : string) : result ContractError AssignmentEvidenceRoleV2 :=
  ok_or (List.find (fun role => bool_decide (wire_name role = value)) all_evidence_roles)
    (InvalidValue "assignment evidence role" "is not a closed assignment evidence role").

Record AssignmentEvidenceV2 := {
  ev_role : AssignmentEvidenceRoleV2;
  ev_artifact_id : Z;
  ev_digest : ContentDigest;
  ev_byte_length : Z;
}.

Record ReadExactFileV2 := { rx_path : string; rx_digest : ContentDigest; rx_reason : string }.

Definition read_exact_validate (r : ReadExactFileV2) : result ContractError unit :=
  require (negb (is_empty (string_bytes (rx_reason r)) || (240 <? string_len (rx_reason r))
                 || contains_byte 0 (rx_reason r)))
    (InvalidValue "required read reason" "must be 1 through 240 bytes without NUL").

(** An upper-case environment name: no digit first. *)
Definition environment_name (value : string) : bool :=
  match string_bytes value with
  | [] => false
  | first :: rest =>
      (string_len value <=? 160)
      && (is_ascii_upper first || (first =? 95))
      && forallb upper_name_byte rest
  end.

(** [CredentialDescriptorV2::Environment] *)
Definition credential_validate (name : string) : result ContractError unit :=
  require (environment_name name)
    (InvalidValue "credential environment name" "must use 1 through 160 upper-case environment-name bytes").

Record RuntimeIdentityV2 := {
  ri_host_executable : string;
  ri_core_head : string;
  ri_core_source_digest : ContentDigest;
  ri_rust_toolchain : string;
  ri_credential_env : string;
}.

(** [byte.is_ascii_hexdigit() && !byte.is_ascii_uppercase()] for every byte. *)
Definition lower_hex_text (value : string) : bool :=
  forallb (fun b => is_ascii_digit b || ((97 <=? b) && (b <=? 102))) (string_bytes value).

Definition runtime_validate (r : RuntimeIdentityV2) : result ContractError unit :=
  require ((string_len (ri_core_head r) =? 40) && lower_hex_text (ri_core_head r))
    (InvalidValue "Tea HEAD" "must be exactly 40 lower-case hexadecimal characters") ;;
  require (negb (is_empty (string_bytes (ri_rust_toolchain r)) || (240 <? string_len (ri_rust_toolchain r))
                 || contains_byte 0 (ri_rust_toolchain r)))
    (InvalidValue "Rust toolchain" "must be 1 through 240 bytes without NUL") ;;
  credential_validate (ri_credential_env r).

Record AssignmentPacketV2 := {
  pkt_format_version : Z;
  pkt_campaign_id : Z;
  pkt_assignment_id : Z;
  pkt_kernel_build_id : ContentDigest;
  pkt_application_revision_id : Z;
  pkt_assignment_role : AssignmentRole;
  pkt_target : string;
  pkt_ticket_attempt_id : option Z;
  pkt_candidate_id : option Z;
  pkt_system_prompt_artifact_id : Z;
  pkt_assignment_prompt_artifact_id : Z;
  pkt_required_read_manifest_artifact_id : Z;
  pkt_policy_digest : ContentDigest;
  pkt_policy_byte_limit : Z;
  pkt_policy_bytes : list Z;
  pkt_policy_entrypoint : PolicyEntrypointV2;
  pkt_workspace_root : string;
  pkt_staging_root : string;
  pkt_model : ModelProfileV2;
  pkt_limits : SessionLimitsV2;
  pkt_runtime : RuntimeIdentityV2;
  pkt_required_reads : list ReadExactFileV2;
  pkt_assignment_evidence : list AssignmentEvidenceV2;
  pkt_terminal_operations : list TerminalOperationV2;
  pkt_remaining_campaign_allowance : Z;
  pkt_revision : Z;
  pkt_packet_digest : ContentDigest;
}.

(** The durable target each office works on. *)
Definition target_shape (role : AssignmentRole) (attempt candidate : bool) : bool :=
  match role, attempt, candidate with
  | ProductResearch, false, false | Engineering, true, false | Values.Quality, true, true => true
  | _, _, _ => false
  end.

(** An [Option]'s [is_some()]. *)
Definition some {A} (o : option A) : bool := match o with Some _ => true | None => false end.

Section blake3.
Variable blake3 : list Z -> ContentDigest.

Definition packet_validate (p : AssignmentPacketV2) : result ContractError unit :=
  let product := bool_decide (pkt_assignment_role p = ProductResearch) in
  require (pkt_format_version p =? ASSIGNMENT_PACKET_V2_FORMAT)
    (InvalidValue "assignment packet format" "unsupported assignment packet version") ;;
  require (negb (is_empty (string_bytes (pkt_target p)) || (4096 <? string_len (pkt_target p))
                 || contains_byte 0 (pkt_target p)))
    (InvalidValue "assignment target" "must be 1 through 4096 bytes without NUL") ;;
  require (negb (bad_session_limits (pkt_limits p)))
    (InvalidValue "assignment session limits" "must be positive and output must fit one CAS object") ;;
  require (negb ((pkt_policy_byte_limit p =? 0) || (MAX_POLICY_ARTIFACT_BYTES <? pkt_policy_byte_limit p)))
    (InvalidValue "assignment policy byte limit" "must be positive and within the policy ceiling") ;;
  require (negb (is_empty (pkt_policy_bytes p)
                 || (pkt_policy_byte_limit p <? Z.of_nat (length (pkt_policy_bytes p)))))
    (ByteLimitExceeded "assignment policy bytes" (pkt_policy_byte_limit p)) ;;
  require (negb (has_nul (pkt_policy_bytes p) || negb (utf8_valid (pkt_policy_bytes p))))
    (InvalidValue "assignment policy bytes" "must be nonempty UTF-8 without NUL") ;;
  require (bool_decide (blake3 (pkt_policy_bytes p) = pkt_policy_digest p))
    (InvalidValue "assignment policy digest" "does not match sealed policy bytes") ;;
  require (target_shape (pkt_assignment_role p) (some (pkt_ticket_attempt_id p)) (some (pkt_candidate_id p)))
    (InvalidValue "assignment target identity" "office requires its exact durable target shape") ;;
  require (Z.of_nat (length (pkt_assignment_evidence p)) <=? 24)
    (InvalidValue "assignment evidence" "exceeds the closed evidence reference limit") ;;
  require (negb (product && negb (is_empty (pkt_assignment_evidence p))))
    (InvalidValue "assignment evidence" "Product has no upstream assignment evidence") ;;
  require (negb (negb product && is_empty (pkt_assignment_evidence p)))
    (InvalidValue "assignment evidence" "Engineering and Quality require upstream evidence") ;;
  for_each_seen ev_role (InvalidValue "assignment evidence" "roles must be unique")
    (fun _ => Ok tt) (fun _ => Ok tt) [] (pkt_assignment_evidence p) ;;
  require (negb (is_empty (pkt_required_reads p)))
    (InvalidValue "assignment required reads" "at least one required read is required") ;;
  for_each_seen rx_path (InvalidValue "assignment required reads" "paths must be unique")
    read_exact_validate (fun _ => Ok tt) [] (pkt_required_reads p) ;;
  require (negb (is_empty (pkt_terminal_operations p)))
    (InvalidValue "assignment terminal operations" "at least one terminal operation is required") ;;
  runtime_validate (pkt_runtime p).
End blake3.

(** * The wire *)

Record AssignmentModelWireV2 := {
  amw_provider : string;
  amw_model_id : string;
  amw_thinking_level : string;
  amw_context_token_limit : Z;
  amw_output_token_limit : Z;
  amw_price_input : Z;
  amw_price_output : Z;
  amw_price_cache_read : Z;
  amw_price_cache_write : Z;
  amw_capability_flags : list string;
}.

Record AssignmentLimitsWireV2 := { alw_wall_limit_millis : Z; alw_output_byte_limit : Z }.

Record AssignmentRuntimeWireV2 := {
  arw_host_executable : string;
  arw_core_head : string;
  arw_core_source_digest : string;
  arw_rust_toolchain : string;
  arw_credential_env : string;
}.

Record AssignmentReadWireV2 := { arr_path : string; arr_digest : string; arr_reason : string }.

Record AssignmentEvidenceWireV2 := {
  aew_role : string;
  aew_artifact_id : Z;
  aew_digest : string;
  aew_byte_length : Z;
}.

Record AssignmentPacketWireV2 := {
  apw_format_version : Z;
  apw_campaign_id : Z;
  apw_assignment_id : Z;
  apw_application_revision_id : Z;
  apw_kernel_build_id : string;
  apw_assignment_role : string;
  apw_target : string;
  apw_repository_base_identity : string;
  apw_factory_base_identity : string;
  apw_ticket_attempt_id : option Z;
  apw_candidate_id : option Z;
  apw_system_prompt_artifact_id : Z;
  apw_assignment_prompt_artifact_id : Z;
  apw_required_read_manifest_artifact_id : Z;
  apw_system_prompt_digest : string;
  apw_assignment_prompt_digest : string;
  apw_system_prompt_bytes_b64 : string;
  apw_assignment_prompt_bytes_b64 : string;
  apw_policy_digest : string;
  apw_policy_byte_limit : Z;
  apw_policy_bytes_b64 : string;
  apw_policy_entrypoint : string;
  apw_workspace_root : string;
  apw_staging_root : string;
  apw_model : AssignmentModelWireV2;
  apw_limits : AssignmentLimitsWireV2;
  apw_runtime : AssignmentRuntimeWireV2;
  apw_required_reads : list AssignmentReadWireV2;
  apw_assignment_evidence : list AssignmentEvidenceWireV2;
  apw_tools : list string;
  apw_terminal_operations : list string;
  apw_remaining_campaign_allowance_micro_usd : Z;
  apw_aggregate_revision : Z;
  apw_packet_digest : string;
}.

#[local] Open Scope string_scope.
#[local] Open Scope Z_scope.

Definition is_known_assignment_evidence_role (role : string) : bool :=
  bool_decide (role ∈ wire_name <$> all_evidence_roles).

Definition is_known_assignment_tool (value : string) : bool := some (tool_parse value).

Definition is_known_terminal_operation (value : string) : bool :=
  bool_decide (value ∈ ["work_complete"; "candidate_submit"; "quality_submit_review"]).

Definition bounded_packet_text (field value : string) (maximum : Z) : result FrameError unit :=
  require (negb (is_empty (string_bytes value) || (maximum <? string_len value) || contains_byte 0 value))
    (packet_error field "text is empty, oversized, or contains NUL").

Definition validate_digest (field value : string) : result FrameError unit :=
  require ((string_len value =? 64) && lower_hex_text value)
    (packet_error field "must be a lower-case 32-byte hex digest").

Definition validate_credential_environment (field value : string) : result FrameError unit :=
  require (environment_name value) (packet_error field "must be a valid upper-case environment name").

(** ** The checks, in their order *)

Definition positive_field (field_value : string * Z) : result FrameError unit :=
  require (negb (snd field_value <=? 0)) (packet_error (fst field_value) "must be greater than zero").

Definition positive_when_present (field_value : string * option Z) : result FrameError unit :=
  match snd field_value with
  | Some value => require (negb (value <=? 0))
      (packet_error (fst field_value) "must be greater than zero when present")
  | None => Ok tt
  end.

Definition validate_identity (p : AssignmentPacketWireV2) (allow_empty_digest : bool) : result FrameError unit :=
  for_each positive_field [
    ("campaign_id", apw_campaign_id p); ("assignment_id", apw_assignment_id p);
    ("application_revision_id", apw_application_revision_id p);
    ("system_prompt_artifact_id", apw_system_prompt_artifact_id p);
    ("assignment_prompt_artifact_id", apw_assignment_prompt_artifact_id p);
    ("required_read_manifest_artifact_id", apw_required_read_manifest_artifact_id p)] ;;
  for_each positive_when_present [
    ("ticket_attempt_id", apw_ticket_attempt_id p); ("candidate_id", apw_candidate_id p)] ;;
  for_each (fun '(field, value) => validate_digest field value) [
    ("kernel_build_id", apw_kernel_build_id p);
    ("repository_base_identity", apw_repository_base_identity p);
    ("factory_base_identity", apw_factory_base_identity p);
    ("system_prompt_digest", apw_system_prompt_digest p);
    ("assignment_prompt_digest", apw_assignment_prompt_digest p);
    ("policy_digest", apw_policy_digest p);
    ("runtime.core_source_digest", arw_core_source_digest (apw_runtime p))] ;;
  if negb allow_empty_digest || negb (is_empty (string_bytes (apw_packet_digest p)))
  then validate_digest "packet_digest" (apw_packet_digest p) else Ok tt.

(** The office as the wire spells it. *)
Definition wire_shape (p : AssignmentPacketWireV2) : bool :=
  match parse_assignment_role (apw_assignment_role p) with
  | Ok role => target_shape role (some (apw_ticket_attempt_id p)) (some (apw_candidate_id p))
  | Err _ => false
  end.

Definition validate_target (p : AssignmentPacketWireV2) : result FrameError unit :=
  require (is_ok (parse_assignment_role (apw_assignment_role p))) (packet_error "office" "unknown office") ;;
  require (wire_shape p)
    (packet_error "assignment target identity" "office requires its exact durable target shape") ;;
  bounded_packet_text "target" (apw_target p) 4096 ;;
  bounded_packet_text "workspace_root" (apw_workspace_root p) 4096 ;;
  bounded_packet_text "staging_root" (apw_staging_root p) 4096.

Section wire_blake3.
Variable blake3 : list Z -> ContentDigest.

Definition validate_policy_source (p : AssignmentPacketWireV2) : result FrameError unit :=
  map_err (packet_error "system_prompt_bytes_b64") (validate_base64 (apw_system_prompt_bytes_b64 p)) ;;
  map_err (packet_error "assignment_prompt_bytes_b64") (validate_base64 (apw_assignment_prompt_bytes_b64 p)) ;;
  policy_bytes ← map_err (packet_error "policy_bytes_b64") (wire_decode_base64 (apw_policy_bytes_b64 p));
  require (negb ((apw_policy_byte_limit p =? 0) || (MAX_POLICY_ARTIFACT_BYTES <? apw_policy_byte_limit p)))
    (packet_error "policy_byte_limit" "must be positive and within the policy ceiling") ;;
  require (negb (is_empty policy_bytes || (apw_policy_byte_limit p <? Z.of_nat (length policy_bytes))))
    (packet_error "policy_bytes_b64" "source exceeds its declared byte limit") ;;
  require (negb (negb (utf8_valid policy_bytes) || has_nul policy_bytes))
    (packet_error "policy_bytes_b64" "source must be UTF-8 without NUL") ;;
  require (bool_decide (to_hex (blake3 policy_bytes) = apw_policy_digest p))
    (packet_error "policy_digest" "does not match policy source bytes") ;;
  map_err (fun e => InvalidJson "assignment packet" (FieldContract "policy_entrypoint" e))
    (policy_entrypoint_parse (apw_policy_entrypoint p)) ;;
  Ok tt.

Definition validate_session_shape (p : AssignmentPacketWireV2) : result FrameError unit :=
  let model := apw_model p in
  let limits := apw_limits p in
  require (negb (is_empty (string_bytes (amw_provider model)) || is_empty (string_bytes (amw_model_id model))))
    (packet_error "model" "provider and model_id are required") ;;
  require (is_ok (parse_thinking_level (amw_thinking_level model)))
    (packet_error "model.thinking_level" "unknown thinking level") ;;
  require (negb ((amw_context_token_limit model =? 0) || (amw_output_token_limit model =? 0)))
    (packet_error "model limits" "must be positive") ;;
  require (negb ((alw_wall_limit_millis limits =? 0) || (alw_output_byte_limit limits =? 0)
                 || (MAX_SESSION_OUTPUT_BYTES <? alw_output_byte_limit limits)))
    (packet_error "limits" "must be positive and output must fit one CAS object") ;;
  require (negb (apw_remaining_campaign_allowance_micro_usd p =? 0))
    (packet_error "remaining_campaign_allowance_micro_usd" "must be positive") ;;
  require (negb (is_empty (apw_required_reads p) || is_empty (apw_tools p)
                 || is_empty (apw_terminal_operations p)))
    (packet_error "assignment sets" "reads, tools, and terminal operations are required").

Definition validate_sets (p : AssignmentPacketWireV2) : result FrameError unit :=
  validate_unique_strings "tools" (apw_tools p) ;;
  for_each (fun tool => require (is_known_assignment_tool tool) (packet_error "tools" "unknown host tool"))
    (apw_tools p) ;;
  validate_unique_strings "model.capability_flags" (amw_capability_flags (apw_model p)) ;;
  for_each (fun flag => require (bool_decide (flag = "reasoning"))
      (bundle_fault "model.capability_flags: unknown model capability"))
    (amw_capability_flags (apw_model p)) ;;
  validate_unique_strings "terminal_operations" (apw_terminal_operations p) ;;
  for_each (fun operation => require (is_known_terminal_operation operation)
      (packet_error "terminal_operations" "unknown terminal operation"))
    (apw_terminal_operations p).

Definition validate_read (r : AssignmentReadWireV2) : result FrameError unit :=
  bounded_packet_text "required read path" (arr_path r) 4096 ;;
  validate_digest "required read digest" (arr_digest r) ;;
  bounded_packet_text "required read reason" (arr_reason r) 240.

Definition validate_evidence (e : AssignmentEvidenceWireV2) : result FrameError unit :=
  require (negb (aew_artifact_id e <=? 0))
    (packet_error "assignment_evidence.artifact_id" "is not a positive identity") ;;
  validate_digest "assignment_evidence.digest" (aew_digest e).

Definition validate_references (p : AssignmentPacketWireV2) : result FrameError unit :=
  let product := bool_decide (apw_assignment_role p = "product_research") in
  for_each_seen arr_path (packet_error "required_reads" "paths must be unique")
    (fun _ => Ok tt) validate_read [] (apw_required_reads p) ;;
  require (Z.of_nat (length (apw_assignment_evidence p)) <=? 24)
    (packet_error "assignment_evidence" "exceeds the closed evidence reference limit") ;;
  require (negb (product && negb (is_empty (apw_assignment_evidence p))))
    (packet_error "assignment_evidence" "Product has no upstream assignment evidence") ;;
  require (negb (negb product && is_empty (apw_assignment_evidence p)))
    (packet_error "assignment_evidence" "Engineering and Quality require upstream evidence") ;;
  for_each_seen aew_role (packet_error "assignment_evidence" "roles must be unique")
    (fun e => require (is_known_assignment_evidence_role (aew_role e))
       (packet_error "assignment_evidence.role" "is not a closed evidence role"))
    validate_evidence [] (apw_assignment_evidence p).

Definition validate_runtime (r : AssignmentRuntimeWireV2) : result FrameError unit :=
  bounded_packet_text "runtime.host_executable" (arw_host_executable r) 4096 ;;
  require (starts_with_byte 47 (arw_host_executable r))
    (packet_error "runtime.host_executable" "must be an absolute host path") ;;
  require ((string_len (arw_core_head r) =? 40) && lower_hex_text (arw_core_head r))
    (packet_error "runtime.core_head" "must be exactly 40 lower-case hexadecimal characters") ;;
  bounded_packet_text "runtime.rust_toolchain" (arw_rust_toolchain r) 240 ;;
  validate_credential_environment "runtime.credential_env" (arw_credential_env r).

Definition validate_assignment_packet_wire_v2 (p : AssignmentPacketWireV2) (allow_empty_digest : bool)
  : result FrameError unit :=
  require (apw_format_version p =? ASSIGNMENT_PACKET_V2_FORMAT)
    (packet_error "format_version" "unsupported packet version") ;;
  validate_identity p allow_empty_digest ;;
  validate_target p ;;
  validate_policy_source p ;;
  validate_session_shape p ;;
  validate_sets p ;;
  validate_references p ;;
  validate_runtime (apw_runtime p).

(** ** The canonical bytes and their seal *)

Context `{BundleReader} `{WireBundle.Json AssignmentPacketWireV2}.

(** The text of [json::Value]'s objects, which keep their keys sorted. *)
Definition canonical_json_value (payload : list Z) (operation : string) : result FrameError (list Z) :=
  require (utf8_valid payload) InvalidUtf8 ;;
  ok_or (rewrite_value payload) (InvalidJson operation Unreadable).

Definition canonical_assignment_packet_json_v2 (p : AssignmentPacketWireV2) : result FrameError (list Z) :=
  validate_assignment_packet_wire_v2 p true ;;
  canonical_json_value (to_string p) "assignment packet".

(** A packet with its digest replaced. *)
Definition with_packet_digest (digest : string) (p : AssignmentPacketWireV2) : AssignmentPacketWireV2 :=
  let 'Build_AssignmentPacketWireV2 v c a r b o t rb fb ta ci sp ap rr sd ad s64 a64 pd pl p64 pe w st m l rt
         reads ev tools ops allowance rev _ := p in
  Build_AssignmentPacketWireV2 v c a r b o t rb fb ta ci sp ap rr sd ad s64 a64 pd pl p64 pe w st m l rt
    reads ev tools ops allowance rev digest.

Definition unsigned_assignment_packet_digest_v2 (p : AssignmentPacketWireV2) : result FrameError ContentDigest :=
  blake3 <$> canonical_assignment_packet_json_v2 (with_packet_digest "" p).

Definition packet_fault (text : string) : FrameError := InvalidJson "assignment packet" (Because text).

Definition parse_assignment_packet_v2 (payload : list Z) : result FrameError AssignmentPacketWireV2 :=
  packet ← decode_closed_json payload "assignment packet";
  canonical ← canonical_assignment_packet_json_v2 packet;
  require (bool_decide (canonical = payload))
    (packet_fault "packet bytes are not canonical V2 JSON or contain unknown fields") ;;
  validate_assignment_packet_wire_v2 packet false ;;
  Ok packet.

Definition verify_assignment_packet_v2 (payload : list Z) (expected_digest : string)
  : result FrameError AssignmentPacketWireV2 :=
  packet ← parse_assignment_packet_v2 payload;
  computed ← unsigned_assignment_packet_digest_v2 packet;
  packet_digest ← map_err (fun e => InvalidJson "assignment packet" (FieldContract "packet_digest is invalid" e))
    (content_digest_from_str (apw_packet_digest packet));
  expected ← map_err
    (fun e => InvalidJson "assignment packet" (FieldContract "expected packet digest is invalid" e))
    (content_digest_from_str expected_digest);
  require (bool_decide (computed = packet_digest) && bool_decide (packet_digest = expected))
    (packet_fault "packet digest does not match canonical unsigned bytes") ;;
  Ok packet.

Definition decode_assignment_packet_v2 (frame : list Z) (maximum : Z)
  : result FrameError AssignmentPacketWireV2 :=
  payload ← decode_frame frame maximum;
  parse_assignment_packet_v2 payload.
End wire_blake3.
