(* ===== verification/ProcessReads.v ===== *)
(** The read-only queries of the process authority: the running campaign, its
    status and product identity, the sessions' costs and their aggregates, and
    the sessions a restarted daemon must recover ([ProcessStore] of
    [crates/factory-kernel/src/process.rs]). *)
From S2P Require Import Prelude Values Database ProcessStore.

(** * Campaigns *)

Inductive CampaignState := Running | Completed | Failed | Cancelled.

#[global] Instance CampaignState_eq_dec : EqDecision CampaignState.
Proof. solve_decision. Defined.

Definition campaign_state_from_code (value : Z) : result ProcessError CampaignState :=
  if value =? 0 then Ok Running
  else if value =? 1 then Ok Completed
  else if value =? 2 then Ok Failed
  else if value =? 3 then Ok Cancelled
  else Err CorruptLifecycleColumn.

(** [ORDER BY id ASC LIMIT 2]: more than one row fails. *)
Definition current_running_campaign_id (db : Database) : result ProcessError (option Z) :=
  match firstn 2 (order_by (fun row => [row.1])
          (rows_where (fun _ c => cmp_lifecycle c =? CAMPAIGN_RUNNING) (campaigns db))) with
  | [] => Ok None
  | [(id, _)] => id ← new_id "campaign ID" id; Ok (Some id)
  | values => Err (RunningCampaignCardinality (Z.of_nat (length values)))
  end.

Definition product_assignment (campaign_id : Z) (_ : Z) (a : AssignmentRow) : bool :=
  (ai_campaign_id (as_identity a) =? campaign_id) && (ai_assignment_role (as_identity a) =? 0).

Definition product_assignment_count (db : Database) (campaign_id : Z) : result ProcessError Z :=
  let count := count_where (product_assignment campaign_id) (assignments db) in
  require (count <=? u32_max) (InvalidProcessCommand "product assignment count") ;;
  Ok count.

Record CampaignStatus := {
  cs_campaign_id : Z;
  cs_state : CampaignState;
  cs_kernel_build_id : ContentDigest;
  cs_application_revision_id : Z;
  cs_repository_id : Z;
  cs_aggregate_budget : Z;
  cs_measured_cost : TerminalCostV2;
  cs_revision : Z;
  cs_deadline_unix_millis : Z;
  cs_delivery_target : Z;
  cs_failure_reason : option string;
}.

(** [unix_millis] is PostgreSQL's [FLOOR(EXTRACT(EPOCH FROM c.deadline) * 1000)]. *)
Definition campaign_status (unix_millis : Z -> Z) (db : Database) (campaign_id : Z)
  : result ProcessError CampaignStatus :=
  row ← ok_or (campaign_join db campaign_id) (UnknownCampaign campaign_id);
  let '(c, kb) := row in
  measured ← cost_column (cmp_measured_cost_micro_usd c);
  measured_cost ← (if cmp_cost_state c =? COST_KNOWN then Ok (Known measured)
                   else if cmp_cost_state c =? COST_UNKNOWN then Ok Unknown
                   else if cmp_cost_state c =? COST_EXCEEDED then Ok (Exceeded measured)
                   else Err CorruptCostColumn);
  state ← campaign_state_from_code (cmp_lifecycle c);
  digest ← digest_column (kb_build_digest kb);
  application ← new_id "application revision ID" (cmp_application_revision_id c);
  repository ← new_id "repository ID" (cmp_repository_id c);
  budget ← cost_column (cmp_aggregate_budget_micro_usd c);
  revision ← revision_from_sql (cmp_revision c);
  deadline ← (let millis := unix_millis (cmp_deadline c) in
              require (0 <=? millis) (InvalidProcessCommand "deadline") ;; Ok millis);
  require ((0 <=? cmp_delivery_target c) && (cmp_delivery_target c <=? u32_max))
    (InvalidProcessCommand "delivery target") ;;
  Ok {| cs_campaign_id := campaign_id; cs_state := state; cs_kernel_build_id := digest;
        cs_application_revision_id := application; cs_repository_id := repository;
        cs_aggregate_budget := budget; cs_measured_cost := measured_cost; cs_revision := revision;
        cs_deadline_unix_millis := deadline; cs_delivery_target := cmp_delivery_target c;
        cs_failure_reason := cmp_failure_reason c |}.

Record CampaignProductIdentity := {
  cp_base_commit : option string;
  cp_candidate_tree : option string;
  cp_candidate_commit : option string;
  cp_delivered_commit : option string;
  cp_delivered_factory_cost_micro_usd : option Z;
}.

(** [ORDER BY id DESC LIMIT 1] *)
Definition latest {V} (p : Z -> V -> bool) (table : gmap Z V) : option (Z * V) :=
  first_by (fun row => [- row.1]) (rows_where p table).

Definition latest_candidate (db : Database) (campaign_id : Z) : option CandidateRow :=
  '(attempt_id, _) ← latest (fun _ ta => ta_campaign_id (ta_claim ta) =? campaign_id)
    (ticket_attempts db);
  snd <$> latest (fun _ c => c_ticket_attempt_id (c_evidence c) =? attempt_id) (candidates db).

Definition latest_delivery (db : Database) (campaign_id : Z) : option DeliveryRow :=
  snd <$> latest (fun _ d => match candidates db !! dl_candidate_id d with
    | Some c => match ticket_attempts db !! c_ticket_attempt_id (c_evidence c) with
                | Some ta => ta_campaign_id (ta_claim ta) =? campaign_id
                | None => false
                end
    | None => false
    end) (deliveries db).

Definition campaign_product_identity (db : Database) (campaign_id : Z)
  : result ProcessError CampaignProductIdentity :=
  let attempt := latest (fun _ ta => ta_campaign_id (ta_claim ta) =? campaign_id)
    (ticket_attempts db) in
  let candidate := latest_candidate db campaign_id in
  let delivery := latest_delivery db campaign_id in
  cost ← transpose_map (fun d => cost_column (dl_factory_cost_micro_usd d)) delivery;
  Ok {| cp_base_commit := TicketStore.option_or ((fun c => c_base_commit (c_evidence c)) <$> candidate)
          ((fun row => ta_claimed_commit (ta_claim row.2)) <$> attempt);
        cp_candidate_tree := (fun c => c_candidate_tree (c_evidence c)) <$> candidate;
        cp_candidate_commit := c ← candidate; c_candidate_commit c;
        cp_delivered_commit := dl_resulting_commit <$> delivery;
        cp_delivered_factory_cost_micro_usd := cost |}.

(** * Sessions *)

Definition assignment_role_from_code (value : Z) : result ProcessError AssignmentRole :=
  if value =? 0 then Ok ProductResearch
  else if value =? 1 then Ok Engineering
  else if value =? 2 then Ok Quality
  else Err CorruptLifecycleColumn.

(** [db_cost] on the two nullable columns of one session row. *)
Definition session_row_cost (row : SessionRow) : result ProcessError (option TerminalCostV2) :=
  db_cost (st_cost_state <$> ses_terminal row) (t ← ses_terminal row; st_cost_micro_usd t).

Record SessionStatus := {
  sst_session_id : Z;
  sst_assignment_id : Z;
  sst_state : SessionState;
  sst_revision : Z;
  sst_cost : option TerminalCostV2;
}.

Definition session_status (db : Database) (session_id : Z) : result ProcessError SessionStatus :=
  row ← ok_or (sessions db !! session_id) (UnknownSession session_id);
  assignment ← new_id "assignment ID" (si_assignment_id (ses_identity row));
  state ← session_state_from_code (ses_lifecycle row);
  revision ← revision_from_sql (ses_revision row);
  cost ← session_row_cost row;
  Ok {| sst_session_id := session_id; sst_assignment_id := assignment; sst_state := state;
        sst_revision := revision; sst_cost := cost |}.

Record ActorConnectionIdentity := {
  aci_session_id : Z;
  aci_assignment_id : Z;
  aci_application_revision_id : Z;
  aci_campaign_id : Z;
  aci_assignment_role : AssignmentRole;
}.

(** A connection is bound only to a running session and its own packet. *)
Definition actor_connection_identity (db : Database) (session_id : Z)
    (packet : AssignmentPacketV2) : result ProcessError ActorConnectionIdentity :=
  row ← ok_or (sessions db !! session_id) (UnknownSession session_id);
  let identity := ses_identity row in
  require ((ses_lifecycle row =? SESSION_RUNNING)
           && (si_assignment_id identity =? pk_assignment_id packet)
           && (si_application_revision_id identity =? pk_application_revision_id packet)
           && (si_campaign_id identity =? pk_campaign_id packet)
           && (si_assignment_role identity =? assignment_role_code (pk_assignment_role packet)))
    PacketIdentityMismatch ;;
  Ok {| aci_session_id := session_id;
        aci_assignment_id := pk_assignment_id packet;
        aci_application_revision_id := pk_application_revision_id packet;
        aci_campaign_id := pk_campaign_id packet;
        aci_assignment_role := pk_assignment_role packet |}.

(** ** The cost aggregates *)

Record SessionCostAggregate := {
  sca_assignment_role : AssignmentRole;
  sca_model_provider : string;
  sca_model_id : string;
  sca_outcome : SessionState;
  sca_session_count : Z;
  sca_accounted_cost_micro_usd : Z;
  sca_pending_cost_session_count : Z;
  sca_unknown_cost_session_count : Z;
  sca_exceeded_cost_session_count : Z;
}.

Definition CAMPAIGN_SESSION_COST_AGGREGATE_MAXIMUM : Z := 18.

(** The [GROUP BY] columns: role, provider, model and lifecycle. *)
Definition CostGroup : Type := (Z * string * string * Z)%type.

Definition cost_group (row : SessionRow) : CostGroup :=
  let identity := ses_identity row in
  (si_assignment_role identity, model_provider (si_model identity),
   model_id (si_model identity), ses_lifecycle row).

Definition in_cost_group (campaign_id : Z) (group : CostGroup) (_ : Z) (row : SessionRow) : bool :=
  (ses_campaign_id row =? campaign_id) && bool_decide (cost_group row = group).

Definition cost_groups (db : Database) (campaign_id : Z) : list CostGroup :=
  remove_dups ((fun row => cost_group row.2) <$>
    rows_where (fun _ row => ses_campaign_id row =? campaign_id) (sessions db)).

(** [COALESCE(SUM(cost_micro_usd), 0)], a [NULL] cost adding nothing. *)
Definition accounted_cost (row : SessionRow) : Z :=
  default 0 (t ← ses_terminal row; st_cost_micro_usd t).

Definition cost_state_is (state : option Z) (row : SessionRow) : bool :=
  bool_decide (st_cost_state <$> ses_terminal row = state).

(** A [BIGINT] count read into a [u32]. *)
Definition session_count (value : Z) : result ProcessError Z :=
  if value <=? u32_max then Ok value else Err CorruptCostColumn.

Definition cost_aggregate (db : Database) (campaign_id : Z) (group : CostGroup)
  : result ProcessError SessionCostAggregate :=
  let '(role, provider, model, lifecycle) := group in
  let p := in_cost_group campaign_id group in
  let count state :=
    count_where (fun id row => p id row && cost_state_is state row) (sessions db) in
  let accounted := sum_where accounted_cost p (sessions db) in
  role ← assignment_role_from_code role;
  outcome ← session_state_from_code lifecycle;
  sessions ← session_count (count_where p (sessions db));
  accounted ← cost_column accounted;
  pending ← session_count (count None);
  unknown ← session_count (count (Some COST_UNKNOWN));
  exceeded ← session_count (count (Some COST_EXCEEDED));
  Ok {| sca_assignment_role := role; sca_model_provider := provider; sca_model_id := model;
        sca_outcome := outcome; sca_session_count := sessions;
        sca_accounted_cost_micro_usd := accounted;
        sca_pending_cost_session_count := pending;
        sca_unknown_cost_session_count := unknown;
        sca_exceeded_cost_session_count := exceeded |}.

(** [sort] is the [ORDER BY] of the groups under the database's collation.  The
    statement itself fails when a group's sum leaves [BIGINT]. *)
Definition campaign_session_cost_aggregates (sort : list CostGroup -> list CostGroup)
    (db : Database) (campaign_id : Z) : result ProcessError (list SessionCostAggregate) :=
  let groups := sort (cost_groups db campaign_id) in
  require (forallb (fun group =>
      sum_where accounted_cost (in_cost_group campaign_id group) (sessions db) <=? i64_max) groups)
    (DatabaseError "numeric_value_out_of_range") ;;
  require (Z.of_nat (length groups) <=? CAMPAIGN_SESSION_COST_AGGREGATE_MAXIMUM)
    CorruptLifecycleColumn ;;
  map_ok (cost_aggregate db campaign_id) groups.

(** * Restart recovery *)

(** A running session with what its row keeps of the dead daemon's child. *)
Record RestartRecoverySession := {
  rs_session_id : Z;
  rs_expected_session_revision : Z;
  rs_custody : ProcessCustodyV2;
  rs_packet : AssignmentPacketV2;
}.

Definition u32_column (value : Z) (field : string) : result ProcessError Z :=
  require ((0 <=? value) && (value <=? u32_max)) (InvalidProcessCommand field) ;; Ok value.

Definition model_matches (a b : ModelColumns) : bool :=
  bool_decide (model_provider a = model_provider b) && bool_decide (model_id a = model_id b)
  && (thinking_level a =? thinking_level b).

(** A price column read as [u64] and compared with the packet's. *)
Definition price_matches (packet column : Z) : result ProcessError bool :=
  (fun value => packet =? value) <$> cost_column column.

(** The price comparisons of the packet with the assignment and the session, in
    the source's order; each reads its column only when all before it agreed. *)
Fixpoint prices_match (pairs : list (Z * Z)) : result ProcessError bool :=
  match pairs with
  | [] => Ok true
  | (packet, column) :: pairs =>
      equal ← price_matches packet column;
      if equal : bool then prices_match pairs else Ok false
  end.

Definition price_pairs (packet assignment session : ModelColumns) : list (Z * Z) :=
  [(input_price packet, input_price assignment); (input_price packet, input_price session);
   (output_price packet, output_price assignment); (output_price packet, output_price session);
   (cache_read_price packet, cache_read_price assignment);
   (cache_read_price packet, cache_read_price session);
   (cache_write_price packet, cache_write_price assignment);
   (cache_write_price packet, cache_write_price session)].

(** Everything but the prices, in any order: none of it can fail. *)
Definition recovered_packet_matches (packet : AssignmentPacketV2) (packet_digest : ContentDigest)
    (build : ContentDigest) (assignment_id : Z) (s : SessionIdentity) (a : AssignmentIdentity)
  : bool :=
  (pk_assignment_id packet =? assignment_id) && (pk_campaign_id packet =? si_campaign_id s)
  && (pk_application_revision_id packet =? si_application_revision_id s)
  && bool_decide (pk_kernel_build_id packet = build)
  && bool_decide (pk_packet_digest packet = packet_digest)
  && (assignment_role_code (pk_assignment_role packet) =? ai_assignment_role a)
  && (assignment_role_code (pk_assignment_role packet) =? si_assignment_role s)
  && bool_decide (pk_target packet = ai_target a)
  && (pk_system_prompt_artifact_id packet =? ai_system_prompt_artifact_id a)
  && (pk_assignment_prompt_artifact_id packet =? ai_assignment_prompt_artifact_id a)
  && (pk_required_read_manifest_artifact_id packet =? ai_required_read_manifest_artifact_id a)
  && model_matches (pk_model packet) (ai_model a) && model_matches (pk_model packet) (si_model s).

(** [load_packet] reads the packet's object from the content-addressed store,
    checks its length against the artifact row's and verifies its digest. *)
Definition restart_recovery_session
    (load_packet : ContentDigest -> Z -> ContentDigest -> result ProcessError AssignmentPacketV2)
    (id : Z) (row : SessionRow) (a : AssignmentIdentity) (artifact : ArtifactRow)
    (kb : KernelBuildRow) : result ProcessError RestartRecoverySession :=
  let s := ses_identity row in
  session_id ← new_id "session ID" id;
  revision ← revision_from_sql (ses_revision row);
  pid ← u32_column (si_pid s) "persisted PID";
  pgid ← u32_column (si_pgid s) "persisted PGID";
  require (0 <=? si_process_started_at_unix_millis s)
    (InvalidProcessCommand "persisted process start time") ;;
  artifact_digest ← digest_column (art_digest artifact);
  packet_digest ← digest_column (ai_packet_digest a);
  packet ← load_packet artifact_digest (art_byte_length artifact) packet_digest;
  build ← digest_column (kb_build_digest kb);
  require (recovered_packet_matches packet packet_digest build (si_assignment_id s) s a)
    PacketIdentityMismatch ;;
  prices ← prices_match (price_pairs (pk_model packet) (ai_model a) (si_model s));
  require (prices && (0 <? ai_packet_artifact_id a) && (0 <? si_kernel_build_id s))
    PacketIdentityMismatch ;;
  Ok {| rs_session_id := session_id;
        rs_expected_session_revision := revision;
        rs_custody := {| pid := pid; pgid := pgid;
                         started_at_unix_millis := si_process_started_at_unix_millis s |};
        rs_packet := packet |}.

(** The joined rows of the running sessions, [ORDER BY s.id]. *)
Definition running_session_rows (db : Database)
  : list (Z * SessionRow * AssignmentIdentity * ArtifactRow * KernelBuildRow) :=
  omap (fun '(id, row) =>
    a ← assignments db !! si_assignment_id (ses_identity row);
    artifact ← artifacts db !! ai_packet_artifact_id (as_identity a);
    kb ← kernel_builds db !! si_kernel_build_id (ses_identity row);
    Some (id, row, as_identity a, artifact, kb))
    (order_by (fun row => [row.1])
      (rows_where (fun _ row => ses_lifecycle row =? SESSION_RUNNING) (sessions db))).

Definition restart_recovery_sessions
    (load_packet : ContentDigest -> Z -> ContentDigest -> result ProcessError AssignmentPacketV2)
    (db : Database) : result ProcessError (list RestartRecoverySession) :=
  map_ok (fun '(id, row, a, artifact, kb) =>
    restart_recovery_session load_packet id row a artifact kb) (running_session_rows db).
