(* ===== verification/PacketAdmission.v ===== *)
(** The packet at the process store ([crates/factory-kernel/src/process.rs]): how
    its wire form is compared with the domain packet at admission, how it is read
    back after a restart, and [create_assignment] from the packet's bytes. *)
From S2P Require Import Prelude Values Base64 Contracts Application Json WireBundle.
From S2P Require Import Cas Database ProcessStore ProcessReads Packet.

#[local] Open Scope string_scope.
#[local] Open Scope Z_scope.

(** * Names *)

Definition assignment_role_name (role : AssignmentRole) : string :=
  match role with
  | ProductResearch => "product_research"
  | Engineering => "engineering"
  | Values.Quality => "quality"
  end.

Definition thinking_name (level : ThinkingLevelV2) : string :=
  match level with
  | ThinkingNone => "none" | ThinkingLow => "low" | ThinkingMedium => "medium"
  | ThinkingHigh => "high" | ThinkingXHigh => "xhigh"
  end.

Definition thinking_code (level : ThinkingLevelV2) : Z :=
  match level with
  | ThinkingNone => 0 | ThinkingLow => 1 | ThinkingMedium => 2 | ThinkingHigh => 3 | ThinkingXHigh => 4
  end.

Definition terminal_operation_name (operation : TerminalOperationV2) : string :=
  match operation with
  | WorkComplete => "work_complete"
  | CandidateSubmit => "candidate_submit"
  | QualitySubmitReview => "quality_submit_review"
  end.

(** * The wire form against the domain packet *)

(** Lists of the same length whose elements agree in pairs. *)
Definition pairwise {A B} (agree : A -> B -> bool) (l : list A) (l' : list B) : bool :=
  Nat.eqb (length l) (length l') && forallb (fun '(a, b) => agree a b) (zip l l').

Definition same_text (a b : string) : bool := bool_decide (a = b).

Definition identity_agrees (w : AssignmentPacketWireV2) (p : Packet.AssignmentPacketV2)
    (build digest : ContentDigest) : bool :=
  (apw_campaign_id w =? pkt_campaign_id p) && (apw_assignment_id w =? pkt_assignment_id p)
  && (apw_application_revision_id w =? pkt_application_revision_id p)
  && bool_decide (build = pkt_kernel_build_id p)
  && same_text (apw_assignment_role w) (assignment_role_name (pkt_assignment_role p))
  && same_text (apw_target w) (pkt_target p)
  && bool_decide (apw_ticket_attempt_id w = pkt_ticket_attempt_id p)
  && bool_decide (apw_candidate_id w = pkt_candidate_id p)
  && (apw_system_prompt_artifact_id w =? pkt_system_prompt_artifact_id p)
  && (apw_assignment_prompt_artifact_id w =? pkt_assignment_prompt_artifact_id p)
  && (apw_required_read_manifest_artifact_id w =? pkt_required_read_manifest_artifact_id p)
  && same_text (apw_workspace_root w) (pkt_workspace_root p)
  && same_text (apw_staging_root w) (pkt_staging_root p)
  && (apw_remaining_campaign_allowance_micro_usd w =? pkt_remaining_campaign_allowance p)
  && (apw_aggregate_revision w =? pkt_revision p)
  && bool_decide (digest = pkt_packet_digest p).

Definition model_agrees (w : AssignmentModelWireV2) (m : ModelProfileV2) : bool :=
  same_text (amw_provider w) (mp_provider m) && same_text (amw_model_id w) (mp_model_id m)
  && same_text (amw_thinking_level w) (thinking_name (mp_thinking_level m))
  && (amw_context_token_limit w =? mp_context_token_limit m)
  && (amw_output_token_limit w =? mp_output_token_limit m)
  && (amw_price_input w =? mp_price_input m) && (amw_price_output w =? mp_price_output m)
  && (amw_price_cache_read w =? mp_price_cache_read m)
  && (amw_price_cache_write w =? mp_price_cache_write m)
  && pairwise (fun flag '(Reasoning) => same_text flag "reasoning")
       (amw_capability_flags w) (mp_capability_flags m).

Definition session_agrees (w : AssignmentPacketWireV2) (p : Packet.AssignmentPacketV2) : bool :=
  let r := apw_runtime w in
  let d := pkt_runtime p in
  (alw_wall_limit_millis (apw_limits w) =? sl_wall_limit (pkt_limits p))
  && (alw_output_byte_limit (apw_limits w) =? sl_output_byte_limit (pkt_limits p))
  && same_text (arw_host_executable r) (ri_host_executable d)
  && same_text (arw_core_head r) (ri_core_head d)
  && same_text (arw_core_source_digest r) (to_hex (ri_core_source_digest d))
  && same_text (arw_rust_toolchain r) (ri_rust_toolchain d).

Definition read_agrees (w : AssignmentReadWireV2) (r : ReadExactFileV2) : bool :=
  same_text (arr_path w) (rx_path r) && same_text (arr_digest w) (to_hex (rx_digest r))
  && same_text (arr_reason w) (rx_reason r).

Definition evidence_agrees (w : AssignmentEvidenceWireV2) (e : AssignmentEvidenceV2) : bool :=
  same_text (aew_role w) (wire_name (ev_role e)) && (aew_artifact_id w =? ev_artifact_id e)
  && same_text (aew_digest w) (to_hex (ev_digest e)) && (aew_byte_length w =? ev_byte_length e).

Definition packet_digest_text (value : string) : result ProcessError ContentDigest :=
  map_err (fun _ => InvalidPacketDigest) (content_digest_from_str value).

Definition policy_entrypoint_text (value : string) : result ProcessError PolicyEntrypointV2 :=
  map_err (fun _ => PacketIdentityMismatch) (policy_entrypoint_parse value).

Definition verify_wire_domain_mapping (w : AssignmentPacketWireV2) (p : Packet.AssignmentPacketV2)
  : result ProcessError unit :=
  build ← packet_digest_text (apw_kernel_build_id w);
  digest ← packet_digest_text (apw_packet_digest w);
  require (identity_agrees w p build digest) PacketIdentityMismatch ;;
  require (model_agrees (apw_model w) (pkt_model p)) PacketIdentityMismatch ;;
  require (session_agrees w p) PacketIdentityMismatch ;;
  require (same_text (arw_credential_env (apw_runtime w)) (ri_credential_env (pkt_runtime p)))
    PacketIdentityMismatch ;;
  policy_bytes ← ok_or (decode_base64 (apw_policy_bytes_b64 w)) InvalidPacketDigest;
  policy_digest ← packet_digest_text (apw_policy_digest w);
  entrypoint ← policy_entrypoint_text (apw_policy_entrypoint w);
  require (bool_decide (policy_digest = pkt_policy_digest p)
           && (apw_policy_byte_limit w =? pkt_policy_byte_limit p)
           && bool_decide (policy_bytes = pkt_policy_bytes p)
           && bool_decide (entrypoint = pkt_policy_entrypoint p)) PacketIdentityMismatch ;;
  require (pairwise read_agrees (apw_required_reads w) (pkt_required_reads p)
           && pairwise (fun name operation => same_text name (terminal_operation_name operation))
                (apw_terminal_operations w) (pkt_terminal_operations p)) PacketIdentityMismatch ;;
  require (pairwise evidence_agrees (apw_assignment_evidence w) (pkt_assignment_evidence p))
    PacketIdentityMismatch.

(** * Reading a packet back *)

(** The closed matches, whose other arm is [PacketIdentityMismatch]. *)
Definition closed {A} (r : result Detail A) : result ProcessError A :=
  map_err (fun _ => PacketIdentityMismatch) r.

(** A [?] on a [ContractError]. *)
Definition admitted {A} (r : result ContractError A) : result ProcessError A :=
  map_err ProcessStore.Contract r.

Definition all_terminal_operations : list TerminalOperationV2 :=
  [WorkComplete; CandidateSubmit; QualitySubmitReview].

Definition parse_operation (value : string) : result ProcessError TerminalOperationV2 :=
  ok_or (List.find (fun operation => same_text (terminal_operation_name operation) value)
           all_terminal_operations) PacketIdentityMismatch.

Definition read_from_wire (r : AssignmentReadWireV2) : result ContractError ReadExactFileV2 :=
  path ← repository_relative_path_parse (arr_path r);
  digest ← content_digest_from_str (arr_digest r);
  Ok {| rx_path := path; rx_digest := digest; rx_reason := arr_reason r |}.

Definition evidence_from_wire (e : AssignmentEvidenceWireV2) : result ContractError AssignmentEvidenceV2 :=
  role ← parse_wire_name (aew_role e);
  id ← identifier_new "artifact ID" (aew_artifact_id e);
  digest ← content_digest_from_str (aew_digest e);
  Ok {| ev_role := role; ev_artifact_id := id; ev_digest := digest; ev_byte_length := aew_byte_length e |}.

Definition model_from_wire (w : AssignmentModelWireV2) (level : ThinkingLevelV2)
    (flags : list ModelCapabilityV2) : ModelProfileV2 := {|
  mp_provider := amw_provider w; mp_model_id := amw_model_id w; mp_thinking_level := level;
  mp_context_token_limit := amw_context_token_limit w;
  mp_output_token_limit := amw_output_token_limit w;
  mp_price_input := amw_price_input w; mp_price_output := amw_price_output w;
  mp_price_cache_read := amw_price_cache_read w; mp_price_cache_write := amw_price_cache_write w;
  mp_capability_flags := flags |}.

Section packets.
Variable blake3 : list Z -> ContentDigest.

Definition assignment_packet_from_wire (w : AssignmentPacketWireV2)
  : result ProcessError Packet.AssignmentPacketV2 :=
  role ← closed (parse_assignment_role (apw_assignment_role w));
  level ← closed (parse_thinking_level (amw_thinking_level (apw_model w)));
  flags ← map_ok (fun flag => closed (parse_model_capability flag)) (amw_capability_flags (apw_model w));
  reads ← admitted (map_ok read_from_wire (apw_required_reads w));
  policy_bytes ← ok_or (decode_base64 (apw_policy_bytes_b64 w)) InvalidPacketDigest;
  policy_digest ← packet_digest_text (apw_policy_digest w);
  entrypoint ← policy_entrypoint_text (apw_policy_entrypoint w);
  operations ← map_ok parse_operation (apw_terminal_operations w);
  for_each (fun tool => require (is_known_assignment_tool tool) PacketIdentityMismatch) (apw_tools w) ;;
  campaign ← admitted (identifier_new "campaign ID" (apw_campaign_id w));
  assignment ← admitted (identifier_new "assignment ID" (apw_assignment_id w));
  build ← admitted (content_digest_from_str (apw_kernel_build_id w));
  application ← admitted (identifier_new "application revision ID" (apw_application_revision_id w));
  attempt ← transpose_map (fun id => admitted (identifier_new "ticket attempt ID" id)) (apw_ticket_attempt_id w);
  candidate ← transpose_map (fun id => admitted (identifier_new "candidate ID" id)) (apw_candidate_id w);
  system ← admitted (identifier_new "artifact ID" (apw_system_prompt_artifact_id w));
  prompt ← admitted (identifier_new "artifact ID" (apw_assignment_prompt_artifact_id w));
  manifest ← admitted (identifier_new "artifact ID" (apw_required_read_manifest_artifact_id w));
  workspace ← admitted (absolute_host_path_parse (apw_workspace_root w));
  staging ← admitted (absolute_host_path_parse (apw_staging_root w));
  host ← admitted (absolute_host_path_parse (arw_host_executable (apw_runtime w)));
  core ← admitted (content_digest_from_str (arw_core_source_digest (apw_runtime w)));
  evidence ← admitted (map_ok evidence_from_wire (apw_assignment_evidence w));
  digest ← admitted (content_digest_from_str (apw_packet_digest w));
  let packet := {|
    pkt_format_version := apw_format_version w; pkt_campaign_id := campaign;
    pkt_assignment_id := assignment; pkt_kernel_build_id := build;
    pkt_application_revision_id := application; pkt_assignment_role := role;
    pkt_target := apw_target w; pkt_ticket_attempt_id := attempt; pkt_candidate_id := candidate;
    pkt_system_prompt_artifact_id := system; pkt_assignment_prompt_artifact_id := prompt;
    pkt_required_read_manifest_artifact_id := manifest;
    pkt_policy_digest := policy_digest; pkt_policy_byte_limit := apw_policy_byte_limit w;
    pkt_policy_bytes := policy_bytes; pkt_policy_entrypoint := entrypoint;
    pkt_workspace_root := workspace; pkt_staging_root := staging;
    pkt_model := model_from_wire (apw_model w) level flags;
    pkt_limits := {| sl_wall_limit := alw_wall_limit_millis (apw_limits w);
                     sl_output_byte_limit := alw_output_byte_limit (apw_limits w) |};
    pkt_runtime := {| ri_host_executable := host; ri_core_head := arw_core_head (apw_runtime w);
                      ri_core_source_digest := core;
                      ri_rust_toolchain := arw_rust_toolchain (apw_runtime w);
                      ri_credential_env := arw_credential_env (apw_runtime w) |};
    pkt_required_reads := reads; pkt_assignment_evidence := evidence;
    pkt_terminal_operations := operations;
    pkt_remaining_campaign_allowance := apw_remaining_campaign_allowance_micro_usd w;
    pkt_revision := apw_aggregate_revision w; pkt_packet_digest := digest |} in
  admitted (packet_validate blake3 packet) ;;
  Ok packet.

(** * What the store keeps of a packet *)

Definition model_columns (m : ModelProfileV2) : ModelColumns := {|
  model_provider := mp_provider m; model_id := mp_model_id m;
  thinking_level := thinking_code (mp_thinking_level m);
  input_price := mp_price_input m; output_price := mp_price_output m;
  cache_read_price := mp_price_cache_read m; cache_write_price := mp_price_cache_write m |}.

Definition stored_packet (p : Packet.AssignmentPacketV2) : ProcessStore.AssignmentPacketV2 := {|
  pk_campaign_id := pkt_campaign_id p;
  pk_assignment_id := pkt_assignment_id p;
  pk_kernel_build_id := pkt_kernel_build_id p;
  pk_application_revision_id := pkt_application_revision_id p;
  pk_assignment_role := pkt_assignment_role p;
  pk_target := pkt_target p;
  pk_ticket_attempt_id := pkt_ticket_attempt_id p;
  pk_candidate_id := pkt_candidate_id p;
  pk_system_prompt_artifact_id := pkt_system_prompt_artifact_id p;
  pk_assignment_prompt_artifact_id := pkt_assignment_prompt_artifact_id p;
  pk_required_read_manifest_artifact_id := pkt_required_read_manifest_artifact_id p;
  pk_model := model_columns (pkt_model p);
  pk_context_token_limit := mp_context_token_limit (pkt_model p);
  pk_output_token_limit := mp_output_token_limit (pkt_model p);
  pk_wall_limit := sl_wall_limit (pkt_limits p);
  pk_output_byte_limit := sl_output_byte_limit (pkt_limits p);
  pk_terminal_operations := pkt_terminal_operations p;
  pk_remaining_campaign_allowance := pkt_remaining_campaign_allowance p;
  pk_packet_digest := pkt_packet_digest p |}.

Definition wire_prompts_of (w : AssignmentPacketWireV2) : WirePrompts := {|
  wire_system_prompt_artifact_id := apw_system_prompt_artifact_id w;
  wire_assignment_prompt_artifact_id := apw_assignment_prompt_artifact_id w;
  wire_system_prompt_digest := apw_system_prompt_digest w;
  wire_assignment_prompt_digest := apw_assignment_prompt_digest w;
  wire_system_prompt_bytes_b64 := apw_system_prompt_bytes_b64 w;
  wire_assignment_prompt_bytes_b64 := apw_assignment_prompt_bytes_b64 w |}.

(** * With the objects on the disk *)

Context `{BundleReader} `{WireBundle.Json AssignmentPacketWireV2}.
Variable maximum_object_bytes : Z.

Definition verified_wire (bytes : list Z) (digest : ContentDigest)
  : result ProcessError AssignmentPacketWireV2 :=
  map_err (fun _ => InvalidPacketDigest) (verify_assignment_packet_v2 blake3 bytes (to_hex digest)).

Definition packet_object (d : Disk) (digest : ContentDigest) : result ProcessError (list Z) :=
  map_err CasFailed (read_object blake3 maximum_object_bytes digest d).

Definition verify_packet_bytes (d : Disk) (p : Packet.AssignmentPacketV2) (artifact : CasArtifact)
    (canonical_packet_bytes : list Z) (expected_digest : ContentDigest) : result ProcessError unit :=
  wire ← verified_wire canonical_packet_bytes expected_digest;
  require ((apw_assignment_id wire =? pkt_assignment_id p)
           && is_ok (verify_wire_domain_mapping wire p)) PacketIdentityMismatch ;;
  bytes ← packet_object d (cas_digest artifact);
  require (bool_decide (bytes = canonical_packet_bytes)) PacketArtifactDigestMismatch.

(** [CreateAssignment] as it arrives: with its domain packet and its bytes. *)
Record PreparedAssignment := {
  pa_principal : string;
  pa_command_id : string;
  pa_expected_campaign_revision : Z;
  pa_identity : Z;
  pa_packet : Packet.AssignmentPacketV2;
  pa_packet_bytes : list Z;
  pa_packet_artifact : CasArtifact;
  pa_required_read_manifest_artifact_id : Z;
  pa_attempt_ordinal : Z;
}.

Definition stored_command (c : PreparedAssignment) : CreateAssignment := {|
  cas_principal := pa_principal c;
  cas_command_id := pa_command_id c;
  cas_expected_campaign_revision := pa_expected_campaign_revision c;
  cas_assignment_id := pa_identity c;
  cas_packet := stored_packet (pa_packet c);
  cas_packet_byte_length := Z.of_nat (length (pa_packet_bytes c));
  cas_packet_artifact := pa_packet_artifact c;
  cas_required_read_manifest_artifact_id := pa_required_read_manifest_artifact_id c;
  cas_attempt_ordinal := pa_attempt_ordinal c |}.

(** The checks of the packet before the transaction. *)
Definition admit_packet (d : Disk) (c : PreparedAssignment) : result ProcessError AssignmentPacketWireV2 :=
  let packet := pa_packet c in
  validate_command (pa_principal c) (pa_command_id c) ;;
  admitted (packet_validate blake3 packet) ;;
  wire ← verified_wire (pa_packet_bytes c) (pkt_packet_digest packet);
  require ((apw_assignment_id wire =? pa_identity c) && (pkt_assignment_id packet =? pa_identity c))
    PacketIdentityMismatch ;;
  verify_wire_domain_mapping wire packet ;;
  map_err CasFailed (verify_seal blake3 maximum_object_bytes (cas_digest (pa_packet_artifact c)) d) ;;
  bytes ← packet_object d (cas_digest (pa_packet_artifact c));
  require (bool_decide (bytes = pa_packet_bytes c)) PacketArtifactDigestMismatch ;;
  Ok wire.

(** [create_assignment], of a command without harness compilation. *)
Definition create_prepared_assignment (d : Disk) (db : Database) (c : PreparedAssignment)
  : result ProcessError (AssignmentReceipt * Database) :=
  wire ← admit_packet d c;
  create_assignment blake3 db (wire_prompts_of wire) (stored_command c).

(** The packet of a running session after a restart, from its artifact row. *)
Definition load_packet (d : Disk) (artifact_digest : ContentDigest) (byte_length : Z)
    (packet_digest : ContentDigest) : result ProcessError Packet.AssignmentPacketV2 :=
  artifact ← map_err CasFailed (verify_seal blake3 maximum_object_bytes artifact_digest d);
  require (0 <=? byte_length) ArtifactLengthOutOfRange ;;
  require (cas_byte_length artifact =? byte_length) PacketArtifactDigestMismatch ;;
  bytes ← packet_object d artifact_digest;
  wire ← verified_wire bytes packet_digest;
  assignment_packet_from_wire wire.

Definition recovered_sessions (d : Disk) (db : Database)
  : result ProcessError (list RestartRecoverySession) :=
  restart_recovery_sessions (fun artifact length digest => stored_packet <$> load_packet d artifact length digest) db.
End packets.
