(* ===== verification/Effects.v ===== *)
(** Computations that act on the database through calls, with the rest of the
    kernel acting before each of them.

    A [World] is the database and the number of store and service calls made so
    far.  Before each call the rest of the kernel may have acted ([between]), so
    a computation is interleaved with operators, actors and other requests at
    every point where the source awaits.  [Exec] is the error monad over worlds:
    what was written before an error stays written. *)
From S2P Require Import Prelude Database.

Record World := { w_db : Database; w_calls : nat }.

Definition Exec (E A : Type) : Type := World -> World * result E A.

#[global] Instance exec_ret {E} : MRet (Exec E) := fun A a w => (w, Ok a).
#[global] Instance exec_bind {E} : MBind (Exec E) := fun A B f m w =>
  match m w with
  | (w', Ok a) => f a w'
  | (w', Err e) => (w', Err e)
  end.

Definition throw {E A} (e : E) : Exec E A := fun w => (w, Err e).

(** [match m.await { Ok(a) => .., Err(e) => .. }] *)
Definition catch {E F A} (m : Exec E A) : Exec F (result E A) :=
  fun w => let '(w', r) := m w in (w', Ok r).

(** [m.await.map_err(f)?] *)
Definition embed {E F A} (f : E -> F) (m : Exec E A) : Exec F A :=
  fun w => let '(w', r) := m w in (w', map_err f r).

(** A check or a pure step of the source. *)
Definition pure_step {E A} (r : result E A) : Exec E A := fun w => (w, r).

(** [for a in l { f(a).await?; }], collecting the results. *)
Fixpoint map_exec {E A B} (f : A -> Exec E B) (l : list A) : Exec E (list B) :=
  match l with
  | [] => mret []
  | a :: l => b ← f a; bs ← map_exec f l; mret (b :: bs)
  end.

(** What acts before the call of a given number. *)
Class Interleaving := { between : nat -> Database -> Database }.

Section calls.
Context `{Interleaving}.

(** The database as the next call finds it. *)
Definition observe {E} : Exec E Database := fun w =>
  let db := between (w_calls w) (w_db w) in
  ({| w_db := db; w_calls := S (w_calls w) |}, Ok db).

Definition write_back {E} (db : Database) : Exec E unit := fun w =>
  ({| w_db := db; w_calls := w_calls w |}, Ok tt).

Definition read {E F A} (wrap : E -> F) (f : Database -> result E A) : Exec F A :=
  db ← observe;
  match f db with Ok a => mret a | Err e => throw (wrap e) end.

(** One store transaction: an error rolls back. *)
Definition transact {E F R} (wrap : E -> F) (f : Database -> result E (R * Database)) : Exec F R :=
  db ← observe;
  match f db with
  | Ok (receipt, db') => write_back db' ;; mret receipt
  | Err e => throw (wrap e)
  end.

(** A service keeps what it wrote even when it fails. *)
Definition service {E F A} (f : Database -> Database * result E A) : Exec F (result E A) :=
  db ← observe;
  let '(db', r) := f db in
  write_back db' ;; mret r.
End calls.

(** * When nothing else acts *)

Section quiet.
Context `{Interleaving} (Hbetween : forall n db, between n db = db).

Lemma observe_quiet {E} w :
  observe (E := E) w = ({| w_db := w_db w; w_calls := S (w_calls w) |}, Ok (w_db w)).
Proof. unfold observe. by rewrite Hbetween. Qed.

Lemma read_quiet {E F A} (wrap : E -> F) (f : Database -> result E A) w :
  read wrap f w = ({| w_db := w_db w; w_calls := S (w_calls w) |}, map_err wrap (f (w_db w))).
Proof.
  unfold read, mbind, exec_bind. rewrite observe_quiet. by destruct (f (w_db w)).
Qed.

Lemma read_bind_quiet {E F A B} (wrap : E -> F) (f : Database -> result E A)
    (k : A -> Exec F B) w :
  (read wrap f ≫= k) w =
    match f (w_db w) with
    | Ok a => k a {| w_db := w_db w; w_calls := S (w_calls w) |}
    | Err e => ({| w_db := w_db w; w_calls := S (w_calls w) |}, Err (wrap e))
    end.
Proof. unfold mbind, exec_bind. rewrite read_quiet. by destruct (f (w_db w)). Qed.

Lemma transact_quiet {E F R} (wrap : E -> F) (f : Database -> result E (R * Database)) w :
  transact wrap f w =
    match f (w_db w) with
    | Ok (receipt, db) => ({| w_db := db; w_calls := S (w_calls w) |}, Ok receipt)
    | Err e => ({| w_db := w_db w; w_calls := S (w_calls w) |}, Err (wrap e))
    end.
Proof.
  unfold transact, mbind, exec_bind. rewrite observe_quiet.
  by destruct (f (w_db w)) as [[receipt db]|e].
Qed.

Lemma transact_bind_quiet {E F R B} (wrap : E -> F)
    (f : Database -> result E (R * Database)) (k : R -> Exec F B) w :
  (transact wrap f ≫= k) w =
    match f (w_db w) with
    | Ok (receipt, db) => k receipt {| w_db := db; w_calls := S (w_calls w) |}
    | Err e => ({| w_db := w_db w; w_calls := S (w_calls w) |}, Err (wrap e))
    end.
Proof.
  unfold mbind at 1, exec_bind at 1. rewrite transact_quiet.
  by destruct (f (w_db w)) as [[receipt db]|e].
Qed.
End quiet.
