(* ===== verification/CampaignDriver.v ===== *)
(** The campaign driver: one bounded pass of the resident daemon, from the
    durable scheduler state to the commands and services of the next action
    ([CampaignDriver] of [crates/factory-kernel/src/campaign_driver.rs]).

    A pass is a computation over a [World] of [Effects], interleaved with
    operators, actors and other requests at every point where the source
    awaits. *)
From stdpp Require Import pretty.
From S2P Require Import Prelude Values Database Effects.
From S2P Require Import TicketStore BufferStatus Scheduler.
From S2P Require ProcessStore ProcessReads.

Definition DRIVER_PRINCIPAL : string := "factoryd-campaign-driver".
Definition MAX_PRODUCT_ASSIGNMENTS_PER_CAMPAIGN : Z := 3.

Definition product_retry_available (assignments : Z) : bool :=
  assignments <? MAX_PRODUCT_ASSIGNMENTS_PER_CAMPAIGN.

(** * Data *)

(** [DurableAssignmentTarget] of [durable_authority.rs]. *)
Inductive DurableAssignmentTarget :=
  | TargetProduct
  | TargetEngineering (ticket_attempt_id : Z)
  | TargetQuality (ticket_attempt_id candidate_id : Z).

(** [AssignmentMaterializationRequest] of [assignment_runtime.rs]; the
    credential value, which nothing durable may hold, is left out. *)
Record AssignmentMaterializationRequest := {
  amr_principal : string;
  amr_command_id : string;
  amr_expected_campaign_revision : Z;
  amr_campaign_id : Z;
  amr_application_revision_id : Z;
  amr_target : DurableAssignmentTarget;
}.

(** [AssignmentLaunchOutcome], with the session's terminal receipt. *)
Record AssignmentLaunchOutcome := {
  alo_assignment_id : Z;
  alo_assignment_revision : Z;
  alo_terminal : ProcessStore.TerminalReceipt;
}.

(** [DeliverAcceptedCandidate] of [durable_authority.rs]. *)
Record DeliverAcceptedCandidate := {
  dac_principal : string;
  dac_command_id : string;
  dac_candidate_id : Z;
}.

Inductive CampaignDriverOutcome :=
  | NoRunningCampaign
  | Assignment (outcome : AssignmentLaunchOutcome)
  | DriverCampaignFailed (campaign_id : Z) (failure_detail : string)
  | ProductRetryScheduled (campaign_id : Z)
  | EngineeringRetryScheduled (campaign_id ticket_attempt_id : Z)
  | TicketAttemptFailed (campaign_id ticket_attempt_id : Z) (failure_detail : string)
  | QualityRetryScheduled (campaign_id ticket_attempt_id : Z)
  | ClaimSettled (receipt : ClaimTicketReceipt)
  | HardValidationResumed
  | CandidateCommitAttached
  | DriverDelivered
  | DriverCampaignCompleted (campaign_id revision : Z)
  | DriverAwaitingArchitect (campaign_id proposed_count : Z)
  | DriverIdle (campaign_id : Z)
  | DriverBlocked (constraint : SchedulerConstraint).

(** [Panicked] is Rust's panic: the pass ends without a result. *)
Inductive CampaignDriverError :=
  | TicketFailure (e : StoreError)
  | ProcessFailure (e : ProcessStore.ProcessError)
  | Durable (detail : string)
  | CredentialUnavailable (name detail : string)
  | Panicked.

(** * The components a pass calls

    Each acts on the database and reports a value or the text of its error. *)

Class DriverServices := {
  driver_interleaving :: Interleaving;
  unix_millis : Z -> Z;
  debug_format : string -> string;
  credential_environment : string;
  credential_lookup : string -> result string string;
  requalify_sponsored_ticket :
    Database -> ClaimReadyTicketAction -> Database * result string CurrentHeadRequalification;
  resume_hard_validation : Database -> DownstreamActionContext -> Database * result string unit;
  resume_candidate_commit_attach :
    Database -> DownstreamActionContext -> Database * result string unit;
  deliver_accepted_candidate :
    Database -> DeliverAcceptedCandidate -> Database * result string unit;
  materialize_and_launch_assignment :
    Database -> AssignmentMaterializationRequest -> Database * result string AssignmentLaunchOutcome;
}.

(** * Passes *)

Abbreviation Pass := (Exec CampaignDriverError).

(** * Text *)

(** Whether a byte is not a UTF-8 continuation byte. *)
Definition is_char_start (b : Z) : bool := (b <? 128) || (192 <=? b).

(** [String::truncate], which panics inside a character. *)
Definition truncate (n : nat) (s : string) : option string :=
  match string_bytes s !! n with
  | None => Some s
  | Some b => if is_char_start b then Some (String.substring 0 n s) else None
  end.

Definition failure_text (action detail : string) : string :=
  "daemon " +:+ action +:+ " assignment fault: " +:+ detail.

Definition failure_reason (action detail : string) : option string :=
  truncate 240 (failure_text action detail).

Definition engineering_terminal_retryable (state : ProcessStore.SessionState)
    (cost : ProcessStore.TerminalCostV2) : bool :=
  match state with
  | ProcessStore.SessionFailed | ProcessStore.SessionInterrupted =>
      match cost with ProcessStore.Known _ => true | _ => false end
  | _ => false
  end.

(** * Command identities *)

Definition command_id (action : string) (campaign_id revision : Z) : string :=
  "campaign-" +:+ pretty campaign_id +:+ "-" +:+ action +:+ "-r" +:+ pretty revision.

Definition assignment_command_id (action : string) (campaign_id revision : Z)
    (target : DurableAssignmentTarget) : string :=
  let base := command_id action campaign_id revision in
  match target with
  | TargetProduct => base
  | TargetEngineering attempt => base +:+ "-attempt-" +:+ pretty attempt
  | TargetQuality attempt candidate =>
      base +:+ "-attempt-" +:+ pretty attempt +:+ "-candidate-" +:+ pretty candidate
  end.

Definition ticket_claim_command_id (campaign_id campaign_revision ticket_revision_id
    ticket_revision : Z) : string :=
  command_id "claim" campaign_id campaign_revision
  +:+ "-ticket-revision-" +:+ pretty ticket_revision_id +:+ "-tr" +:+ pretty ticket_revision.

(** [DownstreamActionStage::name] *)
Definition stage_name (stage : DownstreamActionStage) : string :=
  match stage with
  | HardValidation => "hard_validation"
  | Quality => "quality"
  | CandidateCommitAttachRequired => "candidate_commit_attach_required"
  | QualityReviewRequired => "quality_review_required"
  | AwaitingArchitect => "awaiting_architect"
  | DeliverAccepted => "deliver_accepted"
  | ReworkEngineering => "rework_engineering"
  | ReworkValidation => "rework_validation"
  | ReworkQuality => "rework_quality"
  end.

Definition downstream_command_id (action : string) (context : DownstreamActionContext) : string :=
  "campaign-" +:+ action +:+ "-" +:+ stage_name (da_stage context)
  +:+ "-attempt-" +:+ pretty (da_ticket_attempt_id context)
  +:+ "-candidate-" +:+ pretty (da_candidate_id context)
  +:+ "-ar" +:+ pretty (da_ticket_attempt_revision context)
  +:+ "-cr" +:+ pretty (da_candidate_revision context).

Definition failure_command_id (ticket_attempt_id : Z) (context : TicketAttemptFailureContext)
  : string :=
  "attempt-" +:+ pretty ticket_attempt_id +:+ "-fault-ar" +:+ pretty (tf_attempt_revision context)
  +:+ "-tr" +:+ pretty (tf_ticket_revision context).

Definition engineering_retry_command_id (ticket_attempt_id attempt_revision ticket_revision : Z)
  : string :=
  "attempt-" +:+ pretty ticket_attempt_id +:+ "-engineering-retry-ar" +:+ pretty attempt_revision
  +:+ "-tr" +:+ pretty ticket_revision.

Definition quality_retry_command_id (ticket_attempt_id candidate_id : Z)
    (context : TicketAttemptFailureContext) : string :=
  "attempt-" +:+ pretty ticket_attempt_id +:+ "-candidate-" +:+ pretty candidate_id
  +:+ "-quality-retry-ar" +:+ pretty (tf_attempt_revision context)
  +:+ "-tr" +:+ pretty (tf_ticket_revision context).

Section driver.
Variable blake3 : list Z -> ContentDigest.
Context `{DriverServices}.

(** * Calls *)

Definition durable {A} (f : Database -> Database * result string A) : Pass A :=
  r ← service f;
  match r with Ok a => mret a | Err detail => throw (Durable detail) end.

Definition reason_or_panic (action detail : string) : Pass string :=
  match failure_reason action detail with
  | Some reason => mret reason
  | None => throw Panicked
  end.

(** * Failure handling *)

Definition fail_running_campaign (campaign_id : Z) (reason : string) : Pass unit :=
  campaign ← read ProcessFailure (fun db => ProcessReads.campaign_status unix_millis db campaign_id);
  if negb (bool_decide (ProcessReads.cs_state campaign = ProcessReads.Running)) then mret tt
  else
    transact ProcessFailure (fun db => ProcessStore.fail_campaign blake3 db {|
      ProcessStore.fcm_principal := DRIVER_PRINCIPAL;
      ProcessStore.fcm_command_id :=
        command_id "fault" campaign_id (ProcessReads.cs_revision campaign);
      ProcessStore.fcm_expected_revision := ProcessReads.cs_revision campaign;
      ProcessStore.fcm_campaign_id := campaign_id;
      ProcessStore.fcm_reason := reason |}) ;;
    mret tt.

Definition driver_fail_ticket_attempt (ticket_attempt_id : Z) (reason : string) : Pass unit :=
  context ← read TicketFailure (fun db => failure_context db ticket_attempt_id);
  transact TicketFailure (fun db => fail_ticket_attempt blake3 db {|
    fta_principal := DRIVER_PRINCIPAL;
    fta_command_id := failure_command_id ticket_attempt_id context;
    fta_ticket_attempt_id := ticket_attempt_id;
    fta_expected_attempt_revision := tf_attempt_revision context;
    fta_expected_ticket_revision := tf_ticket_revision context;
    fta_reason := reason |}) ;;
  mret tt.

Definition driver_retry_quality_attempt (ticket_attempt_id candidate_id : Z) (reason : string)
  : Pass unit :=
  context ← read TicketFailure (fun db => failure_context db ticket_attempt_id);
  transact TicketFailure (fun db => retry_quality_attempt blake3 db {|
    rqa_principal := DRIVER_PRINCIPAL;
    rqa_command_id := quality_retry_command_id ticket_attempt_id candidate_id context;
    rqa_ticket_attempt_id := ticket_attempt_id;
    rqa_candidate_id := candidate_id;
    rqa_expected_attempt_revision := tf_attempt_revision context;
    rqa_expected_ticket_revision := tf_ticket_revision context;
    rqa_reason := reason |}) ;;
  mret tt.

Definition driver_retry_engineering_attempt
    (ticket_attempt_id attempt_revision ticket_revision : Z) (reason : string) : Pass unit :=
  transact TicketFailure (fun db => retry_engineering_attempt blake3 db {|
    fta_principal := DRIVER_PRINCIPAL;
    fta_command_id :=
      engineering_retry_command_id ticket_attempt_id attempt_revision ticket_revision;
    fta_ticket_attempt_id := ticket_attempt_id;
    fta_expected_attempt_revision := attempt_revision;
    fta_expected_ticket_revision := ticket_revision;
    fta_reason := reason |}) ;;
  mret tt.

Definition retry_or_fail_product (campaign_id : Z) (reason : string)
  : Pass CampaignDriverOutcome :=
  assignments ← read ProcessFailure (fun db => ProcessReads.product_assignment_count db campaign_id);
  if product_retry_available assignments then mret (ProductRetryScheduled campaign_id)
  else
    fail_running_campaign campaign_id reason ;;
    mret (DriverCampaignFailed campaign_id reason).

Definition terminalize_failed_launch (campaign_id : Z) (target : DurableAssignmentTarget)
    (reason : string) (retry_product : bool) : Pass CampaignDriverOutcome :=
  match target with
  | TargetProduct =>
      if retry_product then retry_or_fail_product campaign_id reason
      else
        fail_running_campaign campaign_id reason ;;
        mret (DriverCampaignFailed campaign_id reason)
  | TargetEngineering attempt =>
      driver_fail_ticket_attempt attempt reason ;;
      mret (TicketAttemptFailed campaign_id attempt reason)
  | TargetQuality attempt candidate =>
      retried ← catch (driver_retry_quality_attempt attempt candidate reason);
      match retried with
      | Ok _ => mret (QualityRetryScheduled campaign_id attempt)
      | Err (TicketFailure TicketAttemptNotReleasable) =>
          driver_fail_ticket_attempt attempt reason ;;
          mret (TicketAttemptFailed campaign_id attempt reason)
      | Err error => throw error
      end
  end.

(** * Launching *)

Definition product_assignment_made_progress (buffer : TicketBufferStatus) : bool :=
  (0 <? bs_proposed_count buffer) || (0 <? bs_ready_count buffer)
  || (0 <? bs_in_flight_count buffer) || bool_decide (is_Some (bs_downstream_action buffer)).

(** The resolver's value, or the text of the error it becomes. *)
Definition credential_environment_value (name : string) : result string string :=
  let unavailable detail :=
    "configured OpenRouter credential " +:+ debug_format name +:+ " is unavailable: " +:+ detail in
  match credential_lookup name with
  | Err detail => Err (unavailable detail)
  | Ok value =>
      if bool_decide (value = ""%string) then Err (unavailable "resolver returned an empty value")
      else Ok value
  end.

Definition no_proposal_reason : string := "product assignment completed without a ticket proposal".
Definition retryable_detail : string :=
  "Engineering session terminated with a known failure; scheduling one bounded retry".
Definition unsuccessful_detail : string := "session reached a non-succeeded terminal state".

(** The [match assignment] of [launch]. *)
Definition settle_launch (campaign_id : Z) (target : DurableAssignmentTarget) (action : string)
    (assignment : result string AssignmentLaunchOutcome) : Pass CampaignDriverOutcome :=
  match assignment with
  | Ok outcome =>
      let state := ProcessStore.tr_session_state (alo_terminal outcome) in
      let cost := ProcessStore.tr_cost (alo_terminal outcome) in
      let unsuccessful :=
        reason ← reason_or_panic action unsuccessful_detail;
        terminalize_failed_launch campaign_id target reason true in
      if bool_decide (state = ProcessStore.SessionSucceeded)
      then
        match target with
        | TargetProduct =>
            buffer ← read TicketFailure (fun db => ticket_buffer_status db campaign_id);
            if product_assignment_made_progress buffer then mret (Assignment outcome)
            else retry_or_fail_product campaign_id no_proposal_reason
        | _ => mret (Assignment outcome)
        end
      else
        match target with
        | TargetEngineering attempt =>
            if engineering_terminal_retryable state cost
            then
              reason ← reason_or_panic action retryable_detail;
              driver_fail_ticket_attempt attempt reason ;;
              mret (EngineeringRetryScheduled campaign_id attempt)
            else unsuccessful
        | _ => unsuccessful
        end
  | Err detail =>
      reason ← reason_or_panic action detail;
      terminalize_failed_launch campaign_id target reason false
  end.

Definition launch (campaign_id application_revision_id expected_campaign_revision : Z)
    (target : DurableAssignmentTarget) (action : string) : Pass CampaignDriverOutcome :=
  match credential_environment_value credential_environment with
  | Err detail =>
      reason ← reason_or_panic action detail;
      terminalize_failed_launch campaign_id target reason false
  | Ok _ =>
      assignment ← service (fun db => materialize_and_launch_assignment db {|
        amr_principal := DRIVER_PRINCIPAL;
        amr_command_id :=
          assignment_command_id action campaign_id expected_campaign_revision target;
        amr_expected_campaign_revision := expected_campaign_revision;
        amr_campaign_id := campaign_id;
        amr_application_revision_id := application_revision_id;
        amr_target := target |});
      settle_launch campaign_id target action assignment
  end.

(** * The scheduler's actions *)

Definition complete (action : CompleteCampaignAction) : Pass Z :=
  transact TicketFailure (fun db => complete_campaign blake3 db DRIVER_PRINCIPAL
    (command_id "complete" (cca_campaign_id action) (cca_expected_campaign_revision action))
    action).

Definition claim_then_launch (application_revision_id : Z) (action : ClaimReadyTicketAction)
  : Pass CampaignDriverOutcome :=
  requalification ← durable (fun db => requalify_sponsored_ticket db action);
  claim ← transact TicketFailure (fun db => claim_ready_ticket blake3 db DRIVER_PRINCIPAL
    (ticket_claim_command_id (cra_campaign_id action) (cra_expected_campaign_revision action)
       (sc_ticket_revision_id (cra_ticket action)) (sc_revision (cra_ticket action)))
    action requalification);
  match ctr_outcome claim with
  | Claimed attempt =>
      launch (cra_campaign_id action) application_revision_id
        (cra_expected_campaign_revision action) (TargetEngineering attempt) "engineering"
  | ClaimResolved | ClaimBlocked => mret (ClaimSettled claim)
  end.

(** The launches that reread the campaign for its revision. *)
Definition launch_current (campaign_id application_revision_id : Z)
    (target : DurableAssignmentTarget) (action : string) : Pass CampaignDriverOutcome :=
  campaign ← read ProcessFailure (fun db => ProcessReads.campaign_status unix_millis db campaign_id);
  launch (ProcessReads.cs_campaign_id campaign) application_revision_id
    (ProcessReads.cs_revision campaign) target action.

Definition continue_downstream (campaign_id application_revision_id : Z)
    (context : DownstreamActionContext) : Pass CampaignDriverOutcome :=
  let attempt := da_ticket_attempt_id context in
  let candidate := da_candidate_id context in
  match da_stage context with
  | HardValidation | ReworkValidation =>
      durable (fun db => resume_hard_validation db context) ;;
      mret HardValidationResumed
  | CandidateCommitAttachRequired =>
      attached ← service (fun db => resume_candidate_commit_attach db context);
      match attached with
      | Ok _ => mret CandidateCommitAttached
      | Err error =>
          reason ← reason_or_panic "candidate-commit-attach" error;
          driver_fail_ticket_attempt attempt reason ;;
          mret (TicketAttemptFailed campaign_id attempt reason)
      end
  | Quality | QualityReviewRequired | ReworkQuality =>
      launch_current campaign_id application_revision_id (TargetQuality attempt candidate) "quality"
  | ReworkEngineering =>
      launch_current campaign_id application_revision_id (TargetEngineering attempt)
        "rework-engineering"
  | AwaitingArchitect => mret (DriverAwaitingArchitect campaign_id 0)
  | DeliverAccepted =>
      durable (fun db => deliver_accepted_candidate db {|
        dac_principal := DRIVER_PRINCIPAL;
        dac_command_id := downstream_command_id "deliver" context;
        dac_candidate_id := candidate |}) ;;
      mret DriverDelivered
  end.

Definition execute_action (campaign_id application_revision_id : Z) (action : SchedulerNextAction)
  : Pass CampaignDriverOutcome :=
  match action with
  | NextCompleteCampaign action =>
      revision ← complete action;
      mret (DriverCampaignCompleted (cca_campaign_id action) revision)
  | ReplenishProduct campaign_id expected =>
      launch campaign_id application_revision_id expected TargetProduct "product"
  | ClaimReadyTicket action => claim_then_launch application_revision_id action
  | ContinueDownstream context =>
      continue_downstream campaign_id application_revision_id context
  | AwaitArchitectDecision campaign_id proposed => mret (DriverAwaitingArchitect campaign_id proposed)
  | Idle campaign_id => mret (DriverIdle campaign_id)
  | BlockedBy constraint => mret (DriverBlocked constraint)
  end.

(** * One pass *)

Definition engineering_retry_reason : string :=
  "retrying Engineering after a bounded assignment or protocol fault".
Definition quality_retry_reason : string :=
  "retrying the validated candidate after a Quality session fault".

Definition run_next : Pass CampaignDriverOutcome :=
  running ← read ProcessFailure ProcessReads.current_running_campaign_id;
  match running with
  | None => mret NoRunningCampaign
  | Some campaign_id =>
      campaign ← read ProcessFailure
        (fun db => ProcessReads.campaign_status unix_millis db campaign_id);
      let application := ProcessReads.cs_application_revision_id campaign in
      engineering ← read TicketFailure (fun db => recoverable_engineering_failure db campaign_id);
      match engineering with
      | Some recovery =>
          driver_retry_engineering_attempt (ef_ticket_attempt_id recovery)
            (ef_attempt_revision recovery) (ef_ticket_revision recovery)
            engineering_retry_reason ;;
          launch campaign_id application (ProcessReads.cs_revision campaign)
            (TargetEngineering (ef_ticket_attempt_id recovery)) "engineering-retry"
      | None =>
          quality ← read TicketFailure (fun db => recoverable_quality_failure db campaign_id);
          match quality with
          | Some recovery =>
              driver_retry_quality_attempt (da_ticket_attempt_id recovery)
                (da_candidate_id recovery) quality_retry_reason ;;
              continue_downstream campaign_id application recovery
          | None =>
              action ← read TicketFailure (fun db => next_action db campaign_id);
              execute_action campaign_id application action
          end
      end
  end.

(** Passes one after the other, as the resident daemon's loop makes them; the
    outcomes come out in order.  A panic ends the loop's task. *)
Fixpoint run_passes (n : nat) (w : World)
  : World * list (result CampaignDriverError CampaignDriverOutcome) :=
  match n with
  | O => (w, [])
  | S n =>
      match run_next w with
      | (w1, Err Panicked) => (w1, [Err Panicked])
      | (w1, r) => let '(w2, rs) := run_passes n w1 in (w2, r :: rs)
      end
  end.
End driver.

(** How long the loop sleeps after a pass, in milliseconds. *)
Definition FACTORYD_ASSIGNMENT_POLL_INTERVAL : Z := 250.

Definition driver_wait (r : result CampaignDriverError CampaignDriverOutcome) : Z :=
  match r with
  | Ok (NoRunningCampaign | DriverAwaitingArchitect _ _ | DriverIdle _ | DriverBlocked _) =>
      FACTORYD_ASSIGNMENT_POLL_INTERVAL
  | Ok _ => 0
  | Err _ => FACTORYD_ASSIGNMENT_POLL_INTERVAL
  end.
