(* ===== verification/ProviderEffects.v ===== *)
(** Provider effects: the start and settlement of every provider request of a
    session, the ledger they add up to ([ProcessStore] of
    [crates/factory-kernel/src/process.rs]), and the reconciliation of a
    terminal report with that ledger ([reconcile_provider_usage] of
    [session_runtime.rs]). *)
From stdpp Require Import pretty sorting.
From S2P Require Import Prelude Values Database ProcessStore.
From S2P Require TicketStore.

(** * Requests and the ledger they build *)

Inductive ProviderEffectState := EffectStarted | EffectSettled | EffectFailed | EffectCancelled.

#[global] Instance ProviderEffectState_eq_dec : EqDecision ProviderEffectState.
Proof. solve_decision. Defined.

Record SessionProviderRequestStartRequest := {
  prs_client_command_id : string;
  prs_expected_revision : Z;
  prs_core_run_id : string;
  prs_effect_id : Z;
  prs_harness_snapshot_id : string;
  prs_harness_revision_id : string;
  prs_model_harness_profile_id : string;
  prs_provider_surface_digest : string;
  prs_provider : string;
  prs_model : string;
  prs_request_fingerprint : string;
}.

Record SessionProviderRequestSettleRequest := {
  prt_client_command_id : string;
  prt_expected_revision : Z;
  prt_core_run_id : string;
  prt_effect_id : Z;
  prt_outcome : string;
  prt_stop_reason : string;
  prt_context_overflow : bool;
  prt_usage : UsageTotalsV2;
  prt_failure_class : option string;
}.

Record ProviderEffectLedger := {
  provider_effect_count : Z;
  settled_provider_effect_count : Z;
  complete_usage : bool;
  complete_cost : bool;
  ledger_usage : UsageTotalsV2;
}.

(** * Start and settlement *)

Definition provider_effect_code (state : ProviderEffectState) : Z :=
  match state with
  | EffectStarted => 0 | EffectSettled => 1 | EffectFailed => 2 | EffectCancelled => 3
  end.

Definition provider_effect_state_from_code (value : Z) : result ProcessError ProviderEffectState :=
  if value =? 0 then Ok EffectStarted
  else if value =? 1 then Ok EffectSettled
  else if value =? 2 then Ok EffectFailed
  else if value =? 3 then Ok EffectCancelled
  else Err CorruptLifecycleColumn.

Definition from_settlement (value : string) : result ProcessError ProviderEffectState :=
  if String.eqb value "settled" then Ok EffectSettled
  else if String.eqb value "failed" then Ok EffectFailed
  else if String.eqb value "cancelled" then Ok EffectCancelled
  else Err (InvalidProcessCommand "provider effect outcome").

Definition validate_provider_effect_start (r : SessionProviderRequestStartRequest)
  : result ProcessError unit :=
  for_each (fun '(field, value, maximum) =>
    require (TicketStore.bounded_text value maximum) (InvalidProcessCommand field))
    [("provider effect core run ID", prs_core_run_id r, 60);
     ("provider effect harness snapshot ID", prs_harness_snapshot_id r, 240);
     ("provider effect harness revision ID", prs_harness_revision_id r, 240);
     ("provider effect model harness profile ID", prs_model_harness_profile_id r, 240);
     ("provider effect provider", prs_provider r, 160);
     ("provider effect model", prs_model r, 240)]%string.

Definition validate_provider_effect_settlement_identity (r : SessionProviderRequestSettleRequest)
  : result ProcessError unit :=
  require (TicketStore.bounded_text (prt_core_run_id r) 60)
    (InvalidProcessCommand "provider effect core run ID").

Definition provider_effect_command_id (phase : string) (session_id assignment_id : Z)
    (core_run_id : string) (effect_id : Z) : string :=
  ("provider-effect-" ++ phase ++ "-session-" ++ pretty session_id ++ "-assignment-"
   ++ pretty assignment_id ++ "-run-" ++ core_run_id ++ "-effect-" ++ pretty effect_id)%string.

Definition require_provider_effect_command (phase : string) (session_id assignment_id : Z)
    (command_id core_run_id : string) (effect_id : Z) : result ProcessError unit :=
  require (String.eqb command_id
    (provider_effect_command_id phase session_id assignment_id core_run_id effect_id))
    (InvalidProcessCommand "provider effect client command ID") ;;
  validate_command "actor" command_id.

Definition text_in (value : string) (allowed : list string) : bool :=
  existsb (String.eqb value) allowed.

Definition provider_effect_settlement (r : SessionProviderRequestSettleRequest)
    (state : ProviderEffectState) : result ProcessError ProviderEffectSettlement :=
  require (text_in (prt_stop_reason r)
    ["stop"; "tool_use"; "length"; "aborted"; "cancelled"; "error"]%string)
    (InvalidProcessCommand "provider effect stop reason") ;;
  require (negb (bool_decide (state = EffectSettled)
                 && bool_decide (is_Some (prt_failure_class r))))
    (InvalidProcessCommand "provider effect failure class") ;;
  require (match prt_failure_class r with
           | None => true
           | Some c => text_in c ["provider_response_error"; "provider_transport_error"]%string
           end) (InvalidProcessCommand "provider effect failure class") ;;
  usage ← convert_usage (fun v => to_i64 v (InvalidProcessCommand "provider effect usage"))
    (prt_usage r);
  Ok {| ps_stop_reason := prt_stop_reason r;
        ps_context_overflow := prt_context_overflow r;
        ps_usage := usage;
        ps_failure_class := prt_failure_class r |}.

Definition provider_effect_session_matches_settlement (s : SessionRow)
    (session_id assignment_id expected_revision : Z) : result ProcessError unit :=
  require (si_assignment_id (ses_identity s) =? assignment_id) PacketIdentityMismatch ;;
  current ← revision_from_sql (ses_revision s);
  require_expected expected_revision current ;;
  require (ses_lifecycle s =? SESSION_RUNNING) (SessionAlreadyTerminal session_id).

Definition provider_effect_session_matches (s : SessionRow)
    (session_id assignment_id expected_revision : Z) (provider model : string)
  : result ProcessError unit :=
  provider_effect_session_matches_settlement s session_id assignment_id expected_revision ;;
  let m := si_model (ses_identity s) in
  require (String.eqb (model_provider m) provider && String.eqb (model_id m) model)
    PacketIdentityMismatch.

(** [WHERE session_id = $1 AND core_run_id = $2 AND effect_id = $3] *)
Definition find_effect (db : Database) (session_id : Z) (core_run_id : string) (effect_id : Z)
  : option (Z * ProviderEffectRow) :=
  match rows_where (fun _ row =>
    (pi_session_id (pe_intent row) =? session_id)
    && bool_decide (pi_core_run_id (pe_intent row) = core_run_id)
    && (pi_effect_id (pe_intent row) =? effect_id)) (provider_effects db) with
  | row :: _ => Some row
  | [] => None
  end.

(** The attribution columns a repeated start compares. *)
Definition same_attribution (a b : ProviderEffectIntent) : bool :=
  String.eqb (pi_harness_snapshot_id a) (pi_harness_snapshot_id b)
  && String.eqb (pi_harness_revision_id a) (pi_harness_revision_id b)
  && String.eqb (pi_model_harness_profile_id a) (pi_model_harness_profile_id b)
  && bool_decide (pi_provider_surface_digest a = pi_provider_surface_digest b)
  && String.eqb (pi_provider a) (pi_provider b)
  && String.eqb (pi_model a) (pi_model b)
  && bool_decide (pi_request_fingerprint a = pi_request_fingerprint b).

Definition provider_effect_start (db : Database) (session_id assignment_id : Z)
    (r : SessionProviderRequestStartRequest) : result ProcessError (ProviderEffectState * Database) :=
  validate_provider_effect_start r ;;
  require_provider_effect_command "start" session_id assignment_id (prs_client_command_id r)
    (prs_core_run_id r) (prs_effect_id r) ;;
  surface ← map_err
    (fun _ => InvalidProcessCommand "provider effect provider surface digest")
    (content_digest_from_str (prs_provider_surface_digest r));
  fingerprint ← map_err (fun _ => InvalidProcessCommand "provider effect request fingerprint")
    (content_digest_from_str (prs_request_fingerprint r));
  s ← ok_or (sessions db !! session_id) (UnknownSession session_id);
  provider_effect_session_matches s session_id assignment_id (prs_expected_revision r)
    (prs_provider r) (prs_model r) ;;
  effect_id ← to_i64 (prs_effect_id r) (InvalidProcessCommand "provider effect ID");
  let intent := {|
    pi_session_id := session_id;
    pi_assignment_id := assignment_id;
    pi_core_run_id := prs_core_run_id r;
    pi_effect_id := effect_id;
    pi_harness_snapshot_id := prs_harness_snapshot_id r;
    pi_harness_revision_id := prs_harness_revision_id r;
    pi_model_harness_profile_id := prs_model_harness_profile_id r;
    pi_provider_surface_digest := surface;
    pi_provider := prs_provider r;
    pi_model := prs_model r;
    pi_request_fingerprint := fingerprint |} in
  match find_effect db session_id (prs_core_run_id r) effect_id with
  | Some (_, existing) =>
      require (same_attribution (pe_intent existing) intent) ProviderEffectConflict ;;
      state ← provider_effect_state_from_code (pe_state existing);
      Ok (state, db)
  | None =>
      inserted ← db_result (insert_provider_effect {|
        pe_intent := intent;
        pe_state := provider_effect_code EffectStarted;
        pe_settlement := None |} db);
      Ok (EffectStarted, inserted.2)
  end.

(** The columns a repeated settlement compares. *)
Definition same_settlement (a b : ProviderEffectSettlement) : bool :=
  String.eqb (ps_stop_reason a) (ps_stop_reason b)
  && Bool.eqb (ps_context_overflow a) (ps_context_overflow b)
  && bool_decide (ps_usage a = ps_usage b)
  && bool_decide (ps_failure_class a = ps_failure_class b).

Definition provider_effect_settlement_matches (row : ProviderEffectRow)
    (settlement : ProviderEffectSettlement) (state : ProviderEffectState)
  : result ProcessError bool :=
  existing ← provider_effect_state_from_code (pe_state row);
  Ok (bool_decide (existing = state)
      && match pe_settlement row with
         | Some written => same_settlement written settlement
         | None => false
         end).

Definition settled_effect (state : ProviderEffectState) (settlement : ProviderEffectSettlement)
    (row : ProviderEffectRow) : ProviderEffectRow :=
  {| pe_intent := pe_intent row;
     pe_state := provider_effect_code state;
     pe_settlement := Some settlement |}.

Definition provider_effect_settle (db : Database) (session_id assignment_id : Z)
    (r : SessionProviderRequestSettleRequest)
  : result ProcessError (ProviderEffectState * Database) :=
  validate_provider_effect_settlement_identity r ;;
  require_provider_effect_command "settle" session_id assignment_id (prt_client_command_id r)
    (prt_core_run_id r) (prt_effect_id r) ;;
  state ← from_settlement (prt_outcome r);
  settlement ← provider_effect_settlement r state;
  s ← ok_or (sessions db !! session_id) (UnknownSession session_id);
  provider_effect_session_matches_settlement s session_id assignment_id
    (prt_expected_revision r) ;;
  effect_id ← to_i64 (prt_effect_id r) (InvalidProcessCommand "provider effect ID");
  found ← ok_or (find_effect db session_id (prt_core_run_id r) effect_id) ProviderEffectNotStarted;
  let '(id, existing) := found in
  existing_state ← provider_effect_state_from_code (pe_state existing);
  if bool_decide (existing_state = EffectStarted)
  then Ok (state, set_provider_effects
         (<[id := settled_effect state settlement existing]> (provider_effects db)) db)
  else matches ← provider_effect_settlement_matches existing settlement state;
       if (matches : bool) then Ok (existing_state, db) else Err ProviderEffectConflict.

(** ** The ledger of one session *)

Record ProviderEffectLedgerRow := {
  lr_state : ProviderEffectState;
  lr_usage : UsageTotalsV2;
}.

Definition provider_effect_ledger_row (row : ProviderEffectRow)
  : result ProcessError ProviderEffectLedgerRow :=
  state ← provider_effect_state_from_code (pe_state row);
  usage ← convert_usage cost_column
    (match pe_settlement row with Some s => ps_usage s | None => no_usage end);
  Ok {| lr_state := state; lr_usage := usage |}.

(** The [try_fold] from [total]: [None] absorbs, overflow fails. *)
Fixpoint sum_usage (total : option Z) (values : list (option Z))
  : result ProcessError (option Z) :=
  match values with
  | [] => Ok total
  | value :: values =>
      total ← match total, value with
              | Some t, Some v =>
                  Some <$> ok_or (checked_add_u64 t v)
                    (InvalidProcessCommand "provider effect usage aggregate")
              | _, _ => Ok None
              end;
      sum_usage total values
  end.

Definition sum_column (column : UsageTotalsV2 -> option Z) (rows : list ProviderEffectLedgerRow)
  : result ProcessError (option Z) :=
  sum_usage (Some 0) ((fun row => column (lr_usage row)) <$> rows).

Definition to_u32 (value : Z) (e : ProcessError) : result ProcessError Z :=
  if value <=? u32_max then Ok value else Err e.

Definition is_complete (o : option Z) : bool := match o with Some _ => true | None => false end.

Definition provider_effect_ledger_from_rows (rows : list ProviderEffectLedgerRow)
  : result ProcessError ProviderEffectLedger :=
  let settled := forallb (fun row => bool_decide (lr_state row = EffectSettled)) rows in
  input ← sum_column u_input_tokens rows;
  output ← sum_column u_output_tokens rows;
  cache_read ← sum_column u_cache_read_tokens rows;
  cache_write ← sum_column u_cache_write_tokens rows;
  reasoning ← sum_column u_reasoning_tokens rows;
  cost ← sum_column u_reported_cost_micro_usd rows;
  count ← to_u32 (Z.of_nat (length rows)) (InvalidProcessCommand "provider effect count");
  settled_count ← to_u32 (Z.of_nat (length (List.filter (fun row =>
      negb (bool_decide (lr_state row = EffectStarted))) rows)))
    (InvalidProcessCommand "settled provider effect count");
  let when_settled (o : option Z) := if settled then o else None in
  Ok {| provider_effect_count := count;
        settled_provider_effect_count := settled_count;
        complete_usage := settled && is_complete input && is_complete output
          && is_complete cache_read && is_complete cache_write && is_complete reasoning;
        complete_cost := settled && is_complete cost;
        ledger_usage := {|
          u_input_tokens := when_settled input;
          u_output_tokens := when_settled output;
          u_cache_read_tokens := when_settled cache_read;
          u_cache_write_tokens := when_settled cache_write;
          u_reasoning_tokens := when_settled reasoning;
          u_reported_cost_micro_usd := when_settled cost |} |}.

(** [ORDER BY id ASC] *)
Definition by_id {V} (a b : Z * V) : Prop := a.1 <= b.1.

#[global] Instance by_id_dec {V} (a b : Z * V) : Decision (by_id a b).
Proof. unfold by_id. apply _. Defined.

(** The session's effects in the order their rows were inserted. *)
Definition session_effects (db : Database) (session_id : Z) : list ProviderEffectRow :=
  (merge_sort by_id (rows_where (fun _ row => pi_session_id (pe_intent row) =? session_id)
     (provider_effects db))).*2.

Definition provider_effect_ledger (db : Database) (session_id : Z)
  : result ProcessError ProviderEffectLedger :=
  rows ← map_ok provider_effect_ledger_row (session_effects db session_id);
  provider_effect_ledger_from_rows rows.

(** * Reconciliation of a terminal report with the ledger *)

Inductive ReconcileError : Set := ProviderLedgerConflict.

(** A counter the host reported that differs from the ledger's. *)
Definition disagrees (reported ledger : option Z) : bool :=
  match reported with
  | Some _ => negb (bool_decide (reported = ledger))
  | None => false
  end.

Definition reconcile_provider_usage (terminal_usage : option UsageTotalsV2)
    (ledger : ProviderEffectLedger) : result ReconcileError (option UsageTotalsV2) :=
  let l := ledger_usage ledger in
  if complete_cost ledger
  then match terminal_usage with
       | Some t =>
           require (negb (disagrees (u_reported_cost_micro_usd t) (u_reported_cost_micro_usd l)))
             ProviderLedgerConflict ;;
           require (negb (disagrees (u_input_tokens t) (u_input_tokens l)
                          || disagrees (u_output_tokens t) (u_output_tokens l)
                          || disagrees (u_cache_read_tokens t) (u_cache_read_tokens l)
                          || disagrees (u_cache_write_tokens t) (u_cache_write_tokens l)
                          || disagrees (u_reasoning_tokens t) (u_reasoning_tokens l)))
             ProviderLedgerConflict
       | None => Ok tt
       end ;;
       Ok (Some l)
  else Ok ((fun u => {|
    u_input_tokens := u_input_tokens u;
    u_output_tokens := u_output_tokens u;
    u_cache_read_tokens := u_cache_read_tokens u;
    u_cache_write_tokens := u_cache_write_tokens u;
    u_reasoning_tokens := u_reasoning_tokens u;
    u_reported_cost_micro_usd := None |}) <$> terminal_usage).
