(* ===== verification/SessionRuntime.v ===== *)
(** The life of one paid session around its durable transitions: how a launched
    session starts, what ends it, and how its terminal evidence is reconciled
    with the provider ledger and committed ([launch_session] and
    [reconcile_terminal] of [crates/factory-kernel/src/session_runtime.rs]).

    The child process, its socket and its files are not modelled: what they
    produce is a [SessionServices] the definitions take. *)
From stdpp Require Import pretty.
From S2P Require Import Prelude Values Base64 Database ProcessStore ProviderEffects.

Definition KERNEL_PRINCIPAL : string := "factoryd-assignment".

(** * What ends a session *)

Inductive ProcessStopReason :=
  | ProcessExit | ProcessNonZeroExit | ProcessCancelled | ProcessDeadline | StdoutLimit | StderrLimit.

#[global] Instance ProcessStopReason_eq_dec : EqDecision ProcessStopReason.
Proof. solve_decision. Defined.

Inductive SessionTransportStop := ProcessExited | PeerDisconnected | TransportFailed.

#[global] Instance SessionTransportStop_eq_dec : EqDecision SessionTransportStop.
Proof. solve_decision. Defined.

Record SupervisedProcessOutcome := {
  spo_reason : ProcessStopReason;
  spo_exit_code : option Z;
  spo_signal : option Z;
  spo_stdout_bytes : Z;
  spo_stderr_bytes : Z;
}.

Definition infrastructure_stop_reason (process : ProcessStopReason)
    (transport : SessionTransportStop) : StopReasonV2 :=
  if bool_decide (transport = TransportFailed) then ProtocolError
  else if bool_decide (process = ProcessCancelled) then Cancelled
  else if bool_decide (transport = PeerDisconnected) then DaemonDisconnected
  else match process with
       | ProcessExit => ProtocolError
       | ProcessNonZeroExit => NonZeroExit
       | ProcessCancelled => Cancelled
       | ProcessDeadline => Deadline
       | StdoutLimit | StderrLimit => OutputLimit
       end.

Definition process_reason_code (reason : ProcessStopReason) : Z :=
  match reason with
  | ProcessExit => 0 | ProcessNonZeroExit => 1 | ProcessCancelled => 2 | ProcessDeadline => 3
  | StdoutLimit => 4 | StderrLimit => 5
  end.

Definition transport_code (transport : SessionTransportStop) : Z :=
  match transport with ProcessExited => 0 | PeerDisconnected => 1 | TransportFailed => 2 end.

Definition i32_min : Z := - 2 ^ 31.

Definition infrastructure_preimage (process : SupervisedProcessOutcome)
    (transport : SessionTransportStop) : list Z :=
  string_bytes "factory-session-infrastructure-terminal-v1" ++ [0]
  ++ be_bytes 1 (process_reason_code (spo_reason process)) ++ be_bytes 1 (transport_code transport)
  ++ be_bytes 4 (default i32_min (spo_exit_code process))
  ++ be_bytes 4 (default i32_min (spo_signal process))
  ++ be_bytes 8 (spo_stdout_bytes process) ++ be_bytes 8 (spo_stderr_bytes process).

(** * The actor's terminal proposal *)

(** The fields of [SessionSubmitTerminalRequest] the reconciliation reads. *)
Record SessionSubmitTerminalRequest := {
  sst_client_command_id : string;
  sst_terminal_operation : option string;
  sst_terminal_payload_b64 : string;
  sst_stop_reason : string;
  sst_usage : UsageTotalsV2;
}.

Definition parse_terminal_operation (value : string) : option TerminalOperationV2 :=
  if bool_decide (value = "work_complete"%string) then Some WorkComplete
  else if bool_decide (value = "candidate_submit"%string) then Some CandidateSubmit
  else if bool_decide (value = "quality_submit_review"%string) then Some QualitySubmitReview
  else None.

Definition stop_reason_names : list (string * StopReasonV2) :=
  [("completed", Completed); ("cancelled", Cancelled); ("deadline", Deadline);
   ("daemon_disconnected", DaemonDisconnected); ("nonzero_exit", NonZeroExit);
   ("output_limit", OutputLimit); ("protocol_error", ProtocolError);
   ("unknown_cost", UnknownCost); ("cost_limit", CostLimit)]%string.

Definition parse_stop_reason (value : string) : option StopReasonV2 :=
  snd <$> List.find (fun row => bool_decide (row.1 = value)) stop_reason_names.

Inductive SessionRuntimeError :=
  | SessionStore (e : ProcessError)
  | SessionService (detail : string)
  | StartFailed (e : ProcessError)
  | StartAndCleanupFailed (e : ProcessError) (detail : string)
  | InvalidTerminalContract
  | RuntimeLedgerConflict.

(** [None], a known operation, or an unknown one. *)
Definition request_operation (actor : SessionSubmitTerminalRequest)
  : result SessionRuntimeError (option TerminalOperationV2) :=
  transpose_map (fun value => ok_or (parse_terminal_operation value) InvalidTerminalContract)
    (sst_terminal_operation actor).

Section runtime.
Variable blake3 : list Z -> ContentDigest.

(** The [TerminalReportV2] of an actor's proposal. *)
Definition actor_report (packet_digest : ContentDigest) (session : SessionReceipt)
    (actor : SessionSubmitTerminalRequest) : result SessionRuntimeError TerminalReportV2 :=
  operation ← request_operation actor;
  stop_reason ← ok_or (parse_stop_reason (sst_stop_reason actor)) InvalidTerminalContract;
  payload ← map_err (fun _ => InvalidTerminalContract)
    (session_decode_base64 (sst_terminal_payload_b64 actor));
  Ok {| report_packet_digest := packet_digest;
        report_expected_session_revision := sr_resulting_revision session;
        report_operation := operation;
        report_stop_reason := stop_reason;
        report_digest := blake3 payload |}.

Definition infrastructure_report (packet_digest : ContentDigest) (session : SessionReceipt)
    (process : SupervisedProcessOutcome) (transport : SessionTransportStop) : TerminalReportV2 := {|
  report_packet_digest := packet_digest;
  report_expected_session_revision := sr_resulting_revision session;
  report_operation := None;
  report_stop_reason := infrastructure_stop_reason (spo_reason process) transport;
  report_digest := blake3 (infrastructure_preimage process transport) |}.

Definition actor_session_principal (session_id : Z) (packet : AssignmentPacketV2) : string :=
  "actor-session-" +:+ pretty session_id +:+ "-assignment-" +:+ pretty (pk_assignment_id packet)
  +:+ "-application-" +:+ pretty (pk_application_revision_id packet)
  +:+ "-campaign-" +:+ pretty (pk_campaign_id packet).

(** How the child and its transport stopped, with the actor's proposal, if any. *)
Record SessionStop := {
  stop_process : SupervisedProcessOutcome;
  stop_transport : SessionTransportStop;
  stop_proposal : option SessionSubmitTerminalRequest;
}.

(** What surrounds the durable transitions of a session.  [spawn] verifies the
    packet and starts the child; [reap] waits for a child that was not admitted;
    [admit] binds and admits the running one; [live] is its life; [seal] adopts
    its streams and read assertion; [mint] verifies the sealed evidence. *)
Class SessionServices := {
  spawn : Database -> AssignmentPacketV2 -> result string ProcessCustodyV2;
  reap : AssignmentPacketV2 -> result string unit;
  admit_session : Database -> Z -> result string unit;
  live : Database -> Z -> Database * result string SessionStop;
  seal : Database -> Z -> Database * result string unit;
  mint : Database -> Z -> option UsageTotalsV2 -> result string VerifiedTerminalEvidence;
}.
Context `{SessionServices}.

Definition fail_with {A} (db : Database) (e : SessionRuntimeError)
  : Database * result SessionRuntimeError A := (db, Err e).

(** One store command of the runtime: an error leaves the database as it was. *)
Definition session_command {A} (db : Database) (r : result ProcessError (A * Database))
  : Database * result ProcessError A :=
  match r with Ok (a, db') => (db', Ok a) | Err e => (db, Err e) end.

(** The two terminal attempts: the actor's, then the kernel's own. *)
Definition commit_terminal (db : Database) (packet : AssignmentPacketV2) (session : SessionReceipt)
    (stop : SessionStop) (evidence : VerifiedTerminalEvidence)
  : Database * result SessionRuntimeError TerminalReceipt :=
  let id := sr_session_id session in
  let infrastructure :=
    let '(db', r) := session_command db (terminal_session blake3 db "kernel"
      ("kernel-reconcile-session-" +:+ pretty id) id
      (infrastructure_report (pk_packet_digest packet) session (stop_process stop)
         (stop_transport stop)) evidence) in
    (db', map_err SessionStore r) in
  match stop_proposal stop with
  | None => infrastructure
  | Some actor =>
      match actor_report (pk_packet_digest packet) session actor with
      | Err e => fail_with db e
      | Ok report =>
          match terminal_session blake3 db (actor_session_principal id packet)
                  (sst_client_command_id actor) id report evidence with
          | Ok (receipt, db') => (db', Ok receipt)
          | Err _ => infrastructure
          end
      end
  end.

Definition reconcile_terminal (db : Database) (packet : AssignmentPacketV2)
    (session : SessionReceipt) (stop : SessionStop)
  : Database * result SessionRuntimeError TerminalReceipt :=
  let id := sr_session_id session in
  match seal db id with
  | (db, Err detail) => fail_with db (SessionService detail)
  | (db, Ok _) =>
      match provider_effect_ledger db id with
      | Err e => fail_with db (SessionStore e)
      | Ok ledger =>
          match reconcile_provider_usage (sst_usage <$> stop_proposal stop) ledger with
          | Err ProviderLedgerConflict => fail_with db RuntimeLedgerConflict
          | Ok usage =>
              match mint db id usage with
              | Err detail => fail_with db (SessionService detail)
              | Ok evidence => commit_terminal db packet session stop evidence
              end
          end
      end
  end.

Definition launch_session (db : Database) (packet : AssignmentPacketV2)
    (expected_assignment_revision : Z)
  : Database * result SessionRuntimeError (SessionReceipt * TerminalReceipt) :=
  match spawn db packet with
  | Err detail => fail_with db (SessionService detail)
  | Ok custody =>
      let start := {|
        ss_principal := KERNEL_PRINCIPAL;
        ss_command_id := "session-launch-" +:+ pretty (pk_assignment_id packet);
        ss_expected_assignment_revision := expected_assignment_revision;
        ss_assignment_id := pk_assignment_id packet;
        ss_packet_digest := pk_packet_digest packet;
        ss_custody := custody |} in
      match start_session blake3 db start with
      | Err e =>
          match reap packet with
          | Ok _ => fail_with db (StartFailed e)
          | Err cleanup => fail_with db (StartAndCleanupFailed e cleanup)
          end
      | Ok (session, db) =>
          match admit_session db (sr_session_id session) with
          | Err detail => fail_with db (SessionService detail)
          | Ok _ =>
              match live db (sr_session_id session) with
              | (db, Err detail) => fail_with db (SessionService detail)
              | (db, Ok stop) =>
                  let '(db, terminal) := reconcile_terminal db packet session stop in
                  (db, (fun receipt => (session, receipt)) <$> terminal)
              end
          end
      end
  end.
End runtime.
