(* ===== verification/AssignmentRuntime.v ===== *)
(** Materializing and launching one assignment: the durable steps between the
    driver's request and the session's terminal receipt
    ([materialize_and_launch_assignment] of
    [crates/factory-kernel/src/assignment_runtime.rs]).

    The resolver, the worktree, the application material, the compiled prompts
    and the registered artifacts reach these steps as [AssignmentServices]. *)
From S2P Require Import Prelude Values Database ProcessStore SessionRuntime.
From S2P Require Import CampaignDriver.
From S2P Require WireBundle.

Definition office_for_target (target : DurableAssignmentTarget) : AssignmentRole :=
  match target with
  | TargetProduct => ProductResearch
  | TargetEngineering _ => Engineering
  | TargetQuality _ _ => Values.Quality
  end.

Definition target_ticket_attempt (target : DurableAssignmentTarget) : option Z :=
  match target with
  | TargetProduct => None
  | TargetEngineering attempt | TargetQuality attempt _ => Some attempt
  end.

Definition target_candidate (target : DurableAssignmentTarget) : option Z :=
  match target with TargetQuality _ candidate => Some candidate | _ => None end.

Definition terminal_operations (target : DurableAssignmentTarget) : list TerminalOperationV2 :=
  match target with
  | TargetProduct => [WorkComplete]
  | TargetEngineering _ => [CandidateSubmit]
  | TargetQuality _ _ => [QualitySubmitReview]
  end.

(** [DurableAssignmentTarget::from_packet] *)
Definition target_from_packet (packet : AssignmentPacketV2) : result string DurableAssignmentTarget :=
  match pk_assignment_role packet, pk_ticket_attempt_id packet, pk_candidate_id packet with
  | ProductResearch, None, None => Ok TargetProduct
  | Engineering, Some attempt, None => Ok (TargetEngineering attempt)
  | Values.Quality, Some attempt, Some candidate => Ok (TargetQuality attempt candidate)
  | _, _, _ => Err "assignment packet has an invalid durable target shape"%string
  end.

Record CampaignMaterial := { cm_revision : Z; cm_remaining : Z; cm_kernel_build_id : ContentDigest }.

Inductive AssignmentRuntimeError :=
  | RuntimeStore (e : ProcessError)
  | RuntimeSession (e : SessionRuntimeError)
  | RuntimeApplication (detail : string)
  | RuntimeService (detail : string)
  | RuntimeContract (e : ContractError)
  | RuntimeFrame (e : WireBundle.FrameError)
  | LaunchCleanup (launch : AssignmentRuntimeError) (cleanup : string).

Definition current_campaign_material (db : Database)
    (campaign_id application_revision_id expected : Z)
  : result AssignmentRuntimeError CampaignMaterial :=
  row ← ok_or (campaign_join db campaign_id) (RuntimeStore (UnknownCampaign campaign_id));
  let '(c, kb) := row in
  require (0 <=? cmp_revision c) (RuntimeApplication "campaign revision is negative") ;;
  require ((expected =? cmp_revision c)
           && (cmp_application_revision_id c =? application_revision_id)
           && (cmp_lifecycle c =? 0) && (cmp_cost_state c =? 0))
    (RuntimeApplication "campaign changed before assignment packet construction") ;;
  require (0 <=? cmp_aggregate_budget_micro_usd c)
    (RuntimeApplication "campaign budget is corrupt") ;;
  require (0 <=? cmp_measured_cost_micro_usd c) (RuntimeApplication "campaign cost is corrupt") ;;
  require (cmp_measured_cost_micro_usd c <=? cmp_aggregate_budget_micro_usd c)
    (RuntimeApplication "campaign measured cost exceeds budget") ;;
  let remaining := cmp_aggregate_budget_micro_usd c - cmp_measured_cost_micro_usd c in
  require (negb (remaining =? 0))
    (RuntimeApplication "campaign has no remaining assignment allowance") ;;
  require (Nat.eqb (length (kb_build_digest kb)) 32)
    (RuntimeApplication "campaign kernel digest is corrupt") ;;
  Ok {| cm_revision := cmp_revision c; cm_remaining := remaining;
        cm_kernel_build_id := kb_build_digest kb |}.

(** The parts of the packet the application and the compiler decide. *)
Record PreparedPacket := {
  pp_target_text : string;
  pp_system_prompt_artifact_id : Z;
  pp_assignment_prompt_artifact_id : Z;
  pp_model : ModelColumns;
  pp_context_token_limit : Z;
  pp_output_token_limit : Z;
  pp_wall_limit : Z;
  pp_output_byte_limit : Z;
  pp_packet_digest : ContentDigest;
  pp_packet_byte_length : Z;
  pp_packet_artifact : CasArtifact;
  pp_wire : WirePrompts;
}.

(** [typed_packet] *)
Definition typed_packet (request : AssignmentMaterializationRequest) (assignment_id manifest : Z)
    (campaign : CampaignMaterial) (p : PreparedPacket) : AssignmentPacketV2 := {|
  pk_campaign_id := amr_campaign_id request;
  pk_assignment_id := assignment_id;
  pk_kernel_build_id := cm_kernel_build_id campaign;
  pk_application_revision_id := amr_application_revision_id request;
  pk_assignment_role := office_for_target (amr_target request);
  pk_target := pp_target_text p;
  pk_ticket_attempt_id := target_ticket_attempt (amr_target request);
  pk_candidate_id := target_candidate (amr_target request);
  pk_system_prompt_artifact_id := pp_system_prompt_artifact_id p;
  pk_assignment_prompt_artifact_id := pp_assignment_prompt_artifact_id p;
  pk_required_read_manifest_artifact_id := manifest;
  pk_model := pp_model p;
  pk_context_token_limit := pp_context_token_limit p;
  pk_output_token_limit := pp_output_token_limit p;
  pk_wall_limit := pp_wall_limit p;
  pk_output_byte_limit := pp_output_byte_limit p;
  pk_terminal_operations := terminal_operations (amr_target request);
  pk_remaining_campaign_allowance := cm_remaining campaign;
  pk_packet_digest := pp_packet_digest p |}.

Section launch.
Variable blake3 : list Z -> ContentDigest.
Context `{SessionServices}.

(** [reserve] is the sequence of assignment identities; [resolve] the
    pre-assignment resolver with the worktree and staging root; [manifest]
    loads the application and registers the required-read manifest; [compile]
    registers the harness, the prompts and the packet; [supervise] makes the spawn
    and supervision specifications, while others act on the database; [clean_up]
    removes the disposable resources; [describe] is [Display]. *)
Class AssignmentServices := {
  reserve : Database -> Z;
  resolve : Database -> AssignmentMaterializationRequest -> result string unit;
  manifest : Database -> AssignmentMaterializationRequest -> Database * result string Z;
  compile : Database -> AssignmentMaterializationRequest -> Z -> CampaignMaterial ->
    Database * result string PreparedPacket;
  supervise : Database -> AssignmentMaterializationRequest -> Database * result string unit;
  clean_up : Z -> result string unit;
  describe : AssignmentRuntimeError -> string;
}.
Context `{AssignmentServices}.

Definition assignment_command (request : AssignmentMaterializationRequest)
    (assignment_id manifest_id : Z) (packet : AssignmentPacketV2) (p : PreparedPacket)
  : CreateAssignment := {|
  cas_principal := amr_principal request;
  cas_command_id := amr_command_id request;
  cas_expected_campaign_revision := amr_expected_campaign_revision request;
  cas_assignment_id := assignment_id;
  cas_packet := packet;
  cas_packet_byte_length := pp_packet_byte_length p;
  cas_packet_artifact := pp_packet_artifact p;
  cas_required_read_manifest_artifact_id := manifest_id;
  cas_attempt_ordinal := assignment_id |}.

(** The body of the source's [async] block, up to the assignment's receipt. *)
Definition create_step (db : Database) (request : AssignmentMaterializationRequest)
    (assignment_id : Z)
  : Database * result AssignmentRuntimeError (AssignmentPacketV2 * AssignmentReceipt) :=
  match manifest db request with
  | (db, Err detail) => (db, Err (RuntimeService detail))
  | (db, Ok manifest_id) =>
      match current_campaign_material db (amr_campaign_id request)
              (amr_application_revision_id request) (amr_expected_campaign_revision request) with
      | Err e => (db, Err e)
      | Ok campaign =>
          match compile db request assignment_id campaign with
          | (db, Err detail) => (db, Err (RuntimeService detail))
          | (db, Ok p) =>
              let packet := typed_packet request assignment_id manifest_id campaign p in
              match create_assignment blake3 db (pp_wire p)
                      (assignment_command request assignment_id manifest_id packet p) with
              | Err e => (db, Err (RuntimeStore e))
              | Ok (receipt, db) =>
                  if ar_assignment_id receipt =? assignment_id then (db, Ok (packet, receipt))
                  else (db, Err (RuntimeApplication
                         "assignment receipt changed the reserved identity"))
              end
          end
      end
  end.

Definition launch_step (db : Database) (request : AssignmentMaterializationRequest)
    (assignment_id : Z) : Database * result AssignmentRuntimeError AssignmentLaunchOutcome :=
  match create_step db request assignment_id with
  | (db, Err e) => (db, Err e)
  | (db, Ok (packet, receipt)) =>
      match supervise db request with
      | (db, Err detail) => (db, Err (RuntimeService detail))
      | (db, Ok _) =>
          let '(db, session) := launch_session blake3 db packet (ar_resulting_revision receipt) in
          (db, match session with
               | Ok (_, terminal) => Ok {|
                   alo_assignment_id := assignment_id;
                   alo_assignment_revision := ar_resulting_revision receipt;
                   alo_terminal := terminal |}
               | Err e => Err (RuntimeSession e)
               end)
      end
  end.

(** The final [match (launch, cleanup)]. *)
Definition with_cleanup {A} (launch : result AssignmentRuntimeError A) (cleanup : result string unit)
  : result AssignmentRuntimeError A :=
  match launch, cleanup with
  | Ok a, Ok _ => Ok a
  | Err e, Ok _ => Err e
  | Ok _, Err detail => Err (RuntimeService detail)
  | Err e, Err detail => Err (LaunchCleanup e detail)
  end.

Definition materialize_and_launch (db : Database) (request : AssignmentMaterializationRequest)
  : Database * result AssignmentRuntimeError AssignmentLaunchOutcome :=
  let assignment_id := reserve db in
  if negb (assignment_id <=? u32_max)
  then (db, Err (RuntimeApplication
         "assignment identity exceeds the supported assignment ordinal range"))
  else
    match resolve db request with
    | Err detail => (db, Err (RuntimeService detail))
    | Ok _ =>
        let '(db, launch) := launch_step db request assignment_id in
        (db, with_cleanup launch (clean_up assignment_id))
    end.

(** The service the driver calls: errors are printed. *)
Definition launch_service (db : Database) (request : AssignmentMaterializationRequest)
  : Database * result string AssignmentLaunchOutcome :=
  let '(db, r) := materialize_and_launch db request in (db, map_err describe r).
End launch.
