(* ===== verification/Harness.v ===== *)
(** The harness of one assignment: the durable evidence and reads it may use, the
    compiled prompts and the inspectable specification
    ([crates/factory-protocol/src/harness.rs], [compile_harness] and its inputs in
    [crates/factory-kernel/src/assignment_runtime.rs]). *)
From stdpp Require Import pretty.
From S2P Require Import Prelude Values Contracts Application WireBundle ProcessStore.
From S2P Require Import CampaignDriver AssignmentRuntime Packet.

#[local] Open Scope string_scope.
#[local] Open Scope list_scope.
#[local] Open Scope Z_scope.

Definition HARNESS_COMPILER_VERSION_V2 : Z := 2.
Definition HARNESS_CONTEXT_REASON_MAX_BYTES : Z := 512.
Definition HARNESS_CONTEXT_MAX_ITEMS : Z := 32.

(** * The contract *)

Inductive ContextInclusionClassV2 := DirectTarget | RequiredConstraint | DirectEvidence | CurrentDecision.

Inductive ContextReferenceV2 :=
  | RefArtifact (id : Z) | RefProject (id : Z) | RefRfc (id : Z) | RefRfcRevision (id : Z)
  | RefTicket (id : Z) | RefTicketRevision (id : Z) | RefExperiment (id : Z) | RefClaim (id : Z)
  | RefDecision (id : Z) | RefOffice (id : Z).

#[global] Instance ContextInclusionClassV2_eq_dec : EqDecision ContextInclusionClassV2.
Proof. solve_decision. Defined.
#[global] Instance ContextReferenceV2_eq_dec : EqDecision ContextReferenceV2.
Proof. solve_decision. Defined.

Record ContextItemV2 := {
  ci_reference : ContextReferenceV2;
  ci_inclusion : ContextInclusionClassV2;
  ci_reason : string;
}.

#[global] Instance ContextItemV2_eq_dec : EqDecision ContextItemV2.
Proof. solve_decision. Defined.

Definition context_item_validate (item : ContextItemV2) : result ContractError unit :=
  let reason := ci_reason item in
  require (negb (is_empty (string_bytes reason) || (HARNESS_CONTEXT_REASON_MAX_BYTES <? string_len reason)
                 || contains_byte 0 reason || contains_byte 10 reason || contains_byte 13 reason))
    (InvalidValue "harness context reason" "must be one bounded nonempty line without NUL").

Record HarnessSpecV2 := {
  hs_compiler_version : Z;
  hs_application_revision_id : Z;
  hs_office_id : Z;
  hs_assignment_role : AssignmentRole;
  hs_objective : string;
  hs_context_items : list ContextItemV2;
  hs_capabilities : list ActorToolV2;
  hs_remaining_campaign_allowance : Z;
}.

Definition harness_spec_validate (s : HarnessSpecV2) : result ContractError unit :=
  require (hs_compiler_version s =? HARNESS_COMPILER_VERSION_V2)
    (InvalidValue "harness compiler version" "is not supported") ;;
  require (negb (is_empty (string_bytes (hs_objective s)) || (4096 <? string_len (hs_objective s))
                 || contains_byte 0 (hs_objective s)))
    (InvalidValue "harness objective" "must be bounded nonempty UTF-8 without NUL") ;;
  require (Z.of_nat (length (hs_context_items s)) <=? HARNESS_CONTEXT_MAX_ITEMS)
    (InvalidValue "harness context items" "exceeds the fixed context reference limit") ;;
  for_each_seen ci_reference (InvalidValue "harness context items" "must not repeat one durable reference")
    context_item_validate (fun _ => Ok tt) [] (hs_context_items s) ;;
  require (negb (is_empty (hs_capabilities s)))
    (InvalidValue "harness capabilities" "must contain at least one admitted tool") ;;
  for_each_seen (fun tool => tool) (InvalidValue "harness capabilities" "must not repeat an admitted tool")
    (fun _ => Ok tt) (fun _ => Ok tt) [] (hs_capabilities s).

(** * What the resolver hands over ([durable_authority.rs]) *)

Record EngineeringCheckpointContract := { ec_regression_command : string; ec_expected_failure : string }.

Record DurableObservationEvidence := {
  oe_stdout : SealedArtifactReferenceV2;
  oe_stderr : SealedArtifactReferenceV2;
}.

Record DurableProposalEvidence := {
  pe_proposal : SealedArtifactReferenceV2;
  pe_narrative : SealedArtifactReferenceV2;
  pe_evidence : SealedArtifactReferenceV2;
  pe_reproducer_command : SealedArtifactReferenceV2;
  pe_reproducer_stdin : option SealedArtifactReferenceV2;
  pe_expected_observation : DurableObservationEvidence;
  pe_first_observation : DurableObservationEvidence;
  pe_second_observation : DurableObservationEvidence;
}.

Record DurableCandidateEvidence := {
  ce_changed_paths : SealedArtifactReferenceV2;
  ce_regression_patch : SealedArtifactReferenceV2;
  ce_regression_command_set : SealedArtifactReferenceV2;
  ce_regression_log : SealedArtifactReferenceV2;
  ce_candidate_patch : SealedArtifactReferenceV2;
  ce_engineering_report : SealedArtifactReferenceV2;
  ce_engineering_risks : SealedArtifactReferenceV2;
  ce_hard_validation_command_set : SealedArtifactReferenceV2;
  ce_hard_validation_log : SealedArtifactReferenceV2;
  ce_prior_quality_additional_probes : option SealedArtifactReferenceV2;
  ce_prior_quality_rationale : option SealedArtifactReferenceV2;
  ce_prior_quality_risks : option SealedArtifactReferenceV2;
  ce_architect_rationale : option SealedArtifactReferenceV2;
}.

(** The part of the resolver's context the packet is made from. *)
Record DurableAssignmentLaunchContext := {
  lc_materialize_commit : string;
  lc_materialize_tree : string;
  lc_ticket_id : option Z;
  lc_ticket_revision_id : option Z;
  lc_validation_id : option Z;
  lc_engineering_checkpoint : option EngineeringCheckpointContract;
  lc_proposal : option DurableProposalEvidence;
  lc_candidate : option DurableCandidateEvidence;
  lc_application_required_reads : list RequiredReadV2;
  lc_ticket_contract_reads : list TicketContractReadV2;
}.

Definition application {A} (r : result string A) : result AssignmentRuntimeError A := map_err RuntimeApplication r.

(** * Required reads *)

(** [digest_read] is [WorkspaceReadAuthority::digest_materialized_required_read]. *)
Fixpoint first_reads (digest_read : string -> result string ContentDigest) (paths : list string)
    (values : list (string * string)) : result AssignmentRuntimeError (list ReadExactFileV2) :=
  match values with
  | [] => Ok []
  | (path, reason) :: values =>
      if bool_decide (path ∈ paths) then first_reads digest_read paths values
      else
        digest ← map_err RuntimeService (digest_read path);
        rest ← first_reads digest_read (path :: paths) values;
        Ok ({| rx_path := path; rx_digest := digest; rx_reason := reason |} :: rest)
  end.

Definition exact_required_reads (digest_read : string -> result string ContentDigest)
    (application_reads : list RequiredReadV2) (ticket_reads : list TicketContractReadV2)
  : result AssignmentRuntimeError (list ReadExactFileV2) :=
  let values := ((fun r => (req_path r, req_reason r)) <$> application_reads)
                ++ ((fun r => (read_path r, read_reason r)) <$> ticket_reads) in
  order_by (fun r => string_bytes (rx_path r)) <$> first_reads digest_read [] values.

Definition manifest_item (r : ReadExactFileV2) : list Z :=
  be_bytes 4 (string_len (rx_path r)) ++ string_bytes (rx_path r) ++ rx_digest r
  ++ be_bytes 4 (string_len (rx_reason r)) ++ string_bytes (rx_reason r).

Definition canonical_required_manifest (required : list ReadExactFileV2) : list Z :=
  string_bytes "factory-read-manifest-v1" ++ [0] ++ be_bytes 4 (Z.of_nat (length required))
  ++ concat (manifest_item <$> required).

(** * Evidence *)

Definition evidence_of (role : AssignmentEvidenceRoleV2) (r : SealedArtifactReferenceV2) : AssignmentEvidenceV2 :=
  {| ev_role := role; ev_artifact_id := artifact_id r; ev_digest := digest r; ev_byte_length := byte_length r |}.

(** [if let Some(reference) = ... { push(role, reference.clone()) }] *)
Definition evidence_if (role : AssignmentEvidenceRoleV2) (r : option SealedArtifactReferenceV2)
  : list AssignmentEvidenceV2 :=
  match r with Some r => [evidence_of role r] | None => [] end.

Definition proposal_evidence (p : DurableProposalEvidence) : list AssignmentEvidenceV2 :=
  [evidence_of TicketProposal (pe_proposal p); evidence_of TicketNarrative (pe_narrative p);
   evidence_of TicketEvidence (pe_evidence p); evidence_of ReproducerCommand (pe_reproducer_command p)]
  ++ evidence_if ReproducerStdin (pe_reproducer_stdin p)
  ++ [evidence_of ReproducerExpectedStdout (oe_stdout (pe_expected_observation p));
      evidence_of ReproducerExpectedStderr (oe_stderr (pe_expected_observation p));
      evidence_of ReproducerFirstActualStdout (oe_stdout (pe_first_observation p));
      evidence_of ReproducerFirstActualStderr (oe_stderr (pe_first_observation p));
      evidence_of ReproducerSecondActualStdout (oe_stdout (pe_second_observation p));
      evidence_of ReproducerSecondActualStderr (oe_stderr (pe_second_observation p))].

Definition candidate_evidence (c : DurableCandidateEvidence) : list AssignmentEvidenceV2 :=
  [evidence_of ChangedPaths (ce_changed_paths c); evidence_of RegressionPatch (ce_regression_patch c);
   evidence_of RegressionCommandSet (ce_regression_command_set c);
   evidence_of RegressionLog (ce_regression_log c); evidence_of CandidatePatch (ce_candidate_patch c);
   evidence_of EngineeringReport (ce_engineering_report c);
   evidence_of EngineeringRisks (ce_engineering_risks c);
   evidence_of HardValidationCommandSet (ce_hard_validation_command_set c);
   evidence_of HardValidationLog (ce_hard_validation_log c)]
  ++ evidence_if QualityAdditionalProbes (ce_prior_quality_additional_probes c)
  ++ evidence_if QualityRationale (ce_prior_quality_rationale c)
  ++ evidence_if QualityRisks (ce_prior_quality_risks c)
  ++ evidence_if ExternalDecisionRationale (ce_architect_rationale c).

(** The position of a role in the derived order. *)
Definition role_index (role : AssignmentEvidenceRoleV2) : list Z :=
  [match list_find (fun r => r = role) all_evidence_roles with Some (i, _) => Z.of_nat i | None => 0 end].

(** [windows(2)] with two equal roles. *)
Fixpoint repeats_role (l : list AssignmentEvidenceV2) : bool :=
  match l with
  | a :: ((b :: _) as l) => bool_decide (ev_role a = ev_role b) || repeats_role l
  | _ => false
  end.

Definition gathered_evidence (target : DurableAssignmentTarget) (context : DurableAssignmentLaunchContext)
  : result string (list AssignmentEvidenceV2) :=
  match target with
  | TargetProduct =>
      require (negb (some (lc_proposal context) || some (lc_candidate context)))
        "Product context unexpectedly carries external evidence" ;;
      Ok []
  | TargetEngineering _ =>
      proposal ← ok_or (lc_proposal context) "Engineering or Quality target lacks ticket proposal evidence";
      require (negb (some (lc_candidate context))) "Engineering context unexpectedly carries candidate evidence" ;;
      Ok (proposal_evidence proposal)
  | TargetQuality _ _ =>
      proposal ← ok_or (lc_proposal context) "Engineering or Quality target lacks ticket proposal evidence";
      candidate ← ok_or (lc_candidate context) "Quality target lacks candidate evidence";
      Ok (proposal_evidence proposal ++ candidate_evidence candidate)
  end.

Definition exact_assignment_evidence (target : DurableAssignmentTarget)
    (context : DurableAssignmentLaunchContext) : result AssignmentRuntimeError (list AssignmentEvidenceV2) :=
  values ← application (gathered_evidence target context);
  let values := order_by (fun e => role_index (ev_role e)) values in
  require (Z.of_nat (length values) <=? 24)
    (RuntimeApplication "assignment evidence exceeds the closed packet reference limit") ;;
  require (negb (repeats_role values))
    (RuntimeApplication "assignment evidence closure repeats a closed role") ;;
  Ok values.

(** * Target facts *)

Inductive HarnessTargetFacts :=
  | FactsProduct
  | FactsEngineering (ticket_attempt_id ticket_id ticket_revision_id : Z)
      (checkpoint : EngineeringCheckpointContract)
  | FactsQuality (ticket_attempt_id candidate_id ticket_id ticket_revision_id validation_id : Z).

Definition harness_target_facts (target : DurableAssignmentTarget) (context : DurableAssignmentLaunchContext)
  : result AssignmentRuntimeError HarnessTargetFacts :=
  application
    match target with
    | TargetProduct => Ok FactsProduct
    | TargetEngineering attempt =>
        ticket ← ok_or (lc_ticket_id context) "Engineering target lacks ticket ID";
        revision ← ok_or (lc_ticket_revision_id context) "Engineering target lacks ticket revision ID";
        checkpoint ← ok_or (lc_engineering_checkpoint context)
          "Engineering target lacks its checkpoint contract";
        Ok (FactsEngineering attempt ticket revision checkpoint)
    | TargetQuality attempt candidate =>
        ticket ← ok_or (lc_ticket_id context) "Quality target lacks ticket ID";
        revision ← ok_or (lc_ticket_revision_id context) "Quality target lacks ticket revision ID";
        validation ← ok_or (lc_validation_id context) "Quality target lacks hard validation ID";
        Ok (FactsQuality attempt candidate ticket revision validation)
    end.

(** * The target text *)

Definition LF : string := String (Ascii.ascii_of_nat 10) "".

(** The text so far, refused above the packet bound. *)
Definition within_packet (detail : string) (rendered : string) : result AssignmentRuntimeError string :=
  require (string_len rendered <=? 4096) (RuntimeApplication detail) ;; Ok rendered.

Definition profile_lines (p : CommandProfileV2) : string :=
  "- profile_name: `" +:+ cp_name p +:+ "`" +:+ LF +:+ "  command_json: "
  +:+ text_of (canonical_command_profile_json_from_domain_v2 p) +:+ LF.

Definition concat_texts (l : list string) : string := foldr String.append "" l.

Definition append_target_reproducer_profiles (rendered : string) (profiles : list CommandProfileV2)
  : result AssignmentRuntimeError string :=
  within_packet "target plus admitted reproducer profiles exceeds the packet bound"
    (rendered +:+ LF +:+ LF
     +:+ "Admitted reproducer profiles (seal the exact JSON as `reproducer.command`; put only the behavioral program in `reproducer.stdin`):" +:+ LF
     +:+ concat_texts (profile_lines <$> profiles)
     +:+ "Repair rule: after a Product submission rejection, correct only the named field and resubmit the same proposal; do not search for a new command shape." +:+ LF).

Definition evidence_line (e : AssignmentEvidenceV2) : string :=
  LF +:+ wire_name (ev_role e) +:+ " artifact_id=" +:+ pretty (ev_artifact_id e) +:+ " digest="
  +:+ to_hex (ev_digest e) +:+ " byte_length=" +:+ pretty (ev_byte_length e).

Definition append_target_evidence (rendered : string) (evidence : list AssignmentEvidenceV2)
  : result AssignmentRuntimeError string :=
  within_packet "target plus closed assignment evidence exceeds the packet bound"
    (rendered +:+ concat_texts (evidence_line <$> evidence)).

Definition read_line (r : ReadExactFileV2) : string :=
  "- `" +:+ rx_path r +:+ "`: " +:+ rx_reason r +:+ LF.

Definition append_target_required_reads (rendered : string) (reads : list ReadExactFileV2)
  : result AssignmentRuntimeError string :=
  if is_empty reads then Ok rendered
  else within_packet "target plus closed assignment evidence and required reads exceeds the packet bound"
    (rendered +:+ LF +:+ LF +:+ "Exact workspace reads required before any mutating tool:" +:+ LF
     +:+ concat_texts (read_line <$> reads)).

Definition target_name (facts : HarnessTargetFacts) : string :=
  match facts with
  | FactsProduct => "product-research"
  | FactsEngineering attempt ticket revision _ =>
      "ticket-" +:+ pretty ticket +:+ "-revision-" +:+ pretty revision +:+ "-attempt-" +:+ pretty attempt
  | FactsQuality attempt candidate ticket revision validation =>
      "ticket-" +:+ pretty ticket +:+ "-revision-" +:+ pretty revision +:+ "-attempt-" +:+ pretty attempt
      +:+ "-candidate-" +:+ pretty candidate +:+ "-validation-" +:+ pretty validation
  end.

Definition target_text (facts : HarnessTargetFacts) (evidence : list AssignmentEvidenceV2)
    (reads : list ReadExactFileV2) (profiles : list CommandProfileV2) : result AssignmentRuntimeError string :=
  rendered ← match facts with
             | FactsProduct => append_target_reproducer_profiles (target_name facts) profiles
             | _ => Ok (target_name facts)
             end;
  rendered ← append_target_evidence rendered evidence;
  append_target_required_reads rendered reads.

(** * The prompts *)

(** [BTreeMap::insert], on the entries in key order. *)
Fixpoint insert_value (name value : string) (values : TemplateValues) : TemplateValues :=
  match values with
  | [] => [(name, value)]
  | (name', value') :: values =>
      if lex_lt (string_bytes name') (string_bytes name) then (name', value') :: insert_value name value values
      else if bool_decide (name' = name) then (name, value) :: values
      else (name, value) :: (name', value') :: values
  end.

Definition values_of (entries : list (string * string)) : TemplateValues :=
  foldl (fun values entry => insert_value entry.1 entry.2 values) [] entries.

Definition prompt_values (assignment_id : Z) (target : string) (facts : HarnessTargetFacts) (mission : string)
  : TemplateValues :=
  values_of ([("ASSIGNMENT_ID", pretty assignment_id); ("MISSION", mission); ("TARGET", target)]
    ++ match facts with
       | FactsProduct => []
       | FactsEngineering _ ticket revision checkpoint =>
           [("TICKET_ID", pretty ticket); ("TICKET_REVISION_ID", pretty revision);
            ("REGRESSION_COMMAND", ec_regression_command checkpoint);
            ("REGRESSION_EXPECTED_FAILURE", ec_expected_failure checkpoint)]
       | FactsQuality _ candidate ticket revision validation =>
           [("TICKET_ID", pretty ticket); ("TICKET_REVISION_ID", pretty revision);
            ("CANDIDATE_ID", pretty candidate); ("VALIDATION_ID", pretty validation)]
       end).

(** [BTreeMap::get] *)
Definition value_at (values : TemplateValues) (name : string) : option string :=
  snd <$> List.find (fun entry => bool_decide (entry.1 = name)) values.

Definition render_declared_template (t : TemplateArtifactV2) (source : list Z) (values : TemplateValues)
  : result AssignmentRuntimeError (list Z) :=
  declared ← map_ok (fun name =>
    value ← ok_or (value_at values name)
      (RuntimeApplication ("template requires unavailable placeholder " +:+ name));
    Ok (name, value)) (ta_placeholders t);
  map_err RuntimeContract (render_template_v2 t source (values_of declared)).

(** * The compiler *)

Record ApplicationMaterial := {
  am_mission : string;
  am_reproducer_profiles : list CommandProfileV2;
  am_system_template : TemplateArtifactV2;
  am_system_source : list Z;
  am_assignment_template : TemplateArtifactV2;
  am_assignment_source : list Z;
  am_profile : AssignmentRoleProfileV2;
  am_policy_bytes : list Z;
}.

Record HarnessCompileInput := {
  hi_assignment_id : Z;
  hi_application_revision_id : Z;
  hi_office_id : Z;
  hi_assignment_role : AssignmentRole;
  hi_target_facts : HarnessTargetFacts;
  hi_assignment_evidence : list AssignmentEvidenceV2;
  hi_required_reads : list ReadExactFileV2;
  hi_required_manifest_artifact_id : Z;
  hi_remaining_campaign_allowance : Z;
  hi_application : ApplicationMaterial;
}.

Definition context_item (reference : ContextReferenceV2) (inclusion : ContextInclusionClassV2) (reason : string)
  : ContextItemV2 := {| ci_reference := reference; ci_inclusion := inclusion; ci_reason := reason |}.

Definition ticket_items (facts : HarnessTargetFacts) : list ContextItemV2 :=
  match facts with
  | FactsProduct => []
  | FactsEngineering _ ticket revision _ | FactsQuality _ _ ticket revision _ =>
      [context_item (RefTicket ticket) DirectTarget "the selected ticket is the direct assignment target";
       context_item (RefTicketRevision revision) DirectTarget
         "the selected ticket revision is the direct assignment target"]
  end.

Definition evidence_item (e : AssignmentEvidenceV2) : ContextItemV2 :=
  context_item (RefArtifact (ev_artifact_id e)) DirectEvidence ("direct " +:+ wire_name (ev_role e) +:+ " evidence").

Definition offered_items (i : HarnessCompileInput) : list ContextItemV2 :=
  context_item (RefOffice (hi_office_id i)) DirectTarget "the admitted office owns this invocation"
  :: ticket_items (hi_target_facts i)
  ++ [context_item (RefArtifact (hi_required_manifest_artifact_id i)) RequiredConstraint
        "exact workspace reads are required before mutation"]
  ++ (evidence_item <$> hi_assignment_evidence i).

(** [retain(|item| selected_references.insert(item.reference))] *)
Fixpoint first_references (selected : list ContextReferenceV2) (items : list ContextItemV2) : list ContextItemV2 :=
  match items with
  | [] => []
  | item :: items =>
      if bool_decide (ci_reference item ∈ selected) then first_references selected items
      else item :: first_references (ci_reference item :: selected) items
  end.

Record CompiledHarness := {
  ch_spec : HarnessSpecV2;
  ch_target : string;
  ch_system_prompt : list Z;
  ch_assignment_prompt : list Z;
}.

Definition compile_harness (i : HarnessCompileInput) : result AssignmentRuntimeError CompiledHarness :=
  let material := hi_application i in
  target ← target_text (hi_target_facts i) (hi_assignment_evidence i) (hi_required_reads i)
    (am_reproducer_profiles material);
  let spec := {|
    hs_compiler_version := HARNESS_COMPILER_VERSION_V2;
    hs_application_revision_id := hi_application_revision_id i;
    hs_office_id := hi_office_id i;
    hs_assignment_role := hi_assignment_role i;
    hs_objective := target;
    hs_context_items := first_references [] (offered_items i);
    hs_capabilities := rp_tools (am_profile material);
    hs_remaining_campaign_allowance := hi_remaining_campaign_allowance i |} in
  map_err RuntimeContract (harness_spec_validate spec) ;;
  let values := prompt_values (hi_assignment_id i) target (hi_target_facts i) (am_mission material) in
  system ← render_declared_template (am_system_template material) (am_system_source material) values;
  assignment ← render_declared_template (am_assignment_template material) (am_assignment_source material) values;
  Ok {| ch_spec := spec; ch_target := target; ch_system_prompt := system; ch_assignment_prompt := assignment |}.

(** * The sealed specification *)

Record HarnessContextItemWire := {
  hcw_reference_kind : string;
  hcw_reference_id : Z;
  hcw_inclusion_class : string;
  hcw_reason : string;
}.

Record HarnessSpecWire := {
  hsw_compiler_version : Z;
  hsw_application_revision_id : Z;
  hsw_office_id : Z;
  hsw_assignment_role : string;
  hsw_objective : string;
  hsw_context_items : list HarnessContextItemWire;
  hsw_capabilities : list string;
  hsw_remaining_campaign_allowance_micro_usd : Z;
}.

Definition harness_reference_parts (reference : ContextReferenceV2) : string * Z :=
  match reference with
  | RefArtifact id => ("artifact", id)
  | RefProject id => ("project", id)
  | RefRfc id => ("rfc", id)
  | RefRfcRevision id => ("rfc_revision", id)
  | RefTicket id => ("ticket", id)
  | RefTicketRevision id => ("ticket_revision", id)
  | RefExperiment id => ("experiment", id)
  | RefClaim id => ("claim", id)
  | RefDecision id => ("decision", id)
  | RefOffice id => ("office", id)
  end.

Definition harness_inclusion_name (value : ContextInclusionClassV2) : string :=
  match value with
  | DirectTarget => "direct_target"
  | RequiredConstraint => "required_constraint"
  | DirectEvidence => "direct_evidence"
  | CurrentDecision => "current_decision"
  end.

Definition office_name (role : AssignmentRole) : string :=
  match role with
  | ProductResearch => "product_research"
  | Engineering => "engineering"
  | Values.Quality => "quality"
  end.

Definition harness_item_wire (item : ContextItemV2) : HarnessContextItemWire :=
  let '(kind, id) := harness_reference_parts (ci_reference item) in
  {| hcw_reference_kind := kind; hcw_reference_id := id;
     hcw_inclusion_class := harness_inclusion_name (ci_inclusion item); hcw_reason := ci_reason item |}.

(** The DTO [canonical_harness_spec_json] hands to the JSON library. *)
Definition harness_spec_wire (s : HarnessSpecV2) : HarnessSpecWire := {|
  hsw_compiler_version := hs_compiler_version s;
  hsw_application_revision_id := hs_application_revision_id s;
  hsw_office_id := hs_office_id s;
  hsw_assignment_role := office_name (hs_assignment_role s);
  hsw_objective := hs_objective s;
  hsw_context_items := harness_item_wire <$> hs_context_items s;
  hsw_capabilities := tool_name <$> hs_capabilities s;
  hsw_remaining_campaign_allowance_micro_usd := hs_remaining_campaign_allowance s |}.
