(* ===== verification/HarnessStore.v ===== *)
(** Durable custody of harness compilations: the immutable receipt of what the
    compiler put into an assignment ([crates/factory-kernel/src/harness_store.rs]
    and [validate_harness_for_assignment] of [process.rs]). *)
From S2P Require Import Prelude Values Contracts Application Database ProcessStore Packet PacketAdmission Harness.

#[local] Open Scope string_scope.
#[local] Open Scope list_scope.
#[local] Open Scope Z_scope.

(** * Tables *)

(** [factory.harness_compilations] *)
Record CompilationRow := {
  hc_assignment_id : Z;
  hc_application_revision_id : Z;
  hc_office_id : Z;
  hc_assignment_role : Z;
  hc_compiler_version : Z;
  hc_spec_artifact_id : Z;
  hc_system_prompt_artifact_id : Z;
  hc_assignment_prompt_artifact_id : Z;
  hc_packet_artifact_id : Z;
  hc_packet_digest : ContentDigest;
}.

#[global] Instance CompilationRow_eq_dec : EqDecision CompilationRow.
Proof. solve_decision. Defined.

Record ContextColumns := {
  cc_artifact_id : option Z;
  cc_project_id : option Z;
  cc_rfc_id : option Z;
  cc_rfc_revision_id : option Z;
  cc_ticket_id : option Z;
  cc_ticket_revision_id : option Z;
  cc_experiment_id : option Z;
  cc_claim_id : option Z;
  cc_decision_id : option Z;
  cc_office_id : option Z;
}.

(** A row of [factory.harness_context_items] but for its key. *)
Record ContextRow := {
  cx_inclusion_class : Z;
  cx_reason : string;
  cx_columns : ContextColumns;
}.

(** [context_rows] holds the rows of a compilation in the order of their
    ordinals; [institution] the keys of the institutional tables
    ([id], [application_revision_id]), named by the reference to them. *)
Record HarnessTables := {
  compilations : gmap Z CompilationRow;
  context_rows : gmap Z (list ContextRow);
  institution : list (ContextReferenceV2 * Z);
}.

Inductive HarnessStoreError :=
  | ActiveOfficeMissing (application_revision_id : Z) (assignment_role : AssignmentRole)
  | AssignmentMissing (assignment_id : Z)
  | AssignmentIdentityMismatch
  | HarnessIdempotencyConflict
  | UnsupportedCompilerVersion
  | ContextLimitExceeded
  | CompilerVersionOutOfRange
  | ContextOrdinalOutOfRange
  | CorruptStoredPacketDigest
  | CorruptStoredCompilerVersion
  | CorruptStoredAssignmentRole
  | CorruptStoredInclusionClass
  | ContextReferenceMissing
  | HarnessContract (e : ContractError)
  | HarnessDatabase (constraint : string).

(** * Codes *)

Definition assignment_role_from_code (value : Z) : result HarnessStoreError AssignmentRole :=
  if value =? 0 then Ok ProductResearch
  else if value =? 1 then Ok Engineering
  else if value =? 2 then Ok Values.Quality
  else Err CorruptStoredAssignmentRole.

Definition inclusion_class_code (class : ContextInclusionClassV2) : Z :=
  match class with DirectTarget => 0 | RequiredConstraint => 1 | DirectEvidence => 2 | CurrentDecision => 3 end.

Definition inclusion_class_from_code (value : Z) : result HarnessStoreError ContextInclusionClassV2 :=
  if value =? 0 then Ok DirectTarget
  else if value =? 1 then Ok RequiredConstraint
  else if value =? 2 then Ok DirectEvidence
  else if value =? 3 then Ok CurrentDecision
  else Err CorruptStoredInclusionClass.

Definition context_columns (reference : ContextReferenceV2) : ContextColumns :=
  match reference with
  | RefArtifact id => Build_ContextColumns (Some id) None None None None None None None None None
  | RefProject id => Build_ContextColumns None (Some id) None None None None None None None None
  | RefRfc id => Build_ContextColumns None None (Some id) None None None None None None None
  | RefRfcRevision id => Build_ContextColumns None None None (Some id) None None None None None None
  | RefTicket id => Build_ContextColumns None None None None (Some id) None None None None None
  | RefTicketRevision id => Build_ContextColumns None None None None None (Some id) None None None None
  | RefExperiment id => Build_ContextColumns None None None None None None (Some id) None None None
  | RefClaim id => Build_ContextColumns None None None None None None None (Some id) None None
  | RefDecision id => Build_ContextColumns None None None None None None None None (Some id) None
  | RefOffice id => Build_ContextColumns None None None None None None None None None (Some id)
  end.

(** * Reading *)

Definition harness_id (kind : string) (value : Z) : result HarnessStoreError Z :=
  map_err HarnessContract (identifier_new kind value).

(** The first column that is not NULL, in the order of the source. *)
Definition columns_reference (c : ContextColumns) : result HarnessStoreError ContextReferenceV2 :=
  match cc_artifact_id c with Some id => RefArtifact <$> harness_id "artifact ID" id | None =>
  match cc_project_id c with Some id => RefProject <$> harness_id "project ID" id | None =>
  match cc_rfc_id c with Some id => RefRfc <$> harness_id "RFC ID" id | None =>
  match cc_rfc_revision_id c with Some id => RefRfcRevision <$> harness_id "RFC revision ID" id | None =>
  match cc_ticket_id c with Some id => RefTicket <$> harness_id "ticket ID" id | None =>
  match cc_ticket_revision_id c with Some id => RefTicketRevision <$> harness_id "ticket revision ID" id | None =>
  match cc_experiment_id c with Some id => RefExperiment <$> harness_id "experiment ID" id | None =>
  match cc_claim_id c with Some id => RefClaim <$> harness_id "claim ID" id | None =>
  match cc_decision_id c with Some id => RefDecision <$> harness_id "decision ID" id | None =>
  match cc_office_id c with Some id => RefOffice <$> harness_id "office ID" id | None =>
    Err ContextReferenceMissing
  end end end end end end end end end end.

Definition context_item_of_row (row : ContextRow) : result HarnessStoreError ContextItemV2 :=
  reference ← columns_reference (cx_columns row);
  inclusion ← inclusion_class_from_code (cx_inclusion_class row);
  Ok (Harness.context_item reference inclusion (cx_reason row)).

Definition context_items_for_compilation (t : HarnessTables) (id : Z)
  : result HarnessStoreError (list ContextItemV2) :=
  map_ok context_item_of_row (default [] (context_rows t !! id)).

Record HarnessCompilationV2 := {
  hv_id : Z;
  hv_assignment_id : Z;
  hv_application_revision_id : Z;
  hv_office_id : Z;
  hv_assignment_role : AssignmentRole;
  hv_compiler_version : Z;
  hv_spec_artifact_id : Z;
  hv_system_prompt_artifact_id : Z;
  hv_assignment_prompt_artifact_id : Z;
  hv_packet_artifact_id : Z;
  hv_packet_digest : ContentDigest;
  hv_context_items : list ContextItemV2;
}.

(** The row of an assignment; [assignment_id] is unique. *)
Definition compilation_row (t : HarnessTables) (assignment_id : Z) : option (Z * CompilationRow) :=
  head (rows_where (fun _ row => hc_assignment_id row =? assignment_id) (compilations t)).

Definition compilation_for_assignment (t : HarnessTables) (assignment_id : Z)
  : result HarnessStoreError (option HarnessCompilationV2) :=
  match compilation_row t assignment_id with
  | None => Ok None
  | Some (id, row) =>
      require (Nat.eqb (length (hc_packet_digest row)) 32) CorruptStoredPacketDigest ;;
      id ← harness_id "harness compilation ID" id;
      application ← harness_id "application revision ID" (hc_application_revision_id row);
      office ← harness_id "office ID" (hc_office_id row);
      role ← assignment_role_from_code (hc_assignment_role row);
      require (0 <=? hc_compiler_version row) CorruptStoredCompilerVersion ;;
      spec ← harness_id "artifact ID" (hc_spec_artifact_id row);
      system ← harness_id "artifact ID" (hc_system_prompt_artifact_id row);
      assignment ← harness_id "artifact ID" (hc_assignment_prompt_artifact_id row);
      packet ← harness_id "artifact ID" (hc_packet_artifact_id row);
      items ← context_items_for_compilation t id;
      Ok (Some {| hv_id := id; hv_assignment_id := assignment_id;
        hv_application_revision_id := application; hv_office_id := office;
        hv_assignment_role := role; hv_compiler_version := hc_compiler_version row;
        hv_spec_artifact_id := spec; hv_system_prompt_artifact_id := system;
        hv_assignment_prompt_artifact_id := assignment; hv_packet_artifact_id := packet;
        hv_packet_digest := hc_packet_digest row; hv_context_items := items |})
  end.

(** Offices are inserted active and no command changes their lifecycle. *)
Definition active_office (db : Database) (application_revision_id : Z) (role : AssignmentRole)
  : result HarnessStoreError Z :=
  id ← ok_or (fst <$> head (rows_where (fun _ row =>
      (of_application_revision_id row =? application_revision_id)
      && bool_decide (of_assignment_role row = Some (assignment_role_code role))) (offices db)))
    (ActiveOfficeMissing application_revision_id role);
  harness_id "office ID" id.

(** * Recording *)

Record RecordHarnessCompilation := {
  rh_assignment_id : Z;
  rh_application_revision_id : Z;
  rh_office_id : Z;
  rh_assignment_role : AssignmentRole;
  rh_compiler_version : Z;
  rh_spec_artifact_id : Z;
  rh_system_prompt_artifact_id : Z;
  rh_assignment_prompt_artifact_id : Z;
  rh_packet_artifact_id : Z;
  rh_packet_digest : ContentDigest;
  rh_context_items : list ContextItemV2;
}.

Definition record_validate (c : RecordHarnessCompilation) : result HarnessStoreError unit :=
  require (rh_compiler_version c =? HARNESS_COMPILER_VERSION_V2) UnsupportedCompilerVersion ;;
  require (Z.of_nat (length (rh_context_items c)) <=? HARNESS_CONTEXT_MAX_ITEMS) ContextLimitExceeded ;;
  for_each (fun item => map_err HarnessContract (context_item_validate item)) (rh_context_items c).

Definition i16_max : Z := 2 ^ 15 - 1.

Definition row_of_command (c : RecordHarnessCompilation) : CompilationRow := {|
  hc_assignment_id := rh_assignment_id c;
  hc_application_revision_id := rh_application_revision_id c;
  hc_office_id := rh_office_id c;
  hc_assignment_role := assignment_role_code (rh_assignment_role c);
  hc_compiler_version := rh_compiler_version c;
  hc_spec_artifact_id := rh_spec_artifact_id c;
  hc_system_prompt_artifact_id := rh_system_prompt_artifact_id c;
  hc_assignment_prompt_artifact_id := rh_assignment_prompt_artifact_id c;
  hc_packet_artifact_id := rh_packet_artifact_id c;
  hc_packet_digest := rh_packet_digest c |}.

Definition has_artifact (db : Database) (id : Z) : bool := some (artifacts db !! id).

Definition has_office (db : Database) (id application : Z) : bool :=
  exists_where (fun k row => (k =? id) && (of_application_revision_id row =? application)) (offices db).

(** The foreign keys of the row. *)
Definition compilation_keys (db : Database) (row : CompilationRow) : result string unit :=
  for_each (fun id => require (has_artifact db id) "harness_compilations_artifact_fkey")
    [hc_spec_artifact_id row; hc_system_prompt_artifact_id row; hc_assignment_prompt_artifact_id row;
     hc_packet_artifact_id row] ;;
  require (exists_where (fun k a =>
      (k =? hc_assignment_id row)
      && (ai_application_revision_id (as_identity a) =? hc_application_revision_id row)
      && (ai_office_id (as_identity a) =? hc_office_id row)
      && (ai_assignment_role (as_identity a) =? hc_assignment_role row)) (assignments db))
    "harness_compilations_assignment_scope_fkey" ;;
  require (has_office db (hc_office_id row) (hc_application_revision_id row))
    "harness_compilations_office_scope_fkey".

(** What a reference of the application revision may name. *)
Definition reference_exists (db : Database) (t : HarnessTables) (application : Z)
    (reference : ContextReferenceV2) : bool :=
  match reference with
  | RefArtifact id => has_artifact db id
  | RefTicket id => exists_where (fun k row => (k =? id)
      && (t_application_revision_id row =? application)) (tickets db)
  | RefTicketRevision id => exists_where (fun k row => (k =? id)
      && (tr_application_revision_id (tr_contract row) =? application)) (ticket_revisions db)
  | RefOffice id => has_office db id application
  | reference => bool_decide ((reference, application) ∈ institution t)
  end.

Definition row_of_item (item : ContextItemV2) : ContextRow := {|
  cx_inclusion_class := inclusion_class_code (ci_inclusion item);
  cx_reason := ci_reason item;
  cx_columns := context_columns (ci_reference item) |}.

(** One context insert: the ordinal, then the foreign key of its one column. *)
Definition insert_item (db : Database) (t : HarnessTables) (application : Z)
    (entry : Z * ContextItemV2) : result HarnessStoreError ContextRow :=
  require (fst entry <=? i16_max) ContextOrdinalOutOfRange ;;
  require (reference_exists db t application (ci_reference (snd entry)))
    (HarnessDatabase "harness_context_items_scope_fkey") ;;
  Ok (row_of_item (snd entry)).

Definition compilation_receipt (id : Z) (c : RecordHarnessCompilation) : HarnessCompilationV2 := {|
  hv_id := id; hv_assignment_id := rh_assignment_id c;
  hv_application_revision_id := rh_application_revision_id c; hv_office_id := rh_office_id c;
  hv_assignment_role := rh_assignment_role c; hv_compiler_version := rh_compiler_version c;
  hv_spec_artifact_id := rh_spec_artifact_id c;
  hv_system_prompt_artifact_id := rh_system_prompt_artifact_id c;
  hv_assignment_prompt_artifact_id := rh_assignment_prompt_artifact_id c;
  hv_packet_artifact_id := rh_packet_artifact_id c; hv_packet_digest := rh_packet_digest c;
  hv_context_items := rh_context_items c |}.

(** [ON CONFLICT (assignment_id) DO NOTHING]: a stored row must be the row of the
    command, a new one gets its context items. *)
Definition persist_harness_compilation (db : Database) (t : HarnessTables) (c : RecordHarnessCompilation)
  : result HarnessStoreError (HarnessCompilationV2 * HarnessTables) :=
  record_validate c ;;
  require (rh_compiler_version c <=? i16_max) CompilerVersionOutOfRange ;;
  let row := row_of_command c in
  match compilation_row t (rh_assignment_id c) with
  | Some (id, stored) =>
      require (bool_decide (stored = row)) HarnessIdempotencyConflict ;;
      id ← harness_id "harness compilation ID" id;
      Ok (compilation_receipt id c, t)
  | None =>
      map_err HarnessDatabase (compilation_keys db row) ;;
      id ← harness_id "harness compilation ID" (fresh_id (compilations t));
      rows ← map_ok (insert_item db t (rh_application_revision_id c))
               (imap (fun ordinal item => (Z.of_nat ordinal, item)) (rh_context_items c));
      Ok (compilation_receipt id c,
          {| compilations := <[id := row]> (compilations t);
             context_rows := <[id := rows]> (context_rows t);
             institution := institution t |})
  end.

(** [HarnessStore::record] *)
Definition record (db : Database) (t : HarnessTables) (c : RecordHarnessCompilation)
  : result HarnessStoreError (HarnessCompilationV2 * HarnessTables) :=
  record_validate c ;;
  assignment ← ok_or (a ← assignments db !! rh_assignment_id c;
      if ai_application_revision_id (as_identity a) =? rh_application_revision_id c then Some a else None)
    (AssignmentMissing (rh_assignment_id c));
  office ← harness_id "office ID" (ai_office_id (as_identity assignment));
  require ((office =? rh_office_id c)
           && (ai_assignment_role (as_identity assignment) =? assignment_role_code (rh_assignment_role c)))
    AssignmentIdentityMismatch ;;
  persist_harness_compilation db t c.

(** ** At the creation of an assignment *)

Inductive HarnessAdmissionError :=
  | AdmissionHarness (e : HarnessStoreError)
  | AdmissionProcess (e : ProcessError)
  | HarnessPacketArtifactMismatch.

Definition validate_harness_for_assignment (command : PreparedAssignment) (harness : RecordHarnessCompilation)
  : result HarnessAdmissionError unit :=
  let packet := pa_packet command in
  map_err AdmissionHarness (record_validate harness) ;;
  require ((rh_assignment_id harness =? pa_identity command)
           && (rh_application_revision_id harness =? pkt_application_revision_id packet)
           && bool_decide (rh_assignment_role harness = pkt_assignment_role packet)
           && (rh_system_prompt_artifact_id harness =? pkt_system_prompt_artifact_id packet)
           && (rh_assignment_prompt_artifact_id harness =? pkt_assignment_prompt_artifact_id packet)
           && bool_decide (rh_packet_digest harness = pkt_packet_digest packet))
    (AdmissionProcess PacketIdentityMismatch).

(** The compilation names the artifact [require_artifact_seal] finds for the packet. *)
Definition packet_artifact_agrees (db : Database) (command : PreparedAssignment)
    (harness : RecordHarnessCompilation) : result HarnessAdmissionError unit :=
  id ← map_err AdmissionProcess
    (require_artifact_seal db (pa_packet_artifact command) (Z.of_nat (length (pa_packet_bytes command))));
  require (rh_packet_artifact_id harness =? id) HarnessPacketArtifactMismatch.

Section create.
Variable blake3 : list Z -> ContentDigest.
Context `{WireBundle.BundleReader} `{WireBundle.Json AssignmentPacketWireV2}.
Variable maximum_object_bytes : Z.

(** [create_assignment] of a command with a compilation: one transaction.  The
    source compares the packet's artifact before it inserts the assignment, and
    persists the compilation before it bumps the campaign's revision and writes
    the receipt; when two of these steps would fail, the error reported here is
    that of the step the assignment alone has. *)
Definition create_compiled_assignment (d : Cas.Disk) (db : Database) (t : HarnessTables)
    (command : PreparedAssignment) (harness : RecordHarnessCompilation)
  : result HarnessAdmissionError (AssignmentReceipt * Database * HarnessTables) :=
  wire ← map_err AdmissionProcess (admit_packet blake3 maximum_object_bytes d command);
  require (negb ((pkt_campaign_id (pa_packet command) <=? 0) || (pa_attempt_ordinal command =? 0)))
    (AdmissionProcess (InvalidProcessCommand "assignment identity")) ;;
  require (pa_required_read_manifest_artifact_id command
           =? pkt_required_read_manifest_artifact_id (pa_packet command))
    (AdmissionProcess RequiredReadManifestMismatch) ;;
  validate_harness_for_assignment command harness ;;
  created ← map_err AdmissionProcess
    (create_assignment blake3 db (wire_prompts_of wire) (stored_command command));
  let '(receipt, db') := created in
  (if ar_was_idempotent_retry receipt then Ok tt
   else packet_artifact_agrees db command harness) ;;
  persisted ← map_err AdmissionHarness (persist_harness_compilation db' t harness);
  Ok (receipt, db', persisted.2).
End create.
