(* ===== verification/TerminalEvidence.v ===== *)
(** The reads of a session and the evidence of its end: the daemon's own ledger of
    exact reads, the assertion it seals of them, and the verification that mints
    the evidence a terminal transition takes
    ([crates/factory-kernel/src/workspace_read.rs] and
    [verify_terminal_evidence_with_packet_bytes] of [process.rs]). *)
From S2P Require Import Prelude Base64 Values Contracts Json WireBundle Cas Database ProcessStore.
From S2P Require Import Packet ProcessReads PacketAdmission Harness.

#[local] Open Scope string_scope.
#[local] Open Scope list_scope.
#[local] Open Scope Z_scope.

#[global] Instance ActorConnectionIdentity_eq_dec : EqDecision ActorConnectionIdentity.
Proof. solve_decision. Defined.

#[global] Instance ReadExactFileV2_eq_dec : EqDecision ReadExactFileV2.
Proof. solve_decision. Defined.

Definition WORKSPACE_READ_MAX_BYTES : Z := 2 * 1024 * 1024.

Inductive WorkspaceReadError :=
  | ReadContract (e : ContractError)
  | ReadCas (e : CasError)
  | DuplicateRequiredRead
  | ConnectionIdentityMismatch
  | InvalidRequestId
  | PathEscape (path : string)
  | NonCanonicalPath (path : string)
  | Symlink (path : string)
  | NotRegularFile (path : string)
  | FileTooLarge (path : string) (observed : Z)
  | FileChanged (path : string)
  | ResponseTooLarge
  | AssertionChanged
  | RequiredReadsIncomplete
  | ReadIo (operation : string).

(** * Exact reads of a workspace *)

(** A workspace: what its relative paths hold, and where a path that exists leads
    below the root, [None] being outside it. *)
Record Workspace := {
  ws_entries : Staging;
  ws_canonical : string -> option string;
}.

Definition segments (path : string) : list (list Z) := split_bytes 47 (string_bytes path).

Fixpoint reject_symlink_components (entries : Staging) (path : string) (done rest : list (list Z))
  : result WorkspaceReadError unit :=
  match rest with
  | [] => Ok tt
  | component :: rest =>
      let here := done ++ [component] in
      match entries here with
      | None => Err (ReadIo "inspect workspace path component")
      | Some StagedSymlink => Err (Symlink path)
      | Some _ => reject_symlink_components entries path here rest
      end
  end.

(** [read_to_end]: a read of no bytes ends it. *)
Fixpoint read_to_end (reads : list (list Z)) : list Z :=
  match reads with
  | [] | [] :: _ => []
  | chunk :: reads => chunk ++ read_to_end reads
  end.

Record WorkspaceReadResult := { wrr_path : string; wrr_digest : ContentDigest; wrr_bytes : list Z }.

Section Reads.
Variable blake3 : list Z -> ContentDigest.

(** The handle stays on one file, so its device and inode cannot change. *)
Definition read_exact_workspace_file (workspace : Workspace) (path : string)
  : result WorkspaceReadError WorkspaceReadResult :=
  require (negb (bool_decide (path = "."))) (NotRegularFile path) ;;
  reject_symlink_components (ws_entries workspace) path [] (segments path) ;;
  relative ← ok_or (ws_canonical workspace path) (PathEscape path);
  require (bool_decide (relative = path)) (NonCanonicalPath path) ;;
  match ws_entries workspace (segments path) with
  | None => Err (ReadIo "open workspace file")
  | Some (StagedFile r) =>
      require (initial_length r <=? WORKSPACE_READ_MAX_BYTES) (FileTooLarge path (initial_length r)) ;;
      let bytes := take (Z.to_nat (WORKSPACE_READ_MAX_BYTES + 1)) (read_to_end (chunks r)) in
      let length := Z.of_nat (length bytes) in
      require (length <=? WORKSPACE_READ_MAX_BYTES) (FileTooLarge path length) ;;
      require (negb (negb (initial_length r =? final_length r)
                     || negb (bool_decide (initial_modified r = final_modified r))
                     || negb (final_length r =? length))) (FileChanged path) ;;
      Ok {| wrr_path := path; wrr_digest := blake3 bytes; wrr_bytes := bytes |}
  | Some _ => Err (NotRegularFile path)
  end.

Definition digest_materialized_required_read (workspace : Workspace) (path : string)
  : result WorkspaceReadError ContentDigest :=
  wrr_digest <$> read_exact_workspace_file workspace path.

(** * The ledger *)

Record WorkspaceReadAuthority := {
  wra_binding : ActorConnectionIdentity;
  wra_expected_manifest_artifact_id : Z;
  wra_required : list ReadExactFileV2;
  wra_observed : gmap string ContentDigest;
}.

Fixpoint adjacent_paths (l : list ReadExactFileV2) : bool :=
  match l with
  | a :: (b :: _) as rest => bool_decide (rx_path a = rx_path b) || adjacent_paths rest
  | _ => false
  end.

Definition by_path (l : list ReadExactFileV2) : list ReadExactFileV2 :=
  order_by (fun r => string_bytes (rx_path r)) l.

(** [from_admitted_assignment] on a workspace that is a directory, and
    [empty_after_daemon_restart]. *)
Definition read_authority (binding : ActorConnectionIdentity) (manifest : Z) (required : list ReadExactFileV2)
  : result WorkspaceReadError WorkspaceReadAuthority :=
  let required := by_path required in
  require (negb (adjacent_paths required)) DuplicateRequiredRead ;;
  Ok {| wra_binding := binding; wra_expected_manifest_artifact_id := manifest; wra_required := required;
        wra_observed := ∅ |}.

Definition observe_read (path : string) (digest : ContentDigest) (a : WorkspaceReadAuthority)
  : WorkspaceReadAuthority := {|
  wra_binding := wra_binding a; wra_expected_manifest_artifact_id := wra_expected_manifest_artifact_id a;
  wra_required := wra_required a; wra_observed := <[path := digest]> (wra_observed a) |}.

Definition read_exact_for_binding (workspace : Workspace) (binding : ActorConnectionIdentity) (path : string)
    (a : WorkspaceReadAuthority)
  : result WorkspaceReadError (WorkspaceReadResult * WorkspaceReadAuthority) :=
  require (bool_decide (binding = wra_binding a)) ConnectionIdentityMismatch ;;
  result ← read_exact_workspace_file workspace path;
  Ok (result, observe_read (wrr_path result) (wrr_digest result) a).

Definition is_printable (b : Z) : bool := ((33 <=? b) && (b <=? 126)) || (b =? 32).

Definition validate_request_id (value : string) : result WorkspaceReadError unit :=
  require (negb ((string_len value =? 0) || (160 <? string_len value)
                 || negb (forallb is_printable (string_bytes value)))) InvalidRequestId.

(** The request, as the frame codec hands it over. *)
Record WorkspaceReadRequest := { wrq_request_id : string; wrq_repository_relative_path : string }.

Definition response_json (request_id path : string) (digest : ContentDigest) (bytes : list Z) : list Z :=
  json_object [("protocol_version", json_number PROTOCOL_VERSION_V2); ("request_id", json_quote request_id);
    ("operation", json_quote "workspace.read"); ("canonical_path", json_quote path);
    ("blake3", json_quote (to_hex digest)); ("byte_length", json_number (Z.of_nat (length bytes)));
    ("content_base64", json_quote (base64_encode bytes))].

(** [handle_frame]: a read that was answered is observed, also when its response
    does not fit. *)
Definition handle_frame (workspace : Workspace) (binding : ActorConnectionIdentity) (r : WorkspaceReadRequest)
    (a : WorkspaceReadAuthority) : WorkspaceReadAuthority * result WorkspaceReadError (list Z) :=
  match (require (bool_decide (binding = wra_binding a)) ConnectionIdentityMismatch ;;
         validate_request_id (wrq_request_id r) ;;
         path ← map_err ReadContract (repository_relative_path_parse (wrq_repository_relative_path r));
         read_exact_for_binding workspace (wra_binding a) path a) with
  | Err e => (a, Err e)
  | Ok (result, a') =>
      let bytes := response_json (wrq_request_id r) (wrr_path result) (wrr_digest result) (wrr_bytes result) in
      (a', require (Z.of_nat (length bytes) <=? RESPONSE_FRAME_MAX_BYTES) ResponseTooLarge ;; Ok bytes)
  end.

Definition assert_required_reads_satisfied (a : WorkspaceReadAuthority) : result WorkspaceReadError unit :=
  require (forallb (fun required => bool_decide (wra_observed a !! rx_path required = Some (rx_digest required)))
    (wra_required a)) RequiredReadsIncomplete.

(** * The assertion *)

Record ReadObservationV2 := { ro_path : string; ro_digest : ContentDigest }.

Definition observation_path_validate (o : ReadObservationV2) : result ContractError unit :=
  require (negb (contains_byte 0 (ro_path o))) (InvalidValue "required read observation path" "must not contain NUL").

(** The ledger in the order of its keys. *)
Definition observations (a : WorkspaceReadAuthority) : list ReadObservationV2 :=
  (fun '(path, digest) => {| ro_path := path; ro_digest := digest |})
    <$> order_by (fun kv => string_bytes kv.1) (map_to_list (wra_observed a)).

Definition seen_in (observed : list ReadObservationV2) (r : ReadExactFileV2) : bool :=
  existsb (fun o => bool_decide (ro_path o = rx_path r) && bool_decide (ro_digest o = rx_digest r)) observed.

Definition required_json (r : ReadExactFileV2) : list Z :=
  json_object [("canonical_path", json_quote (rx_path r)); ("blake3", json_quote (to_hex (rx_digest r)));
    ("reason", json_quote (rx_reason r))].

Definition observed_json (o : ReadObservationV2) : list Z :=
  json_object [("canonical_path", json_quote (ro_path o)); ("blake3", json_quote (to_hex (ro_digest o)))].

Definition missing_reads (required : list ReadExactFileV2) (observed : list ReadObservationV2) : list ReadExactFileV2 :=
  List.filter (fun r => negb (existsb (fun o => bool_decide (ro_path o = rx_path r)
    && bool_decide (to_hex (ro_digest o) = to_hex (rx_digest r))) observed)) required.

Definition canonical_assertion_bytes (binding : ActorConnectionIdentity) (manifest : Z)
    (required : list ReadExactFileV2) (observed : list ReadObservationV2) : list Z :=
  json_object [("format", json_quote "factory-required-read-assertion-v2");
    ("session_id", json_number (aci_session_id binding)); ("assignment_id", json_number (aci_assignment_id binding));
    ("expected_manifest_artifact_id", json_number manifest);
    ("required", json_array (required_json <$> required)); ("observed", json_array (observed_json <$> observed));
    ("missing", json_array (required_json <$> missing_reads required observed))].

Record RequiredReadEvidence := {
  rre_binding : ActorConnectionIdentity;
  rre_expected_manifest_artifact_id : Z;
  rre_expected : list ReadExactFileV2;
  rre_observed : list ReadObservationV2;
  rre_satisfied_count : Z;
  rre_canonical_bytes : list Z;
}.

Definition evidence_from_authority (a : WorkspaceReadAuthority) : RequiredReadEvidence :=
  let observed := observations a in
  {| rre_binding := wra_binding a; rre_expected_manifest_artifact_id := wra_expected_manifest_artifact_id a;
     rre_expected := wra_required a; rre_observed := observed;
     rre_satisfied_count := Z.of_nat (length (List.filter (seen_in observed) (wra_required a)));
     rre_canonical_bytes := canonical_assertion_bytes (wra_binding a) (wra_expected_manifest_artifact_id a)
       (wra_required a) observed |}.
End Reads.

Record SealedRequiredReadAssertion := { sra_evidence : RequiredReadEvidence; sra_artifact : CasArtifact }.

(** * Terminal evidence *)

Record TerminalArtifactSeals := {
  tas_transcript : CasArtifact;
  tas_execution_summary : option CasArtifact;
  tas_stdout : CasArtifact;
  tas_stderr : CasArtifact;
  tas_partial_transcript : option CasArtifact;
}.

Section Evidence.
Context (blake3 : list Z -> ContentDigest) `{BundleReader} `{WireBundle.Json AssignmentPacketWireV2}.
Variable maximum_object_bytes : Z.

Definition verified_object (d : Disk) (seal : CasArtifact) : result ProcessError unit :=
  _ ← map_err CasFailed (verify_seal blake3 maximum_object_bytes (cas_digest seal) d); Ok tt.

Definition verified_when_present (d : Disk) (seal : option CasArtifact) : result ProcessError unit :=
  match seal with Some seal => verified_object d seal | None => Ok tt end.

(** [WHERE digest = $1 AND byte_length = $2], of a unique digest. *)
Definition artifact_id_for_seal (db : Database) (seal : CasArtifact) : result ProcessError Z :=
  byte_length ← to_i64 (cas_byte_length seal) ArtifactLengthOutOfRange;
  row ← ok_or (head (rows_where (fun _ row => bool_decide (art_digest row = cas_digest seal)
      && (art_byte_length row =? byte_length)) (artifacts db))) UnregisteredTerminalArtifact;
  new_id "artifact ID" row.1.

(** [WHERE build_digest = $1], [fetch_one] *)
Definition build_id_of (db : Database) (build : ContentDigest) : result ProcessError Z :=
  row ← ok_or (head (rows_where (fun _ row => bool_decide (kb_build_digest row = build)) (kernel_builds db)))
    (DatabaseError "RowNotFound");
  Ok row.1.

Definition registered_when_present (db : Database) (seal : option CasArtifact) : result ProcessError (option Z) :=
  transpose_map (artifact_id_for_seal db) seal.

(** The objects the evidence names, read back from the store. *)
Definition verify_objects (d : Disk) (packet_artifact : CasArtifact) (artifacts : TerminalArtifactSeals)
    (assertion : SealedRequiredReadAssertion) : result ProcessError unit :=
  verified_object d (tas_transcript artifacts) ;;
  verified_when_present d (tas_execution_summary artifacts) ;;
  verified_object d (tas_stdout artifacts) ;;
  verified_object d (tas_stderr artifacts) ;;
  verified_object d packet_artifact ;;
  verified_object d (sra_artifact assertion) ;;
  verified_when_present d (tas_partial_transcript artifacts).

(** The packet against the session's assignment. *)
Definition packet_of_session (d : Disk) (db : Database) (session_id : Z) (packet : Packet.AssignmentPacketV2)
    (packet_artifact : CasArtifact) : result ProcessError (Z * AssignmentIdentity) :=
  s ← ok_or (sessions db !! session_id) (UnknownSession session_id);
  let assignment_id := si_assignment_id (ses_identity s) in
  a ← ok_or (as_identity <$> assignments db !! assignment_id) (UnknownSession session_id);
  require (negb (negb (assignment_id =? pkt_assignment_id packet)
                 || negb (ai_campaign_id a =? pkt_campaign_id packet)
                 || negb (ai_application_revision_id a =? pkt_application_revision_id packet)
                 || negb (bool_decide (ai_packet_digest a = pkt_packet_digest packet)))) PacketIdentityMismatch ;;
  packet_artifact_id ← artifact_id_for_seal db packet_artifact;
  require (ai_packet_artifact_id a =? packet_artifact_id) PacketArtifactDigestMismatch ;;
  build ← build_id_of db (pkt_kernel_build_id packet);
  require (ai_kernel_build_id a =? build) PacketIdentityMismatch ;;
  manifest ← ok_or (artifacts db !! ai_required_read_manifest_artifact_id a) (DatabaseError "RowNotFound");
  bytes ← packet_object blake3 maximum_object_bytes d (art_digest manifest);
  require (bool_decide (bytes = canonical_required_manifest (pkt_required_reads packet))) RequiredReadManifestMismatch ;;
  Ok (assignment_id, a).

Definition verify_terminal_evidence_inner (d : Disk) (db : Database) (session_id : Z)
    (packet : Packet.AssignmentPacketV2) (packet_artifact : CasArtifact) (seals : TerminalArtifactSeals)
    (assertion : SealedRequiredReadAssertion) (usage : option UsageTotalsV2) (canonical_packet_bytes : list Z)
  : result ProcessError VerifiedTerminalEvidence :=
  let e := sra_evidence assertion in
  admitted (packet_validate blake3 packet) ;;
  _ ← verified_wire blake3 canonical_packet_bytes (pkt_packet_digest packet);
  verify_objects d packet_artifact seals assertion ;;
  require (aci_session_id (rre_binding e) =? session_id) RequiredReadManifestMismatch ;;
  '(assignment_id, a) ← packet_of_session d db session_id packet packet_artifact;
  require (negb (negb (aci_assignment_id (rre_binding e) =? assignment_id)
                 || negb (rre_expected_manifest_artifact_id e =? ai_required_read_manifest_artifact_id a)))
    RequiredReadManifestMismatch ;;
  transcript ← artifact_id_for_seal db (tas_transcript seals);
  summary ← registered_when_present db (tas_execution_summary seals);
  require (negb (bool_decide (summary = Some transcript))) (InvalidProcessCommand "execution summary evidence") ;;
  stdout ← artifact_id_for_seal db (tas_stdout seals);
  stderr ← artifact_id_for_seal db (tas_stderr seals);
  partial ← registered_when_present db (tas_partial_transcript seals);
  manifest ← artifact_id_for_seal db (sra_artifact assertion);
  require (bool_decide (by_path (pkt_required_reads packet) = by_path (rre_expected e)))
    RequiredReadManifestMismatch ;;
  for_each (fun o => admitted (observation_path_validate o)) (rre_observed e) ;;
  bytes ← packet_object blake3 maximum_object_bytes d (cas_digest (sra_artifact assertion));
  require (bool_decide (bytes = rre_canonical_bytes e)) RequiredReadManifestMismatch ;;
  require (ai_required_read_manifest_artifact_id a =? pkt_required_read_manifest_artifact_id packet)
    RequiredReadManifestMismatch ;;
  let expected := Z.of_nat (length (pkt_required_reads packet)) in
  require (expected <=? u32_max) (InvalidProcessCommand "required read count") ;;
  Ok {| ve_transcript_artifact_id := transcript; ve_execution_summary_artifact_id := summary;
        ve_stdout_artifact_id := stdout; ve_stderr_artifact_id := stderr;
        ve_partial_transcript_artifact_id := partial; ve_required_read_assertion_artifact_id := manifest;
        ve_required_read_expected_count := expected; ve_required_read_satisfied_count := rre_satisfied_count e;
        ve_usage := usage |}.

Definition verify_terminal_evidence_with_packet_bytes (d : Disk) (db : Database) (session_id : Z)
    (packet : Packet.AssignmentPacketV2) (packet_artifact : CasArtifact) (canonical_packet_bytes : list Z)
    (seals : TerminalArtifactSeals) (assertion : SealedRequiredReadAssertion) (usage : option UsageTotalsV2)
  : result ProcessError VerifiedTerminalEvidence :=
  verify_packet_bytes blake3 maximum_object_bytes d packet packet_artifact canonical_packet_bytes
    (pkt_packet_digest packet) ;;
  verify_terminal_evidence_inner d db session_id packet packet_artifact seals assertion usage canonical_packet_bytes.
End Evidence.
