(* ===== verification/ForumStore.v ===== *)
(** The permanent records of the Forum: topics, threads and posts that only grow,
    one receipt for each, and the bounded reads over them
    ([crates/factory-kernel/src/forum_store.rs] and the Forum tables of the
    schema). *)
From stdpp Require Import pretty.
From S2P Require Import Prelude Values Forum Database ProcessReads.
From S2P Require ProcessStore.

#[local] Open Scope string_scope.
#[local] Open Scope list_scope.
#[local] Open Scope Z_scope.

Definition FORUM_TOPIC_SUBJECT : Z := 10.
Definition FORUM_THREAD_SUBJECT : Z := 11.
Definition FORUM_POST_SUBJECT : Z := 12.
Definition CREATE_TOPIC_OPERATION : string := "forum.topic.create".
Definition CREATE_THREAD_OPERATION : string := "forum.thread.create".
Definition POST_OPERATION : string := "forum.post.append".
Definition SUPERSEDE_TOPIC_OPERATION : string := "forum.topic.supersede".
Definition SUPERSEDE_THREAD_OPERATION : string := "forum.thread.supersede".

(** [operation IN ($1, $2, $3, $4, $5)] *)
Definition forum_operations : list string :=
  [CREATE_TOPIC_OPERATION; CREATE_THREAD_OPERATION; POST_OPERATION; SUPERSEDE_TOPIC_OPERATION;
   SUPERSEDE_THREAD_OPERATION].

Inductive ForumStoreError :=
  | ForumDatabase (constraint : string)
  | ForumContract (e : ContractError)
  | ForumRevisionConflict (expected current : Z)
  | ForumIdempotencyConflict
  | ForumAuditSubjectKindMismatch
  | CountOutOfRange
  | ForumRevisionOutOfRange
  | TimestampOutOfRange
  | UnknownOffice (value : Z)
  | UnknownPostKind (value : Z)
  | InvalidStoredAuthor
  | SupersessionTargetMissing
  | SupersessionParentMismatch.

(** * Tables *)

Record AuthorColumns := { ac_kind : Z; ac_session_id : option Z; ac_office : option Z }.

Record TopicRow := {
  ft_author : AuthorColumns;
  ft_name : string;
  ft_description : string;
  ft_created_at : Z;
  ft_supersedes_topic_id : option Z;
}.

Record ThreadRow := {
  fh_topic_id : Z;
  fh_author : AuthorColumns;
  fh_title : string;
  fh_created_at : Z;
  fh_supersedes_thread_id : option Z;
}.

Record PostRow := {
  fp_thread_id : Z;
  fp_author : AuthorColumns;
  fp_body : string;
  fp_kind : Z;
  fp_reply_to_post_id : option Z;
  fp_supersedes_post_id : option Z;
  fp_created_at : Z;
}.

(** Attachments are keyed by post and artifact; [authority] is the rest of the
    kernel's database, with the audit log the receipts go to. *)
Record ForumState := {
  authority : Database;
  topics : gmap Z TopicRow;
  threads : gmap Z ThreadRow;
  posts : gmap Z PostRow;
  attachments : gmap (Z * Z) string;
}.

Definition set_authority (db : Database) (s : ForumState) : ForumState :=
  {| authority := db; topics := topics s; threads := threads s; posts := posts s; attachments := attachments s |}.
Definition set_topics (m : gmap Z TopicRow) (s : ForumState) : ForumState :=
  {| authority := authority s; topics := m; threads := threads s; posts := posts s; attachments := attachments s |}.
Definition set_threads (m : gmap Z ThreadRow) (s : ForumState) : ForumState :=
  {| authority := authority s; topics := topics s; threads := m; posts := posts s; attachments := attachments s |}.
Definition set_posts (m : gmap Z PostRow) (s : ForumState) : ForumState :=
  {| authority := authority s; topics := topics s; threads := threads s; posts := m; attachments := attachments s |}.
Definition set_attachments (m : gmap (Z * Z) string) (s : ForumState) : ForumState :=
  {| authority := authority s; topics := topics s; threads := threads s; posts := posts s; attachments := m |}.

Definition author_shape (a : AuthorColumns) : bool :=
  ((ac_kind a =? 0) && bool_decide (is_Some (ac_session_id a)) && bool_decide (is_Some (ac_office a)))
  || ((ac_kind a =? 1) && bool_decide (ac_session_id a = None) && bool_decide (ac_office a = None)).

(** [octet_length(value) BETWEEN low AND high] *)
Definition octets_between (low high : Z) (value : string) : bool :=
  (low <=? string_len value) && (string_len value <=? high).

Definition references {V} (table : gmap Z V) (id : option Z) : bool :=
  match id with Some id => bool_decide (is_Some (table !! id)) | None => true end.

Definition distinct_from (id : Z) (target : option Z) : bool := negb (bool_decide (target = Some id)).

(** The identity columns are [BIGINT]s: their sequence ends at its maximum. *)
Definition insert_topic (row : TopicRow) (s : ForumState) : result ForumStoreError (Z * ForumState) :=
  let id := fresh_id (topics s) in
  require (id <=? i64_max) (ForumDatabase "forum_topics_id_seq") ;;
  require (octets_between 1 160 (ft_name row)) (ForumDatabase "forum_topics_name_check") ;;
  require (octets_between 0 4096 (ft_description row)) (ForumDatabase "forum_topics_description_check") ;;
  require (author_shape (ft_author row)) (ForumDatabase "forum_topics_check") ;;
  require (distinct_from id (ft_supersedes_topic_id row)) (ForumDatabase "forum_topics_check1") ;;
  require (references (topics s) (ft_supersedes_topic_id row))
    (ForumDatabase "forum_topics_supersedes_topic_id_fkey") ;;
  Ok (id, set_topics (<[id := row]> (topics s)) s).

Definition insert_thread (row : ThreadRow) (s : ForumState) : result ForumStoreError (Z * ForumState) :=
  let id := fresh_id (threads s) in
  require (id <=? i64_max) (ForumDatabase "forum_threads_id_seq") ;;
  require (octets_between 1 240 (fh_title row)) (ForumDatabase "forum_threads_title_check") ;;
  require (author_shape (fh_author row)) (ForumDatabase "forum_threads_check") ;;
  require (distinct_from id (fh_supersedes_thread_id row)) (ForumDatabase "forum_threads_check1") ;;
  require (references (topics s) (Some (fh_topic_id row))) (ForumDatabase "forum_threads_topic_id_fkey") ;;
  require (references (threads s) (fh_supersedes_thread_id row))
    (ForumDatabase "forum_threads_supersedes_thread_id_fkey") ;;
  Ok (id, set_threads (<[id := row]> (threads s)) s).

(** One half of [factory.forum_validate_post_relations]. *)
Definition relation_valid (s : ForumState) (id thread_id : Z) (target : option Z) : result ForumStoreError unit :=
  match target with
  | None => Ok tt
  | Some target_id =>
      target ← ok_or (posts s !! target_id) (ForumDatabase "relation target does not exist");
      require (negb (negb (fp_thread_id target =? thread_id) || (id <=? target_id)))
        (ForumDatabase "relation target must be earlier and in the same thread")
  end.

Definition forum_validate_post_relations (s : ForumState) (id : Z) (row : PostRow) : result ForumStoreError unit :=
  relation_valid s id (fp_thread_id row) (fp_reply_to_post_id row) ;;
  relation_valid s id (fp_thread_id row) (fp_supersedes_post_id row).

Definition insert_post (row : PostRow) (s : ForumState) : result ForumStoreError (Z * ForumState) :=
  let id := fresh_id (posts s) in
  require (id <=? i64_max) (ForumDatabase "forum_posts_id_seq") ;;
  forum_validate_post_relations s id row ;;
  require (octets_between 0 16384 (fp_body row)) (ForumDatabase "forum_posts_body_check") ;;
  require ((0 <=? fp_kind row) && (fp_kind row <=? 6)) (ForumDatabase "forum_posts_kind_check") ;;
  require (author_shape (fp_author row)) (ForumDatabase "forum_posts_check") ;;
  require (match fp_reply_to_post_id row, fp_supersedes_post_id row with
           | Some reply, Some superseded => negb (reply =? superseded)
           | _, _ => true
           end) (ForumDatabase "forum_posts_check1") ;;
  require (references (threads s) (Some (fp_thread_id row))) (ForumDatabase "forum_posts_thread_id_fkey") ;;
  Ok (id, set_posts (<[id := row]> (posts s)) s).

Definition attachment_keys (s : ForumState) : list (Z * Z) := (map_to_list (attachments s)).*1.

(** With the trigger that counts the attachments of the post. *)
Definition insert_attachment (post_id : Z) (attachment : ForumAttachmentInput) (s : ForumState)
  : result ForumStoreError ForumState :=
  let key := (post_id, fai_artifact_id attachment) in
  require (negb (8 <=? Z.of_nat (length (List.filter (fun k => fst k =? post_id) (attachment_keys s)))))
    (ForumDatabase "eight-attachment quota") ;;
  require (octets_between 0 160 (fai_label attachment)) (ForumDatabase "forum_attachments_label_check") ;;
  require (bool_decide (attachments s !! key = None)) (ForumDatabase "forum_attachments_pkey") ;;
  require (references (posts s) (Some post_id)) (ForumDatabase "forum_attachments_post_id_fkey") ;;
  require (references (artifacts (authority s)) (Some (fai_artifact_id attachment)))
    (ForumDatabase "forum_attachments_artifact_id_fkey") ;;
  Ok (set_attachments (<[key := fai_label attachment]> (attachments s)) s).

Fixpoint insert_attachments (post_id : Z) (inputs : list ForumAttachmentInput) (s : ForumState)
  : result ForumStoreError ForumState :=
  match inputs with
  | [] => Ok s
  | input :: inputs => s ← insert_attachment post_id input s; insert_attachments post_id inputs s
  end.

(** * Codes *)

Definition office_number (role : AssignmentRole) : Z :=
  match role with ProductResearch => 0 | Engineering => 1 | Quality => 2 end.

Definition office_from_number (value : Z) : result ForumStoreError AssignmentRole :=
  if value =? 0 then Ok ProductResearch
  else if value =? 1 then Ok Engineering
  else if value =? 2 then Ok Quality
  else Err (UnknownOffice value).

Definition post_kind_number (kind : ForumPostKind) : Z :=
  match kind with
  | Note => 0 | Question => 1 | Finding => 2 | Proposal => 3 | Challenge => 4 | Correction => 5 | DecisionLink => 6
  end.

Definition post_kind_from_number (value : Z) : result ForumStoreError ForumPostKind :=
  if value =? 0 then Ok Note
  else if value =? 1 then Ok Question
  else if value =? 2 then Ok Finding
  else if value =? 3 then Ok Proposal
  else if value =? 4 then Ok Challenge
  else if value =? 5 then Ok Correction
  else if value =? 6 then Ok DecisionLink
  else Err (UnknownPostKind value).

(** [ForumAuthority] has the one constructor [Actor]. *)
Definition authority_author_columns (binding : ActorConnectionIdentity) : AuthorColumns := {|
  ac_kind := 0; ac_session_id := Some (aci_session_id binding);
  ac_office := Some (office_number (aci_assignment_role binding)) |}.

Definition forum_id (kind : string) (value : Z) : result ForumStoreError Z :=
  map_err ForumContract (identifier_new kind value).

Definition author_from_columns (a : AuthorColumns) : result ForumStoreError ForumAuthor :=
  match ac_kind a, ac_session_id a, ac_office a with
  | 0, Some session_id, Some office =>
      session ← forum_id "session ID" session_id;
      role ← office_from_number office;
      Ok (ForumActor session role)
  | 1, None, None => Ok GrandArchitect
  | _, _, _ => Err InvalidStoredAuthor
  end.

Definition actor_principal (binding : ActorConnectionIdentity) : string :=
  "actor-session-" +:+ pretty (aci_session_id binding)
  +:+ "-assignment-" +:+ pretty (aci_assignment_id binding)
  +:+ "-application-" +:+ pretty (aci_application_revision_id binding)
  +:+ "-campaign-" +:+ pretty (aci_campaign_id binding).

(** * Receipts *)

Definition aggregate_revision (value : Z) : result ForumStoreError Z :=
  require (0 <=? value) ForumRevisionOutOfRange ;; Ok value.

Definition forum_receipts (s : ForumState) : list AuditRow :=
  List.filter (fun row => bool_decide (al_operation row ∈ forum_operations))
    (map_to_list (audit_log (authority s))).*2.

(** [COALESCE(MAX(resulting_revision), 0)]; stored revisions are nonnegative. *)
Definition current_forum_revision (s : ForumState) : result ForumStoreError Z :=
  aggregate_revision (foldr Z.max 0 (al_resulting_revision <$> forum_receipts s)).

Record StoredReceipt := {
  sr_audit_log_id : Z;
  sr_subject_kind : Z;
  sr_subject_id : Z;
  sr_resulting_revision : Z;
}.

Definition find_idempotent (s : ForumState) (principal command_id operation : string)
    (fingerprint : ContentDigest) : result ForumStoreError (option StoredReceipt) :=
  match audit_log (authority s) !! (principal, command_id) with
  | None => Ok None
  | Some row =>
      require (negb (negb (bool_decide (al_operation row = operation))
                     || negb (bool_decide (al_command_fingerprint row = fingerprint))))
        ForumIdempotencyConflict ;;
      revision ← aggregate_revision (al_resulting_revision row);
      Ok (Some {| sr_audit_log_id := al_id row; sr_subject_kind := al_subject_kind row;
                  sr_subject_id := al_subject_id row; sr_resulting_revision := revision |})
  end.

Definition insert_receipt (principal command_id operation : string) (fingerprint : ContentDigest)
    (subject_kind subject_id revision : Z) (s : ForumState) : result ForumStoreError (Z * ForumState) :=
  require (revision <=? i64_max) ForumRevisionOutOfRange ;;
  '(id, db) ← map_err ForumDatabase (insert_audit_row principal command_id (fun id => {|
    al_id := id; al_operation := operation; al_command_fingerprint := fingerprint;
    al_subject_kind := subject_kind; al_subject_id := subject_id;
    al_resulting_revision := revision |}) (authority s));
  Ok (id, set_authority db s).

Definition require_subject (receipt : StoredReceipt) (expected : Z) : result ForumStoreError unit :=
  require (sr_subject_kind receipt =? expected) ForumAuditSubjectKindMismatch.

Definition require_expected (expected current : Z) : result ForumStoreError unit :=
  require (expected =? current) (ForumRevisionConflict expected current).

(** [ForumTopicReceipt], [ForumThreadReceipt] and [ForumPostReceipt]. *)
Record ForumReceipt := {
  frc_id : Z;
  frc_resulting_revision : Z;
  frc_audit_log_id : Z;
  frc_was_idempotent_retry : bool;
}.

(** * Fingerprints *)

Definition hash_text (value : string) : list Z := be_bytes 8 (string_len value) ++ string_bytes value.

Definition hash_optional_i64 (value : option Z) : list Z :=
  match value with Some value => 1 :: be_bytes 8 value | None => [0] end.

Definition command_prefix (binding : ActorConnectionIdentity) (operation : string)
    (identity : ForumMutationIdentity) : list Z :=
  let author := authority_author_columns binding in
  hash_text operation ++ hash_text (actor_principal binding) ++ hash_text (client_command_id identity)
  ++ be_bytes 8 (expected_revision identity) ++ be_bytes 2 (ac_kind author)
  ++ hash_optional_i64 (ac_session_id author) ++ be_bytes 2 (default (-1) (ac_office author)).

Definition topic_preimage (binding : ActorConnectionIdentity) (c : ForumCreateTopicCommand) : list Z :=
  command_prefix binding CREATE_TOPIC_OPERATION (fct_identity c)
  ++ hash_text (fct_name c) ++ hash_text (fct_description c).

Definition thread_preimage (binding : ActorConnectionIdentity) (c : ForumCreateThreadCommand) : list Z :=
  command_prefix binding CREATE_THREAD_OPERATION (fch_identity c)
  ++ be_bytes 8 (fch_topic_id c) ++ hash_text (fch_title c).

Definition hash_attachments (inputs : list ForumAttachmentInput) : list Z :=
  be_bytes 8 (Z.of_nat (length inputs))
  ++ (inputs ≫= fun a => be_bytes 8 (fai_artifact_id a) ++ hash_text (fai_label a)).

Definition post_preimage (binding : ActorConnectionIdentity) (c : ForumPostCommand) : list Z :=
  let input := fpc_input c in
  command_prefix binding POST_OPERATION (fpc_identity c)
  ++ be_bytes 8 (fpc_thread_id c) ++ be_bytes 2 (post_kind_number (fpi_kind input))
  ++ hash_text (fpi_body input) ++ hash_optional_i64 (fpi_reply_to input)
  ++ hash_optional_i64 (fpi_supersedes input) ++ hash_attachments (fpi_attachments input).

(** The store's own supersession commands. *)
Record ForumSupersedeTopicCommand := {
  fst_identity : ForumMutationIdentity;
  fst_supersedes_topic_id : Z;
  fst_name : string;
  fst_description : string;
}.

Record ForumSupersedeThreadCommand := {
  fsh_identity : ForumMutationIdentity;
  fsh_topic_id : Z;
  fsh_supersedes_thread_id : Z;
  fsh_title : string;
}.

Definition supersede_topic_preimage (binding : ActorConnectionIdentity) (c : ForumSupersedeTopicCommand) : list Z :=
  command_prefix binding SUPERSEDE_TOPIC_OPERATION (fst_identity c)
  ++ be_bytes 8 (fst_supersedes_topic_id c) ++ hash_text (fst_name c) ++ hash_text (fst_description c).

Definition supersede_thread_preimage (binding : ActorConnectionIdentity) (c : ForumSupersedeThreadCommand) : list Z :=
  command_prefix binding SUPERSEDE_THREAD_OPERATION (fsh_identity c)
  ++ be_bytes 8 (fsh_topic_id c) ++ be_bytes 8 (fsh_supersedes_thread_id c) ++ hash_text (fsh_title c).

(** * Commands

    The five transactions have one shape: a recorded identity is answered from its
    receipt; otherwise the expected revision is compared with the current one,
    the rows are inserted and the receipt takes the next revision. *)

Section Commands.
Variable blake3 : list Z -> ContentDigest.

Definition forum_transaction (binding : ActorConnectionIdentity) (operation kind : string) (subject : Z)
    (fingerprint : ContentDigest) (identity : ForumMutationIdentity)
    (insert : ForumState -> result ForumStoreError (Z * ForumState)) (s : ForumState)
  : result ForumStoreError (ForumReceipt * ForumState) :=
  let principal := actor_principal binding in
  found ← find_idempotent s principal (client_command_id identity) operation fingerprint;
  match found with
  | Some receipt =>
      require_subject receipt subject ;;
      id ← forum_id kind (sr_subject_id receipt);
      audit ← forum_id "audit log ID" (sr_audit_log_id receipt);
      Ok ({| frc_id := id; frc_resulting_revision := sr_resulting_revision receipt;
             frc_audit_log_id := audit; frc_was_idempotent_retry := true |}, s)
  | None =>
      current ← current_forum_revision s;
      require_expected (expected_revision identity) current ;;
      '(id, s1) ← insert s;
      next ← map_err ForumContract (revision_next current);
      '(audit, s2) ← insert_receipt principal (client_command_id identity) operation fingerprint subject id next s1;
      id ← forum_id kind id;
      audit ← forum_id "audit log ID" audit;
      Ok ({| frc_id := id; frc_resulting_revision := next; frc_audit_log_id := audit;
             frc_was_idempotent_retry := false |}, s2)
  end.

Definition create_topic (binding : ActorConnectionIdentity) (c : ForumCreateTopicCommand) (s : ForumState)
  : result ForumStoreError (ForumReceipt * ForumState) :=
  forum_transaction binding CREATE_TOPIC_OPERATION "forum topic ID" FORUM_TOPIC_SUBJECT
    (blake3 (topic_preimage binding c)) (fct_identity c) (fun s =>
    insert_topic {| ft_author := authority_author_columns binding; ft_name := fct_name c;
      ft_description := fct_description c; ft_created_at := now (authority s);
      ft_supersedes_topic_id := None |} s) s.

Definition create_thread (binding : ActorConnectionIdentity) (c : ForumCreateThreadCommand) (s : ForumState)
  : result ForumStoreError (ForumReceipt * ForumState) :=
  forum_transaction binding CREATE_THREAD_OPERATION "forum thread ID" FORUM_THREAD_SUBJECT
    (blake3 (thread_preimage binding c)) (fch_identity c) (fun s =>
    insert_thread {| fh_topic_id := fch_topic_id c; fh_author := authority_author_columns binding;
      fh_title := fch_title c; fh_created_at := now (authority s);
      fh_supersedes_thread_id := None |} s) s.

Definition supersede_topic (binding : ActorConnectionIdentity) (c : ForumSupersedeTopicCommand) (s : ForumState)
  : result ForumStoreError (ForumReceipt * ForumState) :=
  forum_transaction binding SUPERSEDE_TOPIC_OPERATION "forum topic ID" FORUM_TOPIC_SUBJECT
    (blake3 (supersede_topic_preimage binding c)) (fst_identity c) (fun s =>
    require (bool_decide (is_Some (topics s !! fst_supersedes_topic_id c))) SupersessionTargetMissing ;;
    insert_topic {| ft_author := authority_author_columns binding; ft_name := fst_name c;
      ft_description := fst_description c; ft_created_at := now (authority s);
      ft_supersedes_topic_id := Some (fst_supersedes_topic_id c) |} s) s.

Definition supersede_thread (binding : ActorConnectionIdentity) (c : ForumSupersedeThreadCommand) (s : ForumState)
  : result ForumStoreError (ForumReceipt * ForumState) :=
  forum_transaction binding SUPERSEDE_THREAD_OPERATION "forum thread ID" FORUM_THREAD_SUBJECT
    (blake3 (supersede_thread_preimage binding c)) (fsh_identity c) (fun s =>
    target ← ok_or (threads s !! fsh_supersedes_thread_id c) SupersessionTargetMissing;
    require (negb (negb (fh_topic_id target =? fsh_topic_id c))) SupersessionParentMismatch ;;
    insert_thread {| fh_topic_id := fsh_topic_id c; fh_author := authority_author_columns binding;
      fh_title := fsh_title c; fh_created_at := now (authority s);
      fh_supersedes_thread_id := Some (fsh_supersedes_thread_id c) |} s) s.

Definition append_post (binding : ActorConnectionIdentity) (c : ForumPostCommand) (s : ForumState)
  : result ForumStoreError (ForumReceipt * ForumState) :=
  let input := fpc_input c in
  map_err ForumContract (post_input_validate input) ;;
  forum_transaction binding POST_OPERATION "forum post ID" FORUM_POST_SUBJECT
    (blake3 (post_preimage binding c)) (fpc_identity c) (fun s =>
    '(id, s1) ← insert_post {| fp_thread_id := fpc_thread_id c; fp_author := authority_author_columns binding;
      fp_body := fpi_body input; fp_kind := post_kind_number (fpi_kind input);
      fp_reply_to_post_id := fpi_reply_to input; fp_supersedes_post_id := fpi_supersedes input;
      fp_created_at := now (authority s) |} s;
    s2 ← insert_attachments id (fpi_attachments input) s1;
    Ok (id, s2)) s.

Inductive ForumCommand :=
  | CreateTopic (binding : ActorConnectionIdentity) (c : ForumCreateTopicCommand)
  | CreateThread (binding : ActorConnectionIdentity) (c : ForumCreateThreadCommand)
  | SupersedeTopic (binding : ActorConnectionIdentity) (c : ForumSupersedeTopicCommand)
  | SupersedeThread (binding : ActorConnectionIdentity) (c : ForumSupersedeThreadCommand)
  | AppendPost (binding : ActorConnectionIdentity) (c : ForumPostCommand).

Definition execute_forum (command : ForumCommand) (s : ForumState)
  : result ForumStoreError (ForumReceipt * ForumState) :=
  match command with
  | CreateTopic binding c => create_topic binding c s
  | CreateThread binding c => create_thread binding c s
  | SupersedeTopic binding c => supersede_topic binding c s
  | SupersedeThread binding c => supersede_thread binding c s
  | AppendPost binding c => append_post binding c s
  end.
End Commands.

(** * Status *)

Record ForumWriteCounts := {
  topic_count : Z;
  thread_count : Z;
  post_count : Z;
  attachment_count : Z;
  audit_count : Z;
}.

Definition count_u64 (n : nat) : result ForumStoreError Z :=
  require (Z.of_nat n <=? u64_max) CountOutOfRange ;; Ok (Z.of_nat n).

Definition write_counts (s : ForumState) : result ForumStoreError ForumWriteCounts :=
  topics ← count_u64 (size (topics s));
  threads ← count_u64 (size (threads s));
  posts ← count_u64 (size (posts s));
  attachments ← count_u64 (size (attachments s));
  audit ← count_u64 (length (forum_receipts s));
  Ok {| topic_count := topics; thread_count := threads; post_count := posts;
        attachment_count := attachments; audit_count := audit |}.

Definition forum_status (s : ForumState) : result ForumStoreError (Z * ForumWriteCounts) :=
  counts ← write_counts s;
  revision ← current_forum_revision s;
  Ok (revision, counts).

(** * Reads

    What the reads ask of PostgreSQL: its full-text functions, with a rank given
    by the bits of its [real] (ranks are finite and nonnegative, on which the
    order of the bits is the order of the numbers), and its two conversions
    between a timestamp and microseconds. *)
Class PostgresFunctions := {
  text_matches : string -> string -> bool;  (** [to_tsvector('simple', text) @@ query] *)
  ts_rank_cd : string -> string -> Z;
  ts_headline : string -> string -> string;
  epoch_micros : Z -> Z;                    (** [floor(extract(epoch FROM t) * 1000000)] *)
  timestamp_of_micros : Z -> Z;             (** [to_timestamp(micros / 1000000.0)] *)
}.

Section Reads.
Context `{PostgresFunctions}.

Record ForumTopicView := {
  ftv_topic_id : Z;
  ftv_author : ForumAuthor;
  ftv_name : string;
  ftv_description : string;
  ftv_created_at_micros : Z;
}.

Record ForumThreadView := {
  fhv_thread_id : Z;
  fhv_topic_id : Z;
  fhv_author : ForumAuthor;
  fhv_title : string;
  fhv_created_at_micros : Z;
}.

Record ForumPostView := {
  fpv_post_id : Z;
  fpv_thread_id : Z;
  fpv_author : ForumAuthor;
  fpv_body : string;
  fpv_kind : ForumPostKind;
  fpv_reply_to : option Z;
  fpv_supersedes : option Z;
  fpv_attachments : list (Z * string);
  fpv_created_at_micros : Z;
}.

Definition created_micros (t : Z) : result ForumStoreError Z :=
  require (0 <=? epoch_micros t) TimestampOutOfRange ;; Ok (epoch_micros t).

(** [WHERE p AND id > after ORDER BY id LIMIT limit] *)
Definition page_of {V} (p : V -> bool) (after limit : Z) (table : gmap Z V) : list (Z * V) :=
  take (Z.to_nat limit) (order_by (fun kv => [kv.1])
    (rows_where (fun id row => p row && (after <? id)) table)).

Definition attachment_rows (s : ForumState) (post_ids : list Z) : list ((Z * Z) * string) :=
  order_by (fun kv => [kv.1.1; kv.1.2])
    (List.filter (fun kv => bool_decide (kv.1.1 ∈ post_ids)) (map_to_list (attachments s))).

Definition post_view (attached : list ((Z * Z) * string)) (entry : Z * PostRow)
  : result ForumStoreError ForumPostView :=
  let '(id, row) := entry in
  post ← forum_id "forum post ID" id;
  thread ← forum_id "forum thread ID" (fp_thread_id row);
  author ← author_from_columns (fp_author row);
  kind ← post_kind_from_number (fp_kind row);
  reply ← transpose_map (forum_id "forum post ID") (fp_reply_to_post_id row);
  superseded ← transpose_map (forum_id "forum post ID") (fp_supersedes_post_id row);
  micros ← created_micros (fp_created_at row);
  Ok {| fpv_post_id := post; fpv_thread_id := thread; fpv_author := author; fpv_body := fp_body row;
        fpv_kind := kind; fpv_reply_to := reply; fpv_supersedes := superseded;
        fpv_attachments := (fun kv => (kv.1.2, kv.2)) <$> List.filter (fun kv => kv.1.1 =? id) attached;
        fpv_created_at_micros := micros |}.

Definition read_thread (page : ForumThreadPage) (s : ForumState) : result ForumStoreError (list ForumPostView) :=
  let rows := page_of (fun row => fp_thread_id row =? ftp_thread_id page)
                (default 0 (ftp_after_post_id page)) (ftp_limit page) (posts s) in
  let attached := attachment_rows s rows.*1 in
  for_each (fun kv => _ ← forum_id "artifact ID" kv.1.2; Ok tt) attached ;;
  map_ok (post_view attached) rows.

Definition topic_view (entry : Z * TopicRow) : result ForumStoreError ForumTopicView :=
  let '(id, row) := entry in
  topic ← forum_id "forum topic ID" id;
  author ← author_from_columns (ft_author row);
  micros ← created_micros (ft_created_at row);
  Ok {| ftv_topic_id := topic; ftv_author := author; ftv_name := ft_name row;
        ftv_description := ft_description row; ftv_created_at_micros := micros |}.

(** Identifiers are positive, so that no cursor is the cursor 0. *)
Definition list_topics (after_topic_id : option Z) (limit : Z) (s : ForumState)
  : result ForumStoreError (list ForumTopicView) :=
  map_ok topic_view (page_of (fun _ => true) (default 0 after_topic_id) limit (topics s)).

Definition thread_view (entry : Z * ThreadRow) : result ForumStoreError ForumThreadView :=
  let '(id, row) := entry in
  thread ← forum_id "forum thread ID" id;
  topic ← forum_id "forum topic ID" (fh_topic_id row);
  author ← author_from_columns (fh_author row);
  micros ← created_micros (fh_created_at row);
  Ok {| fhv_thread_id := thread; fhv_topic_id := topic; fhv_author := author;
        fhv_title := fh_title row; fhv_created_at_micros := micros |}.

Definition list_threads (topic_id : Z) (after_thread_id : option Z) (limit : Z) (s : ForumState)
  : result ForumStoreError (list ForumThreadView) :=
  map_ok thread_view (page_of (fun row => fh_topic_id row =? topic_id) (default 0 after_thread_id) limit (threads s)).

(** ** Search *)

Record Match := {
  m_topic_id : Z;
  m_thread_id : Z;
  m_post_id : Z;
  m_rank : Z;
  m_source_precedence : Z;
  m_matched_text : string;
}.

(** The rows [matches] has for a post: its own body, the title of its thread and
    the name and description of its topic, each where its text matches. *)
Definition post_matches (query : string) (s : ForumState) (post_id : Z) (row : PostRow) : list Match :=
  match threads s !! fp_thread_id row with
  | None => []
  | Some thread =>
      match topics s !! fh_topic_id thread with
      | None => []
      | Some topic =>
          let candidate precedence indexed shown :=
            if text_matches indexed query
            then [{| m_topic_id := fh_topic_id thread; m_thread_id := fp_thread_id row; m_post_id := post_id;
                     m_rank := ts_rank_cd indexed query; m_source_precedence := precedence;
                     m_matched_text := shown |}]
            else [] in
          candidate 0 (fp_body row) (fp_body row)
          ++ candidate 1 (fh_title thread) (fh_title thread)
          ++ candidate 2 (ft_name topic +:+ " " +:+ ft_description topic)
               (ft_name topic +:+ " — " +:+ ft_description topic)
      end
  end.

(** [DISTINCT ON (post_id) ... ORDER BY post_id, rank DESC, source_precedence ASC] *)
Definition best_match (query : string) (s : ForumState) (post_id : Z) (row : PostRow) : option Match :=
  first_by (fun m => [- m_rank m; m_source_precedence m]) (post_matches query s post_id row).

Definition filter_by {A} `{EqDecision A} (wanted : option A) (value : option A) : bool :=
  match wanted with None => true | Some _ => bool_decide (wanted = value) end.

Definition after_cursor (cursor : option ForumSearchCursor) (m : Match) : bool :=
  match cursor with
  | None => true
  | Some c => (m_rank m <? rank_bits c) || ((m_rank m =? rank_bits c) && (cursor_post_id c <? m_post_id m))
  end.

Definition search_filter (input : ForumSearchInput) (row : PostRow) (m : Match) : bool :=
  filter_by (fsi_topic_id input) (Some (m_topic_id m))
  && filter_by (fsi_thread_id input) (Some (m_thread_id m))
  && filter_by (office_number <$> fsi_author_office input) (ac_office (fp_author row))
  && filter_by (post_kind_number <$> fsi_post_kind input) (Some (fp_kind row))
  && match fsi_created_after_micros input with
     | Some after => timestamp_of_micros after <=? fp_created_at row | None => true end
  && match fsi_created_before_micros input with
     | Some before => fp_created_at row <? timestamp_of_micros before | None => true end
  && after_cursor (fsi_cursor input) m.

Definition search_order (entry : Match * PostRow) : list Z := [- m_rank entry.1; m_post_id entry.1].

(** The hits of a query, before [LIMIT]. *)
Definition search_hits (input : ForumSearchInput) (s : ForumState) : list (Match * PostRow) :=
  order_by search_order
    (map_to_list (posts s) ≫= fun entry =>
       match best_match (fsi_query input) s entry.1 entry.2 with
       | Some m => if search_filter input entry.2 m then [(m, entry.2)] else []
       | None => []
       end).

Record ForumSearchHit := {
  fh_hit_topic_id : Z;
  fh_hit_thread_id : Z;
  fh_hit_post_id : Z;
  fh_hit_kind : ForumPostKind;
  fh_hit_author_office : option AssignmentRole;
  fh_hit_rank_bits : Z;
  fh_hit_snippet : string;
  fh_hit_topic_name : string;
  fh_hit_thread_title : string;
}.

(** [str::is_char_boundary] inside the text *)
Definition is_char_boundary (bytes : list Z) (index : nat) : bool :=
  match bytes !! index with
  | None => Nat.eqb index (length bytes)
  | Some b => negb ((128 <=? b) && (b <? 192))
  end.

Fixpoint boundary_before (bytes : list Z) (end_ : nat) : nat :=
  match end_ with
  | O => O
  | S e => if is_char_boundary bytes end_ then end_ else boundary_before bytes e
  end.

Definition truncate_utf8 (value : string) (maximum : Z) : string :=
  if string_len value <=? maximum then value
  else let bytes := string_bytes value in text_of (take (boundary_before bytes (Z.to_nat maximum)) bytes).

Definition micros_to_i64 (value : option Z) : result ForumStoreError (option Z) :=
  transpose_map (fun micros => require (micros <=? i64_max) TimestampOutOfRange ;; Ok micros) value.

Definition search_hit (s : ForumState) (query : string) (entry : Match * PostRow)
  : result ForumStoreError ForumSearchHit :=
  let '(m, row) := entry in
  topic ← forum_id "forum topic ID" (m_topic_id m);
  thread ← forum_id "forum thread ID" (m_thread_id m);
  post ← forum_id "forum post ID" (m_post_id m);
  kind ← post_kind_from_number (fp_kind row);
  office ← transpose_map office_from_number (ac_office (fp_author row));
  Ok {| fh_hit_topic_id := topic; fh_hit_thread_id := thread; fh_hit_post_id := post; fh_hit_kind := kind;
        fh_hit_author_office := office; fh_hit_rank_bits := m_rank m;
        fh_hit_snippet := truncate_utf8 (ts_headline (m_matched_text m) query) FORUM_SNIPPET_MAX_BYTES;
        fh_hit_topic_name := from_option ft_name "" (topics s !! m_topic_id m);
        fh_hit_thread_title := from_option fh_title "" (threads s !! m_thread_id m) |}.

Definition search (input : ForumSearchInput) (s : ForumState) : result ForumStoreError (list ForumSearchHit) :=
  map_err ForumContract (search_input_validate input) ;;
  micros_to_i64 (fsi_created_after_micros input) ;;
  micros_to_i64 (fsi_created_before_micros input) ;;
  map_ok (search_hit s (fsi_query input)) (take (Z.to_nat (fsi_limit input)) (search_hits input s)).
End Reads.

(** * The actor socket

    The actor socket's read-only view of the Forum: decoded requests, pages with
    the cursor of the next one, and error codes
    ([crates/factory-kernel/src/forum_rpc.rs]). *)

Inductive ForumRpcError :=
  | RpcContract (e : ContractError)
  | RpcStore (e : ForumStoreError)
  | InvalidCursor
  | InvalidOffice
  | InvalidPostKind.

(** * Requests, as the frame codec hands them over *)

Record ForumListTopicsRequestV2 := { ltr_request_id : string; ltr_cursor : string; ltr_limit : Z }.

Record ForumListThreadsRequestV2 := {
  lhr_request_id : string;
  lhr_topic_id : Z;
  lhr_cursor : string;
  lhr_limit : Z;
}.

Record ForumReadThreadRequestV2 := {
  rtr_request_id : string;
  rtr_thread_id : Z;
  rtr_after_post_id : Z;
  rtr_limit : Z;
}.

Record ForumSearchRequestV2 := {
  fsr_request_id : string;
  fsr_query : string;
  fsr_topic_id : option Z;
  fsr_thread_id : option Z;
  fsr_author_office : option Z;
  fsr_post_kind : option Z;
  fsr_created_after_micros : option Z;
  fsr_created_before_micros : option Z;
  fsr_cursor : string;
  fsr_limit : Z;
}.

Inductive ForumRequest :=
  | ListTopics (request : ForumListTopicsRequestV2)
  | ListThreads (request : ForumListThreadsRequestV2)
  | ReadThread (request : ForumReadThreadRequestV2)
  | Search (request : ForumSearchRequestV2).

(** * Responses *)

Definition author_columns_wire : Type := Z * option Z * option Z.

Record ForumTopicViewV2 := {
  tv2_id : Z;
  tv2_name : string;
  tv2_description : string;
  tv2_author : author_columns_wire;
  tv2_created_at_micros : Z;
}.

Record ForumThreadViewV2 := {
  hv2_id : Z;
  hv2_topic_id : Z;
  hv2_title : string;
  hv2_author : author_columns_wire;
  hv2_created_at_micros : Z;
}.

Record ForumPostViewV2 := {
  pv2_id : Z;
  pv2_thread_id : Z;
  pv2_kind : Z;
  pv2_body : string;
  pv2_author : author_columns_wire;
  pv2_reply_to : option Z;
  pv2_supersedes : option Z;
  pv2_attachments : list (Z * string);
  pv2_created_at_micros : Z;
}.

Record ForumSearchHitV2 := {
  sh2_topic_id : Z;
  sh2_thread_id : Z;
  sh2_post_id : Z;
  sh2_kind : Z;
  sh2_author_office : option Z;
  sh2_rank_bits : Z;
  sh2_snippet : string;
  sh2_topic_name : string;
  sh2_thread_title : string;
}.

Inductive ForumItems :=
  | TopicItems (items : list ForumTopicViewV2)
  | ThreadItems (items : list ForumThreadViewV2)
  | PostItems (items : list ForumPostViewV2)
  | HitItems (items : list ForumSearchHitV2).

Record ForumResponse := { fr_request_id : string; fr_items : ForumItems; fr_next_cursor : string }.

(** * Conversions *)

Definition office_code (role : AssignmentRole) : Z :=
  match role with ProductResearch => 0 | Engineering => 1 | Quality => 2 end.

Definition office (value : Z) : result ForumRpcError AssignmentRole :=
  if value =? 0 then Ok ProductResearch
  else if value =? 1 then Ok Engineering
  else if value =? 2 then Ok Quality
  else Err InvalidOffice.

Definition post_kind_code (kind : ForumPostKind) : Z :=
  match kind with
  | Note => 0 | Question => 1 | Finding => 2 | Proposal => 3 | Challenge => 4 | Correction => 5 | DecisionLink => 6
  end.

Definition post_kind (value : Z) : result ForumRpcError ForumPostKind :=
  if value =? 0 then Ok Note
  else if value =? 1 then Ok Question
  else if value =? 2 then Ok Finding
  else if value =? 3 then Ok Proposal
  else if value =? 4 then Ok Challenge
  else if value =? 5 then Ok Correction
  else if value =? 6 then Ok DecisionLink
  else Err InvalidPostKind.

Definition author_wire (author : ForumAuthor) : author_columns_wire :=
  match author with
  | ForumActor session_id role => (0, Some session_id, Some (office_code role))
  | GrandArchitect => (1, None, None)
  end.

Definition topic_wire (item : ForumTopicView) : ForumTopicViewV2 := {|
  tv2_id := ftv_topic_id item; tv2_name := ftv_name item; tv2_description := ftv_description item;
  tv2_author := author_wire (ftv_author item); tv2_created_at_micros := ftv_created_at_micros item |}.

Definition thread_wire (item : ForumThreadView) : ForumThreadViewV2 := {|
  hv2_id := fhv_thread_id item; hv2_topic_id := fhv_topic_id item; hv2_title := fhv_title item;
  hv2_author := author_wire (fhv_author item); hv2_created_at_micros := fhv_created_at_micros item |}.

Definition post_wire (item : ForumPostView) : ForumPostViewV2 := {|
  pv2_id := fpv_post_id item; pv2_thread_id := fpv_thread_id item; pv2_kind := post_kind_code (fpv_kind item);
  pv2_body := fpv_body item; pv2_author := author_wire (fpv_author item);
  pv2_reply_to := fpv_reply_to item; pv2_supersedes := fpv_supersedes item;
  pv2_attachments := fpv_attachments item; pv2_created_at_micros := fpv_created_at_micros item |}.

Definition search_wire (item : ForumSearchHit) : ForumSearchHitV2 := {|
  sh2_topic_id := fh_hit_topic_id item; sh2_thread_id := fh_hit_thread_id item;
  sh2_post_id := fh_hit_post_id item; sh2_kind := post_kind_code (fh_hit_kind item);
  sh2_author_office := office_code <$> fh_hit_author_office item; sh2_rank_bits := fh_hit_rank_bits item;
  sh2_snippet := fh_hit_snippet item; sh2_topic_name := fh_hit_topic_name item;
  sh2_thread_title := fh_hit_thread_title item |}.

(** * Cursors *)

Definition page_cursor (length limit : Z) (last : option Z) : string :=
  if length =? limit then from_option pretty "" last else "".

Definition rpc_id (kind : string) (value : Z) : result ForumRpcError Z :=
  map_err RpcContract (identifier_new kind value).

Definition parse_optional_id (kind value : string) : result ForumRpcError (option Z) :=
  if string_len value =? 0 then Ok None
  else
    parsed ← ok_or (parse_i64 value) InvalidCursor;
    Some <$> rpc_id kind parsed.

Definition optional_positive_id (kind : string) (value : Z) : result ForumRpcError (option Z) :=
  if value =? 0 then Ok None else Some <$> rpc_id kind value.

(** * Dispatch *)

Section Dispatch.
Context `{PostgresFunctions}.

Definition page_length {A} (items : list A) : Z := Z.of_nat (length items).

Definition dispatch_list_topics (request : ForumListTopicsRequestV2) (s : ForumState)
  : result ForumRpcError ForumResponse :=
  limit ← map_err RpcContract (forum_page_limit (ltr_limit request));
  after ← parse_optional_id "forum topic ID" (ltr_cursor request);
  items ← map_err RpcStore (list_topics after limit s);
  Ok {| fr_request_id := ltr_request_id request; fr_items := TopicItems (topic_wire <$> items);
        fr_next_cursor := page_cursor (page_length items) limit (ftv_topic_id <$> last items) |}.

Definition dispatch_list_threads (request : ForumListThreadsRequestV2) (s : ForumState)
  : result ForumRpcError ForumResponse :=
  limit ← map_err RpcContract (forum_page_limit (lhr_limit request));
  topic ← rpc_id "forum topic ID" (lhr_topic_id request);
  after ← parse_optional_id "forum thread ID" (lhr_cursor request);
  items ← map_err RpcStore (list_threads topic after limit s);
  Ok {| fr_request_id := lhr_request_id request; fr_items := ThreadItems (thread_wire <$> items);
        fr_next_cursor := page_cursor (page_length items) limit (fhv_thread_id <$> last items) |}.

Definition dispatch_read_thread (request : ForumReadThreadRequestV2) (s : ForumState)
  : result ForumRpcError ForumResponse :=
  limit ← map_err RpcContract (forum_page_limit (rtr_limit request));
  thread ← rpc_id "forum thread ID" (rtr_thread_id request);
  after ← optional_positive_id "forum post ID" (rtr_after_post_id request);
  items ← map_err RpcStore (read_thread
    {| ftp_thread_id := thread; ftp_after_post_id := after; ftp_limit := limit |} s);
  Ok {| fr_request_id := rtr_request_id request; fr_items := PostItems (post_wire <$> items);
        fr_next_cursor := page_cursor (page_length items) limit (fpv_post_id <$> last items) |}.

Definition hit_cursor (item : ForumSearchHit) : string :=
  cursor_encode {| rank_bits := fh_hit_rank_bits item; cursor_post_id := fh_hit_post_id item |}.

Definition dispatch_search (request : ForumSearchRequestV2) (s : ForumState)
  : result ForumRpcError ForumResponse :=
  limit ← map_err RpcContract (forum_page_limit (fsr_limit request));
  query ← map_err RpcContract (forum_search_query (fsr_query request));
  topic ← transpose_map (rpc_id "forum topic ID") (fsr_topic_id request);
  thread ← transpose_map (rpc_id "forum thread ID") (fsr_thread_id request);
  author ← transpose_map office (fsr_author_office request);
  kind ← transpose_map post_kind (fsr_post_kind request);
  cursor ← (if string_len (fsr_cursor request) =? 0 then Ok None
            else Some <$> map_err RpcContract (cursor_decode (fsr_cursor request)));
  items ← map_err RpcStore (search
    {| fsi_query := query; fsi_topic_id := topic; fsi_thread_id := thread; fsi_author_office := author;
       fsi_post_kind := kind; fsi_created_after_micros := fsr_created_after_micros request;
       fsi_created_before_micros := fsr_created_before_micros request; fsi_limit := limit;
       fsi_cursor := cursor |} s);
  Ok {| fr_request_id := fsr_request_id request; fr_items := HitItems (search_wire <$> items);
        fr_next_cursor := if page_length items =? limit then from_option hit_cursor "" (last items) else "" |}.

Definition dispatch (request : ForumRequest) (s : ForumState) : result ForumRpcError ForumResponse :=
  match request with
  | ListTopics request => dispatch_list_topics request s
  | ListThreads request => dispatch_list_threads request s
  | ReadThread request => dispatch_read_thread request s
  | Search request => dispatch_search request s
  end.

Definition forum_error_code (error : ForumRpcError) : string :=
  match error with
  | RpcStore (ForumRevisionConflict _ _) => "revision_conflict"
  | RpcStore ForumIdempotencyConflict => "idempotency_conflict"
  | RpcStore _ => "forum_rejected"
  | RpcContract _ | InvalidCursor | InvalidOffice | InvalidPostKind => "invalid_forum_request"
  end.

(** [dispatch_actor_forum]: a response, or an error response by its code. *)
Definition dispatch_actor_forum (request : ForumRequest) (s : ForumState) : ForumResponse + string :=
  match dispatch request s with Ok response => inl response | Err e => inr (forum_error_code e) end.
End Dispatch.
