(* ===== verification/PublicationStore.v ===== *)
(** Anchored publications: the one command of actors and operators that writes
    institutional discourse, its table and its socket adapters
    ([crates/factory-kernel/src/publication_store.rs], [publication_rpc.rs],
    [operator_publication_rpc.rs] and the publication requests of [wire.rs]). *)
From stdpp Require Import pretty.
From S2P Require Import Prelude Values Contracts Institutional Database ProcessReads.
From S2P Require TicketStore.

#[local] Open Scope string_scope.
#[local] Open Scope list_scope.
#[local] Open Scope Z_scope.

Definition PUBLICATION_SUBJECT : Z := 60.
Definition CREATE_PUBLICATION_OPERATION : string := "publication.create".

Record PublicationAttachmentInput := { pai_artifact_id : Z; pai_label : string }.

Record CreatePublication := {
  cp_client_command_id : string;
  cp_anchor : InstitutionalReference;
  cp_kind : PublicationKind;
  cp_summary : string;
  cp_body_artifact_id : Z;
  cp_attachments : list PublicationAttachmentInput;
  cp_reply_to : option Z;
  cp_supersedes : option Z;
}.

Record PublicationReceipt := {
  pr_publication_id : Z;
  pr_resulting_revision : Z;
  pr_audit_log_id : Z;
  pr_was_idempotent_retry : bool;
}.

(** [AnchorPanic] is the [unreachable!] of [anchor_columns]. *)
Inductive PublicationStoreError :=
  | InvalidCommandIdentity
  | InvalidAnchor
  | InvalidSummary
  | AttachmentLimitExceeded
  | InvalidAttachmentLabel
  | DuplicateAttachmentArtifact
  | BoundSessionUnavailable
  | InactiveOrUnknownOffice (office_id : Z)
  | UnknownArtifact (artifact_id : Z)
  | PublicationIdempotencyConflict (principal command_id : string)
  | PublicationSubjectMismatch
  | PublicationRevisionOutOfRange
  | PublicationContract (e : ContractError)
  | PublicationDatabase (constraint : string)
  | AnchorPanic.

(** * Tables *)

Record AnchorColumns := {
  an_project_id : option Z;
  an_rfc_id : option Z;
  an_rfc_revision_id : option Z;
  an_ticket_id : option Z;
  an_ticket_revision_id : option Z;
  an_experiment_id : option Z;
  an_claim_id : option Z;
  an_decision_id : option Z;
  an_office_id : option Z;
}.

Definition anchor_columns (reference : InstitutionalReference) : option AnchorColumns :=
  match reference with
  | IrProject id => Some (Build_AnchorColumns (Some id) None None None None None None None None)
  | IrRfc id => Some (Build_AnchorColumns None (Some id) None None None None None None None)
  | IrRfcRevision id => Some (Build_AnchorColumns None None (Some id) None None None None None None)
  | IrTicket id => Some (Build_AnchorColumns None None None (Some id) None None None None None)
  | IrTicketRevision id => Some (Build_AnchorColumns None None None None (Some id) None None None None)
  | IrExperiment id => Some (Build_AnchorColumns None None None None None (Some id) None None None)
  | IrClaim id => Some (Build_AnchorColumns None None None None None None (Some id) None None)
  | IrDecision id => Some (Build_AnchorColumns None None None None None None None (Some id) None)
  | IrOffice id => Some (Build_AnchorColumns None None None None None None None None (Some id))
  | IrExperimentRun _ | IrPublication _ => None
  end.

(** The objects the columns name. *)
Definition column_references (a : AnchorColumns) : list InstitutionalReference :=
  omap id [IrProject <$> an_project_id a; IrRfc <$> an_rfc_id a; IrRfcRevision <$> an_rfc_revision_id a;
           IrTicket <$> an_ticket_id a; IrTicketRevision <$> an_ticket_revision_id a;
           IrExperiment <$> an_experiment_id a; IrClaim <$> an_claim_id a; IrDecision <$> an_decision_id a;
           IrOffice <$> an_office_id a].

Record PublicationRow := {
  pb_application_revision_id : Z;
  pb_authoring_office_id : Z;
  pb_originating_session_id : option Z;
  pb_publication_kind : Z;
  pb_summary : string;
  pb_body_artifact_id : Z;
  pb_anchor : AnchorColumns;
  pb_reply_to_publication_id : option Z;
  pb_supersedes_publication_id : option Z;
  pb_created_at : Z;
}.

Record AttachmentRow := { at_application_revision_id : Z; at_label : string }.

(** [objects] are the rows of the institutional tables this kernel only reads:
    their reference and application revision. *)
Record PublicationState := {
  kernel : Database;
  objects : list (InstitutionalReference * Z);
  publications : gmap Z PublicationRow;
  publication_attachments : gmap (Z * Z) AttachmentRow;
}.

Definition set_kernel (db : Database) (s : PublicationState) : PublicationState :=
  {| kernel := db; objects := objects s; publications := publications s;
     publication_attachments := publication_attachments s |}.
Definition set_publications (m : gmap Z PublicationRow) (s : PublicationState) : PublicationState :=
  {| kernel := kernel s; objects := objects s; publications := m;
     publication_attachments := publication_attachments s |}.
Definition set_publication_attachments (m : gmap (Z * Z) AttachmentRow) (s : PublicationState) : PublicationState :=
  {| kernel := kernel s; objects := objects s; publications := publications s; publication_attachments := m |}.

Definition office_in (db : Database) (id application : Z) : bool :=
  exists_where (fun k row => (k =? id) && (of_application_revision_id row =? application)) (offices db).

(** The anchor's foreign keys, each with the application revision. *)
Definition object_exists (s : PublicationState) (application : Z) (reference : InstitutionalReference) : bool :=
  match reference with
  | IrTicket id => exists_where (fun k row => (k =? id) && (t_application_revision_id row =? application))
      (tickets (kernel s))
  | IrTicketRevision id => exists_where (fun k row => (k =? id)
      && (tr_application_revision_id (tr_contract row) =? application)) (ticket_revisions (kernel s))
  | IrOffice id => office_in (kernel s) id application
  | reference => bool_decide ((reference, application) ∈ objects s)
  end.

Definition publication_in (s : PublicationState) (application : Z) (id : option Z) : bool :=
  match id with
  | None => true
  | Some id => exists_where (fun k row => (k =? id) && (pb_application_revision_id row =? application)) (publications s)
  end.

Definition session_in (db : Database) (id : option Z) (application office : Z) : bool :=
  match id with
  | None => true
  | Some id => exists_where (fun k row => (k =? id)
      && (si_application_revision_id (ses_identity row) =? application)
      && (si_office_id (ses_identity row) =? office)) (sessions db)
  end.

(** [octet_length(summary) BETWEEN 1 AND 4096 AND summary !~ E'[\\n\\r\\000]'] *)
Definition summary_check (summary : string) : bool :=
  (1 <=? string_len summary) && (string_len summary <=? 4096)
  && negb (contains_byte 10 summary || contains_byte 13 summary || contains_byte 0 summary).

Definition differs_from (id : Z) (link : option Z) : bool := negb (bool_decide (link = Some id)).

Definition insert_publication (row : PublicationRow) (s : PublicationState)
  : result PublicationStoreError (Z * PublicationState) :=
  let id := fresh_id (publications s) in
  let application := pb_application_revision_id row in
  require (id <=? i64_max) (PublicationDatabase "publications_id_seq") ;;
  require ((0 <=? pb_publication_kind row) && (pb_publication_kind row <=? 5))
    (PublicationDatabase "publications_publication_kind_check") ;;
  require (summary_check (pb_summary row)) (PublicationDatabase "publications_summary_check") ;;
  require (Nat.eqb (length (column_references (pb_anchor row))) 1)
    (PublicationDatabase "publications_exactly_one_anchor_check") ;;
  require (differs_from id (pb_reply_to_publication_id row) && differs_from id (pb_supersedes_publication_id row))
    (PublicationDatabase "publications_no_self_link_check") ;;
  require (bool_decide (is_Some (application_revisions (kernel s) !! application)))
    (PublicationDatabase "publications_application_revision_id_fkey") ;;
  require (bool_decide (is_Some (artifacts (kernel s) !! pb_body_artifact_id row)))
    (PublicationDatabase "publications_body_artifact_id_fkey") ;;
  require (office_in (kernel s) (pb_authoring_office_id row) application)
    (PublicationDatabase "publications_authoring_office_scope_fkey") ;;
  require (session_in (kernel s) (pb_originating_session_id row) application (pb_authoring_office_id row))
    (PublicationDatabase "publications_originating_session_scope_fkey") ;;
  require (forallb (object_exists s application) (column_references (pb_anchor row)))
    (PublicationDatabase "publications_anchor_scope_fkey") ;;
  require (publication_in s application (pb_reply_to_publication_id row))
    (PublicationDatabase "publications_reply_scope_fkey") ;;
  require (publication_in s application (pb_supersedes_publication_id row))
    (PublicationDatabase "publications_supersedes_scope_fkey") ;;
  Ok (id, set_publications (<[id := row]> (publications s)) s).

Definition attachments_of (s : PublicationState) (publication application : Z) : list ((Z * Z) * AttachmentRow) :=
  List.filter (fun kv => (kv.1.1 =? publication) && (at_application_revision_id kv.2 =? application))
    (map_to_list (publication_attachments s)).

Definition insert_attachment (publication application : Z) (input : PublicationAttachmentInput) (s : PublicationState)
  : result PublicationStoreError PublicationState :=
  let key := (publication, pai_artifact_id input) in
  require (negb (8 <=? Z.of_nat (length (attachments_of s publication application))))
    (PublicationDatabase "eight-attachment quota") ;;
  require ((1 <=? string_len (pai_label input)) && (string_len (pai_label input) <=? 160))
    (PublicationDatabase "publication_attachments_label_check") ;;
  require (bool_decide (publication_attachments s !! key = None)) (PublicationDatabase "publication_attachments_pkey") ;;
  require (bool_decide (is_Some (application_revisions (kernel s) !! application)))
    (PublicationDatabase "publication_attachments_application_revision_id_fkey") ;;
  require (bool_decide (is_Some (artifacts (kernel s) !! pai_artifact_id input)))
    (PublicationDatabase "publication_attachments_artifact_id_fkey") ;;
  require (publication_in s application (Some publication))
    (PublicationDatabase "publication_attachments_publication_scope_fkey") ;;
  Ok (set_publication_attachments
        (<[key := {| at_application_revision_id := application; at_label := pai_label input |}]>
           (publication_attachments s)) s).

Fixpoint insert_attachments (publication application : Z) (inputs : list PublicationAttachmentInput)
    (s : PublicationState) : result PublicationStoreError PublicationState :=
  match inputs with
  | [] => Ok s
  | input :: inputs =>
      s ← insert_attachment publication application input s;
      insert_attachments publication application inputs s
  end.

(** * The command *)

Definition publication_kind_code (kind : PublicationKind) : Z :=
  match kind with
  | PubFinding => 0 | PubQuestion => 1 | PubChallenge => 2 | PubCorrection => 3 | PubDecisionLink => 4 | PubNote => 5
  end.

Definition publication_text (value : string) (maximum : Z) : bool :=
  negb ((string_len value =? 0) || (maximum <? string_len value) || contains_byte 0 value).

Definition validate_publication (c : CreatePublication) : result PublicationStoreError unit :=
  require (TicketStore.command_component (cp_client_command_id c)) InvalidCommandIdentity ;;
  require (can_anchor_publication (cp_anchor c)) InvalidAnchor ;;
  require (publication_text (cp_summary c) INSTITUTIONAL_SUMMARY_MAX_BYTES) InvalidSummary ;;
  require (Z.of_nat (length (cp_attachments c)) <=? PUBLICATION_MAX_ATTACHMENTS) AttachmentLimitExceeded ;;
  for_each_seen pai_artifact_id DuplicateAttachmentArtifact
    (fun a => require (publication_text (pai_label a) PUBLICATION_ATTACHMENT_LABEL_MAX_BYTES) InvalidAttachmentLabel)
    (fun _ => Ok tt) [cp_body_artifact_id c] (cp_attachments c).

Definition hash_publication_text (value : string) : list Z := be_bytes 8 (string_len value) ++ string_bytes value.

Definition hash_publication_attachments (inputs : list PublicationAttachmentInput) : list Z :=
  inputs ≫= fun a => be_bytes 8 (pai_artifact_id a) ++ hash_publication_text (pai_label a).

Definition publication_preimage (c : CreatePublication) : list Z :=
  hash_publication_text CREATE_PUBLICATION_OPERATION ++ hash_publication_text (cp_client_command_id c)
  ++ hash_publication_text (object_kind_text (reference_kind (cp_anchor c)))
  ++ be_bytes 8 (reference_id (cp_anchor c)) ++ hash_publication_text (publication_kind_text (cp_kind c))
  ++ hash_publication_text (cp_summary c) ++ be_bytes 8 (cp_body_artifact_id c)
  ++ hash_publication_attachments (cp_attachments c)
  ++ be_bytes 8 (default 0 (cp_reply_to c)) ++ be_bytes 8 (default 0 (cp_supersedes c)).

Definition pub_id (kind : string) (value : Z) : result PublicationStoreError Z :=
  map_err PublicationContract (identifier_new kind value).

Definition bound_actor_office (db : Database) (binding : ActorConnectionIdentity) : result PublicationStoreError Z :=
  row ← ok_or (row ← sessions db !! aci_session_id binding;
      if (si_assignment_id (ses_identity row) =? aci_assignment_id binding)
         && (si_application_revision_id (ses_identity row) =? aci_application_revision_id binding)
         && (ses_lifecycle row =? 1) then Some row else None) BoundSessionUnavailable;
  pub_id "office ID" (si_office_id (ses_identity row)).

(** Offices are inserted active and no command changes their lifecycle. *)
Definition require_active_office (db : Database) (application office : Z) : result PublicationStoreError unit :=
  require (office_in db office application) (InactiveOrUnknownOffice office).

Definition require_artifact (db : Database) (id : Z) : result PublicationStoreError unit :=
  require (bool_decide (is_Some (artifacts db !! id))) (UnknownArtifact id).

Record PublicationAudit := {
  pa_audit_log_id : Z;
  pa_subject_kind : Z;
  pa_subject_id : Z;
  pa_resulting_revision : Z;
}.

Definition find_publication (db : Database) (principal command_id : string) (fingerprint : ContentDigest)
  : result PublicationStoreError (option PublicationAudit) :=
  match audit_log db !! (principal, command_id) with
  | None => Ok None
  | Some row =>
      require (negb (negb (bool_decide (al_operation row = CREATE_PUBLICATION_OPERATION))
                     || negb (bool_decide (al_command_fingerprint row = fingerprint))))
        (PublicationIdempotencyConflict principal command_id) ;;
      require (0 <=? al_resulting_revision row) PublicationRevisionOutOfRange ;;
      Ok (Some {| pa_audit_log_id := al_id row; pa_subject_kind := al_subject_kind row;
                  pa_subject_id := al_subject_id row; pa_resulting_revision := al_resulting_revision row |})
  end.

Definition require_subject (subject_kind : Z) : result PublicationStoreError unit :=
  require (subject_kind =? PUBLICATION_SUBJECT) PublicationSubjectMismatch.

Definition insert_audit (principal command_id : string) (fingerprint : ContentDigest)
    (publication_id revision : Z) (s : PublicationState) : result PublicationStoreError (Z * PublicationState) :=
  require (revision <=? i64_max) PublicationRevisionOutOfRange ;;
  '(id, db) ← map_err PublicationDatabase (insert_audit_row principal command_id (fun id => {|
    al_id := id; al_operation := CREATE_PUBLICATION_OPERATION; al_command_fingerprint := fingerprint;
    al_subject_kind := PUBLICATION_SUBJECT; al_subject_id := publication_id;
    al_resulting_revision := revision |}) (kernel s));
  Ok (id, set_kernel db s).

Section Commands.
Variable blake3 : list Z -> ContentDigest.

Definition create_from_provenance (application office : Z) (session : option Z) (principal : string)
    (c : CreatePublication) (s : PublicationState)
  : result PublicationStoreError (PublicationReceipt * PublicationState) :=
  validate_publication c ;;
  let fingerprint := blake3 (publication_preimage c) in
  found ← find_publication (kernel s) principal (cp_client_command_id c) fingerprint;
  match found with
  | Some receipt =>
      require_subject (pa_subject_kind receipt) ;;
      id ← pub_id "publication ID" (pa_subject_id receipt);
      audit ← pub_id "audit log ID" (pa_audit_log_id receipt);
      Ok ({| pr_publication_id := id; pr_resulting_revision := pa_resulting_revision receipt;
             pr_audit_log_id := audit; pr_was_idempotent_retry := true |}, s)
  | None =>
      require_artifact (kernel s) (cp_body_artifact_id c) ;;
      for_each (fun a => require_artifact (kernel s) (pai_artifact_id a)) (cp_attachments c) ;;
      anchor ← ok_or (anchor_columns (cp_anchor c)) AnchorPanic;
      '(id, s1) ← insert_publication {|
        pb_application_revision_id := application; pb_authoring_office_id := office;
        pb_originating_session_id := session; pb_publication_kind := publication_kind_code (cp_kind c);
        pb_summary := cp_summary c; pb_body_artifact_id := cp_body_artifact_id c; pb_anchor := anchor;
        pb_reply_to_publication_id := cp_reply_to c; pb_supersedes_publication_id := cp_supersedes c;
        pb_created_at := now (kernel s) |} s;
      s2 ← insert_attachments id application (cp_attachments c) s1;
      '(audit, s3) ← insert_audit principal (cp_client_command_id c) fingerprint id revision_initial s2;
      id ← pub_id "publication ID" id;
      audit ← pub_id "audit log ID" audit;
      Ok ({| pr_publication_id := id; pr_resulting_revision := revision_initial;
             pr_audit_log_id := audit; pr_was_idempotent_retry := false |}, s3)
  end.

Definition create_from_actor (binding : ActorConnectionIdentity) (c : CreatePublication) (s : PublicationState)
  : result PublicationStoreError (PublicationReceipt * PublicationState) :=
  office ← bound_actor_office (kernel s) binding;
  create_from_provenance (aci_application_revision_id binding) office (Some (aci_session_id binding))
    ("session:" +:+ pretty (aci_session_id binding)) c s.

Definition create_from_operator (application office : Z) (c : CreatePublication) (s : PublicationState)
  : result PublicationStoreError (PublicationReceipt * PublicationState) :=
  require_active_office (kernel s) application office ;;
  create_from_provenance application office None "grand-architect" c s.
End Commands.

(** * Requests and adapters

    The publication requests of actors and operators and their adapters: the
    wire checks, the command they decode to and the error codes
    ([crates/factory-kernel/src/publication_rpc.rs],
    [operator_publication_rpc.rs] and the publication requests of
    [crates/factory-protocol/src/wire.rs]). *)

(** * Requests, as the frame codec hands them over *)

Record InstitutionalReferenceWireV2 := { irw_kind : string; irw_id : Z }.

Definition wire_reference (wire : InstitutionalReferenceWireV2) : result ContractError InstitutionalReference :=
  kind ← object_kind_parse (irw_kind wire);
  from_kind_and_id kind (irw_id wire).

Definition from_reference (reference : InstitutionalReference) : InstitutionalReferenceWireV2 :=
  {| irw_kind := object_kind_text (reference_kind reference); irw_id := reference_id reference |}.

Record PublicationAttachmentWireV2 := { paw_artifact_id : Z; paw_label : string }.

Record PublicationCreateRequest := {
  pcr_request_id : string;
  pcr_client_command_id : string;
  pcr_anchor : InstitutionalReferenceWireV2;
  pcr_kind : string;
  pcr_summary : string;
  pcr_body_artifact_id : Z;
  pcr_attachments : list PublicationAttachmentWireV2;
  pcr_reply_to : option Z;
  pcr_supersedes : option Z;
}.

Definition validate_publication_text (value field : string) (maximum : Z) : result ContractError unit :=
  require (negb ((string_len value =? 0) || (maximum <? string_len value) || contains_byte 0 value))
    (InvalidValue field "must be nonempty, bounded UTF-8 without NUL").

Definition request_validate (r : PublicationCreateRequest) : result ContractError unit :=
  require (TicketStore.command_component (pcr_client_command_id r))
    (InvalidValue "publication client command ID" "must be a bounded closed command component") ;;
  anchor ← wire_reference (pcr_anchor r);
  require (can_anchor_publication anchor)
    (InvalidValue "publication anchor" "must be an institutional object, not a run or publication") ;;
  _ ← publication_kind_parse (pcr_kind r);
  validate_publication_text (pcr_summary r) "publication summary" INSTITUTIONAL_SUMMARY_MAX_BYTES ;;
  _ ← identifier_new "artifact ID" (pcr_body_artifact_id r);
  require (Z.of_nat (length (pcr_attachments r)) <=? PUBLICATION_MAX_ATTACHMENTS)
    (InvalidValue "publication attachments" "exceeds the closed attachment limit") ;;
  for_each_seen paw_artifact_id
    (InvalidValue "publication attachments" "must not repeat the body or another attachment")
    (fun a => _ ← identifier_new "artifact ID" (paw_artifact_id a);
      validate_publication_text (paw_label a) "publication attachment label" PUBLICATION_ATTACHMENT_LABEL_MAX_BYTES)
    (fun _ => Ok tt) [pcr_body_artifact_id r] (pcr_attachments r) ;;
  _ ← transpose_map (identifier_new "publication ID") (pcr_reply_to r);
  _ ← transpose_map (identifier_new "publication ID") (pcr_supersedes r);
  Ok tt.

Record OperatorPublicationCreateRequest := {
  opr_request_id : string;
  opr_client_command_id : string;
  opr_application_revision_id : Z;
  opr_authoring_office_id : Z;
  opr_anchor : InstitutionalReferenceWireV2;
  opr_kind : string;
  opr_summary : string;
  opr_body_artifact_id : Z;
  opr_attachments : list PublicationAttachmentWireV2;
  opr_reply_to : option Z;
  opr_supersedes : option Z;
}.

Definition shared_request (r : OperatorPublicationCreateRequest) : PublicationCreateRequest := {|
  pcr_request_id := opr_request_id r; pcr_client_command_id := opr_client_command_id r;
  pcr_anchor := opr_anchor r; pcr_kind := opr_kind r; pcr_summary := opr_summary r;
  pcr_body_artifact_id := opr_body_artifact_id r; pcr_attachments := opr_attachments r;
  pcr_reply_to := opr_reply_to r; pcr_supersedes := opr_supersedes r |}.

Definition operator_request_validate (r : OperatorPublicationCreateRequest) : result ContractError unit :=
  request_validate (shared_request r) ;;
  _ ← identifier_new "application revision ID" (opr_application_revision_id r);
  _ ← identifier_new "office ID" (opr_authoring_office_id r);
  Ok tt.

Definition publication_command (r : OperatorPublicationCreateRequest) : result ContractError PublicationCreateRequest :=
  operator_request_validate r ;;
  Ok (shared_request r).

(** * Adapters *)

Inductive PublicationRpcError :=
  | RpcContract (e : ContractError)
  | RpcStore (e : PublicationStoreError).

Definition attachment_input (value : PublicationAttachmentWireV2) : result ContractError PublicationAttachmentInput :=
  id ← identifier_new "artifact ID" (paw_artifact_id value);
  Ok {| pai_artifact_id := id; pai_label := paw_label value |}.

Definition command_from_request (r : PublicationCreateRequest) : result ContractError CreatePublication :=
  anchor ← wire_reference (pcr_anchor r);
  kind ← publication_kind_parse (pcr_kind r);
  body ← identifier_new "artifact ID" (pcr_body_artifact_id r);
  attachments ← map_ok attachment_input (pcr_attachments r);
  reply ← transpose_map (identifier_new "publication ID") (pcr_reply_to r);
  supersedes ← transpose_map (identifier_new "publication ID") (pcr_supersedes r);
  Ok {| cp_client_command_id := pcr_client_command_id r; cp_anchor := anchor; cp_kind := kind;
        cp_summary := pcr_summary r; cp_body_artifact_id := body; cp_attachments := attachments;
        cp_reply_to := reply; cp_supersedes := supersedes |}.

Record PublicationReceiptResponse := {
  prr_request_id : string;
  prr_audit_id : Z;
  prr_aggregate_revision : Z;
  prr_publication_id : Z;
  prr_was_idempotent_retry : bool;
}.

Definition receipt_response (request_id : string) (receipt : PublicationReceipt) : PublicationReceiptResponse := {|
  prr_request_id := request_id; prr_audit_id := pr_audit_log_id receipt;
  prr_aggregate_revision := pr_resulting_revision receipt; prr_publication_id := pr_publication_id receipt;
  prr_was_idempotent_retry := pr_was_idempotent_retry receipt |}.

Section Dispatch.
Variable blake3 : list Z -> ContentDigest.

Definition dispatch_publication (binding : ActorConnectionIdentity) (r : PublicationCreateRequest)
    (s : PublicationState) : result PublicationRpcError (PublicationReceiptResponse * PublicationState) :=
  map_err RpcContract (request_validate r) ;;
  command ← map_err RpcContract (command_from_request r);
  '(receipt, s') ← map_err RpcStore (create_from_actor blake3 binding command s);
  Ok (receipt_response (pcr_request_id r) receipt, s').

Definition publication_error_code (error : PublicationRpcError) : string :=
  match error with
  | RpcStore (PublicationIdempotencyConflict _ _) => "idempotency_conflict"
  | RpcContract _ => "invalid_publication_request"
  | RpcStore _ => "publication_rejected"
  end.

(** A response and the new state, or an error response by its code: a
    transaction that failed leaves the state. *)
Definition dispatch_actor_publication (binding : ActorConnectionIdentity) (r : PublicationCreateRequest)
    (s : PublicationState) : (PublicationReceiptResponse + string) * PublicationState :=
  match dispatch_publication binding r s with
  | Ok (response, s') => (inl response, s')
  | Err e => (inr (publication_error_code e), s)
  end.

Definition dispatch_create (r : OperatorPublicationCreateRequest) (s : PublicationState)
  : result PublicationRpcError (PublicationReceiptResponse * PublicationState) :=
  command ← map_err RpcContract (publication_command r);
  application ← map_err RpcContract (identifier_new "application revision ID" (opr_application_revision_id r));
  office ← map_err RpcContract (identifier_new "office ID" (opr_authoring_office_id r));
  command ← map_err RpcContract (command_from_request command);
  '(receipt, s') ← map_err RpcStore (create_from_operator blake3 application office command s);
  Ok (receipt_response (opr_request_id r) receipt, s').

Definition operator_publication_error_code (error : PublicationRpcError) : string :=
  match error with
  | RpcStore (PublicationIdempotencyConflict _ _) => "idempotency_conflict"
  | RpcContract _ => "invalid_operator_publication_request"
  | RpcStore _ => "operator_publication_rejected"
  end.

Definition dispatch_operator_publication (r : OperatorPublicationCreateRequest) (s : PublicationState)
  : (PublicationReceiptResponse + string) * PublicationState :=
  match dispatch_create r s with
  | Ok (response, s') => (inl response, s')
  | Err e => (inr (operator_publication_error_code e), s)
  end.
End Dispatch.
