(* ===== verification/PacketBuild.v ===== *)
(** The packet the assignment runtime builds: its wire form, its seal, its
    canonical bytes and the typed packet the process store admits
    ([assignment_wire], [typed_packet] and the body of
    [materialize_and_launch_assignment] between them,
    [crates/factory-kernel/src/assignment_runtime.rs]). *)
From S2P Require Import Prelude Values Base64 Contracts Application Json WireBundle ProcessStore.
From S2P Require Import CampaignDriver AssignmentRuntime Packet PacketAdmission Harness.

#[local] Open Scope string_scope.
#[local] Open Scope list_scope.
#[local] Open Scope Z_scope.

Definition thinking_text (level : ThinkingLevelV2) : string :=
  match level with
  | ThinkingNone => "none" | ThinkingLow => "low" | ThinkingMedium => "medium"
  | ThinkingHigh => "high" | ThinkingXHigh => "xhigh"
  end.

Definition terminal_name (operation : TerminalOperationV2) : string :=
  match operation with
  | WorkComplete => "work_complete"
  | CandidateSubmit => "candidate_submit"
  | QualitySubmitReview => "quality_submit_review"
  end.

(** What [materialize_and_launch_assignment] has gathered when it builds the packet. *)
Record PacketMaterial := {
  pm_assignment_id : Z;
  pm_campaign_id : Z;
  pm_application_revision_id : Z;
  pm_campaign : CampaignMaterial;
  pm_target : DurableAssignmentTarget;
  pm_target_text : string;
  pm_context : DurableAssignmentLaunchContext;
  pm_system_prompt_artifact_id : Z;
  pm_assignment_prompt_artifact_id : Z;
  pm_required_read_manifest_artifact_id : Z;
  pm_system_prompt : list Z;
  pm_assignment_prompt : list Z;
  pm_workspace_root : string;
  pm_staging_root : string;
  pm_profile : AssignmentRoleProfileV2;
  pm_policy_bytes : list Z;
  pm_runtime : RuntimeIdentityV2;
  pm_required_reads : list ReadExactFileV2;
  pm_assignment_evidence : list AssignmentEvidenceV2;
}.

Section blake3.
Variable blake3 : list Z -> ContentDigest.

Definition repository_identity (context : DurableAssignmentLaunchContext) : string :=
  to_hex (blake3 (string_bytes "factory-repository-base-v1" ++ [0]
                  ++ string_bytes (lc_materialize_commit context) ++ [0]
                  ++ string_bytes (lc_materialize_tree context))).

Definition model_wire (m : ModelProfileV2) : AssignmentModelWireV2 := {|
  amw_provider := mp_provider m; amw_model_id := mp_model_id m;
  amw_thinking_level := thinking_text (mp_thinking_level m);
  amw_context_token_limit := mp_context_token_limit m; amw_output_token_limit := mp_output_token_limit m;
  amw_price_input := mp_price_input m; amw_price_output := mp_price_output m;
  amw_price_cache_read := mp_price_cache_read m; amw_price_cache_write := mp_price_cache_write m;
  amw_capability_flags := (fun '(Reasoning) => "reasoning") <$> mp_capability_flags m |}.

Definition runtime_wire (r : RuntimeIdentityV2) : AssignmentRuntimeWireV2 := {|
  arw_host_executable := ri_host_executable r; arw_core_head := ri_core_head r;
  arw_core_source_digest := to_hex (ri_core_source_digest r);
  arw_rust_toolchain := ri_rust_toolchain r; arw_credential_env := ri_credential_env r |}.

Definition read_wire (r : ReadExactFileV2) : AssignmentReadWireV2 :=
  {| arr_path := rx_path r; arr_digest := to_hex (rx_digest r); arr_reason := rx_reason r |}.

Definition evidence_wire (e : AssignmentEvidenceV2) : AssignmentEvidenceWireV2 :=
  {| aew_role := wire_name (ev_role e); aew_artifact_id := ev_artifact_id e;
     aew_digest := to_hex (ev_digest e); aew_byte_length := ev_byte_length e |}.

Definition assignment_wire (m : PacketMaterial) : AssignmentPacketWireV2 :=
  let profile := pm_profile m in
  let build := to_hex (cm_kernel_build_id (pm_campaign m)) in {|
  apw_format_version := ASSIGNMENT_PACKET_V2_FORMAT;
  apw_campaign_id := pm_campaign_id m;
  apw_assignment_id := pm_assignment_id m;
  apw_application_revision_id := pm_application_revision_id m;
  apw_kernel_build_id := build;
  apw_assignment_role := office_name (office_for_target (pm_target m));
  apw_target := pm_target_text m;
  apw_repository_base_identity := repository_identity (pm_context m);
  apw_factory_base_identity := build;
  apw_ticket_attempt_id := target_ticket_attempt (pm_target m);
  apw_candidate_id := target_candidate (pm_target m);
  apw_system_prompt_artifact_id := pm_system_prompt_artifact_id m;
  apw_assignment_prompt_artifact_id := pm_assignment_prompt_artifact_id m;
  apw_required_read_manifest_artifact_id := pm_required_read_manifest_artifact_id m;
  apw_system_prompt_digest := to_hex (blake3 (pm_system_prompt m));
  apw_assignment_prompt_digest := to_hex (blake3 (pm_assignment_prompt m));
  apw_system_prompt_bytes_b64 := base64 (pm_system_prompt m);
  apw_assignment_prompt_bytes_b64 := base64 (pm_assignment_prompt m);
  apw_policy_digest := to_hex (ap_digest (rp_policy profile));
  apw_policy_byte_limit := ap_byte_limit (rp_policy profile);
  apw_policy_bytes_b64 := base64 (pm_policy_bytes m);
  apw_policy_entrypoint := match ap_entrypoint (rp_policy profile) with FactoryPolicy => "factory_policy" end;
  apw_workspace_root := pm_workspace_root m;
  apw_staging_root := pm_staging_root m;
  apw_model := model_wire (rp_model profile);
  apw_limits := {| alw_wall_limit_millis := sl_wall_limit (rp_limits profile);
                   alw_output_byte_limit := sl_output_byte_limit (rp_limits profile) |};
  apw_runtime := runtime_wire (pm_runtime m);
  apw_required_reads := read_wire <$> pm_required_reads m;
  apw_assignment_evidence := evidence_wire <$> pm_assignment_evidence m;
  apw_tools := tool_name <$> rp_tools profile;
  apw_terminal_operations := terminal_name <$> terminal_operations (pm_target m);
  apw_remaining_campaign_allowance_micro_usd := cm_remaining (pm_campaign m);
  apw_aggregate_revision := cm_revision (pm_campaign m);
  apw_packet_digest := "" |}.

Definition domain_packet (m : PacketMaterial) (packet_digest : ContentDigest) : Packet.AssignmentPacketV2 := {|
  pkt_format_version := ASSIGNMENT_PACKET_V2_FORMAT;
  pkt_campaign_id := pm_campaign_id m;
  pkt_assignment_id := pm_assignment_id m;
  pkt_kernel_build_id := cm_kernel_build_id (pm_campaign m);
  pkt_application_revision_id := pm_application_revision_id m;
  pkt_assignment_role := office_for_target (pm_target m);
  pkt_target := pm_target_text m;
  pkt_ticket_attempt_id := target_ticket_attempt (pm_target m);
  pkt_candidate_id := target_candidate (pm_target m);
  pkt_system_prompt_artifact_id := pm_system_prompt_artifact_id m;
  pkt_assignment_prompt_artifact_id := pm_assignment_prompt_artifact_id m;
  pkt_required_read_manifest_artifact_id := pm_required_read_manifest_artifact_id m;
  pkt_policy_digest := ap_digest (rp_policy (pm_profile m));
  pkt_policy_byte_limit := ap_byte_limit (rp_policy (pm_profile m));
  pkt_policy_bytes := pm_policy_bytes m;
  pkt_policy_entrypoint := ap_entrypoint (rp_policy (pm_profile m));
  pkt_workspace_root := pm_workspace_root m;
  pkt_staging_root := pm_staging_root m;
  pkt_model := rp_model (pm_profile m);
  pkt_limits := rp_limits (pm_profile m);
  pkt_runtime := pm_runtime m;
  pkt_required_reads := pm_required_reads m;
  pkt_assignment_evidence := pm_assignment_evidence m;
  pkt_terminal_operations := terminal_operations (pm_target m);
  pkt_remaining_campaign_allowance := cm_remaining (pm_campaign m);
  pkt_revision := cm_revision (pm_campaign m);
  pkt_packet_digest := packet_digest |}.

Context `{BundleReader} `{WireBundle.Json AssignmentPacketWireV2}.

(** The packet, its digest and its canonical bytes. *)
Definition seal_packet (m : PacketMaterial)
  : result AssignmentRuntimeError (Packet.AssignmentPacketV2 * list Z) :=
  let wire := assignment_wire m in
  digest ← map_err RuntimeFrame (unsigned_assignment_packet_digest_v2 blake3 wire);
  bytes ← map_err RuntimeFrame
    (canonical_assignment_packet_json_v2 blake3 (with_packet_digest (to_hex digest) wire));
  Ok (domain_packet m digest, bytes).

(** The command the runtime sends, [artifact] being the registered bytes. *)
Definition prepared_assignment (request : AssignmentMaterializationRequest) (m : PacketMaterial)
    (packet : Packet.AssignmentPacketV2) (bytes : list Z) (artifact : CasArtifact) : PreparedAssignment := {|
  pa_principal := amr_principal request;
  pa_command_id := amr_command_id request;
  pa_expected_campaign_revision := amr_expected_campaign_revision request;
  pa_identity := pm_assignment_id m;
  pa_packet := packet;
  pa_packet_bytes := bytes;
  pa_packet_artifact := artifact;
  pa_required_read_manifest_artifact_id := pm_required_read_manifest_artifact_id m;
  pa_attempt_ordinal := pm_assignment_id m |}.
End blake3.
