(* ===== verification/Custody.v ===== *)
(** What the content-addressed store guarantees: objects are published whole or
    not at all, whatever fails and wherever the process dies, and are never
    changed again. *)
From S2P Require Import Prelude Values Cas.

Section custody.
Context (blake3 : list Z -> ContentDigest) (maximum_object_bytes : Z).

(** [d'] adds only whole objects to [d]: under the name of their digest, within
    the size limit. *)
Record grows (d d' : Disk) : Prop := {
  grows_objects : objects d ⊆ objects d';
  grows_whole : forall path e, objects d' !! path = Some e -> objects d !! path = Some e \/
    exists bytes, e = Regular bytes /\ path = object_path (blake3 bytes) /\
      Z.of_nat (length bytes) <= maximum_object_bytes;
  grows_directories : directories d ⊆ directories d';
}.

#[global] Instance grows_preorder : PreOrder grows.
Proof.
  split; [by constructor; eauto|]. intros d1 d2 d3 [? H1 ?] [? H2 ?].
  constructor; [by etransitivity| |by etransitivity].
  intros path e [He|He]%H2; eauto.
Qed.

(** The other processes of the machine are adopters too; they leave the
    temporary files they did not create. *)
Class LawfulMachine {M : Machine} := {
  meanwhile_grows n d : grows d (meanwhile n d);
  meanwhile_temporaries n d : temporaries d ⊆ temporaries (meanwhile n d);
}.

Context {M : Machine} {HL : LawfulMachine}.

(** * Running an operation

    From a disk with [P], whatever happens, [m] only adds whole objects, and
    when it succeeds its result and the disk satisfy [Q]. *)
Definition holds {E A} (P : Disk -> Prop) (m : IO E A) (Q : A -> Disk -> Prop) : Prop :=
  forall w, P (disk w) ->
    let '(w', r) := m w in
    grows (disk w) (disk w') /\ match r with Ok a => Q a (disk w') | Err _ => True end.

Definition any_disk (d : Disk) : Prop := True.
Definition any_result {A} (a : A) (d : Disk) : Prop := True.

(** The temporary file with exactly these bytes. *)
Definition temporary_holds (temporary : Z) (bytes : list Z) (d : Disk) : Prop :=
  temporaries d !! temporary = Some bytes.

Definition stable (P : Disk -> Prop) : Prop := forall n d, P d -> P (meanwhile n d).

Lemma stable_any : stable any_disk.
Proof. done. Qed.

Lemma stable_temporary t bytes : stable (temporary_holds t bytes).
Proof. intros n d Hd. by eapply lookup_weaken, meanwhile_temporaries. Qed.

Lemma holds_ret {E A} (a : A) (P : Disk -> Prop) (Q : A -> Disk -> Prop) :
  (forall d, P d -> Q a d) -> holds (E := E) P (mret a) Q.
Proof. intros H w Hw. simpl. split; [done|auto]. Qed.

Lemma holds_bind {E A B} P Q R (m : IO E A) (f : A -> IO E B) :
  holds P m Q -> (forall a, holds (Q a) (f a) R) -> holds P (m ≫= f) R.
Proof.
  intros Hm Hf w Hw. specialize (Hm w Hw). unfold mbind, io_bind. destruct (m w) as [w' [a|e]].
  - destruct Hm as [Hg Ha]. specialize (Hf a w' Ha). destruct (f a w') as [w'' r].
    destruct Hf as [Hg' ?]. split; [by etransitivity|done].
  - done.
Qed.

Lemma holds_weaken {E A} (P P' : Disk -> Prop) (Q Q' : A -> Disk -> Prop) (m : IO E A) :
  holds P' m Q' -> (forall d, P d -> P' d) -> (forall a d, Q' a d -> Q a d) -> holds P m Q.
Proof.
  intros Hm HP HQ w Hw. specialize (Hm w (HP _ Hw)). destruct (m w) as [w' r].
  destruct Hm as [? Hr]. split; [done|]. destruct r; auto.
Qed.

Lemma holds_fail {E A} (e : E) P (Q : A -> Disk -> Prop) : holds P (fail e) Q.
Proof. intros w _. simpl. done. Qed.

Lemma holds_lift {E A} (r : result E A) P (Q : A -> Disk -> Prop) :
  (forall a d, r = Ok a -> P d -> Q a d) -> holds P (lift r) Q.
Proof. intros H w Hw. unfold lift. split; [done|]. destruct r; simpl; auto. Qed.

Lemma holds_attempt {E A} P (Q : A -> Disk -> Prop) (m : IO E A) :
  holds P m Q -> holds P (attempt m) (fun r d => match r with Ok a => Q a d | Err _ => True end).
Proof.
  intros Hm w Hw. specialize (Hm w Hw). unfold attempt.
  destruct (m w) as [w' [a|[e| |]]]; simpl; tauto.
Qed.

Lemma holds_call {A} op path part (effect : Disk -> Disk * result CasError A) P Q :
  stable P ->
  (forall n d, grows d (part n d)) ->
  (forall d, P d -> grows d (effect d).1 /\
     forall a, (effect d).2 = Ok a -> Q a (effect d).1) ->
  holds P (call op path part effect) Q.
Proof.
  intros HP Hpart Heff w Hw. unfold call. set (d := meanwhile (calls w) (disk w)).
  assert (Hg : grows (disk w) d) by apply meanwhile_grows.
  assert (Hd : P d) by by apply HP.
  destruct (outcome (calls w)).
  - destruct (Heff d Hd) as [Hg' HQ]. destruct (effect d) as [d' r]. simpl in *.
    split; [by etransitivity|]. destruct r; simpl; auto.
  - split; [|done]. simpl. etransitivity; [exact Hg|apply Hpart].
  - split; [|done]. simpl. etransitivity; [exact Hg|apply Hpart].
Qed.

Lemma holds_look {A} op path (f : Disk -> result CasError A) P Q :
  stable P -> (forall d a, P d -> f d = Ok a -> Q a d) -> holds P (look op path f) Q.
Proof. intros HP HQ. apply holds_call; [done|done|]. intros d Hd. split; [done|]. intros a. by apply HQ. Qed.

Lemma grows_temporaries m d : grows d (set_temporaries m d).
Proof. constructor; simpl; eauto. Qed.

(** ** Temporary files *)

Lemma holds_create_temporary turns P :
  stable P -> (forall d m, P d -> P (set_temporaries m d)) ->
  holds P (create_temporary turns) (fun t d => P d /\ temporary_holds t [] d).
Proof.
  intros HP Hset. induction turns as [|turns IH]; [by intros w _|]. simpl.
  eapply (holds_bind P (fun _ => P)); [by intros w Hw; simpl|]. intros suffix.
  eapply (holds_bind P (fun b d => P d /\ (b = true -> temporary_holds suffix [] d))).
  - apply holds_call; [done|done|]. intros d Hd.
    destruct (temporaries d !! suffix) eqn:E; simpl.
    + split; [done|]. intros a [= <-]. done.
    + split; [apply grows_temporaries|]. intros a [= <-]. split; [auto|].
      intros _. apply lookup_insert_eq.
  - intros [|].
    + apply holds_ret. intros d [? Ht]. auto.
    + eapply holds_weaken; [exact IH|tauto|done].
Qed.

Lemma holds_write_all op path t old bytes :
  holds (temporary_holds t old) (write_all op path t bytes)
    (fun _ => temporary_holds t (old ++ bytes)).
Proof.
  unfold write_all. apply holds_call; [apply stable_temporary|intros; apply grows_temporaries|].
  intros d Hd. split; [apply grows_temporaries|]. intros a _. unfold temporary_holds. simpl.
  rewrite lookup_alter_eq, Hd. simpl. by rewrite take_ge.
Qed.

Lemma holds_remove t P : stable P -> holds P (remove_file t) any_result.
Proof. intros HP. apply holds_call; [done|done|]. intros d _. split; [apply grows_temporaries|done]. Qed.

Lemma holds_or_discard {A} t P (Q : A -> Disk -> Prop) (m : Cas A) :
  holds P m Q -> holds P (or_discard t m) Q.
Proof.
  intros Hm. eapply holds_bind; [by apply holds_attempt|]. intros [a|e]; [by apply holds_ret|].
  unfold discard. eapply (holds_bind _ any_result); [|intros; apply holds_fail].
  eapply holds_weaken; [apply holds_attempt, (holds_remove t any_disk), stable_any|done|].
  by intros [] d.
Qed.

Lemma holds_sync op path P : stable P -> holds P (sync op path) (fun _ => P).
Proof. intros HP. apply holds_look; auto. Qed.

(** ** Reads *)

(** A read gives the bytes of the digest's object, within the limit, and the
    digest is theirs. *)
Lemma read_object_Ok digest d bytes :
  read_object blake3 maximum_object_bytes digest d = Ok bytes <->
  directories d !! (object_path digest).1 = Some true /\
  objects d !! object_path digest = Some (Regular bytes) /\
  Z.of_nat (length bytes) <= maximum_object_bytes /\ blake3 bytes = digest.
Proof.
  unfold read_object, checked_object_path, open_regular_file, verify_bytes. split.
  - intros H. ok_inv H. repeat match goal with Hx : _ = Ok _ |- _ => ok_inv Hx end.
    match goal with E : _ || _ = false |- _ => apply orb_false_iff in E as [E1 E2] end.
    bool_prop. done.
  - intros (Hd & Ho & Hl & Hb). rewrite Hd. simpl. rewrite Ho. simpl.
    rewrite (proj2 (Z.leb_le _ _) Hl). simpl. rewrite Z.eqb_refl, Hb. simpl.
    by rewrite bool_decide_true.
Qed.

Lemma verify_seal_Ok digest d seal :
  verify_seal blake3 maximum_object_bytes digest d = Ok seal <->
  exists bytes, read_object blake3 maximum_object_bytes digest d = Ok bytes /\
    seal = {| cas_digest := digest; cas_byte_length := Z.of_nat (length bytes) |}.
Proof.
  unfold verify_seal. rewrite bind_Ok. split; intros (b & Hb & H); exists b; (split; [done|]); congruence.
Qed.

Lemma read_object_later digest d d' bytes :
  grows d d' -> read_object blake3 maximum_object_bytes digest d = Ok bytes ->
  read_object blake3 maximum_object_bytes digest d' = Ok bytes.
Proof.
  intros [Ho _ Hd]. rewrite !read_object_Ok. intros (? & ? & ?).
  split_and!; [by eapply lookup_weaken|by eapply lookup_weaken|tauto..].
Qed.

(** The seal is verified by the object on the disk. *)
Definition sealed_on (seal : CasArtifact) (d : Disk) : Prop :=
  verify_seal blake3 maximum_object_bytes (cas_digest seal) d = Ok seal.

Lemma sealed_on_later seal d d' : grows d d' -> sealed_on seal d -> sealed_on seal d'.
Proof.
  unfold sealed_on. rewrite !verify_seal_Ok. intros Hg (bytes & Hb & E).
  exists bytes. split; [by eapply read_object_later|done].
Qed.

Lemma stable_sealed seal : stable (sealed_on seal).
Proof. intros n d. apply sealed_on_later, meanwhile_grows. Qed.

(** ** Publication *)

Definition parent_ready (digest : ContentDigest) (d : Disk) : Prop :=
  directories d !! (object_path digest).1 = Some true.

Lemma stable_and P Q : stable P -> stable Q -> stable (fun d => P d /\ Q d).
Proof. intros HP HQ n d []. auto. Qed.

Lemma stable_parent digest : stable (parent_ready digest).
Proof.
  intros n d Hd. eapply lookup_weaken; [exact Hd|]. apply grows_directories, meanwhile_grows.
Qed.

Lemma holds_prepare t bytes digest :
  holds (temporary_holds t bytes) (prepare_object_parent digest)
    (fun _ d => temporary_holds t bytes d /\ parent_ready digest d).
Proof.
  unfold prepare_object_parent. eapply (holds_bind _ (fun _ => temporary_holds t bytes)).
  - apply holds_call; [apply stable_temporary|done|]. intros d Hd. case_match; simpl; [done|].
    split; [|done]. constructor; simpl; [done|eauto|]. by apply insert_subseteq.
  - intros _. apply holds_look; [apply stable_temporary|]. intros d a Hd H. split; [done|].
    unfold parent_ready. by case_match; [case_match|].
Qed.

Lemma holds_link t bytes :
  Z.of_nat (length bytes) <= maximum_object_bytes ->
  holds (fun d => temporary_holds t bytes d /\ parent_ready (blake3 bytes) d)
    (hard_link t (blake3 bytes))
    (fun linked d => linked = true ->
       sealed_on {| cas_digest := blake3 bytes; cas_byte_length := Z.of_nat (length bytes) |} d).
Proof.
  intros Hl. unfold hard_link. apply holds_call; [|done|].
  { apply stable_and; [apply stable_temporary|apply stable_parent]. }
  intros d [Ht Hp]. unfold temporary_holds in Ht.
  destruct (objects d !! object_path (blake3 bytes)) eqn:E; simpl.
  - split; [done|]. by intros a [= <-].
  - rewrite Ht. simpl. split.
    + constructor; simpl; [by apply insert_subseteq| |done].
      intros path e [[<- <-]|[_ He]]%lookup_insert_Some; [right|by left]. eauto.
    + intros a [= <-] _. unfold sealed_on. rewrite verify_seal_Ok. exists bytes.
      split; [|done]. apply read_object_Ok. simpl. by rewrite lookup_insert_eq.
Qed.

Lemma holds_verify_object digest expected :
  holds any_disk (verify_object blake3 maximum_object_bytes digest expected)
    (fun _ => sealed_on {| cas_digest := digest; cas_byte_length := expected |}).
Proof.
  unfold verify_object. eapply (holds_bind _ any_result); [by apply holds_look; [apply stable_any|]|].
  intros declared. eapply (holds_bind _ any_result); [by apply holds_lift|]. intros ?.
  eapply (holds_bind _ (fun bytes =>
    sealed_on {| cas_digest := digest; cas_byte_length := Z.of_nat (length bytes) |})).
  - apply holds_look; [apply stable_any|]. intros d bytes _ Hb. apply verify_seal_Ok. eauto.
  - intros bytes. apply holds_lift. intros [] d H%require_Ok Hd. bool_prop. congruence.
Qed.

(** What a successful adoption has put on the disk. *)
Lemma holds_publish t bytes :
  Z.of_nat (length bytes) <= maximum_object_bytes ->
  holds (temporary_holds t bytes)
    (publish_temporary blake3 maximum_object_bytes t (blake3 bytes) (Z.of_nat (length bytes)))
    sealed_on.
Proof.
  intros Hl. unfold publish_temporary.
  eapply holds_bind; [apply holds_or_discard, holds_sync, stable_temporary|]. intros ?.
  eapply holds_bind; [apply holds_or_discard, holds_prepare|]. intros ?.
  eapply holds_bind; [by apply holds_or_discard, holds_link|]. intros linked.
  set (seal := {| cas_digest := _; cas_byte_length := _ |}).
  eapply (holds_bind _ (fun _ => sealed_on seal)); [|intros _; by apply holds_ret].
  destruct linked.
  - eapply (holds_weaken _ (sealed_on seal) _ (fun _ => sealed_on seal)); [|auto|done].
    eapply holds_bind; [apply holds_or_discard, holds_sync, stable_sealed|]. intros ?.
    eapply holds_bind; [apply holds_or_discard, holds_sync, stable_sealed|]. intros ?.
    apply holds_call; [apply stable_sealed|done|]. intros d Hd. split; [apply grows_temporaries|].
    intros ? _. eapply sealed_on_later; [apply grows_temporaries|done].
  - eapply (holds_weaken _ any_disk _ (fun _ => sealed_on seal)); [|done|done].
    eapply (holds_bind _ any_result); [|intros; apply holds_verify_object].
    eapply holds_weaken; [apply holds_attempt, (holds_remove t any_disk), stable_any|done|].
    by intros [] d.
Qed.

Lemma holds_adopt_kernel_bytes turns bytes :
  holds any_disk (adopt_kernel_bytes blake3 maximum_object_bytes turns bytes) sealed_on.
Proof.
  unfold adopt_kernel_bytes. eapply (holds_bind _ (fun _ _ => Z.of_nat (length bytes) <= maximum_object_bytes)).
  { apply holds_lift. intros [] d H%require_Ok _. by bool_prop. }
  intros ? w Hl. revert w Hl.
  assert (Hrest : Z.of_nat (length bytes) <= maximum_object_bytes ->
    holds any_disk (t ← create_temporary turns;
      or_discard t (write_all "write kernel-generated CAS temporary object" temporary_path t bytes) ;;
      publish_temporary blake3 maximum_object_bytes t (blake3 bytes) (Z.of_nat (length bytes)))
      sealed_on).
  { intros Hl. eapply holds_bind; [by apply holds_create_temporary|]. intros t.
    eapply (holds_bind _ (fun _ => temporary_holds t bytes)).
    - apply holds_or_discard. eapply holds_weaken; [apply (holds_write_all _ _ t [])|by intros d []|done].
    - intros _. by apply holds_publish. }
  intros w Hl. by apply Hrest.
Qed.

Lemma holds_copy path t reads copied :
  holds (temporary_holds t copied) (copy_chunks maximum_object_bytes path t copied reads)
    (fun all d => temporary_holds t all d /\
       (Z.of_nat (length copied) <= maximum_object_bytes ->
        Z.of_nat (length all) <= maximum_object_bytes)).
Proof.
  revert copied. induction reads as [|[|b chunk] reads IH]; intros copied; cbn [copy_chunks];
    [by apply holds_ret; auto..|].
  eapply (holds_bind _ (fun _ d => temporary_holds t copied d /\
    Z.of_nat (length (copied ++ b :: chunk)) <= maximum_object_bytes)).
  { apply holds_lift. intros [] d H%require_Ok ?. by bool_prop. }
  intros ?. set (next := copied ++ b :: chunk).
  eapply (holds_bind _ (fun _ d => temporary_holds t next d /\
    Z.of_nat (length next) <= maximum_object_bytes)).
  - intros w [Ht Hl]. pose proof (holds_write_all "write CAS temporary object" path t copied
      (b :: chunk) w Ht) as Hw. destruct (write_all _ _ _ _ w) as [w' r].
    destruct Hw as [? Hr]. split; [done|]. by destruct r.
  - intros ? w [Ht Hl]. pose proof (IH next w Ht) as Hw. destruct (copy_chunks _ _ _ _ _ w) as [w' r].
    destruct Hw as [? Hr]. split; [done|]. destruct r; [|done]. destruct Hr. auto.
Qed.

Lemma holds_adopt_open_file turns path r :
  0 <= maximum_object_bytes ->
  holds any_disk (adopt_open_file blake3 maximum_object_bytes turns path r) sealed_on.
Proof.
  intros Hmax. unfold adopt_open_file. eapply (holds_bind _ any_result); [by apply holds_lift|]. intros ?.
  eapply (holds_bind _ (fun t d => any_disk d /\ temporary_holds t [] d));
    [eapply holds_weaken; [by apply (holds_create_temporary _ any_disk)|done|done]|]. intros t.
  eapply (holds_bind _ (fun '(digest, len) d => exists bytes, temporary_holds t bytes d /\
    digest = blake3 bytes /\ len = Z.of_nat (length bytes) /\
    Z.of_nat (length bytes) <= maximum_object_bytes)).
  - apply holds_or_discard. unfold stream_to_temp.
    eapply (holds_bind _ (fun all d => temporary_holds t all d /\
      Z.of_nat (length all) <= maximum_object_bytes)).
    { eapply holds_weaken; [apply (holds_copy path t (chunks r) [])|by intros d []|].
      intros all d [? Hl]. split; [done|]. by apply Hl. }
    intros copied. eapply holds_bind; [by apply holds_lift with (Q := fun _ d => temporary_holds t copied d /\
      Z.of_nat (length copied) <= maximum_object_bytes)|]. intros ?.
    apply holds_ret. intros d []. eauto.
  - intros [digest len] w (bytes & Ht & -> & -> & Hl). by apply (holds_publish t bytes Hl w).
Qed.

Lemma holds_adopt turns staging path :
  0 <= maximum_object_bytes ->
  holds any_disk (adopt blake3 maximum_object_bytes turns staging path) sealed_on.
Proof.
  intros Hmax. unfold adopt. eapply (holds_bind _ any_result); [by apply holds_lift|]. intros r.
  eapply holds_weaken; [by apply holds_adopt_open_file|done|done].
Qed.
End custody.

(** C13: An adoption publishes its object whole or not at all: whichever system call
    fails, wherever the process dies and whatever other adopters do, nothing on
    the disk is changed or removed and only whole objects are added, and the
    seal an adoption returns is confirmed by every later read. *)
Theorem adoption_whole_or_nothing blake3 maximum {M : Machine} {HL : LawfulMachine blake3 maximum}
    turns staging path w w' r :
  0 <= maximum ->
  adopt blake3 maximum turns staging path w = (w', r) ->
  grows blake3 maximum (disk w) (disk w') /\
  forall seal, r = Ok seal -> forall d, grows blake3 maximum (disk w') d ->
    exists bytes, read_object blake3 maximum (cas_digest seal) d = Ok bytes /\
      blake3 bytes = cas_digest seal /\ Z.of_nat (length bytes) = cas_byte_length seal.
Proof.
  intros Hmax E. pose proof (holds_adopt blake3 maximum turns staging path Hmax w I) as Hw.
  rewrite E in Hw. destruct Hw as [Hg Hr]. split; [done|]. intros seal -> d Hd.
  eapply sealed_on_later in Hr; [|exact Hd]. apply verify_seal_Ok in Hr as (bytes & Hb & ->).
  exists bytes. split; [done|]. apply read_object_Ok in Hb. tauto.
Qed.

(** * When every call succeeds and nothing else acts *)

Section quiet.
Context (blake3 : list Z -> ContentDigest) (maximum : Z) {M : Machine}.
Context (Hmeanwhile : forall n d, meanwhile n d = d) (Houtcome : forall n, outcome n = Proceeds).

Lemma call_quiet {A} op path part (effect : Disk -> Disk * result CasError A) w :
  call op path part effect w =
    ({| disk := (effect (disk w)).1; calls := S (calls w); draws := draws w |},
     map_err Failed (effect (disk w)).2).
Proof. unfold call. rewrite Hmeanwhile, Houtcome. by destruct (effect (disk w)). Qed.

Lemma create_temporary_quiet turns w i :
  (i < turns)%nat -> temporaries (disk w) !! suffixes (draws w + i)%nat = None ->
  exists t n k, temporaries (disk w) !! t = None /\
    create_temporary turns w =
      ({| disk := set_temporaries (<[t := []]> (temporaries (disk w))) (disk w);
          calls := n; draws := k |}, Ok t).
Proof.
  revert w i. induction turns as [|turns IH]; intros w i Hi Hfree; [lia|].
  cbn [create_temporary]. unfold mbind at 1, io_bind at 1. cbn [new_temporary_path].
  unfold mbind, io_bind, create_new. rewrite call_quiet. cbn [disk].
  destruct (temporaries (disk w) !! suffixes (draws w)) eqn:E; cbn.
  - destruct i as [|i]; [rewrite Nat.add_0_r in Hfree; congruence|].
    destruct (IH {| disk := disk w; calls := S (calls w); draws := S (draws w) |} i)
      as (t & n & k & Ht & Hrun); [lia|cbn [disk draws]; by replace (S (draws w) + i)%nat with (draws w + S i)%nat by lia|eauto].
  - eauto 10.
Qed.

(** Distinct names and more turns than temporary files leave a free name. *)
Lemma free_name (m : gmap Z (list Z)) turns k :
  (forall i j, (i < turns)%nat -> (j < turns)%nat ->
     suffixes (k + i)%nat = suffixes (k + j)%nat -> i = j) ->
  (size m < turns)%nat ->
  exists i, (i < turns)%nat /\ m !! suffixes (k + i)%nat = None.
Proof.
  intros Hinj Hsize.
  destruct (decide (Exists (fun i => m !! suffixes (k + i)%nat = None) (seq 0 turns))) as [He|Hn].
  { apply Exists_exists in He as (i & Hi%elem_of_seq & ?). exists i. split; [lia|done]. }
  exfalso. rewrite <- Forall_Exists_neg in Hn.
  set (names := (fun i => suffixes (k + i)%nat) <$> seq 0 turns).
  assert (Hnd : NoDup names).
  { apply NoDup_fmap_2_strong; [|apply NoDup_seq].
    intros i j Hi%elem_of_seq Hj%elem_of_seq. apply Hinj; lia. }
  assert (Hsub : names ⊆ elements (dom m)).
  { intros x (i & -> & Hi)%list_elem_of_fmap. apply elem_of_elements, elem_of_dom.
    rewrite Forall_forall in Hn. specialize (Hn i Hi). destruct (m !! _); [eauto|done]. }
  pose proof (submseteq_length _ _ (NoDup_submseteq _ _ Hnd Hsub)) as Hlen.
  unfold names in Hlen. rewrite length_fmap, length_seq in Hlen.
  rewrite <- size_dom in Hsize. unfold size, set_size in Hsize. simpl in Hsize. lia.
Qed.
Lemma bind_run {A B} (m : Cas A) (f : A -> Cas B) w w' a r :
  m w = (w', Ok a) -> f a w' = r -> (m ≫= f) w = r.
Proof. unfold mbind, io_bind. by intros ->. Qed.

Lemma or_discard_run {A} t (m : Cas A) w w' a :
  m w = (w', Ok a) -> or_discard t m w = (w', Ok a).
Proof. intros H. unfold or_discard, mbind, io_bind, attempt. by rewrite H. Qed.

Lemma attempt_run {A} (m : Cas A) w w' a : m w = (w', Ok a) -> attempt m w = (w', Ok (Ok a)).
Proof. unfold attempt. by intros ->. Qed.

Definition own (d : Disk) (t : Z) (bytes : list Z) : Disk :=
  set_temporaries (<[t := bytes]> (temporaries d)) d.

Lemma write_all_quiet op path t bytes d n k :
  write_all op path t bytes {| disk := own d t []; calls := n; draws := k |} =
    ({| disk := own d t bytes; calls := S n; draws := k |}, Ok tt).
Proof.
  unfold write_all. rewrite call_quiet. cbn. do 3 f_equal. unfold own, set_temporaries. cbn. f_equal.
  rewrite alter_insert_eq, take_ge by done. done.
Qed.

Lemma remove_quiet t bytes d n k :
  temporaries d !! t = None ->
  remove_file t {| disk := own d t bytes; calls := n; draws := k |} =
    ({| disk := d; calls := S n; draws := k |}, Ok tt).
Proof.
  intros Ht. unfold remove_file. rewrite call_quiet. cbn. do 3 f_equal.
  rewrite delete_insert_id by done. by destruct d.
Qed.

(** The disk once the object of [bytes] is there. *)
Definition with_object (bytes : list Z) (d : Disk) : Disk := {|
  objects := <[object_path (blake3 bytes) := Regular bytes]> (objects d);
  directories := <[(object_path (blake3 bytes)).1 := true]> (directories d);
  temporaries := temporaries d |}.

Definition with_parent (bytes : list Z) (d : Disk) : Disk :=
  set_directories (<[(object_path (blake3 bytes)).1 := true]> (directories d)) d.

Lemma prepare_quiet bytes d n k :
  directories d !! (object_path (blake3 bytes)).1 <> Some false ->
  prepare_object_parent (blake3 bytes) {| disk := d; calls := n; draws := k |} =
    ({| disk := with_parent bytes d; calls := S (S n); draws := k |}, Ok tt).
Proof.
  intros Hd. unfold prepare_object_parent, mbind, io_bind, look. rewrite call_quiet. cbn [disk].
  destruct (directories d !! (object_path (blake3 bytes)).1) as [[]|] eqn:E; [|done|].
  - cbn. rewrite call_quiet. cbn. rewrite E. cbn. do 3 f_equal. unfold with_parent, set_directories.
    rewrite insert_id by done. by destruct d.
  - cbn. rewrite call_quiet. cbn. by rewrite lookup_insert_eq.
Qed.

Lemma verify_object_quiet bytes d n k :
  read_object blake3 maximum (blake3 bytes) d = Ok bytes ->
  verify_object blake3 maximum (blake3 bytes) (Z.of_nat (length bytes))
      {| disk := d; calls := n; draws := k |} =
    ({| disk := d; calls := S (S n); draws := k |}, Ok tt).
Proof.
  intros Hr. pose proof (proj1 (read_object_Ok blake3 maximum _ _ _) Hr) as (Hd & Ho & Hl & _).
  unfold verify_object. eapply bind_run.
  { unfold look. rewrite call_quiet. cbn. unfold checked_object_path, open_regular_file.
    rewrite Hd. cbn. rewrite Ho. reflexivity. }
  eapply bind_run.
  { unfold lift. by rewrite (proj2 (Z.leb_le _ _) Hl). }
  eapply bind_run.
  { unfold read_verified, look. rewrite call_quiet. cbn [disk fst snd]. rewrite Hr. reflexivity. }
  unfold lift. by rewrite Z.eqb_refl.
Qed.

Lemma sync_quiet op path d n k :
  sync op path {| disk := d; calls := n; draws := k |} =
    ({| disk := d; calls := S n; draws := k |}, Ok tt).
Proof. unfold sync, look. by rewrite call_quiet. Qed.

Lemma link_quiet t bytes d n k :
  objects d !! object_path (blake3 bytes) = None ->
  hard_link t (blake3 bytes) {| disk := with_parent bytes (own d t bytes); calls := n; draws := k |} =
    ({| disk := own (with_object bytes d) t bytes; calls := S n; draws := k |}, Ok true).
Proof. intros Ho. unfold hard_link. rewrite call_quiet. cbn. by rewrite Ho, lookup_insert_eq. Qed.

Lemma link_taken t bytes d n k :
  objects d !! object_path (blake3 bytes) = Some (Regular bytes) ->
  hard_link t (blake3 bytes) {| disk := with_parent bytes (own d t bytes); calls := n; draws := k |} =
    ({| disk := own (with_object bytes d) t bytes; calls := S n; draws := k |}, Ok false).
Proof.
  intros Ho. unfold hard_link. rewrite call_quiet. cbn. rewrite Ho. cbn. do 2 f_equal.
  unfold own, with_object, with_parent, set_directories, set_temporaries. cbn. by rewrite (insert_id _ _ _ Ho).
Qed.

Lemma publish_quiet t bytes d n k :
  Z.of_nat (length bytes) <= maximum ->
  temporaries d !! t = None ->
  directories d !! (object_path (blake3 bytes)).1 <> Some false ->
  (objects d !! object_path (blake3 bytes) = None \/
   objects d !! object_path (blake3 bytes) = Some (Regular bytes)) ->
  exists n', publish_temporary blake3 maximum t (blake3 bytes) (Z.of_nat (length bytes))
      {| disk := own d t bytes; calls := n; draws := k |} =
    ({| disk := with_object bytes d; calls := n'; draws := k |},
     Ok {| cas_digest := blake3 bytes; cas_byte_length := Z.of_nat (length bytes) |}).
Proof.
  intros Hl Ht Hd Ho.
  assert (Hp : directories (own d t bytes) !! (object_path (blake3 bytes)).1 <> Some false) by done.
  assert (Hr : read_object blake3 maximum (blake3 bytes) (with_object bytes d) = Ok bytes).
  { apply read_object_Ok. cbn. by rewrite !lookup_insert_eq. }
  assert (Hrm : forall n, remove_file t {| disk := own (with_object bytes d) t bytes;
      calls := n; draws := k |} = ({| disk := with_object bytes d; calls := S n; draws := k |}, Ok tt))
    by (intros; by apply remove_quiet).
  unfold publish_temporary.
  destruct Ho as [Ho|Ho]; eexists;
    (eapply bind_run; [by apply or_discard_run, sync_quiet|]);
    (eapply bind_run; [by apply or_discard_run, prepare_quiet|]).
  - eapply bind_run; [by apply or_discard_run, link_quiet|]. eapply bind_run; [|reflexivity].
    do 2 (eapply bind_run; [by apply or_discard_run, sync_quiet|]). apply Hrm.
  - eapply bind_run; [by apply or_discard_run, link_taken|]. eapply bind_run; [|reflexivity].
    eapply bind_run; [apply attempt_run, Hrm|]. by apply verify_object_quiet.
Qed.
End quiet.

(** Kernel bytes within the limit are adopted whenever every system call
    succeeds, nothing else acts and the generator offers more distinct names than
    there are temporary files; the object is then on the disk, the temporary file
    is gone, and adopting again changes nothing. *)
Theorem kernel_bytes_adopted blake3 maximum {M : Machine} turns bytes w :
  (forall n d, meanwhile n d = d) -> (forall n, outcome n = Proceeds) ->
  (forall i j, suffixes i = suffixes j -> i = j) ->
  (size (temporaries (disk w)) < turns)%nat ->
  Z.of_nat (length bytes) <= maximum ->
  directories (disk w) !! (object_path (blake3 bytes)).1 <> Some false ->
  (objects (disk w) !! object_path (blake3 bytes) = None \/
   objects (disk w) !! object_path (blake3 bytes) = Some (Regular bytes)) ->
  let seal := {| cas_digest := blake3 bytes; cas_byte_length := Z.of_nat (length bytes) |} in
  exists w', adopt_kernel_bytes blake3 maximum turns bytes w = (w', Ok seal) /\
    disk w' = with_object blake3 bytes (disk w) /\
    exists w'', adopt_kernel_bytes blake3 maximum turns bytes w' = (w'', Ok seal) /\ disk w'' = disk w'.
Proof.
  intros Hm Ho Hinj Hturns Hl Hdir Hobj seal.
  assert (Hrun : forall w, (size (temporaries (disk w)) < turns)%nat ->
    directories (disk w) !! (object_path (blake3 bytes)).1 <> Some false ->
    (objects (disk w) !! object_path (blake3 bytes) = None \/
     objects (disk w) !! object_path (blake3 bytes) = Some (Regular bytes)) ->
    exists w', adopt_kernel_bytes blake3 maximum turns bytes w = (w', Ok seal) /\
      disk w' = with_object blake3 bytes (disk w)).
  { clear - Hm Ho Hinj Hl. intros w Hturns Hdir Hobj.
    destruct (free_name (temporaries (disk w)) turns (draws w)) as (i & Hi & Hfree); [|done|].
    { intros i j _ _ E%Hinj. lia. }
    destruct (create_temporary_quiet Hm Ho turns w i Hi Hfree) as (t & n & k & Ht & Hc).
    destruct (publish_quiet blake3 maximum Hm Ho t bytes (disk w) (S n) k Hl Ht Hdir Hobj) as [n' Hp].
    eexists. split; [|shelve]. unfold adopt_kernel_bytes.
    eapply bind_run; [unfold lift; by rewrite (proj2 (Z.leb_le _ _) Hl)|].
    eapply bind_run; [exact Hc|]. eapply bind_run; [|exact Hp].
    apply or_discard_run, write_all_quiet; done. Unshelve. done. }
  destruct (Hrun w) as (w' & E & Hw'); [done..|]. exists w'. split_and!; [done..|].
  destruct (Hrun w') as (w'' & E' & Hw''); [by rewrite Hw'|..].
  - by rewrite Hw'; cbn; rewrite lookup_insert_eq.
  - rewrite Hw'. cbn. rewrite lookup_insert_eq. auto.
  - exists w''. split; [done|]. rewrite Hw'', Hw'. unfold with_object. cbn. by rewrite !insert_insert_eq.
Qed.

(** * Object names *)

Lemma take_drop_inj {A} n (l l' : list A) : take n l = take n l' -> drop n l = drop n l' -> l = l'.
Proof. intros H1 H2. rewrite <- (take_drop n l), H1, H2. apply take_drop. Qed.

(** Different digests have different object names. *)
Theorem object_path_injective d d' :
  digest_wf d -> digest_wf d' -> object_path d = object_path d' -> d = d'.
Proof.
  intros [Hl Hd] [Hl' Hd'] [= E1 E2].
  assert (Hinj : forall l l', Forall u8 l -> Forall u8 l' -> text_of l = text_of l' -> l = l').
  { intros l l' Hu Hu' E. rewrite <- (text_of_bytes l), <- (text_of_bytes l') by done. by rewrite E. }
  pose proof (hex_text_u8 d Hd) as Hx. pose proof (hex_text_u8 d' Hd') as Hx'.
  apply Hinj in E1; [|by apply Forall_take..]. apply Hinj in E2; [|by apply Forall_drop..].
  pose proof (take_drop_inj 2 _ _ E1 E2) as E.
  assert (Hparse : content_digest_from_str (text_of (hex_text d)) = Ok d).
  { apply content_digest_from_str_exact. split; [done|]. by apply text_of_bytes. }
  assert (Hparse' : content_digest_from_str (text_of (hex_text d')) = Ok d').
  { apply content_digest_from_str_exact. split; [done|]. by apply text_of_bytes. }
  rewrite E in Hparse. congruence.
Qed.

(** A staged file is reached from its root through entries none of which is a
    link, and its path has no [..] component. *)
Theorem staged_file_beneath_root staging path r :
  open_staged_file staging path = Ok r ->
  staging [] = Some StagedDirectory /\ staging (path_components path) = Some (StagedFile r) /\
  (string_bytes ".." ∉ path_components path) /\
  forall n, (n <= length (path_components path))%nat ->
    staging (take n (path_components path)) <> Some StagedSymlink.
Proof.
  unfold open_staged_file. intros H. ok_inv H.
  match goal with Hv : validate_relative_source _ = Ok _ |- _ => unfold validate_relative_source in Hv; ok_inv Hv end.
  split_and!; [done..| |].
  - intros Hin. match goal with Hf : Forall _ _ |- _ => rewrite Forall_forall in Hf; specialize (Hf _ Hin) end.
    by vm_compute in H.
  - assert (Hgen : forall before rest n, inspect_components staging path before rest = Ok tt ->
      (0 < n <= length rest)%nat -> staging (before ++ take n rest) <> Some StagedSymlink).
    { clear. intros before rest. revert before. induction rest as [|c rest IH]; intros before n H Hn.
      { simpl in Hn. lia. }
      cbn [inspect_components] in H. destruct n as [|n]; [lia|]. cbn [take].
      destruct (staging (before ++ [c])) as [s|] eqn:E; [|done].
      destruct n as [|n]; [rewrite take_0, E; by destruct s|].
      rewrite (cons_middle c before), (assoc_L (++)). apply IH; [by destruct s|simpl in Hn; lia]. }
    intros n Hn. destruct n as [|n]; [rewrite take_0; congruence|].
    match goal with Hi : inspect_components _ _ _ _ = Ok ?u |- _ => destruct u;
      exact (Hgen [] _ (S n) Hi ltac:(lia)) end.
Qed.

(** * Concrete machines *)

(** A stand-in for the hash: the bytes themselves, padded to 32. *)
Definition padded (l : list Z) : ContentDigest := take 32 (l ++ repeat 0 32).

Definition empty_disk : Disk := {| objects := ∅; directories := ∅; temporaries := ∅ |}.

(** A machine on its own whose process dies at one call, if any. *)
Definition machine (crash : option nat) : Machine := {|
  meanwhile := fun _ d => d;
  outcome := fun n => if bool_decide (Some n = crash) then Crashes 1 else Proceeds;
  suffixes := Z.of_nat |}.

Lemma machine_lawful blake3 maximum crash : @LawfulMachine blake3 maximum (machine crash).
Proof. constructor; simpl; done. Qed.

(** A staging directory with one file [f] of two bytes, read in one piece. *)
Definition sample_staging : Staging := fun path =>
  if bool_decide (path = []) then Some StagedDirectory
  else if bool_decide (path = [string_bytes "f"]) then Some (StagedFile {|
    initial_length := 2; initial_modified := Some 1; chunks := [[104; 105]; []];
    final_length := 2; final_modified := Some 1 |})
  else None.

Definition start : Run := {| disk := empty_disk; calls := 0; draws := 0 |}.

(** The process dies right after the object's name appeared: the object stays,
    whole. *)
Lemma adoption_whole_or_nothing_witness :
  let M := machine (Some 6%nat) in
  let w' := (adopt padded 10 1 sample_staging "f" start).1 in
  grows padded 10 empty_disk (disk w') /\
  (adopt padded 10 1 sample_staging "f" start).2 = Err Crashed /\
  objects (disk w') !! object_path (padded [104; 105]) = Some (Regular [104; 105]).
Proof.
  split_and!; [|by vm_compute|by vm_compute].
  refine (proj1 (@adoption_whole_or_nothing padded 10 (machine (Some 6%nat))
    (machine_lawful padded 10 (Some 6%nat)) 1 sample_staging "f" start _ _ _ _)); [lia|].
  apply surjective_pairing.
Defined.

Lemma kernel_bytes_adopted_witness :
  let M := machine None in
  exists w', adopt_kernel_bytes padded 10 1 [104; 105] start
      = (w', Ok {| cas_digest := padded [104; 105]; cas_byte_length := 2 |}) /\
    disk w' = with_object padded [104; 105] empty_disk.
Proof.
  destruct (@kernel_bytes_adopted padded 10 (machine None) 1 [104; 105] start)
    as (w' & E & Hd & _); [done|done| |vm_compute; lia|vm_compute; discriminate| | |eauto].
  - intros i j E%Nat2Z.inj. exact E.
  - vm_compute. discriminate.
  - left. by vm_compute.
Defined.
