(* ===== verification/PacketProofs.v ===== *)
(** The packet that is admitted is the packet that is recovered: the checks at
    admission determine every field a restart reads back. *)
From S2P Require Import Prelude Values Base64 Contracts Application Json WireBundle.
From S2P Require Import Cas Custody Database ProcessStore ProcessReads Packet PacketAdmission.

#[local] Arguments to_hex : simpl never.
#[local] Arguments content_digest_from_str : simpl never.

(** What the Rust types of a domain packet demand. *)
Record packet_typed (p : Packet.AssignmentPacketV2) : Prop := {
  typed_ids : Forall (fun id => 0 < id) [pkt_campaign_id p; pkt_assignment_id p;
    pkt_application_revision_id p; pkt_system_prompt_artifact_id p;
    pkt_assignment_prompt_artifact_id p; pkt_required_read_manifest_artifact_id p];
  typed_attempt : from_option (fun id => 0 < id) True (pkt_ticket_attempt_id p);
  typed_candidate : from_option (fun id => 0 < id) True (pkt_candidate_id p);
  typed_digests : Forall digest_wf [pkt_kernel_build_id p; pkt_policy_digest p;
    ri_core_source_digest (pkt_runtime p); pkt_packet_digest p];
  typed_hosts : Forall (fun path => absolute_host_path_parse path = Ok path)
    [pkt_workspace_root p; pkt_staging_root p; ri_host_executable (pkt_runtime p)];
  typed_reads : Forall (fun r => repository_relative_path_parse (rx_path r) = Ok (rx_path r) /\
    digest_wf (rx_digest r)) (pkt_required_reads p);
  typed_evidence : Forall (fun e => 0 < ev_artifact_id e /\ digest_wf (ev_digest e))
    (pkt_assignment_evidence p);
}.

(** * Names are read back *)

Lemma role_name_back role : parse_assignment_role (assignment_role_name role) = Ok role.
Proof. by destruct role. Qed.

Lemma thinking_name_back level : parse_thinking_level (thinking_name level) = Ok level.
Proof. by destruct level. Qed.

Lemma operation_name_back operation : parse_operation (terminal_operation_name operation) = Ok operation.
Proof. by destruct operation. Qed.

Lemma evidence_name_back role : parse_wire_name (wire_name role) = Ok role.
Proof. by destruct role. Qed.

Lemma identifier_back kind id : 0 < id -> identifier_new kind id = Ok id.
Proof. intros H. unfold identifier_new. by replace (id <=? 0) with false by lia. Qed.

Lemma pairwise_map_ok {E A B} (agree : A -> B -> bool) (f : A -> result E B) (typed : B -> Prop) l l' :
  pairwise agree l l' = true -> Forall typed l' ->
  (forall a b, agree a b = true -> typed b -> f a = Ok b) -> map_ok f l = Ok l'.
Proof.
  unfold pairwise. intros [Hlen%Nat.eqb_eq Hall]%andb_true_iff Htyped Hf.
  revert l' Hlen Hall Htyped. induction l as [|a l IH]; intros [|b l'] Hlen Hall Htyped; try done.
  cbn in Hall. apply andb_true_iff in Hall as [Hab Hall]. inversion_clear Htyped.
  cbn. rewrite (Hf a b) by done. cbn. rewrite (IH l'); [done| |done..]. simpl in Hlen. lia.
Qed.

Lemma same_text_eq a b : same_text a b = true <-> a = b.
Proof. apply bool_decide_eq_true. Qed.

Ltac texts := repeat match goal with
  | H : same_text _ _ = true |- _ => apply same_text_eq in H
  end.

Lemma read_back w r :
  read_agrees w r = true -> repository_relative_path_parse (rx_path r) = Ok (rx_path r) /\ digest_wf (rx_digest r) ->
  read_from_wire w = Ok r.
Proof.
  unfold read_agrees, read_from_wire. intros H [Hpath Hdigest]. bool_prop. texts.
  destruct w, r; cbn in *; subst. rewrite Hpath. cbn. by rewrite digest_back.
Qed.

Lemma evidence_back w e :
  evidence_agrees w e = true -> 0 < ev_artifact_id e /\ digest_wf (ev_digest e) -> evidence_from_wire w = Ok e.
Proof.
  unfold evidence_agrees, evidence_from_wire. intros H [Hid Hdigest]. bool_prop. texts.
  destruct w, e; cbn in *; subst.
  rewrite evidence_name_back. cbn. rewrite identifier_back by done. cbn. by rewrite digest_back.
Qed.

Ltac stepped := cbn [closed admitted map_err ok_or mbind result_bind].

(** Rewrites with what is known of the fields of [w]. *)
Ltac fields_known w := repeat match goal with
  | E : ?f w = _ |- context [?f w] => rewrite E
  | E : ?f (?g w) = _ |- context [?f (?g w)] => rewrite E
  end.

Lemma flag_back w m : same_text w "reasoning" = true -> closed (parse_model_capability w) = Ok m.
Proof. intros ->%same_text_eq. by destruct m. Qed.

(** * The packet *)

Section packets.
Variable blake3 : list Z -> ContentDigest.

(** Accepting the mapping fixes every field of the wire form the store reads. *)
Lemma model_back w m :
  model_agrees w m = true ->
  closed (parse_thinking_level (amw_thinking_level w)) = Ok (mp_thinking_level m) /\
  map_ok (fun flag => closed (parse_model_capability flag)) (amw_capability_flags w)
    = Ok (mp_capability_flags m) /\
  model_from_wire w (mp_thinking_level m) (mp_capability_flags m) = m.
Proof.
  unfold model_agrees, model_from_wire. intros H. bool_prop. texts. split_and!.
  - replace (amw_thinking_level w) with (thinking_name (mp_thinking_level m)) by done.
    unfold closed. by rewrite thinking_name_back.
  - eapply (pairwise_map_ok _ _ (fun _ => True)); [done|by apply Forall_true|].
    intros flag [] Hflag _. by apply flag_back.
  - destruct m; cbn in *. congruence.
Qed.

Lemma limits_eta l : {| sl_wall_limit := sl_wall_limit l; sl_output_byte_limit := sl_output_byte_limit l |} = l.
Proof. by destruct l. Qed.

Lemma runtime_eta r :
  {| ri_host_executable := ri_host_executable r; ri_core_head := ri_core_head r;
     ri_core_source_digest := ri_core_source_digest r; ri_rust_toolchain := ri_rust_toolchain r;
     ri_credential_env := ri_credential_env r |} = r.
Proof. by destruct r. Qed.

Lemma optional_back kind (o : option Z) :
  from_option (fun id => 0 < id) True o ->
  transpose_map (fun id => admitted (identifier_new kind id)) o = Ok o.
Proof. destruct o; [|done]. simpl. intros H. by rewrite identifier_back. Qed.

Theorem mapping_restores w p :
  packet_typed p -> packet_validate blake3 p = Ok tt -> verify_wire_domain_mapping w p = Ok tt ->
  apw_format_version w = ASSIGNMENT_PACKET_V2_FORMAT ->
  Forall (fun tool => is_known_assignment_tool tool = true) (apw_tools w) ->
  assignment_packet_from_wire blake3 w = Ok p.
Proof.
  intros [Hids Hattempt Hcandidate Hdigests Hhosts Hreads Hevidence] Hvalid Hmap Hversion Htools.
  assert (Hformat : pkt_format_version p = ASSIGNMENT_PACKET_V2_FORMAT).
  { unfold packet_validate in Hvalid. ok_inv Hvalid. by bool_prop. }
  unfold verify_wire_domain_mapping, packet_digest_text, policy_entrypoint_text in Hmap. ok_inv Hmap.
  unfold identity_agrees, session_agrees in *. bool_prop. texts.
  match goal with E : model_agrees _ _ = true |- _ => apply model_back in E as (Hlevel & Hflags & Hmodel) end.
  repeat match goal with E : Forall _ (_ :: _) |- _ => inversion_clear E end.
  unfold assignment_packet_from_wire, packet_digest_text, policy_entrypoint_text.
  assert (Hr : map_ok read_from_wire (apw_required_reads w) = Ok (pkt_required_reads p))
    by (eapply pairwise_map_ok; eauto using read_back).
  assert (He : map_ok evidence_from_wire (apw_assignment_evidence w) = Ok (pkt_assignment_evidence p))
    by (eapply pairwise_map_ok; eauto using evidence_back).
  assert (Ho : map_ok parse_operation (apw_terminal_operations w) = Ok (pkt_terminal_operations p)).
  { eapply (pairwise_map_ok _ _ (fun _ => True)); [eassumption|by apply Forall_true|].
    intros name operation ->%same_text_eq _. apply operation_name_back. }
  assert (Ht : for_each (fun tool => require (is_known_assignment_tool tool) PacketIdentityMismatch) (apw_tools w) = Ok tt).
  { apply for_each_Ok. eapply Forall_impl; [done|]. intros tool Htool. by rewrite Htool. }
  fields_known w. rewrite role_name_back. stepped. rewrite Hlevel. stepped. rewrite Hflags. stepped.
  rewrite !identifier_back by done. stepped. rewrite !optional_back by done. stepped.
  fields_known w. stepped.
  repeat match goal with E : absolute_host_path_parse _ = Ok _ |- _ => rewrite E; stepped end.
  rewrite digest_back by done. stepped.
  match goal with |- context [packet_validate blake3 ?q] => replace q with p; [by rewrite Hvalid|] end.
  rewrite Hmodel, limits_eta, runtime_eta. subst. clear - Hformat. destruct p. cbn in Hformat. by subst.
Qed.

(** * Verification *)

Context `{BundleReader} `{WireBundle.Json AssignmentPacketWireV2}.

Lemma parse_packet_Ok payload w :
  parse_assignment_packet_v2 blake3 payload = Ok w <->
  utf8_valid payload = true /\ from_str payload = Some w /\
  canonical_assignment_packet_json_v2 blake3 w = Ok payload /\
  validate_assignment_packet_wire_v2 blake3 w false = Ok tt.
Proof.
  unfold parse_assignment_packet_v2, decode_closed_json. split.
  - intros E. ok_inv E. bool_prop. subst. match goal with u : () |- _ => destruct u end. done.
  - intros (-> & -> & E & V). cbn. rewrite E. cbn. rewrite bool_decide_true by done. cbn. by rewrite V.
Qed.

Lemma verify_packet_Ok payload expected w :
  verify_assignment_packet_v2 blake3 payload expected = Ok w <->
  parse_assignment_packet_v2 blake3 payload = Ok w /\
  exists digest, unsigned_assignment_packet_digest_v2 blake3 w = Ok digest /\
    content_digest_from_str (apw_packet_digest w) = Ok digest /\
    content_digest_from_str expected = Ok digest.
Proof.
  unfold verify_assignment_packet_v2. split.
  - intros E. ok_inv E. bool_prop. subst. eauto 6.
  - intros (-> & digest & E & E' & E''). cbn. rewrite E. cbn. rewrite E'. cbn. rewrite E''. cbn.
    by rewrite bool_decide_true.
Qed.

Lemma validated_tools w empty :
  validate_assignment_packet_wire_v2 blake3 w empty = Ok tt ->
  apw_format_version w = ASSIGNMENT_PACKET_V2_FORMAT /\
  Forall (fun tool => is_known_assignment_tool tool = true) (apw_tools w).
Proof.
  unfold validate_assignment_packet_wire_v2. intros E. ok_inv E. bool_prop.
  unfold validate_sets in *. split; [done|].
  match goal with E : (_ ;; _) = Ok ?u |- context [apw_tools] => ok_inv E end.
  match goal with E : Forall _ (apw_tools w) |- _ => eapply Forall_impl; [exact E|] end.
  intros tool. apply require_Ok.
Qed.

(** * Admission and recovery *)

Variable maximum_object_bytes : Z.

Lemma admit_packet_Ok d c w :
  admit_packet blake3 maximum_object_bytes d c = Ok w ->
  packet_validate blake3 (pa_packet c) = Ok tt /\
  verify_assignment_packet_v2 blake3 (pa_packet_bytes c) (to_hex (pkt_packet_digest (pa_packet c))) = Ok w /\
  verify_wire_domain_mapping w (pa_packet c) = Ok tt /\
  pkt_assignment_id (pa_packet c) = pa_identity c /\
  read_object blake3 maximum_object_bytes (cas_digest (pa_packet_artifact c)) d = Ok (pa_packet_bytes c).
Proof.
  unfold admit_packet, admitted, verified_wire, packet_object. intros E. ok_inv E. bool_prop. subst.
  repeat match goal with u : () |- _ => destruct u end. done.
Qed.

(** C30: The packet a restart loads is the packet that was admitted: the bytes sealed
    at admission stay on the disk, and reading them back gives exactly the domain
    packet the assignment was created with. *)
Theorem restart_loads_admitted_packet d d' c w :
  admit_packet blake3 maximum_object_bytes d c = Ok w -> packet_typed (pa_packet c) -> grows blake3 maximum_object_bytes d d' ->
  load_packet blake3 maximum_object_bytes d' (cas_digest (pa_packet_artifact c))
    (Z.of_nat (length (pa_packet_bytes c))) (pkt_packet_digest (pa_packet c)) = Ok (pa_packet c).
Proof.
  intros (Hvalid & Hverify & Hmap & _ & Hread)%admit_packet_Ok Htyped Hgrows.
  apply (read_object_later _ _ _ _ _ _ Hgrows) in Hread.
  unfold load_packet, verified_wire, packet_object, verify_seal. rewrite Hread. cbn [mbind result_bind map_err cas_byte_length].
  rewrite (proj2 (Z.leb_le _ _)) by lia. cbn [require mbind result_bind]. rewrite Z.eqb_refl. cbn [require mbind result_bind].
  rewrite Hverify. cbn [mbind result_bind map_err].
  apply verify_packet_Ok in Hverify as [Hparse _]. apply parse_packet_Ok in Hparse as (_ & _ & _ & Hv).
  apply validated_tools in Hv as [Hformat Htools]. by apply mapping_restores.
Qed.
End packets.
