(* ===== verification/PacketCanonical.v ===== *)
(** What the canonical bytes of a packet promise: they determine the packet, its
    digest identifies it, and a packet sealed with its digest verifies
    ([PacketAdmission] and [PacketBuild] rest on this). *)
From S2P Require Import Prelude Values Base64 Contracts Application Json WireBundle Canonical.
From S2P Require Import Cas Custody Database ProcessStore ProcessReads Packet PacketAdmission PacketProofs.

#[local] Open Scope string_scope.
#[local] Open Scope list_scope.
#[local] Open Scope Z_scope.

(** * Trees, with the keys in order *)

Definition packet_model_tree (m : AssignmentModelWireV2) : json := JObject [
  ("capability_flags", strings_tree (amw_capability_flags m));
  ("context_token_limit", JNumber (amw_context_token_limit m)); ("model_id", JString (amw_model_id m));
  ("output_token_limit", JNumber (amw_output_token_limit m));
  ("price_cache_read_micro_usd_per_million_tokens", JNumber (amw_price_cache_read m));
  ("price_cache_write_micro_usd_per_million_tokens", JNumber (amw_price_cache_write m));
  ("price_input_micro_usd_per_million_tokens", JNumber (amw_price_input m));
  ("price_output_micro_usd_per_million_tokens", JNumber (amw_price_output m));
  ("provider", JString (amw_provider m)); ("thinking_level", JString (amw_thinking_level m))].

Definition packet_limits_tree (l : AssignmentLimitsWireV2) : json := JObject [
  ("output_byte_limit", JNumber (alw_output_byte_limit l));
  ("wall_limit_millis", JNumber (alw_wall_limit_millis l))].

Definition packet_runtime_tree (r : AssignmentRuntimeWireV2) : json := JObject [
  ("core_head", JString (arw_core_head r)); ("core_source_digest", JString (arw_core_source_digest r));
  ("credential_env", JString (arw_credential_env r)); ("host_executable", JString (arw_host_executable r));
  ("rust_toolchain", JString (arw_rust_toolchain r))].

Definition packet_read_tree (r : AssignmentReadWireV2) : json := JObject [
  ("digest", JString (arr_digest r)); ("path", JString (arr_path r)); ("reason", JString (arr_reason r))].

Definition packet_evidence_tree (e : AssignmentEvidenceWireV2) : json := JObject [
  ("artifact_id", JNumber (aew_artifact_id e)); ("byte_length", JNumber (aew_byte_length e));
  ("digest", JString (aew_digest e)); ("role", JString (aew_role e))].

Definition packet_tree (p : AssignmentPacketWireV2) : json := JObject [
  ("aggregate_revision", JNumber (apw_aggregate_revision p));
  ("application_revision_id", JNumber (apw_application_revision_id p));
  ("assignment_evidence", JArray (packet_evidence_tree <$> apw_assignment_evidence p));
  ("assignment_id", JNumber (apw_assignment_id p));
  ("assignment_prompt_artifact_id", JNumber (apw_assignment_prompt_artifact_id p));
  ("assignment_prompt_bytes_b64", JString (apw_assignment_prompt_bytes_b64 p));
  ("assignment_prompt_digest", JString (apw_assignment_prompt_digest p));
  ("assignment_role", JString (apw_assignment_role p)); ("campaign_id", JNumber (apw_campaign_id p));
  ("candidate_id", option_tree JNumber (apw_candidate_id p));
  ("factory_base_identity", JString (apw_factory_base_identity p));
  ("format_version", JNumber (apw_format_version p)); ("kernel_build_id", JString (apw_kernel_build_id p));
  ("limits", packet_limits_tree (apw_limits p)); ("model", packet_model_tree (apw_model p));
  ("packet_digest", JString (apw_packet_digest p)); ("policy_byte_limit", JNumber (apw_policy_byte_limit p));
  ("policy_bytes_b64", JString (apw_policy_bytes_b64 p)); ("policy_digest", JString (apw_policy_digest p));
  ("policy_entrypoint", JString (apw_policy_entrypoint p));
  ("remaining_campaign_allowance_micro_usd", JNumber (apw_remaining_campaign_allowance_micro_usd p));
  ("repository_base_identity", JString (apw_repository_base_identity p));
  ("required_read_manifest_artifact_id", JNumber (apw_required_read_manifest_artifact_id p));
  ("required_reads", JArray (packet_read_tree <$> apw_required_reads p));
  ("runtime", packet_runtime_tree (apw_runtime p)); ("staging_root", JString (apw_staging_root p));
  ("system_prompt_artifact_id", JNumber (apw_system_prompt_artifact_id p));
  ("system_prompt_bytes_b64", JString (apw_system_prompt_bytes_b64 p));
  ("system_prompt_digest", JString (apw_system_prompt_digest p)); ("target", JString (apw_target p));
  ("terminal_operations", strings_tree (apw_terminal_operations p));
  ("ticket_attempt_id", option_tree JNumber (apw_ticket_attempt_id p));
  ("tools", strings_tree (apw_tools p)); ("workspace_root", JString (apw_workspace_root p))].

#[export] Instance packet_model_tree_inj : Inj (=) (=) packet_model_tree. Proof. tree_inj. Qed.
#[export] Instance packet_limits_tree_inj : Inj (=) (=) packet_limits_tree. Proof. tree_inj. Qed.
#[export] Instance packet_runtime_tree_inj : Inj (=) (=) packet_runtime_tree. Proof. tree_inj. Qed.
#[export] Instance packet_read_tree_inj : Inj (=) (=) packet_read_tree. Proof. tree_inj. Qed.
#[export] Instance packet_evidence_tree_inj : Inj (=) (=) packet_evidence_tree. Proof. tree_inj. Qed.

(** [tree_inj] for a record of many fields: its values are compared one by one. *)
#[export] Instance packet_tree_inj : Inj (=) (=) packet_tree.
Proof.
  intros x y H. apply object_values in H. cbn [fmap list_fmap snd] in H.
  repeat match goal with E : _ :: _ = _ :: _ |- _ =>
    let E' := fresh in apply cons_values in E as [E' E] end.
  repeat match goal with
    | E : JArray _ = JArray _ |- _ => apply array_values in E
    | E : _ <$> _ = _ <$> _ |- _ => apply fmap_tree_inj in E; [|typeclasses eauto]
    | E : JNumber _ = JNumber _ |- _ => injection E as E
    | E : JString _ = JString _ |- _ => injection E as E
    | E : option_tree ?f _ = option_tree ?f _ |- _ => apply (option_tree_inj f _ ltac:(done)) in E
    | E : strings_tree _ = _ |- _ => apply (inj _) in E
    | E : packet_model_tree _ = _ |- _ => apply (inj _) in E
    | E : packet_limits_tree _ = _ |- _ => apply (inj _) in E
    | E : packet_runtime_tree _ = _ |- _ => apply (inj _) in E
    end.
  destruct x, y. cbn in *. by subst.
Qed.

(** * What the JSON library does with a packet *)

Definition i64_range (z : Z) : bool := (- 2 ^ 63 <=? z) && (z <=? i64_max).
Definition optional_i64 (o : option Z) : bool := match o with Some z => i64_range z | None => true end.

Definition sized_packet (p : AssignmentPacketWireV2) : bool :=
  let m := apw_model p in
  fits u16_max (apw_format_version p)
  && forallb i64_range [apw_campaign_id p; apw_assignment_id p; apw_application_revision_id p;
       apw_system_prompt_artifact_id p; apw_assignment_prompt_artifact_id p;
       apw_required_read_manifest_artifact_id p]
  && optional_i64 (apw_ticket_attempt_id p) && optional_i64 (apw_candidate_id p)
  && forallb (fits u32_max) [apw_policy_byte_limit p; amw_context_token_limit m; amw_output_token_limit m;
       alw_output_byte_limit (apw_limits p)]
  && forallb (fits u64_max) [amw_price_input m; amw_price_output m; amw_price_cache_read m;
       amw_price_cache_write m; alw_wall_limit_millis (apw_limits p);
       apw_remaining_campaign_allowance_micro_usd p; apw_aggregate_revision p]
  && forallb (fun e => i64_range (aew_artifact_id e) && fits u64_max (aew_byte_length e))
       (apw_assignment_evidence p).

(** A packet that can be a value of its Rust type: integers of their width and
    texts in UTF-8. *)
Definition packet_value (p : AssignmentPacketWireV2) : Prop :=
  sized_packet p = true /\ strings_valid (packet_tree p) = true.

(** [json::Value] writes what it read of a packet with sorted keys; a text of
    sorted keys is read as the packet it was written from. *)
Class LawfulPacketCodec (R : BundleReader) (J : WireBundle.Json AssignmentPacketWireV2) : Prop := {
  packet_written : forall p, packet_value p -> utf8_valid (to_string p) = true /\
    rewrite_value (to_string p) = Some (json_text (packet_tree p));
  packet_read : forall p, packet_value p -> from_str (json_text (packet_tree p)) = Some p;
  packet_values : forall text p, utf8_valid text = true -> from_str text = Some p -> packet_value p;
}.

(** * Digests *)

Lemma with_digest_same digest p : apw_packet_digest (with_packet_digest digest p) = digest.
Proof. by destruct p. Qed.

Lemma with_digest_twice digest digest' p :
  with_packet_digest digest (with_packet_digest digest' p) = with_packet_digest digest p.
Proof. by destruct p. Qed.

Lemma with_own_digest p : with_packet_digest (apw_packet_digest p) p = p.
Proof. by destruct p. Qed.

Lemma with_digest_sized digest p : sized_packet (with_packet_digest digest p) = sized_packet p.
Proof. by destruct p. Qed.

Lemma with_digest_strings digest p :
  utf8_valid (string_bytes digest) = true -> strings_valid (packet_tree p) = true ->
  strings_valid (packet_tree (with_packet_digest digest p)) = true.
Proof.
  intros Hd. unfold packet_tree. destruct p. cbn [strings_valid forallb fst snd].
  cbn -[utf8_valid string_bytes strings_valid strings_tree fmap packet_model_tree packet_limits_tree
    packet_runtime_tree option_tree]. rewrite !andb_true_iff. tauto.
Qed.

Lemma packet_value_with_digest digest p :
  utf8_valid (string_bytes digest) = true -> packet_value p -> packet_value (with_packet_digest digest p).
Proof. intros Hd [Hs Hv]. split; [by rewrite with_digest_sized|by apply with_digest_strings]. Qed.

(** Two texts of one digest are the same text. *)
Lemma digest_text_unique s s' d :
  content_digest_from_str s = Ok d -> content_digest_from_str s' = Ok d -> s = s'.
Proof. apply determined. Qed.

Section codec.
Variable blake3 : list Z -> ContentDigest.
Context {R : BundleReader} {J : WireBundle.Json AssignmentPacketWireV2} `{!LawfulPacketCodec R J}.

Lemma canonical_packet_text p t :
  packet_value p -> canonical_assignment_packet_json_v2 blake3 p = Ok t ->
  t = json_text (packet_tree p) /\ validate_assignment_packet_wire_v2 blake3 p true = Ok tt.
Proof.
  intros Hp. unfold canonical_assignment_packet_json_v2, canonical_json_value. intros E. ok_inv E.
  destruct (packet_written p Hp) as [_ Hw]. split; [congruence|]. by repeat match goal with u : () |- _ => destruct u end.
Qed.

Lemma canonical_packet_run p :
  packet_value p -> validate_assignment_packet_wire_v2 blake3 p true = Ok tt ->
  canonical_assignment_packet_json_v2 blake3 p = Ok (json_text (packet_tree p)).
Proof.
  intros Hp Hv. destruct (packet_written p Hp) as [Hu Hw].
  unfold canonical_assignment_packet_json_v2, canonical_json_value. rewrite Hv. cbn [mbind result_bind].
  rewrite Hu. cbn [require mbind result_bind]. by rewrite Hw.
Qed.

Lemma parsed_value payload p :
  parse_assignment_packet_v2 blake3 payload = Ok p -> packet_value p /\ payload = json_text (packet_tree p).
Proof.
  intros (Hu & Hr & Hc & _)%parse_packet_Ok. assert (packet_value p) by by eapply packet_values.
  split; [done|]. by eapply canonical_packet_text in Hc as [-> _].
Qed.

Lemma empty_digest_value p : packet_value p -> packet_value (with_packet_digest "" p).
Proof. by apply packet_value_with_digest. Qed.

(** The digest a packet is verified against identifies it: two payloads verified
    against the same digest are the same packet and the same bytes, unless BLAKE3
    collides on their unsigned texts. *)
Theorem packet_digest_identifies payload payload' expected p p' :
  verify_assignment_packet_v2 blake3 payload expected = Ok p ->
  verify_assignment_packet_v2 blake3 payload' expected = Ok p' ->
  (p = p' /\ payload = payload') \/
  exists t t', t <> t' /\ blake3 t = blake3 t' /\
    canonical_assignment_packet_json_v2 blake3 (with_packet_digest "" p) = Ok t /\
    canonical_assignment_packet_json_v2 blake3 (with_packet_digest "" p') = Ok t'.
Proof.
  intros (Hparse & d & Hd & Hown & Hexp)%verify_packet_Ok (Hparse' & d' & Hd' & Hown' & Hexp')%verify_packet_Ok.
  apply parsed_value in Hparse as [Hv ->]. apply parsed_value in Hparse' as [Hv' ->].
  assert (d' = d) as -> by congruence.
  apply fmap_Ok in Hd as (t & Ht & Ed). apply fmap_Ok in Hd' as (t' & Ht' & Ed').
  destruct (decide (t = t')) as [<-|Hne]; [left|right; exists t, t'; split_and!; congruence].
  apply canonical_packet_text in Ht as [-> _]; [|by apply empty_digest_value].
  apply canonical_packet_text in Ht' as [Ht' _]; [|by apply empty_digest_value].
  apply (inj json_text), (inj packet_tree) in Ht'.
  assert (p = p') as <-; [|done].
  rewrite <- (with_own_digest p), <- (with_own_digest p'), (digest_text_unique _ _ _ Hown Hown').
  apply (f_equal (with_packet_digest (apw_packet_digest p'))) in Ht'. by rewrite !with_digest_twice in Ht'.
Qed.

(** ** A sealed packet verifies *)

Lemma hex_text_ascii d : Forall u8 d -> Forall (fun b => 0 <= b <= 127) (hex_text d).
Proof.
  assert (Hdigit : forall n, 0 <= n < 16 -> 0 <= hex_digit n <= 127).
  { intros n Hn. unfold hex_digit. destruct (n <? 10) eqn:E; bool_prop; lia. }
  induction 1 as [|b d Hb _ IH]; [done|]. unfold u8 in Hb. cbn [hex_text].
  repeat apply Forall_cons_2; try apply Hdigit; try done;
    [split; [apply Z.div_pos; lia|apply Z.div_lt_upper_bound; lia]|apply Z.mod_pos_bound; lia].
Qed.

Lemma digest_hex_utf8 d : digest_wf d -> utf8_valid (string_bytes (to_hex d)) = true.
Proof.
  intros [_ Hd]. unfold to_hex. rewrite text_of_bytes by by apply hex_text_u8. by apply utf8_ascii, hex_text_ascii.
Qed.

Lemma digest_hex_nonempty d : digest_wf d -> is_empty (string_bytes (to_hex d)) = false.
Proof.
  intros [Hl Hd]. unfold to_hex. rewrite text_of_bytes by by apply hex_text_u8. by destruct d.
Qed.

Lemma validate_with_digest p :
  is_empty (string_bytes (apw_packet_digest p)) = false ->
  validate_assignment_packet_wire_v2 blake3 p true = validate_assignment_packet_wire_v2 blake3 p false.
Proof. intros H. unfold validate_assignment_packet_wire_v2, validate_identity. by rewrite H. Qed.

(** A packet sealed with its digest verifies against it. *)
Theorem sealed_packet_verifies p digest t :
  packet_value p -> digest_wf digest ->
  unsigned_assignment_packet_digest_v2 blake3 p = Ok digest ->
  canonical_assignment_packet_json_v2 blake3 (with_packet_digest (to_hex digest) p) = Ok t ->
  verify_assignment_packet_v2 blake3 t (to_hex digest) = Ok (with_packet_digest (to_hex digest) p).
Proof.
  intros Hp Hwf Hd Ht. set (q := with_packet_digest (to_hex digest) p) in *.
  assert (Hq : packet_value q) by (apply packet_value_with_digest; [by apply digest_hex_utf8|done]).
  pose proof (canonical_packet_text _ _ Hq Ht) as [-> Hv]. apply verify_packet_Ok. split.
  - apply parse_packet_Ok. destruct Hq as [Hs Hvalid]. split_and!; [by apply text_utf8|by apply packet_read|done|].
    rewrite <- validate_with_digest; [done|]. unfold q. rewrite with_digest_same. by apply digest_hex_nonempty.
  - exists digest. unfold q, unsigned_assignment_packet_digest_v2. rewrite with_digest_twice, with_digest_same.
    split_and!; [done|by apply digest_back..].
Qed.
End codec.
