(* ===== verification/HarnessProofs.v ===== *)
(** What the harness compiler and its store promise: the evidence of an assignment
    is closed, its reads are the ones asked for, its specification is refused for
    its text or its tools only, and a recorded compilation is read back for ever. *)
From S2P Require Import Prelude Values Contracts Application Database ProcessStore Packet Harness HarnessStore.
From S2P Require Import CampaignDriver AssignmentRuntime.

#[local] Open Scope string_scope.
#[local] Open Scope list_scope.
#[local] Open Scope Z_scope.

(** * Evidence *)

Lemma role_index_inj r r' : role_index r = role_index r' -> r = r'.
Proof. destruct r, r'; (reflexivity || discriminate). Qed.

Definition by_role (e : AssignmentEvidenceV2) : list Z := role_index (ev_role e).

Lemma gathered_roles target context values :
  gathered_evidence target context = Ok values ->
  NoDup (ev_role <$> values) /\ Z.of_nat (length values) <= 24.
Proof.
  destruct target as [|attempt|attempt candidate]; cbn [gathered_evidence]; intros E.
  - destruct (lc_proposal context), (lc_candidate context); try discriminate. injection E as <-. split; [constructor|done].
  - destruct (lc_proposal context) as [p|]; [|discriminate]. cbn in E.
    destruct (lc_candidate context); [discriminate|]. injection E as <-.
    destruct p as [? ? ? ? [?|] [? ?] [? ?] [? ?]]; (split; [apply (bool_decide_unpack _); reflexivity|cbn; lia]).
  - destruct (lc_proposal context) as [p|]; [|discriminate]. destruct (lc_candidate context) as [c|]; [|discriminate].
    cbn [ok_or mbind result_bind] in E. injection E as <-.
    destruct p as [? ? ? ? [?|] [? ?] [? ?] [? ?]], c as [? ? ? ? ? ? ? ? ? [?|] [?|] [?|] [?|]];
      (split; [apply (bool_decide_unpack _); reflexivity|cbn; lia]).
Qed.

Lemma sorted_distinct_roles (l : list AssignmentEvidenceV2) : NoDup (ev_role <$> l) -> repeats_role l = false.
Proof.
  induction l as [|a [|b l] IH]; intros H; [done..|]. rewrite fmap_cons in H. apply NoDup_cons in H as [Ha H].
  change (bool_decide (ev_role a = ev_role b) || repeats_role (b :: l) = false). rewrite (IH H), orb_false_r.
  apply bool_decide_eq_false. intros E. apply Ha. rewrite E. by left.
Qed.

(** The evidence of a target whose context carries what its office needs is always
    closed: all of it, in the order of the roles, each role once, within the
    packet's limit; the two checks after the sort never refuse. *)
Theorem assignment_evidence_closed target context values :
  gathered_evidence target context = Ok values ->
  exists evidence, exact_assignment_evidence target context = Ok evidence /\ evidence ≡ₚ values /\
    NoDup (ev_role <$> evidence) /\ Z.of_nat (length evidence) <= 24 /\
    StronglySorted (fun a b => lex_lt (by_role b) (by_role a) = false) evidence.
Proof.
  intros E. pose proof (gathered_roles _ _ _ E) as [Hn Hl].
  pose proof (order_by_perm by_role values) as Hp.
  assert (Hn' : NoDup (ev_role <$> order_by by_role values)) by by rewrite Hp.
  assert (Hl' : Z.of_nat (length (order_by by_role values)) <= 24) by by rewrite Hp.
  exists (order_by by_role values). split_and!; try done; [|apply order_by_sorted].
  unfold exact_assignment_evidence, application. rewrite E. cbn [map_err mbind result_bind].
  change (fun e => role_index (ev_role e)) with by_role.
  rewrite (proj2 (Z.leb_le _ _)) by done. cbn [require mbind result_bind].
  by rewrite sorted_distinct_roles.
Qed.

(** * Required reads *)

(** The paths of a list, each where it first occurs. *)
Fixpoint first_listed (seen : list string) (values : list (string * string)) : list (string * string) :=
  match values with
  | [] => []
  | value :: values =>
      if bool_decide (value.1 ∈ seen) then first_listed seen values
      else value :: first_listed (value.1 :: seen) values
  end.

Lemma first_listed_spec values : forall seen,
  NoDup (first_listed seen values).*1 /\
  forall path reason, (path, reason) ∈ first_listed seen values <->
    (path ∉ seen) /\ exists before after, values = before ++ ((path, reason) :: after) /\ path ∉ before.*1.
Proof.
  induction values as [|[p r] values IH]; intros seen; cbn [first_listed].
  { split; [constructor|]. intros path reason. split; [by intros ?%not_elem_of_nil|].
    intros (_ & [|] & after & E & _); discriminate. }
  cbn [fst]. case_bool_decide as Hp.
  - destruct (IH seen) as [Hn Hs]. split; [done|]. intros path reason. rewrite Hs. split.
    + intros (Hnot & before & after & -> & Hb). split; [done|]. exists ((p, r) :: before), after. split; [done|].
      cbn. apply not_elem_of_cons. split; [by intros ->|done].
    + intros (Hnot & [|[p' r'] before] & after & [= -> -> ->] & Hb); [done|]. split; [done|].
      exists before, after. split; [done|]. cbn in Hb. by apply not_elem_of_cons in Hb as [_ ?].
  - destruct (IH (p :: seen)) as [Hn Hs]. split.
    + cbn. apply NoDup_cons. split; [|done]. intros ([path reason] & -> & Hin)%list_elem_of_fmap.
      apply Hs in Hin as [Hnot _]. apply Hnot. by left.
    + intros path reason. rewrite elem_of_cons, Hs. split.
      * intros [[= -> ->]|(Hnot & before & after & -> & Hb)].
        -- split; [done|]. exists [], values. split; [done|]. apply not_elem_of_nil.
        -- apply not_elem_of_cons in Hnot as [Hne Hnot]. split; [done|]. exists ((p, r) :: before), after.
           split; [done|]. cbn. by apply not_elem_of_cons.
      * intros (Hnot & [|[p' r'] before] & after & [= -> -> ->] & Hb); [by left|]. right.
        cbn in Hb. apply not_elem_of_cons in Hb as [Hne Hb]. split; [by apply not_elem_of_cons|]. by exists before, after.
Qed.

Lemma first_reads_exact digest_read values : forall seen reads,
  first_reads digest_read seen values = Ok reads ->
  Forall2 (fun value r => rx_path r = value.1 /\ rx_reason r = value.2 /\ digest_read value.1 = Ok (rx_digest r))
    (first_listed seen values) reads.
Proof.
  induction values as [|[p r] values IH]; intros seen reads E; cbn [first_reads first_listed] in *.
  { injection E as <-. constructor. }
  cbn [fst]. destruct (bool_decide (p ∈ seen)); [by apply IH|]. ok_inv E. constructor; [done|]. by apply IH.
Qed.

(** The reads of an assignment are exactly the paths the application and the
    ticket ask for, in the order of the paths, each once; the digest is the one
    the workspace gives and the reason that of the first who asked. *)
Theorem required_reads_exact digest_read application_reads ticket_reads reads :
  exact_required_reads digest_read application_reads ticket_reads = Ok reads ->
  NoDup (rx_path <$> reads) /\
  StronglySorted (fun a b => lex_lt (string_bytes (rx_path b)) (string_bytes (rx_path a)) = false) reads /\
  Forall (fun r => digest_read (rx_path r) = Ok (rx_digest r)) reads /\
  forall path reason, (exists r, r ∈ reads /\ rx_path r = path /\ rx_reason r = reason) <->
    exists before after,
      ((fun r => (req_path r, req_reason r)) <$> application_reads)
        ++ ((fun r => (read_path r, read_reason r)) <$> ticket_reads) = before ++ ((path, reason) :: after) /\
      path ∉ before.*1.
Proof.
  unfold exact_required_reads. set (values := _ ++ _). intros (first & E & ->)%fmap_Ok.
  apply first_reads_exact in E. destruct (first_listed_spec values []) as [Hn Hs].
  set (key := fun r => string_bytes (rx_path r)). pose proof (order_by_perm key first) as Hp.
  assert (Hpaths : rx_path <$> first = (first_listed [] values).*1).
  { clear - E. induction E as [|? ? ? ? (? & _ & _)]; [done|]. cbn. by f_equal. }
  split_and!.
  - rewrite Hp, Hpaths. exact Hn.
  - apply order_by_sorted.
  - rewrite Hp. clear - E. induction E as [|? ? ? ? (Hpath & _ & Hd)]; constructor; [|done]. by rewrite Hpath.
  - intros path reason. transitivity ((path, reason) ∈ first_listed [] values).
    + clear - E Hp. split.
      * intros (r & Hr & <- & <-). rewrite Hp in Hr. clear Hp.
        induction E as [|[p s] r' ? ? (Hpath & Hreason & _) _ IH]; [by apply not_elem_of_nil in Hr|].
        cbn in Hpath, Hreason. subst p s. apply elem_of_cons in Hr as [->|Hr]; [left|right; auto].
      * intros Hin. assert (exists r, r ∈ first /\ rx_path r = path /\ rx_reason r = reason) as (r & Hr & ? & ?).
        { clear Hp. induction E as [|[p s] r' ? ? (Hpath & Hreason & _) _ IH]; [by apply not_elem_of_nil in Hin|].
          cbn in Hpath, Hreason. apply elem_of_cons in Hin as [[= -> ->]|Hin]; [exists r'; repeat split; [by left|done..]|].
          destruct (IH Hin) as (r & ? & ? & ?). exists r. repeat split; [by right|done..]. }
        exists r. split; [by rewrite Hp|done].
    + rewrite Hs. split; [tauto|]. intros H. split; [apply not_elem_of_nil|done].
Qed.

(** * The specification *)

Lemma first_references_spec items : forall selected,
  NoDup (ci_reference <$> first_references selected items) /\
  (length (first_references selected items) <= length items)%nat /\
  forall item, item ∈ first_references selected items -> item ∈ items /\ ci_reference item ∉ selected.
Proof.
  induction items as [|i items IH]; intros selected; cbn [first_references].
  { split_and!; [constructor|done|]. by intros item ?%not_elem_of_nil. }
  case_bool_decide as Hi.
  - destruct (IH selected) as (Hn & Hl & Hs). split_and!; [done|cbn; lia|]. intros item Hin.
    destruct (Hs item Hin). split; [by right|done].
  - destruct (IH (ci_reference i :: selected)) as (Hn & Hl & Hs). split_and!; [|cbn; lia|].
    + cbn. apply NoDup_cons. split; [|done]. intros (item & E & Hin)%list_elem_of_fmap.
      destruct (Hs item Hin) as [_ Hnot]. apply Hnot. rewrite <- E. by left.
    + intros item [->|Hin]%elem_of_cons; [split; [by left|done]|]. destruct (Hs item Hin) as [Hitem Hnot].
      split; [by right|]. by apply not_elem_of_cons in Hnot as [_ ?].
Qed.

Lemma evidence_reason_valid e : context_item_validate (evidence_item e) = Ok tt.
Proof. by destruct e as [[] ? ? ?]. Qed.

Lemma offered_item_valid i item : item ∈ offered_items i -> context_item_validate item = Ok tt.
Proof.
  unfold offered_items. rewrite elem_of_cons, !elem_of_app, list_elem_of_singleton.
  intros [->|[H|[->|(e & -> & _)%list_elem_of_fmap]]]; [done| |done|apply evidence_reason_valid].
  unfold ticket_items in H. destruct (hi_target_facts i); repeat (apply elem_of_cons in H as [->|H]; [done|]);
    by apply not_elem_of_nil in H.
Qed.

Lemma offered_length i : (length (offered_items i) <= 4 + length (hi_assignment_evidence i))%nat.
Proof. unfold offered_items, ticket_items. destruct (hi_target_facts i); cbn; rewrite ?length_app, length_fmap; cbn; lia. Qed.

Lemma tools_distinct (tools : list ActorToolV2) (e : ContractError) :
  for_each_seen (fun tool => tool) e (fun _ => Ok tt) (fun _ => Ok tt) [] tools = Ok tt <-> NoDup tools.
Proof.
  rewrite for_each_seen_Ok, list_fmap_id. split; [by intros [_ ?]|]. intros H. split; [|done].
  apply Forall_true. intros tool. split_and!; [done..|]. apply not_elem_of_nil.
Qed.

Lemma target_text_bounds facts evidence reads profiles target :
  target_text facts evidence reads profiles = Ok target ->
  string_len target <= 4096 /\ is_empty (string_bytes target) = false.
Proof.
  unfold target_text, append_target_required_reads, append_target_evidence,
    append_target_reproducer_profiles, within_packet. intros E.
  assert (Hb : forall a b c : string, is_empty (string_bytes a) = false -> is_empty (string_bytes (a +:+ b)) = false).
  { intros a b _ Ha. rewrite string_bytes_app. by destruct (string_bytes a). }
  assert (Hn : is_empty (string_bytes (target_name facts)) = false) by by destruct facts.
  apply bind_Ok in E as (rendered & Er & E). apply bind_Ok in E as (with_evidence & Ee & E).
  assert (Hr : is_empty (string_bytes rendered) = false).
  { destruct facts; [ok_inv Er; by apply Hb|injection Er as <-; done..]. }
  ok_inv Ee. assert (He : is_empty (string_bytes (rendered +:+ concat_texts (evidence_line <$> evidence))) = false) by by apply Hb.
  destruct (is_empty reads).
  - injection E as <-. split; [by bool_prop|done].
  - ok_inv E. split; [by bool_prop|]. by apply Hb.
Qed.

(** A compilation is refused by the check of its own specification only for a NUL
    byte in the target's text or for its tools: the context the compiler offers
    is always within the limit, names each reference once and gives each a valid
    reason. *)
Theorem compiled_specification_valid i target :
  Z.of_nat (length (hi_assignment_evidence i)) <= 24 ->
  target_text (hi_target_facts i) (hi_assignment_evidence i) (hi_required_reads i)
    (am_reproducer_profiles (hi_application i)) = Ok target ->
  let spec := {|
    hs_compiler_version := HARNESS_COMPILER_VERSION_V2;
    hs_application_revision_id := hi_application_revision_id i;
    hs_office_id := hi_office_id i;
    hs_assignment_role := hi_assignment_role i;
    hs_objective := target;
    hs_context_items := first_references [] (offered_items i);
    hs_capabilities := rp_tools (am_profile (hi_application i));
    hs_remaining_campaign_allowance := hi_remaining_campaign_allowance i |} in
  harness_spec_validate spec = Ok tt <->
  contains_byte 0 target = false /\ rp_tools (am_profile (hi_application i)) <> [] /\
  NoDup (rp_tools (am_profile (hi_application i))).
Proof.
  intros He Ht. destruct (target_text_bounds _ _ _ _ _ Ht) as [Hlen Hne].
  pose proof (first_references_spec (offered_items i) []) as (Hn & Hl & Hs). pose proof (offered_length i) as Ho.
  cbv zeta. unfold harness_spec_validate. cbn [hs_compiler_version hs_objective hs_context_items hs_capabilities].
  rewrite Z.eqb_refl, Hne, (proj2 (Z.ltb_ge _ _) Hlen). cbn [require mbind result_bind orb].
  destruct (contains_byte 0 target); cbn [negb require mbind result_bind]; [by split; [|intros []]|].
  rewrite (proj2 (Z.leb_le _ _)) by (unfold HARNESS_CONTEXT_MAX_ITEMS; lia). cbn [require mbind result_bind].
  assert (for_each_seen ci_reference (InvalidValue "harness context items" "must not repeat one durable reference")
    context_item_validate (fun _ => Ok tt) [] (first_references [] (offered_items i)) = Ok tt) as ->.
  { apply for_each_seen_Ok. split; [|done]. apply Forall_forall. intros item Hin. split_and!; [|done|apply not_elem_of_nil].
    eapply offered_item_valid. by apply Hs. }
  cbn [mbind result_bind]. rewrite <- tools_distinct.
  destruct (rp_tools (am_profile (hi_application i))) as [|tool tools]; cbn [is_empty negb require mbind result_bind].
  - split; [done|]. by intros (_ & ? & _).
  - split; [by intros ->|by intros (_ & _ & ->)].
Qed.

(** * The store *)

Definition reference_id (reference : ContextReferenceV2) : Z := snd (harness_reference_parts reference).

(** What the Rust types of a command demand. *)
Record record_typed (c : RecordHarnessCompilation) : Prop := {
  record_ids : Forall (fun id => 0 < id) [rh_assignment_id c; rh_application_revision_id c; rh_office_id c;
    rh_spec_artifact_id c; rh_system_prompt_artifact_id c; rh_assignment_prompt_artifact_id c;
    rh_packet_artifact_id c];
  record_digest : length (rh_packet_digest c) = 32%nat;
  record_references : Forall (fun item => 0 < reference_id (ci_reference item)) (rh_context_items c);
}.

(** One compilation per assignment. *)
Definition one_compilation (t : HarnessTables) : Prop :=
  table_unique (fun row => Some (hc_assignment_id row)) (compilations t).

Inductive recorded (t : HarnessTables) : HarnessTables -> Prop :=
  | recorded_by db c r t' : persist_harness_compilation db t c = Ok (r, t') -> recorded t t'.

Lemma harness_id_back kind id : 0 < id -> harness_id kind id = Ok id.
Proof. intros H. unfold harness_id, identifier_new. by replace (id <=? 0) with false by lia. Qed.

Lemma assignment_role_code_back role : assignment_role_from_code (assignment_role_code role) = Ok role.
Proof. by destruct role. Qed.

Lemma item_back item :
  0 < reference_id (ci_reference item) -> context_item_of_row (row_of_item item) = Ok item.
Proof.
  destruct item as [reference inclusion reason]. cbn [ci_reference]. intros H.
  unfold context_item_of_row. destruct reference; cbn -[harness_id] in *; rewrite harness_id_back by done;
    by destruct inclusion.
Qed.

Lemma compilation_row_found t k row :
  one_compilation t -> compilations t !! k = Some row -> compilation_row t (hc_assignment_id row) = Some (k, row).
Proof.
  intros Hu Hk. unfold compilation_row. destruct (rows_where _ _) as [|[k' row'] l] eqn:E.
  - assert (Hin : (k, row) ∈ rows_where (fun _ other => hc_assignment_id other =? hc_assignment_id row) (compilations t)).
    { apply rows_where_elem. split; [done|]. apply Z.eqb_refl. }
    rewrite E in Hin. by apply not_elem_of_nil in Hin.
  - assert (Hin : (k', row') ∈ rows_where (fun _ other => hc_assignment_id other =? hc_assignment_id row) (compilations t))
      by (rewrite E; by left).
    apply rows_where_elem in Hin as [Hk' Ha]. bool_prop. cbn.
    assert (k' = k) as -> by (eapply Hu; [exact Hk'|exact Hk|reflexivity|cbn; congruence]). congruence.
Qed.

Lemma compilation_row_Some t a k row :
  compilation_row t a = Some (k, row) -> compilations t !! k = Some row /\ hc_assignment_id row = a.
Proof.
  unfold compilation_row. intros E. destruct (rows_where _ _) as [|x l] eqn:El; [done|]. cbn in E. injection E as ->.
  assert (Hin : (k, row) ∈ rows_where (fun _ other => hc_assignment_id other =? a) (compilations t)) by (rewrite El; by left).
  apply rows_where_elem in Hin as [? ?]. by bool_prop.
Qed.

Lemma compilation_row_None t a k row :
  compilation_row t a = None -> compilations t !! k = Some row -> hc_assignment_id row <> a.
Proof.
  unfold compilation_row. intros E Hk Ha. destruct (rows_where _ _) as [|x l] eqn:El; [|done].
  assert (Hin : (k, row) ∈ rows_where (fun _ other => hc_assignment_id other =? a) (compilations t)).
  { apply rows_where_elem. split; [done|]. by apply Z.eqb_eq. }
  rewrite El in Hin. by apply not_elem_of_nil in Hin.
Qed.

Lemma items_inserted db t app (entries : list (Z * ContextItemV2)) rows :
  map_ok (insert_item db t app) entries = Ok rows -> rows = row_of_item <$> entries.*2.
Proof.
  revert rows. induction entries as [|e entries IH]; intros rows E; cbn in E; [by injection E as <-|].
  ok_inv E. unfold insert_item in *. match goal with E : (_ ;; _) = Ok _ |- _ => ok_inv E end.
  cbn. f_equal. by apply IH.
Qed.

Lemma imap_pair_snd {A} (l : list A) : (imap (fun i a => (Z.of_nat i, a)) l).*2 = l.
Proof.
  enough (H : forall f : nat -> Z, (imap (fun i a => (f i, a)) l).*2 = l) by apply H.
  induction l as [|a l IH]; intros f; [done|]. cbn. f_equal. apply IH.
Qed.

(** What [persist_harness_compilation] does when it succeeds. *)
Lemma persist_Ok db t c r t' :
  persist_harness_compilation db t c = Ok (r, t') ->
  rh_compiler_version c = HARNESS_COMPILER_VERSION_V2 /\
  exists id, r = compilation_receipt id c /\
    ((t' = t /\ compilation_row t (rh_assignment_id c) = Some (id, row_of_command c)) \/
     (compilation_row t (rh_assignment_id c) = None /\ id = fresh_id (compilations t) /\
      t' = {| compilations := <[id := row_of_command c]> (compilations t);
              context_rows := <[id := row_of_item <$> rh_context_items c]> (context_rows t);
              institution := institution t |})).
Proof.
  unfold persist_harness_compilation. intros E. apply bind_Ok in E as ([] & Hv & E).
  split; [unfold record_validate in Hv; ok_inv Hv; by bool_prop|].
  apply bind_Ok in E as ([] & _ & E). destruct (compilation_row t (rh_assignment_id c)) as [[k row]|] eqn:El.
  - apply bind_Ok in E as ([] & Hr & E). apply require_Ok in Hr. bool_prop. subst.
    apply bind_Ok in E as (id & Hid & E). injection E as <- <-.
    unfold harness_id, identifier_new in Hid. destruct (k <=? 0); [done|]. injection Hid as <-. eauto.
  - apply bind_Ok in E as ([] & _ & E). apply bind_Ok in E as (id & Hid & E).
    apply bind_Ok in E as (rows & Hrows & E). injection E as <- <-.
    unfold harness_id, identifier_new in Hid. destruct (fresh_id (compilations t) <=? 0); [done|]. injection Hid as <-.
    apply items_inserted in Hrows as ->. rewrite imap_pair_snd. exists (fresh_id (compilations t)). auto.
Qed.

Lemma recorded_one t t' : recorded t t' -> one_compilation t -> one_compilation t'.
Proof.
  intros [db c r t'' (_ & id & _ & [[-> _]|(Hn & -> & ->)])%persist_Ok] H; [done|].
  apply table_unique_fresh; [done|]. cbn. intros k row key Hk [= <-] E. injection E as E.
  by eapply compilation_row_None in Hn.
Qed.

Lemma recorded_keeps t t' k row :
  recorded t t' -> compilations t !! k = Some row ->
  compilations t' !! k = Some row /\ default [] (context_rows t' !! k) = default [] (context_rows t !! k).
Proof.
  intros [db c r t'' (_ & id & _ & [[-> _]|(_ & -> & ->)])%persist_Ok] H; [done|]. cbn.
  pose proof (fresh_id_gt _ _ _ H). rewrite !lookup_insert_ne by lia. done.
Qed.

Lemma recorded_run_keeps t t' k row :
  rtc recorded t t' -> one_compilation t -> compilations t !! k = Some row ->
  one_compilation t' /\ compilations t' !! k = Some row /\
  default [] (context_rows t' !! k) = default [] (context_rows t !! k).
Proof.
  induction 1 as [|t1 t2 t3 H _ IH]; [done|]. intros Hu Hk.
  destruct (recorded_keeps _ _ _ _ H Hk) as [Hk2 Hi].
  destruct (IH (recorded_one _ _ H Hu) Hk2) as (? & ? & Hi'). split_and!; [done..|]. congruence.
Qed.

Lemma compilation_read_back c id t :
  record_typed c -> 0 < id -> rh_compiler_version c = HARNESS_COMPILER_VERSION_V2 -> one_compilation t ->
  compilations t !! id = Some (row_of_command c) ->
  default [] (context_rows t !! id) = row_of_item <$> rh_context_items c ->
  compilation_for_assignment t (rh_assignment_id c) = Ok (Some (compilation_receipt id c)).
Proof.
  intros [Hids Hd Hr] Hid Hversion Hu Hk Hi. unfold compilation_for_assignment.
  change (rh_assignment_id c) with (hc_assignment_id (row_of_command c)).
  rewrite (compilation_row_found _ _ _ Hu Hk). unfold context_items_for_compilation.
  assert (Hitems : map_ok context_item_of_row (row_of_item <$> rh_context_items c) = Ok (rh_context_items c)).
  { clear - Hr. induction Hr as [|item items H _ IH]; [done|]. rewrite fmap_cons. cbn [map_ok].
    rewrite item_back by done. cbn [mbind result_bind]. by rewrite IH. }
  cbn [row_of_command hc_packet_digest hc_application_revision_id hc_office_id hc_assignment_role
    hc_compiler_version hc_spec_artifact_id hc_system_prompt_artifact_id hc_assignment_prompt_artifact_id
    hc_packet_artifact_id hc_assignment_id].
  rewrite Hd, Nat.eqb_refl. cbn [require mbind result_bind].
  repeat match goal with H : Forall _ (_ :: _) |- _ => inversion_clear H end.
  repeat (rewrite harness_id_back by done; cbn [mbind result_bind]).
  rewrite assignment_role_code_back, Hversion. cbn [mbind result_bind].
  repeat (rewrite harness_id_back by done; cbn [mbind result_bind]).
  change (0 <=? HARNESS_COMPILER_VERSION_V2) with true. cbn [require mbind result_bind].
  rewrite Hi, Hitems. cbn [mbind result_bind]. unfold compilation_receipt. by rewrite Hversion.
Qed.

(** The first compilation recorded for an assignment is the one every later read
    returns, in every column and with its context in order, whatever is recorded
    in between; and recording it again returns the same receipt and changes
    nothing. *)
Theorem recorded_compilation_kept db t c r t' t'' :
  one_compilation t -> record_typed c -> compilation_row t (rh_assignment_id c) = None ->
  persist_harness_compilation db t c = Ok (r, t') -> rtc recorded t' t'' ->
  compilation_for_assignment t'' (rh_assignment_id c) = Ok (Some r) /\
  forall db', persist_harness_compilation db' t'' c = Ok (r, t'').
Proof.
  intros Hu Htyped Hnone Hp Hrun. pose proof (recorded_one _ _ (recorded_by _ _ _ _ _ Hp) Hu) as Hu'.
  assert (Hv : record_validate c = Ok tt /\ (rh_compiler_version c <=? i16_max) = true).
  { unfold persist_harness_compilation in Hp. apply bind_Ok in Hp as ([] & ? & Hp).
    apply bind_Ok in Hp as ([] & Hi & _). by apply require_Ok in Hi. }
  apply persist_Ok in Hp as (Hversion & id & -> & [[_ Hsome]|(_ & -> & ->)]); [congruence|].
  set (id := fresh_id (compilations t)) in *. pose proof (fresh_id_pos (compilations t)) as Hpos. fold id in Hpos.
  destruct (recorded_run_keeps _ _ id (row_of_command c) Hrun Hu') as (Hu'' & Hk & Hi).
  { cbn. by rewrite lookup_insert_eq. }
  cbn in Hi. rewrite lookup_insert_eq in Hi. split; [by apply compilation_read_back|].
  intros db'. unfold persist_harness_compilation. destruct Hv as [-> ->]. cbn [require mbind result_bind].
  change (rh_assignment_id c) with (hc_assignment_id (row_of_command c)).
  rewrite (compilation_row_found _ _ _ Hu'' Hk), bool_decide_true by done. cbn [require mbind result_bind].
  by rewrite harness_id_back.
Qed.

(** A retry is compared with the stored row only: with another context for the
    same specification it succeeds, and its receipt lists the context that is not
    stored. *)
Lemma retry_reports_other_context db t id c c' :
  compilation_row t (rh_assignment_id c) = Some (id, row_of_command c) -> 0 < id ->
  row_of_command c' = row_of_command c -> record_validate c' = Ok tt ->
  persist_harness_compilation db t c' = Ok (compilation_receipt id c', t).
Proof.
  intros Hrow Hid Hsame Hv. unfold persist_harness_compilation. rewrite Hv. cbn [mbind result_bind].
  assert (Hversion : rh_compiler_version c' = HARNESS_COMPILER_VERSION_V2).
  { unfold record_validate in Hv. ok_inv Hv. by bool_prop. }
  rewrite Hversion. change (HARNESS_COMPILER_VERSION_V2 <=? i16_max) with true. cbn [require mbind result_bind].
  assert (rh_assignment_id c' = rh_assignment_id c) as -> by by apply (f_equal hc_assignment_id) in Hsame.
  rewrite Hrow, bool_decide_true by done. cbn [require mbind result_bind]. by rewrite harness_id_back.
Qed.
