(* ===== verification/ForumProofs.v ===== *)
(** What the Forum promises of its records: they only grow, their relations are
    well formed, each has one receipt and the receipts number the revisions
    ([ForumStore]). *)
From stdpp Require Import sorting.
From S2P Require Import Prelude Values Database ProcessReads Forum ForumStore.

#[local] Open Scope string_scope.
#[local] Open Scope list_scope.
#[local] Open Scope Z_scope.

(** * Growth *)

(** A table that grew by rows with later keys. *)
Record grows {V} (m m' : gmap Z V) : Prop := {
  grows_keeps : m ⊆ m';
  grows_later : forall k v j w, m' !! k = Some v -> m !! k = None -> m !! j = Some w -> j < k;
}.

#[export] Instance grows_refl {V} : Reflexive (@grows V).
Proof. intros m. constructor; [done|]. congruence. Qed.

#[export] Instance grows_trans {V} : Transitive (@grows V).
Proof.
  intros m1 m2 m3 [K1 L1] [K2 L2]. constructor; [by etrans|]. intros k v j w H3 H1 Hj.
  pose proof (lookup_weaken _ _ _ _ Hj K1). destruct (m2 !! k) as [v2|] eqn:H2; eauto.
Qed.

Lemma grows_fresh {V} (m : gmap Z V) v : grows m (<[fresh_id m := v]> m).
Proof.
  constructor; [apply table_subseteq_fresh|]. intros k v' j w Hk Hn Hj.
  apply lookup_insert_Some in Hk as [[<- _]|[_ Hk]]; [by eapply fresh_id_gt|congruence].
Qed.

Lemma grows_lookup {V} (m m' : gmap Z V) k v : grows m m' -> m !! k = Some v -> m' !! k = Some v.
Proof. intros [Hk _] H. by eapply lookup_weaken. Qed.

Lemma grows_is_Some {V} (m m' : gmap Z V) k : grows m m' -> is_Some (m !! k) -> is_Some (m' !! k).
Proof. intros Hg [v Hv]. exists v. by eapply grows_lookup. Qed.

(** The rest of the kernel: it registers artifacts and writes receipts of its own
    operations. *)
Record elsewhere (db db' : Database) : Prop := {
  elsewhere_log : forall key row, audit_log db !! key = Some row -> audit_log db' !! key = Some row;
  elsewhere_new : forall key row, audit_log db' !! key = Some row ->
    audit_log db !! key = Some row \/ al_operation row ∉ forum_operations;
  elsewhere_artifacts : artifacts db ⊆ artifacts db';
}.

(** * Receipts *)

Definition forum_row (row : AuditRow) : bool := bool_decide (al_operation row ∈ forum_operations).

Definition forum_log (s : ForumState) : list ((string * string) * AuditRow) :=
  List.filter (fun kv => forum_row kv.2) (map_to_list (audit_log (authority s))).

Lemma forum_receipts_log s : forum_receipts s = (forum_log s).*2.
Proof.
  unfold forum_receipts, forum_log. induction (map_to_list _) as [|[key row] l IH]; [done|].
  rewrite fmap_cons. cbn [List.filter snd]. unfold forum_row at 1. by destruct (bool_decide _); rewrite ?fmap_cons, IH.
Qed.

Lemma forum_log_elem s key row :
  (key, row) ∈ forum_log s <-> audit_log (authority s) !! key = Some row /\ forum_row row = true.
Proof.
  unfold forum_log. rewrite list_elem_of_In, filter_In, <- list_elem_of_In. simpl. by rewrite elem_of_map_to_list.
Qed.

Lemma forum_log_NoDup s : NoDup (forum_log s).
Proof. apply NoDup_ListNoDup, List.NoDup_filter, NoDup_ListNoDup, NoDup_map_to_list. Qed.

Lemma forum_receipts_elsewhere s db' :
  elsewhere (authority s) db' -> forum_receipts (set_authority db' s) ≡ₚ forum_receipts s.
Proof.
  intros [Hl Hn _]. rewrite !forum_receipts_log. apply Permutation_map, NoDup_Permutation; try apply forum_log_NoDup.
  intros [key row]. rewrite !forum_log_elem. simpl. split; [|by intros [Hk Hr]; auto].
  intros [Hk Hr]. split; [|done]. destruct (Hn _ _ Hk) as [|Hno]; [done|]. by unfold forum_row in Hr; bool_prop.
Qed.

Lemma forum_receipts_insert s key row :
  audit_log (authority s) !! key = None -> forum_row row = true ->
  forum_receipts (set_authority (set_audit_log (<[key := row]> (audit_log (authority s))) (authority s)) s)
  ≡ₚ row :: forum_receipts s.
Proof.
  intros Hn Hr. rewrite !forum_receipts_log. change (row :: (forum_log s).*2) with (((key, row) :: forum_log s).*2).
  apply Permutation_map, NoDup_Permutation; [apply forum_log_NoDup| |].
  - apply NoDup_cons. split; [|apply forum_log_NoDup]. intros [H _]%forum_log_elem. congruence.
  - intros [key' row']. rewrite forum_log_elem, elem_of_cons, forum_log_elem. simpl.
    rewrite lookup_insert_Some. split.
    + intros [[[<- <-]|[_ Hk]] Hf]; auto.
    + intros [[= <- <-]|[Hk Hf]]; [by auto|]. split; [right|done]. split; congruence.
Qed.

Lemma max_revision l l' : l ≡ₚ l' -> foldr Z.max 0 l = foldr Z.max 0 l'.
Proof. induction 1; simpl; lia. Qed.

Lemma max_seqZ n : foldr Z.max 0 (seqZ 1 (Z.of_nat n)) = Z.of_nat n.
Proof.
  induction n as [|n IH]; [done|]. rewrite seqZ_S.
  rewrite (max_revision _ ((1 + Z.of_nat n) :: seqZ 1 (Z.of_nat n))) by (by rewrite Permutation_app_comm).
  simpl. rewrite IH. lia.
Qed.

(** * Books *)

(** The records of the Forum, by subject family. *)
Definition records (s : ForumState) : list (Z * Z) :=
  (pair FORUM_TOPIC_SUBJECT <$> (map_to_list (topics s)).*1)
  ++ (pair FORUM_THREAD_SUBJECT <$> (map_to_list (threads s)).*1)
  ++ (pair FORUM_POST_SUBJECT <$> (map_to_list (posts s)).*1).

Definition subject_of (row : AuditRow) : Z * Z := (al_subject_kind row, al_subject_id row).

Record forum_books (s : ForumState) : Prop := {
  books_records : subject_of <$> forum_receipts s ≡ₚ records s;
  books_revisions : al_resulting_revision <$> forum_receipts s ≡ₚ seqZ 1 (Z.of_nat (length (forum_receipts s)));
}.

Lemma books_current s : forum_books s -> current_forum_revision s = Ok (Z.of_nat (length (records s))).
Proof.
  intros [Hr Hv]. unfold current_forum_revision, aggregate_revision.
  rewrite (max_revision _ _ Hv), max_seqZ. apply Permutation_length in Hr. rewrite length_fmap in Hr. rewrite Hr.
  by replace (0 <=? Z.of_nat (length (records s))) with true by lia.
Qed.

(** An insert: one record more, and nothing else moves. *)
Record inserted (subject id : Z) (s s1 : ForumState) : Prop := {
  ins_authority : authority s1 = authority s;
  ins_records : records s1 ≡ₚ (subject, id) :: records s;
  ins_topics : grows (topics s) (topics s1);
  ins_threads : grows (threads s) (threads s1);
  ins_posts : grows (posts s) (posts s1);
  ins_attachments : attachments s ⊆ attachments s1;
  ins_attached : forall post artifact, is_Some (posts s !! post) ->
    attachments s1 !! (post, artifact) = attachments s !! (post, artifact);
  ins_positive : 0 < id <= i64_max;
}.

Lemma fresh_keys {V} (m : gmap Z V) v :
  (map_to_list (<[fresh_id m := v]> m)).*1 ≡ₚ fresh_id m :: (map_to_list m).*1.
Proof. by rewrite (map_to_list_insert m) by apply fresh_id_lookup. Qed.

Lemma insert_topic_Ok row s id s1 :
  insert_topic row s = Ok (id, s1) ->
  id = fresh_id (topics s) /\ s1 = set_topics (<[id := row]> (topics s)) s /\
  inserted FORUM_TOPIC_SUBJECT id s s1 /\ author_shape (ft_author row) = true /\
  references (topics s) (ft_supersedes_topic_id row) = true.
Proof.
  unfold insert_topic. intros E. ok_inv E. split_and!; [done..| |done|done].
  bool_prop. constructor; try done; simpl; [|apply grows_fresh|by split; [apply fresh_id_pos|]].
  unfold records. simpl. by rewrite fresh_keys.
Qed.

Lemma insert_thread_Ok row s id s1 :
  insert_thread row s = Ok (id, s1) ->
  id = fresh_id (threads s) /\ s1 = set_threads (<[id := row]> (threads s)) s /\
  inserted FORUM_THREAD_SUBJECT id s s1 /\ author_shape (fh_author row) = true /\
  references (topics s) (Some (fh_topic_id row)) = true.
Proof.
  unfold insert_thread. intros E. ok_inv E. split_and!; [done..| |done|done].
  bool_prop. constructor; try done; simpl; [|apply grows_fresh|by split; [apply fresh_id_pos|]].
  unfold records. simpl. rewrite fresh_keys, fmap_cons, <- app_comm_cons. symmetry. apply Permutation_middle.
Qed.

Lemma insert_post_Ok row s id s1 :
  insert_post row s = Ok (id, s1) ->
  id = fresh_id (posts s) /\ s1 = set_posts (<[id := row]> (posts s)) s /\
  inserted FORUM_POST_SUBJECT id s s1 /\ author_shape (fp_author row) = true /\
  references (threads s) (Some (fp_thread_id row)) = true /\
  forum_validate_post_relations s id row = Ok tt /\ 0 <= fp_kind row <= 6 /\
  (forall target, fp_reply_to_post_id row = Some target -> fp_supersedes_post_id row <> Some target).
Proof.
  unfold insert_post. intros E. apply bind_Ok in E as ([] & Hbig & E). apply require_Ok in Hbig.
  apply bind_Ok in E as ([] & Hv & E). ok_inv E. bool_prop.
  split_and!; [done..| |done|done|done|lia|lia|].
  - bool_prop. constructor; try done; simpl; [|apply grows_fresh|by split; [apply fresh_id_pos|]].
    unfold records. simpl. rewrite fresh_keys, fmap_cons, !(assoc_L (++)). symmetry. apply Permutation_middle.
  - intros target Ht Hs. rewrite Ht, Hs, Z.eqb_refl in *. done.
Qed.

(** * Relations *)

Definition author_ok (a : AuthorColumns) : Prop :=
  exists session role, 0 < session /\
    a = {| ac_kind := 0; ac_session_id := Some session; ac_office := Some (office_number role) |}.

Definition attached_to (s : ForumState) (post : Z) : nat :=
  length (List.filter (fun k => fst k =? post) (attachment_keys s)).

(** The relations of the records: parents exist, a record refers to earlier
    records under its own parent only, and attachments are artifacts of the
    kernel, at most eight of them on a post. *)
Record related (s : ForumState) : Prop := {
  topics_related : forall id row, topics s !! id = Some row ->
    0 < id <= i64_max /\ author_ok (ft_author row) /\
    forall target, ft_supersedes_topic_id row = Some target -> target < id /\ is_Some (topics s !! target);
  threads_related : forall id row, threads s !! id = Some row ->
    0 < id <= i64_max /\ author_ok (fh_author row) /\ is_Some (topics s !! fh_topic_id row) /\
    forall target, fh_supersedes_thread_id row = Some target -> target < id /\
      exists other, threads s !! target = Some other /\ fh_topic_id other = fh_topic_id row;
  posts_related : forall id row, posts s !! id = Some row ->
    0 < id <= i64_max /\ author_ok (fp_author row) /\ 0 <= fp_kind row <= 6 /\ is_Some (threads s !! fp_thread_id row) /\
    (forall target, fp_reply_to_post_id row = Some target \/ fp_supersedes_post_id row = Some target ->
      target < id /\ exists other, posts s !! target = Some other /\ fp_thread_id other = fp_thread_id row) /\
    (forall target, fp_reply_to_post_id row = Some target -> fp_supersedes_post_id row <> Some target);
  attachments_related : forall post artifact label, attachments s !! (post, artifact) = Some label ->
    is_Some (posts s !! post) /\ is_Some (artifacts (authority s) !! artifact) /\ 0 < artifact;
  attachments_bounded : forall post, (attached_to s post <= 8)%nat;
}.

Lemma references_Some {V} (table : gmap Z V) id :
  references table (Some id) = true <-> is_Some (table !! id).
Proof. unfold references. apply bool_decide_eq_true. Qed.

Lemma relation_valid_Ok s id thread target :
  relation_valid s id thread (Some target) = Ok tt ->
  target < id /\ exists other, posts s !! target = Some other /\ fp_thread_id other = thread.
Proof.
  unfold relation_valid. intros E. ok_inv E. rewrite negb_true_iff, orb_false_iff, negb_false_iff in *.
  bool_prop. eauto with lia.
Qed.

Lemma topic_inserted_related row s id s1 :
  author_ok (ft_author row) -> insert_topic row s = Ok (id, s1) -> related s -> related s1.
Proof.
  intros Ha (Hid & -> & [_ _ _ _ _ _ _ Hbig] & _ & Hr)%insert_topic_Ok [Ht Hh Hp Hat Hc]. subst id. pose proof (grows_fresh (topics s) row) as Hg.
  constructor; simpl; try done.
  - intros id row' [[<- <-]|[_ Hl]]%lookup_insert_Some.
    + split_and!; try done; try lia. intros target Hs. rewrite Hs in Hr. apply references_Some in Hr.
      split; [|by eapply grows_is_Some]. destruct Hr as [w Hw]. by eapply fresh_id_gt.
    + destruct (Ht _ _ Hl) as (? & ? & Hs). split_and!; try done; try lia. intros target [? ?]%Hs.
      split; [done|]. by eapply grows_is_Some.
  - intros id row' Hl. destruct (Hh _ _ Hl) as (? & ? & ? & ?). split_and!; try done; try lia. by eapply grows_is_Some.
Qed.

Lemma thread_inserted_related row s id s1 :
  author_ok (fh_author row) ->
  (forall target, fh_supersedes_thread_id row = Some target ->
    exists other, threads s !! target = Some other /\ fh_topic_id other = fh_topic_id row) ->
  insert_thread row s = Ok (id, s1) -> related s -> related s1.
Proof.
  intros Ha Hsup (Hid & -> & [_ _ _ _ _ _ _ Hbig] & _ & Hr)%insert_thread_Ok [Ht Hh Hp Hat Hc]. subst id.
  pose proof (grows_fresh (threads s) row) as Hg. constructor; simpl; try done.
  - intros id row' [[<- <-]|[_ Hl]]%lookup_insert_Some.
    + split_and!; try done; try lia; [by apply references_Some|]. intros target Hs.
      destruct (Hsup _ Hs) as (other & Ho & Htopic). split; [by eapply fresh_id_gt|].
      exists other. split; [by eapply grows_lookup|done].
    + destruct (Hh _ _ Hl) as (? & ? & ? & Hs). split_and!; try done; try lia. intros target (? & other & ? & ?)%Hs.
      split; [done|]. exists other. split; [by eapply grows_lookup|done].
  - intros id row' Hl. destruct (Hp _ _ Hl) as (? & ? & ? & ? & ? & ?). split_and!; try done; try lia.
    by eapply grows_is_Some.
Qed.

Lemma post_inserted_related row s id s1 :
  author_ok (fp_author row) -> insert_post row s = Ok (id, s1) -> related s -> related s1.
Proof.
  intros Ha (Hid & -> & [_ _ _ _ _ _ _ Hbig] & _ & Hthread & Hrel & Hkind & Hd)%insert_post_Ok [Ht Hh Hp Hat Hc]. subst id.
  pose proof (grows_fresh (posts s) row) as Hg. constructor; simpl; try done.
  - intros id row' [[<- <-]|[_ Hl]]%lookup_insert_Some.
    + split_and!; try done; try lia; [by apply references_Some|].
      unfold forum_validate_post_relations in Hrel. apply bind_Ok in Hrel as ([] & Hreply & Hsup).
      intros target [Hs|Hs]; rewrite Hs in *.
      * apply relation_valid_Ok in Hreply as (? & other & ? & ?). split; [done|]. exists other. split; [by eapply grows_lookup|done].
      * apply relation_valid_Ok in Hsup as (? & other & ? & ?). split; [done|]. exists other. split; [by eapply grows_lookup|done].
    + destruct (Hp _ _ Hl) as (? & ? & ? & ? & Hs & ?). split_and!; try done; try lia.
      intros target (? & other & ? & ?)%Hs. split; [done|]. exists other. split; [by eapply grows_lookup|done].
  - intros post artifact label Hl. destruct (Hat _ _ _ Hl) as (? & ? & ?). split_and!; try done. by eapply grows_is_Some.
Qed.

Lemma insert_attachment_Ok post input s s1 :
  insert_attachment post input s = Ok s1 ->
  let key := (post, fai_artifact_id input) in
  s1 = set_attachments (<[key := fai_label input]> (attachments s)) s /\ attachments s !! key = None /\
  (attached_to s post < 8)%nat /\ is_Some (posts s !! post) /\
  is_Some (artifacts (authority s) !! fai_artifact_id input).
Proof.
  unfold insert_attachment. intros E. ok_inv E. bool_prop. rewrite !references_Some in *.
  fold (attached_to s post) in *. split_and!; try done. lia.
Qed.

Lemma attachment_inserted_related post input s s1 :
  0 < fai_artifact_id input -> insert_attachment post input s = Ok s1 -> related s -> related s1.
Proof.
  intros Hpos (-> & Hn & Hlt & Hpost & Hart)%insert_attachment_Ok [Ht Hh Hp Hat Hc].
  constructor; simpl; try done.
  - intros post' artifact label [[[= <- <-] <-]|[_ Hl]]%lookup_insert_Some; [done|]. by eapply Hat.
  - intros post'. specialize (Hc post'). unfold attached_to, attachment_keys in *. simpl.
    assert (Hperm : (map_to_list (<[(post, fai_artifact_id input) := fai_label input]> (attachments s))).*1
      ≡ₚ (post, fai_artifact_id input) :: (map_to_list (attachments s)).*1) by by rewrite map_to_list_insert.
    rewrite (filter_length_perm _ _ _ Hperm). simpl. destruct (Z.eqb_spec post post') as [->|]; simpl; lia.
Qed.

(** Attachments leave the other tables alone. *)
Lemma insert_attachments_Ok post inputs s s1 :
  insert_attachments post inputs s = Ok s1 ->
  exists m, s1 = set_attachments m s /\ attachments s ⊆ m /\
    (forall other artifact, other <> post -> m !! (other, artifact) = attachments s !! (other, artifact)) /\
    (Forall (fun input => 0 < fai_artifact_id input) inputs -> related s -> related s1).
Proof.
  revert s. induction inputs as [|input inputs IH]; intros s E; simpl in E.
  - injection E as <-. exists (attachments s). by destruct s.
  - apply bind_Ok in E as (s' & Hi & E). destruct (IH _ E) as (m & -> & Hm & Ho & Hrel).
    pose proof Hi as (-> & Hn & _)%insert_attachment_Ok. exists m. split_and!; [done| | |].
    + etrans; [|exact Hm]. simpl. by apply insert_subseteq.
    + intros other artifact Hne. rewrite Ho by done. simpl. rewrite lookup_insert_ne; congruence.
    + intros Hpos Hr. inversion_clear Hpos. apply Hrel; [done|]. by eapply attachment_inserted_related.
Qed.

(** * Commands *)

Definition command_binding (c : ForumCommand) : ActorConnectionIdentity :=
  match c with
  | CreateTopic b _ | CreateThread b _ | SupersedeTopic b _ | SupersedeThread b _ | AppendPost b _ => b
  end.

Definition command_identity (c : ForumCommand) : ForumMutationIdentity :=
  match c with
  | CreateTopic _ c => fct_identity c
  | CreateThread _ c => fch_identity c
  | SupersedeTopic _ c => fst_identity c
  | SupersedeThread _ c => fsh_identity c
  | AppendPost _ c => fpc_identity c
  end.

Definition command_operation (c : ForumCommand) : string :=
  match c with
  | CreateTopic _ _ => CREATE_TOPIC_OPERATION
  | CreateThread _ _ => CREATE_THREAD_OPERATION
  | SupersedeTopic _ _ => SUPERSEDE_TOPIC_OPERATION
  | SupersedeThread _ _ => SUPERSEDE_THREAD_OPERATION
  | AppendPost _ _ => POST_OPERATION
  end.

Definition command_family (c : ForumCommand) : string * Z :=
  match c with
  | CreateTopic _ _ | SupersedeTopic _ _ => ("forum topic ID", FORUM_TOPIC_SUBJECT)
  | CreateThread _ _ | SupersedeThread _ _ => ("forum thread ID", FORUM_THREAD_SUBJECT)
  | AppendPost _ _ => ("forum post ID", FORUM_POST_SUBJECT)
  end.

Definition forum_preimage (c : ForumCommand) : list Z :=
  match c with
  | CreateTopic b c => topic_preimage b c
  | CreateThread b c => thread_preimage b c
  | SupersedeTopic b c => supersede_topic_preimage b c
  | SupersedeThread b c => supersede_thread_preimage b c
  | AppendPost b c => post_preimage b c
  end.

(** What the Rust types of a command demand. *)
Definition forum_typed (c : ForumCommand) : Prop :=
  0 < aci_session_id (command_binding c) /\
  match c with
  | AppendPost _ c => Forall (fun input => 0 < fai_artifact_id input) (fpi_attachments (fpc_input c))
  | _ => True
  end.

Lemma binding_author_ok binding : 0 < aci_session_id binding -> author_ok (authority_author_columns binding).
Proof. intros H. by exists (aci_session_id binding), (aci_assignment_role binding). Qed.

(** Every command is the one transaction around its own insert. *)
Lemma execute_forum_transaction blake3 c :
  exists (valid : result ForumStoreError unit) (insert : ForumState -> result ForumStoreError (Z * ForumState)),
    (forall s, execute_forum blake3 c s = (valid ;;
      forum_transaction (command_binding c) (command_operation c) (fst (command_family c)) (snd (command_family c))
        (blake3 (forum_preimage c)) (command_identity c) insert s)) /\
    forall s id s1, forum_typed c -> insert s = Ok (id, s1) ->
      inserted (snd (command_family c)) id s s1 /\ (related s -> related s1).
Proof.
  destruct c as [b c|b c|b c|b c|b c]; eexists _, _.
  - split; [by instantiate (1 := Ok tt)|]. intros s id s1 [Hb _] E. simpl in *.
    split; [by apply insert_topic_Ok in E as (_ & _ & ? & _)|]. intros Hr.
    eapply topic_inserted_related; [|exact E|done]. by apply binding_author_ok.
  - split; [by instantiate (1 := Ok tt)|]. intros s id s1 [Hb _] E. simpl in *.
    split; [by apply insert_thread_Ok in E as (_ & _ & ? & _)|]. intros Hr.
    eapply thread_inserted_related; [| |exact E|done]; [by apply binding_author_ok|done].
  - split; [by instantiate (1 := Ok tt)|]. intros s id s1 [Hb _] E. simpl in *. apply bind_Ok in E as ([] & _ & E).
    split; [by apply insert_topic_Ok in E as (_ & _ & ? & _)|]. intros Hr.
    eapply topic_inserted_related; [|exact E|done]. by apply binding_author_ok.
  - split; [by instantiate (1 := Ok tt)|]. intros s id s1 [Hb _] E. simpl in *.
    apply bind_Ok in E as (other & Ho & E). apply bind_Ok in E as ([] & Ht & E).
    apply ok_or_Ok in Ho. apply require_Ok in Ht. rewrite negb_involutive in Ht. bool_prop.
    split; [by apply insert_thread_Ok in E as (_ & _ & ? & _)|]. intros Hr.
    eapply thread_inserted_related; [| |exact E|done]; [by apply binding_author_ok|].
    simpl. intros target [= <-]. eauto.
  - split; [by instantiate (1 := map_err ForumContract (post_input_validate (fpc_input c)))|].
    intros s id s1 [Hb Hatt] E. simpl in *. apply bind_Ok in E as ([id' s0] & E & E').
    apply bind_Ok in E' as (s2 & Ea & [= -> ->]).
    apply insert_attachments_Ok in Ea as (m & -> & Hm & Ho & Hrel).
    pose proof E as (Hid & Hs0 & [] & _)%insert_post_Ok. split.
    { constructor; simpl; try done; [by etrans|]. intros post artifact [w Hw]. rewrite Ho; [by rewrite Hs0|].
      apply fresh_id_gt in Hw. lia. }
    intros Hr. apply Hrel; [done|]. eapply post_inserted_related; [|exact E|done]. by apply binding_author_ok.
Qed.

Lemma operation_forum c : bool_decide (command_operation c ∈ forum_operations) = true.
Proof. by destruct c. Qed.

(** The two outcomes of a committed command. *)
Lemma execute_forum_Ok blake3 c s r s' :
  forum_typed c -> execute_forum blake3 c s = Ok (r, s') ->
  let key := (actor_principal (command_binding c), client_command_id (command_identity c)) in
  exists row, audit_log (authority s') !! key = Some row /\
    al_operation row = command_operation c /\ al_command_fingerprint row = blake3 (forum_preimage c) /\
    al_subject_kind row = snd (command_family c) /\ al_subject_id row = frc_id r /\
    al_resulting_revision row = frc_resulting_revision r /\ 0 <= frc_resulting_revision r /\
    al_id row = frc_audit_log_id r /\ 0 < frc_id r /\ 0 < frc_audit_log_id r /\
    ((frc_was_idempotent_retry r = true /\ s' = s) \/
     (frc_was_idempotent_retry r = false /\ audit_log (authority s) !! key = None /\
      current_forum_revision s = Ok (expected_revision (command_identity c)) /\
      frc_resulting_revision r = expected_revision (command_identity c) + 1 /\
      exists s1, inserted (snd (command_family c)) (frc_id r) s s1 /\ (related s -> related s1) /\
        s' = set_authority (set_audit_log (<[key := row]> (audit_log (authority s1))) (authority s1)) s1)).
Proof.
  intros Htyped E. destruct (execute_forum_transaction blake3 c) as (valid & insert & Heq & Hins).
  rewrite Heq in E. apply bind_Ok in E as ([] & _ & E). unfold forum_transaction in E.
  cbv zeta in *. apply bind_Ok in E as (found & Hf & E). destruct found as [receipt|].
  - unfold find_idempotent in Hf. destruct (audit_log _ !! _) as [row|] eqn:Hrow; [|done].
    apply bind_Ok in Hf as ([] & Hsame & Hf). apply require_Ok in Hsame.
    rewrite negb_true_iff, orb_false_iff, !negb_false_iff in Hsame. destruct Hsame as [Ho Hp]. bool_prop.
    apply bind_Ok in Hf as (revision & Hrev & Hf). injection Hf as <-.
    unfold aggregate_revision in Hrev. ok_inv Hrev.
    unfold require_subject, forum_id, identifier_new in E. simpl in E. ok_inv E. bool_prop. simpl.
    exists row. split_and!; try done; try lia. by left.
  - unfold find_idempotent in Hf. destruct (audit_log _ !! _) as [row|] eqn:Hrow.
    { apply bind_Ok in Hf as ([] & _ & Hf). by apply bind_Ok in Hf as (? & _ & ?). }
    apply bind_Ok in E as (current & Hc & E). apply bind_Ok in E as ([] & He & E).
    unfold require_expected in He. apply require_Ok in He. bool_prop. subst current.
    apply bind_Ok in E as ([id s1] & Hi & E). destruct (Hins _ _ _ Htyped Hi) as [Hinserted Hrelated].
    apply bind_Ok in E as (next & Hnext & E). apply bind_Ok in E as ([audit s2] & Hr & E).
    unfold insert_receipt in Hr. apply bind_Ok in Hr as ([] & _ & Hr). apply bind_Ok in Hr as ([audit' db] & Hr & [= <- <-]).
    unfold insert_audit_row in Hr. apply map_err_Ok in Hr. ok_inv Hr.
    unfold revision_next, checked_add_u64 in Hnext. apply map_err_Ok in Hnext. apply ok_or_Ok in Hnext.
    destruct (_ <=? _); [|done]. injection Hnext as <-.
    unfold forum_id, identifier_new in E. ok_inv E. bool_prop. simpl.
    unfold current_forum_revision, aggregate_revision in Hc. pose proof Hc as Hc'. ok_inv Hc'. bool_prop.
    eexists. split; [by rewrite lookup_insert_eq|]. simpl. split_and!; try done; try lia.
    right. split_and!; try done. exists s1. split_and!; try done.
Qed.

(** * Runs *)

Section Runs.
Context (blake3 : list Z -> ContentDigest).

Inductive forum_step (s : ForumState) : ForumState -> Prop :=
  | forum_command_step c r s' : forum_typed c -> execute_forum blake3 c s = Ok (r, s') -> forum_step s s'
  | forum_elsewhere_step db' : elsewhere (authority s) db' -> forum_step s (set_authority db' s).

(** No topics, threads, posts or attachments, and no receipt of them. *)
Definition forum_empty (s : ForumState) : Prop :=
  topics s = ∅ /\ threads s = ∅ /\ posts s = ∅ /\ attachments s = ∅ /\ forum_receipts s = [].

Definition forum_reachable (s : ForumState) : Prop := exists s0, forum_empty s0 /\ rtc forum_step s0 s.

Record extends (s s' : ForumState) : Prop := {
  extends_topics : grows (topics s) (topics s');
  extends_threads : grows (threads s) (threads s');
  extends_posts : grows (posts s) (posts s');
  extends_attachments : attachments s ⊆ attachments s';
  extends_attached : forall post artifact, is_Some (posts s !! post) ->
    attachments s' !! (post, artifact) = attachments s !! (post, artifact);
  extends_log : forall key row, audit_log (authority s) !! key = Some row -> audit_log (authority s') !! key = Some row;
}.

#[local] Instance extends_refl : Reflexive extends.
Proof. intros s. constructor; done. Qed.
#[local] Instance extends_trans : Transitive extends.
Proof.
  intros s1 s2 s3 [Ht Hh Hp Ha Hat Hl] [Ht' Hh' Hp' Ha' Hat' Hl']. constructor; [by etrans..| |eauto].
  intros post artifact H. rewrite Hat', Hat; [done|done|]. by eapply grows_is_Some.
Qed.

Lemma forum_step_extends s s' : forum_step s s' -> extends s s'.
Proof.
  intros [c r s'' Ht E|db' [Hl _ _]]; [|by constructor].
  apply execute_forum_Ok in E; [|done].
  destruct E as (row & _ & _ & _ & _ & _ & _ & _ & _ & _ & _ & [[_ ->]|(_ & Hn & _ & _ & s1 & [Ha _ ? ? ? ? Hatt _] & _ & ->)]); [done|].
  constructor; simpl; try done. rewrite Ha. intros key' row' Hk. rewrite lookup_insert_ne; [done|]. congruence.
Qed.

Lemma forum_run_extends s s' : rtc forum_step s s' -> extends s s'.
Proof. induction 1 as [|s1 s2 s3 H _ IH]; [done|]. etrans; [by apply forum_step_extends|done]. Qed.

Lemma set_authority_related s db' : artifacts (authority s) ⊆ artifacts db' -> related s -> related (set_authority db' s).
Proof.
  intros Hk [Ht Hh Hp Hat Hc]. constructor; simpl; try done.
  intros post artifact label Hl. destruct (Hat _ _ _ Hl) as (? & [w Hw] & ?). split_and!; try done.
  exists w. by eapply lookup_weaken.
Qed.

Lemma books_step_command c r s s' :
  forum_typed c -> execute_forum blake3 c s = Ok (r, s') -> forum_books s -> forum_books s'.
Proof.
  intros Ht E Hb. apply execute_forum_Ok in E; [|done].
  destruct E as (row & _ & Ho & _ & Hk & Hid & Hrev & _ & _ & _ & _ &
    [[_ ->]|(_ & Hn & Hcur & Hnext & s1 & [Ha Hrec _ _ _ _ _ _] & _ & ->)]); [done|].
  pose proof (books_current _ Hb) as Hcur'. rewrite Hcur' in Hcur. injection Hcur as Hcur. destruct Hb as [Hr Hv].
  assert (Hlog : forum_receipts s1 = forum_receipts s) by (unfold forum_receipts; by rewrite Ha).
  assert (Hrow : forum_row row = true) by (unfold forum_row; rewrite Ho; apply operation_forum).
  set (key := (_, _)) in *. set (s' := set_authority _ _).
  assert (Hp : forum_receipts s' ≡ₚ row :: forum_receipts s).
  { rewrite <- Hlog. apply (forum_receipts_insert s1); [by rewrite Ha|done]. }
  assert (Hlen : length (forum_receipts s) = length (records s)).
  { apply Permutation_length in Hr. by rewrite length_fmap in Hr. }
  constructor.
  - rewrite Hp, fmap_cons, Hr. change (records s') with (records s1). rewrite Hrec.
    unfold subject_of at 1. by rewrite Hk, Hid.
  - rewrite Hp, fmap_cons, Hv. simpl length. rewrite seqZ_S, Hrev, Hnext, <- Hcur, <- Hlen.
    rewrite Permutation_app_comm. by rewrite (Z.add_comm 1).
Qed.

Lemma books_elsewhere s db' : elsewhere (authority s) db' -> forum_books s -> forum_books (set_authority db' s).
Proof.
  intros He [Hr Hv]. pose proof (forum_receipts_elsewhere _ _ He) as Hp.
  constructor; rewrite Hp; [done|]. by rewrite Hv.
Qed.

Lemma forum_reachable_books s : forum_reachable s -> forum_books s /\ related s.
Proof.
  intros (s0 & (Ht & Hh & Hp & Ha & Hr) & Hrun).
  assert (Hinit : forum_books s0 /\ related s0).
  { split; [constructor; unfold records; rewrite Hr, ?Ht, ?Hh, ?Hp; done|].
    constructor; rewrite ?Ht, ?Hh, ?Hp, ?Ha; try (intros *; by rewrite lookup_empty).
    intros post. unfold attached_to, attachment_keys. rewrite Ha, map_to_list_empty. simpl. lia. }
  clear Ht Hh Hp Ha Hr. induction Hrun as [|s1 s2 s3 Hstep _ IH]; [done|]. apply IH. clear IH.
  destruct Hinit as [Hb Hrel]. destruct Hstep as [c r s' Ht E|db' He].
  - split; [by eapply books_step_command|]. apply execute_forum_Ok in E; [|done].
    destruct E as (row & _ & _ & _ & _ & _ & _ & _ & _ & _ & _ & [[_ ->]|(_ & _ & _ & _ & sm & Hi & Hrel' & ->)]); [done|].
    apply set_authority_related; [done|auto].
  - split; [by apply books_elsewhere|]. destruct He. by apply set_authority_related.
Qed.

(** C31: Every record of the Forum has exactly one receipt, the receipts number the
    revisions from 1 without a gap, and the aggregate revision is the number of
    records; a record refers only to earlier records under its own parent, and at
    most eight artifacts of the kernel are attached to a post. *)
Theorem forum_records_receipted s :
  forum_reachable s ->
  subject_of <$> forum_receipts s ≡ₚ records s /\
  al_resulting_revision <$> forum_receipts s ≡ₚ seqZ 1 (Z.of_nat (length (records s))) /\
  current_forum_revision s = Ok (Z.of_nat (length (records s))) /\ related s.
Proof.
  intros [Hb Hr]%forum_reachable_books. split_and!; [by apply books_records| |by apply books_current|done].
  pose proof (books_revisions _ Hb) as Hv. pose proof (Permutation_length (books_records _ Hb)) as Hl.
  rewrite length_fmap in Hl. by rewrite <- Hl.
Qed.

Definition as_retry (r : ForumReceipt) : ForumReceipt := {|
  frc_id := frc_id r; frc_resulting_revision := frc_resulting_revision r;
  frc_audit_log_id := frc_audit_log_id r; frc_was_idempotent_retry := true |}.

(** A committed command is permanent: whatever happens afterwards, no row of the
    Forum is removed or changed, and the same command answers with the same
    receipt and writes nothing, although its expected revision is long past. *)
Theorem forum_commands_commit_once c r s s1 s2 :
  forum_typed c -> execute_forum blake3 c s = Ok (r, s1) -> rtc forum_step s1 s2 ->
  topics s1 ⊆ topics s2 /\ threads s1 ⊆ threads s2 /\ posts s1 ⊆ posts s2 /\ attachments s1 ⊆ attachments s2 /\
  execute_forum blake3 c s2 = Ok (as_retry r, s2).
Proof.
  intros Ht E [[Htop _] [Hthr _] [Hpost _] Hatt _ Hlog]%forum_run_extends. split_and!; try done.
  pose proof (execute_forum_Ok _ _ _ _ _ Ht E) as (row & Hrow & Ho & Hf & Hk & Hid & Hrev & Hpos & Haid & Hi & Ha & _).
  destruct (execute_forum_transaction blake3 c) as (valid & insert & Heq & _). rewrite Heq in E |- *.
  apply bind_Ok in E as ([] & Hvalid & _). rewrite Hvalid. cbn [mbind result_bind].
  unfold forum_transaction, find_idempotent. rewrite (Hlog _ _ Hrow). rewrite Ho, Hf, !bool_decide_true by done.
  cbn [negb orb require mbind result_bind]. unfold aggregate_revision. rewrite Hrev.
  replace (0 <=? frc_resulting_revision r) with true by lia. cbn [require mbind result_bind].
  unfold require_subject. cbn [sr_subject_kind sr_subject_id sr_audit_log_id sr_resulting_revision].
  rewrite Hk, Z.eqb_refl. cbn [require mbind result_bind]. unfold forum_id, identifier_new. rewrite Hid, Haid.
  replace (frc_id r <=? 0) with false by lia. cbn [map_err mbind result_bind].
  by replace (frc_audit_log_id r <=? 0) with false by lia.
Qed.
End Runs.
