(* ===== verification/ForumPages.v ===== *)
(** Reading the Forum in pages: following the cursors visits every record once,
    in order, whatever is written in between ([ForumStore], [ForumRpc]). *)
From stdpp Require Import pretty sorting.
From S2P Require Import Prelude Values Json Forum ForumStore ForumProofs.

#[local] Open Scope string_scope.
#[local] Open Scope list_scope.
#[local] Open Scope Z_scope.

(** * Cursors *)

Lemma digits_number d : d <> [] -> forallb is_ascii_digit d = true ->
  match d with [] => None | _ => if forallb is_ascii_digit d then Some (decimal_value d) else None end
  = Some (decimal_value d).
Proof. intros Hd H. by destruct d; [|rewrite H]. Qed.

Lemma parse_pretty id : 0 < id <= i64_max -> parse_i64 (pretty id) = Some id.
Proof.
  intros Hid. destruct (number_text id) as (d & Hne & Hd & [(_ & E & Hv)|(? & _)]); [|lia].
  unfold json_number in E. unfold parse_i64. rewrite E.
  assert (Hb : exists b d', d = b :: d' /\ 48 <= b <= 57).
  { destruct d as [|b d]; [done|]. simpl in Hd. apply andb_true_iff in Hd as [Hb%is_ascii_digit_range _]. eauto. }
  destruct Hb as (b & d' & -> & Hb). pose proof (digits_number _ Hne Hd) as Hnum.
  assert (b = 48 \/ b = 49 \/ b = 50 \/ b = 51 \/ b = 52 \/ b = 53 \/ b = 54 \/ b = 55 \/ b = 56 \/ b = 57) as Hc by lia.
  rewrite Hv in Hnum. repeat destruct Hc as [->|Hc]; subst; cbv zeta beta iota in *; rewrite Hnum;
    cbn [mbind option_bind]; unfold i64_max in *; by replace (_ && _) with true by lia.
Qed.

Lemma pretty_nonempty id : 0 < id -> (string_len (pretty id) =? 0) = false.
Proof.
  intros Hid. destruct (number_text id) as (d & Hne & _ & [(_ & E & _)|(? & _)]); [|lia].
  unfold json_number in E. unfold string_len. rewrite <- string_bytes_length, E. destruct d; [done|]. apply Z.eqb_neq. simpl. lia.
Qed.

Lemma parse_cursor kind id : 0 < id <= i64_max -> parse_optional_id kind (pretty id) = Ok (Some id).
Proof.
  intros Hid. unfold parse_optional_id. rewrite pretty_nonempty by lia. rewrite parse_pretty by done.
  unfold rpc_id, identifier_new. cbn [ok_or mbind result_bind]. by replace (id <=? 0) with false by lia.
Qed.

(** * Sorted lists *)

Section sorted_lists.
Context {A : Type}.

Lemma elem_of_List_filter (f : A -> bool) l x : x ∈ List.filter f l <-> x ∈ l /\ f x = true.
Proof. by rewrite list_elem_of_In, filter_In, <- list_elem_of_In. Qed.

Lemma filter_id (f : A -> bool) l : (forall x, x ∈ l -> f x = true) -> List.filter f l = l.
Proof.
  induction l as [|x l IH]; intros H; [done|]. simpl. rewrite H by (by left). f_equal. apply IH. intros y Hy. apply H. by right.
Qed.

Lemma filter_nil (f : A -> bool) l : (forall x, x ∈ l -> f x = false) -> List.filter f l = [].
Proof.
  induction l as [|x l IH]; intros H; [done|]. simpl. rewrite H by (by left). apply IH. intros y Hy. apply H. by right.
Qed.

Lemma sorted_app_inv (R : A -> A -> Prop) (l l' : list A) :
  StronglySorted R (l ++ l') -> forall a b, a ∈ l -> b ∈ l' -> R a b.
Proof.
  induction l as [|x l IH]; simpl; intros H a b Ha Hb; [by apply not_elem_of_nil in Ha|].
  inversion_clear H as [|? ? Hs Hall]. apply elem_of_cons in Ha as [->|Ha]; [|by eapply IH].
  rewrite Forall_forall in Hall. apply Hall, elem_of_app. by right.
Qed.

Lemma sorted_filter (R : A -> A -> Prop) (f : A -> bool) (l : list A) :
  StronglySorted R l -> StronglySorted R (List.filter f l).
Proof.
  induction 1 as [|a l Hl IH Ha]; simpl; [constructor|]. destruct (f a); [|done]. constructor; [done|].
  rewrite Forall_forall in *. intros b Hb. apply Ha. rewrite list_elem_of_In in *. by apply filter_In in Hb as [? _].
Qed.
End sorted_lists.

(** * Pages of a growing table *)

Section pages.
Context {V : Type}.
Implicit Types (p : V -> bool) (m : gmap Z V).

Definition key_of (entry : Z * V) : list Z := [entry.1].
Definition earlier (a b : Z * V) : Prop := a.1 < b.1.

(** The rows a listing ranges over. *)
Definition sorted_rows p m : list (Z * V) := order_by key_of (rows_where (fun _ => p) m).

#[local] Instance earlier_antisymm : AntiSymm (=) earlier.
Proof. intros a b. unfold earlier. lia. Qed.

Lemma lex_single a b : lex_lt [b] [a] = false <-> a <= b.
Proof. simpl. rewrite andb_false_r, orb_false_r, Z.ltb_ge. done. Qed.

Lemma sorted_rows_elem p m k v : (k, v) ∈ sorted_rows p m <-> m !! k = Some v /\ p v = true.
Proof. unfold sorted_rows. rewrite order_by_perm. apply rows_where_elem. Qed.

Lemma strictly_sorted (l : list (Z * V)) :
  StronglySorted (fun a b => lex_lt (key_of b) (key_of a) = false) l -> NoDup l.*1 -> StronglySorted earlier l.
Proof.
  induction 1 as [|a l Hl IH Ha]; intros Hn; [constructor|]. rewrite fmap_cons in Hn. apply NoDup_cons in Hn as [Hna Hn].
  constructor; [auto|]. rewrite Forall_forall in *. intros b Hb. specialize (Ha b Hb). unfold earlier.
  apply lex_single in Ha. destruct (decide (a.1 = b.1)) as [E|]; [|lia]. destruct Hna. rewrite E. by apply list_elem_of_fmap_2.
Qed.

Lemma sorted_rows_sorted p m : StronglySorted earlier (sorted_rows p m).
Proof.
  apply strictly_sorted; [apply order_by_sorted|]. unfold sorted_rows. rewrite order_by_perm.
  apply NoDup_rows_where_keys.
Qed.

Lemma sorted_NoDup (l : list (Z * V)) : StronglySorted earlier l -> NoDup l.
Proof.
  induction 1 as [|a l Hl IH Ha]; constructor; [|done]. intros Hin. rewrite Forall_forall in Ha.
  specialize (Ha _ Hin). unfold earlier in Ha. lia.
Qed.

(** A sorted list of a table's rows is the listing. *)
Lemma sorted_rows_unique p m l :
  StronglySorted earlier l -> (forall k v, (k, v) ∈ l <-> m !! k = Some v /\ p v = true) -> l = sorted_rows p m.
Proof.
  intros Hs Hin. apply (StronglySorted_unique earlier); [done|apply sorted_rows_sorted|].
  apply NoDup_Permutation; [by apply sorted_NoDup|apply sorted_NoDup, sorted_rows_sorted|].
  intros [k v]. by rewrite Hin, sorted_rows_elem.
Qed.

Lemma sorted_app (l l' : list (Z * V)) :
  StronglySorted earlier l -> StronglySorted earlier l' ->
  (forall a b, a ∈ l -> b ∈ l' -> earlier a b) -> StronglySorted earlier (l ++ l').
Proof.
  induction 1 as [|a l Hl IH Ha]; intros Hl' Hb; simpl; [done|]. constructor.
  - apply IH; [done|]. intros x y Hx Hy. apply Hb; [by right|done].
  - apply Forall_app. split; [done|]. apply Forall_forall. intros y Hy. apply Hb; [by left|done].
Qed.

(** A page is a stretch of the listing. *)
Lemma page_of_rows p after limit m :
  page_of p after limit m = take (Z.to_nat limit) (List.filter (fun kv => after <? kv.1) (sorted_rows p m)).
Proof.
  unfold page_of. f_equal. symmetry.
  transitivity (sorted_rows (fun _ => true) (filter (fun kv : Z * V => p kv.2 && (after <? kv.1) = true) m)).
  - apply sorted_rows_unique; [apply sorted_filter, sorted_rows_sorted|]. intros k v.
    rewrite list_elem_of_In, filter_In, <- list_elem_of_In, sorted_rows_elem, map_lookup_filter_Some. simpl.
    rewrite andb_true_iff. tauto.
  - symmetry. apply sorted_rows_unique.
    + apply strictly_sorted; [apply order_by_sorted|]. rewrite order_by_perm. apply NoDup_rows_where_keys.
    + intros k v. rewrite order_by_perm, rows_where_elem, map_lookup_filter_Some. simpl. tauto.
Qed.

(** New rows come after the ones there are. *)
Lemma sorted_rows_grow p m m' : grows m m' -> exists l, sorted_rows p m' = sorted_rows p m ++ l.
Proof.
  intros [Hk Hl]. exists (sorted_rows p (m' ∖ m)). symmetry. apply sorted_rows_unique.
  - apply sorted_app; [apply sorted_rows_sorted..|]. intros [j w] [k v] [Hj _]%sorted_rows_elem [Hv _]%sorted_rows_elem.
    apply lookup_difference_Some in Hv as [Hv Hn]. unfold earlier. simpl. by eapply Hl.
  - intros k v. rewrite elem_of_app, !sorted_rows_elem, lookup_difference_Some. split.
    + intros [[Hm ?]|[[? _] ?]]; [|done]. split; [by eapply lookup_weaken|done].
    + intros [Hm' Hp]. destruct (m !! k) as [w|] eqn:E; [|by right]. left.
      pose proof (lookup_weaken _ _ _ _ E Hk). split; [congruence|done].
Qed.

(** What lies after the last of the first rows is the rest. *)
Lemma filter_after_last (l1 l2 : list (Z * V)) x :
  StronglySorted earlier (l1 ++ l2) -> last l1 = Some x ->
  List.filter (fun kv => x.1 <? kv.1) (l1 ++ l2) = l2.
Proof.
  intros Hs Hx. apply last_Some in Hx as [l ->]. rewrite List.filter_app.
  rewrite filter_nil, filter_id; [done|..]; intros y Hy.
  - apply Z.ltb_lt. eapply (sorted_app_inv earlier); [exact Hs| |done]. apply elem_of_app. right. by left.
  - apply Z.ltb_ge. apply elem_of_app in Hy as [Hy|Hy]; [|apply list_elem_of_singleton in Hy as ->; lia].
    rewrite <- (assoc_L (++)) in Hs. assert (earlier y x); [|unfold earlier in *; lia].
    eapply (sorted_app_inv earlier); [exact Hs|done|]. by left.
Qed.

(** Where a reader stands: it has the first [k] rows, and its cursor is the last
    of them. *)
Definition stands_at (l : list (Z * V)) (k : nat) (after : Z) : Prop :=
  (k <= length l)%nat /\ after = from_option fst 0 (last (take k l)).

(** The next page continues where the reader stands, in any later state. *)
Lemma next_page p m m' k after limit :
  (forall id v, m' !! id = Some v -> 0 < id) -> grows m m' -> stands_at (sorted_rows p m) k after ->
  let rows := sorted_rows p m' in
  let page := page_of p after limit m' in
  take k rows = take k (sorted_rows p m) /\ take k rows ++ page = take (k + length page)%nat rows /\
  (k + length page <= length rows)%nat /\ length page = Nat.min (Z.to_nat limit) (length rows - k)%nat.
Proof.
  intros Hpos Hg [Hk ->]. cbv zeta. destruct (sorted_rows_grow p _ _ Hg) as [l El].
  set (rows := sorted_rows p m) in *. set (rows' := sorted_rows p m') in *.
  assert (Htake : take k rows' = take k rows) by (rewrite El, take_app_le by done; done).
  assert (Hdrop : List.filter (fun kv => from_option fst 0 (last (take k rows)) <? kv.1) rows' = drop k rows').
  { destruct (last (take k rows)) as [x|] eqn:Hx.
    - simpl. rewrite <- (take_drop k rows') at 1. apply filter_after_last; [|by rewrite Htake].
      rewrite take_drop. apply sorted_rows_sorted.
    - apply last_None in Hx. assert (k = 0%nat) as ->.
      { apply (f_equal length) in Hx. rewrite length_take in Hx. simpl in Hx. lia. }
      rewrite drop_0. apply filter_id. intros [id v] Hin. apply sorted_rows_elem in Hin as [Hin _].
      apply Z.ltb_lt. by eapply Hpos. }
  rewrite page_of_rows. fold rows'. rewrite Hdrop, length_take, length_drop.
  assert (Hlen : (length rows <= length rows')%nat) by (rewrite El, length_app; lia).
  split_and!; [done| |lia|done]. rewrite <- take_take_drop. f_equal.
  destruct (Nat.le_ge_cases (Z.to_nat limit) (length rows' - k)).
  - by rewrite Nat.min_l by lia.
  - rewrite Nat.min_r by lia. rewrite !take_ge; rewrite ?length_drop; done || lia.
Qed.
End pages.

(** * The items of a page *)

Section items.
Context `{PostgresFunctions} (epoch : forall t, 0 <= epoch_micros t).

Lemma created_micros_Ok t : created_micros t = Ok (epoch_micros t).
Proof. unfold created_micros. pose proof (epoch t). by replace (0 <=? epoch_micros t) with true by lia. Qed.

Lemma forum_id_Ok kind id : 0 < id -> forum_id kind id = Ok id.
Proof. intros Hid. unfold forum_id, identifier_new. by replace (id <=? 0) with false by lia. Qed.

Lemma author_back a : author_ok a -> exists author, author_from_columns a = Ok author.
Proof.
  intros (session & role & Hs & ->). unfold author_from_columns. cbn [ac_kind ac_session_id ac_office].
  rewrite forum_id_Ok by done. cbn [mbind result_bind]. destruct role; eexists; reflexivity.
Qed.

Lemma post_kind_back k : 0 <= k <= 6 -> exists kind, post_kind_from_number k = Ok kind.
Proof.
  intros Hk. assert (k = 0 \/ k = 1 \/ k = 2 \/ k = 3 \/ k = 4 \/ k = 5 \/ k = 6) as Hc by lia.
  repeat destruct Hc as [->|Hc]; subst; eexists; reflexivity.
Qed.

Definition attachment_key (kv : (Z * Z) * string) : list Z := [kv.1.1; kv.1.2].

Lemma attachment_rows_elem s ids key label :
  (key, label) ∈ attachment_rows s ids <-> attachments s !! key = Some label /\ key.1 ∈ ids.
Proof.
  unfold attachment_rows. rewrite order_by_perm, list_elem_of_In, filter_In, <- list_elem_of_In.
  rewrite elem_of_map_to_list. simpl. by rewrite bool_decide_eq_true.
Qed.

(** Attachment rows in order are determined by which rows they are. *)
Lemma attachment_list_unique (l l' : list ((Z * Z) * string)) s :
  StronglySorted (fun a b => lex_lt (attachment_key b) (attachment_key a) = false) l ->
  StronglySorted (fun a b => lex_lt (attachment_key b) (attachment_key a) = false) l' ->
  NoDup l -> NoDup l' -> (forall kv, kv ∈ l <-> kv ∈ l') ->
  (forall key label, (key, label) ∈ l -> attachments s !! key = Some label) -> l = l'.
Proof.
  intros Hs Hs' Hn Hn' Hin Hkey.
  eapply (StronglySorted_unique_strong (fun a b => lex_lt (attachment_key b) (attachment_key a) = false));
    [|done|done|by apply NoDup_Permutation].
  intros [[p1 a1] x1] [[p2 a2] x2] H1 H2%Hin. unfold attachment_key. simpl.
  rewrite !orb_false_iff, !andb_false_iff, !andb_false_r, !orb_false_r, !Z.ltb_ge, !Z.eqb_neq. intros ? ?.
  assert (p1 = p2 /\ a1 = a2) as [<- <-] by lia. apply Hkey in H1, H2. congruence.
Qed.

Lemma attachment_rows_sorted s ids :
  StronglySorted (fun a b => lex_lt (attachment_key b) (attachment_key a) = false) (attachment_rows s ids) /\
  NoDup (attachment_rows s ids).
Proof.
  split; [apply order_by_sorted|]. unfold attachment_rows. rewrite order_by_perm.
  apply NoDup_ListNoDup, List.NoDup_filter, NoDup_ListNoDup, NoDup_map_to_list.
Qed.

Lemma attachment_rows_one s ids id :
  id ∈ ids -> List.filter (fun kv => kv.1.1 =? id) (attachment_rows s ids) = attachment_rows s [id].
Proof.
  intros Hid. destruct (attachment_rows_sorted s ids) as [Hs Hn], (attachment_rows_sorted s [id]) as [Hs' Hn'].
  assert (Hin : forall key label, (key, label) ∈ List.filter (fun kv => kv.1.1 =? id) (attachment_rows s ids)
    <-> attachments s !! key = Some label /\ key.1 = id).
  { intros key label. rewrite list_elem_of_In, filter_In, <- list_elem_of_In, attachment_rows_elem. simpl.
    rewrite Z.eqb_eq. split; [tauto|]. intros [? <-]. tauto. }
  apply (attachment_list_unique _ _ s); try done.
  - by apply sorted_filter.
  - by apply NoDup_ListNoDup, List.NoDup_filter, NoDup_ListNoDup.
  - intros [key label]. by rewrite Hin, attachment_rows_elem, list_elem_of_singleton.
  - intros key label. rewrite Hin. tauto.
Qed.

Lemma attachment_rows_stable s s' id :
  extends s s' -> is_Some (posts s !! id) -> attachment_rows s' [id] = attachment_rows s [id].
Proof.
  intros He Hid. destruct (attachment_rows_sorted s' [id]), (attachment_rows_sorted s [id]).
  apply (attachment_list_unique _ _ s'); try done.
  - intros [[post artifact] label]. rewrite !attachment_rows_elem, !list_elem_of_singleton. simpl.
    split; intros [Hl ->]; (split; [|done]); pose proof (extends_attached _ _ He id artifact Hid); congruence.
  - intros key label. rewrite attachment_rows_elem. tauto.
Qed.

(** A post as the socket shows it. *)
Definition post_item (s : ForumState) (entry : Z * PostRow) : option ForumPostViewV2 :=
  match post_view (attachment_rows s [entry.1]) entry with Ok view => Some (post_wire view) | Err _ => None end.

Lemma post_item_stable s s' id row :
  extends s s' -> posts s !! id = Some row -> post_item s' (id, row) = post_item s (id, row).
Proof. intros He Hid. unfold post_item. simpl fst. by rewrite (attachment_rows_stable _ _ _ He) by eauto. Qed.

Lemma relation_id_Ok s target : related s ->
  (forall id, target = Some id -> is_Some (posts s !! id)) -> transpose_map (forum_id "forum post ID") target = Ok target.
Proof.
  intros Hr Ht. destruct target as [id|]; [|done]. destruct (Ht id eq_refl) as [row Hrow].
  destruct (posts_related _ Hr _ _ Hrow) as [Hid _]. cbn [transpose_map]. by rewrite forum_id_Ok by lia.
Qed.

Lemma post_view_Ok s attached id row :
  related s -> posts s !! id = Some row -> exists view, post_view attached (id, row) = Ok view /\ fpv_post_id view = id.
Proof.
  intros Hr Hrow. destruct (posts_related _ Hr _ _ Hrow) as (Hid & Ha & Hk & [th Hth] & Hrel & _).
  destruct (threads_related _ Hr _ _ Hth) as (Hthread & _). destruct (author_back _ Ha) as [author Ea].
  destruct (post_kind_back _ Hk) as [kind Ek]. unfold post_view.
  rewrite forum_id_Ok by lia. cbn [mbind result_bind]. rewrite forum_id_Ok by lia. cbn [mbind result_bind].
  rewrite Ea, Ek. cbn [mbind result_bind].
  rewrite !(relation_id_Ok s) by (try done; intros target Ht; destruct (Hrel target) as (_ & other & ? & _); eauto).
  cbn [mbind result_bind]. rewrite created_micros_Ok. cbn [mbind result_bind]. eexists. split; reflexivity.
Qed.

(** A page of a thread is read whole. *)
Lemma read_thread_items page s :
  related s ->
  let rows := page_of (fun row => fp_thread_id row =? ftp_thread_id page)
                (default 0 (ftp_after_post_id page)) (ftp_limit page) (posts s) in
  exists views, read_thread page s = Ok views /\ fpv_post_id <$> views = rows.*1 /\
    (fun view => Some (post_wire view)) <$> views = post_item s <$> rows.
Proof.
  intros Hr rows. unfold read_thread. fold rows.
  assert (Hrows : forall id row, (id, row) ∈ rows -> posts s !! id = Some row).
  { intros id row Hin. unfold rows in Hin. rewrite page_of_rows in Hin. apply list_elem_of_In in Hin.
    assert (Hin' : In (id, row) (List.filter (fun kv => default 0 (ftp_after_post_id page) <? kv.1)
      (sorted_rows (fun row => fp_thread_id row =? ftp_thread_id page) (posts s)))).
    { rewrite <- (take_drop (Z.to_nat (ftp_limit page))). apply in_app_iff. by left. }
    apply filter_In in Hin' as [Hin' _]. apply list_elem_of_In, sorted_rows_elem in Hin' as [? _]. done. }
  assert (Hatt : for_each (fun kv : (Z * Z) * string => _ ← forum_id "artifact ID" kv.1.2; Ok tt)
    (attachment_rows s rows.*1) = Ok tt).
  { apply for_each_Ok, Forall_forall. intros [[post artifact] label] Hin%attachment_rows_elem.
    destruct Hin as [Hin _]. destruct (attachments_related _ Hr _ _ _ Hin) as (_ & _ & Ha). simpl. by rewrite forum_id_Ok. }
  rewrite Hatt. cbn [mbind result_bind].
  assert (Hsame : forall entry, entry ∈ rows -> post_view (attachment_rows s rows.*1) entry = post_view (attachment_rows s [entry.1]) entry).
  { intros [id row] Hin. unfold post_view. simpl fst.
    rewrite (attachment_rows_one _ _ id), (attachment_rows_one _ [id] id); [done|by left|].
    by apply (list_elem_of_fmap_2 fst _ (id, row)). }
  revert Hrows Hsame. generalize (attachment_rows s rows.*1). intros attached. generalize rows. clear rows Hatt.
  intros rows Hrows Hsame. induction rows as [|[id row] rows IH]; [by exists []|].
  destruct IH as (views & E & Hids & Hitems); [intros; apply Hrows; by right|intros; apply Hsame; by right|].
  destruct (post_view_Ok s attached id row Hr) as (view & Ev & Hid); [apply Hrows; by left|].
  exists (view :: views). cbn [map_ok]. rewrite Ev, E. split; [done|]. rewrite !fmap_cons. split; [by rewrite Hids, Hid|].
  rewrite Hitems. f_equal. pose proof (Hsame (id, row) ltac:(by left)) as Es. unfold post_item. by rewrite <- Es, Ev.
Qed.
End items.

(** * A reader *)

Section reader.
Context `{PostgresFunctions} (epoch : forall t, 0 <= epoch_micros t).
Context (blake3 : list Z -> ContentDigest) (thread limit : Z).

(** One request of a client that passes the cursor it was given; the empty
    cursor is the post 0. *)
Definition ask_posts (cursor : string) (s : ForumState) : result ForumRpcError (list ForumPostViewV2 * string) :=
  after ← (if string_len cursor =? 0 then Ok 0 else ok_or (parse_i64 cursor) InvalidCursor);
  response ← dispatch (ReadThread {| rtr_request_id := "read"; rtr_thread_id := thread;
                                     rtr_after_post_id := after; rtr_limit := limit |}) s;
  match fr_items response with
  | PostItems items => Ok (items, fr_next_cursor response)
  | _ => Err InvalidCursor
  end.

(** A client that has read [items] and holds [cursor]; the Forum may run between
    two requests. *)
Inductive reading : ForumState -> string -> list ForumPostViewV2 -> Prop :=
  | reading_first s items cursor :
      forum_reachable blake3 s -> ask_posts "" s = Ok (items, cursor) -> reading s cursor items
  | reading_next s cursor items s' more cursor' :
      reading s cursor items -> cursor <> "" -> rtc (forum_step blake3) s s' ->
      ask_posts cursor s' = Ok (more, cursor') -> reading s' cursor' (items ++ more).

(** The posts of the thread, in order. *)
Definition thread_posts (s : ForumState) : list (Z * PostRow) :=
  sorted_rows (fun row => fp_thread_id row =? thread) (posts s).

Hypothesis thread_positive : 0 < thread.
Hypothesis limit_bounds : 1 <= limit <= FORUM_PAGE_MAX.

(** The cursor of a reader that has the first [k] posts. *)
Definition cursor_at (s : ForumState) (k : nat) (cursor : string) : Prop :=
  if string_len cursor =? 0 then k = 0%nat
  else exists x, last (take k (thread_posts s)) = Some x /\ cursor = pretty x.1.

Lemma thread_posts_bounds s id row :
  related s -> (id, row) ∈ thread_posts s -> 0 < id <= i64_max.
Proof. intros Hr [Hin _]%sorted_rows_elem. by destruct (posts_related _ Hr _ _ Hin) as [? _]. Qed.

Lemma cursor_after s k cursor :
  related s -> (k <= length (thread_posts s))%nat -> cursor_at s k cursor ->
  exists after, (if string_len cursor =? 0 then Ok 0 else ok_or (parse_i64 cursor) InvalidCursor) = Ok after /\
    stands_at (thread_posts s) k after /\ (after = 0 \/ 0 < after).
Proof.
  intros Hr Hk Hc. unfold cursor_at in Hc. destruct (string_len cursor =? 0) eqn:E.
  - subst k. exists 0. split; [done|]. split; [by split|by left].
  - destruct Hc as ([id row] & Hl & ->). exists id. simpl.
    assert (Hid : 0 < id <= i64_max).
    { apply (thread_posts_bounds s id row Hr). apply last_Some in Hl as [l Hl].
      rewrite <- (take_drop k (thread_posts s)), Hl. apply elem_of_app. left. apply elem_of_app. right. by left. }
    rewrite parse_pretty by done. split; [done|]. split; [|right; lia]. split; [done|]. by rewrite Hl.
Qed.

(** One request: it is answered, and the reader stands further on. *)
Lemma ask_posts_page s s' k cursor :
  related s -> related s' -> grows (posts s) (posts s') ->
  (k <= length (thread_posts s))%nat -> cursor_at s k cursor ->
  exists items cursor', ask_posts cursor s' = Ok (items, cursor') /\
    (k + length items <= length (thread_posts s'))%nat /\
    length items = Nat.min (Z.to_nat limit) (length (thread_posts s') - k) /\
    Some <$> items = post_item s' <$> drop k (take (k + length items) (thread_posts s')) /\
    take k (thread_posts s') = take k (thread_posts s) /\
    (cursor' = "" -> (k + length items)%nat = length (thread_posts s')) /\
    (cursor' <> "" -> cursor_at s' (k + length items) cursor').
Proof.
  intros Hr Hr' Hg Hk Hc. destruct (cursor_after _ _ _ Hr Hk Hc) as (after & Ha & Hstand & Hpos).
  assert (Hids : forall id v, posts s' !! id = Some v -> 0 < id).
  { intros id v Hv. destruct (posts_related _ Hr' _ _ Hv) as [? _]. lia. }
  destruct (next_page _ _ _ k after limit Hids Hg Hstand) as (Htake & Happ & Hle & Hlen).
  fold (thread_posts s') (thread_posts s) in *. set (rows := page_of _ _ _ _) in *.
  unfold ask_posts. rewrite Ha. cbn [mbind result_bind dispatch]. unfold dispatch_read_thread.
  cbn [rtr_limit rtr_thread_id rtr_after_post_id]. unfold forum_page_limit, FORUM_PAGE_MAX in *.
  replace ((1 <=? limit) && (limit <=? 20)) with true by lia. cbn [require map_err mbind result_bind].
  unfold rpc_id, identifier_new. replace (thread <=? 0) with false by lia. cbn [map_err mbind result_bind].
  assert (Hafter : exists o, optional_positive_id "forum post ID" after = Ok o /\ default 0 o = after).
  { unfold optional_positive_id, rpc_id, identifier_new. destruct Hpos as [->|Hpos]; [by exists None|].
    exists (Some after). replace (after =? 0) with false by lia. by replace (after <=? 0) with false by lia. }
  destruct Hafter as (o & -> & Ho). cbn [mbind result_bind].
  destruct (read_thread_items epoch {| ftp_thread_id := thread; ftp_after_post_id := o; ftp_limit := limit |} s' Hr')
    as (views & -> & Hv & Hi). cbn [ftp_thread_id ftp_after_post_id ftp_limit] in Hv, Hi. rewrite Ho in Hv, Hi. fold rows in Hv, Hi.
  cbn [map_err mbind result_bind fr_items fr_next_cursor]. eexists _, _. split; [done|].
  assert (Hl : length views = length rows) by (apply (f_equal length) in Hv; by rewrite !length_fmap in Hv).
  rewrite length_fmap, Hl. split_and!; [done|done| |done|..].
  - rewrite <- Happ. rewrite drop_app_length' by (rewrite length_take; lia). rewrite <- Hi, <- list_fmap_compose. done.
  - unfold page_cursor, page_length. rewrite Hl. intros Hcur. destruct (Z.eqb_spec (Z.of_nat (length rows)) limit); [|lia].
    destruct (last views) as [view|] eqn:Ev; [|apply last_None in Ev; subst views; simpl in Hl; lia].
    simpl in Hcur. assert (Hin : 0 < fpv_post_id view).
    { assert (fpv_post_id view ∈ rows.*1) as Hin.
      { rewrite <- Hv. apply list_elem_of_fmap_2. apply last_Some in Ev as [l ->]. apply elem_of_app. right. by left. }
      apply list_elem_of_fmap in Hin as ([id row] & -> & Hin). simpl. eapply Hids.
      apply (sorted_rows_elem (fun row => fp_thread_id row =? thread)).
      rewrite <- (take_drop (k + length rows) (sorted_rows _ _)). fold (thread_posts s'). rewrite <- Happ.
      apply elem_of_app. left. apply elem_of_app. by right. }
    apply pretty_nonempty in Hin. by rewrite Hcur in Hin.
  - unfold page_cursor, page_length. rewrite Hl. destruct (Z.eqb_spec (Z.of_nat (length rows)) limit); [|done].
    intros _. destruct (last rows) as [[id row]|] eqn:Er; [|apply last_None in Er; rewrite Er in *; simpl in *; lia].
    assert (Elast : fpv_post_id <$> last views = Some id).
    { rewrite <- fmap_last, Hv, fmap_last, Er. done. }
    assert (Hid : 0 < id).
    { eapply Hids. apply (sorted_rows_elem (fun row => fp_thread_id row =? thread)).
      rewrite <- (take_drop (k + length rows) (sorted_rows _ _)). fold (thread_posts s'). rewrite <- Happ.
      apply elem_of_app. left. apply elem_of_app. right. apply last_Some in Er as [l ->]. apply elem_of_app. right. by left. }
    unfold cursor_at. rewrite Elast. simpl. rewrite pretty_nonempty by done. exists (id, row). split; [|done].
    rewrite <- Happ. by rewrite last_app, Er.
Qed.

Lemma reachable_run s s' : forum_reachable blake3 s -> rtc (forum_step blake3) s s' -> forum_reachable blake3 s'.
Proof. intros (s0 & Hempty & Hrun) Hrun'. exists s0. split; [done|]. by etrans. Qed.

Lemma post_items_stable s s' k :
  extends s s' -> (k <= length (thread_posts s))%nat ->
  take k (thread_posts s') = take k (thread_posts s) ->
  post_item s' <$> take k (thread_posts s') = post_item s <$> take k (thread_posts s).
Proof.
  intros He Hk ->. apply list_fmap_ext. intros i [id row] Hi. apply post_item_stable; [done|].
  apply (sorted_rows_elem (fun row => fp_thread_id row =? thread)). apply list_elem_of_lookup_2 in Hi.
  rewrite <- (take_drop k (sorted_rows _ _)). apply elem_of_app. by left.
Qed.

Lemma reading_state s cursor items :
  reading s cursor items ->
  forum_reachable blake3 s /\ (length items <= length (thread_posts s))%nat /\
  Some <$> items = post_item s <$> take (length items) (thread_posts s) /\
  (cursor = "" -> length items = length (thread_posts s)) /\
  (cursor <> "" -> cursor_at s (length items) cursor).
Proof.
  induction 1 as [s items cursor Hs E|s cursor items s' more cursor' _ (Hs & Hk & Hi & _ & Hc) Hne Hrun E].
  - pose proof Hs as [_ Hr]%forum_reachable_books.
    destruct (ask_posts_page s s 0 "" Hr Hr) as (items' & cursor' & E' & Hle & _ & Hi & _ & Hend & Hc); try done; [lia|].
    rewrite E' in E. injection E as -> ->. simpl in *. rewrite drop_0 in Hi. split_and!; done.
  - pose proof (reachable_run _ _ Hs Hrun) as Hs'. pose proof Hs as [_ Hr]%forum_reachable_books.
    pose proof Hs' as [_ Hr']%forum_reachable_books. pose proof (forum_run_extends _ _ _ Hrun) as He.
    destruct (ask_posts_page s s' (length items) cursor Hr Hr' (extends_posts _ _ He) Hk (Hc Hne))
      as (more' & cursor'' & E' & Hle & _ & Hmore & Htake & Hend & Hc').
    rewrite E' in E. injection E as -> ->. rewrite length_app. split_and!; try done.
    rewrite fmap_app, Hi, Hmore, <- (post_items_stable s s') by done. rewrite <- fmap_app. f_equal.
    rewrite <- (take_drop (length items) (take (length items + length more) (thread_posts s'))) at 2.
    f_equal. rewrite take_take. f_equal. lia.
Qed.

End reader.
