(* ===== verification/PacketSeal.v ===== *)
(** The packet the assignment runtime builds is admitted: whenever the runtime can
    seal its packet, the process store's checks of the bytes, of the digest and of
    the mapping all pass, and a restart reads the same packet back. *)
From S2P Require Import Prelude Values Base64 Contracts Application Json WireBundle Canonical.
From S2P Require Import Cas Custody Database ProcessStore ProcessReads Packet PacketAdmission PacketProofs.
From S2P Require Import PacketCanonical CampaignDriver AssignmentRuntime Harness PacketBuild.

#[local] Arguments to_hex : simpl never.
#[local] Arguments content_digest_from_str : simpl never.
#[local] Open Scope list_scope.
#[local] Open Scope Z_scope.

Lemma run_bind {E A B} (m : result E A) (f : A -> result E B) a b : m = Ok a -> f a = Ok b -> m ≫= f = Ok b.
Proof. intros -> H. exact H. Qed.

Lemma run_map_err {E F A} (f : E -> F) (r : result E A) a : r = Ok a -> map_err f r = Ok a.
Proof. by intros ->. Qed.

(** * The wire form agrees with the domain packet *)

Lemma pairwise_fmap {A B} (agree : A -> B -> bool) (f : B -> A) l :
  (forall b, agree (f b) b = true) -> pairwise agree (f <$> l) l = true.
Proof.
  intros H. unfold pairwise. rewrite length_fmap, Nat.eqb_refl. cbn [andb].
  induction l as [|b l IH]; [done|]. rewrite fmap_cons. cbn [zip zip_with forallb]. by rewrite H, IH.
Qed.

Lemma same_text_refl s : same_text s s = true.
Proof. by apply bool_decide_eq_true. Qed.

Lemma base64_decoded bytes : Forall is_byte bytes -> decode_base64 (base64 bytes) = Some bytes.
Proof. intros H. rewrite encoders_agree by done. by apply prompt_roundtrip. Qed.

Ltac agrees := rewrite ?same_text_refl, ?Z.eqb_refl, ?bool_decide_true by done; done.

Lemma model_wire_agrees m : model_agrees (model_wire m) m = true.
Proof.
  unfold model_agrees, model_wire. cbn -[pairwise same_text].
  rewrite (pairwise_fmap (fun flag '(Reasoning) => same_text flag "reasoning")) by (by intros []).
  by destruct (mp_thinking_level m); agrees.
Qed.

Lemma read_wire_agrees r : read_agrees (read_wire r) r = true.
Proof. unfold read_agrees, read_wire. cbn -[same_text]. agrees. Qed.

Lemma evidence_wire_agrees e : evidence_agrees (evidence_wire e) e = true.
Proof. unfold evidence_agrees, evidence_wire. cbn -[same_text]. agrees. Qed.

Section packets.
Variable blake3 : list Z -> ContentDigest.

Lemma built_identity_agrees m digest :
  identity_agrees (with_packet_digest (to_hex digest) (assignment_wire blake3 m)) (domain_packet m digest)
    (cm_kernel_build_id (pm_campaign m)) digest = true.
Proof.
  unfold identity_agrees. cbn -[same_text]. rewrite !Z.eqb_refl, !same_text_refl, !bool_decide_true by done.
  by destruct (pm_target m).
Qed.

Lemma built_packet_maps m digest :
  packet_typed (domain_packet m digest) -> Forall is_byte (pm_policy_bytes m) ->
  verify_wire_domain_mapping (with_packet_digest (to_hex digest) (assignment_wire blake3 m))
    (domain_packet m digest) = Ok tt.
Proof.
  intros [_ _ _ Hdigests _ _ _] Hpolicy. rewrite !Forall_cons in Hdigests. destruct Hdigests as (Hb & Hp & _ & Hd & _). cbn in Hb, Hp, Hd.
  unfold verify_wire_domain_mapping, packet_digest_text, policy_entrypoint_text.
  eapply run_bind; [by apply run_map_err, digest_back|].
  eapply run_bind; [apply run_map_err; cbn; by apply digest_back|].
  eapply run_bind; [apply require_run, built_identity_agrees|].
  eapply run_bind; [apply require_run, model_wire_agrees|].
  eapply run_bind; [apply require_run; unfold session_agrees; cbn -[same_text]; agrees|].
  eapply run_bind; [apply require_run, same_text_refl|].
  eapply run_bind; [apply ok_or_Ok, base64_decoded, Hpolicy|].
  eapply run_bind; [by apply run_map_err, digest_back|].
  eapply run_bind; [cbn; by destruct (ap_entrypoint _)|].
  eapply run_bind; [apply require_run; cbn; destruct (ap_entrypoint _); agrees|].
  eapply run_bind.
  { apply require_run. apply andb_true_intro. split; apply pairwise_fmap; [apply read_wire_agrees|].
    by intros []. }
  apply require_run, pairwise_fmap, evidence_wire_agrees.
Qed.

(** * The wire checks imply the domain checks *)

Lemma role_names_nodup l : NoDup (aew_role <$> (evidence_wire <$> l)) -> NoDup (ev_role <$> l).
Proof.
  intros H. rewrite <- list_fmap_compose in H. apply (NoDup_fmap_1 wire_name).
  by rewrite <- list_fmap_compose.
Qed.

Lemma read_paths_nodup l : NoDup (arr_path <$> (read_wire <$> l)) -> NoDup (rx_path <$> l).
Proof. by rewrite <- list_fmap_compose. Qed.

Lemma office_product target :
  bool_decide (office_name (office_for_target target) = "product_research"%string)
  = bool_decide (office_for_target target = ProductResearch).
Proof. by destruct target. Qed.

Lemma empty_fmap {A B} (f : A -> B) l : is_empty (f <$> l) = is_empty l.
Proof. by destruct l. Qed.

Lemma read_valid r : validate_read (read_wire r) = Ok tt -> read_exact_validate r = Ok tt.
Proof.
  unfold validate_read, read_exact_validate, bounded_packet_text. intros E.
  apply bind_Ok in E as (? & _ & E). apply bind_Ok in E as (? & _ & E). apply require_Ok in E.
  apply require_run. exact E.
Qed.

Lemma policy_decoded bytes decoded :
  Forall is_byte bytes -> wire_decode_base64 (base64 bytes) = Ok decoded -> decoded = bytes.
Proof.
  intros Hb E. apply accepted_Ok in E. rewrite wire_canonical in E. apply prompt_canonical in E.
  rewrite base64_decoded in E by done. congruence.
Qed.

Lemma digest_texts_equal d d' : digest_wf d -> digest_wf d' -> to_hex d = to_hex d' -> d = d'.
Proof. intros H H' E. apply digest_back in H, H'. rewrite E in H. congruence. Qed.

Lemma seen_run {A K} `{EqDecision K} {E} (key : A -> K) (e : E) (before after : A -> result E unit) l :
  Forall (fun a => before a = Ok tt /\ after a = Ok tt) l -> NoDup (key <$> l) ->
  for_each_seen key e before after [] l = Ok tt.
Proof.
  intros H Hn. apply for_each_seen_Ok. split; [|done].
  eapply Forall_impl; [exact H|]. intros a [? ?]. split_and!; [done..|]. apply not_elem_of_nil.
Qed.

(** ** Stage by stage *)

Section stages.
Variable m : PacketMaterial.

Lemma built_target digest :
  validate_target (assignment_wire blake3 m) = Ok tt ->
  negb (is_empty (string_bytes (pkt_target (domain_packet m digest))) || (4096 <? string_len (pkt_target (domain_packet m digest)))
        || contains_byte 0 (pkt_target (domain_packet m digest))) = true /\
  target_shape (pkt_assignment_role (domain_packet m digest)) (some (pkt_ticket_attempt_id (domain_packet m digest)))
    (some (pkt_candidate_id (domain_packet m digest))) = true.
Proof.
  unfold validate_target, bounded_packet_text. intros E. ok_inv E. split; [done|].
  cbn. by destruct (pm_target m).
Qed.

Lemma built_limits digest :
  validate_session_shape (assignment_wire blake3 m) = Ok tt ->
  negb (bad_session_limits (pkt_limits (domain_packet m digest))) = true /\
  negb (is_empty (pkt_required_reads (domain_packet m digest))) = true.
Proof.
  unfold validate_session_shape. intros E. ok_inv E. split; [done|].
  match goal with E : negb (is_empty (apw_required_reads _) || _ || _) = true |- _ =>
    cbn [assignment_wire apw_required_reads] in E; rewrite empty_fmap in E; cbn [domain_packet pkt_required_reads];
    by destruct (is_empty (pm_required_reads m)) end.
Qed.

Lemma built_policy digest :
  (forall l, digest_wf (blake3 l)) -> digest_wf (ap_digest (rp_policy (pm_profile m))) ->
  Forall is_byte (pm_policy_bytes m) -> validate_policy_source blake3 (assignment_wire blake3 m) = Ok tt ->
  let p := domain_packet m digest in
  negb ((pkt_policy_byte_limit p =? 0) || (MAX_POLICY_ARTIFACT_BYTES <? pkt_policy_byte_limit p)) = true /\
  negb (is_empty (pkt_policy_bytes p)
        || (pkt_policy_byte_limit p <? Z.of_nat (length (pkt_policy_bytes p)))) = true /\
  negb (has_nul (pkt_policy_bytes p) || negb (utf8_valid (pkt_policy_bytes p))) = true /\
  bool_decide (blake3 (pkt_policy_bytes p) = pkt_policy_digest p) = true.
Proof.
  intros Hhash Hd Hb E. unfold validate_policy_source in E. ok_inv E.
  match goal with E : wire_decode_base64 _ = Ok _ |- _ => apply policy_decoded in E; [subst|done] end.
  cbn [domain_packet pkt_policy_byte_limit pkt_policy_bytes pkt_policy_digest]. split_and!; [done..| |].
  - by rewrite orb_comm.
  - apply bool_decide_eq_true. apply digest_texts_equal; [done..|].
    match goal with E : bool_decide (to_hex _ = _) = true |- _ => apply bool_decide_eq_true in E; exact E end.
Qed.

Lemma built_references digest :
  validate_references (assignment_wire blake3 m) = Ok tt ->
  let p := domain_packet m digest in
  let product := bool_decide (pkt_assignment_role p = ProductResearch) in
  (Z.of_nat (length (pkt_assignment_evidence p)) <=? 24) = true /\
  negb (product && negb (is_empty (pkt_assignment_evidence p))) = true /\
  negb (negb product && is_empty (pkt_assignment_evidence p)) = true /\
  NoDup (ev_role <$> pkt_assignment_evidence p) /\
  Forall (fun r => read_exact_validate r = Ok tt) (pkt_required_reads p) /\
  NoDup (rx_path <$> pkt_required_reads p).
Proof.
  unfold validate_references. intros E. ok_inv E.
  repeat match goal with Hs : for_each_seen _ _ _ _ _ _ = Ok _ |- _ => apply for_each_seen_Ok in Hs as [? ?] end.
  cbn [assignment_wire apw_assignment_evidence apw_required_reads apw_assignment_role] in *.
  rewrite ?length_fmap, ?empty_fmap, ?office_product in *.
  cbn [domain_packet pkt_assignment_evidence pkt_required_reads pkt_assignment_role].
  split_and!; try done.
  - by apply role_names_nodup.
  - match goal with E : Forall _ ?l |- Forall _ ?l' => apply (Forall_fmap read_wire) in E;
      eapply Forall_impl; [exact E|] end.
    intros r (_ & Hr & _). by apply read_valid.
  - by apply read_paths_nodup.
Qed.

Lemma built_runtime digest :
  validate_runtime (apw_runtime (assignment_wire blake3 m)) = Ok tt -> runtime_validate (pkt_runtime (domain_packet m digest)) = Ok tt.
Proof.
  unfold validate_runtime, bounded_packet_text, validate_credential_environment. intros E. ok_inv E.
  unfold runtime_validate, credential_validate.
  eapply run_bind; [by apply require_run|]. eapply run_bind; [by apply require_run|].
  by apply require_run.
Qed.

Lemma built_packet_valid digest :
  (forall l, digest_wf (blake3 l)) -> packet_typed (domain_packet m digest) -> Forall is_byte (pm_policy_bytes m) ->
  validate_assignment_packet_wire_v2 blake3 (assignment_wire blake3 m) true = Ok tt -> packet_validate blake3 (domain_packet m digest) = Ok tt.
Proof.
  intros Hhash [_ _ _ Hdigests _ _ _] Hpolicy E. rewrite !Forall_cons in Hdigests.
  destruct Hdigests as (_ & Hp & _). unfold validate_assignment_packet_wire_v2 in E.
  repeat match goal with E : mbind _ _ = Ok _ |- _ => apply bind_Ok in E as ([] & ? & E) end.
  destruct (built_target digest) as [? ?]; [done|]. destruct (built_limits digest) as [? ?]; [done|].
  destruct (built_policy digest) as (? & ? & ? & ?); [done..|].
  destruct (built_references digest) as (? & ? & ? & ? & ? & ?); [done|].
  unfold packet_validate.
  repeat first [by apply built_runtime | eapply run_bind; [by apply require_run|]
    | eapply run_bind; [apply seen_run; [|done]|]].
  all: try (apply Forall_true; done).
  - eapply Forall_impl; [eassumption|]. done.
  - eapply run_bind; [by apply require_run; cbn; destruct (pm_target m)|]. by apply built_runtime.
Qed.
End stages.
End packets.

(** * The runtime's packet is admitted *)

Section admitted.
Variable blake3 : list Z -> ContentDigest.
Variable maximum_object_bytes : Z.
Context {R : BundleReader} {J : WireBundle.Json AssignmentPacketWireV2} `{!LawfulPacketCodec R J}.

Lemma seal_packet_Ok m packet bytes :
  seal_packet blake3 m = Ok (packet, bytes) ->
  exists digest, packet = domain_packet m digest /\
    unsigned_assignment_packet_digest_v2 blake3 (assignment_wire blake3 m) = Ok digest /\
    canonical_assignment_packet_json_v2 blake3 (with_packet_digest (to_hex digest) (assignment_wire blake3 m))
      = Ok bytes.
Proof. unfold seal_packet. intros E. ok_inv E. by eexists. Qed.

Lemma unsigned_digest_Ok p digest :
  packet_value p -> apw_packet_digest p = ""%string ->
  unsigned_assignment_packet_digest_v2 blake3 p = Ok digest ->
  validate_assignment_packet_wire_v2 blake3 p true = Ok tt.
Proof.
  intros Hp Hd E. unfold unsigned_assignment_packet_digest_v2 in E. apply fmap_Ok in E as (t & E & _).
  rewrite <- Hd, with_own_digest in E. by eapply canonical_packet_text in E as [_ ?].
Qed.

(** C29: The packet the runtime seals passes every check of the process store: from
    bytes that read back, [create_assignment] admits the command built for them,
    and a restart reads the same packet from the disk as it then is. *)
Theorem runtime_packet_admitted d request m packet bytes artifact :
  (forall l, digest_wf (blake3 l)) -> packet_value (assignment_wire blake3 m) -> packet_typed packet ->
  Forall is_byte (pm_policy_bytes m) ->
  seal_packet blake3 m = Ok (packet, bytes) ->
  validate_command (amr_principal request) (amr_command_id request) = Ok tt ->
  read_object blake3 maximum_object_bytes (cas_digest artifact) d = Ok bytes ->
  exists w, admit_packet blake3 maximum_object_bytes d (prepared_assignment request m packet bytes artifact) = Ok w /\
    verified_wire blake3 bytes (pkt_packet_digest packet) = Ok w.
Proof.
  intros Hhash Hvalue Htyped Hpolicy (digest & -> & Hd & Ht)%seal_packet_Ok Hcommand Hread.
  assert (Hwf : digest_wf digest).
  { destruct Htyped as [_ _ _ H _ _ _]. rewrite !Forall_cons in H. apply H. }
  pose proof (unsigned_digest_Ok _ _ Hvalue eq_refl Hd) as Hwire.
  pose proof (sealed_packet_verifies _ _ _ _ Hvalue Hwf Hd Ht) as Hverify.
  exists (with_packet_digest (to_hex digest) (assignment_wire blake3 m)).
  assert (Hverified : verified_wire blake3 bytes digest
    = Ok (with_packet_digest (to_hex digest) (assignment_wire blake3 m))) by (by apply run_map_err).
  split; [|exact Hverified]. unfold admit_packet, admitted, packet_object, verify_seal.
  eapply run_bind; [exact Hcommand|]. eapply run_bind; [by apply run_map_err, built_packet_valid|].
  eapply run_bind; [exact Hverified|].
  eapply run_bind; [by apply require_run, andb_true_intro; split; apply Z.eqb_refl|].
  eapply run_bind; [by apply built_packet_maps|].
  cbn [pa_packet_artifact prepared_assignment pa_packet_bytes]. rewrite Hread. cbn [mbind result_bind map_err].
  eapply run_bind; [by apply require_run, bool_decide_eq_true|]. done.
Qed.
End admitted.
