(* ===== verification/PacketReader.v ===== *)
(** A codec of the packet's JSON to run the wire layer with, in the place of
    miniserde, and the proof that it is lawful ([PacketCanonical]). *)
From S2P Require Import Prelude Values Contracts Application Json WireBundle Canonical WireReader.
From S2P Require Import Packet PacketCanonical.

#[local] Open Scope string_scope.

Definition as_number (v : json) : option Z := match v with JNumber z => Some z | _ => None end.

Definition as_packet_model (v : json) : option AssignmentModelWireV2 :=
  flags ← field "capability_flags" as_texts v; context ← field "context_token_limit" as_number v;
  id ← field "model_id" as_text v; output ← field "output_token_limit" as_number v;
  cache_read ← field "price_cache_read_micro_usd_per_million_tokens" as_number v;
  cache_write ← field "price_cache_write_micro_usd_per_million_tokens" as_number v;
  input ← field "price_input_micro_usd_per_million_tokens" as_number v;
  out ← field "price_output_micro_usd_per_million_tokens" as_number v;
  provider ← field "provider" as_text v; level ← field "thinking_level" as_text v;
  Some {| amw_provider := provider; amw_model_id := id; amw_thinking_level := level;
          amw_context_token_limit := context; amw_output_token_limit := output;
          amw_price_input := input; amw_price_output := out; amw_price_cache_read := cache_read;
          amw_price_cache_write := cache_write; amw_capability_flags := flags |}.

Definition as_packet_limits (v : json) : option AssignmentLimitsWireV2 :=
  output ← field "output_byte_limit" as_number v; wall ← field "wall_limit_millis" as_number v;
  Some {| alw_wall_limit_millis := wall; alw_output_byte_limit := output |}.

Definition as_packet_runtime (v : json) : option AssignmentRuntimeWireV2 :=
  head ← field "core_head" as_text v; source ← field "core_source_digest" as_text v;
  credential ← field "credential_env" as_text v; host ← field "host_executable" as_text v;
  toolchain ← field "rust_toolchain" as_text v;
  Some {| arw_host_executable := host; arw_core_head := head; arw_core_source_digest := source;
          arw_rust_toolchain := toolchain; arw_credential_env := credential |}.

Definition as_packet_read (v : json) : option AssignmentReadWireV2 :=
  digest ← field "digest" as_text v; path ← field "path" as_text v; reason ← field "reason" as_text v;
  Some {| arr_path := path; arr_digest := digest; arr_reason := reason |}.

Definition as_packet_evidence (v : json) : option AssignmentEvidenceWireV2 :=
  id ← field "artifact_id" as_number v; length ← field "byte_length" as_number v;
  digest ← field "digest" as_text v; role ← field "role" as_text v;
  Some {| aew_role := role; aew_artifact_id := id; aew_digest := digest; aew_byte_length := length |}.

Definition as_packet (v : json) : option AssignmentPacketWireV2 :=
  revision ← field "aggregate_revision" as_number v;
  application ← field "application_revision_id" as_number v;
  evidence ← field "assignment_evidence" (as_list as_packet_evidence) v;
  assignment ← field "assignment_id" as_number v;
  prompt_id ← field "assignment_prompt_artifact_id" as_number v;
  prompt ← field "assignment_prompt_bytes_b64" as_text v;
  prompt_digest ← field "assignment_prompt_digest" as_text v;
  role ← field "assignment_role" as_text v;
  campaign ← field "campaign_id" as_number v;
  candidate ← optional "candidate_id" as_number v;
  factory ← field "factory_base_identity" as_text v;
  version ← field "format_version" as_number v;
  build ← field "kernel_build_id" as_text v;
  limits ← field "limits" as_packet_limits v;
  model ← field "model" as_packet_model v;
  digest ← field "packet_digest" as_text v;
  policy_limit ← field "policy_byte_limit" as_number v;
  policy ← field "policy_bytes_b64" as_text v;
  policy_digest ← field "policy_digest" as_text v;
  entrypoint ← field "policy_entrypoint" as_text v;
  allowance ← field "remaining_campaign_allowance_micro_usd" as_number v;
  repository ← field "repository_base_identity" as_text v;
  manifest ← field "required_read_manifest_artifact_id" as_number v;
  reads ← field "required_reads" (as_list as_packet_read) v;
  runtime ← field "runtime" as_packet_runtime v;
  staging ← field "staging_root" as_text v;
  system_id ← field "system_prompt_artifact_id" as_number v;
  system ← field "system_prompt_bytes_b64" as_text v;
  system_digest ← field "system_prompt_digest" as_text v;
  target ← field "target" as_text v;
  operations ← field "terminal_operations" as_texts v;
  attempt ← optional "ticket_attempt_id" as_number v;
  tools ← field "tools" as_texts v;
  workspace ← field "workspace_root" as_text v;
  Some (Build_AssignmentPacketWireV2 version campaign assignment application build role target repository
    factory attempt candidate system_id prompt_id manifest system_digest prompt_digest system prompt
    policy_digest policy_limit policy entrypoint workspace staging model limits runtime reads evidence
    tools operations allowance revision digest).

#[local] Close Scope string_scope.

Definition whole_packet (p : AssignmentPacketWireV2) : bool := sized_packet p && strings_valid (packet_tree p).

#[export] Instance reference_packets : WireBundle.Json AssignmentPacketWireV2 := {|
  from_str text := p ← read_json text ≫= as_packet; if whole_packet p then Some p else None;
  to_string p := json_text (packet_tree p);
|}.

(** * It is lawful *)

Ltac packet_fields := unfold field, optional, member; cbn -[as_text as_texts as_list as_number strings_tree
  packet_model_tree packet_limits_tree packet_runtime_tree packet_read_tree packet_evidence_tree
  as_packet_model as_packet_limits as_packet_runtime as_packet_read as_packet_evidence];
  rewrite ?texts_read.

Lemma packet_model_read m : as_packet_model (packet_model_tree m) = Some m.
Proof. unfold as_packet_model, packet_model_tree. packet_fields. by destruct m. Qed.

Lemma packet_limits_read l : as_packet_limits (packet_limits_tree l) = Some l.
Proof. by destruct l. Qed.

Lemma packet_runtime_read r : as_packet_runtime (packet_runtime_tree r) = Some r.
Proof. by destruct r. Qed.

Lemma packet_tree_read p : as_packet (packet_tree p) = Some p.
Proof.
  unfold as_packet, packet_tree. packet_fields.
  rewrite packet_model_read, packet_limits_read, packet_runtime_read.
  rewrite (mapM_trees packet_read_tree) by (by intros []).
  rewrite (mapM_trees packet_evidence_tree) by (by intros []).
  destruct p as [????????? [attempt|] [candidate|]]; reflexivity.
Qed.

Lemma packet_tree_ascends p : keys_ascend (packet_tree p) = true.
Proof.
  assert (Hm : forall m, keys_ascend (packet_model_tree m) = true).
  { intros m. apply object_ascends; [reflexivity|]. repeat constructor. apply strings_ascend. }
  unfold packet_tree. apply object_ascends; [reflexivity|].
  repeat (apply Forall_cons_2; [first [exact I|reflexivity|apply strings_ascend|apply Hm|apply array_ascends; by intros []
    |apply option_ascends; done]|]); constructor.
Qed.

#[export] Instance reference_packets_lawful : LawfulPacketCodec reference_reader reference_packets.
Proof.
  split.
  - intros p [_ Hs]. split; [by apply text_utf8|]. apply rewrites_ordered, packet_tree_ascends.
  - intros p [Hn Hs]. cbn [from_str reference_packets]. rewrite read_json_text. cbn [mbind option_bind]. rewrite packet_tree_read. cbn [mbind option_bind].
    unfold whole_packet. by rewrite Hn, Hs.
  - intros text p _ E. cbn in E. apply bind_Some in E as (q & _ & E). unfold whole_packet in E.
    destruct (sized_packet q) eqn:Hn; [|done]. destruct (strings_valid (packet_tree q)) eqn:Hs; [|done].
    cbn in E. injection E as <-. done.
Qed.
