(* ===== verification/Storage.v ===== *)
(** The bootstrap authority: kernel builds, repositories and artifacts, their
    status reads, and the restore gate the daemon passes before it serves
    ([crates/factory-kernel/src/storage.rs], [KernelStore]).

    Every command ends with one audit receipt under its principal and command
    id, like those of the other stores. *)
From S2P Require Import Prelude Values Database Cas Application.
From S2P Require TicketStore.

Definition SCHEMA_IDENTITY : string := "factory-v3-schema:authority-v5".

Definition KERNEL_BUILD_SUBJECT : Z := 0.
Definition APPLICATION_REVISION_SUBJECT : Z := 1.
Definition REPOSITORY_SUBJECT : Z := 2.
Definition ARTIFACT_SUBJECT : Z := 3.

Definition INSTALL_KERNEL_BUILD_OPERATION : string := "kernel_build.install".
Definition ADMIT_APPLICATION_REVISION_OPERATION : string := "application_revision.admit".
Definition ACTIVATE_APPLICATION_REVISION_OPERATION : string := "application_revision.activate".
Definition REGISTER_REPOSITORY_OPERATION : string := "repository.register".
Definition REGISTER_ARTIFACT_OPERATION : string := "artifact.register".

(** The variants of [StoreError] this store returns. *)
Inductive StorageError :=
  | Contract (e : ContractError)
  | CasFailure (e : CasError)
  | DatabaseError (constraint : string)
  | RestoreAuditInconsistent
  | RestoreAuditSubjectInvalid (audit_log_id subject_kind subject_id : Z)
  | RestoreArtifactPathMismatch (digest : ContentDigest)
  | RestoreArtifactLengthMismatch (digest : ContentDigest) (expected observed : Z)
  | SchemaIdentityMismatch (observed : option string)
  | RevisionConflict (expected current : Z)
  | RevisionOutOfRange
  | IdempotencyConflict (principal command_id : string)
  | AuditSubjectKindMismatch
  | InvalidCommandComponent (field : string)
  | InvalidAbsolutePath (field : string)
  | InvalidDefaultBranch
  | InstalledSchemaIdentityMismatch
  | QualificationReceiptChanged
  | ArtifactSealChanged
  | ArtifactLengthOutOfRange
  | ArtifactIdentityConflict (digest : ContentDigest)
  | UnknownKernelBuild (kernel_build_id : ContentDigest)
  | UnknownKernelBuildRevision (expected_revision : Z)
  | RepositoryAlreadyRegistered (repository_key : string)
  | RepositoryBindingMismatch
  | BundlePredecessorMismatch
  | InvalidApplicationSourceRoot
  | InvalidApplicationBundle
  | InvalidApplicationPolicy
  | ApplicationBundleDigestMismatch
  | ApplicationTemplateDigestMismatch (path : string)
  | ApplicationPolicyDigestMismatch (path : string)
  | ApplicationTemplateCountMismatch
  | InvalidTemplateUtf8 (path : string)
  | InvalidTemplateSyntax (path : string)
  | InvalidTemplatePlaceholder (path : string)
  | MissingTemplatePlaceholder (path : string)
  | UnknownApplicationRevision (application_revision_id : Z)
  | UnknownApplicationRevisionForKey (application_key : string)
      (application_revision_id : option Z)
  | ApplicationActivationCampaignRunning (campaign_id : Z)
  | ApplicationActivationRationaleMismatch.

(** * Shared checks *)

Definition contract {A} (r : result ContractError A) : result StorageError A := map_err Contract r.
Definition db_result {A} (r : result string A) : result StorageError A := map_err DatabaseError r.
Definition new_id (kind : string) (value : Z) : result StorageError Z :=
  contract (identifier_new kind value).
Definition next_revision (r : Z) : result StorageError Z := contract (revision_next r).

Definition validate_command_component (field value : string) : result StorageError unit :=
  require (TicketStore.command_component value) (InvalidCommandComponent field).

Definition validate_text (field value : string) (maximum : Z) : result StorageError unit :=
  require (TicketStore.bounded_text value maximum) (InvalidCommandComponent field).

Definition aggregate_revision_from_sql (value : Z) : result StorageError Z :=
  if value <? 0 then Err RevisionOutOfRange else Ok value.

Definition revision_to_sql (value : Z) : result StorageError Z :=
  if i64_max <? value then Err RevisionOutOfRange else Ok value.

Definition length_to_sql (value : Z) : result StorageError Z :=
  if i64_max <? value then Err ArtifactLengthOutOfRange else Ok value.

Definition require_expected (expected current : Z) : result StorageError unit :=
  require (expected =? current) (RevisionConflict expected current).

Definition hash_string (value : string) : list Z := be_bytes 8 (string_len value) ++ string_bytes value.

(** * Audit receipts *)

Record AuditReceipt := {
  receipt_audit_log_id : Z;
  receipt_subject_kind : Z;
  receipt_subject_id : Z;
  receipt_resulting_revision : Z;
}.

Definition find_idempotent_audit (db : Database) (principal command_id expected_operation : string)
    (fingerprint : ContentDigest) : result StorageError (option AuditReceipt) :=
  match audit_log db !! (principal, command_id) with
  | None => Ok None
  | Some row =>
      require (bool_decide (al_operation row = expected_operation)
               && bool_decide (al_command_fingerprint row = fingerprint))
        (IdempotencyConflict principal command_id) ;;
      resulting_revision ← aggregate_revision_from_sql (al_resulting_revision row);
      Ok (Some {|
        receipt_audit_log_id := al_id row;
        receipt_subject_kind := al_subject_kind row;
        receipt_subject_id := al_subject_id row;
        receipt_resulting_revision := resulting_revision |})
  end.

Definition insert_audit_receipt (db : Database) (principal command_id operation : string)
    (fingerprint : ContentDigest) (subject_kind subject_id resulting_revision : Z)
  : result StorageError (Z * Database) :=
  sql ← revision_to_sql resulting_revision;
  db_result (insert_audit_row principal command_id (fun id => {|
    al_id := id;
    al_operation := operation;
    al_command_fingerprint := fingerprint;
    al_subject_kind := subject_kind;
    al_subject_id := subject_id;
    al_resulting_revision := sql |}) db).

Definition require_subject_kind (receipt : AuditReceipt) (expected : Z) : result StorageError unit :=
  require (receipt_subject_kind receipt =? expected) AuditSubjectKindMismatch.

(** * Tables *)

(** [SELECT ... FROM factory.artifacts WHERE digest = $1] *)
Definition artifact_by_digest (db : Database) (digest : ContentDigest) : option (Z * ArtifactRow) :=
  head (rows_where (fun _ row => bool_decide (art_digest row = digest)) (artifacts db)).

(** [UNIQUE (digest)] and [UNIQUE (cas_relative_path)] *)
Definition insert_artifact (id : Z) (row : ArtifactRow) (db : Database) : result string Database :=
  require (negb (exists_where (fun _ other => bool_decide (art_digest other = art_digest row))
    (artifacts db))) "artifacts_digest_key"%string ;;
  require (negb (exists_where (fun _ other =>
    bool_decide (art_cas_relative_path other = art_cas_relative_path row)) (artifacts db)))
    "artifacts_cas_relative_path_key"%string ;;
  Ok (set_artifacts (<[id := row]> (artifacts db)) db).

Definition build_by_digest (db : Database) (digest : ContentDigest) : option (Z * KernelBuildRow) :=
  head (rows_where (fun _ row => bool_decide (kb_build_digest row = digest)) (kernel_builds db)).

(** [UPDATE factory.kernel_builds SET is_current = FALSE WHERE is_current] *)
Definition retire_builds (db : Database) : Database :=
  set_kernel_builds ((fun row => {|
    kb_build_digest := kb_build_digest row;
    kb_qualification_receipt_artifact_id := kb_qualification_receipt_artifact_id row;
    kb_is_current := false;
    kb_revision := kb_revision row |}) <$> kernel_builds db) db.

(** [UNIQUE (build_digest)] and [kernel_builds_one_current] *)
Definition insert_kernel_build (id : Z) (row : KernelBuildRow) (db : Database)
  : result string Database :=
  require (negb (exists_where (fun _ other =>
    bool_decide (kb_build_digest other = kb_build_digest row)) (kernel_builds db)))
    "kernel_builds_build_digest_key"%string ;;
  require (negb (kb_is_current row && exists_where (fun _ other => kb_is_current other)
    (kernel_builds db))) "kernel_builds_one_current"%string ;;
  Ok (set_kernel_builds (<[id := row]> (kernel_builds db)) db).

Definition repository_by_key (db : Database) (key : string) : option (Z * RepositoryRow) :=
  head (rows_where (fun _ row => bool_decide (repo_key row = key)) (repositories db)).

(** [UNIQUE (repository_key)] and [UNIQUE (canonical_local_path)] *)
Definition insert_repository (row : RepositoryRow) (db : Database) : result string (Z * Database) :=
  let id := fresh_id (repositories db) in
  require (negb (exists_where (fun _ other => bool_decide (repo_key other = repo_key row))
    (repositories db))) "repositories_repository_key_key"%string ;;
  require (negb (exists_where (fun _ other =>
    bool_decide (repo_canonical_local_path other = repo_canonical_local_path row))
    (repositories db))) "repositories_canonical_local_path_key"%string ;;
  Ok (id, set_repositories (<[id := row]> (repositories db)) db).

(** * Commands and receipts *)

Record InstallKernelBuild := {
  ikb_principal : string;
  ikb_command_id : string;
  ikb_expected_revision : Z;
  ikb_build_id : ContentDigest;
  ikb_source_digest : ContentDigest;
  ikb_binary_digest : ContentDigest;
  ikb_schema_identity : string;
  ikb_host_executable_path : string;
  ikb_core_head : string;
  ikb_core_source_digest : ContentDigest;
  ikb_rust_toolchain : string;
  ikb_qualification_receipt : CasArtifact;
}.

Definition is_lower_hex_digit (b : Z) : bool := is_ascii_digit b || ((97 <=? b) && (b <=? 102)).

Definition install_validate (c : InstallKernelBuild) : result StorageError unit :=
  validate_command_component "principal" (ikb_principal c) ;;
  validate_command_component "command ID" (ikb_command_id c) ;;
  validate_text "schema identity" (ikb_schema_identity c) 160 ;;
  require (bool_decide (ikb_schema_identity c = SCHEMA_IDENTITY)) InstalledSchemaIdentityMismatch ;;
  require (starts_with_byte 47 (ikb_host_executable_path c))
    (InvalidAbsolutePath "Rust host executable path") ;;
  validate_text "Rust host executable path" (ikb_host_executable_path c) 4096 ;;
  require ((string_len (ikb_core_head c) =? 40)
           && forallb is_lower_hex_digit (string_bytes (ikb_core_head c)))
    (InvalidCommandComponent "Tea HEAD") ;;
  validate_text "Rust toolchain" (ikb_rust_toolchain c) 240.

Definition install_preimage (c : InstallKernelBuild) : list Z :=
  string_bytes INSTALL_KERNEL_BUILD_OPERATION ++ hash_string (ikb_principal c)
  ++ hash_string (ikb_command_id c) ++ be_bytes 8 (ikb_expected_revision c)
  ++ ikb_build_id c ++ ikb_source_digest c ++ ikb_binary_digest c
  ++ hash_string (ikb_schema_identity c) ++ hash_string (ikb_host_executable_path c)
  ++ hash_string (ikb_core_head c) ++ ikb_core_source_digest c
  ++ hash_string (ikb_rust_toolchain c) ++ cas_digest (ikb_qualification_receipt c)
  ++ be_bytes 8 (cas_byte_length (ikb_qualification_receipt c)).

Record KernelBuildReceipt := {
  kbr_kernel_build_id : ContentDigest;
  kbr_resulting_revision : Z;
  kbr_audit_log_id : Z;
  kbr_was_idempotent_retry : bool;
}.

Record RegisterRepository := {
  rr_principal : string;
  rr_command_id : string;
  rr_expected_revision : Z;
  rr_repository_key : string;
  rr_canonical_local_path : string;
  rr_default_branch : string;
}.

Definition repository_command_validate (c : RegisterRepository) : result StorageError unit :=
  validate_command_component "principal" (rr_principal c) ;;
  validate_command_component "command ID" (rr_command_id c) ;;
  validate_text "repository key" (rr_repository_key c) 160 ;;
  require (starts_with_byte 47 (rr_canonical_local_path c)) (InvalidAbsolutePath "repository path") ;;
  validate_text "repository path" (rr_canonical_local_path c) 4096 ;;
  validate_text "default branch" (rr_default_branch c) 240 ;;
  require (negb (unsafe_branch (rr_default_branch c))) InvalidDefaultBranch.

Definition repository_preimage (c : RegisterRepository) : list Z :=
  string_bytes REGISTER_REPOSITORY_OPERATION ++ hash_string (rr_principal c)
  ++ hash_string (rr_command_id c) ++ be_bytes 8 (rr_expected_revision c)
  ++ hash_string (rr_repository_key c) ++ hash_string (rr_canonical_local_path c)
  ++ hash_string (rr_default_branch c).

Record RepositoryReceipt := {
  rpr_repository_id : Z;
  rpr_resulting_revision : Z;
  rpr_audit_log_id : Z;
  rpr_was_idempotent_retry : bool;
}.

Record RegisterArtifact := {
  ra_principal : string;
  ra_command_id : string;
  ra_expected_kernel_build_revision : Z;
  ra_kernel_build_id : ContentDigest;
  ra_sealed : CasArtifact;
}.

Definition artifact_command_validate (c : RegisterArtifact) : result StorageError unit :=
  validate_command_component "principal" (ra_principal c) ;;
  validate_command_component "command ID" (ra_command_id c).

Definition artifact_preimage (c : RegisterArtifact) : list Z :=
  string_bytes REGISTER_ARTIFACT_OPERATION ++ hash_string (ra_principal c)
  ++ hash_string (ra_command_id c) ++ be_bytes 8 (ra_expected_kernel_build_revision c)
  ++ ra_kernel_build_id c ++ cas_digest (ra_sealed c) ++ be_bytes 8 (cas_byte_length (ra_sealed c)).

Record ArtifactReceipt := {
  atr_artifact_id : Z;
  atr_audit_log_id : Z;
  atr_was_idempotent_retry : bool;
  atr_was_reused : bool;
}.

(** * Operations

    [disk] is what the store reads of the content-addressed store when a command
    verifies a seal, before its transaction. *)

Section Operations.
Variable blake3 : list Z -> ContentDigest.
Variable maximum_object_bytes : Z.

Definition cas_verify (d : Disk) (digest : ContentDigest) : result StorageError CasArtifact :=
  map_err CasFailure (verify_seal blake3 maximum_object_bytes digest d).

Definition cas_path (digest : ContentDigest) : result StorageError string :=
  map_err CasFailure (object_relative_path digest).

(** The existing artifact of a digest must have its length and path. *)
Definition require_artifact_identity (digest : ContentDigest) (byte_length : Z) (path : string)
    (row : ArtifactRow) : result StorageError unit :=
  require ((art_byte_length row =? byte_length)
           && bool_decide (art_cas_relative_path row = path)) (ArtifactIdentityConflict digest).

Definition current_build_revision (db : Database) : Z :=
  foldr Z.max 0 ((fun kv => kb_revision kv.2) <$> map_to_list (kernel_builds db)).

(** The artifact of the qualification receipt, which the build and its receipt
    may share with an earlier command. *)
Definition qualification_artifact (db : Database) (qualification : CasArtifact) (path : string)
  : result StorageError (option Z) :=
  match artifact_by_digest db (cas_digest qualification) with
  | Some (id, row) =>
      expected_length ← length_to_sql (cas_byte_length qualification);
      require_artifact_identity (cas_digest qualification) expected_length path row ;;
      Ok (Some id)
  | None => Ok None
  end.

Definition install_kernel_build (d : Disk) (db : Database) (command : InstallKernelBuild)
  : result StorageError (KernelBuildReceipt * Database) :=
  install_validate command ;;
  qualification ← cas_verify d (cas_digest (ikb_qualification_receipt command));
  require (bool_decide (qualification = ikb_qualification_receipt command))
    QualificationReceiptChanged ;;
  let fingerprint := blake3 (install_preimage command) in
  receipt ← find_idempotent_audit db (ikb_principal command) (ikb_command_id command)
              INSTALL_KERNEL_BUILD_OPERATION fingerprint;
  match receipt with
  | Some receipt =>
      require_subject_kind receipt KERNEL_BUILD_SUBJECT ;;
      Ok ({| kbr_kernel_build_id := ikb_build_id command;
             kbr_resulting_revision := receipt_resulting_revision receipt;
             kbr_audit_log_id := receipt_audit_log_id receipt;
             kbr_was_idempotent_retry := true |}, db)
  | None =>
      current_revision ← aggregate_revision_from_sql (current_build_revision db);
      require_expected (ikb_expected_revision command) current_revision ;;
      resulting_revision ← next_revision current_revision;
      qualification_path ← cas_path (cas_digest qualification);
      existing ← qualification_artifact db qualification qualification_path;
      let build_id := fresh_id (kernel_builds db) in
      let qualification_artifact_id := default (fresh_id (artifacts db)) existing in
      resulting_revision ← revision_to_sql resulting_revision;
      db1 ← db_result (insert_kernel_build build_id {|
        kb_build_digest := ikb_build_id command;
        kb_qualification_receipt_artifact_id := qualification_artifact_id;
        kb_is_current := true;
        kb_revision := resulting_revision |} (retire_builds db));
      db2 ← match existing with
            | Some _ => Ok db1
            | None =>
                byte_length ← length_to_sql (cas_byte_length qualification);
                db_result (insert_artifact qualification_artifact_id {|
                  art_digest := cas_digest qualification;
                  art_byte_length := byte_length;
                  art_cas_relative_path := qualification_path;
                  art_creating_kernel_build_id := build_id |} db1)
            end;
      audit ← insert_audit_receipt db2 (ikb_principal command) (ikb_command_id command)
        INSTALL_KERNEL_BUILD_OPERATION fingerprint KERNEL_BUILD_SUBJECT build_id resulting_revision;
      let '(audit_log_id, db3) := audit in
      Ok ({| kbr_kernel_build_id := ikb_build_id command;
             kbr_resulting_revision := resulting_revision;
             kbr_audit_log_id := audit_log_id;
             kbr_was_idempotent_retry := false |}, db3)
  end.

Definition register_repository (db : Database) (command : RegisterRepository)
  : result StorageError (RepositoryReceipt * Database) :=
  repository_command_validate command ;;
  let fingerprint := blake3 (repository_preimage command) in
  receipt ← find_idempotent_audit db (rr_principal command) (rr_command_id command)
              REGISTER_REPOSITORY_OPERATION fingerprint;
  match receipt with
  | Some receipt =>
      require_subject_kind receipt REPOSITORY_SUBJECT ;;
      repository_id ← new_id "repository ID" (receipt_subject_id receipt);
      Ok ({| rpr_repository_id := repository_id;
             rpr_resulting_revision := receipt_resulting_revision receipt;
             rpr_audit_log_id := receipt_audit_log_id receipt;
             rpr_was_idempotent_retry := true |}, db)
  | None =>
      let current := repository_by_key db (rr_repository_key command) in
      current_revision ← match current with
                         | Some (_, row) => aggregate_revision_from_sql (repo_revision row)
                         | None => Ok revision_initial
                         end;
      require_expected (rr_expected_revision command) current_revision ;;
      require (bool_decide (current = None))
        (RepositoryAlreadyRegistered (rr_repository_key command)) ;;
      resulting_revision ← next_revision current_revision;
      sql ← revision_to_sql resulting_revision;
      inserted ← db_result (insert_repository {|
        repo_key := rr_repository_key command;
        repo_canonical_local_path := rr_canonical_local_path command;
        repo_default_branch := rr_default_branch command;
        repo_revision := sql |} db);
      let '(id, db1) := inserted in
      audit ← insert_audit_receipt db1 (rr_principal command) (rr_command_id command)
        REGISTER_REPOSITORY_OPERATION fingerprint REPOSITORY_SUBJECT id resulting_revision;
      let '(audit_log_id, db2) := audit in
      repository_id ← new_id "repository ID" id;
      Ok ({| rpr_repository_id := repository_id;
             rpr_resulting_revision := resulting_revision;
             rpr_audit_log_id := audit_log_id;
             rpr_was_idempotent_retry := false |}, db2)
  end.

Definition register_artifact (d : Disk) (db : Database) (command : RegisterArtifact)
  : result StorageError (ArtifactReceipt * Database) :=
  artifact_command_validate command ;;
  let digest := cas_digest (ra_sealed command) in
  verified ← cas_verify d digest;
  require (bool_decide (verified = ra_sealed command)) ArtifactSealChanged ;;
  let fingerprint := blake3 (artifact_preimage command) in
  byte_length ← length_to_sql (cas_byte_length (ra_sealed command));
  path ← cas_path digest;
  receipt ← find_idempotent_audit db (ra_principal command) (ra_command_id command)
              REGISTER_ARTIFACT_OPERATION fingerprint;
  match receipt with
  | Some receipt =>
      require_subject_kind receipt ARTIFACT_SUBJECT ;;
      artifact_id ← new_id "artifact ID" (receipt_subject_id receipt);
      Ok ({| atr_artifact_id := artifact_id;
             atr_audit_log_id := receipt_audit_log_id receipt;
             atr_was_idempotent_retry := true;
             atr_was_reused := false |}, db)
  | None =>
      '(kernel_build_database_id, build) ← ok_or (build_by_digest db (ra_kernel_build_id command))
        (UnknownKernelBuild (ra_kernel_build_id command));
      build_revision ← aggregate_revision_from_sql (kb_revision build);
      require_expected (ra_expected_kernel_build_revision command) build_revision ;;
      '(artifact_id, was_reused, db1) ←
        match artifact_by_digest db digest with
        | Some (id, existing) =>
            require_artifact_identity digest byte_length path existing ;;
            Ok (id, true, db)
        | None =>
            let id := fresh_id (artifacts db) in
            db1 ← db_result (insert_artifact id {|
              art_digest := digest;
              art_byte_length := byte_length;
              art_cas_relative_path := path;
              art_creating_kernel_build_id := kernel_build_database_id |} db);
            Ok (id, false, db1)
        end;
      audit ← insert_audit_receipt db1 (ra_principal command) (ra_command_id command)
        REGISTER_ARTIFACT_OPERATION fingerprint ARTIFACT_SUBJECT artifact_id build_revision;
      let '(audit_log_id, db2) := audit in
      artifact_id ← new_id "artifact ID" artifact_id;
      Ok ({| atr_artifact_id := artifact_id;
             atr_audit_log_id := audit_log_id;
             atr_was_idempotent_retry := false;
             atr_was_reused := was_reused |}, db2)
  end.

(** * Status reads *)

(** The current build and its revision; a database without builds has none. *)
Definition kernel_build_status (db : Database) : result StorageError (option ContentDigest * Z) :=
  match rows_where (fun _ row => kb_is_current row) (kernel_builds db) with
  | (_, row) :: _ =>
      revision ← aggregate_revision_from_sql (kb_revision row);
      Ok (Some (kb_build_digest row), revision)
  | [] => Ok (None, revision_initial)
  end.

Definition kernel_build_at_revision (db : Database) (expected_revision : Z)
  : result StorageError (ContentDigest * Z) :=
  revision ← revision_to_sql expected_revision;
  '(_, row) ← ok_or (head (rows_where (fun _ row => kb_revision row =? revision) (kernel_builds db)))
    (UnknownKernelBuildRevision expected_revision);
  aggregate_revision ← aggregate_revision_from_sql (kb_revision row);
  Ok (kb_build_digest row, aggregate_revision).

(** [ORDER BY aggregate_revision DESC LIMIT 1] among the revisions of a key. *)
Definition newest_revision (l : list (Z * ApplicationRevisionRow))
  : option (Z * ApplicationRevisionRow) :=
  first_by (fun kv => [- app_aggregate_revision kv.2]) l.

Definition revisions_of (db : Database) (key : string) : list (Z * ApplicationRevisionRow) :=
  rows_where (fun _ row => bool_decide (application_key row = key)) (application_revisions db).

Definition application_status (db : Database) (key : string)
  : result StorageError (option Z * Z) :=
  match newest_revision (revisions_of db key) with
  | Some (id, row) =>
      id ← new_id "application revision ID" id;
      revision ← aggregate_revision_from_sql (app_aggregate_revision row);
      Ok (Some id, revision)
  | None => Ok (None, revision_initial)
  end.

Record ApplicationRevisionView := {
  arv_application_key : string;
  arv_application_revision_id : Z;
  arv_aggregate_revision : Z;
  arv_bundle_artifact_id : Z;
  arv_is_active : bool;
}.

Definition application_revision_view (db : Database) (key : string)
    (application_revision_id : option Z) : result StorageError ApplicationRevisionView :=
  let selected :=
    match application_revision_id with
    | Some id => head (List.filter (fun kv => kv.1 =? id) (revisions_of db key))
    | None => newest_revision (revisions_of db key)
    end in
  '(id, row) ← ok_or selected (UnknownApplicationRevisionForKey key application_revision_id);
  id ← new_id "application revision ID" id;
  revision ← aggregate_revision_from_sql (app_aggregate_revision row);
  bundle ← new_id "artifact ID" (aa_bundle (app_artifacts row));
  Ok {| arv_application_key := key; arv_application_revision_id := id;
        arv_aggregate_revision := revision; arv_bundle_artifact_id := bundle;
        arv_is_active := app_is_active row |}.

(** * The restore gate *)

Definition ids {V} (m : gmap Z V) : list Z := (map_to_list m).*1.

Definition application_artifact_ids (row : ApplicationRevisionRow) : list Z :=
  let a := app_artifacts row in
  [aa_bundle a; aa_mission a; aa_product_research_system_template a;
   aa_product_research_assignment_template a; aa_engineering_system_template a;
   aa_engineering_assignment_template a; aa_quality_system_template a;
   aa_quality_assignment_template a].

(** Artifacts a build or an application brought along need no receipt of their
    own. *)
Definition born_with_parent (db : Database) (id : Z) : bool :=
  exists_where (fun _ row => kb_qualification_receipt_artifact_id row =? id) (kernel_builds db)
  || exists_where (fun _ row => existsb (Z.eqb id) (application_artifact_ids row))
       (application_revisions db).

Definition decision_operation (row : ArchitectDecisionRow) : string :=
  if d_decision_kind row =? DECISION_SPONSOR then "architect.ticket.sponsor"
  else if d_decision_kind row =? DECISION_RELEASE then "architect.ticket.release"
  else "architect.candidate.decide".

Definition facts_of {V} (kind : Z) (operation : string) (m : gmap Z V) : list (Z * Z * string) :=
  (fun id => (kind, id, operation)) <$> ids m.

(** The rows that need a creation receipt: subject kind, id and operation. The
    forum's three families are not modelled. *)
Definition facts (db : Database) : list (Z * Z * string) :=
  facts_of KERNEL_BUILD_SUBJECT INSTALL_KERNEL_BUILD_OPERATION (kernel_builds db)
  ++ facts_of APPLICATION_REVISION_SUBJECT ADMIT_APPLICATION_REVISION_OPERATION
       (application_revisions db)
  ++ facts_of REPOSITORY_SUBJECT REGISTER_REPOSITORY_OPERATION (repositories db)
  ++ ((fun id => (ARTIFACT_SUBJECT, id, REGISTER_ARTIFACT_OPERATION))
        <$> List.filter (fun id => negb (born_with_parent db id)) (ids (artifacts db)))
  ++ facts_of 4 "campaign.start" (campaigns db)
  ++ facts_of 5 "assignment.create" (assignments db)
  ++ facts_of 6 "session.start" (sessions db)
  ++ facts_of 30 "ticket.propose" (ticket_revisions db)
  ++ facts_of 32 "ticket.claim" (ticket_attempts db)
  ++ facts_of 40 "candidate.submit" (candidates db)
  ++ facts_of 41 "validation.record" (validations db)
  ++ facts_of 42 "quality.review.submit" (reviews db)
  ++ ((fun kv => (43, kv.1, decision_operation kv.2)) <$> map_to_list (architect_decisions db))
  ++ facts_of 44 "delivery.record" (deliveries db).

Definition same_receipt (kind id : Z) (operation : string) (row : AuditRow) : bool :=
  (al_subject_kind row =? kind) && (al_subject_id row =? id)
  && bool_decide (al_operation row = operation).

Definition receipts (db : Database) (kind id : Z) (operation : string) : Z :=
  Z.of_nat (length (List.filter (fun kv => same_receipt kind id operation kv.2)
    (map_to_list (audit_log db)))).

Definition audit_is_consistent (db : Database) : bool :=
  forallb (fun '(kind, id, operation) =>
    let n := receipts db kind id operation in
    negb ((n =? 0) || (negb (kind =? ARTIFACT_SUBJECT) && negb (n =? 1)))) (facts db).

(** Whether a row of the family one subject kind names exists. *)
Definition row_exists (db : Database) (family id : Z) : bool :=
  let row_of {V} (m : gmap Z V) := bool_decide (is_Some (m !! id)) in
  if family =? KERNEL_BUILD_SUBJECT then row_of (kernel_builds db)
  else if family =? APPLICATION_REVISION_SUBJECT then row_of (application_revisions db)
  else if family =? REPOSITORY_SUBJECT then row_of (repositories db)
  else if family =? ARTIFACT_SUBJECT then row_of (artifacts db)
  else if family =? 4 then row_of (campaigns db)
  else if family =? 5 then row_of (assignments db)
  else if family =? 6 then row_of (sessions db)
  else if family =? 30 then row_of (ticket_revisions db)
  else if family =? 32 then row_of (ticket_attempts db)
  else if family =? 40 then row_of (candidates db)
  else if family =? 41 then row_of (validations db)
  else if family =? 42 then row_of (reviews db)
  else if family =? 43 then row_of (architect_decisions db)
  else if family =? 44 then row_of (deliveries db)
  else false.

(** The closed registry of audit subjects: the kinds and operations of a
    receipt and the family its subject must be in.  The forum's three clauses
    are not modelled. *)
Definition subject_registry : list (list Z * list string * Z) :=
  [([0], ["kernel_build.install"], 0);
   ([1], ["application_revision.admit"; "application_revision.activate"], 1);
   ([2], ["repository.register"], 2);
   ([3], ["artifact.register"], 3);
   ([4], ["campaign.start"; "campaign.cancel"; "campaign.fail"], 4);
   ([5], ["assignment.create"], 5);
   ([6], ["session.start"; "session.terminal"], 6);
   ([30], ["ticket.propose"], 30);
   ([31], ["ticket.sponsor"], 30);
   ([33; 34], ["ticket.claim"], 30);
   ([32], ["ticket.claim"], 32);
   ([35], ["ticket_attempt.fail"], 32);
   ([36; 37; 38], ["ticket_attempt.release"], 32);
   ([39], ["campaign.complete_delivery_target"], 4);
   ([40], ["ticket_attempt.retry_quality"], 32);
   ([40], ["candidate.submit"; "candidate.commit.attach"], 40);
   ([41], ["validation.record"], 41);
   ([42], ["quality.review.submit"], 42);
   ([43], ["architect.ticket.sponsor"; "architect.ticket.release";
           "architect.candidate.decide"], 43);
   ([44], ["delivery.record"], 44);
   ([45], ["ticket_attempt.retry_quality"], 32)]%string.

Definition valid_subject (db : Database) (row : AuditRow) : bool :=
  existsb (fun '(kinds, operations, family) =>
    bool_decide (al_subject_kind row ∈ kinds) && bool_decide (al_operation row ∈ operations)
    && row_exists db family (al_subject_id row)) subject_registry.

Record InvalidAuditSubject := {
  ias_audit_log_id : Z;
  ias_subject_kind : Z;
  ias_subject_id : Z;
}.

(** [ORDER BY audit.id ASC LIMIT 1] *)
Definition first_invalid_audit_subject (db : Database) : option InvalidAuditSubject :=
  (fun row => {| ias_audit_log_id := al_id row; ias_subject_kind := al_subject_kind row;
                 ias_subject_id := al_subject_id row |})
  <$> first_by (fun row => [al_id row])
        (List.filter (fun row => negb (valid_subject db row))
          (snd <$> map_to_list (audit_log db))).

Definition verify_schema_identity (observed : option string) : result StorageError unit :=
  require (bool_decide (observed = Some SCHEMA_IDENTITY)) (SchemaIdentityMismatch observed).

Definition verify_artifact (d : Disk) (row : ArtifactRow) : result StorageError unit :=
  let digest := art_digest row in
  (if art_byte_length row <? 0 then Err ArtifactLengthOutOfRange else Ok tt) ;;
  expected_path ← cas_path digest;
  require (bool_decide (art_cas_relative_path row = expected_path))
    (RestoreArtifactPathMismatch digest) ;;
  verified ← cas_verify d digest;
  require (cas_byte_length verified =? art_byte_length row)
    (RestoreArtifactLengthMismatch digest (art_byte_length row) (cas_byte_length verified)).

(** [WHERE id > $1 ORDER BY id ASC LIMIT 128] *)
Definition artifact_page (db : Database) (after_id : Z) : list (Z * ArtifactRow) :=
  take 128 (order_by (fun kv => [kv.1]) (rows_where (fun id _ => after_id <? id) (artifacts db))).

Fixpoint verify_pages (turns : nat) (d : Disk) (db : Database) (after_id : Z)
  : result StorageError unit :=
  match turns with
  | O => Ok tt
  | S turns =>
      match artifact_page db after_id with
      | [] => Ok tt
      | page =>
          for_each (fun kv => verify_artifact d kv.2) page ;;
          verify_pages turns d db (List.last (fst <$> page) after_id)
      end
  end.

(** Every page has a row, so one turn more than there are rows is enough. *)
Definition verify_restore_integrity (schema : option string) (d : Disk) (db : Database)
  : result StorageError unit :=
  verify_schema_identity schema ;;
  require (audit_is_consistent db) RestoreAuditInconsistent ;;
  match first_invalid_audit_subject db with
  | Some invalid => Err (RestoreAuditSubjectInvalid (ias_audit_log_id invalid)
                           (ias_subject_kind invalid) (ias_subject_id invalid))
  | None => verify_pages (S (size (artifacts db))) d db 0
  end.
End Operations.
