(* ===== verification/Admission.v ===== *)
(** Admission of a compiled application bundle and activation of an admitted
    revision ([crates/factory-kernel/src/application_admission.rs] and
    [application_activation.rs]).

    Admission seals every declared source in the content-addressed store and
    then registers the revision in one transaction. *)
From S2P Require Import Prelude Values Contracts Database Cas Application Storage.
From S2P Require TicketStore WireBundle.

Record AdmitCompiledApplication := {
  aca_principal : string;
  aca_command_id : string;
  aca_expected_revision : Z;
  aca_expected_kernel_build_revision : Z;
  aca_kernel_build_id : ContentDigest;
  aca_source_root : string;
  aca_bundle_relative_path : string;
}.

Definition admit_validate (c : AdmitCompiledApplication) : result StorageError unit :=
  validate_command_component "principal" (aca_principal c) ;;
  validate_command_component "command ID" (aca_command_id c) ;;
  require (negb (is_empty (string_bytes (aca_source_root c)))) InvalidApplicationSourceRoot ;;
  contract (application_relative_path_parse (aca_bundle_relative_path c)) ;;
  Ok tt.

Record SealedApplicationInputs := {
  sai_bundle : ApplicationBundleV2;
  sai_bundle_seal : CasArtifact;
  sai_mission_seal : CasArtifact;
  sai_template_seals : list CasArtifact;
  sai_policy_seals : list CasArtifact;
}.

(** * Template bytes *)

Definition allowed_placeholders (assignment_role : option AssignmentRole) : list string :=
  ["ASSIGNMENT_ID"%string; "MISSION"%string; "TARGET"%string] ++
  match assignment_role with
  | Some ProductResearch | None => []
  | Some Engineering =>
      ["TICKET_ID"; "TICKET_REVISION_ID"; "REGRESSION_COMMAND";
       "REGRESSION_EXPECTED_FAILURE"]%string
  | Some Quality => ["TICKET_ID"; "TICKET_REVISION_ID"; "CANDIDATE_ID"; "VALIDATION_ID"]%string
  end.

(** The placeholders the text names from the cursor on, each of them declared
    and allowed. *)
Fixpoint template_names (fuel : nat) (path : string) (declared allowed : list (list Z))
    (l : list Z) : result StorageError (list (list Z)) :=
  match fuel with
  | O => Ok []
  | S fuel =>
      match split_marker l with
      | None => Ok []
      | Some (_, rest) =>
          '(name, rest) ← ok_or (split_once 125 rest) (InvalidTemplateSyntax path);
          require (valid_placeholder_name name && bool_decide (name ∈ declared)
                   && bool_decide (name ∈ allowed)) (InvalidTemplatePlaceholder path) ;;
          found ← template_names fuel path declared allowed rest;
          Ok (name :: found)
      end
  end.

Definition validate_template_bytes (bytes : list Z) (t : TemplateArtifactV2)
    (assignment_role : option AssignmentRole) : result StorageError unit :=
  let path := ta_source_path t in
  require (utf8_valid bytes) (InvalidTemplateUtf8 path) ;;
  found ← template_names (length bytes) path (declared_names t)
    (string_bytes <$> allowed_placeholders assignment_role) bytes;
  require (Nat.eqb (length (remove_dups found)) (length (remove_dups (declared_names t))))
    (MissingTemplatePlaceholder path).

(** * Sealing *)

Section Sealing.
Context (blake3 : list Z -> ContentDigest) (maximum_object_bytes : Z) `{Machine}.
(* turns given to each loop over temporary names *)
Context (turns : nat).
(* the files below each source root *)
Context (staging_of : string -> Staging).
(* miniserde, which the wire layer reads a bundle with *)
Context (reader : WireBundle.BundleReader).

Definition cas_step {A} (m : Cas A) : IO StorageError A := convert CasFailure m.

(** [strip_suffix(b"\n").unwrap_or(all)] *)
Definition strip_newline (bytes : list Z) : list Z :=
  if bool_decide (last bytes = Some 10) then removelast bytes else bytes.

Definition adopt_declared_template (source_root : string) (t : TemplateArtifactV2)
    (assignment_role : option AssignmentRole) : IO StorageError CasArtifact :=
  seal ← cas_step (adopt blake3 maximum_object_bytes turns (staging_of source_root)
                     (ta_source_path t));
  lift (require (bool_decide (cas_digest seal = ta_digest t))
    (ApplicationTemplateDigestMismatch (ta_source_path t))) ;;
  bytes ← cas_step (read_verified blake3 maximum_object_bytes (cas_digest seal));
  lift (validate_template_bytes bytes t assignment_role) ;;
  mret seal.

Definition adopt_declared_policy (source_root : string) (p : ActorPolicyArtifactV2)
  : IO StorageError CasArtifact :=
  seal ← cas_step (adopt blake3 maximum_object_bytes turns (staging_of source_root)
                     (ap_source_path p));
  lift (require (bool_decide (cas_digest seal = ap_digest p))
    (ApplicationPolicyDigestMismatch (ap_source_path p))) ;;
  bytes ← cas_step (read_verified blake3 maximum_object_bytes (cas_digest seal));
  lift (map_err (fun _ => InvalidApplicationPolicy) (seal_policy_artifact_v2 blake3 p bytes)) ;;
  mret seal.

Fixpoint map_io {E A B} (f : A -> IO E B) (l : list A) : IO E (list B) :=
  match l with
  | [] => mret []
  | a :: l => b ← f a; bs ← map_io f l; mret (b :: bs)
  end.

Definition profile_of (bundle : ApplicationBundleV2) (office : AssignmentRole)
  : result StorageError AssignmentRoleProfileV2 :=
  ok_or (List.find (fun p => bool_decide (rp_assignment_role p = office))
           (ab_assignment_role_profiles bundle)) ApplicationTemplateCountMismatch.

Definition seal_application_inputs (command : AdmitCompiledApplication)
  : IO StorageError SealedApplicationInputs :=
  let root := aca_source_root command in
  source_bundle_seal ← cas_step (adopt blake3 maximum_object_bytes turns (staging_of root)
                                   (aca_bundle_relative_path command));
  source_bundle_bytes ← cas_step (read_verified blake3 maximum_object_bytes
                                    (cas_digest source_bundle_seal));
  let bundle_bytes := strip_newline source_bundle_bytes in
  '(bundle, bundle_digest, canonical) ← lift (map_err (fun _ => InvalidApplicationBundle)
    (WireBundle.admit_application_bundle_source_v2 blake3 bundle_bytes));
  bundle_seal ← (if bool_decide (canonical = bundle_bytes) then mret source_bundle_seal
                 else cas_step (adopt_kernel_bytes blake3 maximum_object_bytes turns canonical));
  lift (require (bool_decide (bundle_digest = cas_digest bundle_seal))
    ApplicationBundleDigestMismatch) ;;
  mission_seal ← adopt_declared_template root (ab_mission_template bundle) None;
  template_seals ← map_io (fun office =>
    profile ← lift (profile_of bundle office);
    system ← adopt_declared_template root (rp_system_template profile) (Some office);
    assignment ← adopt_declared_template root (rp_assignment_template profile) (Some office);
    mret [system; assignment]) all_roles;
  policy_seals ← map_io (fun office =>
    profile ← lift (profile_of bundle office);
    adopt_declared_policy root (rp_policy profile)) all_roles;
  mret {| sai_bundle := bundle; sai_bundle_seal := bundle_seal; sai_mission_seal := mission_seal;
          sai_template_seals := concat template_seals; sai_policy_seals := policy_seals |}.
End Sealing.

(** * The transaction *)

Definition bundle_seals (inputs : SealedApplicationInputs) : list Z :=
  seal ← sai_bundle_seal inputs :: sai_mission_seal inputs
         :: sai_template_seals inputs ++ sai_policy_seals inputs;
  cas_digest seal ++ be_bytes 8 (cas_byte_length seal).

Definition application_preimage (c : AdmitCompiledApplication) (inputs : SealedApplicationInputs)
  : list Z :=
  string_bytes ADMIT_APPLICATION_REVISION_OPERATION ++ hash_string (aca_principal c)
  ++ hash_string (aca_command_id c) ++ be_bytes 8 (aca_expected_revision c)
  ++ be_bytes 8 (aca_expected_kernel_build_revision c) ++ aca_kernel_build_id c
  ++ hash_string (ab_application_key (sai_bundle inputs)) ++ bundle_seals inputs.

(** [UNIQUE (application_key, aggregate_revision)]; an admitted revision is
    inactive. *)
Definition insert_application_revision (row : ApplicationRevisionRow) (db : Database)
  : result string (Z * Database) :=
  let id := fresh_id (application_revisions db) in
  require (negb (exists_where (fun _ other =>
    bool_decide (application_key other = application_key row)
    && (app_aggregate_revision other =? app_aggregate_revision row)) (application_revisions db)))
    "application_revisions_application_key_aggregate_revision_key"%string ;;
  Ok (id, set_application_revisions (<[id := row]> (application_revisions db)) db).

(** One row of the three root offices, [ON CONFLICT .. DO NOTHING]. *)
Definition insert_office (row : OfficeRow) (db : Database) : Database :=
  if exists_where (fun _ other =>
       (of_application_revision_id other =? of_application_revision_id row)
       && bool_decide (of_assignment_role other = of_assignment_role row)) (offices db)
  then db else set_offices (<[fresh_id (offices db) := row]> (offices db)) db.

Definition root_office (application_revision_id role charter : Z) : OfficeRow := {|
  of_application_revision_id := application_revision_id;
  of_assignment_role := Some role;
  of_charter_artifact_id := charter;
  of_authority_mask := 2 ^ role |}.

Record ApplicationRevisionReceipt := {
  apr_application_revision_id : Z;
  apr_resulting_revision : Z;
  apr_audit_log_id : Z;
  apr_was_idempotent_retry : bool;
}.

Section Transaction.
Variable blake3 : list Z -> ContentDigest.

Definition register_artifact_in_transaction (build_database_id : Z) (seal : CasArtifact)
    (db : Database) : result StorageError (Z * Database) :=
  path ← cas_path (cas_digest seal);
  byte_length ← length_to_sql (cas_byte_length seal);
  match artifact_by_digest db (cas_digest seal) with
  | Some (id, existing) =>
      require_artifact_identity (cas_digest seal) byte_length path existing ;;
      Ok (id, db)
  | None =>
      let id := fresh_id (artifacts db) in
      db1 ← db_result (insert_artifact id {|
        art_digest := cas_digest seal;
        art_byte_length := byte_length;
        art_cas_relative_path := path;
        art_creating_kernel_build_id := build_database_id |} db);
      Ok (id, db1)
  end.

Fixpoint register_artifacts (build_database_id : Z) (seals : list CasArtifact) (db : Database)
  : result StorageError (list Z * Database) :=
  match seals with
  | [] => Ok ([], db)
  | seal :: seals =>
      '(id, db1) ← register_artifact_in_transaction build_database_id seal db;
      '(ids, db2) ← register_artifacts build_database_id seals db1;
      Ok (id :: ids, db2)
  end.

Definition repository_command (command : AdmitCompiledApplication)
    (fingerprint : ContentDigest) (r : RepositoryBindingV2) : RegisterRepository := {|
  rr_principal := aca_principal command;
  rr_command_id := "application-repository-" +:+ to_hex fingerprint;
  rr_expected_revision := revision_initial;
  rr_repository_key := rb_repository_key r;
  rr_canonical_local_path := rb_canonical_local_path r;
  rr_default_branch := rb_default_branch r |}.

(** The binding the bundle declares: the registered one or a new one. *)
Definition repository_for (db : Database) (command : AdmitCompiledApplication)
    (fingerprint : ContentDigest) (r : RepositoryBindingV2) : result StorageError (Z * Database) :=
  match repository_by_key db (rb_repository_key r) with
  | Some (id, row) =>
      require (bool_decide (repo_canonical_local_path row = rb_canonical_local_path r)
               && bool_decide (repo_default_branch row = rb_default_branch r))
        RepositoryBindingMismatch ;;
      Ok (id, db)
  | None =>
      let c := repository_command command fingerprint r in
      repository_command_validate c ;;
      repository_revision ← next_revision revision_initial;
      sql ← revision_to_sql repository_revision;
      '(id, db1) ← db_result (insert_repository {|
        repo_key := rr_repository_key c;
        repo_canonical_local_path := rr_canonical_local_path c;
        repo_default_branch := rr_default_branch c;
        repo_revision := sql |} db);
      '(_, db2) ← insert_audit_receipt db1 (rr_principal c) (rr_command_id c)
        REGISTER_REPOSITORY_OPERATION (blake3 (repository_preimage c)) REPOSITORY_SUBJECT id
        repository_revision;
      Ok (id, db2)
  end.

(** The newest revision of the key with its bundle's digest. *)
Definition current_application (db : Database) (key : string)
  : result StorageError (option Z * Z * option ContentDigest) :=
  match newest_revision (List.filter (fun kv =>
          bool_decide (is_Some (artifacts db !! aa_bundle (app_artifacts kv.2))))
          (revisions_of db key)) with
  | Some (id, row) =>
      revision ← aggregate_revision_from_sql (app_aggregate_revision row);
      Ok (Some id, revision, art_digest <$> artifacts db !! aa_bundle (app_artifacts row))
  | None => Ok (None, revision_initial, None)
  end.

Definition i32_of_u32 (value : Z) : result StorageError Z :=
  if 2 ^ 31 - 1 <? value then Err RevisionOutOfRange else Ok value.

(** The revision row of a bundle whose artifacts are registered. *)
Definition revision_row (b : ApplicationBundleV2) (predecessor : option Z) (revision : Z)
    (artifacts : ApplicationArtifacts) (repository_id : Z) : result StorageError ApplicationRevisionRow :=
  let policy := ab_ticket_policy b in
  let bounds := tp_ticket_bounds policy in
  sql ← revision_to_sql revision;
  narrative ← i32_of_u32 (narrative_byte_limit bounds);
  Ok {| application_key := ab_application_key b;
        app_aggregate_revision := sql;
        app_predecessor := predecessor;
        app_artifacts := artifacts;
        ticket_low_water := tp_low_water policy;
        ticket_target := tp_target policy;
        ticket_maximum := tp_maximum policy;
        proposal_maximum := tp_proposal_maximum policy;
        ticket_narrative_byte_limit := narrative;
        ticket_acceptance_criteria_limit := acceptance_criteria_limit bounds;
        ticket_contract_read_limit := contract_read_limit bounds;
        app_repository_id := repository_id;
        app_is_active := false |}.

Definition application_artifacts (ids : list Z) : option ApplicationArtifacts :=
  match ids with
  | [bundle; mission; product_system; product_assignment; engineering_system;
     engineering_assignment; quality_system; quality_assignment] =>
      Some {| aa_bundle := bundle; aa_mission := mission;
              aa_product_research_system_template := product_system;
              aa_product_research_assignment_template := product_assignment;
              aa_engineering_system_template := engineering_system;
              aa_engineering_assignment_template := engineering_assignment;
              aa_quality_system_template := quality_system;
              aa_quality_assignment_template := quality_assignment |}
  | _ => None
  end.

Definition root_offices (id : Z) (a : ApplicationArtifacts) : list OfficeRow :=
  [root_office id 0 (aa_product_research_system_template a);
   root_office id 1 (aa_engineering_system_template a);
   root_office id 2 (aa_quality_system_template a)].

(** [admit_compiled_application] once its inputs are sealed. *)
Definition admit_sealed_application (db : Database) (command : AdmitCompiledApplication)
    (inputs : SealedApplicationInputs) : result StorageError (ApplicationRevisionReceipt * Database) :=
  let b := sai_bundle inputs in
  let fingerprint := blake3 (application_preimage command inputs) in
  receipt ← find_idempotent_audit db (aca_principal command) (aca_command_id command)
              ADMIT_APPLICATION_REVISION_OPERATION fingerprint;
  match receipt with
  | Some receipt =>
      require_subject_kind receipt APPLICATION_REVISION_SUBJECT ;;
      id ← new_id "application revision ID" (receipt_subject_id receipt);
      Ok ({| apr_application_revision_id := id;
             apr_resulting_revision := receipt_resulting_revision receipt;
             apr_audit_log_id := receipt_audit_log_id receipt;
             apr_was_idempotent_retry := true |}, db)
  | None =>
      '(build_database_id, build) ← ok_or (build_by_digest db (aca_kernel_build_id command))
        (UnknownKernelBuild (aca_kernel_build_id command));
      build_revision ← aggregate_revision_from_sql (kb_revision build);
      require_expected (aca_expected_kernel_build_revision command) build_revision ;;
      '(repository_id, db1) ← repository_for db command fingerprint (ab_repository b);
      '(current_id, current_revision, current_bundle) ←
        current_application db1 (ab_application_key b);
      require_expected (aca_expected_revision command) current_revision ;;
      require (bool_decide (ab_predecessor_bundle b = current_bundle)) BundlePredecessorMismatch ;;
      resulting_revision ← next_revision current_revision;
      '(ids, db2) ← register_artifacts build_database_id
        (sai_bundle_seal inputs :: sai_mission_seal inputs :: sai_template_seals inputs) db1;
      artifacts ← ok_or (application_artifacts ids) ApplicationTemplateCountMismatch;
      row ← revision_row b current_id resulting_revision artifacts repository_id;
      '(id, db3) ← db_result (insert_application_revision row db2);
      let db4 := foldl (fun db office => insert_office office db) db3 (root_offices id artifacts) in
      '(audit_log_id, db5) ← insert_audit_receipt db4 (aca_principal command)
        (aca_command_id command) ADMIT_APPLICATION_REVISION_OPERATION fingerprint
        APPLICATION_REVISION_SUBJECT id resulting_revision;
      id ← new_id "application revision ID" id;
      Ok ({| apr_application_revision_id := id;
             apr_resulting_revision := resulting_revision;
             apr_audit_log_id := audit_log_id;
             apr_was_idempotent_retry := false |}, db5)
  end.

(** * Activation *)

Record ActivateApplicationRevision := {
  aar_principal : string;
  aar_command_id : string;
  aar_expected_revision : Z;
  aar_application_key : string;
  aar_application_revision_id : Z;
  aar_rationale : SealedArtifactReferenceV2;
}.

Definition activate_validate (c : ActivateApplicationRevision) : result StorageError unit :=
  require (negb ((160 <? string_len (aar_principal c)) || contains_byte 0 (aar_principal c)))
    (InvalidCommandComponent "Architect principal") ;;
  validate_command_component "command ID" (aar_command_id c) ;;
  contract (artifact_validate (aar_rationale c) "application activation rationale"
              ARCHITECT_RATIONALE_BYTE_LIMIT false).

Definition activation_preimage (c : ActivateApplicationRevision) : list Z :=
  string_bytes ACTIVATE_APPLICATION_REVISION_OPERATION ++ hash_string (aar_principal c)
  ++ hash_string (aar_command_id c) ++ hash_string (aar_application_key c)
  ++ be_bytes 8 (aar_application_revision_id c) ++ be_bytes 8 (aar_expected_revision c)
  ++ be_bytes 8 (artifact_id (aar_rationale c)) ++ digest (aar_rationale c)
  ++ be_bytes 8 (byte_length (aar_rationale c)).

Record ApplicationActivationReceipt := {
  aat_application_revision_id : Z;
  aat_resulting_revision : Z;
  aat_audit_log_id : Z;
  aat_is_active : bool;
  aat_was_idempotent_retry : bool;
}.

Definition selected_is_active (db : Database) (id : Z) : result StorageError bool :=
  row ← ok_or (application_revisions db !! id) (UnknownApplicationRevision id);
  Ok (app_is_active row).

Definition require_sealed_rationale (db : Database) (rationale : SealedArtifactReferenceV2)
  : result StorageError unit :=
  row ← ok_or (artifacts db !! artifact_id rationale) ApplicationActivationRationaleMismatch;
  require (bool_decide (art_digest row = digest rationale)) ApplicationActivationRationaleMismatch ;;
  require (0 <=? art_byte_length row) RevisionOutOfRange ;;
  require (art_byte_length row =? byte_length rationale) ApplicationActivationRationaleMismatch.

Definition set_active (active : bool) (row : ApplicationRevisionRow) : ApplicationRevisionRow := {|
  application_key := application_key row;
  app_aggregate_revision := app_aggregate_revision row;
  app_predecessor := app_predecessor row;
  app_artifacts := app_artifacts row;
  ticket_low_water := ticket_low_water row;
  ticket_target := ticket_target row;
  ticket_maximum := ticket_maximum row;
  proposal_maximum := proposal_maximum row;
  ticket_narrative_byte_limit := ticket_narrative_byte_limit row;
  ticket_acceptance_criteria_limit := ticket_acceptance_criteria_limit row;
  ticket_contract_read_limit := ticket_contract_read_limit row;
  app_repository_id := app_repository_id row;
  app_is_active := active |}.

(** The two updates of the active pointer: no revision of the key, then one. *)
Definition move_active_pointer (key : string) (id : Z) (db : Database) : Database :=
  let inactive := (fun row => if bool_decide (application_key row = key) && app_is_active row
                              then set_active false row else row) <$> application_revisions db in
  set_application_revisions (alter (set_active true) id inactive) db.

Definition activate_application_revision (db : Database) (command : ActivateApplicationRevision)
  : result StorageError (ApplicationActivationReceipt * Database) :=
  activate_validate command ;;
  let fingerprint := blake3 (activation_preimage command) in
  let id := aar_application_revision_id command in
  receipt ← find_idempotent_audit db (aar_principal command) (aar_command_id command)
              ACTIVATE_APPLICATION_REVISION_OPERATION fingerprint;
  match receipt with
  | Some receipt =>
      require_subject_kind receipt APPLICATION_REVISION_SUBJECT ;;
      active ← selected_is_active db (receipt_subject_id receipt);
      id ← new_id "application revision ID" (receipt_subject_id receipt);
      Ok ({| aat_application_revision_id := id;
             aat_resulting_revision := receipt_resulting_revision receipt;
             aat_audit_log_id := receipt_audit_log_id receipt;
             aat_is_active := active;
             aat_was_idempotent_retry := true |}, db)
  | None =>
      target ← ok_or
        (row ← application_revisions db !! id;
         if bool_decide (application_key row = aar_application_key command) then Some row else None)
        (UnknownApplicationRevisionForKey (aar_application_key command) (Some id));
      resulting_revision ← aggregate_revision_from_sql (app_aggregate_revision target);
      require_expected (aar_expected_revision command) resulting_revision ;;
      require_sealed_rationale db (aar_rationale command) ;;
      match rows_where (fun _ row => cmp_lifecycle row =? CAMPAIGN_RUNNING) (campaigns db) with
      | (campaign_id, _) :: _ =>
          campaign_id ← new_id "campaign ID" campaign_id;
          Err (ApplicationActivationCampaignRunning campaign_id)
      | [] =>
          let db1 := if app_is_active target then db
                     else move_active_pointer (aar_application_key command) id db in
          '(audit_log_id, db2) ← insert_audit_receipt db1 (aar_principal command)
            (aar_command_id command) ACTIVATE_APPLICATION_REVISION_OPERATION fingerprint
            APPLICATION_REVISION_SUBJECT id resulting_revision;
          Ok ({| aat_application_revision_id := id;
                 aat_resulting_revision := resulting_revision;
                 aat_audit_log_id := audit_log_id;
                 aat_is_active := true;
                 aat_was_idempotent_retry := false |}, db2)
      end
  end.
End Transaction.

(** The whole command: what sealing leaves on the disk stays there whatever the
    transaction answers. *)
Definition admit_compiled_application blake3 maximum_object_bytes `{Machine} turns staging_of
    reader (db : Database) (command : AdmitCompiledApplication)
  : IO StorageError (ApplicationRevisionReceipt * Database) :=
  lift (admit_validate command) ;;
  inputs ← seal_application_inputs blake3 maximum_object_bytes turns staging_of reader command;
  lift (admit_sealed_application blake3 db command inputs).
