(* ===== verification/ApplicationContract.v ===== *)
(** What the application contract promises: an admitted template always
    renders, and compilation depends on the declared files alone. *)
From S2P Require Import Prelude Values Contracts Database Cas Application Storage Admission.

(** * The template language

    A template is a list of literal texts and holes. *)

Inductive Piece := Literal (text : list Z) | Hole (name : list Z).

Definition piece_source (p : Piece) : list Z :=
  match p with Literal text => text | Hole name => [36; 123] ++ name ++ [125] end.

Definition piece_text (values : TemplateValues) (p : Piece) : list Z :=
  match p with Literal text => text | Hole name => default [] (value_of values name) end.

Definition holes (l : list Piece) : list (list Z) :=
  p ← l; match p with Literal _ => [] | Hole name => [name] end.

Definition template_source (l : list Piece) : list Z := l ≫= piece_source.
Definition template_text (values : TemplateValues) (l : list Piece) : list Z := l ≫= piece_text values.

Lemma split_marker_Some l before rest :
  split_marker l = Some (before, rest) -> l = before ++ 36 :: 123 :: rest.
Proof.
  revert before. induction l as [|c l IH]; intros before; [done|]. cbn [split_marker].
  destruct l as [|d l]; [done|]. case_match eqn:E.
  - intros [= <- <-]. bool_prop. by subst.
  - intros ([b r] & Hs & E')%fmap_Some. injection E' as -> ->. simpl. by rewrite <- (IH b Hs).
Qed.

(** The scan of the admission and the renderer read the same pieces. *)
Lemma names_render path declared allowed values fuel : forall l found,
  (length l <= fuel)%nat -> template_names fuel path declared allowed l = Ok found ->
  (forall name, name ∈ declared -> is_Some (value_of values name)) ->
  exists pieces, l = template_source pieces /\ holes pieces = found /\
    (forall name, name ∈ found -> name ∈ declared) /\
    render_from fuel declared values l = Ok (template_text values pieces, found).
Proof.
  induction fuel as [|fuel IH]; intros l found Hl H Hv.
  { destruct l; [|simpl in Hl; lia]. injection H as <-. exists []. split_and!; try done.
    intros name Hn. by apply elem_of_nil in Hn. }
  cbn [template_names render_from] in *. destruct (split_marker l) as [[before rest]|] eqn:E.
  - pose proof (split_marker_Some _ _ _ E) as ->. ok_inv H.
    match goal with Hs : split_once _ _ = Some (?n, ?r), Ht : template_names _ _ _ _ _ = Ok ?f |- _ =>
      rename n into name, r into tail, f into more; rewrite Hs; pose proof Hs as [_ ->]%split_once_Some end.
    bool_prop. rewrite !length_app in Hl. cbn [length] in Hl. rewrite length_app in Hl. cbn [length] in Hl.
    match goal with Ht : template_names _ _ _ _ _ = Ok _ |- _ =>
      destruct (IH tail more) as (pieces & -> & Hh & Hd & Hr); [lia|done|done|] end.
    exists (Literal before :: Hole name :: pieces). cbn. rewrite <- Hh.
    destruct (Hv name) as [value Hval]; [done|]. split_and!.
    + by rewrite <- (assoc_L (++)).
    + done.
    + intros n [->|Hn]%elem_of_cons; [done|]. apply Hd. by rewrite <- Hh.
    + match goal with Hn : valid_placeholder_name _ = true |- _ => rewrite Hn end.
      rewrite bool_decide_true by done. cbn. rewrite Hval. cbn. by rewrite Hr, Hh.
  - injection H as <-. exists [Literal l]. cbn. rewrite app_nil_r. split_and!; try done.
    intros name Hn. by apply elem_of_nil in Hn.
Qed.

Lemma covered {A} `{EqDecision A} (found declared : list A) :
  (forall x, x ∈ found -> x ∈ declared) ->
  length (remove_dups found) = length (remove_dups declared) ->
  forall x, x ∈ declared -> x ∈ found.
Proof.
  intros Hin Hlen x Hx.
  assert (Hsub : remove_dups found ⊆+ remove_dups declared).
  { apply NoDup_submseteq; [apply NoDup_remove_dups|]. intros y. rewrite !elem_of_remove_dups. apply Hin. }
  apply submseteq_length_Permutation in Hsub; [|lia].
  rewrite <- elem_of_remove_dups, Hsub, elem_of_remove_dups. exact Hx.
Qed.

(** The check of the values, when all are of declared placeholders. *)
Lemma values_checked t (values : TemplateValues) :
  Forall (fun entry => string_bytes entry.1 ∈ declared_names t) values ->
  for_each (fun entry =>
    require (bool_decide (string_bytes entry.1 ∈ declared_names t))
      (InvalidValue "template value" "value supplied for an undeclared placeholder") ;;
    require (negb (contains_byte 0 entry.2))
      (InvalidValue "template value" "value must not contain NUL")) values =
  if existsb (fun entry => contains_byte 0 entry.2) values
  then Err (InvalidValue "template value" "value must not contain NUL") else Ok tt.
Proof.
  intros H. induction H as [|[name value] values Hn _ IH]; [done|]. cbn [for_each existsb fst snd] in *.
  rewrite bool_decide_true by done. cbn [require mbind result_bind].
  by destruct (contains_byte 0 value).
Qed.

(** C23: A template admission accepted renders with every assignment of values to its
    placeholders, in one pass: each hole is replaced by its value and nothing in
    a value is read again.  Only a value with a NUL byte or a result beyond the
    byte limit is refused, each with its own error. *)
Theorem admitted_template_renders t role source values :
  validate_template_bytes source t role = Ok tt -> template_validate t "template" = Ok tt ->
  Forall (fun entry => string_bytes entry.1 ∈ declared_names t) values ->
  (forall name, name ∈ declared_names t -> is_Some (value_of values name)) ->
  exists pieces, source = template_source pieces /\
    (forall name, name ∈ holes pieces <-> name ∈ declared_names t) /\
    render_template_v2 t source values =
      if existsb (fun entry => contains_byte 0 entry.2) values
      then Err (InvalidValue "template value" "value must not contain NUL")
      else if Z.of_nat (length (template_text values pieces)) <=? ta_rendered_byte_limit t
      then Ok (template_text values pieces)
      else Err (ByteLimitExceeded "rendered template" (ta_rendered_byte_limit t)).
Proof.
  unfold validate_template_bytes. intros H Ht Hvalues Hv. ok_inv H.
  match goal with Hn : template_names _ _ _ _ _ = Ok ?f, Hl : Nat.eqb _ _ = true |- _ =>
    destruct (names_render _ _ _ values _ source f (le_n _) Hn Hv) as (pieces & Hs & Hh & Hd & Hr);
    apply Nat.eqb_eq in Hl; pose proof (covered _ _ Hd Hl) as Hc end.
  exists pieces. split_and!; [done|intros name; rewrite Hh; split; auto|].
  unfold render_template_v2. rewrite Ht. cbn [mbind result_bind].
  rewrite values_checked by done. destruct (existsb _ values); [done|]. cbn [mbind result_bind].
  rewrite Hr. cbn [mbind result_bind]. rewrite (proj2 (forallb_forall _ _)).
  - cbn [require mbind result_bind]. by destruct (_ <=? _).
  - intros name Hn%list_elem_of_In. apply bool_decide_true. by apply Hc.
Qed.

(** * Compilation *)

Lemma seen_once {E A K} `{EqDecision K} (key : A -> K) (duplicate : E) l :
  for_each_seen key duplicate (fun _ => Ok tt) (fun _ => Ok tt) [] l =
    if decide (NoDup (key <$> l)) then Ok tt else Err duplicate.
Proof.
  assert (Herr : forall seen, let r := for_each_seen key duplicate (fun _ => Ok tt) (fun _ => Ok tt) seen l in
    r = Ok tt \/ r = Err duplicate).
  { induction l as [|a l IH]; intros seen; [by left|]. simpl. case_bool_decide; simpl; [by right|apply IH]. }
  destruct (decide _) as [Hd|Hn].
  - apply for_each_seen_Ok. split; [|done]. apply Forall_forall. intros a _.
    split_and!; [done..|apply not_elem_of_nil].
  - destruct (Herr []) as [H|H]; [|done]. by apply for_each_seen_Ok in H as [_ H].
Qed.

Lemma source_at_Some sources path s :
  NoDup (sf_path <$> sources) ->
  source_at sources path = Some s <-> s ∈ sources /\ sf_path s = path.
Proof.
  intros Hnd. unfold source_at. split.
  - intros H%List.find_some. destruct H as [Hin Hp]. apply bool_decide_eq_true in Hp.
    split; [by apply list_elem_of_In|done].
  - intros [Hin <-]. induction sources as [|a l IH]; [by apply elem_of_nil in Hin|].
    apply NoDup_cons in Hnd as [Ha Hnd]. simpl. apply elem_of_cons in Hin as [->|Hin].
    + by rewrite bool_decide_true.
    + rewrite bool_decide_false; [by apply IH|]. intros E. apply Ha. rewrite E. by apply list_elem_of_fmap_2.
Qed.

Lemma source_at_permuted sources sources' path :
  NoDup (sf_path <$> sources) -> sources ≡ₚ sources' ->
  source_at sources path = source_at sources' path.
Proof.
  intros Hnd Hp. assert (Hnd' : NoDup (sf_path <$> sources')) by by rewrite <- Hp.
  apply option_eq. intros s. rewrite !source_at_Some by done. by rewrite Hp.
Qed.

Lemma forallb_permuted {A} (f : A -> bool) l l' : l ≡ₚ l' -> forallb f l = forallb f l'.
Proof.
  intros Hp. apply eq_iff_eq_true. rewrite !forallb_forall. setoid_rewrite <- list_elem_of_In.
  by setoid_rewrite Hp.
Qed.

Lemma map_ok_same {E A B} (f g : A -> result E B) l :
  (forall a, f a = g a) -> map_ok f l = map_ok g l.
Proof. intros H. induction l as [|a l IH]; simpl; [done|]. by rewrite H, IH. Qed.

Section compilation.
Context (blake3 : list Z -> ContentDigest).

(** The compiler's answer does not depend on the order of the source files. *)
Theorem compile_order_independent b sources sources' :
  sources ≡ₚ sources' -> compile blake3 b sources = compile blake3 b sources'.
Proof.
  intros Hp. unfold compile. destruct (bundle_validate b); [simpl|done].
  rewrite !seen_once.
  assert (Hiff : NoDup (sf_path <$> sources) <-> NoDup (sf_path <$> sources')) by by rewrite Hp.
  destruct (decide (NoDup (sf_path <$> sources))) as [Hnd|Hn];
    destruct (decide (NoDup (sf_path <$> sources'))) as [Hd|Hd]; try tauto.
  simpl. destruct (validate_declared_artifact_identities b); [simpl|done].
  rewrite (map_ok_same (compile_file blake3 b sources) (compile_file blake3 b sources')).
  - destruct (map_ok _ _); [simpl|done]. by rewrite (forallb_permuted _ sources sources' Hp).
  - intros path. unfold compile_file. by rewrite (source_at_permuted sources sources').
Qed.

(** ** The identity of the sources *)

Lemma split_at_nul (w w' f f' : list Z) :
  0 ∉ w -> 0 ∉ w' -> w ++ 0 :: f = w' ++ 0 :: f' -> w = w' /\ f = f'.
Proof.
  intros Hw Hw' E. assert (H : split_once 0 (w ++ 0 :: f) = Some (w, f)) by by apply split_once_Some.
  rewrite E in H. apply split_once_Some in H as [_ H].
  assert (H' : split_once 0 (w' ++ 0 :: f') = Some (w', f')) by by apply split_once_Some.
  rewrite <- E in H'. assert (H2 : split_once 0 (w ++ 0 :: f) = Some (w, f)) by by apply split_once_Some.
  rewrite H2 in H'. by injection H' as -> ->.
Qed.

Definition nul_free (f : ApplicationSourceFileV2) : Prop :=
  (0 ∉ string_bytes (sf_path f)) /\ 0 ∉ sf_bytes f.

Lemma source_identity_injective files files' :
  Forall nul_free files -> Forall nul_free files' ->
  source_identity files = source_identity files' -> files = files'.
Proof.
  intros Hf. revert files'. induction Hf as [|f l [Hp Hb] _ IH]; intros files' Hf' E.
  - destruct files' as [|f' l']; [done|]. cbn in E. by destruct (string_bytes (sf_path f')).
  - destruct Hf' as [|f' l' [Hp' Hb'] Hl'].
    { cbn in E. by destruct (string_bytes (sf_path f)). }
    cbn in E. rewrite <- !(assoc_L (++)) in E. cbn in E.
    apply split_at_nul in E as [Epath E]; [|done..]. rewrite <- !(assoc_L (++)) in E. cbn in E.
    apply split_at_nul in E as [Ebytes E]; [|done..].
    f_equal; [|by apply IH]. destruct f, f'. simpl in *. f_equal; [|done].
    by apply string_bytes_inj.
Qed.

Lemma sealed_source path expected limit source copy :
  seal_application_artifact_v2 blake3 path expected limit source = Ok copy ->
  (0 ∉ string_bytes path) /\ (0 ∉ source) /\ blake3 source = expected.
Proof.
  unfold seal_application_artifact_v2, validate_application_source_path. intros H. ok_inv H.
  repeat match goal with E : _ || _ = false |- _ => apply orb_false_iff in E as [? ?] end.
  bool_prop. split_and!; [by apply contains_byte_false| |done].
  intros Hin. match goal with Hn : has_nul _ = false |- _ => unfold has_nul in Hn;
    rewrite existsb_false, Forall_forall in Hn; by apply Hn in Hin end.
Qed.

(** One path has one digest, whichever declaration names it. *)
Lemma add_declarations_Ok l : forall m,
  add_declarations m l = Ok tt -> forall path d d', (path, d) ∈ l ->
  (path, d') ∈ l \/ m !! path = Some d' -> d = d'.
Proof.
  induction l as [|[p e] l IH]; intros m H path d d' Hd; [by apply elem_of_nil in Hd|].
  cbn [add_declarations] in H. ok_inv H.
  assert (Hm : forall d', m !! p = Some d' -> e = d').
  { intros d0 Hd0. rewrite Hd0 in *. by bool_prop. }
  assert (Hl : forall d, (p, d) ∈ l -> d = e).
  { intros d0 Hd0. eapply IH; [eassumption|exact Hd0|]. right. apply lookup_insert_eq. }
  apply elem_of_cons in Hd as [[= -> ->]|Hd].
  - intros [[[= ->]|Hd']%elem_of_cons|Hd']; [done|symmetry; auto|auto].
  - intros Hd'. destruct (decide (path = p)) as [->|Hne].
    + rewrite (Hl d Hd). destruct Hd' as [[[= ->]|Hd']%elem_of_cons|Hd']; [done|symmetry; auto|auto].
    + eapply IH; [eassumption|exact Hd|]. rewrite lookup_insert_ne by done.
      destruct Hd' as [[[= ? ?]|Hd']%elem_of_cons|Hd']; [done|auto|auto].
Qed.

Lemma declared_digest_elem b path d :
  declared_digest b path = Some d -> (path, d) ∈ declared_artifacts b.
Proof.
  unfold declared_digest. intros ([p e] & H%List.find_some & ->)%fmap_Some.
  destruct H as [Hin Hp]. apply bool_decide_eq_true in Hp. simpl in *. subst.
  by apply list_elem_of_In.
Qed.

Lemma policy_at_declared b path p :
  policy_at b path = Some p -> ap_source_path p = path /\ (path, ap_digest p) ∈ declared_artifacts b.
Proof.
  unfold policy_at. intros H%List.find_some. destruct H as [Hin Hp].
  apply bool_decide_eq_true in Hp. split; [done|].
  apply list_elem_of_In, list_elem_of_fmap in Hin as (profile & -> & Hin).
  unfold declared_artifacts. right. apply list_elem_of_bind. exists profile. split; [|done].
  rewrite <- Hp. do 2 right. by left.
Qed.

Lemma compile_file_Ok b sources path f :
  validate_declared_artifact_identities b = Ok tt -> NoDup (sf_path <$> sources) ->
  compile_file blake3 b sources path = Ok f ->
  f ∈ sources /\ sf_path f = path /\ nul_free f /\
  declared_digest b path = Some (blake3 (sf_bytes f)).
Proof.
  intros Hids Hnd. unfold compile_file. intros H. ok_inv H;
    match goal with Hs : source_at _ _ = Some _ |- _ =>
      apply (source_at_Some _ _ _ Hnd) in Hs as [Hin <-] end.
  - match goal with Hp : policy_at _ _ = Some _ |- _ => apply policy_at_declared in Hp as [Hpath Hdecl] end.
    match goal with Hs : seal_policy_artifact_v2 _ _ _ = Ok _ |- _ =>
      unfold seal_policy_artifact_v2 in Hs; ok_inv Hs end.
    match goal with Hs : seal_application_artifact_v2 _ _ _ _ _ = Ok _ |- _ =>
      apply sealed_source in Hs as (Hp & Hb & Hh) end.
    split_and!; [done|done| |].
    + split; [by rewrite <- Hpath|done].
    + rewrite Hh. match goal with Hd : declared_digest _ _ = Some ?d |- _ =>
        rewrite Hd; f_equal; apply declared_digest_elem in Hd;
        by eapply (add_declarations_Ok _ _ Hids); [exact Hd|left] end.
  - match goal with Hs : seal_application_artifact_v2 _ _ _ _ _ = Ok _ |- _ =>
      apply sealed_source in Hs as (Hp & Hb & Hh) end.
    by rewrite Hh.
Qed.

Lemma compile_Ok b sources c :
  compile blake3 b sources = Ok c ->
  NoDup (sf_path <$> sources) /\ ca_bundle c = b /\
  ca_source_digest c = blake3 (source_identity (ca_files c)) /\
  (sf_path <$> ca_files c) = required_paths b /\
  (forall f, f ∈ ca_files c -> f ∈ sources /\ nul_free f /\
     declared_digest b (sf_path f) = Some (blake3 (sf_bytes f))) /\
  (forall f, f ∈ sources -> sf_path f ∈ required_paths b).
Proof.
  unfold compile. rewrite seen_once. intros H. destruct (decide _) as [Hnd|]; ok_inv H.
  destruct x. match goal with Hm : map_ok _ _ = Ok _ |- _ => apply map_ok_Forall2 in Hm as Hf end.
  match goal with Hi : validate_declared_artifact_identities _ = Ok ?u |- _ => destruct u; rename Hi into Hids end.
  split_and!; try done; cbn [ca_files].
  - clear - Hf Hids Hnd. induction Hf as [|path f l fs Hc _ IH]; [done|]. rewrite fmap_cons.
    apply compile_file_Ok in Hc as (_ & -> & _); [|done..]. by f_equal.
  - intros f Hin. apply list_elem_of_lookup in Hin as [i Hi].
    destruct (Forall2_lookup_r _ _ _ _ _ Hf Hi) as (path & _ & Hc).
    apply compile_file_Ok in Hc as (? & <- & ? & ?); [|done..]. done.
  - intros f Hin%list_elem_of_In. match goal with Ha : forallb _ _ = true |- _ =>
      rewrite forallb_forall in Ha; by apply Ha, bool_decide_eq_true in Hin end.
Qed.

(** A compiled application holds every source file it was given and no other,
    each with the digest the bundle declares for its path, whichever of the
    bundle's declarations names it. *)
Theorem compiled_files_exact b sources c :
  compile blake3 b sources = Ok c ->
  ca_files c ≡ₚ sources /\
  forall f d, f ∈ ca_files c -> (sf_path f, d) ∈ declared_artifacts b -> d = blake3 (sf_bytes f).
Proof.
  intros H. pose proof H as H'. apply compile_Ok in H as (Hnd & _ & _ & Hpaths & Hfiles & Hreq). split.
  - apply NoDup_Permutation.
    + apply (NoDup_fmap_1 sf_path). rewrite Hpaths. unfold required_paths.
      rewrite order_by_perm. apply NoDup_remove_dups.
    + by apply (NoDup_fmap_1 sf_path).
    + intros f. split; [by intros (? & _)%Hfiles|]. intros Hin.
      pose proof (Hreq f Hin) as Hp. rewrite <- Hpaths in Hp.
      apply list_elem_of_fmap in Hp as (g & E & Hg). destruct (Hfiles g Hg) as (Hgs & _).
      assert (Hs : source_at sources (sf_path f) = Some f) by by apply source_at_Some.
      assert (Hs' : source_at sources (sf_path f) = Some g) by by apply source_at_Some.
      rewrite Hs in Hs'. by injection Hs' as ->.
  - intros f d Hin Hd. destruct (Hfiles f Hin) as (_ & _ & Hdecl%declared_digest_elem).
    unfold compile in H'. ok_inv H'. destruct x1.
    eapply add_declarations_Ok; [eassumption|exact Hd|by left].
Qed.

(** C24: The source digest identifies the compiled files: two compilations with one
    digest hold the same files, or show two byte strings with one hash. *)
Theorem source_digest_identifies b1 b2 sources1 sources2 c1 c2 :
  compile blake3 b1 sources1 = Ok c1 -> compile blake3 b2 sources2 = Ok c2 ->
  ca_source_digest c1 = ca_source_digest c2 ->
  ca_files c1 = ca_files c2 \/ exists x y, x <> y /\ blake3 x = blake3 y.
Proof.
  intros (_ & _ & -> & _ & Hf1 & _)%compile_Ok (_ & _ & -> & _ & Hf2 & _)%compile_Ok E.
  destruct (decide (source_identity (ca_files c1) = source_identity (ca_files c2))) as [Es|Hn]; [left|by right; eauto].
  apply source_identity_injective; [| |done]; apply Forall_forall; intros f Hin.
  - by apply Hf1.
  - by apply Hf2.
Qed.
End compilation.
