(* ===== verification/Refinement.v ===== *)
(** Every committed command is a sequence of abstract transitions: the detailed
    operations of both stores refine the lifecycle of [Lifecycle]. *)
From S2P Require Import Prelude Values Contracts Database Lifecycle.
From S2P Require TicketStore DecisionStore.

Definition state_code (s : TicketState) : Z :=
  match s with
  | Proposed => TICKET_PROPOSED | Sponsored => TICKET_SPONSORED | InFlight => TICKET_IN_FLIGHT
  | Delivered => TICKET_DELIVERED | Blocked => TICKET_BLOCKED | Resolved => TICKET_RESOLVED
  | Superseded => TICKET_SUPERSEDED | Rejected => TICKET_REJECTED
  end.

(** * Reading rows *)

Ltac case_codes :=
  repeat match goal with
  | H : (if ?a =? ?b then _ else _) = Ok _ |- _ =>
      destruct (Z.eqb_spec a b); [injection H as <-; assumption|]
  | H : Err _ = Ok _ |- _ => discriminate H
  end.

Lemma ts_ticket_state v s : TicketStore.ticket_state_from_sql v = Ok s -> v = state_code s.
Proof. unfold TicketStore.ticket_state_from_sql. intros H. case_codes. Qed.

Lemma ds_ticket_state v s : DecisionStore.ticket_state v = Ok s -> v = state_code s.
Proof. unfold DecisionStore.ticket_state. intros H. case_codes. Qed.

Definition candidate_code (s : DecisionStore.CandidateState) : Z :=
  match s with
  | DecisionStore.CandidateSubmitted => CANDIDATE_SUBMITTED
  | DecisionStore.CandidateValidated => CANDIDATE_VALIDATED
  | DecisionStore.CandidateRejected => CANDIDATE_REJECTED
  | DecisionStore.CandidateAccepted => CANDIDATE_ACCEPTED
  | DecisionStore.CandidateDelivered => CANDIDATE_DELIVERED
  end.

Lemma ds_candidate_state v s : DecisionStore.candidate_state v = Ok s -> v = candidate_code s.
Proof. unfold DecisionStore.candidate_state. intros H. case_codes. Qed.

Lemma identifier_Ok kind v w : identifier_new kind v = Ok w <-> 0 < v /\ w = v.
Proof.
  unfold identifier_new. destruct (Z.leb_spec v 0); split; try discriminate; try lia.
  - intros [= <-]. auto.
  - intros [_ ->]. reflexivity.
Qed.

Lemma ts_new_id kind v w : TicketStore.new_id kind v = Ok w <-> 0 < v /\ w = v.
Proof. unfold TicketStore.new_id. rewrite map_err_Ok. apply identifier_Ok. Qed.

Lemma ds_new_id kind v w : DecisionStore.new_id kind v = Ok w <-> 0 < v /\ w = v.
Proof. unfold DecisionStore.new_id. rewrite map_err_Ok. apply identifier_Ok. Qed.

Lemma ts_revision_from_sql v w : TicketStore.revision_from_sql v = Ok w <-> 0 <= v /\ w = v.
Proof.
  unfold TicketStore.revision_from_sql. destruct (Z.ltb_spec v 0); split; try discriminate; try lia.
  - intros [= <-]. auto.
  - intros [_ ->]. reflexivity.
Qed.

Lemma ds_revision_from_sql v w : DecisionStore.revision_from_sql v = Ok w <-> 0 <= v /\ w = v.
Proof.
  unfold DecisionStore.revision_from_sql.
  destruct (Z.ltb_spec v 0); split; try discriminate; try lia.
  - intros [= <-]. auto.
  - intros [_ ->]. reflexivity.
Qed.

Lemma ts_revision_to_sql v w : TicketStore.revision_to_sql v = Ok w <-> v <= i64_max /\ w = v.
Proof.
  unfold TicketStore.revision_to_sql. destruct (Z.ltb_spec i64_max v); split; try discriminate; try lia.
  - intros [= <-]. auto.
  - intros [_ ->]. reflexivity.
Qed.

Lemma ds_revision_sql v w : DecisionStore.revision_sql v = Ok w <-> v <= i64_max /\ w = v.
Proof.
  unfold DecisionStore.revision_sql. destruct (Z.ltb_spec i64_max v); split; try discriminate; try lia.
  - intros [= <-]. auto.
  - intros [_ ->]. reflexivity.
Qed.

Lemma revision_next_Ok r n : revision_next r = Ok n -> n = r + 1.
Proof.
  unfold revision_next, checked_add_u64. intros H%ok_or_Ok. case_match; congruence.
Qed.

Lemma ts_next_revision r n : TicketStore.next_revision r = Ok n -> n = r + 1.
Proof. unfold TicketStore.next_revision. intros H%map_err_Ok. by apply revision_next_Ok. Qed.

Lemma ds_next_revision r n : DecisionStore.next_revision r = Ok n -> n = r + 1.
Proof. unfold DecisionStore.next_revision. intros H%map_err_Ok. by apply revision_next_Ok. Qed.

Lemma ticket_join_Some db id tr t :
  TicketStore.ticket_revision_join db id = Some (tr, t) <->
  ticket_revisions db !! id = Some tr /\ tickets db !! tr_ticket_id (tr_contract tr) = Some t.
Proof.
  unfold TicketStore.ticket_revision_join. split.
  - intros (tr' & H & (t' & H' & [= -> ->])%bind_Some)%bind_Some. auto.
  - intros [-> H]. simpl. rewrite H. reflexivity.
Qed.

(** Reads every elementary step of a successful run. *)
Ltac read_steps :=
  repeat match goal with
  | H : TicketStore.new_id _ _ = Ok _ |- _ => apply ts_new_id in H as [? ->]
  | H : DecisionStore.new_id _ _ = Ok _ |- _ => apply ds_new_id in H as [? ->]
  | H : TicketStore.revision_from_sql _ = Ok _ |- _ => apply ts_revision_from_sql in H as [? ->]
  | H : DecisionStore.revision_from_sql _ = Ok _ |- _ => apply ds_revision_from_sql in H as [? ->]
  | H : TicketStore.revision_to_sql _ = Ok _ |- _ => apply ts_revision_to_sql in H as [? ->]
  | H : DecisionStore.revision_sql _ = Ok _ |- _ => apply ds_revision_sql in H as [? ->]
  | H : TicketStore.next_revision _ = Ok _ |- _ => apply ts_next_revision in H as ->
  | H : DecisionStore.next_revision _ = Ok _ |- _ => apply ds_next_revision in H as ->
  | H : TicketStore.require_expected _ _ = Ok _ |- _ => apply require_Ok in H
  | H : DecisionStore.require_revision _ _ = Ok _ |- _ => apply require_Ok in H
  | H : TicketStore.require_ticket_state _ _ = Ok _ |- _ => apply require_Ok in H
  | H : DecisionStore.require_ticket_state _ _ = Ok _ |- _ => apply require_Ok in H
  | H : DecisionStore.require_candidate_state _ _ = Ok _ |- _ => apply require_Ok in H
  | H : TicketStore.db_result _ = Ok _ |- _ => apply map_err_Ok in H
  | H : DecisionStore.db_result _ = Ok _ |- _ => apply map_err_Ok in H
  | H : DecisionStore.candidate_state _ = Ok _ |- _ => apply ds_candidate_state in H
  end; bool_prop.

(** A locked ticket is a ticket in agreement with its current revision. *)
Definition locks (db : Database) (id : Z) (l : TicketStore.TicketRevisionLocked)
    (tr : TicketRevisionRow) (t : TicketRow) : Prop :=
  ticket_at db id (state_code (TicketStore.tl_state l)) tr t /\
  TicketStore.tl_ticket_id l = tr_ticket_id (tr_contract tr) /\
  TicketStore.tl_ticket_revision_id l = id /\
  TicketStore.tl_application_revision_id l = tr_application_revision_id (tr_contract tr) /\
  TicketStore.tl_revision l = tr_revision tr /\
  TicketStore.tl_expected_observation_artifact_id l
    = tr_expected_observation_artifact_id (tr_contract tr) /\
  TicketStore.tl_discovery_observation_artifact_id l
    = tr_discovery_observation_artifact_id (tr_contract tr).

Ltac lock_row t t0 := exists t, t0; repeat split; try assumption; eauto using ts_ticket_state, ds_ticket_state.

Lemma ts_lock_ticket_revision db id l :
  TicketStore.lock_ticket_revision db id = Ok l -> exists tr t, locks db id l tr t.
Proof.
  unfold TicketStore.lock_ticket_revision. intros H. ok_inv H. read_steps. subst.
  apply ticket_join_Some in H0 as [? ?].
  lock_row t t0.
Qed.

(** A locked attempt of either store, its ticket and its campaign. *)
Lemma ts_lock_ticket_attempt db id l :
  TicketStore.lock_ticket_attempt db id = Ok l ->
  exists a tr t,
    attempt_at db id a tr t (state_code (TicketStore.al_ticket_state l)) /\
    locks db (ta_ticket_revision_id (ta_claim a)) (TicketStore.al_ticket l) tr t /\
    TicketStore.al_stage l = ta_stage a /\
    TicketStore.al_released l = bool_decide (is_Some (ta_released_at a)) /\
    TicketStore.al_revision l = ta_revision a /\
    TicketStore.al_ticket_revision l = tr_revision tr /\
    TicketStore.al_ticket_state l = TicketStore.tl_state (TicketStore.al_ticket l).
Proof.
  unfold TicketStore.lock_ticket_attempt. intros H. ok_inv H. read_steps. subst.
  apply bind_Some in H0 as (a & Ha & ([tr' t'] & Hj & [= -> -> ->])%bind_Some).
  apply ticket_join_Some in Hj as [? ?].
  match goal with |- exists a0 tr t1, attempt_at _ _ _ _ _ (state_code ?s) /\ _ =>
    match goal with H1 : ticket_revisions db !! _ = Some ?tr, H2 : tickets db !! _ = Some ?t,
      H3 : ticket_attempts db !! _ = Some ?a |- _ => exists a, tr, t end end.
  repeat split; try assumption; eauto using ts_ticket_state.
Qed.

Lemma ds_lock_candidate_attempt db id l :
  DecisionStore.lock_candidate_attempt db id = Ok l ->
  exists a c tr t,
    attempt_at db id a tr t (state_code (DecisionStore.at_ticket_state l)) /\
    campaigns db !! ta_campaign_id (ta_claim a) = Some c /\
    l = {| DecisionStore.at_id := id;
           DecisionStore.at_campaign_id := ta_campaign_id (ta_claim a);
           DecisionStore.at_application_revision_id := cmp_application_revision_id c;
           DecisionStore.at_kernel_build_database_id := cmp_kernel_build_id c;
           DecisionStore.at_ticket_id := tr_ticket_id (tr_contract tr);
           DecisionStore.at_ticket_revision_id := ta_ticket_revision_id (ta_claim a);
           DecisionStore.at_ticket_state := DecisionStore.at_ticket_state l;
           DecisionStore.at_ticket_revision := tr_revision tr;
           DecisionStore.at_attempt_revision := ta_revision a;
           DecisionStore.at_stage := ta_stage a;
           DecisionStore.at_candidate_ordinal := ta_candidate_ordinal a;
           DecisionStore.at_rework_ordinal := ta_rework_ordinal a;
           DecisionStore.at_released := bool_decide (is_Some (ta_released_at a));
           DecisionStore.at_claimed_commit := ta_claimed_commit (ta_claim a);
           DecisionStore.at_claimed_tree := ta_claimed_tree (ta_claim a);
           DecisionStore.at_expected_observation_artifact_id :=
             tr_expected_observation_artifact_id (tr_contract tr);
           DecisionStore.at_discovery_observation_artifact_id :=
             tr_discovery_observation_artifact_id (tr_contract tr) |}.
Proof.
  unfold DecisionStore.lock_candidate_attempt. intros H. ok_inv H. read_steps. subst.
  apply bind_Some in H0 as (a & Ha & (c' & Hc & ([tr' t'] & Hj & [= -> -> -> ->])%bind_Some)%bind_Some).
  apply ticket_join_Some in Hj as [? ?].
  match goal with H1 : ticket_revisions db !! _ = Some ?tr, H2 : tickets db !! _ = Some ?t,
      H3 : ticket_attempts db !! _ = Some ?a, H4 : campaigns db !! _ = Some ?c |- _ =>
      exists a, c, tr, t end.
  repeat split; try assumption; eauto using ds_ticket_state.
Qed.

Lemma ds_lock_ticket_revision_state db id l :
  DecisionStore.lock_ticket_revision_state db id = Ok l ->
  exists tr t, ticket_at db id (state_code (DecisionStore.tk_ticket_state l)) tr t /\
    l = {| DecisionStore.tk_ticket_id := tr_ticket_id (tr_contract tr);
           DecisionStore.tk_ticket_revision_id := id;
           DecisionStore.tk_ticket_state := DecisionStore.tk_ticket_state l;
           DecisionStore.tk_ticket_revision := tr_revision tr |}.
Proof.
  unfold DecisionStore.lock_ticket_revision_state. intros H. ok_inv H. read_steps. subst.
  apply ticket_join_Some in H0 as [? ?].
  lock_row t t0.
Qed.

Lemma ds_load_candidate db id l :
  DecisionStore.load_candidate db id = Ok l ->
  exists c, candidates db !! id = Some c /\ 0 <= c_revision c /\
    l = {| DecisionStore.cl_id := id;
           DecisionStore.cl_ticket_attempt_id := c_ticket_attempt_id (c_evidence c);
           DecisionStore.cl_base_commit := c_base_commit (c_evidence c);
           DecisionStore.cl_candidate_tree := c_candidate_tree (c_evidence c);
           DecisionStore.cl_lifecycle := c_lifecycle c;
           DecisionStore.cl_revision := c_revision c;
           DecisionStore.cl_candidate_commit := c_candidate_commit c |}.
Proof.
  unfold DecisionStore.load_candidate. intros H. ok_inv H. read_steps. eauto.
Qed.

(** * Writing rows *)

Lemma alter_lookup {V} (f : V -> V) (k : Z) (m : gmap Z V) v :
  m !! k = Some v -> alter f k m = <[k := f v]> m.
Proof.
  intros H. apply map_eq. intros j. destruct (decide (k = j)) as [<-|Hj].
  - rewrite lookup_alter_eq, lookup_insert_eq, H. reflexivity.
  - rewrite lookup_alter_ne, lookup_insert_ne by done. reflexivity.
Qed.

Lemma update_attempt_put db id a f :
  ticket_attempts db !! id = Some a -> update_ticket_attempt id f db = put_attempt db id (f a).
Proof. intros H. unfold update_ticket_attempt, put_attempt. by rewrite (alter_lookup _ _ _ a). Qed.

Lemma update_candidate_put db id c f :
  candidates db !! id = Some c -> update_candidate id f db = put_candidate db id (f c).
Proof. intros H. unfold update_candidate, put_candidate. by rewrite (alter_lookup _ _ _ c). Qed.

(** Both halves of a ticket update, whatever else the revision row records. *)
Lemma ticket_update_moved db db1 id tr t f state sql :
  update_ticket_revision id f db = Ok db1 ->
  ticket_revisions db !! id = Some tr -> tickets db !! tr_ticket_id (tr_contract tr) = Some t ->
  (forall row, tr_contract (f row) = tr_contract row /\ tr_lifecycle (f row) = state /\
               tr_revision (f row) = sql) ->
  update_ticket (tr_ticket_id (tr_contract tr)) state sql db1 = moved db id (f tr) t /\
  ticket_revisions_live_reproducer_identity id (f tr) db = true.
Proof.
  intros H Hr Ht Hf. unfold update_ticket_revision in H. rewrite Hr in H.
  unfold put_ticket_revision in H. ok_inv H. split; [|assumption]. destruct (Hf tr) as (E1 & E2 & E3).
  unfold moved, update_ticket. cbn. rewrite (alter_lookup _ _ _ t Ht), E1, E2, E3. reflexivity.
Qed.

(** [moved_by H] closes a ticket-update lemma from the run [H] of its two UPDATEs. *)
Ltac moved_by H :=
  ok_inv H; read_steps;
  lazymatch goal with
  | Hu : update_ticket_revision _ _ _ = Ok _, Hr : ticket_revisions _ !! _ = Some _,
    Ht : tickets _ !! tr_ticket_id _ = Some _
    |- exists _, _ /\ update_ticket _ ?state ?sql _ = _ /\ _ =>
      let E := fresh "E" in
      edestruct (ticket_update_moved _ _ _ _ _ _ state sql Hu Hr Ht) as [E ?];
      [intros; repeat split|];
      eexists; split; [|split; [exact E|eassumption]]; repeat split
  end.

Lemma ts_update_ticket_states db l state next s b db' id tr t :
  locks db id l tr t -> next = tr_revision tr + 1 ->
  TicketStore.update_ticket_states db l state next s b = Ok db' ->
  exists tr', next_state tr tr' state /\ db' = moved db id tr' t /\
    ticket_revisions_live_reproducer_identity id tr' db = true.
Proof.
  intros ([Hr Ht _ _ _ _ _] & Hid & Hrid & _) -> H.
  unfold TicketStore.update_ticket_states in H. rewrite Hid, Hrid in H. moved_by H.
Qed.

Lemma ts_update_requalification db l state next code q b db' id tr t :
  locks db id l tr t -> next = tr_revision tr + 1 ->
  TicketStore.update_requalification_and_ticket_state db l state next code q b = Ok db' ->
  exists tr', next_state tr tr' state /\ db' = moved db id tr' t /\
    ticket_revisions_live_reproducer_identity id tr' db = true.
Proof.
  intros ([Hr Ht _ _ _ _ _] & Hid & Hrid & _) -> H.
  unfold TicketStore.update_requalification_and_ticket_state in H.
  rewrite Hid, Hrid in H. moved_by H.
Qed.

Lemma ds_update_ticket_state_parts db state next s b db' id tr t :
  ticket_revisions db !! id = Some tr -> tickets db !! tr_ticket_id (tr_contract tr) = Some t ->
  next = tr_revision tr + 1 ->
  DecisionStore.update_ticket_state_parts db (tr_ticket_id (tr_contract tr)) id state next s b
    = Ok db' ->
  exists tr', next_state tr tr' state /\ db' = moved db id tr' t /\
    ticket_revisions_live_reproducer_identity id tr' db = true.
Proof.
  intros Hr Ht -> H. unfold DecisionStore.update_ticket_state_parts in H. moved_by H.
Qed.

Lemma ds_update_ticket_requalification db l state next code q b db' id tr t :
  DecisionStore.update_ticket_requalification db l state next code q b = Ok db' ->
  DecisionStore.at_ticket_revision_id l = id ->
  DecisionStore.at_ticket_id l = tr_ticket_id (tr_contract tr) ->
  ticket_revisions db !! id = Some tr -> tickets db !! tr_ticket_id (tr_contract tr) = Some t ->
  next = tr_revision tr + 1 ->
  exists tr', next_state tr tr' state /\ db' = moved db id tr' t /\
    ticket_revisions_live_reproducer_identity id tr' db = true.
Proof.
  intros H Hid Htid Hr Ht ->. unfold DecisionStore.update_ticket_requalification in H.
  rewrite Hid, Htid in H. moved_by H.
Qed.

(** An accepted command writes one audit row under a key nothing used. *)
Lemma insert_audit_row_Ok p c f db id db' :
  insert_audit_row p c f db = Ok (id, db') ->
  audit_log db !! (p, c) = None /\
  exists row, db' = set_audit_log (<[(p, c) := row]> (audit_log db)) db.
Proof. unfold insert_audit_row. intros H. ok_inv H. bool_prop. split; eauto. Qed.

Lemma ts_insert_audit_transition db p c op fp k sid r id db' :
  TicketStore.insert_ticket_audit db p c op fp k sid r = Ok (id, db') -> transition db db'.
Proof.
  unfold TicketStore.insert_ticket_audit. intros H. ok_inv H. read_steps.
  apply insert_audit_row_Ok in H as [? [row ->]]. by apply t_audit.
Qed.

Lemma ds_insert_audit_transition db p c op fp k sid r id db' :
  DecisionStore.insert_audit db p c op fp k sid r = Ok (id, db') -> transition db db'.
Proof.
  unfold DecisionStore.insert_audit. intros H. ok_inv H. read_steps.
  apply insert_audit_row_Ok in H as [? [row ->]]. by apply t_audit.
Qed.

(** One state change followed by its audit row. *)
Lemma transition_then db db1 db2 :
  transition db db1 -> transition db1 db2 -> rtc transition db db2.
Proof. intros H1 H2. eapply rtc_l; [exact H1|]. by apply rtc_once. Qed.

(** * The ticket store *)

(** Replaces every successful lock by the rows it read. *)
Ltac open_locks :=
  repeat match goal with
  | H : TicketStore.lock_ticket_attempt _ _ = Ok ?l |- _ =>
      apply ts_lock_ticket_attempt in H
        as (?a & ?tr & ?t & ?Hat & ?Hlocks & ?Hstage & ?Hreleased & ?Hrev & ?Htrev & ?Hstate);
      rewrite ?Hstage, ?Hreleased, ?Hrev, ?Htrev in *
  | H : TicketStore.lock_ticket_revision _ _ = Ok ?l |- _ =>
      apply ts_lock_ticket_revision in H as (?tr & ?t & ?Hlocks)
  | H : DecisionStore.lock_candidate_attempt _ _ = Ok ?l |- _ =>
      apply ds_lock_candidate_attempt in H as (?a & ?cmp & ?tr & ?t & ?Hat & ?Hcmp & ?Hl);
      rewrite Hl in *; cbn [DecisionStore.at_id DecisionStore.at_campaign_id
        DecisionStore.at_application_revision_id DecisionStore.at_kernel_build_database_id
        DecisionStore.at_ticket_id DecisionStore.at_ticket_revision_id
        DecisionStore.at_ticket_state DecisionStore.at_ticket_revision
        DecisionStore.at_attempt_revision DecisionStore.at_stage
        DecisionStore.at_candidate_ordinal DecisionStore.at_rework_ordinal
        DecisionStore.at_released DecisionStore.at_claimed_commit
        DecisionStore.at_claimed_tree] in *
  | H : DecisionStore.lock_ticket_revision_state _ _ = Ok ?l |- _ =>
      apply ds_lock_ticket_revision_state in H as (?tr & ?t & ?Hat & ?Hl);
      rewrite Hl in *; cbn [DecisionStore.tk_ticket_id DecisionStore.tk_ticket_revision_id
        DecisionStore.tk_ticket_state DecisionStore.tk_ticket_revision] in *
  | H : DecisionStore.load_candidate _ _ = Ok ?l |- _ =>
      apply ds_load_candidate in H as (?cand & ?Hcand & ?Hnonneg & ->);
      cbn [DecisionStore.cl_id DecisionStore.cl_ticket_attempt_id DecisionStore.cl_base_commit
        DecisionStore.cl_candidate_tree DecisionStore.cl_lifecycle DecisionStore.cl_revision
        DecisionStore.cl_candidate_commit] in *
  end.

(** Replaces every ticket update by the abstract move it makes. *)
Ltac open_updates :=
  match goal with
  | Hl : locks ?db _ ?l _ _, Hu : TicketStore.update_ticket_states ?db ?l _ _ _ _ = Ok _ |- _ =>
      destruct (ts_update_ticket_states _ _ _ _ _ _ _ _ _ _ Hl eq_refl Hu)
        as (?tr' & ?Hn & -> & ?Hlive)
  | Hl : locks ?db _ ?l _ _,
    Hu : TicketStore.update_requalification_and_ticket_state ?db ?l _ _ _ _ _ = Ok _ |- _ =>
      destruct (ts_update_requalification _ _ _ _ _ _ _ _ _ _ _ Hl eq_refl Hu)
        as (?tr' & ?Hn & -> & ?Hlive)
  end.

(** The last write of an accepted command is its audit row. *)
Ltac then_audit :=
  match goal with
  | H : TicketStore.insert_ticket_audit _ _ _ _ _ _ _ _ = Ok _ |- _ =>
      apply ts_insert_audit_transition in H; eapply transition_then; [|exact H]; clear H
  | H : DecisionStore.insert_audit _ _ _ _ _ _ _ _ = Ok _ |- _ =>
      apply ds_insert_audit_transition in H; eapply transition_then; [|exact H]; clear H
  end.

(** Replays change nothing; accepted runs are read step by step. *)
Ltac run_op H := ok_inv H; try apply rtc_refl; read_steps; open_locks; read_steps.

Lemma fail_refines blake3 db c r db' :
  TicketStore.fail_ticket_attempt blake3 db c = Ok (r, db') -> rtc transition db db'.
Proof.
  unfold TicketStore.fail_ticket_attempt. intros H. run_op H. then_audit.
  rewrite <- H6 in Hat. rewrite (update_attempt_put _ _ _ _ (aa_attempt _ _ _ _ _ _ Hat)).
  eapply t_stage; [exact Hat|repeat split|reflexivity|discriminate].
Qed.

Lemma retry_quality_refines blake3 db c r db' :
  TicketStore.retry_quality_attempt blake3 db c = Ok (r, db') -> rtc transition db db'.
Proof.
  unfold TicketStore.retry_quality_attempt. intros H. run_op H. then_audit.
  rewrite <- H6 in Hat. rewrite (update_attempt_put _ _ _ _ (aa_attempt _ _ _ _ _ _ Hat)).
  eapply t_stage; [exact Hat|repeat split|reflexivity|discriminate].
Qed.

Lemma retry_engineering_refines blake3 db c r db' :
  TicketStore.retry_engineering_attempt blake3 db c = Ok (r, db') -> rtc transition db db'.
Proof.
  unfold TicketStore.retry_engineering_attempt. intros H. run_op H. then_audit.
  rewrite <- H6 in Hat. rewrite (update_attempt_put _ _ _ _ (aa_attempt _ _ _ _ _ _ Hat)).
  eapply t_stage; [exact Hat|repeat split|reflexivity|discriminate].
Qed.

Lemma sponsor_revision_refines blake3 db c r db' :
  TicketStore.sponsor_ticket_revision blake3 db c = Ok (r, db') -> rtc transition db db'.
Proof.
  unfold TicketStore.sponsor_ticket_revision. intros H. run_op H. then_audit.
  pose proof Hlocks as (Hat & _ & _ & _ & Hrev & _). rewrite Hrev in *. open_updates.
  rewrite <- H5 in Hat. eapply t_move; [exact Hat|exact Hn|apply list_elem_of_here|exact Hlive].
Qed.

Lemma complete_refines blake3 db c r db' :
  TicketStore.complete_campaign_at_delivery_target blake3 db c = Ok (r, db') ->
  rtc transition db db'.
Proof.
  unfold TicketStore.complete_campaign_at_delivery_target. intros H. run_op H. then_audit.
  unfold update_campaign_lifecycle. erewrite alter_lookup by eassumption.
  by eapply t_complete.
Qed.

Lemma propose_refines blake3 db c r db' :
  TicketStore.submit_ticket_proposal blake3 db c = Ok (r, db') -> rtc transition db db'.
Proof.
  unfold TicketStore.submit_ticket_proposal. intros H. run_op H. then_audit.
  match goal with Hp : put_ticket_revision _ _ _ = Ok _ |- _ =>
    unfold put_ticket_revision in Hp; ok_inv Hp end.
  unfold insert_ticket. cbn. eapply (t_propose db); cbn; try reflexivity. assumption.
Qed.

Lemma claim_campaign_guards db c l :
  TicketStore.validate_claim_campaign db c l = Ok tt ->
  exists campaign, campaigns db !! TicketStore.cst_campaign_id c = Some campaign /\
    cmp_application_revision_id campaign = TicketStore.tl_application_revision_id l /\
    current_ticket_revision_count (Z.eqb (TicketStore.tl_application_revision_id l))
      TICKET_IN_FLIGHT db <= 0.
Proof.
  unfold TicketStore.validate_claim_campaign. intros H. ok_inv H. read_steps.
  match goal with Hc : _ = Some ?row |- _ =>
    apply bind_Some in Hc as (cmp & Hcmp & (? & ? & (? & ? & [= ->])%bind_Some)%bind_Some) end.
  eauto.
Qed.

Lemma insert_attempt_Ok row db id db' :
  insert_ticket_attempt row db = Ok (id, db') ->
  id = fresh_id (ticket_attempts db) /\ db' = put_attempt db id row /\
  ticket_attempts_one_unreleased_revision row db = true.
Proof. unfold insert_ticket_attempt. intros H. ok_inv H. auto. Qed.

Lemma locks_put_attempt db id l tr t i a :
  locks db id l tr t -> locks (put_attempt db i a) id l tr t.
Proof. intros [[] ?]. split; [by constructor|assumption]. Qed.

Lemma claim_refines blake3 db c r db' :
  TicketStore.claim_sponsored_ticket blake3 db c = Ok (r, db') -> rtc transition db db'.
Proof.
  unfold TicketStore.claim_sponsored_ticket. intros H. run_op H. then_audit.
  pose proof Hlocks as (Hat & _ & _ & Happ & Hrev & _).
  match goal with Hc : TicketStore.validate_claim_campaign _ _ _ = Ok ?u |- _ =>
    destruct u; apply claim_campaign_guards in Hc as (cmp & Hcmp & Hsame & Hnone) end.
  match goal with Hs : Sponsored = _ |- _ => rewrite <- Hs in Hat end.
  rewrite Hrev, Happ in *.
  match goal with He : TicketStore.claim_effect _ _ _ _ ?o = Ok _ |- _ =>
    unfold TicketStore.claim_effect in He; destruct o; ok_inv He; read_steps; open_locks end.
  - match goal with Hi : insert_ticket_attempt _ _ = Ok _ |- _ =>
      apply insert_attempt_Ok in Hi as (-> & -> & Huniq) end.
    match goal with Hu : context [put_attempt _ ?i ?a] |- _ =>
      apply (locks_put_attempt _ _ _ _ _ i a) in Hlocks end.
    open_updates.
    by eapply t_claim.
  - open_updates. eapply t_move; [exact Hat|exact Hn| |exact Hlive].
    do 2 apply list_elem_of_further. apply list_elem_of_here.
  - open_updates. eapply t_move; [exact Hat|exact Hn| |exact Hlive].
    do 3 apply list_elem_of_further. apply list_elem_of_here.
Qed.

Lemma not_released a : ~ is_Some (ta_released_at a) -> ta_released_at a = None.
Proof. by rewrite eq_None_not_Some. Qed.

Lemma released_stage a :
  (ta_stage a =? ATTEMPT_FAILED) || (ta_stage a =? ATTEMPT_CANCELLED) = true ->
  ta_stage a ∈ [ATTEMPT_FAILED; ATTEMPT_CANCELLED].
Proof. intros H. rewrite !list_elem_of_In. simpl. lia. Qed.

Lemma release_plan_state o r s code b k :
  TicketStore.release_plan o = (r, s, code, b, k) ->
  s ∈ [TICKET_SPONSORED; TICKET_RESOLVED; TICKET_BLOCKED].
Proof. destruct o; intros [= <- <- <- <- <-]; rewrite !list_elem_of_In; simpl; tauto. Qed.

Lemma release_refines blake3 db c r db' :
  TicketStore.release_ticket_attempt blake3 db c = Ok (r, db') -> rtc transition db db'.
Proof.
  unfold TicketStore.release_ticket_attempt. intros H. run_op H. all: then_audit.
  all: match goal with Hs : InFlight = _ |- _ => rewrite <- Hs in Hat end.
  all: rewrite (update_attempt_put _ _ _ _ (aa_attempt _ _ _ _ _ _ Hat)) in *.
  all: match goal with Hu : context [put_attempt _ ?i ?a] |- _ =>
         apply (locks_put_attempt _ _ _ _ _ i a) in Hlocks end.
  all: open_updates; eapply t_release;
    eauto using not_released, released_stage, release_plan_state; reflexivity.
Qed.

(** * The decision store *)

Lemma insert_decision_Ok db kind tr ta c rv art p ov id db' :
  DecisionStore.insert_decision db kind tr ta c rv art p ov = Ok (id, db') ->
  id = fresh_id (architect_decisions db) /\
  exists d, db' = set_architect_decisions (<[id := d]> (architect_decisions db)) db /\
    d_decision_kind d = kind /\ d_candidate_id d = c /\ d_review_id d = rv /\
    d_overrides_quality_rejection d = ov /\
    decision_target_shape d = true /\ decision_override_shape d = true.
Proof.
  unfold DecisionStore.insert_decision, insert_architect_decision. intros H.
  read_steps. ok_inv H. split; [reflexivity|]. eexists. split; [reflexivity|].
  repeat split; assumption.
Qed.

Lemma ticket_at_same db db' id state tr t :
  ticket_revisions db' = ticket_revisions db -> tickets db' = tickets db ->
  ticket_at db id state tr t -> ticket_at db' id state tr t.
Proof. intros E1 E2 []. constructor; rewrite ?E1, ?E2; assumption. Qed.

(** A run whose last write is its audit row, seen from before that write. *)
Ltac before_audit :=
  match goal with
  | H : DecisionStore.insert_audit _ _ _ _ _ _ _ _ = Ok _ |- _ =>
      apply ds_insert_audit_transition in H; eapply rtc_r; [|exact H]; clear H
  end.

Lemma sponsorable s u :
  DecisionStore.require_sponsorable_ticket_state s = Ok u ->
  (state_code s, TICKET_SPONSORED) ∈
    [(TICKET_PROPOSED, TICKET_SPONSORED); (TICKET_BLOCKED, TICKET_SPONSORED);
     (TICKET_SPONSORED, TICKET_RESOLVED); (TICKET_SPONSORED, TICKET_BLOCKED)].
Proof.
  unfold DecisionStore.require_sponsorable_ticket_state. intros H%require_Ok.
  rewrite list_elem_of_In. destruct s; simpl in *; try discriminate; tauto.
Qed.

Lemma architect_sponsor_refines blake3 db c r db' :
  DecisionStore.sponsor_ticket blake3 db c = Ok (r, db') -> rtc transition db db'.
Proof.
  unfold DecisionStore.sponsor_ticket. intros H. run_op H. before_audit.
  match goal with Hi : DecisionStore.insert_decision _ _ _ _ _ _ _ _ _ = Ok _ |- _ =>
    apply insert_decision_Ok in Hi as (-> & dec & -> & Hk & Hc & _) end.
  eapply transition_then; [apply (t_office_decision db dec); [exact Hc|rewrite Hk; reflexivity]|].
  match goal with Hu : DecisionStore.update_ticket_state_parts ?db1 _ _ _ _ _ _ = Ok _ |- _ =>
    apply (ticket_at_same db db1) in Hat; try reflexivity;
    destruct (ds_update_ticket_state_parts _ _ _ _ _ _ _ _ _
      (at_revision _ _ _ _ _ Hat) (at_ticket _ _ _ _ _ Hat) eq_refl Hu)
      as (tr' & Hn & -> & Hlive) end.
  eapply t_move; [exact Hat|exact Hn| |exact Hlive]. eapply sponsorable. eassumption.
Qed.

Lemma ds_release_plan_state o r s code b :
  DecisionStore.release_plan o = (r, s, code, b) ->
  s ∈ [TICKET_SPONSORED; TICKET_RESOLVED; TICKET_BLOCKED].
Proof. destruct o; intros [= <- <- <- <-]; rewrite !list_elem_of_In; simpl; tauto. Qed.

Lemma attempt_at_same db db' id a tr t state :
  ticket_attempts db' = ticket_attempts db -> ticket_revisions db' = ticket_revisions db ->
  tickets db' = tickets db -> attempt_at db id a tr t state -> attempt_at db' id a tr t state.
Proof.
  intros E1 E2 E3 [Ha Ht]. constructor; [by rewrite E1|]. by eapply ticket_at_same.
Qed.

Lemma architect_release_refines blake3 db c r db' :
  DecisionStore.release_ticket_attempt blake3 db c = Ok (r, db') -> rtc transition db db'.
Proof.
  unfold DecisionStore.release_ticket_attempt. intros H. run_op H. before_audit.
  match goal with Hs : InFlight = _ |- _ => rewrite <- Hs in Hat end.
  match goal with Hi : DecisionStore.insert_decision _ _ _ _ _ _ _ _ _ = Ok _ |- _ =>
    apply insert_decision_Ok in Hi as (-> & dec & -> & Hk & Hc & _) end.
  eapply transition_then; [apply (t_office_decision db dec); [exact Hc|rewrite Hk; reflexivity]|].
  match goal with |- transition ?db1 _ =>
    apply (attempt_at_same db db1) in Hat; try reflexivity end.
  rewrite (update_attempt_put _ _ _ _ (aa_attempt _ _ _ _ _ _ Hat)) in *.
  match goal with Hu : DecisionStore.update_ticket_requalification _ _ _ _ _ _ _ = Ok _ |- _ =>
    edestruct (ds_update_ticket_requalification _ _ _ _ _ _ _ _ _ tr t Hu eq_refl eq_refl
      (at_revision _ _ _ _ _ (aa_ticket _ _ _ _ _ _ Hat))
      (at_ticket _ _ _ _ _ (aa_ticket _ _ _ _ _ _ Hat)) eq_refl)
      as (tr' & Hn & -> & Hlive) end.
  eapply t_release; eauto using not_released, released_stage, ds_release_plan_state; reflexivity.
Qed.

Lemma insert_candidate_Ok row db id db' :
  insert_candidate row db = Ok (id, db') ->
  id = fresh_id (candidates db) /\ db' = put_candidate db id row /\
  candidate_trees_differ (c_evidence row) = true.
Proof. unfold insert_candidate. intros H. ok_inv H. auto. Qed.

Lemma engineering_stage s :
  (s =? ATTEMPT_ENGINEERING) || (s =? ATTEMPT_REWORK_ENGINEERING) = true ->
  s ∈ [ATTEMPT_ENGINEERING; ATTEMPT_REWORK_ENGINEERING].
Proof. intros H. rewrite !list_elem_of_In. simpl. lia. Qed.

Lemma submit_candidate_refines blake3 db c r db' :
  DecisionStore.submit_candidate blake3 db c = Ok (r, db') -> rtc transition db db'.
Proof.
  unfold DecisionStore.submit_candidate. intros H. run_op H. all: then_audit.
  all: match goal with Hs : InFlight = _ |- _ => rewrite <- Hs in Hat end.
  all: match goal with Hi : insert_candidate _ _ = Ok _ |- _ =>
    apply insert_candidate_Ok in Hi as (-> & -> & Htrees) end.
  all: rewrite (update_attempt_put _ _ a) by apply (aa_attempt _ _ _ _ _ _ Hat).
  all: eapply t_submit; [exact Hat|by apply engineering_stage|..]; try assumption; try done.
  all: cbn; case_match; rewrite !list_elem_of_In; simpl; auto.
Qed.

Lemma insert_validation_Ok row db id db' :
  insert_validation row db = Ok (id, db') ->
  id = fresh_id (validations db) /\
  db' = set_validations (<[id := row]> (validations db)) db /\
  forall i other, validations db !! i = Some other -> v_candidate_id other = v_candidate_id row ->
    v_validation_scope other <> v_validation_scope row.
Proof.
  unfold insert_validation. intros H. ok_inv H. bool_prop.
  split; [reflexivity|]. split; [reflexivity|]. intros i other Hi E1 E2.
  match goal with He : exists_where _ _ = false |- _ =>
    rewrite exists_where_false in He; specialize (He i other Hi) end.
  rewrite E1, E2, !Z.eqb_refl in *. discriminate.
Qed.

(** The stage a validation requires, and the stage it leads to. *)
Lemma validation_outcome_cases scope res stage c s :
  DecisionStore.validation_outcome scope res stage = (c, s) ->
  c = (if DecisionStore.result_code res =? VALIDATION_PASSED
       then CANDIDATE_VALIDATED else CANDIDATE_REJECTED) /\ s <> ATTEMPT_DELIVERED.
Proof.
  unfold DecisionStore.validation_outcome.
  destruct res, scope; simpl; try case_match; intros [= <- <-]; split; done.
Qed.

Lemma kernel_build_Ok db build expected id :
  DecisionStore.require_kernel_build db build expected = Ok id -> id = expected.
Proof. unfold DecisionStore.require_kernel_build. intros H. ok_inv H. by bool_prop. Qed.

Lemma validation_scope_state (scope : DecisionStore.ValidationScope) lifecycle :
  lifecycle = candidate_code
    (match scope with
     | DecisionStore.HardCandidate => DecisionStore.CandidateSubmitted
     | DecisionStore.QualityFullSuite => DecisionStore.CandidateValidated end) ->
  (DecisionStore.scope_code scope, lifecycle) ∈ [(0, CANDIDATE_SUBMITTED); (1, CANDIDATE_VALIDATED)].
Proof. intros ->. rewrite list_elem_of_In. destruct scope; simpl; auto. Qed.

Lemma record_validation_refines blake3 db c r db' :
  DecisionStore.record_validation blake3 db c = Ok (r, db') -> rtc transition db db'.
Proof.
  unfold DecisionStore.record_validation. intros H. run_op H. then_audit.
  match goal with Hs : InFlight = _ |- _ => rewrite <- Hs in Hat end.
  match goal with Hi : insert_validation _ _ = Ok _ |- _ =>
    apply insert_validation_Ok in Hi as (-> & -> & Huniq) end.
  match goal with Hb : DecisionStore.require_kernel_build _ _ _ = Ok _ |- _ =>
    apply kernel_build_Ok in Hb as -> end.
  match goal with Ho : DecisionStore.validation_outcome _ _ _ = _ |- _ =>
    apply validation_outcome_cases in Ho as [-> Hstage] end.
  rewrite (update_candidate_put _ _ cand) by assumption.
  rewrite (update_attempt_put _ _ a) by apply (aa_attempt _ _ _ _ _ _ Hat).
  eapply t_validate; [eassumption|exact Hat|eassumption|..]; try reflexivity; try done.
  - apply validation_scope_state. cbn. congruence.
  - cbn. lia.
Qed.

Lemma attach_refines blake3 db c r db' :
  DecisionStore.attach_candidate_commit blake3 db c = Ok (r, db') -> rtc transition db db'.
Proof.
  unfold DecisionStore.attach_candidate_commit. intros H. run_op H. then_audit.
  rewrite (update_candidate_put _ _ cand) by assumption.
  eapply t_attach; try done. by subst.
Qed.

Lemma insert_review_Ok row db id db' :
  insert_review row db = Ok (id, db') ->
  id = fresh_id (reviews db) /\ db' = set_reviews (<[id := row]> (reviews db)) db /\
  forall i other, reviews db !! i = Some other -> r_candidate_id other <> r_candidate_id row.
Proof.
  unfold insert_review. intros H. ok_inv H. bool_prop.
  split; [reflexivity|]. split; [reflexivity|]. intros i other Hi E1.
  match goal with He : exists_where (fun _ _ => r_candidate_id _ =? _) _ = false |- _ =>
    rewrite exists_where_false in He; specialize (He i other Hi) end.
  rewrite E1, Z.eqb_refl in *. discriminate.
Qed.

Lemma load_quality_validation_Ok db id candidate_id v :
  DecisionStore.load_quality_validation db id candidate_id = Ok v ->
  validations db !! id = Some v /\ v_candidate_id v = candidate_id /\ v_validation_scope v = 1.
Proof.
  unfold DecisionStore.load_quality_validation. intros H. ok_inv H.
  match goal with Hv : _ = Some v |- _ =>
    apply bind_Some in Hv as (row & Hrow & Hv); case_match; [|discriminate]; simplify_eq end.
  bool_prop. auto.
Qed.

Lemma review_refines blake3 db c r db' :
  DecisionStore.submit_quality_review blake3 db c = Ok (r, db') -> rtc transition db db'.
Proof.
  unfold DecisionStore.submit_quality_review. intros H. run_op H. then_audit.
  match goal with Hi : insert_review _ _ = Ok _ |- _ =>
    apply insert_review_Ok in Hi as (-> & -> & Huniq) end.
  match goal with Hq : DecisionStore.load_quality_validation _ _ _ = Ok _ |- _ =>
    apply load_quality_validation_Ok in Hq as (Hv & ? & ?) end.
  rewrite (update_candidate_put _ _ cand) by assumption.
  rewrite (update_attempt_put _ _ a) by apply (aa_attempt _ _ _ _ _ _ Hat).
  eapply t_review; [eassumption|apply (aa_attempt _ _ _ _ _ _ Hat)|..]; try done.
  cbn. lia.
Qed.

Lemma validation_passed_has_passed db id scope :
  DecisionStore.validation_passed db id scope = true ->
  has_passed db id (DecisionStore.scope_code scope).
Proof.
  unfold DecisionStore.validation_passed. rewrite exists_where_true.
  intros (k & v & Hv & Hp). bool_prop. by exists k, v.
Qed.

Lemma hard_and_quality_passed db id u :
  DecisionStore.require_hard_and_quality_validation db id = Ok u ->
  has_passed db id 0 /\ has_passed db id 1.
Proof.
  unfold DecisionStore.require_hard_and_quality_validation. intros H. ok_inv H.
  split; [by apply (validation_passed_has_passed _ _ DecisionStore.HardCandidate)|
          by apply (validation_passed_has_passed _ _ DecisionStore.QualityFullSuite)].
Qed.

Lemma load_review_Ok db id r : DecisionStore.load_review db id = Ok r -> reviews db !! id = Some r.
Proof. unfold DecisionStore.load_review. intros H. by ok_inv H. Qed.

(** The rows an accepted decision was based on. *)
Ltac decision_reads :=
  match goal with Hs : InFlight = _, Hat : attempt_at _ _ _ _ _ _ |- _ => rewrite <- Hs in Hat end;
  match goal with Hi : DecisionStore.insert_decision _ _ _ _ _ _ _ _ _ = Ok _ |- _ =>
    apply insert_decision_Ok in Hi as (-> & dec & -> & Hk & Hc & Hrev & Hov & _ & Hshape) end;
  match goal with Hq : DecisionStore.require_hard_and_quality_validation _ _ = Ok _ |- _ =>
    apply hard_and_quality_passed in Hq as [Hhard Hquality] end;
  match goal with Hl : DecisionStore.load_review _ _ = Ok _ |- _ =>
    apply load_review_Ok in Hl end.

Lemma decide_refines blake3 db c r db' :
  DecisionStore.decide_candidate blake3 db c = Ok (r, db') -> rtc transition db db'.
Proof.
  unfold DecisionStore.decide_candidate. intros H. run_op H.
  all: clear Hl; then_audit; decision_reads.
  all: destruct (request_decision (DecisionStore.dc_request c)) eqn:Hdec; try done.
  all: match goal with He : DecisionStore.decision_effect _ = _ |- _ => injection He as <- <- end.
  all: rewrite (update_candidate_put _ _ cand) in * by assumption.
  all: rewrite (update_attempt_put _ _ a) in * by apply (aa_attempt _ _ _ _ _ _ Hat).
  all: subst.
  all: change (bool_decide (Deliver = Rework)) with false in *;
    change (bool_decide (RejectCandidate = Rework)) with false in *;
    change (bool_decide (Rework = Rework)) with true in *.
  - eapply t_decide; [exact Hcand|eassumption|exact Hat|..]; try eassumption; try reflexivity;
      [eauto|repeat split|left].
    repeat split; cbn; try (assumption || lia || by rewrite Hk).
  - lazymatch goal with Hu : DecisionStore.update_ticket_state ?db1 _ _ _ _ _ = Ok _ |- _ =>
      unfold DecisionStore.update_ticket_state in Hu;
      cbn [DecisionStore.at_ticket_id DecisionStore.at_ticket_revision_id] in Hu;
      destruct (ds_update_ticket_state_parts db1 _ _ _ _ _ _ tr t
        (at_revision _ _ _ _ _ (aa_ticket _ _ _ _ _ _ Hat))
        (at_ticket _ _ _ _ _ (aa_ticket _ _ _ _ _ _ Hat)) eq_refl Hu)
        as (tr' & Hn & -> & Hlive) end.
    eapply (t_decide db _ cand _ a _ tr t _ dec (moved db _ tr' t));
      [exact Hcand|eassumption|exact Hat|..]; try eassumption; try reflexivity;
      [eauto|repeat split|right; right].
    repeat split; cbn; try (assumption || lia || by rewrite Hk). by exists tr'.
  - eapply t_decide; [exact Hcand|eassumption|exact Hat|..]; try eassumption; try reflexivity;
      [eauto|repeat split|right; left].
    bool_prop. repeat split; cbn; try (assumption || by rewrite Hk).
    all: simpl in *; bool_prop; lia.
Qed.

Lemma insert_delivery_Ok row db id db' :
  insert_delivery row db = Ok (id, db') ->
  id = fresh_id (deliveries db) /\ db' = set_deliveries (<[id := row]> (deliveries db)) db /\
  forall i other, deliveries db !! i = Some other -> dl_candidate_id other <> dl_candidate_id row.
Proof.
  unfold insert_delivery. intros H. ok_inv H. bool_prop.
  split; [reflexivity|]. split; [reflexivity|]. intros i other Hi E1.
  match goal with He : exists_where _ _ = false |- _ =>
    rewrite exists_where_false in He; specialize (He i other Hi) end.
  rewrite E1, Z.eqb_refl in *. discriminate.
Qed.

Lemma load_campaign_Ok db id c :
  DecisionStore.load_campaign db id = Ok c -> campaigns db !! id = Some c.
Proof. unfold DecisionStore.load_campaign. intros H. by ok_inv H. Qed.

(** One more attempt of the campaign counts as delivered. *)
Lemma delivered_attempt_count_put db id a a' :
  ticket_attempts db !! id = Some a -> ta_claim a' = ta_claim a ->
  ta_stage a <> ATTEMPT_DELIVERED -> ta_stage a' = ATTEMPT_DELIVERED ->
  delivered_attempt_count (ta_campaign_id (ta_claim a)) (put_attempt db id a')
  = delivered_attempt_count (ta_campaign_id (ta_claim a)) db + 1.
Proof.
  intros Ha Hc Hs Hs'. unfold delivered_attempt_count. cbn.
  apply (count_where_insert_new _ _ _ a); [exact Ha|lia|].
  rewrite Hc, Hs', Z.eqb_refl. reflexivity.
Qed.

Lemma deliver_refines blake3 db c r db' :
  DecisionStore.record_delivery blake3 db c = Ok (r, db') -> rtc transition db db'.
Proof.
  unfold DecisionStore.record_delivery. intros H. run_op H.
  all: clear Hl; before_audit.
  all: match goal with Hs : InFlight = _, Hat : attempt_at _ _ _ _ _ _ |- _ =>
         rewrite <- Hs in Hat end.
  all: match goal with Hi : insert_delivery _ _ = Ok _ |- _ =>
         apply insert_delivery_Ok in Hi as (-> & -> & Huniq) end.
  all: match goal with Hi : DecisionStore.load_campaign _ _ = Ok _ |- _ =>
         apply load_campaign_Ok in Hi; rewrite Hcmp in Hi; injection Hi as <- end.
  all: rewrite (update_candidate_put _ _ cand) in * by assumption.
  all: rewrite (update_attempt_put _ _ a) in * by apply (aa_attempt _ _ _ _ _ _ Hat).
  all: lazymatch goal with Hu : DecisionStore.update_ticket_state ?db1 _ _ _ _ _ = Ok _ |- _ =>
      unfold DecisionStore.update_ticket_state in Hu;
      cbn [DecisionStore.at_ticket_id DecisionStore.at_ticket_revision_id] in Hu;
      destruct (ds_update_ticket_state_parts db1 _ _ _ _ _ _ tr t
        (at_revision _ _ _ _ _ (aa_ticket _ _ _ _ _ _ Hat))
        (at_ticket _ _ _ _ _ (aa_ticket _ _ _ _ _ _ Hat)) eq_refl Hu)
        as (tr' & Hn & -> & Hlive) end.
  all: subst.
  all: match goal with Hl : ticket_revisions_live_reproducer_identity ?id _ ?db1 = true |- _ =>
    assert (Hstep : transition db (moved db1 id tr' t));
      [eapply t_deliver; [exact Hcand|eassumption|exact Hat|assumption|..]; try done; cbn; lia|] end.
  - eapply transition_then; [exact Hstep|].
    unfold update_campaign_lifecycle. erewrite alter_lookup by exact Hcmp.
    eapply t_complete; [exact Hcmp|done..|]. cbn.
    erewrite <- delivered_attempt_count_put in Heqb; [exact Heqb|apply Hat|done| |done].
    match goal with Hs : ta_stage a = _ |- _ => by rewrite Hs end.
  - by apply rtc_once.
Qed.

(** * Every committed command *)

Lemma committed_Some {E R} (r : result E (R * Database)) db :
  committed r = Some db <-> exists receipt, r = Ok (receipt, db).
Proof.
  destruct r as [[receipt db0]|e]; simpl; split; [|intros [? [= <- <-]]; done|done|by intros [? ?]].
  intros [= <-]. eauto.
Qed.

Lemma execute_transitions blake3 db command db' :
  execute blake3 db command = Some db' -> rtc transition db db'.
Proof.
  destruct command; simpl; rewrite committed_Some; intros [receipt H].
  - by eapply propose_refines.
  - by eapply sponsor_revision_refines.
  - by eapply claim_refines.
  - by eapply fail_refines.
  - by eapply retry_quality_refines.
  - by eapply retry_engineering_refines.
  - by eapply release_refines.
  - by eapply complete_refines.
  - by eapply submit_candidate_refines.
  - by eapply record_validation_refines.
  - by eapply attach_refines.
  - by eapply review_refines.
  - by eapply architect_sponsor_refines.
  - by eapply architect_release_refines.
  - by eapply decide_refines.
  - by eapply deliver_refines.
Qed.

(** Runs of the kernel are runs of the abstract lifecycle. *)
Lemma steps_transitions blake3 db db' :
  rtc (step blake3) db db' -> rtc transition db db'.
Proof.
  induction 1 as [|x y z Hs _ IH]; [apply rtc_refl|]. etransitivity; [|exact IH].
  destruct Hs as [command y H|y H]; [by eapply execute_transitions|].
  by apply rtc_once, t_environment.
Qed.

(** A property every transition preserves holds wherever the kernel can get. *)
Lemma reachable_invariant (P : Database -> Prop) blake3 db :
  (forall x, initial x -> P x) -> (forall x y, transition x y -> P x -> P y) ->
  reachable blake3 db -> P db.
Proof.
  intros Hi Ht (db0 & H0 & Hr%steps_transitions).
  apply Hi in H0. induction Hr; eauto.
Qed.

(** A reflexive transitive relation every transition respects holds between
    the two ends of every run. *)
Lemma transitions_relate (R : Database -> Database -> Prop) `{!PreOrder R} db db' :
  (forall x y, transition x y -> R x y) -> rtc transition db db' -> R db db'.
Proof. intros Ht Hr. induction Hr; [reflexivity|]. etransitivity; eauto. Qed.
