(* ===== verification/Kernel.v ===== *)
(** The process commands next to the ticket commands: every committed process
    command is a step of the environment the ticket lifecycle tolerates, so
    what the other files prove of all runs holds of the whole kernel's runs. *)
From S2P Require Import Prelude Values Database Lifecycle Refinement ProcessStore ProviderEffects.
From S2P Require TicketStore.

(** * Commands *)

Inductive ProcessCommand :=
  | BeginCampaign (c : StartCampaign)
  | AdmitCancellation (c : CancelCampaign)
  | FinishCancellation (c : CancelCampaign) (reconciled : ReconciledSessionCancellation)
  | FailRunningCampaign (c : FailCampaign)
  | PrepareAssignment (wire : WirePrompts) (c : CreateAssignment)
  | BeginSession (c : StartSession)
  | BeginEffect (session_id assignment_id : Z) (r : SessionProviderRequestStartRequest)
  | SettleEffect (session_id assignment_id : Z) (r : SessionProviderRequestSettleRequest)
  | EndSession (principal command_id : string) (session_id : Z) (report : TerminalReportV2)
      (evidence : VerifiedTerminalEvidence).

Definition execute_process (blake3 : list Z -> ContentDigest)
    (to_timestamp : Z -> result string Z) (db : Database) (command : ProcessCommand)
  : option Database :=
  match command with
  | BeginCampaign c => committed (start_campaign blake3 to_timestamp db c)
  | AdmitCancellation c => committed (admit_campaign_cancellation blake3 db c)
  | FinishCancellation c r => committed (finish_campaign_cancellation blake3 db c r)
  | FailRunningCampaign c => committed (fail_campaign blake3 db c)
  | PrepareAssignment wire c => committed (create_assignment blake3 db wire c)
  | BeginSession c => committed (start_session blake3 db c)
  | BeginEffect s a r => committed (provider_effect_start db s a r)
  | SettleEffect s a r => committed (provider_effect_settle db s a r)
  | EndSession p k s report evidence =>
      committed (terminal_session blake3 db p k s report evidence)
  end.

(** What neither store does: artifacts, builds and application revisions are
    registered, other operations are audited and time passes. *)
Record ambient (db db' : Database) : Prop := {
  ambient_environment : environment db db';
  ambient_campaigns : campaigns db' = campaigns db;
  ambient_assignments : assignments db' = assignments db;
  ambient_sessions : sessions db' = sessions db;
  ambient_effects : provider_effects db' = provider_effects db;
}.

Inductive kernel_step (blake3 : list Z -> ContentDigest) (to_timestamp : Z -> result string Z)
    (db : Database) : Database -> Prop :=
  | kernel_ticket command db' :
      execute blake3 db command = Some db' -> kernel_step blake3 to_timestamp db db'
  | kernel_process command db' :
      execute_process blake3 to_timestamp db command = Some db' ->
      kernel_step blake3 to_timestamp db db'
  | kernel_ambient db' : ambient db db' -> kernel_step blake3 to_timestamp db db'.

(** An installation before any campaign. *)
Record pristine (db : Database) : Prop := {
  pristine_initial : initial db;
  pristine_campaigns : campaigns db = ∅;
  pristine_assignments : assignments db = ∅;
  pristine_sessions : sessions db = ∅;
  pristine_effects : provider_effects db = ∅;
}.

Definition kernel_reachable (blake3 : list Z -> ContentDigest)
    (to_timestamp : Z -> result string Z) (db : Database) : Prop :=
  exists db0, pristine db0 /\ rtc (kernel_step blake3 to_timestamp) db0 db.

(** An assignment row after its session ended. *)
Definition finished (lifecycle : Z) (a : AssignmentRow) : AssignmentRow :=
  if as_lifecycle a =? SESSION_RUNNING
  then set_assignment_lifecycle lifecycle (as_revision a + 1) a else a.

(** * What a committed process command does

    One move of the process tables, then one audit row. *)

Inductive process_move (db : Database) : Database -> Prop :=
  | m_audit key row :
      audit_log db !! key = None ->
      process_move db (set_audit_log (<[key := row]> (audit_log db)) db)
  | m_campaign c :
      campaigns_one_running db = true ->
      cmp_lifecycle c = CAMPAIGN_RUNNING -> cmp_measured_cost_micro_usd c = 0 ->
      cmp_cost_state c = COST_KNOWN -> cmp_failure_reason c = None ->
      0 <= cmp_aggregate_budget_micro_usd c <= i64_max ->
      process_move db (set_campaigns (<[fresh_id (campaigns db) := c]> (campaigns db)) db)
  | m_close id c c' :
      campaigns db !! id = Some c -> cmp_lifecycle c = CAMPAIGN_RUNNING ->
      (cmp_lifecycle c' = CAMPAIGN_CANCELLED \/
       cmp_lifecycle c' = CAMPAIGN_FAILED /\ running_session_of id db = None) ->
      c' = close_campaign (cmp_lifecycle c') (cmp_revision c + 1) (cmp_failure_reason c') c ->
      failure_reason_matches_lifecycle c' = true ->
      process_move db (set_campaigns (<[id := c']> (campaigns db)) db)
  | m_assignment id a c :
      assignments db !! id = None ->
      campaigns db !! ai_campaign_id (as_identity a) = Some c ->
      cmp_lifecycle c = CAMPAIGN_RUNNING -> cmp_cost_state c = COST_KNOWN ->
      as_lifecycle a = SESSION_PREPARED ->
      ai_remaining_campaign_allowance_micro_usd (as_identity a)
        = cmp_aggregate_budget_micro_usd c - cmp_measured_cost_micro_usd c ->
      cmp_application_revision_id c = ai_application_revision_id (as_identity a) ->
      process_move db (set_campaigns
        (<[ai_campaign_id (as_identity a) := bump_campaign (cmp_revision c + 1) c]> (campaigns db))
        (set_assignments (<[id := a]> (assignments db)) db))
  | m_session id a c s :
      assignments db !! id = Some a ->
      campaigns db !! ai_campaign_id (as_identity a) = Some c ->
      cmp_lifecycle c = CAMPAIGN_RUNNING -> cmp_cost_state c = COST_KNOWN ->
      as_lifecycle a = SESSION_PREPARED -> paid_session_active db = false ->
      (forall i other, sessions db !! i = Some other ->
         si_assignment_id (ses_identity other) <> id) ->
      (exists pid pgid started, s = session_row id (as_identity a) pid pgid started) ->
      process_move db (set_assignments
        (<[id := set_assignment_lifecycle SESSION_RUNNING (as_revision a + 1) a]> (assignments db))
        (set_sessions (<[fresh_id (sessions db) := s]> (sessions db)) db))
  | m_effect_start e s :
      sessions db !! pi_session_id (pe_intent e) = Some s -> ses_lifecycle s = SESSION_RUNNING ->
      si_assignment_id (ses_identity s) = pi_assignment_id (pe_intent e) ->
      pe_state e = provider_effect_code EffectStarted -> pe_settlement e = None ->
      (forall i other, provider_effects db !! i = Some other ->
         same_effect (pe_intent other) (pe_intent e) = false) ->
      process_move db (set_provider_effects
        (<[fresh_id (provider_effects db) := e]> (provider_effects db)) db)
  | m_effect_settle id e state settlement s :
      provider_effects db !! id = Some e -> pe_state e = provider_effect_code EffectStarted ->
      sessions db !! pi_session_id (pe_intent e) = Some s -> ses_lifecycle s = SESSION_RUNNING ->
      state <> EffectStarted ->
      process_move db (set_provider_effects
        (<[id := settled_effect state settlement e]> (provider_effects db)) db)
  | m_terminal id s a c t outcome reason :
      session_join db id = Some (s, a, c) -> ses_lifecycle s = SESSION_RUNNING ->
      0 <= cmp_aggregate_budget_micro_usd c -> 0 <= cmp_measured_cost_micro_usd c ->
      terminal_outcome (terminal_cost (Some (st_usage t))) reason c
        (cmp_aggregate_budget_micro_usd c) (cmp_measured_cost_micro_usd c) = Ok outcome ->
      next_measured outcome <= i64_max ->
      st_cost_state t = next_cost_state outcome -> st_cost_micro_usd t = cost_value outcome ->
      st_stop_reason t = stop_reason_code reason ->
      session_terminal_checks (session_state_code (session_state reason)) t = true ->
      failure_reason_matches_lifecycle (settle_campaign outcome (next_measured outcome)
        (cmp_revision c + 1) c) = true ->
      process_move db (set_campaigns
        (<[ses_campaign_id s :=
           settle_campaign outcome (next_measured outcome) (cmp_revision c + 1) c]> (campaigns db))
        (set_assignments
          (alter (finished (assignment_state_code (session_state reason)))
            (si_assignment_id (ses_identity s)) (assignments db))
          (set_sessions (<[id := {| ses_identity := ses_identity s;
                                    ses_lifecycle := session_state_code (session_state reason);
                                    ses_terminal := Some t;
                                    ses_revision := ses_revision s + 1 |}]> (sessions db)) db))).
