(* ===== verification/ProcessRefinement.v ===== *)
(** Every committed process command is a sequence of process moves, every move
    is an environment step of the ticket lifecycle, and no ticket command
    touches the process tables except to complete a campaign. *)
From S2P Require Import Prelude Values Database Lifecycle Refinement ProcessStore ProviderEffects Kernel.
From S2P Require TicketStore DecisionStore.

(** * Reading a successful run *)

Lemma ps_new_id kind v w : new_id kind v = Ok w <-> 0 < v /\ w = v.
Proof. unfold new_id. rewrite map_err_Ok. apply identifier_Ok. Qed.

Lemma ps_next_revision r n : next_revision r = Ok n -> n = r + 1.
Proof. unfold next_revision. intros H%map_err_Ok. by apply revision_next_Ok. Qed.

Lemma bounded_Ok {A} (b : bool) (v w : A) (e : ProcessError) :
  (if b then Ok v else Err e) = Ok w <-> b = true /\ w = v.
Proof. destruct b; split; [intros [= <-]; auto|by intros [_ ->]|done|by intros [? _]]. Qed.

Lemma to_i64_Ok v e w : to_i64 v e = Ok w <-> v <= i64_max /\ w = v.
Proof. unfold to_i64. by rewrite bounded_Ok, Z.leb_le. Qed.

Lemma to_i32_Ok v e w : to_i32 v e = Ok w <-> v <= i32_max /\ w = v.
Proof. unfold to_i32. by rewrite bounded_Ok, Z.leb_le. Qed.

Lemma cost_column_Ok v w : cost_column v = Ok w <-> 0 <= v /\ w = v.
Proof.
  unfold cost_column. destruct (Z.ltb_spec v 0); split; try discriminate; try lia.
  - intros [= <-]. auto.
  - intros [_ ->]. reflexivity.
Qed.

Lemma ps_revision_from_sql v w : revision_from_sql v = Ok w <-> 0 <= v /\ w = v.
Proof.
  unfold revision_from_sql. destruct (Z.ltb_spec v 0); split; try discriminate; try lia.
  - intros [= <-]. auto.
  - intros [_ ->]. reflexivity.
Qed.

Lemma ps_revision_to_sql v w : revision_to_sql v = Ok w <-> v <= i64_max /\ w = v.
Proof. apply to_i64_Ok. Qed.

Lemma add_cost_Ok m v t : add_cost m v = Ok t <-> m + v <= u64_max /\ t = m + v.
Proof.
  unfold add_cost, checked_add_u64. rewrite ok_or_Ok.
  destruct (Z.leb_spec (m + v) u64_max); split; try done; try lia.
  - intros [= <-]. auto.
  - intros [_ ->]. done.
Qed.

Lemma remaining_allowance_Ok c r :
  remaining_allowance c = Ok r <->
  0 <= cmp_measured_cost_micro_usd c <= cmp_aggregate_budget_micro_usd c /\
  r = cmp_aggregate_budget_micro_usd c - cmp_measured_cost_micro_usd c.
Proof.
  unfold remaining_allowance. split.
  - intros H. ok_inv H. apply cost_column_Ok in H0 as [? ->], H1 as [? ->].
    bool_prop. split; [lia|done].
  - intros [? ->]. unfold cost_column.
    rewrite !(proj2 (Z.ltb_ge _ _)) by lia. simpl. by rewrite (proj2 (Z.leb_le _ _)) by lia.
Qed.

(** Reads every elementary step of a successful process run. *)
Ltac read_process :=
  repeat match goal with
  | H : new_id _ _ = Ok _ |- _ => apply ps_new_id in H as [? ->]
  | H : revision_from_sql _ = Ok _ |- _ => apply ps_revision_from_sql in H as [? ->]
  | H : revision_to_sql _ = Ok _ |- _ => apply ps_revision_to_sql in H as [? ->]
  | H : next_revision _ = Ok _ |- _ => apply ps_next_revision in H as ->
  | H : to_i64 _ _ = Ok _ |- _ => apply to_i64_Ok in H as [? ->]
  | H : to_i32 _ _ = Ok _ |- _ => apply to_i32_Ok in H as [? ->]
  | H : cost_column _ = Ok _ |- _ => apply cost_column_Ok in H as [? ->]
  | H : remaining_allowance _ = Ok _ |- _ => apply remaining_allowance_Ok in H as [? ->]
  | H : require_expected _ _ = Ok _ |- _ => apply require_Ok in H
  | H : db_result _ = Ok _ |- _ => apply map_err_Ok in H
  | H : campaign_running _ = true |- _ => apply Z.eqb_eq in H
  end; bool_prop.

Lemma ps_insert_audit_move db p c op fp k sid r id db' :
  insert_audit db p c op fp k sid r = Ok (id, db') -> process_move db db'.
Proof.
  unfold insert_audit. intros H. ok_inv H. read_process.
  apply insert_audit_row_Ok in H as [? [row ->]]. by apply m_audit.
Qed.

Lemma move_then db db1 db2 :
  process_move db db1 -> process_move db1 db2 -> rtc process_move db db2.
Proof. intros H1 H2. eapply rtc_l; [exact H1|]. by apply rtc_once. Qed.

(** The last write of an accepted command is its audit row. *)
Ltac then_audited :=
  match goal with
  | H : insert_audit _ _ _ _ _ _ _ _ = Ok _ |- _ =>
      apply ps_insert_audit_move in H; eapply move_then; [|exact H]; clear H
  end.

Ltac run_process H := ok_inv H; try apply rtc_refl; read_process.

Lemma update_campaign_Ok id f db db' c :
  campaigns db !! id = Some c -> update_campaign id f db = Ok db' ->
  failure_reason_matches_lifecycle (f c) = true /\
  db' = set_campaigns (<[id := f c]> (campaigns db)) db.
Proof. unfold update_campaign. intros -> H. by ok_inv H. Qed.

(** * Campaign commands *)

Lemma start_campaign_moves blake3 ts db c r db' :
  start_campaign blake3 ts db c = Ok (r, db') -> rtc process_move db db'.
Proof.
  unfold start_campaign. intros H. run_process H. then_audited.
  unfold insert_campaign in *.
  match goal with Hi : _ = Ok (_, _) |- _ => ok_inv Hi end. bool_prop.
  apply m_campaign; try done.
Qed.

Lemma cancel_in_transaction_moves db c rev fp r db' row :
  campaigns db !! ccm_campaign_id c = Some row -> cmp_lifecycle row = CAMPAIGN_RUNNING ->
  rev = cmp_revision row ->
  cancel_campaign_in_transaction db c rev fp = Ok (r, db') -> rtc process_move db db'.
Proof.
  unfold cancel_campaign_in_transaction. intros Hrow Hrun -> H. run_process H. then_audited.
  match goal with Hu : update_campaign _ _ _ = Ok _ |- _ =>
    destruct (update_campaign_Ok _ _ _ _ _ Hrow Hu) as [Hf ->] end.
  eapply m_close; [exact Hrow|done|by left| |exact Hf].
  unfold close_campaign. f_equal; simpl. by destruct (cmp_failure_reason row).
Qed.

Lemma admit_cancellation_moves blake3 db c r db' :
  admit_campaign_cancellation blake3 db c = Ok (r, db') -> rtc process_move db db'.
Proof.
  unfold admit_campaign_cancellation. intros H. run_process H.
  eapply cancel_in_transaction_moves; [eassumption|done|reflexivity|eassumption].
Qed.

Lemma finish_cancellation_moves blake3 db c rec r db' :
  finish_campaign_cancellation blake3 db c rec = Ok (r, db') -> rtc process_move db db'.
Proof.
  unfold finish_campaign_cancellation. intros H. run_process H.
  eapply cancel_in_transaction_moves; [eassumption|done|reflexivity|eassumption].
Qed.

Lemma fail_campaign_moves blake3 db c r db' :
  fail_campaign blake3 db c = Ok (r, db') -> rtc process_move db db'.
Proof.
  unfold fail_campaign. intros H. run_process H. then_audited.
  match goal with Hu : update_campaign _ _ _ = Ok _, Hrow : campaigns _ !! _ = Some _ |- _ =>
    destruct (update_campaign_Ok _ _ _ _ _ Hrow Hu) as [Hf ->]; eapply m_close; [exact Hrow| | | |exact Hf] end.
  - done.
  - by right.
  - done.
Qed.

(** * Assignments and sessions *)

Lemma campaign_join_Some db id c kb :
  campaign_join db id = Some (c, kb) -> campaigns db !! id = Some c.
Proof. unfold campaign_join. intros (c' & H & (kb' & _ & [= -> ->])%bind_Some)%bind_Some. done. Qed.

Lemma insert_assignment_Ok id row db db' :
  insert_assignment id row db = Ok db' ->
  assignments db !! id = None /\ db' = set_assignments (<[id := row]> (assignments db)) db.
Proof. unfold insert_assignment. intros H. ok_inv H. by bool_prop. Qed.

Lemma assignment_row_Ok db c p r row :
  assignment_row db c p r = Ok row ->
  as_lifecycle row = SESSION_PREPARED /\
  ai_campaign_id (as_identity row) = pk_campaign_id (cas_packet c) /\
  ai_application_revision_id (as_identity row) = pk_application_revision_id (cas_packet c) /\
  ai_remaining_campaign_allowance_micro_usd (as_identity row) = r /\ as_revision row = 0.
Proof. unfold assignment_row. intros H. ok_inv H. read_process. done. Qed.

Lemma assignment_campaign_Ok db c row rev :
  assignment_campaign db c = Ok (row, rev) ->
  campaigns db !! pk_campaign_id (cas_packet c) = Some row /\ rev = cmp_revision row /\
  cas_expected_campaign_revision c = rev /\
  cmp_lifecycle row = CAMPAIGN_RUNNING /\ cmp_cost_state row = COST_KNOWN /\
  cmp_application_revision_id row = pk_application_revision_id (cas_packet c) /\
  now db < cmp_deadline row.
Proof.
  unfold assignment_campaign. intros H. ok_inv H. read_process.
  match goal with Hj : campaign_join _ _ = Some _ |- _ => apply campaign_join_Some in Hj end.
  by split_and!.
Qed.

Lemma create_assignment_moves blake3 db wire c r db' :
  create_assignment blake3 db wire c = Ok (r, db') -> rtc process_move db db'.
Proof.
  unfold create_assignment. intros H. run_process H. then_audited.
  repeat match goal with
  | Ha : assignment_campaign _ _ = Ok _ |- _ =>
      apply assignment_campaign_Ok in Ha as (? & -> & ? & ? & ? & ? & ?)
  | Hr : assignment_row _ _ _ _ = Ok _ |- _ =>
      apply assignment_row_Ok in Hr as (? & Ecmp & Eapp & Erem & ?)
  | Hi : insert_assignment _ _ _ = Ok _ |- _ => apply insert_assignment_Ok in Hi as [? ->]
  | Hu : update_campaign _ _ _ = Ok _ |- _ =>
      eapply update_campaign_Ok in Hu as [_ ->]; [|simpl; eassumption]
  end.
  simpl. rewrite <- Ecmp in *. eapply m_assignment; try eassumption; congruence.
Qed.

Lemma insert_session_Ok row db id db' :
  insert_session row db = Ok (id, db') ->
  id = fresh_id (sessions db) /\ db' = set_sessions (<[id := row]> (sessions db)) db /\
  (forall i other, sessions db !! i = Some other ->
     si_assignment_id (ses_identity other) <> si_assignment_id (ses_identity row)).
Proof.
  unfold insert_session. intros H. ok_inv H. bool_prop. split_and!; try done.
  intros i other Hi E. rewrite exists_where_false in H0.
  specialize (H0 i other Hi). by apply Z.eqb_neq in H0.
Qed.

Lemma startable_assignment_Ok db c a rev :
  startable_assignment db c = Ok (a, rev) ->
  assignments db !! ss_assignment_id c = Some a /\ rev = as_revision a /\
  ss_expected_assignment_revision c = rev /\ as_lifecycle a = SESSION_PREPARED /\
  ai_packet_digest (as_identity a) = ss_packet_digest c /\ paid_session_active db = false /\
  exists row, campaigns db !! ai_campaign_id (as_identity a) = Some row /\
    cmp_lifecycle row = CAMPAIGN_RUNNING /\ cmp_cost_state row = COST_KNOWN /\
    now db < cmp_deadline row.
Proof.
  unfold startable_assignment. intros H. ok_inv H. read_process.
  match goal with Hj : _ ≫= _ = Some _ |- _ =>
    apply bind_Some in Hj as (a' & Ha & (c' & Hc & [= -> ->])%bind_Some) end.
  read_process. split_and!; try done. eauto 10.
Qed.

Lemma alter_lookup_eq {V} (f : V -> V) (m : gmap Z V) k v :
  m !! k = Some v -> alter f k m = <[k := f v]> m.
Proof. intros H. by rewrite <- (insert_id m k v H) at 1; rewrite alter_insert_eq. Qed.

Lemma start_session_moves blake3 db c r db' :
  start_session blake3 db c = Ok (r, db') -> rtc process_move db db'.
Proof.
  unfold start_session. intros H. run_process H. then_audited.
  match goal with
  | Hs : startable_assignment _ _ = Ok _, Hi : insert_session _ _ = Ok _ |- _ =>
      apply startable_assignment_Ok in Hs as (Ha & -> & ? & ? & ? & ? & row & ? & ? & ? & ?);
      apply insert_session_Ok in Hi as (-> & -> & Hfresh)
  end.
  unfold update_assignment. simpl. rewrite (alter_lookup_eq _ _ _ _ Ha).
  eapply m_session; eauto.
Qed.

(** * Provider effects *)

Lemma insert_provider_effect_Ok row db id db' :
  insert_provider_effect row db = Ok (id, db') ->
  id = fresh_id (provider_effects db) /\
  db' = set_provider_effects (<[id := row]> (provider_effects db)) db /\
  (forall i other, provider_effects db !! i = Some other ->
     same_effect (pe_intent other) (pe_intent row) = false).
Proof.
  unfold insert_provider_effect. intros H. ok_inv H. bool_prop. split_and!; try done.
  by apply exists_where_false.
Qed.

Lemma session_matches_settlement_Ok s id aid rev u :
  provider_effect_session_matches_settlement s id aid rev = Ok u ->
  si_assignment_id (ses_identity s) = aid /\ rev = ses_revision s /\
  ses_lifecycle s = SESSION_RUNNING.
Proof.
  unfold provider_effect_session_matches_settlement. intros H. ok_inv H. read_process. done.
Qed.

Lemma find_effect_Some db sid run eid i e :
  find_effect db sid run eid = Some (i, e) ->
  provider_effects db !! i = Some e /\ pi_session_id (pe_intent e) = sid /\
  pi_core_run_id (pe_intent e) = run /\ pi_effect_id (pe_intent e) = eid.
Proof.
  unfold find_effect. intros H.
  destruct (rows_where _ _) as [|row l] eqn:E; [done|]. injection H as ->.
  assert (Hin : (i, e) ∈ (i, e) :: l) by apply list_elem_of_here.
  rewrite <- E in Hin. apply rows_where_elem in Hin as [Hi Hp]. bool_prop. done.
Qed.

Lemma provider_effect_state_code v s :
  provider_effect_state_from_code v = Ok s <-> v = provider_effect_code s.
Proof.
  split.
  - unfold provider_effect_state_from_code. intros H. case_codes.
  - intros ->. by destruct s.
Qed.

Lemma effect_start_moves db sid aid q r db' :
  provider_effect_start db sid aid q = Ok (r, db') -> rtc process_move db db'.
Proof.
  unfold provider_effect_start. intros H. run_process H.
  match goal with
  | Hm : provider_effect_session_matches _ _ _ _ _ _ = Ok _, Hi : insert_provider_effect _ _ = Ok ?p |- _ =>
      unfold provider_effect_session_matches in Hm; ok_inv Hm;
      destruct p as [i db1]; apply insert_provider_effect_Ok in Hi as (-> & -> & Hfresh)
  end.
  match goal with Hm : provider_effect_session_matches_settlement _ _ _ _ = Ok _ |- _ =>
    apply session_matches_settlement_Ok in Hm as (? & ? & ?) end.
  apply rtc_once. by eapply m_effect_start.
Qed.

Lemma from_settlement_not_started v s : from_settlement v = Ok s -> s <> EffectStarted.
Proof. unfold from_settlement. repeat case_match; congruence. Qed.

Lemma effect_settle_moves db sid aid q r db' :
  provider_effect_settle db sid aid q = Ok (r, db') -> rtc process_move db db'.
Proof.
  unfold provider_effect_settle. intros H. run_process H.
  match goal with
  | Hf : find_effect _ _ _ _ = Some _ |- _ => apply find_effect_Some in Hf as (? & ? & ? & ?)
  end.
  match goal with Hm : provider_effect_session_matches_settlement _ _ _ _ = Ok _ |- _ =>
    apply session_matches_settlement_Ok in Hm as (? & ? & ?) end.
  match goal with Hs : provider_effect_state_from_code _ = Ok _ |- _ =>
    apply provider_effect_state_code in Hs end.
  apply rtc_once. eapply m_effect_settle; try eassumption; subst; try done.
  by eapply from_settlement_not_started.
Qed.

(** * The terminal transition *)

Lemma update_session_terminal_Ok id l r t db db' s :
  sessions db !! id = Some s -> ses_lifecycle s = SESSION_RUNNING ->
  update_session_terminal id l r t db = Ok db' ->
  session_terminal_checks l t = true /\
  db' = set_sessions (<[id := {| ses_identity := ses_identity s; ses_lifecycle := l;
                                ses_terminal := Some t; ses_revision := r |}]> (sessions db)) db.
Proof.
  unfold update_session_terminal. intros -> Hl H. rewrite Hl in H. simpl in H. by ok_inv H.
Qed.

Lemma finish_assignment_Ok id l db db' a :
  assignments db !! id = Some a -> finish_assignment id l db = Ok db' ->
  db' = set_assignments (alter (finished l) id (assignments db)) db.
Proof.
  unfold finish_assignment. intros Ha H. rewrite Ha in H.
  rewrite (alter_lookup_eq _ _ _ _ Ha). unfold finished.
  destruct (as_lifecycle a =? SESSION_RUNNING) eqn:E.
  - ok_inv H. unfold update_assignment. by rewrite (alter_lookup_eq _ _ _ _ Ha).
  - injection H as <-. rewrite insert_id by done. by destruct db.
Qed.

Lemma session_join_Some db id s a c :
  session_join db id = Some (s, a, c) <->
  sessions db !! id = Some s /\ assignments db !! si_assignment_id (ses_identity s) = Some a /\
  campaigns db !! ses_campaign_id s = Some c.
Proof.
  unfold session_join. split.
  - intros (s' & Hs & (a' & Ha & (c' & Hc & [= -> -> ->])%bind_Some)%bind_Some)%bind_Some. done.
  - intros (-> & Ha & Hc). simpl. rewrite Ha. simpl. by rewrite Hc.
Qed.

Lemma terminable_session_Ok db id report ev s a c rev :
  terminable_session db id report ev = Ok (s, a, c, rev) ->
  session_join db id = Some (s, a, c) /\ rev = ses_revision s /\
  report_expected_session_revision report = rev /\ ses_lifecycle s = SESSION_RUNNING /\
  ai_packet_digest (as_identity a) = report_packet_digest report /\ 0 <= rev.
Proof. unfold terminable_session. intros H. ok_inv H. read_process. done. Qed.

Lemma transpose_i64 e o r :
  transpose_map (fun v => to_i64 v e) o = Ok r ->
  r = o /\ (forall v, o = Some v -> v <= i64_max).
Proof.
  rewrite transpose_map_Ok. intros [[-> ->]|(v & w & -> & [? ->]%to_i64_Ok & ->)]; [done|].
  split; [done|]. by intros ? [= <-].
Qed.

(** A converted usage record is the same record, its cost within an [i64]. *)
Lemma convert_usage_i64 e u r :
  convert_usage (fun v => to_i64 v e) u = Ok r ->
  r = u /\ (forall v, u_reported_cost_micro_usd u = Some v -> v <= i64_max).
Proof.
  unfold convert_usage. intros H. ok_inv H.
  repeat match goal with Ht : transpose_map _ _ = Ok _ |- _ => apply transpose_i64 in Ht as [-> ?] end.
  split; [by destruct u|done].
Qed.

Lemma terminal_usage_Ok usage r :
  transpose_map usage_sql usage = Ok r ->
  terminal_cost (Some (default no_usage r)) = terminal_cost usage /\
  (forall v, terminal_cost usage = Known v -> v <= i64_max).
Proof.
  rewrite transpose_map_Ok.
  intros [[-> ->]|(u & w & -> & H & ->)]; [done|].
  apply convert_usage_i64 in H as [-> Hb]. split; [done|]. simpl.
  intros v Hv. apply Hb. by destruct (u_reported_cost_micro_usd u); simplify_eq.
Qed.

Lemma terminal_outcome_cost cost reason c b m o :
  terminal_outcome cost reason c b m = Ok o ->
  cost_value o = match cost with Known v | Exceeded v => Some v | Unknown => None end.
Proof. unfold terminal_outcome. destruct cost; intros H; ok_inv H; try done; by case_match. Qed.

Lemma terminal_cost_not_exceeded usage v : terminal_cost usage <> Exceeded v.
Proof. unfold terminal_cost. repeat case_match; congruence. Qed.

Lemma written_cost usage r cost reason c b m o :
  transpose_map usage_sql usage = Ok r -> cost = terminal_cost usage ->
  terminal_outcome cost reason c b m = Ok o ->
  (v ← cost_value o; if v <=? i64_max then Some v else None) = cost_value o.
Proof.
  intros [_ Hb]%terminal_usage_Ok -> ->%terminal_outcome_cost.
  destruct (terminal_cost usage) eqn:E; simpl; [|done|].
  - by rewrite (proj2 (Z.leb_le _ _) (Hb _ eq_refl)).
  - by apply terminal_cost_not_exceeded in E.
Qed.

Lemma terminal_session_moves blake3 db p k id report ev r db' :
  terminal_session blake3 db p k id report ev = Ok (r, db') -> rtc process_move db db'.
Proof.
  unfold terminal_session. intros H. run_process H. then_audited.
  match goal with Ht : terminable_session _ _ _ _ = Ok _ |- _ =>
    apply terminable_session_Ok in Ht as (Hj & -> & Hrev & Hrun & Hpk & Hpos) end.
  pose proof Hj as (Hs & Ha & Hc)%session_join_Some.
  match goal with Hu : update_session_terminal _ _ _ _ _ = Ok _ |- _ =>
    destruct (update_session_terminal_Ok _ _ _ _ _ _ _ Hs Hrun Hu) as [Hchk ->]; clear Hu end.
  match goal with Hf : finish_assignment _ _ _ = Ok _ |- _ =>
    apply (finish_assignment_Ok _ _ _ _ a) in Hf; [subst|exact Ha] end.
  match goal with Hu : update_campaign _ _ _ = Ok _ |- _ =>
    apply (update_campaign_Ok _ _ _ _ c) in Hu as [Hreason ->]; [|exact Hc] end.
  match goal with
  | Hu : transpose_map usage_sql _ = Ok ?u, Ho : terminal_outcome _ _ _ _ _ = Ok _ |- _ =>
      pose proof (written_cost _ _ _ _ _ _ _ _ Hu eq_refl Ho) as Hw;
      apply terminal_usage_Ok in Hu as [Hcost _]; rewrite <- Hcost in Ho
  end.
  simpl. by eapply m_terminal.
Qed.

(** * Every committed process command *)

Lemma execute_process_moves blake3 ts db command db' :
  execute_process blake3 ts db command = Some db' -> rtc process_move db db'.
Proof.
  destruct command; simpl; rewrite committed_Some; intros [receipt H].
  - by eapply start_campaign_moves.
  - by eapply admit_cancellation_moves.
  - by eapply finish_cancellation_moves.
  - by eapply fail_campaign_moves.
  - by eapply create_assignment_moves.
  - by eapply start_session_moves.
  - by eapply effect_start_moves.
  - by eapply effect_settle_moves.
  - by eapply terminal_session_moves.
Qed.

(** * Moves are environment steps *)

#[global] Instance environment_preorder : PreOrder environment.
Proof.
  split.
  - intros db. split; try reflexivity. eauto.
  - intros x y z [] []. split; try congruence.
    + by etransitivity.
    + by etransitivity.
    + intros id c Hc. destruct (env_campaigns id c Hc) as (c1 & H1 & E1 & K1).
      destruct (env_campaigns0 id c1 H1) as (c2 & H2 & E2 & K2).
      exists c2. split_and!; [done|congruence..].
Qed.

(** Campaign rows that keep their application and build, changed or added. *)
Definition campaigns_kept (m m' : gmap Z CampaignRow) : Prop :=
  forall id c, m !! id = Some c -> exists c', m' !! id = Some c' /\
    cmp_application_revision_id c' = cmp_application_revision_id c /\
    cmp_kernel_build_id c' = cmp_kernel_build_id c.

Lemma campaigns_kept_refl m : campaigns_kept m m.
Proof. intros id c Hc. eauto. Qed.

Lemma campaigns_kept_fresh m c : campaigns_kept m (<[fresh_id m := c]> m).
Proof.
  intros id c' Hc. exists c'. rewrite lookup_insert_ne; [done|]. intros <-.
  by rewrite fresh_id_lookup in Hc.
Qed.

Lemma campaigns_kept_update m id c c' :
  m !! id = Some c -> cmp_application_revision_id c' = cmp_application_revision_id c ->
  cmp_kernel_build_id c' = cmp_kernel_build_id c -> campaigns_kept m (<[id := c']> m).
Proof.
  intros Hc Ha Hk j d Hd. destruct (decide (id = j)) as [<-|Hne].
  - exists c'. rewrite lookup_insert_eq. split_and!; [done|congruence..].
  - exists d. by rewrite lookup_insert_ne.
Qed.

Lemma process_move_environment db db' : process_move db db' -> environment db db'.
Proof.
  intros H. assert (K : campaigns_kept (campaigns db) (campaigns db')).
  { destruct H as [| |? ? ? Hc _ _ Hc' _|? ? ? _ Hc| | | |? s a c ? ? ? (_ & _ & Hc)%session_join_Some];
      simpl; try apply campaigns_kept_refl; [apply campaigns_kept_fresh|..];
      (eapply campaigns_kept_update; [exact Hc|..]); try done; by rewrite Hc'. }
  destruct H; split; simpl; try reflexivity; try exact K.
  by apply insert_subseteq.
Qed.

Lemma process_environment blake3 ts db command db' :
  execute_process blake3 ts db command = Some db' -> environment db db'.
Proof.
  intros H%execute_process_moves. induction H as [|x y z Hm _ IH]; [reflexivity|].
  etransitivity; [by apply process_move_environment|exact IH].
Qed.

Lemma kernel_steps_runs blake3 ts db db' :
  rtc (kernel_step blake3 ts) db db' -> rtc (step blake3) db db'.
Proof.
  induction 1 as [|x y z Hs _ IH]; [apply rtc_refl|]. eapply rtc_l; [|exact IH].
  destruct Hs as [command y H|command y H|y [H _ _ _ _]].
  - by eapply step_command.
  - eapply step_environment, process_environment, H.
  - by apply step_environment.
Qed.

(** Kernel runs reach nothing the ticket theorems do not cover. *)
Lemma kernel_reachable_reachable blake3 ts db :
  kernel_reachable blake3 ts db -> reachable blake3 db.
Proof.
  intros (db0 & [Hi _ _ _ _] & Hr). exists db0. split; [done|]. by eapply kernel_steps_runs.
Qed.

Lemma execute_process_artifacts blake3 ts db command db' :
  execute_process blake3 ts db command = Some db' -> artifacts db' = artifacts db.
Proof.
  intros H%execute_process_moves. induction H as [|x y z Hm _ IH]; [done|]. rewrite IH. by destruct Hm.
Qed.
