(* ===== verification/Frames.v ===== *)
(** What the ticket commands leave alone: artifacts, assignments, sessions and
    provider effects always, campaigns except to complete a running one. *)
From S2P Require Import Prelude Values Contracts Database Lifecycle Refinement.
From S2P Require TicketStore DecisionStore.

(** The tables of the process authority. *)
Definition process_tables (db : Database)
  : gmap Z CampaignRow * gmap Z AssignmentRow * gmap Z SessionRow * gmap Z ProviderEffectRow :=
  (campaigns db, assignments db, sessions db, provider_effects db).

Definition framed (db db' : Database) : Prop :=
  (process_tables db', artifacts db') = (process_tables db, artifacts db).

#[global] Instance framed_preorder : PreOrder framed.
Proof. split; unfold framed; [done|congruence]. Qed.

(** * Every write of the ticket tables *)

Create HintDb frame.

Ltac frame_by d := unfold d; let H := fresh in intros H; ok_inv H; done.

Section writes.
  Context (db db' : Database) (id : Z).

Lemma frame_insert_ticket_attempt row :
    insert_ticket_attempt row db = Ok (id, db') -> framed db db'.
  Proof. frame_by insert_ticket_attempt. Qed.

Lemma frame_put_ticket_revision rid row :
    put_ticket_revision rid row db = Ok db' -> framed db db'.
  Proof. frame_by put_ticket_revision. Qed.

Lemma frame_update_ticket_revision rid f :
    update_ticket_revision rid f db = Ok db' -> framed db db'.
  Proof. unfold update_ticket_revision. case_match; [apply frame_put_ticket_revision|by intros [= <-]]. Qed.

Lemma frame_insert_candidate row : insert_candidate row db = Ok (id, db') -> framed db db'.
  Proof. frame_by insert_candidate. Qed.

Lemma frame_insert_validation row : insert_validation row db = Ok (id, db') -> framed db db'.
  Proof. frame_by insert_validation. Qed.

Lemma frame_insert_review row : insert_review row db = Ok (id, db') -> framed db db'.
  Proof. frame_by insert_review. Qed.

Lemma frame_insert_decision row : insert_architect_decision row db = Ok (id, db') -> framed db db'.
  Proof. frame_by insert_architect_decision. Qed.

Lemma frame_insert_delivery row : insert_delivery row db = Ok (id, db') -> framed db db'.
  Proof. frame_by insert_delivery. Qed.

Lemma frame_insert_audit_row p c row : insert_audit_row p c row db = Ok (id, db') -> framed db db'.
  Proof. frame_by insert_audit_row. Qed.
End writes.

(** Turns every write among the hypotheses into a frame, then composes them. *)
Ltac frame_writes :=
  repeat match goal with
  | H : TicketStore.db_result _ = Ok _ |- _ => apply map_err_Ok in H
  | H : DecisionStore.db_result _ = Ok _ |- _ => apply map_err_Ok in H
  | H : insert_ticket_attempt _ _ = Ok (_, _) |- _ => apply frame_insert_ticket_attempt in H
  | H : update_ticket_revision _ _ _ = Ok _ |- _ => apply frame_update_ticket_revision in H
  | H : put_ticket_revision _ _ _ = Ok _ |- _ => apply frame_put_ticket_revision in H
  | H : insert_candidate _ _ = Ok (_, _) |- _ => apply frame_insert_candidate in H
  | H : insert_validation _ _ = Ok (_, _) |- _ => apply frame_insert_validation in H
  | H : insert_review _ _ = Ok (_, _) |- _ => apply frame_insert_review in H
  | H : insert_architect_decision _ _ = Ok (_, _) |- _ => apply frame_insert_decision in H
  | H : insert_delivery _ _ = Ok (_, _) |- _ => apply frame_insert_delivery in H
  | H : insert_audit_row _ _ _ _ = Ok (_, _) |- _ => apply frame_insert_audit_row in H
  end.

Ltac frame_compose :=
  repeat match goal with H : framed _ _ |- _ => unfold framed, process_tables in H; simpl in H end;
  unfold framed, process_tables; simpl; congruence.

Lemma frame_ts_audit db p c op fp k sid r id db' :
  TicketStore.insert_ticket_audit db p c op fp k sid r = Ok (id, db') -> framed db db'.
Proof. unfold TicketStore.insert_ticket_audit. intros H. ok_inv H. frame_writes. done. Qed.

Lemma frame_ds_audit db p c op fp k sid r id db' :
  DecisionStore.insert_audit db p c op fp k sid r = Ok (id, db') -> framed db db'.
Proof. unfold DecisionStore.insert_audit. intros H. ok_inv H. frame_writes. done. Qed.

Lemma frame_update_ticket_states db l s n a b db' :
  TicketStore.update_ticket_states db l s n a b = Ok db' -> framed db db'.
Proof. unfold TicketStore.update_ticket_states. intros H. ok_inv H. frame_writes. frame_compose. Qed.

Lemma frame_update_requalification db l s n o q b db' :
  TicketStore.update_requalification_and_ticket_state db l s n o q b = Ok db' -> framed db db'.
Proof.
  unfold TicketStore.update_requalification_and_ticket_state. intros H. ok_inv H.
  frame_writes. frame_compose.
Qed.

Lemma frame_update_state_parts db t r s n a b db' :
  DecisionStore.update_ticket_state_parts db t r s n a b = Ok db' -> framed db db'.
Proof.
  unfold DecisionStore.update_ticket_state_parts. intros H. ok_inv H. frame_writes. frame_compose.
Qed.

Lemma frame_ds_requalification db l s n c q b db' :
  DecisionStore.update_ticket_requalification db l s n c q b = Ok db' -> framed db db'.
Proof.
  unfold DecisionStore.update_ticket_requalification. intros H. ok_inv H. frame_writes.
  frame_compose.
Qed.

Ltac frame_steps :=
  frame_writes;
  repeat match goal with
  | H : TicketStore.insert_ticket_audit _ _ _ _ _ _ _ _ = Ok (_, _) |- _ => apply frame_ts_audit in H
  | H : DecisionStore.insert_audit _ _ _ _ _ _ _ _ = Ok (_, _) |- _ => apply frame_ds_audit in H
  | H : TicketStore.update_ticket_states _ _ _ _ _ _ = Ok _ |- _ =>
      apply frame_update_ticket_states in H
  | H : TicketStore.update_requalification_and_ticket_state _ _ _ _ _ _ _ = Ok _ |- _ =>
      apply frame_update_requalification in H
  | H : DecisionStore.update_ticket_state_parts _ _ _ _ _ _ _ = Ok _ |- _ =>
      apply frame_update_state_parts in H
  | H : DecisionStore.update_ticket_state _ _ _ _ _ _ = Ok _ |- _ =>
      apply frame_update_state_parts in H
  | H : DecisionStore.update_ticket_requalification _ _ _ _ _ _ _ = Ok _ |- _ =>
      apply frame_ds_requalification in H
  | H : DecisionStore.insert_decision _ _ _ _ _ _ _ _ _ = Ok (_, _) |- _ =>
      unfold DecisionStore.insert_decision in H; frame_writes
  end.

Ltac frame_op H := ok_inv H; try reflexivity; frame_steps; frame_compose.

(** A running campaign is completed, at a new revision. *)
Definition completes (db db' : Database) : Prop :=
  exists id c revision, campaigns db !! id = Some c /\ cmp_lifecycle c = CAMPAIGN_RUNNING /\
    process_tables db' =
      (<[id := set_campaign_lifecycle CAMPAIGN_COMPLETED revision c]> (campaigns db),
       assignments db, sessions db, provider_effects db) /\
    artifacts db' = artifacts db.

Section operations.
  Context (blake3 : list Z -> ContentDigest) (db db' : Database).

Lemma frame_propose c r :
    TicketStore.submit_ticket_proposal blake3 db c = Ok (r, db') -> framed db db'.
  Proof. unfold TicketStore.submit_ticket_proposal. intros H. frame_op H. Qed.

Lemma frame_sponsor_revision c r :
    TicketStore.sponsor_ticket_revision blake3 db c = Ok (r, db') -> framed db db'.
  Proof. unfold TicketStore.sponsor_ticket_revision. intros H. frame_op H. Qed.

Lemma frame_claim c r :
    TicketStore.claim_sponsored_ticket blake3 db c = Ok (r, db') -> framed db db'.
  Proof.
    unfold TicketStore.claim_sponsored_ticket, TicketStore.claim_effect. intros H. frame_op H.
  Qed.

Lemma frame_fail c r :
    TicketStore.fail_ticket_attempt blake3 db c = Ok (r, db') -> framed db db'.
  Proof. unfold TicketStore.fail_ticket_attempt. intros H. frame_op H. Qed.

Lemma frame_retry_quality c r :
    TicketStore.retry_quality_attempt blake3 db c = Ok (r, db') -> framed db db'.
  Proof. unfold TicketStore.retry_quality_attempt. intros H. frame_op H. Qed.

Lemma frame_retry_engineering c r :
    TicketStore.retry_engineering_attempt blake3 db c = Ok (r, db') -> framed db db'.
  Proof. unfold TicketStore.retry_engineering_attempt. intros H. frame_op H. Qed.

Lemma frame_release c r :
    TicketStore.release_ticket_attempt blake3 db c = Ok (r, db') -> framed db db'.
  Proof. unfold TicketStore.release_ticket_attempt. intros H. frame_op H. Qed.

Lemma frame_submit_candidate c r :
    DecisionStore.submit_candidate blake3 db c = Ok (r, db') -> framed db db'.
  Proof. unfold DecisionStore.submit_candidate. intros H. frame_op H. Qed.

Lemma frame_record_validation c r :
    DecisionStore.record_validation blake3 db c = Ok (r, db') -> framed db db'.
  Proof. unfold DecisionStore.record_validation. intros H. frame_op H. Qed.

Lemma frame_attach c r :
    DecisionStore.attach_candidate_commit blake3 db c = Ok (r, db') -> framed db db'.
  Proof. unfold DecisionStore.attach_candidate_commit. intros H. frame_op H. Qed.

Lemma frame_review c r :
    DecisionStore.submit_quality_review blake3 db c = Ok (r, db') -> framed db db'.
  Proof. unfold DecisionStore.submit_quality_review. intros H. frame_op H. Qed.

Lemma frame_architect_sponsor c r :
    DecisionStore.sponsor_ticket blake3 db c = Ok (r, db') -> framed db db'.
  Proof. unfold DecisionStore.sponsor_ticket. intros H. frame_op H. Qed.

Lemma frame_architect_release c r :
    DecisionStore.release_ticket_attempt blake3 db c = Ok (r, db') -> framed db db'.
  Proof. unfold DecisionStore.release_ticket_attempt. intros H. frame_op H. Qed.

Lemma frame_decide c r :
    DecisionStore.decide_candidate blake3 db c = Ok (r, db') -> framed db db'.
  Proof. unfold DecisionStore.decide_candidate. intros H. frame_op H. Qed.
End operations.

Lemma completes_of db db1 db' id c revision :
  framed db db1 -> campaigns db !! id = Some c -> cmp_lifecycle c = CAMPAIGN_RUNNING ->
  framed (update_campaign_lifecycle id CAMPAIGN_COMPLETED revision db1) db' ->
  completes db db'.
Proof.
  unfold framed, process_tables, update_campaign_lifecycle. simpl. intros F Hc Hl F'.
  injection F as Ec Ea Es Ee Er. injection F' as Ec' Ea' Es' Ee' Er'.
  exists id, c, revision. split_and!; [done|done| |congruence].
  unfold process_tables. rewrite Ec', Ea', Es', Ee', Ec, Ea, Es, Ee.
  f_equal. f_equal. f_equal. rewrite <- (insert_id (campaigns db) id c Hc) at 1.
  by rewrite alter_insert_eq.
Qed.

Lemma frame_complete blake3 db c r db' :
  TicketStore.complete_campaign_at_delivery_target blake3 db c = Ok (r, db') ->
  framed db db' \/ completes db db'.
Proof.
  unfold TicketStore.complete_campaign_at_delivery_target. intros H.
  ok_inv H; [by left|right]. frame_steps. bool_prop. by eapply completes_of.
Qed.

Lemma frame_deliver blake3 db c r db' :
  DecisionStore.record_delivery blake3 db c = Ok (r, db') -> framed db db' \/ completes db db'.
Proof.
  unfold DecisionStore.record_delivery. intros H.
  ok_inv H; [by left|right|left]; frame_steps.
  - bool_prop. match goal with Hl : DecisionStore.load_campaign _ _ = Ok _ |- _ =>
      apply load_campaign_Ok in Hl end.
    eapply completes_of; [|eassumption|done|eassumption].
    repeat match goal with H : framed _ _ |- _ => unfold framed, process_tables in H; simpl in H end.
    unfold framed, process_tables; simpl; congruence.
  - frame_compose.
Qed.

(** Every ticket command. *)
Lemma execute_frame blake3 db command db' :
  execute blake3 db command = Some db' -> framed db db' \/ completes db db'.
Proof.
  destruct command; simpl; rewrite committed_Some; intros [receipt H].
  all: try (by eapply frame_complete); try (by eapply frame_deliver); left.
  - by eapply frame_propose.
  - by eapply frame_sponsor_revision.
  - by eapply frame_claim.
  - by eapply frame_fail.
  - by eapply frame_retry_quality.
  - by eapply frame_retry_engineering.
  - by eapply frame_release.
  - by eapply frame_submit_candidate.
  - by eapply frame_record_validation.
  - by eapply frame_attach.
  - by eapply frame_review.
  - by eapply frame_architect_sponsor.
  - by eapply frame_architect_release.
  - by eapply frame_decide.
Qed.

Lemma execute_artifacts blake3 db command db' :
  execute blake3 db command = Some db' -> artifacts db' = artifacts db.
Proof. by intros [[= _ _ _ _ E]|(? & ? & ? & _ & _ & _ & E)]%execute_frame. Qed.
