(* ===== verification/Receipts.v ===== *)
(** Audit receipts against the rows they create: when an audit log is sound for
    its tables, and what every write of the stores adds to them. *)
From S2P Require Import Prelude Values Contracts Database Lifecycle Refinement Kernel.
From S2P Require Import ProcessStore ProviderEffects ProcessRefinement Cas Custody Storage Admission.
From S2P Require TicketStore DecisionStore.

(** * Soundness of the audit log *)

(** The operation that creates a row of a family. *)
Definition creation_operation (db : Database) (family id : Z) : string :=
  if family =? 0 then "kernel_build.install"
  else if family =? 1 then "application_revision.admit"
  else if family =? 2 then "repository.register"
  else if family =? 3 then "artifact.register"
  else if family =? 4 then "campaign.start"
  else if family =? 5 then "assignment.create"
  else if family =? 6 then "session.start"
  else if family =? 30 then "ticket.propose"
  else if family =? 32 then "ticket.claim"
  else if family =? 40 then "candidate.submit"
  else if family =? 41 then "validation.record"
  else if family =? 42 then "quality.review.submit"
  else if family =? 43 then
    match architect_decisions db !! id with
    | Some row => decision_operation row
    | None => "architect.candidate.decide"
    end
  else "delivery.record".

Lemma ids_elem {V} (m : gmap Z V) i : i ∈ ids m <-> is_Some (m !! i).
Proof.
  unfold ids. rewrite list_elem_of_fmap. split.
  - intros ([j v] & -> & H%elem_of_map_to_list). simpl. eauto.
  - intros [v H]. exists (i, v). split; [done|]. by apply elem_of_map_to_list.
Qed.

Lemma facts_of_elem {V} kind op (m : gmap Z V) k i o :
  (k, i, o) ∈ facts_of kind op m <-> k = kind /\ is_Some (m !! i) /\ o = op.
Proof.
  unfold facts_of. rewrite list_elem_of_fmap. setoid_rewrite ids_elem. split.
  - intros (j & [= -> -> ->] & H). done.
  - intros (-> & H & ->). eauto.
Qed.

Lemma decision_facts_elem db k i o :
  (k, i, o) ∈ ((fun kv => (43, kv.1, decision_operation kv.2)) <$> map_to_list (architect_decisions db))
  <-> k = 43 /\ exists row, architect_decisions db !! i = Some row /\ o = decision_operation row.
Proof.
  rewrite list_elem_of_fmap. split.
  - intros ([j row] & [= -> -> ->] & H%elem_of_map_to_list). eauto.
  - intros (-> & row & H & ->). exists (i, row). split; [done|]. by apply elem_of_map_to_list.
Qed.

Lemma artifact_facts_elem db k i o :
  (k, i, o) ∈ ((fun id => (3, id, REGISTER_ARTIFACT_OPERATION))
    <$> List.filter (fun id => negb (born_with_parent db id)) (ids (artifacts db)))
  <-> k = 3 /\ is_Some (artifacts db !! i) /\ born_with_parent db i = false /\ o = "artifact.register"%string.
Proof.
  rewrite list_elem_of_fmap. setoid_rewrite list_elem_of_In. setoid_rewrite filter_In.
  setoid_rewrite <- list_elem_of_In. setoid_rewrite ids_elem. setoid_rewrite negb_true_iff. split.
  - intros (j & [= -> -> ->] & H). tauto.
  - intros (-> & H & Hb & ->). eauto.
Qed.

(** A row that needs a receipt, by family. *)
Lemma facts_elem db k i o :
  (k, i, o) ∈ facts db <->
  row_exists db k i = true /\ o = creation_operation db k i /\
  (k = 3 -> born_with_parent db i = false).
Proof.
  unfold facts. rewrite !elem_of_app, !facts_of_elem, decision_facts_elem, artifact_facts_elem.
  unfold row_exists, creation_operation, KERNEL_BUILD_SUBJECT, APPLICATION_REVISION_SUBJECT,
    REPOSITORY_SUBJECT, ARTIFACT_SUBJECT.
  repeat match goal with |- context [k =? ?n] => destruct (Z.eqb_spec k n); [subst k|] end;
    rewrite ?bool_decide_eq_true;
    try (split; [intuition (try discriminate; try done)|intros (? & -> & ?); tauto]).
  - split.
    + intros H. assert (exists row, architect_decisions db !! i = Some row /\ o = decision_operation row)
        as (row & Hrow & ->) by intuition discriminate.
      rewrite Hrow. split; [eauto|done].
    + intros ([row Hrow] & -> & _). rewrite Hrow. naive_solver.
  - split; [intuition|]. intros [[=] _].
Qed.

(** An Engineering retry's receipt, which the registry does not know. *)
Definition retry_receipt (row : AuditRow) : bool :=
  (al_subject_kind row =? TicketStore.ENGINEERING_RETRY_SUBJECT)
  && bool_decide (al_operation row = TicketStore.ENGINEERING_RETRY_OPERATION).

(** Every receipt but an Engineering retry's names an existing row of its kind,
    and every row has its creation receipt, just one if it is not an artifact. *)
Record audit_sound (db : Database) : Prop := {
  sound_subject : forall key row, audit_log db !! key = Some row ->
    retry_receipt row = false -> valid_subject db row = true;
  sound_receipts : forall k i op, (k, i, op) ∈ facts db ->
    1 <= receipts db k i op /\ (k <> 3 -> receipts db k i op = 1);
}.

Lemma audit_is_consistent_true db :
  audit_is_consistent db = true <->
  forall k i op, (k, i, op) ∈ facts db ->
    1 <= receipts db k i op /\ (k <> 3 -> receipts db k i op = 1).
Proof.
  unfold audit_is_consistent. rewrite forallb_forall. split.
  - intros H k i op Hin%list_elem_of_In. specialize (H _ Hin). cbn in H. unfold ARTIFACT_SUBJECT in H.
    assert (0 <= receipts db k i op) by (unfold receipts; lia).
    destruct (Z.eqb_spec (receipts db k i op) 0); [done|].
    destruct (Z.eqb_spec k 3), (Z.eqb_spec (receipts db k i op) 1); simpl in H; try done; lia.
  - intros H [[k i] op] Hin%list_elem_of_In. destruct (H k i op Hin) as [H1 H2].
    unfold ARTIFACT_SUBJECT.
    destruct (Z.eqb_spec (receipts db k i op) 0); [lia|].
    destruct (Z.eqb_spec k 3), (Z.eqb_spec (receipts db k i op) 1); simpl; try done; lia.
Qed.

Lemma row_exists_mono db db' :
  (forall k i, row_exists db k i = true -> row_exists db' k i = true) ->
  forall row, valid_subject db row = true -> valid_subject db' row = true.
Proof.
  intros Hm row. unfold valid_subject. rewrite !existsb_exists.
  intros ([[kinds ops] family] & Hin & H). bool_prop. exists (kinds, ops, family).
  split; [done|]. rewrite !andb_true_iff, !bool_decide_eq_true. auto.
Qed.

(** * Writes and the rows they add

    [shape db db' l]: [db'] has the rows of [db] and the new rows [l], by
    family and id, and the same audit log. *)
Record shape (db db' : Database) (l : list (Z * Z)) : Prop := {
  shape_audit : audit_log db' = audit_log db;
  shape_rows : forall k i, row_exists db' k i = true <-> row_exists db k i = true \/ (k, i) ∈ l;
  shape_decisions : forall i row, architect_decisions db !! i = Some row ->
    architect_decisions db' !! i = Some row;
  shape_born : forall i, born_with_parent db i = true -> born_with_parent db' i = true;
}.

Lemma shape_refl db : shape db db [].
Proof. constructor; [done| |done|done]. intros k i. split; [by left|]. intros [?|H]; [done|]. by apply elem_of_nil in H. Qed.

Lemma shape_trans db1 db2 db3 l1 l2 :
  shape db1 db2 l1 -> shape db2 db3 l2 -> shape db1 db3 (l1 ++ l2).
Proof.
  intros [A1 R1 D1 B1] [A2 R2 D2 B2]. constructor; [congruence| |auto|auto].
  intros k i. rewrite R2, R1, elem_of_app. tauto.
Qed.

(** The audit row a command adds. *)
Definition receipt_added (db db' : Database) (row : AuditRow) : Prop :=
  exists key, audit_log db !! key = None /\ db' = set_audit_log (<[key := row]> (audit_log db)) db.

Lemma receipts_added db db' row k i op :
  receipt_added db db' row ->
  receipts db' k i op = receipts db k i op + (if same_receipt k i op row then 1 else 0).
Proof.
  intros (key & Hk & ->). unfold receipts. cbn.
  rewrite (filter_length_perm _ _ ((key, row) :: map_to_list (audit_log db))).
  - simpl. destruct (same_receipt k i op row); simpl length; lia.
  - by apply map_to_list_insert.
Qed.

Lemma creation_operation_shape db db' l k i :
  shape db db' l -> row_exists db k i = true ->
  creation_operation db' k i = creation_operation db k i.
Proof.
  intros Hs Hr. unfold creation_operation.
  destruct (k =? 43) eqn:E; [|by repeat case_match].
  apply Z.eqb_eq in E as ->. simpl. unfold row_exists in Hr. simpl in Hr.
  apply bool_decide_eq_true in Hr as [row Hrow]. by rewrite Hrow, (shape_decisions _ _ _ Hs _ _ Hrow).
Qed.

(** What is checked of a row whose receipt exists stays so. *)
Lemma fact_kept db db' l k i op :
  shape db db' l -> (k, i, op) ∈ facts db' -> (k, i) ∉ l -> (k, i, op) ∈ facts db.
Proof.
  intros Hs. rewrite !facts_elem. intros (Hr & -> & Hb) Hl.
  apply (shape_rows _ _ _ Hs) in Hr as [Hr|]; [|done].
  split; [done|]. split; [by eapply creation_operation_shape|].
  intros Hk. specialize (Hb Hk). apply not_true_iff_false. intros H%(shape_born _ _ _ Hs). congruence.
Qed.

Lemma same_receipt_true k i op row :
  same_receipt k i op row = true <-> al_subject_kind row = k /\ al_subject_id row = i /\ al_operation row = op.
Proof. unfold same_receipt. rewrite !andb_true_iff, !Z.eqb_eq, bool_decide_eq_true. tauto. Qed.

Lemma sound_audit_tables db m : row_exists (set_audit_log m db) = row_exists db.
Proof. done. Qed.

(** Nothing is recorded and no row is added. *)
Lemma sound_silent db db' : shape db db' [] -> audit_sound db -> audit_sound db'.
Proof.
  intros Hs [Hv Hc]. constructor.
  - intros key row. rewrite (shape_audit _ _ _ Hs). intros Hrow Hn.
    eapply row_exists_mono; [|by eapply Hv]. intros k i H. apply (shape_rows _ _ _ Hs). by left.
  - intros k i op Hf. unfold receipts. rewrite (shape_audit _ _ _ Hs).
    apply Hc. eapply fact_kept; [done..|apply not_elem_of_nil].
Qed.

(** A receipt that creates nothing. *)
Lemma sound_update db db1 db' row :
  shape db db1 [] -> receipt_added db1 db' row ->
  (retry_receipt row = false -> valid_subject db1 row = true) ->
  (al_subject_kind row = 3 \/ al_operation row <> creation_operation db1 (al_subject_kind row) (al_subject_id row)) ->
  audit_sound db -> audit_sound db'.
Proof.
  intros Hs Hadd Hvalid Hop Hsound. apply (sound_silent _ _ Hs) in Hsound as [Hv Hc].
  pose proof Hadd as (key & Hk & ->). constructor.
  - intros key' row' Hrow Hn. cbn in Hrow.
    apply lookup_insert_Some in Hrow as [[<- <-]|[? Hrow]]; [by apply Hvalid|by eapply Hv].
  - intros k i op Hf. change (facts (set_audit_log _ db1)) with (facts db1) in Hf.
    rewrite (receipts_added _ _ _ _ _ _ Hadd). destruct (Hc k i op Hf) as [H1 H2].
    destruct (same_receipt k i op row) eqn:E; [|split; intros; [|rewrite H2 by done]; lia].
    apply same_receipt_true in E as (<- & <- & <-).
    apply facts_elem in Hf as (_ & Hop' & _). destruct Hop as [Hop|Hop]; [|done].
    split; [lia|done].
Qed.

(** The family a kind and an operation are registered for; no pair is
    registered twice. *)
Definition family_of (kind : Z) (op : string) : option Z :=
  match List.filter (fun '(kinds, ops, _) => bool_decide (kind ∈ kinds) && bool_decide (op ∈ ops))
          subject_registry with
  | [(_, _, family)] => Some family
  | _ => None
  end.

Lemma existsb_same {A} (f g : A -> bool) l : (forall a, f a = g a) -> existsb f l = existsb g l.
Proof. intros H. induction l as [|a l IH]; simpl; [done|]. by rewrite H, IH. Qed.

Lemma existsb_filter {A} (f g : A -> bool) l :
  existsb (fun a => f a && g a) l = existsb g (List.filter f l).
Proof. induction l as [|a l IH]; simpl; [done|]. destruct (f a); simpl; by rewrite IH. Qed.

Lemma valid_subject_family db row family :
  family_of (al_subject_kind row) (al_operation row) = Some family ->
  valid_subject db row = row_exists db family (al_subject_id row).
Proof.
  unfold valid_subject, family_of. intros H.
  rewrite (existsb_same _ (fun e =>
    (let '(kinds, ops, _) := e in bool_decide (al_subject_kind row ∈ kinds)
       && bool_decide (al_operation row ∈ ops))
    && (let '(_, _, family) := e in row_exists db family (al_subject_id row))))
    by (intros [[? ?] ?]; done).
  rewrite existsb_filter. repeat case_match; simplify_eq. simpl. apply orb_false_r.
Qed.

Definition families : list Z := [0; 1; 2; 3; 4; 5; 6; 30; 32; 40; 41; 42; 43; 44].

Lemma creation_family db k i : k ∈ families -> family_of k (creation_operation db k i) = Some k.
Proof.
  intros Hin. unfold creation_operation.
  repeat (apply elem_of_cons in Hin as [->|Hin]; [try by vm_compute|]); [|by apply elem_of_nil in Hin].
  simpl. case_match; [|by vm_compute]. unfold decision_operation.
  repeat case_match; by vm_compute.
Qed.

Lemma row_exists_family db k i : row_exists db k i = true -> k ∈ families.
Proof.
  unfold row_exists, KERNEL_BUILD_SUBJECT, APPLICATION_REVISION_SUBJECT, REPOSITORY_SUBJECT,
    ARTIFACT_SUBJECT. intros H.
  repeat match type of H with context [k =? ?n] => destruct (Z.eqb_spec k n) as [->|]; [clear; by apply (bool_decide_unpack _)|] end.
  done.
Qed.

(** A receipt for the row it creates; artifacts may come with the row. *)
Lemma sound_creation db db1 db' l k id row :
  shape db db1 l -> (k, id) ∈ l ->
  (forall k' i', (k', i') ∈ l -> (k', i') = (k, id) \/ k' = 3 /\ born_with_parent db1 i' = true) ->
  row_exists db k id = false -> receipt_added db1 db' row ->
  al_subject_kind row = k -> al_subject_id row = id -> al_operation row = creation_operation db1 k id ->
  audit_sound db -> audit_sound db'.
Proof.
  intros Hs Hl Hborn Hfresh Hadd Hk Hid Hop [Hv Hc].
  assert (Hr1 : row_exists db1 k id = true) by (apply (shape_rows _ _ _ Hs); by right).
  pose proof (row_exists_family _ _ _ Hr1) as Hfam.
  assert (Hvalid : forall db row, al_subject_kind row = k -> al_subject_id row = id ->
    al_operation row = creation_operation db1 k id -> valid_subject db row = row_exists db k id).
  { clear - Hfam. intros db row Hk <- Hop. apply valid_subject_family. rewrite Hk, Hop.
    by apply creation_family. }
  pose proof Hadd as (key & Hkey & ->). constructor.
  - intros key' row' Hrow Hn. cbn in Hrow.
    apply lookup_insert_Some in Hrow as [[<- <-]|[_ Hrow]].
    { rewrite (Hvalid (set_audit_log _ db1)) by done. exact Hr1. }
    rewrite (shape_audit _ _ _ Hs) in Hrow. eapply (row_exists_mono db db1); [|by eapply Hv].
    intros k' i' H. apply (shape_rows _ _ _ Hs). by left.
  - intros k' i' op Hf. change (facts (set_audit_log _ db1)) with (facts db1) in Hf.
    rewrite (receipts_added _ _ _ _ _ _ Hadd).
    assert (Hsame : receipts db1 k' i' op = receipts db k' i' op)
      by (unfold receipts; by rewrite (shape_audit _ _ _ Hs)).
    rewrite Hsame.
    destruct (decide ((k', i') ∈ l)) as [Hin|Hout].
    + destruct (Hborn _ _ Hin) as [[= -> ->]|[-> Hb]]; [|apply facts_elem in Hf as (_ & _ & Hn);
        specialize (Hn eq_refl); congruence].
      apply facts_elem in Hf as (_ & -> & _).
      rewrite (proj2 (same_receipt_true _ _ _ _)) by done.
      assert (Hzero : receipts db k id (creation_operation db1 k id) = 0).
      { unfold receipts. destruct (List.filter _ _) as [|[key0 row0] rest] eqn:E; [done|]. exfalso.
        assert (Hin0 : (key0, row0) ∈ (key0, row0) :: rest) by apply list_elem_of_here.
        rewrite <- E in Hin0. apply list_elem_of_In, filter_In in Hin0 as [Hrow0 Hsr].
        apply list_elem_of_In, elem_of_map_to_list in Hrow0. simpl in Hsr.
        apply same_receipt_true in Hsr as (H1 & H2 & H3).
        rewrite <- (Hvalid db row0) in Hfresh by done. rewrite (Hv _ _ Hrow0) in Hfresh; [done|].
        unfold retry_receipt, TicketStore.ENGINEERING_RETRY_SUBJECT. rewrite H1.
        destruct (Z.eqb_spec k 46) as [->|]; [|done]. clear - Hfam.
        apply (bool_decide_pack _) in Hfam. by vm_compute in Hfam. }
      rewrite Hzero. split; intros; lia.
    + assert (Hno : same_receipt k' i' op row = false).
      { apply not_true_iff_false. rewrite same_receipt_true. intros (H1 & H2 & _).
        apply Hout. by rewrite <- H1, <- H2, Hk, Hid. }
      rewrite Hno, Z.add_0_r. apply Hc. by eapply fact_kept.
Qed.

(** * The shape of every write *)

Ltac exists_by k n :=
  unfold row_exists, KERNEL_BUILD_SUBJECT, APPLICATION_REVISION_SUBJECT, REPOSITORY_SUBJECT,
    ARTIFACT_SUBJECT; destruct (Z.eqb_spec k n) as [->|?]; reflexivity.

Lemma exists_builds db k i m : row_exists (set_kernel_builds m db) k i =
  if k =? 0 then bool_decide (is_Some (m !! i)) else row_exists db k i.
Proof. exists_by k 0. Qed.
Lemma exists_revisions db k i m : row_exists (set_application_revisions m db) k i =
  if k =? 1 then bool_decide (is_Some (m !! i)) else row_exists db k i.
Proof. exists_by k 1. Qed.
Lemma exists_repositories db k i m : row_exists (set_repositories m db) k i =
  if k =? 2 then bool_decide (is_Some (m !! i)) else row_exists db k i.
Proof. exists_by k 2. Qed.
Lemma exists_artifacts db k i m : row_exists (set_artifacts m db) k i =
  if k =? 3 then bool_decide (is_Some (m !! i)) else row_exists db k i.
Proof. exists_by k 3. Qed.
Lemma exists_campaigns db k i m : row_exists (set_campaigns m db) k i =
  if k =? 4 then bool_decide (is_Some (m !! i)) else row_exists db k i.
Proof. exists_by k 4. Qed.
Lemma exists_assignments db k i m : row_exists (set_assignments m db) k i =
  if k =? 5 then bool_decide (is_Some (m !! i)) else row_exists db k i.
Proof. exists_by k 5. Qed.
Lemma exists_sessions db k i m : row_exists (set_sessions m db) k i =
  if k =? 6 then bool_decide (is_Some (m !! i)) else row_exists db k i.
Proof. exists_by k 6. Qed.
Lemma exists_ticket_revisions db k i m : row_exists (set_ticket_revisions m db) k i =
  if k =? 30 then bool_decide (is_Some (m !! i)) else row_exists db k i.
Proof. exists_by k 30. Qed.
Lemma exists_attempts db k i m : row_exists (set_ticket_attempts m db) k i =
  if k =? 32 then bool_decide (is_Some (m !! i)) else row_exists db k i.
Proof. exists_by k 32. Qed.
Lemma exists_candidates db k i m : row_exists (set_candidates m db) k i =
  if k =? 40 then bool_decide (is_Some (m !! i)) else row_exists db k i.
Proof. exists_by k 40. Qed.
Lemma exists_validations db k i m : row_exists (set_validations m db) k i =
  if k =? 41 then bool_decide (is_Some (m !! i)) else row_exists db k i.
Proof. exists_by k 41. Qed.
Lemma exists_reviews db k i m : row_exists (set_reviews m db) k i =
  if k =? 42 then bool_decide (is_Some (m !! i)) else row_exists db k i.
Proof. exists_by k 42. Qed.
Lemma exists_decisions db k i m : row_exists (set_architect_decisions m db) k i =
  if k =? 43 then bool_decide (is_Some (m !! i)) else row_exists db k i.
Proof. exists_by k 43. Qed.
Lemma exists_deliveries db k i m : row_exists (set_deliveries m db) k i =
  if k =? 44 then bool_decide (is_Some (m !! i)) else row_exists db k i.
Proof. exists_by k 44. Qed.

(** One table replaced by one with one more key, or with the same keys. *)
Lemma rows_inserted {V} db db' (m : gmap Z V) n id v :
  (forall k i, row_exists db' k i =
     if k =? n then bool_decide (is_Some (<[id := v]> m !! i)) else row_exists db k i) ->
  (forall i, row_exists db n i = bool_decide (is_Some (m !! i))) ->
  forall k i, row_exists db' k i = true <-> row_exists db k i = true \/ (k, i) ∈ [(n, id)].
Proof.
  intros H' H k i. rewrite H', list_elem_of_singleton. destruct (Z.eqb_spec k n) as [->|Hk].
  - rewrite H, !bool_decide_eq_true, lookup_insert_is_Some'. split; [intros [->|]; auto|].
    intros [?|[= ->]]; auto.
  - split; [by left|]. intros [?|[= ->]]; done.
Qed.

Lemma rows_same {V} db db' (m m' : gmap Z V) n :
  (forall k i, row_exists db' k i =
     if k =? n then bool_decide (is_Some (m' !! i)) else row_exists db k i) ->
  (forall i, row_exists db n i = bool_decide (is_Some (m !! i))) ->
  (forall i, is_Some (m' !! i) <-> is_Some (m !! i)) ->
  forall k i, row_exists db' k i = true <-> row_exists db k i = true \/ (k, i) ∈ [].
Proof.
  intros H' H Hm k i. rewrite H', elem_of_nil. destruct (Z.eqb_spec k n) as [->|Hk]; [|tauto].
  rewrite H, !bool_decide_eq_true, Hm. tauto.
Qed.

Lemma lookup_alter_keys {V} (f : V -> V) (m : gmap Z V) j i : is_Some (alter f j m !! i) <-> is_Some (m !! i).
Proof. by rewrite lookup_alter_is_Some. Qed.

Lemma lookup_insert_keys {V} (m : gmap Z V) j v i :
  is_Some (m !! j) -> is_Some (<[j := v]> m !! i) <-> is_Some (m !! i).
Proof. intros Hj. rewrite lookup_insert_is_Some'. split; [intros [->|]; done|auto]. Qed.

#[local] Hint Resolve lookup_alter_keys : core.

Ltac shape_inserted rule :=
  constructor; [reflexivity| |done|done];
  eapply rows_inserted; [intros; apply rule|reflexivity].
Ltac shape_same rule :=
  constructor; [reflexivity| |done|done];
  eapply rows_same; [intros; apply rule|reflexivity|auto using lookup_alter_keys].

Section writes.
Context (db db' : Database) (id : Z).

Lemma shape_insert_attempt row :
    insert_ticket_attempt row db = Ok (id, db') ->
    id = fresh_id (ticket_attempts db) /\ shape db db' [(32, id)].
  Proof. unfold insert_ticket_attempt. intros H. ok_inv H. split; [done|]. shape_inserted exists_attempts. Qed.

Lemma shape_update_attempt f : shape db (update_ticket_attempt id f db) [].
  Proof. shape_same exists_attempts. Qed.

Lemma shape_put_revision row :
    put_ticket_revision id row db = Ok db' -> is_Some (ticket_revisions db !! id) -> shape db db' [].
  Proof.
    unfold put_ticket_revision. intros H Hid. ok_inv H. constructor; [reflexivity| |done|done].
    eapply rows_same; [intros; apply exists_ticket_revisions|reflexivity|].
    intros. by apply lookup_insert_keys.
  Qed.

Lemma shape_new_revision row :
    put_ticket_revision id row db = Ok db' -> shape db db' [(30, id)].
  Proof. unfold put_ticket_revision. intros H. ok_inv H. shape_inserted exists_ticket_revisions. Qed.

Lemma shape_update_revision f :
    update_ticket_revision id f db = Ok db' -> shape db db' [].
  Proof.
    unfold update_ticket_revision. case_match eqn:E; [|intros [= <-]; apply shape_refl].
    intros H. apply shape_put_revision in H; eauto.
  Qed.

Lemma shape_update_ticket l r : shape db (update_ticket id l r db) [].
  Proof. constructor; [done| |done|done]. intros k i. rewrite elem_of_nil. unfold row_exists. simpl. tauto. Qed.

Lemma shape_insert_ticket row : shape db (insert_ticket id row db) [].
  Proof. constructor; [done| |done|done]. intros k i. rewrite elem_of_nil. unfold row_exists. simpl. tauto. Qed.

Lemma shape_insert_candidate row :
    insert_candidate row db = Ok (id, db') -> id = fresh_id (candidates db) /\ shape db db' [(40, id)].
  Proof. unfold insert_candidate. intros H. ok_inv H. split; [done|]. shape_inserted exists_candidates. Qed.

Lemma shape_update_candidate f : shape db (update_candidate id f db) [].
  Proof. shape_same exists_candidates. Qed.

Lemma shape_insert_validation row :
    insert_validation row db = Ok (id, db') -> id = fresh_id (validations db) /\ shape db db' [(41, id)].
  Proof. unfold insert_validation. intros H. ok_inv H. split; [done|]. shape_inserted exists_validations. Qed.

Lemma shape_insert_review row :
    insert_review row db = Ok (id, db') -> id = fresh_id (reviews db) /\ shape db db' [(42, id)].
  Proof. unfold insert_review. intros H. ok_inv H. split; [done|]. shape_inserted exists_reviews. Qed.

Lemma shape_insert_decision row :
    insert_architect_decision row db = Ok (id, db') ->
    id = fresh_id (architect_decisions db) /\ shape db db' [(43, id)] /\
    architect_decisions db' !! id = Some row.
  Proof.
    unfold insert_architect_decision. intros H. ok_inv H. split_and!; [done| |apply lookup_insert_eq].
    constructor; [reflexivity| | |done].
    - eapply rows_inserted; [intros; apply exists_decisions|reflexivity].
    - intros i r Hr. cbn. rewrite lookup_insert_ne; [done|]. intros E.
      rewrite <- E, fresh_id_lookup in Hr. done.
  Qed.

Lemma shape_insert_delivery row :
    insert_delivery row db = Ok (id, db') -> id = fresh_id (deliveries db) /\ shape db db' [(44, id)].
  Proof. unfold insert_delivery. intros H. ok_inv H. split; [done|]. shape_inserted exists_deliveries. Qed.

Lemma shape_campaign_lifecycle l r : shape db (update_campaign_lifecycle id l r db) [].
  Proof. shape_same exists_campaigns. Qed.

Lemma shape_insert_campaign row :
    insert_campaign row db = Ok (id, db') -> id = fresh_id (campaigns db) /\ shape db db' [(4, id)].
  Proof. unfold insert_campaign. intros H. ok_inv H. split; [done|]. shape_inserted exists_campaigns. Qed.

Lemma shape_update_campaign f : update_campaign id f db = Ok db' -> shape db db' [].
  Proof.
    unfold update_campaign. case_match eqn:E; [|intros [= <-]; apply shape_refl].
    intros H. ok_inv H. constructor; [reflexivity| |done|done].
    eapply rows_same; [intros; apply exists_campaigns|reflexivity|].
    intros. apply lookup_insert_keys. eauto.
  Qed.

Lemma shape_insert_assignment row :
    insert_assignment id row db = Ok db' -> row_exists db 5 id = false /\ shape db db' [(5, id)].
  Proof.
    intros H. apply insert_assignment_Ok in H as [Hn ->]. split; [|shape_inserted exists_assignments].
    change (bool_decide (is_Some (assignments db !! id)) = false). rewrite Hn. by apply bool_decide_eq_false, is_Some_None.
  Qed.

Lemma shape_update_assignment f : shape db (update_assignment id f db) [].
  Proof. shape_same exists_assignments. Qed.

Lemma shape_insert_session row :
    insert_session row db = Ok (id, db') -> id = fresh_id (sessions db) /\ shape db db' [(6, id)].
  Proof. unfold insert_session. intros H. ok_inv H. split; [done|]. shape_inserted exists_sessions. Qed.

Lemma shape_update_terminal l r t : update_session_terminal id l r t db = Ok db' -> shape db db' [].
  Proof.
    unfold update_session_terminal. intros H. ok_inv H; try apply shape_refl.
    constructor; [reflexivity| |done|done].
    eapply rows_same; [intros; apply exists_sessions|reflexivity|].
    intros. apply lookup_insert_keys. eauto.
  Qed.

Lemma shape_insert_effect row : insert_provider_effect row db = Ok (id, db') -> shape db db' [].
  Proof. unfold insert_provider_effect. intros H. ok_inv H. constructor; [done| |done|done]. intros k i. rewrite elem_of_nil. unfold row_exists. simpl. tauto. Qed.
End writes.
