(* ===== verification/Restore.v ===== *)
(** The restore gate: every command of the modelled stores keeps the audit log
    sound, so a daemon restarts on its own database and store, unless an
    Engineering retry was ever committed. *)
From S2P Require Import Prelude Values Contracts Database Lifecycle Refinement Kernel.
From S2P Require Import ProcessStore ProviderEffects ProcessRefinement Cas Custody Storage Admission.
From S2P Require Import Receipts.
From S2P Require TicketStore DecisionStore.

(** * Audit inserts *)

Definition receipt_of (kind id : Z) (op : string) (row : AuditRow) : Prop :=
  al_subject_kind row = kind /\ al_subject_id row = id /\ al_operation row = op.

Lemma audit_row_added p c f db id db' :
  insert_audit_row p c f db = Ok (id, db') -> receipt_added db db' (f id).
Proof. unfold insert_audit_row. intros H. ok_inv H. bool_prop. by exists (p, c). Qed.

Lemma ts_audit_added db p c op fp k sid r id db' :
  TicketStore.insert_ticket_audit db p c op fp k sid r = Ok (id, db') ->
  exists row, receipt_added db db' row /\ receipt_of k sid op row.
Proof.
  unfold TicketStore.insert_ticket_audit. intros H. ok_inv H. read_steps.
  apply audit_row_added in H. by eexists.
Qed.

Lemma ds_audit_added db p c op fp k sid r id db' :
  DecisionStore.insert_audit db p c op fp k sid r = Ok (id, db') ->
  exists row, receipt_added db db' row /\ receipt_of k sid op row.
Proof.
  unfold DecisionStore.insert_audit. intros H. ok_inv H. read_steps.
  apply audit_row_added in H. by eexists.
Qed.

Lemma ps_audit_added db p c op fp k sid r id db' :
  ProcessStore.insert_audit db p c op fp k sid r = Ok (id, db') ->
  exists row, receipt_added db db' row /\ receipt_of k sid op row.
Proof.
  unfold ProcessStore.insert_audit. intros H. ok_inv H. read_process.
  apply audit_row_added in H. by eexists.
Qed.

Lemma st_audit_added db p c op fp k sid r id db' :
  insert_audit_receipt db p c op fp k sid r = Ok (id, db') ->
  exists row, receipt_added db db' row /\ receipt_of k sid op row.
Proof.
  unfold insert_audit_receipt, db_result. intros H. ok_inv H.
  apply audit_row_added in H. by eexists.
Qed.

(** * Writes of several statements *)

Ltac shape_writes :=
  repeat match goal with
  | H : TicketStore.db_result _ = Ok _ |- _ => apply map_err_Ok in H
  | H : DecisionStore.db_result _ = Ok _ |- _ => apply map_err_Ok in H
  | H : ProcessStore.db_result _ = Ok _ |- _ => apply map_err_Ok in H
  | H : Storage.db_result _ = Ok _ |- _ => apply map_err_Ok in H
  | H : insert_ticket_attempt _ _ = Ok (_, _) |- _ => apply shape_insert_attempt in H as [-> H]
  | H : insert_ticket_attempt _ _ = Ok ?p |- _ => destruct p
  | H : update_ticket_revision _ _ _ = Ok _ |- _ => apply shape_update_revision in H
  | H : insert_candidate _ _ = Ok (_, _) |- _ => apply shape_insert_candidate in H as [-> H]
  | H : insert_candidate _ _ = Ok ?p |- _ => destruct p
  | H : insert_validation _ _ = Ok (_, _) |- _ => apply shape_insert_validation in H as [-> H]
  | H : insert_validation _ _ = Ok ?p |- _ => destruct p
  | H : insert_review _ _ = Ok (_, _) |- _ => apply shape_insert_review in H as [-> H]
  | H : insert_review _ _ = Ok ?p |- _ => destruct p
  | H : insert_delivery _ _ = Ok (_, _) |- _ => apply shape_insert_delivery in H as [-> H]
  | H : insert_delivery _ _ = Ok ?p |- _ => destruct p
  | H : insert_campaign _ _ = Ok (_, _) |- _ => apply shape_insert_campaign in H as [-> H]
  | H : insert_campaign _ _ = Ok ?p |- _ => destruct p
  | H : update_campaign _ _ _ = Ok _ |- _ => apply shape_update_campaign in H
  | H : insert_session _ _ = Ok (_, _) |- _ => apply shape_insert_session in H as [-> H]
  | H : insert_session _ _ = Ok ?p |- _ => destruct p
  | H : update_session_terminal _ _ _ _ _ = Ok _ |- _ => apply shape_update_terminal in H
  | H : insert_provider_effect _ _ = Ok (_, _) |- _ => apply shape_insert_effect in H
  | H : insert_provider_effect _ _ = Ok ?p |- _ => destruct p
  end.

(** Composes [shape] facts along a chain of databases. *)
Ltac shape_chain :=
  repeat first
    [ eassumption
    | apply shape_refl
    | match goal with
      | |- shape ?db (update_ticket_attempt _ _ ?db1) _ => eapply shape_trans; [|apply shape_update_attempt]
      | |- shape ?db (update_ticket _ _ _ ?db1) _ => eapply shape_trans; [|apply shape_update_ticket]
      | |- shape ?db (insert_ticket _ _ ?db1) _ => eapply shape_trans; [|apply shape_insert_ticket]
      | |- shape ?db (update_candidate _ _ ?db1) _ => eapply shape_trans; [|apply shape_update_candidate]
      | |- shape ?db (update_campaign_lifecycle _ _ _ ?db1) _ =>
          eapply shape_trans; [|apply shape_campaign_lifecycle]
      | |- shape ?db (update_assignment _ _ ?db1) _ => eapply shape_trans; [|apply shape_update_assignment]
      | H : shape _ ?db1 _ |- shape _ ?db1 _ => eapply shape_trans; [|exact H]
      end ].

Lemma shape_ticket_states db l s n a b db' :
  TicketStore.update_ticket_states db l s n a b = Ok db' -> shape db db' [].
Proof.
  unfold TicketStore.update_ticket_states. intros H. ok_inv H. shape_writes.
  eapply (shape_trans _ _ _ [] []); [eassumption|apply shape_update_ticket].
Qed.

Lemma shape_requalification db l s n o q b db' :
  TicketStore.update_requalification_and_ticket_state db l s n o q b = Ok db' -> shape db db' [].
Proof.
  unfold TicketStore.update_requalification_and_ticket_state. intros H. ok_inv H. shape_writes.
  eapply (shape_trans _ _ _ [] []); [eassumption|apply shape_update_ticket].
Qed.

Lemma shape_state_parts db t r s n a b db' :
  DecisionStore.update_ticket_state_parts db t r s n a b = Ok db' -> shape db db' [].
Proof.
  unfold DecisionStore.update_ticket_state_parts. intros H. ok_inv H. shape_writes.
  eapply (shape_trans _ _ _ [] []); [eassumption|apply shape_update_ticket].
Qed.

Lemma shape_ds_requalification db l s n c q b db' :
  DecisionStore.update_ticket_requalification db l s n c q b = Ok db' -> shape db db' [].
Proof.
  unfold DecisionStore.update_ticket_requalification. intros H. ok_inv H. shape_writes.
  eapply (shape_trans _ _ _ [] []); [eassumption|apply shape_update_ticket].
Qed.

(** * Commands that only update *)

(** The receipt's kind and operation are registered for a family that has the
    subject, and create nothing. *)
Lemma update_recorded db db1 db' kind id op family :
  (exists row, receipt_added db1 db' row /\ receipt_of kind id op row) ->
  shape db db1 [] -> family_of kind op = Some family -> row_exists db family id = true ->
  (forall db, op <> creation_operation db kind id) \/ kind = 3 ->
  audit_sound db -> audit_sound db'.
Proof.
  intros (row & Hadd & Hk & Hid & Hop) Hs Hf Hr Hn. eapply sound_update; [exact Hs|exact Hadd| |].
  - intros _. rewrite (valid_subject_family db1 row family) by by rewrite Hk, Hop.
    rewrite Hid. apply (shape_rows _ _ _ Hs). by left.
  - rewrite Hk, Hid, Hop. destruct Hn; [right|left]; auto.
Qed.

Lemma creation_recorded db db1 db' l kind id op :
  (exists row, receipt_added db1 db' row /\ receipt_of kind id op row) ->
  shape db db1 l -> (kind, id) ∈ l ->
  (forall k' i', (k', i') ∈ l -> (k', i') = (kind, id) \/ k' = 3 /\ born_with_parent db1 i' = true) ->
  row_exists db kind id = false -> op = creation_operation db1 kind id ->
  audit_sound db -> audit_sound db'.
Proof.
  intros (row & Hadd & Hk & Hid & Hop) Hs Hl Hb Hr -> H. by eapply sound_creation.
Qed.

Lemma row_exists_attempt db id : row_exists db 32 id = bool_decide (is_Some (ticket_attempts db !! id)).
Proof. done. Qed.

(** A next identity names no row. *)
Lemma fresh_row {V} (db : Database) (k : Z) (m : gmap Z V) :
  row_exists db k (fresh_id m) = bool_decide (is_Some (m !! fresh_id m)) ->
  row_exists db k (fresh_id m) = false.
Proof. intros ->. rewrite fresh_id_lookup. by apply bool_decide_eq_false, is_Some_None. Qed.

Lemma lock_attempt_exists db id l :
  TicketStore.lock_ticket_attempt db id = Ok l -> row_exists db 32 id = true.
Proof.
  unfold TicketStore.lock_ticket_attempt. intros H. ok_inv H.
  match goal with Hb : _ ≫= _ = Some _ |- _ => apply bind_Some in Hb as (ta & Hta & _) end.
  apply bool_decide_eq_true. eauto.
Qed.

Lemma lock_revision_exists db id l :
  TicketStore.lock_ticket_revision db id = Ok l -> row_exists db 30 id = true.
Proof.
  unfold TicketStore.lock_ticket_revision, TicketStore.ticket_revision_join. intros H. ok_inv H.
  match goal with Hb : _ ≫= _ = Some _ |- _ => apply bind_Some in Hb as (tr & Htr & _) end.
  apply bool_decide_eq_true. eauto.
Qed.

Section ticket_store.
Context (blake3 : list Z -> ContentDigest) (db db' : Database).

Lemma propose_sound c r :
    TicketStore.submit_ticket_proposal blake3 db c = Ok (r, db') -> audit_sound db -> audit_sound db'.
  Proof.
    unfold TicketStore.submit_ticket_proposal. intros H. ok_inv H; [done|]. shape_writes.
    match goal with
    | Hp : put_ticket_revision _ _ _ = Ok _, Ha : TicketStore.insert_ticket_audit _ _ _ _ _ _ _ _ = Ok _ |- _ =>
        apply shape_new_revision in Hp; apply ts_audit_added in Ha;
        eapply (creation_recorded _ _ _ ([] ++ _) _ _ _ Ha)
    end.
    - eapply shape_trans; [apply shape_insert_ticket|eassumption].
    - by left.
    - intros k i Hin%list_elem_of_singleton. by left.
    - by apply fresh_row.
    - done.
  Qed.

(** The audit row written last, its writes before it and the family of its
    subject. *)
Ltac recorded_update family :=
  match goal with
  | Ha : TicketStore.insert_ticket_audit _ _ _ _ _ _ _ _ = Ok _ |- _ => apply ts_audit_added in Ha
  | Ha : DecisionStore.insert_audit _ _ _ _ _ _ _ _ = Ok _ |- _ => apply ds_audit_added in Ha
  | Ha : ProcessStore.insert_audit _ _ _ _ _ _ _ _ = Ok _ |- _ => apply ps_audit_added in Ha
  | Ha : insert_audit_receipt _ _ _ _ _ _ _ _ = Ok _ |- _ => apply st_audit_added in Ha
  end;
  match goal with
  | Ha : exists row, receipt_added _ _ _ /\ _ |- _ =>
      eapply (update_recorded _ _ _ _ _ _ family Ha); [ |by vm_compute| | ]
  end.

Lemma sponsor_sound c r :
    TicketStore.sponsor_ticket_revision blake3 db c = Ok (r, db') -> audit_sound db -> audit_sound db'.
  Proof.
    unfold TicketStore.sponsor_ticket_revision. intros H. ok_inv H; [done|].
    recorded_update 30.
    - by eapply shape_ticket_states.
    - by eapply lock_revision_exists.
    - left. intros ?. by vm_compute.
  Qed.

Lemma claim_sound c r :
    TicketStore.claim_sponsored_ticket blake3 db c = Ok (r, db') -> audit_sound db -> audit_sound db'.
  Proof.
    unfold TicketStore.claim_sponsored_ticket, TicketStore.claim_effect. intros H. ok_inv H; simplify_eq; try done;
      shape_writes;
      repeat match goal with Hq : TicketStore.update_requalification_and_ticket_state _ _ _ _ _ _ _ = Ok _ |- _ =>
        apply shape_requalification in Hq end.
    - match goal with Ha : TicketStore.insert_ticket_audit _ _ _ _ _ _ _ _ = Ok _ |- _ =>
        apply ts_audit_added in Ha; eapply (creation_recorded _ _ _ ([_] ++ []) _ _ _ Ha) end.
      + eapply shape_trans; eassumption.
      + by left.
      + intros k i Hin%list_elem_of_singleton. by left.
      + by apply fresh_row.
      + done.
    - recorded_update 30; [eassumption|by eapply lock_revision_exists|left; intros ?; by vm_compute].
    - recorded_update 30; [eassumption|by eapply lock_revision_exists|left; intros ?; by vm_compute].
  Qed.

Lemma fail_sound c r :
    TicketStore.fail_ticket_attempt blake3 db c = Ok (r, db') -> audit_sound db -> audit_sound db'.
  Proof.
    unfold TicketStore.fail_ticket_attempt. intros H. ok_inv H; [done|].
    recorded_update 32; [apply shape_update_attempt|by eapply lock_attempt_exists|left; intros ?; by vm_compute].
  Qed.

Lemma retry_quality_sound c r :
    TicketStore.retry_quality_attempt blake3 db c = Ok (r, db') -> audit_sound db -> audit_sound db'.
  Proof.
    unfold TicketStore.retry_quality_attempt. intros H. ok_inv H; [done|].
    recorded_update 32; [apply shape_update_attempt|by eapply lock_attempt_exists|left; intros ?; by vm_compute].
  Qed.

Lemma retry_engineering_sound c r :
    TicketStore.retry_engineering_attempt blake3 db c = Ok (r, db') -> audit_sound db -> audit_sound db'.
  Proof.
    unfold TicketStore.retry_engineering_attempt. intros H. ok_inv H; [done|].
    match goal with Ha : TicketStore.insert_ticket_audit _ _ _ _ _ _ _ _ = Ok _ |- _ =>
      apply ts_audit_added in Ha; destruct Ha as (row & Hadd & Hk & Hid & Hop) end.
    eapply sound_update; [apply shape_update_attempt|exact Hadd| |].
    - unfold retry_receipt. rewrite Hk, Hop. done.
    - right. rewrite Hk, Hop. by vm_compute.
  Qed.

Lemma release_sound c r :
    TicketStore.release_ticket_attempt blake3 db c = Ok (r, db') -> audit_sound db -> audit_sound db'.
  Proof.
    unfold TicketStore.release_ticket_attempt. intros H. ok_inv H; try done;
      match goal with
      | Hc : TicketStore.classify_requalification _ _ _ = Ok ?o, Hp : TicketStore.release_plan ?o = _ |- _ =>
          destruct o; injection Hp as <- <- <- <- <-
      end;
      match goal with Hq : TicketStore.update_requalification_and_ticket_state _ _ _ _ _ _ _ = Ok _ |- _ =>
        apply shape_requalification in Hq end;
      (recorded_update 32;
       [eapply (shape_trans _ _ _ [] []); [apply shape_update_attempt|eassumption]
       |by eapply lock_attempt_exists|left; intros ?; by vm_compute]).
  Qed.

Lemma complete_sound c r :
    TicketStore.complete_campaign_at_delivery_target blake3 db c = Ok (r, db') ->
    audit_sound db -> audit_sound db'.
  Proof.
    unfold TicketStore.complete_campaign_at_delivery_target. intros H. ok_inv H; [done|].
    recorded_update 4; [apply shape_campaign_lifecycle|apply bool_decide_eq_true; eauto|left; intros ?; by vm_compute].
  Qed.
End ticket_store.

Lemma decision_recorded db db1 db2 db' id op d :
  (exists row, receipt_added db2 db' row /\ receipt_of 43 id op row) ->
  id = fresh_id (architect_decisions db) -> shape db db1 [(43, id)] ->
  architect_decisions db1 !! id = Some d -> shape db1 db2 [] -> op = decision_operation d ->
  audit_sound db -> audit_sound db'.
Proof.
  intros Ha Hid H1 Hd H2 Hop. eapply (creation_recorded _ _ _ ([_] ++ []) _ _ _ Ha).
  - by eapply shape_trans.
  - by left.
  - intros k i Hin%list_elem_of_singleton. by left.
  - subst id. by apply fresh_row.
  - apply (shape_decisions _ _ _ H2) in Hd. rewrite Hop. unfold creation_operation. simpl. by rewrite Hd.
Qed.

Lemma load_candidate_exists db id l :
  DecisionStore.load_candidate db id = Ok l -> row_exists db 40 id = true.
Proof.
  unfold DecisionStore.load_candidate. intros H. ok_inv H. apply bool_decide_eq_true. eauto.
Qed.

Section decision_store.
Context (blake3 : list Z -> ContentDigest) (db db' : Database).

(** Turns the writes of the decision store into shapes. *)
Ltac decision_shapes :=
  shape_writes;
  repeat match goal with
  | H : DecisionStore.insert_decision _ _ _ _ _ _ _ _ _ = Ok (_, _) |- _ =>
      unfold DecisionStore.insert_decision in H; apply map_err_Ok in H;
      apply shape_insert_decision in H as (-> & ? & ?)
  | H : DecisionStore.insert_decision _ _ _ _ _ _ _ _ _ = Ok ?p |- _ => destruct p
  | H : DecisionStore.update_ticket_state_parts _ _ _ _ _ _ _ = Ok _ |- _ => apply shape_state_parts in H
  | H : DecisionStore.update_ticket_state _ _ _ _ _ _ = Ok _ |- _ => apply shape_state_parts in H
  | H : DecisionStore.update_ticket_requalification _ _ _ _ _ _ _ = Ok _ |- _ =>
      apply shape_ds_requalification in H
  | H : DecisionStore.new_id _ _ = Ok _ |- _ => apply map_err_Ok, identifier_Ok in H as [? ->]
  end.

Ltac audited := match goal with
  | Ha : DecisionStore.insert_audit _ _ _ _ _ _ _ _ = Ok _ |- _ => apply ds_audit_added in Ha end.

Lemma submit_candidate_sound c r :
    DecisionStore.submit_candidate blake3 db c = Ok (r, db') -> audit_sound db -> audit_sound db'.
  Proof.
    unfold DecisionStore.submit_candidate. intros H. ok_inv H; [done|]. decision_shapes. audited.
    match goal with Ha : exists row, _ /\ _ |- _ =>
      eapply (creation_recorded _ _ _ ([_] ++ []) _ _ _ Ha) end.
    - eapply shape_trans; [eassumption|apply shape_update_attempt].
    - by left.
    - intros k i Hin%list_elem_of_singleton. by left.
    - by apply fresh_row.
    - done.
  Qed.

Lemma record_validation_sound c r :
    DecisionStore.record_validation blake3 db c = Ok (r, db') -> audit_sound db -> audit_sound db'.
  Proof.
    unfold DecisionStore.record_validation. intros H. ok_inv H; [done|..]; decision_shapes; audited;
      (match goal with Ha : exists row, _ /\ _ |- _ =>
         eapply (creation_recorded _ _ _ ([_] ++ ([] ++ [])) _ _ _ Ha) end;
       [eapply shape_trans; [eassumption|];
        eapply shape_trans; [apply shape_update_candidate|apply shape_update_attempt]
       |by left
       |intros k i Hin%list_elem_of_singleton; by left
       |by apply fresh_row|done]).
  Qed.

Lemma attach_commit_sound c r :
    DecisionStore.attach_candidate_commit blake3 db c = Ok (r, db') -> audit_sound db -> audit_sound db'.
  Proof.
    unfold DecisionStore.attach_candidate_commit. intros H. ok_inv H; [done|]. decision_shapes. audited.
    match goal with Ha : exists row, _ /\ _ |- _ =>
      eapply (update_recorded _ _ _ _ _ _ 40 Ha); [apply shape_update_candidate|by vm_compute| |] end.
    - by eapply load_candidate_exists.
    - left. intros ?. by vm_compute.
  Qed.

Lemma submit_review_sound c r :
    DecisionStore.submit_quality_review blake3 db c = Ok (r, db') -> audit_sound db -> audit_sound db'.
  Proof.
    unfold DecisionStore.submit_quality_review. intros H. ok_inv H; [done|..]; decision_shapes; audited;
      (match goal with Ha : exists row, _ /\ _ |- _ =>
         eapply (creation_recorded _ _ _ ([_] ++ ([] ++ [])) _ _ _ Ha) end;
       [eapply shape_trans; [eassumption|];
        eapply shape_trans; [apply shape_update_candidate|apply shape_update_attempt]
       |by left
       |intros k i Hin%list_elem_of_singleton; by left
       |by apply fresh_row|done]).
  Qed.

Lemma architect_sponsor_sound c r :
    DecisionStore.sponsor_ticket blake3 db c = Ok (r, db') -> audit_sound db -> audit_sound db'.
  Proof.
    unfold DecisionStore.sponsor_ticket. intros H. ok_inv H; [done|]. decision_shapes. audited.
    match goal with Ha : exists row, _ /\ _ |- _ => eapply (decision_recorded _ _ _ _ _ _ _ Ha) end;
      [done|eassumption..|by vm_compute].
  Qed.

Lemma architect_release_sound c r :
    DecisionStore.release_ticket_attempt blake3 db c = Ok (r, db') -> audit_sound db -> audit_sound db'.
  Proof.
    unfold DecisionStore.release_ticket_attempt. intros H. ok_inv H; try done;
      decision_shapes; audited;
      (match goal with Ha : exists row, _ /\ _ |- _ => eapply (decision_recorded _ _ _ _ _ _ _ Ha) end;
       [done|eassumption|eassumption| |by vm_compute];
       eapply (shape_trans _ _ _ [] []); [apply shape_update_attempt|eassumption]).
  Qed.

Lemma decide_sound c r :
    DecisionStore.decide_candidate blake3 db c = Ok (r, db') -> audit_sound db -> audit_sound db'.
  Proof.
    unfold DecisionStore.decide_candidate. intros H. ok_inv H; try done; decision_shapes; audited;
      (match goal with Ha : exists row, _ /\ _ |- _ => eapply (decision_recorded _ _ _ _ _ _ _ Ha) end;
       [done|eassumption|eassumption|
       |by destruct (request_decision (DecisionStore.dc_request c)); vm_compute]).
    all: eapply (shape_trans _ _ _ [] []); [eapply (shape_trans _ _ _ [] []);
      [apply shape_update_candidate|apply shape_update_attempt]|first [eassumption|apply shape_refl]].
  Qed.

Lemma delivery_sound c r :
    DecisionStore.record_delivery blake3 db c = Ok (r, db') -> audit_sound db -> audit_sound db'.
  Proof.
    unfold DecisionStore.record_delivery. intros H. ok_inv H; try done; decision_shapes; audited;
      (match goal with Ha : exists row, _ /\ _ |- _ =>
         eapply (creation_recorded _ _ _ ([_] ++ (([] ++ []) ++ ([] ++ []))) _ _ _ Ha) end;
       [|by left|intros k i Hin%list_elem_of_singleton; by left|by apply fresh_row|done]).
    all: eapply shape_trans; [eassumption|]; eapply shape_trans;
      [eapply shape_trans; [apply shape_update_candidate|apply shape_update_attempt]|];
      eapply shape_trans; [eassumption|first [apply shape_campaign_lifecycle|apply shape_refl]].
  Qed.
End decision_store.

Section process_store.
Context (blake3 : list Z -> ContentDigest) (ts : Z -> result string Z) (db db' : Database).

Ltac audited := match goal with
  | Ha : ProcessStore.insert_audit _ _ _ _ _ _ _ _ = Ok _ |- _ => apply ps_audit_added in Ha end.

Ltac process_shapes := read_process; shape_writes.

Lemma start_campaign_sound c r :
    start_campaign blake3 ts db c = Ok (r, db') -> audit_sound db -> audit_sound db'.
  Proof.
    unfold start_campaign. intros H. ok_inv H; [done|]. process_shapes. audited.
    match goal with Ha : exists row, _ /\ _ |- _ => eapply (creation_recorded _ _ _ _ _ _ _ Ha) end;
      [eassumption|by left|intros k i Hin%list_elem_of_singleton; by left|by apply fresh_row|done].
  Qed.

Lemma cancel_sound c row rev fp r :
    campaigns db !! ccm_campaign_id c = Some row ->
    cancel_campaign_in_transaction db c rev fp = Ok (r, db') -> audit_sound db -> audit_sound db'.
  Proof.
    unfold cancel_campaign_in_transaction. intros Hrow H. ok_inv H; process_shapes. audited.
    match goal with Ha : exists row, _ /\ _ |- _ => eapply (update_recorded _ _ _ _ _ _ 4 Ha) end;
      [eassumption|by vm_compute|apply bool_decide_eq_true; eauto|left; intros ?; by vm_compute].
  Qed.

Lemma fail_campaign_sound c r :
    fail_campaign blake3 db c = Ok (r, db') -> audit_sound db -> audit_sound db'.
  Proof.
    unfold fail_campaign. intros H. ok_inv H; try done. process_shapes. audited.
    match goal with Ha : exists row, _ /\ _ |- _ => eapply (update_recorded _ _ _ _ _ _ 4 Ha) end;
      [eassumption|by vm_compute|apply bool_decide_eq_true; eauto|left; intros ?; by vm_compute].
  Qed.

Lemma create_assignment_sound wire c r :
    create_assignment blake3 db wire c = Ok (r, db') -> audit_sound db -> audit_sound db'.
  Proof.
    unfold create_assignment. intros H. ok_inv H; try done. process_shapes. audited.
    match goal with Hi : insert_assignment _ _ _ = Ok _ |- _ => apply shape_insert_assignment in Hi as [? Hi] end.
    match goal with Ha : exists row, _ /\ _ |- _ => eapply (creation_recorded _ _ _ ([_] ++ []) _ _ _ Ha) end;
      [eapply shape_trans; eassumption|by left|intros k i Hin%list_elem_of_singleton; by left|done|done].
  Qed.

Lemma start_session_sound c r :
    start_session blake3 db c = Ok (r, db') -> audit_sound db -> audit_sound db'.
  Proof.
    unfold start_session. intros H. ok_inv H; try done. process_shapes. audited.
    match goal with Ha : exists row, _ /\ _ |- _ => eapply (creation_recorded _ _ _ ([_] ++ []) _ _ _ Ha) end;
      [eapply shape_trans; [eassumption|apply shape_update_assignment]
      |by left|intros k i Hin%list_elem_of_singleton; by left|by apply fresh_row|done].
  Qed.

Lemma shape_finish_assignment id l db1 db2 :
    finish_assignment id l db1 = Ok db2 -> shape db1 db2 [].
  Proof.
    unfold finish_assignment. intros H. case_match; [|injection H as <-; apply shape_refl].
    case_match; [|injection H as <-; apply shape_refl].
    ok_inv H. apply shape_update_assignment.
  Qed.

Lemma terminal_sound p k id report ev r :
    terminal_session blake3 db p k id report ev = Ok (r, db') -> audit_sound db -> audit_sound db'.
  Proof.
    unfold terminal_session. intros H. ok_inv H; try done. process_shapes. audited.
    match goal with Hf : finish_assignment _ _ _ = Ok _ |- _ => apply shape_finish_assignment in Hf end.
    match goal with Ht : terminable_session _ _ _ _ = Ok _ |- _ =>
      apply terminable_session_Ok in Ht as ((Hs & _)%session_join_Some & _) end.
    match goal with Ha : exists row, _ /\ _ |- _ => eapply (update_recorded _ _ _ _ _ _ 6 Ha) end;
      [|by vm_compute|apply bool_decide_eq_true; eauto|left; intros ?; by vm_compute].
    eapply (shape_trans _ _ _ [] []); [eassumption|]. eapply (shape_trans _ _ _ [] []); eassumption.
  Qed.

Lemma shape_effects m : shape db (set_provider_effects m db) [].
  Proof. constructor; [done| |done|done]. intros k i. rewrite elem_of_nil. unfold row_exists. simpl. tauto. Qed.

Lemma effect_start_sound s a q r :
    provider_effect_start db s a q = Ok (r, db') -> audit_sound db -> audit_sound db'.
  Proof.
    unfold provider_effect_start. intros H. ok_inv H; try done. process_shapes. by eapply sound_silent.
  Qed.

Lemma effect_settle_sound s a q r :
    provider_effect_settle db s a q = Ok (r, db') -> audit_sound db -> audit_sound db'.
  Proof.
    unfold provider_effect_settle. intros H. ok_inv H; try done; process_shapes;
      try done; eapply sound_silent, shape_effects.
  Qed.

Lemma admit_cancellation_sound c r :
    admit_campaign_cancellation blake3 db c = Ok (r, db') -> audit_sound db -> audit_sound db'.
  Proof.
    unfold admit_campaign_cancellation. intros H. ok_inv H; try done. by eapply cancel_sound.
  Qed.

Lemma finish_cancellation_sound c rec r :
    finish_campaign_cancellation blake3 db c rec = Ok (r, db') -> audit_sound db -> audit_sound db'.
  Proof.
    unfold finish_campaign_cancellation. intros H. ok_inv H; try done. by eapply cancel_sound.
  Qed.
End process_store.

(** * Every command of the kernel's stores *)

Lemma execute_sound blake3 db command db' :
  execute blake3 db command = Some db' -> audit_sound db -> audit_sound db'.
Proof.
  destruct command; simpl; rewrite committed_Some; intros [receipt H];
    eauto using propose_sound, sponsor_sound, claim_sound, fail_sound, retry_quality_sound,
      retry_engineering_sound, release_sound, complete_sound, submit_candidate_sound,
      record_validation_sound, attach_commit_sound, submit_review_sound, architect_sponsor_sound,
      architect_release_sound, decide_sound, delivery_sound.
Qed.

Lemma execute_process_sound blake3 ts db command db' :
  execute_process blake3 ts db command = Some db' -> audit_sound db -> audit_sound db'.
Proof.
  destruct command; simpl; rewrite committed_Some; intros [receipt H];
    eauto using start_campaign_sound, admit_cancellation_sound, finish_cancellation_sound,
      fail_campaign_sound, create_assignment_sound, start_session_sound, effect_start_sound,
      effect_settle_sound, terminal_sound.
Qed.
