(* ===== verification/Bootstrap.v ===== *)
(** The storage and admission commands: what each adds to the tables, that the
    audit log stays sound, and that every artifact row keeps a whole object
    behind it. *)
From S2P Require Import Prelude Values Contracts Database Application Lifecycle Refinement Kernel.
From S2P Require Import ProcessStore ProviderEffects ProcessRefinement Cas Custody Storage Admission.
From S2P Require Import Receipts Restore.
From S2P Require TicketStore WireBundle.

Lemma exists_where_mono {V} (p q : Z -> V -> bool) (m m' : gmap Z V) :
  (forall k v, m !! k = Some v -> p k v = true -> exists w, m' !! k = Some w /\ q k w = true) ->
  exists_where p m = true -> exists_where q m' = true.
Proof.
  rewrite !exists_where_true. intros H (k & v & Hk & Hp). destruct (H k v Hk Hp) as (w & ? & ?). eauto.
Qed.

Lemma exists_where_inserted {V} (p : Z -> V -> bool) (m : gmap Z V) k v :
  m !! k = None -> exists_where p m = true -> exists_where p (<[k := v]> m) = true.
Proof.
  intros Hk. apply exists_where_mono. intros j w Hj Hp. exists w.
  rewrite lookup_insert_ne by congruence. done.
Qed.

#[global] Instance ambient_preorder : PreOrder ambient.
Proof.
  split.
  - intros db. by constructor.
  - intros x y z [] []. constructor; try congruence. by etransitivity.
Qed.

Lemma receipt_ambient db db' row : receipt_added db db' row -> ambient db db'.
Proof.
  intros (key & Hk & ->). repeat (constructor; simpl); try done; eauto.
  by apply insert_subseteq.
Qed.

Section bootstrap.
Context (blake3 : list Z -> ContentDigest) (maximum : Z).

(** Every artifact row names a whole object of its digest and length. *)
Definition artifacts_sealed (d : Disk) (db : Database) : Prop :=
  forall id row, artifacts db !! id = Some row -> verify_artifact blake3 maximum d row = Ok tt.

Lemma verify_artifact_Ok d row :
  verify_artifact blake3 maximum d row = Ok tt <->
  0 <= art_byte_length row /\ cas_path (art_digest row) = Ok (art_cas_relative_path row) /\
  sealed_on blake3 maximum
    {| cas_digest := art_digest row; cas_byte_length := art_byte_length row |} d.
Proof.
  unfold verify_artifact, sealed_on, cas_verify. simpl. split.
  - intros H. ok_inv H. bool_prop. simplify_eq.
    match goal with Hv : verify_seal _ _ _ _ = Ok _ |- _ =>
      pose proof Hv as (bytes & _ & ->)%verify_seal_Ok end.
    split_and!; [lia|done|]. simpl in *. congruence.
  - intros (Hl & Hp & Hv). rewrite (proj2 (Z.ltb_ge _ _)) by done. simpl. rewrite Hp. simpl.
    rewrite bool_decide_true by done. simpl. rewrite Hv. simpl. by rewrite Z.eqb_refl.
Qed.

Lemma verify_artifact_later d d' row :
  grows blake3 maximum d d' -> verify_artifact blake3 maximum d row = Ok tt ->
  verify_artifact blake3 maximum d' row = Ok tt.
Proof.
  intros Hg. rewrite !verify_artifact_Ok. intros (? & ? & ?). split_and!; [done..|].
  by eapply sealed_on_later.
Qed.

Lemma artifacts_sealed_later d d' db :
  grows blake3 maximum d d' -> artifacts_sealed d db -> artifacts_sealed d' db.
Proof. intros Hg H id row Hrow. by eapply verify_artifact_later, H. Qed.

(** * Writes

    What a write adds to the tables, besides changing nothing of the other
    stores and leaving every artifact row with its object. *)
Record written (d : Disk) (db db' : Database) (l : list (Z * Z)) : Prop := {
  written_shape : shape db db' l;
  written_ambient : ambient db db';
  written_sealed : artifacts_sealed d db -> artifacts_sealed d db';
}.

Lemma written_refl d db : written d db db [].
Proof. constructor; [apply shape_refl|reflexivity|done]. Qed.

Lemma written_trans d db1 db2 db3 l1 l2 :
  written d db1 db2 l1 -> written d db2 db3 l2 -> written d db1 db3 (l1 ++ l2).
Proof.
  intros [S1 A1 V1] [S2 A2 V2]. constructor; [by eapply shape_trans|by etransitivity|auto].
Qed.

Ltac ambient_write := repeat (constructor; simpl); try done; eauto.

Lemma written_insert_artifact d db id row db' :
  insert_artifact id row db = Ok db' -> artifacts db !! id = None ->
  verify_artifact blake3 maximum d row = Ok tt -> written d db db' [(3, id)].
Proof.
  unfold insert_artifact. intros H Hid Hv. ok_inv H. constructor.
  - constructor; [done| |done|done]. eapply rows_inserted; [intros; apply exists_artifacts|reflexivity].
  - ambient_write. by apply insert_subseteq.
  - intros Hs j r. simpl. intros [[<- <-]|[_ Hj]]%lookup_insert_Some; [done|by eapply Hs].
Qed.

Lemma written_retire d db : written d db (retire_builds db) [].
Proof.
  constructor; [|by ambient_write|done]. constructor; [done| |done|].
  - eapply rows_same; [intros; apply exists_builds|reflexivity|]. intros i. by rewrite lookup_fmap, fmap_is_Some.
  - intros i. unfold born_with_parent. simpl. rewrite !orb_true_iff. intros [H|H]; [left|by right].
    revert H. apply exists_where_mono. intros k v Hk Hp. rewrite lookup_fmap, Hk. simpl. eauto.
Qed.

Lemma written_insert_build d db id row db' :
  insert_kernel_build id row db = Ok db' -> kernel_builds db !! id = None ->
  written d db db' [(0, id)] /\ born_with_parent db' (kb_qualification_receipt_artifact_id row) = true /\
  artifacts db' = artifacts db.
Proof.
  unfold insert_kernel_build. intros H Hid. ok_inv H. split_and!; [| |done].
  - constructor; [|by ambient_write|done]. constructor; [done| |done|].
    + eapply rows_inserted; [intros; apply exists_builds|reflexivity].
    + intros i. unfold born_with_parent. simpl. rewrite !orb_true_iff. intros [H|H]; [left|by right].
      by apply exists_where_inserted.
  - unfold born_with_parent. simpl. apply orb_true_iff. left. apply exists_where_true.
    exists id, row. rewrite lookup_insert_eq, Z.eqb_refl. done.
Qed.

Lemma written_insert_repository d db id row db' :
  insert_repository row db = Ok (id, db') ->
  id = fresh_id (repositories db) /\ written d db db' [(2, id)].
Proof.
  unfold insert_repository. intros H. ok_inv H. split; [done|].
  constructor; [|by ambient_write|done]. constructor; [done| |done|done].
  eapply rows_inserted; [intros; apply exists_repositories|reflexivity].
Qed.

Lemma written_insert_revision d db id row db' :
  insert_application_revision row db = Ok (id, db') ->
  id = fresh_id (application_revisions db) /\ written d db db' [(1, id)] /\
  forall i, i ∈ application_artifact_ids row -> born_with_parent db' i = true.
Proof.
  unfold insert_application_revision. intros H. ok_inv H. split_and!; [done| |].
  - constructor; [|by ambient_write|done]. constructor; [done| |done|].
    + eapply rows_inserted; [intros; apply exists_revisions|reflexivity].
    + intros i. unfold born_with_parent. simpl. rewrite !orb_true_iff. intros [H|H]; [by left|right].
      apply exists_where_inserted; [apply fresh_id_lookup|done].
  - intros i Hi. unfold born_with_parent. simpl. apply orb_true_iff. right. apply exists_where_true.
    exists (fresh_id (application_revisions db)), row. rewrite lookup_insert_eq. split; [done|].
    apply (proj2 (existsb_exists (Z.eqb i) (application_artifact_ids row))). exists i. split; [by apply list_elem_of_In|apply Z.eqb_refl].
Qed.

Lemma written_set_offices d db m : written d db (set_offices m db) [].
Proof.
  constructor; [|by ambient_write|done]. constructor; [done| |done|done].
  intros k i. rewrite elem_of_nil. unfold row_exists. simpl. tauto.
Qed.

Lemma written_insert_offices d l : forall db,
  written d db (foldl (fun db office => insert_office office db) db l) [].
Proof.
  induction l as [|office l IH]; intros db; simpl; [apply written_refl|].
  eapply (written_trans _ _ _ _ [] []); [|apply IH]. unfold insert_office.
  case_match; [apply written_refl|apply written_set_offices].
Qed.

Lemma written_move_pointer d key id db : written d db (move_active_pointer key id db) [].
Proof.
  constructor; [|by ambient_write|done]. constructor; [done| |done|].
  - eapply rows_same; [intros; apply exists_revisions|reflexivity|]. intros i.
    by rewrite lookup_alter_keys, lookup_fmap, fmap_is_Some.
  - intros i. unfold born_with_parent. simpl. rewrite !orb_true_iff. intros [H|H]; [by left|right].
    revert H. apply exists_where_mono. intros k v Hk Hp.
    destruct (decide (k = id)) as [->|Hne].
    + rewrite lookup_alter_eq, lookup_fmap, Hk. simpl. eexists. split; [done|]. by case_match.
    + rewrite lookup_alter_ne, lookup_fmap, Hk by done. simpl. eexists. split; [done|]. by case_match.
Qed.

(** * Commands *)

(** What a committed storage command is to the rest of the kernel. *)
Record bootstrap_step (d : Disk) (db db' : Database) : Prop := {
  bootstrap_ambient : ambient db db';
  bootstrap_sound : audit_sound db -> audit_sound db';
  bootstrap_sealed : artifacts_sealed d db -> artifacts_sealed d db';
}.

#[global] Instance bootstrap_preorder d : PreOrder (bootstrap_step d).
Proof.
  split; [by intros db; constructor|]. intros x y z [] []. constructor; [by etransitivity|auto..].
Qed.

Lemma recorded_step d db db1 db' row l :
  written d db db1 l -> receipt_added db1 db' row ->
  (audit_sound db -> audit_sound db') -> bootstrap_step d db db'.
Proof.
  intros [_ A V] Hadd Hs. constructor; [|done|].
  - etransitivity; [exact A|by eapply receipt_ambient].
  - intros H%V. by destruct Hadd as (? & _ & ->).
Qed.

Ltac store_results :=
  repeat match goal with
  | H : Storage.db_result _ = Ok _ |- _ => apply map_err_Ok in H
  | H : Storage.new_id _ _ = Ok _ |- _ => apply map_err_Ok, identifier_Ok in H as [? ->]
  end.

Lemma sealed_row d seal path length build_id :
  sealed_on blake3 maximum seal d -> cas_path (cas_digest seal) = Ok path ->
  length_to_sql (cas_byte_length seal) = Ok length -> 
  verify_artifact blake3 maximum d {| art_digest := cas_digest seal; art_byte_length := length;
    art_cas_relative_path := path; art_creating_kernel_build_id := build_id |} = Ok tt.
Proof.
  intros Hs Hp Hl. unfold length_to_sql in Hl. ok_inv Hl. apply verify_artifact_Ok. simpl.
  pose proof Hs as (bytes & _ & E)%verify_seal_Ok. split.
  - rewrite E. simpl. lia.
  - split; [done|by destruct seal].
Qed.

Lemma verified_seal d digest seal :
  cas_verify blake3 maximum d digest = Ok seal -> sealed_on blake3 maximum seal d /\ cas_digest seal = digest.
Proof.
  unfold cas_verify, sealed_on. rewrite map_err_Ok. intros H.
  pose proof H as (bytes & _ & ->)%verify_seal_Ok. done.
Qed.

(** A command whose writes create the row of its receipt. *)
Lemma creating_step d db db1 db' kind id op l :
  (exists row, receipt_added db1 db' row /\ receipt_of kind id op row) ->
  written d db db1 l -> (kind, id) ∈ l ->
  (forall k' i', (k', i') ∈ l -> (k', i') = (kind, id) \/ k' = 3 /\ born_with_parent db1 i' = true) ->
  row_exists db kind id = false -> op = creation_operation db1 kind id -> bootstrap_step d db db'.
Proof.
  intros Ha Hw Hl Hb Hr Hop. pose proof Ha as (row & Hadd & _).
  eapply recorded_step; [exact Hw|exact Hadd|]. destruct Hw as [Hs _ _].
  by eapply creation_recorded.
Qed.

Lemma updating_step d db db1 db' kind id op family :
  (exists row, receipt_added db1 db' row /\ receipt_of kind id op row) ->
  written d db db1 [] -> family_of kind op = Some family -> row_exists db family id = true ->
  (forall db, op <> creation_operation db kind id) \/ kind = 3 -> bootstrap_step d db db'.
Proof.
  intros Ha Hw Hf Hr Hop. pose proof Ha as (row & Hadd & _).
  eapply recorded_step; [exact Hw|exact Hadd|]. destruct Hw as [Hs _ _].
  by eapply update_recorded.
Qed.

Ltac audited := match goal with
  | Ha : insert_audit_receipt _ _ _ _ _ _ _ _ = Ok _ |- _ => apply st_audit_added in Ha end.

Lemma install_step d db c r db' :
  install_kernel_build blake3 maximum d db c = Ok (r, db') -> bootstrap_step d db db'.
Proof.
  unfold install_kernel_build. intros H. ok_inv H; try done; store_results; audited;
    match goal with Hi : insert_kernel_build _ _ _ = Ok _ |- _ =>
      apply (written_insert_build d) in Hi as (Hi & Hborn & Hart);
        [|simpl; rewrite lookup_fmap, fresh_id_lookup; done];
      eapply (written_trans _ _ _ _ [] _ (written_retire _ _)) in Hi end.
  - eapply creating_step; [eassumption..|by left| |by apply fresh_row|done].
    intros k i Hin%list_elem_of_singleton. by left.
  - match goal with
    | Hv : cas_verify _ _ _ _ = Ok _, Ha : insert_artifact _ _ _ = Ok _ |- _ =>
        apply verified_seal in Hv as [Hv _]; apply (written_insert_artifact d) in Ha;
          [|by rewrite Hart; simpl; apply fresh_id_lookup|by eapply sealed_row]
    end.
    eapply creating_step; [eassumption|by eapply written_trans|by left| |by apply fresh_row|done].
    intros k i [E|E%list_elem_of_singleton]%elem_of_cons; simplify_eq; [by left|].
    right. split; [done|]. by eapply shape_born; [eapply written_shape|].
Qed.

Lemma register_repository_step d db c r db' :
  register_repository blake3 db c = Ok (r, db') -> bootstrap_step d db db'.
Proof.
  unfold register_repository. intros H. ok_inv H; try done; store_results; audited.
  match goal with Hi : insert_repository _ _ = Ok _ |- _ =>
    apply (written_insert_repository d) in Hi as [-> Hi] end.
  eapply creating_step; [eassumption..|by left| |by apply fresh_row|done].
  intros k i Hin%list_elem_of_singleton. by left.
Qed.

Lemma artifact_by_digest_exists db digest id row :
  artifact_by_digest db digest = Some (id, row) -> row_exists db 3 id = true.
Proof.
  unfold artifact_by_digest. intros H%head_Some_elem_of. apply rows_where_elem in H as [H _].
  apply bool_decide_eq_true. eauto.
Qed.

Lemma register_artifact_step d db c r db' :
  register_artifact blake3 maximum d db c = Ok (r, db') -> bootstrap_step d db db'.
Proof.
  unfold register_artifact. intros H. ok_inv H; try done; simplify_eq; store_results; audited.
  - eapply updating_step; [eassumption|apply written_refl|by vm_compute| |by right].
    by eapply artifact_by_digest_exists.
  - match goal with
    | Hv : cas_verify _ _ _ _ = Ok _, Ha : insert_artifact _ _ _ = Ok _ |- _ =>
        apply verified_seal in Hv as [Hv _]; bool_prop; subst; apply (written_insert_artifact d) in Ha;
          [|by apply fresh_id_lookup|by eapply sealed_row]
    end.
    eapply creating_step; [eassumption..|by left| |by apply fresh_row|done].
    intros ? ? Hin%list_elem_of_singleton. by left.
Qed.

(** * Admission *)

Lemma repository_for_step d db c fp b id db' :
  repository_for blake3 db c fp b = Ok (id, db') -> bootstrap_step d db db'.
Proof.
  unfold repository_for. intros H. ok_inv H; try done; simplify_eq; try done; store_results.
  match goal with Hi : insert_repository _ _ = Ok _ |- _ =>
    apply (written_insert_repository d) in Hi as [-> Hi] end.
  audited. eapply creating_step; [eassumption..|by left| |by apply fresh_row|done].
  intros k i Hin%list_elem_of_singleton. by left.
Qed.

(** The artifacts a transaction adds are among those it returns. *)
Lemma register_artifacts_written d build_id seals : forall db ids db',
  register_artifacts build_id seals db = Ok (ids, db') ->
  Forall (fun seal => sealed_on blake3 maximum seal d) seals ->
  exists l, written d db db' l /\ forall k i, (k, i) ∈ l -> k = 3 /\ i ∈ ids.
Proof.
  induction seals as [|seal seals IH]; intros db ids db' H Hs; cbn [register_artifacts] in H.
  { injection H as <- <-. exists []. split; [apply written_refl|]. intros k i Hin. by apply elem_of_nil in Hin. }
  apply Forall_cons in Hs as [Hseal Hs].
  ok_inv H. match goal with Hr : register_artifacts _ _ _ = Ok _ |- _ =>
    destruct (IH _ _ _ Hr Hs) as (added & Hw & Hl) end.
  assert (Hone : exists l', written d db d0 l' /\ forall k i, (k, i) ∈ l' -> k = 3 /\ i = z).
  { match goal with Hr : register_artifact_in_transaction _ _ _ = Ok _ |- _ =>
      unfold register_artifact_in_transaction in Hr; ok_inv Hr end; simplify_eq.
    - exists []. split; [apply written_refl|]. intros k i Hin. by apply elem_of_nil in Hin.
    - store_results. eexists. split.
      + eapply written_insert_artifact; [eassumption|apply fresh_id_lookup|by eapply sealed_row].
      + intros k i [= -> ->]%list_elem_of_singleton. done. }
  destruct Hone as (l' & Hw' & Hl'). exists (l' ++ added). split; [by eapply written_trans|].
  intros k i [[-> ->]%Hl'|[-> ?]%Hl]%elem_of_app; (split; [done|]); [by left|by right].
Qed.

Lemma application_artifacts_ids l a row :
  application_artifacts l = Some a -> app_artifacts row = a -> application_artifact_ids row = l.
Proof.
  intros H E. unfold application_artifacts in H. repeat (case_match; try discriminate).
  injection H as <-. unfold application_artifact_ids. by rewrite E.
Qed.

Lemma revision_row_artifacts b p r a repo row :
  revision_row b p r a repo = Ok row -> app_artifacts row = a.
Proof. unfold revision_row. intros H. by ok_inv H. Qed.

Definition inputs_sealed (inputs : SealedApplicationInputs) (d : Disk) : Prop :=
  Forall (fun seal => sealed_on blake3 maximum seal d)
    (sai_bundle_seal inputs :: sai_mission_seal inputs :: sai_template_seals inputs).

Lemma admit_sealed_step d db c inputs r db' :
  inputs_sealed inputs d ->
  admit_sealed_application blake3 db c inputs = Ok (r, db') -> bootstrap_step d db db'.
Proof.
  unfold admit_sealed_application. intros Hs H. ok_inv H; try done. store_results.
  match goal with
  | Hr : repository_for _ _ _ _ _ = Ok _, Ha : register_artifacts _ _ _ = Ok _ |- _ =>
      apply (repository_for_step d) in Hr; transitivity d0; [exact Hr|];
      apply (register_artifacts_written d) in Ha as (added & Ha & Hadded); [|exact Hs]
  end.
  match goal with Hi : insert_application_revision _ _ = Ok _ |- _ =>
    apply (written_insert_revision d) in Hi as (-> & Hi & Hborn) end.
  pose proof (written_insert_offices d (root_offices (fresh_id (application_revisions d1)) x9) d2) as Ho.
  audited. eapply creating_step; [eassumption| | | | |done].
  - eapply written_trans; [eassumption|]. by eapply written_trans.
  - apply elem_of_app. right. by left.
  - intros k' i [Hin|Hin]%elem_of_app.
    + right. apply Hadded in Hin as [-> Hin]. split; [done|].
      eapply shape_born; [by eapply written_shape|]. apply Hborn.
      erewrite application_artifacts_ids; [exact Hin|eassumption|by eapply revision_row_artifacts].
    + left. by apply list_elem_of_singleton in Hin.
  - apply not_true_iff_false. intros Hr.
    assert (E : row_exists d1 1 (fresh_id (application_revisions d1)) = true)
      by by apply (shape_rows _ _ _ (written_shape _ _ _ _ H9)); left.
    by rewrite fresh_row in E.
Qed.

Lemma activate_step d db c r db' :
  activate_application_revision blake3 db c = Ok (r, db') -> bootstrap_step d db db'.
Proof.
  unfold activate_application_revision. intros H. ok_inv H; try done. store_results. audited.
  match goal with Hb : _ ≫= _ = Some _ |- _ => apply bind_Some in Hb as (row & Hrow & _) end.
  eapply updating_step; [eassumption| |by vm_compute| |left; intros ?; by vm_compute].
  - case_match; [apply written_refl|apply written_move_pointer].
  - apply bool_decide_eq_true. eauto.
Qed.
End bootstrap.

(** * Sealing the declared sources *)

Section sealing.
Context (blake3 : list Z -> ContentDigest) (maximum : Z) {M : Machine} {HL : LawfulMachine blake3 maximum}.
Context (turns : nat) (staging_of : string -> Staging).
Context (reader : WireBundle.BundleReader).
Hypothesis maximum_nonnegative : 0 <= maximum.

#[local] Abbreviation sealed seal := (sealed_on blake3 maximum seal).
#[local] Abbreviation runs := (holds blake3 maximum).

Lemma holds_convert {E F A} (f : E -> F) (m : IO E A) P Q :
  runs P m Q -> runs P (convert f m) Q.
Proof.
  intros Hm w Hw. specialize (Hm w Hw). unfold convert.
  destruct (m w) as [w' [a|[e| |]]]; simpl; tauto.
Qed.

(** What growth of the store keeps holds after a run if it held before. *)
Lemma holds_frame {E A} (R : Disk -> Prop) (m : IO E A) P Q :
  (forall d d', grows blake3 maximum d d' -> R d -> R d') -> runs P m Q ->
  runs (fun d => R d /\ P d) m (fun a d => R d /\ Q a d).
Proof.
  intros HR Hm w [Hr Hw]. specialize (Hm w Hw). destruct (m w) as [w' r].
  destruct Hm as [Hg Ha]. split; [done|]. destruct r; [|done]. split; [by eapply HR|done].
Qed.

Lemma holds_then {E A B} (R : Disk -> Prop) (m : IO E A) (f : A -> IO E B) Q Q' :
  (forall d d', grows blake3 maximum d d' -> R d -> R d') -> runs any_disk m Q ->
  (forall a, runs (fun d => R d /\ Q a d) (f a) Q') -> runs R (m ≫= f) Q'.
Proof.
  intros HR Hm Hf. eapply (holds_bind _ _ _ (fun a d => R d /\ Q a d)); [|done].
  eapply (holds_weaken _ _ _ (fun d => R d /\ any_disk d)); [by apply holds_frame|done|done].
Qed.

Definition all_sealed (seals : list CasArtifact) (d : Disk) : Prop :=
  Forall (fun seal => sealed seal d) seals.

Lemma all_sealed_later seals d d' :
  grows blake3 maximum d d' -> all_sealed seals d -> all_sealed seals d'.
Proof. intros Hg H. eapply Forall_impl; [exact H|]. intros seal. by apply sealed_on_later. Qed.

Lemma holds_any_lift {E A} (r : result E A) : runs any_disk (lift r) any_result.
Proof. by apply holds_lift. Qed.

Lemma holds_any_read digest :
  runs any_disk (cas_step (read_verified blake3 maximum digest)) any_result.
Proof. apply holds_convert. unfold read_verified. apply holds_look; [|apply stable_any|done]. exact HL. Qed.

(** A step whose result says nothing about the disk. *)
Lemma holds_skip {E A B} (R : Disk -> Prop) (m : IO E A) (f : A -> IO E B) Q :
  (forall d d', grows blake3 maximum d d' -> R d -> R d') -> runs any_disk m any_result ->
  (forall a, runs R (f a) Q) -> runs R (m ≫= f) Q.
Proof.
  intros HR Hm Hf. eapply holds_then; [done..|]. intros a.
  eapply holds_weaken; [apply Hf|by intros d [H _]|done].
Qed.

Lemma later_sealed seal d d' : grows blake3 maximum d d' -> sealed seal d -> sealed seal d'.
Proof. apply sealed_on_later. Qed.

Lemma holds_template root t office :
  runs any_disk (adopt_declared_template blake3 maximum turns staging_of root t office)
    (fun seal => sealed seal).
Proof.
  unfold adopt_declared_template.
  eapply holds_bind; [by apply holds_convert, holds_adopt|]. intros seal.
  eapply holds_skip; [apply later_sealed|apply holds_any_lift|intros ?].
  eapply holds_skip; [apply later_sealed|apply holds_any_read|intros ?].
  eapply holds_skip; [apply later_sealed|apply holds_any_lift|intros ?].
  by apply holds_ret.
Qed.

Lemma holds_policy root p :
  runs any_disk (adopt_declared_policy blake3 maximum turns staging_of root p) any_result.
Proof.
  unfold adopt_declared_policy.
  eapply holds_bind; [by apply holds_convert, holds_adopt|]. intros seal.
  eapply holds_skip; [apply later_sealed|apply holds_any_lift|intros ?].
  eapply holds_skip; [apply later_sealed|apply holds_any_read|intros ?].
  eapply holds_skip; [apply later_sealed|apply holds_any_lift|intros ?].
  by apply holds_ret.
Qed.

Lemma holds_map_io {E A B} (f : A -> IO E B) (g : B -> list CasArtifact) l :
  (forall a, runs any_disk (f a) (fun b => all_sealed (g b))) ->
  runs any_disk (map_io f l) (fun bs => all_sealed (concat (g <$> bs))).
Proof.
  intros Hf. induction l as [|a l IH]; [apply holds_ret; intros d _; apply Forall_nil_2|]. simpl.
  eapply holds_bind; [apply Hf|]. intros b.
  eapply holds_then; [apply all_sealed_later|exact IH|]. intros bs. apply holds_ret.
  intros d [H1 H2]. by apply Forall_app.
Qed.

Lemma holds_seal_inputs c :
  runs any_disk (seal_application_inputs blake3 maximum turns staging_of reader c)
    (inputs_sealed blake3 maximum).
Proof.
  unfold seal_application_inputs.
  eapply holds_bind; [by apply holds_convert, holds_adopt|]. intros source.
  eapply holds_skip; [apply later_sealed|apply holds_any_read|intros ?].
  eapply holds_skip; [apply later_sealed|apply holds_any_lift|intros [[bundle digest] canonical]].
  eapply (holds_bind _ _ _ (fun seal => sealed seal)).
  { case_match; [by apply holds_ret|].
    eapply holds_weaken; [by apply holds_convert, holds_adopt_kernel_bytes|done|done]. }
  intros seal.
  eapply holds_skip; [apply later_sealed|apply holds_any_lift|intros ?].
  eapply holds_then; [apply later_sealed|apply holds_template|intros mission].
  eapply (holds_then (fun d => sealed seal d /\ sealed mission d)
    _ _ (fun bs => all_sealed (concat (id <$> bs)))).
  { intros d d' Hg []. split; by eapply later_sealed. }
  { apply holds_map_io. intros office.
    eapply holds_skip; [done|apply holds_any_lift|intros profile].
    eapply holds_bind; [apply holds_template|]. intros system.
    eapply holds_then; [apply later_sealed|apply holds_template|intros assignment].
    apply holds_ret. intros d []. by repeat constructor. }
  intros templates. rewrite list_fmap_id.
  eapply holds_skip; [|eapply holds_weaken; [apply (holds_map_io _ (fun _ => []))|done|done]|].
  - intros d d' Hg [[] ?]. split; [split; by eapply later_sealed|by eapply all_sealed_later].
  - intros office. eapply holds_skip; [done|apply holds_any_lift|intros profile].
    eapply holds_weaken; [apply holds_policy|done|intros; apply Forall_nil_2].
  - intros policies. apply holds_ret. intros d [[] ?]. by repeat constructor.
Qed.

(** The whole command, whatever its outcome, only adds whole objects, and when
    its transaction commits it is a step on the disk it leaves. *)
Lemma admit_compiled_step db c w w' r :
  admit_compiled_application blake3 maximum turns staging_of reader db c w = (w', r) ->
  grows blake3 maximum (disk w) (disk w') /\
  forall receipt db', r = Ok (receipt, db') -> bootstrap_step blake3 maximum (disk w') db db'.
Proof.
  intros E.
  assert (Hr : runs any_disk
    (admit_compiled_application blake3 maximum turns staging_of reader db c)
    (fun '(receipt, db') d => bootstrap_step blake3 maximum d db db')).
  { unfold admit_compiled_application.
    eapply holds_skip; [done|apply holds_any_lift|intros ?].
    eapply holds_bind; [apply holds_seal_inputs|]. intros inputs.
    apply holds_lift. intros [receipt db'] d H Hs. by eapply admit_sealed_step. }
  specialize (Hr w I). rewrite E in Hr. destruct Hr as [Hg Ha]. split; [done|].
  by intros receipt db' ->.
Qed.
End sealing.

(** A bundle file that is the canonical JSON and one line feed is refused: the
    seal kept is that of the file, its digest that of the JSON alone. *)
Theorem canonical_bundle_with_newline_refused blake3 maximum {M : Machine} turns staging_of
    (reader : WireBundle.BundleReader) c payload bundle digest w w1 w2 seal :
  WireBundle.admit_application_bundle_source_v2 blake3 payload = Ok (bundle, digest, payload) ->
  blake3 (payload ++ [10]) <> blake3 payload ->
  adopt blake3 maximum turns (staging_of (aca_source_root c)) (aca_bundle_relative_path c) w
    = (w1, Ok seal) ->
  read_verified blake3 maximum (cas_digest seal) w1 = (w2, Ok (payload ++ [10])) ->
  (seal_application_inputs blake3 maximum turns staging_of reader c w).2
    = Err (Failed ApplicationBundleDigestMismatch).
Proof.
  intros Hdec Hne Ha Hr.
  assert (Hd : blake3 (payload ++ [10]) = cas_digest seal).
  { unfold read_verified, look, call in Hr. destruct (outcome _); [|done|done].
    destruct (read_object _ _ _ _) as [bytes|] eqn:E; [|done]. simpl in Hr.
    injection Hr as _ ->. by apply read_object_Ok in E as (_ & _ & _ & E). }
  assert (Hb : digest = blake3 payload).
  { unfold WireBundle.admit_application_bundle_source_v2 in Hdec. ok_inv Hdec. congruence. }
  unfold seal_application_inputs, mbind, io_bind, cas_step, convert. rewrite Ha, Hr.
  assert (Hstrip : strip_newline (payload ++ [10]) = payload).
  { unfold strip_newline. rewrite last_snoc, bool_decide_true by done. by rewrite removelast_last. }
  rewrite Hstrip. unfold lift. rewrite Hdec. simpl.
  rewrite bool_decide_true by done. simpl. rewrite bool_decide_false; [done|]. congruence.
Qed.
