(* ===== verification/DriverRuns.v ===== *)
(** What a driver pass does to the database: every pass is a run of the kernel,
    given that the components it calls act through the kernel, and the number of
    Product assignments of a campaign only grows along one. *)
From S2P Require Import Prelude Values Database TicketStore Lifecycle BufferStatus Scheduler.
From S2P Require Import Effects CampaignDriver Kernel ProcessRefinement Frames.
From S2P Require ProcessStore ProcessReads.

(** * Computations

    Computations of [Effects] that are runs of the kernel: the contract of
    whatever acts between two calls, and one lemma per way of combining calls. *)

(** Whatever acts between two calls acts through the kernel. *)
Class LawfulInterleaving (blake3 : list Z -> ContentDigest) (ts : Z -> result string Z)
    `{Interleaving} : Prop := {
  between_runs n db : rtc (kernel_step blake3 ts) db (between n db);
}.

(** A committed command is a step of the kernel. *)
Lemma commit_ticket {blake3 ts E R} command db (receipt : R) db' (r : result E (R * Database)) :
  execute blake3 db command = committed r -> r = Ok (receipt, db') -> kernel_step blake3 ts db db'.
Proof. intros Hc ->. by apply (kernel_ticket _ _ _ command). Qed.

Lemma commit_process {blake3 ts E R} command db (receipt : R) db' (r : result E (R * Database)) :
  execute_process blake3 ts db command = committed r -> r = Ok (receipt, db') ->
  kernel_step blake3 ts db db'.
Proof. intros Hc ->. by apply (kernel_process _ _ _ command). Qed.

Section exec_runs.
Context (blake3 : list Z -> ContentDigest) (ts : Z -> result string Z).

Abbreviation runs := (rtc (kernel_step blake3 ts)).

Definition exec_runs {E A} (m : Exec E A) : Prop := forall w, runs (w_db w) (w_db (m w).1).

Lemma exec_runs_ret {E A} (a : A) : exec_runs (mret a : Exec E A).
Proof. intros w. apply rtc_refl. Qed.

Lemma exec_runs_throw {E A} (e : E) : exec_runs (throw e : Exec E A).
Proof. intros w. apply rtc_refl. Qed.

Lemma exec_runs_pure {E A} (r : result E A) : exec_runs (pure_step r).
Proof. intros w. apply rtc_refl. Qed.

Lemma exec_runs_bind {E A B} (m : Exec E A) (f : A -> Exec E B) :
  exec_runs m -> (forall a, exec_runs (f a)) -> exec_runs (m ≫= f).
Proof.
  intros Hm Hf w. specialize (Hm w). unfold mbind, exec_bind.
  destruct (m w) as [w' [a|e]]; [|exact Hm]. etransitivity; [exact Hm|apply Hf].
Qed.

Lemma exec_runs_catch {E F A} (m : Exec E A) : exec_runs m -> exec_runs (catch (F := F) m).
Proof. intros Hm w. specialize (Hm w). unfold catch. by destruct (m w). Qed.

Lemma exec_runs_embed {E F A} (f : E -> F) (m : Exec E A) : exec_runs m -> exec_runs (embed f m).
Proof. intros Hm w. specialize (Hm w). unfold embed. by destruct (m w). Qed.

Lemma exec_runs_map {E A B} (f : A -> Exec E B) l :
  (forall a, exec_runs (f a)) -> exec_runs (map_exec f l).
Proof.
  intros Hf. induction l as [|a l IH]; simpl; [apply exec_runs_ret|].
  apply exec_runs_bind; [done|]. intros b. apply exec_runs_bind; [done|].
  intros bs. apply exec_runs_ret.
Qed.

Context `{Hinterleaving : Interleaving} {Hlawful : LawfulInterleaving blake3 ts}.

Lemma exec_runs_observe {E} : exec_runs (observe (E := E)).
Proof. intros w. apply between_runs. Qed.

Lemma exec_runs_read {E F A} (wrap : E -> F) (f : Database -> result E A) :
  exec_runs (read wrap f).
Proof.
  apply exec_runs_bind; [apply exec_runs_observe|].
  intros db. destruct (f db); [apply exec_runs_ret|apply exec_runs_throw].
Qed.

Lemma exec_runs_transact {E F R} (wrap : E -> F) (f : Database -> result E (R * Database)) :
  (forall db receipt db', f db = Ok (receipt, db') -> kernel_step blake3 ts db db') ->
  exec_runs (transact wrap f).
Proof.
  intros Hf w. unfold transact, mbind, exec_bind, observe. simpl.
  set (db := between (w_calls w) (w_db w)).
  destruct (f db) as [[receipt db']|e] eqn:Hrun; simpl; [|apply between_runs].
  etransitivity; [apply between_runs|]. apply rtc_once. by eapply Hf.
Qed.

Lemma exec_runs_service {E F A} (f : Database -> Database * result E A) :
  (forall db, runs db (f db).1) -> exec_runs (service (F := F) f).
Proof.
  intros Hf w. unfold service, mbind, exec_bind, observe. simpl.
  specialize (Hf (between (w_calls w) (w_db w))).
  destruct (f (between (w_calls w) (w_db w))) as [db' r]. simpl in *.
  etransitivity; [apply between_runs|exact Hf].
Qed.
End exec_runs.

(** One tactic takes a computation apart along its source. *)
Ltac exec_step :=
  match goal with
  | |- exec_runs _ _ (mret _) => apply exec_runs_ret
  | |- exec_runs _ _ (throw _) => apply exec_runs_throw
  | |- exec_runs _ _ (pure_step _) => apply exec_runs_pure
  | |- exec_runs _ _ (_ ≫= _) => apply exec_runs_bind; [|intros]
  | |- exec_runs _ _ (catch _) => apply exec_runs_catch
  | |- exec_runs _ _ (embed _ _) => apply exec_runs_embed
  | |- exec_runs _ _ (map_exec _ _) => apply exec_runs_map; intros
  | |- exec_runs ?b ?t observe => apply (exec_runs_observe b t)
  | |- exec_runs ?b ?t (read _ _) => apply (exec_runs_read b t)
  | |- exec_runs ?b ?t (transact _ _) => apply (exec_runs_transact b t); intros
  | |- exec_runs ?b ?t (service _) => apply (exec_runs_service b t); intros
  | |- exec_runs _ _ (let _ := _ in _) => cbv zeta
  | |- exec_runs _ _ (match ?x with _ => _ end) => destruct x
  end.

(** * Passes of the driver *)

(** * The contract of the called components *)

(** The resolver and whatever acts between two calls. *)
Class LawfulResolver (blake3 : list Z -> ContentDigest) (ts : Z -> result string Z)
    `{DriverServices} : Prop := {
  resolver_interleaving :: LawfulInterleaving blake3 ts;
  requalify_runs db action :
    rtc (kernel_step blake3 ts) db (requalify_sponsored_ticket db action).1;
  hard_validation_runs db context :
    rtc (kernel_step blake3 ts) db (resume_hard_validation db context).1;
  commit_attach_runs db context :
    rtc (kernel_step blake3 ts) db (resume_candidate_commit_attach db context).1;
  delivery_runs db command :
    rtc (kernel_step blake3 ts) db (deliver_accepted_candidate db command).1;
}.

(** The assignment runtime: a reported Product launch created an assignment of
    that campaign. *)
Class LawfulLaunch (blake3 : list Z -> ContentDigest) (ts : Z -> result string Z)
    `{DriverServices} : Prop := {
  launch_runs db request :
    rtc (kernel_step blake3 ts) db (materialize_and_launch_assignment db request).1;
  launch_assigns db request outcome :
    (materialize_and_launch_assignment db request).2 = Ok outcome ->
    amr_target request = TargetProduct ->
    exists id a, assignments db !! id = None /\
      assignments (materialize_and_launch_assignment db request).1 !! id = Some a /\
      ProcessReads.product_assignment (amr_campaign_id request) id a = true;
}.

(** * Product assignments *)

Definition assignment_kept (a a' : AssignmentRow) : Prop := as_identity a' = as_identity a.

#[global] Instance assignment_kept_preorder : PreOrder assignment_kept.
Proof. split; [done|]. intros a b c Hb Hc. unfold assignment_kept in *. congruence. Qed.

Definition assignments_kept (db db' : Database) : Prop :=
  table_extends assignment_kept (assignments db) (assignments db').

Lemma same_assignments_kept db db' : assignments db' = assignments db -> assignments_kept db db'.
Proof. unfold assignments_kept. by intros ->. Qed.

Lemma alter_assignments_kept f id (m : gmap Z AssignmentRow) :
  (forall a, as_identity (f a) = as_identity a) -> table_extends assignment_kept m (alter f id m).
Proof.
  intros Hf k a Hk. destruct (base.decide (k = id)) as [->|Hne].
  - exists (f a). split; [by rewrite lookup_alter_eq, Hk|apply Hf].
  - exists a. split; [by rewrite lookup_alter_ne|done].
Qed.

Lemma process_move_assignments db db' : process_move db db' -> assignments_kept db db'.
Proof.
  destruct 1; unfold assignments_kept; simpl; try reflexivity.
  - intros k v Hk. exists v. split; [|done]. apply lookup_insert_Some. right.
    split; [congruence|done].
  - by eapply table_extends_update.
  - apply alter_assignments_kept. intros x. unfold finished. by destruct (_ =? _).
Qed.

Lemma kernel_step_assignments blake3 ts db db' :
  kernel_step blake3 ts db db' -> assignments_kept db db'.
Proof.
  intros [command y H|command y H|y [_ _ Ea _ _]].
  - destruct (execute_frame _ _ _ _ H) as [[= _ Ea _ _ _]|(id & c & revision & _ & _ & [= _ Ea _ _] & _)];
      by apply same_assignments_kept.
  - apply execute_process_moves in H. induction H as [|x y z Hxy _ IH]; [by apply same_assignments_kept|].
    apply process_move_assignments in Hxy. unfold assignments_kept in *. by etransitivity.
  - by apply same_assignments_kept.
Qed.

Lemma kernel_steps_assignments blake3 ts db db' :
  rtc (kernel_step blake3 ts) db db' -> assignments_kept db db'.
Proof.
  induction 1 as [|x y z Hxy _ IH]; [by apply same_assignments_kept|].
  apply kernel_step_assignments in Hxy. unfold assignments_kept in *. by etransitivity.
Qed.

Definition product_assignments (campaign_id : Z) (db : Database) : Z :=
  count_where (ProcessReads.product_assignment campaign_id) (assignments db).

Lemma product_assignment_kept id k a a' :
  assignment_kept a a' -> ProcessReads.product_assignment id k a = true ->
  ProcessReads.product_assignment id k a' = true.
Proof. unfold ProcessReads.product_assignment. by intros ->. Qed.

Lemma product_assignments_grow blake3 ts id db db' :
  rtc (kernel_step blake3 ts) db db' -> product_assignments id db <= product_assignments id db'.
Proof.
  intros H%kernel_steps_assignments. eapply count_where_extends; [|exact H].
  apply product_assignment_kept.
Qed.

Create HintDb pass.

Section runs.
Context (blake3 : list Z -> ContentDigest) (ts : Z -> result string Z).
Context `{Hservices : DriverServices}.
Context {Hresolver : LawfulResolver blake3 ts} {Hlaunch : LawfulLaunch blake3 ts}.

Abbreviation runs := (rtc (kernel_step blake3 ts)).

(** * Passes that are runs *)

Abbreviation pass_runs := (exec_runs blake3 ts).

Lemma pass_runs_durable {A} (f : Database -> Database * result string A) :
  (forall db, runs db (f db).1) -> pass_runs (durable f).
Proof.
  intros Hf. apply exec_runs_bind; [by apply (exec_runs_service blake3 ts)|].
  intros [a|e]; [apply exec_runs_ret|apply exec_runs_throw].
Qed.

Lemma pass_runs_reason action detail : pass_runs (reason_or_panic action detail).
Proof. unfold reason_or_panic. destruct (failure_reason _ _); [apply exec_runs_ret|apply exec_runs_throw]. Qed.

Ltac pass_step :=
  match goal with
  | |- exec_runs _ _ (reason_or_panic _ _) => apply pass_runs_reason
  | |- exec_runs _ _ (durable _) => apply pass_runs_durable; intros
  | _ => exec_step
  end.

Lemma fail_running_campaign_runs id reason : pass_runs (fail_running_campaign blake3 id reason).
Proof. unfold fail_running_campaign. repeat pass_step. by eapply (commit_process (FailRunningCampaign _)). Qed.

Lemma driver_fail_runs id reason : pass_runs (driver_fail_ticket_attempt blake3 id reason).
Proof. unfold driver_fail_ticket_attempt. repeat pass_step. by eapply (commit_ticket (FailAttempt _)). Qed.

Lemma driver_retry_quality_runs id c reason :
  pass_runs (driver_retry_quality_attempt blake3 id c reason).
Proof. unfold driver_retry_quality_attempt. repeat pass_step. by eapply (commit_ticket (RetryQuality _)). Qed.

Lemma driver_retry_engineering_runs id r1 r2 reason :
  pass_runs (driver_retry_engineering_attempt blake3 id r1 r2 reason).
Proof.
  unfold driver_retry_engineering_attempt. repeat pass_step.
  by eapply (commit_ticket (RetryEngineering _)).
Qed.

Hint Resolve fail_running_campaign_runs driver_fail_runs driver_retry_quality_runs
  driver_retry_engineering_runs : pass.

Lemma retry_or_fail_product_runs id reason : pass_runs (retry_or_fail_product blake3 id reason).
Proof. unfold retry_or_fail_product. repeat (pass_step || auto with pass). Qed.
Hint Resolve retry_or_fail_product_runs : pass.

Lemma terminalize_runs id target reason retry :
  pass_runs (terminalize_failed_launch blake3 id target reason retry).
Proof. unfold terminalize_failed_launch. repeat (pass_step || auto with pass). Qed.
Hint Resolve terminalize_runs : pass.

Lemma settle_launch_runs id target action outcome :
  pass_runs (settle_launch blake3 id target action outcome).
Proof. unfold settle_launch. repeat (pass_step || auto with pass). Qed.

Lemma driver_launch_runs id app revision target action :
  pass_runs (launch blake3 id app revision target action).
Proof.
  unfold launch. destruct (credential_environment_value _); [|repeat (pass_step || auto with pass)].
  apply exec_runs_bind; [apply (exec_runs_service blake3 ts); intros; apply launch_runs|].
  intros. apply settle_launch_runs.
Qed.
Hint Resolve driver_launch_runs : pass.

Lemma continue_downstream_runs id app context :
  pass_runs (continue_downstream blake3 id app context).
Proof.
  unfold continue_downstream, launch_current.
  repeat (pass_step || auto using hard_validation_runs, commit_attach_runs, delivery_runs with pass).
Qed.

Lemma claim_then_launch_runs app action : pass_runs (claim_then_launch blake3 app action).
Proof.
  unfold claim_then_launch. repeat (pass_step || auto using requalify_runs with pass).
  by eapply (commit_ticket (ClaimTicket _)).
Qed.
Hint Resolve continue_downstream_runs claim_then_launch_runs : pass.

Lemma execute_action_runs id app action : pass_runs (execute_action blake3 id app action).
Proof.
  unfold execute_action, complete. repeat (pass_step || auto with pass).
  by eapply (commit_ticket (CompleteCampaign _)).
Qed.
Hint Resolve execute_action_runs : pass.

Lemma run_next_runs : pass_runs (run_next blake3).
Proof. unfold run_next. repeat (pass_step || auto with pass). Qed.

Lemma run_passes_runs n w : runs (w_db w) (w_db (run_passes blake3 n w).1).
Proof.
  revert w. induction n as [|n IH]; simpl; intros w; [apply rtc_refl|].
  pose proof (run_next_runs w) as Hw. destruct (run_next blake3 w) as [w1 r]. simpl in Hw.
  specialize (IH w1). destruct (run_passes blake3 n w1) as [w2 rs]. simpl in IH.
  destruct r as [o|[]]; simpl; first [exact Hw|by etransitivity].
Qed.
(** * Scheduled Product retries *)

(** Every scheduled retry of the pass finds at most two Product assignments of
    its campaign and, with [strict], one more than the pass started with; with
    [only], it is that campaign's. *)
Definition retries (only : option Z) (strict : bool) (m : Pass CampaignDriverOutcome) : Prop :=
  forall w w' id, m w = (w', Ok (ProductRetryScheduled id)) ->
    product_assignments id (w_db w') < MAX_PRODUCT_ASSIGNMENTS_PER_CAMPAIGN /\
    (strict = true -> product_assignments id (w_db w) < product_assignments id (w_db w')) /\
    (forall c, only = Some c -> id = c).

Lemma retries_ret only b o : (forall id, o <> ProductRetryScheduled id) -> retries only b (mret o).
Proof. intros Ho w w' id [= _ E]. by destruct (Ho id). Qed.

Lemma retries_throw only b e : retries only b (throw e).
Proof. intros w w' id [=]. Qed.

Lemma retries_bind {A} only b (m : Pass A) (f : A -> Pass CampaignDriverOutcome) :
  pass_runs m -> (forall a, retries only b (f a)) -> retries only b (m ≫= f).
Proof.
  intros Hm Hf w w' id E. specialize (Hm w). unfold mbind, exec_bind in E.
  destruct (m w) as [w1 [a|e]]; [|discriminate]. simpl in Hm.
  destruct (Hf a _ _ _ E) as (Hlt & Hs & Hc). split_and!; [done| |done]. intros Hb.
  pose proof (product_assignments_grow blake3 ts id _ _ Hm). specialize (Hs Hb). lia.
Qed.

Lemma retry_or_fail_product_retries id reason :
  retries (Some id) false (retry_or_fail_product blake3 id reason).
Proof.
  intros w w' id' E. unfold retry_or_fail_product, mbind, exec_bind in E.
  unfold read, observe, mbind, exec_bind in E. simpl in E.
  unfold ProcessReads.product_assignment_count in E.
  destruct (count_where _ _ <=? ProcessStore.u32_max); [|discriminate]. simpl in E.
  destruct (product_retry_available _) eqn:Hr.
  - injection E as <- <-. simpl. unfold product_retry_available in Hr. bool_prop.
    split_and!; [done|done|congruence].
  - destruct (fail_running_campaign _ _ _ _) as [? [?|?]]; discriminate.
Qed.

Ltac retries_step :=
  match goal with
  | |- retries _ _ (mret _) => apply retries_ret; discriminate
  | |- retries _ _ (throw _) => apply retries_throw
  | |- retries _ _ (_ ≫= _) => apply retries_bind; [|intros]
  | |- retries _ _ (let _ := _ in _) => cbv zeta
  | |- retries _ _ (match ?x with _ => _ end) => destruct x
  | _ => pass_step
  end.

Lemma terminalize_retries id target reason retry :
  retries (Some id) false (terminalize_failed_launch blake3 id target reason retry).
Proof.
  unfold terminalize_failed_launch.
  repeat (retries_step || auto using retry_or_fail_product_retries with pass).
Qed.

(** Only a Product session that ended is retried. *)
Lemma terminalize_never_retries only b id target reason retry :
  target <> TargetProduct \/ retry = false ->
  retries only b (terminalize_failed_launch blake3 id target reason retry).
Proof.
  unfold terminalize_failed_launch. intros Hor.
  destruct target; [destruct Hor as [?| ->]; [done|]|..]; repeat (retries_step || auto with pass).
Qed.

Lemma settle_launch_retries id target action outcome :
  retries (Some id) false (settle_launch blake3 id target action outcome).
Proof.
  unfold settle_launch.
  repeat (retries_step || auto using retry_or_fail_product_retries, terminalize_retries with pass).
Qed.

Lemma settle_launch_never_retries only b id target action outcome :
  target <> TargetProduct \/ (exists detail, outcome = Err detail) ->
  retries only b (settle_launch blake3 id target action outcome).
Proof.
  unfold settle_launch. intros Hor.
  destruct outcome; [destruct target; [by destruct Hor as [?|[? ?]]|..]|];
    repeat (retries_step || auto using terminalize_never_retries with pass).
  all: apply terminalize_never_retries; auto.
Qed.

Lemma launch_retries id app revision target action :
  retries (Some id) true (launch blake3 id app revision target action).
Proof.
  unfold launch. destruct (credential_environment_value _) as [v|e].
  2:{ repeat (retries_step || auto using terminalize_never_retries with pass). }
  intros w w' id' E. unfold service, mbind, exec_bind, observe, write_back in E. simpl in E.
  set (db := between (w_calls w) (w_db w)) in E.
  match type of E with context [materialize_and_launch_assignment db ?r] => set (request := r) in E end.
  pose proof (launch_runs (LawfulLaunch := Hlaunch) db request) as Hruns.
  pose proof (launch_assigns (LawfulLaunch := Hlaunch) db request) as Hnew.
  destruct (materialize_and_launch_assignment db request) as [db1 outcome]. simpl in *.
  destruct (settle_launch_retries id target action outcome _ _ _ E) as (Hlt & _ & Hid).
  split_and!; [done| |done]. intros _. rewrite (Hid id eq_refl) in *. clear Hid id'.
  assert (Hb : product_assignments id (w_db w) <= product_assignments id db)
    by (eapply product_assignments_grow, between_runs).
  assert (Hl : product_assignments id db <= product_assignments id db1)
    by (eapply product_assignments_grow, Hruns).
  destruct target as [| |]; [destruct outcome as [outcome|detail]|..].
  - destruct (Hnew outcome eq_refl eq_refl) as (key & a & Hk & Hk' & Hp).
    pose proof (settle_launch_runs id TargetProduct action (Ok outcome)
      {| w_db := db1; w_calls := S (w_calls w) |}) as Hs. rewrite E in Hs.
    apply (product_assignments_grow blake3 ts id) in Hs. simpl in Hs.
    enough (product_assignments id db < product_assignments id db1) by lia.
    eapply count_where_extends_new; [apply product_assignment_kept| |exact Hk|exact Hk'|exact Hp].
    by eapply kernel_steps_assignments.
  - eapply (settle_launch_never_retries None true) in E as (_ & E & _); [|eauto].
    specialize (E eq_refl). simpl in E. lia.
  - eapply (settle_launch_never_retries None true) in E as (_ & E & _); [|by left].
    specialize (E eq_refl). simpl in E. lia.
  - eapply (settle_launch_never_retries None true) in E as (_ & E & _); [|by left].
    specialize (E eq_refl). simpl in E. lia.
Qed.

Lemma launch_retries_any id app revision target action :
  retries None true (launch blake3 id app revision target action).
Proof. intros w w' id' E. by destruct (launch_retries _ _ _ _ _ w w' id' E) as (? & ? & _). Qed.
Hint Resolve launch_retries_any : pass.

Lemma run_next_retries : retries None true (run_next blake3).
Proof.
  unfold run_next, execute_action, complete, claim_then_launch, continue_downstream, launch_current.
  repeat (retries_step || auto using hard_validation_runs, commit_attach_runs, delivery_runs,
    requalify_runs with pass).
  all: try (by eapply (commit_ticket (CompleteCampaign _))).
  all: by eapply (commit_ticket (ClaimTicket _)).
Qed.

(** The retries of one campaign among the outcomes of some passes. *)
Definition scheduled_retries (id : Z)
    (outcomes : list (result CampaignDriverError CampaignDriverOutcome)) : Z :=
  Z.of_nat (length (List.filter (fun o => match o with
    | Ok (ProductRetryScheduled id') => id' =? id
    | _ => false
    end) outcomes)).

Lemma run_passes_retries n w id :
  scheduled_retries id (run_passes blake3 n w).2
    <= Z.max 0 (MAX_PRODUCT_ASSIGNMENTS_PER_CAMPAIGN - 1 - product_assignments id (w_db w)).
Proof.
  revert w. induction n as [|n IH]; simpl; intros w; [unfold scheduled_retries; simpl; lia|].
  pose proof (run_next_runs w) as Hruns. pose proof (run_next_retries w) as Hr.
  destruct (run_next blake3 w) as [w1 r]. specialize (IH w1).
  destruct (run_passes blake3 n w1) as [w2 rs]. simpl in *.
  apply (product_assignments_grow blake3 ts id) in Hruns.
  unfold scheduled_retries in *. destruct r as [[]|[]]; simpl; try lia. destruct (Z.eqb_spec campaign_id id) as [->|]; [|lia].
  destruct (Hr w1 id eq_refl) as (Hlt & Hs & _). specialize (Hs eq_refl). simpl length. lia.
Qed.
End runs.
