(* ===== verification/LaunchRuns.v ===== *)
(** A launch is a run of the kernel that creates exactly one assignment, and the
    launching runtime keeps the contract the driver relies on. *)
From S2P Require Import Prelude Values Database Lifecycle Refinement.
From S2P Require Import ProcessStore ProviderEffects SessionRuntime Effects CampaignDriver AssignmentRuntime.
From S2P Require Import Kernel ProcessRefinement DriverRuns.
From S2P Require ProcessReads.

(** * Contracts of what a launch calls *)

Class LawfulSession (blake3 : list Z -> ContentDigest) (ts : Z -> result string Z)
    `{SessionServices} : Prop := {
  live_runs db id : rtc (kernel_step blake3 ts) db (live db id).1;
  seal_runs db id : rtc (kernel_step blake3 ts) db (seal db id).1;
  (** The minted evidence carries the usage it was asked to carry. *)
  mint_usage db id usage evidence : mint db id usage = Ok evidence -> ve_usage evidence = usage;
}.

(** No assignment and no audited command uses an identity yet. *)
Definition unused_assignment (id : Z) (db : Database) : Prop :=
  assignments db !! id = None /\
  forall key row, audit_log db !! key = Some row -> al_subject_kind row = ASSIGNMENT_SUBJECT ->
    al_subject_id row <> id.

Class LawfulAssignment (blake3 : list Z -> ContentDigest) (ts : Z -> result string Z)
    `{AssignmentServices} : Prop := {
  manifest_runs db request : rtc (kernel_step blake3 ts) db (manifest db request).1;
  compile_runs db request id campaign :
    rtc (kernel_step blake3 ts) db (compile db request id campaign).1;
  supervise_runs db request : rtc (kernel_step blake3 ts) db (supervise db request).1;
  (** A sequence never returns a value twice. *)
  reserve_unused db request campaign :
    unused_assignment (reserve db)
      (compile (manifest db request).1 request (reserve db) campaign).1;
}.

(** * What [create_assignment] leaves *)

Lemma ps_find_audit_Some db p c op f a :
  find_audit_by_key db p c op f = Ok (Some a) ->
  exists row, audit_log db !! (p, c) = Some row /\
    al_subject_kind row = au_subject_kind a /\ al_subject_id row = au_subject_id a.
Proof.
  unfold find_audit_by_key. destruct (audit_log db !! (p, c)) as [row|] eqn:E; [|discriminate].
  intros H. ok_inv H. eauto.
Qed.

(** An audit row changes no other table, and neither does a campaign update. *)
Lemma ps_insert_audit_assignments db p c op fp k sid r id db' :
  insert_audit db p c op fp k sid r = Ok (id, db') -> assignments db' = assignments db.
Proof.
  unfold insert_audit. intros H. ok_inv H. read_process.
  by apply insert_audit_row_Ok in H as [? [row ->]].
Qed.

Lemma update_campaign_assignments id f db db' :
  update_campaign id f db = Ok db' -> assignments db' = assignments db.
Proof. unfold update_campaign. intros H. by ok_inv H. Qed.

Lemma assignment_row_role db c p r row :
  assignment_row db c p r = Ok row ->
  ai_assignment_role (as_identity row) = assignment_role_code (pk_assignment_role (cas_packet c)).
Proof. unfold assignment_row. intros H. by ok_inv H. Qed.

Lemma create_assignment_Ok blake3 db wire c r db' :
  create_assignment blake3 db wire c = Ok (r, db') ->
  (db' = db /\ exists key row, audit_log db !! key = Some row /\
     al_subject_kind row = ASSIGNMENT_SUBJECT /\ al_subject_id row = ar_assignment_id r) \/
  (ar_assignment_id r = cas_assignment_id c /\ assignments db !! cas_assignment_id c = None /\
   exists a, assignments db' !! cas_assignment_id c = Some a /\
     as_lifecycle a = SESSION_PREPARED /\
     ai_campaign_id (as_identity a) = pk_campaign_id (cas_packet c) /\
     ai_assignment_role (as_identity a) = assignment_role_code (pk_assignment_role (cas_packet c))).
Proof.
  unfold create_assignment. intros H. ok_inv H.
  - left. split; [done|].
    match goal with Hf : find_audit_by_key _ _ _ _ _ = Ok (Some _) |- _ =>
      apply ps_find_audit_Some in Hf as (row & Hrow & Hkind & Hid) end.
    unfold require_subject in *. read_process.
    exists (cas_principal c, cas_command_id c), row. simpl.
    match goal with Hr : require _ _ = Ok _ |- _ => apply require_Ok in Hr end. bool_prop.
    split_and!; [done|congruence..].
  - right. read_process.
    repeat match goal with
    | Hr : assignment_row _ _ _ _ = Ok _ |- _ =>
        pose proof (assignment_row_role _ _ _ _ _ Hr); apply assignment_row_Ok in Hr as (? & ? & _)
    | Hi : insert_assignment _ _ _ = Ok _ |- _ => apply insert_assignment_Ok in Hi as [? ->]
    | Ha : insert_audit _ _ _ _ _ _ _ _ = Ok _ |- _ => apply ps_insert_audit_assignments in Ha
    | Hu : update_campaign _ _ _ = Ok _ |- _ => apply update_campaign_assignments in Hu
    end.
    simpl in *. split_and!; [done|done|].
    match goal with Hrow : as_lifecycle ?a = SESSION_PREPARED |- _ => exists a end.
    split_and!; [|done..].
    match goal with
    | E1 : assignments _ = assignments ?d, E2 : assignments ?d = _ |- _ => rewrite E1, E2 end.
    by rewrite lookup_insert_eq.
Qed.

Section launch_runs.
Context (blake3 : list Z -> ContentDigest) (ts : Z -> result string Z).
Context `{Hs : SessionServices} {HS : LawfulSession blake3 ts}.
Context `{Ha : AssignmentServices} {HA : LawfulAssignment blake3 ts}.

Abbreviation runs := (rtc (kernel_step blake3 ts)).

Lemma command_runs {E R} command db (receipt : R) db' (r : result E (R * Database)) :
  execute_process blake3 ts db command = committed r -> r = Ok (receipt, db') -> runs db db'.
Proof. intros Hc Hr. apply rtc_once. by eapply commit_process. Qed.

Lemma terminal_runs db p k id report evidence r db' :
  terminal_session blake3 db p k id report evidence = Ok (r, db') -> runs db db'.
Proof. by apply (command_runs (EndSession p k id report evidence)). Qed.

(** * The session *)

Lemma session_command_runs {A} command db (r : result ProcessError (A * Database)) :
  execute_process blake3 ts db command = committed r -> runs db (session_command db r).1.
Proof.
  intros Hc. destruct r as [[a db']|e] eqn:E; simpl; [|apply rtc_refl].
  by eapply (command_runs command).
Qed.

Lemma infrastructure_runs db k id report evidence :
  runs db (let '(db', r) := session_command db (terminal_session blake3 db "kernel" k id report
    evidence) in (db', map_err SessionStore r)).1.
Proof.
  pose proof (session_command_runs (EndSession "kernel" k id report evidence) db _ eq_refl) as Hr.
  by destruct (session_command _ _).
Qed.

Lemma commit_terminal_runs db packet session stop evidence :
  runs db (commit_terminal blake3 db packet session stop evidence).1.
Proof.
  unfold commit_terminal. destruct (stop_proposal stop) as [actor|]; [|apply infrastructure_runs].
  destruct (actor_report _ _ _ _) as [report|e]; [|apply rtc_refl].
  destruct (terminal_session blake3 db (actor_session_principal _ _) _ _ _ _)
    as [[receipt db']|e] eqn:E; [|apply infrastructure_runs].
  by eapply terminal_runs.
Qed.

Lemma reconcile_terminal_runs db packet session stop :
  runs db (reconcile_terminal blake3 db packet session stop).1.
Proof.
  unfold reconcile_terminal. pose proof (seal_runs db (sr_session_id session)) as Hseal.
  destruct (seal db (sr_session_id session)) as [db1 [u|e]]; [|done]. simpl in Hseal.
  destruct (provider_effect_ledger db1 _) as [ledger|e]; [|done].
  destruct (reconcile_provider_usage _ ledger) as [usage|[]]; [|done].
  destruct (mint db1 _ usage) as [evidence|e]; [|done].
  etransitivity; [exact Hseal|apply commit_terminal_runs].
Qed.

Lemma launch_session_runs db packet revision :
  runs db (launch_session blake3 db packet revision).1.
Proof.
  unfold launch_session. destruct (spawn db packet) as [custody|e]; [|apply rtc_refl].
  destruct (start_session _ _ _) as [[session db1]|e] eqn:E.
  2:{ destruct (reap packet); apply rtc_refl. }
  assert (Hstart : runs db db1) by (by eapply (command_runs (BeginSession _))).
  destruct (admit_session db1 _); [|done].
  pose proof (live_runs db1 (sr_session_id session)) as Hlive.
  destruct (live db1 _) as [db2 [stop|e]]; simpl in Hlive.
  2:{ etransitivity; [exact Hstart|exact Hlive]. }
  pose proof (reconcile_terminal_runs db2 packet session stop) as Hrec.
  destruct (reconcile_terminal _ _ _ _ _) as [db3 terminal]. simpl in *.
  by do 2 (etransitivity; [eassumption|]).
Qed.

(** * The assignment *)

(** The database before [create_assignment] runs. *)
Lemma create_step_runs db request id : runs db (create_step blake3 db request id).1.
Proof.
  unfold create_step. pose proof (manifest_runs db request) as Hm.
  destruct (manifest db request) as [db1 [m|e]]; simpl in Hm; [|done].
  destruct (current_campaign_material db1 _ _ _) as [campaign|e]; [|done].
  pose proof (compile_runs db1 request id campaign) as Hc.
  destruct (compile db1 request id campaign) as [db2 [p|e]]; simpl in Hc.
  2:{ by etransitivity. }
  destruct (create_assignment _ _ _ _) as [[receipt db3]|e] eqn:E; [|by etransitivity].
  assert (runs db2 db3) by (by eapply (command_runs (PrepareAssignment _ _))).
  destruct (_ =? _); simpl; by do 2 (etransitivity; [eassumption|]).
Qed.

Lemma create_step_assigns db request db' packet receipt :
  create_step blake3 db request (reserve db) = (db', Ok (packet, receipt)) ->
  exists a, assignments db !! reserve db = None /\ assignments db' !! reserve db = Some a /\
    ai_campaign_id (as_identity a) = amr_campaign_id request /\
    ai_assignment_role (as_identity a)
      = assignment_role_code (office_for_target (amr_target request)).
Proof.
  unfold create_step. intros H.
  pose proof (manifest_runs db request) as Hm.
  destruct (manifest db request) as [db1 [m|e]] eqn:Em; simpl in Hm; [|discriminate].
  destruct (current_campaign_material db1 _ _ _) as [campaign|e]; [|discriminate].
  pose proof (compile_runs db1 request (reserve db) campaign) as Hc.
  pose proof (reserve_unused db request campaign) as [Hnone Hunused]. rewrite Em in Hnone, Hunused.
  simpl in Hnone, Hunused.
  destruct (compile db1 request (reserve db) campaign) as [db2 [p|e]]; [|discriminate].
  destruct (create_assignment _ _ _ _) as [[receipt' db3]|e] eqn:E; [|discriminate].
  destruct (Z.eqb_spec (ar_assignment_id receipt') (reserve db)) as [Eid|]; [|discriminate].
  injection H as <- _ <-. simpl in *.
  apply create_assignment_Ok in E as [(_ & key & row & Hrow & Hkind & Hsub)|
    (_ & _ & a & Ha' & _ & Ecmp & Erole)].
  - exfalso. eapply Hunused; [exact Hrow|done|congruence].
  - exists a. split_and!; [|done..].
    destruct (assignments db !! reserve db) as [x|] eqn:Ex; [|done]. exfalso.
    assert (Hk : assignments_kept db db2)
      by (eapply (kernel_steps_assignments blake3 ts); by etransitivity).
    destruct (Hk _ _ Ex) as (x' & Hx' & _). congruence.
Qed.

Lemma launch_step_runs db request id : runs db (launch_step blake3 db request id).1.
Proof.
  unfold launch_step. pose proof (create_step_runs db request id) as Hc.
  destruct (create_step _ _ _ _) as [db1 [[packet receipt]|e]]; simpl in Hc; [|done].
  pose proof (supervise_runs db1 request) as Hsup. destruct (supervise db1 request) as [db2 [u|e]]; simpl in Hsup; [|by etransitivity].
  pose proof (launch_session_runs db2 packet (ar_resulting_revision receipt)) as Hl.
  destruct (launch_session _ _ _ _) as [db3 session]. simpl in *. by do 2 (etransitivity; [eassumption|]).
Qed.

Lemma materialize_runs db request : runs db (materialize_and_launch blake3 db request).1.
Proof.
  unfold materialize_and_launch. destruct (negb _); [apply rtc_refl|].
  destruct (resolve db request); [|apply rtc_refl].
  pose proof (launch_step_runs db request (reserve db)) as Hl. by destruct (launch_step _ _ _ _).
Qed.

Lemma materialize_assigns db request db' outcome :
  materialize_and_launch blake3 db request = (db', Ok outcome) ->
  exists a, assignments db !! reserve db = None /\ assignments db' !! reserve db = Some a /\
    ai_campaign_id (as_identity a) = amr_campaign_id request /\
    ai_assignment_role (as_identity a)
      = assignment_role_code (office_for_target (amr_target request)).
Proof.
  unfold materialize_and_launch. intros H. destruct (negb _); [discriminate|].
  destruct (resolve db request) as [?|?]; [|discriminate]. unfold launch_step in H.
  destruct (create_step blake3 db request (reserve db)) as [db1 [[packet receipt]|e]] eqn:E.
  2:{ by destruct (clean_up _). }
  apply create_step_assigns in E as (row & Hnone & Ha1 & Ecmp & Erole).
  pose proof (supervise_runs db1 request) as Hsup.
  destruct (supervise db1 request) as [db2 [u|e]]; [|by destruct (clean_up _)].
  pose proof (launch_session_runs db2 packet (ar_resulting_revision receipt)) as Hl.
  destruct (launch_session _ _ _ _) as [db3 session]. simpl in *.
  assert (db' = db3) as -> by (by injection H).
  assert (Hk : runs db1 db3) by (by etransitivity).
  apply kernel_steps_assignments in Hk. destruct (Hk _ _ Ha1) as (a' & Ha' & E').
  exists a'. rewrite E'. by split_and!.
Qed.

Lemma launch_service_runs db request : runs db (launch_service blake3 db request).1.
Proof.
  unfold launch_service. pose proof (materialize_runs db request) as Hm.
  by destruct (materialize_and_launch _ _ _).
Qed.

Lemma launch_service_assigns db request outcome :
  (launch_service blake3 db request).2 = Ok outcome -> amr_target request = TargetProduct ->
  exists id a, assignments db !! id = None /\
    assignments (launch_service blake3 db request).1 !! id = Some a /\
    ProcessReads.product_assignment (amr_campaign_id request) id a = true.
Proof.
  unfold launch_service.
  destruct (materialize_and_launch blake3 db request) as [db' [o|e]] eqn:E; [|discriminate].
  intros _ Ht. apply materialize_assigns in E as (a & Hn & Ha' & Ec & Er). simpl.
  exists (reserve db), a. split_and!; [done..|]. unfold ProcessReads.product_assignment.
  by rewrite Ec, Er, Ht, Z.eqb_refl.
Qed.
End launch_runs.

(** * The runtime as the driver's launch service *)

Definition with_launch (blake3 : list Z -> ContentDigest) `{SessionServices, AssignmentServices}
    (d : DriverServices) : DriverServices := {|
  driver_interleaving := @driver_interleaving d;
  unix_millis := @unix_millis d;
  debug_format := @debug_format d;
  credential_environment := @credential_environment d;
  credential_lookup := @credential_lookup d;
  requalify_sponsored_ticket := @requalify_sponsored_ticket d;
  resume_hard_validation := @resume_hard_validation d;
  resume_candidate_commit_attach := @resume_candidate_commit_attach d;
  deliver_accepted_candidate := @deliver_accepted_candidate d;
  materialize_and_launch_assignment := launch_service blake3 |}.

#[export] Instance with_launch_lawful blake3 ts `{LawfulSession blake3 ts, LawfulAssignment blake3 ts}
    (d : DriverServices) : @LawfulLaunch blake3 ts (with_launch blake3 d).
Proof.
  split; simpl; intros *.
  - eapply launch_service_runs; apply _.
  - eapply launch_service_assigns; apply _.
Qed.

#[export] Instance with_launch_resolver blake3 ts `{SessionServices, AssignmentServices}
    (d : DriverServices) `{Hd : @LawfulResolver blake3 ts d} :
  @LawfulResolver blake3 ts (with_launch blake3 d).
Proof. destruct Hd. by split. Qed.
