(* ===== verification/History.v ===== *)
(** What no run of the kernel undoes: the ledgers only grow, identity columns
    stay, revisions count the changes of their row, and the ticket and
    candidate lifecycles follow their edges. *)
From S2P Require Import Prelude Values Contracts Database Lifecycle Refinement.

(** * Row histories *)

(** A ticket in one of these states never changes again. *)
Definition ticket_terminal (lifecycle : Z) : bool :=
  negb ((lifecycle =? TICKET_PROPOSED) || (lifecycle =? TICKET_SPONSORED)
        || (lifecycle =? TICKET_IN_FLIGHT) || (lifecycle =? TICKET_BLOCKED)).

(** The ticket state machine. *)
Definition ticket_edges : list (Z * Z) :=
  [(TICKET_PROPOSED, TICKET_SPONSORED); (TICKET_BLOCKED, TICKET_SPONSORED);
   (TICKET_SPONSORED, TICKET_RESOLVED); (TICKET_SPONSORED, TICKET_BLOCKED);
   (TICKET_SPONSORED, TICKET_IN_FLIGHT); (TICKET_IN_FLIGHT, TICKET_SPONSORED);
   (TICKET_IN_FLIGHT, TICKET_RESOLVED); (TICKET_IN_FLIGHT, TICKET_BLOCKED);
   (TICKET_IN_FLIGHT, TICKET_REJECTED); (TICKET_IN_FLIGHT, TICKET_DELIVERED)].

Record revision_advances (tr tr' : TicketRevisionRow) : Prop := {
  ra_contract : tr_contract tr' = tr_contract tr;
  ra_revision : tr_revision tr <= tr_revision tr';
  ra_same : tr_revision tr' = tr_revision tr -> tr' = tr;
  ra_terminal : ticket_terminal (tr_lifecycle tr) = true -> tr' = tr;
}.

Record ticket_advances (t t' : TicketRow) : Prop := {
  tk_application : t_application_revision_id t' = t_application_revision_id t;
  tk_current : t_current_ticket_revision_id t' = t_current_ticket_revision_id t;
  tk_revision : t_revision t <= t_revision t';
}.

Record attempt_advances (a a' : TicketAttemptRow) : Prop := {
  ad_claim : ta_claim a' = ta_claim a;
  ad_revision : ta_revision a <= ta_revision a';
  ad_same : ta_revision a' = ta_revision a -> a' = a;
  ad_released : forall w, ta_released_at a = Some w -> ta_released_at a' = Some w;
  ad_rework : ta_rework_ordinal a <= ta_rework_ordinal a';
}.

(** Submitted leads anywhere; validated to a verdict; accepted to delivery. *)
Definition candidate_lifecycle_advances (l l' : Z) : Prop :=
  l' = l \/ l = CANDIDATE_SUBMITTED \/
  (l = CANDIDATE_VALIDATED /\ CANDIDATE_REJECTED <= l') \/
  (l = CANDIDATE_ACCEPTED /\ l' = CANDIDATE_DELIVERED).

Record candidate_advances (c c' : CandidateRow) : Prop := {
  ca_evidence : c_evidence c' = c_evidence c;
  ca_commit : forall w, c_candidate_commit c = Some w -> c_candidate_commit c' = Some w;
  ca_revision : c_revision c <= c_revision c';
  ca_same : c_revision c' = c_revision c -> c' = c;
  ca_lifecycle : candidate_lifecycle_advances (c_lifecycle c) (c_lifecycle c');
}.

Definition campaign_advances (c c' : CampaignRow) : Prop :=
  cmp_application_revision_id c' = cmp_application_revision_id c /\
  cmp_kernel_build_id c' = cmp_kernel_build_id c.

Record extends (db db' : Database) : Prop := {
  ex_tickets : table_extends ticket_advances (tickets db) (tickets db');
  ex_ticket_revisions :
    table_extends revision_advances (ticket_revisions db) (ticket_revisions db');
  ex_ticket_attempts :
    table_extends attempt_advances (ticket_attempts db) (ticket_attempts db');
  ex_candidates : table_extends candidate_advances (candidates db) (candidates db');
  ex_campaigns : table_extends campaign_advances (campaigns db) (campaigns db');
  ex_validations : validations db ⊆ validations db';
  ex_reviews : reviews db ⊆ reviews db';
  ex_decisions : architect_decisions db ⊆ architect_decisions db';
  ex_deliveries : deliveries db ⊆ deliveries db';
  ex_artifacts : artifacts db ⊆ artifacts db';
  ex_audit : audit_log db ⊆ audit_log db';
}.

(** * The histories are preorders *)

#[export] Instance revision_advances_preorder : PreOrder revision_advances.
Proof.
  split; [by constructor|]. intros x y z [E1 R1 S1 T1] [E2 R2 S2 T2]. constructor.
  - congruence.
  - lia.
  - intros E. rewrite S2 by lia. apply S1. lia.
  - intros E. assert (y = x) as -> by auto. auto.
Qed.

#[export] Instance ticket_advances_preorder : PreOrder ticket_advances.
Proof.
  split; [by constructor|]. intros x y z [] []. constructor; [congruence|congruence|lia].
Qed.

#[export] Instance attempt_advances_preorder : PreOrder attempt_advances.
Proof.
  split; [by constructor|]. intros x y z [E1 R1 S1 T1 W1] [E2 R2 S2 T2 W2]. constructor.
  - congruence.
  - lia.
  - intros E. rewrite S2 by lia. apply S1. lia.
  - auto.
  - lia.
Qed.

Lemma candidate_lifecycle_advances_trans l1 l2 l3 :
  candidate_lifecycle_advances l1 l2 -> candidate_lifecycle_advances l2 l3 ->
  candidate_lifecycle_advances l1 l3.
Proof.
  unfold candidate_lifecycle_advances, CANDIDATE_SUBMITTED, CANDIDATE_VALIDATED,
    CANDIDATE_REJECTED, CANDIDATE_ACCEPTED, CANDIDATE_DELIVERED. lia.
Qed.

#[export] Instance candidate_advances_preorder : PreOrder candidate_advances.
Proof.
  split; [by constructor; try left|].
  intros x y z [E1 C1 R1 S1 L1] [E2 C2 R2 S2 L2]. constructor.
  - congruence.
  - auto.
  - lia.
  - intros E. rewrite S2 by lia. apply S1. lia.
  - by eapply candidate_lifecycle_advances_trans.
Qed.

#[export] Instance campaign_advances_preorder : PreOrder campaign_advances.
Proof. split; [done|]. intros x y z [] []. split; congruence. Qed.

#[export] Instance extends_preorder : PreOrder extends.
Proof.
  split; [by constructor|]. intros x y z [] []. constructor; by etransitivity.
Qed.

(** * Every transition respects them *)

Lemma moved_extends db id tr tr' t state state' :
  ticket_at db id state tr t -> next_state tr tr' state' -> ticket_terminal state = false ->
  extends db (moved db id tr' t).
Proof.
  intros [Hr Ht Hc Hs Hts Hrev Hn] (Ec & El & Er) Hterm. constructor; try done; cbn.
  - apply (table_extends_update _ _ _ t); [by rewrite Ec|]. constructor; cbn; [done|done|lia].
  - apply (table_extends_update _ _ _ tr); [done|]. constructor; [done|lia|lia|congruence].
Qed.

Lemma put_attempt_extends db id a a' :
  ticket_attempts db !! id = Some a -> attempt_advances a a' -> extends db (put_attempt db id a').
Proof. intros Ha Hadv. constructor; try done. by apply (table_extends_update _ _ _ a). Qed.

Lemma put_candidate_extends db id c c' :
  candidates db !! id = Some c -> candidate_advances c c' -> extends db (put_candidate db id c').
Proof. intros Hc Hadv. constructor; try done. by apply (table_extends_update _ _ _ c). Qed.

Lemma attempt_keeps_advances a a' :
  attempt_keeps a a' -> ta_rework_ordinal a <= ta_rework_ordinal a' -> attempt_advances a a'.
Proof. intros (E1 & E2 & E3) Hw. constructor; [done|lia|lia|congruence|done]. Qed.

Lemma environment_extends db db' : environment db db' -> extends db db'.
Proof.
  intros [E1 E2 E3 E4 E5 E6 E7 E8 Ha Hl Hc].
  constructor; rewrite ?E1, ?E2, ?E3, ?E4, ?E5, ?E6, ?E7, ?E8; done.
Qed.

(** A row more in one ledger. *)
Ltac grow := constructor; try done; cbn; eauto with table.

(** One write at a time: each step extends what the previous one left. *)
Ltac then_extends step := etransitivity; [|eapply step].

Lemma propose_extends db tr t :
  extends db (set_ticket_revisions (<[fresh_id (ticket_revisions db) := tr]> (ticket_revisions db))
    (set_tickets (<[fresh_id (tickets db) := t]> (tickets db)) db)).
Proof. constructor; try done; cbn; by apply table_extends_fresh. Qed.

Lemma claim_extends db a :
  extends db (put_attempt db (fresh_id (ticket_attempts db)) a).
Proof. constructor; try done; cbn. by apply table_extends_fresh. Qed.

Lemma submit_extends db c :
  extends db (put_candidate db (fresh_id (candidates db)) c).
Proof. constructor; try done; cbn. by apply table_extends_fresh. Qed.

Lemma validated_advances c c' (b : bool) scope :
  (scope, c_lifecycle c) ∈ [(0, CANDIDATE_SUBMITTED); (1, CANDIDATE_VALIDATED)] ->
  c_evidence c' = c_evidence c -> c_candidate_commit c' = c_candidate_commit c ->
  c_revision c' = c_revision c + 1 ->
  c_lifecycle c' = (if b then CANDIDATE_VALIDATED else CANDIDATE_REJECTED) ->
  candidate_advances c c'.
Proof.
  intros Hs E1 E2 E3 E4. rewrite list_elem_of_In in Hs.
  constructor; [done|congruence|lia|lia|]. rewrite E4.
  destruct Hs as [[= _ <-]|[[= _ <-]|[]]]; [by right; left|].
  destruct b; [by left|by right; right; left].
Qed.

Lemma moved_state_open (state state' : Z) l :
  (state, state') ∈ l -> forallb (fun e => negb (ticket_terminal (fst e))) l = true ->
  ticket_terminal state = false.
Proof.
  intros Hin Hall. rewrite forallb_forall in Hall. rewrite list_elem_of_In in Hin.
  apply Hall in Hin. by apply negb_true_iff in Hin.
Qed.

Lemma transition_extends db db' : transition db db' -> extends db db'.
Proof.
  destruct 1.
  - by apply environment_extends.
  - grow. by apply insert_subseteq.
  - grow.
  - apply propose_extends.
  - eapply moved_extends; [done..|]. by eapply moved_state_open.
  - then_extends moved_extends; [apply claim_extends|by eapply (ticket_at_same db)|done|done].
  - eapply put_attempt_extends; [apply H|by apply attempt_keeps_advances; [|lia]].
  - then_extends moved_extends; [|eapply (ticket_at_same db); [..|apply H]; done|done|done].
    eapply put_attempt_extends; [apply H|]. constructor; [done|lia|lia|congruence|lia].
  - then_extends put_attempt_extends;
      [apply submit_extends|apply H|by apply attempt_keeps_advances; [|lia]].
  - then_extends put_attempt_extends; [|apply H0|by apply attempt_keeps_advances; [|lia]].
    then_extends put_candidate_extends; [grow|done|by eapply validated_advances].
  - eapply put_candidate_extends; [done|].
    constructor; [done|congruence|lia|lia|by left].
  - then_extends put_attempt_extends; [|done|by apply attempt_keeps_advances; [|lia]].
    then_extends put_candidate_extends; [grow|done|]. constructor; [done|congruence|lia|lia|by left].
  - match goal with Hk : _ \/ _ |- _ => destruct Hk as [(_ & El & _ & Ew & ->)|
      [(_ & El & _ & Ew0 & Ew & ->)|(_ & El & _ & Ew & tr' & Hn & _ & ->)]] end.
    all: then_extends put_attempt_extends; [|apply H1|by apply attempt_keeps_advances; [|lia]].
    all: then_extends put_candidate_extends;
      [|exact H|constructor; [done|congruence|lia|lia|rewrite El, H0; by right; right; left]].
    + grow.
    + grow.
    + etransitivity; [by eapply moved_extends; [apply H1|..]|]. grow.
  - then_extends moved_extends; [|eapply (ticket_at_same db); [..|apply H1]; done|done|done].
    then_extends put_attempt_extends; [|apply H1|by apply attempt_keeps_advances; [|lia]].
    then_extends put_candidate_extends; [grow|done|].
    constructor; [done|congruence|lia|lia|right; right; right; by split].
  - constructor; try done; cbn. by apply (table_extends_update _ _ _ c).
Qed.

Lemma transitions_extend db db' : rtc transition db db' -> extends db db'.
Proof. apply (transitions_relate extends), transition_extends. Qed.

(** * The ticket tables under one transition *)

Lemma edges_included (l : list (Z * Z)) e :
  e ∈ l -> forallb (fun x => bool_decide (x ∈ ticket_edges)) l = true -> e ∈ ticket_edges.
Proof.
  rewrite list_elem_of_In, forallb_forall. intros Hin Hall.
  apply Hall in Hin. by apply bool_decide_eq_true in Hin.
Qed.

Lemma edges_from_in_flight state l :
  state ∈ l ->
  forallb (fun x => bool_decide ((TICKET_IN_FLIGHT, x) ∈ ticket_edges)) l = true ->
  (TICKET_IN_FLIGHT, state) ∈ ticket_edges.
Proof.
  rewrite list_elem_of_In, forallb_forall. intros Hin Hall.
  apply Hall in Hin. by apply bool_decide_eq_true in Hin.
Qed.

(** An edge of the state machine, by evaluation. *)
Ltac edge := apply (bool_decide_unpack _); vm_compute; exact I.

(** Nothing, a proposal, or one ticket moving along an edge. *)
Inductive ticket_change (db db' : Database) : Prop :=
  | tickets_kept :
      tickets db' = tickets db -> ticket_revisions db' = ticket_revisions db ->
      ticket_change db db'
  | ticket_proposed tr t :
      let ticket_id := fresh_id (tickets db) in
      let revision_id := fresh_id (ticket_revisions db) in
      tr_ticket_id (tr_contract tr) = ticket_id ->
      t_current_ticket_revision_id t = revision_id ->
      t_application_revision_id t = tr_application_revision_id (tr_contract tr) ->
      tr_lifecycle tr = TICKET_PROPOSED -> t_lifecycle t = TICKET_PROPOSED ->
      tr_revision tr = 0 -> t_revision t = 0 ->
      ticket_revisions_live_reproducer_identity revision_id tr db = true ->
      tickets db' = <[ticket_id := t]> (tickets db) ->
      ticket_revisions db' = <[revision_id := tr]> (ticket_revisions db) ->
      ticket_change db db'
  | ticket_moved revision_id tr t tr' state state' :
      ticket_at db revision_id state tr t -> next_state tr tr' state' ->
      (state, state') ∈ ticket_edges ->
      ticket_revisions_live_reproducer_identity revision_id tr' db = true ->
      tickets db' = tickets (moved db revision_id tr' t) ->
      ticket_revisions db' = <[revision_id := tr']> (ticket_revisions db) ->
      ticket_change db db'.

Lemma transition_tickets db db' : transition db db' -> ticket_change db db'.
Proof.
  destruct 1; try (apply tickets_kept; reflexivity).
  - by apply tickets_kept; destruct H.
  - by eapply ticket_proposed.
  - eapply ticket_moved; try done. by eapply edges_included.
  - eapply ticket_moved; try done. edge.
  - eapply ticket_moved; [apply H|done| |done|done|done]. by eapply edges_from_in_flight.
  - match goal with Hk : _ \/ _ |- _ => destruct Hk as [(_ & _ & _ & _ & ->)|
      [(_ & _ & _ & _ & _ & ->)|(_ & _ & _ & _ & tr' & Hn & Hl & ->)]] end.
    + by apply tickets_kept.
    + by apply tickets_kept.
    + eapply ticket_moved; [apply H1|done| |done|done|done]. edge.
  - eapply ticket_moved; [apply H1|done| |done|done|done]. edge.
Qed.

(** * The attempt table under one transition *)

Inductive attempt_change (db db' : Database) : Prop :=
  | attempts_kept : ticket_attempts db' = ticket_attempts db -> attempt_change db db'
  | attempt_claimed a :
      ticket_attempts db' = <[fresh_id (ticket_attempts db) := a]> (ticket_attempts db) ->
      ta_stage a = ATTEMPT_ENGINEERING -> ta_rework_ordinal a = 0 -> ta_revision a = 0 ->
      attempt_change db db'
  | attempt_updated id a a' :
      ticket_attempts db !! id = Some a ->
      ticket_attempts db' = <[id := a']> (ticket_attempts db) ->
      ta_claim a' = ta_claim a -> ta_revision a' = ta_revision a + 1 ->
      (ta_rework_ordinal a' = ta_rework_ordinal a \/
       (ta_rework_ordinal a = 0 /\ ta_rework_ordinal a' = 1)) ->
      (ta_stage a = ATTEMPT_AWAITING_ARCHITECT \/
       exists tr t, ticket_at db (ta_ticket_revision_id (ta_claim a)) TICKET_IN_FLIGHT tr t) ->
      attempt_change db db'.

Ltac updated_attempt :=
  try match goal with H : attempt_at _ _ _ _ _ _ |- _ => destruct H as [? ?] end;
  try match goal with H : attempt_keeps _ _ |- _ => destruct H as (? & ? & ?) end;
  eapply attempt_updated; eauto.

Lemma transition_attempts db db' : transition db db' -> attempt_change db db'.
Proof.
  destruct 1; try (apply attempts_kept; reflexivity).
  - by apply attempts_kept; destruct H.
  - by eapply attempt_claimed.
  - updated_attempt.
  - updated_attempt.
  - updated_attempt.
  - updated_attempt.
  - updated_attempt.
  - updated_attempt; match goal with Hk : _ \/ _ |- _ => destruct Hk as [(_ & _ & _ & ? & ->)|
      [(_ & _ & _ & ? & ? & ->)|(_ & _ & _ & ? & ? & _ & _ & ->)]] end; try done; auto.
  - updated_attempt.
Qed.
