(* ===== verification/Scenario.v ===== *)
(** One ticket from proposal to delivery on a small installation: concrete
    databases on which the theorems of the other files are applied. *)
From S2P Require Import Prelude Values Contracts Database Lifecycle.
From S2P Require TicketStore DecisionStore.

(** A run of commands, [None] as soon as one of them is refused. *)
Fixpoint run (blake3 : list Z -> ContentDigest) (db : Database) (commands : list Command)
  : option Database :=
  match commands with
  | [] => Some db
  | command :: commands => db' ← execute blake3 db command; run blake3 db' commands
  end.

(** The database after a run that is known to succeed. *)
Definition after (blake3 : list Z -> ContentDigest) (db : Database) (commands : list Command)
  : Database := default db (run blake3 db commands).

(** A 32-byte checksum in the place of the hash. *)
Definition checksum (bytes : list Z) : ContentDigest :=
  foldl (fun acc b => (acc * 31 + b) mod 251) 7 bytes :: repeat 0 31.

Definition object_id (n : nat) : string := String.string_of_list_ascii (repeat (Ascii.ascii_of_nat n) 40).
Definition base_commit : string := object_id 97.
Definition base_tree : string := object_id 98.
Definition regression_tree : string := object_id 99.
Definition candidate_tree : string := object_id 100.
Definition candidate_commit : string := object_id 101.
Definition delivered_commit : string := object_id 102.

Definition sample_digest (n : Z) : ContentDigest := repeat n 32.

(** Artifacts 1 to 9, the digest of each made of its own number; artifacts 3
    and 4 hold the same observation. *)
Definition sample_artifacts : gmap Z ArtifactRow :=
  list_to_map ((fun n => (n, {| art_digest := sample_digest (if n =? 4 then 3 else n);
                               art_byte_length := 10;
                               art_cas_relative_path := "objects/blake3/sample";
                               art_creating_kernel_build_id := 1 |})) <$> [1; 2; 3; 4; 5; 6; 7; 8; 9]).

Definition sealed (n : Z) : SealedArtifactReferenceV2 :=
  {| artifact_id := n; digest := sample_digest n; byte_length := 10 |}.

(** One office per assignment role. *)
Definition sample_offices : gmap Z OfficeRow :=
  list_to_map ((fun n => (n, {| of_application_revision_id := 1;
                               of_assignment_role := Some (n - 1);
                               of_charter_artifact_id := 1;
                               of_authority_mask := 2 ^ (n - 1) |})) <$> [1; 2; 3]).

Definition sample_model : ModelColumns := {|
  model_provider := "openrouter"; model_id := "model"; thinking_level := 0; input_price := 0;
  output_price := 0; cache_read_price := 0; cache_write_price := 0 |}.

(** A session of assignment [id] that succeeded at a known cost. *)
Definition finished_session (id role cost : Z) : SessionRow := {|
  ses_identity := {| si_assignment_id := id; si_campaign_id := 1; si_kernel_build_id := 1;
    si_application_revision_id := 1; si_office_id := role + 1; si_assignment_role := role;
    si_model := sample_model; si_pid := 100 + id; si_pgid := 100 + id;
    si_process_started_at_unix_millis := 50 |};
  ses_lifecycle := SESSION_SUCCEEDED;
  ses_terminal := Some {|
    st_transcript_artifact_id := 1; st_execution_summary_artifact_id := Some 2;
    st_stdout_artifact_id := 1; st_stderr_artifact_id := 1;
    st_partial_transcript_artifact_id := None; st_required_read_assertion_artifact_id := 3;
    st_required_read_expected_count := 0; st_required_read_satisfied_count := 0;
    st_usage := {| u_input_tokens := None; u_output_tokens := None; u_cache_read_tokens := None;
      u_cache_write_tokens := None; u_reasoning_tokens := None;
      u_reported_cost_micro_usd := Some cost |};
    st_cost_state := COST_KNOWN; st_cost_micro_usd := Some cost; st_stop_reason := 0;
    st_terminal_operation := Some 0; st_failure_class := None; st_terminal_at := 60 |};
  ses_revision := 1 |}.

Definition sample_application_artifacts : ApplicationArtifacts := {|
  aa_bundle := 1; aa_mission := 1; aa_product_research_system_template := 1;
  aa_product_research_assignment_template := 1; aa_engineering_system_template := 1;
  aa_engineering_assignment_template := 1; aa_quality_system_template := 1;
  aa_quality_assignment_template := 1 |}.

(** Application revision 1 and its campaign 1 with a delivery target of one, an
    Engineering and a Quality session that have succeeded, kernel build 1. *)
Definition installation : Database := {|
  application_revisions := {[ 1 := {|
    application_key := "xsh"; app_aggregate_revision := 0; ticket_low_water := 1;
    ticket_target := 2; ticket_maximum := Some 2; proposal_maximum := 2;
    app_predecessor := None;
    app_artifacts := sample_application_artifacts; ticket_narrative_byte_limit := 1000;
    ticket_acceptance_criteria_limit := 5; ticket_contract_read_limit := 5;
    app_repository_id := 1; app_is_active := true |} ]};
  artifacts := sample_artifacts;
  kernel_builds := {[ 1 := {| kb_build_digest := sample_digest 9; kb_is_current := true;
    kb_qualification_receipt_artifact_id := 9;
    kb_revision := 1 |} ]};
  repositories := ∅;
  offices := sample_offices;
  campaigns := {[ 1 := {|
    cmp_kernel_build_id := 1; cmp_application_revision_id := 1; cmp_repository_id := 1;
    cmp_lifecycle := CAMPAIGN_RUNNING; cmp_aggregate_budget_micro_usd := 1000000;
    cmp_deadline := 1000; cmp_delivery_target := 1; cmp_revision := 0;
    cmp_measured_cost_micro_usd := 250000; cmp_cost_state := COST_KNOWN;
    cmp_failure_reason := None |} ]};
  assignments := ∅;
  sessions := {[ 1 := finished_session 1 OFFICE_ENGINEERING 150000;
                 2 := finished_session 2 OFFICE_QUALITY 100000 ]};
  provider_effects := ∅;
  tickets := ∅; ticket_revisions := ∅; ticket_attempts := ∅; candidates := ∅;
  validations := ∅; reviews := ∅; architect_decisions := ∅; deliveries := ∅;
  audit_log := ∅; now := 100 |}.

Definition propose : Command := ProposeTicket {|
  TicketStore.stp_principal := "product"; TicketStore.stp_command_id := "c1";
  TicketStore.stp_expected_application_revision := 0;
  TicketStore.stp_application_revision_id := 1;
  TicketStore.stp_proposal_artifact_id := 1; TicketStore.stp_reproducer_artifact_id := 2;
  TicketStore.stp_expected_observation_artifact_id := 5;
  TicketStore.stp_first_actual_observation_artifact_id := 3;
  TicketStore.stp_second_actual_observation_artifact_id := 4;
  TicketStore.stp_discovery_commit := base_commit;
  TicketStore.stp_discovery_tree := base_tree |}.

Definition sponsor : Command := SponsorRevision {|
  TicketStore.str_principal := "owner"; TicketStore.str_command_id := "c2";
  TicketStore.str_ticket_revision_id := 1; TicketStore.str_expected_ticket_revision := 0;
  TicketStore.str_reason := "worth it" |}.

Definition observed_head (first second : Z) : TicketStore.CurrentHeadRequalification := {|
  TicketStore.current_head_commit := base_commit; TicketStore.current_head_tree := base_tree;
  TicketStore.first_actual_observation_artifact_id := first;
  TicketStore.second_actual_observation_artifact_id := second |}.

Definition claim_request : TicketStore.ClaimSponsoredTicket := {|
  TicketStore.cst_principal := "driver"; TicketStore.cst_command_id := "c3";
  TicketStore.cst_campaign_id := 1; TicketStore.cst_expected_campaign_revision := 0;
  TicketStore.cst_ticket_revision_id := 1; TicketStore.cst_expected_ticket_revision := 1;
  TicketStore.cst_requalification := observed_head 3 4 |}.

Definition claim : Command := ClaimTicket claim_request.

Definition submit : Command := SubmitCandidate {|
  DecisionStore.sc_principal := "driver"; DecisionStore.sc_command_id := "c4";
  DecisionStore.sc_ticket_attempt_id := 1; DecisionStore.sc_expected_attempt_revision := 0;
  DecisionStore.sc_expected_ticket_revision := 2; DecisionStore.sc_engineering_session_id := 1;
  DecisionStore.sc_base_commit := base_commit; DecisionStore.sc_base_tree := base_tree;
  DecisionStore.sc_regression_tree := regression_tree;
  DecisionStore.sc_candidate_tree := candidate_tree;
  DecisionStore.sc_changed_paths := sealed 1; DecisionStore.sc_regression_patch := sealed 1;
  DecisionStore.sc_regression_command_set := sealed 1;
  DecisionStore.sc_regression_log := sealed 1; DecisionStore.sc_candidate_patch := sealed 1;
  DecisionStore.sc_engineering_report := sealed 1; DecisionStore.sc_engineering_risks := sealed 1;
  DecisionStore.sc_submission := {| commit_subject := "fix"; commit_body := "";
                                    regression_test_identity := "test" |} |}.

Definition validate (command_id : string) (candidate_revision attempt_revision : Z)
    (scope : DecisionStore.ValidationScope) (session : Z) (outcome : DecisionStore.ValidationResult)
  : Command := RecordValidation {|
  DecisionStore.rv_principal := "driver"; DecisionStore.rv_command_id := command_id;
  DecisionStore.rv_candidate_id := 1;
  DecisionStore.rv_expected_candidate_revision := candidate_revision;
  DecisionStore.rv_expected_attempt_revision := attempt_revision;
  DecisionStore.rv_scope := scope; DecisionStore.rv_kernel_build_id := sample_digest 9;
  DecisionStore.rv_performed_by_session_id := session;
  DecisionStore.rv_validation_profile := "profile";
  DecisionStore.rv_pristine_tree := candidate_tree; DecisionStore.rv_command_set := sealed 6;
  DecisionStore.rv_result := outcome; DecisionStore.rv_duration_millis := 5;
  DecisionStore.rv_log := sealed 7 |}.

Definition validate_hard : Command :=
  validate "c5" 0 1 DecisionStore.HardCandidate 1 DecisionStore.Passed.

Definition attach : Command := AttachCommit {|
  DecisionStore.acc_principal := "driver"; DecisionStore.acc_command_id := "c6";
  DecisionStore.acc_candidate_id := 1; DecisionStore.acc_expected_candidate_revision := 1;
  DecisionStore.acc_candidate_commit := candidate_commit;
  DecisionStore.acc_candidate_ref := "refs/heads/factory/1/1" |}.

Definition validate_quality : Command :=
  validate "c7" 2 2 DecisionStore.QualityFullSuite 2 DecisionStore.Passed.

Definition review (v : ReviewVerdict) : Command := SubmitReview {|
  DecisionStore.sqr_principal := "quality"; DecisionStore.sqr_command_id := "c8";
  DecisionStore.sqr_candidate_id := 1; DecisionStore.sqr_expected_candidate_revision := 3;
  DecisionStore.sqr_expected_attempt_revision := 3; DecisionStore.sqr_quality_session_id := 2;
  DecisionStore.sqr_submission := {| full_suite_validation_id := 2; verdict := v;
    review_rationale := sealed 8; risks := sealed 8; additional_probes := sealed 8 |} |}.

Definition decision_request (d : CandidateDecisionV2) (override : option Z)
  : DecisionStore.DecideCandidate := {|
  DecisionStore.dc_command_id := "c9"; DecisionStore.dc_expected_candidate_revision := 4;
  DecisionStore.dc_expected_attempt_revision := 4; DecisionStore.dc_expected_ticket_revision := 2;
  DecisionStore.dc_request := {| request_candidate_id := 1; request_review_id := 1;
    request_decision := d; request_rationale := sealed 8;
    quality_rejection_override := override; request_principal := "architect" |} |}.

Definition decide_with (d : CandidateDecisionV2) (override : option Z) : Command :=
  DecideCandidate (decision_request d override).

Definition delivery : DecisionStore.RecordDelivery := {|
  DecisionStore.rd_principal := "driver"; DecisionStore.rd_command_id := "c10";
  DecisionStore.rd_candidate_id := 1; DecisionStore.rd_expected_candidate_revision := 5;
  DecisionStore.rd_expected_attempt_revision := 5;
  DecisionStore.rd_expected_ticket_revision := 2;
  DecisionStore.rd_expected_campaign_revision := 0;
  DecisionStore.rd_expected_old_commit := base_commit;
  DecisionStore.rd_candidate_commit := candidate_commit;
  DecisionStore.rd_resulting_commit := delivered_commit;
  DecisionStore.rd_resulting_tree := candidate_tree;
  DecisionStore.rd_factory_cost_micro_usd := 250000; DecisionStore.rd_receipt := sealed 8 |}.

Definition to_claim : list Command := [propose; sponsor; claim].
Definition to_review (v : ReviewVerdict) : list Command :=
  to_claim ++ [submit; validate_hard; attach; validate_quality; review v].
Definition story : list Command :=
  to_review Accept ++ [decide_with Deliver None; RecordDelivery delivery].

(** An attempt that failed before any candidate, and one that lost its Quality
    session after the candidate's commit was attached. *)
Definition failure : TicketStore.FailTicketAttempt := {|
  TicketStore.fta_principal := "driver"; TicketStore.fta_command_id := "f1";
  TicketStore.fta_ticket_attempt_id := 1; TicketStore.fta_expected_attempt_revision := 0;
  TicketStore.fta_expected_ticket_revision := 2; TicketStore.fta_reason := "lost" |}.

Definition engineering_retry (command_id : string) (attempt_revision : Z)
  : TicketStore.RetryEngineeringAttempt := {|
  TicketStore.fta_principal := "driver"; TicketStore.fta_command_id := command_id;
  TicketStore.fta_ticket_attempt_id := 1;
  TicketStore.fta_expected_attempt_revision := attempt_revision;
  TicketStore.fta_expected_ticket_revision := 2; TicketStore.fta_reason := "again" |}.

Definition quality_retry (command_id : string) (attempt_revision : Z)
  : TicketStore.RetryQualityAttempt := {|
  TicketStore.rqa_principal := "driver"; TicketStore.rqa_command_id := command_id;
  TicketStore.rqa_ticket_attempt_id := 1; TicketStore.rqa_candidate_id := 1;
  TicketStore.rqa_expected_attempt_revision := attempt_revision;
  TicketStore.rqa_expected_ticket_revision := 2; TicketStore.rqa_reason := "again" |}.

Definition release_request (first second : Z) : TicketStore.ReleaseTicketAttempt := {|
  TicketStore.rta_principal := "driver"; TicketStore.rta_command_id := "f2";
  TicketStore.rta_ticket_attempt_id := 1; TicketStore.rta_expected_attempt_revision := 1;
  TicketStore.rta_expected_ticket_revision := 2; TicketStore.rta_reason := "give back";
  TicketStore.rta_requalification := observed_head first second |}.

Definition architect_sponsorship (ticket_revision : Z) : DecisionStore.SponsorTicket := {|
  DecisionStore.st_command_id := "a1";
  DecisionStore.st_expected_ticket_revision := ticket_revision;
  DecisionStore.st_decision := {| sponsored_ticket_revision_id := 1;
    sponsorship_rationale := sealed 8; sponsorship_principal := "architect" |} |}.

Definition engineering_failed : list Command := to_claim ++ [FailAttempt failure].
Definition quality_failed : list Command := to_claim ++ [submit; validate_hard; attach].

Lemma run_steps blake3 db commands db' :
  run blake3 db commands = Some db' -> rtc (step blake3) db db'.
Proof.
  revert db. induction commands as [|command commands IH]; simpl; intros db.
  - intros [= <-]. apply rtc_refl.
  - intros (db1 & H1 & H2)%bind_Some. eapply rtc_l; [by eapply step_command|by apply IH].
Qed.

(** A successful run, named by its commands alone. *)
Lemma run_after blake3 db commands :
  bool_decide (is_Some (run blake3 db commands)) = true ->
  run blake3 db commands = Some (after blake3 db commands).
Proof. intros [db' H]%bool_decide_eq_true. unfold after. by rewrite H. Qed.

Lemma run_one blake3 db command :
  bool_decide (is_Some (run blake3 db [command])) = true ->
  execute blake3 db command = Some (after blake3 db [command]).
Proof.
  intros H%run_after. cbn [run] in H. apply bind_Some in H as (db' & H & [= E]). by rewrite <- E.
Qed.

Lemma installation_initial : initial installation.
Proof. by constructor. Qed.

Lemma story_runs : run checksum installation story = Some (after checksum installation story).
Proof. apply run_after. vm_compute. reflexivity. Qed.

Lemma after_reachable commands :
  bool_decide (is_Some (run checksum installation commands)) = true ->
  reachable checksum (after checksum installation commands).
Proof.
  intros H%run_after. exists installation. split; [apply installation_initial|].
  by eapply run_steps.
Qed.
