(* ===== verification/Invariants.v ===== *)
(** The authority invariants: tickets agree with their current revision,
    attempts hold custody of in-flight tickets, and every candidate, review,
    decision and delivery rests on the evidence the kernel demands.  Each holds
    in every database a run of the kernel can reach. *)
From S2P Require Import Prelude Values Contracts Database Lifecycle Refinement History.

(** * Tickets *)

Definition revision_ok (db : Database) (id : Z) (tr : TicketRevisionRow) : Prop :=
  exists t, tickets db !! tr_ticket_id (tr_contract tr) = Some t /\
    t_current_ticket_revision_id t = id /\
    t_application_revision_id t = tr_application_revision_id (tr_contract tr) /\
    t_lifecycle t = tr_lifecycle tr /\ t_revision t = tr_revision tr /\
    0 <= tr_revision tr /\
    0 <= tr_lifecycle tr <= 7 /\ tr_lifecycle tr <> TICKET_SUPERSEDED.

Definition ticket_ok (db : Database) (id : Z) (t : TicketRow) : Prop :=
  exists tr, ticket_revisions db !! t_current_ticket_revision_id t = Some tr /\
    tr_ticket_id (tr_contract tr) = id.

(** The reproducer identity of a ticket revision that is not blocked. *)
Definition live_identity (tr : TicketRevisionRow) : option (Z * Z) :=
  if tr_lifecycle tr =? TICKET_BLOCKED then None
  else Some (tr_application_revision_id (tr_contract tr),
             tr_reproducer_artifact_id (tr_contract tr)).

Record tickets_wf (db : Database) : Prop := {
  tw_revision : map_Forall (revision_ok db) (ticket_revisions db);
  tw_ticket : map_Forall (ticket_ok db) (tickets db);
  tw_live : table_unique live_identity (ticket_revisions db);
}.

(** * Attempts *)

(** States of a ticket whose attempt was not released. *)
Definition in_custody (lifecycle : Z) : Prop :=
  lifecycle = TICKET_IN_FLIGHT \/ lifecycle = TICKET_DELIVERED \/ lifecycle = TICKET_REJECTED.

Definition attempt_ok (db : Database) (a : TicketAttemptRow) : Prop :=
  exists tr campaign,
    ticket_revisions db !! ta_ticket_revision_id (ta_claim a) = Some tr /\
    campaigns db !! ta_campaign_id (ta_claim a) = Some campaign /\
    cmp_application_revision_id campaign = tr_application_revision_id (tr_contract tr) /\
    0 <= ta_rework_ordinal a <= 1 /\ 0 <= ta_revision a /\
    (ta_released_at a = None -> in_custody (tr_lifecycle tr)) /\
    (ta_stage a = ATTEMPT_DELIVERED -> tr_lifecycle tr = TICKET_DELIVERED).

(** The ticket revision an unreleased attempt has custody of. *)
Definition custody_of (a : TicketAttemptRow) : option Z :=
  match ta_released_at a with
  | None => Some (ta_ticket_revision_id (ta_claim a)) | Some _ => None
  end.

(** The application revision of an in-flight ticket revision. *)
Definition in_flight_of (tr : TicketRevisionRow) : option Z :=
  if tr_lifecycle tr =? TICKET_IN_FLIGHT
  then Some (tr_application_revision_id (tr_contract tr)) else None.

Record attempts_wf (db : Database) : Prop := {
  aw_attempt : map_Forall (fun _ a => attempt_ok db a) (ticket_attempts db);
  aw_custody : table_unique custody_of (ticket_attempts db);
  aw_held : map_Forall (fun id tr => tr_lifecycle tr = TICKET_IN_FLIGHT ->
    exists i a, ticket_attempts db !! i = Some a /\ custody_of a = Some id) (ticket_revisions db);
  aw_one_in_flight : table_unique in_flight_of (ticket_revisions db);
}.

(** * Evidence *)

(** The Architect decided to deliver the candidate. *)
Definition delivery_approved (db : Database) (candidate_id : Z) : Prop :=
  exists id d, architect_decisions db !! id = Some d /\
    d_candidate_id d = Some candidate_id /\ d_decision_kind d = DECISION_DELIVER.

Definition candidate_ok (db : Database) (id : Z) (c : CandidateRow) : Prop :=
  exists a, ticket_attempts db !! c_ticket_attempt_id (c_evidence c) = Some a /\
    c_base_commit (c_evidence c) = ta_claimed_commit (ta_claim a) /\
    c_base_tree (c_evidence c) = ta_claimed_tree (ta_claim a) /\
    candidate_trees_differ (c_evidence c) = true /\
    0 <= c_lifecycle c <= 4 /\
    (c_lifecycle c ∈ [CANDIDATE_VALIDATED; CANDIDATE_ACCEPTED; CANDIDATE_DELIVERED] ->
     has_passed db id 0) /\
    (c_lifecycle c ∈ [CANDIDATE_ACCEPTED; CANDIDATE_DELIVERED] ->
     has_passed db id 1 /\ is_Some (c_candidate_commit c) /\ delivery_approved db id) /\
    (c_lifecycle c = CANDIDATE_DELIVERED ->
     ta_stage a = ATTEMPT_DELIVERED /\
     exists i d, deliveries db !! i = Some d /\ dl_candidate_id d = id).

Definition validation_ok (db : Database) (v : ValidationRow) : Prop :=
  exists c a campaign, candidates db !! v_candidate_id v = Some c /\
    v_pristine_tree v = c_candidate_tree (c_evidence c) /\
    ticket_attempts db !! c_ticket_attempt_id (c_evidence c) = Some a /\
    campaigns db !! ta_campaign_id (ta_claim a) = Some campaign /\
    v_kernel_build_id v = cmp_kernel_build_id campaign.

Definition review_ok (db : Database) (r : ReviewRow) : Prop :=
  exists v, validations db !! r_full_suite_validation_id r = Some v /\
    v_candidate_id v = r_candidate_id r /\ v_validation_scope v = 1 /\
    v_lifecycle v = VALIDATION_PASSED.

(** A verdict on a candidate rests on its review and both validations, and
    fixes what the candidate may still become. *)
Definition verdict_ok (db : Database) (d : ArchitectDecisionRow) (candidate_id : Z) : Prop :=
  exists review_id r c, d_review_id d = Some review_id /\
    reviews db !! review_id = Some r /\ r_candidate_id r = candidate_id /\
    has_passed db candidate_id 0 /\ has_passed db candidate_id 1 /\
    d_overrides_quality_rejection d = (r_verdict r =? REVIEW_REJECT) /\
    (d_overrides_quality_rejection d = true -> d_decision_kind d = DECISION_DELIVER) /\
    candidates db !! candidate_id = Some c /\ is_Some (c_candidate_commit c) /\
    ((d_decision_kind d = DECISION_DELIVER /\
      (c_lifecycle c = CANDIDATE_ACCEPTED \/ c_lifecycle c = CANDIDATE_DELIVERED)) \/
     (d_decision_kind d ∈ [DECISION_REWORK; DECISION_REJECT] /\
      c_lifecycle c = CANDIDATE_REJECTED)).

Definition decision_ok (db : Database) (d : ArchitectDecisionRow) : Prop :=
  match d_candidate_id d with
  | None => d_decision_kind d < 2
  | Some candidate_id => verdict_ok db d candidate_id
  end.

Definition delivery_ok (db : Database) (d : DeliveryRow) : Prop :=
  exists c, candidates db !! dl_candidate_id d = Some c /\
    c_lifecycle c = CANDIDATE_DELIVERED /\
    c_candidate_commit c = Some (dl_candidate_commit d) /\
    c_base_commit (c_evidence c) = dl_expected_old_commit d /\
    c_candidate_tree (c_evidence c) = dl_resulting_tree d.

Record evidence_wf (db : Database) : Prop := {
  ew_candidate : map_Forall (candidate_ok db) (candidates db);
  ew_validation : map_Forall (fun _ v => validation_ok db v) (validations db);
  ew_validation_once :
    table_unique (fun v => Some (v_candidate_id v, v_validation_scope v)) (validations db);
  ew_review : map_Forall (fun _ r => review_ok db r) (reviews db);
  ew_review_once : table_unique (fun r => Some (r_candidate_id r)) (reviews db);
  ew_decision : map_Forall (fun _ d => decision_ok db d) (architect_decisions db);
  ew_decision_once : table_unique d_candidate_id (architect_decisions db);
  ew_delivery : map_Forall (fun _ d => delivery_ok db d) (deliveries db);
  ew_delivery_once : table_unique (fun d => Some (dl_candidate_id d)) (deliveries db);
}.

Record well_formed (db : Database) : Prop := {
  wf_tickets : tickets_wf db;
  wf_attempts : attempts_wf db;
  wf_evidence : evidence_wf db;
}.

(** * Tickets stay well formed *)

(** The partial unique index, as uniqueness of live identities. *)
Lemma live_identity_insert db id tr :
  table_unique live_identity (ticket_revisions db) ->
  ticket_revisions_live_reproducer_identity id tr db = true ->
  table_unique live_identity (<[id := tr]> (ticket_revisions db)).
Proof.
  intros Hu Hl. apply table_unique_insert; [done|]. intros j w x Hne Hj Hx Hw.
  unfold live_identity, ticket_revisions_live_reproducer_identity in *.
  destruct (Z.eqb_spec (tr_lifecycle tr) TICKET_BLOCKED); [done|].
  destruct (Z.eqb_spec (tr_lifecycle w) TICKET_BLOCKED) as [|Hb]; [done|].
  rewrite orb_false_l in Hl. bool_prop. rewrite exists_where_false in Hl. specialize (Hl j w Hj).
  simplify_eq. apply Z.eqb_neq in Hne, Hb. rewrite Hne, Hb in Hl. cbn in Hl.
  assert (Ea : tr_application_revision_id (tr_contract w)
               = tr_application_revision_id (tr_contract tr)) by congruence.
  assert (Er : tr_reproducer_artifact_id (tr_contract w)
               = tr_reproducer_artifact_id (tr_contract tr)) by congruence.
  rewrite Ea, Er, !Z.eqb_refl in Hl. discriminate.
Qed.

Lemma tickets_wf_proposed db tr t :
  let ticket_id := fresh_id (tickets db) in
  let revision_id := fresh_id (ticket_revisions db) in
  tr_ticket_id (tr_contract tr) = ticket_id ->
  t_current_ticket_revision_id t = revision_id ->
  t_application_revision_id t = tr_application_revision_id (tr_contract tr) ->
  tr_lifecycle tr = TICKET_PROPOSED -> t_lifecycle t = TICKET_PROPOSED ->
  tr_revision tr = 0 -> t_revision t = 0 ->
  ticket_revisions_live_reproducer_identity revision_id tr db = true ->
  tickets_wf db -> forall db',
  tickets db' = <[ticket_id := t]> (tickets db) ->
  ticket_revisions db' = <[revision_id := tr]> (ticket_revisions db) ->
  tickets_wf db'.
Proof.
  intros tid rid Etid Erid Eapp El Elt Er Ert Hlive [Hr Ht Hu] db' Et' Er'.
  assert (Ftid : tickets db !! tid = None) by apply fresh_id_lookup.
  assert (Frid : ticket_revisions db !! rid = None) by apply fresh_id_lookup.
  constructor.
  - intros j w. rewrite Er'. intros [[<- <-]|[Hne Hj]]%lookup_insert_Some.
    + exists t. rewrite Et', Etid, lookup_insert_eq, El, Elt, Er, Ert.
      unfold TICKET_PROPOSED, TICKET_SUPERSEDED. repeat split; (done || lia).
    + destruct (Hr j w Hj) as (t0 & Ht0 & Hw). exists t0. split; [|done].
      rewrite Et', lookup_insert_ne; [done|]. intros E. by rewrite <- E, Ftid in Ht0.
  - intros j w. rewrite Et'. intros [[<- <-]|[Hne Hj]]%lookup_insert_Some.
    + exists tr. by rewrite Er', Erid, lookup_insert_eq.
    + destruct (Ht j w Hj) as (tr0 & Htr0 & Hw). exists tr0. split; [|done].
      rewrite Er', lookup_insert_ne; [done|]. intros E. by rewrite <- E, Frid in Htr0.
  - rewrite Er'. by apply live_identity_insert.
Qed.

Lemma edge_states state state' :
  (state, state') ∈ ticket_edges -> 0 <= state' <= 7 /\ state' <> TICKET_SUPERSEDED.
Proof.
  rewrite list_elem_of_In. intros H. simpl in H.
  unfold TICKET_SPONSORED, TICKET_RESOLVED, TICKET_BLOCKED, TICKET_IN_FLIGHT, TICKET_REJECTED,
    TICKET_DELIVERED, TICKET_PROPOSED, TICKET_SUPERSEDED in *.
  repeat destruct H as [[= <- <-]|H]; try done; lia.
Qed.

Lemma moved_tickets db id tr' t :
  tickets (moved db id tr' t) = <[tr_ticket_id (tr_contract tr') := {|
      t_application_revision_id := t_application_revision_id t;
      t_lifecycle := tr_lifecycle tr';
      t_current_ticket_revision_id := t_current_ticket_revision_id t;
      t_revision := tr_revision tr' |}]> (tickets db).
Proof. reflexivity. Qed.

Lemma tickets_wf_moved db id state state' tr t tr' :
  ticket_at db id state tr t -> next_state tr tr' state' -> (state, state') ∈ ticket_edges ->
  ticket_revisions_live_reproducer_identity id tr' db = true ->
  tickets_wf db -> forall db',
  tickets db' = tickets (moved db id tr' t) ->
  ticket_revisions db' = <[id := tr']> (ticket_revisions db) -> tickets_wf db'.
Proof.
  intros [Htr Htk Hc Hs Hts Hrev Hn] (Ec & El & Er) Hedge Hlive [Hr Ht Hu] db' Et' Er'.
  rewrite moved_tickets, Ec in Et'. apply edge_states in Hedge as [Hrange Hsup].
  destruct (Hr id tr Htr) as (t1 & Ht1 & _ & Eapp & _). rewrite Htk in Ht1. injection Ht1 as <-.
  constructor.
  - intros j w. rewrite Er'. intros [[<- <-]|[Hne Hj]]%lookup_insert_Some.
    + eexists. rewrite Et', Ec, lookup_insert_eq. cbn. rewrite El, Er. repeat split; (done || lia).
    + destruct (Hr j w Hj) as (t0 & Ht0 & Hcur & Hw). exists t0. split; [|done].
      rewrite Et', lookup_insert_ne; [done|]. intros E. rewrite <- E in Ht0. congruence.
  - intros j w. rewrite Et'. intros [[<- <-]|[Hne Hj]]%lookup_insert_Some.
    + exists tr'. cbn. by rewrite Er', Hc, lookup_insert_eq, Ec.
    + destruct (Ht j w Hj) as (tr0 & Htr0 & Hw). exists tr0. split; [|done].
      rewrite Er', lookup_insert_ne; [done|]. intros E. rewrite <- E in Htr0. congruence.
  - rewrite Er'. by apply live_identity_insert.
Qed.

Lemma transition_tickets_wf db db' : transition db db' -> tickets_wf db -> tickets_wf db'.
Proof.
  intros [Et Er|tr t|id tr t tr' s s']%transition_tickets Hwf.
  - destruct Hwf. constructor; unfold revision_ok, ticket_ok; rewrite ?Et, ?Er; done.
  - by eapply tickets_wf_proposed.
  - by eapply tickets_wf_moved.
Qed.

(** * Attempts stay well formed *)

Lemma custody_of_Some a id :
  custody_of a = Some id <-> ta_released_at a = None /\ ta_ticket_revision_id (ta_claim a) = id.
Proof.
  unfold custody_of. destruct (ta_released_at a); split; [done|by intros [? ?]|by intros [= <-]|].
  by intros [_ <-].
Qed.

Lemma custody_of_same a a' :
  ta_claim a' = ta_claim a -> ta_released_at a' = ta_released_at a -> custody_of a' = custody_of a.
Proof. unfold custody_of. by intros -> ->. Qed.

Section attempts.
  Variables db db' : Database.
  Hypothesis Hcampaigns : table_extends campaign_advances (campaigns db) (campaigns db').
  Hypothesis Hwf : attempts_wf db.

(** An attempt whose ticket revision kept its contract. *)
Lemma attempt_ok_revision a tr tr' :
  attempt_ok db a ->
  ticket_revisions db !! ta_ticket_revision_id (ta_claim a) = Some tr ->
  ticket_revisions db' !! ta_ticket_revision_id (ta_claim a) = Some tr' ->
  tr_contract tr' = tr_contract tr ->
  (ta_released_at a = None -> in_custody (tr_lifecycle tr')) ->
  (ta_stage a = ATTEMPT_DELIVERED -> tr_lifecycle tr' = TICKET_DELIVERED) ->
  attempt_ok db' a.
Proof.
  intros (tr0 & c & Htr & Hc & Happ & Hw & Hr & _) Htr0 Htr' Ec Hcust Hdel.
  rewrite Htr0 in Htr. injection Htr as ->.
  destruct (Hcampaigns _ _ Hc) as (c' & Hc' & Eapp & _).
  exists tr', c'. rewrite Ec, Eapp. done.
Qed.

Lemma attempt_ok_same_revisions a :
  ticket_revisions db' = ticket_revisions db -> attempt_ok db a -> attempt_ok db' a.
Proof.
  intros Er Ha. pose proof Ha as (tr & _ & Htr & _ & _ & _ & _ & Hcust & Hdel).
  eapply attempt_ok_revision; try done. by rewrite Er.
Qed.

Lemma attempts_wf_same :
  ticket_revisions db' = ticket_revisions db -> ticket_attempts db' = ticket_attempts db ->
  attempts_wf db'.
Proof.
  intros Er Ea. destruct Hwf as [Ha Hu Hh Ho]. constructor; rewrite ?Er, ?Ea; try done.
  - intros i a Hi. eapply attempt_ok_same_revisions; [done|]. by eapply Ha.
Qed.

(** An attempt row changes and its ticket does not. *)
Lemma attempts_wf_update id a a' :
  ticket_revisions db' = ticket_revisions db ->
  ticket_attempts db !! id = Some a -> ticket_attempts db' = <[id := a']> (ticket_attempts db) ->
  ta_claim a' = ta_claim a -> ta_released_at a' = ta_released_at a ->
  ta_revision a' = ta_revision a + 1 -> 0 <= ta_rework_ordinal a' <= 1 ->
  ta_stage a' <> ATTEMPT_DELIVERED -> attempts_wf db'.
Proof.
  intros Er Hid Ea Ec Erel Erev Hw Hs. destruct Hwf as [Ha Hu Hh Ho].
  pose proof (custody_of_same _ _ Ec Erel) as Ecust.
  constructor; rewrite ?Er, ?Ea; try done.
  - intros i b [[<- <-]|[Hne Hi]]%lookup_insert_Some.
    + apply attempt_ok_same_revisions; [done|].
      destruct (Ha id a Hid) as (tr & c & H1 & H2 & H3 & H4 & H5 & H6 & H7).
      exists tr, c. rewrite Ec, Erel. repeat split; (done || lia).
    + eapply attempt_ok_same_revisions; [done|]. by eapply Ha.
  - eapply table_unique_update; [done|exact Hid|by left].
  - intros rid tr Htr Hl. destruct (Hh rid tr Htr Hl) as (i & b & Hi & Hb).
    destruct (decide (i = id)) as [->|Hne].
    + exists id, a'. rewrite lookup_insert_eq. split; [done|]. congruence.
    + exists i, b. by rewrite lookup_insert_ne.
Qed.

(** An in-flight ticket and its attempt move together. *)
Lemma attempts_wf_leave id a a' tr tr' state' :
  let rid := ta_ticket_revision_id (ta_claim a) in
  ticket_attempts db !! id = Some a -> ticket_revisions db !! rid = Some tr ->
  tr_lifecycle tr = TICKET_IN_FLIGHT -> next_state tr tr' state' ->
  ticket_attempts db' = <[id := a']> (ticket_attempts db) ->
  ticket_revisions db' = <[rid := tr']> (ticket_revisions db) ->
  ta_claim a' = ta_claim a -> ta_revision a' = ta_revision a + 1 ->
  0 <= ta_rework_ordinal a' <= 1 -> state' <> TICKET_IN_FLIGHT ->
  (in_custody state' /\ ta_released_at a' = ta_released_at a \/
   ta_released_at a = None /\ is_Some (ta_released_at a')) ->
  (ta_stage a' = ATTEMPT_DELIVERED -> state' = TICKET_DELIVERED) ->
  attempts_wf db'.
Proof.
  intros rid Hid Htr Hl (Etc & Etl & _) Ea Er Ec Erev Hw Hs' Hrel Hdel. subst rid.
  destruct Hwf as [Ha Hu Hh Ho].
  assert (Hcustody : custody_of a' = custody_of a \/ custody_of a' = None).
  { destruct Hrel as [[_ E]|[_ [w E]]]; [left; by apply custody_of_same|right].
    unfold custody_of. by rewrite E. }
  constructor; rewrite ?Er, ?Ea.
  - intros i b [[<- <-]|[Hne Hi]]%lookup_insert_Some.
    + destruct (Ha id a Hid) as (tr0 & c & H1 & H2 & H3 & H4 & H5 & H6 & H7).
      rewrite Htr in H1. injection H1 as <-. destruct (Hcampaigns _ _ H2) as (c' & Hc' & Eapp & _).
      exists tr', c'. rewrite Er, Ec, lookup_insert_eq, Eapp, Etl, Etc.
      repeat split; try (done || lia).
      intros Hn. destruct Hrel as [[? _]|[_ [w E]]]; congruence.
    + pose proof (Ha i b Hi) as Hb. destruct (decide (ta_ticket_revision_id (ta_claim b) = ta_ticket_revision_id (ta_claim a))) as [E|E].
      * eapply attempt_ok_revision; [done|by rewrite E|by rewrite Er, E, lookup_insert_eq|done|..].
        -- intros Hn. rewrite Etl. destruct Hrel as [[? _]|[Hn' _]]; [done|].
           exfalso. apply Hne. eapply Hu; [exact Hid|exact Hi|..]; by apply custody_of_Some.
        -- intros Hd. destruct Hb as (tr0 & _ & H1 & _ & _ & _ & _ & _ & H7).
           rewrite E, Htr in H1. injection H1 as <-. rewrite H7 in Hl; done.
      * destruct Hb as (tr0 & c & H1 & H2 & H3 & H4 & H5 & H6 & H7).
        eapply attempt_ok_revision; [by exists tr0, c|exact H1|by rewrite Er, lookup_insert_ne|done..].
  - by eapply table_unique_update.
  - intros j w [[<- <-]|[Hne Hj]]%lookup_insert_Some Hw'; [congruence|].
    destruct (Hh j w Hj Hw') as (i & b & Hi & Hb). exists i, b. rewrite lookup_insert_ne; [done|].
    intros <-. rewrite Hid in Hi. injection Hi as <-. apply custody_of_Some in Hb as [_ Hb]. done.
  - eapply table_unique_update; [done|exact Htr|right]. unfold in_flight_of. rewrite Etl.
    by apply Z.eqb_neq in Hs' as ->.
Qed.

(** A ticket nobody has custody of is proposed or moves. *)
Lemma attempts_wf_outside rid tr' :
  (forall tr, ticket_revisions db !! rid = Some tr ->
     ~ in_custody (tr_lifecycle tr) /\ tr_contract tr' = tr_contract tr) ->
  tr_lifecycle tr' <> TICKET_IN_FLIGHT ->
  ticket_attempts db' = ticket_attempts db ->
  ticket_revisions db' = <[rid := tr']> (ticket_revisions db) -> attempts_wf db'.
Proof.
  intros Hout Hs' Ea Er. destruct Hwf as [Ha Hu Hh Ho].
  constructor; rewrite ?Er, ?Ea; try done.
  - intros i b Hi. pose proof (Ha i b Hi) as Hb.
    pose proof Hb as (tr0 & c & H1 & H2 & H3 & H4 & H5 & H6 & H7).
    destruct (decide (rid = ta_ticket_revision_id (ta_claim b))) as [->|Hne].
    + destruct (Hout tr0 H1) as [Hno Ec].
      eapply attempt_ok_revision; [done|done|by rewrite Er, lookup_insert_eq|done| |].
      * intros Hn. by destruct Hno; apply H6.
      * intros Hd. destruct Hno. right. left. by apply H7.
    + by eapply attempt_ok_revision; [done|done|rewrite Er, lookup_insert_ne| | |].
  - intros j w [[<- <-]|[Hne Hj]]%lookup_insert_Some Hw'; [done|]. by eapply Hh.
  - apply table_unique_insert; [done|]. intros j w x _ _. unfold in_flight_of at 1.
    by apply Z.eqb_neq in Hs' as ->.
Qed.

(** A sponsored ticket is claimed. *)
Lemma attempts_wf_claim rid a tr tr' campaign :
  ticket_revisions db !! rid = Some tr -> tr_lifecycle tr = TICKET_SPONSORED ->
  next_state tr tr' TICKET_IN_FLIGHT -> ta_ticket_revision_id (ta_claim a) = rid ->
  ta_stage a = ATTEMPT_ENGINEERING -> ta_released_at a = None ->
  ta_rework_ordinal a = 0 -> ta_revision a = 0 ->
  ticket_attempts_one_unreleased_revision a db = true ->
  campaigns db !! ta_campaign_id (ta_claim a) = Some campaign ->
  cmp_application_revision_id campaign = tr_application_revision_id (tr_contract tr) ->
  (forall j w, ticket_revisions db !! j = Some w ->
     in_flight_of w <> Some (tr_application_revision_id (tr_contract tr))) ->
  ticket_attempts db' = <[fresh_id (ticket_attempts db) := a]> (ticket_attempts db) ->
  ticket_revisions db' = <[rid := tr']> (ticket_revisions db) -> attempts_wf db'.
Proof.
  intros Htr Hl (Ec & El & _) Erid Hst Hrel Hw Hrev Hone Hc Happ Hnone Ea Er.
  destruct Hwf as [Ha Hu Hh Ho].
  assert (Hfree : forall i b, ticket_attempts db !! i = Some b -> custody_of b <> Some rid).
  { intros i b Hi [Hn Hb]%custody_of_Some. unfold ticket_attempts_one_unreleased_revision in Hone.
    bool_prop. rewrite exists_where_false in Hone. specialize (Hone i b Hi). cbv beta in Hone.
    rewrite bool_decide_true in Hone by done. apply Z.eqb_neq in Hone. congruence. }
  constructor; rewrite ?Er, ?Ea.
  - intros i b [[<- <-]|[Hne Hi]]%lookup_insert_Some.
    + destruct (Hcampaigns _ _ Hc) as (c' & Hc' & Eapp & _).
      exists tr', c'. rewrite Er, Erid, lookup_insert_eq, Hw, Hrev, Eapp, Ec, Hst, El.
      repeat split; try (done || lia). by left.
    + pose proof (Ha i b Hi) as Hb. pose proof Hb as (tr0 & c & H1 & H2 & H3 & H4 & H5 & H6 & H7).
      destruct (decide (rid = ta_ticket_revision_id (ta_claim b))) as [E|Hne'].
      * rewrite <- E, Htr in H1. injection H1 as <-.
        eapply attempt_ok_revision; [done|by rewrite <- E|by rewrite Er, <- E, lookup_insert_eq|done|..].
        -- intros Hn. by destruct (Hfree i b Hi); apply custody_of_Some.
        -- intros Hd. apply H7 in Hd. by rewrite Hd in Hl.
      * by eapply attempt_ok_revision; [done|done|rewrite Er, lookup_insert_ne| | |].
  - apply table_unique_fresh; [done|]. intros j w x Hj [_ Hx]%custody_of_Some.
    rewrite <- Hx, Erid. by eapply Hfree.
  - intros j w [[<- <-]|[Hne Hj]]%lookup_insert_Some Hw'.
    + exists (fresh_id (ticket_attempts db)), a. rewrite lookup_insert_eq. split; [done|].
      by apply custody_of_Some.
    + destruct (Hh j w Hj Hw') as (i & b & Hi & Hb). exists i, b. rewrite lookup_insert_ne; [done|].
      intros <-. by rewrite fresh_id_lookup in Hi.
  - apply table_unique_insert; [done|]. intros j w x Hne Hj. unfold in_flight_of at 1.
    rewrite El, Z.eqb_refl, Ec. intros [= <-]. by eapply Hnone.
Qed.
End attempts.

(** With no other ticket of the application in flight by the count of current
    revisions, there is none at all: every revision is current. *)
Lemma none_in_flight db application :
  tickets_wf db ->
  current_ticket_revision_count (Z.eqb application) TICKET_IN_FLIGHT db <= 0 ->
  forall j w, ticket_revisions db !! j = Some w -> in_flight_of w <> Some application.
Proof.
  intros [Hr _ _] Hcount j w Hj Hw. unfold current_ticket_revision_count in Hcount.
  rewrite count_where_zero in Hcount. specialize (Hcount j w Hj). cbv beta in Hcount.
  destruct (Hr j w Hj) as (t & Ht & Hcur & _). rewrite Ht, Hcur, Z.eqb_refl in Hcount.
  unfold in_flight_of in Hw. destruct (tr_lifecycle w =? TICKET_IN_FLIGHT); [|done].
  injection Hw as Hw. by rewrite Hw, Z.eqb_refl in Hcount.
Qed.

Lemma outside_custody (state state' : Z) l :
  (state, state') ∈ l ->
  forallb (fun e => negb (existsb (Z.eqb (fst e)) [TICKET_IN_FLIGHT; TICKET_DELIVERED;
                                                   TICKET_REJECTED])
                    && negb (snd e =? TICKET_IN_FLIGHT)) l = true ->
  ~ in_custody state /\ state' <> TICKET_IN_FLIGHT.
Proof.
  rewrite list_elem_of_In, forallb_forall. intros Hin Hall. apply Hall in Hin. cbn in Hin.
  bool_prop. unfold in_custody. lia.
Qed.

(** The rework ordinal of a rewritten attempt stays in its range. *)
Lemma rework_range db id a a' :
  attempts_wf db -> ticket_attempts db !! id = Some a ->
  ta_rework_ordinal a' = ta_rework_ordinal a -> 0 <= ta_rework_ordinal a' <= 1.
Proof.
  intros Hwf Hid ->. by destruct (aw_attempt _ Hwf id a Hid) as (_ & _ & _ & _ & _ & ? & _).
Qed.

Ltac attempt_row :=
  repeat match goal with
  | H : attempt_at _ _ _ _ _ _ |- _ => destruct H as [? ?]
  | H : attempt_keeps _ _ |- _ => destruct H as (? & ? & ?)
  end.

Lemma transition_attempts_wf db db' :
  transition db db' -> tickets_wf db -> attempts_wf db -> attempts_wf db'.
Proof.
  intros Hstep Htw Hwf. pose proof (ex_campaigns _ _ (transition_extends _ _ Hstep)) as Hc.
  destruct Hstep; attempt_row.
  - by eapply attempts_wf_same; [done|done|destruct H..].
  - by eapply attempts_wf_same.
  - by eapply attempts_wf_same.
  - eapply attempts_wf_outside; [done|done| | |done|done].
    + intros tr0. unfold revision_id. by rewrite fresh_id_lookup.
    + by rewrite H2.
  - destruct (outside_custody _ _ _ H1) as [Hout Hin]; [reflexivity|].
    destruct H as [Htr _ _ <- _ _ _], H0 as (Ec & El & _).
    eapply attempts_wf_outside; [done|done| | |done|done]; [|by rewrite El].
    intros tr0. rewrite Htr. by intros [= <-].
  - eapply attempts_wf_claim; [done|done|apply H|apply H|done..| |done|done].
    by eapply none_in_flight.
  - eapply attempts_wf_update; try done. by eapply rework_range.
  - eapply (attempts_wf_leave db _ Hc Hwf attempt_id a a' tr tr' state'); try done;
      [apply aa_ticket|apply aa_ticket|by eapply rework_range|..].
    + rewrite list_elem_of_In in H8. by destruct H8 as [<-|[<-|[<-|[]]]].
    + by right.
    + rewrite H3, list_elem_of_In in *. intros E. rewrite E in H1. by destruct H1 as [|[|[]]].
  - eapply attempts_wf_update; try done; [by eapply rework_range|].
    rewrite list_elem_of_In in H3. by destruct H3 as [<-|[<-|[]]].
  - eapply attempts_wf_update; try done. by eapply rework_range.
  - by eapply attempts_wf_same.
  - eapply attempts_wf_update; try done; [by eapply rework_range|]. by rewrite H2, H1.
  - match goal with Hk : _ \/ _ |- _ => destruct Hk as [(_ & _ & Hs & Hw & ->)|
      [(_ & _ & Hs & Hw0 & Hw & ->)|(_ & _ & Hs & Hw & tr' & Hn & Hl & ->)]] end.
    + eapply attempts_wf_update; try done; [by eapply rework_range|by rewrite Hs].
    + eapply attempts_wf_update; try done; [lia|by rewrite Hs].
    + eapply attempts_wf_leave; try done; [apply aa_ticket|apply aa_ticket|..].
      * by eapply rework_range.
      * left. split; [by right; right|done].
      * by rewrite Hs.
  - eapply attempts_wf_leave; try done; [apply aa_ticket|apply aa_ticket|..].
    + by eapply rework_range.
    + left. split; [by right; left|done].
  - by eapply attempts_wf_same.
Qed.

(** * Evidence stays well formed *)

Lemma has_passed_extends db db' id scope :
  extends db db' -> has_passed db id scope -> has_passed db' id scope.
Proof.
  intros Hx (i & v & Hv & H). exists i, v. split; [|done].
  by eapply lookup_weaken, ex_validations.
Qed.

Lemma delivery_approved_extends db db' id :
  extends db db' -> delivery_approved db id -> delivery_approved db' id.
Proof.
  intros Hx (i & d & Hd & H). exists i, d. split; [|done]. by eapply lookup_weaken, ex_decisions.
Qed.

(** The final states of a candidate are kept. *)
Lemma candidate_decided l l' :
  candidate_lifecycle_advances l l' ->
  (l = CANDIDATE_DELIVERED -> l' = CANDIDATE_DELIVERED) /\
  (l = CANDIDATE_REJECTED -> l' = CANDIDATE_REJECTED) /\
  (l = CANDIDATE_ACCEPTED -> l' = CANDIDATE_ACCEPTED \/ l' = CANDIDATE_DELIVERED).
Proof.
  unfold candidate_lifecycle_advances, CANDIDATE_SUBMITTED, CANDIDATE_VALIDATED,
    CANDIDATE_REJECTED, CANDIDATE_ACCEPTED, CANDIDATE_DELIVERED. lia.
Qed.

Lemma validation_ok_extends db db' v : extends db db' -> validation_ok db v -> validation_ok db' v.
Proof.
  intros Hx (c & a & cmp & Hc & Ht & Ha & Hcmp & Hb).
  destruct (ex_candidates _ _ Hx _ _ Hc) as (c' & Hc' & [Ee _ _ _ _]).
  destruct (ex_ticket_attempts _ _ Hx _ _ Ha) as (a' & Ha' & [Ec _ _ _ _]).
  destruct (ex_campaigns _ _ Hx _ _ Hcmp) as (cmp' & Hcmp' & _ & Ek).
  exists c', a', cmp'. by rewrite Ee, Ec, Ek.
Qed.

Lemma review_ok_extends db db' r : extends db db' -> review_ok db r -> review_ok db' r.
Proof.
  intros Hx (v & Hv & H). exists v. split; [|done]. by eapply lookup_weaken, ex_validations.
Qed.

Lemma verdict_ok_extends db db' d id :
  extends db db' -> verdict_ok db d id -> verdict_ok db' d id.
Proof.
  intros Hx (rid & r & c & Hrid & Hr & Hrc & H0 & H1 & Hov & Hshape & Hc & [w Hw] & Hl).
  destruct (ex_candidates _ _ Hx _ _ Hc) as (c' & Hc' & [_ Hcommit _ _ Hadv]).
  apply candidate_decided in Hadv as (HD & HR & HA).
  exists rid, r, c'. repeat split; try done.
  - by eapply lookup_weaken, ex_reviews.
  - by eapply has_passed_extends.
  - by eapply has_passed_extends.
  - exists w. auto.
  - destruct Hl as [[? [?|?]]|[? ?]]; [left|left|right]; (split; [done|auto]).
Qed.

Lemma decision_ok_extends db db' d : extends db db' -> decision_ok db d -> decision_ok db' d.
Proof.
  intros Hx. unfold decision_ok. destruct (d_candidate_id d); [|done]. by apply verdict_ok_extends.
Qed.

Lemma delivery_ok_extends db db' d : extends db db' -> delivery_ok db d -> delivery_ok db' d.
Proof.
  intros Hx (c & Hc & Hl & Hcommit & Hb & Ht).
  destruct (ex_candidates _ _ Hx _ _ Hc) as (c' & Hc' & [Ee Hcm _ _ Hadv]).
  apply candidate_decided in Hadv as (HD & _ & _).
  exists c'. rewrite Ee. auto.
Qed.

(** A delivered attempt is never touched again. *)
Lemma delivered_attempt_kept db db' i a :
  transition db db' -> attempts_wf db -> ticket_attempts db !! i = Some a ->
  ta_stage a = ATTEMPT_DELIVERED -> ticket_attempts db' !! i = Some a.
Proof.
  intros [->|a0 -> _ _ _|id a0 a1 Hid -> _ _ _ Hbusy]%transition_attempts Hwf Hi Hs; [done|..].
  - rewrite lookup_insert_ne; [done|]. intros <-. by rewrite fresh_id_lookup in Hi.
  - destruct (decide (id = i)) as [->|]; [|by rewrite lookup_insert_ne].
    rewrite Hid in Hi. injection Hi as ->. rewrite Hs in Hbusy.
    destruct Hbusy as [|(tr & t & [Htr _ _ Hl _ _ _])]; [done|].
    destruct (aw_attempt _ Hwf i a Hid) as (tr0 & _ & Htr0 & _ & _ & _ & _ & _ & Hdel).
    rewrite Htr0 in Htr. injection Htr as ->. by rewrite Hdel in Hl.
Qed.

Section evidence.
  Variables db db' : Database.
  Hypothesis Hstep : transition db db'.
  Hypothesis Haw : attempts_wf db.
  Hypothesis Hew : evidence_wf db.

Lemma step_extends : extends db db'.
Proof. by apply transition_extends. Qed.

(** What a candidate row must bring when it is kept or rewritten. *)
Lemma candidate_ok_step id c c' :
  candidates db !! id = Some c -> c_evidence c' = c_evidence c -> 0 <= c_lifecycle c' <= 4 ->
  (c_lifecycle c' ∈ [CANDIDATE_VALIDATED; CANDIDATE_ACCEPTED; CANDIDATE_DELIVERED] ->
   has_passed db' id 0) ->
  (c_lifecycle c' ∈ [CANDIDATE_ACCEPTED; CANDIDATE_DELIVERED] ->
   has_passed db' id 1 /\ is_Some (c_candidate_commit c') /\ delivery_approved db' id) ->
  (c_lifecycle c' = CANDIDATE_DELIVERED ->
   (exists a', ticket_attempts db' !! c_ticket_attempt_id (c_evidence c) = Some a' /\
      ta_stage a' = ATTEMPT_DELIVERED) /\
   exists i d, deliveries db' !! i = Some d /\ dl_candidate_id d = id) ->
  candidate_ok db' id c'.
Proof.
  intros Hid Ee Hrange Hv Ha Hd.
  destruct (ew_candidate _ Hew id c Hid) as (a & Hat & Hb & Ht & Hdiff & _).
  destruct (ex_ticket_attempts _ _ step_extends _ _ Hat) as (a' & Hat' & [Ec _ _ _ _]).
  exists a'. rewrite Ee, Ec. repeat split; try done; try lia; try (by apply Ha).
  - destruct (Hd H) as [(a2 & Ha2 & Hs) _]. congruence.
  - by apply Hd.
Qed.

Lemma candidate_ok_kept id c : candidates db !! id = Some c -> candidate_ok db' id c.
Proof.
  intros Hid. destruct (ew_candidate _ Hew id c Hid) as (a & Hat & _ & _ & _ & Hl & Hv & Ha & Hd).
  eapply candidate_ok_step; try done.
  - intros H. eapply has_passed_extends; [apply step_extends|auto].
  - intros H. destruct (Ha H) as (? & ? & ?). repeat split; [|done|].
    + by eapply has_passed_extends; [apply step_extends|].
    + by eapply delivery_approved_extends; [apply step_extends|].
  - intros H. destruct (Hd H) as (Hs & i & d & Hi & Hdid). split.
    + exists a. split; [|done]. by eapply delivered_attempt_kept.
    + exists i, d. split; [|done]. by eapply lookup_weaken, ex_deliveries, step_extends.
Qed.

Lemma candidates_kept :
  candidates db' = candidates db -> map_Forall (candidate_ok db') (candidates db').
Proof. intros -> id c Hid. by apply candidate_ok_kept. Qed.

Lemma candidates_updated id c' :
  candidates db' = <[id := c']> (candidates db) -> candidate_ok db' id c' ->
  map_Forall (candidate_ok db') (candidates db').
Proof.
  intros -> Hok j w [[<- <-]|[_ Hj]]%lookup_insert_Some; [done|]. by apply candidate_ok_kept.
Qed.

(** Rows of a grown ledger, old and new. *)
Lemma ledger_grown {V} (P Q : V -> Prop) (m : gmap Z V) v :
  (forall w, P w -> Q w) -> map_Forall (fun _ w => P w) m -> Q v ->
  map_Forall (fun _ w => Q w) (<[fresh_id m := v]> m).
Proof. intros HPQ Hm Hv j w [[<- <-]|[_ Hj]]%lookup_insert_Some; [done|]. by eapply HPQ, Hm. Qed.

Lemma ledger_kept {V} (P Q : V -> Prop) (m m' : gmap Z V) :
  m' = m -> (forall w, P w -> Q w) -> map_Forall (fun _ w => P w) m ->
  map_Forall (fun _ w => Q w) m'.
Proof. intros -> HPQ Hm j w Hj. by eapply HPQ, Hm. Qed.
End evidence.

(** Small membership goals over the code lists. *)
Ltac code_cases :=
  repeat match goal with
  | H : _ ∈ _ :: _ |- _ => apply elem_of_cons in H as [?|H]
  | H : _ ∈ [] |- _ => by apply not_elem_of_nil in H
  | H : (_, _) = (_, _) |- _ => injection H as ? ?
  end.

(** Two different codes for one column. *)
Ltac code_clash :=
  match goal with A : ?x = _, B : ?x = _ |- _ => rewrite A in B; discriminate B end.

Lemma candidate_range db id c :
  evidence_wf db -> candidates db !! id = Some c -> 0 <= c_lifecycle c <= 4.
Proof. intros Hew Hid. by destruct (ew_candidate _ Hew id c Hid) as (? & _ & _ & _ & _ & ? & _). Qed.

Lemma candidate_validated_hard db id c :
  evidence_wf db -> candidates db !! id = Some c -> c_lifecycle c = CANDIDATE_VALIDATED ->
  has_passed db id 0.
Proof.
  intros Hew Hid Hl. destruct (ew_candidate _ Hew id c Hid) as (? & _ & _ & _ & _ & _ & Hv & _).
  apply Hv. rewrite Hl. apply list_elem_of_here.
Qed.

(** The validation row a recorded validation added. *)
Lemma has_passed_fresh db db' v :
  validations db' = <[fresh_id (validations db) := v]> (validations db) ->
  v_lifecycle v = VALIDATION_PASSED -> has_passed db' (v_candidate_id v) (v_validation_scope v).
Proof.
  intros E Hl. exists (fresh_id (validations db)), v. by rewrite E, lookup_insert_eq.
Qed.

Lemma submitted_candidate_ok db db' id c a' :
  ticket_attempts db' !! c_ticket_attempt_id (c_evidence c) = Some a' ->
  c_base_commit (c_evidence c) = ta_claimed_commit (ta_claim a') ->
  c_base_tree (c_evidence c) = ta_claimed_tree (ta_claim a') ->
  candidate_trees_differ (c_evidence c) = true -> c_lifecycle c = CANDIDATE_SUBMITTED ->
  candidates db' = <[fresh_id (candidates db) := c]> (candidates db) -> candidate_ok db' id c.
Proof.
  intros Ha Hb Ht Hd Hl _. exists a'. rewrite Hl. unfold CANDIDATE_SUBMITTED.
  repeat split; try done; intros; code_cases; done.
Qed.

(** A rewrite that only counts a review. *)
Lemma reviewed_candidate_ok db db' id c c' :
  transition db db' -> attempts_wf db -> evidence_wf db ->
  candidates db !! id = Some c -> c_evidence c' = c_evidence c ->
  c_lifecycle c' = c_lifecycle c -> c_candidate_commit c' = c_candidate_commit c ->
  candidate_ok db' id c'.
Proof.
  intros Hstep Haw Hew Hid Ee El Ec.
  destruct (candidate_ok_kept db db' Hstep Haw Hew id c Hid) as (a & H).
  exists a. by rewrite Ee, El, Ec.
Qed.

(** The decision row a verdict added. *)
Lemma delivery_approved_insert (db db' : Database) id d candidate_id :
  architect_decisions db' = <[id := d]> (architect_decisions db) ->
  d_candidate_id d = Some candidate_id -> d_decision_kind d = DECISION_DELIVER ->
  delivery_approved db' candidate_id.
Proof. intros E Hc Hk. exists id, d. by rewrite E, lookup_insert_eq. Qed.

Lemma verdict_candidate_ok db db' id c c' :
  transition db db' -> attempts_wf db -> evidence_wf db ->
  candidates db !! id = Some c -> c_evidence c' = c_evidence c ->
  c_candidate_commit c' = c_candidate_commit c ->
  has_passed db id 0 -> has_passed db id 1 -> is_Some (c_candidate_commit c) ->
  (c_lifecycle c' = CANDIDATE_ACCEPTED /\ delivery_approved db' id \/
   c_lifecycle c' = CANDIDATE_REJECTED) ->
  candidate_ok db' id c'.
Proof.
  intros Hstep Haw Hew Hid Ee Ec H0 H1 Hcommit Hl.
  pose proof (transition_extends _ _ Hstep) as Hx.
  eapply candidate_ok_step; try done; destruct Hl as [[-> Hd]| ->]; intros; try done;
    try (by code_cases).
  - by eapply has_passed_extends.
  - split; [by eapply has_passed_extends|]. by rewrite Ec.
Qed.

Lemma delivered_candidate_ok db db' id c c' a' i d :
  transition db db' -> attempts_wf db -> evidence_wf db ->
  candidates db !! id = Some c -> c_lifecycle c = CANDIDATE_ACCEPTED ->
  c_evidence c' = c_evidence c -> c_candidate_commit c' = c_candidate_commit c ->
  c_lifecycle c' = CANDIDATE_DELIVERED ->
  ticket_attempts db' !! c_ticket_attempt_id (c_evidence c) = Some a' ->
  ta_stage a' = ATTEMPT_DELIVERED -> deliveries db' !! i = Some d -> dl_candidate_id d = id ->
  candidate_ok db' id c'.
Proof.
  intros Hstep Haw Hew Hid Hl Ee Ec Hl' Ha' Hs Hi Hd.
  pose proof (transition_extends _ _ Hstep) as Hx.
  destruct (ew_candidate _ Hew id c Hid) as (a & _ & _ & _ & _ & _ & Hv & Hacc & _).
  rewrite Hl in Hv, Hacc.
  destruct Hacc as (H1 & Hcommit & Happroved); [apply list_elem_of_here|].
  eapply candidate_ok_step; try done; rewrite Hl'; [done|intros _..].
  - eapply has_passed_extends; [done|]. apply Hv. apply list_elem_of_further, list_elem_of_here.
  - rewrite Ec. split; [by eapply has_passed_extends|].
    split; [done|by eapply delivery_approved_extends].
  - split; [by exists a'|by exists i, d].
Qed.

Lemma candidates_step db db' :
  transition db db' -> attempts_wf db -> evidence_wf db ->
  map_Forall (candidate_ok db') (candidates db').
Proof.
  intros Hstep Haw Hew. pose proof Hstep as Hs.
  pose proof (transition_extends _ _ Hstep) as Hx.
  destruct Hstep; try (by apply (candidates_kept db)).
  - apply (candidates_kept db); try done. by destruct H.
  - eapply (candidates_updated db); try done.
    destruct H1 as (Ec & _). apply (submitted_candidate_ok db _ _ c a'); rewrite ?Ec; try done.
    rewrite H4. apply lookup_insert_eq.
  - eapply (candidates_updated db); try done. eapply (candidate_ok_step db); try done.
    all: match goal with E : c_lifecycle _ = (if _ then _ else _) |- _ => rewrite E in * end.
    all: destruct (Z.eqb_spec (v_lifecycle v) VALIDATION_PASSED) as [Hp|];
      [|by intros; code_cases].
    + done.
    + intros _. pose proof (has_passed_fresh db (put_attempt
        (put_candidate (set_validations (<[validation_id := v]> (validations db)) db) candidate_id c')
        (c_ticket_attempt_id (c_evidence c)) a') v eq_refl Hp) as Hpass.
      code_cases; [congruence|].
      eapply has_passed_extends; [exact Hx|]. by eapply candidate_validated_hard.
    + by intros; code_cases.
    + done.
  - eapply (candidates_updated db); try done. eapply (candidate_ok_step db); try done.
    all: match goal with E : c_lifecycle _ = c_lifecycle _, F : c_lifecycle _ = CANDIDATE_VALIDATED |- _ =>
      rewrite E, F end.
    + done.
    + intros _. eapply has_passed_extends; [exact Hx|]. by eapply candidate_validated_hard.
    + by intros; code_cases.
    + done.
  - eapply (candidates_updated db); try done. eapply (reviewed_candidate_ok db); try done.
  - assert (Hc : candidates db' = candidates db).
    { match goal with Hk : _ \/ _ |- _ =>
        by destruct Hk as [(_ & _ & _ & _ & ->)|[(_ & _ & _ & _ & _ & ->)|(_ & _ & _ & _ & ? & _ & _ & ->)]]
      end. }
    eapply (candidates_updated db); [done..| |].
    { transitivity (<[candidate_id := c']> (candidates db')); [done|by rewrite Hc]. }
    eapply (verdict_candidate_ok db); try done.
    match goal with Hk : _ \/ _ |- _ => destruct Hk as [(Hk & El & _)|[(_ & El & _)|(_ & El & _)]] end;
      [left|by right|by right].
    split; [done|]. by eapply (delivery_approved_insert db).
  - eapply (candidates_updated db); try done.
    eapply (delivered_candidate_ok db _ _ c c' a' _ d); try done; apply lookup_insert_eq.
Qed.

(** A ledger whose rows are judged by [ok] under the key [key]. *)
Definition ledger {V K} (ok : V -> Prop) (key : V -> option K) (m : gmap Z V) : Prop :=
  map_Forall (fun _ v => ok v) m /\ table_unique key m.

Lemma ledger_same {V K} (P Q : V -> Prop) (key : V -> option K) (m m' : gmap Z V) :
  (forall v, P v -> Q v) -> ledger P key m -> m' = m -> ledger Q key m'.
Proof. intros HPQ [Hm Hu] ->. split; [|done]. by eapply ledger_kept. Qed.

Lemma ledger_insert {V K} (P Q : V -> Prop) (key : V -> option K) (m m' : gmap Z V) v :
  (forall v, P v -> Q v) -> ledger P key m -> m' = <[fresh_id m := v]> m -> Q v ->
  (forall j w x, m !! j = Some w -> key v = Some x -> key w <> Some x) -> ledger Q key m'.
Proof.
  intros HPQ [Hm Hu] -> Hv Hk. split; [by eapply ledger_grown|by apply table_unique_fresh].
Qed.

Lemma validations_step db db' :
  transition db db' -> evidence_wf db ->
  ledger (validation_ok db') (fun v => Some (v_candidate_id v, v_validation_scope v))
    (validations db').
Proof.
  intros Hstep Hew. pose proof (transition_extends _ _ Hstep) as Hx.
  pose proof (fun v => validation_ok_extends db db' v Hx) as Hmono.
  pose proof (conj (ew_validation _ Hew) (ew_validation_once _ Hew) : ledger _ _ _) as Hl.
  destruct Hstep; try (by eapply ledger_same).
  - eapply ledger_same; [exact Hmono|exact Hl|]. by destruct H.
  - eapply ledger_insert; [exact Hmono|exact Hl|done| |].
    + apply Hmono. destruct H0 as [Ha _]. rewrite <- H2 in H. by exists c, a, campaign.
    + intros j w x Hj [= <-] [= E1 E2]. eapply H6; [exact Hj|congruence|done].
  - match goal with Hk : _ \/ _ |- _ =>
      destruct Hk as [(_ & _ & _ & _ & ->)|[(_ & _ & _ & _ & _ & ->)|(_ & _ & _ & _ & ? & _ & _ & ->)]]
    end; by eapply ledger_same.
Qed.

Lemma reviews_step db db' :
  transition db db' -> evidence_wf db ->
  ledger (review_ok db') (fun r => Some (r_candidate_id r)) (reviews db').
Proof.
  intros Hstep Hew. pose proof (transition_extends _ _ Hstep) as Hx.
  pose proof (fun v => review_ok_extends db db' v Hx) as Hmono.
  pose proof (conj (ew_review _ Hew) (ew_review_once _ Hew) : ledger _ _ _) as Hl.
  destruct Hstep; try (by eapply ledger_same).
  - eapply ledger_same; [exact Hmono|exact Hl|]. by destruct H.
  - eapply ledger_insert; [exact Hmono|exact Hl|done| |].
    + apply Hmono. exists v. by repeat split; try congruence.
    + intros j w x Hj [= <-] [= E]. by eapply H10; [exact Hj|congruence].
  - match goal with Hk : _ \/ _ |- _ =>
      destruct Hk as [(_ & _ & _ & _ & ->)|[(_ & _ & _ & _ & _ & ->)|(_ & _ & _ & _ & ? & _ & _ & ->)]]
    end; by eapply ledger_same.
Qed.

(** A decided candidate is no longer awaiting a verdict. *)
Lemma decided_candidate db j w id c :
  evidence_wf db -> architect_decisions db !! j = Some w -> d_candidate_id w = Some id ->
  candidates db !! id = Some c -> c_lifecycle c <> CANDIDATE_VALIDATED.
Proof.
  intros Hew Hj Hw Hc. pose proof (ew_decision _ Hew j w Hj) as Hok.
  unfold decision_ok in Hok. rewrite Hw in Hok.
  destruct Hok as (_ & _ & c0 & _ & _ & _ & _ & _ & _ & _ & Hc0 & _ & Hl).
  rewrite Hc in Hc0. injection Hc0 as <-.
  destruct Hl as [[_ [->| ->]]|[_ ->]]; done.
Qed.

Lemma verdict_ok_decided db db' d id c' r rid :
  extends db db' -> d_review_id d = Some rid -> reviews db !! rid = Some r ->
  r_candidate_id r = id -> has_passed db id 0 -> has_passed db id 1 ->
  d_overrides_quality_rejection d = (r_verdict r =? REVIEW_REJECT) ->
  decision_override_shape d = true ->
  candidates db' !! id = Some c' -> is_Some (c_candidate_commit c') ->
  ((d_decision_kind d = DECISION_DELIVER /\
    (c_lifecycle c' = CANDIDATE_ACCEPTED \/ c_lifecycle c' = CANDIDATE_DELIVERED)) \/
   (d_decision_kind d ∈ [DECISION_REWORK; DECISION_REJECT] /\
    c_lifecycle c' = CANDIDATE_REJECTED)) ->
  verdict_ok db' d id.
Proof.
  intros Hx Hrid Hr Hrc H0 H1 Hov Hshape Hc Hcommit Hl. exists rid, r, c'.
  repeat split; try done.
  - by eapply lookup_weaken, ex_reviews.
  - by eapply has_passed_extends.
  - by eapply has_passed_extends.
  - intros E. unfold decision_override_shape in Hshape. rewrite E in Hshape. by apply Z.eqb_eq.
Qed.

Lemma decisions_step db db' :
  transition db db' -> evidence_wf db ->
  ledger (decision_ok db') d_candidate_id (architect_decisions db').
Proof.
  intros Hstep Hew. pose proof (transition_extends _ _ Hstep) as Hx.
  pose proof (fun v => decision_ok_extends db db' v Hx) as Hmono.
  pose proof (conj (ew_decision _ Hew) (ew_decision_once _ Hew) : ledger _ _ _) as Hl.
  destruct Hstep; try (by eapply ledger_same).
  - eapply ledger_same; [exact Hmono|exact Hl|]. by destruct H.
  - eapply ledger_insert; [exact Hmono|exact Hl|done| |].
    + unfold decision_ok. by rewrite H.
    + intros j w x _. by rewrite H.
  - eapply ledger_insert; [exact Hmono|exact Hl|done| |].
    + unfold decision_ok. rewrite H8. destruct H6 as (rid & Hrid & Hr).
      eapply (verdict_ok_decided db _ d candidate_id c' r rid); try done.
      * apply lookup_insert_eq.
      * congruence.
      * match goal with Hk : _ \/ _ |- _ =>
          destruct Hk as [(Ek & El & _)|[(Ek & El & _)|(Ek & El & _)]] end; rewrite Ek, El;
          [left; auto|right; split; [|done]..].
        -- apply list_elem_of_here.
        -- apply list_elem_of_further, list_elem_of_here.
    + intros j w x Hj Hx' Hw. rewrite H8 in Hx'. injection Hx' as <-.
      by eapply decided_candidate.
Qed.

Lemma deliveries_step db db' :
  transition db db' -> evidence_wf db ->
  ledger (delivery_ok db') (fun d => Some (dl_candidate_id d)) (deliveries db').
Proof.
  intros Hstep Hew. pose proof (transition_extends _ _ Hstep) as Hx.
  pose proof (fun v => delivery_ok_extends db db' v Hx) as Hmono.
  pose proof (conj (ew_delivery _ Hew) (ew_delivery_once _ Hew) : ledger _ _ _) as Hl.
  destruct Hstep; try (by eapply ledger_same).
  - eapply ledger_same; [exact Hmono|exact Hl|]. by destruct H.
  - match goal with Hk : _ \/ _ |- _ =>
      destruct Hk as [(_ & _ & _ & _ & ->)|[(_ & _ & _ & _ & _ & ->)|(_ & _ & _ & _ & ? & _ & _ & ->)]]
    end; by eapply ledger_same.
  - eapply ledger_insert; [exact Hmono|exact Hl|done| |].
    + exists c'. rewrite H3, H8, H9. split; [apply lookup_insert_eq|done].
    + intros j w x Hj [= <-] [= E]. by eapply H7; [exact Hj|congruence].
Qed.

Lemma transition_evidence_wf db db' :
  transition db db' -> attempts_wf db -> evidence_wf db -> evidence_wf db'.
Proof.
  intros Hstep Haw Hew.
  pose proof (candidates_step _ _ Hstep Haw Hew) as Hc.
  destruct (validations_step _ _ Hstep Hew), (reviews_step _ _ Hstep Hew),
    (decisions_step _ _ Hstep Hew), (deliveries_step _ _ Hstep Hew).
  by constructor.
Qed.

(** * Every reachable database is well formed *)

Lemma transition_well_formed db db' : transition db db' -> well_formed db -> well_formed db'.
Proof.
  intros Hstep [Ht Ha He]. constructor.
  - by eapply transition_tickets_wf.
  - by eapply transition_attempts_wf.
  - by eapply transition_evidence_wf.
Qed.

Lemma transitions_well_formed db db' :
  rtc transition db db' -> well_formed db -> well_formed db'.
Proof. induction 1; eauto using transition_well_formed. Qed.

Lemma initial_well_formed db : initial db -> well_formed db.
Proof.
  intros [E1 E2 E3 E4 E5 E6 E7 E8].
  constructor; constructor; rewrite ?E1, ?E2, ?E3, ?E4, ?E5, ?E6, ?E7, ?E8;
    apply map_Forall_empty || apply table_unique_empty.
Qed.

Lemma reachable_well_formed' blake3 db : reachable blake3 db -> well_formed db.
Proof.
  apply (reachable_invariant well_formed);
    [apply initial_well_formed|apply transition_well_formed].
Qed.

(** * Deliveries are final *)

(** The ticket revision a delivered attempt delivered, and the attempt a
    delivered candidate belongs to. *)
Definition delivered_revision (a : TicketAttemptRow) : option Z :=
  if ta_stage a =? ATTEMPT_DELIVERED then Some (ta_ticket_revision_id (ta_claim a)) else None.

Definition delivered_attempt (c : CandidateRow) : option Z :=
  if c_lifecycle c =? CANDIDATE_DELIVERED then Some (c_ticket_attempt_id (c_evidence c)) else None.

Record delivered_wf (db : Database) : Prop := {
  dw_attempts : table_unique delivered_revision (ticket_attempts db);
  dw_candidates : table_unique delivered_attempt (candidates db);
}.

Lemma delivered_revision_None a : ta_stage a <> ATTEMPT_DELIVERED -> delivered_revision a = None.
Proof. unfold delivered_revision. by intros ->%Z.eqb_neq. Qed.

Lemma delivered_attempt_None c :
  c_lifecycle c <> CANDIDATE_DELIVERED -> delivered_attempt c = None.
Proof. unfold delivered_attempt. by intros ->%Z.eqb_neq. Qed.

Lemma delivered_attempt_same c c' :
  c_evidence c' = c_evidence c -> c_lifecycle c' = c_lifecycle c ->
  delivered_attempt c' = delivered_attempt c.
Proof. unfold delivered_attempt. by intros -> ->. Qed.

(** No attempt of an in-flight ticket was delivered. *)
Lemma in_flight_not_delivered db id tr t j b x :
  attempts_wf db -> ticket_at db id TICKET_IN_FLIGHT tr t ->
  ticket_attempts db !! j = Some b -> delivered_revision b = Some x -> x <> id.
Proof.
  intros Hwf [Htr _ _ Hl _ _ _] Hj Hb ->. unfold delivered_revision in Hb.
  destruct (Z.eqb_spec (ta_stage b) ATTEMPT_DELIVERED) as [Hs|]; [|done].
  injection Hb as Hb. destruct (aw_attempt _ Hwf j b Hj) as (tr0 & _ & H0 & _ & _ & _ & _ & _ & Hd).
  rewrite Hb, Htr in H0. injection H0 as <-. rewrite Hd in Hl; done.
Qed.

Lemma put_attempt_delivered_unique m id a a' :
  table_unique delivered_revision m -> m !! id = Some a -> ta_stage a' <> ATTEMPT_DELIVERED ->
  table_unique delivered_revision (<[id := a']> m).
Proof.
  intros Hu Hid Hs. eapply table_unique_update; [done|exact Hid|right].
  by apply delivered_revision_None.
Qed.

Lemma put_candidate_delivered_unique m id c c' :
  table_unique delivered_attempt m -> m !! id = Some c -> c_lifecycle c' <> CANDIDATE_DELIVERED ->
  table_unique delivered_attempt (<[id := c']> m).
Proof.
  intros Hu Hid Hs. eapply table_unique_update; [done|exact Hid|right].
  by apply delivered_attempt_None.
Qed.

Lemma delivered_attempts_step db db' :
  transition db db' -> attempts_wf db -> delivered_wf db ->
  table_unique delivered_revision (ticket_attempts db').
Proof.
  intros Hstep Haw [Hu _]. destruct Hstep; attempt_row; try done.
  - by rewrite (env_ticket_attempts _ _ H).
  - apply table_unique_fresh; [done|]. intros j w x _. rewrite delivered_revision_None; [done|]. by rewrite H3.
  - by eapply put_attempt_delivered_unique.
  - eapply put_attempt_delivered_unique; [done..|]. rewrite H3. intros E. code_cases; code_clash.
  - eapply put_attempt_delivered_unique; [done..|]. intros E. code_cases; code_clash.
  - by eapply put_attempt_delivered_unique.
  - eapply put_attempt_delivered_unique; [done..|]. by rewrite H2, H1.
  - match goal with Hk : _ \/ _ |- _ => destruct Hk as [(_ & _ & Hs & _ & ->)|
      [(_ & _ & Hs & _ & _ & ->)|(_ & _ & Hs & _ & ? & _ & _ & ->)]] end;
      eapply put_attempt_delivered_unique; try done; by rewrite Hs.
  - apply table_unique_insert; [done|]. intros j w x _ Hj Hx Hw.
    eapply in_flight_not_delivered; [done|done|exact Hj|exact Hw|].
    unfold delivered_revision in Hx. case_match; [|done]. congruence.
Qed.

Lemma delivered_candidates_step db db' :
  transition db db' -> evidence_wf db -> delivered_wf db ->
  table_unique delivered_attempt (candidates db').
Proof.
  intros Hstep Hew [_ Hu]. destruct Hstep; attempt_row; try done.
  - by rewrite (env_candidates _ _ H).
  - apply table_unique_fresh; [done|]. intros j w x _.
    rewrite delivered_attempt_None; [done|]. by rewrite H8.
  - eapply put_candidate_delivered_unique; [done..|].
    match goal with E : c_lifecycle _ = (if _ then _ else _) |- _ => rewrite E end. by case_match.
  - eapply put_candidate_delivered_unique; [done..|].
    match goal with E : c_lifecycle _ = c_lifecycle _, F : c_lifecycle _ = CANDIDATE_VALIDATED |- _ =>
      by rewrite E, F end.
  - eapply table_unique_update; [done|done|left]. by apply delivered_attempt_same.
  - assert (Hc : candidates db' = candidates db).
    { match goal with Hk : _ \/ _ |- _ =>
        by destruct Hk as [(_ & _ & _ & _ & ->)|[(_ & _ & _ & _ & _ & ->)|(_ & _ & _ & _ & ? & _ & _ & ->)]]
      end. }
    enough (table_unique delivered_attempt (<[candidate_id := c']> (candidates db'))) by done.
    rewrite Hc. eapply put_candidate_delivered_unique; [done..|].
    match goal with Hk : _ \/ _ |- _ =>
      destruct Hk as [(_ & El & _)|[(_ & El & _)|(_ & El & _)]] end; by rewrite El.
  - apply table_unique_insert; [done|]. intros j w x _ Hj Hx Hw. unfold delivered_attempt in Hx, Hw.
    destruct (Z.eqb_spec (c_lifecycle w) CANDIDATE_DELIVERED) as [Hl|]; [|done].
    destruct (ew_candidate _ Hew j w Hj) as (a0 & Ha0 & _ & _ & _ & _ & _ & _ & Hd).
    destruct (Hd Hl) as [Hs _]. case_match; [|done].
    assert (Ea : c_ticket_attempt_id (c_evidence w) = c_ticket_attempt_id (c_evidence c))
      by congruence.
    rewrite Ea in Ha0. assert (a0 = a) as -> by congruence. rewrite Hs in H2. discriminate.
Qed.

Lemma transition_delivered_wf db db' :
  transition db db' -> well_formed db -> delivered_wf db -> delivered_wf db'.
Proof.
  intros Hstep [_ Ha He] Hd. constructor.
  - by eapply delivered_attempts_step.
  - by eapply delivered_candidates_step.
Qed.

Lemma reachable_delivered blake3 db : reachable blake3 db -> well_formed db /\ delivered_wf db.
Proof.
  apply (reachable_invariant (fun db => well_formed db /\ delivered_wf db)).
  - intros x Hx. split; [by apply initial_well_formed|]. destruct Hx as [_ _ E1 E2 _ _ _ _].
    constructor; rewrite ?E1, ?E2; apply table_unique_empty.
  - intros x y Hstep [Hw Hd]. split; [by eapply transition_well_formed|].
    by eapply transition_delivered_wf.
Qed.

(** * Reading a well-formed database *)

(** A passed validation of the exact tree on the exact kernel build. *)
Definition passed_on (db : Database) (candidate_id scope : Z) (tree : string) (build : Z) : Prop :=
  exists id v, validations db !! id = Some v /\ v_candidate_id v = candidate_id /\
    v_validation_scope v = scope /\ v_lifecycle v = VALIDATION_PASSED /\
    v_pristine_tree v = tree /\ v_kernel_build_id v = build.

Lemma has_passed_on db id c a campaign scope :
  well_formed db -> candidates db !! id = Some c ->
  ticket_attempts db !! c_ticket_attempt_id (c_evidence c) = Some a ->
  campaigns db !! ta_campaign_id (ta_claim a) = Some campaign -> has_passed db id scope ->
  passed_on db id scope (c_candidate_tree (c_evidence c)) (cmp_kernel_build_id campaign).
Proof.
  intros [_ _ He] Hc Ha Hcmp (i & v & Hv & Hvc & Hs & Hl).
  destruct (ew_validation _ He i v Hv) as (c1 & a1 & cmp1 & Hc1 & Ht & Ha1 & Hcmp1 & Hb).
  rewrite Hvc in Hc1. exists i, v. by simplify_map_eq.
Qed.

(** What an accepted candidate rests on. *)
Lemma accepted_evidence db id c :
  well_formed db -> candidates db !! id = Some c ->
  c_lifecycle c ∈ [CANDIDATE_ACCEPTED; CANDIDATE_DELIVERED] ->
  exists a campaign,
    ticket_attempts db !! c_ticket_attempt_id (c_evidence c) = Some a /\
    campaigns db !! ta_campaign_id (ta_claim a) = Some campaign /\
    c_base_commit (c_evidence c) = ta_claimed_commit (ta_claim a) /\
    c_base_tree (c_evidence c) = ta_claimed_tree (ta_claim a) /\
    passed_on db id 0 (c_candidate_tree (c_evidence c)) (cmp_kernel_build_id campaign) /\
    passed_on db id 1 (c_candidate_tree (c_evidence c)) (cmp_kernel_build_id campaign) /\
    exists i d review_id r, architect_decisions db !! i = Some d /\
      d_candidate_id d = Some id /\ d_decision_kind d = DECISION_DELIVER /\
      d_review_id d = Some review_id /\ reviews db !! review_id = Some r /\
      r_candidate_id r = id /\ d_overrides_quality_rejection d = (r_verdict r =? REVIEW_REJECT).
Proof.
  intros Hwf Hc Hl. pose proof Hwf as [_ Haw He].
  destruct (ew_candidate _ He id c Hc) as (a & Ha & Hb & Ht & _ & _ & Hv & Hacc & _).
  destruct (aw_attempt _ Haw _ a Ha) as (_ & campaign & _ & Hcmp & _).
  destruct (Hacc Hl) as (H1 & _ & (i & d & Hd & Hdc & Hk)).
  pose proof (ew_decision _ He i d Hd) as Hok. unfold decision_ok in Hok. rewrite Hdc in Hok.
  destruct Hok as (rid & r & _ & Hrid & Hr & Hrc & H0 & _ & Hov & _).
  exists a, campaign. repeat split; try done; [by eapply has_passed_on..|].
  by exists i, d, rid, r.
Qed.
