(* ===== verification/Authority.v ===== *)
(** What holds in every database a run of the kernel reaches, and along every
    run: the safety theorems of the ticket, candidate and delivery authority. *)
From S2P Require Import Prelude Values Contracts Database Lifecycle.
From S2P Require Import Refinement History Invariants Scenario.
From S2P Require TicketStore DecisionStore.

(** The ticket revision an attempt-bound delivery belongs to. *)
Definition delivery_revision (db : Database) (d : DeliveryRow) : option Z :=
  c ← candidates db !! dl_candidate_id d;
  a ← ticket_attempts db !! c_ticket_attempt_id (c_evidence c);
  Some (ta_ticket_revision_id (ta_claim a)).

(** One edge of the ticket state machine. *)
Definition ticket_edge (state state' : Z) : Prop := (state, state') ∈ ticket_edges.

(** * Reachable databases *)

(** C2: Every database the kernel reaches from an empty installation, by any
    interleaving of committed commands and outside changes, is well formed:
    tickets agree with their current revision, no two live tickets of an
    application share a reproducer, attempts have exclusive custody of their
    ticket, and candidates, validations, reviews, decisions and deliveries rest
    on the evidence the kernel demands. *)
Theorem reachable_well_formed blake3 db : reachable blake3 db -> well_formed db.
Proof. apply reachable_well_formed'. Qed.

Lemma reachable_well_formed_witness :
  reachable checksum (after checksum installation story) /\
  well_formed (after checksum installation story).
Proof.
  assert (H : reachable checksum (after checksum installation story))
    by (apply after_reachable; vm_compute; reflexivity).
  split; [exact H|]. exact (reachable_well_formed checksum _ H).
Defined.

(** C1: A recorded delivery delivers exactly the reviewed candidate: its commit,
    base and tree are the candidate's, the base is the commit the attempt
    claimed, both the hard validation and the Quality full suite passed on that
    very tree under the kernel build of the campaign, the Architect decided to
    deliver it on a review of it, the decision is marked as an override exactly
    when that review rejected it, and its attempt and ticket are Delivered. *)
Theorem delivery_rests_on_evidence blake3 db i d :
  reachable blake3 db -> deliveries db !! i = Some d ->
  exists c a campaign tr,
    candidates db !! dl_candidate_id d = Some c /\
    c_lifecycle c = CANDIDATE_DELIVERED /\
    c_candidate_commit c = Some (dl_candidate_commit d) /\
    c_candidate_tree (c_evidence c) = dl_resulting_tree d /\
    ticket_attempts db !! c_ticket_attempt_id (c_evidence c) = Some a /\
    ta_stage a = ATTEMPT_DELIVERED /\
    ta_claimed_commit (ta_claim a) = dl_expected_old_commit d /\
    campaigns db !! ta_campaign_id (ta_claim a) = Some campaign /\
    passed_on db (dl_candidate_id d) 0 (dl_resulting_tree d) (cmp_kernel_build_id campaign) /\
    passed_on db (dl_candidate_id d) 1 (dl_resulting_tree d) (cmp_kernel_build_id campaign) /\
    (exists j e review_id r, architect_decisions db !! j = Some e /\
       d_candidate_id e = Some (dl_candidate_id d) /\ d_decision_kind e = DECISION_DELIVER /\
       d_review_id e = Some review_id /\ reviews db !! review_id = Some r /\
       r_candidate_id r = dl_candidate_id d /\
       d_overrides_quality_rejection e = (r_verdict r =? REVIEW_REJECT)) /\
    ticket_revisions db !! ta_ticket_revision_id (ta_claim a) = Some tr /\
    tr_lifecycle tr = TICKET_DELIVERED.
Proof.
  intros Hwf%reachable_well_formed' Hi. pose proof Hwf as [_ Haw He].
  destruct (ew_delivery _ He i d Hi) as (c & Hc & Hl & Hcommit & Hb & Ht).
  destruct (accepted_evidence db _ c Hwf Hc) as (a & campaign & Ha & Hcmp & Eb & _ & P0 & P1 & Hd).
  { rewrite Hl. apply list_elem_of_further, list_elem_of_here. }
  destruct (ew_candidate _ He _ c Hc) as (a' & Ha' & _ & _ & _ & _ & _ & _ & Hdel).
  rewrite Ha in Ha'. injection Ha' as <-. destruct (Hdel Hl) as [Hs _].
  destruct (aw_attempt _ Haw _ a Ha) as (tr & _ & Htr & _ & _ & _ & _ & _ & Htd).
  exists c, a, campaign, tr. rewrite <- Ht. repeat split; try done; [congruence|auto].
Qed.

Lemma delivery_rests_on_evidence_witness :
  let db := after checksum installation story in
  reachable checksum db /\ exists d, deliveries db !! 1 = Some d /\ dl_candidate_id d = 1 /\
    exists c, candidates db !! dl_candidate_id d = Some c /\
      c_candidate_commit c = Some (dl_candidate_commit d).
Proof.
  intros db. assert (H : reachable checksum db)
    by (apply after_reachable; vm_compute; reflexivity).
  split; [exact H|].
  assert (Hd : is_Some (deliveries db !! 1)) by (apply (bool_decide_unpack _); vm_compute; exact I).
  destruct (deliveries db !! 1) as [d|] eqn:E; [|destruct Hd; discriminate].
  exists d. split; [reflexivity|]. split; [vm_compute in E; injection E as <-; reflexivity|].
  destruct (delivery_rests_on_evidence checksum db 1 d H E) as (c & _ & _ & _ & Hc & _ & Hcm & _).
  exists c. split; assumption.
Defined.

(** C5: A ticket revision is delivered at most once, whatever attempts and
    candidates it had. *)
Theorem delivered_at_most_once blake3 db i j d e x :
  reachable blake3 db -> deliveries db !! i = Some d -> deliveries db !! j = Some e ->
  delivery_revision db d = Some x -> delivery_revision db e = Some x -> i = j.
Proof.
  intros [[_ _ He] [Hua Huc]]%reachable_delivered Hi Hj Hd Hx.
  apply bind_Some in Hd as (c1 & Hc1 & (a1 & Ha1 & [= Er1])%bind_Some).
  apply bind_Some in Hx as (c2 & Hc2 & (a2 & Ha2 & [= Er2])%bind_Some).
  destruct (ew_delivery _ He i d Hi) as (c1' & Hc1' & Hl1 & _).
  destruct (ew_delivery _ He j e Hj) as (c2' & Hc2' & Hl2 & _).
  assert (c1' = c1) as -> by congruence. assert (c2' = c2) as -> by congruence.
  destruct (ew_candidate _ He _ c1 Hc1) as (b1 & Hb1 & _ & _ & _ & _ & _ & _ & Hs1).
  destruct (ew_candidate _ He _ c2 Hc2) as (b2 & Hb2 & _ & _ & _ & _ & _ & _ & Hs2).
  assert (b1 = a1) as -> by congruence. assert (b2 = a2) as -> by congruence.
  assert (Eatt : c_ticket_attempt_id (c_evidence c1) = c_ticket_attempt_id (c_evidence c2)).
  { eapply Hua; [exact Ha1|exact Ha2|..]; unfold delivered_revision.
    - by rewrite (proj1 (Hs1 Hl1)), Er1.
    - by rewrite (proj1 (Hs2 Hl2)), Er2. }
  assert (Ecand : dl_candidate_id d = dl_candidate_id e).
  { eapply Huc; [exact Hc1|exact Hc2|..]; unfold delivered_attempt.
    - by rewrite Hl1.
    - by rewrite Hl2, Eatt. }
  eapply (ew_delivery_once _ He); [exact Hi|exact Hj|reflexivity|by rewrite Ecand].
Qed.

Lemma delivered_at_most_once_witness :
  let db := after checksum installation story in
  exists d, deliveries db !! 1 = Some d /\ delivery_revision db d = Some 1 /\ 1 = 1.
Proof.
  intros db. assert (H : reachable checksum db)
    by (apply after_reachable; vm_compute; reflexivity).
  assert (Hd : is_Some (deliveries db !! 1)) by (apply (bool_decide_unpack _); vm_compute; exact I).
  destruct (deliveries db !! 1) as [d|] eqn:E; [|destruct Hd; discriminate].
  assert (Hx : delivery_revision db d = Some 1)
    by (vm_compute in E; injection E as <-; vm_compute; reflexivity).
  exists d. split; [reflexivity|]. split; [exact Hx|].
  exact (delivered_at_most_once checksum db 1 1 d d 1 H E E Hx Hx).
Defined.

(** C4: An application revision has at most one ticket in flight. *)
Theorem one_ticket_in_flight blake3 db i j tr tr' :
  reachable blake3 db ->
  ticket_revisions db !! i = Some tr -> ticket_revisions db !! j = Some tr' ->
  tr_lifecycle tr = TICKET_IN_FLIGHT -> tr_lifecycle tr' = TICKET_IN_FLIGHT ->
  tr_application_revision_id (tr_contract tr) = tr_application_revision_id (tr_contract tr') ->
  i = j.
Proof.
  intros [_ [_ _ _ Hu] _]%reachable_well_formed' Hi Hj Hl Hl' E.
  eapply Hu; [exact Hi|exact Hj|..]; unfold in_flight_of.
  - by rewrite Hl.
  - by rewrite Hl', E.
Qed.

Lemma one_ticket_in_flight_witness :
  let db := after checksum installation to_claim in
  exists tr, ticket_revisions db !! 1 = Some tr /\ tr_lifecycle tr = TICKET_IN_FLIGHT /\ 1 = 1.
Proof.
  intros db. assert (H : reachable checksum db)
    by (apply after_reachable; vm_compute; reflexivity).
  assert (Hd : is_Some (ticket_revisions db !! 1))
    by (apply (bool_decide_unpack _); vm_compute; exact I).
  destruct (ticket_revisions db !! 1) as [tr|] eqn:E; [|destruct Hd; discriminate].
  assert (Hl : tr_lifecycle tr = TICKET_IN_FLIGHT)
    by (vm_compute in E; injection E as <-; reflexivity).
  exists tr. split; [reflexivity|]. split; [exact Hl|].
  exact (one_ticket_in_flight checksum db 1 1 tr tr H E E Hl Hl eq_refl).
Defined.

(** Custody is exclusive and never lost: an in-flight ticket revision has
    exactly one unreleased attempt. *)
Theorem in_flight_custody blake3 db id tr :
  reachable blake3 db -> ticket_revisions db !! id = Some tr ->
  tr_lifecycle tr = TICKET_IN_FLIGHT ->
  exists! i, exists a, ticket_attempts db !! i = Some a /\ ta_released_at a = None /\
    ta_ticket_revision_id (ta_claim a) = id.
Proof.
  intros [_ [_ Hu Hh _] _]%reachable_well_formed' Htr Hl.
  destruct (Hh id tr Htr Hl) as (i & a & Hi & Ha). exists i. split.
  - exists a. split; [done|]. by apply custody_of_Some.
  - intros j (b & Hj & Hb). eapply Hu; [exact Hi|exact Hj|exact Ha|]. by apply custody_of_Some.
Qed.

Lemma in_flight_custody_witness :
  let db := after checksum installation to_claim in
  exists! i, exists a, ticket_attempts db !! i = Some a /\ ta_released_at a = None /\
    ta_ticket_revision_id (ta_claim a) = 1.
Proof.
  intros db. assert (H : reachable checksum db)
    by (apply after_reachable; vm_compute; reflexivity).
  assert (Hd : is_Some (ticket_revisions db !! 1))
    by (apply (bool_decide_unpack _); vm_compute; exact I).
  destruct (ticket_revisions db !! 1) as [tr|] eqn:E; [|destruct Hd; discriminate].
  apply (in_flight_custody checksum db 1 tr H E).
  vm_compute in E; injection E as <-; reflexivity.
Defined.

(** C6: A candidate receives at most one Architect decision, always after both
    validations passed and a Quality review of it exists.  Rework and Reject
    are only ever recorded against an accepting review, and a Deliver is marked
    as an override exactly when the review rejected. *)
Theorem verdicts_rest_on_review blake3 db i d candidate_id :
  reachable blake3 db -> architect_decisions db !! i = Some d ->
  d_candidate_id d = Some candidate_id ->
  (forall j e, architect_decisions db !! j = Some e -> d_candidate_id e = Some candidate_id ->
     j = i) /\
  has_passed db candidate_id 0 /\ has_passed db candidate_id 1 /\
  exists review_id r, d_review_id d = Some review_id /\ reviews db !! review_id = Some r /\
    r_candidate_id r = candidate_id /\
    d_overrides_quality_rejection d = (r_verdict r =? REVIEW_REJECT) /\
    (d_decision_kind d <> DECISION_DELIVER -> r_verdict r <> REVIEW_REJECT).
Proof.
  intros [_ _ He]%reachable_well_formed' Hi Hc.
  pose proof (ew_decision _ He i d Hi) as Hok. unfold decision_ok in Hok. rewrite Hc in Hok.
  destruct Hok as (rid & r & _ & Hrid & Hr & Hrc & H0 & H1 & Hov & Hshape & _).
  split; [|split; [done|split; [done|]]].
  - intros j e Hj He'. by eapply (ew_decision_once _ He).
  - exists rid, r. repeat split; try done. intros Hk Hv. apply Hk, Hshape.
    by rewrite Hov, Hv.
Qed.

Lemma verdicts_rest_on_review_witness :
  let db := after checksum installation story in
  has_passed db 1 0 /\ has_passed db 1 1.
Proof.
  intros db. assert (H : reachable checksum db)
    by (apply after_reachable; vm_compute; reflexivity).
  assert (Hd : is_Some (architect_decisions db !! 1))
    by (apply (bool_decide_unpack _); vm_compute; exact I).
  destruct (architect_decisions db !! 1) as [d|] eqn:E; [|destruct Hd; discriminate].
  assert (Hc : d_candidate_id d = Some 1) by (vm_compute in E; injection E as <-; reflexivity).
  destruct (verdicts_rest_on_review checksum db 1 d 1 H E Hc) as (_ & H0 & H1 & _).
  split; assumption.
Defined.

(** * Runs *)

(** C3: Refinement: whatever a committed command of either store did to the
    database is a sequence of transitions of the abstract lifecycle. *)
Theorem commands_refine_lifecycle blake3 db command db' :
  execute blake3 db command = Some db' -> rtc transition db db'.
Proof. apply execute_transitions. Qed.

Lemma commands_refine_lifecycle_witness :
  let db := after checksum installation to_claim in
  exists db', execute checksum db submit = Some db' /\ rtc transition db db'.
Proof.
  intros db. assert (H : is_Some (execute checksum db submit))
    by (apply (bool_decide_unpack _); vm_compute; exact I).
  destruct (execute checksum db submit) as [db'|] eqn:E; [|destruct H; discriminate].
  exists db'. split; [reflexivity|]. exact (commands_refine_lifecycle checksum db submit db' E).
Defined.

(** History: along every run no ticket, attempt, candidate, validation, review,
    decision, delivery or audit row disappears, identity columns never change,
    revisions never go back and an unchanged revision means an unchanged row, a
    delivered, resolved or rejected ticket is never touched again, a release
    stamp and a candidate commit are written once, and a candidate's verdict is
    final.  Of a campaign only the application revision and the build are pinned
    here; its books are the subject of [Accounting]. *)
Theorem runs_extend_history blake3 db db' : rtc (step blake3) db db' -> extends db db'.
Proof. intros H%steps_transitions. by apply transitions_extend. Qed.

Lemma runs_extend_history_witness :
  rtc (step checksum) installation (after checksum installation story) /\
  extends installation (after checksum installation story).
Proof.
  assert (H : rtc (step checksum) installation (after checksum installation story))
    by (eapply run_steps, story_runs).
  split; [exact H|]. exact (runs_extend_history checksum _ _ H).
Defined.

Lemma transition_ticket_edge db db' id tr :
  transition db db' -> ticket_revisions db !! id = Some tr ->
  exists tr', ticket_revisions db' !! id = Some tr' /\
    (tr_lifecycle tr' = tr_lifecycle tr \/ ticket_edge (tr_lifecycle tr) (tr_lifecycle tr')).
Proof.
  intros [_ ->|tr0 t0 ? ? _ _ _ _ _ _ _ _ _ ->|rid tr0 t tr' s s' Hat Hn He _ _ ->]%transition_tickets Hid.
  - exists tr. auto.
  - exists tr. rewrite lookup_insert_ne; [auto|].
    intros E. unfold revision_id in E. by rewrite <- E, fresh_id_lookup in Hid.
  - destruct (decide (rid = id)) as [->|Hne].
    + exists tr'. rewrite lookup_insert_eq. split; [done|right].
      destruct Hat as [Htr _ _ Hl _ _ _], Hn as (_ & El & _).
      rewrite Hid in Htr. injection Htr as <-. unfold ticket_edge. by rewrite Hl, El.
    + exists tr. rewrite lookup_insert_ne by done. auto.
Qed.

(** The ticket state machine: the state of a ticket revision only ever moves
    along the ten edges of the lifecycle. *)
Theorem ticket_states_follow_edges blake3 db db' id tr :
  rtc (step blake3) db db' -> ticket_revisions db !! id = Some tr ->
  exists tr', ticket_revisions db' !! id = Some tr' /\
    rtc ticket_edge (tr_lifecycle tr) (tr_lifecycle tr').
Proof.
  intros Hr%steps_transitions. revert tr. induction Hr as [db|db db1 db2 Hs _ IH]; intros tr Hid.
  - exists tr. split; [done|apply rtc_refl].
  - destruct (transition_ticket_edge _ _ _ _ Hs Hid) as (tr1 & Hid1 & He).
    destruct (IH tr1 Hid1) as (tr2 & Hid2 & Hp). exists tr2. split; [done|].
    destruct He as [<-|He]; [done|]. by eapply rtc_l.
Qed.

Lemma ticket_states_follow_edges_witness :
  let db := after checksum installation [propose] in
  exists tr tr', ticket_revisions db !! 1 = Some tr /\ tr_lifecycle tr = TICKET_PROPOSED /\
    ticket_revisions (after checksum db (List.tl story)) !! 1 = Some tr' /\
    rtc ticket_edge (tr_lifecycle tr) (tr_lifecycle tr').
Proof.
  intros db. assert (Hd : is_Some (ticket_revisions db !! 1))
    by (apply (bool_decide_unpack _); vm_compute; exact I).
  destruct (ticket_revisions db !! 1) as [tr|] eqn:E; [|destruct Hd; discriminate].
  assert (Hr : run checksum db (List.tl story) = Some (after checksum db (List.tl story)))
    by (apply run_after; vm_compute; reflexivity).
  destruct (ticket_states_follow_edges checksum db _ 1 tr (run_steps _ _ _ _ Hr) E)
    as (tr' & E' & Hp).
  exists tr, tr'. split; [reflexivity|]. split; [vm_compute in E; injection E as <-; reflexivity|].
  split; assumption.
Defined.
