(* ===== verification/Idempotency.v ===== *)
(** Command identity: every committed command leaves one audit row under its
    principal and command id, and a command whose identity was used either
    replays without effect or is refused as a conflict. *)
From S2P Require Import Prelude Values Contracts Database Lifecycle Refinement History Scenario.
From S2P Require TicketStore DecisionStore.

(** The principal and command id a command is audited under. *)
Definition command_key (command : Command) : string * string :=
  match command with
  | ProposeTicket c => (TicketStore.stp_principal c, TicketStore.stp_command_id c)
  | SponsorRevision c => (TicketStore.str_principal c, TicketStore.str_command_id c)
  | ClaimTicket c => (TicketStore.cst_principal c, TicketStore.cst_command_id c)
  | FailAttempt c => (TicketStore.fta_principal c, TicketStore.fta_command_id c)
  | RetryQuality c => (TicketStore.rqa_principal c, TicketStore.rqa_command_id c)
  | RetryEngineering c => (TicketStore.fta_principal c, TicketStore.fta_command_id c)
  | ReleaseAttempt c => (TicketStore.rta_principal c, TicketStore.rta_command_id c)
  | CompleteCampaign c => (TicketStore.ccd_principal c, TicketStore.ccd_command_id c)
  | SubmitCandidate c => (DecisionStore.sc_principal c, DecisionStore.sc_command_id c)
  | RecordValidation c => (DecisionStore.rv_principal c, DecisionStore.rv_command_id c)
  | AttachCommit c => (DecisionStore.acc_principal c, DecisionStore.acc_command_id c)
  | SubmitReview c => (DecisionStore.sqr_principal c, DecisionStore.sqr_command_id c)
  | ArchitectSponsor c =>
      (sponsorship_principal (DecisionStore.st_decision c), DecisionStore.st_command_id c)
  | ArchitectRelease c =>
      (release_principal (DecisionStore.rl_decision c), DecisionStore.rl_command_id c)
  | DecideCandidate c =>
      (request_principal (DecisionStore.dc_request c), DecisionStore.dc_command_id c)
  | RecordDelivery c => (DecisionStore.rd_principal c, DecisionStore.rd_command_id c)
  end.

Definition command_operation (command : Command) : string :=
  match command with
  | ProposeTicket _ => TicketStore.PROPOSE_OPERATION
  | SponsorRevision _ => TicketStore.SPONSOR_OPERATION
  | ClaimTicket _ => TicketStore.CLAIM_OPERATION
  | FailAttempt _ => TicketStore.FAIL_OPERATION
  | RetryQuality _ => TicketStore.QUALITY_RETRY_OPERATION
  | RetryEngineering _ => TicketStore.ENGINEERING_RETRY_OPERATION
  | ReleaseAttempt _ => TicketStore.RELEASE_OPERATION
  | CompleteCampaign _ => TicketStore.COMPLETE_CAMPAIGN_OPERATION
  | SubmitCandidate _ => DecisionStore.CANDIDATE_SUBMIT_OPERATION
  | RecordValidation _ => DecisionStore.VALIDATION_RECORD_OPERATION
  | AttachCommit _ => DecisionStore.CANDIDATE_COMMIT_ATTACH_OPERATION
  | SubmitReview _ => DecisionStore.REVIEW_SUBMIT_OPERATION
  | ArchitectSponsor _ => DecisionStore.SPONSOR_OPERATION
  | ArchitectRelease _ => DecisionStore.RELEASE_OPERATION
  | DecideCandidate _ => DecisionStore.CANDIDATE_DECIDE_OPERATION
  | RecordDelivery _ => DecisionStore.DELIVERY_RECORD_OPERATION
  end.

(** The bytes whose hash is the command's fingerprint. *)
Definition command_preimage (command : Command) : list Z :=
  match command with
  | ProposeTicket c => TicketStore.proposal_preimage c
  | SponsorRevision c => TicketStore.sponsor_preimage c
  | ClaimTicket c => TicketStore.claim_preimage c
  | FailAttempt c => TicketStore.failure_preimage TicketStore.FAIL_OPERATION c
  | RetryQuality c => TicketStore.quality_retry_preimage c
  | RetryEngineering c => TicketStore.failure_preimage TicketStore.ENGINEERING_RETRY_OPERATION c
  | ReleaseAttempt c => TicketStore.release_preimage c
  | CompleteCampaign c => TicketStore.completion_preimage c
  | SubmitCandidate c => DecisionStore.submit_candidate_preimage c
  | RecordValidation c => DecisionStore.validation_preimage c
  | AttachCommit c => DecisionStore.commit_preimage c
  | SubmitReview c => DecisionStore.review_preimage c
  | ArchitectSponsor c => DecisionStore.sponsorship_preimage c
  | ArchitectRelease c => DecisionStore.release_preimage c
  | DecideCandidate c => DecisionStore.candidate_decision_preimage c
  | RecordDelivery c => DecisionStore.delivery_preimage c
  end.

(** The audit row of a committed command. *)
Definition audited (blake3 : list Z -> ContentDigest) (db : Database) (command : Command) : Prop :=
  exists row, audit_log db !! command_key command = Some row /\
    al_operation row = command_operation command /\
    al_command_fingerprint row = blake3 (command_preimage command).

(** * The two audit lookups *)

Lemma ts_find_audit_Ok db p c op fp o :
  TicketStore.find_ticket_audit db p c op fp = Ok o ->
  match o with
  | None => audit_log db !! (p, c) = None
  | Some _ => exists row, audit_log db !! (p, c) = Some row /\
                al_operation row = op /\ al_command_fingerprint row = fp
  end.
Proof.
  unfold TicketStore.find_ticket_audit. intros H. ok_inv H; [|done]. bool_prop. eauto.
Qed.

Lemma ds_find_audit_Ok db p c op fp o :
  DecisionStore.find_audit db p c op fp = Ok o ->
  match o with
  | None => audit_log db !! (p, c) = None
  | Some _ => exists row, audit_log db !! (p, c) = Some row /\
                al_operation row = op /\ al_command_fingerprint row = fp
  end.
Proof.
  unfold DecisionStore.find_audit. intros H. ok_inv H; [|done]. bool_prop. eauto.
Qed.

Lemma insert_audit_row_lookup p c f db id db' :
  insert_audit_row p c f db = Ok (id, db') -> audit_log db' !! (p, c) = Some (f id).
Proof. unfold insert_audit_row. intros H. ok_inv H. apply lookup_insert_eq. Qed.

Lemma ts_insert_audit_lookup db p c op fp k sid r id db' :
  TicketStore.insert_ticket_audit db p c op fp k sid r = Ok (id, db') ->
  exists row, audit_log db' !! (p, c) = Some row /\
    al_operation row = op /\ al_command_fingerprint row = fp.
Proof.
  unfold TicketStore.insert_ticket_audit. intros H. ok_inv H. read_steps.
  apply insert_audit_row_lookup in H. eauto.
Qed.

Lemma ds_insert_audit_lookup db p c op fp k sid r id db' :
  DecisionStore.insert_audit db p c op fp k sid r = Ok (id, db') ->
  exists row, audit_log db' !! (p, c) = Some row /\
    al_operation row = op /\ al_command_fingerprint row = fp.
Proof.
  unfold DecisionStore.insert_audit. intros H. ok_inv H. read_steps.
  apply insert_audit_row_lookup in H. eauto.
Qed.

(** * Every operation looks its identity up first and writes it last *)

(** An accepted run either replayed an audit row or added one. *)
Definition audit_discipline (db db' : Database) (key : string * string) (op : string)
    (fp : ContentDigest) : Prop :=
  (exists row, audit_log db' !! key = Some row /\ al_operation row = op /\
     al_command_fingerprint row = fp) /\
  (db' = db \/ audit_log db !! key = None).

Ltac audit_discipline H :=
  ok_inv H;
  repeat match goal with
  | Hf : TicketStore.find_ticket_audit _ _ _ _ _ = Ok _ |- _ => apply ts_find_audit_Ok in Hf
  | Hf : DecisionStore.find_audit _ _ _ _ _ = Ok _ |- _ => apply ds_find_audit_Ok in Hf
  | Hi : TicketStore.insert_ticket_audit _ _ _ _ _ _ _ _ = Ok _ |- _ =>
      apply ts_insert_audit_lookup in Hi
  | Hi : DecisionStore.insert_audit _ _ _ _ _ _ _ _ = Ok _ |- _ =>
      apply ds_insert_audit_lookup in Hi
  end; split; auto.

Lemma execute_discipline blake3 db command db' :
  execute blake3 db command = Some db' ->
  audit_discipline db db' (command_key command) (command_operation command)
    (blake3 (command_preimage command)).
Proof.
  destruct command; simpl; rewrite committed_Some; intros [receipt H].
  - unfold TicketStore.submit_ticket_proposal in H. audit_discipline H.
  - unfold TicketStore.sponsor_ticket_revision in H. audit_discipline H.
  - unfold TicketStore.claim_sponsored_ticket in H. audit_discipline H.
  - unfold TicketStore.fail_ticket_attempt in H. audit_discipline H.
  - unfold TicketStore.retry_quality_attempt in H. audit_discipline H.
  - unfold TicketStore.retry_engineering_attempt in H. audit_discipline H.
  - unfold TicketStore.release_ticket_attempt in H. audit_discipline H.
  - unfold TicketStore.complete_campaign_at_delivery_target in H. audit_discipline H.
  - unfold DecisionStore.submit_candidate in H. audit_discipline H.
  - unfold DecisionStore.record_validation in H. audit_discipline H.
  - unfold DecisionStore.attach_candidate_commit in H. audit_discipline H.
  - unfold DecisionStore.submit_quality_review in H. audit_discipline H.
  - unfold DecisionStore.sponsor_ticket in H. audit_discipline H.
  - unfold DecisionStore.release_ticket_attempt in H. audit_discipline H.
  - unfold DecisionStore.decide_candidate in H. audit_discipline H.
  - unfold DecisionStore.record_delivery in H. audit_discipline H.
Qed.

(** An audit row is never changed, so its command stays audited. *)
Lemma audited_later blake3 db db' command :
  rtc (step blake3) db db' -> audited blake3 db command -> audited blake3 db' command.
Proof.
  intros Hr%steps_transitions (row & Hrow & H). exists row. split; [|done].
  eapply lookup_weaken; [exact Hrow|]. by apply ex_audit, transitions_extend.
Qed.

Lemma execute_audited blake3 db command db' :
  execute blake3 db command = Some db' -> audited blake3 db' command.
Proof. intros H%execute_discipline. exact (proj1 H). Qed.

Lemma execute_used_key blake3 db command db' row :
  audit_log db !! command_key command = Some row -> execute blake3 db command = Some db' ->
  db' = db /\ al_operation row = command_operation command /\
  al_command_fingerprint row = blake3 (command_preimage command).
Proof.
  intros Hrow H%execute_discipline. destruct H as [(row' & Hrow' & H) [->|Hn]]; [|congruence].
  rewrite Hrow in Hrow'. injection Hrow' as <-. done.
Qed.

(** * Theorems *)

(** C28: At most once: after a command has committed, executing it again, however
    much later and whatever happened in between, changes nothing. *)
Theorem commands_commit_at_most_once blake3 db command db1 db2 db3 :
  execute blake3 db command = Some db1 -> rtc (step blake3) db1 db2 ->
  execute blake3 db2 command = Some db3 -> db3 = db2.
Proof.
  intros H1%execute_audited Hr H3. apply (audited_later _ _ _ _ Hr) in H1 as (row & Hrow & _).
  by destruct (execute_used_key _ _ _ _ _ Hrow H3).
Qed.

Lemma commands_commit_at_most_once_witness :
  let db1 := after checksum installation [propose] in
  let db2 := after checksum db1 (List.tl story) in
  exists db3, execute checksum db2 propose = Some db3 /\ db3 = db2.
Proof.
  intros db1 db2.
  assert (E : execute checksum installation propose = Some db1)
    by (apply run_one; vm_compute; reflexivity).
  assert (Hr : run checksum db1 (List.tl story) = Some db2)
    by (apply run_after; vm_compute; reflexivity).
  assert (Hs : is_Some (execute checksum db2 propose))
    by (apply (bool_decide_unpack _); vm_compute; exact I).
  destruct Hs as [db3 Hs]. exists db3. split; [exact Hs|].
  exact (commands_commit_at_most_once checksum _ _ _ _ _ E (run_steps _ _ _ _ Hr) Hs).
Defined.

(** A principal's command id names one command for ever: a later command under
    the same identity with another operation or another fingerprint is
    refused. *)
Theorem command_identity_conflicts_refused blake3 db command row :
  audit_log db !! command_key command = Some row ->
  (al_operation row <> command_operation command \/
   al_command_fingerprint row <> blake3 (command_preimage command)) ->
  execute blake3 db command = None.
Proof.
  intros Hrow Hne. destruct (execute blake3 db command) as [db'|] eqn:E; [|done].
  destruct (execute_used_key _ _ _ _ _ Hrow E) as (_ & ? & ?). by destruct Hne.
Qed.

(** A sponsorship under the identity of the proposal. *)
Definition stolen_identity : Command := SponsorRevision {|
  TicketStore.str_principal := "product"; TicketStore.str_command_id := "c1";
  TicketStore.str_ticket_revision_id := 1; TicketStore.str_expected_ticket_revision := 0;
  TicketStore.str_reason := "worth it" |}.

Lemma command_identity_conflicts_refused_witness :
  let db := after checksum installation [propose] in
  exists row, audit_log db !! command_key stolen_identity = Some row /\
    execute checksum db stolen_identity = None.
Proof.
  intros db. assert (Hd : is_Some (audit_log db !! command_key stolen_identity))
    by (apply (bool_decide_unpack _); vm_compute; exact I).
  destruct (audit_log db !! command_key stolen_identity) as [row|] eqn:E;
    [|destruct Hd; discriminate].
  exists row. split; [reflexivity|].
  apply (command_identity_conflicts_refused checksum db stolen_identity row E).
  left. vm_compute in E. injection E as <-. vm_compute. discriminate.
Defined.
