(* ===== verification/Installation.v ===== *)
(** An installation from its empty database on: the commands of every modelled
    store on one database and one content-addressed store.  Its runs are runs of
    the kernel, so what the other files prove of all kernel runs holds of it, and
    the restore gate is decided by its audit log alone. *)
From stdpp Require Import sorting.
From S2P Require Import Prelude Values Contracts Database Application Lifecycle Refinement Kernel.
From S2P Require Import ProcessStore ProviderEffects ProcessRefinement Cas Custody Storage Admission.
From S2P Require Import Frames History Idempotency Scenario Receipts Restore Bootstrap.
From S2P Require TicketStore WireBundle.

Definition empty_database (time : Z) : Database := {|
  application_revisions := ∅; artifacts := ∅; kernel_builds := ∅; repositories := ∅; offices := ∅;
  campaigns := ∅; assignments := ∅; sessions := ∅; provider_effects := ∅; tickets := ∅;
  ticket_revisions := ∅; ticket_attempts := ∅; candidates := ∅; validations := ∅; reviews := ∅;
  architect_decisions := ∅; deliveries := ∅; audit_log := ∅; now := time |}.

Definition at_time (time : Z) (db : Database) : Database := {|
  application_revisions := application_revisions db; artifacts := artifacts db;
  kernel_builds := kernel_builds db; repositories := repositories db; offices := offices db;
  campaigns := campaigns db; assignments := assignments db; sessions := sessions db;
  provider_effects := provider_effects db; tickets := tickets db;
  ticket_revisions := ticket_revisions db; ticket_attempts := ticket_attempts db;
  candidates := candidates db; validations := validations db; reviews := reviews db;
  architect_decisions := architect_decisions db; deliveries := deliveries db;
  audit_log := audit_log db; now := time |}.

(** * Runs *)

Section installation.
Context (blake3 : list Z -> ContentDigest) (maximum : Z) {M : Machine}.
Context (to_timestamp : Z -> result string Z) (turns : nat) (staging_of : string -> Staging).
Context (reader : WireBundle.BundleReader).

Inductive StorageCommand :=
  | InstallBuild (c : InstallKernelBuild)
  | RegisterRepositoryBinding (c : RegisterRepository)
  | RegisterSealedArtifact (c : RegisterArtifact)
  | ActivateRevision (c : ActivateApplicationRevision).

Definition execute_storage (d : Disk) (db : Database) (command : StorageCommand) : option Database :=
  match command with
  | InstallBuild c => committed (install_kernel_build blake3 maximum d db c)
  | RegisterRepositoryBinding c => committed (register_repository blake3 db c)
  | RegisterSealedArtifact c => committed (register_artifact blake3 maximum d db c)
  | ActivateRevision c => committed (activate_application_revision blake3 db c)
  end.

(** One thing that happens to the store and the database.  An adoption or an
    admission may crash at any call: what it left on the disk stays. *)
Inductive happens : Disk * Database -> Disk * Database -> Prop :=
  | adopts_file root path w db :
      happens (disk w, db) (disk (adopt blake3 maximum turns (staging_of root) path w).1, db)
  | adopts_bytes bytes w db :
      happens (disk w, db) (disk (adopt_kernel_bytes blake3 maximum turns bytes w).1, db)
  | stores command d db db' :
      execute_storage d db command = Some db' -> happens (d, db) (d, db')
  | admits c w w' db db' r :
      admit_compiled_application blake3 maximum turns staging_of reader db c w = (w', r) ->
      db' = match r with Ok (_, db') => db' | Err _ => db end ->
      happens (disk w, db) (disk w', db')
  | commands command d db db' :
      execute blake3 db command = Some db' -> happens (d, db) (d, db')
  | processes command d db db' :
      execute_process blake3 to_timestamp db command = Some db' -> happens (d, db) (d, db')
  | time_passes time d db : happens (d, db) (d, at_time time db).

Definition installed (s : Disk * Database) : Prop :=
  exists d time, rtc happens (d, empty_database time) s.

Context {HL : LawfulMachine blake3 maximum} (Hmaximum : 0 <= maximum).

Lemma storage_step d db command db' :
  execute_storage d db command = Some db' -> bootstrap_step blake3 maximum d db db'.
Proof.
  destruct command; simpl; rewrite committed_Some; intros [receipt H];
    eauto using install_step, register_repository_step, register_artifact_step, activate_step.
Qed.

(** The ticket and process commands leave the artifacts alone. *)
Lemma same_artifacts_sealed d db db' :
  artifacts db' = artifacts db -> artifacts_sealed blake3 maximum d db ->
  artifacts_sealed blake3 maximum d db'.
Proof. unfold artifacts_sealed. by intros ->. Qed.

Lemma happens_step s s' :
  happens s s' ->
  grows blake3 maximum s.1 s'.1 /\ rtc (kernel_step blake3 to_timestamp) s.2 s'.2 /\
  (audit_sound s.2 -> audit_sound s'.2) /\
  (artifacts_sealed blake3 maximum s.1 s.2 -> artifacts_sealed blake3 maximum s'.1 s'.2).
Proof.
  destruct 1 as [root path w db|bytes w db|command d db db' H|c w w' db db' r H ->|command d db db' H
    |command d db db' H|time d db]; simpl.
  - pose proof (holds_adopt blake3 maximum turns (staging_of root) path Hmaximum w I) as Hw.
    destruct (adopt _ _ _ _ _ w) as [w' r]. destruct Hw as [Hg _].
    split_and!; [done|apply rtc_refl|done|by apply artifacts_sealed_later].
  - pose proof (holds_adopt_kernel_bytes blake3 maximum turns bytes w I) as Hw.
    destruct (adopt_kernel_bytes _ _ _ _ w) as [w' r]. destruct Hw as [Hg _].
    split_and!; [done|apply rtc_refl|done|by apply artifacts_sealed_later].
  - apply storage_step in H as [Ha Hs Hv].
    split_and!; [done|by apply rtc_once, kernel_ambient|done|done].
  - apply admit_compiled_step in H as [Hg Hr]; [|done..]. destruct r as [[receipt db']|e].
    + destruct (Hr receipt db' eq_refl) as [Ha Hs Hv].
      split_and!; [done|by apply rtc_once, kernel_ambient|done|].
      intros H. by apply Hv, (artifacts_sealed_later _ _ _ _ _ Hg).
    + split_and!; [done|apply rtc_refl|done|by apply artifacts_sealed_later].
  - split_and!; [done|by eapply rtc_once, kernel_ticket|by eapply execute_sound|].
    apply same_artifacts_sealed. by eapply execute_artifacts.
  - split_and!; [done|by eapply rtc_once, kernel_process|by eapply execute_process_sound|].
    apply same_artifacts_sealed. by eapply execute_process_artifacts.
  - split_and!; [done| | |done].
    + apply rtc_once, kernel_ambient. repeat constructor; simpl; try done; eauto.
    + intros [Hv Hc]. by constructor.
Qed.

(** What a run of an installation keeps. *)
Definition sound (s : Disk * Database) : Prop :=
  kernel_reachable blake3 to_timestamp s.2 /\ audit_sound s.2 /\
  artifacts_sealed blake3 maximum s.1 s.2.

Lemma happens_sound s s' : happens s s' -> sound s -> sound s'.
Proof.
  intros (Hg & Hk & Hs & Hv)%happens_step ((db0 & Hp & Hr) & Ha & Hd).
  split_and!; [|auto..]. exists db0. split; [done|]. by etransitivity.
Qed.

Lemma installed_sound s : installed s -> sound s.
Proof.
  intros (d & time & Hr).
  assert (H0 : sound (d, empty_database time)).
  { split_and!; simpl.
    - exists (empty_database time). split; [by repeat constructor|apply rtc_refl].
    - constructor; [done|]. intros k i op Hin. vm_compute in Hin. by apply elem_of_nil in Hin.
    - intros id row. simpl. by rewrite lookup_empty. }
  induction Hr as [|x y z H _ IH]; [done|]. by apply IH, (happens_sound x).
Qed.
End installation.

(** * The restore gate *)

Section gate.
Context (blake3 : list Z -> ContentDigest) (maximum : Z).

#[local] Abbreviation gate := (verify_restore_integrity blake3 maximum).

Lemma first_invalid_None db :
  first_invalid_audit_subject db = None <->
  forall key row, audit_log db !! key = Some row -> valid_subject db row = true.
Proof.
  unfold first_invalid_audit_subject. rewrite fmap_None, first_by_None. split.
  - intros H key row Hrow. apply not_false_iff_true. intros E.
    assert (Hin : In row (List.filter (fun row => negb (valid_subject db row))
      (snd <$> map_to_list (audit_log db)))).
    { apply filter_In. split; [|by rewrite E]. apply list_elem_of_In, list_elem_of_fmap.
      exists (key, row). split; [done|]. by apply elem_of_map_to_list. }
    by rewrite H in Hin.
  - intros H. destruct (List.filter _ _) as [|row rest] eqn:E; [done|exfalso].
    assert (Hin : In row (row :: rest)) by by left.
    rewrite <- E in Hin. apply filter_In in Hin as [Hin Hv].
    apply list_elem_of_In, list_elem_of_fmap in Hin as ([key row'] & -> & Hin%elem_of_map_to_list).
    simpl in Hv. by rewrite (H _ _ Hin) in Hv.
Qed.

(** ** Paging *)

Definition rows_after (db : Database) (id : Z) : list (Z * ArtifactRow) :=
  rows_where (fun i _ => id <? i) (artifacts db).

Lemma page_order db id :
  exists rest, order_by (fun kv : Z * ArtifactRow => [kv.1]) (rows_after db id) = artifact_page db id ++ rest /\
    length (artifact_page db id) = (128 `min` length (rows_after db id))%nat.
Proof.
  exists (drop 128 (order_by (fun kv : Z * ArtifactRow => [kv.1]) (rows_after db id))).
  split; [symmetry; apply take_drop|].
  unfold artifact_page. rewrite length_take. by rewrite (Permutation_length (order_by_perm _ _)).
Qed.

(** A page ends at the largest id it holds, and what follows is larger. *)
Lemma page_last db id k v page :
  artifact_page db id = page ++ [(k, v)] ->
  id < k /\ forall i row, artifacts db !! i = Some row -> id < i ->
    (i, row) ∈ artifact_page db id \/ k < i.
Proof.
  intros E. destruct (page_order db id) as (rest & Ho & _).
  assert (Hin : forall i row, (i, row) ∈ artifact_page db id ++ rest <->
      artifacts db !! i = Some row /\ id < i).
  { intros i row. rewrite <- Ho, order_by_perm. unfold rows_after. by rewrite rows_where_elem, Z.ltb_lt. }
  split.
  - apply (Hin k v). rewrite E, !elem_of_app. left. right. by left.
  - intros i row Hi Hlt. pose proof (proj2 (Hin i row) (conj Hi Hlt)) as [?|Hr]%elem_of_app; [by left|right].
    pose proof (order_by_sorted (fun kv : Z * ArtifactRow => [kv.1]) (rows_after db id)) as Hs.
    assert (Hnd : NoDup (artifact_page db id ++ rest)).
    { rewrite <- Ho, order_by_perm. apply NoDup_rows_where. }
    rewrite Ho in Hs.
    assert (Hk : (k, v) ∈ artifact_page db id) by (rewrite E; apply elem_of_app; right; by left).
    pose proof (StronglySorted_app_1_elem_of _ _ _ (k, v) (i, row) Hs Hk Hr) as Hle.
    simpl in Hle. destruct (Z.ltb_spec i k) as [|Hge]; [done|].
    destruct (decide (i = k)) as [->|]; [exfalso|lia].
    assert (v = row) as <-.
    { pose proof (proj1 (Hin k v)) as H. rewrite elem_of_app in H. destruct (H (or_introl Hk)). congruence. }
    apply NoDup_app in Hnd as (_ & Hd & _). by apply (Hd _ Hk).
Qed.

Lemma page_empty db id i row :
  artifact_page db id = [] -> artifacts db !! i = Some row -> i <= id.
Proof.
  intros E Hi. destruct (page_order db id) as (rest & _ & Hl). rewrite E in Hl. simpl in Hl.
  assert (Hn : rows_after db id = []) by by destruct (rows_after db id).
  destruct (Z.le_gt_cases i id) as [|Hgt]; [done|exfalso].
  assert (Hin : (i, row) ∈ rows_after db id).
  { apply rows_where_elem. split; [done|]. by apply Z.ltb_lt. }
  rewrite Hn in Hin. by apply elem_of_nil in Hin.
Qed.

Lemma page_row db id i row :
  (i, row) ∈ artifact_page db id -> artifacts db !! i = Some row /\ id < i.
Proof.
  intros Hin. destruct (page_order db id) as (rest & Ho & _).
  assert (H : (i, row) ∈ artifact_page db id ++ rest) by by apply elem_of_app; left.
  rewrite <- Ho, order_by_perm in H. by apply rows_where_elem in H as [? ?%Z.ltb_lt].
Qed.

(** Fewer rows follow a page than its start. *)
Lemma rows_after_last db id k v page :
  artifact_page db id = page ++ [(k, v)] ->
  (length (rows_after db k) < length (rows_after db id))%nat.
Proof.
  intros E. destruct (page_last _ _ _ _ _ E) as [Hlt _].
  assert (Hk : artifacts db !! k = Some v).
  { apply (page_row db id). rewrite E. apply elem_of_app. right. by left. }
  assert (Hsub : (k, v) :: rows_after db k ⊆+ rows_after db id).
  { apply NoDup_submseteq.
    - constructor; [|apply NoDup_rows_where]. intros [_ H]%rows_where_elem.
      apply Z.ltb_lt in H. lia.
    - intros [i row] [[= -> ->]|Hin]%elem_of_cons; apply rows_where_elem.
      + split; [done|]. by apply Z.ltb_lt.
      + apply rows_where_elem in Hin as [Hi H%Z.ltb_lt]. split; [done|]. apply Z.ltb_lt. lia. }
  apply submseteq_length in Hsub. simpl in Hsub. lia.
Qed.

Lemma list_last_app {A} (l : list A) a d : List.last (l ++ [a]) d = a.
Proof. induction l as [|b l IH]; [done|]. simpl. rewrite IH. by destruct l. Qed.

Lemma verify_pages_Ok d db turns : forall id,
  (length (rows_after db id) < turns)%nat ->
  verify_pages blake3 maximum turns d db id = Ok tt <->
  forall i row, artifacts db !! i = Some row -> id < i -> verify_artifact blake3 maximum d row = Ok tt.
Proof.
  induction turns as [|turns IH]; intros id Hturns; [lia|]. cbn [verify_pages].
  destruct (artifact_page db id) as [|first rest] eqn:E.
  { split; [|done]. intros _ i row Hi Hlt. pose proof (page_empty _ _ _ _ E Hi). lia. }
  destruct (List.exists_last (l := first :: rest)) as (page & [k v] & Hpage); [done|].
  rewrite Hpage in *.
  assert (Hlast : List.last (fst <$> page ++ [(k, v)]) id = k) by (rewrite fmap_app; apply list_last_app).
  rewrite Hlast. destruct (page_last _ _ _ _ _ E) as [Hlt Hrows].
  pose proof (rows_after_last _ _ _ _ _ E) as Hfewer.
  rewrite bind_Ok. split.
  - intros ([] & Hf & Hrest) i row Hi Hid. rewrite IH in Hrest by lia.
    apply for_each_Ok in Hf. rewrite Forall_forall in Hf.
    destruct (Hrows i row Hi Hid) as [Hin|Hk]; [|by eapply Hrest].
    rewrite E in Hin. by apply (Hf (i, row)).
  - intros H. exists tt. split.
    + apply for_each_Ok, Forall_forall. intros [i row] Hin. rewrite <- E in Hin.
      apply page_row in Hin as [? ?]. by apply (H i).
    + apply IH; [lia|]. intros i row Hi Hk. apply (H i); [done|lia].
Qed.

Lemma gate_passes schema d db :
  gate schema d db = Ok tt <->
  schema = Some SCHEMA_IDENTITY /\
  (forall kind id op, (kind, id, op) ∈ facts db ->
     1 <= receipts db kind id op /\ (kind <> ARTIFACT_SUBJECT -> receipts db kind id op = 1)) /\
  (forall key row, audit_log db !! key = Some row -> valid_subject db row = true) /\
  (forall id row, artifacts db !! id = Some row -> 0 < id ->
     verify_artifact blake3 maximum d row = Ok tt).
Proof.
  assert (Hp : gate schema d db = Ok tt <-> verify_schema_identity schema = Ok tt /\
    audit_is_consistent db = true /\ first_invalid_audit_subject db = None /\
    verify_pages blake3 maximum (S (size (artifacts db))) d db 0 = Ok tt).
  { unfold gate. split.
    - intros H. ok_inv H. destruct x. by destruct (first_invalid_audit_subject db).
    - intros (-> & -> & -> & H). done. }
  rewrite Hp, audit_is_consistent_true, first_invalid_None, verify_pages_Ok.
  - unfold verify_schema_identity. rewrite require_Ok, bool_decide_eq_true. done.
  - unfold rows_after, rows_where. rewrite <- length_map_to_list.
    pose proof (filter_length_le (fun kv : Z * ArtifactRow => 0 <? kv.1) (map_to_list (artifacts db))). lia.
Qed.


(** ** Engineering retries *)

Lemma retry_operation_invalid db row :
  al_operation row = TicketStore.ENGINEERING_RETRY_OPERATION -> valid_subject db row = false.
Proof.
  intros H. unfold valid_subject. rewrite H. cbn -[row_exists bool_decide].
  repeat rewrite (bool_decide_false (TicketStore.ENGINEERING_RETRY_OPERATION ∈ _)) by by vm_compute.
  by rewrite !andb_false_r.
Qed.

Lemma retry_receipt_invalid db row : retry_receipt row = true -> valid_subject db row = false.
Proof. unfold retry_receipt. intros H. bool_prop. by apply retry_operation_invalid. Qed.

(** A sound database passes the gate, but for the first Engineering retry its
    audit log records. *)
Lemma gate_of_sound d db :
  audit_sound db -> artifacts_sealed blake3 maximum d db ->
  (gate (Some SCHEMA_IDENTITY) d db = Ok tt /\
   forall key row, audit_log db !! key = Some row -> retry_receipt row = false) \/
  (exists key row, audit_log db !! key = Some row /\ retry_receipt row = true /\
   gate (Some SCHEMA_IDENTITY) d db
     = Err (RestoreAuditSubjectInvalid (al_id row) TicketStore.ENGINEERING_RETRY_SUBJECT
              (al_subject_id row))).
Proof.
  intros [Hv Hc] Hd. destruct (first_invalid_audit_subject db) as [invalid|] eqn:E.
  - right. pose proof E as (row & [Hin _]%first_by_Some & Einv)%fmap_Some.
    apply list_elem_of_In, filter_In in Hin as [Hin Hbad].
    apply list_elem_of_In, list_elem_of_fmap in Hin as ([key row'] & -> & Hin%elem_of_map_to_list).
    simpl in *. exists key, row'.
    assert (Hr : retry_receipt row' = true).
    { apply not_false_iff_true. intros Hn. by rewrite (Hv _ _ Hin Hn) in Hbad. }
    split_and!; [done|done|]. unfold gate, verify_schema_identity.
    rewrite bool_decide_true by done. simpl.
    rewrite (proj2 (audit_is_consistent_true db)) by exact Hc. simpl. rewrite E, Einv. simpl.
    unfold retry_receipt in Hr. bool_prop. by rewrite H.
  - left. pose proof (proj1 (first_invalid_None db) E) as Hall. split.
    + apply gate_passes. split_and!; [done|exact Hc|exact Hall|]. intros id row Hrow _. by eapply Hd.
    + intros key row Hrow. apply not_true_iff_false. intros Hr%(retry_receipt_invalid db).
      rewrite (Hall _ _ Hrow) in Hr. done.
Qed.
End gate.

(** C14: An installation restarts on its own database and store: on every state it
    reaches from nothing by the commands of the storage, admission, activation,
    ticket, decision and process stores (not of the Forum or the publications) the
    restore gate passes unless an Engineering retry was ever committed, and then
    its receipt is what the gate refuses. *)
Theorem daemon_restarts blake3 maximum {M : Machine} {HL : LawfulMachine blake3 maximum}
    to_timestamp turns staging_of reader d db :
  0 <= maximum ->
  installed blake3 maximum to_timestamp turns staging_of reader (d, db) ->
  (verify_restore_integrity blake3 maximum (Some SCHEMA_IDENTITY) d db = Ok tt /\
   forall key row, audit_log db !! key = Some row -> retry_receipt row = false) \/
  (exists key row, audit_log db !! key = Some row /\ retry_receipt row = true /\
   verify_restore_integrity blake3 maximum (Some SCHEMA_IDENTITY) d db
     = Err (RestoreAuditSubjectInvalid (al_id row) TicketStore.ENGINEERING_RETRY_SUBJECT
              (al_subject_id row))).
Proof.
  intros Hmax (_ & Ha & Hd)%installed_sound; [|done..]. by apply gate_of_sound.
Qed.

(** C18: Once an Engineering retry was accepted no later state of the kernel passes
    the restore gate, whatever the store holds. *)
Theorem engineering_retry_prevents_restart blake3 to_timestamp db c r db' db'' :
  TicketStore.retry_engineering_attempt blake3 db c = Ok (r, db') ->
  rtc (kernel_step blake3 to_timestamp) db' db'' ->
  forall maximum schema d, verify_restore_integrity blake3 maximum schema d db'' <> Ok tt.
Proof.
  intros H Hr maximum schema d Hgate.
  assert (Hrow : exists key row, audit_log db' !! key = Some row /\
    al_operation row = TicketStore.ENGINEERING_RETRY_OPERATION).
  { unfold TicketStore.retry_engineering_attempt in H. ok_inv H.
    - match goal with Hf : TicketStore.find_ticket_audit _ _ _ _ _ = Ok _ |- _ =>
        apply ts_find_audit_Ok in Hf as (row & ? & ? & _); eauto end.
    - match goal with Ha : TicketStore.insert_ticket_audit _ _ _ _ _ _ _ _ = Ok _ |- _ =>
        apply ts_audit_added in Ha as (row & (key & _ & ->) & _ & _ & Ho) end.
      exists key, row. simpl. by rewrite lookup_insert_eq. }
  destruct Hrow as (key & row & Hrow & Hretry).
  apply kernel_steps_runs, steps_transitions, transitions_extend in Hr.
  apply gate_passes in Hgate as (_ & _ & Hv & _).
  specialize (Hv key row). rewrite (retry_operation_invalid _ _ Hretry) in Hv.
  by discriminate Hv; eapply lookup_weaken; [|apply ex_audit].
Qed.
