(* ===== verification/Fingerprints.v ===== *)
(** Command fingerprints: the byte string each command hashes determines the
    command, over all operations of both stores. *)
From S2P Require Import Prelude Values Contracts Database Lifecycle Idempotency Scenario.
From S2P Require TicketStore DecisionStore.

(** * Ranges of the encoded fields *)

(** A database id or a 64-bit counter, a Rust string, a 32-byte digest. *)
Definition word (z : Z) : Prop := 0 <= z < 2 ^ 64.
Definition short (s : string) : Prop := string_len s < 2 ^ 64.
Definition digest32 (d : ContentDigest) : Prop := length d = 32%nat.

Definition sealed_fits (r : SealedArtifactReferenceV2) : Prop :=
  word (artifact_id r) /\ digest32 (digest r) /\ word (byte_length r).

Definition requalification_fits (q : TicketStore.CurrentHeadRequalification) : Prop :=
  short (TicketStore.current_head_commit q) /\ short (TicketStore.current_head_tree q) /\
  word (TicketStore.first_actual_observation_artifact_id q) /\
  word (TicketStore.second_actual_observation_artifact_id q).

Definition failure_fits (c : TicketStore.FailTicketAttempt) : Prop :=
  short (TicketStore.fta_principal c) /\ short (TicketStore.fta_command_id c) /\
  word (TicketStore.fta_ticket_attempt_id c) /\
  word (TicketStore.fta_expected_attempt_revision c) /\
  word (TicketStore.fta_expected_ticket_revision c) /\ short (TicketStore.fta_reason c).

(** Every field has the width of its Rust type. *)
Definition command_fits (command : Command) : Prop :=
  match command with
  | ProposeTicket c =>
      short (TicketStore.stp_principal c) /\ short (TicketStore.stp_command_id c) /\
      word (TicketStore.stp_expected_application_revision c) /\
      word (TicketStore.stp_application_revision_id c) /\
      word (TicketStore.stp_proposal_artifact_id c) /\
      word (TicketStore.stp_reproducer_artifact_id c) /\
      word (TicketStore.stp_expected_observation_artifact_id c) /\
      word (TicketStore.stp_first_actual_observation_artifact_id c) /\
      word (TicketStore.stp_second_actual_observation_artifact_id c) /\
      short (TicketStore.stp_discovery_commit c) /\ short (TicketStore.stp_discovery_tree c)
  | SponsorRevision c =>
      short (TicketStore.str_principal c) /\ short (TicketStore.str_command_id c) /\
      word (TicketStore.str_ticket_revision_id c) /\
      word (TicketStore.str_expected_ticket_revision c) /\ short (TicketStore.str_reason c)
  | ClaimTicket c =>
      short (TicketStore.cst_principal c) /\ short (TicketStore.cst_command_id c) /\
      word (TicketStore.cst_campaign_id c) /\
      word (TicketStore.cst_expected_campaign_revision c) /\
      word (TicketStore.cst_ticket_revision_id c) /\
      word (TicketStore.cst_expected_ticket_revision c) /\
      requalification_fits (TicketStore.cst_requalification c)
  | FailAttempt c => failure_fits c
  | RetryEngineering c => failure_fits c
  | RetryQuality c =>
      short (TicketStore.rqa_principal c) /\ short (TicketStore.rqa_command_id c) /\
      word (TicketStore.rqa_ticket_attempt_id c) /\ word (TicketStore.rqa_candidate_id c) /\
      word (TicketStore.rqa_expected_attempt_revision c) /\
      word (TicketStore.rqa_expected_ticket_revision c) /\ short (TicketStore.rqa_reason c)
  | ReleaseAttempt c =>
      short (TicketStore.rta_principal c) /\ short (TicketStore.rta_command_id c) /\
      word (TicketStore.rta_ticket_attempt_id c) /\
      word (TicketStore.rta_expected_attempt_revision c) /\
      word (TicketStore.rta_expected_ticket_revision c) /\ short (TicketStore.rta_reason c) /\
      requalification_fits (TicketStore.rta_requalification c)
  | CompleteCampaign c =>
      short (TicketStore.ccd_principal c) /\ short (TicketStore.ccd_command_id c) /\
      word (TicketStore.ccd_campaign_id c) /\ word (TicketStore.ccd_expected_campaign_revision c)
  | SubmitCandidate c =>
      short (DecisionStore.sc_principal c) /\ short (DecisionStore.sc_command_id c) /\
      word (DecisionStore.sc_ticket_attempt_id c) /\
      word (DecisionStore.sc_expected_attempt_revision c) /\
      word (DecisionStore.sc_expected_ticket_revision c) /\
      word (DecisionStore.sc_engineering_session_id c) /\
      short (DecisionStore.sc_base_commit c) /\ short (DecisionStore.sc_base_tree c) /\
      short (DecisionStore.sc_regression_tree c) /\ short (DecisionStore.sc_candidate_tree c) /\
      sealed_fits (DecisionStore.sc_changed_paths c) /\
      sealed_fits (DecisionStore.sc_regression_patch c) /\
      sealed_fits (DecisionStore.sc_regression_command_set c) /\
      sealed_fits (DecisionStore.sc_regression_log c) /\
      sealed_fits (DecisionStore.sc_candidate_patch c) /\
      sealed_fits (DecisionStore.sc_engineering_report c) /\
      sealed_fits (DecisionStore.sc_engineering_risks c) /\
      short (commit_subject (DecisionStore.sc_submission c)) /\
      short (commit_body (DecisionStore.sc_submission c)) /\
      short (regression_test_identity (DecisionStore.sc_submission c))
  | RecordValidation c =>
      short (DecisionStore.rv_principal c) /\ short (DecisionStore.rv_command_id c) /\
      word (DecisionStore.rv_candidate_id c) /\
      word (DecisionStore.rv_expected_candidate_revision c) /\
      word (DecisionStore.rv_expected_attempt_revision c) /\
      digest32 (DecisionStore.rv_kernel_build_id c) /\
      word (DecisionStore.rv_performed_by_session_id c) /\
      short (DecisionStore.rv_validation_profile c) /\
      short (DecisionStore.rv_pristine_tree c) /\ sealed_fits (DecisionStore.rv_command_set c) /\
      word (DecisionStore.rv_duration_millis c) /\ sealed_fits (DecisionStore.rv_log c)
  | AttachCommit c =>
      short (DecisionStore.acc_principal c) /\ short (DecisionStore.acc_command_id c) /\
      word (DecisionStore.acc_candidate_id c) /\
      word (DecisionStore.acc_expected_candidate_revision c) /\
      short (DecisionStore.acc_candidate_commit c) /\ short (DecisionStore.acc_candidate_ref c)
  | SubmitReview c =>
      short (DecisionStore.sqr_principal c) /\ short (DecisionStore.sqr_command_id c) /\
      word (DecisionStore.sqr_candidate_id c) /\
      word (DecisionStore.sqr_expected_candidate_revision c) /\
      word (DecisionStore.sqr_expected_attempt_revision c) /\
      word (DecisionStore.sqr_quality_session_id c) /\
      word (full_suite_validation_id (DecisionStore.sqr_submission c)) /\
      sealed_fits (review_rationale (DecisionStore.sqr_submission c)) /\
      sealed_fits (risks (DecisionStore.sqr_submission c)) /\
      sealed_fits (additional_probes (DecisionStore.sqr_submission c))
  | ArchitectSponsor c =>
      short (sponsorship_principal (DecisionStore.st_decision c)) /\
      short (DecisionStore.st_command_id c) /\ word (DecisionStore.st_expected_ticket_revision c) /\
      word (sponsored_ticket_revision_id (DecisionStore.st_decision c)) /\
      sealed_fits (sponsorship_rationale (DecisionStore.st_decision c))
  | ArchitectRelease c =>
      short (release_principal (DecisionStore.rl_decision c)) /\
      short (DecisionStore.rl_command_id c) /\
      word (DecisionStore.rl_expected_attempt_revision c) /\
      word (DecisionStore.rl_expected_ticket_revision c) /\
      word (released_ticket_attempt_id (DecisionStore.rl_decision c)) /\
      sealed_fits (release_rationale (DecisionStore.rl_decision c)) /\
      short (TicketStore.current_head_commit (DecisionStore.rl_requalification c)) /\
      short (TicketStore.current_head_tree (DecisionStore.rl_requalification c)) /\
      word (TicketStore.first_actual_observation_artifact_id (DecisionStore.rl_requalification c)) /\
      word (TicketStore.second_actual_observation_artifact_id (DecisionStore.rl_requalification c))
  | DecideCandidate c =>
      short (request_principal (DecisionStore.dc_request c)) /\
      short (DecisionStore.dc_command_id c) /\
      word (DecisionStore.dc_expected_candidate_revision c) /\
      word (DecisionStore.dc_expected_attempt_revision c) /\
      word (DecisionStore.dc_expected_ticket_revision c) /\
      word (request_candidate_id (DecisionStore.dc_request c)) /\
      word (request_review_id (DecisionStore.dc_request c)) /\
      sealed_fits (request_rationale (DecisionStore.dc_request c)) /\
      (forall z, quality_rejection_override (DecisionStore.dc_request c) = Some z -> word z)
  | RecordDelivery c =>
      short (DecisionStore.rd_principal c) /\ short (DecisionStore.rd_command_id c) /\
      word (DecisionStore.rd_candidate_id c) /\
      word (DecisionStore.rd_expected_candidate_revision c) /\
      word (DecisionStore.rd_expected_attempt_revision c) /\
      word (DecisionStore.rd_expected_ticket_revision c) /\
      word (DecisionStore.rd_expected_campaign_revision c) /\
      short (DecisionStore.rd_expected_old_commit c) /\
      short (DecisionStore.rd_candidate_commit c) /\
      short (DecisionStore.rd_resulting_commit c) /\ short (DecisionStore.rd_resulting_tree c) /\
      word (DecisionStore.rd_factory_cost_micro_usd c) /\ sealed_fits (DecisionStore.rd_receipt c)
  end.

(** * One field at a time *)

Lemma be_bytes_length n z : length (be_bytes n z) = n.
Proof. unfold be_bytes. by rewrite length_fmap, length_rev, length_seq. Qed.

Lemma be_bytes_S n z : be_bytes (S n) z = (z / 2 ^ (8 * Z.of_nat n)) mod 256 :: be_bytes n z.
Proof. unfold be_bytes. by rewrite seq_S, rev_app_distr. Qed.

Lemma be_bytes_mod n z w :
  be_bytes n z = be_bytes n w -> z mod 2 ^ (8 * Z.of_nat n) = w mod 2 ^ (8 * Z.of_nat n).
Proof.
  induction n as [|n IH]; [by rewrite !Z.mod_1_r|]. rewrite !be_bytes_S.
  intros [= Eb E%IH]. replace (8 * Z.of_nat (S n)) with (8 * Z.of_nat n + 8) by lia.
  rewrite Z.pow_add_r by lia. rewrite !Z.rem_mul_r by lia.
  change (2 ^ 8) with 256. by rewrite Eb, E.
Qed.

Lemma be_bytes_app z w r r' :
  word z -> word w -> be_bytes 8 z ++ r = be_bytes 8 w ++ r' -> z = w /\ r = r'.
Proof.
  intros Hz Hw E. apply app_inj_1 in E as [E ->]; [|by rewrite !be_bytes_length].
  apply be_bytes_mod in E. unfold word in *. change (8 * Z.of_nat 8) with 64 in E.
  by rewrite !Z.mod_small in E by lia.
Qed.

Lemma be_bytes_rev_app z w r r' :
  word z -> word w -> rev (be_bytes 8 z) ++ r = rev (be_bytes 8 w) ++ r' -> z = w /\ r = r'.
Proof.
  intros Hz Hw E. apply app_inj_1 in E as [E ->]; [|by rewrite !length_rev, !be_bytes_length].
  apply (f_equal (@rev Z)) in E. rewrite !rev_involutive in E.
  apply (be_bytes_app z w [] []) in E as [-> _]; done.
Qed.

(** From here on a field is read through the lemmas above. *)
Local Opaque be_bytes.

Lemma hash_string_app s s' r r' :
  short s -> short s' ->
  TicketStore.hash_string s ++ r = TicketStore.hash_string s' ++ r' -> s = s' /\ r = r'.
Proof.
  unfold TicketStore.hash_string, short. intros Hs Hs' E. rewrite <- !app_assoc in E.
  apply be_bytes_app in E as [El E]; [|unfold word, string_len in *; lia..].
  unfold string_len in El. rewrite <- !string_bytes_length in El.
  apply app_inj_1 in E as [E ->]; [|lia]. split; [by apply string_bytes_inj|done].
Qed.

Lemma digest_app d d' (r r' : list Z) :
  digest32 d -> digest32 d' -> d ++ r = d' ++ r' -> d = d' /\ r = r'.
Proof. unfold digest32. intros Hd Hd'. apply app_inj_1. congruence. Qed.

Lemma hash_sealed_app a a' r r' :
  sealed_fits a -> sealed_fits a' ->
  DecisionStore.hash_sealed a ++ r = DecisionStore.hash_sealed a' ++ r' -> a = a' /\ r = r'.
Proof.
  destruct a as [i d n], a' as [i' d' n']. intros (Hi & Hd & Hn) (Hi' & Hd' & Hn').
  unfold DecisionStore.hash_sealed, DecisionStore.hash_i64, DecisionStore.hash_u64. simpl in *.
  rewrite <- !app_assoc. intros E. apply be_bytes_app in E as [-> E]; try done.
  apply digest_app in E as [-> E]; try done. by apply be_bytes_app in E as [-> ->].
Qed.

Lemma hash_requalification_app q q' r r' :
  requalification_fits q -> requalification_fits q' ->
  TicketStore.hash_requalification q ++ r = TicketStore.hash_requalification q' ++ r' ->
  q = q' /\ r = r'.
Proof.
  destruct q, q'. intros (H1 & H2 & H3 & H4) (K1 & K2 & K3 & K4).
  unfold TicketStore.hash_requalification, TicketStore.hash_artifact. simpl in *.
  rewrite <- !app_assoc. intros E. apply hash_string_app in E as [-> E]; try done.
  apply hash_string_app in E as [-> E]; try done. apply be_bytes_app in E as [-> E]; try done.
  by apply be_bytes_app in E as [-> ->].
Qed.

Lemma single_app (b b' : Z) r r' : b :: r = b' :: r' -> b = b' /\ r = r'.
Proof. by intros [= -> ->]. Qed.

Lemma override_app (o o' : option Z) :
  (forall z, o = Some z -> word z) -> (forall z, o' = Some z -> word z) ->
  match o with Some v => [1] ++ DecisionStore.hash_i64 v | None => [0] end =
  match o' with Some v => [1] ++ DecisionStore.hash_i64 v | None => [0] end -> o = o'.
Proof.
  destruct o as [z|], o' as [z'|]; intros H H' E; try done. f_equal.
  apply (f_equal List.tl) in E. cbn [app List.tl] in E. unfold DecisionStore.hash_i64 in E.
  rewrite <- (app_nil_r (be_bytes 8 z)), <- (app_nil_r (be_bytes 8 z')) in E.
  apply be_bytes_app in E as [-> _]; auto.
Qed.

(** * Which operation wrote the bytes *)

(** Every preimage opens with its operation name, length-prefixed in the
    decision store. *)
Definition command_tag (command : Command) : list Z :=
  match command with
  | ProposeTicket _ | SponsorRevision _ | ClaimTicket _ | FailAttempt _ | RetryQuality _
  | RetryEngineering _ | ReleaseAttempt _ | CompleteCampaign _ =>
      string_bytes (command_operation command)
  | _ => TicketStore.hash_string (command_operation command)
  end.

Lemma command_preimage_tag command :
  exists rest, command_preimage command = command_tag command ++ rest.
Proof.
  destruct command; cbn -[TicketStore.hash_string string_bytes app]; eexists;
    match goal with |- ?f _ = _ => unfold f | |- ?f _ _ = _ => unfold f end;
    unfold TicketStore.ticket_fingerprint_prefix, DecisionStore.fingerprint_prefix;
    rewrite <- !app_assoc; reflexivity.
Qed.

Fixpoint tags_agree (l l' : list Z) : bool :=
  match l, l' with
  | a :: l, b :: l' => (a =? b) && tags_agree l l'
  | _, _ => true
  end.

Lemma tags_clash (l l' r r' : list Z) : l ++ r = l' ++ r' -> tags_agree l l' = true.
Proof.
  revert l'. induction l as [|a l IH]; [done|]. intros [|b l'] E; [done|].
  injection E as -> E. simpl. by rewrite Z.eqb_refl, (IH l').
Qed.

(** Reads both sides field by field. *)
Ltac read_fields E :=
  repeat first
    [ apply hash_string_app in E as [? E]; [|assumption..]
    | apply hash_sealed_app in E as [? E]; [|assumption..]
    | apply hash_requalification_app in E as [? E]; [|assumption..]
    | apply be_bytes_app in E as [? E]; [|assumption..]
    | apply be_bytes_rev_app in E as [? E]; [|assumption..]
    | apply digest_app in E as [? E]; [|assumption..]
    | apply single_app in E as [? E]; rewrite <- ?app_assoc in E ].

Ltac open_fields :=
  repeat match goal with
  | c : CandidateSubmissionV2 |- _ => destruct c
  | c : QualityReviewSubmissionV2 |- _ => destruct c
  | c : SponsorshipDecisionV2 |- _ => destruct c
  | c : ReleaseDecisionV2 |- _ => destruct c
  | c : CandidateDecisionRequestV2 |- _ => destruct c
  | H : _ /\ _ |- _ => destruct H
  end.

(** Two commands of one operation: past the operation name, field by field. *)
Ltac same_operation E :=
  unfold TicketStore.ticket_fingerprint_prefix, DecisionStore.fingerprint_prefix,
    TicketStore.hash_revision, TicketStore.hash_artifact, TicketStore.hash_id,
    DecisionStore.hash_i64, DecisionStore.hash_u64 in E;
  apply (f_equal (fun l => l ++ [])) in E; rewrite <- !app_assoc in E;
  apply app_inv_head in E; cbn [app] in E; read_fields E.

Lemma scope_code_inj a b : DecisionStore.scope_code a = DecisionStore.scope_code b -> a = b.
Proof. by destruct a, b. Qed.

Lemma result_code_inj a b : DecisionStore.result_code a = DecisionStore.result_code b -> a = b.
Proof. by destruct a, b. Qed.

Lemma decision_code_inj a b : DecisionStore.decision_code a = DecisionStore.decision_code b -> a = b.
Proof. by destruct a, b. Qed.

Lemma verdict_code_inj a b :
  DecisionStore.review_verdict_code a = DecisionStore.review_verdict_code b -> a = b.
Proof. by destruct a, b. Qed.

Local Opaque string_bytes TicketStore.hash_string DecisionStore.hash_sealed
  TicketStore.hash_requalification.

Ltac same_fields F F' E :=
  match type of E with
  | ?f ?c = ?f ?d => unfold f in E; destruct c, d
  | ?f _ ?c = ?f _ ?d => unfold f in E; destruct c, d
  end;
  open_fields; simpl in F, F', E; unfold failure_fits in F, F'; simpl in F, F';
  open_fields; same_operation E; subst; try done.

Lemma proposal_inj c d :
  command_fits (ProposeTicket c) -> command_fits (ProposeTicket d) ->
  TicketStore.proposal_preimage c = TicketStore.proposal_preimage d -> c = d.
Proof. intros F F' E. same_fields F F' E. Qed.

Lemma sponsor_inj c d :
  command_fits (SponsorRevision c) -> command_fits (SponsorRevision d) ->
  TicketStore.sponsor_preimage c = TicketStore.sponsor_preimage d -> c = d.
Proof. intros F F' E. same_fields F F' E. Qed.

Lemma claim_inj c d :
  command_fits (ClaimTicket c) -> command_fits (ClaimTicket d) ->
  TicketStore.claim_preimage c = TicketStore.claim_preimage d -> c = d.
Proof. intros F F' E. same_fields F F' E. Qed.

Lemma failure_inj op c d :
  failure_fits c -> failure_fits d ->
  TicketStore.failure_preimage op c = TicketStore.failure_preimage op d -> c = d.
Proof. intros F F' E. same_fields F F' E. Qed.

Lemma quality_retry_inj c d :
  command_fits (RetryQuality c) -> command_fits (RetryQuality d) ->
  TicketStore.quality_retry_preimage c = TicketStore.quality_retry_preimage d -> c = d.
Proof. intros F F' E. same_fields F F' E. Qed.

Lemma release_inj c d :
  command_fits (ReleaseAttempt c) -> command_fits (ReleaseAttempt d) ->
  TicketStore.release_preimage c = TicketStore.release_preimage d -> c = d.
Proof. intros F F' E. same_fields F F' E. Qed.

Lemma completion_inj c d :
  command_fits (CompleteCampaign c) -> command_fits (CompleteCampaign d) ->
  TicketStore.completion_preimage c = TicketStore.completion_preimage d -> c = d.
Proof. intros F F' E. same_fields F F' E. Qed.

Lemma submit_candidate_inj c d :
  command_fits (SubmitCandidate c) -> command_fits (SubmitCandidate d) ->
  DecisionStore.submit_candidate_preimage c = DecisionStore.submit_candidate_preimage d -> c = d.
Proof. intros F F' E. same_fields F F' E. Qed.

Lemma validation_inj c d :
  command_fits (RecordValidation c) -> command_fits (RecordValidation d) ->
  DecisionStore.validation_preimage c = DecisionStore.validation_preimage d -> c = d.
Proof.
  intros F F' E. same_fields F F' E.
  f_equal; auto using scope_code_inj, result_code_inj.
Qed.

Lemma commit_inj c d :
  command_fits (AttachCommit c) -> command_fits (AttachCommit d) ->
  DecisionStore.commit_preimage c = DecisionStore.commit_preimage d -> c = d.
Proof. intros F F' E. same_fields F F' E. Qed.

Lemma review_inj c d :
  command_fits (SubmitReview c) -> command_fits (SubmitReview d) ->
  DecisionStore.review_preimage c = DecisionStore.review_preimage d -> c = d.
Proof.
  intros F F' E. same_fields F F' E. do 2 f_equal. by apply verdict_code_inj.
Qed.

Lemma sponsorship_inj c d :
  command_fits (ArchitectSponsor c) -> command_fits (ArchitectSponsor d) ->
  DecisionStore.sponsorship_preimage c = DecisionStore.sponsorship_preimage d -> c = d.
Proof. intros F F' E. same_fields F F' E. Qed.

Lemma architect_release_inj c d :
  command_fits (ArchitectRelease c) -> command_fits (ArchitectRelease d) ->
  DecisionStore.release_preimage c = DecisionStore.release_preimage d -> c = d.
Proof.
  intros F F' E. same_fields F F' E. repeat match goal with q : TicketStore.CurrentHeadRequalification |- _ =>
    destruct q end.
  simpl in *. by subst.
Qed.

Lemma candidate_decision_inj c d :
  command_fits (DecideCandidate c) -> command_fits (DecideCandidate d) ->
  DecisionStore.candidate_decision_preimage c = DecisionStore.candidate_decision_preimage d ->
  c = d.
Proof.
  intros F F' E. same_fields F F' E. rewrite !app_nil_r in E.
  match goal with Hd : DecisionStore.decision_code _ = _ |- _ => apply decision_code_inj in Hd as -> end.
  do 2 f_equal. by apply override_app.
Qed.

Lemma delivery_inj c d :
  command_fits (RecordDelivery c) -> command_fits (RecordDelivery d) ->
  DecisionStore.delivery_preimage c = DecisionStore.delivery_preimage d -> c = d.
Proof. intros F F' E. same_fields F F' E. Qed.

(** * Theorems *)

(** C39: The bytes a command is fingerprinted by determine the command: over all
    sixteen operations of both stores, no two different commands, with fields
    of their Rust widths, hash the same byte string. *)
Theorem command_preimage_injective c d :
  command_fits c -> command_fits d -> command_preimage c = command_preimage d -> c = d.
Proof.
  intros F F' E.
  assert (Htag : tags_agree (command_tag c) (command_tag d) = true).
  { destruct (command_preimage_tag c) as [r Er], (command_preimage_tag d) as [r' Er'].
    eapply tags_clash. by rewrite <- Er, <- Er'. }
  destruct c, d; try (exfalso; vm_compute in Htag; discriminate Htag);
    clear Htag; f_equal; simpl in E.
  - by apply proposal_inj.
  - by apply sponsor_inj.
  - by apply claim_inj.
  - by eapply failure_inj.
  - by apply quality_retry_inj.
  - by eapply failure_inj.
  - by apply release_inj.
  - by apply completion_inj.
  - by apply submit_candidate_inj.
  - by apply validation_inj.
  - by apply commit_inj.
  - by apply review_inj.
  - by apply sponsorship_inj.
  - by apply architect_release_inj.
  - by apply candidate_decision_inj.
  - by apply delivery_inj.
Qed.

Lemma command_preimage_injective_witness :
  command_fits propose /\ command_fits sponsor /\
  command_preimage propose <> command_preimage sponsor.
Proof.
  assert (F : command_fits propose)
    by (cbn -[Z.pow]; unfold word, short; vm_compute; intuition congruence).
  assert (F' : command_fits sponsor)
    by (cbn -[Z.pow]; unfold word, short; vm_compute; intuition congruence).
  split; [exact F|]. split; [exact F'|]. intros E.
  pose proof (command_preimage_injective propose sponsor F F' E) as H. discriminate H.
Defined.
