(* ===== verification/Guards.v ===== *)
(** What each operation demands before it commits and what it then changes:
    retries, claims, requalification and the Architect's decisions. *)
From S2P Require Import Prelude Values Contracts Database TicketStore Lifecycle Refinement History Scenario.
From S2P Require Import Invariants Idempotency.
From S2P Require DecisionStore.



(** * Audit subjects *)

Lemma audit_subject_exists_true db op kind id :
  TicketStore.audit_subject_exists db op kind id = true <->
  exists key row, audit_log db !! key = Some row /\ al_operation row = op /\
    al_subject_kind row = kind /\ al_subject_id row = id.
Proof.
  unfold TicketStore.audit_subject_exists. rewrite existsb_exists. split.
  - intros ([key row] & Hin & H). simpl in H. bool_prop. exists key, row.
    apply list_elem_of_In, elem_of_map_to_list in Hin. auto.
  - intros (key & row & Hrow & <- & <- & <-). exists (key, row).
    rewrite <- list_elem_of_In, elem_of_map_to_list. split; [done|]. simpl.
    by rewrite bool_decide_true, !Z.eqb_refl.
Qed.

Lemma audit_subject_exists_later blake3 db db' op kind id :
  rtc (step blake3) db db' -> TicketStore.audit_subject_exists db op kind id = true ->
  TicketStore.audit_subject_exists db' op kind id = true.
Proof.
  intros Hr%steps_transitions. rewrite !audit_subject_exists_true.
  intros (key & row & Hrow & H). exists key, row. split; [|done].
  by eapply lookup_weaken, ex_audit, transitions_extend.
Qed.

Lemma insert_ticket_audit_subject db p c op fp k sid r id db' :
  TicketStore.insert_ticket_audit db p c op fp k sid r = Ok (id, db') ->
  TicketStore.audit_subject_exists db' op k sid = true.
Proof.
  unfold TicketStore.insert_ticket_audit, insert_audit_row. intros H. ok_inv H. read_steps.
  ok_inv H. rewrite audit_subject_exists_true. do 2 eexists. split; [apply lookup_insert_eq|done].
Qed.

(** * Single retries *)

Lemma retry_quality_recorded blake3 db c r db' :
  TicketStore.retry_quality_attempt blake3 db c = Ok (r, db') ->
  TicketStore.tar_was_idempotent_retry r = false ->
  TicketStore.audit_subject_exists db' TicketStore.QUALITY_RETRY_OPERATION
    TicketStore.QUALITY_RETRY_SUBJECT (TicketStore.rqa_ticket_attempt_id c) = true.
Proof.
  unfold TicketStore.retry_quality_attempt. intros H Hr. ok_inv H; [discriminate|].
  by eapply insert_ticket_audit_subject.
Qed.

Lemma retry_quality_blocked blake3 db c r db' :
  TicketStore.audit_subject_exists db TicketStore.QUALITY_RETRY_OPERATION
    TicketStore.QUALITY_RETRY_SUBJECT (TicketStore.rqa_ticket_attempt_id c) = true ->
  TicketStore.retry_quality_attempt blake3 db c = Ok (r, db') -> db' = db.
Proof.
  unfold TicketStore.retry_quality_attempt. intros Hprior H. ok_inv H; [done|]. exfalso.
  match goal with Hc : TicketStore.can_retry_quality_attempt _ _ _ _ = true |- _ =>
    unfold TicketStore.can_retry_quality_attempt in Hc; rewrite Hprior, andb_false_r in Hc end.
  discriminate.
Qed.

Lemma retry_engineering_recorded blake3 db c r db' :
  TicketStore.retry_engineering_attempt blake3 db c = Ok (r, db') ->
  TicketStore.tar_was_idempotent_retry r = false ->
  TicketStore.audit_subject_exists db' TicketStore.ENGINEERING_RETRY_OPERATION
    TicketStore.ENGINEERING_RETRY_SUBJECT (TicketStore.fta_ticket_attempt_id c) = true.
Proof.
  unfold TicketStore.retry_engineering_attempt. intros H Hr. ok_inv H; [discriminate|].
  by eapply insert_ticket_audit_subject.
Qed.

Lemma retry_engineering_blocked blake3 db c r db' :
  TicketStore.audit_subject_exists db TicketStore.ENGINEERING_RETRY_OPERATION
    TicketStore.ENGINEERING_RETRY_SUBJECT (TicketStore.fta_ticket_attempt_id c) = true ->
  TicketStore.retry_engineering_attempt blake3 db c = Ok (r, db') -> db' = db.
Proof.
  unfold TicketStore.retry_engineering_attempt. intros Hprior H. ok_inv H; [done|]. exfalso.
  match goal with Hc : TicketStore.can_retry_engineering_attempt _ _ _ = true |- _ =>
    unfold TicketStore.can_retry_engineering_attempt in Hc; rewrite Hprior, andb_false_r in Hc end.
  discriminate.
Qed.

(** Failed work is retried at most once: after one retry of an attempt's
    Quality or of its Engineering committed, a later retry of the same kind of the
    same attempt, under any command identity and whatever ran in between, is
    refused or replays without effect. *)
Theorem failed_work_retried_once blake3 :
  (forall db c r db1 db2 c',
     TicketStore.retry_quality_attempt blake3 db c = Ok (r, db1) ->
     TicketStore.tar_was_idempotent_retry r = false -> rtc (step blake3) db1 db2 ->
     TicketStore.rqa_ticket_attempt_id c' = TicketStore.rqa_ticket_attempt_id c ->
     execute blake3 db2 (RetryQuality c') = None \/
     execute blake3 db2 (RetryQuality c') = Some db2) /\
  (forall db c r db1 db2 c',
     TicketStore.retry_engineering_attempt blake3 db c = Ok (r, db1) ->
     TicketStore.tar_was_idempotent_retry r = false -> rtc (step blake3) db1 db2 ->
     TicketStore.fta_ticket_attempt_id c' = TicketStore.fta_ticket_attempt_id c ->
     execute blake3 db2 (RetryEngineering c') = None \/
     execute blake3 db2 (RetryEngineering c') = Some db2).
Proof.
  split; intros db c r db1 db2 c' H Hr Hs E.
  - destruct (execute blake3 db2 (RetryQuality c')) as [db3|] eqn:H'; [right|by left].
    simpl in H'. apply committed_Some in H' as [r' H']. f_equal.
    eapply retry_quality_blocked; [|exact H']. rewrite E.
    eapply audit_subject_exists_later; [exact Hs|]. by eapply retry_quality_recorded.
  - destruct (execute blake3 db2 (RetryEngineering c')) as [db3|] eqn:H'; [right|by left].
    simpl in H'. apply committed_Some in H' as [r' H']. f_equal.
    eapply retry_engineering_blocked; [|exact H']. rewrite E.
    eapply audit_subject_exists_later; [exact Hs|]. by eapply retry_engineering_recorded.
Qed.

Lemma failed_work_retried_once_witness :
  exists r db1, TicketStore.retry_quality_attempt checksum
      (after checksum installation quality_failed) (quality_retry "r1" 2) = Ok (r, db1) /\
    TicketStore.tar_was_idempotent_retry r = false /\
    (execute checksum db1 (RetryQuality (quality_retry "r2" 3)) = None \/
     execute checksum db1 (RetryQuality (quality_retry "r2" 3)) = Some db1).
Proof.
  destruct (TicketStore.retry_quality_attempt checksum (after checksum installation quality_failed)
    (quality_retry "r1" 2)) as [[r db1]|e] eqn:E; [|vm_compute in E; discriminate E].
  assert (Hr : TicketStore.tar_was_idempotent_retry r = false)
    by (apply (f_equal (fun x => match x with
          | Ok (r, _) => TicketStore.tar_was_idempotent_retry r | Err _ => true end)) in E;
        vm_compute in E; symmetry; exact E).
  exists r, db1. split; [reflexivity|]. split; [exact Hr|].
  exact (proj1 (failed_work_retried_once checksum) _ _ r db1 db1 (quality_retry "r2" 3) E Hr
    (rtc_refl _ _) eq_refl).
Defined.

(** * Requalification *)

(** The digest of a stored artifact, 32 bytes long. *)
Definition observation (db : Database) (id : Z) : option ContentDigest :=
  row ← artifacts db !! id; if Nat.eqb (length (art_digest row)) 32 then Some (art_digest row) else None.

(** What two runs of the reproducer on the current head say about a ticket that
    was discovered with one observation and expects another. *)
Definition judged (expected discovery first second : ContentDigest)
    (outcome : TicketStore.RequalificationOutcome) : Prop :=
  match outcome with
  | TicketStore.Reproduced => first = second /\ first = discovery /\ first <> expected
  | TicketStore.RequalificationResolved => first = second /\ first = expected
  | TicketStore.Diverged => first <> second \/ (first <> expected /\ first <> discovery)
  end.

Definition requalified (db : Database) (expected_id discovery_id : Z)
    (q : TicketStore.CurrentHeadRequalification) (outcome : TicketStore.RequalificationOutcome)
  : Prop :=
  exists expected discovery first second,
    observation db expected_id = Some expected /\ observation db discovery_id = Some discovery /\
    observation db (TicketStore.first_actual_observation_artifact_id q) = Some first /\
    observation db (TicketStore.second_actual_observation_artifact_id q) = Some second /\
    judged expected discovery first second outcome.

Lemma ts_artifact_digest_Ok db id d :
  TicketStore.artifact_digest db id = Ok d <-> observation db id = Some d.
Proof.
  unfold TicketStore.artifact_digest, observation. destruct (artifacts db !! id) as [row|]; simpl.
  - case_match; split; congruence.
  - done.
Qed.

Lemma ds_artifact_digest_Ok db id d :
  DecisionStore.artifact_digest db id = Ok d <-> observation db id = Some d.
Proof.
  unfold DecisionStore.artifact_digest, observation. destruct (artifacts db !! id) as [row|]; simpl.
  - destruct (Nat.eqb _ 32); simpl; split; congruence.
  - done.
Qed.

Lemma judged_exact expected discovery first second o :
  (if negb (bool_decide (first = second)) then TicketStore.Diverged
   else if bool_decide (first = expected) then TicketStore.RequalificationResolved
   else if bool_decide (first = discovery) then TicketStore.Reproduced
   else TicketStore.Diverged) = o <-> judged expected discovery first second o.
Proof.
  unfold judged. repeat case_bool_decide; simpl; split; intros H'; subst; try tauto;
    destruct o; (tauto || intuition congruence).
Qed.

Lemma ok_if {E A} (b : bool) (x y : A) :
  (if b then Ok x else Ok y : result E A) = Ok (if b then x else y).
Proof. by destruct b. Qed.

Ltac classify_reads lemma H :=
  apply bind_Ok in H as (e & He & H); apply bind_Ok in H as (d & Hd & H);
  apply bind_Ok in H as (f & Hf & H); apply bind_Ok in H as (s & Hs & H);
  apply lemma in He, Hd, Hf, Hs; rewrite !ok_if in H; injection H as H.

Lemma ts_classify_exact db l q o :
  TicketStore.classify_requalification db l q = Ok o <->
  requalified db (TicketStore.tl_expected_observation_artifact_id l)
    (TicketStore.tl_discovery_observation_artifact_id l) q o.
Proof.
  unfold TicketStore.classify_requalification, requalified. setoid_rewrite <- judged_exact. split.
  - intros H. classify_reads ts_artifact_digest_Ok H. by exists e, d, f, s.
  - intros (e & d & f & s & He%ts_artifact_digest_Ok & Hd%ts_artifact_digest_Ok
            & Hf%ts_artifact_digest_Ok & Hs%ts_artifact_digest_Ok & <-).
    rewrite He, Hd, Hf, Hs. cbn -[bool_decide]. by rewrite !ok_if.
Qed.

Lemma ds_classify_exact db a q o :
  DecisionStore.classify_requalification db a q = Ok o <->
  requalified db (DecisionStore.at_expected_observation_artifact_id a)
    (DecisionStore.at_discovery_observation_artifact_id a) q o.
Proof.
  unfold DecisionStore.classify_requalification, requalified.
  setoid_rewrite <- judged_exact. split.
  - intros H. classify_reads ds_artifact_digest_Ok H. by exists e, d, f, s.
  - intros (e & d & f & s & He%ds_artifact_digest_Ok & Hd%ds_artifact_digest_Ok
            & Hf%ds_artifact_digest_Ok & Hs%ds_artifact_digest_Ok & <-).
    rewrite He, Hd, Hf, Hs. cbn -[bool_decide]. by rewrite !ok_if.
Qed.

(** Both stores judge a requalification exactly by this rule: Resolved when two
    equal runs give the expected observation, Reproduced when they give the
    discovered failure, Diverged otherwise; and they return nothing when an
    observation is missing or its digest is not 32 bytes. *)
Theorem requalification_exact db q o :
  (forall l, TicketStore.classify_requalification db l q = Ok o <->
     requalified db (TicketStore.tl_expected_observation_artifact_id l)
       (TicketStore.tl_discovery_observation_artifact_id l) q o) /\
  (forall a, DecisionStore.classify_requalification db a q = Ok o <->
     requalified db (DecisionStore.at_expected_observation_artifact_id a)
       (DecisionStore.at_discovery_observation_artifact_id a) q o).
Proof.
  split; intros; [apply ts_classify_exact|apply ds_classify_exact].
Qed.

(** * Claims *)

(** The ticket after a move, its two rows again in agreement. *)
Lemma moved_at db id s s' tr tr' t :
  ticket_at db id s tr t -> next_state tr tr' s' -> exists t',
  ticket_at (moved db id tr' t) id s' tr' t'.
Proof.
  intros [Hr Ht Hc Hs Hts Hrev Hn] (Ec & El & Er). eexists. constructor.
  - apply lookup_insert_eq.
  - apply lookup_insert_eq.
  - done.
  - done.
  - done.
  - done.
  - lia.
Qed.

Lemma insert_ticket_audit_tables db p c op fp k sid r id db' :
  TicketStore.insert_ticket_audit db p c op fp k sid r = Ok (id, db') ->
  tickets db' = tickets db /\ ticket_revisions db' = ticket_revisions db /\
  ticket_attempts db' = ticket_attempts db.
Proof.
  unfold TicketStore.insert_ticket_audit, insert_audit_row. intros H. ok_inv H. read_steps.
  by ok_inv H.
Qed.

(** The campaign, clock, cost and session gates of a claim. *)
Definition claim_gates (db : Database) (c : TicketStore.ClaimSponsoredTicket) (application : Z)
  : Prop :=
  exists campaign, campaigns db !! TicketStore.cst_campaign_id c = Some campaign /\
    cmp_revision campaign = TicketStore.cst_expected_campaign_revision c /\
    cmp_lifecycle campaign = CAMPAIGN_RUNNING /\ now db < cmp_deadline campaign /\
    cmp_cost_state campaign = COST_KNOWN /\
    cmp_application_revision_id campaign = application /\
    current_ticket_revision_count (Z.eqb application) TICKET_IN_FLIGHT db <= 0 /\
    forall id s, sessions db !! id = Some s -> ses_lifecycle s <> SESSION_RUNNING.

Lemma validate_claim_campaign_gates db c l u :
  TicketStore.validate_claim_campaign db c l = Ok u ->
  claim_gates db c (TicketStore.tl_application_revision_id l).
Proof.
  unfold TicketStore.validate_claim_campaign. intros H. ok_inv H. read_steps.
  match goal with Hc : _ = Some ?row |- _ =>
    apply bind_Some in Hc as (cmp & Hcmp & (? & ? & (? & ? & [= ->])%bind_Some)%bind_Some) end.
  eexists. repeat split; try eassumption; try done.
  intros id s Hid Hs. unfold paid_session_active in *.
  match goal with Hp : exists_where _ _ = false |- _ =>
    rewrite exists_where_false in Hp; specialize (Hp id s Hid) end.
  by rewrite Hs in *.
Qed.

(** What a claim leaves behind, by the outcome of the requalification. *)
Definition claim_result (db db' : Database) (c : TicketStore.ClaimSponsoredTicket)
    (outcome : TicketStore.RequalificationOutcome) (reported : TicketStore.ClaimOutcome) : Prop :=
  let rid := TicketStore.cst_ticket_revision_id c in
  match outcome with
  | TicketStore.Reproduced =>
      exists a tr t, reported = TicketStore.Claimed (fresh_id (ticket_attempts db)) /\
        ticket_attempts db' = <[fresh_id (ticket_attempts db) := a]> (ticket_attempts db) /\
        ta_ticket_revision_id (ta_claim a) = rid /\
        ta_campaign_id (ta_claim a) = TicketStore.cst_campaign_id c /\
        ta_claimed_commit (ta_claim a)
          = TicketStore.current_head_commit (TicketStore.cst_requalification c) /\
        ta_claimed_tree (ta_claim a)
          = TicketStore.current_head_tree (TicketStore.cst_requalification c) /\
        ta_stage a = ATTEMPT_ENGINEERING /\ ta_released_at a = None /\
        ticket_at db' rid TICKET_IN_FLIGHT tr t
  | TicketStore.RequalificationResolved =>
      reported = TicketStore.ClaimResolved /\ ticket_attempts db' = ticket_attempts db /\
      exists tr t, ticket_at db' rid TICKET_RESOLVED tr t
  | TicketStore.Diverged =>
      reported = TicketStore.ClaimBlocked /\ ticket_attempts db' = ticket_attempts db /\
      exists tr t, ticket_at db' rid TICKET_BLOCKED tr t
  end.

Lemma ticket_at_tables db db' id s tr t :
  tickets db' = tickets db /\ ticket_revisions db' = ticket_revisions db /\
  ticket_attempts db' = ticket_attempts db ->
  ticket_at db id s tr t -> ticket_at db' id s tr t.
Proof. intros (E1 & E2 & _). by apply ticket_at_same. Qed.

Lemma claim_result_tables db db1 db2 c o reported :
  tickets db2 = tickets db1 /\ ticket_revisions db2 = ticket_revisions db1 /\
  ticket_attempts db2 = ticket_attempts db1 ->
  claim_result db db1 c o reported -> claim_result db db2 c o reported.
Proof.
  intros HE. pose proof HE as (_ & _ & Ea). unfold claim_result. destruct o; rewrite Ea.
  - intros (a & tr & t & H). exists a, tr, t. destruct H as (? & ? & ? & ? & ? & ? & ? & ? & ?).
    repeat split; try done; by eapply ticket_at_tables.
  - intros (? & ? & tr & t & ?). repeat split; try done. exists tr, t. by eapply ticket_at_tables.
  - intros (? & ? & tr & t & ?). repeat split; try done. exists tr, t. by eapply ticket_at_tables.
Qed.

Lemma claim_effect_result db c l next outcome reported kind sid db1 tr t :
  locks db (TicketStore.cst_ticket_revision_id c) l tr t ->
  next = tr_revision tr + 1 ->
  TicketStore.claim_effect db c l next outcome = Ok (reported, kind, sid, db1) ->
  claim_result db db1 c outcome reported /\
  exists tr', ticket_revisions db1 !! TicketStore.cst_ticket_revision_id c = Some tr' /\
    tr_revision tr' = next.
Proof.
  intros Hlocks -> He. pose proof Hlocks as (Hat & _).
  unfold TicketStore.claim_effect in He. destruct outcome; ok_inv He; read_steps.
  - match goal with Hi : insert_ticket_attempt _ _ = Ok _ |- _ =>
      apply insert_attempt_Ok in Hi as (-> & -> & _) end.
    match goal with Hu : context [put_attempt _ ?i ?a] |- _ =>
      apply (locks_put_attempt _ _ _ _ _ i a) in Hlocks; pose proof Hlocks as (Hat' & _) end.
    open_updates. destruct (moved_at _ _ _ _ _ _ _ Hat' Hn) as [t' Hat''].
    split; [|exists tr'; split; [apply lookup_insert_eq|apply Hn]].
    do 3 eexists. repeat split; try reflexivity; apply Hat''.
  - open_updates. destruct (moved_at _ _ _ _ _ _ _ Hat Hn) as [t' Hat''].
    split; [|exists tr'; split; [apply lookup_insert_eq|apply Hn]]. simpl. eauto 6.
  - open_updates. destruct (moved_at _ _ _ _ _ _ _ Hat Hn) as [t' Hat''].
    split; [|exists tr'; split; [apply lookup_insert_eq|apply Hn]]. simpl. eauto 6.
Qed.

Lemma claim_reads blake3 db c r db' :
  TicketStore.claim_sponsored_ticket blake3 db c = Ok (r, db') ->
  TicketStore.ctr_was_idempotent_retry r = false ->
  let rid := TicketStore.cst_ticket_revision_id c in
  exists tr t outcome,
    ticket_at db rid TICKET_SPONSORED tr t /\
    tr_revision tr = TicketStore.cst_expected_ticket_revision c /\
    claim_gates db c (tr_application_revision_id (tr_contract tr)) /\
    requalified db (tr_expected_observation_artifact_id (tr_contract tr))
      (tr_discovery_observation_artifact_id (tr_contract tr)) (TicketStore.cst_requalification c)
      outcome /\
    TicketStore.ctr_resulting_ticket_revision r = tr_revision tr + 1 /\
    claim_result db db' c outcome (TicketStore.ctr_outcome r) /\
    exists tr', ticket_revisions db' !! rid = Some tr' /\ tr_revision tr' = tr_revision tr + 1.
Proof.
  unfold TicketStore.claim_sponsored_ticket. intros H Hfresh.
  run_op H; [discriminate Hfresh|discriminate Hfresh|discriminate Hfresh|].
  pose proof Hlocks as (Hat & _ & _ & Happ & Hrev & Hexp & Hdis).
  match goal with Hs : Sponsored = _ |- _ => rewrite <- Hs in Hat end.
  match goal with Hc : TicketStore.validate_claim_campaign _ _ _ = Ok _ |- _ =>
    apply validate_claim_campaign_gates in Hc as Hgates end.
  match goal with Hc : TicketStore.classify_requalification _ _ _ = Ok ?o |- _ =>
    apply ts_classify_exact in Hc; exists tr, t, o end.
  match goal with He : TicketStore.claim_effect _ _ _ _ _ = Ok _ |- _ =>
    eapply claim_effect_result in He as [Hres (tr' & Htr' & Hnext)]; [|exact Hlocks|by rewrite Hrev] end.
  match goal with Hi : TicketStore.insert_ticket_audit _ _ _ _ _ _ _ _ = Ok _ |- _ =>
    apply insert_ticket_audit_tables in Hi end.
  rewrite Happ in Hgates. rewrite Hexp, Hdis in *. rewrite Hrev in *.
  split; [exact Hat|]. split; [done|]. split; [exact Hgates|]. split; [done|]. split; [done|].
  split; [by eapply claim_result_tables|].
  exists tr'. split; [|done]. match goal with Hi : _ /\ _ /\ _ |- _ => by rewrite (proj1 (proj2 Hi)) end.
Qed.

(** A claim that commits has passed every gate: the ticket was Sponsored at the
    expected revision, the campaign was running, unelapsed, of known cost and
    of the ticket's application, nothing of that application was in flight and
    no session was running.  Its outcome is the judgement of the current-head
    requalification, and it leaves a fresh Engineering attempt with the ticket
    in flight, or the ticket Resolved, or Blocked, and no attempt. *)
Theorem claim_guarded blake3 db c r db' :
  TicketStore.claim_sponsored_ticket blake3 db c = Ok (r, db') ->
  TicketStore.ctr_was_idempotent_retry r = false ->
  exists tr t outcome,
    ticket_at db (TicketStore.cst_ticket_revision_id c) TICKET_SPONSORED tr t /\
    tr_revision tr = TicketStore.cst_expected_ticket_revision c /\
    claim_gates db c (tr_application_revision_id (tr_contract tr)) /\
    requalified db (tr_expected_observation_artifact_id (tr_contract tr))
      (tr_discovery_observation_artifact_id (tr_contract tr)) (TicketStore.cst_requalification c)
      outcome /\
    TicketStore.ctr_resulting_ticket_revision r = tr_revision tr + 1 /\
    claim_result db db' c outcome (TicketStore.ctr_outcome r).
Proof.
  intros H Hr. destruct (claim_reads _ _ _ _ _ H Hr) as (tr & t & o & H1 & H2 & H3 & H4 & H5 & H6 & _).
  by exists tr, t, o.
Qed.

Lemma claim_guarded_witness :
  let db := after checksum installation [propose; sponsor] in
  exists r db', TicketStore.claim_sponsored_ticket checksum db claim_request = Ok (r, db') /\
    exists tr t, ticket_at db 1 TICKET_SPONSORED tr t.
Proof.
  intros db.
  destruct (TicketStore.claim_sponsored_ticket checksum db claim_request) as [[r db']|e] eqn:E;
    [|vm_compute in E; discriminate E].
  assert (Hr : TicketStore.ctr_was_idempotent_retry r = false)
    by (apply (f_equal (fun x => match x with
          | Ok (r, _) => TicketStore.ctr_was_idempotent_retry r | Err _ => true end)) in E;
        vm_compute in E; symmetry; exact E).
  exists r, db'. split; [reflexivity|].
  destruct (claim_guarded checksum db claim_request r db' E Hr) as (tr & t & _ & Hat & _).
  exists tr, t. exact Hat.
Defined.

(** Claims are fenced by the ticket revision they expect: once one has
    committed, no other claim expecting the same revision, or an older one, can
    ever commit under a new identity. *)
Theorem claims_are_fenced blake3 db c r db1 db2 c' :
  TicketStore.claim_sponsored_ticket blake3 db c = Ok (r, db1) ->
  TicketStore.ctr_was_idempotent_retry r = false -> rtc (step blake3) db1 db2 ->
  TicketStore.cst_ticket_revision_id c' = TicketStore.cst_ticket_revision_id c ->
  TicketStore.cst_expected_ticket_revision c' <= TicketStore.cst_expected_ticket_revision c ->
  audit_log db2 !! (TicketStore.cst_principal c', TicketStore.cst_command_id c') = None ->
  execute blake3 db2 (ClaimTicket c') = None.
Proof.
  intros H Hr Hs Eid Hle Hkey.
  destruct (claim_reads _ _ _ _ _ H Hr) as (tr & t & _ & _ & Hrev & _ & _ & _ & _ & tr1 & Htr1 & Hnext).
  destruct (ex_ticket_revisions _ _ (transitions_extend _ _ (steps_transitions _ _ _ Hs)) _ _ Htr1)
    as (tr2 & Htr2 & [_ Hmono _ _]).
  destruct (execute blake3 db2 (ClaimTicket c')) as [db3|] eqn:E; [exfalso|done].
  simpl in E. apply committed_Some in E as [r' E].
  unfold TicketStore.claim_sponsored_ticket in E. run_op E.
  all: match goal with Hf : TicketStore.find_ticket_audit _ _ _ _ _ = Ok _ |- _ =>
    apply ts_find_audit_Ok in Hf end.
  all: try match goal with Hf : exists row, audit_log _ !! _ = Some row /\ _ |- _ =>
    destruct Hf as (row & Hrow & _); congruence end.
  destruct Hlocks as ([Htr3 _ _ _ _ _ _] & _ & _ & _ & Hrev3 & _).
  rewrite Eid, Htr2 in Htr3. injection Htr3 as <-. lia.
Qed.

(** The same claim under another command id. *)
Definition rival_claim : TicketStore.ClaimSponsoredTicket := {|
  TicketStore.cst_principal := "rival"; TicketStore.cst_command_id := "c3";
  TicketStore.cst_campaign_id := 1; TicketStore.cst_expected_campaign_revision := 0;
  TicketStore.cst_ticket_revision_id := 1; TicketStore.cst_expected_ticket_revision := 1;
  TicketStore.cst_requalification := observed_head 3 4 |}.

Lemma claims_are_fenced_witness :
  exists r db1, TicketStore.claim_sponsored_ticket checksum
      (after checksum installation [propose; sponsor]) claim_request = Ok (r, db1) /\
    execute checksum db1 (ClaimTicket rival_claim) = None.
Proof.
  destruct (TicketStore.claim_sponsored_ticket checksum
    (after checksum installation [propose; sponsor]) claim_request) as [[r db1]|e] eqn:E;
    [|vm_compute in E; discriminate E].
  assert (Hr : TicketStore.ctr_was_idempotent_retry r = false)
    by (apply (f_equal (fun x => match x with
          | Ok (r, _) => TicketStore.ctr_was_idempotent_retry r | Err _ => true end)) in E;
        vm_compute in E; symmetry; exact E).
  assert (Hk : audit_log db1 !! ("rival"%string, "c3"%string) = None)
    by (apply (f_equal (fun x => match x with
          | Ok (_, db1) => audit_log db1 !! ("rival"%string, "c3"%string) | Err _ => None end)) in E;
        vm_compute in E; symmetry; exact E).
  exists r, db1. split; [reflexivity|].
  exact (claims_are_fenced checksum _ claim_request r db1 db1 rival_claim E Hr (rtc_refl _ _)
    eq_refl (Z.le_refl _) Hk).
Defined.

(** * Architect decisions *)

(** Only delivery, as an override, can follow a Quality rejection: a Rework or
    a Reject of a candidate whose review rejected it never commits, because the
    decision row would carry the override flag the schema reserves for
    Deliver. *)
Theorem rejected_review_forbids_rework blake3 db c r :
  audit_log db !! (request_principal (DecisionStore.dc_request c), DecisionStore.dc_command_id c)
    = None ->
  reviews db !! request_review_id (DecisionStore.dc_request c) = Some r ->
  r_verdict r = REVIEW_REJECT ->
  request_decision (DecisionStore.dc_request c) <> Deliver ->
  is_ok (DecisionStore.decide_candidate blake3 db c) = false.
Proof.
  intros Hkey Hr Hv Hd. apply not_true_iff_false. intros [[receipt db'] H]%is_ok_true.
  unfold DecisionStore.decide_candidate in H. ok_inv H.
  all: match goal with Hf : DecisionStore.find_audit _ _ _ _ _ = Ok _ |- _ =>
    apply ds_find_audit_Ok in Hf end.
  all: try match goal with Hf : exists row, audit_log _ !! _ = Some row /\ _ |- _ =>
    destruct Hf as (row & Hrow & _); congruence end.
  all: match goal with Hl : DecisionStore.load_review _ _ = Ok ?x |- _ =>
    apply load_review_Ok in Hl; rewrite Hr in Hl; injection Hl as <- end.
  all: match goal with Hi : DecisionStore.insert_decision _ _ _ _ _ _ _ _ _ = Ok _ |- _ =>
    apply insert_decision_Ok in Hi as (_ & dec & _ & Hk & _ & _ & Hov & _ & Hshape) end.
  all: unfold decision_override_shape in Hshape; rewrite Hov, Hv, Hk in Hshape.
  all: by destruct (request_decision (DecisionStore.dc_request c)).
Qed.

Lemma rejected_review_forbids_rework_witness :
  let db := after checksum installation (to_review Reject) in
  is_ok (DecisionStore.decide_candidate checksum db (decision_request Rework None)) = false /\
  DecisionStore.decide_candidate checksum db (decision_request Rework None)
    = Err (DecisionStore.DatabaseError "architect_decisions_check1").
Proof.
  intros db. split; [|vm_compute; reflexivity].
  assert (Hd : is_Some (reviews db !! 1)) by (apply (bool_decide_unpack _); vm_compute; exact I).
  destruct (reviews db !! 1) as [r|] eqn:E; [|destruct Hd; discriminate].
  apply (rejected_review_forbids_rework checksum db (decision_request Rework None) r).
  - vm_compute. reflexivity.
  - exact E.
  - vm_compute in E. injection E as <-. reflexivity.
  - discriminate.
Defined.

(** The same review can be overridden by a delivery. *)
Lemma rejected_review_deliverable :
  is_ok (DecisionStore.decide_candidate checksum
    (after checksum installation (to_review Reject)) (decision_request Deliver (Some 1))) = true.
Proof. vm_compute. reflexivity. Qed.

(** The Architect may sponsor a blocked ticket that has had an attempt. *)
Lemma architect_responsors_attempted_ticket :
  let db := after checksum installation
              (engineering_failed ++ [ReleaseAttempt (release_request 3 5)]) in
  exists_where (fun _ a => ta_ticket_revision_id (ta_claim a) =? 1) (ticket_attempts db) = true /\
  is_ok (DecisionStore.sponsor_ticket checksum db (architect_sponsorship 3)) = true.
Proof. vm_compute. split; reflexivity. Qed.

(** An installation that keeps no ready tickets at all. *)
Definition no_ready_tickets : Database := {|
  application_revisions := {[ 1 := {|
    application_key := "xsh"; app_aggregate_revision := 0; ticket_low_water := 0;
    ticket_target := 0; ticket_maximum := Some 0; proposal_maximum := 2;
    app_predecessor := None;
    app_artifacts := sample_application_artifacts; ticket_narrative_byte_limit := 1000;
    ticket_acceptance_criteria_limit := 5; ticket_contract_read_limit := 5;
    app_repository_id := 1; app_is_active := true |} ]};
  artifacts := sample_artifacts; kernel_builds := kernel_builds installation; repositories := ∅;
  offices := sample_offices; campaigns := campaigns installation; assignments := ∅;
  sessions := sessions installation; provider_effects := ∅;
  tickets := ∅; ticket_revisions := ∅; ticket_attempts := ∅; candidates := ∅;
  validations := ∅; reviews := ∅; architect_decisions := ∅; deliveries := ∅;
  audit_log := ∅; now := 100 |}.

(** The ready buffer bounds the ticket store's sponsorship and not the
    Architect's. *)
Lemma architect_ignores_ready_maximum :
  let db := after checksum no_ready_tickets [propose] in
  TicketStore.sponsor_ticket_revision checksum db {|
    TicketStore.str_principal := "owner"; TicketStore.str_command_id := "c2";
    TicketStore.str_ticket_revision_id := 1; TicketStore.str_expected_ticket_revision := 0;
    TicketStore.str_reason := "worth it" |} = Err TicketStore.ReadyTicketBufferFull /\
  is_ok (DecisionStore.sponsor_ticket checksum db (architect_sponsorship 0)) = true.
Proof. vm_compute. split; reflexivity. Qed.

(** Retrying Quality looks at the ticket's state and not at the attempt's
    release: while a second attempt of the ticket is in flight, the first one,
    already released, is put back into Quality. *)
Definition second_claim : Command := ClaimTicket {|
  TicketStore.cst_principal := "driver"; TicketStore.cst_command_id := "c33";
  TicketStore.cst_campaign_id := 1; TicketStore.cst_expected_campaign_revision := 0;
  TicketStore.cst_ticket_revision_id := 1; TicketStore.cst_expected_ticket_revision := 3;
  TicketStore.cst_requalification := observed_head 3 4 |}.

Definition failure_at (attempt_revision : Z) : Command := FailAttempt {|
  TicketStore.fta_principal := "driver"; TicketStore.fta_command_id := "f1";
  TicketStore.fta_ticket_attempt_id := 1;
  TicketStore.fta_expected_attempt_revision := attempt_revision;
  TicketStore.fta_expected_ticket_revision := 2; TicketStore.fta_reason := "lost" |}.

Definition release_at (attempt_revision : Z) : Command := ReleaseAttempt {|
  TicketStore.rta_principal := "driver"; TicketStore.rta_command_id := "f2";
  TicketStore.rta_ticket_attempt_id := 1;
  TicketStore.rta_expected_attempt_revision := attempt_revision;
  TicketStore.rta_expected_ticket_revision := 2; TicketStore.rta_reason := "give back";
  TicketStore.rta_requalification := observed_head 3 4 |}.

Definition revived : list Command :=
  quality_failed ++ [failure_at 2; release_at 3; second_claim;
    RetryQuality {| TicketStore.rqa_principal := "driver"; TicketStore.rqa_command_id := "r1";
      TicketStore.rqa_ticket_attempt_id := 1; TicketStore.rqa_candidate_id := 1;
      TicketStore.rqa_expected_attempt_revision := 4;
      TicketStore.rqa_expected_ticket_revision := 4; TicketStore.rqa_reason := "again" |}].

Lemma released_attempt_revived :
  (fun a => (ta_stage a, bool_decide (is_Some (ta_released_at a)))) <$>
    ticket_attempts (after checksum installation revived) !! 1
  = Some (ATTEMPT_REWORK_QUALITY, true).
Proof. vm_compute. reflexivity. Qed.

(** * Progress: on a well-formed database a claim whose gates hold, and a campaign
    completion at its target, are not refused. *)

(** * Steps that succeed *)

Lemma new_id_run kind v : 0 < v -> new_id kind v = Ok v.
Proof. intros H. by apply ts_new_id. Qed.

Lemma revision_from_sql_run v : 0 <= v -> revision_from_sql v = Ok v.
Proof. intros H. by apply ts_revision_from_sql. Qed.

Lemma revision_to_sql_run v : v <= i64_max -> revision_to_sql v = Ok v.
Proof. intros H. by apply ts_revision_to_sql. Qed.

Lemma next_revision_run v : v < i64_max -> next_revision v = Ok (v + 1).
Proof.
  intros H. unfold next_revision, revision_next, checked_add_u64, u64_max, i64_max in *.
  by rewrite (proj2 (Z.leb_le _ _)) by lia.
Qed.

Lemma ticket_state_run v :
  0 <= v <= 7 -> exists s, ticket_state_from_sql v = Ok s /\ v = state_code s.
Proof.
  intros H.
  assert (Hv : v = 0 \/ v = 1 \/ v = 2 \/ v = 3 \/ v = 4 \/ v = 5 \/ v = 6 \/ v = 7) by lia.
  destruct Hv as [->|[->|[->|[->|[->|[->|[->| ->]]]]]]]; by eexists.
Qed.

(** * Locks *)

(** The identity columns of a ticket revision's contract are positive. *)
Definition contract_ids_positive (tr : TicketRevisionRow) : Prop :=
  0 < tr_ticket_id (tr_contract tr) /\ 0 < tr_application_revision_id (tr_contract tr) /\
  0 < tr_expected_observation_artifact_id (tr_contract tr) /\
  0 < tr_discovery_observation_artifact_id (tr_contract tr).

Lemma ticket_at_well_formed db id tr :
  tickets_wf db -> ticket_revisions db !! id = Some tr ->
  exists t, ticket_at db id (tr_lifecycle tr) tr t /\ 0 <= tr_lifecycle tr <= 7.
Proof.
  intros Hwf Htr. destruct (tw_revision _ Hwf _ _ Htr) as (t & Ht & Hc & _ & Hl & Hr & Hn & Hb & _).
  exists t. split; [|done]. by constructor.
Qed.

Lemma lock_ticket_revision_run db id tr t state :
  ticket_at db id state tr t -> 0 <= state <= 7 -> contract_ids_positive tr ->
  exists l, lock_ticket_revision db id = Ok l /\ locks db id l tr t.
Proof.
  intros [Htr Ht Hc Hs Hts Hrev Hn] Hb (H1 & H2 & H3 & H4).
  assert (Hrun : exists l, lock_ticket_revision db id = Ok l).
  { unfold lock_ticket_revision. rewrite (proj2 (ticket_join_Some db id tr t)) by done.
    simpl. rewrite Hc, Z.eqb_refl. simpl. rewrite Hs, Hts.
    destruct (ticket_state_run state Hb) as (s & Es & _). rewrite Es. simpl.
    rewrite bool_decide_true by done. simpl. rewrite Hrev, Z.eqb_refl. simpl.
    rewrite !new_id_run by done. simpl. rewrite revision_from_sql_run by lia. simpl. eauto. }
  destruct Hrun as [l Hl]. exists l. split; [done|].
  destruct (ts_lock_ticket_revision _ _ _ Hl) as (tr' & t' & Hlocks).
  pose proof (at_revision _ _ _ _ _ (proj1 Hlocks)) as E1.
  pose proof (at_ticket _ _ _ _ _ (proj1 Hlocks)) as E2. by simplify_map_eq.
Qed.

Lemma state_code_inj s s' : state_code s = state_code s' -> s = s'.
Proof. destruct s, s'; done. Qed.

(** * Ticket updates *)

(** A live revision stays within the reproducer index when only its state
    changes. *)
Lemma live_identity_kept db id tr tr' :
  tickets_wf db -> ticket_revisions db !! id = Some tr -> tr_lifecycle tr <> TICKET_BLOCKED ->
  tr_contract tr' = tr_contract tr -> ticket_revisions_live_reproducer_identity id tr' db = true.
Proof.
  intros Hwf Htr Hl Ec. unfold ticket_revisions_live_reproducer_identity. apply orb_true_iff.
  right. apply negb_true_iff, exists_where_false. intros j w Hj. apply not_true_iff_false.
  intros H. bool_prop. rewrite Ec in *.
  enough (j = id) by congruence.
  eapply (tw_live _ Hwf); [exact Hj|exact Htr|unfold live_identity..].
  - by rewrite (proj2 (Z.eqb_neq _ _)) by done.
  - rewrite (proj2 (Z.eqb_neq _ _)) by done. congruence.
Qed.

Lemma update_requalification_run db id l tr t state next code q b :
  locks db id l tr t -> next <= i64_max ->
  (forall tr', tr_contract tr' = tr_contract tr ->
     ticket_revisions_live_reproducer_identity id tr' db = true) ->
  exists db', update_requalification_and_ticket_state db l state next code q b = Ok db' /\
    audit_log db' = audit_log db.
Proof.
  intros ([Htr _ _ _ _ _ _] & _ & Hid & _) Hn Hlive.
  unfold update_requalification_and_ticket_state.
  rewrite revision_to_sql_run by done. simpl. rewrite Hid. unfold update_ticket_revision.
  rewrite Htr. unfold put_ticket_revision. rewrite Hlive by done. simpl. eauto.
Qed.

Lemma insert_ticket_audit_run db p c op fp kind sid r :
  audit_log db !! (p, c) = None -> 0 < sid -> r <= i64_max ->
  exists id db', insert_ticket_audit db p c op fp kind sid r = Ok (id, db').
Proof.
  intros Hk Hs Hr. unfold insert_ticket_audit. rewrite revision_to_sql_run by done. simpl.
  unfold insert_audit_row. rewrite bool_decide_true by done. simpl.
  rewrite (proj2 (Z.ltb_lt _ _)) by done. simpl. eauto.
Qed.

Ltac run_update Hlocks Hlive :=
  match goal with
  | |- context [update_requalification_and_ticket_state ?d ?l ?s ?n ?code ?q ?b] =>
      let E := fresh "E" in
      destruct (update_requalification_run d _ l _ _ s n code q b Hlocks ltac:(lia) Hlive)
        as (? & E & ?); rewrite E; cbn [mbind result_bind]
  end.

(** No unreleased attempt exists for a ticket that is not in custody. *)
Lemma no_unreleased_attempt db id tr row :
  attempts_wf db -> ticket_revisions db !! id = Some tr -> ~ in_custody (tr_lifecycle tr) ->
  ta_ticket_revision_id (ta_claim row) = id ->
  ticket_attempts_one_unreleased_revision row db = true.
Proof.
  intros Hwf Htr Hcust Hrow. apply negb_true_iff, exists_where_false. intros i a Hi.
  apply not_true_iff_false. intros H. bool_prop.
  destruct (aw_attempt _ Hwf i a Hi) as (tr' & _ & Htr' & _ & _ & _ & _ & Hc & _).
  apply Hcust. replace tr with tr' by congruence. auto.
Qed.

(** * Claims *)

Lemma claim_effect_run db c l tr t outcome :
  well_formed db -> 0 < cst_ticket_revision_id c ->
  locks db (cst_ticket_revision_id c) l tr t -> tl_state l = Sponsored ->
  tr_revision tr < i64_max ->
  exists reported kind sid db',
    claim_effect db c l (tr_revision tr + 1) outcome = Ok (reported, kind, sid, db') /\
    0 < sid /\ audit_log db' = audit_log db.
Proof.
  intros [Ht Ha _] Hid Hl Hs Hn. pose proof Hl as ([Htr _ _ Hstate _ _ _] & _).
  rewrite Hs in Hstate. simpl in Hstate.
  assert (Hlive : forall tr', tr_contract tr' = tr_contract tr ->
    ticket_revisions_live_reproducer_identity (cst_ticket_revision_id c) tr' db = true)
    by (intros; eapply live_identity_kept; eauto; by rewrite Hstate).
  unfold claim_effect. destruct outcome.
  - unfold insert_ticket_attempt. rewrite (no_unreleased_attempt db (cst_ticket_revision_id c) tr);
      [|done|done|rewrite Hstate; by intros [|[|]]|done].
    set (a := {| ta_claim := _ |}). simpl.
    apply (locks_put_attempt _ _ _ _ _ (fresh_id (ticket_attempts db)) a) in Hl.
    run_update Hl Hlive. rewrite new_id_run by apply fresh_id_pos. simpl.
    do 4 eexists. split; [reflexivity|]. split; [apply fresh_id_pos|done].
  - run_update Hl Hlive. eauto 10.
  - run_update Hl Hlive. eauto 10.
Qed.

Lemma validate_claim_campaign_run db c l :
  claim_gates db c (tl_application_revision_id l) ->
  (forall campaign, campaigns db !! cst_campaign_id c = Some campaign -> 0 <= cmp_revision campaign) ->
  is_Some (application_revisions db !! tl_application_revision_id l) ->
  validate_claim_campaign db c l = Ok tt.
Proof.
  intros (cmp & Hc & Hrev & Hlife & Hdead & Hcost & Happ & Hflight & Hses) Hn [app Happrow].
  unfold validate_claim_campaign, application_revision_ticket_count, require_expected.
  rewrite Hc. simpl. rewrite Happ, Happrow. simpl.
  rewrite revision_from_sql_run by (by apply Hn). simpl.
  rewrite Hrev, Hlife, Hcost, Happ, !Z.eqb_refl. simpl.
  rewrite (proj2 (Z.ltb_lt _ _)), (proj2 (Z.leb_le _ _)) by done. simpl.
  apply require_run, negb_true_iff, exists_where_false. intros id s Hs.
  apply Z.eqb_neq. by eapply Hses.
Qed.

(** A claim under a fresh identity, well formed and admitted by every gate,
    commits: no constraint of the schema refuses it. *)
Lemma claim_run blake3 db c tr t outcome :
  well_formed db -> validate_command (cst_principal c) (cst_command_id c) = Ok tt ->
  validate_requalification (cst_requalification c) = Ok tt ->
  audit_log db !! (cst_principal c, cst_command_id c) = None ->
  0 < cst_ticket_revision_id c -> contract_ids_positive tr ->
  ticket_at db (cst_ticket_revision_id c) TICKET_SPONSORED tr t ->
  tr_revision tr = cst_expected_ticket_revision c -> tr_revision tr < i64_max ->
  claim_gates db c (tr_application_revision_id (tr_contract tr)) ->
  (forall campaign, campaigns db !! cst_campaign_id c = Some campaign -> 0 <= cmp_revision campaign) ->
  is_Some (application_revisions db !! tr_application_revision_id (tr_contract tr)) ->
  requalified db (tr_expected_observation_artifact_id (tr_contract tr))
    (tr_discovery_observation_artifact_id (tr_contract tr)) (cst_requalification c) outcome ->
  exists r db', claim_sponsored_ticket blake3 db c = Ok (r, db') /\
    ctr_was_idempotent_retry r = false.
Proof.
  intros Hwf Hv Hq Hk Hid Hpos Hat Hrev Hmax Hgates Hcrev Happ Hout.
  destruct (lock_ticket_revision_run db _ tr t _ Hat ltac:(done) Hpos) as (l & El & Hl).
  pose proof Hl as (Hat' & _ & _ & Ea & Er & Ee & Ed).
  assert (Hs : tl_state l = Sponsored).
  { apply state_code_inj. rewrite <- (at_revision_state _ _ _ _ _ Hat').
    apply (at_revision_state _ _ _ _ _ Hat). }
  unfold claim_sponsored_ticket. rewrite Hv, Hq. simpl.
  unfold find_ticket_audit. rewrite Hk. simpl. rewrite El. simpl.
  unfold require_expected, require_ticket_state. rewrite Er, Hs, <- Hrev, Z.eqb_refl. simpl.
  rewrite validate_claim_campaign_run by (rewrite ?Ea; done). simpl.
  rewrite (proj2 (ts_classify_exact db l _ outcome)) by by rewrite Ee, Ed. simpl.
  rewrite next_revision_run by done. simpl.
  destruct (claim_effect_run db c l tr t outcome Hwf Hid Hl Hs Hmax)
    as (reported & kind & sid & db1 & -> & Hsid & Eaudit). simpl.
  destruct (insert_ticket_audit_run db1 (cst_principal c) (cst_command_id c) CLAIM_OPERATION
    (blake3 (claim_preimage c)) kind sid (tr_revision tr + 1)) as (aid & db2 & E);
    [by rewrite Eaudit|done|lia|]. rewrite E. simpl. eauto.
Qed.

(** * Campaign completion *)

(** A running campaign at its target completes, at the revision expected. *)
Lemma complete_campaign_run blake3 db c campaign :
  validate_command (ccd_principal c) (ccd_command_id c) = Ok tt ->
  audit_log db !! (ccd_principal c, ccd_command_id c) = None ->
  0 < ccd_campaign_id c -> campaigns db !! ccd_campaign_id c = Some campaign ->
  cmp_lifecycle campaign = CAMPAIGN_RUNNING -> 0 <= cmp_revision campaign < i64_max ->
  cmp_revision campaign = ccd_expected_campaign_revision c ->
  cmp_delivery_target campaign <= delivered_attempt_count (ccd_campaign_id c) db ->
  exists db', complete_campaign_at_delivery_target blake3 db c
      = Ok (cmp_revision campaign + 1, db') /\
    exists campaign', campaigns db' !! ccd_campaign_id c = Some campaign' /\
      cmp_lifecycle campaign' = CAMPAIGN_COMPLETED /\
      cmp_revision campaign' = cmp_revision campaign + 1.
Proof.
  intros Hv Hk Hid Hc Hlife Hrev Hexp Htarget.
  unfold complete_campaign_at_delivery_target. rewrite Hv. simpl.
  unfold find_ticket_audit, require_expected. rewrite Hk. simpl. rewrite Hc. simpl.
  rewrite revision_from_sql_run by lia. simpl. rewrite <- Hexp, Z.eqb_refl, Hlife. simpl.
  rewrite (proj2 (Z.leb_le _ _)) by done. simpl.
  rewrite next_revision_run by lia. simpl. rewrite revision_to_sql_run by lia. simpl.
  set (db1 := update_campaign_lifecycle _ _ _ _).
  destruct (insert_ticket_audit_run db1 (ccd_principal c) (ccd_command_id c)
    COMPLETE_CAMPAIGN_OPERATION (blake3 (completion_preimage c)) CAMPAIGN_COMPLETED_SUBJECT
    (ccd_campaign_id c) (cmp_revision campaign + 1)) as (aid & db2 & E); [done|done|lia|].
  rewrite E. simpl. exists db2. split; [done|].
  assert (Ec : campaigns db2 = campaigns db1)
    by (unfold insert_ticket_audit, insert_audit_row in E; ok_inv E; read_steps; by ok_inv E).
  rewrite Ec. unfold db1, update_campaign_lifecycle. cbn [campaigns set_campaigns].
  rewrite lookup_alter_eq, Hc. eexists. split; [reflexivity|done].
Qed.
