(* ===== verification/Scheduling.v ===== *)
(** What the scheduler selects, and that what it selects is what the ticket
    authority accepts: heads are the oldest work, and a claim or a completion
    selected on a snapshot commits on that snapshot. *)
From S2P Require Import Prelude Values Database Lifecycle Refinement History.
From S2P Require Import Invariants Idempotency Guards Scenario.
From S2P Require Import TicketStore BufferStatus Scheduler.

(** * The selected action *)

(** The campaign may still spend. *)
Record may_spend (s : TicketBufferStatus) : Prop := {
  ms_running : bs_campaign_is_running s = true;
  ms_target : bs_delivered_attempt_count s < bs_delivery_target s;
  ms_cost : bs_campaign_cost_known s = true;
  ms_session : bs_paid_session_active s = false;
}.

(** Nothing is in progress and the buffers are within their limits. *)
Record may_open_work (s : TicketBufferStatus) : Prop := {
  mo_spend : may_spend s;
  mo_deadline : bs_campaign_deadline_open s = true;
  mo_downstream : bs_downstream_attempt_count s = 0;
  mo_head : bs_downstream_action s = None;
  mo_in_flight : bs_in_flight_count s <= 0;
  mo_ready : forall m, bs_maximum s = Some m -> bs_ready_count s <= m;
  mo_proposed : bs_proposed_count s <= bs_proposal_maximum s;
}.

(** Each action's own condition, without reference to the order of [decide].
    Work is opened only by the last four; product work only when neither ready
    nor proposed tickets exist. *)
Definition selected (s : TicketBufferStatus) (action : SchedulerNextAction) : Prop :=
  match action with
  | NextCompleteCampaign a =>
      bs_campaign_is_running s = true /\
      bs_delivery_target s <= bs_delivered_attempt_count s /\
      a = {| cca_campaign_id := bs_campaign_id s;
             cca_expected_campaign_revision := bs_campaign_revision s |}
  | ContinueDownstream a =>
      may_spend s /\ bs_downstream_action s = Some a /\ 0 < bs_downstream_attempt_count s /\
      (bs_campaign_deadline_open s = true \/ da_stage a = DeliverAccepted)
  | ClaimReadyTicket a =>
      may_open_work s /\ 0 < bs_ready_count s /\
      bs_oldest_sponsored_ticket s = Some (cra_ticket a) /\
      cra_campaign_id a = bs_campaign_id s /\
      cra_expected_campaign_revision a = bs_campaign_revision s
  | ReplenishProduct campaign revision =>
      may_open_work s /\ bs_ready_count s = 0 /\ bs_oldest_sponsored_ticket s = None /\
      bs_proposed_count s = 0 /\ (0 < bs_low_water s \/ 0 < bs_target s) /\
      campaign = bs_campaign_id s /\ revision = bs_campaign_revision s
  | AwaitArchitectDecision campaign proposed =>
      may_open_work s /\ bs_ready_count s = 0 /\ bs_oldest_sponsored_ticket s = None /\
      0 < bs_proposed_count s /\ campaign = bs_campaign_id s /\ proposed = bs_proposed_count s
  | Idle campaign =>
      may_open_work s /\ bs_ready_count s = 0 /\ bs_oldest_sponsored_ticket s = None /\
      bs_proposed_count s = 0 /\ bs_low_water s = 0 /\ bs_target s = 0 /\
      campaign = bs_campaign_id s
  | BlockedBy _ => True
  end.

(** The counters of a status are unsigned. *)
Definition counters_unsigned (s : TicketBufferStatus) : Prop :=
  Forall (fun z => 0 <= z) [bs_delivery_target s; bs_delivered_attempt_count s; bs_ready_count s;
    bs_proposed_count s; bs_in_flight_count s; bs_downstream_attempt_count s; bs_low_water s;
    bs_target s; bs_proposal_maximum s].

Definition blocked (action : SchedulerNextAction) : bool :=
  match action with BlockedBy _ => true | _ => false end.

Lemma campaign_gate_open s :
  campaign_gate s = None -> may_spend s /\ bs_campaign_deadline_open s = true.
Proof.
  unfold campaign_gate. intros H. repeat case_match; try discriminate. bool_prop.
  split; [by constructor|done].
Qed.

Lemma campaign_gate_selected s action :
  campaign_gate s = Some action -> selected s action.
Proof.
  unfold campaign_gate. intros H.
  repeat case_match; try discriminate; injection H as <-; bool_prop; simpl; try done.
  split; [by constructor|]. by auto.
Qed.

Lemma downstream_gate_open s :
  downstream_gate s = None -> bs_downstream_attempt_count s = 0 /\ bs_downstream_action s = None.
Proof. unfold downstream_gate. intros H. repeat case_match; try discriminate; by bool_prop. Qed.

Lemma buffer_constraint_open s :
  buffer_constraint s = None ->
  bs_in_flight_count s <= 0 /\ (forall m, bs_maximum s = Some m -> bs_ready_count s <= m) /\
  bs_proposed_count s <= bs_proposal_maximum s /\
  (bs_ready_count s = 0 <-> bs_oldest_sponsored_ticket s = None).
Proof.
  unfold buffer_constraint, IN_FLIGHT_TICKET_MAXIMUM. intros H.
  destruct (Z.leb_spec 1 (bs_in_flight_count s)) as [|Hf]; [discriminate|].
  split; [lia|].
  destruct (bs_proposal_maximum s <? bs_proposed_count s) eqn:Ep,
    (bs_ready_count s =? 0) eqn:Er, (bs_oldest_sponsored_ticket s), (bs_maximum s) as [n|];
    cbn in H; try destruct (n <? bs_ready_count s) eqn:En; cbn in H; try discriminate;
    bool_prop; (split; [intros; simplify_eq; lia|split; [lia|split; (done || lia)]]).
Qed.

Lemma decide_ready_selected s :
  counters_unsigned s -> may_open_work s ->
  (bs_ready_count s = 0 <-> bs_oldest_sponsored_ticket s = None) ->
  selected s (decide_ready s).
Proof.
  unfold counters_unsigned. rewrite !Forall_cons. intros Hc Hm Hh. unfold decide_ready.
  destruct (bs_oldest_sponsored_ticket s) as [ticket|] eqn:E; simpl.
  - assert (bs_ready_count s <> 0) by (intros H; by apply Hh in H).
    split_and!; (done || lia).
  - assert (bs_ready_count s = 0) as Hr by by apply Hh. rewrite Hr.
    repeat case_match; simpl; rewrite ?E, ?Hr;
      repeat match goal with H : _ && _ = false |- _ => apply andb_false_iff in H end;
      bool_prop; split_and!; (done || lia).
Qed.

Lemma decide_selected s : counters_unsigned s -> selected s (decide s).
Proof.
  intros Hc. unfold decide.
  destruct (campaign_gate s) eqn:E1; [by apply campaign_gate_selected|].
  apply campaign_gate_open in E1 as [Hs Hd].
  destruct (downstream_gate s) eqn:E2.
  - revert E2. unfold downstream_gate. intros E2.
    unfold counters_unsigned in Hc. rewrite !Forall_cons in Hc.
    repeat case_match; try discriminate; injection E2 as <-; bool_prop; simpl; try done.
    split_and!; auto. lia.
  - apply downstream_gate_open in E2 as [? ?].
    destruct (buffer_constraint s) eqn:E3; [done|].
    apply buffer_constraint_open in E3 as (? & ? & ? & ?).
    by apply decide_ready_selected.
Qed.

Lemma campaign_gate_pass s :
  may_spend s -> bs_campaign_deadline_open s = true -> campaign_gate s = None.
Proof.
  intros [Hr Ht Hc Hp] Hd. unfold campaign_gate. rewrite Hr, Hc, Hp, Hd. simpl.
  by rewrite (proj2 (Z.leb_gt _ _) Ht).
Qed.

Lemma buffer_constraint_pass s :
  counters_unsigned s -> may_open_work s ->
  (bs_ready_count s = 0 <-> bs_oldest_sponsored_ticket s = None) -> buffer_constraint s = None.
Proof.
  unfold counters_unsigned. rewrite !Forall_cons. intros Hc [_ _ _ _ Hf Hr Hp] Hh.
  unfold buffer_constraint, IN_FLIGHT_TICKET_MAXIMUM.
  rewrite (proj2 (Z.leb_gt _ _)), (proj2 (Z.ltb_ge _ _)) by lia.
  assert (E : (maximum ← bs_maximum s; if maximum <? bs_ready_count s
    then Some (ReadyBufferMaximumExceeded (bs_ready_count s) maximum) else None) = None).
  { destruct (bs_maximum s) as [n|]; [|done]. simpl. specialize (Hr n eq_refl).
    by rewrite (proj2 (Z.ltb_ge _ _)) by lia. }
  rewrite E. simpl. destruct (Z.eqb_spec (bs_ready_count s) 0) as [H0|H0],
    (bs_oldest_sponsored_ticket s); try done; [by apply Hh in H0|by destruct H0; apply Hh].
Qed.

Lemma decide_opens s :
  counters_unsigned s -> may_open_work s ->
  (bs_ready_count s = 0 <-> bs_oldest_sponsored_ticket s = None) -> decide s = decide_ready s.
Proof.
  intros Hc Hm Hh. unfold decide.
  rewrite campaign_gate_pass by apply Hm. unfold downstream_gate.
  rewrite (mo_downstream _ Hm), (mo_head _ Hm). simpl.
  by rewrite buffer_constraint_pass.
Qed.

Lemma decide_continues s action :
  selected s (ContinueDownstream action) -> decide s = ContinueDownstream action.
Proof.
  intros (Hs & Ha & Hn & Hd). unfold decide.
  destruct (bs_campaign_deadline_open s) eqn:E.
  - rewrite campaign_gate_pass by done. unfold downstream_gate. rewrite Ha.
    by rewrite (proj2 (Z.eqb_neq _ 0)) by lia.
  - destruct Hs as [Hr Ht Hc Hp], Hd as [|Hd]; [done|]. unfold campaign_gate.
    rewrite Hr, Hc, Hp, E, Ha, (proj2 (Z.leb_gt _ _) Ht), (proj2 (Z.ltb_lt _ _) Hn). simpl.
    by rewrite bool_decide_true.
Qed.

Lemma selected_decide s action :
  counters_unsigned s -> blocked action = false -> selected s action -> decide s = action.
Proof.
  intros Hc Hb. pose proof Hc as Hz. unfold counters_unsigned in Hz. rewrite !Forall_cons in Hz.
  destruct action as [a|campaign revision|a|a|campaign n|?|campaign]; simpl; try discriminate.
  - intros (Hr & Ht & ->). unfold decide, campaign_gate.
    by rewrite Hr, (proj2 (Z.leb_le _ _) Ht).
  - intros (Hm & Hr & Ho & Hp & Hw & -> & ->). rewrite decide_opens by done.
    unfold decide_ready. rewrite Ho, Hr, Hp. simpl.
    destruct (Z.ltb_spec 0 (bs_low_water s)); [done|]. simpl.
    by rewrite (proj2 (Z.ltb_lt _ _)) by lia.
  - intros (Hm & Hr & Ho & Hi & He). rewrite decide_opens by (done || (rewrite Ho; split; intros; (lia || done))).
    unfold decide_ready. rewrite Ho, <- Hi, <- He. by destruct a.
  - intros H. by apply decide_continues.
  - intros (Hm & Hr & Ho & Hp & -> & ->). rewrite decide_opens by done.
    unfold decide_ready. rewrite Ho, Hr, (proj2 (Z.eqb_neq _ 0)), (proj2 (Z.ltb_lt 0 (bs_proposed_count s))) by lia.
    by rewrite andb_false_r.
  - intros (Hm & Hr & Ho & Hp & Hl & Ht & ->). rewrite decide_opens by done.
    unfold decide_ready. by rewrite Ho, Hr, Hp, Hl, Ht.
Qed.

(** C26: The scheduler selects an action exactly when that action's own condition
    holds, whatever the order of its checks: a campaign at its target is
    completed; downstream work is continued before anything is opened, and after
    the deadline only an accepted delivery; a claim takes the oldest sponsored
    ticket; Product is asked for tickets only when there is nothing ready,
    proposed, in flight or downstream and the buffers want some. *)
Theorem decide_exact s action :
  counters_unsigned s -> blocked action = false -> (decide s = action <-> selected s action).
Proof.
  intros Hc Hb. split; [|by apply selected_decide].
  intros <-. by apply decide_selected.
Qed.

(** A status with one ready ticket and nothing else going on. *)
Definition one_ready : TicketBufferStatus := {|
  bs_campaign_id := 11; bs_campaign_revision := 7; bs_campaign_is_running := true;
  bs_campaign_deadline_open := true; bs_campaign_cost_known := true; bs_delivery_target := 2;
  bs_delivered_attempt_count := 0; bs_ready_count := 1; bs_proposed_count := 1;
  bs_in_flight_count := 0; bs_downstream_attempt_count := 0; bs_downstream_action := None;
  bs_downstream_evidence := None; bs_paid_session_active := false; bs_low_water := 2;
  bs_target := 3; bs_maximum := Some 5; bs_proposal_maximum := 3;
  bs_oldest_sponsored_ticket := Some {| sc_ticket_revision_id := 30; sc_revision := 4 |} |}.

Lemma decide_exact_witness :
  counters_unsigned one_ready /\ selected one_ready (decide one_ready) /\
  blocked (decide one_ready) = false.
Proof.
  assert (Hc : counters_unsigned one_ready) by (repeat constructor; discriminate).
  split; [exact Hc|]. split; [|reflexivity].
  apply (proj1 (decide_exact one_ready (decide one_ready) Hc eq_refl)). reflexivity.
Defined.

(** * Statuses read from the database *)

Lemma u32_from_sql_Ok v field w : u32_from_sql v field = Ok w <-> 0 <= v < 2 ^ 32 /\ w = v.
Proof.
  unfold u32_from_sql. split.
  - intros H. case_match; [|discriminate]. bool_prop. injection H as <-. lia.
  - intros [[? ?] ->]. by rewrite (proj2 (Z.leb_le _ _)), (proj2 (Z.ltb_lt _ _)) by lia.
Qed.

(** The status of a snapshot, against the campaign row it was read from. *)
Record status_of (db : Database) (campaign : CampaignRow) (s : TicketBufferStatus) : Prop := {
  so_campaign : campaigns db !! bs_campaign_id s = Some campaign;
  so_application : is_Some (application_revisions db !! cmp_application_revision_id campaign);
  so_revision : bs_campaign_revision s = cmp_revision campaign /\ 0 <= cmp_revision campaign;
  so_running : bs_campaign_is_running s = (cmp_lifecycle campaign =? CAMPAIGN_RUNNING);
  so_deadline : bs_campaign_deadline_open s = (now db <? cmp_deadline campaign);
  so_cost : bs_campaign_cost_known s = (cmp_cost_state campaign =? COST_KNOWN);
  so_target : bs_delivery_target s = cmp_delivery_target campaign;
  so_delivered : bs_delivered_attempt_count s = delivered_attempt_count (bs_campaign_id s) db;
  so_ready : bs_ready_count s
    = Z.of_nat (length (sponsored_revisions db (cmp_application_revision_id campaign)));
  so_in_flight : bs_in_flight_count s
    = application_revision_ticket_count db (cmp_application_revision_id campaign) TICKET_IN_FLIGHT;
  so_downstream : bs_downstream_attempt_count s
    = Z.of_nat (length (downstream_attempts db (cmp_application_revision_id campaign)));
  so_session : bs_paid_session_active s = paid_session_active db;
  so_action : downstream_action_of (downstream_read db (cmp_application_revision_id campaign))
    = Ok (bs_downstream_action s);
  so_oldest : oldest_sponsored db (cmp_application_revision_id campaign)
    = Ok (bs_oldest_sponsored_ticket s);
  so_unsigned : counters_unsigned s;
}.

Lemma status_read db id s :
  ticket_buffer_status db id = Ok s ->
  bs_campaign_id s = id /\ exists campaign, status_of db campaign s.
Proof.
  unfold ticket_buffer_status. intros H. ok_inv H. read_steps.
  repeat match goal with Hu : u32_from_sql _ _ = Ok _ |- _ => apply u32_from_sql_Ok in Hu as [? ->] end.
  match goal with Hc : _ = Some (_, _) |- _ =>
    apply bind_Some in Hc as (cmp & Hcmp & (app & Happ & [= <- <-])%bind_Some) end.
  split; [done|]. exists cmp. constructor; try done.
  unfold counters_unsigned. rewrite !Forall_cons. simpl. split_and!; try lia. constructor.
Qed.

Lemma next_action_read db id action :
  next_action db id = Ok action ->
  exists s campaign, bs_campaign_id s = id /\ status_of db campaign s /\ decide s = action /\
    selected s action.
Proof.
  unfold next_action. intros H. ok_inv H.
  match goal with Hs : ticket_buffer_status _ _ = Ok ?s |- _ =>
    apply status_read in Hs as (<- & campaign & Hs); exists s, campaign end.
  split; [done|]. split; [done|]. split; [done|].
  by eapply decide_selected, so_unsigned.
Qed.

(** ** Heads *)

Lemma sponsored_revisions_elem db app id tr :
  (id, tr) ∈ sponsored_revisions db app <->
  ticket_revisions db !! id = Some tr /\ tr_application_revision_id (tr_contract tr) = app /\
  tr_lifecycle tr = TICKET_SPONSORED /\
  exists t, tickets db !! tr_ticket_id (tr_contract tr) = Some t /\
    t_current_ticket_revision_id t = id.
Proof.
  unfold sponsored_revisions. rewrite rows_where_elem. split.
  - intros [H1 H2]. bool_prop. case_match; [|discriminate]. bool_prop. eauto 10.
  - intros (? & <- & -> & t & -> & ->). by rewrite !Z.eqb_refl.
Qed.

(** No sponsored ticket of the application was sponsored before this one. *)
Definition oldest_ready (db : Database) (app id : Z) (tr : TicketRevisionRow) : Prop :=
  forall id' tr', (id', tr') ∈ sponsored_revisions db app ->
    lex_lt (sponsorship_order (id', tr')) (sponsorship_order (id, tr)) = false.

Lemma oldest_sponsored_Ok db app o :
  oldest_sponsored db app = Ok o ->
  (o = None /\ sponsored_revisions db app = []) \/
  exists c tr, o = Some c /\ (sc_ticket_revision_id c, tr) ∈ sponsored_revisions db app /\
    0 < sc_ticket_revision_id c /\ sc_revision c = tr_revision tr /\
    oldest_ready db app (sc_ticket_revision_id c) tr.
Proof.
  unfold oldest_sponsored. intros [[H ->]|((id & tr) & c & H & Hc & ->)]%transpose_map_Ok.
  - left. by apply first_by_None in H.
  - right. ok_inv Hc. simpl in *. read_steps. apply first_by_Some in H as [Hin Hle].
    exists {| sc_ticket_revision_id := id; sc_revision := tr_revision tr |}, tr. simpl.
    split_and!; try done. intros id' tr' Hin'. by apply (Hle (id', tr')).
Qed.

Lemma sponsored_ticket_at db app id tr :
  tickets_wf db -> (id, tr) ∈ sponsored_revisions db app ->
  exists t, ticket_at db id TICKET_SPONSORED tr t /\
    tr_application_revision_id (tr_contract tr) = app.
Proof.
  intros Hwf (Htr & Ha & Hl & _)%sponsored_revisions_elem.
  destruct (ticket_at_well_formed _ _ _ Hwf Htr) as (t & Hat & _). rewrite Hl in Hat. eauto.
Qed.

(** The candidate the head attempt submitted last. *)
Definition newest_candidate (db : Database) (attempt_id id : Z) (c : CandidateRow) : Prop :=
  candidates db !! id = Some c /\ c_ticket_attempt_id (c_evidence c) = attempt_id /\
  forall id' c', candidates db !! id' = Some c' -> c_ticket_attempt_id (c_evidence c') = attempt_id ->
    lex_lt [- c_created_at (c_evidence c'); - id'] [- c_created_at (c_evidence c); - id] = false.

(** The action names the oldest attempt in progress, its newest candidate and
    the revisions of both. *)
Definition downstream_head (db : Database) (app : Z) (action : DownstreamActionContext) : Prop :=
  exists ta c, (da_ticket_attempt_id action, ta) ∈ downstream_attempts db app /\
    (forall i b, (i, b) ∈ downstream_attempts db app ->
       lex_lt [ta_created_at (ta_claim b); i]
              [ta_created_at (ta_claim ta); da_ticket_attempt_id action] = false) /\
    newest_candidate db (da_ticket_attempt_id action) (da_candidate_id action) c /\
    da_ticket_attempt_revision action = ta_revision ta /\
    da_candidate_revision action = c_revision c /\
    exists reviewed, from_attempt_and_candidate (ta_stage ta) (c_lifecycle c)
      (bool_decide (is_Some (c_candidate_commit c))) reviewed = Some (da_stage action).

Lemma newest_candidate_read db attempt_id id c :
  newest (fun c => c_created_at (c_evidence c))
    (rows_where (fun _ c => c_ticket_attempt_id (c_evidence c) =? attempt_id) (candidates db))
    = Some (id, c) -> newest_candidate db attempt_id id c.
Proof.
  unfold newest. intros [[Hc Ha]%rows_where_elem Hle]%first_by_Some. bool_prop.
  split_and!; [done..|]. intros id' c' Hc' Ha'. apply (Hle (id', c')).
  apply rows_where_elem. split; [done|]. by apply Z.eqb_eq.
Qed.

Lemma downstream_action_head db app action :
  downstream_action_of (downstream_read db app) = Ok (Some action) -> downstream_head db app action.
Proof.
  unfold downstream_action_of, downstream_read. cbv zeta. cbn -[downstream_attempts newest first_by].
  destruct (first_by _ _) as [[aid ta]|] eqn:Ehead; [|discriminate]. cbn -[newest].
  destruct (ticket_revisions db !! _) as [tr|]; [|discriminate]. cbn -[newest].
  destruct (newest _ _) as [[cid c]|] eqn:Ec; [|discriminate].
  intros [[_ [=]]|(stage & a & Hs & Ha & [= ->])]%transpose_map_Ok. ok_inv Ha. read_steps.
  apply first_by_Some in Ehead as [Hin Hle]. exists ta, c. cbn.
  split_and!; try done.
  - intros i b Hb. by apply (Hle (i, b)).
  - by apply newest_candidate_read.
  - eauto.
Qed.

(** What the scheduler picks is the oldest work of its kind: the claimed ticket
    is Sponsored, at the revision the claim will expect, and no sponsored ticket
    of the application was sponsored before it; continued downstream work is the
    oldest attempt in progress with its newest candidate. *)
Theorem scheduled_heads_are_oldest blake3 db id campaign action :
  reachable blake3 db -> campaigns db !! id = Some campaign -> next_action db id = Ok action ->
  match action with
  | ClaimReadyTicket a => exists tr t,
      ticket_at db (sc_ticket_revision_id (cra_ticket a)) TICKET_SPONSORED tr t /\
      tr_revision tr = sc_revision (cra_ticket a) /\
      tr_application_revision_id (tr_contract tr) = cmp_application_revision_id campaign /\
      oldest_ready db (cmp_application_revision_id campaign)
        (sc_ticket_revision_id (cra_ticket a)) tr
  | ContinueDownstream a => downstream_head db (cmp_application_revision_id campaign) a
  | _ => True
  end.
Proof.
  intros [Hwf _ _]%reachable_well_formed' Hc (s & c & Hid & Hs & _ & Hsel)%next_action_read.
  assert (c = campaign) as -> by (pose proof (so_campaign _ _ _ Hs); congruence).
  destruct action as [| |a|a| | |]; try done.
  - destruct Hsel as (_ & _ & Ho & _).
    destruct (oldest_sponsored_Ok _ _ _ (so_oldest _ _ _ Hs)) as [[E _]|(x & tr & E & Hin & _ & Hr & Hle)];
      [congruence|]. rewrite Ho in E. injection E as <-.
    destruct (sponsored_ticket_at _ _ _ _ Hwf Hin) as (t & Hat & Ha). by exists tr, t.
  - destruct Hsel as (_ & Ha & _). apply downstream_action_head.
    rewrite <- Ha. apply (so_action _ _ _ Hs).
Qed.

Lemma scheduled_heads_are_oldest_witness :
  let db := after checksum installation [propose; sponsor] in
  exists a tr, next_action db 1 = Ok (ClaimReadyTicket a) /\
    oldest_ready db 1 (sc_ticket_revision_id (cra_ticket a)) tr.
Proof.
  intros db. assert (Hr : reachable checksum db) by (apply after_reachable; vm_compute; reflexivity).
  destruct (campaigns db !! 1) as [campaign|] eqn:Hc; [|vm_compute in Hc; discriminate Hc].
  assert (Hn : next_action db 1 = Ok (ClaimReadyTicket {| cra_campaign_id := 1;
    cra_expected_campaign_revision := 0;
    cra_ticket := {| sc_ticket_revision_id := 1; sc_revision := 1 |} |}))
    by (vm_compute; reflexivity).
  destruct (scheduled_heads_are_oldest checksum db 1 campaign _ Hr Hc Hn) as (tr & t & _ & _ & _ & Hle).
  eexists _, tr. split; [exact Hn|].
  assert (Ha : cmp_application_revision_id campaign = 1)
    by (vm_compute in Hc; injection Hc as <-; reflexivity).
  rewrite Ha in Hle. exact Hle.
Defined.

(** ** Selected actions are accepted *)

Lemma claim_gates_selected db campaign s c :
  status_of db campaign s -> may_open_work s -> cst_campaign_id c = bs_campaign_id s ->
  cst_expected_campaign_revision c = bs_campaign_revision s ->
  claim_gates db c (cmp_application_revision_id campaign).
Proof.
  intros Hs [[Hr Ht Hc Hp] Hd _ _ Hf _ _] Eid Erev. exists campaign.
  rewrite (so_running _ _ _ Hs) in Hr. rewrite (so_cost _ _ _ Hs) in Hc.
  rewrite (so_deadline _ _ _ Hs) in Hd. rewrite (so_session _ _ _ Hs) in Hp. bool_prop.
  rewrite Eid, Erev. destruct (so_revision _ _ _ Hs) as [Er _].
  split_and!; try done; [apply Hs|by rewrite (so_in_flight _ _ _ Hs) in Hf|].
  intros i ses Hi Hrun. unfold paid_session_active in Hp. rewrite exists_where_false in Hp.
  specialize (Hp i ses Hi). by rewrite Hrun in Hp.
Qed.

(** A claim the scheduler selects on a snapshot commits on that snapshot: with
    a valid, unused command identity, a valid requalification whose four
    observations are stored, and revisions within their column, nothing of the
    claim's own checks nor any constraint of the schema refuses it. *)
Theorem scheduled_claim_commits blake3 db id a principal command_id q :
  reachable blake3 db -> next_action db id = Ok (ClaimReadyTicket a) ->
  validate_command principal command_id = Ok tt -> validate_requalification q = Ok tt ->
  audit_log db !! (principal, command_id) = None ->
  (forall tr, ticket_revisions db !! sc_ticket_revision_id (cra_ticket a) = Some tr ->
     contract_ids_positive tr /\ tr_revision tr < i64_max /\
     exists outcome, requalified db (tr_expected_observation_artifact_id (tr_contract tr))
       (tr_discovery_observation_artifact_id (tr_contract tr)) q outcome) ->
  exists r db', claim_ready_ticket blake3 db principal command_id a q = Ok (r, db') /\
    ctr_was_idempotent_retry r = false.
Proof.
  intros Hwf%reachable_well_formed' (s & campaign & Hid & Hs & _ & Hm & _ & Ho & Ec & Er)%next_action_read
    Hv Hq Hk Hrow.
  destruct (oldest_sponsored_Ok _ _ _ (so_oldest _ _ _ Hs)) as [[E _]|(x & tr & E & Hin & Hpos & Hrev & _)];
    [congruence|]. rewrite Ho in E. injection E as <-.
  destruct (sponsored_ticket_at _ _ _ _ (wf_tickets _ Hwf) Hin) as (t & Hat & Happ).
  destruct (Hrow tr (at_revision _ _ _ _ _ Hat)) as (Hcontract & Hmax & outcome & Hout).
  eapply (claim_run blake3 db (claim_command principal command_id a q) tr t outcome);
    try done; cbn [claim_command cst_campaign_id]; rewrite ?Happ.
  - by eapply claim_gates_selected.
  - rewrite Ec. intros c Hc. rewrite (so_campaign _ _ _ Hs) in Hc. injection Hc as <-.
    apply (so_revision _ _ _ Hs).
  - apply (so_application _ _ _ Hs).
Qed.

Lemma scheduled_claim_commits_witness :
  let db := after checksum installation [propose; sponsor] in
  exists a r db', next_action db 1 = Ok (ClaimReadyTicket a) /\
    claim_ready_ticket checksum db "driver" "c3" a (observed_head 3 4) = Ok (r, db').
Proof.
  intros db. assert (Hr : reachable checksum db) by (apply after_reachable; vm_compute; reflexivity).
  set (a := {| cra_campaign_id := 1; cra_expected_campaign_revision := 0;
    cra_ticket := {| sc_ticket_revision_id := 1; sc_revision := 1 |} |}).
  assert (Hn : next_action db 1 = Ok (ClaimReadyTicket a)) by (vm_compute; reflexivity).
  destruct (scheduled_claim_commits checksum db 1 a "driver" "c3" (observed_head 3 4) Hr Hn)
    as (r & db' & H & _).
  - vm_compute. reflexivity.
  - vm_compute. reflexivity.
  - vm_compute. reflexivity.
  - intros tr Htr. vm_compute in Htr. injection Htr as <-.
    split; [repeat split; reflexivity|]. split; [reflexivity|].
    exists Reproduced. apply (ts_classify_exact db {| tl_ticket_id := 1; tl_ticket_revision_id := 1;
      tl_application_revision_id := 1; tl_state := Sponsored; tl_revision := 1;
      tl_expected_observation_artifact_id := 5; tl_discovery_observation_artifact_id := 3 |}).
    vm_compute. reflexivity.
  - exists a, r, db'. split; [exact Hn|exact H].
Defined.

(** A completion the scheduler selects commits on the same snapshot, under a
    valid and unused identity, and closes exactly that campaign. *)
Theorem scheduled_completion_commits blake3 db id a principal command_id :
  next_action db id = Ok (NextCompleteCampaign a) -> 0 < id ->
  validate_command principal command_id = Ok tt -> audit_log db !! (principal, command_id) = None ->
  cca_expected_campaign_revision a < i64_max ->
  exists db' campaign,
    complete_campaign blake3 db principal command_id a
      = Ok (cca_expected_campaign_revision a + 1, db') /\
    campaigns db' !! id = Some campaign /\ cmp_lifecycle campaign = CAMPAIGN_COMPLETED /\
    cmp_revision campaign = cca_expected_campaign_revision a + 1.
Proof.
  intros (s & campaign & <- & Hs & _ & Hrun & Htarget & ->)%next_action_read Hpos Hv Hk Hmax.
  destruct (so_revision _ _ _ Hs) as [Er Hr0]. simpl in *.
  rewrite (so_running _ _ _ Hs) in Hrun. bool_prop.
  rewrite (so_target _ _ _ Hs), (so_delivered _ _ _ Hs) in Htarget.
  destruct (complete_campaign_run blake3 db (completion_command principal command_id
    {| cca_campaign_id := bs_campaign_id s; cca_expected_campaign_revision := bs_campaign_revision s |})
    campaign) as (db' & E & c' & Hc' & Hl' & Hr'); try done; [apply Hs|lia|].
  exists db', c'. rewrite Er. split; [|done]. unfold complete_campaign. rewrite <- Er in *. exact E.
Qed.

(** The delivered story with its campaign still running. *)
Definition delivered_running : Database :=
  update_campaign_lifecycle 1 CAMPAIGN_RUNNING 3 (after checksum installation story).

Lemma scheduled_completion_commits_witness :
  exists db' campaign,
    complete_campaign checksum delivered_running "driver" "c20"
      {| cca_campaign_id := 1; cca_expected_campaign_revision := 3 |} = Ok (4, db') /\
    campaigns db' !! 1 = Some campaign /\ cmp_lifecycle campaign = CAMPAIGN_COMPLETED.
Proof.
  destruct (scheduled_completion_commits checksum delivered_running 1
    {| cca_campaign_id := 1; cca_expected_campaign_revision := 3 |} "driver" "c20")
    as (db' & campaign & H1 & H2 & H3 & _); try (vm_compute; reflexivity).
  exists db', campaign. split; [exact H1|]. split; [exact H2|exact H3].
Defined.

(** ** Agreement of counts and heads *)

Lemma oldest_sponsored_None db app :
  oldest_sponsored db app = Ok None <-> sponsored_revisions db app = [].
Proof.
  unfold oldest_sponsored. rewrite transpose_map_Ok, first_by_None. split.
  - by intros [[? _]|(? & ? & ? & ? & [=])].
  - by left.
Qed.

Lemma ready_head_agrees db campaign s :
  status_of db campaign s ->
  (bs_ready_count s = 0 <-> bs_oldest_sponsored_ticket s = None).
Proof.
  intros Hs. rewrite (so_ready _ _ _ Hs). pose proof (so_oldest _ _ _ Hs) as Ho.
  split.
  - intros H. assert (E : sponsored_revisions db (cmp_application_revision_id campaign) = [])
      by (apply length_zero_iff_nil; lia).
    apply oldest_sponsored_None in E. congruence.
  - intros E. rewrite E in Ho. apply oldest_sponsored_None in Ho. by rewrite Ho.
Qed.

Lemma downstream_head_agrees db campaign s :
  status_of db campaign s -> bs_downstream_attempt_count s = 0 -> bs_downstream_action s = None.
Proof.
  intros Hs. rewrite (so_downstream _ _ _ Hs). intros H. pose proof (so_action _ _ _ Hs) as Ha.
  destruct (bs_downstream_action s) as [a|]; [|done]. exfalso.
  apply downstream_action_head in Ha as (ta & _ & Hin & _).
  apply Nat2Z.inj with (m := 0%nat) in H. apply length_zero_iff_nil in H. rewrite H in Hin.
  by apply not_elem_of_nil in Hin.
Qed.

(** A status read from one snapshot never disagrees with itself: the scheduler
    is never blocked by a ready ticket without a ready count, by a ready count
    without a ticket, or by a downstream head without a downstream attempt.
    Those three constraints can only come from reads of different snapshots. *)
Theorem snapshot_heads_agree db id k :
  next_action db id = Ok (BlockedBy k) ->
  k <> ReadyBufferHeadMissing /\ k <> ReadyBufferHeadUnexpected /\
  k <> DownstreamActionHeadUnexpected.
Proof.
  intros (s & campaign & _ & Hs & Hd & _)%next_action_read.
  pose proof (ready_head_agrees _ _ _ Hs) as Hready.
  pose proof (downstream_head_agrees _ _ _ Hs) as Hdown.
  unfold decide, campaign_gate, downstream_gate, buffer_constraint, option_or, decide_ready in Hd.
  destruct (Z.eqb_spec (bs_ready_count s) 0), (Z.eqb_spec (bs_downstream_attempt_count s) 0),
    (bs_oldest_sponsored_ticket s), (bs_downstream_action s), (bs_maximum s);
    cbn in Hd; repeat case_match; simplify_eq; try done; exfalso; clear Hs; intuition congruence.
Qed.

Lemma snapshot_heads_agree_witness :
  next_action (after checksum installation to_claim) 1
    = Ok (BlockedBy (InFlightTicketLimitReached 1 1)) /\
  InFlightTicketLimitReached 1 1 <> ReadyBufferHeadMissing.
Proof.
  assert (H : next_action (after checksum installation to_claim) 1
    = Ok (BlockedBy (InFlightTicketLimitReached 1 1))) by (vm_compute; reflexivity).
  split; [exact H|]. exact (proj1 (snapshot_heads_agree _ _ _ H)).
Defined.
