(* ===== verification/Accounting.v ===== *)
(** The books of the process authority: one running campaign, one running
    session, every session tied to its assignment and campaign, and every
    campaign's measured cost equal to what its sessions cost.  The invariant
    holds of every state the kernel can reach. *)
From S2P Require Import Prelude Values Database Lifecycle Refinement ProcessStore ProviderEffects.
From S2P Require Import Kernel ProcessRefinement Frames.

(** * What a session cost *)

Definition session_cost (s : SessionRow) : Z :=
  match ses_terminal s with Some t => default 0 (st_cost_micro_usd t) | None => 0 end.

Definition in_campaign (campaign_id : Z) (_ : Z) (s : SessionRow) : bool :=
  ses_campaign_id s =? campaign_id.

Definition campaign_spend (campaign_id : Z) (m : gmap Z SessionRow) : Z :=
  sum_where session_cost (in_campaign campaign_id) m.

(** The highest cost state among a campaign's ended sessions. *)
Definition cost_state_of (s : SessionRow) : Z :=
  match ses_terminal s with Some t => st_cost_state t | None => COST_KNOWN end.

(** * The invariant *)

Definition running_campaign (c : CampaignRow) : option unit :=
  if cmp_lifecycle c =? CAMPAIGN_RUNNING then Some tt else None.
Definition running_session (s : SessionRow) : option unit :=
  if ses_lifecycle s =? SESSION_RUNNING then Some tt else None.
Definition session_assignment (s : SessionRow) : option Z :=
  Some (si_assignment_id (ses_identity s)).
Definition effect_key (e : ProviderEffectRow) : option (Z * string * Z) :=
  Some (pi_session_id (pe_intent e), pi_core_run_id (pe_intent e), pi_effect_id (pe_intent e)).

Record exclusive (db : Database) : Prop := {
  ex_campaign : table_unique running_campaign (campaigns db);
  ex_session : table_unique running_session (sessions db);
  ex_assignment : table_unique session_assignment (sessions db);
  ex_effect : table_unique effect_key (provider_effects db);
}.

(** A campaign's books. *)
Record balanced (m : gmap Z SessionRow) (id : Z) (c : CampaignRow) : Prop := {
  bal_budget : 0 <= cmp_aggregate_budget_micro_usd c <= i64_max;
  bal_measured : 0 <= cmp_measured_cost_micro_usd c <= i64_max;
  bal_sum : cmp_measured_cost_micro_usd c = campaign_spend id m;
  bal_known : cmp_cost_state c = COST_KNOWN ->
    cmp_measured_cost_micro_usd c <= cmp_aggregate_budget_micro_usd c;
  bal_state : forall i s, m !! i = Some s -> ses_campaign_id s = id ->
    cost_state_of s <= cmp_cost_state c;
  bal_cause : cmp_cost_state c <> COST_KNOWN -> exists i s, m !! i = Some s /\
    ses_campaign_id s = id /\ cost_state_of s = cmp_cost_state c;
  bal_range : COST_KNOWN <= cmp_cost_state c <= COST_EXCEEDED;
  bal_exceeded : cmp_cost_state c = COST_EXCEEDED -> cmp_lifecycle c = CAMPAIGN_FAILED;
  bal_reason : failure_reason_matches_lifecycle c = true;
}.

(** An ended session's cost columns. *)
Definition ended (t : SessionTerminal) : Prop :=
  (st_cost_state t = COST_UNKNOWN /\ st_cost_micro_usd t = None) \/
  (st_cost_state t = COST_KNOWN \/ st_cost_state t = COST_EXCEEDED) /\
  exists v, st_cost_micro_usd t = Some v /\ 0 <= v.

(** A session against its assignment and campaign: it took its identity from
    the assignment, mirrors its state, and while it runs the campaign's cost is
    known and the campaign has not failed. *)
Definition session_linked (db : Database) (s : SessionRow) : Prop :=
  exists a c pid pgid started,
    assignments db !! si_assignment_id (ses_identity s) = Some a /\
    campaigns db !! ses_campaign_id s = Some c /\
    ses_identity s = ses_identity (session_row (si_assignment_id (ses_identity s))
                                     (as_identity a) pid pgid started) /\
    as_lifecycle a = ses_lifecycle s /\
    ((ses_lifecycle s = SESSION_RUNNING /\ ses_terminal s = None /\
      cmp_cost_state c = COST_KNOWN /\ cmp_lifecycle c <> CAMPAIGN_FAILED) \/
     (2 <= ses_lifecycle s <= 5 /\ exists t, ses_terminal s = Some t /\ ended t)).

Record accounted (db : Database) : Prop := {
  acc_exclusive : exclusive db;
  acc_campaign : forall id c, campaigns db !! id = Some c -> balanced (sessions db) id c;
  acc_session : forall id s, sessions db !! id = Some s -> session_linked db s;
  acc_assignment : forall id a, assignments db !! id = Some a ->
    exists c, campaigns db !! ai_campaign_id (as_identity a) = Some c;
  acc_effect : forall id e, provider_effects db !! id = Some e -> exists s,
    sessions db !! pi_session_id (pe_intent e) = Some s /\
    si_assignment_id (ses_identity s) = pi_assignment_id (pe_intent e) /\
    (pe_state e = provider_effect_code EffectStarted <-> pe_settlement e = None) /\
    exists state, pe_state e = provider_effect_code state;
}.

(** Only the process tables matter. *)
Lemma accounted_tables db db' : process_tables db' = process_tables db ->
  accounted db -> accounted db'.
Proof.
  unfold process_tables. intros [= Ec Ea Es Ee] [[X1 X2 X3 X4] C S A E].
  split; [split|..]; unfold session_linked in *; rewrite ?Ec, ?Ea, ?Es, ?Ee; auto.
Qed.

Lemma pristine_accounted db : pristine db -> accounted db.
Proof.
  intros [_ Ec Ea Es Ee].
  assert (H : process_tables db = (∅, ∅, ∅, ∅)) by (unfold process_tables; congruence).
  split; [split|..]; rewrite ?Ec, ?Ea, ?Es, ?Ee; try apply table_unique_empty;
    intros *; by rewrite lookup_empty.
Qed.

(** * How a changed campaign row keeps its books *)

(** An update that leaves the cost columns of a campaign alone. *)
Lemma balanced_columns m id c c' :
  balanced m id c ->
  cmp_aggregate_budget_micro_usd c' = cmp_aggregate_budget_micro_usd c ->
  cmp_measured_cost_micro_usd c' = cmp_measured_cost_micro_usd c ->
  cmp_cost_state c' = cmp_cost_state c ->
  (cmp_cost_state c = COST_EXCEEDED -> cmp_lifecycle c' = CAMPAIGN_FAILED) ->
  failure_reason_matches_lifecycle c' = true -> balanced m id c'.
Proof.
  intros [? ? ? ? ? ? ? ? ?] Eb Em Es Hx Hr.
  split; rewrite ?Eb, ?Em, ?Es; auto.
Qed.

(** A new session that costs nothing yet changes no books. *)
Lemma balanced_new_session m id c s :
  ses_terminal s = None -> balanced m id c -> balanced (<[fresh_id m := s]> m) id c.
Proof.
  intros Hs [? ? Hsum ? Hst Hca Hr ? ?]. split; auto.
  - unfold campaign_spend. rewrite sum_where_fresh by apply fresh_id_lookup.
    rewrite Hsum. unfold campaign_spend, session_cost at 3. rewrite Hs. case_match; lia.
  - intros i s' [[<- <-]|[? Hi]]%lookup_insert_Some Hc; [|by eapply Hst].
    unfold cost_state_of. rewrite Hs. lia.
  - intros Hne. destruct (Hca Hne) as (i & s' & Hi & H). exists i, s'.
    rewrite lookup_insert_ne; [done|]. intros <-. by rewrite fresh_id_lookup in Hi.
Qed.

(** * Links that survive a change *)

Lemma session_linked_change db db' s :
  session_linked db s ->
  (forall a, assignments db !! si_assignment_id (ses_identity s) = Some a ->
     exists a', assignments db' !! si_assignment_id (ses_identity s) = Some a' /\
       as_identity a' = as_identity a /\ as_lifecycle a' = as_lifecycle a) ->
  (forall c, campaigns db !! ses_campaign_id s = Some c ->
     exists c', campaigns db' !! ses_campaign_id s = Some c' /\
       (ses_lifecycle s = SESSION_RUNNING -> cmp_cost_state c' = cmp_cost_state c /\
          (cmp_lifecycle c' = CAMPAIGN_FAILED -> cmp_lifecycle c = CAMPAIGN_FAILED))) ->
  session_linked db' s.
Proof.
  intros (a & c & pid & pgid & st & Ha & Hc & Hid & Hl & Hx) Ka Kc.
  destruct (Ka a Ha) as (a' & Ha' & Ei & El), (Kc c Hc) as (c' & Hc' & Hcost).
  exists a', c', pid, pgid, st. rewrite Ei, El. split_and!; try done.
  destruct Hx as [(Hr & Ht & Hk & Hf)|Hx]; [left|by right].
  destruct (Hcost Hr) as [-> Hf']. split_and!; auto.
Qed.

Lemma running_session_of_None db id i s :
  running_session_of id db = None -> sessions db !! i = Some s -> ses_campaign_id s = id ->
  ses_lifecycle s <> SESSION_RUNNING.
Proof.
  unfold running_session_of. intros H Hs <- Hr.
  match type of H with match ?rows with _ => _ end = _ => destruct rows as [|[? ?] l] eqn:E end; [|done].
  assert (Hin : (i, s) ∈ ([] : list (Z * SessionRow))); [|by apply not_elem_of_nil in Hin].
  rewrite <- E. apply rows_where_elem. by rewrite Hr, !Z.eqb_refl.
Qed.

(** Replacing a campaign row by one with balanced books and the same cost
    state, which runs only if the old one did. *)
Lemma accounted_campaign db id c c' :
  accounted db -> campaigns db !! id = Some c -> balanced (sessions db) id c' ->
  (cmp_lifecycle c' = CAMPAIGN_RUNNING -> cmp_lifecycle c = CAMPAIGN_RUNNING) ->
  cmp_cost_state c' = cmp_cost_state c ->
  (cmp_lifecycle c' = CAMPAIGN_FAILED ->
     cmp_lifecycle c = CAMPAIGN_FAILED \/ running_session_of id db = None) ->
  accounted (set_campaigns (<[id := c']> (campaigns db)) db).
Proof.
  intros [[X1 X2 X3 X4] C S A E] Hc Hb Hl Hk Hf. split; [split; simpl; auto|simpl..].
  - eapply table_unique_update; [done|exact Hc|]. unfold running_campaign.
    destruct (Z.eqb_spec (cmp_lifecycle c') CAMPAIGN_RUNNING) as [El|]; [|by right].
    rewrite (Hl El). by left.
  - intros i d [[<- <-]|[_ Hd]]%lookup_insert_Some; auto.
  - intros i s Hs. eapply session_linked_change; [by eapply S|simpl; eauto|simpl].
    intros d Hd. destruct (decide (id = ses_campaign_id s)) as [->|Hne].
    + exists c'. rewrite lookup_insert_eq. split; [done|]. assert (d = c) as -> by congruence. intros Hr.
      split; [done|]. intros [Hd'|Hn]%Hf; [done|]. by destruct (running_session_of_None _ _ _ _ Hn Hs eq_refl).
    + exists d. by rewrite lookup_insert_ne.
  - intros i a Ha. destruct (A i a Ha) as [d Hd].
    destruct (decide (id = ai_campaign_id (as_identity a))) as [->|Hne].
    + exists c'. apply lookup_insert_eq.
    + exists d. by rewrite lookup_insert_ne.
  - exact E.
Qed.

Lemma completes_accounted db db' : completes db db' -> accounted db -> accounted db'.
Proof.
  intros (id & c & revision & Hc & Hl & Hf & _) Hacc.
  eapply accounted_tables; [|eapply (accounted_campaign db id c _ Hacc Hc)].
  - exact Hf.
  - destruct (acc_campaign _ Hacc id c Hc) as [? ? ? ? ? ? ? Hx Hr].
    eapply balanced_columns; [by split|done..|intros Hex; specialize (Hx Hex)|].
    + by rewrite Hx in Hl.
    + unfold failure_reason_matches_lifecycle in *. simpl. rewrite Hl in Hr. simpl in Hr. done.
  - done.
  - done.
  - done.
Qed.

(** * Moves *)

Lemma audit_accounted db m : accounted db -> accounted (set_audit_log m db).
Proof. by apply accounted_tables. Qed.

Lemma campaign_accounted db c :
  campaigns_one_running db = true -> cmp_lifecycle c = CAMPAIGN_RUNNING ->
  cmp_measured_cost_micro_usd c = 0 -> cmp_cost_state c = COST_KNOWN ->
  cmp_failure_reason c = None -> 0 <= cmp_aggregate_budget_micro_usd c <= i64_max ->
  accounted db -> accounted (set_campaigns (<[fresh_id (campaigns db) := c]> (campaigns db)) db).
Proof.
  intros Hone Hl Hm Hk Hf Hb [[X1 X2 X3 X4] C S A E].
  assert (Hnew : forall i s, sessions db !! i = Some s -> ses_campaign_id s <> fresh_id (campaigns db)).
  { intros i s Hs Eq. destruct (S i s Hs) as (a & d & ? & ? & ? & _ & Hd & _).
    by rewrite Eq, fresh_id_lookup in Hd. }
  split; [split; simpl; auto|simpl..].
  - apply table_unique_fresh; [done|]. intros j w x Hj _. unfold running_campaign.
    unfold campaigns_one_running in Hone. bool_prop.
    rewrite exists_where_false in Hone. specialize (Hone j w Hj). simpl in Hone. by rewrite Hone.
  - intros i d [[<- <-]|[_ Hd]]%lookup_insert_Some; [|auto].
    assert (Hz : campaign_spend (fresh_id (campaigns db)) (sessions db) = 0).
    { apply sum_where_none. intros k s Hs. apply Z.eqb_neq. eauto. }
    split; rewrite ?Hm, ?Hk, ?Hz, ?Hl; try done; try lia.
    + intros i s Hs Hi. by destruct (Hnew i s Hs).
    + unfold failure_reason_matches_lifecycle. by rewrite Hl, Hf.
  - intros i s Hs. eapply session_linked_change; [by eapply S|simpl; eauto|simpl].
    intros d Hd. exists d. rewrite lookup_insert_ne; [done|].
    intros Eq. by apply (Hnew i s Hs).
  - intros i a Ha. destruct (A i a Ha) as [d Hd]. exists d.
    rewrite lookup_insert_ne; [done|]. intros Eq. by rewrite <- Eq, fresh_id_lookup in Hd.
  - exact E.
Qed.

Lemma close_accounted db id c c' :
  campaigns db !! id = Some c -> cmp_lifecycle c = CAMPAIGN_RUNNING ->
  (cmp_lifecycle c' = CAMPAIGN_CANCELLED \/
   cmp_lifecycle c' = CAMPAIGN_FAILED /\ running_session_of id db = None) ->
  c' = close_campaign (cmp_lifecycle c') (cmp_revision c + 1) (cmp_failure_reason c') c ->
  failure_reason_matches_lifecycle c' = true -> accounted db ->
  accounted (set_campaigns (<[id := c']> (campaigns db)) db).
Proof.
  intros Hc Hl Hl' Hc' Hf Hacc. pose proof (acc_campaign _ Hacc id c Hc) as Hb.
  eapply accounted_campaign; [done|exact Hc| | |by rewrite Hc'|].
  - eapply balanced_columns; [exact Hb|by rewrite Hc'..| |done].
    intros Hx%(bal_exceeded _ _ _ Hb). by rewrite Hl in Hx.
  - intros Hr. destruct Hl' as [E|[E _]]; by rewrite E in Hr.
  - intros Hr. destruct Hl' as [E|[_ E]]; [by rewrite E in Hr|by right].
Qed.

Lemma bump_balanced m id c r : balanced m id c -> balanced m id (bump_campaign r c).
Proof.
  intros Hb. eapply balanced_columns; [exact Hb|done..|by apply Hb|].
  apply (bal_reason _ _ _ Hb).
Qed.

Lemma assignment_accounted db id a c :
  assignments db !! id = None -> campaigns db !! ai_campaign_id (as_identity a) = Some c ->
  accounted db ->
  accounted (set_campaigns
    (<[ai_campaign_id (as_identity a) := bump_campaign (cmp_revision c + 1) c]> (campaigns db))
    (set_assignments (<[id := a]> (assignments db)) db)).
Proof.
  intros Hid Hc Hacc.
  assert (H1 : accounted (set_assignments (<[id := a]> (assignments db)) db)).
  { destruct Hacc as [[X1 X2 X3 X4] C S A E]. split; [split; auto|auto| | |exact E]; simpl.
    - intros i s Hs. eapply session_linked_change; [by eapply S|simpl|simpl; eauto].
      intros b Hb. exists b. rewrite lookup_insert_ne; [done|]. intros ->. by rewrite Hid in Hb.
    - intros i b [[<- <-]|[_ Hb]]%lookup_insert_Some; eauto. }
  apply (accounted_campaign _ _ _ _ H1 Hc); [|done..|by left].
  apply bump_balanced, (acc_campaign _ H1), Hc.
Qed.

(** An effect's session is still there after a session was added or changed. *)
Lemma effect_session_kept (m : gmap Z SessionRow) k v (e : ProviderEffectRow) s :
  (forall old, m !! k = Some old -> ses_identity v = ses_identity old) ->
  m !! pi_session_id (pe_intent e) = Some s ->
  exists s', <[k := v]> m !! pi_session_id (pe_intent e) = Some s' /\
    ses_identity s' = ses_identity s.
Proof.
  intros Hk Hs. destruct (decide (k = pi_session_id (pe_intent e))) as [->|Hne].
  - exists v. rewrite lookup_insert_eq. auto.
  - exists s. by rewrite lookup_insert_ne.
Qed.

Lemma no_paid_session db : paid_session_active db = false ->
  forall i s, sessions db !! i = Some s -> running_session s = None.
Proof.
  unfold paid_session_active. intros H i s Hs. rewrite exists_where_false in H.
  unfold running_session. by rewrite (H i s Hs).
Qed.

Lemma session_accounted db id a c s :
  assignments db !! id = Some a -> campaigns db !! ai_campaign_id (as_identity a) = Some c ->
  cmp_lifecycle c = CAMPAIGN_RUNNING -> cmp_cost_state c = COST_KNOWN ->
  paid_session_active db = false ->
  (forall i other, sessions db !! i = Some other -> si_assignment_id (ses_identity other) <> id) ->
  (exists pid pgid started, s = session_row id (as_identity a) pid pgid started) ->
  accounted db ->
  accounted (set_assignments
    (<[id := set_assignment_lifecycle SESSION_RUNNING (as_revision a + 1) a]> (assignments db))
    (set_sessions (<[fresh_id (sessions db) := s]> (sessions db)) db)).
Proof.
  intros Ha Hc Hl Hk Hpaid Hnone (pid & pgid & st & ->) [[X1 X2 X3 X4] C S A E].
  split; [split; simpl; auto|simpl..].
  - apply table_unique_fresh; [done|]. intros j w x Hj _. by rewrite (no_paid_session db Hpaid j w Hj).
  - apply table_unique_fresh; [done|]. intros j w x Hj [= <-] [= Eq]. by apply (Hnone j w Hj).
  - intros i d Hd. apply balanced_new_session; [done|]. auto.
  - intros i s [[<- <-]|[_ Hs]]%lookup_insert_Some.
    + exists (set_assignment_lifecycle SESSION_RUNNING (as_revision a + 1) a), c, pid, pgid, st.
      simpl. rewrite lookup_insert_eq. split_and!; try done. left. by rewrite Hl.
    + eapply session_linked_change; [by eapply S|simpl|simpl; eauto].
      intros b Hb. exists b. rewrite lookup_insert_ne; [done|]. intros Eq. by apply (Hnone i s Hs).
  - intros i b [[<- <-]|[_ Hb]]%lookup_insert_Some; eauto.
  - intros i e He. destruct (E i e He) as (s & Hs & Hrest & Hst).
    destruct (effect_session_kept _ (fresh_id (sessions db)) (session_row id (as_identity a) pid pgid st)
      e s ltac:(intros old Ho; by rewrite fresh_id_lookup in Ho) Hs) as (s' & Hs' & Ei).
    exists s'. by rewrite Ei.
Qed.

Lemma effect_start_accounted db e s :
  sessions db !! pi_session_id (pe_intent e) = Some s ->
  si_assignment_id (ses_identity s) = pi_assignment_id (pe_intent e) ->
  pe_state e = provider_effect_code EffectStarted -> pe_settlement e = None ->
  (forall i other, provider_effects db !! i = Some other ->
     same_effect (pe_intent other) (pe_intent e) = false) ->
  accounted db ->
  accounted (set_provider_effects
    (<[fresh_id (provider_effects db) := e]> (provider_effects db)) db).
Proof.
  intros Hs Ha Hst Hnone Hfresh [[X1 X2 X3 X4] C S A E].
  split; [split; simpl; auto|simpl; auto..|simpl].
  - apply table_unique_fresh; [done|]. intros j w x Hj [= <-] [= E1 E2 E3].
    specialize (Hfresh j w Hj). unfold same_effect in Hfresh.
    rewrite E1, E2, E3, !Z.eqb_refl, bool_decide_eq_true_2 in Hfresh by done. done.
  - intros i e' [[<- <-]|[_ He]]%lookup_insert_Some; [|by eapply E].
    exists s. split_and!; [done|done|by split|by eexists].
Qed.

Lemma effect_settle_accounted db id e state settlement :
  provider_effects db !! id = Some e -> state <> EffectStarted -> accounted db ->
  accounted (set_provider_effects
    (<[id := settled_effect state settlement e]> (provider_effects db)) db).
Proof.
  intros He Hst [[X1 X2 X3 X4] C S A E]. split; [split; simpl; auto|simpl; auto..|simpl].
  - eapply table_unique_update; [done|exact He|]. by left.
  - intros i e' [[<- <-]|[_ He']]%lookup_insert_Some; [|by eapply E].
    destruct (E id e He) as (s & Hs & Ha & _). exists s. simpl.
    split_and!; [done|done| |by eexists]. by destruct state.
Qed.

(** ** The terminal move *)

(** The outcome on a campaign whose cost is known. *)
Lemma known_outcome u reason c b m o :
  terminal_outcome (terminal_cost u) reason c b m = Ok o -> cmp_cost_state c = COST_KNOWN ->
  (exists v, cost_value o = Some v /\ next_measured o = m + v /\
     ((next_cost_state o = COST_EXCEEDED /\ next_campaign_lifecycle o = CAMPAIGN_FAILED) \/
      (next_cost_state o = COST_KNOWN /\ next_campaign_lifecycle o = cmp_lifecycle c /\
       m + v <= b))) \/
  (cost_value o = None /\ next_measured o = m /\ next_cost_state o = COST_UNKNOWN /\
   (next_campaign_lifecycle o = CAMPAIGN_FAILED \/
    next_campaign_lifecycle o = cmp_lifecycle c)).
Proof.
  unfold terminal_outcome. intros H Hk. rewrite Hk in H. change (COST_KNOWN =? COST_KNOWN) with true in H.
  destruct (terminal_cost u) as [v| |v] eqn:E.
  - left. exists v. ok_inv H; repeat match goal with Ht : add_cost _ _ = Ok _ |- _ =>
      apply add_cost_Ok in Ht as [? ->] end.
    + by split_and!; try left.
    + destruct (Z.ltb_spec b (m + v)); split_and!; try done; [by left|by right].
  - right. ok_inv H. split_and!; try done. simpl. case_match; [by right|by left].
  - by apply terminal_cost_not_exceeded in E.
Qed.

(** Another campaign's books do not see the change. *)
Lemma balanced_other m id k s s' c :
  m !! k = Some s -> ses_campaign_id s <> id -> ses_campaign_id s' = ses_campaign_id s ->
  balanced m id c -> balanced (<[k := s']> m) id c.
Proof.
  intros Hk Hne Heq [? ? Hsum ? Hst Hca ? ? ?]. split; auto.
  - unfold campaign_spend. rewrite (sum_where_update _ _ _ _ s) by done. unfold in_campaign at 2 3.
    rewrite Heq. apply Z.eqb_neq in Hne. rewrite Hne. fold (campaign_spend id m). lia.
  - intros i x [[<- <-]|[_ Hi]]%lookup_insert_Some Hx; [congruence|by eapply Hst].
  - intros Hn. destruct (Hca Hn) as (i & x & Hi & Hx & Hc). exists i, x.
    rewrite lookup_insert_ne; [done|]. intros ->. congruence.
Qed.

Section terminal.
  Context (db : Database) (id : Z) (s : SessionRow) (a : AssignmentRow) (c : CampaignRow).
  Context (t : SessionTerminal) (o : TerminalOutcome) (reason : StopReasonV2).
  Context (Hacc : accounted db) (Hj : session_join db id = Some (s, a, c)).
  Context (Hrun : ses_lifecycle s = SESSION_RUNNING).
  Context (Ho : terminal_outcome (terminal_cost (Some (st_usage t))) reason c
                  (cmp_aggregate_budget_micro_usd c) (cmp_measured_cost_micro_usd c) = Ok o).
  Context (Hmax : next_measured o <= i64_max).
  Context (Hstate : st_cost_state t = next_cost_state o).
  Context (Hvalue : st_cost_micro_usd t = cost_value o).
  Context (Hcheck : session_terminal_checks (session_state_code (session_state reason)) t = true).

Let s' : SessionRow := {|
    ses_identity := ses_identity s;
    ses_lifecycle := session_state_code (session_state reason);
    ses_terminal := Some t;
    ses_revision := ses_revision s + 1 |}.
Let c' := settle_campaign o (next_measured o) (cmp_revision c + 1) c.

Lemma running_known : cmp_cost_state c = COST_KNOWN /\ ses_terminal s = None /\
      as_lifecycle a = SESSION_RUNNING.
  Proof.
    apply session_join_Some in Hj as (Hs & Ha & Hc).
    destruct (acc_session _ Hacc id s Hs) as (a0 & c0 & ? & ? & ? & Ha0 & Hc0 & _ & Hl & Hx).
    assert (a0 = a) as -> by congruence. assert (c0 = c) as -> by congruence.
    destruct Hx as [(_ & ? & ? & _)|[Hr _]]; [|unfold SESSION_RUNNING in *; lia].
    split_and!; [done|done|congruence].
  Qed.

Lemma terminal_value_nonneg v : cost_value o = Some v -> 0 <= v.
  Proof.
    intros Hv. unfold session_terminal_checks in Hcheck. rewrite Hvalue, Hv in Hcheck.
    by bool_prop.
  Qed.

(** The written cost state is the outcome's, within its range. *)
Lemma terminal_state : cmp_cost_state c' = next_cost_state o /\
      COST_KNOWN <= next_cost_state o <= COST_EXCEEDED.
  Proof.
    destruct running_known as (Hk & _ & _). unfold c'. simpl. rewrite Hk.
    destruct (known_outcome _ _ _ _ _ _ Ho Hk) as [(? & _ & _ & [[-> _]|[-> _]])|(_ & _ & -> & _)];
      by split.
  Qed.

Lemma terminal_measured : 0 <= cmp_measured_cost_micro_usd c -> 0 <= next_measured o /\
      next_measured o = cmp_measured_cost_micro_usd c + default 0 (cost_value o).
  Proof.
    intros Hm. destruct running_known as (Hk & _ & _).
    destruct (known_outcome _ _ _ _ _ _ Ho Hk) as [(v & Ev & -> & _)|(-> & -> & _)]; simpl; [|lia].
    pose proof (terminal_value_nonneg v Ev). rewrite Ev. simpl. lia.
  Qed.

Lemma terminal_spend : sessions db !! id = Some s ->
      campaign_spend (ses_campaign_id s) (<[id := s']> (sessions db))
      = campaign_spend (ses_campaign_id s) (sessions db) + default 0 (cost_value o).
  Proof.
    intros Hs. destruct running_known as (_ & Ht & _).
    unfold campaign_spend. rewrite (sum_where_update _ _ _ _ s) by done.
    unfold in_campaign, ses_campaign_id. simpl. rewrite !Z.eqb_refl.
    unfold session_cost at 2. rewrite Ht. unfold session_cost at 2. simpl. rewrite Hvalue. lia.
  Qed.

Lemma terminal_balanced :
    failure_reason_matches_lifecycle c' = true ->
    balanced (<[id := s']> (sessions db)) (ses_campaign_id s) c'.
  Proof.
    intros Hreason. destruct running_known as (Hk & _ & _), terminal_state as [Hstates Hnext].
    pose proof Hj as (Hs & _ & Hc)%session_join_Some.
    destruct (acc_campaign _ Hacc _ c Hc) as [Hb [Hm _] Hsum _ Hst _ _ _ _].
    destruct (terminal_measured Hm) as [Hpos Hadd].
    split; try exact Hreason.
    - done.
    - split; [exact Hpos|exact Hmax].
    - rewrite (terminal_spend Hs), <- Hsum. exact Hadd.
    - rewrite Hstates. intros Hkn'. simpl.
      destruct (known_outcome _ _ _ _ _ _ Ho Hk)
        as [(v & _ & -> & [[E _]|(_ & _ & ?)])|(_ & _ & E & _)]; [|done|]; by rewrite E in Hkn'.
    - rewrite Hstates. intros i x [[<- <-]|[_ Hi]]%lookup_insert_Some Hx.
      + unfold cost_state_of. simpl. rewrite Hstate. lia.
      + specialize (Hst i x Hi Hx). rewrite Hk in Hst. lia.
    - intros _. exists id, s'. rewrite lookup_insert_eq, Hstates. by split_and!.
    - by rewrite Hstates.
    - rewrite Hstates. intros Hx. simpl. destruct (known_outcome _ _ _ _ _ _ Ho Hk)
        as [(? & _ & _ & [[_ ->]|[E _]])|(_ & _ & E & _)]; [done|..]; by rewrite E in Hx.
  Qed.

(** The written cost columns are an ended session's. *)
Lemma terminal_ended : ended t.
  Proof.
    destruct running_known as (Hk & _ & _). unfold ended. rewrite Hstate, Hvalue.
    destruct (known_outcome _ _ _ _ _ _ Ho Hk) as [(v & Ev & _ & Hst)|(-> & _ & -> & _)]; [right|by left].
    split; [destruct Hst as [[? _]|[? _]]; auto|]. exists v. split; [done|by apply terminal_value_nonneg].
  Qed.

Lemma terminal_accounted :
    failure_reason_matches_lifecycle c' = true ->
    accounted (set_campaigns (<[ses_campaign_id s := c']> (campaigns db))
      (set_assignments (alter (finished (assignment_state_code (session_state reason)))
         (si_assignment_id (ses_identity s)) (assignments db))
        (set_sessions (<[id := s']> (sessions db)) db))).
  Proof.
    intros Hreason. destruct running_known as (Hk & Ht & Hal).
    pose proof (terminal_balanced Hreason) as Hbal.
    pose proof Hj as (Hs & Ha & Hc)%session_join_Some.
    rewrite (alter_lookup_eq _ _ _ _ Ha). unfold finished. rewrite Hal. simpl.
    destruct Hacc as [[X1 X2 X3 X4] C S A E]. split; [split; simpl; auto|simpl..].
    - eapply table_unique_update; [done|exact Hc|]. unfold running_campaign, c'. simpl.
      destruct (known_outcome _ _ _ _ _ _ Ho Hk)
        as [(? & _ & _ & [[_ ->]|(_ & -> & _)])|(_ & _ & _ & [->| ->])]; auto.
    - eapply table_unique_update; [done|exact Hs|]. right. by destruct reason.
    - eapply table_unique_update; [done|exact Hs|]. by left.
    - intros i d [[<- <-]|[Hne Hd]]%lookup_insert_Some; [done|].
      eapply balanced_other; [exact Hs|done|done|by apply C].
    - intros i x [[<- <-]|[Hne Hx]]%lookup_insert_Some.
      + destruct (S id s Hs) as (a0 & c0 & p & g & st & Ha0 & Hc0 & Hid & _).
        assert (a0 = a) as -> by congruence.
        exists (set_assignment_lifecycle (assignment_state_code (session_state reason))
          (as_revision a + 1) a), c', p, g, st.
        simpl. rewrite !lookup_insert_eq. split_and!; try done; [by destruct reason|right].
        split; [by destruct reason|]. exists t. split; [done|apply terminal_ended].
      + eapply session_linked_change; [by eapply S|simpl..].
        * intros b Hb. exists b. rewrite lookup_insert_ne; [done|]. intros Eq.
          apply Hne. eapply (X3 id i s x); [done|done|reflexivity|]. unfold session_assignment. by rewrite Eq.
        * intros d Hd. destruct (decide (ses_campaign_id s = ses_campaign_id x)) as [Eq|Hnc].
          -- rewrite Eq, lookup_insert_eq. exists c'. split; [done|]. intros Hrx. exfalso.
             apply Hne. eapply (X2 id i s x tt); [done|done|..]; unfold running_session;
               by rewrite ?Hrun, ?Hrx.
          -- exists d. by rewrite lookup_insert_ne.
    - intros i b [[<- <-]|[_ Hb]]%lookup_insert_Some.
      + destruct (decide (ses_campaign_id s = ai_campaign_id (as_identity a))) as [Eq|Hne].
        * rewrite Eq, lookup_insert_eq. eauto.
        * destruct (A _ a Ha) as [d Hd]. exists d. by rewrite lookup_insert_ne.
      + destruct (decide (ses_campaign_id s = ai_campaign_id (as_identity b))) as [Eq|Hne].
        * rewrite Eq, lookup_insert_eq. eauto.
        * destruct (A _ b Hb) as [d Hd]. exists d. by rewrite lookup_insert_ne.
    - intros i e He. destruct (E i e He) as (x & Hx & Hrest & Hst).
      destruct (effect_session_kept (sessions db) id s' e x) as (x' & Hx' & Ei); [|done|].
      + intros old Ho'. by simplify_eq.
      + exists x'. by rewrite Ei.
  Qed.
End terminal.

(** * Every reachable state is accounted *)

Lemma process_move_accounted db db' : process_move db db' -> accounted db -> accounted db'.
Proof.
  intros Hm Hacc. destruct Hm.
  - by apply audit_accounted.
  - by apply campaign_accounted.
  - by eapply close_accounted.
  - by eapply assignment_accounted.
  - by eapply session_accounted.
  - by eapply effect_start_accounted.
  - by eapply effect_settle_accounted.
  - by eapply terminal_accounted.
Qed.

Lemma kernel_step_accounted blake3 ts db db' :
  kernel_step blake3 ts db db' -> accounted db -> accounted db'.
Proof.
  intros [command y H|command y H|y [_ Ec Ea Es Ee]] Hacc.
  - destruct (execute_frame _ _ _ _ H) as [Hf|Hc].
    + injection Hf as Ec Ea Es Ee _. eapply accounted_tables; [|exact Hacc].
      unfold process_tables. congruence.
    + by eapply completes_accounted.
  - apply execute_process_moves in H. induction H; eauto using process_move_accounted.
  - eapply accounted_tables; [|exact Hacc]. unfold process_tables. congruence.
Qed.

Lemma kernel_accounted blake3 ts db : kernel_reachable blake3 ts db -> accounted db.
Proof.
  intros (db0 & Hp%pristine_accounted & Hr). induction Hr; eauto using kernel_step_accounted.
Qed.
