(* ===== verification/ProcessScenario.v ===== *)
(** A campaign's life on a small installation, driven by the process commands:
    concrete states on which the theorems of [Economy] and [Ledger] are
    applied. *)
From S2P Require Import Prelude Values Contracts Database Lifecycle Scenario ProcessStore.
From S2P Require Import ProviderEffects Kernel.
From S2P Require DecisionStore.

(** [to_timestamp] on milliseconds that never leaves the range. *)
Definition clock (millis : Z) : result string Z := Ok millis.

(** Artifact 20 is the prompt [abc]. *)
Definition prompt_digest : ContentDigest := checksum [97; 98; 99].

(** The installation of [Scenario] before its campaign. *)
Definition fresh_installation : Database :=
  set_campaigns ∅ (set_sessions ∅ {|
    application_revisions := application_revisions installation;
    artifacts := <[20 := {| art_digest := prompt_digest; art_byte_length := 3;
      art_cas_relative_path := "objects/blake3/prompt"; art_creating_kernel_build_id := 1 |}]> sample_artifacts;
    kernel_builds := kernel_builds installation; repositories := ∅;
    offices := sample_offices; campaigns := ∅; assignments := ∅; sessions := ∅;
    provider_effects := ∅; tickets := ∅; ticket_revisions := ∅; ticket_attempts := ∅;
    candidates := ∅; validations := ∅; reviews := ∅; architect_decisions := ∅; deliveries := ∅;
    audit_log := ∅; now := 100 |}).

Definition begin_campaign : ProcessCommand := BeginCampaign {|
  scm_principal := "operator"; scm_command_id := "p1"; scm_expected_application_revision := 0;
  scm_application_revision_id := 1; scm_aggregate_budget := 1000; scm_deadline_unix_millis := 1000;
  scm_delivery_target := 1 |}.

Definition wire_prompts : WirePrompts := {|
  wire_system_prompt_artifact_id := 20; wire_assignment_prompt_artifact_id := 20;
  wire_system_prompt_digest := to_hex prompt_digest;
  wire_assignment_prompt_digest := to_hex prompt_digest;
  wire_system_prompt_bytes_b64 := "YWJj"; wire_assignment_prompt_bytes_b64 := "YWJj" |}.

Definition packet_digest_of (id : Z) : ContentDigest := sample_digest (100 + id).

Definition sample_packet (role : AssignmentRole) (attempt candidate : option Z)
    (operation : TerminalOperationV2) (id allowance : Z) : AssignmentPacketV2 := {|
  pk_campaign_id := 1; pk_assignment_id := id; pk_kernel_build_id := sample_digest 9;
  pk_application_revision_id := 1; pk_assignment_role := role; pk_target := "target";
  pk_ticket_attempt_id := attempt; pk_candidate_id := candidate; pk_system_prompt_artifact_id := 20;
  pk_assignment_prompt_artifact_id := 20; pk_required_read_manifest_artifact_id := 1;
  pk_model := sample_model; pk_context_token_limit := 1000; pk_output_token_limit := 1000;
  pk_wall_limit := 60000; pk_output_byte_limit := 65536; pk_terminal_operations := [operation];
  pk_remaining_campaign_allowance := allowance; pk_packet_digest := packet_digest_of id |}.

(** A command id made of a name and one digit. *)
Definition numbered (name : string) (id : Z) : string :=
  (name ++ String (Ascii.ascii_of_nat (48 + Z.to_nat id)) "")%string.

Definition prepare_with (packet : AssignmentPacketV2) (revision : Z) : ProcessCommand :=
  PrepareAssignment wire_prompts {|
    cas_principal := "driver"; cas_command_id := numbered "prepare-" (pk_assignment_id packet);
    cas_expected_campaign_revision := revision; cas_assignment_id := pk_assignment_id packet;
    cas_packet := packet; cas_packet_byte_length := 10;
    cas_packet_artifact := {| cas_digest := sample_digest 5; cas_byte_length := 10 |};
    cas_required_read_manifest_artifact_id := 1; cas_attempt_ordinal := pk_assignment_id packet |}.

(** A Product assignment. *)
Definition prepare (id revision allowance : Z) : ProcessCommand :=
  prepare_with (sample_packet ProductResearch None None WorkComplete id allowance) revision.

Definition start_command (id : Z) : StartSession := {|
  ss_principal := "driver"; ss_command_id := numbered "start-" id;
  ss_expected_assignment_revision := 0; ss_assignment_id := id;
  ss_packet_digest := packet_digest_of id;
  ss_custody := {| pid := 200; pgid := 200; started_at_unix_millis := 100 |} |}.

Definition begin_session (id : Z) : ProcessCommand := BeginSession (start_command id).

Definition effect_request (session assignment effect : Z) : SessionProviderRequestStartRequest := {|
  prs_client_command_id := provider_effect_command_id "start" session assignment "r" effect;
  prs_expected_revision := 0; prs_core_run_id := "r"; prs_effect_id := effect;
  prs_harness_snapshot_id := "h"; prs_harness_revision_id := "h";
  prs_model_harness_profile_id := "h"; prs_provider_surface_digest := to_hex prompt_digest;
  prs_provider := "openrouter"; prs_model := "model";
  prs_request_fingerprint := to_hex prompt_digest |}.

Definition cost_only (cost : option Z) : UsageTotalsV2 := {|
  u_input_tokens := None; u_output_tokens := None; u_cache_read_tokens := None;
  u_cache_write_tokens := None; u_reasoning_tokens := None; u_reported_cost_micro_usd := cost |}.

Definition settle_request (session assignment effect cost : Z)
  : SessionProviderRequestSettleRequest := {|
  prt_client_command_id := provider_effect_command_id "settle" session assignment "r" effect;
  prt_expected_revision := 0; prt_core_run_id := "r"; prt_effect_id := effect;
  prt_outcome := "settled"; prt_stop_reason := "stop"; prt_context_overflow := false;
  prt_usage := cost_only (Some cost); prt_failure_class := None |}.

Definition begin_effect (session assignment effect : Z) : ProcessCommand :=
  BeginEffect session assignment (effect_request session assignment effect).
Definition settle_effect (session assignment effect cost : Z) : ProcessCommand :=
  SettleEffect session assignment (settle_request session assignment effect cost).

Definition evidence_of (usage : option UsageTotalsV2) : VerifiedTerminalEvidence := {|
  ve_transcript_artifact_id := 1; ve_execution_summary_artifact_id := Some 2;
  ve_stdout_artifact_id := 1; ve_stderr_artifact_id := 1; ve_partial_transcript_artifact_id := None;
  ve_required_read_assertion_artifact_id := 3; ve_required_read_expected_count := 1;
  ve_required_read_satisfied_count := 1; ve_usage := usage |}.

Definition report_of (assignment : Z) (operation : option TerminalOperationV2)
    (reason : StopReasonV2) : TerminalReportV2 := {|
  report_packet_digest := packet_digest_of assignment; report_expected_session_revision := 0;
  report_operation := operation; report_stop_reason := reason; report_digest := sample_digest 4 |}.

Definition end_command_id (session : Z) : string :=
  numbered "end-" session.

Definition end_session (session : Z) (operation : option TerminalOperationV2)
    (reason : StopReasonV2) (cost : option Z) : ProcessCommand :=
  EndSession "driver" (end_command_id session) session (report_of session operation reason)
    (evidence_of (cost_only <$> (Some <$> cost))).

(** * Runs *)

(** Ticket and process commands in one order. *)
Fixpoint kernel_run (blake3 : list Z -> ContentDigest) (ts : Z -> result string Z)
    (db : Database) (commands : list (Command + ProcessCommand)) : option Database :=
  match commands with
  | [] => Some db
  | command :: commands =>
      db' ← match command with
            | inl command => execute blake3 db command
            | inr command => execute_process blake3 ts db command
            end;
      kernel_run blake3 ts db' commands
  end.

Definition ran (commands : list (Command + ProcessCommand)) : Database :=
  default fresh_installation (kernel_run checksum clock fresh_installation commands).

Definition processed (commands : list ProcessCommand) : Database := ran (inr <$> commands).

Definition runs (commands : list (Command + ProcessCommand)) : bool :=
  bool_decide (is_Some (kernel_run checksum clock fresh_installation commands)).

Lemma kernel_run_steps blake3 ts db commands db' :
  kernel_run blake3 ts db commands = Some db' -> rtc (kernel_step blake3 ts) db db'.
Proof.
  revert db. induction commands as [|[command|command] commands IH]; simpl; intros db.
  - intros [= <-]. apply rtc_refl.
  - intros (db1 & H1 & H2)%bind_Some. eapply rtc_l; [by eapply kernel_ticket|by apply IH].
  - intros (db1 & H1 & H2)%bind_Some. eapply rtc_l; [by eapply kernel_process|by apply IH].
Qed.

Lemma ran_steps commands :
  runs commands = true -> rtc (kernel_step checksum clock) fresh_installation (ran commands).
Proof.
  intros [db' H]%bool_decide_eq_true. unfold ran. rewrite H. by eapply kernel_run_steps.
Qed.

Lemma ran_reachable commands :
  runs commands = true -> kernel_reachable checksum clock (ran commands).
Proof. intros H%ran_steps. exists fresh_installation. by split; [split|]. Qed.

Lemma processed_reachable commands :
  runs (inr <$> commands) = true -> kernel_reachable checksum clock (processed commands).
Proof. apply ran_reachable. Qed.

(** One paid session, running; then ended with one settled request of 300. *)
Definition to_session : list ProcessCommand :=
  [begin_campaign; prepare 1 0 1000; begin_session 1].
Definition to_ended : list ProcessCommand :=
  to_session ++ [begin_effect 1 1 0; settle_effect 1 1 0 300;
                 end_session 1 (Some WorkComplete) Completed (Some 300)].

(** A ticket from its campaign's start to the delivery, with one Engineering
    session that cost 150 and one Quality session that cost 100. *)
Definition engineering_packet : AssignmentPacketV2 :=
  sample_packet Engineering (Some 1) None CandidateSubmit 1 1000.
Definition quality_packet : AssignmentPacketV2 :=
  sample_packet Quality (Some 1) (Some 1) QualitySubmitReview 2 850.

Definition final_delivery : DecisionStore.RecordDelivery := {|
  DecisionStore.rd_principal := "driver"; DecisionStore.rd_command_id := "c10";
  DecisionStore.rd_candidate_id := 1; DecisionStore.rd_expected_candidate_revision := 5;
  DecisionStore.rd_expected_attempt_revision := 5;
  DecisionStore.rd_expected_ticket_revision := 2;
  DecisionStore.rd_expected_campaign_revision := 4;
  DecisionStore.rd_expected_old_commit := base_commit;
  DecisionStore.rd_candidate_commit := candidate_commit;
  DecisionStore.rd_resulting_commit := delivered_commit;
  DecisionStore.rd_resulting_tree := candidate_tree;
  DecisionStore.rd_factory_cost_micro_usd := 250; DecisionStore.rd_receipt := sealed 8 |}.

Definition to_delivery : list (Command + ProcessCommand) :=
  [inr begin_campaign; inl propose; inl sponsor; inl claim;
   inr (prepare_with engineering_packet 0); inr (begin_session 1);
   inr (end_session 1 (Some CandidateSubmit) Completed (Some 150));
   inl submit; inl validate_hard; inl attach;
   inr (prepare_with quality_packet 2); inr (begin_session 2);
   inr (end_session 2 (Some QualitySubmitReview) Completed (Some 100));
   inl validate_quality; inl (review Accept); inl (decide_with Deliver None)].

Example ended_runs : runs (inr <$> to_ended) = true.
Proof. vm_compute. reflexivity. Qed.

Example delivery_runs : runs (to_delivery ++ [inl (RecordDelivery final_delivery)]) = true.
Proof. vm_compute. reflexivity. Qed.
