(* ===== verification/InstallationScenario.v ===== *)
(** An installation grown from nothing: its kernel build, one application, a
    campaign and a ticket whose first Engineering attempt failed.  The theorems
    of [Installation] and [Bootstrap] are applied to it. *)
From S2P Require Import Prelude Values Contracts Database Application Lifecycle Refinement Kernel.
From S2P Require Import ProcessStore Cas Custody Storage Admission Scenario ProcessScenario.
From S2P Require Import Receipts Bootstrap Installation.
From S2P Require Import WireBundle Canonical WireReader.
From S2P Require TicketStore DecisionStore ApplicationContract.

(** * The application's sources *)

Definition sample_template (path : string) (bytes : list Z) : TemplateArtifactV2 := {|
  ta_source_path := path; ta_digest := padded bytes; ta_placeholders := [];
  ta_rendered_byte_limit := 100 |}.

Definition sample_policy : ActorPolicyArtifactV2 := {|
  ap_source_path := "policies/actor.luau"; ap_digest := padded [112; 111]; ap_byte_limit := 100;
  ap_entrypoint := FactoryPolicy |}.

Definition sample_profile (role : AssignmentRole) : AssignmentRoleProfileV2 := {|
  rp_assignment_role := role; rp_system_template := sample_template "system.md" [115; 121];
  rp_assignment_template := sample_template "assignment.md" [97; 115]; rp_policy := sample_policy;
  rp_tools := [WorkspaceRead; ToolWorkComplete];
  rp_model := {| mp_provider := "openrouter"; mp_model_id := "model";
    mp_thinking_level := ThinkingNone; mp_context_token_limit := 1000;
    mp_output_token_limit := 1000; mp_price_input := 1; mp_price_output := 1;
    mp_price_cache_read := 1; mp_price_cache_write := 1; mp_capability_flags := [] |};
  rp_limits := {| sl_wall_limit := 60000; sl_output_byte_limit := 65536 |} |}.

Definition sample_command (name : string) : CommandProfileV2 := {|
  cp_name := name; cp_executable := ApprovedTool Cargo; cp_argv := ["test"%string];
  cp_working_directory := "crate"; cp_environment := []; cp_timeout := 1000;
  cp_stdout_byte_limit := 1000; cp_stderr_byte_limit := 1000; cp_expected_exit_status := 0 |}.

Definition sample_bundle : ApplicationBundleV2 := {|
  ab_format_version := 2; ab_application_key := "xsh"; ab_predecessor_bundle := None;
  ab_repository := {| rb_repository_key := "xsh"; rb_canonical_local_path := "/srv/xsh";
    rb_default_branch := "main"; rb_delivery_mode := LocalFastForwardOnly |};
  ab_mission_template := sample_template "mission.md" [109; 105];
  ab_assignment_role_profiles := sample_profile <$> all_roles;
  ab_ticket_policy := {| tp_low_water := 1; tp_target := 2; tp_maximum := Some 2;
    tp_proposal_maximum := 2; tp_ticket_bounds := {| narrative_byte_limit := 1000;
      acceptance_criteria_limit := 5; contract_read_limit := 5 |} |};
  ab_required_reads := [{| req_path := "README.md"; req_reason := "entry" |}];
  ab_reproducer_profiles := [];
  ab_validation_profiles := {| vp_focused := [sample_command "unit"];
                               vp_full := [sample_command "all"] |};
  ab_git_policy := {| gp_forbidden_paths := []; gp_delivery_mode := LocalFastForwardOnly;
                      gp_provenance_trailers_required := true |};
  ab_commit_message_policy := {| cm_subject_byte_limit := 72; cm_body_byte_limit := 1000 |} |}.

(** The text of the bundle, written by the wire layer. *)
Definition bundle_json : list Z := Eval vm_compute in
  match canonical_application_bundle_json_v2 (bundle_wire sample_bundle) with Ok t => t | Err _ => [] end.

Definition source_files : list (string * list Z) :=
  [("bundle.json", bundle_json); ("edited.json", app bundle_json [10]); ("mission.md", [109; 105]); ("system.md", [115; 121]);
   ("assignment.md", [97; 115]); ("policies/actor.luau", [112; 111])]%string.

Definition source_staging (root : string) : Staging := fun path =>
  if bool_decide (path = []) then Some StagedDirectory
  else if bool_decide (path = [string_bytes "policies"]) then Some StagedDirectory
  else (fun file : string * list Z => StagedFile {|
      initial_length := Z.of_nat (length file.2); initial_modified := Some 1;
      chunks := [file.2; []]; final_length := Z.of_nat (length file.2);
      final_modified := Some 1 |})
    <$> List.find (fun file : string * list Z => bool_decide (path_components file.1 = path)) source_files.

(** * Runs *)

Inductive Act :=
  | Seal (bytes : list Z)
  | Keep (c : StorageCommand)
  | Admit (c : AdmitCompiledApplication)
  | Work (c : Command)
  | Drive (c : ProcessCommand)
  | Wait (time : Z).

#[local] Existing Instance machine_lawful.
Definition calm : Machine := machine None.
#[local] Existing Instance calm.

Definition running (d : Disk) : Run := {| disk := d; calls := 0; draws := 0 |}.

Definition act (s : Disk * Database) (a : Act) : option (Disk * Database) :=
  let '(d, db) := s in
  match a with
  | Seal bytes =>
      match adopt_kernel_bytes padded 10000 2 bytes (running d) with
      | (w, Ok _) => Some (disk w, db)
      | _ => None
      end
  | Keep c => (fun db' => (d, db')) <$> execute_storage padded 10000 d db c
  | Admit c =>
      match admit_compiled_application padded 10000 2 source_staging reference_reader db c (running d) with
      | (w, Ok (_, db')) => Some (disk w, db')
      | _ => None
      end
  | Work c => (fun db' => (d, db')) <$> execute padded db c
  | Drive c => (fun db' => (d, db')) <$> execute_process padded clock db c
  | Wait time => Some (d, at_time time db)
  end.

Fixpoint acts (s : Disk * Database) (l : list Act) : option (Disk * Database) :=
  match l with
  | [] => Some s
  | a :: l => s' ← act s a; acts s' l
  end.

Definition grown (l : list Act) : option (Disk * Database) := acts (empty_disk, empty_database 100) l.

#[local] Abbreviation sample_installed :=
  (installed padded 10000 clock 2 source_staging reference_reader).

Lemma act_happens s a s' :
  act s a = Some s' -> happens padded 10000 clock 2 source_staging reference_reader s s'.
Proof.
  destruct s as [d db], a; cbn [act]; intros H.
  - destruct (adopt_kernel_bytes _ _ _ _ _) as [w [seal|]] eqn:E; [|done]. injection H as <-.
    replace w with (adopt_kernel_bytes padded 10000 2 bytes (running d)).1 by by rewrite E.
    exact (adopts_bytes padded 10000 clock 2 source_staging reference_reader bytes (running d) db).
  - apply fmap_Some in H as (db' & H & ->). by eapply stores.
  - destruct (admit_compiled_application _ _ _ _ _ _ _ _) as [w [[receipt db']|]] eqn:E; [|done].
    injection H as <-.
    by apply (admits padded 10000 clock 2 source_staging reference_reader c (running d) w db db'
      (Ok (receipt, db'))).
  - apply fmap_Some in H as (db' & H & ->). by eapply commands.
  - apply fmap_Some in H as (db' & H & ->). by eapply processes.
  - injection H as <-. apply time_passes.
Qed.

Lemma grown_installed l s : grown l = Some s -> sample_installed s.
Proof.
  intros H. exists empty_disk, 100. unfold grown in H.
  revert H. generalize (empty_disk, empty_database 100). induction l as [|a l IH]; intros s0 H.
  - injection H as <-. apply rtc_refl.
  - cbn [acts] in H. apply bind_Some in H as (s1 & H1 & H2).
    eapply rtc_l; [by apply (act_happens _ a)|by apply IH].
Qed.

(** * The story *)

Definition seal_of (bytes : list Z) : CasArtifact :=
  {| cas_digest := padded bytes; cas_byte_length := Z.of_nat (length bytes) |}.

Definition build : ContentDigest := padded [1].

Definition install_act : Act := Keep (InstallBuild {|
  ikb_principal := "operator"; ikb_command_id := "b1"; ikb_expected_revision := 0;
  ikb_build_id := build; ikb_source_digest := padded [2]; ikb_binary_digest := padded [3];
  ikb_schema_identity := SCHEMA_IDENTITY; ikb_host_executable_path := "/opt/host";
  ikb_core_head := base_commit; ikb_core_source_digest := padded [4];
  ikb_rust_toolchain := "stable"; ikb_qualification_receipt := seal_of [113] |}).

Definition keep_artifact (id : string) (bytes : list Z) : list Act :=
  [Seal bytes; Keep (RegisterSealedArtifact {|
    ra_principal := "operator"; ra_command_id := id; ra_expected_kernel_build_revision := 1;
    ra_kernel_build_id := build; ra_sealed := seal_of bytes |})].

Definition admit_act : Act := Admit {|
  aca_principal := "operator"; aca_command_id := "a1"; aca_expected_revision := 0;
  aca_expected_kernel_build_revision := 1; aca_kernel_build_id := build;
  aca_source_root := "/srv/source"; aca_bundle_relative_path := "bundle.json" |}.

(** The observations of the ticket and the rationale of the activation. *)
Definition bring_up : list Act :=
  [Seal [113]; install_act; admit_act]
  ++ keep_artifact "r1" [200] ++ keep_artifact "r2" [201] ++ keep_artifact "r3" [202].


Definition activate_act : Act := Keep (ActivateRevision {|
  aar_principal := "architect"; aar_command_id := "v1"; aar_expected_revision := 1;
  aar_application_key := "xsh"; aar_application_revision_id := 1;
  aar_rationale := {| artifact_id := 8; digest := padded [202]; byte_length := 1 |} |}).

Definition campaign_act : Act := Drive (BeginCampaign {|
  scm_principal := "operator"; scm_command_id := "p1"; scm_expected_application_revision := 1;
  scm_application_revision_id := 1; scm_aggregate_budget := 1000; scm_deadline_unix_millis := 1000;
  scm_delivery_target := 1 |}).

Definition seen_again : TicketStore.CurrentHeadRequalification := {|
  TicketStore.current_head_commit := base_commit; TicketStore.current_head_tree := base_tree;
  TicketStore.first_actual_observation_artifact_id := 6;
  TicketStore.second_actual_observation_artifact_id := 6 |}.

Definition ticket_acts : list Act := Work <$> [
  ProposeTicket {|
    TicketStore.stp_principal := "product"; TicketStore.stp_command_id := "c1";
    TicketStore.stp_expected_application_revision := 1;
    TicketStore.stp_application_revision_id := 1;
    TicketStore.stp_proposal_artifact_id := 6; TicketStore.stp_reproducer_artifact_id := 7;
    TicketStore.stp_expected_observation_artifact_id := 8;
    TicketStore.stp_first_actual_observation_artifact_id := 6;
    TicketStore.stp_second_actual_observation_artifact_id := 6;
    TicketStore.stp_discovery_commit := base_commit;
    TicketStore.stp_discovery_tree := base_tree |};
  sponsor;
  ClaimTicket {|
    TicketStore.cst_principal := "driver"; TicketStore.cst_command_id := "c3";
    TicketStore.cst_campaign_id := 1; TicketStore.cst_expected_campaign_revision := 0;
    TicketStore.cst_ticket_revision_id := 1; TicketStore.cst_expected_ticket_revision := 1;
    TicketStore.cst_requalification := seen_again |};
  FailAttempt failure].

Definition lost_attempt : list Act := bring_up ++ [activate_act; campaign_act; Wait 200] ++ ticket_acts.

Definition retried_attempt : list Act := lost_attempt ++ [Work (RetryEngineering (engineering_retry "e1" 1))].

(** * Witnesses *)

(** The state a run of acts reaches. *)
Definition state_after (l : list Act) : Disk * Database := default (empty_disk, empty_database 100) (grown l).

Lemma grown_after l :
  bool_decide (is_Some (grown l)) = true -> sample_installed ((state_after l).1, (state_after l).2).
Proof.
  intros [s Hs]%bool_decide_eq_true. unfold state_after. rewrite Hs. destruct s. by eapply grown_installed.
Qed.

Definition no_retries (db : Database) : bool :=
  forallb (fun kv => negb (retry_receipt kv.2)) (map_to_list (audit_log db)).

Lemma no_retries_true db key row :
  no_retries db = true -> audit_log db !! key = Some row -> retry_receipt row = false.
Proof.
  unfold no_retries. rewrite forallb_forall. intros H Hrow. specialize (H (key, row)). simpl in H.
  apply negb_true_iff, H, list_elem_of_In. by apply elem_of_map_to_list.
Qed.

Definition sample_gate (s : Disk * Database) : result StorageError unit :=
  verify_restore_integrity padded 10000 (Some SCHEMA_IDENTITY) s.1 s.2.

(** The installation with a lost attempt restarts; once the attempt is retried
    it does not. *)
Lemma daemon_restarts_witness :
  sample_gate (state_after lost_attempt) = Ok tt /\
  sample_gate (state_after retried_attempt) = Err (RestoreAuditSubjectInvalid 13 46 1).
Proof.
  split; [|vm_compute; reflexivity].
  assert (Hi : bool_decide (is_Some (grown lost_attempt)) = true) by (vm_compute; reflexivity).
  assert (Hn : no_retries (state_after lost_attempt).2 = true) by (vm_compute; reflexivity).
  apply grown_after in Hi. unfold sample_gate. revert Hi Hn.
  generalize (state_after lost_attempt). intros s Hi Hn.
  destruct (daemon_restarts padded 10000 clock 2 source_staging reference_reader s.1 s.2 ltac:(lia) Hi)
    as [[H _]|(key & row & Hrow & Hr & _)]; [exact H|exfalso].
  rewrite (no_retries_true _ _ _ Hn Hrow) in Hr. discriminate Hr.
Defined.

(** No later state of the ticket scenario's kernel passes the gate. *)
Lemma engineering_retry_prevents_restart_witness :
  exists r db', TicketStore.retry_engineering_attempt checksum
      (after checksum installation engineering_failed) (engineering_retry "e1" 1) = Ok (r, db') /\
    forall db'', rtc (kernel_step checksum clock) db' db'' -> forall maximum schema d,
      verify_restore_integrity checksum maximum schema d db'' <> Ok tt.
Proof.
  destruct (TicketStore.retry_engineering_attempt checksum
      (after checksum installation engineering_failed) (engineering_retry "e1" 1))
    as [[r db']|e] eqn:E; [|exfalso; by vm_compute in E].
  exists r, db'. split; [reflexivity|]. intros db'' Hr.
  exact (engineering_retry_prevents_restart checksum clock _ _ r db' db'' E Hr).
Defined.

Definition edited_command : AdmitCompiledApplication := {|
  aca_principal := "operator"; aca_command_id := "a2"; aca_expected_revision := 0;
  aca_expected_kernel_build_revision := 1; aca_kernel_build_id := build;
  aca_source_root := "/srv/source"; aca_bundle_relative_path := "edited.json" |}.

(** A stand-in for the hash that tells the two texts apart. *)
Definition with_length (l : list Z) : ContentDigest := take 32 (Z.of_nat (length l) mod 256 :: l ++ repeat 0 32).

Definition edited_seal : CasArtifact :=
  {| cas_digest := with_length (bundle_json ++ [10]); cas_byte_length := Z.of_nat (length bundle_json) + 1 |}.

Definition edited_adoption : Run * result (Stop CasError) CasArtifact :=
  adopt with_length 10000 2 (source_staging "/srv/source") "edited.json" (running empty_disk).

(** A run and its result, told from its result. *)
Lemma run_result {A B} (p : A * B) b : p.2 = b -> p = (p.1, b).
Proof. by destruct p; intros <-. Qed.

Lemma edited_adopted : edited_adoption = (edited_adoption.1, Ok edited_seal).
Proof. apply run_result. vm_compute. reflexivity. Qed.

Definition edited_read : Run * result (Stop CasError) (list Z) :=
  read_verified with_length 10000 (cas_digest edited_seal) edited_adoption.1.

Lemma edited_text : edited_read = (edited_read.1, Ok (bundle_json ++ [10])).
Proof. apply run_result. vm_compute. reflexivity. Qed.

Lemma bundle_json_admitted :
  admit_application_bundle_source_v2 with_length bundle_json
    = Ok (sample_bundle, with_length bundle_json, bundle_json).
Proof. vm_compute. reflexivity. Qed.

Lemma canonical_bundle_with_newline_refused_witness :
  (seal_application_inputs with_length 10000 2 source_staging reference_reader edited_command
     (running empty_disk)).2 = Err (Failed ApplicationBundleDigestMismatch).
Proof.
  exact (canonical_bundle_with_newline_refused with_length 10000 2 source_staging reference_reader
    edited_command bundle_json sample_bundle (with_length bundle_json) (running empty_disk)
    edited_adoption.1 edited_read.1 edited_seal bundle_json_admitted ltac:(vm_compute; discriminate)
    edited_adopted edited_text).
Defined.

(** * The application's contract *)

Definition greeting : TemplateArtifactV2 := {|
  ta_source_path := "greeting.md"; ta_digest := padded [1]; ta_rendered_byte_limit := 30;
  ta_placeholders := ["TICKET_ID"%string] |}.

Definition greeting_source : list Z := string_bytes "ticket ${TICKET_ID}.".

Definition greeting_values : TemplateValues := [("TICKET_ID", "7 ${TICKET_ID}")]%string.

(** A value that looks like a placeholder is not read again. *)
Lemma admitted_template_renders_witness :
  render_template_v2 greeting greeting_source greeting_values
    = Ok (string_bytes "ticket 7 ${TICKET_ID}.") /\
  exists pieces, greeting_source = ApplicationContract.template_source pieces /\
    render_template_v2 greeting greeting_source greeting_values =
      if Z.of_nat (length (ApplicationContract.template_text greeting_values pieces)) <=? 30
      then Ok (ApplicationContract.template_text greeting_values pieces)
      else Err (ByteLimitExceeded "rendered template" 30).
Proof.
  split; [vm_compute; reflexivity|].
  destruct (ApplicationContract.admitted_template_renders greeting (Some Engineering) greeting_source
    greeting_values) as (pieces & Hs & _ & Hr).
  - vm_compute; reflexivity.
  - vm_compute; reflexivity.
  - apply Forall_cons; split; [apply list_elem_of_here|apply Forall_nil; exact I].
  - intros name ->%list_elem_of_singleton. vm_compute. by eexists.
  - by exists pieces.
Defined.

Definition sample_sources : list ApplicationSourceFileV2 :=
  (fun file : string * list Z => {| sf_path := file.1; sf_bytes := file.2 |}) <$> drop 2 source_files.

Definition sample_compiled : CompiledApplicationV2 :=
  match compile padded sample_bundle sample_sources with
  | Ok c => c
  | Err _ => {| ca_bundle := sample_bundle; ca_files := []; ca_source_digest := padded [] |}
  end.


Lemma compile_order_independent_witness :
  compile padded sample_bundle (rev sample_sources) = compile padded sample_bundle sample_sources /\
  compile padded sample_bundle sample_sources = Ok sample_compiled.
Proof.
  split; [|vm_compute; reflexivity].
  apply (ApplicationContract.compile_order_independent padded sample_bundle).
  symmetry. apply Permutation_rev.
Defined.

Lemma compiled_files_exact_witness :
  length (ca_files sample_compiled) = 4%nat /\ ca_files sample_compiled ≡ₚ sample_sources.
Proof.
  split; [vm_compute; reflexivity|].
  apply (ApplicationContract.compiled_files_exact padded sample_bundle). vm_compute; reflexivity.
Defined.

Lemma source_digest_identifies_witness :
  ca_files sample_compiled = ca_files sample_compiled \/ exists x y, x <> y /\ padded x = padded y.
Proof.
  apply (ApplicationContract.source_digest_identifies padded sample_bundle sample_bundle
    sample_sources (rev sample_sources)); vm_compute; reflexivity.
Defined.
