(* ===== verification/PacketScenario.v ===== *)
(** One Engineering packet, built, sealed, admitted and loaded again: the packet
    theorems ([PacketProofs], [PacketCanonical], [PacketSeal]) at work. *)
From S2P Require Import Prelude Base64 Values Contracts Application Json WireBundle Canonical WireReader.
From S2P Require Import Database Cas ProcessStore Packet ProcessReads PacketAdmission CampaignDriver.
From S2P Require Import AssignmentRuntime Harness HarnessStore PacketBuild Custody PacketProofs PacketCanonical.
From S2P Require Import HarnessProofs PacketSeal PacketReader Scenario ProcessScenario.

#[local] Open Scope string_scope.
#[local] Open Scope list_scope.
#[local] Open Scope Z_scope.

(** A stand-in for the hash: 32 bytes of sums, whatever it is given. *)
Definition summed (l : list Z) : ContentDigest :=
  (fun i => foldl (fun sum b => (sum * (i + 3) + b + 1) mod 251) i l) <$> seqZ 0 32.

Lemma summed_wf l : digest_wf (summed l).
Proof.
  split; [by unfold summed; rewrite length_fmap, length_seqZ|].
  unfold summed. apply Forall_fmap, Forall_seqZ. intros i Hi. cbn.
  assert (H : forall l s, 0 <= s <= 255 -> 0 <= foldl (fun sum b => (sum * (i + 3) + b + 1) mod 251) s l <= 255).
  { clear. induction l as [|b l IH]; intros s Hs; [done|]. apply IH.
    pose proof (Z.mod_pos_bound (s * (i + 3) + b + 1) 251). lia. }
  assert (0 <= i <= 255) as Hi' by lia. specialize (H l i Hi'). unfold u8. lia.
Qed.

(** * The material *)

Definition hex40 : string := "0123456789abcdef0123456789abcdef01234567".

Definition packet_policy : list Z := string_bytes "return {}".

Definition packet_profile : AssignmentRoleProfileV2 :=
  let template := {| ta_source_path := "system.md"; ta_digest := summed [1]; ta_placeholders := [];
                     ta_rendered_byte_limit := 100 |} in {|
  rp_assignment_role := Engineering; rp_system_template := template; rp_assignment_template := template;
  rp_policy := {| ap_source_path := "policy.luau"; ap_digest := summed packet_policy;
                  ap_byte_limit := 100; ap_entrypoint := FactoryPolicy |};
  rp_tools := [WorkspaceRead; ToolWorkComplete];
  rp_model := {| mp_provider := "openrouter"; mp_model_id := "model"; mp_thinking_level := ThinkingLow;
    mp_context_token_limit := 1000; mp_output_token_limit := 1000; mp_price_input := 1;
    mp_price_output := 1; mp_price_cache_read := 1; mp_price_cache_write := 1;
    mp_capability_flags := [Reasoning] |};
  rp_limits := {| sl_wall_limit := 60000; sl_output_byte_limit := 65536 |} |}.

Definition packet_context : DurableAssignmentLaunchContext := {|
  lc_materialize_commit := hex40; lc_materialize_tree := hex40; lc_ticket_id := Some 4;
  lc_ticket_revision_id := Some 5; lc_validation_id := None; lc_engineering_checkpoint := None;
  lc_proposal := None; lc_candidate := None; lc_application_required_reads := [];
  lc_ticket_contract_reads := [] |}.

Definition packet_material : PacketMaterial := {|
  pm_assignment_id := 7; pm_campaign_id := 1; pm_application_revision_id := 2;
  pm_campaign := {| cm_revision := 3; cm_remaining := 5000; cm_kernel_build_id := summed [2] |};
  pm_target := TargetEngineering 6; pm_target_text := "ticket-4-revision-5-attempt-6";
  pm_context := packet_context; pm_system_prompt_artifact_id := 10;
  pm_assignment_prompt_artifact_id := 11; pm_required_read_manifest_artifact_id := 12;
  pm_system_prompt := string_bytes "system"; pm_assignment_prompt := string_bytes "work";
  pm_workspace_root := "/srv/work"; pm_staging_root := "/srv/staging"; pm_profile := packet_profile;
  pm_policy_bytes := packet_policy;
  pm_runtime := {| ri_host_executable := "/opt/tea"; ri_core_head := hex40;
    ri_core_source_digest := summed [3]; ri_rust_toolchain := "1.90"; ri_credential_env := "API_KEY" |};
  pm_required_reads := [{| rx_path := "README.md"; rx_digest := summed [4]; rx_reason := "entry" |}];
  pm_assignment_evidence := [{| ev_role := TicketProposal; ev_artifact_id := 13;
                                ev_digest := summed [5]; ev_byte_length := 20 |}] |}.

Definition packet_request : AssignmentMaterializationRequest := {|
  amr_principal := "daemon"; amr_command_id := "launch-7"; amr_expected_campaign_revision := 3;
  amr_campaign_id := 1; amr_application_revision_id := 2; amr_target := TargetEngineering 6 |}.

Definition sealed_bytes : list Z := Eval vm_compute in
  match seal_packet summed packet_material with Ok (_, bytes) => bytes | Err _ => [] end.

Definition sealed_packet_digest : ContentDigest := Eval vm_compute in
  match seal_packet summed packet_material with Ok (packet, _) => pkt_packet_digest packet | Err _ => [] end.

Definition sealed_packet : Packet.AssignmentPacketV2 := domain_packet packet_material sealed_packet_digest.

Definition sealed_artifact : CasArtifact :=
  {| cas_digest := summed sealed_bytes; cas_byte_length := Z.of_nat (length sealed_bytes) |}.

Definition sealed_disk : Disk := with_object summed sealed_bytes empty_disk.

Lemma packet_sealed : seal_packet summed packet_material = Ok (sealed_packet, sealed_bytes).
Proof. by vm_compute. Qed.

Example sealed_bytes_nonempty : is_empty sealed_bytes = false.
Proof. by vm_compute. Qed.

(** The Rust types of the material hold. *)
Lemma sealed_packet_typed : packet_typed sealed_packet.
Proof.
  assert (Hd : digest_wf sealed_packet_digest) by (split; [reflexivity|repeat constructor; lia]).
  constructor; cbn; repeat (apply Forall_cons_2 || apply Forall_nil_2);
    try (split; [by vm_compute|]); first [apply summed_wf|exact Hd|apply Hd|by vm_compute].
Qed.

Lemma assignment_wire_value : packet_value (assignment_wire summed packet_material).
Proof. split; by vm_compute. Qed.

Lemma sealed_object_read : read_object summed 100000 (cas_digest sealed_artifact) sealed_disk = Ok sealed_bytes.
Proof. by vm_compute. Qed.

Lemma packet_policy_bytes : Forall is_byte packet_policy.
Proof. repeat constructor; vm_compute; discriminate. Qed.

(** * The theorems applied *)

Lemma runtime_packet_admitted_witness :
  exists w, admit_packet summed 100000 sealed_disk
    (prepared_assignment packet_request packet_material sealed_packet sealed_bytes sealed_artifact) = Ok w /\
    verified_wire summed sealed_bytes sealed_packet_digest = Ok w.
Proof.
  exact (runtime_packet_admitted summed 100000 sealed_disk packet_request packet_material sealed_packet
    sealed_bytes sealed_artifact summed_wf assignment_wire_value sealed_packet_typed packet_policy_bytes
    packet_sealed eq_refl sealed_object_read).
Defined.

Lemma restart_loads_admitted_packet_witness :
  load_packet summed 100000 sealed_disk (cas_digest sealed_artifact) (Z.of_nat (length sealed_bytes))
    sealed_packet_digest = Ok sealed_packet.
Proof.
  set (c := prepared_assignment packet_request packet_material sealed_packet sealed_bytes sealed_artifact).
  destruct (admit_packet summed 100000 sealed_disk c) as [w|e] eqn:E.
  - exact (restart_loads_admitted_packet summed 100000 sealed_disk sealed_disk c w E sealed_packet_typed
      (reflexivity sealed_disk)).
  - exfalso. revert E. by vm_compute.
Defined.

Lemma packet_digest_identifies_witness :
  exists w, verify_assignment_packet_v2 summed sealed_bytes (to_hex sealed_packet_digest) = Ok w /\
    ((w = w /\ sealed_bytes = sealed_bytes) \/
     exists t t', t <> t' /\ summed t = summed t' /\
       canonical_assignment_packet_json_v2 summed (with_packet_digest "" w) = Ok t /\
       canonical_assignment_packet_json_v2 summed (with_packet_digest "" w) = Ok t').
Proof.
  destruct (verify_assignment_packet_v2 summed sealed_bytes (to_hex sealed_packet_digest)) as [w|e] eqn:E.
  - exists w. split; [done|].
    exact (packet_digest_identifies summed sealed_bytes sealed_bytes (to_hex sealed_packet_digest) w w E E).
  - exfalso. revert E. by vm_compute.
Defined.

(** * A recorded compilation

    A compilation recorded for a prepared assignment, kept, and retried with
    another context ([HarnessProofs]). *)

Definition prepared : Database := processed [begin_campaign; prepare 1 0 1000].

Definition no_compilations : HarnessTables := {| compilations := ∅; context_rows := ∅; institution := [] |}.

Definition sample_compilation (context : list ContextItemV2) : RecordHarnessCompilation := {|
  rh_assignment_id := 1; rh_application_revision_id := 1; rh_office_id := 1;
  rh_assignment_role := ProductResearch; rh_compiler_version := 2; rh_spec_artifact_id := 1;
  rh_system_prompt_artifact_id := 20; rh_assignment_prompt_artifact_id := 20; rh_packet_artifact_id := 5;
  rh_packet_digest := packet_digest_of 1; rh_context_items := context |}.

Definition first_context : list ContextItemV2 :=
  [Harness.context_item (RefOffice 1) DirectTarget "the admitted office owns this invocation";
   Harness.context_item (RefArtifact 1) RequiredConstraint "exact workspace reads are required before mutation"].

Definition after_record : HarnessTables :=
  match persist_harness_compilation prepared no_compilations (sample_compilation first_context) with
  | Ok (_, t) => t
  | Err _ => no_compilations
  end.

Example recorded_first :
  persist_harness_compilation prepared no_compilations (sample_compilation first_context)
  = Ok (compilation_receipt 1 (sample_compilation first_context), after_record).
Proof. by vm_compute. Qed.

Example recorded_by_store :
  is_ok (record prepared no_compilations (sample_compilation first_context)) = true.
Proof. by vm_compute. Qed.

Lemma recorded_compilation_kept_witness :
  compilation_for_assignment after_record 1 = Ok (Some (compilation_receipt 1 (sample_compilation first_context))) /\
  forall db, persist_harness_compilation db after_record (sample_compilation first_context)
    = Ok (compilation_receipt 1 (sample_compilation first_context), after_record).
Proof.
  refine (recorded_compilation_kept prepared no_compilations (sample_compilation first_context)
    (compilation_receipt 1 (sample_compilation first_context)) after_record after_record _ _ _ _ _).
  - apply table_unique_empty.
  - constructor; [|reflexivity|]; repeat constructor.
  - reflexivity.
  - exact recorded_first.
  - constructor.
Defined.

(** The stored context stays the first one; the retry's receipt shows another. *)
Example retried_with_other_context :
  persist_harness_compilation prepared after_record (sample_compilation [])
    = Ok (compilation_receipt 1 (sample_compilation []), after_record) /\
  compilation_for_assignment after_record 1 = Ok (Some (compilation_receipt 1 (sample_compilation first_context))).
Proof. by vm_compute. Qed.

Lemma assignment_evidence_closed_witness :
  exists evidence, exact_assignment_evidence TargetProduct {|
    lc_materialize_commit := base_commit; lc_materialize_tree := base_tree; lc_ticket_id := None;
    lc_ticket_revision_id := None; lc_validation_id := None; lc_engineering_checkpoint := None;
    lc_proposal := None; lc_candidate := None; lc_application_required_reads := [];
    lc_ticket_contract_reads := [] |} = Ok evidence /\ evidence ≡ₚ [] /\
    NoDup (ev_role <$> evidence) /\ Z.of_nat (length evidence) <= 24 /\
    StronglySorted (fun a b => lex_lt (by_role b) (by_role a) = false) evidence.
Proof. by apply assignment_evidence_closed. Defined.
