(* ===== verification/DriverScenario.v ===== *)
(** A driver on the installation of [ProcessScenario]: concrete services, and
    passes of the campaign driver that evaluate. *)
From stdpp Require Import pretty.
From S2P Require Import Prelude Values Contracts Database Lifecycle Scenario.
From S2P Require Import ProcessStore ProviderEffects SessionRuntime Effects CampaignDriver AssignmentRuntime.
From S2P Require Import Kernel ProcessScenario DriverRuns LaunchRuns.
From S2P Require TicketStore.

(** * A launch *)

(** The greatest assignment identity a row or an audited command uses. *)
Definition last_assignment (db : Database) : Z :=
  Z.max (foldr Z.max 0 (map_to_list (assignments db)).*1)
    (foldr Z.max 0 ((fun kv => al_subject_id kv.2) <$> map_to_list (audit_log db))).

Lemma foldr_max_ge x (l : list Z) : x ∈ l -> x <= foldr Z.max 0 l.
Proof. induction l as [|y l IH]; simpl; [by intros ?%not_elem_of_nil|]. intros [->|?%IH]%elem_of_cons; lia. Qed.

Lemma last_assignment_unused db : unused_assignment (last_assignment db + 1) db.
Proof.
  split.
  - destruct (assignments db !! (last_assignment db + 1)) as [a|] eqn:E; [|done]. exfalso.
    apply elem_of_map_to_list, (list_elem_of_fmap_2 fst), foldr_max_ge in E.
    unfold last_assignment in E at 1. simpl in E. unfold last_assignment in E. lia.
  - intros key row Hrow _ Eid.
    apply elem_of_map_to_list, (list_elem_of_fmap_2 (fun kv => al_subject_id kv.2)), foldr_max_ge
      in Hrow. simpl in Hrow. rewrite Eid in Hrow. unfold last_assignment in Hrow. lia.
Qed.

(** The packet of assignment [id]; the prompts are artifact 20. *)
Definition prepared_packet (id : Z) : PreparedPacket := {|
  pp_target_text := "target";
  pp_system_prompt_artifact_id := 20; pp_assignment_prompt_artifact_id := 20;
  pp_model := sample_model; pp_context_token_limit := 1000; pp_output_token_limit := 1000;
  pp_wall_limit := 60000; pp_output_byte_limit := 65536;
  pp_packet_digest := packet_digest_of id; pp_packet_byte_length := 10;
  pp_packet_artifact := {| cas_digest := sample_digest 5; cas_byte_length := 10 |};
  pp_wire := wire_prompts |}.

#[export] Instance sample_assignments : AssignmentServices := {|
  reserve db := last_assignment db + 1;
  resolve _ _ := Ok tt;
  manifest db _ := (db, Ok 1);
  compile db _ id _ := (db, Ok (prepared_packet id));
  supervise db _ := (db, Ok tt);
  clean_up _ := Ok tt;
  describe _ := "launch failed"%string |}.

(** A request of 300 and a proposal to complete the work; [reported] is what the
    proposal says it cost. *)
Definition proposal (reported : option Z) : SessionSubmitTerminalRequest := {|
  sst_client_command_id := "1"; sst_terminal_operation := Some "work_complete"%string;
  sst_terminal_payload_b64 := "YWJj"; sst_stop_reason := "completed";
  sst_usage := cost_only reported |}.

Definition exited : SupervisedProcessOutcome := {|
  spo_reason := ProcessCancelled; spo_exit_code := None; spo_signal := Some 15;
  spo_stdout_bytes := 0; spo_stderr_bytes := 0 |}.

(** The life of a session: its commands, then its stop. *)
Definition lived (commands : list ProcessCommand) (db : Database) : Database :=
  default db (kernel_run checksum clock db (inr <$> commands)).

Lemma lived_steps commands db : rtc (kernel_step checksum clock) db (lived commands db).
Proof.
  unfold lived. destruct (kernel_run _ _ _ _) as [db'|] eqn:E; [|apply rtc_refl].
  by eapply kernel_run_steps.
Qed.

Definition one_request (db : Database) (session : Z) : list ProcessCommand :=
  match sessions db !! session with
  | Some row =>
      let assignment := si_assignment_id (ses_identity row) in
      [begin_effect session assignment 0; settle_effect session assignment 0 300]
  | None => []
  end.

Definition session_services (admission : result string unit) (reported : option Z)
  : SessionServices := {|
  spawn _ _ := Ok {| pid := 200; pgid := 200; started_at_unix_millis := 100 |};
  reap _ := Ok tt;
  admit_session _ _ := admission;
  live db id := (lived (one_request db id) db,
    Ok {| stop_process := exited; stop_transport := ProcessExited;
          stop_proposal := Some (proposal reported) |});
  seal db _ := (db, Ok tt);
  mint _ _ usage := Ok (evidence_of usage) |}.

#[export] Instance session_services_lawful admission reported :
  @LawfulSession checksum clock (session_services admission reported).
Proof.
  split; intros *; simpl; [apply lived_steps|apply rtc_refl|]. by intros [= <-].
Qed.

#[export] Instance sample_assignments_lawful : LawfulAssignment checksum clock.
Proof. split; intros *; simpl; [apply rtc_refl..|apply last_assignment_unused]. Qed.

(** * The driver *)

(** Nothing acts between two calls, and no work comes back from the resolver. *)
Definition quiet_services (credential : string) : DriverServices := {|
  driver_interleaving := {| between _ db := db |};
  unix_millis millis := millis;
  debug_format s := s;
  credential_environment := "OPENROUTER_API_KEY";
  credential_lookup _ := Ok credential;
  requalify_sponsored_ticket db _ := (db, Ok (observed_head 3 4));
  resume_hard_validation db _ := (db, Ok tt);
  resume_candidate_commit_attach db _ := (db, Ok tt);
  deliver_accepted_candidate db _ := (db, Ok tt);
  materialize_and_launch_assignment db _ := (db, Err "no runtime"%string) |}.

#[export] Instance quiet_services_lawful credential :
  @LawfulResolver checksum clock (quiet_services credential).
Proof. split; [split|..]; intros *; simpl; apply rtc_refl. Qed.

(** The quiet driver over the launching runtime. *)
Definition launching (admission : result string unit) (reported : option Z) : DriverServices :=
  @with_launch checksum (session_services admission reported) sample_assignments
    (quiet_services "secret").

#[export] Instance launching_resolver admission reported :
  @LawfulResolver checksum clock (launching admission reported).
Proof. unfold launching. apply _. Qed.

#[export] Instance launching_lawful admission reported :
  @LawfulLaunch checksum clock (launching admission reported).
Proof. unfold launching. apply _. Qed.

Definition started : World := {| w_db := processed [begin_campaign]; w_calls := 0 |}.

Definition outcomes_of (d : DriverServices) (n : nat) : list (result CampaignDriverError CampaignDriverOutcome) :=
  (@run_passes checksum d n started).2.
