(* ===== verification/Economy.v ===== *)
(** Theorems on the process authority: its commands are steps the ticket
    lifecycle tolerates, at most one paid session runs, a campaign's measured
    cost is the sum of what its sessions cost and stays within the budget while
    it is known, and a running session can always be brought to its end. *)
From S2P Require Import Prelude Values Database Lifecycle ProcessStore ProviderEffects Refinement Kernel.
From S2P Require Import ProcessRefinement Frames Scenario Accounting ProcessScenario.
From S2P Require TicketStore DecisionStore.



(** An ended session of a campaign whose cost is known ended at a known cost. *)
Lemma known_campaign_sessions db id c i s t :
  accounted db -> campaigns db !! id = Some c -> cmp_cost_state c = COST_KNOWN ->
  sessions db !! i = Some s -> ses_campaign_id s = id -> ses_terminal s = Some t ->
  st_cost_state t = COST_KNOWN /\ is_Some (st_cost_micro_usd t).
Proof.
  intros Hacc Hc Hk Hs Hi Ht.
  pose proof (bal_state _ _ _ (acc_campaign _ Hacc id c Hc) i s Hs Hi) as Hle.
  unfold cost_state_of in Hle. rewrite Ht, Hk in Hle.
  destruct (acc_session _ Hacc i s Hs) as (? & ? & ? & ? & ? & _ & _ & _ & _ & [(_ & E & _)|(_ & t' & E & Hend)]);
    [congruence|]. assert (t' = t) as -> by congruence.
  destruct Hend as [[E1 _]|[[E1|E1] (v & Hv & _)]]; rewrite E1 in Hle |- *;
    unfold COST_KNOWN, COST_UNKNOWN, COST_EXCEEDED in *; [lia|by eauto|lia].
Qed.

(** A session that is not running has ended. *)
Lemma session_ended db i s :
  accounted db -> paid_session_active db = false -> sessions db !! i = Some s ->
  exists t, ses_terminal s = Some t.
Proof.
  intros Hacc Hp Hs. pose proof (no_paid_session db Hp i s Hs) as Hn. unfold running_session in Hn.
  destruct (acc_session _ Hacc i s Hs) as (? & ? & ? & ? & ? & _ & _ & _ & _ & [(E & _)|(_ & t & E & _)]);
    [by rewrite E in Hn|eauto].
Qed.

(** C11: Composition: every run of the kernel, in which ticket, candidate and
    decision commands interleave with campaign, assignment, session and
    provider-effect commands in any order, is a run of the ticket lifecycle
    under its environment; so everything proved of reachable lifecycle states
    holds of every state the kernel reaches. *)
Theorem kernel_runs_refine_lifecycle blake3 ts db db' :
  rtc (kernel_step blake3 ts) db db' -> rtc (step blake3) db db'.
Proof. apply kernel_steps_runs. Qed.

Lemma kernel_runs_refine_lifecycle_witness :
  rtc (step checksum) fresh_installation (processed to_ended).
Proof.
  apply (kernel_runs_refine_lifecycle checksum clock), ran_steps. vm_compute. reflexivity.
Defined.

(** C8: Exclusive spending: in every reachable state at most one campaign and at most
    one session run, and the running session belongs to an assignment that is
    running for it, under whose campaign, application, build, office, role and
    model it runs, while that campaign's cost is known and within its budget. *)
Theorem one_paid_session blake3 ts db :
  kernel_reachable blake3 ts db ->
  (forall i j c c', campaigns db !! i = Some c -> campaigns db !! j = Some c' ->
     cmp_lifecycle c = CAMPAIGN_RUNNING -> cmp_lifecycle c' = CAMPAIGN_RUNNING -> i = j) /\
  (forall i s, sessions db !! i = Some s -> ses_lifecycle s = SESSION_RUNNING ->
     (forall j s', sessions db !! j = Some s' -> ses_lifecycle s' = SESSION_RUNNING -> j = i) /\
     exists a c pid pgid started,
       assignments db !! si_assignment_id (ses_identity s) = Some a /\
       as_lifecycle a = SESSION_RUNNING /\
       ses_identity s = ses_identity (session_row (si_assignment_id (ses_identity s))
                                        (as_identity a) pid pgid started) /\
       campaigns db !! ses_campaign_id s = Some c /\ cmp_cost_state c = COST_KNOWN /\
       cmp_measured_cost_micro_usd c <= cmp_aggregate_budget_micro_usd c).
Proof.
  intros [[X1 X2 _ _] C S _ _]%kernel_accounted. split.
  - intros i j c c' Hi Hj Hc Hc'.
    by eapply (X1 i j c c' tt); [..|unfold running_campaign; rewrite Hc|unfold running_campaign; rewrite Hc'].
  - intros i s Hs Hr. split.
    + intros j s' Hj Hr'.
      by eapply (X2 j i s' s tt); [..|unfold running_session; rewrite Hr'|unfold running_session; rewrite Hr].
    + destruct (S i s Hs) as (a & c & pid & pgid & st & Ha & Hc & Hid & Hl & [(_ & _ & Hk & _)|[Hx _]]);
        [|unfold SESSION_RUNNING in *; lia].
      exists a, c, pid, pgid, st. split_and!; try done; [congruence|].
      by apply (bal_known _ _ _ (C _ c Hc)).
Qed.

Lemma one_paid_session_witness :
  let db := processed to_session in
  exists s a c, sessions db !! 1 = Some s /\
    assignments db !! si_assignment_id (ses_identity s) = Some a /\
    as_lifecycle a = SESSION_RUNNING /\ campaigns db !! ses_campaign_id s = Some c /\
    cmp_cost_state c = COST_KNOWN.
Proof.
  intros db.
  assert (H : kernel_reachable checksum clock db) by (apply processed_reachable; vm_compute; reflexivity).
  assert (Hd : is_Some (sessions db !! 1)) by (apply (bool_decide_unpack _); vm_compute; exact I).
  destruct (sessions db !! 1) as [s|] eqn:E; [|destruct Hd; discriminate].
  assert (Hl : ses_lifecycle s = SESSION_RUNNING)
    by (vm_compute in E; injection E as <-; reflexivity).
  destruct (one_paid_session checksum clock db H) as [_ K].
  destruct (K 1 s E Hl) as (_ & a & c & _ & _ & _ & Ha & Hr & _ & Hc & Hk & _).
  exists s, a, c. split_and!; try done.
Defined.

(** C7: The books balance: in every reachable state a campaign's measured cost is
    exactly the sum of what its ended sessions cost; while its cost is known
    every one of them ended at a known cost and the sum is within the budget;
    once a session's cost is unknown or exceeded, so is the campaign's, and an
    exceeded campaign has failed. *)
Theorem campaign_cost_is_session_sum blake3 ts db id c :
  kernel_reachable blake3 ts db -> campaigns db !! id = Some c ->
  cmp_measured_cost_micro_usd c = campaign_spend id (sessions db) /\
  (cmp_cost_state c = COST_KNOWN ->
     cmp_measured_cost_micro_usd c <= cmp_aggregate_budget_micro_usd c /\
     forall i s t, sessions db !! i = Some s -> ses_campaign_id s = id ->
       ses_terminal s = Some t -> st_cost_state t = COST_KNOWN /\ is_Some (st_cost_micro_usd t)) /\
  (forall i s t, sessions db !! i = Some s -> ses_campaign_id s = id -> ses_terminal s = Some t ->
     st_cost_state t <= cmp_cost_state c) /\
  (cmp_cost_state c = COST_EXCEEDED -> cmp_lifecycle c = CAMPAIGN_FAILED).
Proof.
  intros Hacc%kernel_accounted Hc. destruct (acc_campaign _ Hacc id c Hc) as [? ? ? Hk Hst ? ? ? ?].
  assert (Hle : forall i s t, sessions db !! i = Some s -> ses_campaign_id s = id ->
    ses_terminal s = Some t -> st_cost_state t <= cmp_cost_state c).
  { intros i s t Hs Hi Ht. specialize (Hst i s Hs Hi). unfold cost_state_of in Hst. by rewrite Ht in Hst. }
  split_and!; try done. intros Hkn. split; [by apply Hk|]. intros i s t Hs Hi Ht.
  by eapply known_campaign_sessions.
Qed.

Lemma campaign_cost_is_session_sum_witness :
  let db := processed to_ended in
  exists c, campaigns db !! 1 = Some c /\ cmp_measured_cost_micro_usd c = 300 /\
    cmp_measured_cost_micro_usd c = campaign_spend 1 (sessions db).
Proof.
  intros db.
  assert (H : kernel_reachable checksum clock db) by (apply processed_reachable; vm_compute; reflexivity).
  assert (Hd : is_Some (campaigns db !! 1)) by (apply (bool_decide_unpack _); vm_compute; exact I).
  destruct (campaigns db !! 1) as [c|] eqn:E; [|destruct Hd; discriminate].
  exists c. split_and!; [reflexivity|vm_compute in E; injection E as <-; reflexivity|].
  exact (proj1 (campaign_cost_is_session_sum checksum clock db 1 c H E)).
Defined.

(** The facts a fresh delivery rests on. *)
Lemma record_delivery_books blake3 db c r db' :
  DecisionStore.record_delivery blake3 db c = Ok (r, db') ->
  DecisionStore.dr_was_idempotent_retry r = false ->
  exists candidate attempt campaign,
    candidates db !! DecisionStore.rd_candidate_id c = Some candidate /\
    ticket_attempts db !! c_ticket_attempt_id (c_evidence candidate) = Some attempt /\
    campaigns db !! ta_campaign_id (ta_claim attempt) = Some campaign /\
    cmp_cost_state campaign = COST_KNOWN /\ paid_session_active db = false /\
    DecisionStore.dr_factory_cost_micro_usd r = cmp_measured_cost_micro_usd campaign.
Proof.
  intros H Hretry. unfold DecisionStore.record_delivery in H.
  ok_inv H; [done|..]; read_steps; open_locks; read_steps;
    match goal with Hl : DecisionStore.load_campaign _ _ = Ok _ |- _ => apply load_campaign_Ok in Hl end.
  all: eexists cand, a, _; split_and!; eauto using aa_attempt.
Qed.

(** C10: A delivery records the whole price: whenever a delivery commits in a
    reachable state, the Factory cost on its receipt is the sum of the costs of
    all sessions of the campaign that delivered it, each of them ended at a
    known cost, and it is within that campaign's budget. *)
Theorem delivery_records_campaign_spend blake3 ts db c r db' :
  kernel_reachable blake3 ts db -> DecisionStore.record_delivery blake3 db c = Ok (r, db') ->
  DecisionStore.dr_was_idempotent_retry r = false ->
  exists candidate attempt campaign,
    candidates db !! DecisionStore.rd_candidate_id c = Some candidate /\
    ticket_attempts db !! c_ticket_attempt_id (c_evidence candidate) = Some attempt /\
    campaigns db !! ta_campaign_id (ta_claim attempt) = Some campaign /\
    let id := ta_campaign_id (ta_claim attempt) in
    DecisionStore.dr_factory_cost_micro_usd r = campaign_spend id (sessions db) /\
    DecisionStore.dr_factory_cost_micro_usd r <= cmp_aggregate_budget_micro_usd campaign /\
    forall i s, sessions db !! i = Some s -> ses_campaign_id s = id ->
      exists t, ses_terminal s = Some t /\ st_cost_state t = COST_KNOWN.
Proof.
  intros Hacc%kernel_accounted H Hretry.
  destruct (record_delivery_books _ _ _ _ _ H Hretry)
    as (cand & a & cmp & Hcand & Ha & Hcmp & Hk & Hp & Hcost).
  destruct (acc_campaign _ Hacc _ _ Hcmp) as [_ _ Hsum Hknown _ _ _ _ _].
  exists cand, a, cmp. cbv zeta. rewrite Hcost. split_and!; try done; [by apply Hknown|].
  intros i s Hs Hi. destruct (session_ended db i s Hacc Hp Hs) as [t Ht]. exists t.
  split; [done|]. by eapply (known_campaign_sessions db _ cmp i s t).
Qed.

Lemma delivery_records_campaign_spend_witness :
  let db := ran to_delivery in
  exists r db', DecisionStore.record_delivery checksum db final_delivery = Ok (r, db') /\
    DecisionStore.dr_factory_cost_micro_usd r = 250 /\
    exists id, DecisionStore.dr_factory_cost_micro_usd r = campaign_spend id (sessions db).
Proof.
  intros db.
  assert (H : kernel_reachable checksum clock db) by (apply ran_reachable; vm_compute; reflexivity).
  assert (Hd : is_ok (DecisionStore.record_delivery checksum db final_delivery) = true)
    by (vm_compute; reflexivity).
  destruct (DecisionStore.record_delivery checksum db final_delivery) as [[r db']|e] eqn:E;
    [|discriminate].
  assert (Hr : DecisionStore.dr_was_idempotent_retry r = false /\
               DecisionStore.dr_factory_cost_micro_usd r = 250).
  { assert (F : fst <$> DecisionStore.record_delivery checksum db final_delivery = Ok r)
      by (rewrite E; reflexivity).
    vm_compute in F. injection F as <-. split; reflexivity. }
  exists r, db'. split; [reflexivity|]. split; [apply Hr|].
  destruct (delivery_records_campaign_spend checksum clock db final_delivery r db' H E (proj1 Hr))
    as (cand & a & cmp & _ & _ & _ & Hs & _).
  eexists. exact Hs.
Defined.

(** ** A running session can always be ended *)

(** The report and evidence of a stop the kernel itself observed: no operation,
    no usage, and a required-read assertion of its own. *)
Record infrastructure_stop (s : SessionRow) (a : AssignmentRow) (report : TerminalReportV2)
    (ev : VerifiedTerminalEvidence) : Prop := {
  is_reason : report_stop_reason report <> Completed;
  is_operation : report_operation report = None;
  is_packet : report_packet_digest report = ai_packet_digest (as_identity a);
  is_revision : report_expected_session_revision report = ses_revision s;
  is_usage : ve_usage ev = None;
  is_assertion : ve_required_read_assertion_artifact_id ev
    <> ai_required_read_manifest_artifact_id (as_identity a);
  is_reads : ve_required_read_satisfied_count ev <= ve_required_read_expected_count ev <= i32_max;
}.

(** Every counter the transition advances has room. *)
Definition advances (s : SessionRow) (a : AssignmentRow) (c : CampaignRow) : Prop :=
  0 <= ses_revision s < i64_max /\ as_revision a < i64_max /\ 0 <= cmp_revision c < i64_max.

Lemma next_revision_small r : r < i64_max -> next_revision r = Ok (r + 1).
Proof.
  intros H. unfold next_revision, revision_next, checked_add_u64.
  rewrite (proj2 (Z.leb_le _ _)); [done|]. unfold u64_max, i64_max in *. lia.
Qed.

Lemma terminable_stop db id s a c report ev :
  session_join db id = Some (s, a, c) -> ses_lifecycle s = SESSION_RUNNING -> 0 <= ses_revision s ->
  infrastructure_stop s a report ev ->
  terminable_session db id report ev = Ok (s, a, c, ses_revision s).
Proof.
  intros Hj Hr Hn [Hre Hop Hp Hrev _ Has _]. unfold terminable_session. rewrite Hj. simpl.
  rewrite (proj2 (ps_revision_from_sql _ _) (conj Hn eq_refl)). simpl.
  unfold require_expected. rewrite Hrev, Z.eqb_refl, Hr, Hp, bool_decide_eq_true_2 by done. simpl.
  unfold terminal_report_allowed. rewrite Hop. apply Z.eqb_neq in Has. rewrite Has.
  by destruct (report_stop_reason report).
Qed.

(** The outcome of a stop without usage. *)
Definition unknown_outcome (reason : StopReasonV2) (c : CampaignRow) : TerminalOutcome := {|
  next_cost_state := COST_UNKNOWN; cost_value := None;
  next_measured := cmp_measured_cost_micro_usd c;
  next_campaign_lifecycle := if bool_decide (reason = Cancelled) then cmp_lifecycle c
                             else CAMPAIGN_FAILED |}.

Lemma unknown_reason_matches reason c m r :
  cmp_lifecycle c <> CAMPAIGN_FAILED ->
  failure_reason_matches_lifecycle (settle_campaign (unknown_outcome reason c) m r c) = true.
Proof.
  intros Hl%Z.eqb_neq. unfold failure_reason_matches_lifecycle, settle_campaign, campaign_failure_reason.
  simpl. destruct (bool_decide (reason = Cancelled)); simpl; [by rewrite Hl|done].
Qed.

Lemma insert_audit_fresh db p c op fp kind sid r :
  audit_log db !! (p, c) = None -> 0 < sid -> r <= i64_max ->
  exists k row, insert_audit db p c op fp kind sid r
                = Ok (k, set_audit_log (<[(p, c) := row]> (audit_log db)) db).
Proof.
  intros Hk Hs Hr. unfold insert_audit. rewrite (proj2 (ps_revision_to_sql _ _)) by done. simpl.
  unfold insert_audit_row. rewrite bool_decide_true by done. simpl.
  rewrite (proj2 (Z.ltb_lt _ _)) by done. simpl. eauto.
Qed.

(** The state the transition writes. *)
Definition stopped (db : Database) (id : Z) (s : SessionRow) (a : AssignmentRow) (c : CampaignRow)
    (reason : StopReasonV2) (t : SessionTerminal) : Database :=
  let state := session_state reason in
  let db := set_sessions (<[id := {| ses_identity := ses_identity s;
    ses_lifecycle := session_state_code state; ses_terminal := Some t;
    ses_revision := ses_revision s + 1 |}]> (sessions db)) db in
  let db := update_assignment (si_assignment_id (ses_identity s))
    (set_assignment_lifecycle (assignment_state_code state) (as_revision a + 1)) db in
  set_campaigns (<[ses_campaign_id s := settle_campaign (unknown_outcome reason c)
    (cmp_measured_cost_micro_usd c) (cmp_revision c + 1) c]> (campaigns db)) db.

Lemma stopped_paid db id s a c reason t :
  exclusive db -> sessions db !! id = Some s -> ses_lifecycle s = SESSION_RUNNING ->
  paid_session_active (stopped db id s a c reason t) = false.
Proof.
  intros [_ X _ _] Hs Hr. unfold paid_session_active. apply exists_where_false. intros j w. simpl.
  rewrite lookup_insert_Some. intros [[<- <-]|[Hne Hj]]; simpl; [by destruct reason|].
  apply not_true_iff_false. intros Hw%Z.eqb_eq. apply Hne. symmetry.
  by eapply (X j id w s tt); [..|unfold running_session; rewrite Hw|unfold running_session; rewrite Hr].
Qed.

(** Conversions of in-range counters and columns succeed. *)
Ltac run_columns := repeat (first
  [ rewrite next_revision_small by lia
  | rewrite (proj2 (ps_revision_to_sql _ _)) by (split; [lia|done])
  | rewrite (proj2 (ps_revision_from_sql _ _)) by (split; [lia|done])
  | rewrite (proj2 (to_i64_Ok _ _ _)) by (split; [lia|done])
  | rewrite (proj2 (to_i32_Ok _ _ _)) by (split; [lia|done])
  | rewrite (proj2 (cost_column_Ok _ _)) by (split; [lia|done]) ]; simpl).

(** The transition of a stop without usage, its counters within their columns. *)
Lemma terminal_session_stop blake3 db principal command_id id s a c report ev :
  accounted db -> session_join db id = Some (s, a, c) -> ses_lifecycle s = SESSION_RUNNING ->
  infrastructure_stop s a report ev -> advances s a c -> 0 < id ->
  validate_command principal command_id = Ok tt -> audit_log db !! (principal, command_id) = None ->
  exists r t row, terminal_session blake3 db principal command_id id report ev
    = Ok (r, set_audit_log (<[(principal, command_id) := row]> (audit_log db))
               (stopped db id s a c (report_stop_reason report) t)) /\
    tr_session_state r = session_state (report_stop_reason report) /\ tr_cost r = Unknown.
Proof.
  intros Hacc Hj Hr Hst (Hs & Ha & Hc) Hid Hv Hk.
  pose proof Hj as (Es & Ea & Ec)%session_join_Some.
  destruct (acc_campaign _ Hacc _ _ Ec) as [Hb Hm _ _ _ _ _ _ _].
  destruct (acc_session _ Hacc _ _ Es) as (a' & c' & ? & ? & ? & Ea' & Ec' & _ & Hl & Hcase).
  assert (a' = a) as -> by congruence. assert (c' = c) as -> by congruence.
  destruct Hcase as [(_ & _ & _ & Hcl)|[? _]]; [|unfold SESSION_RUNNING in *; lia].
  unfold terminal_session. rewrite Hv. simpl. unfold find_audit_by_key. rewrite Hk. simpl.
  rewrite (terminable_stop _ _ _ _ _ _ _ Hj Hr (proj1 Hs) Hst). simpl.
  run_columns.
  destruct Hst as [Hre _ _ _ Hu _ [Hle Hmax]]. rewrite Hu. simpl.
  run_columns. rewrite require_run by (by destruct (report_stop_reason report)). simpl. run_columns.
  unfold update_session_terminal. rewrite Es, Hr. simpl.
  rewrite require_run by (unfold session_terminal_checks; simpl;
    rewrite (proj2 (Z.leb_le _ _) Hle); by destruct (report_stop_reason report)). simpl.
  unfold finish_assignment. simpl. rewrite Ea, Hl, Hr. simpl.
  rewrite require_run by (apply Z.ltb_lt; lia). simpl. run_columns.
  unfold update_campaign. simpl. rewrite Ec.
  change {| next_cost_state := COST_UNKNOWN |} with (unknown_outcome (report_stop_reason report) c).
  rewrite require_run by (by apply unknown_reason_matches). simpl.
  match goal with |- context [insert_audit ?d ?p ?k ?o ?f ?n ?i ?r] =>
    destruct (insert_audit_fresh d p k o f n i r Hk Hid ltac:(lia)) as (n0 & row & E); rewrite E end.
  simpl. eexists _, _, row. split_and!; [reflexivity|done|done].
Qed.

(** C20: A running session can always be brought to its end: in a reachable state
    a stop the kernel observed itself, reported without an operation and without
    usage, is not refused (unless a counter is full, the command key is used or
    the report does not match the session), and then no paid session runs, the
    session is in the state its stop reason asks for, its cost is unknown, the
    campaign's cost is unknown, and the campaign has failed unless the stop was
    a cancellation. *)
Theorem infrastructure_stop_commits blake3 ts db principal command_id id s a c report ev :
  kernel_reachable blake3 ts db -> session_join db id = Some (s, a, c) ->
  ses_lifecycle s = SESSION_RUNNING -> infrastructure_stop s a report ev -> advances s a c ->
  0 < id -> validate_command principal command_id = Ok tt ->
  audit_log db !! (principal, command_id) = None ->
  exists r db', terminal_session blake3 db principal command_id id report ev = Ok (r, db') /\
    paid_session_active db' = false /\
    tr_session_state r = session_state (report_stop_reason report) /\ tr_cost r = Unknown /\
    ses_lifecycle <$> sessions db' !! id
      = Some (session_state_code (session_state (report_stop_reason report))) /\
    exists c', campaigns db' !! ses_campaign_id s = Some c' /\ cmp_cost_state c' = COST_UNKNOWN /\
      cmp_lifecycle c' = (if bool_decide (report_stop_reason report = Cancelled)
                          then cmp_lifecycle c else CAMPAIGN_FAILED).
Proof.
  intros Hacc%kernel_accounted Hj Hr Hst Hadv Hid Hv Hk.
  destruct (terminal_session_stop blake3 db principal command_id id s a c report ev
    Hacc Hj Hr Hst Hadv Hid Hv Hk) as (r & t & row & E & Hstate & Hcost).
  apply session_join_Some in Hj as (Es & Ea & Ec). eexists r, _. split; [exact E|].
  split_and!; try done.
  - change (paid_session_active (stopped db id s a c (report_stop_reason report) t) = false).
    by eapply stopped_paid; [apply acc_exclusive|..].
  - simpl. by rewrite lookup_insert_eq.
  - eexists. simpl. rewrite lookup_insert_eq. split_and!; [reflexivity| |reflexivity]. simpl.
    destruct (acc_session _ Hacc _ _ Es) as (a' & c' & ? & ? & ? & _ & Ec' & _ & _ & Hcase).
    assert (c' = c) as -> by congruence.
    destruct Hcase as [(_ & _ & -> & _)|[? _]]; [done|unfold SESSION_RUNNING in *; lia].
Qed.

Lemma infrastructure_stop_commits_witness :
  let db := processed to_session in
  exists r db', terminal_session checksum db "driver" "stop-1" 1 (report_of 1 None Deadline)
                  (evidence_of None) = Ok (r, db') /\
    paid_session_active db' = false /\ tr_cost r = Unknown.
Proof.
  intros db.
  assert (H : kernel_reachable checksum clock db) by (apply processed_reachable; vm_compute; reflexivity).
  assert (Hd : is_Some (session_join db 1)) by (apply (bool_decide_unpack _); vm_compute; exact I).
  destruct (session_join db 1) as [[[s a] c]|] eqn:E; [|destruct Hd; discriminate].
  assert (Hr : ses_lifecycle s = SESSION_RUNNING)
    by (vm_compute in E; injection E as <- <- <-; reflexivity).
  assert (Hst : infrastructure_stop s a (report_of 1 None Deadline) (evidence_of None))
    by (vm_compute in E; injection E as <- <- <-; split; vm_compute; try reflexivity;
        try discriminate; split; discriminate).
  assert (Hadv : advances s a c)
    by (vm_compute in E; injection E as <- <- <-; unfold advances; vm_compute;
        repeat split; discriminate).
  destruct (infrastructure_stop_commits checksum clock db "driver" "stop-1" 1 s a c
    (report_of 1 None Deadline) (evidence_of None) H E Hr Hst Hadv eq_refl eq_refl eq_refl)
    as (r & db' & Hok & Hp & _ & Hc & _).
  exists r, db'. split_and!; [exact Hok|exact Hp|exact Hc].
Defined.

(** * Interleavings

    Orders of process commands that the guards admit, shown on concrete runs:
    what a cancellation and a prepared assignment leave open. *)

(** Two assignments prepared before the first session runs: both packets carry
    the whole budget as their allowance. *)
Definition two_prepared : list ProcessCommand :=
  [begin_campaign; prepare 1 0 1000; prepare 2 1 1000; begin_session 1].

Definition remaining_budget (db : Database) : option Z :=
  c ← campaigns db !! 1; Some (cmp_aggregate_budget_micro_usd c - cmp_measured_cost_micro_usd c).
Definition running_allowance (db : Database) (session_id : Z) : option Z :=
  s ← sessions db !! session_id;
  a ← assignments db !! si_assignment_id (ses_identity s);
  if ses_lifecycle s =? SESSION_RUNNING
  then Some (ai_remaining_campaign_allowance_micro_usd (as_identity a)) else None.

(** After the first session cost 600, the second starts with an allowance of 1000
    while 400 remain: [start_session] does not compare the packet's allowance
    with the campaign again. *)
Lemma stale_allowance_runs :
  let commands := two_prepared ++ [end_session 1 (Some WorkComplete) Completed (Some 600);
                                   begin_session 2] in
  runs (inr <$> commands) = true /\ running_allowance (processed commands) 2 = Some 1000 /\
  remaining_budget (processed commands) = Some 400.
Proof. split_and!; vm_compute; reflexivity. Qed.

Definition cancel_first : CancelCampaign := {|
  ccm_principal := "operator"; ccm_command_id := "cancel"; ccm_expected_revision := 2;
  ccm_campaign_id := 1 |}.

Definition reconciled_first : ReconciledSessionCancellation := {|
  rsc_campaign_id := 1; rsc_session_id := 1; rsc_campaign_revision := 3 |}.

(** A session cancelled at a known cost leaves the campaign running and its cost
    known, so the second session starts before the cancellation finishes, and
    the cancellation then closes a campaign whose session is running. *)
Lemma cancelled_known_cost_admits_session :
  let commands := two_prepared ++ [AdmitCancellation cancel_first;
    end_session 1 None Cancelled (Some 100); begin_session 2;
    FinishCancellation cancel_first reconciled_first] in
  runs (inr <$> commands) = true /\
  cmp_lifecycle <$> campaigns (processed commands) !! 1 = Some CAMPAIGN_CANCELLED /\
  ses_lifecycle <$> sessions (processed commands) !! 2 = Some SESSION_RUNNING.
Proof. split_and!; vm_compute; reflexivity. Qed.

(** At an unknown cost the campaign is cost-frozen and the second session is
    refused. *)
Lemma cancelled_unknown_cost_freezes :
  let commands := two_prepared ++ [AdmitCancellation cancel_first;
    end_session 1 None Cancelled None] in
  runs (inr <$> commands) = true /\
  start_session checksum (processed commands) (start_command 2) = Err (CampaignCostFrozen 1).
Proof. split_and!; vm_compute; reflexivity. Qed.
