(* ===== verification/Ledger.v ===== *)
(** Theorems on the provider-effect ledger: sessions and effects are never
    removed and what is settled never changes, a session's ledger is frozen once
    it ended, the ledger's cost is exactly the sum over its effects, a report is
    reconciled with it or refused, and the cost an ended session records is the
    sum of its settled effects in every later state. *)
From stdpp Require Import sorting.
From S2P Require Import Prelude Values Database Lifecycle Refinement ProcessStore ProviderEffects.
From S2P Require Import Scenario Kernel ProcessRefinement Frames Accounting ProcessScenario.

(** * What a step keeps *)

(** An effect keeps its intent, and its outcome once it has one. *)
Definition effect_advances (e e' : ProviderEffectRow) : Prop :=
  pe_intent e' = pe_intent e /\ (pe_state e <> provider_effect_code EffectStarted -> e' = e).

(** A session keeps its identity, and its outcome once it ended. *)
Definition session_advances (s s' : SessionRow) : Prop :=
  ses_identity s' = ses_identity s /\ (ses_lifecycle s <> SESSION_RUNNING -> s' = s).

#[global] Instance effect_advances_preorder : PreOrder effect_advances.
Proof.
  split; [done|]. intros e1 e2 e3 [H1 K1] [H2 K2]. split; [congruence|].
  intros H. specialize (K1 H) as ->. by apply K2.
Qed.

#[global] Instance session_advances_preorder : PreOrder session_advances.
Proof.
  split; [done|]. intros s1 s2 s3 [H1 K1] [H2 K2]. split; [congruence|].
  intros H. specialize (K1 H) as ->. by apply K2.
Qed.

(** A session that is not running in [db] has the same effects in [db']. *)
Definition frozen (db db' : Database) : Prop := forall id s, sessions db !! id = Some s ->
  ses_lifecycle s <> SESSION_RUNNING -> forall i e, pi_session_id (pe_intent e) = id ->
  provider_effects db' !! i = Some e <-> provider_effects db !! i = Some e.

Record spending_kept (db db' : Database) : Prop := {
  kept_sessions : table_extends session_advances (sessions db) (sessions db');
  kept_effects : table_extends effect_advances (provider_effects db) (provider_effects db');
  kept_frozen : frozen db db';
}.

Lemma spending_kept_same db db' :
  sessions db' = sessions db -> provider_effects db' = provider_effects db -> spending_kept db db'.
Proof. intros Es Ee. split; [rewrite Es; reflexivity|rewrite Ee; reflexivity|]. intros ? **. by rewrite Ee. Qed.

#[global] Instance spending_kept_preorder : PreOrder spending_kept.
Proof.
  split; [intros db; by apply spending_kept_same|].
  intros db1 db2 db3 [S1 E1 F1] [S2 E2 F2]. split; [by etransitivity|by etransitivity|].
  intros id s Hs Hn i e Hi. destruct (S1 id s Hs) as (s' & Hs' & _ & Eq). specialize (Eq Hn) as ->.
  rewrite (F2 id s Hs' Hn i e Hi). by apply (F1 id s Hs Hn).
Qed.

(** A write of one effect of a running session. *)
Lemma effect_write_frozen db k e s :
  sessions db !! pi_session_id (pe_intent e) = Some s -> ses_lifecycle s = SESSION_RUNNING ->
  (forall old, provider_effects db !! k = Some old -> pe_intent old = pe_intent e) ->
  frozen db (set_provider_effects (<[k := e]> (provider_effects db)) db).
Proof.
  intros Hs Hr Hold id x Hx Hn i f Hf. simpl. destruct (decide (k = i)) as [<-|Hne];
    [|by rewrite lookup_insert_ne].
  rewrite lookup_insert_eq. split; [intros [= ->]|intros Hk].
  - congruence.
  - rewrite (Hold f Hk) in Hf. congruence.
Qed.

Lemma session_write_advances db id s s' :
  sessions db !! id = Some s -> ses_lifecycle s = SESSION_RUNNING ->
  ses_identity s' = ses_identity s ->
  table_extends session_advances (sessions db) (<[id := s']> (sessions db)).
Proof. intros Hs Hr Hi. by apply (table_extends_update _ _ _ s). Qed.

Lemma process_move_kept db db' : process_move db db' -> spending_kept db db'.
Proof.
  intros Hm. destruct Hm as [| | | |id a c s Ha Hc _ _ _ _ _ _|e s Hs Hr _ _ _ _
    |id e state settlement s He Hst Hs Hr _|id s a c t outcome reason Hj Hr _ _ _ _ _ _ _ _ _].
  1-4: by apply spending_kept_same.
  - split; simpl; [by apply table_extends_fresh|reflexivity|]. intros ? **. done.
  - split; simpl; [reflexivity|by apply table_extends_fresh|].
    apply (effect_write_frozen _ _ _ s); [done|done|]. intros old Hold. by rewrite fresh_id_lookup in Hold.
  - split; simpl; [reflexivity|by apply (table_extends_update _ _ _ e)|].
    apply (effect_write_frozen _ _ _ s); [done|done|]. intros old Hold. by simplify_eq.
  - apply session_join_Some in Hj as (Hs & _ & _).
    split; simpl; [by eapply session_write_advances|reflexivity|]. intros ? **. done.
Qed.

Lemma process_moves_kept db db' : rtc process_move db db' -> spending_kept db db'.
Proof. induction 1; [reflexivity|]. etransitivity; [by apply process_move_kept|done]. Qed.

Lemma kernel_step_kept blake3 ts db db' : kernel_step blake3 ts db db' -> spending_kept db db'.
Proof.
  intros [command y H|command y H|y [_ _ _ Es Ee]].
  - destruct (execute_frame _ _ _ _ H) as [[= _ _ Es Ee _]|(id & c & revision & _ & _ & [= _ _ Es Ee] & _)];
      by apply spending_kept_same.
  - by eapply process_moves_kept, execute_process_moves.
  - by apply spending_kept_same.
Qed.

Lemma kernel_steps_kept blake3 ts db db' :
  rtc (kernel_step blake3 ts) db db' -> spending_kept db db'.
Proof. induction 1; [reflexivity|]. etransitivity; [by eapply kernel_step_kept|done]. Qed.

(** * The ledger's cost *)

Definition effect_of (session_id : Z) (_ : Z) (e : ProviderEffectRow) : bool :=
  pi_session_id (pe_intent e) =? session_id.

(** What the provider charged for a settled effect, when it said. *)
Definition effect_cost (e : ProviderEffectRow) : option Z :=
  s ← pe_settlement e; u_reported_cost_micro_usd (ps_usage s).

(** What a session's effects cost together. *)
Definition effect_spend (session_id : Z) (m : gmap Z ProviderEffectRow) : Z :=
  sum_where (fun e => default 0 (effect_cost e)) (effect_of session_id) m.

(** Every effect of the session was settled at a reported cost. *)
Definition priced (session_id : Z) (m : gmap Z ProviderEffectRow) : Prop :=
  forall i e, m !! i = Some e -> pi_session_id (pe_intent e) = session_id ->
    pe_state e = provider_effect_code EffectSettled /\ is_Some (effect_cost e).

Definition total (l : list Z) : Z := foldr Z.add 0 l.

Lemma total_perm l l' : l ≡ₚ l' -> total l = total l'.
Proof. unfold total. induction 1; simpl; lia. Qed.

Lemma session_effects_perm db id :
  session_effects db id ≡ₚ (rows_where (effect_of id) (provider_effects db)).*2.
Proof. unfold session_effects. apply Permutation_map, merge_sort_Permutation. Qed.

Lemma session_effects_elem db id e :
  e ∈ session_effects db id <->
  exists i, provider_effects db !! i = Some e /\ pi_session_id (pe_intent e) = id.
Proof.
  rewrite session_effects_perm, list_elem_of_fmap. split.
  - intros ([i e'] & -> & [Hi He%Z.eqb_eq]%rows_where_elem). by exists i.
  - intros (i & Hi & He). exists (i, e). split; [done|]. apply rows_where_elem.
    split; [done|]. by apply Z.eqb_eq.
Qed.

Lemma session_effects_count db id :
  Z.of_nat (length (session_effects db id)) = count_where (effect_of id) (provider_effects db).
Proof. unfold count_where. by rewrite session_effects_perm, length_fmap. Qed.

Lemma session_effects_total db id :
  total ((fun e => default 0 (effect_cost e)) <$> session_effects db id)
  = effect_spend id (provider_effects db).
Proof.
  rewrite (total_perm _ _ (Permutation_map _ (session_effects_perm db id))).
  unfold effect_spend, sum_where, total.
  induction (rows_where _ _) as [|[k v] l IH]; [done|]. simpl. f_equal. exact IH.
Qed.

(** ** Sums of optional columns *)

Lemma sum_usage_None vs : sum_usage None vs = Ok None.
Proof. induction vs as [|[v|] vs IH]; done. Qed.

Lemma sum_usage_Ok t vs o :
  sum_usage (Some t) vs = Ok o ->
  o = if forallb is_complete vs then Some (t + total (default 0 <$> vs)) else None.
Proof.
  revert t. induction vs as [|[v|] vs IH]; intros t H; simpl in H; cbn [forallb is_complete andb].
  - injection H as <-. f_equal. unfold total. simpl. lia.
  - apply bind_Ok in H as (o' & Ho & H). apply fmap_Ok in Ho as (w & Hw & ->).
    apply ok_or_Ok in Hw. unfold checked_add_u64 in Hw. case_match; simplify_eq.
    rewrite (IH _ H). case_match; [|done]. f_equal. rewrite fmap_cons.
    change (total (default 0 (Some v) :: (default 0 <$> vs))) with (v + total (default 0 <$> vs)). lia.
  - by rewrite sum_usage_None in H; injection H as <-.
Qed.

(** A ledger row carries its effect's state and cost. *)
Definition ledger_row_of (e : ProviderEffectRow) (r : ProviderEffectLedgerRow) : Prop :=
  pe_state e = provider_effect_code (lr_state r) /\
  u_reported_cost_micro_usd (lr_usage r) = effect_cost e.

Lemma ledger_row_Ok e r : provider_effect_ledger_row e = Ok r -> ledger_row_of e r.
Proof.
  unfold provider_effect_ledger_row, convert_usage. intros H. ok_inv H.
  split; simpl; [by apply provider_effect_state_code|].
  unfold effect_cost. repeat match goal with
  | Ht : transpose_map cost_column _ = Ok _ |- _ =>
      apply transpose_map_Ok in Ht as [[? ->]|(? & ? & ? & [_ ->]%cost_column_Ok & ->)]
  end; destruct (pe_settlement e); simpl in *; congruence.
Qed.

Lemma ledger_rows_Ok db id rows :
  map_ok provider_effect_ledger_row (session_effects db id) = Ok rows ->
  Forall2 ledger_row_of (session_effects db id) rows.
Proof. intros H%map_ok_Forall2. eapply Forall2_impl; [exact H|]. apply ledger_row_Ok. Qed.

Definition settled_at_cost (e : ProviderEffectRow) : Prop :=
  pe_state e = provider_effect_code EffectSettled /\ is_Some (effect_cost e).

Lemma is_complete_true o : is_complete o = true <-> is_Some o.
Proof. rewrite <- not_eq_None_Some. by destruct o. Qed.

(** A ledger's rows mirror its effects: all settled and priced together. *)
Lemma rows_priced es rows :
  Forall2 ledger_row_of es rows ->
  forallb (fun row => bool_decide (lr_state row = EffectSettled)) rows
  && forallb is_complete ((fun row => u_reported_cost_micro_usd (lr_usage row)) <$> rows) = true <->
  Forall settled_at_cost es.
Proof.
  induction 1 as [|e r es rows [Hs Hc] _ IH]; simpl; [by split|].
  rewrite Forall_cons, <- IH, Hc, !andb_true_iff, bool_decide_eq_true, is_complete_true.
  unfold settled_at_cost. rewrite Hs.
  assert (Ee : lr_state r = EffectSettled
    <-> provider_effect_code (lr_state r) = provider_effect_code EffectSettled)
    by (split; [by intros ->|by destruct (lr_state r)]).
  rewrite Ee. tauto.
Qed.

Lemma rows_total es rows :
  Forall2 ledger_row_of es rows ->
  total (default 0 <$> ((fun row => u_reported_cost_micro_usd (lr_usage row)) <$> rows))
  = total ((fun e => default 0 (effect_cost e)) <$> es).
Proof.
  induction 1 as [|e r es rows [_ Hc] _ IH]; [done|]. rewrite !fmap_cons, Hc. unfold total in *. simpl.
  f_equal. exact IH.
Qed.

Lemma from_rows_Ok rows l :
  provider_effect_ledger_from_rows rows = Ok l ->
  let settled := forallb (fun row => bool_decide (lr_state row = EffectSettled)) rows in
  let costs := (fun row => u_reported_cost_micro_usd (lr_usage row)) <$> rows in
  complete_cost l = settled && forallb is_complete costs /\
  u_reported_cost_micro_usd (ledger_usage l)
    = (if settled && forallb is_complete costs then Some (total (default 0 <$> costs)) else None) /\
  provider_effect_count l = Z.of_nat (length rows).
Proof.
  unfold provider_effect_ledger_from_rows, sum_column. intros H. ok_inv H. simpl.
  repeat match goal with
  | Hs : sum_usage (Some 0) ?vs = Ok ?o |- _ => apply sum_usage_Ok in Hs
  | Hu : to_u32 _ _ = Ok _ |- _ => unfold to_u32 in Hu; case_match; simplify_eq
  end. simpl in *. subst. rewrite Z.add_0_l.
  split_and!; [by destruct (forallb is_complete _)|by do 2 destruct (forallb _ _)|done].
Qed.

Lemma ledger_books db id l :
  provider_effect_ledger db id = Ok l ->
  (complete_cost l = true <-> priced id (provider_effects db)) /\
  u_reported_cost_micro_usd (ledger_usage l)
    = (if complete_cost l then Some (effect_spend id (provider_effects db)) else None) /\
  provider_effect_count l = count_where (effect_of id) (provider_effects db).
Proof.
  unfold provider_effect_ledger. intros (rows & Hrows & H)%bind_Ok.
  apply ledger_rows_Ok in Hrows. apply from_rows_Ok in H as (Hc & Hu & Hn). rewrite Hc, Hu, Hn.
  split_and!.
  - rewrite (rows_priced _ _ Hrows), Forall_forall. setoid_rewrite session_effects_elem.
    unfold priced, settled_at_cost. split; [intros H i e Hi He; eauto|intros H e (i & Hi & He); eauto].
  - case_match; [|done]. f_equal. by rewrite (rows_total _ _ Hrows), session_effects_total.
  - by rewrite <- (Forall2_length _ _ _ Hrows), session_effects_count.
Qed.

(** * Reconciliation *)

(** Every counter the host reported is the ledger's. *)
Definition agrees (reported ledger : UsageTotalsV2) : Prop :=
  forall column, column ∈ [u_reported_cost_micro_usd; u_input_tokens; u_output_tokens;
                           u_cache_read_tokens; u_cache_write_tokens; u_reasoning_tokens] ->
    column reported = None \/ column reported = column ledger.

Lemma disagrees_false r l : disagrees r l = false <-> r = None \/ r = l.
Proof.
  unfold disagrees. destruct r as [v|]; [|by split; [left|]].
  rewrite negb_false_iff, bool_decide_eq_true. split; [by right|by intros [|]].
Qed.

Lemma agrees_spec t l :
  agrees t l <->
  disagrees (u_reported_cost_micro_usd t) (u_reported_cost_micro_usd l) = false /\
  disagrees (u_input_tokens t) (u_input_tokens l)
  || disagrees (u_output_tokens t) (u_output_tokens l)
  || disagrees (u_cache_read_tokens t) (u_cache_read_tokens l)
  || disagrees (u_cache_write_tokens t) (u_cache_write_tokens l)
  || disagrees (u_reasoning_tokens t) (u_reasoning_tokens l) = false.
Proof.
  rewrite !orb_false_iff, !disagrees_false. unfold agrees. split.
  - intros H.
    pose proof (H u_reported_cost_micro_usd). pose proof (H u_input_tokens).
    pose proof (H u_output_tokens). pose proof (H u_cache_read_tokens).
    pose proof (H u_cache_write_tokens). pose proof (H u_reasoning_tokens). clear H.
    rewrite !elem_of_cons in *. tauto.
  - intros H column Hc. rewrite !elem_of_cons, elem_of_nil in Hc.
    destruct Hc as [->|[->|[->|[->|[->|[->|[]]]]]]]; tauto.
Qed.

(** The counters of a report without its cost. *)
Definition without_cost (u : UsageTotalsV2) : UsageTotalsV2 := {|
  u_input_tokens := u_input_tokens u; u_output_tokens := u_output_tokens u;
  u_cache_read_tokens := u_cache_read_tokens u; u_cache_write_tokens := u_cache_write_tokens u;
  u_reasoning_tokens := u_reasoning_tokens u; u_reported_cost_micro_usd := None |}.

Lemma reconcile_complete t l :
  complete_cost l = true ->
  (forall out, reconcile_provider_usage t l = Ok out <->
     out = Some (ledger_usage l) /\ forall u, t = Some u -> agrees u (ledger_usage l)).
Proof.
  intros Hc out. unfold reconcile_provider_usage. rewrite Hc. destruct t as [u|]; simpl.
  - split.
    + intros H. ok_inv H. split; [done|]. intros ? [= <-]. apply agrees_spec.
      split; by apply negb_true_iff.
    + intros [-> Ha]. destruct (proj1 (agrees_spec _ _) (Ha u eq_refl)) as [-> ->]. done.
  - split; [by intros [= <-]|by intros [-> _]].
Qed.

Lemma reconcile_incomplete t l :
  complete_cost l = false -> reconcile_provider_usage t l = Ok (without_cost <$> t).
Proof. intros Hc. unfold reconcile_provider_usage. by rewrite Hc. Qed.

(** * The ledger of an ended session is fixed *)

#[global] Instance by_id_transitive {V} : Transitive (@by_id V).
Proof. intros a b c. unfold by_id. lia. Qed.
#[global] Instance by_id_total {V} : Total (@by_id V).
Proof. intros a b. unfold by_id. lia. Qed.

Lemma session_effects_eq db db' id :
  (forall i e, pi_session_id (pe_intent e) = id ->
     provider_effects db' !! i = Some e <-> provider_effects db !! i = Some e) ->
  session_effects db' id = session_effects db id.
Proof.
  intros H. unfold session_effects. f_equal.
  set (rows d := rows_where (fun _ row => pi_session_id (pe_intent row) =? id) (provider_effects d)).
  assert (Hin : forall d kv, kv ∈ rows d <->
    provider_effects d !! kv.1 = Some kv.2 /\ pi_session_id (pe_intent kv.2) = id).
  { intros d [k e]. unfold rows. by rewrite rows_where_elem, Z.eqb_eq. }
  assert (Hperm : rows db' ≡ₚ rows db).
  { apply NoDup_Permutation; [by apply NoDup_rows_where..|].
    intros kv. rewrite !Hin. split; intros [Hk Hs]; split; try done; by apply (H kv.1 kv.2 Hs). }
  change (merge_sort by_id (rows db') = merge_sort by_id (rows db)). clearbody rows.
  eapply (StronglySorted_unique_strong by_id); [|apply StronglySorted_merge_sort; apply _..|].
  - intros [i e] [j f]. rewrite !merge_sort_Permutation, !Hin. unfold by_id. simpl.
    intros [Hi He] [Hj Hf] H1 H2. assert (i = j) as -> by lia. f_equal.
    apply (H j e He) in Hi. congruence.
  - by rewrite !merge_sort_Permutation.
Qed.

(** * Settlement *)

Lemma find_effect_unique db sid run eid i e :
  table_unique effect_key (provider_effects db) -> provider_effects db !! i = Some e ->
  pi_session_id (pe_intent e) = sid -> pi_core_run_id (pe_intent e) = run ->
  pi_effect_id (pe_intent e) = eid -> find_effect db sid run eid = Some (i, e).
Proof.
  intros Hu Hi <- <- <-. unfold find_effect.
  assert (Hin : (i, e) ∈ rows_where (fun _ row =>
    (pi_session_id (pe_intent row) =? pi_session_id (pe_intent e))
    && bool_decide (pi_core_run_id (pe_intent row) = pi_core_run_id (pe_intent e))
    && (pi_effect_id (pe_intent row) =? pi_effect_id (pe_intent e))) (provider_effects db)).
  { apply rows_where_elem. split; [done|]. by rewrite !Z.eqb_refl, bool_decide_eq_true_2. }
  destruct (rows_where _ _) as [|[j f] l] eqn:E; [by apply elem_of_nil in Hin|]. f_equal.
  assert (Hj : (j, f) ∈ (j, f) :: l) by apply list_elem_of_here. rewrite <- E in Hj.
  apply rows_where_elem in Hj as [Hj Hp]. bool_prop.
  assert (j = i) as ->; [|congruence].
  eapply (Hu j i f e); [done|done|reflexivity|]. unfold effect_key. congruence.
Qed.

Lemma same_settlement_eq a b : same_settlement a b = true <-> a = b.
Proof.
  unfold same_settlement. split; [|intros ->; by rewrite String.eqb_refl, Bool.eqb_reflx, !bool_decide_eq_true_2].
  destruct a, b. simpl. intros H. bool_prop.
  repeat match goal with
  | E : String.eqb _ _ = true |- _ => apply String.eqb_eq in E
  | E : Bool.eqb _ _ = true |- _ => apply Bool.eqb_prop in E
  end. congruence.
Qed.

(** What every accepted settlement checked, and what it wrote: a started effect
    takes the settlement, a settled one already has it. *)
Lemma settle_Ok db sid aid q st db' :
  provider_effect_settle db sid aid q = Ok (st, db') ->
  exists settlement i e,
    provider_effect_settlement q st = Ok settlement /\ st <> EffectStarted /\
    find_effect db sid (prt_core_run_id q) (prt_effect_id q) = Some (i, e) /\
    (pe_state e = provider_effect_code EffectStarted /\ db' = set_provider_effects
       (<[i := settled_effect st settlement e]> (provider_effects db)) db \/
     pe_state e = provider_effect_code st /\ db' = db /\ pe_settlement e = Some settlement).
Proof.
  unfold provider_effect_settle. intros H.
  ok_inv H; read_process;
    match goal with Hs : from_settlement _ = Ok _ |- _ => apply from_settlement_not_started in Hs end.
  - match goal with Hs : provider_effect_state_from_code _ = Ok _ |- _ =>
      apply provider_effect_state_code in Hs end.
    subst. eexists _, _, _. split_and!; try done. by left.
  - unfold provider_effect_settlement_matches in *.
    match goal with Hb : _ ≫= _ = Ok true |- _ =>
      apply bind_Ok in Hb as (existing & Hx & [= [Heq Hm]%andb_true_iff]) end.
    apply bool_decide_eq_true in Heq as ->.
    match goal with Hs : provider_effect_state_from_code _ = Ok st |- _ =>
      rewrite Hs in Hx; injection Hx as <-; apply provider_effect_state_code in Hs end.
    case_match; [|done]. apply same_settlement_eq in Hm as ->.
    eexists _, _, _. split_and!; try done. by right.
Qed.

(** Repeating a settlement runs the same guards against the same session. *)
Lemma settle_again db db1 sid aid q st i e :
  provider_effect_settle db sid aid q = Ok (st, db1) -> sessions db1 = sessions db ->
  find_effect db1 sid (prt_core_run_id q) (prt_effect_id q) = Some (i, e) ->
  pe_state e = provider_effect_code st ->
  (forall settlement, provider_effect_settlement q st = Ok settlement ->
     pe_settlement e = Some settlement) ->
  provider_effect_settle db1 sid aid q = Ok (st, db1).
Proof.
  intros H Es Hf Hst Hse. pose proof H as (_ & _ & _ & _ & Hns & _)%settle_Ok.
  unfold provider_effect_settle in H |- *. rewrite Es.
  apply bind_Ok in H as ([] & -> & H). apply bind_Ok in H as ([] & -> & H).
  apply bind_Ok in H as (st' & -> & H). apply bind_Ok in H as (settlement & Hs & H).
  assert (st' = st) as ->.
  { ok_inv H; [done|]. unfold provider_effect_settlement_matches in *.
    match goal with
    | Hx : provider_effect_state_from_code _ = Ok _, Hb : _ ≫= _ = Ok true |- _ =>
        rewrite Hx in Hb; injection Hb as [Hb _]%andb_true_iff; by apply bool_decide_eq_true in Hb
    end. }
  cbn [mbind result_bind]. rewrite Hs. cbn [mbind result_bind]. apply bind_Ok in H as (s & -> & H). cbn [mbind result_bind].
  apply bind_Ok in H as ([] & -> & H). apply bind_Ok in H as (eid & He & H). rewrite He.
  apply to_i64_Ok in He as [_ ->]. cbn [mbind result_bind]. rewrite Hf. simpl.
  rewrite (proj2 (provider_effect_state_code _ _) Hst). simpl.
  rewrite bool_decide_eq_false_2 by done. unfold provider_effect_settlement_matches.
  rewrite (proj2 (provider_effect_state_code _ _) Hst). simpl.
  rewrite bool_decide_eq_true_2, (Hse _ Hs) by done. simpl.
  by rewrite (proj2 (same_settlement_eq _ _) eq_refl).
Qed.

(** The effect a settlement leaves behind. *)
Lemma settled_row db sid aid q st db1 :
  exclusive db -> provider_effect_settle db sid aid q = Ok (st, db1) ->
  sessions db1 = sessions db /\ st <> EffectStarted /\
  exists settlement i e, provider_effect_settlement q st = Ok settlement /\
    find_effect db1 sid (prt_core_run_id q) (prt_effect_id q) = Some (i, e) /\
    pe_state e = provider_effect_code st /\ pe_settlement e = Some settlement.
Proof.
  intros [_ _ _ Hu] (settlement & i & e & Hs & Hns & Hf & Hcase)%settle_Ok.
  destruct Hcase as [[Hst ->]|(Hst & -> & Hw)]; split_and!; try done.
  - exists settlement, i, (settled_effect st settlement e). split_and!; try done.
    apply find_effect_Some in Hf as (Hi & E1 & E2 & E3).
    apply find_effect_unique; simpl; try done; [|by rewrite lookup_insert_eq].
    eapply table_unique_update; [done|exact Hi|]. by left.
  - by exists settlement, i, e.
Qed.

(** Settled once: an accepted settlement can be repeated without effect, and
    any other settlement of the same request that is still accepted carries the
    same outcome and counters and changes nothing; every different one is
    refused. *)
Theorem effect_settled_once blake3 ts db sid aid q st db1 :
  kernel_reachable blake3 ts db -> provider_effect_settle db sid aid q = Ok (st, db1) ->
  provider_effect_settle db1 sid aid q = Ok (st, db1) /\
  forall q' aid' st' db2, prt_core_run_id q' = prt_core_run_id q ->
    prt_effect_id q' = prt_effect_id q -> provider_effect_settle db1 sid aid' q' = Ok (st', db2) ->
    db2 = db1 /\ st' = st /\ provider_effect_settlement q' st = provider_effect_settlement q st.
Proof.
  intros Hacc%kernel_accounted H.
  destruct (settled_row _ _ _ _ _ _ (acc_exclusive _ Hacc) H)
    as (Es & Hns & settlement & i & e & Hs & Hf & Hst & Hw).
  split.
  - eapply settle_again; try done. intros w Hw'. congruence.
  - intros q' aid' st' db2 E1 E2 (settlement' & i' & e' & Hs' & Hns' & Hf' & Hcase)%settle_Ok.
    rewrite E1, E2, Hf in Hf'. injection Hf' as <- <-.
    destruct Hcase as [[Hst' _]|(Hst' & -> & Hw')].
    + rewrite Hst in Hst'. by destruct st.
    + assert (st' = st) as -> by (rewrite Hst in Hst'; by destruct st, st').
      split_and!; [done|done|congruence].
Qed.

Lemma effect_settled_once_witness :
  let db := processed (to_session ++ [begin_effect 1 1 0]) in
  exists db1, provider_effect_settle db 1 1 (settle_request 1 1 0 300) = Ok (EffectSettled, db1) /\
    provider_effect_settle db1 1 1 (settle_request 1 1 0 300) = Ok (EffectSettled, db1).
Proof.
  intros db.
  assert (H : kernel_reachable checksum clock db) by (apply processed_reachable; vm_compute; reflexivity).
  assert (Hs : fst <$> provider_effect_settle db 1 1 (settle_request 1 1 0 300) = Ok EffectSettled)
    by (vm_compute; reflexivity).
  destruct (provider_effect_settle db 1 1 (settle_request 1 1 0 300)) as [[st db1]|e] eqn:E;
    [|discriminate].
  injection Hs as ->. exists db1. split; [reflexivity|].
  exact (proj1 (effect_settled_once checksum clock db 1 1 (settle_request 1 1 0 300) EffectSettled
    db1 H E)).
Defined.

(** C21: Nothing spent is rewritten: over any run no session and no provider effect
    disappears, an effect keeps its request and, once it has an outcome, its
    outcome, an ended session keeps its record, and the ledger of a session that
    is not running stays exactly as it is. *)
Theorem spending_history_kept blake3 ts db db' :
  rtc (kernel_step blake3 ts) db db' ->
  table_extends session_advances (sessions db) (sessions db') /\
  table_extends effect_advances (provider_effects db) (provider_effects db') /\
  forall id s, sessions db !! id = Some s -> ses_lifecycle s <> SESSION_RUNNING ->
    session_effects db' id = session_effects db id /\
    provider_effect_ledger db' id = provider_effect_ledger db id.
Proof.
  intros [S E F]%kernel_steps_kept. split_and!; [done|done|]. intros id s Hs Hn.
  assert (Eq : session_effects db' id = session_effects db id).
  { apply session_effects_eq. by eapply F. }
  split; [done|]. unfold provider_effect_ledger. by rewrite Eq.
Qed.

Lemma spending_history_kept_witness :
  let db := processed to_ended in
  exists db', kernel_run checksum clock db [inr (prepare 2 2 700)] = Some db' /\
    provider_effect_ledger db' 1 = provider_effect_ledger db 1.
Proof.
  intros db.
  assert (Hd : is_Some (kernel_run checksum clock db [inr (prepare 2 2 700)]))
    by (apply (bool_decide_unpack _); vm_compute; exact I).
  destruct (kernel_run checksum clock db [inr (prepare 2 2 700)]) as [db'|] eqn:E;
    [|destruct Hd; discriminate].
  exists db'. split; [reflexivity|].
  destruct (spending_history_kept checksum clock db db' (kernel_run_steps _ _ _ _ _ E)) as (_ & _ & K).
  assert (Hs : is_Some (sessions db !! 1)) by (apply (bool_decide_unpack _); vm_compute; exact I).
  destruct (sessions db !! 1) as [s|] eqn:Es; [|destruct Hs; discriminate].
  assert (Hn : ses_lifecycle s <> SESSION_RUNNING)
    by (vm_compute in Es; injection Es as <-; discriminate).
  exact (proj2 (K 1 s Es Hn)).
Defined.

(** Reconciliation is exact and fails closed: against the ledger of a state, a
    report is accepted with a known cost exactly when every effect of the session
    was settled at a reported cost and the report contradicts no counter of the
    ledger, and that cost is then the sum of the effects' costs; with any effect
    unsettled or unpriced the cost is unknown whatever the host reports. *)
Theorem reconciliation_exact db id l t :
  provider_effect_ledger db id = Ok l ->
  (forall v, (terminal_cost <$> reconcile_provider_usage t l = Ok (Known v)) <->
     priced id (provider_effects db) /\ v = effect_spend id (provider_effects db) /\
     forall u, t = Some u -> agrees u (ledger_usage l)) /\
  (~ priced id (provider_effects db) ->
     terminal_cost <$> reconcile_provider_usage t l = Ok Unknown).
Proof.
  intros (Hp & Hc & _)%ledger_books. destruct (complete_cost l) eqn:E.
  - assert (Hpriced : priced id (provider_effects db)) by (by apply Hp). split; [|done].
    intros v. rewrite fmap_Ok. split.
    + intros (out & H & Hv). apply (reconcile_complete t l E) in H as [-> Ha].
      simpl in Hv. rewrite Hc in Hv. by simplify_eq.
    + intros (_ & -> & Ha). exists (Some (ledger_usage l)). split; [by apply reconcile_complete|].
      simpl. by rewrite Hc.
  - assert (Hno : ~ priced id (provider_effects db)) by (intros Hx; by apply Hp in Hx).
    rewrite reconcile_incomplete by done. split; [|by destruct t].
    intros v. split; [by destruct t; intros [=]|by intros [? _]].
Qed.

Lemma reconciliation_exact_witness :
  let db := processed (to_session ++ [begin_effect 1 1 0; settle_effect 1 1 0 300; begin_effect 1 1 1]) in
  exists l, provider_effect_ledger db 1 = Ok l /\
    terminal_cost <$> reconcile_provider_usage (Some (cost_only (Some 300))) l = Ok Unknown.
Proof.
  intros db.
  assert (Hd : is_ok (provider_effect_ledger db 1) = true) by (vm_compute; reflexivity).
  destruct (provider_effect_ledger db 1) as [l|e] eqn:E; [|discriminate].
  exists l. split; [reflexivity|].
  apply (reconciliation_exact db 1 l (Some (cost_only (Some 300))) E). intros Hp.
  assert (Hs : is_Some (provider_effects db !! 2)) by (apply (bool_decide_unpack _); vm_compute; exact I).
  destruct (provider_effects db !! 2) as [f|] eqn:Ef; [|destruct Hs; discriminate].
  assert (Hf : pi_session_id (pe_intent f) = 1 /\ pe_state f = provider_effect_code EffectStarted)
    by (vm_compute in Ef; injection Ef as <-; split; reflexivity).
  destruct (Hp 2 f Ef (proj1 Hf)) as [Hst _]. rewrite (proj2 Hf) in Hst. discriminate.
Defined.

Lemma priced_same id (m m' : gmap Z ProviderEffectRow) :
  (forall i e, pi_session_id (pe_intent e) = id -> m' !! i = Some e <-> m !! i = Some e) ->
  priced id m' <-> priced id m.
Proof. intros H. unfold priced. split; intros Hp i e Hi He; apply (Hp i e); try done; by apply H. Qed.

Lemma effect_spend_same id (m m' : gmap Z ProviderEffectRow) :
  (forall i e, pi_session_id (pe_intent e) = id -> m' !! i = Some e <-> m !! i = Some e) ->
  effect_spend id m' = effect_spend id m.
Proof.
  intros H. unfold effect_spend, sum_where.
  assert (Hperm : rows_where (effect_of id) m' ≡ₚ rows_where (effect_of id) m).
  { apply NoDup_Permutation; [apply NoDup_rows_where..|]. intros [k e].
    rewrite !rows_where_elem. unfold effect_of. rewrite !Z.eqb_eq.
    split; intros [Hk He]; split; try done; by apply (H k e He). }
  induction Hperm as [|[k e] l l' _ IH|[k e] [j f] l|l1 l2 l3 _ IH1 _ IH2]; simpl; lia.
Qed.

(** * The cost an ended session records *)

(** The cost column of the terminal update. *)
Definition known_cost (cost : TerminalCostV2) : option Z :=
  match cost with Known v => Some v | _ => None end.

Lemma terminal_session_writes blake3 db p k id report ev r db' :
  terminal_session blake3 db p k id report ev = Ok (r, db') ->
  tr_was_idempotent_retry r = false ->
  exists s t, sessions db' !! id = Some s /\ ses_lifecycle s <> SESSION_RUNNING /\
    ses_terminal s = Some t /\ st_cost_micro_usd t = known_cost (terminal_cost (ve_usage ev)) /\
    provider_effects db' = provider_effects db.
Proof.
  unfold terminal_session. intros H Hretry. ok_inv H.
  { unfold terminal_retry in *. match goal with Hr : _ = Ok r |- _ => ok_inv Hr end. done. }
  read_process.
  match goal with Ht : terminable_session _ _ _ _ = Ok _ |- _ =>
    apply terminable_session_Ok in Ht as (Hj & -> & Hrev & Hrun & Hpk & Hpos) end.
  pose proof Hj as (Hs & Ha & Hc)%session_join_Some.
  match goal with Hu : update_session_terminal _ _ _ _ _ = Ok _ |- _ =>
    destruct (update_session_terminal_Ok _ _ _ _ _ _ _ Hs Hrun Hu) as [Hchk ->]; clear Hu end.
  match goal with Hf : finish_assignment _ _ _ = Ok _ |- _ =>
    apply (finish_assignment_Ok _ _ _ _ a) in Hf; [subst|exact Ha] end.
  match goal with Hu : update_campaign _ _ _ = Ok _ |- _ =>
    apply (update_campaign_Ok _ _ _ _ c) in Hu as [Hreason ->]; [|exact Hc] end.
  match goal with Hi : insert_audit _ _ _ _ _ _ _ _ = Ok _ |- _ =>
    unfold insert_audit in Hi; ok_inv Hi; read_process;
    apply insert_audit_row_Ok in Hi as [_ [row ->]] end.
  simpl. rewrite lookup_insert_eq. eexists _, _. split_and!; [reflexivity| |reflexivity| |reflexivity].
  - by destruct (report_stop_reason report).
  - simpl. match goal with
    | Hu : transpose_map usage_sql _ = Ok ?u, Ho : terminal_outcome _ _ _ _ _ = Ok _ |- _ =>
        rewrite (written_cost _ _ _ _ _ _ _ _ Hu eq_refl Ho);
        rewrite (terminal_outcome_cost _ _ _ _ _ _ Ho)
    end.
    destruct (terminal_cost (ve_usage ev)) eqn:E; try done. by apply terminal_cost_not_exceeded in E.
Qed.

(** The session has ended, and its recorded cost is the sum of what its effects
    cost, or unknown when one of them is not settled at a cost. *)
Definition session_settled (id : Z) (db : Database) : Prop :=
  exists s tm, sessions db !! id = Some s /\ ses_lifecycle s <> SESSION_RUNNING /\
    ses_terminal s = Some tm /\
    ((priced id (provider_effects db) /\
        st_cost_micro_usd tm = Some (effect_spend id (provider_effects db))) \/
     (~ priced id (provider_effects db) /\ st_cost_micro_usd tm = None)).

Lemma terminal_session_settles blake3 db id l t p k report ev r db1 :
  provider_effect_ledger db id = Ok l -> reconcile_provider_usage t l = Ok (ve_usage ev) ->
  terminal_session blake3 db p k id report ev = Ok (r, db1) -> tr_was_idempotent_retry r = false ->
  session_settled id db1.
Proof.
  intros (Hp & Hc & _)%ledger_books Hrec Ht Hretry.
  destruct (terminal_session_writes _ _ _ _ _ _ _ _ _ Ht Hretry)
    as (s & tm & Hs & Hn & Htm & Hcost & Eff).
  exists s, tm. rewrite Eff, Hcost. split_and!; [done..|].
  destruct (complete_cost l) eqn:E.
  - left. split; [by apply Hp|]. apply (reconcile_complete t l E) in Hrec as [-> _].
    simpl. by rewrite Hc.
  - right. split; [intros Hx; by apply Hp in Hx|].
    rewrite reconcile_incomplete in Hrec by done. injection Hrec as <-. by destruct t.
Qed.

Lemma session_settled_kept blake3 ts id db db' :
  rtc (kernel_step blake3 ts) db db' -> session_settled id db -> session_settled id db'.
Proof.
  intros [HS _ HF]%kernel_steps_kept (s & tm & Hs & Hn & Htm & Hcase).
  destruct (HS id s Hs) as (s' & Hs' & _ & Eq). specialize (Eq Hn) as ->.
  exists s, tm. split_and!; [done..|].
  assert (Hsame : forall i e, pi_session_id (pe_intent e) = id ->
    provider_effects db' !! i = Some e <-> provider_effects db !! i = Some e)
    by (intros i e He; by apply (HF id s)).
  by rewrite (priced_same _ _ _ Hsame), (effect_spend_same _ _ _ Hsame).
Qed.

(** C9: An ended session's cost is the cost of its provider effects: when the
    terminal transition carries the reconciliation of the host's report with the
    ledger of the state it commits in, then in every later state the session's
    recorded cost is known exactly when all its effects were settled at a reported
    cost, and it is then the sum of those costs. *)
Theorem ended_cost_is_effect_sum blake3 ts db id l t p k report ev r db1 db2 :
  provider_effect_ledger db id = Ok l -> reconcile_provider_usage t l = Ok (ve_usage ev) ->
  terminal_session blake3 db p k id report ev = Ok (r, db1) -> tr_was_idempotent_retry r = false ->
  rtc (kernel_step blake3 ts) db1 db2 ->
  exists s tm, sessions db2 !! id = Some s /\ ses_terminal s = Some tm /\
    ((priced id (provider_effects db2) /\
        st_cost_micro_usd tm = Some (effect_spend id (provider_effects db2))) \/
     (~ priced id (provider_effects db2) /\ st_cost_micro_usd tm = None)).
Proof.
  intros Hl Hrec Ht Hretry Hrun.
  pose proof (terminal_session_settles _ _ _ _ _ _ _ _ _ _ _ Hl Hrec Ht Hretry) as Hset.
  apply (session_settled_kept _ _ _ _ _ Hrun) in Hset as (s & tm & Hs & _ & Htm & Hcase).
  by exists s, tm.
Qed.

Lemma ended_cost_is_effect_sum_witness :
  let db := processed (to_session ++ [begin_effect 1 1 0; settle_effect 1 1 0 300]) in
  let report := report_of 1 (Some WorkComplete) Completed in
  let ev := evidence_of (Some (cost_only (Some 300))) in
  exists r db1, terminal_session checksum db "driver" "end-1" 1 report ev = Ok (r, db1) /\
    exists s tm, sessions db1 !! 1 = Some s /\ ses_terminal s = Some tm /\
    ((priced 1 (provider_effects db1) /\
        st_cost_micro_usd tm = Some (effect_spend 1 (provider_effects db1))) \/
     (~ priced 1 (provider_effects db1) /\ st_cost_micro_usd tm = None)).
Proof.
  intros db report ev.
  assert (Hd : is_ok (provider_effect_ledger db 1) = true) by (vm_compute; reflexivity).
  destruct (provider_effect_ledger db 1) as [l|e] eqn:El; [|discriminate].
  assert (Hrec : reconcile_provider_usage (Some (cost_only (Some 300))) l = Ok (ve_usage ev))
    by (vm_compute in El; injection El as <-; vm_compute; reflexivity).
  assert (Hr : (fun p => tr_was_idempotent_retry (fst p)) <$>
    terminal_session checksum db "driver" "end-1" 1 report ev = Ok false)
    by (vm_compute; reflexivity).
  destruct (terminal_session checksum db "driver" "end-1" 1 report ev) as [[r db1]|e] eqn:Et;
    [|discriminate].
  exists r, db1. split; [reflexivity|]. injection Hr as Hr.
  exact (ended_cost_is_effect_sum checksum clock db 1 l (Some (cost_only (Some 300))) "driver" "end-1"
    report ev r db1 db1 El Hrec Et Hr (rtc_refl _ _)).
Defined.
