(* ===== verification/ProcessIdempotency.v ===== *)
(** Command identity of the process authority: a process command that changed
    the state changes nothing when it is executed again, and an identity used
    by either authority is never taken over by another process command. *)
From S2P Require Import Prelude Values Database Lifecycle Refinement Idempotency Scenario.
From S2P Require Import ProcessStore ProviderEffects Kernel ProcessRefinement Accounting ProcessScenario Ledger.

(** * The audited commands *)

(** The identity, operation and fingerprint preimage of an audited command. *)
Definition process_identity (command : ProcessCommand) : option (string * string * string * list Z) :=
  match command with
  | BeginCampaign c =>
      Some (scm_principal c, scm_command_id c, CAMPAIGN_START, campaign_preimage c)
  | AdmitCancellation c | FinishCancellation c _ =>
      Some (ccm_principal c, ccm_command_id c, CAMPAIGN_CANCEL, cancel_campaign_preimage c)
  | FailRunningCampaign c =>
      Some (fcm_principal c, fcm_command_id c, CAMPAIGN_FAIL, fail_campaign_preimage c)
  | PrepareAssignment _ c =>
      Some (cas_principal c, cas_command_id c, ASSIGNMENT_CREATE, assignment_preimage c)
  | BeginSession c => Some (ss_principal c, ss_command_id c, SESSION_START, session_start_preimage c)
  | EndSession p k id report evidence =>
      Some (p, k, SESSION_TERMINAL, terminal_preimage id report evidence)
  | BeginEffect _ _ _ | SettleEffect _ _ _ => None
  end.

Lemma ps_find_audit_Ok db p c op fp o :
  find_audit_by_key db p c op fp = Ok o ->
  match o with
  | None => audit_log db !! (p, c) = None
  | Some _ => exists row, audit_log db !! (p, c) = Some row /\
                al_operation row = op /\ al_command_fingerprint row = fp
  end.
Proof. unfold find_audit_by_key. intros H. ok_inv H; [|done]. bool_prop. eauto. Qed.

Lemma ps_insert_audit_lookup db p c op fp k sid r id db' :
  insert_audit db p c op fp k sid r = Ok (id, db') -> is_Some (audit_log db' !! (p, c)).
Proof.
  unfold insert_audit. intros H. ok_inv H. read_process.
  apply insert_audit_row_lookup in H. eauto.
Qed.

(** An accepted run replayed an audit row, left one, or changed nothing. *)
Definition process_discipline (db db' : Database) (key : string * string) (op : string)
    (fp : ContentDigest) : Prop :=
  (db' = db \/ is_Some (audit_log db' !! key)) /\
  (audit_log db !! key = None \/
   db' = db /\ exists row, audit_log db !! key = Some row /\
     al_operation row = op /\ al_command_fingerprint row = fp).

Ltac process_discipline H :=
  ok_inv H;
  repeat match goal with
  | Hf : find_audit_by_key _ _ _ _ _ = Ok _ |- _ => apply ps_find_audit_Ok in Hf
  | Hf : cancel_campaign_in_transaction _ _ _ _ = Ok _ |- _ =>
      unfold cancel_campaign_in_transaction in Hf; ok_inv Hf
  | Hi : insert_audit _ _ _ _ _ _ _ _ = Ok _ |- _ => apply ps_insert_audit_lookup in Hi
  end; split; auto.

Lemma process_identity_discipline blake3 ts db command db' p k op preimage :
  process_identity command = Some (p, k, op, preimage) ->
  execute_process blake3 ts db command = Some db' ->
  process_discipline db db' (p, k) op (blake3 preimage).
Proof.
  destruct command; simpl; intros Hid; try discriminate; injection Hid as <- <- <- <-;
    rewrite committed_Some; intros [receipt H].
  - unfold start_campaign in H. process_discipline H.
  - unfold admit_campaign_cancellation in H. process_discipline H.
  - unfold finish_campaign_cancellation in H. process_discipline H.
  - unfold fail_campaign in H. process_discipline H.
  - unfold create_assignment in H. process_discipline H.
  - unfold start_session in H. process_discipline H.
  - unfold terminal_session in H. process_discipline H.
Qed.

(** * The provider effects, identified by their request *)

Definition effect_at (db : Database) (sid : Z) (run : string) (eid : Z) (e : ProviderEffectRow) : Prop :=
  exists i, provider_effects db !! i = Some e /\ pi_session_id (pe_intent e) = sid /\
    pi_core_run_id (pe_intent e) = run /\ pi_effect_id (pe_intent e) = eid.

Lemma effect_at_later blake3 ts db db' sid run eid e :
  rtc (kernel_step blake3 ts) db db' -> effect_at db sid run eid e ->
  exists e', effect_at db' sid run eid e' /\ effect_advances e e'.
Proof.
  intros [_ E _]%kernel_steps_kept (i & Hi & H). destruct (E i e Hi) as (e' & Hi' & [He Hs]).
  exists e'. split; [|done]. exists i. by rewrite He.
Qed.

Lemma effect_at_find db sid run eid e :
  effect_at db sid run eid e -> is_Some (find_effect db sid run eid).
Proof.
  intros (i & Hi & <- & <- & <-). unfold find_effect.
  destruct (rows_where _ _) as [|row l] eqn:E; [|eauto]. exfalso.
  assert (Hin : (i, e) ∈ @nil (Z * ProviderEffectRow)); [|by apply elem_of_nil in Hin].
  rewrite <- E. apply rows_where_elem. split; [done|].
  by rewrite !Z.eqb_refl, bool_decide_eq_true_2.
Qed.

(** A start changes the state only when the request was unknown, and then records it. *)
Lemma effect_start_writes db sid aid q st db' :
  provider_effect_start db sid aid q = Ok (st, db') ->
  (db' = db \/ find_effect db sid (prs_core_run_id q) (prs_effect_id q) = None) /\
  exists e, effect_at db' sid (prs_core_run_id q) (prs_effect_id q) e.
Proof.
  unfold provider_effect_start. intros H. ok_inv H; read_process.
  - split; [by left|].
    match goal with Hf : find_effect _ _ _ _ = Some (?i, ?e) |- _ =>
      apply find_effect_Some in Hf as Hf'; exists e; by exists i end.
  - split; [by right|].
    match goal with Hi : insert_provider_effect _ _ = Ok ?p |- _ =>
      destruct p as [i db1]; apply insert_provider_effect_Ok in Hi as (-> & -> & _) end.
    eexists. exists (fresh_id (provider_effects db)). simpl. rewrite lookup_insert_eq. done.
Qed.

(** A settlement changes the state only when the request was open, and then closes it. *)
Lemma effect_settle_writes db sid aid q st db' :
  provider_effect_settle db sid aid q = Ok (st, db') ->
  (db' = db \/ exists e, effect_at db sid (prt_core_run_id q) (prt_effect_id q) e /\
                pe_state e = provider_effect_code EffectStarted) /\
  exists e, effect_at db' sid (prt_core_run_id q) (prt_effect_id q) e /\
    pe_state e <> provider_effect_code EffectStarted.
Proof.
  intros (w & i & e & _ & Hns & Hf & Hcase)%settle_Ok. apply find_effect_Some in Hf as (Hi & E).
  destruct Hcase as [[Hst ->]|(Hst & -> & _)]; split.
  - right. exists e. split; [by exists i|done].
  - exists (settled_effect st w e). split; [|by destruct st].
    exists i. simpl. rewrite lookup_insert_eq. done.
  - by left.
  - exists e. split; [by exists i|]. rewrite Hst. by destruct st.
Qed.

Lemma effect_at_unique db sid run eid e e' :
  exclusive db -> effect_at db sid run eid e -> effect_at db sid run eid e' -> e = e'.
Proof.
  intros [_ _ _ U] (i & Hi & <- & <- & <-) (j & Hj & E1 & E2 & E3).
  assert (i = j) as ->; [|congruence].
  eapply (U i j e e'); [done|done|reflexivity|]. unfold effect_key. congruence.
Qed.

(** * Theorems *)

Lemma kernel_audit_kept blake3 ts db db' key row :
  rtc (kernel_step blake3 ts) db db' -> audit_log db !! key = Some row ->
  audit_log db' !! key = Some row.
Proof.
  intros Hr%kernel_steps_runs Hrow. apply steps_transitions in Hr.
  eapply lookup_weaken; [exact Hrow|]. by apply History.ex_audit, History.transitions_extend.
Qed.

(** C25: At most once, for the process authority: a process command that changed the
    state changes nothing when it is executed again, however much later and
    whatever ticket and process commands ran in between. *)
Theorem process_commands_commit_at_most_once blake3 ts db command db1 db2 db3 :
  kernel_reachable blake3 ts db -> execute_process blake3 ts db command = Some db1 -> db1 <> db ->
  rtc (kernel_step blake3 ts) db1 db2 -> execute_process blake3 ts db2 command = Some db3 ->
  db3 = db2.
Proof.
  intros Hreach H1 Hne Hr H3.
  assert (X2 : exclusive db2).
  { apply acc_exclusive, (kernel_accounted blake3 ts). destruct Hreach as (db0 & Hp & Hr0).
    exists db0. split; [done|]. etransitivity; [exact Hr0|].
    eapply rtc_l; [by eapply kernel_process|exact Hr]. }
  destruct (process_identity command) as [[[[p k] op] preimage]|] eqn:Hid.
  - destruct (process_identity_discipline _ _ _ _ _ _ _ _ _ Hid H1) as [[|[row Hrow]] _]; [done|].
    destruct (process_identity_discipline _ _ _ _ _ _ _ _ _ Hid H3) as [_ [Hn|[-> _]]]; [|done].
    by rewrite (kernel_audit_kept _ _ _ _ _ _ Hr Hrow) in Hn.
  - destruct command; try discriminate; simpl in H1, H3;
      apply committed_Some in H1 as [r1 H1], H3 as [r3 H3].
    + apply effect_start_writes in H1 as (_ & e & He), H3 as ([->|Hn] & _); [done|].
      destruct (effect_at_later _ _ _ _ _ _ _ _ Hr He) as (e' & He' & _).
      apply effect_at_find in He' as [x Hx]. congruence.
    + apply effect_settle_writes in H1 as (_ & e & He & Hst), H3 as ([->|(f & Hf & Hfs)] & _); [done|].
      destruct (effect_at_later _ _ _ _ _ _ _ _ Hr He) as (e' & He' & _ & Eq).
      rewrite (Eq Hst) in He'. by rewrite (effect_at_unique _ _ _ _ _ _ X2 He' Hf) in Hst.
Qed.

Lemma process_commands_commit_at_most_once_witness :
  let db2 := processed to_session in
  exists db3, execute_process checksum clock db2 begin_campaign = Some db3 /\ db3 = db2.
Proof.
  intros db2.
  assert (H : kernel_reachable checksum clock fresh_installation)
    by (apply (ran_reachable []); vm_compute; reflexivity).
  set (db1 := processed [begin_campaign]).
  assert (E : execute_process checksum clock fresh_installation begin_campaign = Some db1)
    by (vm_compute; reflexivity).
  assert (Hs : is_Some (execute_process checksum clock db2 begin_campaign))
    by (apply (bool_decide_unpack _); vm_compute; exact I).
  destruct Hs as [db3 Hs]. exists db3. split; [exact Hs|].
  assert (Hne : db1 <> fresh_installation).
  { intros Eq. assert (F : size (campaigns db1) = size (campaigns fresh_installation))
      by (rewrite Eq; reflexivity). vm_compute in F. discriminate. }
  assert (Hr : rtc (kernel_step checksum clock) db1 db2).
  { apply (kernel_run_steps _ _ _ [inr (prepare 1 0 1000); inr (begin_session 1)]).
    vm_compute. reflexivity. }
  exact (process_commands_commit_at_most_once checksum clock fresh_installation begin_campaign
    db1 db2 db3 H E Hne Hr Hs).
Defined.

(** One identity space: an identity audited by either authority is refused to any
    audited process command with another operation or another fingerprint. *)
Theorem process_identity_conflicts_refused blake3 ts db command row p k op preimage :
  process_identity command = Some (p, k, op, preimage) -> audit_log db !! (p, k) = Some row ->
  (al_operation row <> op \/ al_command_fingerprint row <> blake3 preimage) ->
  execute_process blake3 ts db command = None.
Proof.
  intros Hid Hrow Hne. destruct (execute_process blake3 ts db command) as [db'|] eqn:E; [|done].
  destruct (process_identity_discipline _ _ _ _ _ _ _ _ _ Hid E) as [_ [Hn|(_ & r & Hr & ? & ?)]];
    [congruence|].
  rewrite Hrow in Hr. injection Hr as <-. by destruct Hne.
Qed.

(** A cancellation under the identity that started the campaign. *)
Definition stolen_campaign_identity : ProcessCommand := AdmitCancellation {|
  ccm_principal := "operator"; ccm_command_id := "p1"; ccm_campaign_id := 1;
  ccm_expected_revision := 0 |}.

Lemma process_identity_conflicts_refused_witness :
  let db := processed to_session in
  exists row, audit_log db !! ("operator"%string, "p1"%string) = Some row /\
    execute_process checksum clock db stolen_campaign_identity = None.
Proof.
  intros db. assert (Hd : is_Some (audit_log db !! ("operator"%string, "p1"%string)))
    by (apply (bool_decide_unpack _); vm_compute; exact I).
  destruct (audit_log db !! ("operator"%string, "p1"%string)) as [row|] eqn:E;
    [|destruct Hd; discriminate].
  exists row. split; [reflexivity|].
  eapply (process_identity_conflicts_refused checksum clock db stolen_campaign_identity row);
    [reflexivity|exact E|].
  left. vm_compute in E. injection E as <-. vm_compute. discriminate.
Defined.
