(* ===== verification/DriverCommands.v ===== *)
(** The commands the campaign driver issues, as data: every command identity it
    builds is a valid one, and two identities are equal only when the commands
    are, so that no command is taken for a retry of another. *)
From stdpp Require Import pretty.
From S2P Require Import Prelude Values Database.
From S2P Require Import TicketStore BufferStatus CampaignDriver.

(** * Numerals *)

Definition numeral (s : string) : Prop := Forall (fun b => is_ascii_digit b = true) (string_bytes s).

Lemma string_len_app s s' : string_len (s +:+ s') = string_len s + string_len s'.
Proof. unfold string_len. rewrite <- !string_bytes_length, string_bytes_app, length_app. lia. Qed.

Lemma pretty_N_char_digit d : is_ascii_digit (byte_of (pretty_N_char d)) = true.
Proof. unfold pretty_N_char. repeat case_match; reflexivity. Qed.

Lemma pretty_N_go_numeral k x s :
  (x < 10 ^ N.of_nat k)%N ->
  exists d, pretty_N_go x s = d +:+ s /\ numeral d /\ string_len d <= Z.of_nat k /\
    ((0 < x)%N -> 1 <= string_len d).
Proof.
  revert x s. induction k as [|k IH]; intros x s Hx.
  { assert (x = 0%N) as -> by (simpl in Hx; lia). exists ""%string. split_and!; [done|constructor|done|lia]. }
  destruct (base.decide (x = 0%N)) as [->|Hn].
  { exists ""%string. split_and!; [done|constructor|unfold string_len; simpl; lia|lia]. }
  rewrite pretty_N_go_step by lia. set (c := pretty_N_char _).
  destruct (IH (x `div` 10)%N (String c s)) as (d & -> & Hd & Hlen & _).
  { apply N.Div0.div_lt_upper_bound. rewrite Nat2N.inj_succ, N.pow_succ_r' in Hx. lia. }
  exists (d +:+ String c "").
  assert (string_len (String c "") = 1) by done. rewrite string_len_app.
  assert (0 <= string_len d) by (unfold string_len; lia). split_and!; [|..|lia|lia].
  - by rewrite append_assoc.
  - unfold numeral. rewrite string_bytes_app. apply Forall_app. split; [done|].
    constructor; [apply pretty_N_char_digit|constructor].
Qed.

(** A 64-bit unsigned number is at most 20 digits. *)
Lemma pretty_numeral z : 0 <= z <= u64_max -> numeral (pretty z) /\ 1 <= string_len (pretty z) <= 20.
Proof.
  intros Hz. destruct z as [|p|p]; [by split; [repeat constructor|]| |lia].
  destruct (pretty_N_go_numeral 20 (Npos p) "") as (d & E & Hd & Hlen & Hpos).
  { unfold u64_max in Hz. change (10 ^ N.of_nat 20)%N with 100000000000000000000%N. lia. }
  specialize (Hpos ltac:(lia)).
  assert (Ep : pretty (Zpos p) = d).
  { change (pretty (Zpos p)) with (pretty (Npos p)). unfold pretty, pretty_N.
    rewrite decide_False by done. rewrite E. apply append_nil. }
  rewrite Ep. split; [done|lia].
Qed.

(** * Fields *)

(** The parts of a text between its dashes. *)
Fixpoint fields (s : string) : list string :=
  match s with
  | EmptyString => [EmptyString]
  | String c s =>
      if byte_of c =? 45 then EmptyString :: fields s
      else match fields s with
           | f :: fs => String c f :: fs
           | [] => [String c EmptyString]
           end
  end.

(** The fields of two texts written one after the other. *)
Fixpoint glue (fs gs : list string) : list string :=
  match fs, gs with
  | [], _ => gs
  | [f], g :: gs => (f +:+ g) :: gs
  | f :: fs, _ => f :: glue fs gs
  end.

Lemma fields_nonempty s : fields s <> [].
Proof. destruct s as [|c s]; simpl; [done|]. repeat case_match; done. Qed.

Lemma fields_app s s' : fields (s +:+ s') = glue (fields s) (fields s').
Proof.
  pose proof (fields_nonempty s') as Hn'. induction s as [|c s IH].
  { change (EmptyString +:+ s') with s'. simpl. by destruct (fields s') eqn:?. }
  rewrite append_cons. simpl. pose proof (fields_nonempty s) as Hn. rewrite IH.
  destruct (fields s) as [|f [|f' fs]] eqn:?, (fields s') as [|g gs] eqn:?; try congruence;
    by destruct (byte_of c =? 45).
Qed.

Lemma fields_numeral s : numeral s -> fields s = [s].
Proof.
  unfold numeral, string_bytes. induction s as [|c s IH]; intros Hs; [done|].
  inversion Hs as [|? ? Hc Hs']; subst. simpl. rewrite IH by done.
  destruct (Z.eqb_spec (byte_of c) 45) as [E|]; [by rewrite E in Hc|done].
Qed.

(** * The driver's commands *)

(** A launch the driver makes, with its target and the action it names. *)
Inductive DriverLaunch :=
  | LaunchProduct
  | LaunchEngineering (attempt : Z)
  | RetryEngineeringLaunch (attempt : Z)
  | ReworkEngineeringLaunch (attempt : Z)
  | LaunchQuality (attempt candidate : Z).

Definition launch_action (l : DriverLaunch) : string :=
  match l with
  | LaunchProduct => "product"
  | LaunchEngineering _ => "engineering"
  | RetryEngineeringLaunch _ => "engineering-retry"
  | ReworkEngineeringLaunch _ => "rework-engineering"
  | LaunchQuality _ _ => "quality"
  end.

Definition launch_target (l : DriverLaunch) : DurableAssignmentTarget :=
  match l with
  | LaunchProduct => TargetProduct
  | LaunchEngineering attempt | RetryEngineeringLaunch attempt
  | ReworkEngineeringLaunch attempt => TargetEngineering attempt
  | LaunchQuality attempt candidate => TargetQuality attempt candidate
  end.

(** The commands of a pass, each with what its identity is built from. *)
Inductive DriverCommand :=
  | DriverCompletes (campaign revision : Z)
  | DriverClaims (campaign revision ticket_revision_id ticket_revision : Z)
  | DriverFailsCampaign (campaign revision : Z)
  | DriverLaunches (campaign revision : Z) (l : DriverLaunch)
  | DriverDelivers (stage : DownstreamActionStage) (attempt attempt_revision candidate candidate_revision : Z)
  | DriverFailsAttempt (attempt : Z) (context : TicketAttemptFailureContext)
  | DriverRetriesEngineering (attempt attempt_revision ticket_revision : Z)
  | DriverRetriesQuality (attempt candidate : Z) (context : TicketAttemptFailureContext).

Definition driver_command_id (c : DriverCommand) : string :=
  match c with
  | DriverCompletes campaign revision => command_id "complete" campaign revision
  | DriverClaims campaign revision id ticket_revision =>
      ticket_claim_command_id campaign revision id ticket_revision
  | DriverFailsCampaign campaign revision => command_id "fault" campaign revision
  | DriverLaunches campaign revision l =>
      assignment_command_id (launch_action l) campaign revision (launch_target l)
  | DriverDelivers stage attempt attempt_revision candidate candidate_revision =>
      downstream_command_id "deliver" {|
        da_stage := stage; da_ticket_attempt_id := attempt;
        da_ticket_attempt_revision := attempt_revision; da_ticket_revision := 0;
        da_candidate_id := candidate; da_candidate_revision := candidate_revision |}
  | DriverFailsAttempt attempt context => failure_command_id attempt context
  | DriverRetriesEngineering attempt attempt_revision ticket_revision =>
      engineering_retry_command_id attempt attempt_revision ticket_revision
  | DriverRetriesQuality attempt candidate context => quality_retry_command_id attempt candidate context
  end.

(** Identities are positive [i64]s and revisions are [u64]s; both are [u64]s. *)
Definition driver_command_numbers (c : DriverCommand) : list Z :=
  match c with
  | DriverCompletes campaign revision | DriverFailsCampaign campaign revision => [campaign; revision]
  | DriverClaims campaign revision id ticket_revision => [campaign; revision; id; ticket_revision]
  | DriverLaunches campaign revision l =>
      [campaign; revision] ++
      match launch_target l with
      | TargetProduct => []
      | TargetEngineering attempt => [attempt]
      | TargetQuality attempt candidate => [attempt; candidate]
      end
  | DriverDelivers _ attempt attempt_revision candidate candidate_revision =>
      [attempt; attempt_revision; candidate; candidate_revision]
  | DriverFailsAttempt attempt context =>
      [attempt; tf_attempt_revision context; tf_ticket_revision context]
  | DriverRetriesEngineering attempt attempt_revision ticket_revision =>
      [attempt; attempt_revision; ticket_revision]
  | DriverRetriesQuality attempt candidate context =>
      [attempt; candidate; tf_attempt_revision context; tf_ticket_revision context]
  end.

Definition driver_command_ok (c : DriverCommand) : Prop :=
  Forall (fun z => 0 <= z <= u64_max) (driver_command_numbers c).

(** * Valid identities *)

Definition command_text (s : string) : Prop := forallb is_command_byte (string_bytes s) = true.

Lemma command_text_app s s' : command_text s -> command_text s' -> command_text (s +:+ s').
Proof. unfold command_text. intros Hs Hs'. by rewrite string_bytes_app, forallb_app, Hs, Hs'. Qed.

Lemma numeral_command s : numeral s -> command_text s.
Proof.
  unfold command_text. intros Hs. apply forallb_forall. intros b Hb%list_elem_of_In.
  unfold is_command_byte. unfold numeral in Hs. rewrite Forall_forall in Hs. by rewrite (Hs b Hb).
Qed.

Lemma component_run s : command_text s -> 1 <= string_len s <= 160 -> command_component s = true.
Proof.
  intros Ht Hl. unfold command_component. rewrite Ht, (proj2 (Z.leb_le _ _)) by lia.
  destruct (string_bytes s) eqn:E; [|done]. unfold string_len in Hl.
  rewrite <- string_bytes_length, E in Hl. simpl in Hl. lia.
Qed.

Lemma stage_name_text stage : command_text (stage_name stage) /\ 1 <= string_len (stage_name stage) <= 32.
Proof. by destruct stage. Qed.

(** One tactic bounds a text made of literals and numerals. *)
Ltac bound_text :=
  repeat rewrite string_len_app;
  repeat match goal with
  | H : 0 <= ?z <= u64_max |- context [string_len (pretty ?z)] =>
      let E := fresh in pose proof (proj2 (pretty_numeral z H)) as E;
      generalize dependent (string_len (pretty z)); intros
  | |- context [string_len (stage_name ?s)] =>
      let E := fresh in pose proof (proj2 (stage_name_text s)) as E;
      generalize dependent (string_len (stage_name s)); intros
  end;
  repeat match goal with
  | |- context [string_len ?s] => let n := eval vm_compute in (string_len s) in
      change (string_len s) with n
  end; lia.

Ltac text_parts :=
  repeat match goal with
  | |- command_text (_ +:+ _) => apply command_text_app
  | H : 0 <= ?z <= u64_max |- command_text (pretty ?z) =>
      apply numeral_command, (proj1 (pretty_numeral z H))
  | |- command_text (stage_name ?s) => apply stage_name_text
  end; try reflexivity.

Ltac open_numbers :=
  repeat match goal with
  | H : driver_command_ok _ |- _ => unfold driver_command_ok in H; simpl in H
  | H : Forall _ (_ :: _) |- _ => apply Forall_cons in H as [? H]
  end.

Lemma driver_command_component c :
  driver_command_ok c -> command_component (driver_command_id c) = true.
Proof.
  intros Hc. destruct c as [| | |? ? []| |? [ar tr]| |? ? [ar tr]]; open_numbers;
    cbn [driver_command_id launch_target launch_action tf_attempt_revision tf_ticket_revision
      da_stage da_ticket_attempt_id da_ticket_attempt_revision da_candidate_id da_candidate_revision] in *;
    unfold ticket_claim_command_id, assignment_command_id, downstream_command_id,
      failure_command_id, engineering_retry_command_id, quality_retry_command_id, command_id in *;
    cbn [da_stage da_ticket_attempt_id da_ticket_attempt_revision da_candidate_id
      da_candidate_revision tf_attempt_revision tf_ticket_revision] in *;
    (apply component_run; [text_parts|bound_text]).
Qed.

(** * Distinct identities *)

Definition driver_fields (c : DriverCommand) : list string :=
  match c with
  | DriverCompletes campaign revision =>
      ["campaign"; pretty campaign; "complete"; "r" +:+ pretty revision]
  | DriverClaims campaign revision id ticket_revision =>
      ["campaign"; pretty campaign; "claim"; "r" +:+ pretty revision; "ticket"; "revision";
       pretty id; "tr" +:+ pretty ticket_revision]
  | DriverFailsCampaign campaign revision =>
      ["campaign"; pretty campaign; "fault"; "r" +:+ pretty revision]
  | DriverLaunches campaign revision l =>
      "campaign" :: pretty campaign ::
         match l with
         | LaunchProduct => ["product"; "r" +:+ pretty revision]
         | LaunchEngineering attempt =>
             ["engineering"; "r" +:+ pretty revision; "attempt"; pretty attempt]
         | RetryEngineeringLaunch attempt =>
             ["engineering"; "retry"; "r" +:+ pretty revision; "attempt"; pretty attempt]
         | ReworkEngineeringLaunch attempt =>
             ["rework"; "engineering"; "r" +:+ pretty revision; "attempt"; pretty attempt]
         | LaunchQuality attempt candidate =>
             ["quality"; "r" +:+ pretty revision; "attempt"; pretty attempt; "candidate";
              pretty candidate]
         end
  | DriverDelivers stage attempt attempt_revision candidate candidate_revision =>
      ["campaign"; "deliver"; stage_name stage; "attempt"; pretty attempt; "candidate";
       pretty candidate; "ar" +:+ pretty attempt_revision; "cr" +:+ pretty candidate_revision]
  | DriverFailsAttempt attempt context =>
      ["attempt"; pretty attempt; "fault"; "ar" +:+ pretty (tf_attempt_revision context);
       "tr" +:+ pretty (tf_ticket_revision context)]
  | DriverRetriesEngineering attempt attempt_revision ticket_revision =>
      ["attempt"; pretty attempt; "engineering"; "retry"; "ar" +:+ pretty attempt_revision;
       "tr" +:+ pretty ticket_revision]
  | DriverRetriesQuality attempt candidate context =>
      ["attempt"; pretty attempt; "candidate"; pretty candidate; "quality"; "retry";
       "ar" +:+ pretty (tf_attempt_revision context); "tr" +:+ pretty (tf_ticket_revision context)]
  end%string.

Lemma fields_pretty z : 0 <= z <= u64_max -> fields (pretty z) = [pretty z].
Proof. intros Hz. by apply fields_numeral, pretty_numeral. Qed.

Lemma fields_stage stage : fields (stage_name stage) = [stage_name stage].
Proof. by destruct stage. Qed.

Lemma driver_command_fields c :
  driver_command_ok c -> fields (driver_command_id c) = driver_fields c.
Proof.
  intros Hc. destruct c as [| | |? ? []| |? [ar tr]| |? ? [ar tr]]; open_numbers;
    cbn [driver_command_id launch_target launch_action tf_attempt_revision tf_ticket_revision
      da_stage da_ticket_attempt_id da_ticket_attempt_revision da_candidate_id da_candidate_revision] in *;
    unfold ticket_claim_command_id, assignment_command_id, downstream_command_id,
      failure_command_id, engineering_retry_command_id, quality_retry_command_id, command_id in *;
    cbn [da_stage da_ticket_attempt_id da_ticket_attempt_revision da_candidate_id
      da_candidate_revision tf_attempt_revision tf_ticket_revision] in *;
    repeat rewrite fields_app; rewrite ?fields_stage; repeat rewrite fields_pretty by done;
    repeat match goal with
    | |- context [fields ?s] => let l := eval vm_compute in (fields s) in change (fields s) with l
    end;
    cbn [glue]; rewrite ?append_nil; reflexivity.
Qed.

Lemma stage_name_inj stage stage' : stage_name stage = stage_name stage' -> stage = stage'.
Proof. by destruct stage, stage'. Qed.

Lemma driver_fields_inj c c' : driver_fields c = driver_fields c' -> c = c'.
Proof.
  intros E.
  destruct c as [| | |? ? []| |? [ar tr]| |? ? [ar tr]],
    c' as [| | |? ? []| |? [ar' tr']| |? ? [ar' tr']];
    try discriminate E; cbn in E; injection E; intros;
    repeat match goal with
    | H : ?s +:+ _ = ?s +:+ _ |- _ => apply (inj (String.append _)) in H
    | H : pretty _ = pretty _ |- _ => apply (inj pretty) in H
    | H : stage_name _ = stage_name _ |- _ => apply stage_name_inj in H
    end; congruence.
Qed.

Lemma driver_command_id_inj c c' :
  driver_command_ok c -> driver_command_ok c' -> driver_command_id c = driver_command_id c' -> c = c'.
Proof.
  intros Hc Hc' E. apply driver_fields_inj. by rewrite <- !driver_command_fields, E.
Qed.

Lemma driver_command_valid c :
  driver_command_ok c -> validate_command DRIVER_PRINCIPAL (driver_command_id c) = Ok tt.
Proof. intros Hc. unfold validate_command. simpl. by rewrite driver_command_component. Qed.

(** C27: The daemon's command identities: every identity a pass builds, whatever
    64-bit numbers it is built from, is one the stores accept, and two commands of
    passes have the same identity only when they are the same command for the same
    target at the same revisions; so a retried launch never recovers the packet of
    another attempt, and no command is answered with the receipt of another. *)
Theorem driver_identities_identify c c' :
  driver_command_ok c -> driver_command_ok c' ->
  validate_command DRIVER_PRINCIPAL (driver_command_id c) = Ok tt /\
  (driver_command_id c = driver_command_id c' <-> c = c').
Proof.
  intros Hc Hc'. split; [by apply driver_command_valid|].
  split; [by apply driver_command_id_inj|by intros ->].
Qed.

Lemma driver_identities_identify_witness :
  let launch attempt := DriverLaunches 1 5 (RetryEngineeringLaunch attempt) in
  driver_command_id (launch 7) = "campaign-1-engineering-retry-r5-attempt-7"%string /\
  driver_command_id (launch 7) <> driver_command_id (launch 8).
Proof.
  intros launch. split; [vm_compute; reflexivity|].
  assert (Hok : forall attempt, 0 <= attempt <= u64_max -> driver_command_ok (launch attempt))
    by (intros attempt Ha; repeat constructor; first [exact (proj1 Ha)|exact (proj2 Ha)|discriminate]).
  intros E.
  apply (driver_identities_identify (launch 7) (launch 8)
    (Hok 7 ltac:(split; discriminate)) (Hok 8 ltac:(split; discriminate))) in E. discriminate E.
Defined.

(** * Failure reasons *)

Lemma substring_append n s : exists rest, s = String.substring 0 n s +:+ rest.
Proof.
  revert n. induction s as [|c s IH]; intros [|n]; simpl.
  - by exists ""%string.
  - by exists ""%string.
  - by exists (String c s).
  - destruct (IH n) as [rest E]. exists rest. rewrite append_cons. by f_equal.
Qed.

Lemma substring_len n s : string_len (String.substring 0 n s) <= Z.of_nat n.
Proof.
  unfold string_len. revert n. induction s as [|c s IH]; intros [|n]; simpl; try lia.
  specialize (IH n). lia.
Qed.

Lemma failure_text_len action detail : 1 <= string_len (failure_text action detail).
Proof.
  unfold failure_text. rewrite string_len_app.
  assert (string_len "daemon " = 7) by reflexivity. unfold string_len in *. lia.
Qed.

(** [String::truncate] keeps a prefix of at most [n] bytes, and all of a shorter text. *)
Lemma truncate_Some n s r :
  truncate n s = Some r -> string_len r <= Z.of_nat n /\ (exists rest, s = r +:+ rest) /\
    (string_len s <= Z.of_nat n -> r = s).
Proof.
  unfold truncate. destruct (string_bytes s !! n) as [b|] eqn:E.
  - destruct (is_char_start b); [|discriminate]. intros [= <-].
    split; [apply substring_len|]. split; [apply substring_append|].
    apply lookup_lt_Some in E. rewrite string_bytes_length in E. unfold string_len. lia.
  - intros [= <-]. apply lookup_ge_None in E. rewrite string_bytes_length in E.
    split; [unfold string_len; lia|]. split; [|done]. exists ""%string. by rewrite append_nil.
Qed.

(** The driver's failure reasons: what it writes is a prefix of the whole text,
    all of it up to 240 bytes, and a reason without a NUL byte is one both stores
    accept; the pass panics instead exactly when the text is longer than 240 bytes
    and byte 240 lies inside a UTF-8 character. *)
Theorem failure_reason_exact action detail :
  let text := failure_text action detail in
  (forall reason, failure_reason action detail = Some reason ->
     (exists rest, text = reason +:+ rest) /\ (string_len text <= 240 -> reason = text) /\
     (contains_byte 0 text = false -> bounded_text reason 240 = true)) /\
  (failure_reason action detail = None <->
     exists b, string_bytes text !! 240%nat = Some b /\ 128 <= b < 192).
Proof.
  intros text. unfold failure_reason. fold text. split.
  - intros reason E. pose proof E as (Hlen & [rest Erest] & Hall)%truncate_Some.
    split; [by exists rest|]. split; [exact Hall|]. intros Hnul.
    assert (Hpos : 1 <= string_len reason).
    { destruct (Z.le_gt_cases (string_len text) 240) as [Hs|Hs].
      - rewrite (Hall Hs). apply failure_text_len.
      - unfold truncate in E. destruct (string_bytes text !! 240%nat) as [b|] eqn:Eb.
        + destruct (is_char_start b); [|discriminate]. injection E as <-.
          assert (Ht : exists c s, text = String c s) by (do 2 eexists; reflexivity).
          destruct Ht as (c & s & ->). unfold string_len. simpl. lia.
        + injection E as <-. lia. }
    unfold bounded_text. rewrite (proj2 (Z.leb_le _ _)) by done.
    assert (Hr : contains_byte 0 reason = false).
    { apply not_true_iff_false. intros Hc. apply not_true_iff_false in Hnul. apply Hnul.
      rewrite Erest. unfold contains_byte in *. rewrite string_bytes_app, existsb_app, Hc. done. }
    rewrite Hr. destruct (string_bytes reason) eqn:Eb; [|done].
    unfold string_len in Hpos. rewrite <- string_bytes_length, Eb in Hpos. simpl in Hpos. lia.
  - unfold truncate. destruct (string_bytes text !! 240%nat) as [b|]; [|split; [done|by intros (? & ? & _)]].
    unfold is_char_start. destruct (Z.ltb_spec b 128), (Z.leb_spec 192 b); simpl;
      (split; [first [discriminate|eauto]|intros (? & [= <-] & ?); first [done|lia]]).
Qed.

(** With it a Product failure is 239 bytes followed by a three-byte character. *)
Definition long_detail : string :=
  String.string_of_list_ascii
    (repeat (Ascii.ascii_of_nat 97) 206 ++ map Ascii.ascii_of_nat [226; 130; 172]%nat
       ++ repeat (Ascii.ascii_of_nat 97) 10).

Lemma failure_reason_panics : failure_reason "product" long_detail = None.
Proof. vm_compute. reflexivity. Qed.
