(* ===== verification/ForumSearch.v ===== *)
(** Searching the Forum: what a search finds, how its cursor continues it and
    what the byte limit leaves of a snippet ([ForumStore], [Forum]). *)
From stdpp Require Import pretty sorting.
From S2P Require Import Prelude Values Json Forum ForumStore ForumProofs ForumPages.
From S2P Require Import DriverCommands.

#[local] Open Scope string_scope.
#[local] Open Scope list_scope.
#[local] Open Scope Z_scope.

(** * The cursor *)

Lemma hex_any_digit_back n : 0 <= n < 16 -> hex_any_digit (hex_digit n) = Some n.
Proof.
  intros Hn. unfold hex_digit, hex_any_digit. destruct (Z.ltb_spec n 10).
  - replace ((48 <=? 48 + n) && (48 + n <=? 57)) with true by lia. f_equal. lia.
  - replace ((48 <=? 87 + n) && (87 + n <=? 57)) with false by lia.
    replace ((97 <=? 87 + n) && (87 + n <=? 102)) with true by lia. f_equal. lia.
Qed.

(** The eight nibbles of a 32-bit number. *)
Definition nibbles (r : Z) : list Z :=
  (fun i => (r / 2 ^ (4 * i)) mod 16) <$> [7; 6; 5; 4; 3; 2; 1; 0].

Lemma byte_nibbles x : (x mod 256) / 16 = (x / 16) mod 16 /\ (x mod 256) mod 16 = x mod 16.
Proof. split; Z.div_mod_to_equations; lia. Qed.

Lemma hex_text_nibbles r : hex_text (be_bytes 4 r) = hex_digit <$> nibbles r.
Proof.
  unfold be_bytes, nibbles. cbn [seq rev app fmap list_fmap hex_text].
  assert (Hd : forall k, 0 <= k -> r / 2 ^ k / 16 = r / 2 ^ (k + 4)).
  { intros k Hk. rewrite Z.div_div by lia. change 16 with (2 ^ 4). by rewrite <- Z.pow_add_r by lia. }
  repeat match goal with |- context [?x mod 256 / 16] => rewrite (proj1 (byte_nibbles x)) end.
  repeat match goal with |- context [(?x mod 256) mod 16] => rewrite (proj2 (byte_nibbles x)) end.
  by rewrite !Hd by lia.
Qed.

Lemma nibbles_value r : 0 <= r < 2 ^ 32 -> fold_left (fun acc n => acc * 16 + n) (nibbles r) 0 = r.
Proof. intros Hr. unfold nibbles. cbn [fmap list_fmap fold_left]. Z.div_mod_to_equations. lia. Qed.

Lemma nibbles_range r : Forall (fun n => 0 <= n < 16) (nibbles r).
Proof. unfold nibbles. repeat constructor; by apply Z.mod_pos_bound. Qed.

Lemma hex_number_digits ns v : Forall (fun n => 0 <= n < 16) ns ->
  fold_left (fun acc byte => value ← acc; digit ← hex_any_digit byte; Some (value * 16 + digit)) (hex_digit <$> ns) (Some v)
  = Some (fold_left (fun acc n => acc * 16 + n) ns v).
Proof.
  intros H. revert v. induction H as [|n ns Hn _ IH]; intros v; [done|]. rewrite fmap_cons. cbn [fold_left mbind option_bind].
  rewrite hex_any_digit_back by done. cbn [mbind option_bind]. apply IH.
Qed.

Lemma split_once_dot_app a b : Forall (fun x => x <> 46) (string_bytes a) ->
  split_once_dot (a +:+ "." +:+ b) = Some (a, b).
Proof.
  induction a as [|c a IH]; intros H; [done|]. inversion_clear H as [|? ? Hc Ha].
  rewrite append_cons. cbn [split_once_dot]. replace (byte_of c =? 46) with false by (symmetry; by apply Z.eqb_neq).
  by rewrite IH.
Qed.

Lemma finite_bits r : 0 <= r < 2139095040 -> f32_is_finite r = true /\ f32_is_sign_negative r = false.
Proof.
  intros Hr. unfold f32_is_finite, f32_is_sign_negative. rewrite Z.shiftr_div_pow2 by lia.
  change 255 with (Z.ones 8) at 1. rewrite Z.land_ones by lia. split.
  - rewrite negb_true_iff, Z.eqb_neq. Z.div_mod_to_equations. lia.
  - apply Z.testbit_false; [lia|]. rewrite Z.div_small by lia. done.
Qed.

(** A cursor is read back as it was written: every rank PostgreSQL can report (a
    finite, nonnegative [real]) and every post. *)
Theorem cursor_round_trip c :
  0 <= rank_bits c < 2139095040 -> 0 < cursor_post_id c <= i64_max ->
  cursor_decode (cursor_encode c) = Ok c.
Proof.
  destruct c as [r id]. cbn [rank_bits cursor_post_id]. intros Hr Hid. unfold cursor_encode. cbn [rank_bits cursor_post_id].
  pose proof (nibbles_range r) as Hn.
  assert (Hhex : string_bytes (to_hex (be_bytes 4 r)) = hex_digit <$> nibbles r).
  { unfold to_hex. rewrite hex_text_nibbles. apply text_of_bytes. apply Forall_fmap. eapply Forall_impl; [exact Hn|].
    intros n Hn'. cbv beta in Hn'. unfold compose, u8, hex_digit. destruct (Z.ltb_spec n 10); lia. }
  assert (Hlen : string_len (to_hex (be_bytes 4 r)) = 8).
  { unfold string_len. rewrite <- string_bytes_length, Hhex. done. }
  unfold cursor_decode. rewrite split_once_dot_app.
  2:{ rewrite Hhex. apply Forall_fmap. eapply Forall_impl; [exact Hn|]. intros n Hn'. cbv beta in Hn'.
    unfold compose, hex_digit. destruct (Z.ltb_spec n 10); lia. }
  assert (Htotal : string_len (to_hex (be_bytes 4 r) +:+ "." +:+ pretty id) = 9 + string_len (pretty id)).
  { unfold string_len in *. rewrite <- !string_bytes_length in *. rewrite !string_bytes_app, !length_app.
    change (length (string_bytes ".")) with 1%nat. lia. }
  rewrite Htotal. destruct (pretty_numeral id) as [_ Hp]; [unfold i64_max, u64_max in *; lia|].
  unfold FORUM_SEARCH_CURSOR_MAX_BYTES.
  replace ((9 + string_len (pretty id) =? 0) || (512 <? 9 + string_len (pretty id))) with false by lia.
  cbn [negb require ok_or mbind result_bind]. rewrite Hlen, Hhex. cbn [Z.eqb Pos.eqb andb].
  assert (Hall : forallb (fun b => bool_decide (is_Some (hex_any_digit b))) (hex_digit <$> nibbles r) = true).
  { apply forallb_forall. intros b [n [<- Hin%list_elem_of_In]]%in_map_iff. rewrite Forall_forall in Hn.
    rewrite hex_any_digit_back by auto. by apply bool_decide_eq_true. }
  rewrite Hall. unfold hex_number. rewrite hex_number_digits, nibbles_value by (done || lia).
  cbn [require ok_or mbind result_bind]. destruct (finite_bits r Hr) as [-> ->]. cbn [negb andb require mbind result_bind].
  rewrite parse_pretty by done. cbn [ok_or mbind result_bind]. unfold identifier_new.
  by replace (id <=? 0) with false by lia.
Qed.

(** * Snippets *)

(** A valid text starts with a character: a first byte and continuation bytes,
    whose validity does not depend on what follows. *)
Lemma utf8_character l : utf8_valid l = true ->
  l = [] \/ exists a cs t, l = (a :: cs) ++ t /\ utf8_valid t = true /\
    (forall r, utf8_valid ((a :: cs) ++ r) = utf8_valid r) /\ Forall (fun b => continuation b = true) cs.
Proof.
  assert (Hin : forall low high b, 128 <= low -> high <= 191 -> byte_in low high b = true -> continuation b = true).
  { unfold byte_in, continuation. intros. bool_prop. apply andb_true_iff. lia. }
  destruct l as [|a l]; [by left|]. cbn [utf8_valid]. intros H. right.
  destruct (byte_in 0 127 a) eqn:Ha.
  { exists a, [], l. split_and!; [done..| |done]. intros r. simpl. by rewrite Ha. }
  destruct l as [|b l]; [done|]. destruct (byte_in 194 223 a) eqn:Ha2.
  { bool_prop. exists a, [b], l. split_and!; [done..| |by repeat constructor]. intros r. simpl. by rewrite Ha, Ha2, H. }
  destruct l as [|c l]; [done|]. destruct (byte_in 224 239 a) eqn:Ha3.
  { bool_prop. exists a, [b; c], l. split_and!; [done..| |].
    - intros r. simpl. rewrite Ha, Ha2, Ha3. by repeat match goal with E : _ = true |- _ => rewrite E; clear E end.
    - repeat constructor; [|done]. repeat case_match; [eapply Hin; [| |eassumption]; lia..|done]. }
  destruct l as [|d l]; [done|]. bool_prop. exists a, [b; c; d], l. split_and!; [done..| |].
  - intros r. simpl. rewrite Ha, Ha2, Ha3. by repeat match goal with E : _ = true |- _ => rewrite E; clear E end.
  - repeat constructor; try done. repeat case_match; [eapply Hin; [| |eassumption]; lia..|done].
Qed.

(** A text cut between two characters is a text. *)
Lemma utf8_cut l i : utf8_valid l = true -> is_char_boundary l i = true -> utf8_valid (take i l) = true.
Proof.
  revert i. induction l as [l IH] using (induction_ltof1 _ (@length Z)). unfold ltof in IH. intros i Hl Hi.
  destruct (utf8_character l Hl) as [->|(a & cs & t & -> & Ht & Hh & Hcs)]; [by rewrite take_nil|].
  destruct i as [|i]; [done|]. destruct (decide (length cs <= i)%nat) as [Hge|Hlt].
  - rewrite take_app_ge by (simpl; lia). rewrite Hh. apply IH; [rewrite length_app; simpl; lia|done|].
    unfold is_char_boundary in *. rewrite lookup_app_r in Hi by (simpl; lia).
    destruct (t !! _) as [b|]; [done|]. rewrite length_app in Hi. apply Nat.eqb_eq in Hi. apply Nat.eqb_eq. simpl in *. lia.
  - unfold is_char_boundary in Hi. rewrite lookup_app_l in Hi by (simpl; lia). simpl in Hi.
    destruct (cs !! i) as [b|] eqn:E; [|apply lookup_ge_None in E; lia].
    rewrite Forall_lookup in Hcs. specialize (Hcs _ _ E). simpl in Hcs. unfold continuation in Hcs.
    replace ((128 <=? b) && (b <? 192)) with true in Hi; [done|]. symmetry. bool_prop. lia.
Qed.

Lemma boundary_before_spec bytes n :
  (boundary_before bytes n <= n)%nat /\
  (boundary_before bytes n = 0%nat \/ is_char_boundary bytes (boundary_before bytes n) = true) /\
  forall j, (boundary_before bytes n < j <= n)%nat -> is_char_boundary bytes j = false.
Proof.
  induction n as [|n (Hle & Hb & Hmax)]; cbn [boundary_before]; [split_and!; [lia|by left|intros; lia]|].
  destruct (is_char_boundary bytes (S n)) eqn:E; [split_and!; [lia|by right|intros; lia]|].
  split_and!; [lia|done|]. intros j Hj. destruct (decide (j = S n)) as [->|]; [done|]. apply Hmax. lia.
Qed.

(** A snippet fits its limit, is the beginning of the headline cut between two
    characters, at the last such place within the limit, and is UTF-8 when the
    headline is. *)
Theorem truncated_snippet value maximum :
  0 <= maximum ->
  string_len (truncate_utf8 value maximum) <= maximum /\
  exists n, string_bytes (truncate_utf8 value maximum) = take n (string_bytes value) /\
    (utf8_valid (string_bytes value) = true -> utf8_valid (string_bytes (truncate_utf8 value maximum)) = true) /\
    forall j, (n < j)%nat -> Z.of_nat j <= maximum -> (j <= String.length value)%nat ->
      is_char_boundary (string_bytes value) j = false.
Proof.
  intros Hm. unfold truncate_utf8. destruct (Z.leb_spec (string_len value) maximum) as [Hle|Hgt].
  { split; [done|]. exists (String.length value). rewrite <- string_bytes_length, take_ge by done. split_and!; [done..|]. lia. }
  set (bytes := string_bytes value) in *. destruct (boundary_before_spec bytes (Z.to_nat maximum)) as (Hle & Hb & Hmax).
  set (n := boundary_before bytes (Z.to_nat maximum)) in *.
  assert (Hbytes : string_bytes (text_of (take n bytes)) = take n bytes).
  { apply text_of_bytes, Forall_take, string_bytes_u8. }
  split.
  - unfold string_len. rewrite <- string_bytes_length, Hbytes, length_take. lia.
  - exists n. rewrite Hbytes. split_and!; [done| |].
    + intros Hv. destruct Hb as [->|Hb]; [done|]. by apply utf8_cut.
    + intros j Hj Hjm _. apply Hmax. lia.
Qed.

(** * Hits *)

Section hits.
Context `{PostgresFunctions}.

Lemma post_matches_post query s id row m : m ∈ post_matches query s id row -> m_post_id m = id.
Proof.
  unfold post_matches. destruct (threads s !! _) as [th|]; [|by intros ?%not_elem_of_nil].
  destruct (topics s !! _) as [t|]; [|by intros ?%not_elem_of_nil].
  rewrite !elem_of_app. intros [Hm|[Hm|Hm]]; case_match; try (by apply not_elem_of_nil in Hm);
    by apply list_elem_of_singleton in Hm as ->.
Qed.

Lemma best_match_post query s id row m : best_match query s id row = Some m -> m_post_id m = id.
Proof. intros [Hin _]%first_by_Some. by eapply post_matches_post. Qed.

Definition post_hit (input : ForumSearchInput) (s : ForumState) (entry : Z * PostRow) : list (Match * PostRow) :=
  match best_match (fsi_query input) s entry.1 entry.2 with
  | Some m => if search_filter input entry.2 m then [(m, entry.2)] else []
  | None => []
  end.

Lemma search_hits_elem input s m row :
  (m, row) ∈ search_hits input s <->
  posts s !! m_post_id m = Some row /\ best_match (fsi_query input) s (m_post_id m) row = Some m /\
  search_filter input row m = true.
Proof.
  unfold search_hits. rewrite order_by_perm, list_elem_of_bind. split.
  - intros ([id row'] & Hin & Hp%elem_of_map_to_list). simpl in Hin.
    destruct (best_match _ _ _ _) as [m'|] eqn:E; [|by apply not_elem_of_nil in Hin].
    destruct (search_filter _ _ _) eqn:Ef; [|by apply not_elem_of_nil in Hin].
    apply list_elem_of_singleton in Hin as [= -> ->]. pose proof (best_match_post _ _ _ _ _ E) as ->. done.
  - intros (Hp & Hb & Hf). exists (m_post_id m, row). split; [|by apply elem_of_map_to_list].
    simpl. rewrite Hb, Hf. by left.
Qed.

Lemma post_hit_ids input s (l : list (Z * PostRow)) :
  NoDup l.*1 ->
  NoDup ((fun e => m_post_id e.1) <$> (l ≫= post_hit input s)) /\
  (forall id, id ∈ ((fun e : Match * PostRow => m_post_id e.1) <$> (l ≫= post_hit input s)) -> id ∈ l.*1).
Proof.
  induction l as [|[id row] l IH]; intros Hn; [split; [constructor|done]|].
  rewrite fmap_cons in Hn. apply NoDup_cons in Hn as [Hni Hn]. destruct (IH Hn) as [IHn IHi].
  rewrite bind_cons, fmap_app. unfold post_hit at 1 3. simpl fst. simpl snd.
  destruct (best_match _ _ _ _) as [m|] eqn:E; [|split; [done|intros id' H'; right; by apply IHi]].
  destruct (search_filter _ _ _); [|split; [done|intros id' H'; right; by apply IHi]].
  pose proof (best_match_post _ _ _ _ _ E) as Hid. simpl. rewrite Hid. split.
  - apply NoDup_cons. split; [|done]. intros Hin. apply Hni. by apply IHi.
  - intros id' [->|Hin]%elem_of_cons; [by left|right; by apply IHi].
Qed.

Lemma search_hits_NoDup input s : NoDup ((fun e => m_post_id e.1) <$> search_hits input s).
Proof.
  unfold search_hits. rewrite order_by_perm. apply (post_hit_ids input s). apply NoDup_fst_map_to_list.
Qed.

(** The order of a search, made strict by the identity of the posts. *)
Definition before (a b : Match * PostRow) : Prop := lex_lt (search_order a) (search_order b) = true.

Lemma before_after_cursor x m row :
  after_cursor (Some {| rank_bits := m_rank x.1; cursor_post_id := m_post_id x.1 |}) m = true <-> before x (m, row).
Proof.
  unfold after_cursor, before, search_order. cbn [rank_bits cursor_post_id fst lex_lt].
  rewrite !orb_true_iff, !andb_true_iff, !orb_true_iff, !Z.ltb_lt, !Z.eqb_eq, andb_false_r. intuition lia.
Qed.

Lemma strictly_before (l : list (Match * PostRow)) :
  StronglySorted (fun a b => lex_lt (search_order b) (search_order a) = false) l ->
  NoDup ((fun e => m_post_id e.1) <$> l) -> StronglySorted before l.
Proof.
  induction 1 as [|a l Hl IH Ha]; intros Hn; [constructor|]. rewrite fmap_cons in Hn. apply NoDup_cons in Hn as [Hna Hn].
  constructor; [auto|]. rewrite Forall_forall in *. intros b Hb. specialize (Ha b Hb).
  assert (Hne : m_post_id a.1 <> m_post_id b.1).
  { intros E. destruct Hna. rewrite E. by apply (list_elem_of_fmap_2 (fun e => m_post_id e.1)). }
  unfold before, search_order in *. cbn [lex_lt] in *.
  rewrite orb_false_iff, andb_false_iff, !orb_false_iff, Z.eqb_neq, !Z.ltb_ge in Ha.
  rewrite orb_true_iff, andb_true_iff, orb_true_iff, !Z.ltb_lt, Z.eqb_eq. intuition lia.
Qed.

Lemma search_hits_sorted input s : StronglySorted before (search_hits input s).
Proof. apply strictly_before; [apply order_by_sorted|apply search_hits_NoDup]. Qed.

Lemma before_irrefl a : ~ before a a.
Proof. unfold before. by rewrite lex_lt_irrefl. Qed.

Lemma before_asym a b : before a b -> ~ before b a.
Proof. unfold before. intros Hab Hba. apply lex_lt_asym in Hab. congruence. Qed.

Definition with_cursor (c : ForumSearchCursor) (input : ForumSearchInput) : ForumSearchInput := {|
  fsi_query := fsi_query input; fsi_topic_id := fsi_topic_id input; fsi_thread_id := fsi_thread_id input;
  fsi_author_office := fsi_author_office input; fsi_post_kind := fsi_post_kind input;
  fsi_created_after_micros := fsi_created_after_micros input;
  fsi_created_before_micros := fsi_created_before_micros input; fsi_limit := fsi_limit input;
  fsi_cursor := Some c |}.

Definition hit_position (e : Match * PostRow) : ForumSearchCursor :=
  {| rank_bits := m_rank e.1; cursor_post_id := m_post_id e.1 |}.

(** The cursor of a hit leaves the hits after it. *)
Lemma search_hits_resume input x s :
  fsi_cursor input = None ->
  search_hits (with_cursor (hit_position x) input) s =
  List.filter (fun e => after_cursor (Some (hit_position x)) e.1) (search_hits input s).
Proof.
  intros Hc. apply (StronglySorted_unique_strong before).
  - intros a b _ _ Hab Hba. by destruct (before_asym _ _ Hab).
  - apply search_hits_sorted.
  - apply sorted_filter, search_hits_sorted.
  - apply NoDup_Permutation.
    + eapply NoDup_fmap_1, search_hits_NoDup.
    + apply NoDup_ListNoDup, List.NoDup_filter, NoDup_ListNoDup. eapply NoDup_fmap_1, search_hits_NoDup.
    + intros [m row]. rewrite elem_of_List_filter, !search_hits_elem. unfold search_filter. rewrite Hc. cbn [with_cursor fsi_query fsi_topic_id fsi_thread_id
        fsi_author_office fsi_post_kind fsi_created_after_micros fsi_created_before_micros fsi_cursor fst].
      change (after_cursor None m) with true. rewrite andb_true_r, andb_true_iff. tauto.
Qed.

Lemma post_matches_stable query s s' id row :
  extends s s' -> post_matches query s id row <> [] -> post_matches query s' id row = post_matches query s id row.
Proof.
  intros He. unfold post_matches. destruct (threads s !! _) as [th|] eqn:Eh; [|done].
  rewrite (grows_lookup _ _ _ _ (extends_threads _ _ He) Eh). destruct (topics s !! _) as [t|] eqn:Et; [|done].
  by rewrite (grows_lookup _ _ _ _ (extends_topics _ _ He) Et).
Qed.

(** Hits stay hits, at their rank. *)
Lemma search_hits_kept input s s' e : extends s s' -> e ∈ search_hits input s -> e ∈ search_hits input s'.
Proof.
  destruct e as [m row]. intros He (Hp & Hb & Hf)%search_hits_elem. apply search_hits_elem. split_and!; [|..|done].
  - eapply grows_lookup; [by apply extends_posts|done].
  - unfold best_match in *. rewrite (post_matches_stable _ _ _ _ _ He); [done|]. intros E. by rewrite E in Hb.
Qed.

Lemma search_hits_split input s k x :
  fsi_cursor input = None -> last (take k (search_hits input s)) = Some x ->
  search_hits (with_cursor (hit_position x) input) s = drop k (search_hits input s).
Proof.
  intros Hc Hx. rewrite search_hits_resume by done. pose proof (search_hits_sorted input s) as Hs.
  rewrite <- (take_drop k (search_hits input s)) in Hs at 1. rewrite <- (take_drop k (search_hits input s)) at 1.
  apply last_Some in Hx as [l Hl]. rewrite Hl in *. rewrite List.filter_app, filter_nil, filter_id; [done|..].
  - intros [m row] Hin. apply before_after_cursor with (row := row). eapply (sorted_app_inv before); [exact Hs| |done].
    apply elem_of_app. right. by left.
  - intros [m row] Hin. apply not_true_is_false. intros Ha%(before_after_cursor x m row).
    apply elem_of_app in Hin as [Hin|Hin%list_elem_of_singleton].
    + assert (Hb : before (m, row) x); [|by destruct (before_asym _ _ Ha)].
      rewrite <- (assoc_L (++)) in Hs. eapply (sorted_app_inv before); [exact Hs|done|]. by left.
    + subst x. by apply before_irrefl in Ha.
Qed.

Lemma search_hit_Ok query s input m row :
  related s -> (m, row) ∈ search_hits input s ->
  exists item, search_hit s query (m, row) = Ok item /\ fh_hit_rank_bits item = m_rank m /\ fh_hit_post_id item = m_post_id m.
Proof.
  intros Hr (Hp & Hb & _)%search_hits_elem. destruct (posts_related _ Hr _ _ Hp) as (Hid & Ha & Hk & _).
  assert (Hids : 0 < m_topic_id m /\ 0 < m_thread_id m).
  { unfold best_match in Hb. apply first_by_Some in Hb as [Hin _]. unfold post_matches in Hin.
    destruct (threads s !! _) as [th|] eqn:Eh; [|by apply not_elem_of_nil in Hin].
    destruct (topics s !! _) as [t|] eqn:Et; [|by apply not_elem_of_nil in Hin].
    destruct (threads_related _ Hr _ _ Eh) as [? _], (topics_related _ Hr _ _ Et) as [? _].
    rewrite !elem_of_app in Hin. destruct Hin as [Hin|[Hin|Hin]]; case_match; try (by apply not_elem_of_nil in Hin);
      apply list_elem_of_singleton in Hin as ->; simpl; lia. }
  destruct Hids as [Ht Hh]. unfold search_hit. rewrite !forum_id_Ok by lia. cbn [mbind result_bind].
  destruct (post_kind_back _ Hk) as [kind Ek]. rewrite Ek. cbn [mbind result_bind].
  destruct Ha as (session & role & _ & Ea). rewrite Ea. cbn [ac_office transpose_map].
  assert (Er : office_from_number (office_number role) = Ok role) by by destruct role. rewrite Er.
  eexists. split; [reflexivity|done].
Qed.
End hits.

Definition item_position (item : ForumSearchHit) : Z * Z := (fh_hit_rank_bits item, fh_hit_post_id item).
Definition entry_position (e : Match * PostRow) : Z * Z := (m_rank e.1, m_post_id e.1).

Section continuing.
Context `{PostgresFunctions} (rank_finite : forall text query, 0 <= ts_rank_cd text query < 2139095040).

Lemma hit_rank input s m row : (m, row) ∈ search_hits input s -> 0 <= m_rank m < 2139095040.
Proof.
  intros (_ & Hb & _)%search_hits_elem. unfold best_match in Hb. apply first_by_Some in Hb as [Hin _].
  unfold post_matches in Hin. repeat (case_match; try (by apply not_elem_of_nil in Hin));
    rewrite ?app_nil_l, ?app_nil_r in Hin; repeat (apply elem_of_app in Hin as [Hin|Hin]);
    try (by apply not_elem_of_nil in Hin); apply list_elem_of_singleton in Hin as ->; apply rank_finite.
Qed.

Lemma search_items query input s l :
  related s -> (forall e, e ∈ l -> e ∈ search_hits input s) ->
  exists items, map_ok (search_hit s query) l = Ok items /\ item_position <$> items = entry_position <$> l.
Proof.
  intros Hr. induction l as [|[m row] l IH]; intros Hl; [by exists []|].
  destruct (search_hit_Ok query s input m row Hr) as (item & Ei & E1 & E2); [apply Hl; by left|].
  destruct IH as (items & El & Ep); [intros e Hin; apply Hl; by right|].
  exists (item :: items). cbn [map_ok]. rewrite Ei, El. split; [done|]. rewrite !fmap_cons, Ep.
  unfold item_position at 1, entry_position at 1. by rewrite E1, E2.
Qed.

(** No hit up to the cursor's is found again. *)
Lemma shown_not_found input s s' k x e :
  fsi_cursor input = None -> last (take k (search_hits input s)) = Some x ->
  e ∈ take k (search_hits input s) -> e ∉ search_hits (with_cursor (hit_position x) input) s'.
Proof.
  destruct e as [m row]. intros Hc Hx He. rewrite search_hits_resume by done.
  intros [_ Ha%(before_after_cursor x m row)]%elem_of_List_filter.
  pose proof (search_hits_sorted input s) as Hs. rewrite <- (take_drop k (search_hits input s)) in Hs.
  apply last_Some in Hx as [l Hl]. rewrite Hl in *. apply elem_of_app in He as [He|He%list_elem_of_singleton].
  - assert (Hb : before (m, row) x); [|by destruct (before_asym _ _ Ha)].
    rewrite <- (assoc_L (++)) in Hs. eapply (sorted_app_inv before); [exact Hs|done|]. by left.
  - subst x. by apply before_irrefl in Ha.
Qed.

(** C33: A search is always answered, with the first hits there are: every post once,
    at the rank of its best text, the higher rank and then the earlier post first.
    The cursor a full page ends with is one the socket accepts, and it continues
    the search: with nothing written in between it leaves exactly the hits that
    were not shown; whatever is written in between, no hit is shown again and none
    of the remaining ones is lost. *)
Theorem search_continues blake3 input s s' :
  forum_reachable blake3 s -> rtc (forum_step blake3) s s' ->
  search_input_validate input = Ok tt -> fsi_cursor input = None ->
  is_ok (micros_to_i64 (fsi_created_after_micros input)) = true ->
  is_ok (micros_to_i64 (fsi_created_before_micros input)) = true ->
  let hits := search_hits input s in
  exists items, search input s = Ok items /\
    item_position <$> items = entry_position <$> take (Z.to_nat (fsi_limit input)) hits /\
    forall item, last items = Some item ->
      exists c, cursor_decode (hit_cursor item) = Ok c /\
        search_hits (with_cursor c input) s = drop (length items) hits /\
        (forall e, e ∈ drop (length items) hits -> e ∈ search_hits (with_cursor c input) s') /\
        (forall e, e ∈ take (length items) hits -> e ∉ search_hits (with_cursor c input) s').
Proof.
  intros [_ Hr]%forum_reachable_books Hrun Hvalid Hc Hafter Hbefore hits.
  pose proof (forum_run_extends _ _ _ Hrun) as He. set (n := Z.to_nat (fsi_limit input)).
  apply is_ok_true in Hafter as [after Ea], Hbefore as [before_ Eb].
  destruct (search_items (fsi_query input) input s (take n hits) Hr) as (items & Ei & Ep).
  { intros e Hin. rewrite <- (take_drop n (search_hits input s)). apply elem_of_app. by left. }
  exists items. unfold search. rewrite Hvalid, Ea, Eb. split; [exact Ei|]. split; [done|]. intros item Hlast.
  assert (Hlen : length items = length (take n hits)) by (apply (f_equal length) in Ep; by rewrite !length_fmap in Ep).
  assert (Htake : take (length items) hits = take n hits).
  { rewrite Hlen, length_take. destruct (Nat.le_ge_cases n (length hits)); [by rewrite Nat.min_l|].
    rewrite Nat.min_r by done. by rewrite !take_ge. }
  assert (Hx : exists x, last (take n hits) = Some x /\ entry_position x = item_position item).
  { assert (E : item_position <$> last items = entry_position <$> last (take n hits)) by by rewrite <- !fmap_last, Ep.
    rewrite Hlast in E. destruct (last (take n hits)) as [x|]; [|done]. exists x. split; [done|]. cbn in E. congruence. }
  destruct Hx as ([m row] & Hx & Hpos). injection Hpos as Hrank' Hpost. simpl in Hrank', Hpost. rewrite <- Htake in Hx.
  assert (Hin : (m, row) ∈ hits).
  { rewrite <- (take_drop (length items) hits). apply elem_of_app. left.
    apply last_Some in Hx as [l ->]. apply elem_of_app. right. by left. }
  exists (hit_position (m, row)). split.
  { unfold hit_cursor. rewrite <- Hrank', <- Hpost. apply cursor_round_trip; [by eapply hit_rank|].
    apply search_hits_elem in Hin as (Hp & _). by destruct (posts_related _ Hr _ _ Hp) as [? _]. }
  split_and!; [by apply search_hits_split| |intros e; by apply (shown_not_found _ s)].
  intros e He'. apply (search_hits_kept _ s); [done|]. by rewrite (search_hits_split _ _ (length items)).
Qed.
End continuing.
