(* ===== verification/ForumTexts.v ===== *)
(** What identifies a command of the Forum: the principal determines the bound
    connection, and the fingerprinted bytes determine the command
    ([actor_principal] and the fingerprints of [ForumStore]). *)
From stdpp Require Import pretty.
From S2P Require Import Prelude Values ProcessReads Forum ForumStore ForumProofs Fingerprints DriverCommands.

#[local] Open Scope string_scope.
#[local] Open Scope list_scope.
#[local] Open Scope Z_scope.

(** * Principals *)

Definition id_fits (id : Z) : Prop := 0 < id <= i64_max.

(** The identifiers of a connection are positive [i64]s. *)
Record binding_fits (b : ActorConnectionIdentity) : Prop := {
  fits_session : id_fits (aci_session_id b);
  fits_assignment : id_fits (aci_assignment_id b);
  fits_application : id_fits (aci_application_revision_id b);
  fits_campaign : id_fits (aci_campaign_id b);
}.

Lemma actor_principal_fields b : binding_fits b ->
  fields (actor_principal b) =
  ["actor"; "session"; pretty (aci_session_id b); "assignment"; pretty (aci_assignment_id b);
   "application"; pretty (aci_application_revision_id b); "campaign"; pretty (aci_campaign_id b)].
Proof.
  intros [H1 H2 H3 H4]. unfold actor_principal, id_fits, i64_max in *. repeat rewrite fields_app.
  rewrite !fields_pretty by (unfold u64_max; lia).
  repeat match goal with
  | |- context [fields ?s] => let l := eval vm_compute in (fields s) in change (fields s) with l
  end. cbn [glue]. by rewrite ?append_nil.
Qed.

(** Two connections with one principal are one occurrence of an actor. *)
Lemma actor_principal_inj b b' :
  binding_fits b -> binding_fits b' -> actor_principal b = actor_principal b' ->
  aci_assignment_role b = aci_assignment_role b' -> b = b'.
Proof.
  intros H H' E Er. apply (f_equal fields) in E. rewrite !actor_principal_fields in E by done.
  injection E as E1 E2 E3 E4. apply (inj pretty) in E1, E2, E3, E4. destruct b, b'. simpl in *. congruence.
Qed.

(** The principal fits the audit log's column. *)
Lemma actor_principal_bounds b : binding_fits b -> 1 <= string_len (actor_principal b) <= 160.
Proof.
  intros [H1 H2 H3 H4]. unfold actor_principal. rewrite !string_len_app.
  assert (Hp : forall id, id_fits id -> 1 <= string_len (pretty id) <= 20).
  { intros id Hid. apply pretty_numeral. unfold id_fits, i64_max, u64_max in *. lia. }
  apply Hp in H1, H2, H3, H4.
  change (string_len "actor-session-") with 14. change (string_len "-assignment-") with 12.
  change (string_len "-application-") with 13. change (string_len "-campaign-") with 10. lia.
Qed.

(** * Fingerprints *)

Definition option_fits (id : option Z) : Prop := match id with Some id => word id | None => True end.

Definition attachment_fits (a : ForumAttachmentInput) : Prop := word (fai_artifact_id a) /\ short (fai_label a).

(** The sizes the Rust types of a command guarantee. *)
Definition forum_fits (c : ForumCommand) : Prop :=
  binding_fits (command_binding c) /\ short (client_command_id (command_identity c)) /\
  word (expected_revision (command_identity c)) /\
  match c with
  | CreateTopic _ c => short (fct_name c) /\ short (fct_description c)
  | CreateThread _ c => word (fch_topic_id c) /\ short (fch_title c)
  | SupersedeTopic _ c => word (fst_supersedes_topic_id c) /\ short (fst_name c) /\ short (fst_description c)
  | SupersedeThread _ c => word (fsh_topic_id c) /\ word (fsh_supersedes_thread_id c) /\ short (fsh_title c)
  | AppendPost _ c =>
      let input := fpc_input c in
      word (fpc_thread_id c) /\ short (fpi_body input) /\ option_fits (fpi_reply_to input) /\
      option_fits (fpi_supersedes input) /\ word (Z.of_nat (length (fpi_attachments input))) /\
      Forall attachment_fits (fpi_attachments input)
  end.

Lemma hash_text_app s s' r r' :
  short s -> short s' -> hash_text s ++ r = hash_text s' ++ r' -> s = s' /\ r = r'.
Proof. apply hash_string_app. Qed.

Lemma small_app z w r r' : 0 <= z < 2 ^ 16 -> 0 <= w < 2 ^ 16 ->
  be_bytes 2 z ++ r = be_bytes 2 w ++ r' -> z = w /\ r = r'.
Proof.
  intros Hz Hw E. apply app_inj_1 in E as [E ->]; [|by rewrite !be_bytes_length].
  apply be_bytes_mod in E. change (8 * Z.of_nat 2) with 16 in E. by rewrite !Z.mod_small in E by lia.
Qed.

Lemma optional_app o o' r r' : option_fits o -> option_fits o' ->
  hash_optional_i64 o ++ r = hash_optional_i64 o' ++ r' -> o = o' /\ r = r'.
Proof.
  destruct o as [z|], o' as [z'|]; cbn [hash_optional_i64 app]; intros H H' E; [|done|done|by injection E as ->].
  apply (f_equal List.tl) in E. cbn [List.tl] in E. by apply be_bytes_app in E as [-> ->].
Qed.

Lemma attachments_inj l l' : word (Z.of_nat (length l)) -> word (Z.of_nat (length l')) ->
  Forall attachment_fits l -> Forall attachment_fits l' -> hash_attachments l = hash_attachments l' -> l = l'.
Proof.
  unfold hash_attachments. intros Hl Hl' H H' E. apply be_bytes_app in E as [Elen E]; [|done..].
  clear Hl Hl'. revert l' H' E Elen. induction H as [|[a la] l [Ha Hla] _ IH]; intros l' H' E Elen.
  - by destruct l'.
  - destruct H' as [|[a' la'] l' [Ha' Hla'] H']; [done|]. rewrite !bind_cons in E.
    cbn [fai_artifact_id fai_label] in Ha, Hla, Ha', Hla', E.
    rewrite <- !(assoc_L (++)) in E. apply be_bytes_app in E as [-> E]; [|done..].
    apply hash_text_app in E as [-> E]; [|done..]. f_equal. apply IH; [done|done|]. simpl in Elen. lia.
Qed.

Lemma office_small role : 0 <= office_number role < 2 ^ 16.
Proof. destruct role; simpl; lia. Qed.

Lemma office_inj role role' : office_number role = office_number role' -> role = role'.
Proof. by destruct role, role'. Qed.

Lemma kind_small kind : 0 <= post_kind_number kind < 2 ^ 16.
Proof. destruct kind; simpl; lia. Qed.

Lemma kind_inj kind kind' : post_kind_number kind = post_kind_number kind' -> kind = kind'.
Proof. by destruct kind, kind'. Qed.

(** The prefix determines the connection, the operation and the identity. *)
Lemma prefix_inj b b' op op' i i' r r' :
  binding_fits b -> binding_fits b' -> short op -> short op' ->
  short (client_command_id i) -> short (client_command_id i') ->
  word (expected_revision i) -> word (expected_revision i') ->
  command_prefix b op i ++ r = command_prefix b' op' i' ++ r' -> b = b' /\ op = op' /\ i = i' /\ r = r'.
Proof.
  intros Hb Hb' Ho Ho' Hi Hi' Hr Hr' E. unfold command_prefix in E. rewrite <- !(assoc_L (++)) in E.
  assert (Hp : forall b, binding_fits b -> short (actor_principal b)).
  { intros b0 Hb0. apply actor_principal_bounds in Hb0. unfold short. lia. }
  assert (Hs : forall b, binding_fits b -> option_fits (Some (aci_session_id b))).
  { intros b0 [H0 _ _ _]. unfold id_fits, i64_max in H0. simpl. unfold word. lia. }
  apply hash_text_app in E as [-> E]; [|done..]. apply hash_text_app in E as [Ep E]; [|auto..].
  apply hash_text_app in E as [Ec E]; [|done..]. apply be_bytes_app in E as [Er E]; [|done..].
  cbn [authority_author_columns ac_kind ac_session_id ac_office default] in E.
  apply small_app in E as [_ E]; [|lia..]. apply optional_app in E as [_ E]; [|auto..].
  apply small_app in E as [Eo ->]; [|apply office_small..]. apply office_inj in Eo.
  split_and!; [by apply actor_principal_inj|done| |done]. destruct i, i'. simpl in *. congruence.
Qed.

#[local] Opaque hash_attachments.

(** Reads both sides field by field. *)
Ltac read_forum E :=
  repeat first
    [ apply hash_text_app in E as [? E]; [|done..]
    | apply be_bytes_app in E as [? E]; [|done..]
    | apply small_app in E as [? E]; [|apply kind_small..]
    | apply optional_app in E as [? E]; [|done..] ].

(** The fingerprinted bytes of a command, with the connection it came from,
    determine it: two commands of the Forum have one fingerprint only when they
    are the same command of the same actor occurrence, unless the hash collides. *)
Theorem forum_preimage_injective c c' :
  forum_fits c -> forum_fits c' -> forum_preimage c = forum_preimage c' -> c = c'.
Proof.
  intros (Hb & Hc & Hr & Hf) (Hb' & Hc' & Hr' & Hf') E.
  assert (Hshort : forall c, short (command_operation c)) by by intros [].
  assert (Hop : exists r r', command_prefix (command_binding c) (command_operation c) (command_identity c) ++ r
    = command_prefix (command_binding c') (command_operation c') (command_identity c') ++ r' /\
      forum_preimage c = command_prefix (command_binding c) (command_operation c) (command_identity c) ++ r /\
      forum_preimage c' = command_prefix (command_binding c') (command_operation c') (command_identity c') ++ r').
  { destruct c, c'; eexists _, _; (split; [exact E|split; reflexivity]). }
  destruct Hop as (r & r' & Eop & _). apply prefix_inj in Eop as (Eb & Eo & Ei & _); [|done..].
  destruct c as [b c|b c|b c|b c|b c], c' as [b' c'|b' c'|b' c'|b' c'|b' c']; try discriminate Eo;
    cbn [command_binding command_identity forum_preimage] in *; subst b'; f_equal; clear Eo Hshort r r';
    [unfold topic_preimage in E|unfold thread_preimage in E|unfold supersede_topic_preimage in E
    |unfold supersede_thread_preimage in E|unfold post_preimage in E]; rewrite Ei in E; apply app_inv_head in E.
  1-4: apply (f_equal (fun l => l ++ [])) in E; rewrite <- !(assoc_L (++)) in E;
    repeat match goal with H : _ /\ _ |- _ => destruct H end; read_forum E; destruct c, c'; simpl in *; congruence.
  destruct c as [i th [kind body reply sup att]], c' as [i' th' [kind' body' reply' sup' att']].
  cbn [fpc_identity fpc_thread_id fpc_input fpi_kind fpi_body fpi_reply_to fpi_supersedes fpi_attachments] in *.
  repeat match goal with H : _ /\ _ |- _ => destruct H end. read_forum E. apply attachments_inj in E; [|done..].
  f_equal; [done..|]. f_equal; auto using kind_inj.
Qed.
