(* ===== verification/PublicationProofs.v ===== *)
(** What the publication store promises: every publication is anchored in its own
    application revision, immutable and receipted once, the wire and the store
    accept the same commands, and a fingerprint identifies its command
    ([PublicationStore]). *)
From stdpp Require Import pretty.
From S2P Require Import Prelude Values Contracts Institutional Database ProcessReads PublicationStore.
From S2P Require Import Fingerprints.
From S2P Require TicketStore.

#[local] Open Scope string_scope.
#[local] Open Scope list_scope.
#[local] Open Scope Z_scope.

(** * The wire and the store *)

Lemma publication_id_new_Ok kind value id : identifier_new kind value = Ok id <-> id = value /\ 0 < value.
Proof. unfold identifier_new. destruct (Z.leb_spec value 0); split; [done|lia|by intros [= <-]|by intros [-> _]]. Qed.

Lemma optional_id_Ok kind o r :
  transpose_map (identifier_new kind) o = Ok r <-> r = o /\ forall id, o = Some id -> 0 < id.
Proof.
  rewrite transpose_map_Ok. setoid_rewrite publication_id_new_Ok. split.
  - intros [[-> ->]|(a & b & -> & [-> Ha] & ->)]; split; try done. by intros id [= <-].
  - intros [-> H]. destruct o as [id|]; [right|by left]. exists id, id. auto.
Qed.

Definition input_of (value : PublicationAttachmentWireV2) : PublicationAttachmentInput :=
  {| pai_artifact_id := paw_artifact_id value; pai_label := paw_label value |}.

Lemma attachment_inputs_Ok values inputs :
  map_ok attachment_input values = Ok inputs <->
  inputs = input_of <$> values /\ Forall (fun value => 0 < paw_artifact_id value) values.
Proof.
  revert inputs. induction values as [|value values IH]; intros inputs; simpl.
  { split; [by intros [= <-]|by intros [-> _]]. }
  rewrite bind_Ok. unfold attachment_input. setoid_rewrite bind_Ok. setoid_rewrite publication_id_new_Ok.
  rewrite Forall_cons. split.
  - intros (input & (id & [-> Hid] & [= <-]) & rest & E & [= <-]).
    apply IH in E as [-> H]. done.
  - intros [-> [Hid Hv]]. eexists. split; [by eexists|]. eexists. split; [by apply IH|done].
Qed.

Definition wire_attachment_check (value : PublicationAttachmentWireV2) : result ContractError unit :=
  _ ← identifier_new "artifact ID" (paw_artifact_id value);
  validate_publication_text (paw_label value) "publication attachment label" PUBLICATION_ATTACHMENT_LABEL_MAX_BYTES.

Definition input_check (input : PublicationAttachmentInput) : result PublicationStoreError unit :=
  require (publication_text (pai_label input) PUBLICATION_ATTACHMENT_LABEL_MAX_BYTES) InvalidAttachmentLabel.

Lemma wire_attachment_check_Ok value :
  wire_attachment_check value = Ok tt <-> 0 < paw_artifact_id value /\ input_check (input_of value) = Ok tt.
Proof.
  unfold wire_attachment_check, input_check, validate_publication_text. split.
  - intros E. apply bind_Ok in E as (z & [-> Hz]%publication_id_new_Ok & Ht). apply require_Ok in Ht.
    split; [done|by apply require_run].
  - intros [Hz Ht%require_Ok]. apply bind_Ok. exists (paw_artifact_id value).
    split; [by apply publication_id_new_Ok|by apply require_run].
Qed.

Lemma wire_attachments_Ok e body values :
  for_each_seen paw_artifact_id e wire_attachment_check (fun _ => Ok tt) [body] values = Ok tt <->
  Forall (fun value => 0 < paw_artifact_id value) values /\
  for_each_seen pai_artifact_id DuplicateAttachmentArtifact input_check (fun _ => Ok tt) [body] (input_of <$> values)
  = Ok tt.
Proof.
  rewrite !for_each_seen_Ok, Forall_fmap.
  replace (pai_artifact_id <$> (input_of <$> values)) with (paw_artifact_id <$> values)
    by (by rewrite <- list_fmap_compose).
  setoid_rewrite wire_attachment_check_Ok. rewrite !Forall_forall. unfold compose. firstorder.
Qed.

(** What both check, on the decoded fields. *)
Record sound_fields (r : PublicationCreateRequest) (anchor : InstitutionalReference) (kind : PublicationKind) : Prop := {
  sf_anchor : wire_reference (pcr_anchor r) = Ok anchor;
  sf_kind : publication_kind_parse (pcr_kind r) = Ok kind;
  sf_body : 0 < pcr_body_artifact_id r;
  sf_artifacts : Forall (fun value => 0 < paw_artifact_id value) (pcr_attachments r);
  sf_reply : forall id, pcr_reply_to r = Some id -> 0 < id;
  sf_supersedes : forall id, pcr_supersedes r = Some id -> 0 < id;
}.

Definition command_of (r : PublicationCreateRequest) (anchor : InstitutionalReference) (kind : PublicationKind)
  : CreatePublication := {|
  cp_client_command_id := pcr_client_command_id r; cp_anchor := anchor; cp_kind := kind;
  cp_summary := pcr_summary r; cp_body_artifact_id := pcr_body_artifact_id r;
  cp_attachments := input_of <$> pcr_attachments r; cp_reply_to := pcr_reply_to r;
  cp_supersedes := pcr_supersedes r |}.

Lemma command_from_request_Ok r c :
  command_from_request r = Ok c <-> exists anchor kind, sound_fields r anchor kind /\ c = command_of r anchor kind.
Proof.
  unfold command_from_request. split.
  - intros E. repeat (apply bind_Ok in E as (? & ? & E)). injection E as <-.
    repeat match goal with
    | H : identifier_new _ _ = Ok _ |- _ => apply publication_id_new_Ok in H as [-> ?]
    | H : transpose_map _ _ = Ok _ |- _ => apply optional_id_Ok in H as [-> ?]
    | H : map_ok _ _ = Ok _ |- _ => apply attachment_inputs_Ok in H as [-> ?]
    end.
    eexists _, _. split; [by constructor|done].
  - intros (anchor & kind & [Ha Hk Hb Hat Hr Hs] & ->). rewrite Ha, Hk. cbn [mbind result_bind].
    rewrite (proj2 (publication_id_new_Ok _ _ _) (conj eq_refl Hb)). cbn [mbind result_bind].
    rewrite (proj2 (attachment_inputs_Ok _ _) (conj eq_refl Hat)). cbn [mbind result_bind].
    by rewrite (proj2 (optional_id_Ok _ _ _) (conj eq_refl Hr)), (proj2 (optional_id_Ok _ _ _) (conj eq_refl Hs)).
Qed.

Record sound_command (c : CreatePublication) : Prop := {
  sc_identity : TicketStore.command_component (cp_client_command_id c) = true;
  sc_anchor : can_anchor_publication (cp_anchor c) = true;
  sc_summary : publication_text (cp_summary c) INSTITUTIONAL_SUMMARY_MAX_BYTES = true;
  sc_limit : (Z.of_nat (length (cp_attachments c)) <=? PUBLICATION_MAX_ATTACHMENTS) = true;
  sc_attachments : for_each_seen pai_artifact_id DuplicateAttachmentArtifact input_check (fun _ => Ok tt)
    [cp_body_artifact_id c] (cp_attachments c) = Ok tt;
}.

Lemma validate_publication_Ok c : validate_publication c = Ok tt <-> sound_command c.
Proof.
  unfold validate_publication. fold input_check. split.
  - intros E. repeat (apply bind_Ok in E as ([] & ?%require_Ok & E)). by constructor.
  - intros [Hi Ha Hs Hl Hat]. by rewrite Hi, Ha, Hs, Hl.
Qed.

Lemma request_validate_Ok r :
  request_validate r = Ok tt <-> exists anchor kind, sound_fields r anchor kind /\ sound_command (command_of r anchor kind).
Proof.
  unfold request_validate. fold wire_attachment_check. split.
  - intros E. repeat (apply bind_Ok in E as (? & ? & E)).
    repeat match goal with
    | H : require _ _ = Ok _ |- _ => apply require_Ok in H
    | H : validate_publication_text _ _ _ = Ok _ |- _ => apply require_Ok in H
    | H : identifier_new _ _ = Ok _ |- _ => apply publication_id_new_Ok in H as [-> ?]
    | H : transpose_map _ _ = Ok _ |- _ => apply optional_id_Ok in H as [-> ?]
    | H : for_each_seen _ _ _ _ _ _ = Ok ?u |- _ => destruct u; apply wire_attachments_Ok in H as [? ?]
    end.
    eexists _, _. split; [by constructor|]. constructor; try done. cbn [command_of cp_attachments]. by rewrite length_fmap.
  - intros (anchor & kind & [Ha Hk Hb Hp Hr Hs] & [Hi Hc Ht Hl Hat]).
    cbn [command_of cp_client_command_id cp_anchor cp_summary cp_attachments cp_body_artifact_id] in *.
    rewrite length_fmap in Hl. unfold validate_publication_text, publication_text in *.
    rewrite Hi, Ha, Hk, Hl. cbn [mbind result_bind require]. rewrite Hc, Ht. cbn [mbind result_bind require].
    rewrite (proj2 (publication_id_new_Ok _ _ _) (conj eq_refl Hb)). cbn [mbind result_bind].
    rewrite (proj2 (wire_attachments_Ok _ _ _) (conj Hp Hat)). cbn [mbind result_bind].
    by rewrite (proj2 (optional_id_Ok _ _ _) (conj eq_refl Hr)), (proj2 (optional_id_Ok _ _ _) (conj eq_refl Hs)).
Qed.


(** * Inserts *)

Lemma insert_publication_Ok row s id s1 :
  insert_publication row s = Ok (id, s1) ->
  let application := pb_application_revision_id row in
  id = fresh_id (publications s) /\ s1 = set_publications (<[id := row]> (publications s)) s /\ 0 < id <= i64_max /\
  summary_check (pb_summary row) = true /\
  is_Some (artifacts (kernel s) !! pb_body_artifact_id row) /\
  office_in (kernel s) (pb_authoring_office_id row) application = true /\
  session_in (kernel s) (pb_originating_session_id row) application (pb_authoring_office_id row) = true /\
  forallb (object_exists s application) (column_references (pb_anchor row)) = true /\
  publication_in s application (pb_reply_to_publication_id row) = true /\
  publication_in s application (pb_supersedes_publication_id row) = true.
Proof.
  unfold insert_publication. cbv zeta. intros E. ok_inv E. bool_prop.
  split_and!; try done. pose proof (fresh_id_pos (publications s)). lia.
Qed.

Definition attached_count (m : gmap (Z * Z) AttachmentRow) (publication : Z) : nat :=
  length (List.filter (fun kv => kv.1.1 =? publication) (map_to_list m)).

Lemma attached_count_insert m publication artifact row other :
  m !! (publication, artifact) = None ->
  attached_count (<[(publication, artifact) := row]> m) other =
  ((if (publication =? other)%Z then 1 else 0) + attached_count m other)%nat.
Proof.
  intros Hn. unfold attached_count. rewrite (filter_length_perm _ _ _ (map_to_list_insert _ _ row Hn)). simpl.
  by destruct (publication =? other).
Qed.

Lemma attached_count_none m publication :
  (forall artifact, m !! (publication, artifact) = None) -> attached_count m publication = 0%nat.
Proof.
  intros H. unfold attached_count. destruct (List.filter _ _) as [|[[p a] row] l] eqn:E; [done|exfalso].
  assert (Hin : List.In (p, a, row) (List.filter (fun kv => kv.1.1 =? publication) (map_to_list m))) by (rewrite E; by left).
  apply filter_In in Hin as [Hin Hp]. simpl in Hp. bool_prop. apply list_elem_of_In, elem_of_map_to_list in Hin. congruence.
Qed.

(** The attachments of a new publication: the inputs, under its key. *)
Record attached (application publication : Z) (inputs : list PublicationAttachmentInput) (s : PublicationState)
    (m : gmap (Z * Z) AttachmentRow) : Prop := {
  att_kept : forall key row, publication_attachments s !! key = Some row -> m !! key = Some row;
  att_new : forall key row, m !! key = Some row -> publication_attachments s !! key = Some row \/
    exists input, input ∈ inputs /\ key = (publication, pai_artifact_id input) /\
      row = {| at_application_revision_id := application; at_label := pai_label input |} /\
      is_Some (artifacts (kernel s) !! pai_artifact_id input) /\ 1 <= string_len (pai_label input) <= 160;
  att_count : forall other, attached_count m other =
    ((if (publication =? other)%Z then length inputs else 0) + attached_count (publication_attachments s) other)%nat;
}.

Lemma insert_publication_attachments_Ok publication application inputs s s1 :
  insert_attachments publication application inputs s = Ok s1 ->
  exists m, s1 = set_publication_attachments m s /\ attached application publication inputs s m.
Proof.
  revert s. induction inputs as [|input inputs IH]; intros s E; simpl in E.
  - injection E as <-. exists (publication_attachments s). split; [by destruct s|].
    constructor; auto. intros other. by destruct (publication =? other).
  - apply bind_Ok in E as (s' & Hi & E). unfold insert_attachment in Hi. ok_inv Hi. bool_prop.
    destruct (IH _ E) as (m & -> & [Hk Hn Hc]). exists m. split; [done|]. simpl in *. constructor.
    + intros key row Hl. apply Hk. rewrite lookup_insert_ne; [done|]. congruence.
    + intros key row Hl. destruct (Hn _ _ Hl) as [Hl'|(i & Hin & -> & -> & Ha & Hlen)].
      * apply lookup_insert_Some in Hl' as [[<- <-]|[_ Hl']]; [right|by left].
        exists input. split; [by left|]. split_and!; done || lia.
      * right. exists i. split; [by right|]. split_and!; done || lia.
    + intros other. rewrite Hc, attached_count_insert by done. destruct (publication =? other); simpl; lia.
Qed.

(** * The command *)

Definition publication_receipt (row : AuditRow) : bool := bool_decide (al_operation row = CREATE_PUBLICATION_OPERATION).

(** The row a command inserts. *)
Definition publication_row (application office : Z) (session : option Z) (anchor : AnchorColumns)
    (c : CreatePublication) (at_ : Z) : PublicationRow := {|
  pb_application_revision_id := application; pb_authoring_office_id := office;
  pb_originating_session_id := session; pb_publication_kind := publication_kind_code (cp_kind c);
  pb_summary := cp_summary c; pb_body_artifact_id := cp_body_artifact_id c; pb_anchor := anchor;
  pb_reply_to_publication_id := cp_reply_to c; pb_supersedes_publication_id := cp_supersedes c;
  pb_created_at := at_ |}.

(** The receipt's row. *)
Definition publication_audit (fingerprint : ContentDigest) (receipt : PublicationReceipt) : AuditRow := {|
  al_id := pr_audit_log_id receipt; al_operation := CREATE_PUBLICATION_OPERATION;
  al_command_fingerprint := fingerprint; al_subject_kind := PUBLICATION_SUBJECT;
  al_subject_id := pr_publication_id receipt; al_resulting_revision := pr_resulting_revision receipt |}.

(** The state after: one publication with its attachments, and its receipt. *)
Definition after_publication (key : string * string) (audit : AuditRow) (row : PublicationRow)
    (m : gmap (Z * Z) AttachmentRow) (s : PublicationState) : PublicationState := {|
  kernel := set_audit_log (<[key := audit]> (audit_log (kernel s))) (kernel s);
  objects := objects s;
  publications := <[fresh_id (publications s) := row]> (publications s);
  publication_attachments := m |}.

Section Create.
Variable blake3 : list Z -> ContentDigest.
Variables (application office : Z) (session : option Z) (principal : string).

Definition command_key (c : CreatePublication) : string * string := (principal, cp_client_command_id c).
Definition command_fingerprint (c : CreatePublication) : ContentDigest := blake3 (publication_preimage c).

Lemma pub_id_Ok kind value id : pub_id kind value = Ok id <-> id = value /\ 0 < value.
Proof. unfold pub_id. by rewrite map_err_Ok, publication_id_new_Ok. Qed.

Lemma insert_audit_Ok command_id fingerprint publication revision s id s' :
  insert_audit principal command_id fingerprint publication revision s = Ok (id, s') ->
  audit_log (kernel s) !! (principal, command_id) = None /\
  s' = set_kernel (set_audit_log (<[(principal, command_id) := {|
      al_id := id; al_operation := CREATE_PUBLICATION_OPERATION; al_command_fingerprint := fingerprint;
      al_subject_kind := PUBLICATION_SUBJECT; al_subject_id := publication; al_resulting_revision := revision |}]>
    (audit_log (kernel s))) (kernel s)) s.
Proof. unfold insert_audit, insert_audit_row. intros E. ok_inv E. simplify_eq. by bool_prop. Qed.

(** A command is answered by the receipt of its row in the log: one that was
    there, and then nothing moves, or the one it wrote. *)
Lemma create_Ok c s receipt s' :
  create_from_provenance blake3 application office session principal c s = Ok (receipt, s') ->
  sound_command c /\ 0 < pr_publication_id receipt /\ 0 < pr_audit_log_id receipt /\
  0 <= pr_resulting_revision receipt /\
  audit_log (kernel s') !! command_key c = Some (publication_audit (command_fingerprint c) receipt) /\
  ((pr_was_idempotent_retry receipt = true /\ s' = s) \/
   (pr_was_idempotent_retry receipt = false /\ pr_resulting_revision receipt = revision_initial /\
    audit_log (kernel s) !! command_key c = None /\
    exists anchor row m, anchor_columns (cp_anchor c) = Some anchor /\
      row = publication_row application office session anchor c (now (kernel s)) /\
      pr_publication_id receipt = fresh_id (publications s) /\
      insert_publication row s = Ok (fresh_id (publications s),
        set_publications (<[fresh_id (publications s) := row]> (publications s)) s) /\
      attached application (fresh_id (publications s)) (cp_attachments c) s m /\
      s' = after_publication (command_key c) (publication_audit (command_fingerprint c) receipt) row m s)).
Proof.
  unfold create_from_provenance. intros E. apply bind_Ok in E as ([] & Hv%validate_publication_Ok & E). split; [done|].
  cbv zeta in E. apply bind_Ok in E as (found & Hf & E). fold (command_fingerprint c) in *.
  unfold find_publication in Hf. fold (command_key c) in *. destruct (audit_log (kernel s) !! command_key c) as [row|] eqn:Hrow.
  - ok_inv Hf. unfold require_subject, pub_id in E. ok_inv E.
    repeat match goal with H : identifier_new _ _ = Ok _ |- _ => apply publication_id_new_Ok in H as [-> ?] end.
    simpl in *. bool_prop. split_and!; try done; [|by left].
    rewrite Hrow. unfold publication_audit. simpl. destruct row. simpl in *. congruence.
  - injection Hf as <-. ok_inv E.
    repeat match goal with H : pub_id _ _ = Ok _ |- _ => apply pub_id_Ok in H as [-> ?] end.
    match goal with H : insert_publication _ _ = Ok _ |- _ => pose proof H as Hins; apply insert_publication_Ok in H as (-> & -> & _) end.
    match goal with H : insert_attachments _ _ _ _ = Ok _ |- _ => apply insert_publication_attachments_Ok in H as (m & -> & Hm) end.
    match goal with H : insert_audit _ _ _ _ _ _ = Ok _ |- _ => apply insert_audit_Ok in H as (_ & ->) end.
    cbn [pr_publication_id pr_audit_log_id pr_resulting_revision pr_was_idempotent_retry].
    split_and!; [done|done|done| |right]; [by apply lookup_insert_eq|]. split_and!; [done..|].
    eexists _, _, m. split_and!; [done|reflexivity|done|exact Hins| |reflexivity].
    destruct Hm as [Hk Hn Hc]. by constructor.
Qed.

Definition retried (receipt : PublicationReceipt) : PublicationReceipt := {|
  pr_publication_id := pr_publication_id receipt; pr_resulting_revision := pr_resulting_revision receipt;
  pr_audit_log_id := pr_audit_log_id receipt; pr_was_idempotent_retry := true |}.

Lemma create_retry c s receipt :
  validate_publication c = Ok tt -> 0 < pr_publication_id receipt -> 0 < pr_audit_log_id receipt ->
  0 <= pr_resulting_revision receipt ->
  audit_log (kernel s) !! command_key c = Some (publication_audit (command_fingerprint c) receipt) ->
  create_from_provenance blake3 application office session principal c s = Ok (retried receipt, s).
Proof.
  intros Hv Hp Ha Hr Hl. unfold create_from_provenance. rewrite Hv. cbn [mbind result_bind]. cbv zeta.
  unfold find_publication. unfold command_key, command_fingerprint in Hl. rewrite Hl.
  cbn [al_operation al_command_fingerprint al_resulting_revision publication_audit al_id al_subject_kind al_subject_id].
  rewrite !bool_decide_true by done. replace (0 <=? pr_resulting_revision receipt) with true by lia.
  cbn [mbind result_bind require negb orb pa_subject_kind pa_subject_id pa_audit_log_id pa_resulting_revision].
  unfold require_subject. rewrite Z.eqb_refl. cbn [mbind result_bind require].
  rewrite (proj2 (pub_id_Ok _ _ _) (conj eq_refl Hp)), (proj2 (pub_id_Ok _ _ _) (conj eq_refl Ha)). done.
Qed.

Lemma create_conflict c s row :
  validate_publication c = Ok tt -> audit_log (kernel s) !! command_key c = Some row ->
  al_command_fingerprint row <> command_fingerprint c ->
  create_from_provenance blake3 application office session principal c s
  = Err (PublicationIdempotencyConflict principal (cp_client_command_id c)).
Proof.
  intros Hv Hl Hne. unfold create_from_provenance. rewrite Hv. cbn [mbind result_bind]. cbv zeta.
  unfold find_publication. unfold command_key, command_fingerprint in *. rewrite Hl.
  rewrite (bool_decide_false (al_command_fingerprint row = _)) by done. by rewrite orb_true_r.
Qed.
End Create.

(** * Steps *)

(** The rest of the installation: it writes no publication and no receipt of one,
    and keeps the rows publications refer to. *)
Record elsewhere (s s' : PublicationState) : Prop := {
  els_publications : publications s' = publications s;
  els_attachments : publication_attachments s' = publication_attachments s;
  els_log : forall key row, audit_log (kernel s) !! key = Some row -> audit_log (kernel s') !! key = Some row;
  els_new : forall key row, audit_log (kernel s') !! key = Some row ->
    audit_log (kernel s) !! key = Some row \/ publication_receipt row = false;
  els_artifacts : forall id, is_Some (artifacts (kernel s) !! id) -> is_Some (artifacts (kernel s') !! id);
  els_offices : forall id application,
    office_in (kernel s) id application = true -> office_in (kernel s') id application = true;
  els_sessions : forall id application office,
    session_in (kernel s) id application office = true -> session_in (kernel s') id application office = true;
  els_objects : forall application reference,
    object_exists s application reference = true -> object_exists s' application reference = true;
}.

Section Steps.
Variable blake3 : list Z -> ContentDigest.

(** A request on either socket, or a step of the rest. *)
Inductive publication_step : PublicationState -> PublicationState -> Prop :=
  | actor_step binding r s :
      publication_step s (dispatch_actor_publication blake3 binding r s).2
  | operator_step r s :
      publication_step s (dispatch_operator_publication blake3 r s).2
  | elsewhere_step s s' : elsewhere s s' -> publication_step s s'.

Definition publications_empty (s : PublicationState) : Prop :=
  publications s = ∅ /\ publication_attachments s = ∅ /\
  forall key row, audit_log (kernel s) !! key = Some row -> publication_receipt row = false.

Definition publications_reachable (s : PublicationState) : Prop :=
  exists s0, publications_empty s0 /\ rtc publication_step s0 s.

(** What one step does: nothing, a publication, or a step of the rest. *)
Inductive publication_change (s s' : PublicationState) : Prop :=
  | unchanged : s' = s -> publication_change s s'
  | created application office session principal c receipt anchor row m :
      sound_command c -> audit_log (kernel s) !! command_key principal c = None ->
      anchor_columns (cp_anchor c) = Some anchor ->
      row = publication_row application office session anchor c (now (kernel s)) ->
      pr_publication_id receipt = fresh_id (publications s) -> pr_resulting_revision receipt = revision_initial ->
      insert_publication row s = Ok (fresh_id (publications s),
        set_publications (<[fresh_id (publications s) := row]> (publications s)) s) ->
      attached application (fresh_id (publications s)) (cp_attachments c) s m ->
      s' = after_publication (command_key principal c) (publication_audit (command_fingerprint blake3 c) receipt) row m s ->
      publication_change s s'
  | changed_elsewhere : elsewhere s s' -> publication_change s s'.

Lemma create_change application office session principal c s receipt s' :
  create_from_provenance blake3 application office session principal c s = Ok (receipt, s') -> publication_change s s'.
Proof.
  intros E. apply create_Ok in E as (Hc & _ & _ & _ & _ & [[_ ->]|(_ & Hr & Hn & anchor & row & m & ? & ? & ? & ? & ? & ?)]);
    [by apply unchanged|]. by eapply created.
Qed.

Lemma step_change s s' : publication_step s s' -> publication_change s s'.
Proof.
  intros [binding r s1|r s1|s1 s2 He]; [| |by apply changed_elsewhere].
  - unfold dispatch_actor_publication. destruct (dispatch_publication _ _ _ _) as [[response s2]|] eqn:E; [|by apply unchanged].
    unfold dispatch_publication, create_from_actor in E. ok_inv E. simplify_eq. by eapply create_change.
  - unfold dispatch_operator_publication. destruct (dispatch_create _ _ _) as [[response s2]|] eqn:E; [|by apply unchanged].
    unfold dispatch_create, create_from_operator in E. ok_inv E. simplify_eq. by eapply create_change.
Qed.

(** * Immutability *)

Lemma step_keeps s s' : publication_step s s' ->
  publications s ⊆ publications s' /\
  (forall key row, audit_log (kernel s) !! key = Some row -> audit_log (kernel s') !! key = Some row).
Proof.
  intros [->|a o se p c r an row m Hc Hn Ha -> Hid Hr Hi [Hk Hnew _] ->|He]%step_change; [done| |].
  - split; simpl; [apply table_subseteq_fresh|]. intros key row Hl. rewrite lookup_insert_ne; [done|]. congruence.
  - destruct He as [-> _ Hl]. split; [done|exact Hl].
Qed.

Lemma step_attachments s s' id artifact : publication_step s s' -> is_Some (publications s !! id) ->
  publication_attachments s' !! (id, artifact) = publication_attachments s !! (id, artifact).
Proof.
  intros [->|a o se p c r an row m Hc Hn Ha -> Hid Hr Hi [Hk Hnew _] ->|He]%step_change Hrow; [done| |].
  - simpl. destruct (publication_attachments s !! (id, artifact)) as [w|] eqn:Hw; [by apply Hk|].
    apply eq_None_not_Some. intros [w Hm]. destruct (Hnew _ _ Hm) as [|(i & _ & [= -> _] & _)]; [congruence|].
    rewrite fresh_id_lookup in Hrow. by destruct Hrow.
  - by destruct He as [_ -> _].
Qed.

(** * The invariant *)

(** What a publication refers to, in its own application revision. *)
Record anchored (s : PublicationState) (id : Z) (row : PublicationRow) : Prop := {
  anchored_id : 0 < id <= i64_max;
  anchored_object : exists reference, can_anchor_publication reference = true /\
    anchor_columns reference = Some (pb_anchor row) /\
    object_exists s (pb_application_revision_id row) reference = true;
  anchored_office : office_in (kernel s) (pb_authoring_office_id row) (pb_application_revision_id row) = true;
  anchored_session : session_in (kernel s) (pb_originating_session_id row) (pb_application_revision_id row)
    (pb_authoring_office_id row) = true;
  anchored_links : forall target,
    pb_reply_to_publication_id row = Some target \/ pb_supersedes_publication_id row = Some target ->
    target < id /\ exists other, publications s !! target = Some other /\
      pb_application_revision_id other = pb_application_revision_id row;
  anchored_kind : exists kind, pb_publication_kind row = publication_kind_code kind;
  anchored_summary : summary_check (pb_summary row) = true;
  anchored_body : is_Some (artifacts (kernel s) !! pb_body_artifact_id row);
}.

(** Its attachments: at most eight sealed artifacts, none of them the body. *)
Record attachments_sound (s : PublicationState) (id : Z) (row : PublicationRow) : Prop := {
  ats_rows : forall artifact attachment, publication_attachments s !! (id, artifact) = Some attachment ->
    at_application_revision_id attachment = pb_application_revision_id row /\ artifact <> pb_body_artifact_id row /\
    is_Some (artifacts (kernel s) !! artifact) /\ 1 <= string_len (at_label attachment) <= 160;
  ats_quota : (attached_count (publication_attachments s) id <= 8)%nat;
}.

(** The receipts of publications are those of the rows, one for each. *)
Definition receipted (s : PublicationState) (id : Z) : Prop :=
  exists key row, audit_log (kernel s) !! key = Some row /\ publication_receipt row = true /\
    al_subject_kind row = PUBLICATION_SUBJECT /\ al_subject_id row = id /\ al_resulting_revision row = revision_initial /\
    forall key' row', audit_log (kernel s) !! key' = Some row' -> publication_receipt row' = true ->
      al_subject_id row' = id -> key' = key.

Record publications_sound (s : PublicationState) : Prop := {
  snd_rows : forall id row, publications s !! id = Some row -> anchored s id row /\ attachments_sound s id row /\ receipted s id;
  snd_attachments : forall id artifact, is_Some (publication_attachments s !! (id, artifact)) -> is_Some (publications s !! id);
  snd_receipts : forall key row, audit_log (kernel s) !! key = Some row -> publication_receipt row = true ->
    is_Some (publications s !! al_subject_id row);
}.

(** A later state has every row the publications of an earlier one refer to. *)
Record keeps (s s' : PublicationState) : Prop := {
  kp_publications : publications s ⊆ publications s';
  kp_attachments : forall id artifact, is_Some (publications s !! id) ->
    publication_attachments s' !! (id, artifact) = publication_attachments s !! (id, artifact);
  kp_counts : forall id, is_Some (publications s !! id) ->
    attached_count (publication_attachments s') id = attached_count (publication_attachments s) id;
  kp_artifacts : forall id, is_Some (artifacts (kernel s) !! id) -> is_Some (artifacts (kernel s') !! id);
  kp_offices : forall id application,
    office_in (kernel s) id application = true -> office_in (kernel s') id application = true;
  kp_sessions : forall id application office,
    session_in (kernel s) id application office = true -> session_in (kernel s') id application office = true;
  kp_objects : forall application reference,
    object_exists s application reference = true -> object_exists s' application reference = true;
}.

Lemma keeps_anchored s s' id row : keeps s s' -> anchored s id row -> anchored s' id row.
Proof.
  intros [Hp _ _ Ha Ho Hs Hob] [Hid (r & Hc & Hr & He) Hof Hse Hl Hk Hsu Hb]. constructor; auto; [eauto 6|].
  intros target (? & other & Ht & ?)%Hl. split; [done|]. exists other. split; [by eapply lookup_weaken|done].
Qed.

Lemma keeps_attachments s s' id row : keeps s s' -> is_Some (publications s !! id) ->
  attachments_sound s id row -> attachments_sound s' id row.
Proof.
  intros [_ Hat Hc Ha _ _ _] Hid [Hr Hq]. constructor; [|by rewrite Hc].
  intros artifact w Hw. rewrite Hat in Hw by done. destruct (Hr _ _ Hw) as (? & ? & ? & ?). auto.
Qed.

Lemma created_keeps s key audit row m application c :
  attached application (fresh_id (publications s)) (cp_attachments c) s m -> keeps s (after_publication key audit row m s).
Proof.
  intros [Hk Hn Hc]. constructor; simpl; auto; [apply table_subseteq_fresh| |].
  - intros id artifact Hid. destruct (publication_attachments s !! (id, artifact)) as [w|] eqn:Hw; [by apply Hk|].
    apply eq_None_not_Some. intros [w Hm]. destruct (Hn _ _ Hm) as [|(i & _ & [= -> _] & _)]; [congruence|].
    rewrite fresh_id_lookup in Hid. by destruct Hid.
  - intros id [w Hw]. rewrite Hc. apply fresh_id_gt in Hw. by replace (fresh_id (publications s) =? id) with false by lia.
Qed.

Lemma elsewhere_keeps s s' : elsewhere s s' -> keeps s s'.
Proof. intros [Hp Hat _ _ Ha Ho Hs Hob]. constructor; auto; [by rewrite Hp|by intros; rewrite Hat..]. Qed.

Lemma columns_reference reference anchor : anchor_columns reference = Some anchor -> column_references anchor = [reference].
Proof. destruct reference; intros [= <-]; reflexivity. Qed.

Lemma publication_in_earlier s application target :
  publication_in s application (Some target) = true ->
  target < fresh_id (publications s) /\ exists other, publications s !! target = Some other /\
    pb_application_revision_id other = application.
Proof.
  unfold publication_in. intros (k & other & Hk & Hp)%exists_where_true. bool_prop. subst k.
  split; [by eapply fresh_id_gt|eauto].
Qed.

Lemma created_anchored s application office session anchor c row :
  sound_command c -> anchor_columns (cp_anchor c) = Some anchor ->
  row = publication_row application office session anchor c (now (kernel s)) ->
  insert_publication row s = Ok (fresh_id (publications s),
    set_publications (<[fresh_id (publications s) := row]> (publications s)) s) ->
  anchored s (fresh_id (publications s)) row.
Proof.
  intros Hc Ha -> (_ & _ & Hid & Hsu & Hb & Ho & Hs & Hob & Hr & Hsp)%insert_publication_Ok.
  constructor; try done.
  - exists (cp_anchor c). split_and!; [apply Hc|done|]. cbn [publication_row pb_anchor] in Hob.
    rewrite (columns_reference _ _ Ha) in Hob. simpl in Hob. by bool_prop.
  - intros target [Ht|Ht]; rewrite Ht in *; by apply publication_in_earlier.
  - by eexists.
Qed.

Lemma created_attachments s application office session anchor c row m key audit :
  sound_command c -> publications_sound s ->
  row = publication_row application office session anchor c (now (kernel s)) ->
  attached application (fresh_id (publications s)) (cp_attachments c) s m ->
  attachments_sound (after_publication key audit row m s) (fresh_id (publications s)) row.
Proof.
  intros Hc Hs -> [_ Hn Hcount].
  assert (Hnone : forall artifact, publication_attachments s !! (fresh_id (publications s), artifact) = None).
  { intros artifact. apply eq_None_not_Some. intros H%(snd_attachments _ Hs). rewrite fresh_id_lookup in H. by destruct H. }
  constructor; simpl.
  - intros artifact w Hw. destruct (Hn _ _ Hw) as [|(i & Hin & [= ->] & -> & Ha & Hlen)]; [congruence|]. simpl.
    split_and!; try done; try lia. pose proof (sc_attachments _ Hc) as [Hall _]%for_each_seen_Ok.
    rewrite Forall_forall in Hall. destruct (Hall i Hin) as (_ & _ & Hbody). by apply not_elem_of_cons in Hbody as [? _].
  - rewrite Hcount, Z.eqb_refl, attached_count_none by done. pose proof (sc_limit _ Hc). bool_prop.
    unfold PUBLICATION_MAX_ATTACHMENTS in *. lia.
Qed.

(** One receipt more, of a publication that had none. *)
Lemma created_receipts s key audit row m :
  publications_sound s -> audit_log (kernel s) !! key = None -> publication_receipt audit = true ->
  al_subject_kind audit = PUBLICATION_SUBJECT -> al_subject_id audit = fresh_id (publications s) ->
  al_resulting_revision audit = revision_initial ->
  receipted (after_publication key audit row m s) (fresh_id (publications s)) /\
  forall id, is_Some (publications s !! id) -> receipted s id -> receipted (after_publication key audit row m s) id.
Proof.
  intros Hs Hn Hp Hk Hid Hr. split.
  - exists key, audit. simpl. rewrite lookup_insert_eq. split_and!; try done.
    intros key' row' [[<- _]|[_ Hl]]%lookup_insert_Some Hp' Hid'; [done|].
    pose proof (snd_receipts _ Hs _ _ Hl Hp') as Hsome. rewrite Hid', fresh_id_lookup in Hsome. by destruct Hsome.
  - intros id Hsome (k & w & Hl & Hw & Hwk & Hwid & Hwr & Hu). exists k, w. simpl. split_and!; try done.
    + rewrite lookup_insert_ne; [done|]. congruence.
    + intros key' row' [[<- <-]|[_ Hl']]%lookup_insert_Some Hp' Hid'; [|by eapply Hu].
      rewrite <- Hid', Hid, fresh_id_lookup in Hsome. by destruct Hsome.
Qed.

Lemma elsewhere_receipted s s' id : elsewhere s s' -> receipted s id -> receipted s' id.
Proof.
  intros [_ _ Hl Hn _ _ _ _] (k & w & Hk & Hw & Hwk & Hwid & Hwr & Hu). exists k, w. split_and!; auto.
  intros key' row' Hl' Hp' Hid'. destruct (Hn _ _ Hl') as [|Hno]; [by eapply Hu|congruence].
Qed.

Lemma step_sound s s' : publication_step s s' -> publications_sound s -> publications_sound s'.
Proof.
  intros [->|app office ses principal c r anchor row m Hc Hfree Ha Hrow Hid Hrev Hins Hm ->|He]%step_change Hs; [done| |].
  - set (key := command_key principal c). set (audit := publication_audit (command_fingerprint blake3 c) r).
    pose proof (created_keeps _ key audit row _ _ _ Hm) as Hkeep.
    destruct (created_receipts s key audit row m Hs Hfree) as [Hnew Hold]; try done.
    constructor.
    + intros id row' Hl. cbn [after_publication publications] in Hl.
      apply lookup_insert_Some in Hl as [[<- <-]|[_ Hl]].
      * split_and!; [|by eapply created_attachments|done]. eapply keeps_anchored; [exact Hkeep|by eapply created_anchored].
      * destruct (snd_rows _ Hs _ _ Hl) as (? & ? & ?). assert (is_Some (publications s !! id)) by done.
        split_and!; [by eapply keeps_anchored|by eapply keeps_attachments|by apply Hold].
    + intros id artifact [w Hw]. simpl in *. destruct (att_new _ _ _ _ _ Hm _ _ Hw) as [Hw'|(i & _ & [= -> _] & _)].
      * eapply lookup_weaken_is_Some; [by eapply snd_attachments|apply table_subseteq_fresh].
      * by rewrite lookup_insert_eq.
    + intros k w Hl Hw. simpl in *. apply lookup_insert_Some in Hl as [[<- <-]|[_ Hl]]; [simpl; by rewrite Hid, lookup_insert_eq|].
      eapply lookup_weaken_is_Some; [by eapply snd_receipts|apply table_subseteq_fresh].
  - pose proof (elsewhere_keeps _ _ He) as Hkeep. pose proof He as [Hp Hat Hl Hn _ _ _ _]. constructor.
    + rewrite Hp. intros id row Hrow. destruct (snd_rows _ Hs _ _ Hrow) as (? & ? & ?).
      assert (is_Some (publications s !! id)) by done.
      split_and!; [by eapply keeps_anchored|by eapply keeps_attachments|by eapply elsewhere_receipted].
    + rewrite Hp, Hat. apply Hs.
    + rewrite Hp. intros k w Hk Hw. destruct (Hn _ _ Hk) as [Hk'|]; [by eapply snd_receipts|congruence].
Qed.

Lemma empty_sound s : publications_empty s -> publications_sound s.
Proof.
  intros (Hp & Ha & Hl). constructor.
  - intros id row. by rewrite Hp, lookup_empty.
  - intros id artifact. rewrite Ha, lookup_empty. by intros [].
  - intros key row Hk Hr. by rewrite (Hl _ _ Hk) in Hr.
Qed.

(** C34: In every state the sockets and the rest of the installation reach, a
    publication is anchored: its object, its office, the session it came from and
    the publications it answers or replaces all belong to its own application
    revision, and those are earlier ones; its kind and summary are closed values;
    its body and its attachments, at most eight distinct other artifacts, are
    registered; and it has exactly one receipt. *)
Theorem publications_anchored s :
  publications_reachable s ->
  (forall id row, publications s !! id = Some row ->
    anchored s id row /\ attachments_sound s id row /\ receipted s id) /\
  (forall id artifact, is_Some (publication_attachments s !! (id, artifact)) -> is_Some (publications s !! id)) /\
  forall key row, audit_log (kernel s) !! key = Some row -> publication_receipt row = true ->
    is_Some (publications s !! al_subject_id row).
Proof.
  intros (s0 & H0%empty_sound & Hrun). assert (Hs : publications_sound s).
  { induction Hrun; eauto using step_sound. }
  by destruct Hs.
Qed.

(** * Retries *)

Lemma run_keeps s s' : rtc publication_step s s' ->
  publications s ⊆ publications s' /\
  (forall key row, audit_log (kernel s) !! key = Some row -> audit_log (kernel s') !! key = Some row) /\
  forall id artifact, is_Some (publications s !! id) ->
    publication_attachments s' !! (id, artifact) = publication_attachments s !! (id, artifact).
Proof.
  induction 1 as [s|s s1 s2 Hstep _ (IHp & IHl & IHa)]; [done|]. destruct (step_keeps _ _ Hstep) as [Hp Hl].
  split_and!; [by etrans|by auto|]. intros id artifact Hid.
  rewrite IHa by (by eapply lookup_weaken_is_Some). by apply step_attachments.
Qed.

Lemma dispatch_publication_run binding r s office c :
  request_validate r = Ok tt -> command_from_request r = Ok c -> bound_actor_office (kernel s) binding = Ok office ->
  dispatch_publication blake3 binding r s =
  ('(receipt, s') ← map_err RpcStore (create_from_provenance blake3 (aci_application_revision_id binding) office
     (Some (aci_session_id binding)) ("session:" +:+ pretty (aci_session_id binding)) c s);
   Ok (receipt_response (pcr_request_id r) receipt, s')).
Proof. intros Hv Hc Ho. unfold dispatch_publication, create_from_actor. by rewrite Hv, Hc, Ho. Qed.

(** A publication of an actor commits once: whatever happens after, its row and
    its attachments stay as they are, the same request of the same session, while
    it runs, is answered with the identifiers of the first answer and changes
    nothing, and another command under its identity is refused as a conflict. *)
Theorem publications_commit_once binding r s response s' s'' office :
  dispatch_actor_publication blake3 binding r s = (inl response, s') ->
  rtc publication_step s' s'' -> bound_actor_office (kernel s'') binding = Ok office ->
  (forall id artifact, is_Some (publications s' !! id) ->
    publications s'' !! id = publications s' !! id /\
    publication_attachments s'' !! (id, artifact) = publication_attachments s' !! (id, artifact)) /\
  dispatch_actor_publication blake3 binding r s'' = (inl {|
    prr_request_id := prr_request_id response; prr_audit_id := prr_audit_id response;
    prr_aggregate_revision := prr_aggregate_revision response; prr_publication_id := prr_publication_id response;
    prr_was_idempotent_retry := true |}, s'') /\
  forall r' c c', command_from_request r = Ok c -> command_from_request r' = Ok c' -> request_validate r' = Ok tt ->
    cp_client_command_id c' = cp_client_command_id c ->
    blake3 (publication_preimage c') <> blake3 (publication_preimage c) ->
    dispatch_actor_publication blake3 binding r' s'' = (inr "idempotency_conflict", s'').
Proof.
  intros E Hrun Ho. destruct (run_keeps _ _ Hrun) as (Hp & Hl & Ha). split.
  { intros id artifact Hid. split; [|by apply Ha]. destruct Hid as [w Hw]. rewrite Hw. by eapply lookup_weaken. }
  unfold dispatch_actor_publication in E. destruct (dispatch_publication _ _ _ _) as [[response' s1]|] eqn:Ed; [|done].
  injection E as -> ->. unfold dispatch_publication in Ed. apply bind_Ok in Ed as ([] & Hv%map_err_Ok & Ed).
  apply bind_Ok in Ed as (c & Hc%map_err_Ok & Ed). apply bind_Ok in Ed as ([receipt s1] & E%map_err_Ok & [= <- ->]).
  unfold create_from_actor in E. apply bind_Ok in E as (office' & _ & E).
  apply create_Ok in E as (Hs%validate_publication_Ok & Hid & Haud & Hrev & Hlog & _). apply Hl in Hlog. split.
  - unfold dispatch_actor_publication. rewrite (dispatch_publication_run _ _ _ _ _ Hv Hc Ho).
    rewrite (create_retry _ _ _ _ _ _ _ _ Hs Hid Haud Hrev Hlog). done.
  - intros r' c0 c' Hc0 Hc' Hv' Hkey Hne. rewrite Hc in Hc0. injection Hc0 as <-.
    assert (Hs' : validate_publication c' = Ok tt).
    { apply request_validate_Ok in Hv' as (an & k & Hf & Hsc). apply validate_publication_Ok.
      apply command_from_request_Ok in Hc' as (an' & k' & [Ha' Hk' _ _ _ _] & ->). destruct Hf as [Ha0 Hk0 _ _ _ _].
      congruence. }
    unfold dispatch_actor_publication. rewrite (dispatch_publication_run _ _ _ _ _ Hv' Hc' Ho).
    unfold command_key in Hlog. rewrite <- Hkey in Hlog.
    rewrite (create_conflict _ _ _ _ _ _ _ _ Hs' Hlog) by (simpl; unfold command_fingerprint; congruence). done.
Qed.
(** The fingerprint names neither the office nor the application revision an
    operator selects, and all operators are one principal: the same command for
    another office is answered as a retry of the first, and nothing is published
    for the second. *)
Theorem operator_retry_ignores_office application office application' office' c s receipt s' :
  create_from_operator blake3 application office c s = Ok (receipt, s') ->
  office_in (kernel s') office' application' = true ->
  create_from_operator blake3 application' office' c s' = Ok (retried receipt, s').
Proof.
  unfold create_from_operator, require_active_office. intros E Ho. rewrite Ho.
  apply bind_Ok in E as ([] & _ & E). cbn [mbind result_bind require].
  apply create_Ok in E as (Hs%validate_publication_Ok & ? & ? & ? & Hlog & _). by apply create_retry.
Qed.
End Steps.

(** * The fingerprint

    What the fingerprint of a publication command identifies: its bytes determine
    the command, although the attachments are not counted ([fingerprint] of
    [publication_store.rs]). *)

Definition input_fits (a : PublicationAttachmentInput) : Prop := word (pai_artifact_id a) /\ short (pai_label a).

(** A link is absent or positive, so that absence is a zero of its own. *)
Definition link_fits (link : option Z) : Prop := forall id, link = Some id -> 0 < id < 2 ^ 64.

(** The sizes the Rust types of a command guarantee. *)
Record publication_fits (c : CreatePublication) : Prop := {
  pf_identity : short (cp_client_command_id c);
  pf_anchor : word (reference_id (cp_anchor c));
  pf_summary : short (cp_summary c);
  pf_body : word (cp_body_artifact_id c);
  pf_attachments : Forall input_fits (cp_attachments c);
  pf_reply : link_fits (cp_reply_to c);
  pf_supersedes : link_fits (cp_supersedes c);
}.

Lemma publication_text_app s s' r r' : short s -> short s' ->
  hash_publication_text s ++ r = hash_publication_text s' ++ r' -> s = s' /\ r = r'.
Proof. apply hash_string_app. Qed.

Lemma link_word link : link_fits link -> word (default 0 link).
Proof. destruct link as [id|]; intros H; [|done]. specialize (H _ eq_refl). simpl. unfold word. lia. Qed.

Lemma link_inj link link' : link_fits link -> link_fits link' -> default 0 link = default 0 link' -> link = link'.
Proof.
  destruct link as [id|], link' as [id'|]; intros H H' E; simpl in E; try done; [congruence|..].
  - specialize (H _ eq_refl). lia.
  - specialize (H' _ eq_refl). lia.
Qed.

(** The two links end every command, so the entries before them are read back. *)
Lemma attachments_tail l l' a b a' b' :
  Forall input_fits l -> Forall input_fits l' ->
  hash_publication_attachments l ++ be_bytes 8 a ++ be_bytes 8 b
  = hash_publication_attachments l' ++ be_bytes 8 a' ++ be_bytes 8 b' ->
  l = l' /\ be_bytes 8 a ++ be_bytes 8 b = be_bytes 8 a' ++ be_bytes 8 b'.
Proof.
  unfold hash_publication_attachments. intros H. revert l'. induction H as [|[id label] l [Hid Hl] _ IH]; intros l' H' E.
  - destruct H' as [|[id' label'] l' _ _]; [done|]. exfalso. apply (f_equal (@length Z)) in E.
    rewrite bind_cons in E. unfold hash_publication_text in E. rewrite !length_app, !be_bytes_length in E. simpl in E. lia.
  - destruct H' as [|[id' label'] l' [Hid' Hl'] H'].
    { exfalso. apply (f_equal (@length Z)) in E. rewrite bind_cons in E. unfold hash_publication_text in E.
      rewrite !length_app, !be_bytes_length in E. simpl in E. lia. }
    rewrite !bind_cons in E. cbn [pai_artifact_id pai_label] in *. rewrite <- !(assoc_L (++)) in E.
    apply be_bytes_app in E as [-> E]; [|done..]. apply publication_text_app in E as [-> E]; [|done..].
    apply IH in E as [-> E]; [|done]. done.
Qed.

#[local] Opaque hash_publication_attachments.

Lemma kind_text_short kind : short (object_kind_text kind).
Proof. by destruct kind. Qed.

Lemma publication_kind_text_short kind : short (publication_kind_text kind).
Proof. by destruct kind. Qed.

(** The fingerprinted bytes determine the command: two commands of one principal
    have one fingerprint only when they are the same command, unless the hash
    collides. The attachments carry no count; the two links after them are of
    fixed width, and no entry fits in what they leave. *)
Theorem publication_preimage_injective c c' :
  publication_fits c -> publication_fits c' -> publication_preimage c = publication_preimage c' -> c = c'.
Proof.
  intros [Hi Ha Hs Hb Hat Hr Hsu] [Hi' Ha' Hs' Hb' Hat' Hr' Hsu'] E. unfold publication_preimage in E.
  apply publication_text_app in E as [_ E]; [|done..]. apply publication_text_app in E as [Ei E]; [|done..].
  apply publication_text_app in E as [Ek E]; [|apply kind_text_short..]. apply be_bytes_app in E as [Eid E]; [|done..].
  apply publication_text_app in E as [Ep%publication_kind_text_inj E]; [|apply publication_kind_text_short..].
  apply publication_text_app in E as [Esum E]; [|done..]. apply be_bytes_app in E as [Eb E]; [|done..].
  apply attachments_tail in E as [Eat E]; [|done..].
  apply be_bytes_app in E as [Er E]; [|by apply link_word..].
  rewrite <- (app_nil_r (be_bytes 8 (default 0 (cp_supersedes c)))) in E.
  rewrite <- (app_nil_r (be_bytes 8 (default 0 (cp_supersedes c')))) in E.
  apply be_bytes_app in E as [Esup _]; [|by apply link_word..].
  apply link_inj in Er; [|done..]. apply link_inj in Esup; [|done..]. pose proof (reference_inj _ _ Ek Eid).
  destruct c, c'. simpl in *. congruence.
Qed.
