(* ===== verification/ForumScenario.v ===== *)
(** A topic with its threads and posts, read in pages and searched: the theorems
    on the Forum at a concrete history ([ForumProofs], [ForumPages],
    [ForumSearch], [ForumTexts]). *)
From stdpp Require Import pretty.
From S2P Require Import Prelude Values Database Scenario ProcessReads Forum ForumStore.
From S2P Require Import ForumProofs ForumPages ForumSearch Fingerprints ForumTexts.

#[local] Open Scope string_scope.
#[local] Open Scope list_scope.
#[local] Open Scope Z_scope.

(** A text matches a query it contains, and ranks by its length. *)
#[local] Instance containment : PostgresFunctions := {|
  text_matches text query := has_infix (string_bytes query) (string_bytes text);
  ts_rank_cd text _ := Z.min (string_len text) 1000;
  ts_headline text _ := text;
  epoch_micros t := Z.max 0 t;
  timestamp_of_micros micros := micros |}.

Lemma containment_epoch t : 0 <= epoch_micros t.
Proof. simpl. lia. Qed.

Lemma containment_ranks text query : 0 <= ts_rank_cd text query < 2139095040.
Proof. simpl. unfold string_len. lia. Qed.

Definition forum0 : ForumState := {|
  authority := installation; topics := ∅; threads := ∅; posts := ∅; attachments := ∅ |}.

Definition product_actor : ActorConnectionIdentity := {|
  aci_session_id := 1; aci_assignment_id := 1; aci_application_revision_id := 1; aci_campaign_id := 1;
  aci_assignment_role := ProductResearch |}.

Definition identity (n : Z) : ForumMutationIdentity :=
  {| client_command_id := "forum-" +:+ pretty n; expected_revision := n |}.

Definition open_topic : ForumCommand := CreateTopic product_actor {|
  fct_identity := identity 0; fct_name := "kernel"; fct_description := "durable state" |}.
Definition open_thread : ForumCommand := CreateThread product_actor {|
  fch_identity := identity 1; fch_topic_id := 1; fch_title := "restart gate" |}.
Definition post (n : Z) (kind : ForumPostKind) (body : string) (reply : option Z) (artifacts : list Z) : ForumCommand :=
  AppendPost product_actor {|
    fpc_identity := identity n; fpc_thread_id := 1;
    fpc_input := {| fpi_kind := kind; fpi_body := body; fpi_reply_to := reply; fpi_supersedes := None;
                    fpi_attachments := (fun id => {| fai_artifact_id := id; fai_label := "log" |}) <$> artifacts |} |}.
Definition question : ForumCommand := post 2 Question "does the gate hold?" None [].
Definition finding : ForumCommand := post 3 Finding "the gate holds" (Some 1) [1; 2].
Definition rename : ForumCommand := SupersedeThread product_actor {|
  fsh_identity := identity 4; fsh_topic_id := 1; fsh_supersedes_thread_id := 1; fsh_title := "restore gate" |}.
Definition correction : ForumCommand := post 5 Correction "the gate holds but for one receipt" (Some 2) [].

Fixpoint forum_run (s : ForumState) (commands : list ForumCommand) : option ForumState :=
  match commands with
  | [] => Some s
  | c :: commands =>
      match execute_forum checksum c s with Ok (_, s') => forum_run s' commands | Err _ => None end
  end.

Lemma forum_run_steps commands : Forall forum_typed commands ->
  forall s s', forum_run s commands = Some s' -> rtc (forum_step checksum) s s'.
Proof.
  induction 1 as [|c commands Hc _ IH]; intros s s' E; simpl in E; [injection E as <-; constructor|].
  destruct (execute_forum checksum c s) as [[r s1]|] eqn:Es; [|done].
  econstructor; [by eapply forum_command_step|auto].
Qed.

Definition is_some {A} (o : option A) : bool := match o with Some _ => true | None => false end.

Definition forum_after (commands : list ForumCommand) : ForumState := default forum0 (forum_run forum0 commands).

Lemma forum_after_run commands :
  Forall forum_typed commands -> is_some (forum_run forum0 commands) = true ->
  rtc (forum_step checksum) forum0 (forum_after commands).
Proof.
  intros Ht H. apply (forum_run_steps commands); [done|]. unfold forum_after. by destruct (forum_run _ _).
Qed.

Definition asked : ForumState := forum_after [open_topic; open_thread; question; finding].
Definition corrected : ForumState := default asked (forum_run asked [rename; correction]).

Lemma forum0_empty : forum_empty forum0.
Proof. split_and!; reflexivity. Qed.

Lemma asked_reachable : forum_reachable checksum asked.
Proof.
  exists forum0. split; [exact forum0_empty|]. apply forum_after_run; [by repeat constructor|by vm_compute].
Qed.

Lemma corrected_run : forum_run asked [rename; correction] = Some corrected.
Proof.
  assert (H : is_some (forum_run asked [rename; correction]) = true) by by vm_compute.
  unfold corrected. by destruct (forum_run asked _).
Qed.

Lemma asked_corrected : rtc (forum_step checksum) asked corrected.
Proof. apply (forum_run_steps [rename; correction]); [by repeat constructor|exact corrected_run]. Qed.

Example forum_counts : forum_status corrected = Ok (6, {| topic_count := 1; thread_count := 2; post_count := 3;
  attachment_count := 2; audit_count := 6 |}).
Proof. by vm_compute. Qed.

(** A reply to a post of another thread is refused. *)
Example foreign_reply_refused :
  execute_forum checksum (AppendPost product_actor {|
    fpc_identity := identity 6; fpc_thread_id := 2;
    fpc_input := {| fpi_kind := Note; fpi_body := ""; fpi_reply_to := Some 1; fpi_supersedes := None;
                    fpi_attachments := [] |} |}) corrected
  = Err (ForumDatabase "relation target must be earlier and in the same thread").
Proof. by vm_compute. Qed.

Lemma forum_records_receipted_witness :
  subject_of <$> forum_receipts asked ≡ₚ records asked /\
  al_resulting_revision <$> forum_receipts asked ≡ₚ seqZ 1 (Z.of_nat (length (records asked))) /\
  current_forum_revision asked = Ok (Z.of_nat (length (records asked))) /\ related asked.
Proof. apply (forum_records_receipted checksum), asked_reachable. Defined.

Definition opened : ForumState := forum_after [open_topic].

Lemma opened_first :
  execute_forum checksum open_topic forum0 = Ok ({| frc_id := 1; frc_resulting_revision := 1; frc_audit_log_id := 1;
    frc_was_idempotent_retry := false |}, opened).
Proof. vm_compute. reflexivity. Qed.

Lemma forum_commands_commit_once_witness :
  topics opened ⊆ topics opened /\ threads opened ⊆ threads opened /\ posts opened ⊆ posts opened /\
  attachments opened ⊆ attachments opened /\
  execute_forum checksum open_topic opened = Ok ({| frc_id := 1; frc_resulting_revision := 1;
    frc_audit_log_id := 1; frc_was_idempotent_retry := true |}, opened).
Proof.
  apply (forum_commands_commit_once checksum open_topic {| frc_id := 1; frc_resulting_revision := 1;
    frc_audit_log_id := 1; frc_was_idempotent_retry := false |} forum0 opened opened).
  - by split.
  - exact opened_first.
  - constructor.
Defined.

(** Two posts on the first page, then a thread and a post are written, and the
    second page holds the third post and ends. *)
Definition page (cursor : string) (s : ForumState) : list ForumPostViewV2 :=
  match ask_posts 1 2 cursor s with Ok (items, _) => items | Err _ => [] end.

Lemma reads_pages : reading checksum 1 2 corrected "" (page "" asked ++ page "2" corrected).
Proof.
  eapply (reading_next _ _ _ asked "2"); [|done|exact asked_corrected|vm_compute; reflexivity].
  constructor; [exact asked_reachable|]. vm_compute. reflexivity.
Qed.


Definition gate_search : ForumSearchInput := {|
  fsi_query := "gate"; fsi_topic_id := Some 1; fsi_thread_id := None; fsi_author_office := None;
  fsi_post_kind := None; fsi_created_after_micros := None; fsi_created_before_micros := None;
  fsi_limit := 1; fsi_cursor := None |}.

(** Both posts rank by their own text, which is longer than the title of their
    thread, and the longer one comes first. *)
Example gate_found :
  (fun e => (entry_position e, m_source_precedence e.1)) <$> search_hits gate_search asked
  = [((19, 1), 0); ((14, 2), 0)].
Proof. vm_compute. reflexivity. Qed.

Lemma search_continues_witness :
  exists items, search gate_search asked = Ok items /\
    item_position <$> items = entry_position <$> take (Z.to_nat 1) (search_hits gate_search asked) /\
    forall item, last items = Some item ->
      exists c, cursor_decode (hit_cursor item) = Ok c /\
        search_hits (with_cursor c gate_search) asked = drop (length items) (search_hits gate_search asked) /\
        (forall e, e ∈ drop (length items) (search_hits gate_search asked) ->
          e ∈ search_hits (with_cursor c gate_search) corrected) /\
        (forall e, e ∈ take (length items) (search_hits gate_search asked) ->
          e ∉ search_hits (with_cursor c gate_search) corrected).
Proof.
  apply (search_continues containment_ranks checksum gate_search asked corrected);
    [exact asked_reachable|exact asked_corrected|reflexivity..].
Defined.

Lemma cursor_round_trip_witness :
  cursor_decode (cursor_encode {| rank_bits := 1036831949; cursor_post_id := 12 |})
  = Ok {| rank_bits := 1036831949; cursor_post_id := 12 |}.
Proof. apply cursor_round_trip; unfold i64_max; simpl; lia. Defined.

(** A cut inside the two bytes of a character steps back before it. *)
Lemma truncated_snippet_witness :
  truncate_utf8 "aé" 2 = "a" /\
  (string_len (truncate_utf8 "aé" 2) <= 2 /\
   exists n, string_bytes (truncate_utf8 "aé" 2) = take n (string_bytes "aé") /\
    (utf8_valid (string_bytes "aé") = true -> utf8_valid (string_bytes (truncate_utf8 "aé" 2)) = true) /\
    forall j, (n < j)%nat -> Z.of_nat j <= 2 -> (j <= String.length "aé")%nat ->
      is_char_boundary (string_bytes "aé") j = false).
Proof. split; [reflexivity|]. apply (truncated_snippet "aé" 2). lia. Defined.

Lemma forum_preimage_injective_witness : open_topic = open_topic.
Proof.
  apply forum_preimage_injective; [| |reflexivity].
  all: split_and!; try reflexivity; [constructor; unfold id_fits, i64_max; simpl; lia|unfold word; simpl; lia|..];
    split; unfold short, string_len; simpl; lia.
Defined.
