(* ===== verification/PublicationScenario.v ===== *)
(** A question and its answer, published by a running session and by the operator:
    the theorems on publications at a concrete history ([PublicationProofs],
    [PublicationTexts]). *)
From stdpp Require Import pretty.
From S2P Require Import Prelude Values Database Scenario ProcessReads ProcessScenario.
From S2P Require Import Institutional PublicationStore PublicationProofs Fingerprints.

#[local] Open Scope string_scope.
#[local] Open Scope list_scope.
#[local] Open Scope Z_scope.

(** A running session beside an RFC of its application revision. *)
Definition bookless : PublicationState := {|
  kernel := processed to_session; objects := [(IrRfc 3, 1)]; publications := ∅; publication_attachments := ∅ |}.

Definition running : ActorConnectionIdentity := {|
  aci_session_id := 1; aci_assignment_id := 1; aci_application_revision_id := 1; aci_campaign_id := 1;
  aci_assignment_role := ProductResearch |}.

Definition asking : PublicationCreateRequest := {|
  pcr_request_id := "r-1"; pcr_client_command_id := "ask"; pcr_anchor := from_reference (IrRfc 3);
  pcr_kind := "question"; pcr_summary := "does the gate hold?"; pcr_body_artifact_id := 1;
  pcr_attachments := [{| paw_artifact_id := 2; paw_label := "log" |}; {| paw_artifact_id := 3; paw_label := "trace" |}];
  pcr_reply_to := None; pcr_supersedes := None |}.

Definition answering : OperatorPublicationCreateRequest := {|
  opr_request_id := "r-2"; opr_client_command_id := "answer"; opr_application_revision_id := 1;
  opr_authoring_office_id := 2; opr_anchor := from_reference (IrRfc 3); opr_kind := "finding";
  opr_summary := "it does"; opr_body_artifact_id := 2; opr_attachments := []; opr_reply_to := Some 1;
  opr_supersedes := None |}.

Definition asked : PublicationState := (dispatch_actor_publication checksum running asking bookless).2.
Definition answered : PublicationState := (dispatch_operator_publication checksum answering asked).2.

Lemma bookless_empty : publications_empty bookless.
Proof.
  split_and!; [reflexivity..|]. intros key row Hk.
  assert (H : forallb (fun kv => negb (publication_receipt kv.2)) (map_to_list (audit_log (kernel bookless))) = true)
    by by vm_compute.
  apply elem_of_map_to_list in Hk. rewrite forallb_forall in H. apply list_elem_of_In, H in Hk. by bool_prop.
Qed.

Lemma publication_asked_reachable : publications_reachable checksum asked.
Proof. exists bookless. split; [exact bookless_empty|]. eapply rtc_once, actor_step. Qed.

Lemma publication_answered_reachable : publications_reachable checksum answered.
Proof.
  destruct publication_asked_reachable as (s0 & H0 & Hrun). exists s0. split; [done|]. eapply rtc_r; [exact Hrun|]. apply operator_step.
Qed.

Lemma asked_response : dispatch_actor_publication checksum running asking bookless = (inl {|
  prr_request_id := "r-1"; prr_audit_id := 4; prr_aggregate_revision := 0; prr_publication_id := 1;
  prr_was_idempotent_retry := false |}, asked).
Proof.
  unfold asked. destruct (dispatch_actor_publication _ _ _ _) as [r s] eqn:E.
  assert (H : (dispatch_actor_publication checksum running asking bookless).1 = inl {|
    prr_request_id := "r-1"; prr_audit_id := 4; prr_aggregate_revision := 0; prr_publication_id := 1;
    prr_was_idempotent_retry := false |}) by by vm_compute.
  rewrite E in H. simpl in *. by rewrite H.
Qed.

Example answer_published :
  (fun row => (pb_authoring_office_id row, pb_originating_session_id row, pb_reply_to_publication_id row))
    <$> publications answered !! 2 = Some (2, None, Some 1) /\
  attached_count (publication_attachments answered) 1 = 2%nat.
Proof. by vm_compute. Qed.

(** A line break is a summary both sets of checks accept and the column refuses. *)
Definition broken_line : PublicationCreateRequest := {|
  pcr_request_id := "r-3"; pcr_client_command_id := "note"; pcr_anchor := from_reference (IrOffice 1);
  pcr_kind := "note"; pcr_summary := "one" +:+ String (Ascii.ascii_of_nat 10) "two"; pcr_body_artifact_id := 1;
  pcr_attachments := []; pcr_reply_to := None; pcr_supersedes := None |}.

Lemma line_break_refused :
  request_validate broken_line = Ok tt /\
  dispatch_publication checksum running broken_line asked
  = Err (RpcStore (PublicationDatabase "publications_summary_check")).
Proof. split; [reflexivity|]. by vm_compute. Qed.

(** An experiment run is no anchor. *)
Example run_anchor_refused :
  request_validate {|
    pcr_request_id := "r-4"; pcr_client_command_id := "note"; pcr_anchor := from_reference (IrExperimentRun 1);
    pcr_kind := "note"; pcr_summary := "s"; pcr_body_artifact_id := 1; pcr_attachments := []; pcr_reply_to := None;
    pcr_supersedes := None |}
  = Err (InvalidValue "publication anchor" "must be an institutional object, not a run or publication").
Proof. reflexivity. Qed.

Lemma publications_anchored_witness :
  (exists row, publications answered !! 2 = Some row /\ anchored answered 2 row) /\
  (exists row, publications answered !! 1 = Some row /\ attachments_sound answered 1 row /\ receipted answered 1).
Proof.
  destruct (publications_anchored checksum answered publication_answered_reachable) as (Hrows & _).
  assert (Hsome : forall id, bool_decide (is_Some (publications answered !! id)) = true ->
    exists row, publications answered !! id = Some row) by (intros id [row Hrow]%bool_decide_eq_true; eauto).
  split.
  - destruct (Hsome 2) as [row Hrow]; [by vm_compute|]. exists row. split; [done|]. by apply Hrows.
  - destruct (Hsome 1) as [row Hrow]; [by vm_compute|]. exists row. split; [done|]. by apply Hrows.
Defined.

Lemma publications_commit_once_witness :
  dispatch_actor_publication checksum running asking answered = (inl {|
    prr_request_id := "r-1"; prr_audit_id := 4; prr_aggregate_revision := 0; prr_publication_id := 1;
    prr_was_idempotent_retry := true |}, answered).
Proof.
  refine (proj1 (proj2 (publications_commit_once checksum running asking bookless _ asked answered 1 asked_response _ _))).
  - eapply rtc_once, operator_step.
  - by vm_compute.
Defined.

Definition asked_command : CreatePublication := {|
  cp_client_command_id := "ask"; cp_anchor := IrRfc 3; cp_kind := PubQuestion; cp_summary := "does the gate hold?";
  cp_body_artifact_id := 1; cp_attachments := [{| pai_artifact_id := 2; pai_label := "log" |}]; cp_reply_to := None;
  cp_supersedes := Some 1 |}.

Lemma asked_command_fits : publication_fits asked_command.
Proof.
  constructor; try done; [|by intros id [= <-]]. by apply Forall_singleton.
Qed.

Lemma publication_preimage_injective_witness :
  publication_fits asked_command /\ (publication_preimage asked_command = publication_preimage asked_command ->
    asked_command = asked_command).
Proof.
  split; [exact asked_command_fits|].
  intros E. exact (publication_preimage_injective _ _ asked_command_fits asked_command_fits E).
Defined.
