(* ===== verification/Recovery.v ===== *)
(** Recovery the driver selects is not refused: a failed Engineering or Quality
    attempt that its reads report is retried by the command it builds from them,
    and a Product session that proposed nothing closes the campaign once its
    assignments are used up. *)
From stdpp Require Import pretty.
From S2P Require Import Prelude Values Contracts Database Lifecycle Refinement History Invariants Guards.
From S2P Require Import TicketStore BufferStatus Effects CampaignDriver DriverRuns LaunchRuns DriverCommands.
From S2P Require Import Kernel ProcessRefinement Accounting Economy Scenario ProcessScenario DriverScenario.
From S2P Require ProcessStore ProcessReads.

(** * What the reads report *)

Lemma in_flight_revision_Some db a tr :
  tickets_wf db -> in_flight_revision db a = Some tr ->
  exists t, ticket_at db (ta_ticket_revision_id (ta_claim a)) TICKET_IN_FLIGHT tr t.
Proof.
  unfold in_flight_revision. intros Hwf ([tr' t] & Hj & H)%bind_Some.
  destruct (_ && _) eqn:Eb in H; [|discriminate]. injection H as ->. bool_prop.
  apply ticket_join_Some in Hj as [Htr Ht]. exists t.
  destruct (ticket_at_well_formed _ _ _ Hwf Htr) as (t' & [? Ht' ? ? ? ? ?] & _).
  assert (t' = t) as -> by congruence. by constructor.
Qed.

Lemma recoverable_engineering_read db id r :
  tickets_wf db -> recoverable_engineering_failure db id = Ok (Some r) ->
  exists a tr t,
    attempt_at db (ef_ticket_attempt_id r) a tr t TICKET_IN_FLIGHT /\
    recoverable_engineering db id (ef_ticket_attempt_id r) a = true /\
    0 < ef_ticket_attempt_id r /\ ef_attempt_revision r = ta_revision a /\ 0 <= ta_revision a /\
    ef_ticket_revision r = tr_revision tr.
Proof.
  unfold recoverable_engineering_failure.
  intros Hwf [[_ [=]]|([[i a] tr] & r' & Hsel & Hread & [= <-])]%transpose_map_Ok.
  apply bind_Some in Hsel as ([i' a'] & Hfirst & (tr' & Htr & [= -> -> ->])%bind_Some).
  apply first_by_Some in Hfirst as [[Ha Hp]%rows_where_elem _].
  ok_inv Hread. read_steps. simpl.
  destruct (in_flight_revision_Some db a tr Hwf Htr) as [t Ht].
  exists a, tr, t. by split_and!.
Qed.

Lemma recoverable_quality_read db id q :
  tickets_wf db -> recoverable_quality_failure db id = Ok (Some q) ->
  exists a tr t c,
    attempt_at db (da_ticket_attempt_id q) a tr t TICKET_IN_FLIGHT /\
    recoverable_quality db id (da_ticket_attempt_id q) a = true /\
    candidates db !! da_candidate_id q = Some c /\
    recoverable_candidate db (da_ticket_attempt_id q) a (da_candidate_id q) c = true /\
    0 < da_ticket_attempt_id q /\ 0 < da_candidate_id q /\
    da_ticket_attempt_revision q = ta_revision a /\ 0 <= ta_revision a /\
    da_ticket_revision q = tr_revision tr /\ da_stage q = ReworkQuality.
Proof.
  unfold recoverable_quality_failure.
  intros Hwf [[_ [=]]|([[[i a] tr] [ci c]] & r' & Hsel & Hread & [= <-])]%transpose_map_Ok.
  apply bind_Some in Hsel as ([i' a'] & Hfirst & (tr' & Htr & ([ci' c'] & Hc & [= -> -> -> -> ->])%bind_Some)%bind_Some).
  apply first_by_Some in Hfirst as [[Ha Hp]%rows_where_elem _].
  apply first_by_Some in Hc as [[Hc Hpc]%rows_where_elem _].
  ok_inv Hread. read_steps. simpl.
  destruct (in_flight_revision_Some db a tr Hwf Htr) as [t Ht].
  exists a, tr, t, c. by split_and!.
Qed.

(** * Retries that succeed *)

(** The identity columns of an attempt's ticket revision are positive. *)
Definition attempt_ids_positive (a : TicketAttemptRow) (tr : TicketRevisionRow) : Prop :=
  0 < ta_ticket_revision_id (ta_claim a) /\ contract_ids_positive tr.

Lemma lock_ticket_attempt_run db id a tr t :
  attempt_at db id a tr t TICKET_IN_FLIGHT -> attempt_ids_positive a tr -> 0 <= ta_revision a ->
  exists l, lock_ticket_attempt db id = Ok l /\ al_ticket_state l = InFlight /\
    al_stage l = ta_stage a /\ al_released l = bool_decide (is_Some (ta_released_at a)) /\
    al_revision l = ta_revision a /\ al_ticket_revision l = tr_revision tr.
Proof.
  intros [Ha [Htr Ht Hc Hs Hts Hrev Hn]] (Hid & H1 & H2 & H3 & H4) Hr.
  assert (Hrun : exists l, lock_ticket_attempt db id = Ok l /\ al_ticket_state l = InFlight).
  { unfold lock_ticket_attempt. rewrite Ha. simpl.
    rewrite (proj2 (ticket_join_Some db _ tr t)) by done. simpl.
    rewrite (new_id_run _ (ta_ticket_revision_id _)) by done. simpl. rewrite Hc, Z.eqb_refl, Hs, Hts. simpl.
    rewrite Hrev, Z.eqb_refl, !new_id_run by done. simpl.
    rewrite !revision_from_sql_run by lia. simpl. eauto. }
  destruct Hrun as (l & Hl & Hstate). exists l. split_and!; try done.
  all: destruct (ts_lock_ticket_attempt _ _ _ Hl) as (a' & tr' & t' & [Ha' [Htr' _ _ _ _ _ _]] & _ & E);
    assert (a' = a) as -> by congruence; assert (tr' = tr) as -> by congruence; by destruct_and! E.
Qed.

(** The state a retried attempt is left in. *)
Definition retried (id stage : Z) (db db' : Database) : Prop :=
  exists a a', ticket_attempts db !! id = Some a /\ ticket_attempts db' !! id = Some a' /\
    ta_claim a' = ta_claim a /\ ta_stage a' = stage /\ ta_revision a' = ta_revision a + 1.

Lemma retry_writes db id a stage failed sql op p c fp kind r :
  ticket_attempts db !! id = Some a -> audit_log db !! (p, c) = None -> 0 < id ->
  sql = ta_revision a + 1 -> sql <= i64_max ->
  let db1 := update_ticket_attempt id (set_attempt_stage stage failed sql) db in
  r = sql ->
  exists n db', insert_ticket_audit db1 p c op fp kind id r = Ok (n, db') /\ retried id stage db db' /\
    audit_subject_exists db' op kind id = true.
Proof.
  intros Ha Hk Hid Hsql Hmax db1 ->.
  destruct (insert_ticket_audit_run db1 p c op fp kind id sql Hk Hid Hmax) as (n & db' & E).
  exists n, db'. split; [done|]. split; [|by eapply insert_ticket_audit_subject].
  assert (Et : ticket_attempts db' = ticket_attempts db1)
    by (unfold insert_ticket_audit, insert_audit_row in E; ok_inv E; read_steps; by ok_inv E).
  exists a. eexists. split; [done|]. rewrite Et. unfold db1, update_ticket_attempt. simpl.
  rewrite lookup_alter_eq, Ha. by split_and!.
Qed.

Section retries.
Context (blake3 : list Z -> ContentDigest).

(** A counter of a row in range, and a command identity never used. *)
Definition retry_possible (db : Database) (id : Z) (command : DriverCommand) : Prop :=
  driver_command_ok command /\ audit_log db !! (DRIVER_PRINCIPAL, driver_command_id command) = None /\
  forall a tr, ticket_attempts db !! id = Some a ->
    ticket_revisions db !! ta_ticket_revision_id (ta_claim a) = Some tr ->
    attempt_ids_positive a tr /\ ta_revision a < i64_max.

Lemma retry_engineering_run db id r reason :
  tickets_wf db -> recoverable_engineering_failure db id = Ok (Some r) ->
  validate_reason reason "Engineering retry reason" = Ok tt ->
  retry_possible db (ef_ticket_attempt_id r)
    (DriverRetriesEngineering (ef_ticket_attempt_id r) (ef_attempt_revision r) (ef_ticket_revision r)) ->
  exists receipt db', retry_engineering_attempt blake3 db {|
      fta_principal := DRIVER_PRINCIPAL;
      fta_command_id := engineering_retry_command_id (ef_ticket_attempt_id r) (ef_attempt_revision r)
        (ef_ticket_revision r);
      fta_ticket_attempt_id := ef_ticket_attempt_id r;
      fta_expected_attempt_revision := ef_attempt_revision r;
      fta_expected_ticket_revision := ef_ticket_revision r;
      fta_reason := reason |} = Ok (receipt, db') /\
    retried (ef_ticket_attempt_id r) ATTEMPT_ENGINEERING db db' /\
    audit_subject_exists db' ENGINEERING_RETRY_OPERATION ENGINEERING_RETRY_SUBJECT
      (ef_ticket_attempt_id r) = true.
Proof.
  intros Hwf Hread Hreason (Hok & Hk & Hrow).
  destruct (recoverable_engineering_read _ _ _ Hwf Hread)
    as (a & tr & t & Hat & Hrec & Hid & Earev & Hn & Etrev).
  pose proof Hat as [Ha [Htr _ _ _ _ _ _]]. destruct (Hrow a tr Ha Htr) as [Hpos Hmax].
  destruct (lock_ticket_attempt_run _ _ _ _ _ Hat Hpos Hn) as (l & El & Est & Estage & Erel & Erev & Etl).
  unfold recoverable_engineering in Hrec. bool_prop.
  destruct (campaigns db !! _) as [c|] eqn:Hc; [|done]. bool_prop.
  pose proof (driver_command_valid _ Hok) as Hvalid. simpl in Hvalid, Hk.
  unfold retry_engineering_attempt. cbn [fta_principal fta_command_id fta_ticket_attempt_id
    fta_expected_attempt_revision fta_expected_ticket_revision fta_reason].
  rewrite Hvalid. simpl. rewrite Hreason. simpl.
  unfold find_ticket_audit. rewrite Hk. simpl. rewrite El. simpl.
  unfold require_expected, require_ticket_state.
  rewrite Erev, Etl, Earev, Etrev, Est, Erel, Estage, !Z.eqb_refl. simpl.
  rewrite bool_decide_eq_false_2 by (rewrite H4; by intros [? [=]]).
  rewrite H5. simpl. rewrite Ha. simpl. rewrite Hc. simpl. rewrite H2, H6. simpl.
  unfold can_retry_engineering_attempt. rewrite H1, H0. simpl.
  rewrite next_revision_run by done. simpl. rewrite revision_to_sql_run by lia. simpl.
  match goal with |- context [insert_ticket_audit (update_ticket_attempt _ (set_attempt_stage ?st ?f ?q) _)
      ?p ?k ?op ?fp ?kind _ ?n] =>
    destruct (retry_writes db (ef_ticket_attempt_id r) a st f q op p k fp kind n)
      as (m & db' & E & Hret & Haud); [done|by rewrite <- Earev, <- Etrev|done|done|lia|done|] end.
  rewrite E. simpl. eauto.
Qed.

Lemma retry_quality_run db id q reason :
  tickets_wf db -> recoverable_quality_failure db id = Ok (Some q) ->
  validate_reason reason "Quality retry reason" = Ok tt ->
  let context := {| tf_attempt_revision := da_ticket_attempt_revision q;
                    tf_ticket_revision := da_ticket_revision q |} in
  retry_possible db (da_ticket_attempt_id q)
    (DriverRetriesQuality (da_ticket_attempt_id q) (da_candidate_id q) context) ->
  failure_context db (da_ticket_attempt_id q) = Ok context /\
  exists receipt db', retry_quality_attempt blake3 db {|
      rqa_principal := DRIVER_PRINCIPAL;
      rqa_command_id := quality_retry_command_id (da_ticket_attempt_id q) (da_candidate_id q) context;
      rqa_ticket_attempt_id := da_ticket_attempt_id q;
      rqa_candidate_id := da_candidate_id q;
      rqa_expected_attempt_revision := da_ticket_attempt_revision q;
      rqa_expected_ticket_revision := da_ticket_revision q;
      rqa_reason := reason |} = Ok (receipt, db') /\
    retried (da_ticket_attempt_id q) ATTEMPT_REWORK_QUALITY db db' /\
    audit_subject_exists db' QUALITY_RETRY_OPERATION QUALITY_RETRY_SUBJECT
      (da_ticket_attempt_id q) = true.
Proof.
  intros Hwf Hread Hreason context (Hok & Hk & Hrow).
  destruct (recoverable_quality_read _ _ _ Hwf Hread)
    as (a & tr & t & c & Hat & Hrec & Hc & Hcand & Hid & _ & Earev & Hn & Etrev & _).
  pose proof Hat as [Ha [Htr _ _ _ _ _ _]]. destruct (Hrow a tr Ha Htr) as [Hpos Hmax].
  destruct (lock_ticket_attempt_run _ _ _ _ _ Hat Hpos Hn) as (l & El & Est & Estage & _ & Erev & Etl).
  split.
  { unfold failure_context. rewrite El. simpl. unfold context. by rewrite Erev, Etl, Earev, Etrev. }
  unfold recoverable_quality in Hrec. unfold recoverable_candidate in Hcand. bool_prop.
  pose proof (driver_command_valid _ Hok) as Hvalid. simpl in Hvalid, Hk.
  unfold retry_quality_attempt. cbn [rqa_principal rqa_command_id rqa_ticket_attempt_id
    rqa_candidate_id rqa_expected_attempt_revision rqa_expected_ticket_revision rqa_reason].
  rewrite Hvalid. simpl. rewrite Hreason. simpl.
  unfold find_ticket_audit. rewrite Hk. simpl. rewrite El. simpl.
  unfold require_expected, require_ticket_state.
  rewrite Erev, Etl, Earev, Etrev, Est, Estage, !Z.eqb_refl. simpl. rewrite Hc. simpl.
  rewrite H, Z.eqb_refl. simpl. unfold can_retry_quality_attempt.
  rewrite H8, H3, H5, bool_decide_eq_true_2 by done. simpl.
  rewrite next_revision_run by done. simpl. rewrite revision_to_sql_run by lia. simpl.
  match goal with |- context [insert_ticket_audit (update_ticket_attempt _ (set_attempt_stage ?st ?f ?q) _)
      ?p ?k ?op ?fp ?kind ?i ?n] =>
    destruct (retry_writes db i a st f q op p k fp kind n)
      as (m & db' & E & Hret & Haud); [done|done|done|done|lia|done|] end.
  rewrite E. simpl. eauto.
Qed.

Context (ts : Z -> result string Z) `{DriverServices} (Hbetween : forall n db, between n db = db).

(** From now on. *)
Lemma retry_audited_later db db' op kind id :
  rtc (kernel_step blake3 ts) db db' -> audit_subject_exists db op kind id = true ->
  audit_subject_exists db' op kind id = true.
Proof. intros Hr%kernel_steps_runs. by eapply audit_subject_exists_later. Qed.

Lemma driver_retry_engineering_run w id r :
  tickets_wf (w_db w) -> recoverable_engineering_failure (w_db w) id = Ok (Some r) ->
  retry_possible (w_db w) (ef_ticket_attempt_id r)
    (DriverRetriesEngineering (ef_ticket_attempt_id r) (ef_attempt_revision r) (ef_ticket_revision r)) ->
  exists w', driver_retry_engineering_attempt blake3 (ef_ticket_attempt_id r) (ef_attempt_revision r)
      (ef_ticket_revision r) engineering_retry_reason w = (w', Ok tt) /\
    retried (ef_ticket_attempt_id r) ATTEMPT_ENGINEERING (w_db w) (w_db w') /\
    forall db, rtc (kernel_step blake3 ts) (w_db w') db ->
      forall c a, recoverable_engineering db c (ef_ticket_attempt_id r) a = false.
Proof.
  intros Hwf Hread Hposs. unfold driver_retry_engineering_attempt.
  destruct (retry_engineering_run (w_db w) id r engineering_retry_reason Hwf Hread eq_refl Hposs)
    as (receipt & db' & E & Hret & Haud).
  rewrite transact_bind_quiet, E by done. eexists. split; [reflexivity|]. split; [done|].
  intros db Hlater c a. unfold recoverable_engineering. by rewrite (retry_audited_later _ _ _ _ _ Hlater Haud), andb_false_r.
Qed.

Lemma driver_retry_quality_run w id q :
  tickets_wf (w_db w) -> recoverable_quality_failure (w_db w) id = Ok (Some q) ->
  retry_possible (w_db w) (da_ticket_attempt_id q)
    (DriverRetriesQuality (da_ticket_attempt_id q) (da_candidate_id q)
       {| tf_attempt_revision := da_ticket_attempt_revision q;
          tf_ticket_revision := da_ticket_revision q |}) ->
  exists w', driver_retry_quality_attempt blake3 (da_ticket_attempt_id q) (da_candidate_id q)
      quality_retry_reason w = (w', Ok tt) /\
    retried (da_ticket_attempt_id q) ATTEMPT_REWORK_QUALITY (w_db w) (w_db w') /\
    forall db, rtc (kernel_step blake3 ts) (w_db w') db ->
      forall c a, recoverable_quality db c (da_ticket_attempt_id q) a = false.
Proof.
  intros Hwf Hread Hposs. unfold driver_retry_quality_attempt.
  destruct (retry_quality_run (w_db w) id q quality_retry_reason Hwf Hread eq_refl Hposs)
    as (Ectx & receipt & db' & E & Hret & Haud).
  rewrite read_bind_quiet, Ectx by done. cbn [tf_attempt_revision tf_ticket_revision].
  rewrite transact_bind_quiet by done. cbn [w_db]. rewrite E. eexists. split; [reflexivity|].
  split; [done|]. intros db Hlater c a. unfold recoverable_quality.
  by rewrite (retry_audited_later _ _ _ _ _ Hlater Haud), andb_false_r.
Qed.
End retries.

(** C17: The retry the driver builds is the one the kernel accepts: in a reachable
    state, with nothing else acting between the driver's calls, when its reads
    report a failed Engineering attempt, or a failed Quality attempt with a
    candidate worth reviewing again, the retry built from what they report
    commits, provided its command identity is unused and the identities and
    revisions it names are in range; it puts the attempt back into the stage it
    failed in at the next revision, and no state of any later run of the kernel
    reports the same attempt again. *)
Theorem reported_failures_are_retried blake3 ts `{DriverServices} w id :
  (forall n db, between n db = db) -> reachable blake3 (w_db w) ->
  (forall r, recoverable_engineering_failure (w_db w) id = Ok (Some r) ->
     let attempt := ef_ticket_attempt_id r in
     retry_possible (w_db w) attempt
       (DriverRetriesEngineering attempt (ef_attempt_revision r) (ef_ticket_revision r)) ->
     exists w', driver_retry_engineering_attempt blake3 attempt (ef_attempt_revision r)
         (ef_ticket_revision r) engineering_retry_reason w = (w', Ok tt) /\
       retried attempt ATTEMPT_ENGINEERING (w_db w) (w_db w') /\
       forall db, rtc (kernel_step blake3 ts) (w_db w') db ->
         forall c a, recoverable_engineering db c attempt a = false) /\
  (forall q, recoverable_quality_failure (w_db w) id = Ok (Some q) ->
     let attempt := da_ticket_attempt_id q in
     retry_possible (w_db w) attempt (DriverRetriesQuality attempt (da_candidate_id q)
       {| tf_attempt_revision := da_ticket_attempt_revision q;
          tf_ticket_revision := da_ticket_revision q |}) ->
     exists w', driver_retry_quality_attempt blake3 attempt (da_candidate_id q)
         quality_retry_reason w = (w', Ok tt) /\
       retried attempt ATTEMPT_REWORK_QUALITY (w_db w) (w_db w') /\
       forall db, rtc (kernel_step blake3 ts) (w_db w') db ->
         forall c a, recoverable_quality db c attempt a = false).
Proof.
  intros Hb [Hwf _ _]%reachable_well_formed'. split.
  - intros r Hread attempt Hposs. by eapply driver_retry_engineering_run.
  - intros q Hread attempt Hposs. by eapply driver_retry_quality_run.
Qed.

Lemma reported_failures_are_retried_witness :
  let w := {| w_db := after checksum installation engineering_failed; w_calls := 0 |} in
  exists r w', recoverable_engineering_failure (w_db w) 1 = Ok (Some r) /\
    @driver_retry_engineering_attempt checksum (quiet_services "secret") (ef_ticket_attempt_id r)
      (ef_attempt_revision r) (ef_ticket_revision r) engineering_retry_reason w = (w', Ok tt) /\
    retried 1 ATTEMPT_ENGINEERING (w_db w) (w_db w').
Proof.
  intros w.
  assert (Hreach : reachable checksum (w_db w)) by (apply after_reachable; vm_compute; reflexivity).
  set (r := {| ef_ticket_attempt_id := 1; ef_attempt_revision := 1; ef_ticket_revision := 2 |}).
  assert (Hread : recoverable_engineering_failure (w_db w) 1 = Ok (Some r))
    by (vm_compute; reflexivity).
  assert (Hposs : retry_possible (w_db w) 1 (DriverRetriesEngineering 1 1 2)).
  { split; [repeat constructor; discriminate|]. split; [vm_compute; reflexivity|].
    intros a tr Ha Htr. assert (Ea : ta_ticket_revision_id (ta_claim a) = 1 /\ ta_revision a = 1)
      by (vm_compute in Ha; injection Ha as <-; split; reflexivity).
    destruct Ea as [Eid Erev]. unfold attempt_ids_positive. rewrite Eid, Erev in *.
    vm_compute in Htr. injection Htr as <-. repeat split. }
  destruct (proj1 (@reported_failures_are_retried checksum clock (quiet_services "secret") w 1
    (fun _ _ => eq_refl) Hreach) r Hread Hposs) as (w' & Hrun & Hret & _).
  exists r, w'. split_and!; [exact Hread|exact Hrun|exact Hret].
Defined.

(** * Closing a fruitless campaign *)

Lemma campaign_status_read unix_millis db id status :
  ProcessReads.campaign_status unix_millis db id = Ok status ->
  exists c kb digest, campaigns db !! id = Some c /\ kernel_builds db !! cmp_kernel_build_id c = Some kb /\
    ProcessStore.digest_column (kb_build_digest kb) = Ok digest /\
    0 < cmp_application_revision_id c /\ 0 < cmp_repository_id c /\ 0 <= cmp_revision c /\
    ProcessReads.cs_revision status = cmp_revision c /\
    (cmp_lifecycle c = CAMPAIGN_RUNNING -> ProcessReads.cs_state status = ProcessReads.Running).
Proof.
  unfold ProcessReads.campaign_status. intros H. ok_inv H; read_process.
  all: match goal with Hj : ProcessStore.campaign_join _ _ = Some _ |- _ =>
    apply bind_Some in Hj as (c' & Hc & (kb' & Hkb & [= -> ->])%bind_Some) end.
  all: do 3 eexists; split_and!; [exact Hc|exact Hkb|eassumption|done..|].
  all: intros El; match goal with Hs : ProcessReads.campaign_state_from_code _ = Ok _ |- _ =>
    rewrite El in Hs; by injection Hs as <- end.
Qed.

(** A running campaign without a running session can be failed. *)
Lemma fail_campaign_run blake3 unix_millis db command c status :
  let id := ProcessStore.fcm_campaign_id command in
  let key := (ProcessStore.fcm_principal command, ProcessStore.fcm_command_id command) in
  ProcessStore.validate_command key.1 key.2 = Ok tt ->
  ProcessStore.validate_failure_reason (ProcessStore.fcm_reason command) = Ok tt ->
  audit_log db !! key = None -> 0 < id -> campaigns db !! id = Some c ->
  cmp_lifecycle c = CAMPAIGN_RUNNING -> ProcessReads.campaign_status unix_millis db id = Ok status ->
  ProcessStore.running_session_of id db = None ->
  ProcessStore.fcm_expected_revision command = cmp_revision c -> cmp_revision c < i64_max ->
  exists receipt db', ProcessStore.fail_campaign blake3 db command = Ok (receipt, db') /\
    campaigns db' = <[id := ProcessStore.close_campaign CAMPAIGN_FAILED (cmp_revision c + 1)
                              (Some (ProcessStore.fcm_reason command)) c]> (campaigns db).
Proof.
  intros id key Hv Hreason Hk Hid Hc Hl
    (c' & kb & digest & Hc' & Hkb & Hdigest & Happ & Hrepo & Hrev & _)%campaign_status_read Hses Hexp Hmax.
  assert (c' = c) as -> by congruence.
  unfold ProcessStore.fail_campaign. fold id.
  change (ProcessStore.validate_command _ _) with (ProcessStore.validate_command key.1 key.2).
  rewrite Hv. simpl. rewrite Hreason. simpl.
  unfold ProcessStore.find_audit_by_key. fold key. rewrite Hk. simpl. rewrite Hc. simpl.
  rewrite (proj2 (ps_revision_from_sql _ _) (conj Hrev eq_refl)). simpl.
  unfold ProcessStore.require_expected, ProcessStore.campaign_running.
  rewrite Hexp, Z.eqb_refl, Hl, Hses, bool_decide_eq_true_2 by done. simpl.
  rewrite next_revision_small by done. simpl.
  rewrite (proj2 (ps_revision_to_sql _ _)) by (split; [lia|done]). simpl.
  unfold update_campaign. rewrite Hc. simpl.
  match goal with |- context [ProcessStore.insert_audit ?d ?p ?k ?o ?f ?n ?i ?r] =>
    destruct (insert_audit_fresh d p k o f n i r Hk Hid ltac:(lia)) as (n0 & row & E); rewrite E end.
  simpl. unfold ProcessStore.campaign_pinning, ProcessStore.campaign_join. simpl.
  rewrite lookup_insert_eq. simpl. rewrite Hkb. simpl. rewrite Hdigest. simpl.
  rewrite !(proj2 (ps_new_id _ _ _)) by (by split). simpl. eauto.
Qed.

(** No other campaign runs once the running one is closed. *)
Lemma closed_campaign_waits db id c c' m :
  exclusive db -> campaigns db !! id = Some c -> cmp_lifecycle c = CAMPAIGN_RUNNING ->
  cmp_lifecycle c' <> CAMPAIGN_RUNNING -> m = <[id := c']> (campaigns db) ->
  rows_where (fun _ c => cmp_lifecycle c =? CAMPAIGN_RUNNING) m = [].
Proof.
  intros [X _ _ _] Hc Hl Hl' ->.
  destruct (rows_where _ _) as [|[i x] l] eqn:E; [done|]. exfalso.
  assert (Hin : (i, x) ∈ rows_where (fun _ c => cmp_lifecycle c =? CAMPAIGN_RUNNING)
    (<[id := c']> (campaigns db))) by (rewrite E; by left).
  apply rows_where_elem in Hin as [[[<- <-]|[Hne Hi]]%lookup_insert_Some Hx%Z.eqb_eq]; [done|].
  apply Hne. symmetry. by eapply (X i id x c tt); [..|unfold running_campaign; rewrite Hx|unfold running_campaign; rewrite Hl].
Qed.

(** C16: Product work gives up in bounded time and cleanly: in a reachable state
    with a running campaign, no running session and a status the driver can read,
    and with nothing else acting between the driver's calls, the driver answers a
    Product session that ended without work by scheduling another one, writing
    nothing, exactly while the campaign has fewer than three Product assignments;
    and once it has three, the command it issues commits, provided the identity
    of that command is unused and the campaign's revision can grow, the campaign
    has failed with the driver's reason, and the next pass finds no running
    campaign. *)
Theorem fruitless_product_closes_campaign blake3 ts `{DriverServices} w id c status reason :
  (forall n db, between n db = db) -> kernel_reachable blake3 ts (w_db w) ->
  campaigns (w_db w) !! id = Some c -> cmp_lifecycle c = CAMPAIGN_RUNNING ->
  ProcessReads.campaign_status unix_millis (w_db w) id = Ok status ->
  ProcessStore.running_session_of id (w_db w) = None -> bounded_text reason 240 = true ->
  0 < id <= i64_max -> cmp_revision c < i64_max ->
  audit_log (w_db w) !! (DRIVER_PRINCIPAL, driver_command_id (DriverFailsCampaign id (cmp_revision c))) = None ->
  product_assignments id (w_db w) <= ProcessStore.u32_max ->
  exists w', if product_assignments id (w_db w) <? 3
    then retry_or_fail_product blake3 id reason w = (w', Ok (ProductRetryScheduled id)) /\
         w_db w' = w_db w
    else retry_or_fail_product blake3 id reason w = (w', Ok (DriverCampaignFailed id reason)) /\
         (exists c', campaigns (w_db w') !! id = Some c' /\ cmp_lifecycle c' = CAMPAIGN_FAILED /\
            cmp_failure_reason c' = Some reason) /\
         (run_next blake3 w').2 = Ok NoRunningCampaign.
Proof.
  intros Hb Hacc%kernel_accounted Hc Hl Hst Hses Hreason Hid Hmax Hk Hcount.
  unfold retry_or_fail_product. rewrite read_bind_quiet by done.
  unfold ProcessReads.product_assignment_count. fold (product_assignments id (w_db w)).
  rewrite (proj2 (Z.leb_le _ _) Hcount). simpl. unfold product_retry_available.
  change MAX_PRODUCT_ASSIGNMENTS_PER_CAMPAIGN with 3.
  destruct (product_assignments id (w_db w) <? 3); [by eexists|].
  pose proof Hst as (c0 & _ & _ & Hc0 & _ & _ & _ & _ & Hrev & Erev & Hrun)%campaign_status_read.
  assert (c0 = c) as -> by congruence.
  assert (Hok : driver_command_ok (DriverFailsCampaign id (cmp_revision c)))
    by (unfold driver_command_ok; simpl; unfold u64_max, i64_max in *; repeat constructor; lia).
  pose proof (driver_command_component _ Hok) as Hv. simpl in Hv, Hk.
  edestruct (fail_campaign_run blake3 unix_millis (w_db w) {|
    ProcessStore.fcm_principal := DRIVER_PRINCIPAL;
    ProcessStore.fcm_command_id := command_id "fault" id (cmp_revision c);
    ProcessStore.fcm_expected_revision := cmp_revision c;
    ProcessStore.fcm_campaign_id := id; ProcessStore.fcm_reason := reason |} c status)
    as (receipt & db' & E & Ecmp); try done.
  { unfold ProcessStore.validate_command. simpl. by rewrite Hv. }
  { unfold ProcessStore.validate_failure_reason. simpl. by rewrite Hreason. }
  { simpl. lia. }
  set (w1 := {| w_db := w_db w; w_calls := S (w_calls w) |}).
  assert (Hfail : fail_running_campaign blake3 id reason w1
    = ({| w_db := db'; w_calls := S (S (w_calls w1)) |}, Ok tt)).
  { unfold fail_running_campaign. rewrite read_bind_quiet by done. cbn [w_db w1]. rewrite Hst.
    rewrite bool_decide_eq_true_2 by auto. cbn [negb]. rewrite transact_bind_quiet by done.
    cbn [w_db]. by rewrite Erev, E. }
  exists {| w_db := db'; w_calls := S (S (w_calls w1)) |}. split; [|split].
  - unfold mbind, exec_bind. by rewrite Hfail.
  - eexists. cbn [w_db]. rewrite Ecmp, lookup_insert_eq. by split_and!.
  - unfold run_next. rewrite read_bind_quiet by done. cbn [w_db].
    unfold ProcessReads.current_running_campaign_id.
    rewrite (closed_campaign_waits (w_db w) id c (ProcessStore.close_campaign CAMPAIGN_FAILED
      (cmp_revision c + 1) (Some reason) c)); try done. apply Hacc.
Qed.

(** The sample campaign after two fruitless Product passes and a third session,
    which the driver has not settled yet. *)
Definition third_session : AssignmentMaterializationRequest := {|
  amr_principal := DRIVER_PRINCIPAL; amr_command_id := "third";
  amr_expected_campaign_revision := 4; amr_campaign_id := 1; amr_application_revision_id := 1;
  amr_target := TargetProduct |}.

Definition used_up : World := {|
  w_db := (@materialize_and_launch_assignment (launching (Ok tt) (Some 300))
    (w_db (@run_passes checksum (launching (Ok tt) (Some 300)) 2 started).1) third_session).1;
  w_calls := 0 |}.

Lemma used_up_reachable : kernel_reachable checksum clock (w_db used_up).
Proof.
  assert (Hr : kernel_reachable checksum clock (w_db started))
    by (apply processed_reachable; vm_compute; reflexivity).
  destruct Hr as (x & Hx & Hrun). exists x. split; [done|].
  etransitivity; [exact Hrun|]. etransitivity; [apply (run_passes_runs checksum clock (Hservices := launching (Ok tt) (Some 300)) 2)|].
  apply (launch_runs (H := launching (Ok tt) (Some 300))).
Qed.

Lemma fruitless_product_closes_campaign_witness :
  exists w', @retry_or_fail_product checksum (quiet_services "secret") 1 no_proposal_reason used_up
      = (w', Ok (DriverCampaignFailed 1 no_proposal_reason)) /\
    (@run_next checksum (quiet_services "secret") w').2 = Ok NoRunningCampaign.
Proof.
  assert (Hc : exists c, campaigns (w_db used_up) !! 1 = Some c /\
    cmp_lifecycle c = CAMPAIGN_RUNNING /\ cmp_revision c = 6).
  { eexists. split; [vm_compute; reflexivity|split; reflexivity]. }
  destruct Hc as (c & E & Hl & Hrev).
  assert (Hs : exists status, ProcessReads.campaign_status (@unix_millis (quiet_services "secret"))
    (w_db used_up) 1 = Ok status) by (eexists; vm_compute; reflexivity).
  destruct Hs as [status Est].
  assert (Hses : ProcessStore.running_session_of 1 (w_db used_up) = None) by (vm_compute; reflexivity).
  assert (Hk : audit_log (w_db used_up)
    !! (DRIVER_PRINCIPAL, driver_command_id (DriverFailsCampaign 1 (cmp_revision c))) = None)
    by (rewrite Hrev; vm_compute; reflexivity).
  assert (Hcount : product_assignments 1 (w_db used_up) <= ProcessStore.u32_max)
    by (vm_compute; discriminate).
  assert (Hmax : cmp_revision c < i64_max) by (rewrite Hrev; reflexivity).
  assert (Hb : forall n db, @between (@driver_interleaving (quiet_services "secret")) n db = db) by (intros; reflexivity).
  assert (Hreason : bounded_text no_proposal_reason 240 = true) by (vm_compute; reflexivity).
  assert (Hid : 0 < 1 <= i64_max) by (split; [reflexivity|discriminate]).
  destruct (@fruitless_product_closes_campaign checksum clock (quiet_services "secret") used_up 1 c
    status no_proposal_reason Hb used_up_reachable E Hl Est Hses Hreason Hid Hmax Hk Hcount)
    as [w' Hw'].
  assert (Hn : (product_assignments 1 (w_db used_up) <? 3) = false) by (vm_compute; reflexivity).
  rewrite Hn in Hw'. destruct Hw' as (Hrun & _ & Hnext). exists w'. split; [exact Hrun|exact Hnext].
Defined.
