(* ===== verification/Sessions.v ===== *)
(** Theorems on the life of a paid session: what the runtime settles costs what
    the provider effects cost, and what stays behind when the host's report
    contradicts the ledger. *)
From stdpp Require Import pretty.
From S2P Require Import Prelude Base64 Values Database Lifecycle ProcessStore ProcessReads ProviderEffects.
From S2P Require Import SessionRuntime Kernel ProcessRefinement Frames DriverRuns LaunchRuns Scenario.
From S2P Require Import Accounting ProcessScenario DriverScenario Economy Ledger.
From S2P Require Scheduler CampaignDriver.



(** A store command of the runtime that succeeded. *)
Lemma session_command_Ok {A E} (wrap : ProcessError -> E) db (r : result ProcessError (A * Database)) db' a :
  (let '(db', r) := session_command db r in (db', map_err wrap r)) = (db', Ok a) -> r = Ok (a, db').
Proof. destruct r as [[b x]|e]; simpl; [by intros [= -> ->]|discriminate]. Qed.

Section sessions.
Context (blake3 : list Z -> ContentDigest) (ts : Z -> result string Z).
Context `{Hservices : SessionServices} {Hlawful : LawfulSession blake3 ts}.

(** Either terminal attempt settles the session at the reconciled usage. *)
Lemma commit_terminal_settles db packet session stop evidence l t db' receipt :
  provider_effect_ledger db (sr_session_id session) = Ok l ->
  reconcile_provider_usage t l = Ok (ve_usage evidence) ->
  commit_terminal blake3 db packet session stop evidence = (db', Ok receipt) ->
  tr_was_idempotent_retry receipt = false -> session_settled (sr_session_id session) db'.
Proof.
  intros Hl Hrec H Hretry. unfold commit_terminal in H.
  assert (Hinfra : forall report,
    (let '(db', r) := session_command db (terminal_session blake3 db "kernel"
       ("kernel-reconcile-session-" +:+ pretty (sr_session_id session)) (sr_session_id session)
       report evidence) in (db', map_err SessionStore r)) = (db', Ok receipt) ->
    session_settled (sr_session_id session) db').
  { intros report Hr%session_command_Ok. by eapply terminal_session_settles. }
  destruct (stop_proposal stop) as [actor|]; [|by eapply Hinfra].
  destruct (actor_report _ _ _ _) as [report|e]; [|discriminate].
  destruct (terminal_session blake3 db (actor_session_principal _ _) _ _ _ _)
    as [[r db1]|e] eqn:E; [|by eapply Hinfra].
  injection H as -> ->. by eapply terminal_session_settles.
Qed.

Lemma reconcile_terminal_settles db packet session stop db' receipt :
  reconcile_terminal blake3 db packet session stop = (db', Ok receipt) ->
  tr_was_idempotent_retry receipt = false -> session_settled (sr_session_id session) db'.
Proof.
  unfold reconcile_terminal. intros H Hretry.
  destruct (seal db (sr_session_id session)) as [db1 [u|e]]; [|discriminate].
  destruct (provider_effect_ledger db1 _) as [l|e] eqn:El; [|discriminate].
  destruct (reconcile_provider_usage _ l) as [usage|[]] eqn:Erec; [|discriminate].
  destruct (mint db1 _ usage) as [evidence|e] eqn:Em; [|discriminate].
  apply (mint_usage (LawfulSession := Hlawful)) in Em. subst.
  by eapply commit_terminal_settles.
Qed.

(** The steps of a launch that reached its reconciliation. *)
Lemma launch_session_reconciles db packet revision db' r :
  launch_session blake3 db packet revision = (db', r) ->
  (exists session receipt, r = Ok (session, receipt)) \/ r = Err RuntimeLedgerConflict ->
  exists custody session db1 db2 stop terminal,
    spawn db packet = Ok custody /\
    start_session blake3 db {|
      ss_principal := KERNEL_PRINCIPAL;
      ss_command_id := "session-launch-" +:+ pretty (pk_assignment_id packet);
      ss_expected_assignment_revision := revision;
      ss_assignment_id := pk_assignment_id packet;
      ss_packet_digest := pk_packet_digest packet;
      ss_custody := custody |} = Ok (session, db1) /\
    live db1 (sr_session_id session) = (db2, Ok stop) /\
    reconcile_terminal blake3 db2 packet session stop = (db', terminal) /\
    r = (fun receipt => (session, receipt)) <$> terminal.
Proof.
  unfold launch_session. intros H Hr.
  assert (Hno : forall db e, e <> RuntimeLedgerConflict -> (db, Err e) <> (db', r))
    by (intros x e Hne [= _ <-]; destruct Hr as [(? & ? & [=])|[=]]; congruence).
  destruct (spawn db packet) as [custody|e]; [|by apply Hno in H].
  destruct (start_session _ _ _) as [[session db1]|e] eqn:Est.
  2:{ destruct (reap packet); by apply Hno in H. }
  destruct (admit_session db1 _); [|by apply Hno in H].
  destruct (live db1 _) as [db2 [stop|e]] eqn:El; [|by apply Hno in H].
  destruct (reconcile_terminal _ _ _ _ _) as [db3 terminal] eqn:Erec.
  injection H as <- <-. by exists custody, session, db1, db2, stop, terminal.
Qed.
End sessions.

(** C19: A launched session is paid for: when the runtime reports a session over,
    with the receipt of the transition that ended it, then in every later state
    the session is ended, its recorded cost is the sum of what its provider
    effects cost when every one of them was settled at a cost, and unknown
    otherwise, whatever usage the host itself reported. *)
Theorem launched_session_settled blake3 ts `{LawfulSession blake3 ts} db packet revision db1 db2
    session receipt :
  launch_session blake3 db packet revision = (db1, Ok (session, receipt)) ->
  tr_was_idempotent_retry receipt = false -> rtc (kernel_step blake3 ts) db1 db2 ->
  session_settled (sr_session_id session) db2.
Proof.
  intros E Hretry Hrun. eapply session_settled_kept; [exact Hrun|].
  eapply launch_session_reconciles in E as
    (custody & session' & x1 & x2 & stop & terminal & _ & _ & _ & Hrec & Hr); [|by eauto].
  destruct terminal as [r|e]; [|discriminate]. injection Hr as <- <-.
  by eapply (reconcile_terminal_settles blake3 ts).
Qed.

(** A launch of the sample assignment, whose session makes one request of 300. *)
Definition sample_launch (reported : option Z)
  : Database * result SessionRuntimeError (SessionReceipt * TerminalReceipt) :=
  @launch_session checksum (session_services (Ok tt) reported)
    (processed [begin_campaign; prepare 1 0 1000])
    (sample_packet ProductResearch None None WorkComplete 1 1000) 0.

Lemma launched_session_settled_witness :
  exists db session receipt, sample_launch None = (db, Ok (session, receipt)) /\
    session_settled (sr_session_id session) db.
Proof.
  assert (Hr : match (sample_launch None).2 with
               | Ok (_, receipt) => tr_was_idempotent_retry receipt | Err _ => true end = false)
    by (vm_compute; reflexivity).
  destruct (sample_launch None) as [db [[session receipt]|e]] eqn:E; [|discriminate Hr].
  exists db, session, receipt. split; [reflexivity|].
  exact (launched_session_settled checksum clock (H := session_services (Ok tt) None) _ _ _ db db
    session receipt E Hr (rtc_refl _ _)).
Defined.

(** * A report that contradicts the ledger *)

Lemma reconcile_conflict t l :
  reconcile_provider_usage t l = Err ProviderLedgerConflict <->
  complete_cost l = true /\ exists u, t = Some u /\ ~ agrees u (ledger_usage l).
Proof.
  destruct (complete_cost l) eqn:E.
  2:{ rewrite reconcile_incomplete by done. split; [discriminate|by intros [? _]]. }
  pose proof (reconcile_complete t l E) as Hc. split.
  - intros H. split; [done|]. destruct t as [u|].
    2:{ assert (E' : reconcile_provider_usage None l = Ok (Some (ledger_usage l)))
          by (apply Hc; by split).
        by rewrite E' in H. }
    exists u. split; [done|]. intros Ha.
    rewrite (proj2 (Hc (Some (ledger_usage l)))) in H; [done|]. split; [done|]. by intros ? [= <-].
  - intros (_ & u & -> & Hn). destruct (reconcile_provider_usage _ l) as [out|[]] eqn:Er; [|done].
    destruct (proj1 (Hc out) eq_refl) as [_ Ha]. by destruct Hn; apply Ha.
Qed.

Lemma actor_report_error blake3 digest session actor e :
  actor_report blake3 digest session actor = Err e -> e = InvalidTerminalContract.
Proof.
  unfold actor_report, request_operation, transpose_map.
  generalize (parse_stop_reason (sst_stop_reason actor)), (session_decode_base64
    (sst_terminal_payload_b64 actor)), parse_terminal_operation.
  intros stop payload parse. destruct (sst_terminal_operation actor) as [value|];
    [destruct (parse value)|]; destruct stop; destruct payload; simpl; congruence.
Qed.

Lemma commit_terminal_no_conflict blake3 db packet session stop evidence db' :
  commit_terminal blake3 db packet session stop evidence <> (db', Err RuntimeLedgerConflict).
Proof.
  intros H. unfold commit_terminal in H.
  assert (Hinfra : forall x, (let '(d, r) := session_command db x in (d, map_err SessionStore r))
    <> (db', Err RuntimeLedgerConflict : result _ TerminalReceipt))
    by (intros [[a d]|e]; simpl; discriminate).
  destruct (stop_proposal stop) as [actor|]; [|by apply Hinfra in H].
  destruct (actor_report _ _ _ _) as [report|e] eqn:Ea.
  - destruct (terminal_session blake3 db (actor_session_principal _ _) _ _ _ _) as [[r d]|e];
      [discriminate|by apply Hinfra in H].
  - apply actor_report_error in Ea as ->. discriminate.
Qed.

(** A report that contradicts the ledger settles nothing: once the streams of
    a session are sealed and its ledger read, the reconciliation fails with a
    ledger conflict exactly when every effect was settled at a cost and the host
    reports another value for some counter; it then leaves the sealed state as it
    is, so a session that ran is still running, no terminal transition follows,
    and the campaign's paid session blocks the scheduler. *)
Theorem contradicted_session_keeps_running blake3 `{SessionServices} db packet session stop db1 l :
  let id := sr_session_id session in
  seal db id = (db1, Ok tt) -> provider_effect_ledger db1 id = Ok l ->
  ((exists db', reconcile_terminal blake3 db packet session stop = (db', Err RuntimeLedgerConflict)) <->
     priced id (provider_effects db1) /\
     exists actor, stop_proposal stop = Some actor /\ ~ agrees (sst_usage actor) (ledger_usage l)) /\
  forall db', reconcile_terminal blake3 db packet session stop = (db', Err RuntimeLedgerConflict) ->
    db' = db1 /\ forall s, sessions db1 !! id = Some s -> ses_lifecycle s = SESSION_RUNNING ->
      paid_session_active db' = true.
Proof.
  intros id Hseal Hl. unfold reconcile_terminal. fold id. rewrite Hseal, Hl.
  pose proof (ledger_books _ _ _ Hl) as (Hp & _).
  pose proof (reconcile_conflict (sst_usage <$> stop_proposal stop) l) as Hc. rewrite Hp in Hc.
  destruct (reconcile_provider_usage _ l) as [usage|[]].
  - assert (Hno : forall db', (match mint db1 id usage with
      | Ok evidence => commit_terminal blake3 db1 packet session stop evidence
      | Err detail => fail_with db1 (SessionService detail)
      end) <> (db', Err RuntimeLedgerConflict)).
    { intros db' E. destruct (mint db1 id usage) as [evidence|e]; [|discriminate].
      by apply commit_terminal_no_conflict in E. }
    split; [|intros db' E; by apply Hno in E]. split; [intros [db' E]; by apply Hno in E|].
    intros (Hpr & actor & Es & Hn). exfalso. rewrite Es in Hc.
    assert (E : Ok usage = Err ProviderLedgerConflict) by (apply Hc; eauto). discriminate.
  - split.
    + split; [|by eexists]. intros _. destruct (proj1 Hc eq_refl) as (Hpr & u & Hu & Hn).
      split; [done|]. apply fmap_Some in Hu as (actor & -> & ->). eauto.
    + intros db' [= <-]. split; [done|]. intros s Hs Hr. apply exists_where_true.
      exists id, s. by rewrite Hr.
Qed.

Lemma contradicted_session_keeps_running_witness :
  let db := processed (to_session ++ [begin_effect 1 1 0; settle_effect 1 1 0 300]) in
  let packet := sample_packet ProductResearch None None WorkComplete 1 1000 in
  let stop := {| stop_process := exited; stop_transport := ProcessExited;
                 stop_proposal := Some (proposal (Some 301)) |} in
  let session := {| sr_session_id := 1; sr_resulting_revision := 0; sr_assignment_revision := 1;
                    sr_audit_log_id := 3; sr_was_idempotent_retry := false |} in
  exists db', @reconcile_terminal checksum (session_services (Ok tt) None) db packet session stop
      = (db', Err RuntimeLedgerConflict) /\ paid_session_active db' = true.
Proof.
  intros db packet stop session.
  assert (Hd : (fun l => (complete_cost l, u_reported_cost_micro_usd (ledger_usage l))) <$>
    provider_effect_ledger db 1 = Ok (true, Some 300)) by (vm_compute; reflexivity).
  destruct (provider_effect_ledger db 1) as [l|e] eqn:El; [|discriminate].
  injection Hd as Hcomplete Hcost.
  pose proof (proj1 (proj1 (ledger_books _ _ _ El)) Hcomplete) as Hpriced.
  assert (Hn : ~ agrees (sst_usage (proposal (Some 301))) (ledger_usage l)).
  { intros Ha. destruct (Ha u_reported_cost_micro_usd ltac:(left)) as [[=]|E]. rewrite Hcost in E.
    discriminate E. }
  destruct (@contradicted_session_keeps_running checksum (session_services (Ok tt) None) db packet
    session stop db l eq_refl El) as [Hiff Hkeeps].
  destruct (proj2 Hiff (conj Hpriced (ex_intro _ _ (conj eq_refl Hn)))) as [db' Hdb'].
  destruct (Hkeeps db' Hdb') as [_ Hactive]. exists db'. split; [exact Hdb'|].
  assert (Hs : exists s, sessions db !! 1 = Some s /\ ses_lifecycle s = SESSION_RUNNING)
    by (eexists; split; [vm_compute; reflexivity|reflexivity]).
  destruct Hs as (s & Hs & Hr). exact (Hactive s Hs Hr).
Defined.

(** The daemon of the sample installation after such a report: its own failure
    command is refused because the session still runs, and every later pass is
    blocked by it. *)
Lemma contradicted_session_blocks_daemon :
  outcomes_of (launching (Ok tt) (Some 301)) 4
  = Err (CampaignDriver.ProcessFailure (CampaignHasRunningSession 1))
    :: repeat (Ok (CampaignDriver.DriverBlocked Scheduler.PaidSessionActive)) 3.
Proof. vm_compute. reflexivity. Qed.

(** The same after an admission the kernel could not write. *)
Lemma failed_admission_blocks_daemon :
  outcomes_of (launching (Err "broken pipe"%string) None) 4
  = Err (CampaignDriver.ProcessFailure (CampaignHasRunningSession 1))
    :: repeat (Ok (CampaignDriver.DriverBlocked Scheduler.PaidSessionActive)) 3.
Proof. vm_compute. reflexivity. Qed.

(** * The spend report

    The campaign's spend report: its groups partition the campaign's sessions, so
    its columns add up to the books. *)

(** * Sums over groups *)

Lemma sum_where_split {V} (f : V -> Z) (p q : Z -> V -> bool) (m : gmap Z V) :
  sum_where f p m = sum_where f (fun k v => p k v && q k v) m
    + sum_where f (fun k v => p k v && negb (q k v)) m.
Proof.
  unfold sum_where, rows_where. induction (map_to_list m) as [|[k v] l IH]; [done|].
  simpl. destruct (p k v), (q k v); simpl; lia.
Qed.

Lemma count_where_sum {V} (p : Z -> V -> bool) (m : gmap Z V) :
  count_where p m = sum_where (fun _ => 1) p m.
Proof.
  rewrite count_where_rows. unfold sum_where. induction (rows_where p m) as [|kv l IH]; simpl; lia.
Qed.

(** A sum over rows is the sum over their groups. *)
Lemma sum_where_groups {V G} `{EqDecision G} (f : V -> Z) (g : V -> G) p (m : gmap Z V) gs :
  NoDup gs -> (forall k v, m !! k = Some v -> p k v = true -> g v ∈ gs) ->
  total ((fun x => sum_where f (fun k v => p k v && bool_decide (g v = x)) m) <$> gs)
  = sum_where f p m.
Proof.
  intros Hnd. revert p. induction Hnd as [|x gs Hx Hnd IH]; intros p Hin.
  - simpl. symmetry. apply sum_where_none. intros k v Hk. apply not_true_iff_false. intros Hp.
    by apply (Hin k v) in Hp as ?%not_elem_of_nil.
  - rewrite fmap_cons. simpl.
    rewrite (sum_where_split f p (fun _ v => bool_decide (g v = x)) m).
    rewrite <- (IH (fun k v => p k v && negb (bool_decide (g v = x)))).
    + f_equal. f_equal. apply list_fmap_ext. intros i y Hy. apply sum_where_ext. intros k v _.
      split; [|done]. destruct (bool_decide_reflect (g v = y)) as [->|]; [|by rewrite !andb_false_r].
      assert (y <> x) by (intros ->; by eapply Hx, list_elem_of_lookup_2).
      rewrite (bool_decide_eq_false_2 (y = x)) by done. by rewrite !andb_true_r.
    + intros k v Hk Hp. bool_prop. assert (Hg : g v ∈ x :: gs) by eauto.
      by apply elem_of_cons in Hg as [|].
Qed.

(** * The report *)

Section report.
Context (db : Database) (id : Z) (sort : list CostGroup -> list CostGroup).
Hypothesis Hsort : forall l, sort l ≡ₚ l.

Lemma cost_groups_cover : forall k s, sessions db !! k = Some s -> in_campaign id k s = true ->
  cost_group s ∈ sort (cost_groups db id).
Proof.
  intros k s Hk Hs. rewrite Hsort. unfold cost_groups. rewrite elem_of_remove_dups.
  apply list_elem_of_fmap. exists (k, s). split; [done|]. by apply rows_where_elem.
Qed.

Lemma sort_groups_NoDup : NoDup (sort (cost_groups db id)).
Proof. rewrite Hsort. apply NoDup_remove_dups. Qed.

Lemma cost_aggregate_Ok group a :
  cost_aggregate db id group = Ok a ->
  let p := in_cost_group id group in
  sca_session_count a = count_where p (sessions db) /\
  sca_accounted_cost_micro_usd a = sum_where accounted_cost p (sessions db) /\
  sca_pending_cost_session_count a
    = count_where (fun k s => p k s && cost_state_is None s) (sessions db) /\
  sca_unknown_cost_session_count a
    = count_where (fun k s => p k s && cost_state_is (Some COST_UNKNOWN) s) (sessions db).
Proof.
  unfold cost_aggregate, session_count. destruct group as [[[role provider] model] lifecycle].
  intros H. ok_inv H. read_process. done.
Qed.

(** A column that sums over the rows of its group adds up over the report. *)
Lemma report_column (column : SessionCostAggregate -> Z) f p aggregates :
  campaign_session_cost_aggregates sort db id = Ok aggregates ->
  (forall group a, cost_aggregate db id group = Ok a ->
     column a = sum_where f (fun k s => (in_campaign id k s && p k s)
                                        && bool_decide (cost_group s = group)) (sessions db)) ->
  total (column <$> aggregates) = sum_where f (fun k s => in_campaign id k s && p k s) (sessions db).
Proof.
  unfold campaign_session_cost_aggregates. intros H Hcol. ok_inv H. cbv zeta in *.
  apply map_ok_Forall2 in H.
  assert (E : column <$> aggregates = (fun x => sum_where f (fun k s => (in_campaign id k s && p k s)
    && bool_decide (cost_group s = x)) (sessions db)) <$> sort (cost_groups db id)).
  { clear H0 H1. induction H as [|g a gs aggs Hg _ IH]; [done|]. rewrite !fmap_cons, IH.
    by rewrite (Hcol g a Hg). }
  rewrite E. apply sum_where_groups; [apply sort_groups_NoDup|].
  intros k s Hk Hs. bool_prop. by eapply cost_groups_cover.
Qed.

Lemma in_cost_group_and group k s b :
  (in_campaign id k s && b) && bool_decide (cost_group s = group) = in_cost_group id group k s && b.
Proof.
  unfold in_campaign, in_cost_group. by destruct (_ =? _), b, (bool_decide _).
Qed.
End report.

(** The outcome column of a session that runs is empty, and of no other. *)
Lemma pending_running db k s :
  accounted db -> sessions db !! k = Some s ->
  cost_state_is None s = (ses_lifecycle s =? SESSION_RUNNING).
Proof.
  intros Hacc Hs. unfold cost_state_is.
  destruct (acc_session _ Hacc k s Hs) as (? & ? & ? & ? & ? & _ & _ & _ & _ & [(Hr & Ht & _)|(Hr & t & Ht & _)]);
    rewrite Ht; simpl.
  - by rewrite Hr.
  - symmetry. apply Z.eqb_neq. unfold SESSION_RUNNING. lia.
Qed.

(** C22: The spend report adds up: in a reachable state the report of a campaign,
    grouped by office, model and outcome in whatever order the database returns
    the groups, counts every session of the campaign once, accounts for exactly
    the campaign's measured cost, shows as pending exactly the sessions that still
    run, and shows none of unknown cost while the campaign's cost is known. *)
Theorem spend_report_adds_up blake3 ts sort db id c aggregates :
  kernel_reachable blake3 ts db -> campaigns db !! id = Some c -> (forall l, sort l ≡ₚ l) ->
  campaign_session_cost_aggregates sort db id = Ok aggregates ->
  total (sca_accounted_cost_micro_usd <$> aggregates) = cmp_measured_cost_micro_usd c /\
  total (sca_session_count <$> aggregates)
    = count_where (fun _ s => ses_campaign_id s =? id) (sessions db) /\
  total (sca_pending_cost_session_count <$> aggregates)
    = count_where (fun _ s => (ses_campaign_id s =? id) && (ses_lifecycle s =? SESSION_RUNNING))
        (sessions db) /\
  (cmp_cost_state c = COST_KNOWN -> total (sca_unknown_cost_session_count <$> aggregates) = 0).
Proof.
  intros Hacc%kernel_accounted Hc Hsort H.
  rewrite (bal_sum _ _ _ (acc_campaign _ Hacc id c Hc)), !count_where_sum. split_and!.
  - rewrite (report_column db id sort Hsort _ accounted_cost (fun _ _ => true) _ H).
    + apply sum_where_ext. intros k s _. rewrite andb_true_r. split; [done|]. intros _.
      unfold accounted_cost, session_cost. by destruct (ses_terminal s).
    + intros group a (_ & -> & _)%cost_aggregate_Ok. apply sum_where_ext. intros k s _.
      by rewrite in_cost_group_and, andb_true_r.
  - rewrite (report_column db id sort Hsort _ (fun _ => 1) (fun _ _ => true) _ H).
    + apply sum_where_ext. intros k s _. by rewrite andb_true_r.
    + intros group a (-> & _)%cost_aggregate_Ok. rewrite count_where_sum. apply sum_where_ext.
      intros k s _. by rewrite in_cost_group_and, andb_true_r.
  - rewrite (report_column db id sort Hsort _ (fun _ => 1) (fun _ s => cost_state_is None s) _ H).
    + apply sum_where_ext. intros k s Hk. by rewrite (pending_running db k s Hacc Hk).
    + intros group a (_ & _ & -> & _)%cost_aggregate_Ok. rewrite count_where_sum.
      apply sum_where_ext. intros k s _. by rewrite in_cost_group_and.
  - intros Hk. rewrite (report_column db id sort Hsort _ (fun _ => 1)
      (fun _ s => cost_state_is (Some COST_UNKNOWN) s) _ H).
    + apply sum_where_none. intros k s Hs. apply not_true_iff_false. intros Hu. bool_prop.
      unfold in_campaign, cost_state_is in *. bool_prop.
      destruct (ses_terminal s) as [t|] eqn:Ht; [|discriminate].
      destruct (known_campaign_sessions db id c k s t Hacc Hc Hk Hs ltac:(done) Ht) as [E _].
      simpl in *. unfold COST_KNOWN, COST_UNKNOWN in *. congruence.
    + intros group a (_ & _ & _ & ->)%cost_aggregate_Ok. rewrite count_where_sum.
      apply sum_where_ext. intros k s _. by rewrite in_cost_group_and.
Qed.

Lemma spend_report_adds_up_witness :
  let db := processed to_ended in
  exists c aggregates, campaigns db !! 1 = Some c /\
    campaign_session_cost_aggregates id db 1 = Ok aggregates /\ length aggregates = 1%nat /\
    total (sca_accounted_cost_micro_usd <$> aggregates) = cmp_measured_cost_micro_usd c.
Proof.
  intros db.
  assert (H : kernel_reachable checksum clock db) by (apply processed_reachable; vm_compute; reflexivity).
  assert (Hc : is_Some (campaigns db !! 1)) by (apply (bool_decide_unpack _); vm_compute; exact I).
  destruct (campaigns db !! 1) as [c|] eqn:E; [|destruct Hc; discriminate].
  assert (Hr : length <$> campaign_session_cost_aggregates id db 1 = Ok 1%nat)
    by (vm_compute; reflexivity).
  destruct (campaign_session_cost_aggregates id db 1) as [aggregates|e] eqn:Er; [|discriminate].
  injection Hr as Hr. exists c, aggregates. split_and!; [reflexivity|reflexivity|exact Hr|].
  exact (proj1 (spend_report_adds_up checksum clock id db 1 c aggregates H E
    (fun l => Permutation_refl l) Er)).
Defined.
