(* ===== verification/Driving.v ===== *)
(** Theorems on the daemon: its passes schedule at most two retries of a campaign's
    Product work, and a waiting pass repeats unchanged until something else
    acts. *)
From stdpp Require Import pretty.
From S2P Require Import Prelude Values Database Lifecycle Refinement History Invariants Guards.
From S2P Require Import TicketStore BufferStatus Scheduler Effects CampaignDriver.
From S2P Require Import ProviderEffects SessionRuntime AssignmentRuntime Kernel ProcessRefinement.
From S2P Require Import Frames DriverRuns LaunchRuns Accounting Economy Ledger.
From S2P Require Import Scenario ProcessScenario DriverScenario.
From S2P Require ProcessStore ProcessReads.

(** * Retries *)

(** C12: Termination of the retries: however many passes the daemon makes, and
    whatever acts in between, at most two of them schedule another Product session
    of one campaign, and at most one fewer for each Product assignment the
    campaign already had. *)
Theorem product_retries_bounded blake3 ts `{LawfulSession blake3 ts, LawfulAssignment blake3 ts}
    (d : DriverServices) `{!@LawfulResolver blake3 ts d} n w id :
  scheduled_retries id (@run_passes blake3 (with_launch blake3 d) n w).2
    <= Z.max 0 (2 - product_assignments id (w_db w)) /\
  scheduled_retries id (@run_passes blake3 (with_launch blake3 d) n w).2 <= 2.
Proof.
  pose proof (@run_passes_retries blake3 ts (with_launch blake3 d) _ _ n w id) as Hb.
  unfold MAX_PRODUCT_ASSIGNMENTS_PER_CAMPAIGN in Hb.
  assert (0 <= product_assignments id (w_db w)) by apply Nat2Z.is_nonneg. lia.
Qed.

Lemma product_retries_bounded_witness :
  scheduled_retries 1 (outcomes_of (launching (Ok tt) (Some 300)) 5) = 2 /\
  scheduled_retries 1 (outcomes_of (launching (Ok tt) (Some 300)) 5) <= 2.
Proof.
  split; [vm_compute; reflexivity|].
  exact (proj2 (product_retries_bounded checksum clock
    (H := session_services (Ok tt) (Some 300)) (quiet_services "secret") 5 started 1)).
Defined.

(** * Waiting *)

(** What a scheduled action that starts nothing reports. *)
Definition waiting_action (campaign_id : Z) (action : SchedulerNextAction)
  : option CampaignDriverOutcome :=
  match action with
  | AwaitArchitectDecision id proposed => Some (DriverAwaitingArchitect id proposed)
  | Idle id => Some (DriverIdle id)
  | BlockedBy constraint => Some (DriverBlocked constraint)
  | ContinueDownstream context =>
      if bool_decide (da_stage context = AwaitingArchitect)
      then Some (DriverAwaitingArchitect campaign_id 0) else None
  | _ => None
  end.

(** The outcome of a pass over [db] that starts nothing, if that is what it is. *)
Definition waits (unix_millis : Z -> Z) (db : Database) : option CampaignDriverOutcome :=
  match ProcessReads.current_running_campaign_id db with
  | Ok None => Some NoRunningCampaign
  | Ok (Some id) =>
      match ProcessReads.campaign_status unix_millis db id, recoverable_engineering_failure db id,
            recoverable_quality_failure db id, next_action db id with
      | Ok _, Ok None, Ok None, Ok action => waiting_action id action
      | _, _, _, _ => None
      end
  | Err _ => None
  end.

(** The loop sleeps after it. *)
Definition waiting (o : CampaignDriverOutcome) : bool := negb (driver_wait (Ok o) =? 0).

Section waiting.
Context (blake3 : list Z -> ContentDigest) `{Hservices : DriverServices}.

(** A pass that never reports waiting. *)
Definition starts (m : Pass CampaignDriverOutcome) : Prop :=
  forall w w' o, m w = (w', Ok o) -> waiting o = false.

Lemma starts_ret o : waiting o = false -> starts (mret o).
Proof. by intros Ho w w' o' [= _ <-]. Qed.

Lemma starts_throw e : starts (throw e).
Proof. intros w w' o [=]. Qed.

Lemma starts_bind {A} (m : Pass A) f : (forall a, starts (f a)) -> starts (m ≫= f).
Proof.
  intros Hf w w' o. unfold mbind, exec_bind. destruct (m w) as [w1 [a|e]]; [apply Hf|discriminate].
Qed.

Ltac starts_step :=
  match goal with
  | |- starts (mret _) => apply starts_ret; reflexivity
  | |- starts (throw _) => apply starts_throw
  | |- starts (_ ≫= _) => apply starts_bind; intros
  | |- starts (let _ := _ in _) => cbv zeta
  | |- starts (match ?x with _ => _ end) => destruct x eqn:?
  end.

Lemma retry_or_fail_starts id reason : starts (retry_or_fail_product blake3 id reason).
Proof. unfold retry_or_fail_product. repeat starts_step. Qed.

Lemma terminalize_starts id target reason retry :
  starts (terminalize_failed_launch blake3 id target reason retry).
Proof. unfold terminalize_failed_launch. repeat (starts_step || apply retry_or_fail_starts). Qed.

Lemma launch_starts id app revision target action :
  starts (launch blake3 id app revision target action).
Proof.
  unfold launch, settle_launch.
  repeat (starts_step || apply retry_or_fail_starts || apply terminalize_starts).
Qed.

Lemma continue_starts id app context :
  da_stage context <> AwaitingArchitect -> starts (continue_downstream blake3 id app context).
Proof.
  intros Hn. unfold continue_downstream, launch_current.
  repeat (starts_step || apply launch_starts). done.
Qed.

Lemma execute_starts id app action :
  waiting_action id action = None -> starts (execute_action blake3 id app action).
Proof.
  destruct action; simpl; try discriminate; intros Hw.
  - by repeat starts_step.
  - apply launch_starts.
  - unfold claim_then_launch. repeat (starts_step || apply launch_starts).
  - case_bool_decide; [discriminate|]. by apply continue_starts.
Qed.

Lemma execute_waits id app action o w :
  waiting_action id action = Some o -> execute_action blake3 id app action w = (w, Ok o).
Proof.
  destruct action; simpl; try discriminate; try by intros [= <-].
  case_bool_decide as Hs; [|discriminate]. intros [= <-]. unfold continue_downstream. by rewrite Hs.
Qed.

Lemma recoverable_quality_stage db id context :
  recoverable_quality_failure db id = Ok (Some context) -> da_stage context = ReworkQuality.
Proof.
  unfold recoverable_quality_failure.
  intros [[_ [=]]|([[[? ?] ?] [? ?]] & b & _ & Hb & [= ->])]%transpose_map_Ok. by ok_inv Hb.
Qed.

Context (Hbetween : forall n db, between n db = db).

(** A pass waits exactly when the state says so, and then it wrote nothing. *)
Lemma run_next_waits w o :
  waits unix_millis (w_db w) = Some o ->
  exists calls, run_next blake3 w = ({| w_db := w_db w; w_calls := calls |}, Ok o).
Proof.
  unfold waits, run_next. rewrite read_bind_quiet by done.
  destruct (ProcessReads.current_running_campaign_id (w_db w)) as [[id|]|]; [|intros [= <-]; by eexists|done].
  rewrite read_bind_quiet by done. cbn [w_db]. destruct (ProcessReads.campaign_status _ _ _) as [status|]; [|done].
  rewrite read_bind_quiet by done. cbn [w_db]. destruct (recoverable_engineering_failure _ _) as [[|]|]; [done| |done].
  rewrite read_bind_quiet by done. cbn [w_db]. destruct (recoverable_quality_failure _ _) as [[|]|]; [done| |done].
  rewrite read_bind_quiet by done. cbn [w_db]. destruct (next_action _ _) as [action|]; [|done].
  intros Hw. eexists. by apply execute_waits.
Qed.

Lemma run_next_waiting w w' o :
  run_next blake3 w = (w', Ok o) -> waiting o = true -> waits unix_millis (w_db w) = Some o.
Proof.
  unfold waits, run_next. rewrite read_bind_quiet by done. intros H Ho.
  destruct (ProcessReads.current_running_campaign_id (w_db w)) as [[id|]|]; [|by injection H as _ <-|done].
  rewrite read_bind_quiet in H by done. cbn [w_db] in H. destruct (ProcessReads.campaign_status _ _ _) as [status|]; [|done].
  rewrite read_bind_quiet in H by done. cbn [w_db] in H.
  destruct (recoverable_engineering_failure _ _) as [[r|]|]; [| |done].
  { assert (Hs : waiting o = false); [|congruence]. revert H. apply starts_bind. intros _. apply launch_starts. }
  rewrite read_bind_quiet in H by done. cbn [w_db] in H.
  destruct (recoverable_quality_failure _ _) as [[r|]|] eqn:Eq; [| |done].
  { assert (Hs : waiting o = false); [|congruence]. revert H. apply starts_bind. intros _.
    apply continue_starts. by rewrite (recoverable_quality_stage _ _ _ Eq). }
  rewrite read_bind_quiet in H by done. cbn [w_db] in H. destruct (next_action _ _) as [action|]; [|done].
  destruct (waiting_action id action) as [o'|] eqn:Ea.
  - rewrite (execute_waits _ _ _ _ _ Ea) in H. by injection H as _ <-.
  - by rewrite (execute_starts _ _ _ Ea _ _ _ H) in Ho.
Qed.

Lemma run_passes_waits n w o :
  waits unix_millis (w_db w) = Some o ->
  w_db (run_passes blake3 n w).1 = w_db w /\ (run_passes blake3 n w).2 = repeat (Ok o) n.
Proof.
  revert w. induction n as [|n IH]; intros w Hw; [done|]. simpl.
  destruct (run_next_waits _ _ Hw) as [calls ->].
  destruct (IH {| w_db := w_db w; w_calls := calls |} Hw) as [Hdb Ho].
  destruct (run_passes blake3 n _) as [w2 rs]. simpl in *. by subst.
Qed.
End waiting.

(** Quiescence: when nothing else acts, a pass reports that it waits (for a
    campaign, an Architect, a blocker to clear, or nothing to do) exactly when the
    state alone says so; it writes nothing, and every later pass reports the same
    over the same state. *)
Theorem waiting_passes_repeat blake3 `{DriverServices} (w : World) o :
  (forall n db, between n db = db) -> waiting o = true ->
  ((exists w', run_next blake3 w = (w', Ok o)) <-> waits unix_millis (w_db w) = Some o) /\
  (waits unix_millis (w_db w) = Some o -> forall n,
     w_db (run_passes blake3 n w).1 = w_db w /\ (run_passes blake3 n w).2 = repeat (Ok o) n).
Proof.
  intros Hb Ho. split.
  - split; [intros [w' E]; by eapply run_next_waiting|].
    intros Hw. destruct (run_next_waits blake3 Hb _ _ Hw) as [calls E]. eauto.
  - intros Hw n. by apply run_passes_waits.
Qed.

Lemma waiting_passes_repeat_witness :
  let w := {| w_db := processed []; w_calls := 0 |} in
  (@run_passes checksum (quiet_services "secret") 7 w).2 = repeat (Ok NoRunningCampaign) 7.
Proof.
  intros w.
  apply (@waiting_passes_repeat checksum (quiet_services "secret") w NoRunningCampaign);
    [reflexivity|reflexivity|vm_compute; reflexivity].
Defined.
