(* ===== verification/RestartRecovery.v ===== *)
(** Daemon-restart recovery ([crates/factory-kernel/src/restart_recovery.rs]): the
    exact process group a dead daemon left behind is ended, what its sessions left
    on disk is adopted or stood in for, and every interrupted session receives its
    terminal transition before the daemon serves again.

    Both singleton locks are held, so nothing else writes the database; the disk
    of the object store is shared, and every call may fail or be the last one of
    the process ([Machine]). *)
From stdpp Require Import pretty.
From S2P Require Import Prelude Values Contracts Json WireBundle Database ProcessStore.
From S2P Require Import Packet ProcessReads PacketAdmission Harness TerminalEvidence SessionRuntime Cas.
From S2P Require Import Lifecycle Refinement Kernel ProcessRefinement Frames Accounting Ledger Custody Bootstrap.
From S2P Require Import Contracts Application Base64 Canonical WireReader CampaignDriver AssignmentRuntime PacketBuild PacketReader.
From S2P Require Import Scenario ProcessScenario PacketScenario.
From S2P Require Import Packet Cas Database ProcessStore.
From S2P Require Storage.

#[local] Open Scope string_scope.
#[local] Open Scope list_scope.
#[local] Open Scope Z_scope.

(** [factory-settings]; durations in nanoseconds. *)
Definition RECOVERY_STAGING_DIRECTORY : string := "restart-recovery".
Definition RECOVERY_POLL_INTERVAL : Z := 10 * 1000000.
Definition RECOVERY_TERMINATION_GRACE : Z := 250 * 1000000.
Definition RECOVERY_PRINCIPAL : string := "kernel".

(** [factory-settings], again *)
Definition SESSION_STDOUT_RELATIVE_PATH : string := "stdout.log".
Definition SESSION_STDERR_RELATIVE_PATH : string := "stderr.log".
Definition SESSION_PARTIAL_TRANSCRIPT_RELATIVE_PATH : string := "session.ndjson".

Inductive Signal := TERM | KILL.
Inductive Errno := SRCH | OtherErrno (code : Z).

Inductive RestartRecoveryError :=
  | RecoveryProcess (e : ProcessError)
  | RecoveryStore (e : Storage.StorageError)
  | RecoveryRead (e : WorkspaceReadError)
  | RecoveryCas (e : CasError)
  | ZeroTerminationGrace
  | ZeroPollInterval
  | InvalidCustody (custody : ProcessCustodyV2)
  | PidOutOfRange (value : Z)
  | PidGroupMismatch (pid expected_pgid observed_pgid : Z)
  | LeaderMissingGroupSurvives (pid pgid : Z)
  | InspectProcessGroup (custody : ProcessCustodyV2) (source : Errno)
  | ObserveProcessGroup (source : Errno)
  | SignalProcessGroup (pid pgid : Z) (signal : Signal) (source : Errno)
  | GroupSurvivedKill (pid pgid : Z)
  | RecoveredArtifactChanged (path : string)
  | RecoveryAssertionChanged
  | EvidenceIo (operation path : string)
  | PartialTranscriptUtf8
  | PartialTranscriptTruncated
  | PartialTranscriptBlankRecord
  | PartialTranscriptInvalidJson.

Record RestartRecoveryPolicy := { termination_grace : Z; poll_interval : Z }.

Definition policy_new (grace interval : Z) : result RestartRecoveryError RestartRecoveryPolicy :=
  require (negb (grace =? 0)) ZeroTerminationGrace ;;
  require (negb (interval =? 0)) ZeroPollInterval ;;
  Ok {| termination_grace := grace; poll_interval := interval |}.

Definition bounded_default : RestartRecoveryPolicy :=
  {| termination_grace := RECOVERY_TERMINATION_GRACE; poll_interval := RECOVERY_POLL_INTERVAL |}.

(** * The process group *)

Inductive ProcessGroupObservation := Absent | TerminatedAfterTerm | TerminatedAfterKill.

(** The operating system: its processes act by themselves between two calls, so
    every call gives a next state of it. *)
Class Platform := {
  os : Type;
  now : os -> os * Z;
  getpgid : Z -> os -> os * result Errno Z;
  test_kill_process_group : Z -> os -> os * result Errno unit;
  kill_process_group : Z -> Signal -> os -> os * result Errno unit;
  sleep : Z -> os -> os;
}.

(** What recovery did to processes, and the answers. *)
Inductive PlatformEvent :=
  | Inspected (pid : Z) (answer : result Errno Z)
  | Probed (group : Z) (answer : result Errno unit)
  | Signalled (group : Z) (signal : Signal) (answer : result Errno unit).

Section group.
Context `{Platform}.

Record Host := { host_os : os; events : list PlatformEvent }.

Definition Custody (A : Type) : Type := Host -> Host * result (Stop RestartRecoveryError) A.

#[local] Instance custody_ret : MRet Custody := fun A a h => (h, Ok a).
#[local] Instance custody_bind : MBind Custody := fun A B f m h =>
  match m h with
  | (h', Ok a) => f a h'
  | (h', Err e) => (h', Err e)
  end.

Definition refuse {A} (e : RestartRecoveryError) : Custody A := fun h => (h, Err (Failed e)).

Definition system {A} (event : result Errno A -> PlatformEvent) (f : os -> os * result Errno A)
  : Custody (result Errno A) := fun h =>
  let '(s, answer) := f (host_os h) in
  ({| host_os := s; events := events h ++ [event answer] |}, Ok answer).

Definition read_clock : Custody Z := fun h =>
  let '(s, t) := now (host_os h) in ({| host_os := s; events := events h |}, Ok t).

Definition pause (duration : Z) : Custody unit := fun h =>
  ({| host_os := sleep duration (host_os h); events := events h |}, Ok tt).

Definition pid_from_u32 (value : Z) : Custody Z := fun h =>
  (h, map_err Failed (require ((0 <? value) && (value <=? i32_max)) (PidOutOfRange value) ;; Ok value)).

Definition group_exists (group : Z) : Custody bool :=
  answer ← system (Probed group) (test_kill_process_group group);
  match answer with
  | Ok _ => mret true
  | Err SRCH => mret false
  | Err source => refuse (ObserveProcessGroup source)
  end.

Definition signal_exact_group (group : Z) (signal : Signal) (custody : ProcessCustodyV2) : Custody unit :=
  answer ← system (Signalled group signal) (kill_process_group group signal);
  match answer with
  | Ok _ | Err SRCH => mret tt
  | Err source => refuse (SignalProcessGroup (pid custody) (pgid custody) signal source)
  end.

(** The polling loop, with the turns it may take. *)
Fixpoint wait_until (turns : nat) (group deadline interval : Z) : Custody bool :=
  match turns with
  | O => fun h => (h, Err OutOfTurns)
  | S turns =>
      alive ← group_exists group;
      if negb alive : bool then mret true else
      t ← read_clock;
      if deadline <=? t then mret false else
      t ← read_clock;
      pause (Z.min interval (Z.max 0 (deadline - t))) ;;
      wait_until turns group deadline interval
  end.

Definition wait_for_group_absence (turns : nat) (group : Z) (policy : RestartRecoveryPolicy) : Custody bool :=
  t ← read_clock;
  wait_until turns group (t + termination_grace policy) (poll_interval policy).

(** The signals to a group that exists. *)
Definition escalate (turns : nat) (group : Z) (custody : ProcessCustodyV2) (policy : RestartRecoveryPolicy)
  : Custody ProcessGroupObservation :=
  signal_exact_group group TERM custody ;;
  gone ← wait_for_group_absence turns group policy;
  if gone : bool then mret TerminatedAfterTerm else
  signal_exact_group group KILL custody ;;
  gone ← wait_for_group_absence turns group policy;
  if gone : bool then mret TerminatedAfterKill else
  refuse (GroupSurvivedKill (pid custody) (pgid custody)).

Definition terminate_owned_process_group (turns : nat) (custody : ProcessCustodyV2) (policy : RestartRecoveryPolicy)
  : Custody ProcessGroupObservation :=
  if (pid custody =? 0) || (pgid custody =? 0) || negb (pid custody =? pgid custody)
  then refuse (InvalidCustody custody) else
  leader ← pid_from_u32 (pid custody);
  group ← pid_from_u32 (pgid custody);
  answer ← system (Inspected leader) (getpgid leader);
  match answer with
  | Ok observed =>
      if negb (observed =? group) then refuse (PidGroupMismatch (pid custody) (pgid custody) observed) else
      alive ← group_exists group;
      if negb alive : bool then mret Absent else
      escalate turns group custody policy
  | Err SRCH =>
      alive ← group_exists group;
      if alive : bool then refuse (LeaderMissingGroupSurvives (pid custody) (pgid custody)) else mret Absent
  | Err source => refuse (InspectProcessGroup custody source)
  end.
End group.

(** * What the session left behind *)

(** The files recovery writes, by session directory and name, beside the object
    store's disk, the database and the host. *)
Record Recovering `{Platform} := {
  rc_run : Run;
  rc_files : gmap (string * string) (list Z);
  rc_db : Database;
  rc_host : Host;
}.

Definition is_cr (b : Z) : bool := b =? 13.

(** One piece of [str::lines]: without its carriage return. *)
Definition strip_cr (line : list Z) : list Z :=
  match rev line with b :: rest => if is_cr b then rev rest else line | [] => line end.

(** [str::lines] of a text that ends with a line break. *)
Definition text_lines (bytes : list Z) : list (list Z) := strip_cr <$> removelast (split_bytes 10 bytes).

Definition ends_with_newline (bytes : list Z) : bool :=
  match last bytes with Some b => b =? 10 | None => false end.

Definition validate_partial_ndjson `{BundleReader} (bytes : list Z) : result RestartRecoveryError unit :=
  if is_empty bytes then Ok tt else
  require (utf8_valid bytes) PartialTranscriptUtf8 ;;
  require (ends_with_newline bytes) PartialTranscriptTruncated ;;
  for_each (fun line =>
    require (negb (is_empty line)) PartialTranscriptBlankRecord ;;
    require (bool_decide (is_Some (rewrite_value line))) PartialTranscriptInvalidJson) (text_lines bytes).

Definition recovery_stream_placeholder (session_id : Z) (stream : string) : list Z :=
  string_bytes "factory-restart-stream-unavailable-v1" ++ [10] ++ string_bytes ("session_id=" +:+ pretty session_id)
  ++ [10] ++ string_bytes ("stream=" +:+ stream) ++ [10].

Definition recovery_transcript_placeholder (session_id : Z) : list Z :=
  json_object [("kind", json_quote "factory.restart.transcript_unavailable.v1"); ("session_id", json_number session_id)]
  ++ [10].

(** The staging root of a session's placeholders, as the files in it. *)
Definition recovery_staging (files : gmap (string * string) (list Z)) (directory : string) : Staging :=
  fun components => match components with
  | [] => Some StagedDirectory
  | [name] =>
      bytes ← files !! (directory, text_of name);
      let size := Z.of_nat (length bytes) in
      Some (StagedFile {| initial_length := size; initial_modified := None; chunks := [bytes];
                          final_length := size; final_modified := None |})
  | _ => None
  end.

(** A session of [restart_recovery_sessions] with its packet and the bytes. *)
Record InterruptedSession := {
  is_row : RestartRecoverySession;
  is_packet : Packet.AssignmentPacketV2;
  is_packet_artifact : CasArtifact;
  is_packet_bytes : list Z;
}.

Definition session_of (s : InterruptedSession) : Z := rs_session_id (is_row s).
Definition directory_of (s : InterruptedSession) : string := pretty (session_of s).

Section recovery.
Context (blake3 : list Z -> ContentDigest) (maximum_object_bytes : Z) (turns polls : nat) (staging_of : string -> Staging).
Context `{Machine} `{Platform} `{BundleReader} `{WireBundle.Json AssignmentPacketWireV2}.

Definition Recovery (A : Type) : Type := Recovering -> Recovering * result (Stop RestartRecoveryError) A.

#[local] Instance recovery_ret : MRet Recovery := fun A a w => (w, Ok a).
#[local] Instance recovery_bind : MBind Recovery := fun A B f m w =>
  match m w with
  | (w', Ok a) => f a w'
  | (w', Err e) => (w', Err e)
  end.

Definition reject {A} (e : RestartRecoveryError) : Recovery A := fun w => (w, Err (Failed e)).

Definition check {A} (r : result RestartRecoveryError A) : Recovery A := fun w => (w, map_err Failed r).

Definition set_run (run : Run) (w : Recovering) : Recovering :=
  {| rc_run := run; rc_files := rc_files w; rc_db := rc_db w; rc_host := rc_host w |}.
Definition set_files (files : gmap (string * string) (list Z)) (w : Recovering) : Recovering :=
  {| rc_run := rc_run w; rc_files := files; rc_db := rc_db w; rc_host := rc_host w |}.
Definition set_db (db : Database) (w : Recovering) : Recovering :=
  {| rc_run := rc_run w; rc_files := rc_files w; rc_db := db; rc_host := rc_host w |}.
Definition set_host (h : Host) (w : Recovering) : Recovering :=
  {| rc_run := rc_run w; rc_files := rc_files w; rc_db := rc_db w; rc_host := h |}.

Definition on_processes {A} (m : Custody A) : Recovery A := fun w =>
  let '(h, r) := m (rc_host w) in (set_host h w, r).

Definition on_objects {A} (wrap : CasError -> RestartRecoveryError) (m : Cas A) : Recovery A := fun w =>
  let '(run, r) := convert wrap m (rc_run w) in (set_run run w, r).

(** One call beside the object store's own: other processes act on its disk
    before it, and a call that fails or is cut short may have had a part of its
    effect. *)
Definition recovery_call {A} (failure : RestartRecoveryError) (partial : nat -> Recovering -> Recovering)
    (effect : Recovering -> Recovering * result RestartRecoveryError A) : Recovery A := fun w =>
  let run := rc_run w in
  let w := set_run {| disk := meanwhile (calls run) (disk run); calls := S (calls run); draws := draws run |} w in
  match outcome (calls run) with
  | Proceeds => let '(w', r) := effect w in (w', map_err Failed r)
  | Fails n => (partial n w, Err (Failed failure))
  | Crashes n => (partial n w, Err Crashed)
  end.

Definition unchanged_by_part : nat -> Recovering -> Recovering := fun _ w => w.

(** A transaction: all of it, also when only its answer is lost, or nothing. *)
Definition transaction {A} (f : Disk -> Database -> result RestartRecoveryError (A * Database)) : Recovery A :=
  recovery_call (RecoveryProcess (DatabaseError "connection"))
    (fun n w => match n, f (disk (rc_run w)) (rc_db w) with S _, Ok (_, db) => set_db db w | _, _ => w end)
    (fun w => match f (disk (rc_run w)) (rc_db w) with
              | Ok (a, db) => (set_db db w, Ok a) | Err e => (w, Err e) end).

Definition query {A} (f : Disk -> Database -> result RestartRecoveryError A) : Recovery A :=
  recovery_call (RecoveryProcess (DatabaseError "connection")) unchanged_by_part
    (fun w => (w, f (disk (rc_run w)) (rc_db w))).

Definition create_dir_all (directory : string) : Recovery unit :=
  recovery_call (EvidenceIo "create daemon-restart evidence directory" directory) unchanged_by_part
    (fun w => (w, Ok tt)).

(** [create_new], [write_all] and [sync_all]: [false] when the name is taken; a
    call cut short leaves nothing or a file with a part of the bytes. *)
Definition write_new (operation directory name : string) (bytes : list Z) : Recovery bool :=
  let part n w :=
    match rc_files w !! (directory, name), n with
    | None, S n => set_files (<[(directory, name) := take n bytes]> (rc_files w)) w
    | _, _ => w
    end in
  recovery_call (EvidenceIo operation name) part
    (fun w => match rc_files w !! (directory, name) with
              | Some _ => (w, Ok false)
              | None => (set_files (<[(directory, name) := bytes]> (rc_files w)) w, Ok true)
              end).

(** [adopt_and_register_actor_artifact] of [process.rs] *)
Definition adopt_and_register_actor_artifact (principal command_id : string) (build : ContentDigest)
    (staging : Recovering -> Staging) (path : string) (byte_limit : Z) : Recovery CasArtifact :=
  sealed ← (fun w => on_objects RecoveryCas (adopt blake3 maximum_object_bytes turns (staging w) path) w : _);
  check (require (negb ((byte_limit =? 0) || (byte_limit <? cas_byte_length sealed)))
    (RecoveryCas (SizeLimitExceeded path byte_limit (cas_byte_length sealed)))) ;;
  revision ← query (fun _ db =>
    row ← ok_or (Storage.build_by_digest db build) (RecoveryStore (Storage.UnknownKernelBuild build));
    map_err RecoveryStore (Storage.aggregate_revision_from_sql (kb_revision row.2)));
  _ ← transaction (fun d db => map_err RecoveryStore (Storage.register_artifact blake3 maximum_object_bytes d db {|
    Storage.ra_principal := principal; Storage.ra_command_id := command_id;
    Storage.ra_expected_kernel_build_revision := revision; Storage.ra_kernel_build_id := build;
    Storage.ra_sealed := sealed |}));
  mret sealed.

(** ** Evidence *)

Definition role_command (s : InterruptedSession) (role : string) : string :=
  "kernel-restart-session-" +:+ pretty (session_of s) +:+ "-" +:+ role.

Definition register_signed_staging_artifact (s : InterruptedSession) (staging : Recovering -> Staging)
    (path role : string) : Recovery CasArtifact :=
  adopt_and_register_actor_artifact RECOVERY_PRINCIPAL (role_command s role) (pkt_kernel_build_id (is_packet s))
    staging path maximum_object_bytes.

Definition signed_staging (s : InterruptedSession) : Staging := staging_of (pkt_staging_root (is_packet s)).
Definition placeholders (s : InterruptedSession) (w : Recovering) : Staging :=
  recovery_staging (rc_files w) (directory_of s).

Definition exists_or_is_missing (staging : Staging) (path : string) : Recovery bool :=
  recovery_call (EvidenceIo "inspect daemon-restart evidence" path) unchanged_by_part
    (fun w => (w, Ok (bool_decide (is_Some (staging (path_components path)))))).

Definition write_and_adopt_recovery_placeholder (s : InterruptedSession) (filename : string) (bytes : list Z)
    (role : string) : Recovery CasArtifact :=
  write_new "write daemon-restart placeholder evidence" (directory_of s) filename bytes ;;
  seal ← register_signed_staging_artifact s (placeholders s) filename role;
  stored ← on_objects RecoveryCas (read_verified blake3 maximum_object_bytes (cas_digest seal));
  check (require (bool_decide (stored = bytes)) (RecoveredArtifactChanged filename)) ;;
  mret seal.

Definition adopt_signed_staging_artifact_if_present (s : InterruptedSession) (path role : string)
  : Recovery (option CasArtifact) :=
  present ← exists_or_is_missing (signed_staging s) path;
  if present : bool
  then seal ← register_signed_staging_artifact s (fun _ => signed_staging s) path role; mret (Some seal)
  else mret None.

(** A stream of the session, or a placeholder for it. *)
Definition recovered_stream (s : InterruptedSession) (path stream : string) : Recovery CasArtifact :=
  found ← adopt_signed_staging_artifact_if_present s path stream;
  match found with
  | Some seal => mret seal
  | None => write_and_adopt_recovery_placeholder s (stream +:+ "-unavailable.txt")
      (recovery_stream_placeholder (session_of s) stream) (stream +:+ "-unavailable")
  end.

Definition is_unreadable (e : RestartRecoveryError) : bool :=
  match e with
  | PartialTranscriptUtf8 | PartialTranscriptTruncated | PartialTranscriptBlankRecord
  | PartialTranscriptInvalidJson => true
  | _ => false
  end.

Definition recover_structurally_readable_partial (s : InterruptedSession) : Recovery (option CasArtifact) :=
  let path := SESSION_PARTIAL_TRANSCRIPT_RELATIVE_PATH in
  present ← exists_or_is_missing (signed_staging s) path;
  if negb present : bool then mret None else
  physical ← on_objects RecoveryCas (adopt blake3 maximum_object_bytes turns (signed_staging s) path);
  bytes ← on_objects RecoveryCas (read_verified blake3 maximum_object_bytes (cas_digest physical));
  match validate_partial_ndjson bytes with
  | Ok _ =>
      registered ← register_signed_staging_artifact s (fun _ => signed_staging s) path "partial-transcript";
      check (require (bool_decide (registered = physical)) (RecoveredArtifactChanged path)) ;;
      mret (Some registered)
  | Err e => if is_unreadable e then mret None else reject e
  end.

Definition assertion_filename (session_id : Z) : string :=
  "required-read-assertion-" +:+ pretty session_id +:+ ".json".

(** [seal_assertion_after_daemon_restart] of [workspace_read.rs] *)
Definition seal_assertion_after_daemon_restart (s : InterruptedSession) (a : WorkspaceReadAuthority)
  : Recovery SealedRequiredReadAssertion :=
  let evidence := evidence_from_authority a in
  let filename := assertion_filename (aci_session_id (rre_binding evidence)) in
  write_new "write recovery required-read assertion" (directory_of s) filename (rre_canonical_bytes evidence) ;;
  artifact ← (fun w => on_objects (fun e => RecoveryRead (ReadCas e))
    (adopt blake3 maximum_object_bytes turns (placeholders s w) filename) w : _);
  stored ← on_objects (fun e => RecoveryRead (ReadCas e)) (read_verified blake3 maximum_object_bytes (cas_digest artifact));
  check (require (bool_decide (stored = rre_canonical_bytes evidence)) (RecoveryRead AssertionChanged)) ;;
  mret {| sra_evidence := evidence; sra_artifact := artifact |}.

Definition restart_report_preimage (s : InterruptedSession) : list Z :=
  let custody := rs_custody (is_row s) in
  string_bytes "factory-daemon-restart-terminal-v1" ++ [0] ++ be_bytes 8 (session_of s)
  ++ pkt_packet_digest (is_packet s) ++ be_bytes 4 (pid custody) ++ be_bytes 4 (pgid custody)
  ++ be_bytes 8 (started_at_unix_millis custody).

Definition restart_report (s : InterruptedSession) : TerminalReportV2 := {|
  report_packet_digest := pkt_packet_digest (is_packet s);
  report_expected_session_revision := rs_expected_session_revision (is_row s);
  report_operation := None;
  report_stop_reason := DaemonDisconnected;
  report_digest := blake3 (restart_report_preimage s) |}.

Definition restart_command (session_id : Z) : string := "kernel-restart-session-" +:+ pretty session_id.

Definition reconcile_one_session (s : InterruptedSession) : Recovery TerminalReceipt :=
  create_dir_all (RECOVERY_STAGING_DIRECTORY +:+ "/" +:+ directory_of s) ;;
  stdout ← recovered_stream s SESSION_STDOUT_RELATIVE_PATH "stdout";
  stderr ← recovered_stream s SESSION_STDERR_RELATIVE_PATH "stderr";
  partial ← recover_structurally_readable_partial s;
  transcript ← (match partial with
    | Some seal => mret seal
    | None => write_and_adopt_recovery_placeholder s "transcript-unavailable.ndjson"
        (recovery_transcript_placeholder (session_of s)) "transcript-unavailable"
    end);
  identity ← query (fun _ db =>
    map_err RecoveryProcess (actor_connection_identity db (session_of s) (stored_packet (is_packet s))));
  authority ← check (map_err RecoveryRead (read_authority identity
    (pkt_required_read_manifest_artifact_id (is_packet s)) (pkt_required_reads (is_packet s))));
  assertion ← seal_assertion_after_daemon_restart s authority;
  registered ← register_signed_staging_artifact s (placeholders s) (assertion_filename (session_of s))
    "required-read-assertion";
  check (require (bool_decide (registered = sra_artifact assertion)) RecoveryAssertionChanged) ;;
  evidence ← query (fun d db => map_err RecoveryProcess (verify_terminal_evidence_with_packet_bytes blake3
    maximum_object_bytes d db (session_of s) (is_packet s) (is_packet_artifact s) (is_packet_bytes s)
    {| tas_transcript := transcript; tas_execution_summary := None; tas_stdout := stdout; tas_stderr := stderr;
       tas_partial_transcript := partial |} assertion None));
  transaction (fun _ db => map_err RecoveryProcess (terminal_session blake3 db RECOVERY_PRINCIPAL
    (restart_command (session_of s)) (session_of s) (restart_report s) evidence)).

Record RestartRecoveredSession := {
  rrs_session_id : Z;
  rrs_process_group_observation : ProcessGroupObservation;
  rrs_terminal : TerminalReceipt;
}.

(** A session as [restart_recovery_sessions] returns it, read once more for the
    parts of it that [RestartRecoverySession] keeps apart. *)
Definition interrupted_session (d : Disk) (row : Z * SessionRow * AssignmentIdentity * ArtifactRow * KernelBuildRow)
  : result ProcessError InterruptedSession :=
  let '(id, session, a, artifact, kb) := row in
  let load artifact length digest := load_packet blake3 maximum_object_bytes d artifact length digest in
  recovered ← restart_recovery_session (fun x y z => stored_packet <$> load x y z) id session a artifact kb;
  packet ← load (art_digest artifact) (art_byte_length artifact) (ai_packet_digest a);
  bytes ← packet_object blake3 maximum_object_bytes d (art_digest artifact);
  Ok {| is_row := recovered; is_packet := packet;
        is_packet_artifact := {| cas_digest := art_digest artifact; cas_byte_length := art_byte_length artifact |};
        is_packet_bytes := bytes |}.

Definition interrupted_sessions (d : Disk) (db : Database) : result ProcessError (list InterruptedSession) :=
  map_ok (interrupted_session d) (running_session_rows db).

Fixpoint recover_all (policy : RestartRecoveryPolicy) (l : list InterruptedSession)
  : Recovery (list RestartRecoveredSession) :=
  match l with
  | [] => mret []
  | s :: l =>
      observation ← on_processes (terminate_owned_process_group polls (rs_custody (is_row s)) policy);
      terminal ← reconcile_one_session s;
      rest ← recover_all policy l;
      mret ({| rrs_session_id := session_of s; rrs_process_group_observation := observation;
               rrs_terminal := terminal |} :: rest)
  end.

Definition reconcile_daemon_restart (policy : RestartRecoveryPolicy) : Recovery (list RestartRecoveredSession) :=
  l ← query (fun d db => map_err RecoveryProcess (interrupted_sessions d db));
  recover_all policy l.
End recovery.

(** * Theorems on the process group *)

Section group_theorems.
Context `{Platform}.


(** What a call adds to the events, with its result. *)
Definition emits {A} (m : Custody A) (Q : list PlatformEvent -> result (Stop RestartRecoveryError) A -> Prop) : Prop :=
  forall h h' r, m h = (h', r) -> exists l, events h' = events h ++ l /\ Q l r.

Lemma emits_bind {A B} (m : Custody A) (f : A -> Custody B) Q R :
  emits m Q -> (forall a l, Q l (Ok a) -> emits (f a) (fun l' r => R (l ++ l') r)) ->
  (forall e l, Q l (Err e) -> R l (Err e)) -> emits (custody_bind A B f m) R.
Proof.
  intros Hm Hf He h h' r. unfold custody_bind. destruct (m h) as [h1 [a|e]] eqn:E; apply Hm in E as (l & Ev & HQ).
  - intros E. apply (Hf a l HQ) in E as (l' & Ev' & HR). exists (l ++ l'). by rewrite Ev', Ev, (assoc_L (++)).
  - intros [= <- <-]. eauto.
Qed.

Lemma emits_weaken {A} (m : Custody A) (Q R : list PlatformEvent -> result (Stop RestartRecoveryError) A -> Prop) :
  emits m Q -> (forall l r, Q l r -> R l r) -> emits m R.
Proof. intros Hm HQ h h' r (l & Ev & Hl)%Hm. eauto. Qed.

Lemma emits_now {A} (r : result (Stop RestartRecoveryError) A) Q : Q [] r -> emits (fun h => (h, r)) Q.
Proof. intros HQ h h' r' [= <- <-]. exists []. by rewrite app_nil_r. Qed.

Ltac emit := apply emits_now; cbv beta; rewrite ?app_nil_r.

Lemma emits_system {A} (event : result Errno A -> PlatformEvent) f :
  emits (system event f) (fun l r => exists answer, l = [event answer] /\ r = Ok answer).
Proof. intros h h' r. unfold system. destruct (f (host_os h)) as [s answer]. intros [= <- <-]. eauto. Qed.

Lemma emits_clock : emits read_clock (fun l r => l = [] /\ exists t, r = Ok t).
Proof.
  intros h h' r. unfold read_clock. destruct (now (host_os h)) as [s t]. intros [= <- <-].
  exists []. rewrite app_nil_r. eauto.
Qed.

Lemma emits_pause duration : emits (pause duration) (fun l _ => l = []).
Proof. intros h h' r [= <- <-]. exists []. by rewrite app_nil_r. Qed.

(** The recorded leader and group, and nothing else. *)
Definition addresses (custody : ProcessCustodyV2) (e : PlatformEvent) : Prop :=
  match e with
  | Inspected p _ => p = pid custody
  | Probed g _ | Signalled g _ _ => g = pgid custody
  end.

Definition signals (l : list PlatformEvent) : list Signal :=
  omap (fun e => match e with Signalled _ s _ => Some s | _ => None end) l.

Definition signals_of (observation : ProcessGroupObservation) : list Signal :=
  match observation with Absent => [] | TerminatedAfterTerm => [TERM] | TerminatedAfterKill => [TERM; KILL] end.

Lemma signals_app l l' : signals (l ++ l') = signals l ++ signals l'.
Proof. apply omap_app. Qed.

(** Only probes, which end with the answer that the group is gone when [gone]. *)
Definition probing (group : Z) (gone : Prop) (l : list PlatformEvent) : Prop :=
  Forall (fun e => exists a, e = Probed group a) l /\ (gone -> last l = Some (Probed group (Err SRCH))).

Lemma probing_app group P Q l l' : probing group P l -> probing group Q l' -> probing group Q (l ++ l').
Proof. intros [Hl _] [Hl' Hg]. split; [by apply Forall_app_2|]. intros H'. by rewrite last_app, (Hg H'). Qed.

Lemma probing_signals group gone l : probing group gone l -> signals l = [].
Proof. intros [Hl _]. induction Hl as [|e l [a ->] _ IH]; [done|exact IH]. Qed.

Lemma probing_addresses custody gone l : probing (pgid custody) gone l -> Forall (addresses custody) l.
Proof. intros [Hl _]. eapply Forall_impl; [exact Hl|]. by intros e [a ->]. Qed.

Lemma emits_group_exists group : emits (group_exists group) (fun l r => probing group (r = Ok false) l).
Proof.
  eapply emits_bind; [apply emits_system| |by intros e l (answer & _ & [=])].
  intros answer l (answer' & -> & [= <-]).
  assert (Hl : Forall (fun e => exists a, e = Probed group a) [Probed group answer]) by (by repeat econstructor).
  destruct answer as [u|[|code]]; emit; by split.
Qed.

Lemma emits_signal group signal custody :
  emits (signal_exact_group group signal custody) (fun l _ => exists answer, l = [Signalled group signal answer]).
Proof.
  eapply emits_bind; [apply emits_system| |by intros e l (answer & _ & [=])].
  intros answer l (answer' & -> & _). destruct answer as [u|[|code]]; emit; eauto.
Qed.

Lemma emits_wait_until turns group deadline interval :
  emits (wait_until turns group deadline interval) (fun l r => probing group (r = Ok true) l).
Proof.
  induction turns as [|turns IH]; [by emit; split|].
  eapply emits_bind; [apply emits_group_exists| |intros e l Hl; by split; [apply Hl|]].
  intros [] l Hl; simpl; [|by emit; split; [apply Hl|intros _; apply Hl]].
  eapply emits_bind; [apply emits_clock| |by intros e l1 (_ & t & [=])]. intros t l1 [-> _].
  destruct (deadline <=? t); [by emit; split; [apply Hl|]|].
  eapply emits_bind; [apply emits_clock| |by intros e l1 (_ & t2 & [=])]. intros t2 l1 [-> _].
  eapply emits_bind; [apply emits_pause| |intros e l1 ->; cbv beta; rewrite ?app_nil_r; by split; [apply Hl|]]. intros _ l1 ->.
  eapply emits_weaken; [exact IH|]. intros l1 r Hl1. rewrite ?app_nil_r. by eapply probing_app.
Qed.

Lemma emits_wait turns group policy :
  emits (wait_for_group_absence turns group policy) (fun l r => probing group (r = Ok true) l).
Proof.
  eapply emits_bind; [apply emits_clock| |by intros e l (_ & t & [=])]. intros t l [-> _]. apply emits_wait_until.
Qed.

(** What a call of [terminate_owned_process_group] did: it spoke of the recorded
    leader and group only, sent a signal only to a group it had first seen that
    leader in, [KILL] only after [TERM], and reports what it sent after a last
    probe that found no group. *)
Record well_conducted (custody : ProcessCustodyV2) (l : list PlatformEvent)
    (r : result (Stop RestartRecoveryError) ProcessGroupObservation) : Prop := {
  conduct_addressed : Forall (addresses custody) l;
  conduct_signals : signals l `prefix_of` [TERM; KILL];
  conduct_seen : signals l <> [] -> head l = Some (Inspected (pid custody) (Ok (pgid custody)));
  conduct_reported : forall o, r = Ok o ->
    signals l = signals_of o /\ last l = Some (Probed (pgid custody) (Err SRCH));
}.

Lemma last_app_Some {A} (b : A) l l' : last l' = Some b -> last (l ++ l') = Some b.
Proof. intros H'. by rewrite last_app, H'. Qed.

(** One signal and the wait for its effect; [next] is what follows. *)
Lemma emits_stage turns group signal custody policy {A} (next : bool -> Custody A) R :
  (forall b answer l, probing group (b = true) l ->
    emits (next b) (fun l' r => R ((Signalled group signal answer :: l) ++ l') r)) ->
  (forall e answer l, probing group False l -> R (Signalled group signal answer :: l) (Err e)) ->
  emits (custody_bind _ _ (fun _ => custody_bind _ _ next (wait_for_group_absence turns group policy))
    (signal_exact_group group signal custody)) R.
Proof.
  intros Hnext Herr. eapply emits_bind; [apply emits_signal| |intros e l [answer ->]; by apply Herr].
  intros u l [answer ->]. eapply emits_bind; [apply emits_wait| |].
  - intros b l Hl. apply (Hnext b answer l). split; [apply Hl|]. intros ->. by apply Hl.
  - intros e l Hl. apply (Herr e answer l). by split; [apply Hl|].
Qed.

Definition escalated (custody : ProcessCustodyV2) (l : list PlatformEvent)
    (r : result (Stop RestartRecoveryError) ProcessGroupObservation) : Prop :=
  Forall (addresses custody) l /\ signals l `prefix_of` [TERM; KILL] /\
  forall o, r = Ok o -> signals l = signals_of o /\ last l = Some (Probed (pgid custody) (Err SRCH)).

Lemma emits_escalate turns custody policy : emits (escalate turns (pgid custody) custody policy) (escalated custody).
Proof.
  assert (Hsent : forall signal answer P l, probing (pgid custody) P l ->
    Forall (addresses custody) (Signalled (pgid custody) signal answer :: l) /\
    signals (Signalled (pgid custody) signal answer :: l) = [signal]).
  { intros signal answer P l Hl. split; [constructor; [done|by eapply probing_addresses]|].
    change (signal :: signals l = [signal]). by rewrite (probing_signals _ _ _ Hl). }
  apply emits_stage.
  - intros [] a1 l1 Hl1; destruct (Hsent TERM a1 _ _ Hl1) as [Ha1 Hs1].
    + emit. split_and!; [done|rewrite Hs1; by exists [KILL]|].
      intros o [= <-]. split; [done|]. by apply (last_app_Some _ [_]), Hl1.
    + apply emits_stage; [intros b a2 l2 Hl2|intros e a2 l2 Hl2]; destruct (Hsent KILL a2 _ _ Hl2) as [Ha2 Hs2];
        [destruct b; emit|];
        (split_and!; [by apply (Forall_app_2 _ (_ :: _))|rewrite (signals_app (_ :: _)), Hs1, Hs2; by exists []|]);
        [|done..].
      intros o [= <-]. split; [by rewrite (signals_app (_ :: _)), Hs1, Hs2|].
      by apply (last_app_Some _ (_ :: _)), (last_app_Some _ [_]), Hl2.
  - intros e a1 l1 Hl1. destruct (Hsent TERM a1 _ _ Hl1) as [Ha1 Hs1].
    split_and!; [done|rewrite Hs1; by exists [KILL]|done].
Qed.

Lemma emits_pid value : emits (pid_from_u32 value) (fun l r => l = [] /\ forall v, r = Ok v -> v = value).
Proof. emit. unfold require. destruct (_ && _); split; try done; by intros v [= <-]. Qed.

(** Without signals. *)
Lemma conducted_quietly custody l r :
  Forall (addresses custody) l -> signals l = [] ->
  (forall o, r = Ok o -> o = Absent /\ last l = Some (Probed (pgid custody) (Err SRCH))) -> well_conducted custody l r.
Proof.
  intros Ha Hs Hr. constructor; [done|rewrite Hs; apply prefix_nil|by rewrite Hs|]. intros o [-> Hl]%Hr. by rewrite Hs.
Qed.

Lemma emits_terminate turns custody policy :
  emits (terminate_owned_process_group turns custody policy) (well_conducted custody).
Proof.
  unfold terminate_owned_process_group. destruct (_ || _); [by emit; apply conducted_quietly|].
  eapply emits_bind; [apply emits_pid| |by intros e l [-> _]; apply conducted_quietly].
  intros p l [-> Hp]. rewrite (Hp p eq_refl). clear p Hp.
  eapply emits_bind; [apply emits_pid| |by intros e l [-> _]; apply conducted_quietly].
  intros g l [-> Hg]. rewrite (Hg g eq_refl). clear g Hg.
  eapply emits_bind; [apply emits_system| |by intros e l (answer & _ & [=])].
  intros answer l (answer' & -> & [= <-]).
  assert (Hquiet : forall P l r, probing (pgid custody) P l ->
    (forall o, r = Ok o -> o = Absent /\ P) -> well_conducted custody (Inspected (pid custody) answer :: l) r).
  { intros P l r Hl Hr. apply conducted_quietly; [constructor; [done|by eapply probing_addresses]|exact (probing_signals _ _ _ Hl)|].
    intros o [-> HP]%Hr. split; [done|]. by apply (last_app_Some _ [_]), Hl. }
  assert (Hnone : probing (pgid custody) False []) by by split.
  destruct answer as [observed|[|code]]; [|eapply emits_bind; [apply emits_group_exists| |]|by emit; apply (Hquiet False)].
  - destruct (Z.eqb_spec observed (pgid custody)) as [->|_]; simpl; [|by emit; apply (Hquiet False)].
    eapply emits_bind; [apply emits_group_exists| |intros e l Hl; by eapply (Hquiet _ _ _ Hl)].
    intros [] l Hl; simpl; [|emit; by eapply (Hquiet _ _ _ Hl); intros o [= <-]].
    eapply emits_weaken; [apply emits_escalate|]. intros l' r (Ha & Hs & Hr).
    assert (Hs' : signals (Inspected (pid custody) (Ok (pgid custody)) :: l ++ l') = signals l')
      by (change (signals (l ++ l') = signals l'); by rewrite signals_app, (probing_signals _ _ _ Hl)).
    constructor; [constructor; [done|]; apply Forall_app_2; [by eapply probing_addresses|done]|by rewrite Hs'|done|].
    intros o [Hs1 Hl1]%Hr. rewrite Hs'. split; [done|]. by apply (last_app_Some _ (_ :: _)).
  - intros [] l Hl; emit; [by eapply (Hquiet _ _ _ Hl)|by eapply (Hquiet _ _ _ Hl); intros o [= <-]].
  - intros e l Hl. by eapply (Hquiet _ _ _ Hl).
Qed.

(** C37: On whatever platform and wherever it fails, ending the process group of a
    dead daemon's session is confined to what the kernel recorded: every call
    names the recorded leader or group, no signal is sent unless the leader was
    seen in that group first, [KILL] follows only [TERM], and success is reported
    with exactly the signals that were sent and only when the last probe found no
    group. *)
Theorem only_the_recorded_group turns custody policy h h' r :
  terminate_owned_process_group turns custody policy h = (h', r) ->
  exists l, events h' = events h ++ l /\ well_conducted custody l r.
Proof. apply emits_terminate. Qed.
End group_theorems.

(** ** The wait ends *)

(** A monotonic clock: [clock] bounds every later reading from below, and a pause
    lasts as long as it was asked to. *)
Class LawfulClock `{Platform} (clock : os -> Z) : Prop := {
  clock_now s : clock s <= (now s).2 <= clock (now s).1;
  clock_getpgid p s : clock s <= clock (getpgid p s).1;
  clock_probe g s : clock s <= clock (test_kill_process_group g s).1;
  clock_signal g signal s : clock s <= clock (kill_process_group g signal s).1;
  clock_sleep d s : 0 <= d -> clock s + d <= clock (sleep d s);
}.

Section wait.
Context `{P : Platform} (clock : os -> Z) {LC : LawfulClock clock}.

(** [m] ends, whatever the state it starts in. *)
Definition ends {A} (m : Custody A) : Prop := forall h, (m h).2 <> Err OutOfTurns.

Lemma ends_bind {A B} (m : Custody A) (f : A -> Custody B) :
  ends m -> (forall a, ends (f a)) -> ends (custody_bind A B f m).
Proof.
  intros Hm Hf h. unfold custody_bind. specialize (Hm h). destruct (m h) as [h1 [a|e]]; [apply Hf|].
  simpl in *. intros [= ->]. by apply Hm.
Qed.

Lemma ends_system {A} (event : result Errno A -> PlatformEvent) f : ends (system event f).
Proof. intros h. unfold system. by destruct (f (host_os h)). Qed.

Lemma ends_signal group signal custody : ends (signal_exact_group group signal custody).
Proof. apply ends_bind; [apply ends_system|]. by intros [u|[|code]]. Qed.

Lemma ends_group_exists group : ends (group_exists group).
Proof. apply ends_bind; [apply ends_system|]. by intros [u|[|code]]. Qed.

Lemma group_exists_clock group h : clock (host_os h) <= clock (host_os (group_exists group h).1).
Proof.
  unfold group_exists, mbind, custody_bind, system. pose proof (clock_probe group (host_os h)) as Hc.
  destruct (test_kill_process_group group (host_os h)) as [s answer]. by destruct answer as [u|[|code]].
Qed.

Lemma wait_until_ends turns group deadline interval h :
  0 < interval -> deadline - clock (host_os h) <= interval * (Z.of_nat turns - 1) -> (0 < turns)%nat ->
  (wait_until turns group deadline interval h).2 <> Err OutOfTurns.
Proof.
  intros Hi. revert h. induction turns as [|turns IH]; intros h Hd Ht; [lia|]. cbn [wait_until].
  unfold mbind, custody_bind at 1. pose proof (group_exists_clock group h) as Hc.
  pose proof (ends_group_exists group h) as He. destruct (group_exists group h) as [h1 [alive|e]]; [|intros [= ->]; by apply He].
  simpl in Hc. clear He. destruct alive; simpl; [|done]. unfold custody_bind, read_clock.
  pose proof (clock_now (host_os h1)) as Hn. destruct (now (host_os h1)) as [s t]. simpl in *.
  destruct (Z.leb_spec deadline t); [done|]. simpl.
  pose proof (clock_now s) as Hn2. destruct (now s) as [s2 t2]. simpl in *.
  pose proof (clock_sleep (Z.min interval (Z.max 0 (deadline - t2))) s2 ltac:(lia)) as Hs.
  rewrite Nat2Z.inj_succ, Z.sub_1_r, Z.pred_succ in Hd. destruct turns as [|turns]; [lia|]. apply IH; [|lia].
  simpl. rewrite Nat2Z.inj_succ in *. destruct (Z.le_gt_cases interval (deadline - t2)); nia.
Qed.

Lemma ends_wait turns group policy :
  0 < poll_interval policy -> termination_grace policy <= poll_interval policy * (Z.of_nat turns - 1) -> (0 < turns)%nat ->
  ends (wait_for_group_absence turns group policy).
Proof.
  intros Hi Hd Ht h. unfold wait_for_group_absence, mbind, custody_bind, read_clock.
  pose proof (clock_now (host_os h)) as Hn. destruct (now (host_os h)) as [s t]. simpl in *.
  apply wait_until_ends; simpl; lia.
Qed.

Lemma ends_pid value : ends (pid_from_u32 value).
Proof. intros h. unfold pid_from_u32, require. by destruct (_ && _). Qed.

(** Against a clock that advances, ending a process group takes boundedly many
    probes: with one more turn than poll intervals fit into the grace period, no
    wait runs out of turns, whatever the processes and signals do. *)
Theorem group_termination_ends turns custody policy h :
  0 < poll_interval policy -> termination_grace policy <= poll_interval policy * (Z.of_nat turns - 1) -> (0 < turns)%nat ->
  (terminate_owned_process_group turns custody policy h).2 <> Err OutOfTurns.
Proof.
  intros Hi Hd Ht. revert h. change (ends (terminate_owned_process_group turns custody policy)).
  pose proof (fun group => ends_wait turns group policy Hi Hd Ht) as Hw.
  unfold terminate_owned_process_group. destruct (_ || _); [done|].
  apply ends_bind; [apply ends_pid|intros leader]. apply ends_bind; [apply ends_pid|intros group].
  apply ends_bind; [apply ends_system|]. intros [observed|[|code]]; [|apply ends_bind; [apply ends_group_exists|by intros []]|done].
  destruct (negb _); [done|]. apply ends_bind; [apply ends_group_exists|]. intros []; simpl; [|done].
  apply ends_bind; [apply ends_signal|intros _]. apply ends_bind; [apply Hw|]. intros []; [done|].
  apply ends_bind; [apply ends_signal|intros _]. apply ends_bind; [apply Hw|]. by intros [].
Qed.
End wait.

(** * Theorems on recovery *)

(** What the steps before the terminal transition do: nothing to the process
    tables or the processes, and no file of theirs is ever replaced. *)
Record quiet `{Platform} (w w' : Recovering) : Prop := {
  quiet_db : ambient (rc_db w) (rc_db w');
  quiet_files : rc_files w ⊆ rc_files w';
  quiet_host : rc_host w' = rc_host w;
}.

#[global] Instance quiet_preorder `{Platform} : PreOrder quiet.
Proof.
  split; [by intros w|]. intros x y z [D F E] [D' F' E']. constructor; [by etransitivity..|congruence].
Qed.

Create HintDb still.

Section recovery_theorems.
Context (blake3 : list Z -> ContentDigest) (maximum : Z) (turns polls : nat) (staging_of : string -> Staging).
Context `{M : Machine} `{P : Platform} `{R : BundleReader} `{J : WireBundle.Json AssignmentPacketWireV2}.

Definition still {A} (m : Recovery A) : Prop := forall w, quiet w (m w).1.

Lemma still_bind {A B} (m : Recovery A) (f : A -> Recovery B) :
  still m -> (forall a, still (f a)) -> still (recovery_bind A B f m).
Proof.
  intros Hm Hf w. unfold recovery_bind. specialize (Hm w). destruct (m w) as [w1 [a|e]]; [|done].
  etransitivity; [exact Hm|apply Hf].
Qed.

Lemma still_now {A} (r : result (Stop RestartRecoveryError) A) : still (fun w => (w, r)).
Proof. by intros w. Qed.

Lemma still_match {A B} (o : option B) (f : B -> Recovery A) (g : Recovery A) :
  (forall b, still (f b)) -> still g -> still (match o with Some b => f b | None => g end).
Proof. by destruct o. Qed.

Lemma still_call {A} failure partial (effect : Recovering -> Recovering * result RestartRecoveryError A) :
  (forall n w, quiet w (partial n w)) -> (forall w, quiet w (effect w).1) -> still (recovery_call failure partial effect).
Proof.
  intros Hp He w. unfold recovery_call.
  match goal with |- context [set_run ?run w] => set (w1 := set_run run w) end.
  transitivity w1; [by constructor|]. destruct (outcome _); [|apply Hp..].
  specialize (He w1). by destruct (effect w1).
Qed.

Lemma still_transaction {A} (f : Disk -> Database -> result RestartRecoveryError (A * Database)) :
  (forall d db a db', f d db = Ok (a, db') -> ambient db db') -> still (transaction f).
Proof.
  intros Hf. apply still_call; [intros [|n] w; [done|]|intros w];
    destruct (f _ _) as [[a db]|e] eqn:E; try done; (constructor; [by eapply Hf|done|done]).
Qed.

Lemma still_query {A} (f : Disk -> Database -> result RestartRecoveryError A) : still (query f).
Proof. by apply still_call. Qed.

Lemma still_write_new operation directory name bytes : still (write_new operation directory name bytes).
Proof.
  apply still_call; [intros n w|intros w]; destruct (rc_files w !! (directory, name)) eqn:E; try done;
    [destruct n; [done|]|]; (constructor; [done|by apply insert_subseteq|done]).
Qed.

Lemma still_objects {A} wrap (m : Cas A) : still (on_objects wrap m).
Proof. intros w. unfold on_objects. by destruct (convert wrap m (rc_run w)) as [run r]. Qed.

Lemma still_with {A} (m : Recovering -> Recovery A) : (forall w, still (m w)) -> still (fun w => m w w).
Proof. intros Hm w. apply Hm. Qed.

Lemma still_exists staging path : still (exists_or_is_missing staging path).
Proof. by apply still_call. Qed.

Lemma still_create_dir directory : still (create_dir_all directory).
Proof. by apply still_call. Qed.

Lemma still_check {A} (r : result RestartRecoveryError A) : still (check r).
Proof. by intros w. Qed.

Lemma still_register principal command_id build staging path byte_limit :
  still (adopt_and_register_actor_artifact blake3 maximum turns principal command_id build staging path byte_limit).
Proof.
  apply still_bind; [apply (still_with (fun w => on_objects RecoveryCas _)); intros; apply still_objects|intros sealed].
  apply still_bind; [apply still_check|intros _]. apply still_bind; [apply still_query|intros revision].
  apply still_bind; [|intros _; apply still_now]. apply still_transaction. intros d db a db' E.
  destruct (Storage.register_artifact _ _ _ _ _) as [[r db1]|e] eqn:Er; [|done]. injection E as _ <-.
  apply register_artifact_step in Er. apply Er.
Qed.
End recovery_theorems.

#[export] Hint Resolve still_now still_match still_query still_write_new still_objects still_exists still_create_dir
  still_check still_register : still.

(** One step after the other, none of them touching the process tables. *)
Ltac still_steps := repeat first [solve [eauto with still]
  | lazymatch goal with |- still (mbind _ _) => apply still_bind; [|intros ?] end].

Section recovered.
Context (blake3 : list Z -> ContentDigest) (maximum : Z) (turns polls : nat) (staging_of : string -> Staging).
Context `{M : Machine} `{P : Platform} `{R : BundleReader} `{J : WireBundle.Json AssignmentPacketWireV2}.

Lemma still_signed s staging path role : still (register_signed_staging_artifact blake3 maximum turns s staging path role).
Proof. apply still_register. Qed.

#[local] Hint Resolve still_signed : still.

Lemma still_placeholder s filename bytes role :
  still (write_and_adopt_recovery_placeholder blake3 maximum turns s filename bytes role).
Proof. unfold write_and_adopt_recovery_placeholder. still_steps. Qed.

Lemma still_present s path role : still (adopt_signed_staging_artifact_if_present blake3 maximum turns staging_of s path role).
Proof. apply still_bind; [eauto with still|intros []]; still_steps. Qed.

#[local] Hint Resolve still_placeholder still_present : still.

Lemma still_stream s path stream : still (recovered_stream blake3 maximum turns staging_of s path stream).
Proof. apply still_bind; [eauto with still|intros []]; eauto with still. Qed.

Lemma still_partial s : still (recover_structurally_readable_partial blake3 maximum turns staging_of s).
Proof.
  apply still_bind; [eauto with still|intros []]; [|by apply still_now]. simpl.
  apply still_bind; [eauto with still|intros physical]. apply still_bind; [eauto with still|intros bytes].
  destruct (validate_partial_ndjson bytes) as [[]|e]; [still_steps|]. by destruct (is_unreadable e); apply still_now.
Qed.

Lemma still_seal s a : still (seal_assertion_after_daemon_restart blake3 maximum turns s a).
Proof.
  apply still_bind; [eauto with still|intros _].
  apply still_bind; [apply (still_with (fun w => on_objects (fun e => RecoveryRead (ReadCas e)) _)); eauto with still|].
  intros artifact. still_steps.
Qed.

#[local] Hint Resolve still_stream still_partial still_seal : still.

Lemma query_Ok {A} (f : Disk -> Database -> result RestartRecoveryError A) w w' a :
  query f w = (w', Ok a) -> exists d, f d (rc_db w) = Ok a.
Proof.
  unfold query, recovery_call. destruct (outcome _); [|done..]. simpl.
  destruct (f _ _) as [a'|e] eqn:E; intros [= _ <-]. eauto.
Qed.

Lemma query_db {A} (f : Disk -> Database -> result RestartRecoveryError A) w w' r :
  query f w = (w', r) -> rc_db w' = rc_db w.
Proof. unfold query, recovery_call. destruct (outcome _); by intros [= <- _]. Qed.

(** A transaction commits or leaves the database as it was; without its answer
    nothing is known of it. *)
Lemma transaction_run {A} (f : Disk -> Database -> result RestartRecoveryError (A * Database)) w w' r :
  transaction f w = (w', r) -> rc_files w' = rc_files w /\ rc_host w' = rc_host w /\
  ((rc_db w' = rc_db w /\ exists e, r = Err e) \/
   exists d a, f d (rc_db w) = Ok (a, rc_db w') /\ forall b, r = Ok b -> b = a).
Proof.
  unfold transaction, recovery_call. set (d := disk _). destruct (outcome _) as [|[|n]|[|n]]; simpl.
  - destruct (f d (rc_db w)) as [[a db]|e] eqn:E; intros [= <- <-]; (split_and!; [done..|]); [|left; eauto].
    right. exists d, a. split; [done|]. by intros b [= ->].
  - intros [= <- <-]. split_and!; [done..|left; eauto].
  - intros [= <- <-]. destruct (f d (rc_db w)) as [[a db]|e] eqn:E; (split_and!; [done..|]); [right|left; eauto].
    by exists d, a.
  - intros [= <- <-]. split_and!; [done..|left; eauto].
  - intros [= <- <-]. destruct (f d (rc_db w)) as [[a db]|e] eqn:E; (split_and!; [done..|]); [right|left; eauto].
    by exists d, a.
Qed.

Lemma verified_evidence_usage d db id packet artifact bytes seals assertion usage ev :
  verify_terminal_evidence_with_packet_bytes blake3 maximum d db id packet artifact bytes seals assertion usage = Ok ev ->
  ve_usage ev = usage.
Proof.
  unfold verify_terminal_evidence_with_packet_bytes, verify_terminal_evidence_inner. intros H. ok_inv H. done.
Qed.

Definition end_of (s : InterruptedSession) (ev : VerifiedTerminalEvidence) (db : Database)
  : result ProcessError (TerminalReceipt * Database) :=
  terminal_session blake3 db RECOVERY_PRINCIPAL (restart_command (session_of s)) (session_of s) (restart_report blake3 s) ev.

(** The recovery of one session: quiet up to its terminal transition. *)
Definition settling (s : InterruptedSession) (w : Recovering)
    (out : Recovering * result (Stop RestartRecoveryError) TerminalReceipt) : Prop :=
  (quiet w out.1 /\ exists e, out.2 = Err e) \/
  exists w1 ev, quiet w w1 /\ ve_usage ev = None /\
    transaction (fun _ db => map_err RecoveryProcess (end_of s ev db)) w1 = out.

Lemma settling_bind {A} s (m : Recovery A) (f : A -> Recovery TerminalReceipt) w :
  still m -> (forall a w1, m w = (w1, Ok a) -> settling s w1 (f a w1)) -> settling s w (recovery_bind A TerminalReceipt f m w).
Proof.
  intros Hm Hf. specialize (Hm w). unfold recovery_bind. destruct (m w) as [w1 [a|e]]; simpl in Hm.
  - destruct (Hf a w1 eq_refl) as [[Q He]|(w2 & ev & Q & Hr)]; [left|right].
    + split; [by etransitivity|done].
    + exists w2, ev. split; [by etransitivity|done].
  - left. split; [done|]. by exists e.
Qed.

Definition settles (s : InterruptedSession) (m : Recovery TerminalReceipt) : Prop := forall w, settling s w (m w).

Lemma settles_skip {A} s (m : Recovery A) (f : A -> Recovery TerminalReceipt) :
  still m -> (forall a, settles s (f a)) -> settles s (recovery_bind A TerminalReceipt f m).
Proof. intros Hm Hf w. apply settling_bind; [done|]. intros a w1 _. apply Hf. Qed.

Lemma reconcile_one_settling s : settles s (reconcile_one_session blake3 maximum turns staging_of s).
Proof.
  unfold reconcile_one_session.
  do 10 (apply settles_skip; [first [solve [eauto with still]
    |match goal with |- still (match ?o with _ => _ end) => destruct o end; [by apply still_now|eauto with still]]|intros ?]).
  intros w. apply settling_bind; [eauto with still|]. intros ev w1 (d & Hev)%query_Ok.
  match type of Hev with map_err _ ?x = _ => destruct x as [ev'|] eqn:E; [|done] end. injection Hev as ->.
  apply verified_evidence_usage in E. right. by exists w1, ev.
Qed.

(** ** The terminal transition of a stopped session *)

(** The session was interrupted at an unknown cost, and its campaign has failed. *)
Definition interrupted (id : Z) (db : Database) : Prop :=
  exists s t c, sessions db !! id = Some s /\ ses_lifecycle s = session_state_code SessionInterrupted /\
    ses_terminal s = Some t /\ st_cost_micro_usd t = None /\ campaigns db !! ses_campaign_id s = Some c /\
    cmp_cost_state c = COST_UNKNOWN /\ cmp_lifecycle c = CAMPAIGN_FAILED.

Lemma retry_of_running db id audit s r :
  sessions db !! id = Some s -> ses_terminal s = None -> terminal_retry db id audit = Ok r -> False.
Proof.
  intros Hs Ht. unfold terminal_retry. rewrite Hs. cbn [ok_or mbind result_bind]. rewrite Ht.
  intros H. ok_inv H. done.
Qed.

Lemma end_of_interrupts s ev db r db' row :
  accounted db -> sessions db !! session_of s = Some row -> ses_lifecycle row = SESSION_RUNNING ->
  ve_usage ev = None -> end_of s ev db = Ok (r, db') ->
  interrupted (session_of s) db' /\ paid_session_active db' = false.
Proof.
  intros Hacc Hrow Hrun Husage. unfold end_of, terminal_session. intros H. ok_inv H.
  all: destruct (acc_session _ Hacc _ _ Hrow) as (a0 & c0 & ? & ? & ? & Ea & Ec & Hid & Hl & [(_ & Hterm & Hcost & _)|[? _]]);
    [|unfold SESSION_RUNNING in *; lia].
  { exfalso. by eapply retry_of_running. }
  read_process.
  match goal with Ht : terminable_session _ _ _ _ = Ok _ |- _ =>
    apply terminable_session_Ok in Ht as (Hj & -> & Hrev & _ & Hpk & Hpos) end.
  apply session_join_Some in Hj as (Hs & Ha & Hc). simplify_eq.
  match goal with Hu : update_session_terminal _ _ _ _ _ = Ok _ |- _ =>
    destruct (update_session_terminal_Ok _ _ _ _ _ _ _ Hrow Hrun Hu) as [Hchk ->]; clear Hu end.
  match goal with Hf : finish_assignment _ _ _ = Ok _ |- _ => eapply finish_assignment_Ok in Hf; [subst|exact Ha] end.
  match goal with Hu : update_campaign _ _ _ = Ok _ |- _ => apply (update_campaign_Ok _ _ _ _ c) in Hu as [_ ->]; [|exact Hc] end.
  match goal with Hi : insert_audit _ _ _ _ _ _ _ _ = Ok _ |- _ =>
    unfold insert_audit in Hi; ok_inv Hi; read_process; apply insert_audit_row_Ok in Hi as [_ [audit ->]] end.
  match goal with Ho : terminal_outcome _ _ _ _ _ = Ok _ |- _ => rewrite Husage in Ho; injection Ho as <- end.
  split.
  - eexists _, _, _. cbn. rewrite lookup_insert_eq. do 4 (split; [reflexivity|]).
    split; [by rewrite lookup_insert_eq|]. cbn. by rewrite Hcost.
  - apply exists_where_false. intros j w. cbn. rewrite lookup_insert_Some. intros [[<- <-]|[Hne Hj]]; [done|].
    apply not_true_iff_false. intros Hw%Z.eqb_eq. apply Hne. symmetry.
    by eapply (ex_session _ (acc_exclusive _ Hacc) j (session_of s) w row tt);
      [..|unfold running_session; rewrite Hw|unfold running_session; rewrite Hrun].
Qed.
(** ** The sessions it recovers *)

Lemma NoDup_subsingleton {A} (l : list A) :
  NoDup l -> (forall x y, x ∈ l -> y ∈ l -> x = y) -> l = [] \/ exists x, l = [x].
Proof.
  intros Hnd Heq. destruct l as [|x [|y l]]; [by left|by right; exists x|]. exfalso.
  apply NoDup_cons in Hnd as [Hx _]. apply Hx. rewrite (Heq x y) by set_solver. set_solver.
Qed.

(** At most one session runs, so at most one is read. *)
Lemma running_session_rows_one db :
  exclusive db -> running_session_rows db = [] \/ exists id row a artifact kb,
    running_session_rows db = [(id, row, a, artifact, kb)] /\
    sessions db !! id = Some row /\ ses_lifecycle row = SESSION_RUNNING.
Proof.
  intros [_ X _ _]. unfold running_session_rows. set (rows := rows_where _ (sessions db)).
  assert (Hrows : forall x, x ∈ rows -> sessions db !! x.1 = Some x.2 /\ ses_lifecycle x.2 = SESSION_RUNNING).
  { intros [id row] [Hs Hr]%rows_where_elem. apply Z.eqb_eq in Hr. by split. }
  destruct (NoDup_subsingleton rows) as [Hnil|[[id row] E]]; [apply NoDup_rows_where| |by rewrite Hnil; left|].
  { intros [i x] [j y] [Hi Hx]%Hrows [Hj Hy]%Hrows. simpl in *.
    assert (i = j) as <- by (eapply (X i j x y tt); try done; unfold running_session; by rewrite ?Hx, ?Hy). congruence. }
  assert (Hin : (id, row) ∈ rows) by (rewrite E; by apply list_elem_of_singleton). apply Hrows in Hin as [Hs Hr].
  assert (order_by (fun r : Z * SessionRow => [r.1]) rows = [(id, row)]) as ->
    by (apply Permutation_singleton_r; rewrite order_by_perm, E; done).
  simpl. destruct (assignments db !! _) as [a|]; [simpl|by left].
  destruct (artifacts db !! _) as [artifact|]; [simpl|by left].
  destruct (kernel_builds db !! _) as [kb|]; [simpl|by left]. right. by eexists _, _, _, _, _.
Qed.

(** The foreign keys of a running session that the read joins. *)
Definition sessions_joined (db : Database) : Prop := map_Forall (fun _ row =>
  ses_lifecycle row = SESSION_RUNNING ->
  is_Some (a ← assignments db !! si_assignment_id (ses_identity row);
           artifacts db !! ai_packet_artifact_id (as_identity a)) /\
  is_Some (kernel_builds db !! si_kernel_build_id (ses_identity row))) (sessions db).

Lemma running_session_read db id row :
  accounted db -> sessions_joined db -> sessions db !! id = Some row -> ses_lifecycle row = SESSION_RUNNING ->
  running_session_rows db <> [].
Proof.
  intros Hacc Hj Hs Hr E. destruct (acc_session _ Hacc _ _ Hs) as (a & c & ? & ? & ? & Ha & _).
  destruct (Hj id row Hs Hr) as [[artifact Hart] [kb Hkb]]. rewrite Ha in Hart. simpl in Hart.
  assert (Hin : (id, row, as_identity a, artifact, kb) ∈ running_session_rows db); [|rewrite E in Hin; set_solver].
  apply list_elem_of_omap. exists (id, row). split; [|by rewrite Ha; simpl; rewrite Hart; simpl; rewrite Hkb].
  rewrite order_by_perm. apply rows_where_elem. split; [done|by apply Z.eqb_eq].
Qed.

(** What was read of a session. *)
Definition session_read (db : Database) (s : InterruptedSession) (row : SessionRow) : Prop :=
  sessions db !! session_of s = Some row /\ ses_lifecycle row = SESSION_RUNNING /\
  pid (rs_custody (is_row s)) = si_pid (ses_identity row) /\
  pgid (rs_custody (is_row s)) = si_pgid (ses_identity row).

Lemma u32_column_Ok v field u : u32_column v field = Ok u -> u = v.
Proof. unfold u32_column. intros H. by ok_inv H. Qed.

Lemma interrupted_sessions_one d db l :
  exclusive db -> interrupted_sessions blake3 maximum d db = Ok l ->
  (l = [] /\ running_session_rows db = []) \/ exists s row, l = [s] /\ session_read db s row.
Proof.
  intros Hex. unfold interrupted_sessions.
  destruct (running_session_rows_one db Hex) as [->|(id & row & a & artifact & kb & -> & Hs & Hr)];
    [by intros [= <-]; left|].
  intros H. cbn [map_ok] in H. ok_inv H. right.
  match goal with Hi : interrupted_session _ _ _ _ = Ok ?s |- _ => exists s, row; rename Hi into Hread end.
  split; [done|]. unfold interrupted_session in Hread. ok_inv Hread.
  match goal with Hi : restart_recovery_session _ _ _ _ _ _ = Ok _ |- _ => unfold restart_recovery_session in Hi; ok_inv Hi end.
  read_process. repeat match goal with Hu : u32_column _ _ = Ok _ |- _ => apply u32_column_Ok in Hu; subst end.
  done.
Qed.

(** ** The whole of it *)

(** An event about the process group of a session that runs. *)
Definition of_running (db : Database) (e : PlatformEvent) : Prop :=
  exists id row, sessions db !! id = Some row /\ ses_lifecycle row = SESSION_RUNNING /\
    match e with
    | Inspected p _ => p = si_pid (ses_identity row)
    | Probed g _ | Signalled g _ _ => g = si_pgid (ses_identity row)
    end.

Lemma addresses_running db s row e :
  session_read db s row -> addresses (rs_custody (is_row s)) e -> of_running db e.
Proof. intros (Hs & Hr & Hp & Hg) He. exists (session_of s), row. rewrite <- Hp, <- Hg. by destruct e. Qed.

Definition kernel_steps (ts : Z -> result string Z) : relation Database := rtc (kernel_step blake3 ts).

Lemma quiet_steps ts w w' : quiet w w' -> kernel_steps ts (rc_db w) (rc_db w').
Proof. intros Q. apply rtc_once, kernel_ambient, Q. Qed.

Lemma end_of_step ts s ev db a db' : map_err RecoveryProcess (end_of s ev db) = Ok (a, db') -> kernel_step blake3 ts db db'.
Proof.
  intros E. destruct (end_of s ev db) as [[r db1]|e] eqn:Ee; [|done]. injection E as <- <-.
  apply (kernel_process _ _ _ (EndSession RECOVERY_PRINCIPAL (restart_command (session_of s)) (session_of s)
    (restart_report blake3 s) ev)). cbn [execute_process]. unfold end_of in Ee. by rewrite Ee.
Qed.

(** One interrupted session: its recovery is a run of the kernel, ends it when it
    succeeds, and leaves the processes alone. *)
Lemma reconcile_one_run ts s row w w' r :
  accounted (rc_db w) -> session_read (rc_db w) s row ->
  reconcile_one_session blake3 maximum turns staging_of s w = (w', r) ->
  kernel_steps ts (rc_db w) (rc_db w') /\ rc_files w ⊆ rc_files w' /\ rc_host w' = rc_host w /\
  forall receipt, r = Ok receipt -> interrupted (session_of s) (rc_db w') /\ paid_session_active (rc_db w') = false.
Proof.
  intros Hacc (Hs & Hr & _) E. destruct (reconcile_one_settling s w) as [[Q [e He]]|(w1 & ev & Q & Hu & Ht)]; rewrite E in *.
  { simpl in *. split_and!; [by apply quiet_steps|apply Q|apply Q|]. by intros receipt ->. }
  apply transaction_run in Ht as (Ef & Eh & Hdb). destruct Q as [Qd Qf Qh]. rewrite Ef, Eh, Qh.
  assert (Hsteps : kernel_steps ts (rc_db w) (rc_db w1)) by (by apply rtc_once, kernel_ambient).
  destruct Hdb as [[-> [e ->]]|(d & a & Hend & Hok)]; [done|].
  split_and!; [|done|done|].
  - etransitivity; [exact Hsteps|]. by eapply rtc_once, end_of_step.
  - intros receipt _. destruct (end_of s ev (rc_db w1)) as [[r1 db1]|e] eqn:Ee; [|done]. injection Hend as <- <-.
    eapply (end_of_interrupts s ev (rc_db w1)); [|by rewrite (ambient_sessions _ _ Qd)|done..].
    eapply accounted_tables; [|exact Hacc]. unfold process_tables. destruct Qd as [_ -> -> -> ->]. done.
Qed.

Definition recovered_well (ts : Z -> result string Z) (w w' : Recovering)
    (r : result (Stop RestartRecoveryError) (list RestartRecoveredSession)) : Prop :=
  kernel_steps ts (rc_db w) (rc_db w') /\ rc_files w ⊆ rc_files w' /\
  (exists l, events (rc_host w') = events (rc_host w) ++ l /\ Forall (of_running (rc_db w)) l) /\
  forall reports, r = Ok reports -> sessions_joined (rc_db w) ->
    paid_session_active (rc_db w') = false /\
    forall id row, sessions (rc_db w) !! id = Some row -> ses_lifecycle row = SESSION_RUNNING ->
      interrupted id (rc_db w') /\ rrs_session_id <$> reports = [id] /\
      Probed (si_pgid (ses_identity row)) (Err SRCH) ∈ events (rc_host w').

Lemma recovered_nothing ts w w' r :
  quiet w w' -> (forall reports, r = Ok reports -> accounted (rc_db w) /\ running_session_rows (rc_db w) = []
    /\ sessions (rc_db w') = sessions (rc_db w)) -> recovered_well ts w w' r.
Proof.
  intros Q Hr. split_and!; [by apply quiet_steps|apply Q|exists []; rewrite app_nil_r, (quiet_host _ _ Q); split; [done|constructor]|].
  intros reports (Hacc & Hnone & Hsame)%Hr Hj.
  assert (Hno : forall id row, sessions (rc_db w) !! id = Some row -> ses_lifecycle row <> SESSION_RUNNING)
    by (intros id row Hs Hrun; by eapply running_session_read).
  split; [|intros id row Hs Hrun; by apply Hno in Hs].
  apply exists_where_false. intros id row Hs. apply Z.eqb_neq, (Hno id). by rewrite <- Hsame.
Qed.

Lemma recovered_one ts policy s row w w' r :
  accounted (rc_db w) -> session_read (rc_db w) s row ->
  recover_all blake3 maximum turns polls staging_of policy [s] w = (w', r) -> recovered_well ts w w' r.
Proof.
  intros Hacc Hread E. cbn [recover_all] in E. unfold mbind, recovery_bind, on_processes in E.
  destruct (terminate_owned_process_group polls (rs_custody (is_row s)) policy (rc_host w)) as [h1 o] eqn:Eg.
  apply emits_terminate in Eg as (l & Ev & Hc).
  assert (Hl : Forall (of_running (rc_db w)) l)
    by (eapply Forall_impl; [apply Hc|]; intros e He; by eapply addresses_running).
  destruct o as [o|e]; [|injection E as <- <-; split_and!; [apply rtc_refl|done|by exists l|done]].
  destruct (reconcile_one_session blake3 maximum turns staging_of s (set_host h1 w)) as [w1 o1] eqn:E1.
  apply (reconcile_one_run ts s row) in E1 as (Hsteps & Hfiles & Hhost & Hok); [|done..].
  assert (w' = w1) as -> by (by destruct o1; injection E as <- <-).
  split_and!; [exact Hsteps|exact Hfiles|exists l; by rewrite Hhost|].
  intros reports -> Hj. destruct o1 as [receipt|e]; [|discriminate]. injection E as <-.
  destruct (Hok receipt eq_refl) as [Hint Hpaid]. split; [exact Hpaid|]. intros id row' Hs' Hrun'.
  destruct Hread as (Hs & Hrun & Hp & Hg).
  assert (id = session_of s) as -> by (eapply (ex_session _ (acc_exclusive _ Hacc) id (session_of s) row' row tt); try done;
    unfold running_session; by rewrite ?Hrun, ?Hrun').
  assert (row' = row) as -> by congruence. split_and!; [exact Hint|done|].
  rewrite Hhost. simpl. rewrite Ev, <- Hg. apply elem_of_app. right.
  destruct (conduct_reported _ _ _ Hc o eq_refl) as [_ Hlast]. by apply last_Some_elem_of.
Qed.

(** C36: The recovery of a restarted daemon, wherever it fails or dies and whatever
    other processes do to the object store, is a run of the kernel that touches
    no process but the groups recorded for running sessions and replaces no file;
    when it returns, and the running sessions had the rows their foreign keys
    promise, nothing paid runs any more, and every session that ran is reported,
    was observed without a process group, is interrupted at an unknown cost and
    has failed its campaign. *)
Theorem recovery_ends_running_sessions ts policy w w' r :
  kernel_reachable blake3 ts (rc_db w) ->
  reconcile_daemon_restart blake3 maximum turns polls staging_of policy w = (w', r) -> recovered_well ts w w' r.
Proof.
  intros Hacc%kernel_accounted E. unfold reconcile_daemon_restart, mbind, recovery_bind in E.
  pose proof (still_query (fun d db => map_err RecoveryProcess (interrupted_sessions blake3 maximum d db)) w) as Q.
  destruct (query _ w) as [w1 [l|e]] eqn:Eq; simpl in Q; [|injection E as <- <-; by apply recovered_nothing].
  assert (Hdb : rc_db w1 = rc_db w) by (apply query_db in Eq; exact Eq).
  apply query_Ok in Eq as (d & Hl).
  destruct (interrupted_sessions blake3 maximum d (rc_db w)) as [l'|e] eqn:Ei; [|done]. injection Hl as ->.
  apply interrupted_sessions_one in Ei as [[-> Hnone]|(s & row & -> & Hread)]; [| |apply Hacc].
  - injection E as <- <-. apply recovered_nothing; [exact Q|]. by rewrite Hdb.
  - apply (recovered_one ts policy s row) in E as (Hsteps & Hfiles & Hev & Hok); [|by rewrite Hdb..].
    unfold recovered_well. rewrite Hdb, (quiet_host _ _ Q) in *. split_and!; [done| |done|done].
    etransitivity; [apply Q|done].
Qed.
End recovered.

#[export] Hint Resolve still_signed still_placeholder still_present still_stream still_partial still_seal : still.

(** * A write that a crash cut short *)

Lemma io_bind_Ok {E A B} (m : IO E A) (f : A -> IO E B) run run' b :
  io_bind A B f m run = (run', Ok b) -> exists a run1, m run = (run1, Ok a) /\ f a run1 = (run', Ok b).
Proof. unfold io_bind. destruct (m run) as [run1 [a|e]]; [eauto|done]. Qed.

Lemma recovery_bind_Ok `{Platform} {A B} (m : Recovery A) (f : A -> Recovery B) w w' b :
  recovery_bind A B f m w = (w', Ok b) -> exists a w1, m w = (w1, Ok a) /\ f a w1 = (w', Ok b).
Proof. unfold recovery_bind. destruct (m w) as [w1 [a|e]]; [eauto|done]. Qed.

Lemma on_objects_Ok `{Platform} {A} wrap (m : Cas A) w w' a :
  on_objects wrap m w = (w', Ok a) -> exists run, m (rc_run w) = (run, Ok a) /\ w' = set_run run w.
Proof.
  unfold on_objects, convert. destruct (m (rc_run w)) as [run [b|[e| |]]]; intros [= <- E]; try done. subst. eauto.
Qed.

Lemma check_Ok `{Platform} b e w w' u : check (require b e) w = (w', Ok u) -> b = true /\ w' = w.
Proof. unfold check, require. by destruct b; intros [= <-]. Qed.

Section objects.
Context (blake3 : list Z -> ContentDigest) (maximum : Z) (turns : nat) `{M : Machine}.

Lemma copied_bytes path t copied reads run run' all :
  copy_chunks maximum path t copied reads run = (run', Ok all) -> all = copied ++ read_to_end reads.
Proof.
  revert copied run. induction reads as [|[|b chunk] reads IH]; intros copied run; cbn [copy_chunks read_to_end];
    [intros [= _ <-]; by rewrite app_nil_r..|].
  intros (u & run1 & _ & E)%io_bind_Ok. apply io_bind_Ok in E as (v & run2 & _ & E). apply IH in E as ->.
  by rewrite <- (assoc_L (++)).
Qed.

Lemma or_discard_Ok {A} t (m : Cas A) run run' a :
  or_discard t m run = (run', Ok a) -> exists run1, m run = (run1, Ok a).
Proof.
  unfold or_discard. intros (r & run1 & E & Ed)%io_bind_Ok. unfold attempt in E.
  destruct (m run) as [run2 [b|[e| |]]]; try discriminate E; injection E as <- <-; [injection Ed as _ <-; eauto|].
  exfalso. unfold discard in Ed. apply io_bind_Ok in Ed as (u & run3 & _ & [=]).
Qed.

(** The seal of an adoption is the hash of what was read. *)
Lemma adopted_digest staging path run run' seal :
  adopt blake3 maximum turns staging path run = (run', Ok seal) ->
  exists r, open_staged_file staging path = Ok r /\ cas_digest seal = blake3 (read_to_end (chunks r)).
Proof.
  unfold adopt. intros (r & run1 & Er & E)%io_bind_Ok. exists r. split.
  { unfold lift in Er. destruct (open_staged_file staging path); injection Er as _ Er; by inversion Er. }
  unfold adopt_open_file in E. apply io_bind_Ok in E as (u & run2 & _ & E). apply io_bind_Ok in E as (t & run3 & _ & E).
  apply io_bind_Ok in E as ([digest len] & run4 & Es & E). apply or_discard_Ok in Es as [run5 Es].
  unfold stream_to_temp in Es. apply io_bind_Ok in Es as (all & run6 & Ec & Es). apply copied_bytes in Ec as ->.
  apply io_bind_Ok in Es as (v & run7 & _ & Es). injection Es as _ <- _.
  unfold publish_temporary in E. repeat (apply io_bind_Ok in E as (? & ? & _ & E)). by injection E as _ <-.
Qed.

Lemma recovery_read_back digest run run' bytes :
  read_verified blake3 maximum digest run = (run', Ok bytes) -> blake3 bytes = digest.
Proof.
  unfold read_verified, look, call. destruct (outcome _); [|done..]. simpl.
  destruct (read_object _ _ _ _) as [b|e] eqn:E; [|done]. intros [= _ ->]. apply read_object_Ok in E. tauto.
Qed.
End objects.

Section cut_short.
Context (blake3 : list Z -> ContentDigest) (maximum : Z) (turns polls : nat) (staging_of : string -> Staging).
Context `{M : Machine} `{P : Platform} `{R : BundleReader} `{J : WireBundle.Json AssignmentPacketWireV2}.

(** The assertion of a restart: every required read is missing. *)
Definition recovery_assertion (s : InterruptedSession) : list Z :=
  let packet := is_packet s in
  let required := by_path (pkt_required_reads packet) in
  canonical_assertion_bytes {|
      aci_session_id := session_of s; aci_assignment_id := pkt_assignment_id packet;
      aci_application_revision_id := pkt_application_revision_id packet; aci_campaign_id := pkt_campaign_id packet;
      aci_assignment_role := pkt_assignment_role packet |}
    (pkt_required_read_manifest_artifact_id packet) required [].

Lemma write_new_keeps operation directory name bytes w w' b held :
  rc_files w !! (directory, name) = Some held -> write_new operation directory name bytes w = (w', Ok b) ->
  rc_files w' !! (directory, name) = Some held.
Proof. intros Hf E. pose proof (still_write_new operation directory name bytes w) as Q. rewrite E in Q. by eapply lookup_weaken, Q. Qed.

Lemma pretty_no_slash (z : Z) : 47 ∉ string_bytes (pretty z).
Proof.
  change (string_bytes (pretty z)) with (json_number z).
  destruct (number_text z) as (d & _ & Hd & H).
  assert (Hn : 47 ∉ d).
  { intros Hin%list_elem_of_In. by apply (proj1 (forallb_forall _ _) Hd 47) in Hin. }
  destruct H as [(_ & -> & _)|(_ & -> & _)]; [done|]. by rewrite not_elem_of_cons.
Qed.

Lemma assertion_filename_plain (id : Z) : 47 ∉ string_bytes (assertion_filename id).
Proof.
  unfold assertion_filename. rewrite !string_bytes_app, !not_elem_of_app. split_and!; [|apply pretty_no_slash|];
    apply (bool_decide_unpack _); by vm_compute.
Qed.

(** A file of the recovery is read as it is. *)
Lemma staged_recovery_file files directory name held r :
  47 ∉ string_bytes name -> files !! (directory, name) = Some held ->
  open_staged_file (recovery_staging files directory) name = Ok r -> read_to_end (chunks r) = held.
Proof.
  intros Hn Hf H. unfold open_staged_file in H. ok_inv H.
  assert (Hc : path_components name = [string_bytes name]).
  { unfold path_components. rewrite split_bytes_single by done. simpl.
    unfold validate_relative_source in *. destruct (string_bytes name); [done|reflexivity]. }
  rewrite Hc in *. cbn [recovery_staging] in *. rewrite text_of_string, Hf in *. simplify_eq/=.
  destruct held; [done|by rewrite app_nil_r].
Qed.

Lemma sealed_assertion_bytes s a w w' sealed held :
  aci_session_id (wra_binding a) = session_of s ->
  rc_files w !! (directory_of s, assertion_filename (session_of s)) = Some held ->
  seal_assertion_after_daemon_restart blake3 maximum turns s a w = (w', Ok sealed) ->
  blake3 held = blake3 (rre_canonical_bytes (evidence_from_authority a)).
Proof.
  intros Hid Hf E. apply recovery_bind_Ok in E as (b & w1 & Ew & E).
  change (aci_session_id (rre_binding (evidence_from_authority a))) with (aci_session_id (wra_binding a)) in *.
  rewrite Hid in *. eapply write_new_keeps in Ew; [|exact Hf].
  apply recovery_bind_Ok in E as (artifact & w2 & Ea & E). apply on_objects_Ok in Ea as (run2 & Ea & ->).
  apply adopted_digest in Ea as (r & Er & Hdigest).
  apply (staged_recovery_file _ _ _ held) in Er; [|apply assertion_filename_plain|done]. rewrite Er in Hdigest.
  apply recovery_bind_Ok in E as (stored & w3 & Es & E). apply on_objects_Ok in Es as (run3 & Es & ->).
  apply recovery_read_back in Es. apply recovery_bind_Ok in E as (u & w4 & Eu & _). apply check_Ok in Eu as [Heq _].
  apply bool_decide_eq_true in Heq. congruence.
Qed.

Lemma recovery_assertion_bytes s identity a :
  aci_session_id identity = session_of s -> aci_assignment_id identity = pkt_assignment_id (is_packet s) ->
  read_authority identity (pkt_required_read_manifest_artifact_id (is_packet s)) (pkt_required_reads (is_packet s)) = Ok a ->
  wra_binding a = identity /\ rre_canonical_bytes (evidence_from_authority a) = recovery_assertion s.
Proof.
  intros Hs Ha H. unfold read_authority in H. ok_inv H. split; [done|].
  unfold evidence_from_authority, observations. cbn [rre_canonical_bytes wra_observed wra_binding wra_required
    wra_expected_manifest_artifact_id]. rewrite map_to_list_empty.
  unfold recovery_assertion, canonical_assertion_bytes. by rewrite Hs, Ha.
Qed.

(** One step of a recovery that succeeds, which leaves [held] in its place. *)
Lemma recovery_step_keeps {A B} (m : Recovery A) (f : A -> Recovery B) key held w w' b :
  still m -> rc_files w !! key = Some held -> recovery_bind A B f m w = (w', Ok b) ->
  exists a w1, m w = (w1, Ok a) /\ f a w1 = (w', Ok b) /\ rc_files w1 !! key = Some held.
Proof.
  intros Hm Hf (a & w1 & E & Ef)%recovery_bind_Ok. exists a, w1. split_and!; [done|done|].
  specialize (Hm w). rewrite E in Hm. by eapply lookup_weaken, Hm.
Qed.

(** One session: with another file in the assertion's place its recovery fails. *)
Lemma reconcile_one_blocked s w w' receipt held :
  rc_files w !! (directory_of s, assertion_filename (session_of s)) = Some held ->
  reconcile_one_session blake3 maximum turns staging_of s w = (w', Ok receipt) ->
  blake3 held = blake3 (recovery_assertion s).
Proof.
  intros Hf E. unfold reconcile_one_session in E.
  do 5 (eapply recovery_step_keeps in E as (? & ? & _ & E & Hf'); [clear Hf; rename Hf' into Hf| |exact Hf];
    [|first [solve [eauto with still]
       |match goal with |- still (match ?o with _ => _ end) => destruct o end; [by apply still_now|eauto with still]]]).
  eapply recovery_step_keeps in E as (identity & w1 & Ei & E & Hf1); [|eauto with still|exact Hf].
  apply query_Ok in Ei as [d Ei]. unfold actor_connection_identity in Ei.
  eapply recovery_step_keeps in E as (a & w2 & Ea & E & Hf2); [|eauto with still|exact Hf1].
  unfold check in Ea. injection Ea as _ Ea.
  destruct (read_authority _ _ _) as [a'|e] eqn:Er; [|done]. injection Ea as ->.
  apply recovery_bind_Ok in E as (sealed & w3 & Eseal & _).
  match type of Ei with map_err _ ?x = _ => destruct x as [i|] eqn:Ex; [|done] end. injection Ei as ->.
  ok_inv Ex. apply recovery_assertion_bytes in Er as [Hb <-]; [|done|done].
  eapply sealed_assertion_bytes; [|exact Hf2|exact Eseal]. by rewrite Hb.
Qed.

Lemma reconcile_one_files s w : rc_files w ⊆ rc_files (reconcile_one_session blake3 maximum turns staging_of s w).1.
Proof.
  destruct (reconcile_one_settling blake3 maximum turns staging_of s w) as [[Q _]|(w1 & ev & Q & _ & Ht)]; [apply Q|].
  destruct (reconcile_one_session _ _ _ _ _ w) as [w' r]. apply transaction_run in Ht as (Hfiles & _). simpl. rewrite Hfiles. apply Q.
Qed.

Lemma recover_all_blocked policy l s held w w' reports :
  s ∈ l -> blake3 held <> blake3 (recovery_assertion s) ->
  rc_files w !! (directory_of s, assertion_filename (session_of s)) = Some held ->
  recover_all blake3 maximum turns polls staging_of policy l w = (w', Ok reports) -> False.
Proof.
  intros Hin Hneq. revert w w' reports. induction l as [|s1 l IH]; intros w w' reports Hf E; [set_solver|].
  apply elem_of_cons in Hin as [->|Hin]; cbn [recover_all] in E; apply recovery_bind_Ok in E as (o & w1 & Eo & E); unfold on_processes in Eo;
    destruct (terminate_owned_process_group _ _ _ _) as [h r]; injection Eo as <- _;
    apply recovery_bind_Ok in E as (receipt & w2 & E1 & E).
  - apply Hneq. by apply (reconcile_one_blocked s1 (set_host h w) w2 receipt).
  - apply recovery_bind_Ok in E as (rest & w3 & E2 & _). eapply (IH Hin); [|exact E2].
    pose proof (reconcile_one_files s1 (set_host h w)) as Hfiles. rewrite E1 in Hfiles.
    eapply lookup_weaken; [exact Hf|exact Hfiles].
Qed.

Lemma recover_all_files policy l w : rc_files w ⊆ rc_files (recover_all blake3 maximum turns polls staging_of policy l w).1.
Proof.
  revert w. induction l as [|s l IH]; intros w; [done|]. cbn [recover_all]. unfold mbind, recovery_bind, on_processes.
  destruct (terminate_owned_process_group _ _ _ _) as [h [o|e]]; [|done].
  pose proof (reconcile_one_files s (set_host h w)) as Hs.
  destruct (reconcile_one_session _ _ _ _ _ _) as [w1 [receipt|e]]; [|exact Hs].
  specialize (IH w1). destruct (recover_all _ _ _ _ _ _ _ w1) as [w2 [rest|e]]; (etransitivity; [exact Hs|exact IH]).
Qed.

Lemma recovery_files policy w :
  rc_files w ⊆ rc_files (reconcile_daemon_restart blake3 maximum turns polls staging_of policy w).1.
Proof.
  unfold reconcile_daemon_restart, mbind, recovery_bind.
  pose proof (still_query (fun d db => map_err RecoveryProcess (interrupted_sessions blake3 maximum d db)) w) as Q.
  destruct (query _ w) as [w1 [l|e]]; [|apply Q]. etransitivity; [apply Q|apply recover_all_files].
Qed.

(** C38: A file that is not the assertion keeps the daemon from starting: when
    something else lies under the name of the recovery assertion of a running
    session, as a write cut short leaves it, the recovery does not succeed,
    whatever the machine, the processes and the policy do, unless the hash of the
    file is the hash of the assertion; and the file stays for the next recovery. *)
Theorem partial_assertion_blocks_restart policy w l s held :
  interrupted_sessions blake3 maximum (meanwhile (calls (rc_run w)) (disk (rc_run w))) (rc_db w) = Ok l -> s ∈ l ->
  rc_files w !! (directory_of s, assertion_filename (session_of s)) = Some held ->
  blake3 held <> blake3 (recovery_assertion s) ->
  let recovery := reconcile_daemon_restart blake3 maximum turns polls staging_of policy w in
  is_ok recovery.2 = false /\
  rc_files recovery.1 !! (directory_of s, assertion_filename (session_of s)) = Some held.
Proof.
  intros El Hs Hf Hneq recovery. split; [|by eapply lookup_weaken, recovery_files].
  apply not_true_iff_false. subst recovery. intros Hok.
  destruct (reconcile_daemon_restart _ _ _ _ _ _ w) as [w' [reports|e]] eqn:E; [|done].
  apply recovery_step_keeps with (1 := still_query _) (2 := Hf) in E as (l' & w1 & Eq & E & Hf1).
  assert (l' = l) as ->; [|by eapply recover_all_blocked].
  revert Eq. unfold query, recovery_call. destruct (outcome _); [|done..]. simpl. rewrite El. by intros [= _ ->].
Qed.
End cut_short.

(** * A daemon that died

    One Product session with a sealed packet, whose daemon is gone: a stream and
    a partial transcript in its staging root, and a process group that may live. *)

Definition crash_material : PacketMaterial := {|
  pm_assignment_id := 1; pm_campaign_id := 1; pm_application_revision_id := 1;
  pm_campaign := {| cm_revision := 0; cm_remaining := 1000; cm_kernel_build_id := sample_digest 9 |};
  pm_target := TargetProduct; pm_target_text := "product"; pm_context := packet_context;
  pm_system_prompt_artifact_id := 10; pm_assignment_prompt_artifact_id := 11;
  pm_required_read_manifest_artifact_id := 12;
  pm_system_prompt := string_bytes "system"; pm_assignment_prompt := string_bytes "work";
  pm_workspace_root := "/srv/work"; pm_staging_root := "/srv/staging";
  pm_profile := {| rp_assignment_role := ProductResearch; rp_system_template := rp_system_template packet_profile;
    rp_assignment_template := rp_assignment_template packet_profile; rp_policy := rp_policy packet_profile;
    rp_tools := rp_tools packet_profile; rp_model := rp_model packet_profile; rp_limits := rp_limits packet_profile |};
  pm_policy_bytes := packet_policy; pm_runtime := pm_runtime packet_material;
  pm_required_reads := pm_required_reads packet_material; pm_assignment_evidence := [] |}.

Definition crash_bytes : list Z := Eval vm_compute in
  match seal_packet summed crash_material with Ok (_, bytes) => bytes | Err _ => [] end.

Definition crash_packet_digest : ContentDigest := Eval vm_compute in
  match seal_packet summed crash_material with Ok (packet, _) => pkt_packet_digest packet | Err _ => [] end.

Definition crash_packet : Packet.AssignmentPacketV2 := domain_packet crash_material crash_packet_digest.

Definition crash_manifest : list Z := canonical_required_manifest (pkt_required_reads crash_packet).

Definition crash_disk : Disk := with_object summed crash_manifest (with_object summed crash_bytes empty_disk).

Definition stored_object (bytes : list Z) : ArtifactRow := {|
  art_digest := summed bytes; art_byte_length := Z.of_nat (length bytes);
  art_cas_relative_path := "objects/blake3/sample"; art_creating_kernel_build_id := 1 |}.

Definition crash_installation : Database :=
  set_artifacts (<[10 := stored_object (string_bytes "system")]> (<[11 := stored_object (string_bytes "work")]>
    (<[12 := stored_object crash_manifest]> (<[13 := stored_object crash_bytes]> (artifacts fresh_installation)))))
    fresh_installation.

Definition crash_command : PreparedAssignment := prepared_assignment {|
    amr_principal := "daemon"; amr_command_id := "launch-1"; amr_expected_campaign_revision := 0;
    amr_campaign_id := 1; amr_application_revision_id := 1; amr_target := TargetProduct |}
  crash_material crash_packet crash_bytes
  {| cas_digest := summed crash_bytes; cas_byte_length := Z.of_nat (length crash_bytes) |}.

Definition crash_commands : list (Command + ProcessCommand) :=
  match admit_packet summed 100000 crash_disk crash_command with
  | Ok wire => inr <$> [begin_campaign; PrepareAssignment (wire_prompts_of wire) (stored_command crash_command);
      BeginSession {| ss_principal := "driver"; ss_command_id := "start-1"; ss_expected_assignment_revision := 0;
        ss_assignment_id := 1; ss_packet_digest := pkt_packet_digest crash_packet;
        ss_custody := {| pid := 200; pgid := 200; started_at_unix_millis := 100 |} |}]
  | Err _ => []
  end.

Definition crash_database : Database :=
  default crash_installation (kernel_run summed clock crash_installation crash_commands).

Definition crash_staging : Staging := fun path =>
  let file chunks size := Some (StagedFile {| initial_length := size; initial_modified := Some 1; chunks := chunks;
    final_length := size; final_modified := Some 1 |}) in
  if bool_decide (path = []) then Some StagedDirectory
  else if bool_decide (path = [string_bytes "stdout.log"]) then file [[104; 105]; []] 2
  else if bool_decide (path = [string_bytes "session.ndjson"]) then file [[123; 125]; [10]; []] 3
  else None.

(** A host with one process group, which dies of [fatal], and a clock that only
    a pause moves. *)
Record SmallHost := { time : Z; alive : bool }.

Definition dies (fatal : option Signal) (signal : Signal) : bool :=
  match fatal, signal with Some TERM, _ | Some KILL, KILL => true | _, _ => false end.

Definition small_platform (fatal : option Signal) : Platform := {|
  os := SmallHost;
  now := fun h => (h, time h);
  getpgid := fun p h => (h, if alive h then Ok p else Err SRCH);
  test_kill_process_group := fun _ h => (h, if alive h then Ok tt else Err SRCH);
  kill_process_group := fun _ signal h =>
    ({| time := time h; alive := alive h && negb (dies fatal signal) |}, if alive h then Ok tt else Err SRCH);
  sleep := fun d h => {| time := time h + d; alive := alive h |};
|}.

#[global] Instance small_clock fatal : @LawfulClock (small_platform fatal) time.
Proof. constructor; simpl; intros; lia. Qed.

Definition small_host (fatal : option Signal) (living : bool) : @Host (small_platform fatal) :=
  @Build_Host (small_platform fatal) {| time := 0; alive := living |} [].

Definition crash_custody : ProcessCustodyV2 := {| pid := 200; pgid := 200; started_at_unix_millis := 100 |}.

Lemma only_the_recorded_group_witness :
  let P := small_platform (Some KILL) in
  exists h' l, terminate_owned_process_group 26 crash_custody bounded_default (small_host (Some KILL) true)
      = (h', Ok TerminatedAfterKill) /\
    events h' = l /\ well_conducted crash_custody l (Ok TerminatedAfterKill) /\ signals l = [TERM; KILL].
Proof.
  intros P. destruct (terminate_owned_process_group 26 crash_custody bounded_default (small_host (Some KILL) true))
    as [h' r] eqn:E.
  assert (Hr : r = Ok TerminatedAfterKill) by (revert E; vm_compute; by intros [= _ <-]). subst r.
  destruct (only_the_recorded_group 26 crash_custody bounded_default (small_host (Some KILL) true) h' _ E) as (l & Ev & Hl).
  exists h', l. split_and!; [done|exact Ev|done|]. apply (conduct_reported _ _ _ Hl _ eq_refl).
Defined.

(** A group that survives everything is refused after both waits. *)
Lemma group_termination_ends_witness :
  let P := small_platform None in
  let r := (terminate_owned_process_group 26 crash_custody bounded_default (small_host None true)).2 in
  r <> Err OutOfTurns /\ r = Err (Failed (GroupSurvivedKill 200 200)).
Proof.
  intros P r. split; [|by vm_compute].
  apply (@group_termination_ends (small_platform None) time (small_clock None) 26 crash_custody bounded_default (small_host None true));
    vm_compute; [done|discriminate|lia].
Defined.

(** The daemon that starts next, on a machine [m]; the group may live. *)
Definition crashed (fatal : option Signal) (living : bool) (files : gmap (string * string) (list Z))
  : @Recovering (small_platform fatal) := @Build_Recovering (small_platform fatal)
    {| disk := crash_disk; calls := 0; draws := 0 |} files crash_database (small_host fatal living).

Definition recover (m : Machine) (fatal : option Signal) : @Recovery (small_platform fatal) (list RestartRecoveredSession) :=
  @reconcile_daemon_restart summed 100000 100 26 (fun _ => crash_staging) m (small_platform fatal) _ _ bounded_default.

Definition observed (r : result (Stop RestartRecoveryError) (list RestartRecoveredSession)) : list ProcessGroupObservation :=
  match r with Ok reports => rrs_process_group_observation <$> reports | Err _ => [] end.

Lemma crash_reachable fatal living files : kernel_reachable summed clock (rc_db (crashed fatal living files)).
Proof.
  cbn [rc_db crashed]. exists crash_installation. split; [by repeat split|].
  apply (kernel_run_steps _ _ _ crash_commands). unfold crash_database.
  assert (Hd : is_Some (kernel_run summed clock crash_installation crash_commands))
    by (apply (bool_decide_unpack _); vm_compute; exact I).
  destruct (kernel_run summed clock crash_installation crash_commands); [done|]. by destruct Hd.
Qed.

Lemma crash_joined fatal living files : sessions_joined (rc_db (crashed fatal living files)).
Proof. cbn [rc_db crashed]. apply (bool_decide_unpack _). vm_compute. exact I. Qed.

Lemma crash_running fatal living files : exists row, sessions (rc_db (crashed fatal living files)) !! 1 = Some row /\
  ses_lifecycle row = SESSION_RUNNING.
Proof.
  cbn [rc_db crashed]. assert (Hrun : (ses_lifecycle <$> sessions crash_database !! 1) = Some SESSION_RUNNING)
    by (vm_compute; reflexivity).
  destruct (sessions crash_database !! 1) as [row|]; [|done]. exists row. split; [done|]. by injection Hrun.
Qed.

(** The recovery of the session, with the signals its group needed. *)
Lemma recovery_ends_running_sessions_witness :
  let P := small_platform (Some KILL) in
  exists w' reports, recover (machine None) (Some KILL) (crashed (Some KILL) true ∅) = (w', Ok reports) /\
    rrs_process_group_observation <$> reports = [TerminatedAfterKill] /\
    paid_session_active (rc_db w') = false /\ interrupted 1 (rc_db w').
Proof.
  intros P.
  assert (Hr : observed (recover (machine None) (Some KILL) (crashed (Some KILL) true ∅)).2 = [TerminatedAfterKill])
    by (vm_compute; reflexivity).
  destruct (recover (machine None) (Some KILL) (crashed (Some KILL) true ∅)) as [w' r] eqn:E. cbn [snd] in Hr.
  destruct r as [reports|e]; [|discriminate]. exists w', reports. split; [reflexivity|]. unfold recover in E.
  destruct (@recovery_ends_running_sessions summed 100000 100 26 (fun _ => crash_staging) (machine None) P
    reference_reader reference_packets clock bounded_default (crashed (Some KILL) true ∅) w' (Ok reports)
    (crash_reachable _ _ _) E) as (_ & _ & _ & Hok).
  destruct (Hok reports eq_refl (crash_joined _ _ _)) as [Hpaid Hall].
  destruct (crash_running (Some KILL) true ∅) as (row & Hrow & Hrun).
  split_and!; [exact Hr|exact Hpaid|]. by apply (Hall 1 row Hrow).
Defined.

(** Where the machine dies while it writes the assertion, a file stays that is
    not the assertion; the next daemon adopts it, registers it and stops. *)
Definition half_written : gmap (string * string) (list Z) :=
  rc_files (recover (machine (Some 53%nat)) (Some TERM) (crashed (Some TERM) false ∅)).1.

Example assertion_cut_short : half_written !! ("1", assertion_filename 1) = Some [].
Proof. vm_compute. reflexivity. Qed.

Definition stopped_by (r : result (Stop RestartRecoveryError) (list RestartRecoveredSession)) : option RestartRecoveryError :=
  match r with Err (Failed e) => Some e | _ => None end.

Example next_daemon_stops :
  stopped_by (recover (machine None) (Some TERM) (crashed (Some TERM) false half_written)).2
    = Some (RecoveryRead AssertionChanged).
Proof. vm_compute. reflexivity. Qed.

Definition one_blocked (files : gmap (string * string) (list Z)) (r : result ProcessError (list InterruptedSession)) : bool :=
  match r with
  | Ok [s] => bool_decide (files !! (directory_of s, assertion_filename (session_of s)) = Some [])
      && negb (bool_decide (summed [] = summed (recovery_assertion s)))
  | _ => false
  end.

Lemma one_blocked_Ok files r : one_blocked files r = true -> exists s, r = Ok [s] /\
  files !! (directory_of s, assertion_filename (session_of s)) = Some [] /\ summed [] <> summed (recovery_assertion s).
Proof.
  destruct r as [[|s [|s2 l]]|e]; try done. unfold one_blocked.
  intros [Hf%bool_decide_eq_true Hneq%negb_true_iff%bool_decide_eq_false]%andb_true_iff. eauto.
Qed.

Lemma partial_assertion_blocks_restart_witness :
  exists key held, half_written !! key = Some held /\
  let recovery := recover (machine None) (Some TERM) (crashed (Some TERM) false half_written) in
  is_ok recovery.2 = false /\ rc_files recovery.1 !! key = Some held.
Proof.
  assert (Hread : one_blocked half_written (interrupted_sessions summed 100000 crash_disk crash_database) = true)
    by (vm_compute; reflexivity).
  apply one_blocked_Ok in Hread as (s & E & Hf & Hneq).
  unfold recover. exists (directory_of s, assertion_filename (session_of s)), []. split; [exact Hf|].
  refine (@partial_assertion_blocks_restart summed 100000 100 26 (fun _ => crash_staging) (machine None)
    (small_platform (Some TERM)) reference_reader reference_packets bounded_default
    (crashed (Some TERM) false half_written) [s] s [] _ _ _ _); [|by apply list_elem_of_singleton| |exact Hneq].
  - cbn [rc_run rc_db crashed meanwhile machine calls disk]. exact E.
  - cbn [rc_files crashed]. exact Hf.
Defined.
